(* ===== verification/_CoqProject ===== *)
-Q . S2P
Prelude.v
Heap.v
Effects.v
LinkedList.v
MergeSort.v
Deque.v
CircularBuffer.v
TSStack.v
StringList.v
CString.v
HashMap.v
UtdVector.v
Metadata.v
Conflict.v
DnsBuffer.v
DnsName.v
DnsRecord.v
DnsRecordOps.v
DnsHashTable.v
DnsRecordList.v
DnsZone.v
DnsZoneList.v
DnsService.v
DnsMessage.v
DnsProtocol.v
DnsUpdate.v
RaftLog.v
Raft.v
RaftElection.v
RaftReplicate.v
RaftCommit.v
RaftQuorum.v
RaftApply.v
RaftMember.v
Filter.v
Candidates.v
Search.v
IndexScan.v
EntryCodec.v
IndexUnique.v
IndexWrite.v
EntryModify.v
EntryFacts.v
ModifyIndex.v
