(* ===== verification/Prelude.v ===== *)
(** * Lightwave: a verification development of the directory and DNS core

    Lightwave is a set of identity services in C: a multi-master LDAP directory
    ([vmdir]), a directory replicated with Raft ([lwraft]), a DNS server, a
    certificate authority and the daemons and clients around them.  This
    development verifies the parts that carry the replicated data: the
    container and string library the servers are written with, the metadata
    and the conflict rules of multi-master replication, the search and the
    storage of entries in the directory, the DNS server from the bytes of a
    request to its response, and the consensus module of the Raft directory.

    ** Parts and files

    - [Prelude] (this file): machine integers, lemmas on lists, comparators.
    - [Heap]: the C heap, a state monad with undefined behaviour as [None],
      doubly linked segments, the symbolic error codes.
    - [LinkedList] ([vmdir/common/linkedlist.c], [sortedlinkedlist.c]),
      [MergeSort] ([mergesort.c]), [Deque] ([deque.c]): pointer structures on
      that heap.  Each function of the source is the definition of the same
      name; its loops are fixpoints with fuel taken from the size of the memory.
    - [CircularBuffer] ([circularbuffer.c]), [TSStack] ([tsstack.c]),
      [StringList] ([stringlist.c]): a ring in a block, a stack with a lock, a
      growing array of string pointers.
    - [CString] ([string.c]): strings as byte lists, the parts of the C library
      the code calls, tokenising, joining, trimming and number conversion.
    - [HashMap]: the interface (class [HashMap]) of the hash map of the runtime
      library, which is outside the repository, its documented laws, and an
      association list that satisfies them.
    - [UtdVector] ([server/common/vectorutils.c],
      [server/replication/utdvector.c]): the up-to-dateness vector, proved
      against the hash map interface.
    - [Metadata] ([server/common/metadata.c], [replmetadata.c],
      [valuemetadata.c]): the text forms of attribute and value metadata.
    - [Conflict] ([server/replication2/conflictresolution.c], the replication that
      the build selects): which update of an attribute or value wins.
    - [Effects]: the monad of functions with a state, an allocator and error
      codes, and integers as big-endian bytes; the DNS server and Raft use it.
    - [DnsBuffer] ([vmdns/common/buffer.c], [memory.c]): the message buffer with
      its cursors, its growing block and compression pointers.  [DnsName]
      ([record.c], [string.c]): domain names as labels and as strings.
      [DnsRecord] ([record.c], [record-*.c], [globals.c]): records of every type
      and their byte forms.  [DnsRecordOps] (the same files): comparison,
      matching, validation and copies.
    - [DnsHashTable] ([vmdns/server/common/hashtable.c]), [DnsRecordList]
      ([recordlist.c], [nameEntry.c]), [DnsZone] ([zone.c], [lru.c], parts of
      [cache.c]), [DnsZoneList] ([zonelist.c]): the cache of a zone, from the
      chains of the table to the zones of the server.
    - [DnsService] ([serviceapi.c], [store.c], [cache.c]): lookups and changes of
      records through the cache; the directory below is the class [Directory],
      whose laws state what the entries of an LDAP directory promise, and
      which may fail at any call.
    - [DnsMessage] ([dnsparser.c], [dnsutils.c]): messages and their sections.
      [DnsProtocol] and [DnsUpdate] ([dnsprotocol.c]): queries, updates and the
      dispatch of requests over all of the above.
    - [RaftLog] ([lwraft/server/replication/replentry.c]): the byte format of
      log entries and of transactions, the log store.  The log is one map; with
      a previous database beside the current one it is the map of both
      ([log_view_fetch]).
    - [Raft] ([lwraft/server/replication/raftldaprpc.c], [thread.c],
      [replentry.c]): [gRaftState] with its persistent part as the record
      [raft_state], the RequestVote and AppendEntries handlers, the vote thread,
      vote requests, the evaluation of a vote, loading the state at start.
    - [RaftElection]: a cluster of such servers, whose threads and messages
      interleave in any order.
    - [RaftReplicate] ([thread.c], [_VmDirAppendEntriesRpc]): a peer thread of a
      leader, which sends entries to its peer and goes back and forward in the
      log until the peer has caught up.  [RaftCommit] ([thread.c], [replentry.c]):
      the encoding of a transaction as a log entry, its storing, and
      [VmDirRaftPrepareCommit], cut at its waits.  [RaftQuorum]: the committing
      thread, the peer threads and the peers as one system of events.
      [RaftApply] ([thread.c]): the application of committed entries to the
      directory (class [RaftApply.Directory]) and the ids of new entries.
      [RaftMember] ([thread.c]): compaction of the log, members that come and
      go, and the questions other parts of the server ask.
    - [Filter] ([vmdir/server/ldap-head/filter.c]): the filter of a search as a
      tree, and the test of an entry against it.  [Candidates]
      ([server/common/candidates.c]): lists of entry ids with their
      intersection, subtraction and union.  [Search]
      ([server/middle-layer/search.c]): the candidates of a filter, built
      against the class [CandidateSource], and the entries that are sent.
    - [IndexScan] ([server/mdb-store/indexreadutil.c], [indexcfg/api.c],
      [indexdesc.c]): index keys and scans on the class [Lmdb], which discharge
      the promise that [Search] relies on.  [EntryCodec]
      ([server/common/entryencodedecode.c]): entries as bytes.  [IndexUnique]
      ([indexwriteutil.c], [iterate.c], [entry.c]): the check that a value is
      unique in its scopes.  [IndexWrite] ([indexwriteutil.c], [entry.c]):
      adding and removing an entry with its index records and metadata.
    - [EntryModify] ([server/middle-layer/modify.c], [dn.c],
      [server/common/vmdirentry.c], [mdb-store/entry.c]): the modifications of a
      request, applied to an entry and rewritten for the backend, the backend
      that takes them to the indices, and reading an entry by its DN.
      [EntryFacts]: an entry as a set of values, which the modifications change.
      [ModifyIndex]: both halves together, a modified entry and its indices.

    The containers are used by everything above them; where a client only needs
    the contents ([CString] for string lists, [RaftLog] for deques) it uses the
    list that the refinement theorem of the container justifies.  Metadata and
    vectors use strings and the hash map; the conflict rules use metadata.  In
    the DNS server each file uses the lemmas of the files before it: a request is
    parsed by the buffer, its zone found in the list, its records taken from the
    cache or the directory, and the response written by the buffer.  The Raft
    handlers use the log store, and the cluster uses the handlers; the peer
    threads run the handler of the peer, and the committing thread counts what
    the peer threads report.  A search evaluates filters with candidates, the
    candidates come from scans of the indices, and the indices and entries are
    those that the write path maintains with the codec, the metadata and the
    check of uniqueness.  A modify request goes through the middle layer, which
    makes of it the modifications that the write path relies on.

    ** How the code is modelled

    Integers keep their width: [u32], [u64], [s32], [s64] are written where the
    C code converts or wraps.  Functions that return an error code return a
    value of [dwerror] with their outputs; [BAIL_ON_VMDIR_ERROR] is the bind of
    a monad or an early return.  Memory is explicit where the claim is about
    pointers (nodes, headers, the order of frees) or about bounds (blocks and
    offsets).  Allocation and backend calls fail as told by an outcome sequence
    that the theorems quantify over or fix to success.  The comparison of the
    runtime library, the hash map, the schema, the normal form of a DN and LMDB
    are parameters with stated laws, instantiated in the witnesses (LMDB by a
    sorted list of records with cursors as positions).  Code that runs
    under a mutex is one step; where the code releases the mutex there is one
    definition per critical section.

    ** What the theorems show

    Containers: refinement of abstract sequences, queues, stacks and rings by
    the pointer code, with errors, allocation failures and the absence of
    undefined behaviour; sorting; exact release of memory.  Strings: round trips
    of numbers, token lists and multi-strings, decision of prefixes and
    suffixes, normal forms of white space.  Replication: round trips of vectors
    and metadata, merging of vectors as a pointwise maximum, the conflict rule
    as a strict order, convergence of replicas, the outcome of resolution.
    DNS: reading a request stays inside its bytes and gives values of the widths
    of their fields, under conditions that name what the code does not check;
    records and messages survive writing and reading; the table is a map, the
    cache, as long as nothing is evicted, a list of names in the order of their
    last use, and round robin serves every record in turn; lookups of names
    without aliases return what the directory has, and changes keep the cache in
    agreement with it when it has the name in one spelling; following aliases
    ends; and a question on the wire gets the reply with exactly the records of
    its zone.
    Raft: round trips of the log format, the search in the log, the exact
    behaviour of both handlers, preservation of applied entries under every
    failure, log matching, and election safety; a leader brings a peer up to
    date; a commit returns, decides by the count of its replicas, and has a
    majority of the cluster behind it, where peers with an empty log are counted
    without having the entry; entries are applied in order and once; compaction
    keeps what is needed, the size of the cluster is the number of
    its members, and new entries get ids of their own.
    Directory: the filter is the three-valued one of RFC 4511 and the test of
    substrings finds the pieces in order; the connectives of candidate lists are
    those of sets; a search
    sends exactly the entries that pass its filter when their number is within
    the limits and the indices are of the kind that its items need; entries
    survive encoding and decoding; the check of uniqueness refuses exactly the
    values that another entry in the scope has; adding an entry puts exactly its
    records into the indices, which removing it takes away again but for a
    second normal form of its DN; a modify request changes the values of an entry
    as RFC 4511 says or reports the error it has, and after it the indices have
    the records of the new values, and beside them only those of members that
    were dropped on the way.  The conditions of each theorem are in its comment.  Some theorems show what the
    code does against its intention: two leaders in one term through a vote
    counted late, a second vote in a term after a restart, and the defects of
    the containers and of the DNS server named in the files.

    ** Fuel

    Loops over linked cells take the number of allocated cells as fuel, which
    bounds every chain without repetition; loops over strings and blocks take
    their length; the search for a previous log takes the range of indices.
    A name in a message takes as many rounds as the message has bytes left, the
    labels behind a pointer 130 rounds, more than fit into 255 characters; a
    growing hash table inserts at depth 3 at most; aliases are followed to the
    level 5 of the code.
    A call to a peer takes two rounds for each entry between the peer's log and
    the leader's; a scan, an iterator and the removal of metadata take more
    rounds than the database has records; the merges of candidates take the
    lengths of both lists.
    The theorems that a function returns a result are proved with this fuel, so
    it is enough.  Number printing uses twenty digits, enough for 64 bits.

    ** Not modelled

    Directory: parsing of filters and requests, paged results, access control,
    the schema beyond the properties of attribute types that filters and codec
    use, normalisation of DNs (a parameter), the steps of a modify request around its
    application (locks and retries, plugins, checks, new metadata), the consumer cycle of multi-master replication, password and lockout
    policy.  Raft: what an applied entry does to the directory (a class), opening
    connections and binding to peers.  DNS: the LDAP client code (an interface),
    key negotiation, the check and the making of signatures (parameters),
    forwarding, sockets, the refresh and purge threads.  Elsewhere: protocol
    input and output (LDAP, REST and RPC heads), wrappers of OpenSSL and Kerberos,
    logging, thread start and shutdown, the authentication framework and
    certificate daemons, whose functions are calls of the directory client, the
    registry and OpenSSL, the Java services, tools and packaging. *)

From Stdlib Require Export ZArith Lia Sorted.
From stdpp Require Export base tactics list gmap strings.

(** ** Machine integers *)

Module Machine.

Open Scope Z_scope.

(** [DWORD], [UINT32]: unsigned 32-bit, arithmetic modulo 2^32. *)
Definition u32 (z : Z) : Z := z mod 2 ^ 32.

(** [UINT64], [size_t], [unsigned long long]: unsigned 64-bit. *)
Definition u64 (z : Z) : Z := z mod 2 ^ 64.

(** Two's complement reading of the low 64 (32) bits: a cast to [INT64]
    ([int]). *)
Definition s64 (z : Z) : Z :=
  let r := z mod 2 ^ 64 in if Z.ltb r (2 ^ 63) then r else r - 2 ^ 64.

Definition s32 (z : Z) : Z :=
  let r := z mod 2 ^ 32 in if Z.ltb r (2 ^ 31) then r else r - 2 ^ 32.

Definition is_u32 (z : Z) : Prop := 0 <= z < 2 ^ 32.
Definition is_u64 (z : Z) : Prop := 0 <= z < 2 ^ 64.
Definition is_s64 (z : Z) : Prop := - 2 ^ 63 <= z < 2 ^ 63.

Lemma u32_id z : is_u32 z → u32 z = z.
Proof. apply Z.mod_small. Qed.

Lemma u64_id z : is_u64 z → u64 z = z.
Proof. apply Z.mod_small. Qed.

Lemma u32_range z : is_u32 (u32 z).
Proof. apply Z.mod_pos_bound. lia. Qed.

Lemma u64_range z : is_u64 (u64 z).
Proof. apply Z.mod_pos_bound. lia. Qed.

Lemma u64_add_l a b : u64 (u64 a + b) = u64 (a + b).
Proof. apply Zplus_mod_idemp_l. Qed.

Lemma u64_sub_l a b : u64 (u64 a - b) = u64 (a - b).
Proof. apply Zminus_mod_idemp_l. Qed.

Lemma s64_u64 z : is_s64 z → s64 (u64 z) = z.
Proof.
  unfold is_s64, s64, u64. intros Hz.
  rewrite Z.mod_mod by lia.
  destruct (Z.ltb_spec (z mod 2 ^ 64) (2 ^ 63));
    destruct (decide (0 <= z)) as [Hp | Hn].
  - apply Z.mod_small. lia.
  - rewrite <- (Z.mod_unique z (2 ^ 64) (-1) (z + 2 ^ 64)) in H by lia. lia.
  - rewrite Z.mod_small in H by lia. lia.
  - rewrite <- (Z.mod_unique z (2 ^ 64) (-1) (z + 2 ^ 64)) by lia. lia.
Qed.

Lemma s64_id z : is_s64 z → s64 z = z.
Proof. intros H. rewrite <- (s64_u64 z H) at 2. unfold s64, u64. by rewrite Z.mod_mod. Qed.

Lemma u64_s64 z : is_u64 z → u64 (s64 z) = z.
Proof.
  unfold is_u64, s64, u64. intros Hz. rewrite (Z.mod_small z) by lia.
  destruct (Z.ltb_spec z (2 ^ 63)); [apply Z.mod_small; lia |].
  symmetry. apply (Z.mod_unique _ _ (-1)); lia.
Qed.

End Machine.
Export Machine.

(** ** Lists *)

Lemma NoDup_snoc {A} (l : list A) (x : A) : NoDup (l ++ [x]) ↔ NoDup l ∧ x ∉ l.
Proof.
  rewrite NoDup_app. split.
  - intros (Hl & Hx & _). split; [done |]. intros Hin. apply (Hx x Hin). set_solver.
  - intros [Hl Hx]. split_and!; [done | set_solver | apply NoDup_singleton].
Qed.

Lemma alter_insert_Some `{Countable K} {A} (f : A → A) (m : gmap K A) k x :
  m !! k = Some x → alter f k m = <[k := f x]> m.
Proof.
  intros Hx. apply map_eq. intros j. destruct (decide (k = j)) as [-> |].
  - by rewrite lookup_alter_eq, lookup_insert_eq, Hx.
  - by rewrite lookup_alter_ne, lookup_insert_ne.
Qed.

(** A cell in the middle of a chain without repetition. *)
Lemma NoDup_middle {A} (l1 l2 : list A) (x : A) :
  NoDup (l1 ++ x :: l2) ↔ NoDup (l1 ++ l2) ∧ x ∉ l1 ∧ x ∉ l2.
Proof.
  rewrite <- Permutation_middle, NoDup_cons, elem_of_app. tauto.
Qed.

Lemma NoDup_app_disjoint {A} (l1 l2 : list A) :
  NoDup (l1 ++ l2) → NoDup l1 ∧ NoDup l2 ∧ l1 ## l2.
Proof. intros (? & Hd & ?)%NoDup_app. split_and!; [done | done |]. exact Hd. Qed.

Lemma not_elem_of_single {A} (x y : A) : x ≠ y → x ∉ [y].
Proof. intros Hne. apply not_elem_of_cons. split; [done | apply not_elem_of_nil]. Qed.

Lemma filter_id {A} (P : A → Prop) `{!∀ x, Decision (P x)} (l : list A) :
  (∀ x, x ∈ l → P x) → filter P l = l.
Proof.
  induction l as [|x l IH]; intros Hl; [done |].
  rewrite filter_cons_True by (apply Hl; left). f_equal. apply IH. intros y Hy. apply Hl. by right.
Qed.

Lemma NoDup_map_filter {A B} (f : A → B) (P : A → Prop) `{!∀ x, Decision (P x)} (l : list A) :
  NoDup (map f l) → NoDup (map f (filter P l)).
Proof.
  induction l as [|x l IH]; intros Hnd; [done |]. cbn [map] in Hnd.
  apply NoDup_cons in Hnd as [Hx Hnd]. rewrite filter_cons. destruct (decide (P x)); [| by apply IH].
  cbn [map]. apply NoDup_cons. split; [| by apply IH]. intros Hin. apply Hx.
  apply list_elem_of_fmap in Hin as (y & -> & [_ Hy]%list_elem_of_filter). by apply list_elem_of_fmap_2.
Qed.

(** ** Comparators *)

(** A boolean comparator decides a relation in one direction and its converse
    in the other: a total preorder, or the strict order [<] of integer keys
    (with [R] the order [<=]). *)
Class SortCmp {A : Type} (cmp : A → A → bool) (R : A → A → Prop) := {
  cmp_true a b : cmp a b = true → R a b;
  cmp_false a b : cmp a b = false → R b a
}.
