(* ===== verification/Heap.v ===== *)
(** * Heap: the C heap, its monad, and doubly linked segments

    The containers of [vmdir/common] are pointer structures.  This file gives
    the memory they live in ([mem]: node cells, list headers, an allocator that
    may fail), a state monad whose [None] is undefined behaviour (a NULL or
    dangling dereference, a double free), and the representation predicate
    [dlseg] of a doubly linked segment, stated once for every node type that
    implements the interface [DNode]. *)

From S2P Require Import Prelude.

Open Scope Z_scope.

Create HintDb heap.

(** Return codes.  They are kept symbolic: several of the numeric values come
    from headers outside the repository. *)
Inductive dwerror :=
  | ERROR_SUCCESS
  | ERROR_INVALID_PARAMETER
  | ERROR_NO_MEMORY
  | ERROR_NO_MORE_ITEMS
  | VMDIR_ERROR_INVALID_PARAMETER
  | VMDIR_ERROR_NOT_FOUND
  | VMDIR_ERROR_SIZELIMIT_EXCEEDED
  | VMDIR_ERROR_BACKEND_INVALID_METADATA
  | VMDIR_ERROR_INVALID_VECTOR_STR
  | VMDIR_ERROR_UNWILLING_TO_PERFORM
  | VMDIR_ERROR_BACKEND_ATTR_META_DATA_NOTFOUND
  | VMDIR_ERROR_INVALID_MEMORY
  | LDAP_OPERATIONS_ERROR
  | LW_STATUS_NOT_FOUND
  | LDAP_NO_SUCH_OBJECT
  | VMDIR_ERROR_BACKEND_ENTRY_EXISTS
  | ERROR_INSUFFICIENT_BUFFER
  | ERROR_NOT_ENOUGH_MEMORY
  | ERROR_CANTWRITE
  | ERROR_LABEL_TOO_LONG
  | ERROR_EMPTY | ERROR_NOT_FOUND | ERROR_NOT_READY | ERROR_NOT_SUPPORTED | ERROR_OPERATION_NOT_PERMITTED
  | ERROR_INTERNAL_ERROR | ERROR_OUT_OF_STRUCTURES | ERROR_ALREADY_EXISTS | ERROR_INVALID_STATE | ERROR_NO_DATA
  | VMDIR_ERROR_SERVER_DOWN | VMDIR_ERROR_CANNOT_CONNECT_VMDIR | VMDIR_ERROR_PASSWORD_POLICY_VIOLATION
  | VMDIR_ERROR_PASSWORD_TOO_LONG | VMDIR_ERROR_USER_LOCKOUT | VMDIR_ERROR_USER_NO_CREDENTIAL
  | VMDIR_ERROR_PASSWORD_EXPIRED | VMDIR_ERROR_ACCOUNT_LOCKED | VMDIR_ERROR_ACCOUNT_DISABLED
  | VMDIR_ERROR_USER_INVALID_CREDENTIAL | VMDIR_ERROR_BAD_ATTRIBUTE_DATA | VMDIR_ERROR_NO_SUCH_ATTRIBUTE
  | VMDIR_ERROR_BACKEND_ENTRY_NOTFOUND | VMDIR_ERROR_ML_WRITE_TIMEOUT | VMDIR_ERROR_INVALID_DN
  | VMDIR_ERROR_INVALID_ENTRY | VMDIR_ERROR_INVALID_ATTRIBUTETYPES | VMDIR_ERROR_BACKEND_OPERATIONS
  | VMDIR_ERROR_INTERNAL_SEARCH_LIMIT | ERROR_BACKEND_ERROR | LDAP_UNWILLING_TO_PERFORM
  | MDB_NOTFOUND | MDB_KEYEXIST | ERROR_BACKEND_PARENT_NOTFOUND | ERROR_BACKEND_CONSTRAINT
  | VMDIR_ERROR_DATA_CONSTRAINT_VIOLATION | VMDIR_ERROR_TYPE_OR_VALUE_EXISTS
  (** an error of the backend that the caller only forwards *)
  | BACKEND_ERROR (code : Z).

#[export] Instance dwerror_eq_dec : EqDecision dwerror.
Proof. solve_decision. Defined.

Definition NULL : Z := 0.

(** The header of a [VDIR_LINKED_LIST] and of a [DEQUE]: both structures have
    exactly these three fields. *)
Record list_hdr := LIST_HDR { pHead : Z; pTail : Z; iSize : Z }.

Definition set_pHead (x : Z) (h : list_hdr) : list_hdr := LIST_HDR x (pTail h) (iSize h).
Definition set_pTail (x : Z) (h : list_hdr) : list_hdr := LIST_HDR (pHead h) x (iSize h).
Definition set_iSize (x : Z) (h : list_hdr) : list_hdr := LIST_HDR (pHead h) (pTail h) x.

(** Memory.  [m_oom] lists the outcomes of the coming [calloc] calls ([true]:
    the call fails); once it is exhausted every call succeeds. *)
Record mem (N : Type) := MEM {
  m_nodes : gmap Z N;
  m_lists : gmap Z list_hdr;
  m_brk : Z;
  m_oom : list bool
}.
Arguments MEM {N} _ _ _ _.
Arguments m_nodes {N} _.
Arguments m_lists {N} _.
Arguments m_brk {N} _.
Arguments m_oom {N} _.

(** Every address of [h] is between 1 and [b]. *)
Definition below {A} (b : Z) (h : gmap Z A) : Prop := ∀ p x, h !! p = Some x → 0 < p < b.

Section Monad.
Context {N : Type}.

Definition M (A : Type) : Type := mem N → option (A * mem N).

#[export] Instance M_ret : MRet M := λ A a m, Some (a, m).
#[export] Instance M_bind : MBind M :=
  λ A B f e m, match e m with Some (a, m') => f a m' | None => None end.

Definition get_node (p : Z) : M N :=
  λ m, match m_nodes m !! p with Some n => Some (n, m) | None => None end.

Definition put_node (p : Z) (n : N) : M unit :=
  λ m, match m_nodes m !! p with
       | Some _ => Some (tt, MEM (<[p := n]> (m_nodes m)) (m_lists m) (m_brk m) (m_oom m))
       | None => None
       end.

(** [p->field = v], as a read-modify-write of the cell. *)
Definition upd_node (p : Z) (f : N → N) : M unit := n ← get_node p; put_node p (f n).

(** [VmDirFreeMemory]: the cell must be allocated. *)
Definition free_node (p : Z) : M unit :=
  λ m, match m_nodes m !! p with
       | Some _ => Some (tt, MEM (delete p (m_nodes m)) (m_lists m) (m_brk m) (m_oom m))
       | None => None
       end.

Definition get_list (L : Z) : M list_hdr :=
  λ m, match m_lists m !! L with Some h => Some (h, m) | None => None end.

Definition put_list (L : Z) (h : list_hdr) : M unit :=
  λ m, match m_lists m !! L with
       | Some _ => Some (tt, MEM (m_nodes m) (<[L := h]> (m_lists m)) (m_brk m) (m_oom m))
       | None => None
       end.

(** [L->field = v] on a list header. *)
Definition upd_list (L : Z) (f : list_hdr → list_hdr) : M unit :=
  h ← get_list L; put_list L (f h).

Definition free_list (L : Z) : M unit :=
  λ m, match m_lists m !! L with
       | Some _ => Some (tt, MEM (m_nodes m) (delete L (m_lists m)) (m_brk m) (m_oom m))
       | None => None
       end.

(** [VmDirAllocateMemory] of a node or of a header: [calloc] fails or returns
    a fresh zero-filled cell. *)
Definition VmDirAllocateMemory_node (zero : N) : M (dwerror * Z) :=
  λ m, match m_oom m with
       | true :: o => Some ((ERROR_NO_MEMORY, NULL), MEM (m_nodes m) (m_lists m) (m_brk m) o)
       | o => Some ((ERROR_SUCCESS, m_brk m),
                    MEM (<[m_brk m := zero]> (m_nodes m)) (m_lists m) (m_brk m + 1) (tail o))
       end.

Definition VmDirAllocateMemory_list : M (dwerror * Z) :=
  λ m, match m_oom m with
       | true :: o => Some ((ERROR_NO_MEMORY, NULL), MEM (m_nodes m) (m_lists m) (m_brk m) o)
       | o => Some ((ERROR_SUCCESS, m_brk m),
                    MEM (m_nodes m) (<[m_brk m := LIST_HDR NULL NULL 0]> (m_lists m))
                        (m_brk m + 1) (tail o))
       end.

(** Fuel for a traversal: one more than the number of cells in memory. *)
Definition with_fuel {A} (f : nat → M A) : M A := λ m, f (S (size (m_nodes m))) m.

(** Every address in use is below the allocation pointer and not [NULL]. *)
Definition wf_mem (m : mem N) : Prop :=
  0 < m_brk m ∧ below (m_brk m) (m_nodes m) ∧ below (m_brk m) (m_lists m).

(** Only the cells [ps] and the headers [Ls] may differ. *)
Definition frame (ps Ls : list Z) (m m' : mem N) : Prop :=
  (∀ q, q ∉ ps → m_nodes m' !! q = m_nodes m !! q) ∧
  (∀ K, K ∉ Ls → m_lists m' !! K = m_lists m !! K).

(** The next allocation succeeds. *)
Definition alloc_ok (m : mem N) : Prop := head (m_oom m) ≠ Some true.

(** The allocator after no allocation, and after one. *)
Definition same_alloc (m m' : mem N) : Prop := m_brk m' = m_brk m ∧ m_oom m' = m_oom m.
Definition one_alloc (m m' : mem N) : Prop :=
  m_brk m' = m_brk m + 1 ∧ m_oom m' = tail (m_oom m).

End Monad.
Arguments M : clear implicits.

(** ** The interface of a doubly linked node *)

Class DNode (N : Type) := {
  nElement : N → Z;
  nNext : N → Z;
  nPrev : N → Z;
  set_next : Z → N → N;
  set_prev : Z → N → N;
  nElement_set_next x n : nElement (set_next x n) = nElement n;
  nNext_set_next x n : nNext (set_next x n) = x;
  nPrev_set_next x n : nPrev (set_next x n) = nPrev n;
  nElement_set_prev x n : nElement (set_prev x n) = nElement n;
  nNext_set_prev x n : nNext (set_prev x n) = nNext n;
  nPrev_set_prev x n : nPrev (set_prev x n) = x
}.

Arguments nElement : simpl never.
Arguments nNext : simpl never.
Arguments nPrev : simpl never.
Arguments set_next : simpl never.
Arguments set_prev : simpl never.

Create HintDb dnode.
#[export] Hint Rewrite @nElement_set_next @nNext_set_next @nPrev_set_next
  @nElement_set_prev @nNext_set_prev @nPrev_set_prev : dnode.

Section Segment.
Context {N : Type} `{!DNode N}.
Implicit Types (h : gmap Z N) (l : list (Z * Z)) (p prev next : Z).

(** A chain is the list of its cells: address and element. *)
Definition first_ptr l (d : Z) : Z := match l with [] => d | (p, _) :: _ => p end.
Fixpoint last_ptr l (d : Z) : Z :=
  match l with [] => d | (p, _) :: l' => last_ptr l' p end.

Fixpoint dlseg h prev l next : Prop :=
  match l with
  | [] => True
  | (p, e) :: l' =>
      p ≠ NULL ∧
      (∃ n, h !! p = Some n ∧ nElement n = e ∧ nPrev n = prev ∧ nNext n = first_ptr l' next) ∧
      dlseg h p l' next
  end.

(** The header [L] of memory [m] points to the chain [l], and its [iSize]
    field is [sz]. *)
Definition is_chain (m : mem N) (L : Z) l (sz : Z) : Prop :=
  m_lists m !! L = Some (LIST_HDR (first_ptr l NULL) (last_ptr l NULL) sz) ∧
  dlseg (m_nodes m) NULL l NULL ∧
  NoDup l.*1.

(** The list [L] holds the cells [l] and its size field is their number. *)
Definition is_list (m : mem N) (L : Z) l : Prop :=
  is_chain m L l (u64 (Z.of_nat (length l))).

Lemma first_ptr_app l1 l2 d : first_ptr (l1 ++ l2) d = first_ptr l1 (first_ptr l2 d).
Proof. by destruct l1 as [|[]]. Qed.

Lemma last_ptr_app l1 l2 d : last_ptr (l1 ++ l2) d = last_ptr l2 (last_ptr l1 d).
Proof. revert d. induction l1 as [|[p e] l1 IH]; intros d; simpl; auto. Qed.

Lemma last_ptr_snoc l p e d : last_ptr (l ++ [(p, e)]) d = p.
Proof. by rewrite last_ptr_app. Qed.

Lemma last_ptr_elem l d : l ≠ [] → last_ptr l d ∈ l.*1.
Proof.
  revert d. induction l as [|[p e] l IH]; intros d Hl; [done |]. simpl.
  destruct l as [|c l]; [set_solver |]. right. by apply IH.
Qed.

Lemma last_ptr_nonnil l d d' : l ≠ [] → last_ptr l d = last_ptr l d'.
Proof. by destruct l as [|[]]. Qed.

Lemma dlseg_app h prev l1 l2 next :
  dlseg h prev (l1 ++ l2) next ↔
  dlseg h prev l1 (first_ptr l2 next) ∧ dlseg h (last_ptr l1 prev) l2 next.
Proof.
  revert prev. induction l1 as [|[p e] l1 IH]; intros prev; simpl; [tauto |].
  rewrite IH, first_ptr_app. tauto.
Qed.

Lemma dlseg_nonnull h prev l next p : dlseg h prev l next → p ∈ l.*1 → p ≠ NULL.
Proof.
  revert prev. induction l as [|[q e] l IH]; intros prev; simpl; [set_solver |].
  intros (Hq & _ & Hl) [-> | Hp]%elem_of_cons; eauto.
Qed.

Lemma dlseg_lookup h prev l next p : dlseg h prev l next → p ∈ l.*1 → is_Some (h !! p).
Proof.
  revert prev. induction l as [|[q e] l IH]; intros prev; simpl; [set_solver |].
  intros (_ & (n & Hn & _) & Hl) [-> | Hp]%elem_of_cons; eauto.
Qed.

(** Frame: a segment only depends on its own cells. *)
Lemma dlseg_frame h h' prev l next :
  (∀ p, p ∈ l.*1 → h' !! p = h !! p) → dlseg h prev l next → dlseg h' prev l next.
Proof.
  revert prev. induction l as [|[p e] l IH]; intros prev Heq; simpl; [done |].
  intros (Hp & (n & Hn & ?) & Hl). split; [done |]. split.
  - exists n. rewrite Heq by set_solver. done.
  - apply IH; [set_solver | done].
Qed.

Lemma dlseg_insert_ne h prev l next p n :
  p ∉ l.*1 → dlseg h prev l next → dlseg (<[p := n]> h) prev l next.
Proof. intros Hp. apply dlseg_frame. intros q Hq. apply lookup_insert_ne. set_solver. Qed.

Lemma dlseg_delete_ne h prev l next p :
  p ∉ l.*1 → dlseg h prev l next → dlseg (delete p h) prev l next.
Proof. intros Hp. apply dlseg_frame. intros q Hq. apply lookup_delete_ne. set_solver. Qed.

Lemma dlseg_cons h prev p e l next n :
  p ≠ NULL → h !! p = Some n → nElement n = e → nPrev n = prev → nNext n = first_ptr l next →
  dlseg h p l next → dlseg h prev ((p, e) :: l) next.
Proof. simpl. eauto 10. Qed.

Lemma dlseg_cons_inv h prev p e l next :
  dlseg h prev ((p, e) :: l) next →
  p ≠ NULL ∧
  (∃ n, h !! p = Some n ∧ nElement n = e ∧ nPrev n = prev ∧ nNext n = first_ptr l next) ∧
  dlseg h p l next.
Proof. done. Qed.

(** Re-linking the first cell to another predecessor. *)
Lemma dlseg_set_prev h prev q p e l next n :
  h !! p = Some n → p ∉ l.*1 →
  dlseg h prev ((p, e) :: l) next →
  dlseg (<[p := set_prev q n]> h) q ((p, e) :: l) next.
Proof.
  intros Hn Hp. simpl. intros (Hnn & (n' & Hn' & He & _ & Hnx) & Hl).
  simplify_eq. split; [done |]. split.
  - exists (set_prev q n). rewrite lookup_insert_eq.
    by rewrite nElement_set_prev, nPrev_set_prev, nNext_set_prev.
  - by apply dlseg_insert_ne.
Qed.

(** Re-linking the last cell to another successor. *)
Lemma dlseg_set_next h prev q l p e next n :
  h !! p = Some n → p ∉ l.*1 →
  dlseg h prev (l ++ [(p, e)]) next →
  dlseg (<[p := set_next q n]> h) prev (l ++ [(p, e)]) q.
Proof.
  intros Hn Hp. rewrite !dlseg_app. simpl.
  intros (Hl & Hnn & (n' & Hn' & He & Hpv & _) & _). simplify_eq.
  split; [by apply dlseg_insert_ne |]. split; [done |]. split; [| done].
  exists (set_next q n). rewrite lookup_insert_eq.
  by rewrite nElement_set_next, nPrev_set_next, nNext_set_next.
Qed.

(** [if (p) p->field = v]: the conditional writes the list code is made of. *)
Definition opt_upd (p : Z) (f : N → N) h : gmap Z N :=
  if bool_decide (p = NULL) then h else alter f p h.

Lemma opt_upd_ne p f h q : p ≠ q ∨ p = NULL → opt_upd p f h !! q = h !! q.
Proof.
  intros [] ; unfold opt_upd; case_bool_decide; try done. by apply lookup_alter_ne.
Qed.

Lemma opt_upd_is_Some p f h q : is_Some (opt_upd p f h !! q) ↔ is_Some (h !! q).
Proof.
  unfold opt_upd. case_bool_decide; [done |].
  destruct (decide (p = q)) as [-> |].
  - rewrite lookup_alter_eq. apply fmap_is_Some.
  - by rewrite lookup_alter_ne.
Qed.

Lemma dlseg_opt_frame h prev l next p f :
  p = NULL ∨ p ∉ l.*1 → dlseg h prev l next → dlseg (opt_upd p f h) prev l next.
Proof.
  intros [-> | Hp]; [done |]. apply dlseg_frame. intros q Hq. apply opt_upd_ne. set_solver.
Qed.

(** An address outside the chain is not one of its end pointers. *)
Lemma first_ptr_out l q : q ∉ l.*1 → first_ptr l NULL ≠ q ∨ first_ptr l NULL = NULL.
Proof. destruct l as [|[p e] l]; simpl; [by right |]. set_solver. Qed.

Lemma last_ptr_out l q : q ∉ l.*1 → last_ptr l NULL ≠ q ∨ last_ptr l NULL = NULL.
Proof.
  destruct (decide (l = [])) as [-> | Hl]; [by right |]. intros Hq. left.
  intros <-. by apply Hq, last_ptr_elem.
Qed.

Lemma dlseg_opt_prev h prev q l next :
  NoDup l.*1 → dlseg h prev l next → dlseg (opt_upd (first_ptr l NULL) (set_prev q) h) q l next.
Proof.
  destruct l as [|[p e] l]; [done |]. intros [Hp Hnd]%NoDup_cons Hl. cbn [first_ptr].
  pose proof Hl as (Hp0 & (n & Hn & _) & _)%dlseg_cons_inv.
  unfold opt_upd. rewrite bool_decide_eq_false_2 by done.
  rewrite (alter_insert_Some _ _ _ n) by done. by eapply dlseg_set_prev.
Qed.

Lemma dlseg_opt_next h prev q l next :
  NoDup l.*1 → dlseg h prev l next → dlseg (opt_upd (last_ptr l NULL) (set_next q) h) prev l q.
Proof.
  destruct l as [|[p e] l _] using rev_ind; [done |].
  rewrite fmap_app, last_ptr_snoc. intros [Hnd Hp]%NoDup_snoc Hl.
  pose proof Hl as [_ (Hp0 & (n & Hn & _) & _)%dlseg_cons_inv]%dlseg_app.
  unfold opt_upd. rewrite bool_decide_eq_false_2 by done.
  rewrite (alter_insert_Some _ _ _ n) by done. by eapply dlseg_set_next.
Qed.

(** The end pointers after the removal of a cell. *)
Lemma first_ptr_remove l1 p e l2 :
  p ∉ l1.*1 →
  first_ptr (l1 ++ l2) NULL =
  if bool_decide (p = first_ptr (l1 ++ (p, e) :: l2) NULL)
  then first_ptr l2 NULL else first_ptr (l1 ++ (p, e) :: l2) NULL.
Proof.
  destruct l1 as [|[q e'] l1]; simpl; intros Hp; [by rewrite bool_decide_eq_true_2 |].
  rewrite bool_decide_eq_false_2; [done |]. set_solver.
Qed.

Lemma last_ptr_remove l1 p e l2 :
  p ∉ l2.*1 →
  last_ptr (l1 ++ l2) NULL =
  if bool_decide (p = last_ptr (l1 ++ (p, e) :: l2) NULL)
  then last_ptr l1 NULL else last_ptr (l1 ++ (p, e) :: l2) NULL.
Proof.
  intros Hp. rewrite !last_ptr_app. simpl. destruct (decide (l2 = [])) as [-> | Hne].
  - by rewrite bool_decide_eq_true_2.
  - rewrite bool_decide_eq_false_2; [by apply last_ptr_nonnil |].
    intros Heq. apply Hp. rewrite Heq. by apply last_ptr_elem.
Qed.

(** The end pointers of a chain are [NULL] or allocated. *)
Lemma first_ptr_valid h prev l next :
  dlseg h prev l next → first_ptr l NULL = NULL ∨ is_Some (h !! first_ptr l NULL).
Proof.
  destruct l as [|[p e] l]; [by left |]. intros (_ & (n & Hn & _) & _)%dlseg_cons_inv.
  right. by exists n.
Qed.

Lemma last_ptr_valid h prev l next :
  dlseg h prev l next → last_ptr l NULL = NULL ∨ is_Some (h !! last_ptr l NULL).
Proof.
  destruct (decide (l = [])) as [-> | Hne]; [by left |]. intros Hl. right.
  eapply dlseg_lookup; [done | by apply last_ptr_elem].
Qed.

End Segment.
Arguments dlseg : simpl never.

(** ** Automation *)

(** Symbolic execution: one lemma per primitive, in the position of the head
    of a bind. *)
Section Run.
Context {N A : Type}.
Implicit Types (m : mem N) (k : M N A).

Definition set_nodes m (h : gmap Z N) : mem N := MEM h (m_lists m) (m_brk m) (m_oom m).
Definition set_lists m (h : gmap Z list_hdr) : mem N := MEM (m_nodes m) h (m_brk m) (m_oom m).

Lemma run_ret {B} (b : B) (k : B → M N A) m : (x ← mret b; k x) m = k b m.
Proof. done. Qed.

Lemma run_assoc {B C} (e : M N B) (f : B → M N C) (k : C → M N A) m :
  (x ← (y ← e; f y); k x) m = (y ← e; x ← f y; k x) m.
Proof. unfold mbind, M_bind. by destruct (e m) as [[]|]. Qed.

Lemma run_bind {B} (e : M N B) (k : B → M N A) m b m' :
  e m = Some (b, m') → (x ← e; k x) m = k b m'.
Proof. unfold mbind, M_bind. by intros ->. Qed.

Lemma run_get_node p (k : N → M N A) m n :
  m_nodes m !! p = Some n → (x ← get_node p; k x) m = k n m.
Proof. unfold mbind, M_bind, get_node. by intros ->. Qed.

Lemma run_upd_node p f k m n :
  m_nodes m !! p = Some n →
  (upd_node p f;; k) m = k (set_nodes m (<[p := f n]> (m_nodes m))).
Proof.
  unfold upd_node, mbind, M_bind, get_node, put_node. intros Hn. rewrite Hn. by rewrite Hn.
Qed.

Lemma run_free_node p k m n :
  m_nodes m !! p = Some n → (free_node p;; k) m = k (set_nodes m (delete p (m_nodes m))).
Proof. unfold mbind, M_bind, free_node. by intros ->. Qed.

Lemma run_get_list L (k : list_hdr → M N A) m h :
  m_lists m !! L = Some h → (x ← get_list L; k x) m = k h m.
Proof. unfold mbind, M_bind, get_list. by intros ->. Qed.

Lemma run_upd_list L f k m h :
  m_lists m !! L = Some h →
  (upd_list L f;; k) m = k (set_lists m (<[L := f h]> (m_lists m))).
Proof.
  unfold upd_list, mbind, M_bind, get_list, put_list. intros Hh. rewrite Hh. by rewrite Hh.
Qed.

Lemma run_opt_upd p f k m :
  p = NULL ∨ is_Some (m_nodes m !! p) →
  ((if bool_decide (p = NULL) then mret tt else upd_node p f);; k) m =
  k (set_nodes m (opt_upd p f (m_nodes m))).
Proof.
  intros Hp. unfold opt_upd. case_bool_decide as Hd; [by destruct m |].
  destruct Hp as [| [n Hn]]; [done |].
  by rewrite (run_upd_node _ _ _ _ n), (alter_insert_Some _ _ _ n).
Qed.

Definition alloc_mem (zero : N) m : mem N :=
  MEM (<[m_brk m := zero]> (m_nodes m)) (m_lists m) (m_brk m + 1) (tail (m_oom m)).

Lemma run_alloc_node zero (k : dwerror * Z → M N A) m :
  alloc_ok m →
  (r ← VmDirAllocateMemory_node zero; k r) m = k (ERROR_SUCCESS, m_brk m) (alloc_mem zero m).
Proof.
  unfold alloc_ok, alloc_mem, mbind, M_bind, VmDirAllocateMemory_node. intros Hok.
  destruct (m_oom m) as [|[] o]; [done | by destruct Hok | done].
Qed.

Lemma run_alloc_node_fail zero (k : dwerror * Z → M N A) m o :
  m_oom m = true :: o →
  (r ← VmDirAllocateMemory_node zero; k r) m =
  k (ERROR_NO_MEMORY, NULL) (MEM (m_nodes m) (m_lists m) (m_brk m) o).
Proof. unfold mbind, M_bind, VmDirAllocateMemory_node. by intros ->. Qed.

End Run.

(** Closes the lookup side condition of a [run_*] lemma. *)
Ltac solve_ne := solve [done | congruence | lia | set_solver].
Ltac m_lookup :=
  cbn [set_nodes set_lists alloc_mem m_nodes m_lists m_brk m_oom];
  repeat first [ rewrite lookup_insert_eq | rewrite lookup_insert_ne by solve_ne
               | rewrite lookup_delete_ne by solve_ne ];
  first [ reflexivity | eassumption ].

(** Decides the null tests met on the way. *)
Ltac m_test :=
  match goal with
  | |- context [bool_decide (?a = ?b)] =>
      first [ rewrite (bool_decide_eq_true_2 (a = b)) by solve [done | congruence | lia]
            | rewrite (bool_decide_eq_false_2 (a = b)) by solve [done | congruence | lia] ]
  end.

Ltac m_step :=
  first [ rewrite run_assoc | rewrite run_ret
        | erewrite run_get_node by m_lookup | erewrite run_upd_node by m_lookup
        | erewrite run_free_node by m_lookup | erewrite run_get_list by m_lookup
        | erewrite run_upd_list by m_lookup
        | rewrite run_alloc_node by done
        | m_test ];
  cbn beta iota delta [fst snd negb orb andb].
Ltac m_run := repeat m_step.

(** The final state of a run, with the overwritten writes removed. *)
Ltac m_norm :=
  unfold set_nodes, set_lists, alloc_mem in *;
  cbn [m_nodes m_lists m_brk m_oom first_ptr last_ptr] in *; rewrite ?insert_insert_eq;
  unfold set_pHead, set_pTail, set_iSize; cbn [pHead pTail iSize].

(** [wf_mem] after writes to known addresses. *)
Lemma below_insert {A} b (h : gmap Z A) p x :
  0 < p < b → below b h → below b (<[p := x]> h).
Proof. intros Hp Hh q y [[-> _] | [_ Hy]]%lookup_insert_Some; eauto. Qed.

Lemma below_delete {A} b (h : gmap Z A) p : below b h → below b (delete p h).
Proof. intros Hh q y [_ Hy]%lookup_delete_Some; eauto. Qed.

Lemma below_mono {A} b b' (h : gmap Z A) : b <= b' → below b h → below b' h.
Proof. intros Hb Hh q y Hy. apply Hh in Hy. lia. Qed.

#[export] Hint Resolve below_insert below_delete : heap.

Lemma below_opt_upd {N} b p f (h : gmap Z N) : below b h → below b (opt_upd p f h).
Proof.
  intros Hh q y Hy. destruct (proj1 (opt_upd_is_Some p f h q)) as [z Hz]; eauto.
Qed.

Ltac solve_below :=
  repeat first [ apply below_insert; [lia |] | apply below_delete | apply below_opt_upd ];
  first [ assumption | eapply below_mono; [| eassumption]; lia ].
Ltac solve_wf :=
  match goal with
  | H : wf_mem _ |- wf_mem _ =>
      let Hb := fresh "Hb" in let Hn := fresh "Hn" in let Hl := fresh "Hl" in
      pose proof H as (Hb & Hn & Hl); split; [| split];
      cbn [m_nodes m_lists m_brk] in *; [lia | solve_below | solve_below]
  end.

(** [frame] after writes to listed addresses. *)
Ltac frame_ne := solve [ congruence | tauto | intros ?; subst; tauto ].
Ltac solve_frame :=
  split; cbn [m_nodes m_lists]; intros ? Hout;
  repeat progress (rewrite ?fmap_app, ?fmap_cons in Hout; cbn [fst] in Hout);
  repeat progress rewrite ?not_elem_of_app, ?not_elem_of_cons in Hout; destruct_and? Hout;
  repeat first [ rewrite lookup_insert_ne by frame_ne
               | rewrite lookup_delete_ne by frame_ne
               | rewrite opt_upd_ne by (first [apply first_ptr_out | apply last_ptr_out]; tauto) ];
  done.

Lemma frame_trans {N} ps1 ps2 ps Ls1 Ls2 Ls (m m1 m2 : mem N) :
  frame ps1 Ls1 m m1 → frame ps2 Ls2 m1 m2 →
  ps1 ⊆ ps → ps2 ⊆ ps → Ls1 ⊆ Ls → Ls2 ⊆ Ls → frame ps Ls m m2.
Proof.
  intros [Hn1 Hl1] [Hn2 Hl2] Hp1 Hp2 HL1 HL2. split.
  - intros q Hq. rewrite Hn2, Hn1; [done | intros Hx; by apply Hq, Hp1 | intros Hx; by apply Hq, Hp2].
  - intros K HK. rewrite Hl2, Hl1; [done | intros Hx; by apply HK, HL1 | intros Hx; by apply HK, HL2].
Qed.

Lemma frame_mono {N} ps1 ps Ls1 Ls (m m1 : mem N) :
  frame ps1 Ls1 m m1 → ps1 ⊆ ps → Ls1 ⊆ Ls → frame ps Ls m m1.
Proof. intros [Hn1 Hl1] Hp HL. split; eauto. Qed.

(** A segment away from the changed cells survives. *)
Lemma dlseg_mem_frame {N} `{!DNode N} ps Ls (m m' : mem N) prev l next :
  frame ps Ls m m' → l.*1 ## ps →
  dlseg (m_nodes m) prev l next → dlseg (m_nodes m') prev l next.
Proof. intros [Hn _] Hd. apply dlseg_frame. intros p Hp. apply Hn. intros Hx. by apply (Hd p). Qed.

(** Allocated cells are no more than the heap has. *)
Lemma alloc_length_size {N} (h : gmap Z N) (ps : list Z) :
  NoDup ps → (∀ p, p ∈ ps → is_Some (h !! p)) → (length ps <= size h)%nat.
Proof.
  intros Hnd Hall. rewrite <- (size_list_to_set (C := gset Z)) by done.
  rewrite <- size_dom. apply subseteq_size. intros p Hp.
  apply elem_of_list_to_set in Hp. apply elem_of_dom. by apply Hall.
Qed.

Lemma dlseg_length_size {N} `{!DNode N} (h : gmap Z N) prev l next :
  dlseg h prev l next → NoDup l.*1 → (length l <= size h)%nat.
Proof.
  intros Hl Hnd. rewrite <- (length_fmap fst). apply alloc_length_size; [done |].
  intros p Hp. by eapply dlseg_lookup.
Qed.

Lemma frame_refl {N} ps Ls (m : mem N) : frame ps Ls m m.
Proof. done. Qed.

(** Changes inside the same footprint compose. *)
Lemma frame_same {N} ps Ls (m m1 m2 : mem N) :
  frame ps Ls m m1 → frame ps Ls m1 m2 → frame ps Ls m m2.
Proof. intros H1 H2. by eapply frame_trans. Qed.

Lemma wf_mem_fresh_node {N} (m : mem N) : wf_mem m → m_nodes m !! m_brk m = None.
Proof.
  intros (_ & Hn & _). apply eq_None_not_Some. intros [n H]. apply Hn in H. lia.
Qed.

Lemma wf_mem_fresh_seg {N} `{!DNode N} (m : mem N) prev l next :
  wf_mem m → dlseg (m_nodes m) prev l next → m_brk m ∉ l.*1.
Proof.
  intros Hwf Hl Hin. destruct (dlseg_lookup _ _ _ _ _ Hl Hin) as [n Hn].
  rewrite wf_mem_fresh_node in Hn; done.
Qed.

(** ** Growing an array of pointers *)

(** [VmDirReallocateMemoryWithInit] on an array of 8-byte slots: sizes in
    bytes; [oom] says that [realloc] fails. *)
Definition VmDirReallocateMemoryWithInit (oom : bool) (buf : list Z) (dwNewSize dwOldSize : Z)
  : dwerror * list Z :=
  if dwNewSize <? dwOldSize then (ERROR_INVALID_PARAMETER, buf)
  else if oom then (ERROR_NO_MEMORY, buf)
  else
    let n := Z.to_nat (dwNewSize / 8) in
    let o := Z.to_nat (dwOldSize / 8) in
    (ERROR_SUCCESS, take o (buf ++ replicate o 0) ++ replicate (n - o) 0).
