(* ===== verification/Effects.v ===== *)
(** * Effects: computations with outcomes, and integers as bytes

    The monad of the components whose functions read and write a state, call
    the allocator and other components that may fail, and return error codes;
    and the big-endian bytes of an integer, the form in which the Raft log and
    the DNS messages carry numbers. *)

From S2P Require Import Prelude Heap.

Open Scope Z_scope.

(** ** Computations with outcomes *)

(** The outcome of the next external calls (allocations and backend calls), 0
    for success; calls past its end succeed. *)
Abbreviation env := (list Z).

Definition RM (St A : Type) := St → env → option ((dwerror + A) * St * env).

Section Monad.
Context {St : Type}.

Definition rret {A} (x : A) : RM St A := λ s e, Some (inr x, s, e).
Definition rfail {A} (err : dwerror) : RM St A := λ s e, Some (inl err, s, e).
Definition rub {A} : RM St A := λ _ _, None.

(** Sequencing with [BAIL_ON_VMDIR_ERROR]. *)
Definition rbind {A B} (x : RM St A) (k : A → RM St B) : RM St B := λ s e,
  match x s e with
  | Some (inr a, s', e') => k a s' e'
  | Some (inl err, s', e') => Some (inl err, s', e')
  | None => None
  end.

(** The error as a value, for code that looks at it. *)
Definition rtry {A} (x : RM St A) : RM St (dwerror + A) := λ s e,
  match x s e with Some (r, s', e') => Some (inr r, s', e') | None => None end.

Definition rget : RM St St := λ s e, Some (inr s, s, e).
Definition rset (f : St → St) : RM St unit := λ s e, Some (inr tt, f s, e).
Definition rlift {A} (x : option A) : RM St A := λ s e,
  match x with Some a => Some (inr a, s, e) | None => None end.

Definition next_outcome : RM St Z := λ s e, Some (inr (default 0 (head e)), s, tail e).

End Monad.

Declare Scope run_scope.
Delimit Scope run_scope with run.
Notation "x '<-' m ';;' k" := (rbind m (λ x, k))
  (at level 100, m at next level, right associativity) : run_scope.
Notation "m ';;;' k" := (rbind m (λ _, k)) (at level 100, right associativity) : run_scope.
Open Scope run_scope.

(** ** Integers as bytes *)

Definition u8 (z : Z) : Z := z mod 256.

(** The [n] low bytes of [v], the most significant first. *)
Fixpoint enc (n : nat) (v : Z) : list Z :=
  match n with O => [] | S i => u8 (Z.shiftr v (Z.shiftl (Z.of_nat i) 3)) :: enc i v end.

Lemma enc_length n v : length (enc n v) = n.
Proof. induction n; cbn; congruence. Qed.

Lemma enc_mod n v k : (n * 8 <= k)%nat → enc n (v mod 2 ^ Z.of_nat k) = enc n v.
Proof.
  induction n as [|i IH]; intros Hk; cbn [enc]; [done |]. rewrite IH by lia. f_equal. unfold u8.
  change 256 with (2 ^ 8). rewrite (Z.shiftl_mul_pow2 (Z.of_nat i) 3) by lia. change (2 ^ 3) with 8.
  apply Z.bits_inj'. intros b Hb. destruct (decide (b < 8)).
  - rewrite !Z.mod_pow2_bits_low, !Z.shiftr_spec by lia. apply Z.mod_pow2_bits_low. lia.
  - by rewrite !Z.mod_pow2_bits_high by lia.
Qed.

Lemma enc_u32 v : enc 4 (u32 v) = enc 4 v.
Proof. apply (enc_mod 4 v 32). lia. Qed.

Lemma enc_u64 v : enc 8 (u64 v) = enc 8 v.
Proof. apply (enc_mod 8 v 64). lia. Qed.

Lemma byte_split i v : 0 <= i →
  Z.lor (Z.shiftl (u8 (Z.shiftr v (8 * i))) (8 * i)) (v mod 2 ^ (8 * i)) = v mod 2 ^ (8 * (i + 1)).
Proof.
  intros Hi. unfold u8. change 256 with (2 ^ 8). apply Z.bits_inj'. intros k Hk.
  rewrite Z.lor_spec, Z.shiftl_spec by lia. destruct (decide (k < 8 * i)).
  - rewrite Z.testbit_neg_r, !Z.mod_pow2_bits_low by lia. done.
  - rewrite (Z.mod_pow2_bits_high v (8 * i)), orb_false_r by lia. destruct (decide (k < 8 * (i + 1))).
    + rewrite !Z.mod_pow2_bits_low, Z.shiftr_spec by lia. f_equal. lia.
    + rewrite !Z.mod_pow2_bits_high by lia. done.
Qed.

Lemma s32_id z : - 2 ^ 31 <= z < 2 ^ 31 → s32 z = z.
Proof.
  intros Hz. unfold s32. destruct (decide (0 <= z)).
  - rewrite Z.mod_small by lia. rewrite (proj2 (Z.ltb_lt _ _)); lia.
  - rewrite <- (Z.mod_unique z (2 ^ 32) (-1) (z + 2 ^ 32)) by lia. rewrite (proj2 (Z.ltb_ge _ _)); lia.
Qed.


(** The value of bytes, the most significant first. *)
Definition be (bs : list Z) : Z := fold_left (λ a b, a * 256 + b) bs 0.

Definition is_byte (b : Z) : Prop := 0 <= b < 256.
Abbreviation bytes := (Forall is_byte).

Lemma u8_byte z : is_byte (u8 z).
Proof. apply Z.mod_pos_bound. lia. Qed.

Lemma enc_bytes n v : bytes (enc n v).
Proof. induction n; cbn; constructor; [apply u8_byte | done]. Qed.

Lemma be_acc bs a : fold_left (λ a b, a * 256 + b) bs a = a * 256 ^ Z.of_nat (length bs) + be bs.
Proof.
  unfold be. revert a. induction bs as [|b bs IH]; intros a; cbn [fold_left length]; [cbn; lia |].
  rewrite IH, (IH (0 * 256 + b)), Nat2Z.inj_succ, Z.pow_succ_r by lia. lia.
Qed.

Lemma be_cons b bs : be (b :: bs) = b * 256 ^ Z.of_nat (length bs) + be bs.
Proof. unfold be at 1. cbn [fold_left]. by rewrite be_acc. Qed.

Lemma be_range bs : bytes bs → 0 <= be bs < 256 ^ Z.of_nat (length bs).
Proof.
  induction 1 as [|b bs Hb _ IH]; [cbn; lia |]. unfold is_byte in Hb.
  rewrite be_cons. cbn [length]. rewrite Nat2Z.inj_succ, Z.pow_succ_r by lia. nia.
Qed.

Lemma be_enc n v : be (enc n v) = v mod 256 ^ Z.of_nat n.
Proof.
  induction n as [|i IH]; [cbn; by rewrite Z.mod_1_r |]. cbn [enc].
  rewrite be_cons, enc_length, IH, (Z.shiftl_mul_pow2 (Z.of_nat i) 3) by lia.
  rewrite Z.shiftr_div_pow2 by lia. change (2 ^ 3) with 8.
  replace (2 ^ (Z.of_nat i * 8)) with (256 ^ Z.of_nat i)
    by (change 256 with (2 ^ 8); rewrite <- Z.pow_mul_r by lia; f_equal; lia).
  rewrite Nat2Z.inj_succ, Z.pow_succ_r by lia. unfold u8.
  rewrite (Z.mul_comm 256), Z.rem_mul_r by lia. lia.
Qed.

(** Outcomes that are all successes. *)
Definition quiet (e : env) : Prop := Forall (λ o, o = 0) e.

Lemma quiet_head e : quiet e → default 0 (head e) = 0.
Proof. by intros [|]. Qed.

Lemma quiet_tail e : quiet e → quiet (tail e).
Proof. intros [|]; [constructor | done]. Qed.

(** A property of the elements of a concrete list. *)
Ltac forall_list := repeat (apply Forall_cons_2; [first [unfold is_byte; lia | vm_compute; done] |]); apply Forall_nil_2.
