(* ===== verification/LinkedList.v ===== *)
(** * LinkedList: [vmdir/common/linkedlist.c] and [sortedlinkedlist.c]

    The operations of [VDIR_LINKED_LIST] on the heap of [Heap], and insertion
    into a sorted list.  Each theorem refines an operation to the operation on
    the sequence of cells it stands for, and shows that it never dereferences
    a NULL or dangling pointer and touches no cell outside the list. *)

From S2P Require Import Prelude Heap.

Open Scope Z_scope.

(** ** Data *)

(** [VDIR_LINKED_LIST_NODE]. *)
Record ll_node := LL_NODE {
  ll_pElement : Z; ll_pNext : Z; ll_pPrev : Z; ll_pList : Z }.

Definition ll_zero : ll_node := LL_NODE NULL NULL NULL NULL.

Definition ll_set_next (x : Z) (n : ll_node) : ll_node :=
  LL_NODE (ll_pElement n) x (ll_pPrev n) (ll_pList n).
Definition ll_set_prev (x : Z) (n : ll_node) : ll_node :=
  LL_NODE (ll_pElement n) (ll_pNext n) x (ll_pList n).
Definition ll_set_elem (e : Z) (n : ll_node) : ll_node :=
  LL_NODE e (ll_pNext n) (ll_pPrev n) (ll_pList n).
Definition ll_set_list (L : Z) (n : ll_node) : ll_node :=
  LL_NODE (ll_pElement n) (ll_pNext n) (ll_pPrev n) L.

#[export] Instance ll_dnode : DNode ll_node := {
  nElement := ll_pElement; nNext := ll_pNext; nPrev := ll_pPrev;
  set_next := ll_set_next; set_prev := ll_set_prev;
  nElement_set_next _ _ := eq_refl; nNext_set_next _ _ := eq_refl;
  nPrev_set_next _ _ := eq_refl; nElement_set_prev _ _ := eq_refl;
  nNext_set_prev _ _ := eq_refl; nPrev_set_prev _ _ := eq_refl }.

(** ** Operations *)

Abbreviation LM := (M ll_node).

Definition VmDirLinkedListCreate (ppLinkedList : bool) : LM (dwerror * Z) :=
  if negb ppLinkedList then mret (ERROR_INVALID_PARAMETER, NULL)
  else VmDirAllocateMemory_list.

Definition VmDirLinkedListGetHead (L : Z) (ppHead : bool) : LM (dwerror * Z) :=
  if bool_decide (L = NULL) || negb ppHead then mret (ERROR_INVALID_PARAMETER, NULL)
  else h ← get_list L; mret (ERROR_SUCCESS, pHead h).

Definition VmDirLinkedListGetTail (L : Z) (ppTail : bool) : LM (dwerror * Z) :=
  if bool_decide (L = NULL) || negb ppTail then mret (ERROR_INVALID_PARAMETER, NULL)
  else h ← get_list L; mret (ERROR_SUCCESS, pTail h).

Definition VmDirLinkedListInsertHead (L e : Z) : LM (dwerror * Z) :=
  if bool_decide (L = NULL) || bool_decide (e = NULL)
  then mret (ERROR_INVALID_PARAMETER, NULL)
  else
    r ← VmDirAllocateMemory_node ll_zero;
    match r with
    | (ERROR_SUCCESS, p) =>
        upd_node p (ll_set_elem e);;
        upd_node p (ll_set_list L);;
        h ← get_list L;
        (if bool_decide (pHead h = NULL)
         then upd_list L (set_pTail p)
         else upd_node p (set_next (pHead h));; upd_node (pHead h) (set_prev p));;
        upd_list L (set_pHead p);;
        upd_list L (λ h, set_iSize (u64 (iSize h + 1)) h);;
        mret (ERROR_SUCCESS, p)
    | (err, _) => mret (err, NULL)
    end.

Definition VmDirLinkedListInsertTail (L e : Z) : LM (dwerror * Z) :=
  if bool_decide (L = NULL) || bool_decide (e = NULL)
  then mret (ERROR_INVALID_PARAMETER, NULL)
  else
    r ← VmDirAllocateMemory_node ll_zero;
    match r with
    | (ERROR_SUCCESS, p) =>
        upd_node p (ll_set_elem e);;
        upd_node p (ll_set_list L);;
        h ← get_list L;
        (if bool_decide (pTail h = NULL)
         then upd_list L (set_pHead p)
         else upd_node p (set_prev (pTail h));; upd_node (pTail h) (set_next p));;
        upd_list L (set_pTail p);;
        upd_list L (λ h, set_iSize (u64 (iSize h + 1)) h);;
        mret (ERROR_SUCCESS, p)
    | (err, _) => mret (err, NULL)
    end.

Definition VmDirLinkedListRemove (L p : Z) : LM dwerror :=
  if bool_decide (L = NULL) || bool_decide (p = NULL)
  then mret ERROR_INVALID_PARAMETER
  else
    n ← get_node p;
    (if bool_decide (nPrev n = NULL) then mret tt
     else upd_node (nPrev n) (set_next (nNext n)));;
    n ← get_node p;
    (if bool_decide (nNext n = NULL) then mret tt
     else upd_node (nNext n) (set_prev (nPrev n)));;
    n ← get_node p;
    upd_list L (λ h, if bool_decide (p = pHead h) then set_pHead (nNext n) h else h);;
    upd_list L (λ h, if bool_decide (p = pTail h) then set_pTail (nPrev n) h else h);;
    free_node p;;
    upd_list L (λ h, set_iSize (u64 (iSize h - 1)) h);;
    mret ERROR_SUCCESS.

Definition VmDirLinkedListIsEmpty (L : Z) : LM bool :=
  if bool_decide (L = NULL) then mret true
  else h ← get_list L; mret (bool_decide (pHead h = NULL)).

Definition VmDirLinkedListAppendListToTail (D S : Z) : LM dwerror :=
  if bool_decide (D = NULL) || bool_decide (S = NULL)
  then mret VMDIR_ERROR_INVALID_PARAMETER
  else
    r ← VmDirLinkedListGetTail D true;
    let tl := snd r in
    s ← get_list S;
    (if bool_decide (tl = NULL)
     then upd_list D (λ _, LIST_HDR (pHead s) (pTail s) (iSize s))
     else
       b ← VmDirLinkedListIsEmpty S;
       if (b : bool) then mret tt
       else
         upd_node tl (set_next (pHead s));;
         upd_node (pHead s) (set_prev tl);;
         upd_list D (λ h, set_iSize (u64 (iSize h + iSize s)) (set_pTail (pTail s) h)));;
    upd_list S (λ h, set_pHead NULL (set_pTail NULL h));;
    upd_list S (set_iSize 0);;
    mret ERROR_SUCCESS.

Definition VmDirLinkedListGetSize (L : Z) : LM Z :=
  if bool_decide (L = NULL) then mret 0 else h ← get_list L; mret (iSize h).

(** The loop of [VmDirFreeLinkedList]: [None] when the fuel runs out. *)
Fixpoint free_loop (fuel : nat) (L : Z) : LM unit :=
  match fuel with
  | O => λ _, None
  | S f =>
      b ← VmDirLinkedListIsEmpty L;
      if (b : bool) then mret tt
      else h ← get_list L; VmDirLinkedListRemove L (pHead h);; free_loop f L
  end.

Definition VmDirFreeLinkedList (L : Z) : LM unit :=
  if bool_decide (L = NULL) then mret tt
  else with_fuel (λ f, free_loop f L);; free_list L.

(** *** [sortedlinkedlist.c] *)

(** The walk of [VmDirSortedLinkedListInsert]: the last cell before the
    insertion point. *)
Fixpoint sorted_walk (fuel : nat) (cmp : Z → Z → bool) (e cur : Z) : LM Z :=
  match fuel with
  | O => λ _, None
  | S f =>
      n ← get_node cur;
      if bool_decide (nNext n = NULL) then mret cur
      else
        nn ← get_node (nNext n);
        if cmp (nElement nn) e then sorted_walk f cmp e (nNext n) else mret cur
  end.

(** The middle insertion of [VmDirSortedLinkedListInsert], after [cur]. *)
Definition sorted_link (cur e : Z) : LM dwerror :=
  r ← VmDirAllocateMemory_node ll_zero;
  match r with
  | (ERROR_SUCCESS, p) =>
      upd_node p (ll_set_elem e);;
      n ← get_node cur;
      upd_node p (set_next (nNext n));;
      upd_node p (set_prev cur);;
      np ← get_node p;
      upd_node (nNext np) (set_prev p);;
      upd_node cur (set_next p);;
      mret ERROR_SUCCESS
  | (err, _) => mret err
  end.

(** [L] is [pSortedList->pList], [cmp] is [pSortedList->pCompareFunc]. *)
Definition VmDirSortedLinkedListInsert (cmp : Z → Z → bool) (L e : Z) : LM dwerror :=
  if bool_decide (L = NULL) || bool_decide (e = NULL)
  then mret VMDIR_ERROR_INVALID_PARAMETER
  else
    h ← get_list L;
    front ← (if bool_decide (pHead h = NULL) then mret true
             else n ← get_node (pHead h); mret (cmp e (nElement n)));
    if (front : bool) then r ← VmDirLinkedListInsertHead L e; mret (fst r)
    else
      cur ← with_fuel (λ f, sorted_walk f cmp e (pHead h));
      n ← get_node cur;
      if bool_decide (nNext n = NULL)
      then r ← VmDirLinkedListInsertTail L e; mret (fst r)
      else sorted_link cur e.

(** ** Refinement to sequences of cells *)

Section Proofs.
Implicit Types (m : mem ll_node) (L p e sz : Z) (l : list (Z * Z)).

(** The facts every operation on a well-formed chain starts from. *)
Ltac chain_facts Hwf H :=
  let HL := fresh "HL" in let Hl := fresh "Hl" in let Hnd := fresh "Hnd" in
  destruct H as (HL & Hl & Hnd);
  pose proof (wf_mem_fresh_seg _ _ _ _ Hwf Hl) as Hfr;
  pose proof Hwf as (Hb & Hn & Hll); pose proof (Hll _ _ HL) as HLp;
  assert (NULL = 0) as Hnull by reflexivity.

Lemma insert_head_spec m L l sz e :
  wf_mem m → is_chain m L l sz → e ≠ NULL → alloc_ok m →
  ∃ m', VmDirLinkedListInsertHead L e m = Some ((ERROR_SUCCESS, m_brk m), m') ∧
        is_chain m' L ((m_brk m, e) :: l) (u64 (sz + 1)) ∧
        wf_mem m' ∧ frame (m_brk m :: l.*1) [L] m m' ∧ one_alloc m m'.
Proof.
  intros Hwf H He Hok. chain_facts Hwf H.
  unfold VmDirLinkedListInsertHead.
  destruct l as [|[q e'] l'].
  - m_run. eexists. split; [reflexivity |]. m_norm.
    split; [| split; [solve_wf | split; [solve_frame | done]]].
    split_and!; simpl; [m_lookup | | by apply NoDup_singleton].
    eapply dlseg_cons; [lia | m_lookup | done..].
  - pose proof Hl as (Hq & (n & Hnq & Hne & Hnp & Hnn) & Hl')%dlseg_cons_inv.
    pose proof (Hn _ _ Hnq).
    m_run. eexists. split; [reflexivity |]. m_norm.
    split; [| split; [solve_wf | split; [solve_frame | done]]].
    split_and!; simpl; [m_lookup | | by constructor].
    eapply dlseg_cons; [lia | m_lookup | done.. |].
    apply (dlseg_set_prev _ NULL); [m_lookup | by inv Hnd |].
    by apply dlseg_insert_ne.
Qed.

Lemma insert_tail_spec m L l sz e :
  wf_mem m → is_chain m L l sz → e ≠ NULL → alloc_ok m →
  ∃ m', VmDirLinkedListInsertTail L e m = Some ((ERROR_SUCCESS, m_brk m), m') ∧
        is_chain m' L (l ++ [(m_brk m, e)]) (u64 (sz + 1)) ∧
        wf_mem m' ∧ frame (m_brk m :: l.*1) [L] m m' ∧ one_alloc m m'.
Proof.
  intros Hwf H He Hok. chain_facts Hwf H.
  unfold VmDirLinkedListInsertTail.
  destruct l as [|[q e'] l' _] using rev_ind.
  - m_run. eexists. split; [reflexivity |]. m_norm.
    split; [| split; [solve_wf | split; [solve_frame | done]]].
    split_and!; simpl; [m_lookup | | by apply NoDup_singleton].
    eapply dlseg_cons; [lia | m_lookup | done..].
  - pose proof Hl as [Hl' (Hq & (n & Hnq & Hne & Hnp & Hnn) & _)%dlseg_cons_inv]%dlseg_app.
    pose proof (Hn _ _ Hnq). rewrite last_ptr_snoc in HL.
    rewrite fmap_app in Hnd, Hfr. simpl in Hnd, Hfr.
    m_run. eexists. split; [reflexivity |]. m_norm.
    split; [| split; [solve_wf | split; [solve_frame | done]]].
    split_and!; cbn [m_nodes m_lists].
    + rewrite !first_ptr_app, last_ptr_snoc. m_lookup.
    + apply dlseg_app. split.
      * eapply dlseg_set_next; [m_lookup | by apply NoDup_snoc in Hnd as [] |].
        by apply dlseg_insert_ne; [rewrite fmap_app |].
      * eapply dlseg_cons; [lia | m_lookup | done | by rewrite last_ptr_snoc | done | done].
    + rewrite !fmap_app. simpl. apply NoDup_snoc. done.
Qed.

Lemma remove_spec m L l1 p e l2 sz :
  wf_mem m → is_chain m L (l1 ++ (p, e) :: l2) sz →
  ∃ m', VmDirLinkedListRemove L p m = Some (ERROR_SUCCESS, m') ∧
        is_chain m' L (l1 ++ l2) (u64 (sz - 1)) ∧
        m_nodes m' !! p = None ∧
        wf_mem m' ∧ frame (l1 ++ (p, e) :: l2).*1 [L] m m' ∧ same_alloc m m'.
Proof.
  intros Hwf H. chain_facts Hwf H.
  pose proof Hl as [Hl1 Hl2]%dlseg_app.
  pose proof Hl2 as (Hp & (n & Hnp & Hne & Hpv & Hnx) & Hl2')%dlseg_cons_inv.
  rewrite fmap_app, fmap_cons in Hnd.
  pose proof Hnd as (Hnd12 & Hp1 & Hp2)%NoDup_middle.
  pose proof Hnd12 as (Hnd1 & Hnd2 & Hdj)%NoDup_app_disjoint.
  pose proof (last_ptr_out _ _ Hp1) as Hlp. pose proof (first_ptr_out _ _ Hp2) as Hfp.
  unfold VmDirLinkedListRemove. m_run. rewrite Hpv, Hnx.
  rewrite run_opt_upd by (eapply last_ptr_valid, Hl1).
  erewrite run_get_node; cycle 1. { simpl. by rewrite opt_upd_ne. }
  rewrite Hpv, Hnx.
  rewrite run_opt_upd.
  2: { simpl. rewrite opt_upd_is_Some. eapply first_ptr_valid, Hl2'. }
  erewrite run_get_node; cycle 1. { simpl. by rewrite !opt_upd_ne. }
  rewrite Hpv, Hnx. m_run.
  erewrite run_free_node; cycle 1. { simpl. by rewrite !opt_upd_ne. }
  m_run. m_norm. eexists. split; [reflexivity |].
  split; [| split; [| split; [solve_wf | split; [| done]]]].
  - split_and!; cbn [m_nodes m_lists].
    + rewrite lookup_insert_eq. f_equal.
      rewrite (first_ptr_remove l1 p e l2), (last_ptr_remove l1 p e l2) by done.
      by repeat case_bool_decide.
    + apply dlseg_delete_ne; [rewrite fmap_app, elem_of_app; tauto |].
      apply dlseg_app. split.
      * apply dlseg_opt_frame; [| by eapply dlseg_opt_next].
        destruct l2 as [|[q ?] l2]; [by left | right]. set_solver.
      * eapply dlseg_opt_prev; [done |]. apply dlseg_opt_frame; [| done].
        destruct (decide (l1 = [])) as [-> |]; [by left | right].
        intros Hx. eapply Hdj; [by apply last_ptr_elem | done].
    + by rewrite fmap_app.
  - cbn. by rewrite lookup_delete_eq.
  - rewrite fmap_app, fmap_cons. split; cbn [m_nodes m_lists]; intros q Hq.
    + rewrite not_elem_of_app, not_elem_of_cons in Hq. destruct Hq as (? & ? & ?).
      rewrite lookup_delete_ne by done. rewrite !opt_upd_ne; auto using first_ptr_out, last_ptr_out.
    + rewrite lookup_insert_ne; set_solver.
Qed.
Lemma append_spec m D S ld ls :
  wf_mem m → D ≠ S → is_list m D ld → is_list m S ls → ld.*1 ## ls.*1 →
  ∃ m', VmDirLinkedListAppendListToTail D S m = Some (ERROR_SUCCESS, m') ∧
        is_list m' D (ld ++ ls) ∧ is_list m' S [] ∧
        wf_mem m' ∧ frame (ld ++ ls).*1 [D; S] m m'.
Proof.
  intros Hwf Hne (HD & Hld & Hndd) (HS & Hls & Hnds) Hdj.
  pose proof Hwf as (Hb & Hn & Hll). pose proof (Hll _ _ HD). pose proof (Hll _ _ HS).
  assert (NULL = 0) as Hnull by reflexivity.
  assert (NoDup (ld ++ ls).*1) as Hnd by (rewrite fmap_app; apply NoDup_app; set_solver).
  unfold VmDirLinkedListAppendListToTail, VmDirLinkedListGetTail, VmDirLinkedListIsEmpty.
  destruct (decide (ld = [])) as [-> | Hd].
  - m_run. m_norm. eexists. split; [reflexivity |].
    split; [| split; [| split; [solve_wf | solve_frame]]];
      (split_and!; cbn [m_nodes m_lists]; [m_lookup | done | done || apply NoDup_nil_2]).
  - pose proof (last_ptr_elem ld NULL Hd) as Hlast.
    destruct (dlseg_lookup _ _ _ _ _ Hld Hlast) as [nl Hnl].
    pose proof (dlseg_nonnull _ _ _ _ _ Hld Hlast).
    destruct ls as [|[q e] ls].
    + m_run. m_norm. eexists. split; [reflexivity |]. rewrite app_nil_r.
      split; [| split; [| split; [solve_wf | solve_frame]]];
        (split_and!; cbn [m_nodes m_lists]; [m_lookup | done | done || apply NoDup_nil_2]).
    + pose proof Hls as (Hq & (n & Hnq & Hqe & Hqp & Hqn) & Hls')%dlseg_cons_inv.
      assert (last_ptr ld NULL ≠ q) 
        by (intros Heq; rewrite Heq in Hlast; apply (Hdj q Hlast); left).
      pose proof (Hn _ _ Hnq). pose proof (Hn _ _ Hnl).
      m_run. m_norm. eexists. split; [reflexivity |].
      split; [| split; [| split; [solve_wf | solve_frame]]].
      * split_and!; cbn [m_nodes m_lists]; [| | done].
        -- rewrite lookup_insert_ne, lookup_insert_eq by done. f_equal.
           rewrite first_ptr_app, last_ptr_app. simpl. rewrite length_app. simpl.
           f_equal; [by destruct ld as [|[]] | ]. unfold u64.
           rewrite <- Zplus_mod. f_equal. lia.
        -- apply dlseg_app. split.
           ++ apply dlseg_insert_ne; [intros Hx; apply (Hdj q Hx); left |].
              rewrite <- (alter_insert_Some (set_next q) _ _ nl Hnl).
              replace (alter _ _ _) with
                (opt_upd (last_ptr ld NULL) (set_next q) (m_nodes m))
                by (unfold opt_upd; by rewrite bool_decide_eq_false_2).
              by eapply dlseg_opt_next.
           ++ eapply dlseg_set_prev; [m_lookup | by apply NoDup_cons in Hnds as [] |].
              apply dlseg_insert_ne; [exact (Hdj _ Hlast) | done].
      * split_and!; cbn [m_nodes m_lists]; [m_lookup | done | apply NoDup_nil_2].
Qed.

(** The loop empties the list cell by cell; its fuel is the number of cells. *)
Lemma free_loop_spec fuel m L l sz :
  (length l < fuel)%nat → wf_mem m → is_chain m L l sz →
  ∃ m' sz', free_loop fuel L m = Some (tt, m') ∧ is_chain m' L [] sz' ∧ wf_mem m' ∧
        (∀ p, p ∈ l.*1 → m_nodes m' !! p = None) ∧ frame l.*1 [L] m m'.
Proof.
  revert m l sz. induction fuel as [|fuel IH]; intros m l sz Hf Hwf H; [lia |].
  pose proof H as (HL & Hl & Hnd). pose proof Hwf as (Hb & Hn & Hll).
  pose proof (Hll _ _ HL) as HLp. assert (NULL = 0) as Hnull by reflexivity.
  unfold free_loop; fold free_loop. unfold VmDirLinkedListIsEmpty.
  destruct l as [|[p e] l].
  - m_run. exists m, sz. split_and!; try done. set_solver.
  - pose proof Hl as (Hp & _)%dlseg_cons_inv. m_run.
    destruct (remove_spec m L [] p e l sz Hwf H) as (m1 & Hrun & Hc1 & Hp1 & Hwf1 & Hfr1 & _).
    unfold mbind, M_bind. cbn [pHead first_ptr]. rewrite Hrun.
    destruct (IH m1 l (u64 (sz - 1))) as (m' & sz' & Hrun' & Hc' & Hwf' & Hgone & Hfr').
    { simpl in Hf. lia. } { done. } { done. }
    exists m', sz'. rewrite Hrun'.
    split; [done | split; [done | split; [done | split]]].
    + intros q [-> | Hq]%elem_of_cons; [| by apply Hgone].
      destruct Hfr' as [Hfr' _]. rewrite Hfr'; [done |]. by apply NoDup_cons in Hnd as [].
    + eapply frame_trans; [exact Hfr1 | exact Hfr' |..]; [| by right | done | done].
      by simpl.
Qed.

Lemma VmDirFreeLinkedList_spec m L l sz :
  wf_mem m → is_chain m L l sz →
  ∃ m', VmDirFreeLinkedList L m = Some (tt, m') ∧
        m_lists m' !! L = None ∧ (∀ p, p ∈ l.*1 → m_nodes m' !! p = None) ∧
        wf_mem m' ∧ frame l.*1 [L] m m'.
Proof.
  intros Hwf H. pose proof H as (HL & Hl & Hnd).
  pose proof Hwf as (_ & _ & Hll). pose proof (Hll _ _ HL) as HLp.
  destruct (free_loop_spec (S (size (m_nodes m))) m L l sz)
    as (m1 & sz' & Hrun & (HL1 & _ & _) & Hwf1 & Hgone & Hfr); [| done | done |].
  { pose proof (dlseg_length_size _ _ _ _ Hl Hnd). lia. }
  unfold VmDirFreeLinkedList. rewrite bool_decide_eq_false_2 by (unfold NULL; lia).
  unfold mbind at 1, M_bind at 1, with_fuel. rewrite Hrun. unfold free_list. rewrite HL1.
  eexists. split; [reflexivity |]. cbn [m_lists m_nodes].
  split; [apply lookup_delete_eq | split; [done | split; [solve_wf |]]].
  destruct Hfr as [Hfn Hfl]. split; cbn [m_nodes m_lists]; [done |].
  intros K HK. rewrite lookup_delete_ne by set_solver. by apply Hfl.
Qed.

(** *** Sorted insertion *)

(** Where the insertion puts the new cell [c]: after the cells of [l] that
    [cmp] places before it. *)
Fixpoint span_ins (cmp : Z → Z → bool) (c : Z * Z) l : list (Z * Z) :=
  match l with
  | [] => [c]
  | d :: l' => if cmp d.2 c.2 then d :: span_ins cmp c l' else c :: l
  end.

Definition sorted_ins (cmp : Z → Z → bool) (c : Z * Z) l : list (Z * Z) :=
  match l with
  | [] => [c]
  | d :: l' => if cmp c.2 d.2 then c :: l else d :: span_ins cmp c l'
  end.

(** The insertion point is strictly inside the list. *)
Definition ins_middle (c : Z * Z) (l' : list (Z * Z)) : bool :=
  negb (bool_decide (head l' = Some c)) && negb (bool_decide (last l' = Some c)).

Lemma sorted_walk_spec fuel cmp m prev p x l e :
  dlseg (m_nodes m) prev ((p, x) :: l) NULL → (length l < fuel)%nat →
  ∃ l1 l2, l = l1 ++ l2 ∧
    sorted_walk fuel cmp e p m = Some (last_ptr ((p, x) :: l1) NULL, m) ∧
    ∀ c, span_ins cmp (c, e) l = l1 ++ (c, e) :: l2.
Proof.
  revert prev p x l. induction fuel as [|fuel IH]; intros prev p x l Hl Hf; [lia |].
  pose proof Hl as (Hp & (n & Hnp & Hne & _ & Hnx) & Hl')%dlseg_cons_inv.
  cbn [sorted_walk]. erewrite run_get_node by done. rewrite Hnx.
  destruct l as [|[q y] l]; cbn [first_ptr].
  - exists [], []. rewrite bool_decide_eq_true_2; done.
  - pose proof Hl' as (Hq & (nq & Hnq & Hqe & _) & _)%dlseg_cons_inv.
    rewrite bool_decide_eq_false_2 by done.
    erewrite run_get_node by done. rewrite Hqe. simpl.
    destruct (cmp y e) eqn:Hc; [| by exists [], ((q, y) :: l)].
    destruct (IH p q y l Hl') as (l1 & l2 & -> & Hrun & Hspan); [simpl in Hf; lia |].
    exists ((q, y) :: l1), l2. split; [done |]. split; [exact Hrun |].
    intros c. simpl. by rewrite Hspan.
Qed.

(** Linking a new cell between two cells of a chain. *)
Lemma sorted_link_spec m L l1 cur x q y l2 sz e :
  wf_mem m → is_chain m L (l1 ++ (cur, x) :: (q, y) :: l2) sz → alloc_ok m →
  ∃ m', sorted_link cur e m = Some (ERROR_SUCCESS, m') ∧
        is_chain m' L (l1 ++ (cur, x) :: (m_brk m, e) :: (q, y) :: l2) sz ∧
        wf_mem m' ∧ frame (m_brk m :: (l1 ++ (cur, x) :: (q, y) :: l2).*1) [] m m'.
Proof.
  intros Hwf H Hok. chain_facts Hwf H.
  pose proof Hl as [Hl1 Hl2]%dlseg_app.
  pose proof Hl2 as (Hc & (nc & Hnc & Hce & Hcp & Hcn) & Hl2')%dlseg_cons_inv.
  pose proof Hl2' as (Hq & (nq & Hnq & Hqe & Hqp & Hqn) & Hl3)%dlseg_cons_inv.
  pose proof (Hn _ _ Hnc). pose proof (Hn _ _ Hnq).
  rewrite fmap_app, !fmap_cons in Hnd, Hfr. cbn [fst] in Hnd, Hfr.
  pose proof Hnd as (Hnd1 & Hc1 & Hc2)%NoDup_middle.
  pose proof Hnd1 as (Hnd2 & Hq1 & Hq2)%NoDup_middle.
  apply not_elem_of_cons in Hc2 as [Hcq Hc2]. cbn [first_ptr] in Hcn.
  apply not_elem_of_app in Hfr as [Hfr1 Hfr]. rewrite !not_elem_of_cons in Hfr.
  destruct Hfr as (Hfc & Hfq & Hfr2).
  unfold sorted_link. m_run. rewrite nNext_set_prev, nNext_set_next, Hcn.
  m_run. m_norm. eexists. split; [reflexivity |].
  split; [| split; [solve_wf | solve_frame]].
  split_and!; cbn [m_nodes m_lists].
  - rewrite HL, !first_ptr_app, !last_ptr_app. done.
  - change (dlseg (m_nodes m) NULL (l1 ++ [(cur, x)] ++ (q, y) :: l2) NULL) in Hl.
    rewrite app_assoc in Hl. apply dlseg_app in Hl as [Hl _].
    change (l1 ++ ?a :: ?b :: ?r) with (l1 ++ [a] ++ b :: r).
    rewrite app_assoc. apply dlseg_app. split.
    + eapply dlseg_set_next; [m_lookup | done |].
      apply dlseg_insert_ne; [rewrite fmap_app; set_solver |].
      apply dlseg_insert_ne; [rewrite fmap_app; set_solver | exact Hl].
    + apply dlseg_insert_ne; [simpl; rewrite !not_elem_of_cons; done |].
      rewrite last_ptr_snoc.
      eapply dlseg_cons; [lia | m_lookup | done | done | done |].
      eapply dlseg_set_prev; [m_lookup | done |].
      apply dlseg_insert_ne; [simpl; rewrite not_elem_of_cons; done | exact Hl2'].
  - rewrite fmap_app, !fmap_cons. cbn [fst].
    change (cur :: m_brk m :: ?r) with ([cur] ++ m_brk m :: r).
    rewrite app_assoc. apply NoDup_middle. rewrite <- app_assoc. simpl.
    rewrite elem_of_app, !elem_of_cons, elem_of_nil. tauto.
Qed.

(** What the insertion leaves in the size field: nothing is added when the
    new cell goes strictly inside the list. *)
Definition sorted_size (sz : Z) (c : Z * Z) (l' : list (Z * Z)) : Z :=
  if ins_middle c l' then sz else u64 (sz + 1).

(** A fresh cell between two others is in the middle, so the size stays. *)
Lemma sorted_size_between sz (k l2 : list (Z * Z)) (b d q : Z * Z) :
  d.1 ∉ (b :: k ++ q :: l2).*1 → sorted_size sz d ((b :: k) ++ d :: q :: l2) = sz.
Proof.
  intros Hd. unfold sorted_size, ins_middle.
  rewrite (bool_decide_eq_false_2 (head _ = _)), bool_decide_eq_false_2; [done | |].
  - rewrite last_app_cons, last_cons_cons. intros Hx%last_Some_elem_of. apply Hd.
    rewrite fmap_cons, fmap_app. right. apply elem_of_app. right. by apply (list_elem_of_fmap_2 fst).
  - intros [= ->]. apply Hd. rewrite fmap_cons. left.
Qed.

Lemma VmDirSortedLinkedListInsert_spec cmp m L l sz e :
  wf_mem m → is_chain m L l sz → e ≠ NULL → alloc_ok m →
  ∃ m', VmDirSortedLinkedListInsert cmp L e m = Some (ERROR_SUCCESS, m') ∧
        is_chain m' L (sorted_ins cmp (m_brk m, e) l)
          (sorted_size sz (m_brk m, e) (sorted_ins cmp (m_brk m, e) l)) ∧
        wf_mem m' ∧ frame (m_brk m :: l.*1) [L] m m'.
Proof.
  intros Hwf H He Hok. pose proof H as H0. chain_facts Hwf H0.
  unfold VmDirSortedLinkedListInsert. rewrite !bool_decide_eq_false_2 by (done || lia).
  cbn [orb]. erewrite run_get_list by done. cbn [pHead].
  destruct l as [|[p x] l]; cbn [first_ptr sorted_ins fst snd].
  { destruct (insert_head_spec m L [] sz e) as (m' & Hrun & ? & ? & ? & _); [done.. |].
    exists m'. rewrite bool_decide_eq_true_2, run_ret by done.
    unfold mbind, M_bind. rewrite Hrun. split; [done |].
    unfold sorted_size, ins_middle. by rewrite !bool_decide_eq_true_2. }
  pose proof Hl as (Hp & (n & Hnp & Hne & _ & Hnx) & Hl')%dlseg_cons_inv.
  rewrite bool_decide_eq_false_2, run_assoc by done.
  erewrite run_get_node by done. rewrite run_ret, Hne.
  destruct (cmp e x) eqn:Hc.
  { destruct (insert_head_spec m L ((p, x) :: l) sz e) as (m' & Hrun & ? & ? & ? & _); [done.. |].
    exists m'. unfold mbind, M_bind. rewrite Hrun. split; [done |].
    unfold sorted_size, ins_middle. by rewrite bool_decide_eq_true_2. }
  destruct (sorted_walk_spec (S (size (m_nodes m))) cmp m NULL p x l e Hl)
    as (l1 & l2 & -> & Hwalk & Hspan).
  { pose proof (dlseg_length_size _ _ _ _ Hl Hnd) as Hlen. simpl in Hlen. lia. }
  rewrite Hspan. unfold mbind at 1, M_bind at 1, with_fuel. rewrite Hwalk.
  rewrite !app_comm_cons in *.
  destruct (exists_last (l := (p, x) :: l1)) as (k & [c y] & Hk); [done |].
  rewrite Hk in *. rewrite last_ptr_snoc.
  pose proof Hl as [[_ (_ & (nc & Hnc & _ & _ & Hcn) & _)%dlseg_cons_inv]%dlseg_app _]%dlseg_app.
  cbn [first_ptr] in Hcn. rewrite <- Hk, <- app_comm_cons in Hfr.
  erewrite run_get_node by done. rewrite Hcn.
  destruct l2 as [|[q z] l2]; cbn [first_ptr].
  - rewrite app_nil_r in *. rewrite bool_decide_eq_true_2 by done.
    destruct (insert_tail_spec m L (k ++ [(c, y)]) sz e) as (m' & Hrun & ? & ? & ? & _); [done.. |].
    exists m'. unfold mbind, M_bind. rewrite Hrun. split; [done |].
    unfold sorted_size, ins_middle.
    rewrite last_snoc, (bool_decide_eq_true_2 (Some (m_brk m, e) = _)) by reflexivity.
    by rewrite andb_false_r.
  - assert (q ≠ NULL) as Hq.
    { eapply dlseg_nonnull; [exact Hl |]. rewrite fmap_app. apply elem_of_app. right. left. }
    rewrite bool_decide_eq_false_2 by done. rewrite <- Hk, sorted_size_between, Hk by done.
    rewrite <- !app_assoc in *. simpl in *.
    destruct (sorted_link_spec m L k c y q z l2 sz e) as (m' & Hrun & Hch & Hwf' & Hfr');
      [done.. |].
    exists m'. split; [exact Hrun |]. split; [| split; [done |]].
    + done.
    + eapply frame_mono; [exact Hfr' | done | apply list_subseteq_nil].
Qed.
Lemma span_ins_perm cmp c l : span_ins cmp c l ≡ₚ c :: l.
Proof.
  induction l as [|d l IH]; simpl; [done |]. destruct (cmp d.2 c.2); [| done].
  rewrite IH. by apply Permutation_swap.
Qed.

Lemma sorted_ins_perm cmp c l : sorted_ins cmp c l ≡ₚ c :: l.
Proof.
  destruct l as [|d l]; simpl; [done |]. destruct (cmp c.2 d.2); [done |].
  rewrite span_ins_perm. by apply Permutation_swap.
Qed.

Lemma span_ins_sorted `{!SortCmp cmp R} c x l :
  R x c.2 → Sorted R (x :: l.*2) → Sorted R (x :: (span_ins cmp c l).*2).
Proof.
  revert x. induction l as [|d l IH]; intros x Hx Hs; simpl.
  - repeat constructor. done.
  - apply Sorted_inv in Hs as [Hs Hd]. destruct (cmp d.2 c.2) eqn:Hc; simpl.
    + constructor; [| by apply HdRel_inv in Hd; constructor].
      apply IH; [by apply (cmp_true (R := R)) | done].
    + constructor; [| by constructor]. constructor; [done |]. constructor.
      by apply (cmp_false (R := R)).
Qed.

Lemma sorted_ins_sorted `{!SortCmp cmp R} c l :
  Sorted R l.*2 → Sorted R (sorted_ins cmp c l).*2.
Proof.
  destruct l as [|d l]; simpl; intros Hs; [repeat constructor |].
  destruct (cmp c.2 d.2) eqn:Hc.
  - constructor; [done |]. constructor. by apply (cmp_true (R := R)).
  - apply (span_ins_sorted (R := R)); [by apply (cmp_false (R := R)) | done].
Qed.

(** *** Sequences of operations *)

(** The operations on one list, and their results. *)
Inductive ll_op :=
  | LL_InsertHead (e : Z) | LL_InsertTail (e : Z) | LL_Remove (p : Z)
  | LL_GetHead | LL_GetTail | LL_IsEmpty | LL_GetSize.

Inductive ll_res :=
  | LL_ptr (err : dwerror) (p : Z) | LL_err (err : dwerror) | LL_bool (b : bool) | LL_num (z : Z).

Definition run_op (L : Z) (o : ll_op) : LM ll_res :=
  match o with
  | LL_InsertHead e => r ← VmDirLinkedListInsertHead L e; mret (LL_ptr r.1 r.2)
  | LL_InsertTail e => r ← VmDirLinkedListInsertTail L e; mret (LL_ptr r.1 r.2)
  | LL_Remove p => r ← VmDirLinkedListRemove L p; mret (LL_err r)
  | LL_GetHead => r ← VmDirLinkedListGetHead L true; mret (LL_ptr r.1 r.2)
  | LL_GetTail => r ← VmDirLinkedListGetTail L true; mret (LL_ptr r.1 r.2)
  | LL_IsEmpty => r ← VmDirLinkedListIsEmpty L; mret (LL_bool r)
  | LL_GetSize => r ← VmDirLinkedListGetSize L; mret (LL_num r)
  end.

(** The abstract list: its cells in order, the address of the next cell and
    the outcomes of the coming allocations. *)
Record ll_abs := LL_ABS { abs_cells : list (Z * Z); abs_brk : Z; abs_oom : list bool }.

Definition abs_insert (f : Z * Z → list (Z * Z)) (e : Z) (s : ll_abs) : ll_res * ll_abs :=
  if bool_decide (e = NULL) then (LL_ptr ERROR_INVALID_PARAMETER NULL, s)
  else match abs_oom s with
       | true :: o => (LL_ptr ERROR_NO_MEMORY NULL, LL_ABS (abs_cells s) (abs_brk s) o)
       | o => (LL_ptr ERROR_SUCCESS (abs_brk s),
               LL_ABS (f (abs_brk s, e)) (abs_brk s + 1) (tail o))
       end.

(** [None]: the caller passes a node that is not in the list. *)
Definition abs_op (o : ll_op) (s : ll_abs) : option (ll_res * ll_abs) :=
  let l := abs_cells s in
  match o with
  | LL_InsertHead e => Some (abs_insert (λ c, c :: l) e s)
  | LL_InsertTail e => Some (abs_insert (λ c, l ++ [c]) e s)
  | LL_Remove p =>
      if bool_decide (p = NULL) then Some (LL_err ERROR_INVALID_PARAMETER, s)
      else if bool_decide (p ∈ l.*1)
      then Some (LL_err ERROR_SUCCESS,
                 LL_ABS (filter (λ c, c.1 ≠ p) l) (abs_brk s) (abs_oom s))
      else None
  | LL_GetHead => Some (LL_ptr ERROR_SUCCESS (default NULL (fst <$> head l)), s)
  | LL_GetTail => Some (LL_ptr ERROR_SUCCESS (default NULL (fst <$> last l)), s)
  | LL_IsEmpty => Some (LL_bool (bool_decide (l = [])), s)
  | LL_GetSize => Some (LL_num (u64 (Z.of_nat (length l))), s)
  end.

Fixpoint run_ops (L : Z) (os : list ll_op) : LM (list ll_res) :=
  match os with
  | [] => mret []
  | o :: os => r ← run_op L o; rs ← run_ops L os; mret (r :: rs)
  end.

Fixpoint abs_ops (os : list ll_op) (s : ll_abs) : option (list ll_res * ll_abs) :=
  match os with
  | [] => Some ([], s)
  | o :: os =>
      match abs_op o s with
      | Some (r, s') => match abs_ops os s' with
                        | Some (rs, s'') => Some (r :: rs, s'')
                        | None => None
                        end
      | None => None
      end
  end.

(** The memory [m] implements the abstract list [s] at [L]. *)
Definition abs_rel L m (s : ll_abs) : Prop :=
  wf_mem m ∧ is_list m L (abs_cells s) ∧ m_brk m = abs_brk s ∧ m_oom m = abs_oom s.

Lemma first_ptr_head l : first_ptr l NULL = default NULL (fst <$> head l).
Proof. by destruct l as [|[]]. Qed.

Lemma last_ptr_last l : last_ptr l NULL = default NULL (fst <$> last l).
Proof. destruct l as [|[] l _] using rev_ind; [done |]. by rewrite last_ptr_snoc, last_snoc. Qed.

Lemma filter_remove l1 p e l2 :
  p ∉ l1.*1 → p ∉ l2.*1 → filter (λ c : Z * Z, c.1 ≠ p) (l1 ++ (p, e) :: l2) = l1 ++ l2.
Proof.
  intros H1 H2. rewrite filter_app, filter_cons_False by (intros Hx; by apply Hx).
  f_equal; apply filter_id; intros c Hc Heq; subst.
  - by apply H1, list_elem_of_fmap_2.
  - by apply H2, list_elem_of_fmap_2.
Qed.

Lemma insert_oom m L e o :
  m_oom m = true :: o → L ≠ NULL → e ≠ NULL →
  VmDirLinkedListInsertHead L e m =
    Some ((ERROR_NO_MEMORY, NULL), MEM (m_nodes m) (m_lists m) (m_brk m) o) ∧
  VmDirLinkedListInsertTail L e m =
    Some ((ERROR_NO_MEMORY, NULL), MEM (m_nodes m) (m_lists m) (m_brk m) o).
Proof.
  intros Ho HL He. unfold VmDirLinkedListInsertHead, VmDirLinkedListInsertTail.
  rewrite !bool_decide_eq_false_2 by done. cbn [orb].
  by split; erewrite run_alloc_node_fail by done.
Qed.

Lemma insert_abs L m s e f (run : LM (dwerror * Z)) :
  abs_rel L m s →
  (e = NULL → run m = Some ((ERROR_INVALID_PARAMETER, NULL), m)) →
  (∀ o, e ≠ NULL → m_oom m = true :: o →
     run m = Some ((ERROR_NO_MEMORY, NULL), MEM (m_nodes m) (m_lists m) (m_brk m) o)) →
  (e ≠ NULL → alloc_ok m → ∃ m', run m = Some ((ERROR_SUCCESS, m_brk m), m') ∧
     is_list m' L (f (m_brk m, e)) ∧ wf_mem m' ∧ one_alloc m m') →
  ∃ m', (r ← run; mret (LL_ptr r.1 r.2)) m = Some ((abs_insert f e s).1, m') ∧
        abs_rel L m' (abs_insert f e s).2.
Proof.
  intros (Hwf & Hl & Hb & Ho) Hnull Hoom Hok. unfold abs_insert, mbind, M_bind.
  rewrite <- Hb, <- Ho.
  case_bool_decide as He; [rewrite Hnull by done; by exists m |].
  destruct (m_oom m) as [|[] o] eqn:Hm.
  - destruct Hok as (m' & -> & ? & ? & ? & Ht); [done | by unfold alloc_ok; rewrite Hm |].
    rewrite Hm in Ht.
    by exists m'.
  - rewrite (Hoom o) by done. eexists. split; [reflexivity |].
    split; [solve_wf | split; done].
  - destruct Hok as (m' & -> & ? & ? & ? & Ht); [done | by unfold alloc_ok; rewrite Hm |].
    rewrite Hm in Ht.
    by exists m'.
Qed.

Lemma abs_rel_list L m s : abs_rel L m s → L ≠ NULL.
Proof. intros ((_ & _ & Hll) & (HL & _) & _). apply Hll in HL. unfold NULL. lia. Qed.

(** One operation implements its abstract counterpart. *)
Lemma run_insert_head L e m s :
  abs_rel L m s →
  ∃ m', run_op L (LL_InsertHead e) m = Some ((abs_insert (λ c, c :: abs_cells s) e s).1, m') ∧
        abs_rel L m' (abs_insert (λ c, c :: abs_cells s) e s).2.
Proof.
  intros Hrel. pose proof (abs_rel_list _ _ _ Hrel). pose proof Hrel as (Hwf & Hl & _).
  apply insert_abs; [done |..].
  - intros ->. unfold VmDirLinkedListInsertHead. by rewrite orb_true_r.
  - intros o He Hm. by apply insert_oom.
  - intros He Hok. destruct (insert_head_spec m L (abs_cells s) _ e Hwf Hl He Hok)
      as (m' & ? & Hc & ? & _ & ?). exists m'. split; [done | split; [| done]].
    unfold is_list. rewrite u64_add_l in Hc. by replace (Z.of_nat _) with
      (Z.of_nat (length (abs_cells s)) + 1) by (simpl; lia).
Qed.

Lemma run_insert_tail L e m s :
  abs_rel L m s →
  ∃ m', run_op L (LL_InsertTail e) m = Some ((abs_insert (λ c, abs_cells s ++ [c]) e s).1, m') ∧
        abs_rel L m' (abs_insert (λ c, abs_cells s ++ [c]) e s).2.
Proof.
  intros Hrel. pose proof (abs_rel_list _ _ _ Hrel). pose proof Hrel as (Hwf & Hl & _).
  apply insert_abs; [done |..].
  - intros ->. unfold VmDirLinkedListInsertTail. by rewrite orb_true_r.
  - intros o He Hm. by apply insert_oom.
  - intros He Hok. destruct (insert_tail_spec m L (abs_cells s) _ e Hwf Hl He Hok)
      as (m' & ? & Hc & ? & _ & ?). exists m'. split; [done | split; [| done]].
    unfold is_list. rewrite u64_add_l in Hc. rewrite length_app. by replace (Z.of_nat _) with
      (Z.of_nat (length (abs_cells s)) + 1) by (simpl; lia).
Qed.

Lemma run_remove L p m s r s' :
  abs_rel L m s → abs_op (LL_Remove p) s = Some (r, s') →
  ∃ m', run_op L (LL_Remove p) m = Some (r, m') ∧ abs_rel L m' s'.
Proof.
  intros Hrel. pose proof Hrel as (Hwf & Hl & Hb & Ho). cbn [run_op abs_op].
  case_bool_decide as Hp; intros Hop; simplify_eq.
  { exists m. split; [| done]. unfold VmDirLinkedListRemove. by rewrite orb_true_r. }
  case_bool_decide as Hin; simplify_eq. pose proof Hl as (_ & _ & Hnd).
  apply list_elem_of_fmap in Hin as ([p' e] & -> & (l1 & l2 & Hsplit)%list_elem_of_split).
  cbn [fst]. rewrite Hsplit in *.
  destruct (remove_spec m L l1 p' e l2 _ Hwf Hl)
    as (m' & Hrun & Hc & _ & Hwf' & _ & Hb' & Ho').
  exists m'. unfold mbind, M_bind. rewrite Hrun. split; [done |].
  split; [done | split; [| by rewrite Hb', Ho']].
  cbn [abs_cells]. rewrite fmap_app, fmap_cons in Hnd.
  apply NoDup_middle in Hnd as (_ & H1 & H2). rewrite filter_remove by done.
  unfold is_list. rewrite u64_sub_l in Hc. rewrite length_app in Hc |- *. simpl in Hc.
  by replace (Z.of_nat (length l1 + length l2)) with
    (Z.of_nat (length l1 + S (length l2)) - 1) by lia.
Qed.

Lemma run_op_spec L o m s r s' :
  abs_rel L m s → abs_op o s = Some (r, s') →
  ∃ m', run_op L o m = Some (r, m') ∧ abs_rel L m' s'.
Proof.
  intros Hrel. pose proof (abs_rel_list _ _ _ Hrel) as HL0.
  pose proof Hrel as (_ & (HL & Hl & _) & _).
  destruct o as [e | e | p | | | |].
  1: { intros [= Hop]. destruct (run_insert_head L e m s Hrel) as (m' & ? & ?).
       exists m'. by rewrite Hop in *. }
  1: { intros [= Hop]. destruct (run_insert_tail L e m s Hrel) as (m' & ? & ?).
       exists m'. by rewrite Hop in *. }
  1: by apply run_remove.
  all: cbn [run_op abs_op]; intros [= <- <-]; exists m; split; [| done];
    unfold VmDirLinkedListGetHead, VmDirLinkedListGetTail, VmDirLinkedListIsEmpty,
      VmDirLinkedListGetSize; rewrite bool_decide_eq_false_2 by done; cbn [orb negb];
    m_run; cbn [pHead pTail iSize].
  - by rewrite first_ptr_head.
  - by rewrite last_ptr_last.
  - destruct (abs_cells s) as [|[p e] l]; [done |].
    pose proof Hl as (Hp & _)%dlseg_cons_inv. cbn. by rewrite !bool_decide_eq_false_2.
  - done.
Qed.

(** C38: Every sequence of insertions (at either end), removals and queries that
    removes only nodes of the list runs without undefined behaviour and returns
    what the same operations on the sequence of cells return, allocation
    failures and parameter errors included; the final memory represents the
    final sequence: links in both directions, head, tail and size. *)
Theorem linked_list_refines L os m s rs s' :
  abs_rel L m s → abs_ops os s = Some (rs, s') →
  ∃ m', run_ops L os m = Some (rs, m') ∧ abs_rel L m' s'.
Proof.
  revert m s rs. induction os as [|o os IH]; intros m s rs Hrel Hops; cbn [abs_ops run_ops] in *.
  { simplify_eq. by exists m. }
  destruct (abs_op o s) as [[r s1]|] eqn:Hop; [| done].
  destruct (abs_ops os s1) as [[rs1 s2]|] eqn:Hops1; [| done]. simplify_eq.
  destruct (run_op_spec L o m s r s1 Hrel Hop) as (m1 & Hrun & Hrel1).
  destruct (IH m1 s1 rs1 Hrel1 Hops1) as (m' & Hrun' & Hrel').
  exists m'. unfold mbind, M_bind. by rewrite Hrun, Hrun'.
Qed.

(** Appending list [S] to list [D] (distinct headers, no shared cell) moves
    every cell: [D] becomes the concatenation with the sum of the sizes and
    correct links across the seam, [S] becomes empty, and no other cell or
    header changes. *)
Theorem append_moves_all m D S ld ls :
  wf_mem m → D ≠ S → is_list m D ld → is_list m S ls → ld.*1 ## ls.*1 →
  ∃ m', VmDirLinkedListAppendListToTail D S m = Some (ERROR_SUCCESS, m') ∧
        is_list m' D (ld ++ ls) ∧ is_list m' S [] ∧
        wf_mem m' ∧ frame (ld ++ ls).*1 [D; S] m m'.
Proof. apply append_spec. Qed.

(** Freeing a list terminates, releases the header and every cell of the
    list exactly once (a second free would be undefined behaviour) and leaves
    every other cell and header untouched. *)
Theorem free_releases_all m L l sz :
  wf_mem m → is_chain m L l sz →
  ∃ m', VmDirFreeLinkedList L m = Some (tt, m') ∧
        m_lists m' !! L = None ∧ (∀ p, p ∈ l.*1 → m_nodes m' !! p = None) ∧
        wf_mem m' ∧ frame l.*1 [L] m m'.
Proof. apply VmDirFreeLinkedList_spec. Qed.

(** Inserting into a sorted list keeps it sorted and adds exactly the new
    element; the chain stays well linked in both directions. *)
Theorem sorted_insert_keeps_order cmp R m L l sz e :
  SortCmp cmp R → wf_mem m → is_chain m L l sz → e ≠ NULL → alloc_ok m →
  Sorted R l.*2 →
  ∃ m' l' sz', VmDirSortedLinkedListInsert cmp L e m = Some (ERROR_SUCCESS, m') ∧
    is_chain m' L l' sz' ∧ Sorted R l'.*2 ∧ l' ≡ₚ (m_brk m, e) :: l ∧ wf_mem m'.
Proof.
  intros Hcmp Hwf Hl He Hok Hs.
  destruct (VmDirSortedLinkedListInsert_spec cmp m L l sz e) as (m' & Hrun & Hc & Hwf' & _);
    [done.. |].
  do 3 eexists. split; [done |]. split; [done |].
  split; [by apply (sorted_ins_sorted (R := R)) |]. split; [apply sorted_ins_perm | done].
Qed.

(** The size field is not maintained by sorted insertion: it is incremented
    exactly when the new cell becomes the first or the last one.  Inserting 20
    into the list 10, 30 leaves a chain of three cells whose
    [VmDirLinkedListGetSize] is 2. *)
Theorem sorted_insert_size cmp m L l sz e :
  wf_mem m → is_chain m L l sz → e ≠ NULL → alloc_ok m →
  ∃ m', VmDirSortedLinkedListInsert cmp L e m = Some (ERROR_SUCCESS, m') ∧
    VmDirLinkedListGetSize L m' =
      Some (if ins_middle (m_brk m, e) (sorted_ins cmp (m_brk m, e) l)
            then sz else u64 (sz + 1), m').
Proof.
  intros Hwf Hl He Hok.
  destruct (VmDirSortedLinkedListInsert_spec cmp m L l sz e) as (m' & Hrun & (HL & _) & (_ & _ & Hll) & _);
    [done.. |].
  exists m'. split; [done |]. pose proof (Hll _ _ HL).
  unfold VmDirLinkedListGetSize. rewrite bool_decide_eq_false_2 by (unfold NULL; lia). m_run.
  done.
Qed.
End Proofs.

(** ** Concrete lists *)

(** The lists 10, 30 (header 1, cells 3 and 4) and 7 (header 2, cell 5). *)
Definition ex_mem : mem ll_node :=
  MEM (list_to_map [(3, LL_NODE 10 4 NULL 1); (4, LL_NODE 30 NULL 3 1); (5, LL_NODE 7 NULL NULL 2)])
      (list_to_map [(1, LIST_HDR 3 4 2); (2, LIST_HDR 5 5 1)]) 6 [].

Ltac eval_below := apply (bool_decide_unpack (map_Forall _ _)); vm_compute; exact I.
Ltac eval_wf := split; [done |]; split; eval_below.
Ltac eval_chain :=
  split; [reflexivity |]; split;
  [ repeat (eapply dlseg_cons; [done | reflexivity | reflexivity | reflexivity | reflexivity |]); exact I
  | apply (bool_decide_unpack (NoDup _)); vm_compute; exact I ].

Lemma ex_wf : wf_mem ex_mem.
Proof. eval_wf. Qed.
Lemma ex_list1 : is_list ex_mem 1 [(3, 10); (4, 30)].
Proof. eval_chain. Qed.
Lemma ex_list2 : is_list ex_mem 2 [(5, 7)].
Proof. eval_chain. Qed.

#[export] Instance ltb_sort_cmp : SortCmp Z.ltb Z.le.
Proof. split; intros a b; lia. Qed.

Lemma linked_list_refines_witness :
  ∃ m', run_ops 1 [LL_InsertHead 5; LL_Remove 4; LL_InsertTail 0; LL_GetTail; LL_GetSize] ex_mem =
    Some ([LL_ptr ERROR_SUCCESS 6; LL_err ERROR_SUCCESS; LL_ptr ERROR_INVALID_PARAMETER NULL;
           LL_ptr ERROR_SUCCESS 3; LL_num 2], m') ∧
    abs_rel 1 m' (LL_ABS [(6, 5); (3, 10)] 7 []).
Proof.
  apply (linked_list_refines _ _ _ (LL_ABS [(3, 10); (4, 30)] 6 [])).
  - split; [exact ex_wf | split; [exact ex_list1 | done]].
  - reflexivity.
Defined.

Lemma append_moves_all_witness :
  ∃ m', VmDirLinkedListAppendListToTail 1 2 ex_mem = Some (ERROR_SUCCESS, m') ∧
        is_list m' 1 [(3, 10); (4, 30); (5, 7)] ∧ is_list m' 2 [] ∧
        wf_mem m' ∧ frame [3; 4; 5] [1; 2] ex_mem m'.
Proof.
  apply (append_moves_all ex_mem 1 2 [(3, 10); (4, 30)] [(5, 7)]).
  - exact ex_wf.
  - done.
  - exact ex_list1.
  - exact ex_list2.
  - simpl. set_solver.
Defined.

Lemma free_releases_all_witness :
  ∃ m', VmDirFreeLinkedList 1 ex_mem = Some (tt, m') ∧
        m_lists m' !! 1 = None ∧ (∀ p, p ∈ [3; 4] → m_nodes m' !! p = None) ∧
        wf_mem m' ∧ frame [3; 4] [1] ex_mem m'.
Proof. apply (free_releases_all ex_mem 1 [(3, 10); (4, 30)] 2); [exact ex_wf | exact ex_list1]. Defined.

Lemma sorted_insert_keeps_order_witness :
  ∃ m' l' sz', VmDirSortedLinkedListInsert Z.ltb 1 20 ex_mem = Some (ERROR_SUCCESS, m') ∧
    is_chain m' 1 l' sz' ∧ Sorted Z.le l'.*2 ∧ l' ≡ₚ (6, 20) :: [(3, 10); (4, 30)] ∧ wf_mem m'.
Proof.
  apply (sorted_insert_keeps_order Z.ltb Z.le ex_mem 1 [(3, 10); (4, 30)] 2);
    [apply _ | exact ex_wf | exact ex_list1 | done | done |].
  simpl. repeat constructor. lia.
Defined.

Lemma sorted_insert_size_witness :
  ∃ m', VmDirSortedLinkedListInsert Z.ltb 1 20 ex_mem = Some (ERROR_SUCCESS, m') ∧
    VmDirLinkedListGetSize 1 m' = Some (2, m').
Proof.
  apply (sorted_insert_size Z.ltb ex_mem 1 [(3, 10); (4, 30)] 2);
    [exact ex_wf | exact ex_list1 | done | done].
Defined.
