(* ===== verification/MergeSort.v ===== *)
(** * MergeSort: [vmdir/common/mergesort.c]

    The in-place merge sort of a [VDIR_LINKED_LIST]: split with a slow and a
    fast pointer, two recursive calls, and a recursive merge that relinks the
    cells.  The recursion of the code is on a measure (the number of cells), so
    the definitions take fuel; the theorem shows that the fuel chosen is always
    enough. *)

From S2P Require Import Prelude Heap LinkedList.

Open Scope Z_scope.

(** ** Operations *)

(** The loop of [_VmDirMergeSortSplit]: the slow pointer when it stops. *)
Fixpoint split_loop (fuel : nat) (fast slow : Z) : LM Z :=
  match fuel with
  | O => λ _, None
  | S f =>
      nf ← get_node fast;
      if bool_decide (nNext nf = NULL) then mret slow
      else
        nf1 ← get_node (nNext nf);
        if bool_decide (nNext nf1 = NULL) then mret slow
        else ns ← get_node slow; split_loop f (nNext nf1) (nNext ns)
  end.

Definition _VmDirMergeSortSplit (pFirst : Z) : LM Z :=
  slow ← with_fuel (λ f, split_loop f pFirst pFirst);
  ns ← get_node slow;
  upd_node (nNext ns) (set_prev NULL);;
  upd_node slow (set_next NULL);;
  mret (nNext ns).

Fixpoint _VmDirMergeSortLinkedListMerge (fuel : nat) (cmp : Z → Z → bool) (p q : Z) : LM Z :=
  match fuel with
  | O => λ _, None
  | S f =>
      if bool_decide (p = NULL) then mret q
      else if bool_decide (q = NULL) then mret p
      else
        np ← get_node p;
        nq ← get_node q;
        if cmp (nElement np) (nElement nq)
        then
          r ← _VmDirMergeSortLinkedListMerge f cmp (nNext np) q;
          upd_node p (set_next r);;
          np ← get_node p;
          upd_node (nNext np) (set_prev p);;
          upd_node p (set_prev NULL);;
          mret p
        else
          r ← _VmDirMergeSortLinkedListMerge f cmp p (nNext nq);
          upd_node q (set_next r);;
          nq ← get_node q;
          upd_node (nNext nq) (set_prev q);;
          upd_node q (set_prev NULL);;
          mret q
  end.

Fixpoint _VmDirMergeSortInternal (fuel : nat) (cmp : Z → Z → bool) (p : Z) : LM Z :=
  match fuel with
  | O => λ _, None
  | S f =>
      if bool_decide (p = NULL) then mret p
      else
        n ← get_node p;
        if bool_decide (nNext n = NULL) then mret p
        else
          q ← _VmDirMergeSortSplit p;
          p' ← _VmDirMergeSortInternal f cmp p;
          q' ← _VmDirMergeSortInternal f cmp q;
          with_fuel (λ g, _VmDirMergeSortLinkedListMerge g cmp p' q')
  end.

(** The loop of [VmDirMergeSort] that finds the new tail. *)
Fixpoint tail_loop (fuel : nat) (p : Z) : LM Z :=
  match fuel with
  | O => λ _, None
  | S f =>
      if bool_decide (p = NULL) then mret p
      else n ← get_node p; if bool_decide (nNext n = NULL) then mret p else tail_loop f (nNext n)
  end.

Definition VmDirMergeSort (L : Z) (cmp : option (Z → Z → bool)) : LM dwerror :=
  match cmp with
  | Some cmp =>
      if bool_decide (L = NULL) then mret VMDIR_ERROR_INVALID_PARAMETER
      else
        sz ← VmDirLinkedListGetSize L;
        if sz >? 1
        then
          h ← get_list L;
          p ← with_fuel (λ f, _VmDirMergeSortInternal f cmp (pHead h));
          upd_list L (set_pHead p);;
          t ← with_fuel (λ f, tail_loop f p);
          upd_list L (set_pTail t);;
          mret ERROR_SUCCESS
        else mret ERROR_SUCCESS
  | None => mret VMDIR_ERROR_INVALID_PARAMETER
  end.

#[export] Instance gtb_sort_cmp : SortCmp Z.gtb Z.ge.
Proof. split; intros a b; lia. Qed.

(** ** Correctness *)

Section Proofs.
Context (cmp : Z → Z → bool) (R : Z → Z → Prop) `{!SortCmp cmp R}.
Implicit Types (m : mem ll_node) (l : list (Z * Z)).

(** The merge of two sequences of cells. *)
Fixpoint merge_cells l1 : list (Z * Z) → list (Z * Z) :=
  fix go l2 :=
    match l1, l2 with
    | [], _ => l2
    | _, [] => l1
    | c1 :: l1', c2 :: l2' =>
        if cmp c1.2 c2.2 then c1 :: merge_cells l1' l2 else c2 :: go l2'
    end.

Lemma merge_cells_nil_r l1 : merge_cells l1 [] = l1.
Proof. by destruct l1. Qed.

Lemma merge_cells_nil l1 l2 : merge_cells l1 l2 = [] → l1 = [] ∧ l2 = [].
Proof. destruct l1, l2; simpl; try done. by case_match. Qed.

Lemma merge_cells_perm l1 l2 : merge_cells l1 l2 ≡ₚ l1 ++ l2.
Proof.
  revert l2. induction l1 as [|c1 l1 IH1]; intros l2; [by destruct l2 |].
  induction l2 as [|c2 l2 IH2]; simpl; [by rewrite app_nil_r |].
  destruct (cmp c1.2 c2.2); [by rewrite IH1 |].
  simpl in IH2. rewrite IH2. by rewrite <- Permutation_middle, Permutation_swap.
Qed.

Lemma merge_cells_hd x l1 l2 :
  HdRel R x l1.*2 → HdRel R x l2.*2 → HdRel R x (merge_cells l1 l2).*2.
Proof.
  destruct l1 as [|c1 l1], l2 as [|c2 l2]; simpl; try done.
  intros H1%HdRel_inv H2%HdRel_inv. case_match; by constructor.
Qed.

Lemma merge_cells_sorted l1 l2 :
  Sorted R l1.*2 → Sorted R l2.*2 → Sorted R (merge_cells l1 l2).*2.
Proof.
  revert l2. induction l1 as [|c1 l1 IH1]; intros l2 H1; [by destruct l2 |].
  induction l2 as [|c2 l2 IH2]; intros H2; [done |]. simpl.
  pose proof (Sorted_inv H1) as [H1' Hd1]. pose proof (Sorted_inv H2) as [H2' Hd2].
  destruct (cmp c1.2 c2.2) eqn:Hc; simpl.
  - constructor; [by apply IH1 |]. apply merge_cells_hd; [done |].
    constructor. by apply cmp_true.
  - constructor; [by apply IH2 |]. apply (merge_cells_hd _ (c1 :: l1)); [| done].
    constructor. by apply cmp_false.
Qed.

(** [pFirst->pNext = r; pFirst->pNext->pPrev = pFirst; pFirst->pPrev = NULL]:
    a cell put in front of a non-empty chain. *)
Lemma relink_spec m p e n r er l pv :
  m_nodes m !! p = Some n → nElement n = e → p ≠ NULL → p ∉ ((r, er) :: l).*1 →
  NoDup ((r, er) :: l).*1 →
  dlseg (m_nodes m) pv ((r, er) :: l) NULL →
  ∃ m', (upd_node p (set_next r);;
         np ← get_node p;
         upd_node (nNext np) (set_prev p);;
         upd_node p (set_prev NULL);;
         mret p) m = Some (p, m') ∧
        dlseg (m_nodes m') NULL ((p, e) :: (r, er) :: l) NULL ∧
        frame (p :: ((r, er) :: l).*1) [] m m'.
Proof.
  intros Hn He Hp Hpl Hnd Hl.
  pose proof Hl as (Hr & (nr & Hnr & _) & _)%dlseg_cons_inv.
  cbn [fmap list_fmap fst] in Hpl, Hnd. apply not_elem_of_cons in Hpl as [Hpr Hpl].
  apply NoDup_cons in Hnd as [Hrl Hnd].
  m_run. rewrite nNext_set_next. m_run. m_norm. eexists. split; [reflexivity |].
  split; [| solve_frame].
  eapply dlseg_cons; [done | m_lookup | done | done | done |].
  apply dlseg_insert_ne; [by apply not_elem_of_cons |].
  eapply dlseg_set_prev; [m_lookup | done |].
  apply dlseg_insert_ne; [by apply not_elem_of_cons | exact Hl].
Qed.

Lemma relink_after m m1 p e n M pv ls :
  m_nodes m !! p = Some n → nElement n = e → p ≠ NULL →
  frame ls [] m m1 → M.*1 ≡ₚ ls → NoDup (p :: ls) → M ≠ [] → dlseg (m_nodes m1) pv M NULL →
  ∃ m', (upd_node p (set_next (first_ptr M NULL));;
         np ← get_node p;
         upd_node (nNext np) (set_prev p);;
         upd_node p (set_prev NULL);;
         mret p) m1 = Some (p, m') ∧
        dlseg (m_nodes m') NULL ((p, e) :: M) NULL ∧ frame (p :: ls) [] m m'.
Proof.
  intros Hn He Hp Hfr HM [Hpl Hnd]%NoDup_cons Hne Hseg.
  destruct M as [|[r er] l]; [done |].
  destruct (relink_spec m1 p e n r er l pv) as (m' & Hrun & Hseg' & Hfr'); try done.
  - destruct Hfr as [Hfr _]. by rewrite Hfr.
  - by rewrite HM.
  - by rewrite HM.
  - exists m'. split; [done | split; [done |]].
    eapply frame_trans; [exact Hfr | exact Hfr' |..]; try done.
    + by right.
    + intros x. rewrite !elem_of_cons, HM. tauto.
Qed.

Lemma merge_cells_fst l1 l2 : (merge_cells l1 l2).*1 ≡ₚ (l1 ++ l2).*1.
Proof. by rewrite merge_cells_perm. Qed.

Lemma merge_spec fuel m l1 l2 pv1 pv2 :
  (length l1 + length l2 < fuel)%nat → NoDup (l1 ++ l2).*1 →
  dlseg (m_nodes m) pv1 l1 NULL → dlseg (m_nodes m) pv2 l2 NULL →
  ∃ m' pv, _VmDirMergeSortLinkedListMerge fuel cmp (first_ptr l1 NULL) (first_ptr l2 NULL) m =
             Some (first_ptr (merge_cells l1 l2) NULL, m') ∧
    dlseg (m_nodes m') pv (merge_cells l1 l2) NULL ∧
    (l1 ≠ [] → l2 ≠ [] → pv = NULL) ∧ frame (l1 ++ l2).*1 [] m m'.
Proof.
  revert l1 l2 pv1 pv2. induction fuel as [|fuel IH]; intros l1 l2 pv1 pv2 Hf Hnd H1 H2; [lia |].
  cbn [_VmDirMergeSortLinkedListMerge].
  destruct l1 as [|[p e1] l1].
  { exists m, pv2. rewrite bool_decide_eq_true_2 by done. by destruct l2. }
  pose proof H1 as (Hp & (np & Hnp & He1 & _ & Hnx1) & H1')%dlseg_cons_inv.
  destruct l2 as [|[q e2] l2].
  { exists m, pv1. rewrite bool_decide_eq_false_2, bool_decide_eq_true_2 by done. done. }
  pose proof H2 as (Hq & (nq & Hnq & He2 & _ & Hnx2) & H2')%dlseg_cons_inv.
  cbn [first_ptr]. rewrite !bool_decide_eq_false_2 by done.
  erewrite run_get_node, run_get_node by done. rewrite He1, He2, Hnx1, Hnx2.
  cbn [merge_cells snd]. destruct (cmp e1 e2) eqn:Hc.
  - destruct (IH l1 ((q, e2) :: l2) p pv2) as (m1 & pv & Hrun & Hseg & _ & Hfr);
      [simpl in *; lia | by inv Hnd | done | done |].
    cbn [first_ptr] in Hrun. erewrite run_bind by exact Hrun.
    destruct (relink_after m m1 p e1 np (merge_cells l1 ((q, e2) :: l2)) pv
      (l1 ++ (q, e2) :: l2).*1) as (m' & Hrun' & Hseg' & Hfr'); try done.
    { apply merge_cells_fst. } { by intros [_ ?]%merge_cells_nil. }
    exists m', NULL. by rewrite Hrun'.
  - fold (merge_cells ((p, e1) :: l1) l2).
    assert (NoDup (q :: (((p, e1) :: l1) ++ l2).*1)) as Hnd'.
    { revert Hnd. rewrite !fmap_app, !fmap_cons. by rewrite <- Permutation_middle. }
    destruct (IH ((p, e1) :: l1) l2 pv1 q) as (m1 & pv & Hrun & Hseg & _ & Hfr);
      [simpl in *; lia | by inv Hnd' | done | done |].
    cbn [first_ptr] in Hrun. erewrite run_bind by exact Hrun.
    destruct (relink_after m m1 q e2 nq (merge_cells ((p, e1) :: l1) l2) pv
      (((p, e1) :: l1) ++ l2).*1) as (m' & Hrun' & Hseg' & Hfr'); try done.
    { apply merge_cells_fst. } { by intros [? _]%merge_cells_nil. }
    exists m', NULL. rewrite Hrun'. split; [done | split; [done | split; [done |]]].
    eapply frame_mono; [exact Hfr' | | done].
    intros x. rewrite !fmap_app, !fmap_cons, !elem_of_cons, !elem_of_app, !elem_of_cons. tauto.
Qed.

(** The slow pointer stops at a cell that is not the last one. *)
Lemma split_loop_spec fuel m pv ls lf :
  (length lf < fuel)%nat → lf ≠ [] → (2 <= length (ls ++ lf))%nat →
  dlseg (m_nodes m) pv (ls ++ lf) NULL →
  ∃ a c e b, ls ++ lf = a ++ (c, e) :: b ∧ b ≠ [] ∧
    split_loop fuel (first_ptr lf NULL) (first_ptr (ls ++ lf) NULL) m = Some (c, m).
Proof.
  revert pv ls lf. induction fuel as [|fuel IH]; intros pv ls lf Hf Hne Hlen Hl; [lia |].
  destruct lf as [|[c1 e1] lf]; [done |]. cbn [split_loop].
  pose proof Hl as [_ Hlf]%dlseg_app.
  pose proof Hlf as (Hc1 & (n1 & Hn1 & _ & _ & Hx1) & Hlf')%dlseg_cons_inv.
  cbn [first_ptr]. erewrite run_get_node by done. rewrite Hx1.
  assert (∃ c e b, ls ++ (c1, e1) :: lf = [] ++ (c, e) :: b ∧ b ≠ [] ∧
            first_ptr (ls ++ (c1, e1) :: lf) NULL = c) as Hstop.
  { destruct ls as [|[d ed] ls]; simpl in *.
    - exists c1, e1, lf. destruct lf; simpl in *; [lia | done].
    - exists d, ed, (ls ++ (c1, e1) :: lf). by destruct ls. }
  destruct lf as [|[c2 e2] lf]; cbn [first_ptr].
  { rewrite bool_decide_eq_true_2 by done.
    destruct Hstop as (c & e & b & ? & ? & Hfst). exists [], c, e, b. by rewrite Hfst. }
  pose proof Hlf' as (Hc2 & (n2 & Hn2 & _ & _ & Hx2) & Hlf2)%dlseg_cons_inv.
  rewrite bool_decide_eq_false_2 by done. erewrite run_get_node by done. rewrite Hx2.
  destruct lf as [|[c3 e3] lf]; cbn [first_ptr].
  { rewrite bool_decide_eq_true_2 by done.
    destruct Hstop as (c & e & b & ? & ? & Hfst). exists [], c, e, b. by rewrite Hfst. }
  pose proof Hlf2 as (Hc3 & _)%dlseg_cons_inv. rewrite bool_decide_eq_false_2 by done.
  destruct ls as [|[d ed] ls].
  - cbn [first_ptr app]. erewrite run_get_node by done. rewrite Hx1.
    destruct (IH c1 [(c2, e2)] ((c3, e3) :: lf)) as (a & c & e & b & Heq & Hb & Hrun);
      [simpl in *; lia | done | simpl; lia | done |].
    exists ((c1, e1) :: a), c, e, b. cbn [app] in *.
    split; [by rewrite Heq | split; [done | exact Hrun]].
  - cbn [first_ptr app] in *.
    pose proof Hl as (Hd & (nd & Hnd & _ & _ & Hxd) & Hl')%dlseg_cons_inv.
    erewrite run_get_node by done. rewrite Hxd.
    destruct (IH d (ls ++ [(c1, e1); (c2, e2)]) ((c3, e3) :: lf))
      as (a & c & e & b & Heq & Hb & Hrun);
      [simpl in *; lia | done | rewrite !length_app; simpl; lia | by rewrite <- app_assoc |].
    rewrite <- app_assoc in *. exists ((d, ed) :: a), c, e, b. cbn [app] in *.
    split; [by rewrite <- Heq | split; [done |]]. by rewrite <- Hrun.
Qed.

Lemma split_spec m l :
  (2 <= length l)%nat → NoDup l.*1 → dlseg (m_nodes m) NULL l NULL →
  ∃ m' l1 l2, _VmDirMergeSortSplit (first_ptr l NULL) m = Some (first_ptr l2 NULL, m') ∧
    l = l1 ++ l2 ∧ l1 ≠ [] ∧ l2 ≠ [] ∧
    dlseg (m_nodes m') NULL l1 NULL ∧ dlseg (m_nodes m') NULL l2 NULL ∧ frame l.*1 [] m m'.
Proof.
  intros Hlen Hnd Hl. pose proof (dlseg_length_size _ _ _ _ Hl Hnd) as Hsz.
  destruct (split_loop_spec (S (size (m_nodes m))) m NULL [] l)
    as (a & c & e & b & Heq & Hb & Hrun); [lia | by destruct l; simpl in Hlen; [lia |] | done | done |].
  cbn [app] in Heq, Hrun. unfold _VmDirMergeSortSplit.
  erewrite run_bind by exact Hrun. clear Hrun. subst l.
  destruct b as [|[q eq] b]; [done |].
  pose proof Hl as [Ha Hcb]%dlseg_app.
  pose proof Hcb as (Hc & (nc & Hnc & Hec & Hpc & Hxc) & Hqb)%dlseg_cons_inv.
  pose proof Hqb as (Hq & (nq & Hnq & _) & _)%dlseg_cons_inv. cbn [first_ptr] in Hxc.
  rewrite fmap_app, !fmap_cons in Hnd. cbn [fst] in Hnd.
  pose proof Hnd as (Hnd1 & Hca & Hcq)%NoDup_middle. apply not_elem_of_cons in Hcq as [Hcq Hcb'].
  pose proof Hnd1 as (_ & Hqa & Hqb')%NoDup_middle.
  erewrite run_get_node by done. rewrite Hxc. m_run. m_norm.
  eexists _, (a ++ [(c, e)]), ((q, eq) :: b). split; [reflexivity |].
  split; [by rewrite <- app_assoc |]. split; [by destruct a |]. split; [done |].
  split; [| split; [| solve_frame]].
  - change ((c, e) :: (q, eq) :: b) with ([(c, e)] ++ (q, eq) :: b) in Hl.
    rewrite app_assoc in Hl. apply dlseg_app in Hl as [Hl _].
    eapply dlseg_set_next; [m_lookup | done |].
    apply dlseg_insert_ne; [| exact Hl]. rewrite fmap_app, not_elem_of_app.
    split; [done |]. cbn. rewrite not_elem_of_cons. split; [done | apply not_elem_of_nil].
  - apply dlseg_insert_ne; [by apply not_elem_of_cons |].
    eapply dlseg_set_prev; [m_lookup | done | exact Hqb].
Qed.

Definition sorts (run : LM Z) m l : Prop :=
  ∃ m' l', run m = Some (first_ptr l' NULL, m') ∧
    l' ≡ₚ l ∧ Sorted R l'.*2 ∧ dlseg (m_nodes m') NULL l' NULL ∧ frame l.*1 [] m m'.

(** Sorting the two halves and merging them sorts the whole. *)
Lemma sort_halves fuel m l1 l2 :
  (∀ m l, (length l < fuel)%nat → NoDup l.*1 → dlseg (m_nodes m) NULL l NULL →
     sorts (_VmDirMergeSortInternal fuel cmp (first_ptr l NULL)) m l) →
  (length l1 < fuel)%nat → (length l2 < fuel)%nat → l1 ≠ [] → l2 ≠ [] →
  NoDup (l1 ++ l2).*1 →
  dlseg (m_nodes m) NULL l1 NULL → dlseg (m_nodes m) NULL l2 NULL →
  sorts (p' ← _VmDirMergeSortInternal fuel cmp (first_ptr l1 NULL);
         q' ← _VmDirMergeSortInternal fuel cmp (first_ptr l2 NULL);
         with_fuel (λ g, _VmDirMergeSortLinkedListMerge g cmp p' q')) m (l1 ++ l2).
Proof.
  intros IH Hf1 Hf2 Hne1 Hne2 Hnd Hs1 Hs2. rewrite fmap_app in Hnd.
  pose proof Hnd as (Hnd1 & Hnd2 & Hdj)%NoDup_app_disjoint.
  destruct (IH m l1) as (m2 & l1' & Hrun1 & Hpm1 & Hso1 & Hd1 & Hfr2); [done.. |].
  destruct (IH m2 l2) as (m3 & l2' & Hrun2 & Hpm2 & Hso2 & Hd2 & Hfr3); [done.. | |].
  { eapply dlseg_mem_frame; [exact Hfr2 | | done]. intros x Hx2 Hx1. by apply (Hdj x). }
  assert (dlseg (m_nodes m3) NULL l1' NULL) as Hd1'.
  { eapply dlseg_mem_frame; [exact Hfr3 | | done]. intros x. rewrite Hpm1. by apply Hdj. }
  assert (NoDup (l1' ++ l2').*1) as Hnd' by by rewrite Hpm1, Hpm2, fmap_app.
  assert (length (l1' ++ l2') <= size (m_nodes m3))%nat as Hsz.
  { rewrite <- (length_fmap fst). apply alloc_length_size; [done |].
    intros x. rewrite fmap_app. intros [Hx|Hx]%elem_of_app;
      [exact (dlseg_lookup _ _ _ _ _ Hd1' Hx) | exact (dlseg_lookup _ _ _ _ _ Hd2 Hx)]. }
  rewrite length_app in Hsz.
  destruct (merge_spec (S (size (m_nodes m3))) m3 l1' l2' NULL NULL)
    as (m4 & pv & Hrun3 & Hd4 & Hpv & Hfr4); [lia | done.. |].
  rewrite Hpv in Hd4; [| by intros ->; apply Permutation_nil_l in Hpm1
                       | by intros ->; apply Permutation_nil_l in Hpm2].
  exists m4, (merge_cells l1' l2').
  erewrite run_bind, run_bind by done. split; [done |].
  split; [by rewrite merge_cells_perm, Hpm1, Hpm2 |].
  split; [by apply merge_cells_sorted |]. split; [done |]. rewrite fmap_app.
  eapply frame_same; [eapply frame_mono; [exact Hfr2 | by apply list_subseteq_app_l | done] |].
  eapply frame_same; [eapply frame_mono; [exact Hfr3 | by apply list_subseteq_app_r | done] |].
  eapply frame_mono; [exact Hfr4 | | done].
  intros x. by rewrite fmap_app, Hpm1, Hpm2.
Qed.

Lemma sort_spec fuel m l :
  (length l < fuel)%nat → NoDup l.*1 → dlseg (m_nodes m) NULL l NULL →
  sorts (_VmDirMergeSortInternal fuel cmp (first_ptr l NULL)) m l.
Proof.
  revert m l. induction fuel as [|fuel IH]; intros m l Hf Hnd Hl; [lia |].
  cbn [_VmDirMergeSortInternal]. unfold sorts.
  destruct l as [|[p e] l].
  { exists m, []. rewrite bool_decide_eq_true_2 by done. repeat split; done || constructor. }
  pose proof Hl as (Hp & (n & Hn & _ & _ & Hx) & Hl')%dlseg_cons_inv.
  cbn [first_ptr]. rewrite bool_decide_eq_false_2 by done.
  erewrite run_get_node by done. rewrite Hx.
  destruct l as [|[q eq] l].
  { exists m, [(p, e)]. rewrite bool_decide_eq_true_2 by done. split; [done |].
    split; [done |]. split; [repeat constructor | done]. }
  cbn [first_ptr]. pose proof Hl' as (Hq & _)%dlseg_cons_inv.
  rewrite bool_decide_eq_false_2 by done.
  destruct (split_spec m ((p, e) :: (q, eq) :: l))
    as (m1 & l1 & l2 & Hsplit & Heq & Hne1 & Hne2 & Hs1 & Hs2 & Hfr1); [simpl; lia | done | done |].
  cbn [first_ptr] in Hsplit. erewrite run_bind by exact Hsplit. clear Hsplit.
  assert (p = first_ptr l1 NULL) as -> by (destruct l1 as [|[]]; simpl in *; congruence).
  rewrite Heq in *. rewrite length_app in Hf.
  destruct (sort_halves fuel m1 l1 l2) as (m' & l' & Hrun & Hpm & Hso & Hd & Hfr);
    [done | destruct l2; simpl in *; [done | lia] | destruct l1; simpl in *; [done | lia] | done.. |].
  exists m', l'. do 4 (split; [done |]). by eapply frame_same.
Qed.

Lemma tail_loop_spec fuel m pv l :
  (length l < fuel)%nat → dlseg (m_nodes m) pv l NULL →
  tail_loop fuel (first_ptr l NULL) m = Some (last_ptr l NULL, m).
Proof.
  revert pv l. induction fuel as [|fuel IH]; intros pv l Hf Hl; [lia |]. cbn [tail_loop].
  destruct l as [|[p e] l]; [by rewrite bool_decide_eq_true_2 |].
  pose proof Hl as (Hp & (n & Hn & _ & _ & Hx) & Hl')%dlseg_cons_inv.
  cbn [first_ptr]. rewrite bool_decide_eq_false_2 by done. erewrite run_get_node by done.
  rewrite Hx. destruct l as [|[q eq] l]; cbn [first_ptr]; [by rewrite bool_decide_eq_true_2 |].
  pose proof Hl' as (Hq & _)%dlseg_cons_inv. rewrite bool_decide_eq_false_2 by done.
  simpl in Hf. apply (IH p ((q, eq) :: l)); [simpl; lia | done].
Qed.

(** C39: Sorting a list returns success, terminates, and leaves a list of the
    same cells whose elements are in the order of the comparator, with the
    links in both directions, the head, the tail and the size correct; nothing
    outside the list changes. *)
Theorem merge_sort_sorts m L l :
  wf_mem m → is_list m L l → Z.of_nat (length l) < 2 ^ 64 →
  ∃ m' l', VmDirMergeSort L (Some cmp) m = Some (ERROR_SUCCESS, m') ∧
    is_list m' L l' ∧ l' ≡ₚ l ∧ Sorted R l'.*2 ∧ frame l.*1 [L] m m'.
Proof.
  intros Hwf (HL & Hl & Hnd) Hlen. pose proof Hwf as (_ & _ & Hll).
  pose proof (Hll _ _ HL) as HLp. unfold VmDirMergeSort, VmDirLinkedListGetSize.
  rewrite !bool_decide_eq_false_2 by (unfold NULL; lia). m_run. cbn [iSize].
  rewrite u64_id by (split; lia). destruct (Z.gtb_spec (Z.of_nat (length l)) 1) as [Hgt | Hle].
  2: { exists m, l. split; [done |]. split; [done |]. split; [done |]. split; [| done].
       destruct l as [|? [|]]; simpl in *; [constructor | repeat constructor | lia]. }
  erewrite run_get_list by done. cbn [pHead].
  destruct (sort_spec (S (size (m_nodes m))) m l) as (m1 & l' & Hrun & Hpm & Hso & Hd & Hfr);
    [pose proof (dlseg_length_size _ _ _ _ Hl Hnd); lia | done | done |].
  erewrite run_bind by exact Hrun.
  assert (m_lists m1 !! L = m_lists m !! L) as HL1 by (destruct Hfr as [_ Hfr]; apply Hfr, not_elem_of_nil).
  rewrite HL in HL1. m_run.
  assert (NoDup l'.*1) as Hnd' by by rewrite Hpm.
  erewrite run_bind.
  2: { eapply tail_loop_spec; [| exact Hd].
       pose proof (dlseg_length_size _ _ _ _ Hd Hnd'). cbn [set_lists m_nodes]. lia. }
  m_run. m_norm. eexists _, l'. split; [reflexivity |].
  split; [| split; [done | split; [done |]]].
  - split; cbn [m_lists m_nodes]; [| done]. rewrite lookup_insert_eq.
    f_equal. f_equal. by rewrite Hpm, u64_id by (split; lia).
  - destruct Hfr as [Hfn Hfl]. split; cbn [m_nodes m_lists]; [done |]. intros K HK.
    rewrite lookup_insert_ne by set_solver. apply Hfl, not_elem_of_nil.
Qed.

End Proofs.

Lemma merge_sort_sorts_witness :
  ∃ m' l', VmDirMergeSort 1 (Some Z.gtb) ex_mem = Some (ERROR_SUCCESS, m') ∧
    is_list m' 1 l' ∧ l' ≡ₚ [(3, 10); (4, 30)] ∧ Sorted Z.ge l'.*2 ∧ frame [3; 4] [1] ex_mem m'.
Proof.
  apply (merge_sort_sorts Z.gtb Z.ge ex_mem 1 [(3, 10); (4, 30)]);
    [exact ex_wf | exact ex_list1 | done].
Defined.
