(* ===== verification/Deque.v ===== *)
(** * Deque: [vmdir/common/deque.c]

    The double-ended queue of the directory, a second implementation of the
    interface [DNode] (its nodes have no back pointer to the header).  The
    theorem refines every sequence of operations to a functional queue. *)

From S2P Require Import Prelude Heap.

Open Scope Z_scope.

(** ** Data *)

(** [DEQUE_NODE]. *)
Record deque_node := DEQUE_NODE { dq_pElement : Z; dq_pNext : Z; dq_pPrev : Z }.

Definition dq_zero : deque_node := DEQUE_NODE NULL NULL NULL.
Definition dq_set_elem (e : Z) (n : deque_node) : deque_node :=
  DEQUE_NODE e (dq_pNext n) (dq_pPrev n).

#[export] Instance deque_dnode : DNode deque_node := {
  nElement := dq_pElement; nNext := dq_pNext; nPrev := dq_pPrev;
  set_next x n := DEQUE_NODE (dq_pElement n) x (dq_pPrev n);
  set_prev x n := DEQUE_NODE (dq_pElement n) (dq_pNext n) x;
  nElement_set_next _ _ := eq_refl; nNext_set_next _ _ := eq_refl;
  nPrev_set_next _ _ := eq_refl; nElement_set_prev _ _ := eq_refl;
  nNext_set_prev _ _ := eq_refl; nPrev_set_prev _ _ := eq_refl }.

(** ** Operations *)

Abbreviation DM := (M deque_node).

Definition dequeCreate (ppDeque : bool) : DM (dwerror * Z) :=
  if negb ppDeque then mret (ERROR_INVALID_PARAMETER, NULL) else VmDirAllocateMemory_list.

(** [free(NULL)] is a no-op. *)
Definition dequeFree (D : Z) : DM unit :=
  if bool_decide (D = NULL) then mret tt else free_list D.

Definition dequeHeadNode (D : Z) : DM Z :=
  if bool_decide (D = NULL) then mret NULL else h ← get_list D; mret (pHead h).

Definition dequeHead (D : Z) : DM Z :=
  if bool_decide (D = NULL) then mret NULL
  else
    h ← get_list D;
    if bool_decide (pHead h = NULL) then mret NULL
    else n ← get_node (pHead h); mret (nElement n).

Definition dequeTail (D : Z) : DM Z :=
  if bool_decide (D = NULL) then mret NULL
  else
    h ← get_list D;
    if bool_decide (pTail h = NULL) then mret NULL
    else n ← get_node (pTail h); mret (nElement n).

Definition dequePush (D e : Z) : DM dwerror :=
  if bool_decide (D = NULL) || bool_decide (e = NULL) then mret ERROR_INVALID_PARAMETER
  else
    r ← VmDirAllocateMemory_node dq_zero;
    match r with
    | (ERROR_SUCCESS, p) =>
        upd_node p (dq_set_elem e);;
        h ← get_list D;
        (if bool_decide (pHead h = NULL)
         then upd_list D (set_pHead p);; upd_list D (set_pTail p)
         else
           upd_node (pTail h) (set_next p);;
           upd_node p (set_prev (pTail h));;
           upd_list D (set_pTail p));;
        upd_list D (λ h, set_iSize (u64 (iSize h + 1)) h);;
        mret ERROR_SUCCESS
    | (err, _) => mret err
    end.

(** The result is the error and the value of [*ppElement]. *)
Definition dequePop (D : Z) (ppElement : bool) : DM (dwerror * Z) :=
  if bool_decide (D = NULL) || negb ppElement then mret (ERROR_INVALID_PARAMETER, NULL)
  else
    h ← get_list D;
    if bool_decide (pTail h = NULL) then mret (ERROR_NO_MORE_ITEMS, NULL)
    else
      n ← get_node (pTail h);
      (if bool_decide (pHead h = pTail h)
       then upd_list D (set_pHead NULL);; upd_list D (set_pTail NULL)
       else upd_list D (set_pTail (nPrev n));; upd_node (nPrev n) (set_next NULL));;
      free_node (pTail h);;
      upd_list D (λ h, set_iSize (u64 (iSize h - 1)) h);;
      mret (ERROR_SUCCESS, nElement n).

Definition dequePopLeft (D : Z) (ppElement : bool) : DM (dwerror * Z) :=
  if bool_decide (D = NULL) || negb ppElement then mret (ERROR_INVALID_PARAMETER, NULL)
  else
    h ← get_list D;
    if bool_decide (pHead h = NULL) then mret (ERROR_NO_MORE_ITEMS, NULL)
    else
      n ← get_node (pHead h);
      (if bool_decide (pHead h = pTail h)
       then upd_list D (set_pHead NULL);; upd_list D (set_pTail NULL)
       else upd_list D (set_pHead (nNext n));; upd_node (nNext n) (set_prev NULL));;
      free_node (pHead h);;
      upd_list D (λ h, set_iSize (u64 (iSize h - 1)) h);;
      mret (ERROR_SUCCESS, nElement n).

Definition dequeGetSize (D : Z) : DM Z :=
  if bool_decide (D = NULL) then mret 0 else h ← get_list D; mret (iSize h).

Definition dequeIsEmpty (D : Z) : DM bool :=
  if bool_decide (D = NULL) then mret true
  else h ← get_list D; mret (bool_decide (pHead h = NULL)).

(** [dequeFreeStringContents] pops until the deque is empty; the strings it
    frees are not cells of this heap: the model returns them in the order in
    which they are freed. *)
Fixpoint free_strings_loop (fuel : nat) (D : Z) : DM (list Z) :=
  match fuel with
  | O => λ _, None
  | S f =>
      b ← dequeIsEmpty D;
      if (b : bool) then mret []
      else r ← dequePopLeft D true; es ← free_strings_loop f D; mret (r.2 :: es)
  end.

Definition dequeFreeStringContents (D : Z) : DM (list Z) :=
  with_fuel (λ f, free_strings_loop f D).

(** ** Refinement *)

(** The operations on one deque and their results. *)
Inductive dq_op := DQ_Push (e : Z) | DQ_Pop | DQ_PopLeft | DQ_Head | DQ_Tail | DQ_Size | DQ_Empty.
Inductive dq_res := DQ_err (r : dwerror) | DQ_elem (r : dwerror) (e : Z) | DQ_num (z : Z) | DQ_bool (b : bool).

Definition dq_run (D : Z) (o : dq_op) : DM dq_res :=
  match o with
  | DQ_Push e => r ← dequePush D e; mret (DQ_err r)
  | DQ_Pop => r ← dequePop D true; mret (DQ_elem r.1 r.2)
  | DQ_PopLeft => r ← dequePopLeft D true; mret (DQ_elem r.1 r.2)
  | DQ_Head => r ← dequeHead D; mret (DQ_num r)
  | DQ_Tail => r ← dequeTail D; mret (DQ_num r)
  | DQ_Size => r ← dequeGetSize D; mret (DQ_num r)
  | DQ_Empty => r ← dequeIsEmpty D; mret (DQ_bool r)
  end.

(** The functional queue: the elements from head to tail, and the outcomes of
    the coming allocations. *)
Definition dq_abs (o : dq_op) (s : list Z * list bool) : dq_res * (list Z * list bool) :=
  let (q, oom) := s in
  match o with
  | DQ_Push e =>
      if bool_decide (e = NULL) then (DQ_err ERROR_INVALID_PARAMETER, s)
      else match oom with
           | true :: oom' => (DQ_err ERROR_NO_MEMORY, (q, oom'))
           | _ => (DQ_err ERROR_SUCCESS, (q ++ [e], tail oom))
           end
  | DQ_Pop => match last q with
              | None => (DQ_elem ERROR_NO_MORE_ITEMS NULL, s)
              | Some e => (DQ_elem ERROR_SUCCESS e, (take (length q - 1) q, oom))
              end
  | DQ_PopLeft => match q with
                  | [] => (DQ_elem ERROR_NO_MORE_ITEMS NULL, s)
                  | e :: q' => (DQ_elem ERROR_SUCCESS e, (q', oom))
                  end
  | DQ_Head => (DQ_num (default NULL (head q)), s)
  | DQ_Tail => (DQ_num (default NULL (last q)), s)
  | DQ_Size => (DQ_num (u64 (Z.of_nat (length q))), s)
  | DQ_Empty => (DQ_bool (bool_decide (q = [])), s)
  end.

Fixpoint dq_runs (D : Z) (os : list dq_op) : DM (list dq_res) :=
  match os with
  | [] => mret []
  | o :: os => r ← dq_run D o; rs ← dq_runs D os; mret (r :: rs)
  end.

Fixpoint dq_abss (os : list dq_op) (s : list Z * list bool) : list dq_res * (list Z * list bool) :=
  match os with
  | [] => ([], s)
  | o :: os => let (r, s1) := dq_abs o s in let (rs, s2) := dq_abss os s1 in (r :: rs, s2)
  end.

Section Proofs.
Implicit Types (m : mem deque_node) (D : Z) (l : list (Z * Z)).

(** Memory [m] implements the queue [s] at [D]. *)
Definition dq_rel D m (s : list Z * list bool) : Prop :=
  wf_mem m ∧ m_oom m = s.2 ∧ ∃ l, is_list m D l ∧ l.*2 = s.1.

Lemma push_spec m D l e :
  wf_mem m → is_list m D l → e ≠ NULL → alloc_ok m →
  ∃ m', dequePush D e m = Some (ERROR_SUCCESS, m') ∧
        is_list m' D (l ++ [(m_brk m, e)]) ∧ wf_mem m' ∧ one_alloc m m'.
Proof.
  intros Hwf (HD & Hl & Hnd) He Hok. pose proof Hwf as (Hb & Hn & Hll).
  pose proof (Hll _ _ HD). assert (NULL = 0) as Hnull by reflexivity.
  pose proof (wf_mem_fresh_seg _ _ _ _ Hwf Hl) as Hfr.
  assert (∀ sz, u64 (u64 (Z.of_nat (length l)) + 1) = sz →
    u64 (Z.of_nat (length (l ++ [(m_brk m, e)]))) = sz) as Hsz.
  { intros sz <-. rewrite u64_add_l, length_app. f_equal. simpl. lia. }
  unfold dequePush. destruct l as [|[q e'] l' _] using rev_ind.
  - m_run. m_norm. eexists. split; [reflexivity |]. split; [| split; [solve_wf | done]].
    split_and!; cbn [m_nodes m_lists]; [m_lookup | | by apply NoDup_singleton].
    eapply dlseg_cons; [lia | m_lookup | done..].
  - pose proof Hl as [Hl' (Hq & (n & Hnq & Hne & Hnp & Hnn) & _)%dlseg_cons_inv]%dlseg_app.
    pose proof (Hn _ _ Hnq). rewrite last_ptr_snoc in HD.
    rewrite fmap_app in Hnd, Hfr. simpl in Hnd, Hfr.
    assert (first_ptr (l' ++ [(q, e')]) NULL ≠ NULL) as Hfp.
    { destruct l' as [|[p ?] l']; [done |]. by pose proof Hl as (? & _)%dlseg_cons_inv. }
    m_run. m_norm. eexists. split; [reflexivity |]. split; [| split; [solve_wf | done]].
    split_and!; cbn [m_nodes m_lists].
    + rewrite (first_ptr_app (_ ++ _)), last_ptr_snoc. rewrite lookup_insert_eq.
      f_equal. f_equal; [by destruct l' as [|[]] | by symmetry; apply Hsz].
    + apply dlseg_app. split.
      * apply dlseg_insert_ne; [by rewrite fmap_app |].
        eapply dlseg_set_next; [m_lookup | by apply NoDup_snoc in Hnd as [] |].
        by apply dlseg_insert_ne; [rewrite fmap_app |].
      * eapply dlseg_cons; [lia | m_lookup | done | by rewrite last_ptr_snoc | done | done].
    + rewrite !fmap_app. simpl. apply NoDup_snoc. done.
Qed.

Lemma pop_size (n k : nat) : n = S k → u64 (u64 (Z.of_nat n) - 1) = u64 (Z.of_nat k).
Proof. intros ->. rewrite u64_sub_l. f_equal. lia. Qed.

Lemma popleft_spec m D p e l :
  wf_mem m → is_list m D ((p, e) :: l) →
  ∃ m', dequePopLeft D true m = Some ((ERROR_SUCCESS, e), m') ∧
        is_list m' D l ∧ wf_mem m' ∧ same_alloc m m'.
Proof.
  intros Hwf (HD & Hl & Hnd). pose proof Hwf as (Hb & Hn & Hll).
  pose proof (Hll _ _ HD). assert (NULL = 0) as Hnull by reflexivity.
  pose proof Hl as (Hp & (n & Hnp & Hne & _ & Hnx) & Hl')%dlseg_cons_inv.
  apply NoDup_cons in Hnd as [Hpl Hnd]. unfold dequePopLeft. rewrite <- Hne.
  destruct l as [|[q eq] l].
  - m_run. m_norm. eexists. split; [reflexivity |]. split; [| split; [solve_wf | done]].
    split_and!; cbn [m_nodes m_lists]; [by rewrite lookup_insert_eq | done |].
    apply NoDup_nil_2.
  - pose proof Hl' as (Hq & (nq & Hnq & _) & _)%dlseg_cons_inv.
    simpl in Hpl, Hnd. apply not_elem_of_cons in Hpl as [Hpq Hpl]. pose proof (Hn _ _ Hnq).
    apply NoDup_cons in Hnd as [Hql Hnd].
    assert (p ≠ last_ptr ((q, eq) :: l) NULL) as Hlast.
    { intros Heq. pose proof (last_ptr_elem ((q, eq) :: l) NULL) as Hin. rewrite <- Heq in Hin.
      apply elem_of_cons in Hin as [|]; done. }
    m_run. rewrite Hnx. m_run. m_norm. eexists. split; [reflexivity |].
    split; [| split; [solve_wf | done]].
    split_and!; cbn [m_nodes m_lists].
    + rewrite lookup_insert_eq. f_equal. f_equal. by apply pop_size.
    + apply dlseg_delete_ne; [by apply not_elem_of_cons |].
      eapply dlseg_set_prev; [done | done | exact Hl'].
    + by apply NoDup_cons.
Qed.

Lemma pop_spec m D l p e :
  wf_mem m → is_list m D (l ++ [(p, e)]) →
  ∃ m', dequePop D true m = Some ((ERROR_SUCCESS, e), m') ∧
        is_list m' D l ∧ wf_mem m' ∧ same_alloc m m'.
Proof.
  intros Hwf (HD & Hl & Hnd). pose proof Hwf as (Hb & Hn & Hll).
  pose proof (Hll _ _ HD). assert (NULL = 0) as Hnull by reflexivity.
  pose proof Hl as [Hl' (Hp & (n & Hnp & Hne & Hpv & _) & _)%dlseg_cons_inv]%dlseg_app.
  rewrite last_ptr_snoc in HD. rewrite fmap_app in Hnd. apply NoDup_snoc in Hnd as [Hnd Hpl].
  unfold dequePop. rewrite <- Hne.
  destruct l as [|[q eq] l _] using rev_ind.
  - m_run. m_norm. eexists. split; [reflexivity |]. split; [| split; [solve_wf | done]].
    split_and!; cbn [m_nodes m_lists]; [by rewrite lookup_insert_eq | done |].
    apply NoDup_nil_2.
  - pose proof Hl' as [Hl2 (Hq & (nq & Hnq & _) & _)%dlseg_cons_inv]%dlseg_app.
    pose proof (Hn _ _ Hnq). rewrite last_ptr_snoc in Hpv. rewrite fmap_app in Hpl, Hnd.
    pose proof (proj1 (NoDup_snoc _ _) Hnd) as [_ Hql].
    apply not_elem_of_app in Hpl as [Hpl [Hpq _]%not_elem_of_cons]. cbn [fst] in Hpq.
    assert (first_ptr ((l ++ [(q, eq)]) ++ [(p, e)]) NULL ≠ p) as Hfp.
    { destruct l as [|[x ?] l]; simpl; [done |]. intros ->. apply Hpl. left. }
    assert (first_ptr ((l ++ [(q, eq)]) ++ [(p, e)]) NULL =
            first_ptr (l ++ [(q, eq)]) NULL) as Hfp' by by destruct l as [|[]].
    m_run. rewrite Hpv. m_run. m_norm. eexists. split; [reflexivity |].
    split; [| split; [solve_wf | done]].
    split_and!; cbn [m_nodes m_lists].
    + rewrite lookup_insert_eq, last_ptr_snoc, Hfp'. f_equal. f_equal. apply pop_size.
      rewrite length_app. simpl. lia.
    + apply dlseg_delete_ne.
      { rewrite fmap_app, not_elem_of_app. split; [done |]. cbn.
        apply not_elem_of_cons. split; [done | apply not_elem_of_nil]. }
      eapply dlseg_set_next; [done | done | exact Hl'].
    + by rewrite fmap_app.
Qed.

(** One operation implements its abstract counterpart. *)
Lemma dq_run_push D e m s :
  dq_rel D m s → ∃ m', dq_run D (DQ_Push e) m = Some ((dq_abs (DQ_Push e) s).1, m') ∧ dq_rel D m' (dq_abs (DQ_Push e) s).2.
Proof.
  destruct s as [q oom]. intros Hrel. pose proof Hrel as (Hwf & Ho & l & Hl & Hq). cbn [fst snd] in *.
  pose proof Hl as (HD & _ & _). pose proof Hwf as (_ & _ & Hll). pose proof (Hll _ _ HD).
  assert (D ≠ NULL) as HD0 by (unfold NULL; lia). cbn [dq_run dq_abs]. case_bool_decide as He.
  { exists m. split; [| done]. unfold dequePush. subst e. by rewrite orb_true_r. }
  destruct oom as [|[] oom].
  2: { exists (MEM (m_nodes m) (m_lists m) (m_brk m) oom). unfold dequePush.
       rewrite !bool_decide_eq_false_2 by done. cbn [orb]. rewrite run_assoc.
       erewrite run_alloc_node_fail by done. split; [done |].
       split; [solve_wf | split; [done | by exists l]]. }
  all: destruct (push_spec m D l e) as (m' & Hrun & Hl' & Hwf' & _ & Ho');
    [done | done | done | by unfold alloc_ok; rewrite Ho |];
    exists m'; erewrite run_bind by done; split; [done |];
    split; [done |]; split; [by rewrite Ho', Ho | eexists; split; [done |]];
    by rewrite fmap_app, Hq.
Qed.

Lemma dq_run_spec D o m s :
  dq_rel D m s → ∃ m', dq_run D o m = Some ((dq_abs o s).1, m') ∧ dq_rel D m' (dq_abs o s).2.
Proof.
  destruct s as [q oom]. intros (Hwf & Ho & l & Hl & Hq). cbn [fst snd] in *.
  pose proof Hl as (HD & Hseg & _). pose proof Hwf as (_ & _ & Hll). pose proof (Hll _ _ HD).
  assert (D ≠ NULL) as HD0 by (unfold NULL; lia). assert (NULL = 0) as Hnull by reflexivity.
  assert (dq_rel D m (q, oom)) as Hrel by (split; [done | split; [done | by exists l]]).
  destruct o as [e | | | | | |]; [by apply dq_run_push | cbn [dq_run dq_abs]..].
  - destruct l as [|[p e] l _] using rev_ind; subst q.
    { exists m. split; [| done]. unfold dequePop. m_run. done. }
    destruct (pop_spec m D l p e Hwf Hl) as (m' & Hrun & Hl' & Hwf' & _ & Ho').
    rewrite fmap_app. change [(p, e)].*2 with [e]. rewrite last_snoc.
    exists m'. erewrite run_bind by done. split; [done |].
    split; [done | split; [by rewrite Ho', Ho | exists l; split; [done |]]].
    cbn [fst snd]. rewrite length_app. simpl. rewrite Nat.add_sub. by rewrite take_app_length.
  - destruct l as [|[p e] l]; subst q.
    { exists m. split; [| done]. unfold dequePopLeft. m_run. done. }
    destruct (popleft_spec m D p e l Hwf Hl) as (m' & Hrun & Hl' & Hwf' & _ & Ho').
    exists m'. erewrite run_bind by done. split; [done |].
    split; [done | split; [by rewrite Ho', Ho | by exists l]].
  - exists m. split; [| done]. unfold dequeHead. destruct l as [|[p e] l]; subst q.
    { by m_run. }
    pose proof Hseg as (Hp & (n & Hnp & Hne & _) & _)%dlseg_cons_inv. m_run. by rewrite Hne.
  - exists m. split; [| done]. unfold dequeTail.
    destruct l as [|[p e] l _] using rev_ind; subst q. { by m_run. }
    pose proof Hseg as [_ (Hp & (n & Hnp & Hne & _) & _)%dlseg_cons_inv]%dlseg_app.
    rewrite last_ptr_snoc in HD. m_run.
    rewrite fmap_app. change [(p, e)].*2 with [e]. by rewrite last_snoc, Hne.
  - exists m. split; [| done]. unfold dequeGetSize. m_run. by rewrite <- Hq, length_fmap.
  - exists m. split; [| done]. unfold dequeIsEmpty. destruct l as [|[p e] l]; subst q.
    { by m_run. }
    pose proof Hseg as (Hp & _)%dlseg_cons_inv. m_run. by cbn.
Qed.

Lemma dq_runs_spec D os m s :
  dq_rel D m s → ∃ m', dq_runs D os m = Some ((dq_abss os s).1, m') ∧ dq_rel D m' (dq_abss os s).2.
Proof.
  revert m s. induction os as [|o os IH]; intros m s Hrel; cbn [dq_runs dq_abss]; [by exists m |].
  destruct (dq_run_spec D o m s Hrel) as (m1 & Hrun & Hrel1).
  destruct (dq_abs o s) as [r s1]. cbn [fst snd] in *.
  destruct (IH m1 s1 Hrel1) as (m2 & Hrun2 & Hrel2).
  destruct (dq_abss os s1) as [rs s2]. exists m2.
  erewrite run_bind by done. erewrite run_bind by done. done.
Qed.

(** C40: Starting from the empty deque that [dequeCreate] returns, every
    sequence of operations returns what a functional double-ended queue
    returns (FIFO by push and pop-left, LIFO by push and pop, the two error
    codes and failed allocations included), and never dereferences a NULL or
    dangling pointer. *)
Theorem deque_refines_queue os m :
  wf_mem m → alloc_ok m →
  ∃ D m1 m2, dequeCreate true m = Some ((ERROR_SUCCESS, D), m1) ∧
    dq_runs D os m1 = Some ((dq_abss os ([], tail (m_oom m))).1, m2) ∧
    dq_rel D m2 (dq_abss os ([], tail (m_oom m))).2.
Proof.
  intros Hwf Hok.
  set (m1 := MEM (m_nodes m) (<[m_brk m := LIST_HDR NULL NULL 0]> (m_lists m)) (m_brk m + 1)
                 (tail (m_oom m))).
  assert (dq_rel (m_brk m) m1 ([], tail (m_oom m))) as Hrel.
  { split; [unfold m1; pose proof Hwf as (? & _); solve_wf |]. split; [done |].
    exists []. split; [| done]. split; [apply lookup_insert_eq | split; [done | apply NoDup_nil_2]]. }
  destruct (dq_runs_spec _ os m1 _ Hrel) as (m2 & ? & ?).
  exists (m_brk m), m1, m2. split; [| done]. unfold dequeCreate, VmDirAllocateMemory_list. cbn [negb].
  unfold alloc_ok in Hok. by destruct (m_oom m) as [|[]].
Qed.

Lemma free_strings_loop_spec fuel D m l oom :
  (length l < fuel)%nat → wf_mem m → m_oom m = oom → is_list m D l →
  ∃ m', free_strings_loop fuel D m = Some (l.*2, m') ∧ dq_rel D m' ([], oom).
Proof.
  revert m l. induction fuel as [|fuel IH]; intros m l Hf Hwf Ho Hl; [lia |].
  pose proof Hl as (HD & Hseg & _). pose proof Hwf as (_ & _ & Hll). pose proof (Hll _ _ HD).
  assert (NULL = 0) as Hnull by reflexivity.
  cbn [free_strings_loop]. unfold dequeIsEmpty. destruct l as [|[p e] l].
  { m_run. exists m. split; [done |]. split; [done | split; [done | by exists []]]. }
  pose proof Hseg as (Hp & _)%dlseg_cons_inv. m_run.
  destruct (popleft_spec m D p e l Hwf Hl) as (m1 & Hrun & Hl' & Hwf' & _ & Ho').
  erewrite run_bind by done.
  destruct (IH m1 l) as (m' & Hrun' & Hrel); [simpl in *; lia | done | by rewrite Ho' | done |].
  erewrite run_bind by done. by exists m'.
Qed.

(** [dequeFreeStringContents] terminates, frees every element exactly once
    in queue order and leaves the deque empty. *)
Theorem deque_free_contents D m q oom :
  dq_rel D m (q, oom) →
  ∃ m', dequeFreeStringContents D m = Some (q, m') ∧ dq_rel D m' ([], oom).
Proof.
  intros (Hwf & Ho & l & Hl & Hq). cbn [fst] in Hq. subst q. apply free_strings_loop_spec; [| done..].
  destruct Hl as (_ & Hl & Hnd). pose proof (dlseg_length_size _ _ _ _ Hl Hnd). lia.
Qed.

End Proofs.

(** ** A concrete run *)

Definition dq_ex_mem : mem deque_node := MEM ∅ ∅ 1 [false; false; true].

Lemma dq_ex_wf : wf_mem dq_ex_mem.
Proof. split; [done |]. split; apply map_Forall_empty. Qed.

Lemma deque_refines_queue_witness :
  ∃ D m1 m2, dequeCreate true dq_ex_mem = Some ((ERROR_SUCCESS, D), m1) ∧
    dq_runs D [DQ_Push 7; DQ_Push 8; DQ_Push 9; DQ_PopLeft; DQ_Pop; DQ_Pop; DQ_Size] m1 =
      Some ([DQ_err ERROR_SUCCESS; DQ_err ERROR_NO_MEMORY; DQ_err ERROR_SUCCESS;
             DQ_elem ERROR_SUCCESS 7; DQ_elem ERROR_SUCCESS 9;
             DQ_elem ERROR_NO_MORE_ITEMS NULL; DQ_num 0], m2) ∧
    dq_rel D m2 ([], []).
Proof.
  apply (deque_refines_queue
    [DQ_Push 7; DQ_Push 8; DQ_Push 9; DQ_PopLeft; DQ_Pop; DQ_Pop; DQ_Size] dq_ex_mem);
    [exact dq_ex_wf | done].
Defined.

Definition dq_ex_mem2 : mem deque_node :=
  MEM {[2 := DEQUE_NODE 7 3 NULL; 3 := DEQUE_NODE 8 NULL 2]} {[1 := LIST_HDR 2 3 2]} 4 [].

Lemma deque_free_contents_witness :
  ∃ m', dequeFreeStringContents 1 dq_ex_mem2 = Some ([7; 8], m') ∧ dq_rel 1 m' ([], []).
Proof.
  apply (deque_free_contents 1 dq_ex_mem2 [7; 8] []). split.
  - split; [done |]. split; apply (bool_decide_unpack (map_Forall _ _)); vm_compute; exact I.
  - split; [done |]. exists [(2, 7); (3, 8)]. split; [| done].
    split; [reflexivity |]. split.
    + repeat (eapply dlseg_cons; [done | reflexivity | reflexivity | reflexivity | reflexivity |]).
      exact I.
    + apply (bool_decide_unpack (NoDup _)). vm_compute. exact I.
Defined.

