(* ===== verification/CircularBuffer.v ===== *)
(** * CircularBuffer: [vmdir/common/circularbuffer.c]

    A fixed-capacity ring of equal-sized elements.  The buffer is a block of
    [cb_bytes] bytes whose elements are addressed by byte offset with the 32-bit
    arithmetic of the code; reads and writes outside the block, and failing
    [assert]s, are undefined behaviour ([None]).  The theorems show that the
    ring holds exactly the most recent entries in order, and where the overflow
    check of the code is not enough. *)

From S2P Require Import Prelude Heap.

Open Scope Z_scope.

(** ** Data *)

(** [VMDIR_CIRCULAR_BUFFER].  [cb_bytes] is [None] when [CircularBuffer] is
    NULL; [cb_data] holds the element written at each byte offset. *)
Record circ := CIRC {
  cb_bytes : option Z;
  cb_data : gmap Z Z;
  dwCapacity : Z;
  dwElementSize : Z;
  dwSize : Z;
  dwHead : Z
}.

(** The element at byte offset [off], if it lies inside the block. *)
Definition cb_inside (cb : circ) (off : Z) : bool :=
  match cb_bytes cb with Some n => bool_decide (0 <= off ∧ off + dwElementSize cb <= n) | None => false end.

Definition cb_read (cb : circ) (off : Z) : option Z :=
  if cb_inside cb off then Some (default 0 (cb_data cb !! off)) else None.

(** The caller of [VmDirCircularBufferGetNextEntry] fills the entry. *)
Definition cb_write (cb : circ) (off v : Z) : option circ :=
  if cb_inside cb off
  then Some (CIRC (cb_bytes cb) (<[off := v]> (cb_data cb)) (dwCapacity cb) (dwElementSize cb)
                  (dwSize cb) (dwHead cb))
  else None.

(** ** Operations *)

(** [oom1], [oom2], [oom3]: the allocations of the structure, the mutex and the
    block fail.  The result is the error and [*ppCircularBuffer], if written. *)
Definition VmDirCircularBufferCreate (oom1 oom2 oom3 : bool) (cap esz : Z) : dwerror * option circ :=
  if (oom1 || oom2)%bool then (ERROR_NO_MEMORY, None)
  else
    let dwBufferSize := u32 (cap * esz) in
    if negb (dwBufferSize =? 0) && (dwBufferSize >? cap)
    then if oom3 then (ERROR_NO_MEMORY, Some (CIRC None ∅ cap esz 0 0))
         else (ERROR_SUCCESS, Some (CIRC (Some dwBufferSize) ∅ cap esz 0 0))
    else (ERROR_INVALID_PARAMETER, Some (CIRC None ∅ cap esz 0 0)).

Definition VmDirCircularBufferReset (cb : circ) : circ :=
  CIRC (cb_bytes cb) (cb_data cb) (dwCapacity cb) (dwElementSize cb) 0 0.

Definition VmDirCircularBufferGetSize (cb : circ) : Z := dwSize cb.

Definition VmDirCircularBufferGetCapacity (cb : circ) : Z := dwCapacity cb.

Definition VmDirCircularBufferSetCapacity (oom : bool) (cap : Z) (cb : circ) : dwerror * circ :=
  let dwBufferSize := u32 (cap * dwElementSize cb) in
  if dwBufferSize >? cap
  then if oom then (ERROR_NO_MEMORY, cb)
       else (ERROR_SUCCESS, CIRC (Some dwBufferSize) (cb_data cb) cap (dwElementSize cb) 0 0)
  else (ERROR_INVALID_PARAMETER, cb).

(** The byte offset of element [i]. *)
Definition _VmDirCircularBufferGetElementAtIndex (cb : circ) (i : Z) : Z :=
  u32 (i * dwElementSize cb).

Definition VmDirCircularBufferGetNextEntry (cb : circ) : option (Z * circ) :=
  if negb (dwHead cb <? dwCapacity cb) || negb (dwSize cb <=? dwCapacity cb) then None
  else
    let dwIndex := dwHead cb in
    let cb' := CIRC (cb_bytes cb) (cb_data cb) (dwCapacity cb) (dwElementSize cb)
                    (Z.min (u32 (dwSize cb + 1)) (dwCapacity cb))
                    (u32 (dwHead cb + 1) mod dwCapacity cb) in
    if (dwHead cb' <? dwCapacity cb') && (dwSize cb' <=? dwCapacity cb') &&
       (dwIndex <? dwCapacity cb') && (dwIndex <? dwSize cb')
    then Some (_VmDirCircularBufferGetElementAtIndex cb' dwIndex, cb')
    else None.

Definition _VmDirCircularBufferGetStartIndex (cb : circ) : Z :=
  if dwSize cb <? dwCapacity cb then 0 else dwHead cb.

(** The loop of [VmDirCircularBufferSelectElements]: [n] elements left, the
    callback returns the new context and whether to go on. *)
Fixpoint select_loop {A} (f : Z → A → A * bool) (cb : circ) (n : nat) (i : Z) (ctx : A) : option A :=
  match n with
  | O => Some ctx
  | S n =>
      match cb_read cb (_VmDirCircularBufferGetElementAtIndex cb i) with
      | None => None
      | Some v =>
          let i' := u32 (i + 1) in
          let i' := if i' =? dwCapacity cb then 0 else i' in
          let (ctx', go) := f v ctx in
          if go then select_loop f cb n i' ctx' else Some ctx'
      end
  end.

Definition VmDirCircularBufferSelectElements {A} (cb : circ) (dwCount : Z)
    (f : Z → A → A * bool) (ctx : A) : option A :=
  let n := if dwCount =? 0 then dwSize cb else Z.min dwCount (dwSize cb) in
  select_loop f cb (Z.to_nat n) (_VmDirCircularBufferGetStartIndex cb) ctx.

(** The use the server makes of the buffer: obtain an entry and fill it. *)
Definition cb_push (cb : circ) (v : Z) : option circ :=
  match VmDirCircularBufferGetNextEntry cb with
  | Some (off, cb') => cb_write cb' off v
  | None => None
  end.

Fixpoint cb_pushes (cb : circ) (vs : list Z) : option circ :=
  match vs with
  | [] => Some cb
  | v :: vs => match cb_push cb v with Some cb' => cb_pushes cb' vs | None => None end
  end.

(** The callback applied to a sequence until it asks to stop. *)
Fixpoint visit {A} (f : Z → A → A * bool) (vs : list Z) (ctx : A) : A :=
  match vs with
  | [] => ctx
  | v :: vs => let (ctx', go) := f v ctx in if go then visit f vs ctx' else ctx'
  end.

(** ** Correctness *)

Section Proofs.
Implicit Types (cb : circ) (vs : list Z).

(** The block is large enough for the capacity: no overflow. *)
Definition cb_ok cb : Prop :=
  0 < dwCapacity cb ∧ 2 <= dwElementSize cb ∧ dwCapacity cb * dwElementSize cb < 2 ^ 32 ∧
  cb_bytes cb = Some (dwCapacity cb * dwElementSize cb).

(** The ring holds the end of the history [vs] of entries. *)
Definition cb_rel cb vs : Prop :=
  let n := Z.of_nat (length vs) in
  cb_ok cb ∧ dwSize cb = Z.min n (dwCapacity cb) ∧ dwHead cb = n mod dwCapacity cb ∧
  ∀ k v, vs !! k = Some v → n - dwCapacity cb <= Z.of_nat k →
    cb_data cb !! (Z.of_nat k mod dwCapacity cb * dwElementSize cb) = Some v.

Lemma cb_offset cb i :
  cb_ok cb → 0 <= i < dwCapacity cb →
  _VmDirCircularBufferGetElementAtIndex cb i = i * dwElementSize cb ∧
  cb_inside cb (i * dwElementSize cb) = true.
Proof.
  intros (Hc & He & Hov & Hb) Hi. split.
  - apply u32_id. split; [nia |]. nia.
  - unfold cb_inside. rewrite Hb. apply bool_decide_eq_true. nia.
Qed.

Lemma cb_create_rel oom1 oom2 oom3 cap esz cb :
  0 < cap → 0 <= esz → cap * esz < 2 ^ 32 →
  VmDirCircularBufferCreate oom1 oom2 oom3 cap esz = (ERROR_SUCCESS, Some cb) →
  cb_rel cb [] ∧ dwCapacity cb = cap ∧ dwElementSize cb = esz.
Proof.
  intros Hcap Hesz Hov. unfold VmDirCircularBufferCreate.
  rewrite u32_id by (split; [nia | done]).
  destruct (oom1 || oom2)%bool; [done |]. case_match eqn:Hc; [| done].
  destruct oom3; [done |]. intros [= <-]. split; [| done].
  apply andb_prop in Hc as [_ Hc]. rewrite Z.gtb_lt in Hc.
  split; [repeat split; simpl; nia |]. cbn. split; [lia |]. split; [done |].
  intros k v Hv. by rewrite lookup_nil in Hv.
Qed.

(** Two entries of the last [cap] share a slot only if they are the same. *)
Lemma slot_inj cap n j k :
  0 < cap → n - cap < j <= n → n - cap < k <= n → j mod cap = k mod cap → j = k.
Proof.
  intros Hc Hj Hk Hm. pose proof (Z.div_mod j cap ltac:(lia)). pose proof (Z.div_mod k cap ltac:(lia)).
  assert (j / cap = k / cap ∨ j / cap <= k / cap - 1 ∨ k / cap <= j / cap - 1) by lia. nia.
Qed.

Lemma cb_push_rel cb vs v :
  cb_rel cb vs → ∃ cb', cb_push cb v = Some cb' ∧ cb_rel cb' (vs ++ [v]) ∧
    dwCapacity cb' = dwCapacity cb.
Proof.
  intros (Hok & Hsz & Hhd & Hdata). pose proof Hok as (Hc & He & Hov & Hb).
  set (n := Z.of_nat (length vs)) in *. assert (0 <= n) by lia.
  pose proof (Z.mod_pos_bound n (dwCapacity cb) Hc) as Hmod.
  assert (dwCapacity cb < 2 ^ 31) as Hcap by nia.
  assert (n < dwCapacity cb → n mod dwCapacity cb = n) as Hsm by (intros; apply Z.mod_small; lia).
  unfold cb_push, VmDirCircularBufferGetNextEntry.
  rewrite Hsz, Hhd. rewrite !u32_id by (unfold is_u32; lia).
  destruct (Z.ltb_spec (n mod dwCapacity cb) (dwCapacity cb)); [| lia].
  destruct (Z.leb_spec (Z.min n (dwCapacity cb)) (dwCapacity cb)); [| lia].
  cbn [negb orb dwHead dwCapacity dwSize].
  pose proof (Z.mod_pos_bound (n mod dwCapacity cb + 1) (dwCapacity cb) Hc) as Hmod'.
  rewrite !(proj2 (Z.ltb_lt _ _)), (proj2 (Z.leb_le _ _)) by lia. cbn [andb].
  set (cb1 := CIRC (cb_bytes cb) (cb_data cb) _ _ _ _).
  assert (cb_ok cb1) as Hok1 by done.
  destruct (cb_offset cb1 (n mod dwCapacity cb) Hok1 Hmod) as [Hoff Hin].
  rewrite Hoff. unfold cb_write. rewrite Hin. eexists. split; [reflexivity |].
  split; [| done]. split; [done |]. rewrite length_app. cbn [length dwSize dwHead dwCapacity dwElementSize cb1 cb_data].
  replace (Z.of_nat (length vs + 1)) with (n + 1) by lia.
  split; [lia |]. split; [by rewrite Zplus_mod_idemp_l |].
  intros k w Hk Hrec. apply lookup_app_Some in Hk as [Hk | [Hge Hk]].
  - pose proof (lookup_lt_Some _ _ _ Hk) as Hlt.
    rewrite lookup_insert_ne; [apply Hdata; [done | lia] |].
    intros Heq%Z.mul_reg_r; [| simpl in *; lia].
    apply (slot_inj _ n) in Heq; lia.
  - destruct (k - length vs)%nat as [|j] eqn:Hj; [| by destruct j]. injection Hk as ->.
    replace (Z.of_nat k) with n by lia. by rewrite lookup_insert_eq.
Qed.

Lemma cb_pushes_rel cb vs ws :
  cb_rel cb vs → ∃ cb', cb_pushes cb ws = Some cb' ∧ cb_rel cb' (vs ++ ws) ∧
    dwCapacity cb' = dwCapacity cb.
Proof.
  revert cb vs. induction ws as [|w ws IH]; intros cb vs Hrel; cbn [cb_pushes].
  { exists cb. by rewrite app_nil_r. }
  destruct (cb_push_rel cb vs w Hrel) as (cb1 & -> & Hrel1 & Hc1).
  destruct (IH cb1 _ Hrel1) as (cb2 & ? & Hrel2 & Hc2). exists cb2.
  rewrite <- app_assoc in Hrel2. split; [done |]. split; [done | lia].
Qed.

(** The loop visits consecutive entries of the history. *)
Lemma select_loop_spec {A} (f : Z → A → A * bool) cb vs n k ctx :
  cb_rel cb vs → Z.of_nat (length vs) - dwCapacity cb <= Z.of_nat k →
  (n <= length vs - k)%nat →
  select_loop f cb n (Z.of_nat k mod dwCapacity cb) ctx = Some (visit f (take n (drop k vs)) ctx).
Proof.
  intros Hrel. pose proof Hrel as (Hok & _ & _ & Hdata). pose proof Hok as (Hc & He & Hov & _).
  revert k ctx. induction n as [|n IH]; intros k ctx Hk Hn; [done |].
  destruct (lookup_lt_is_Some_2 vs k) as [v Hv]; [lia |].
  pose proof (Z.mod_pos_bound (Z.of_nat k) (dwCapacity cb) Hc) as Hmod.
  destruct (cb_offset cb _ Hok Hmod) as [Hoff Hin].
  cbn [select_loop]. unfold cb_read. rewrite Hoff, Hin, (Hdata k v) by done. cbn [default id].
  rewrite (drop_S _ v) by done. cbn [take visit].
  destruct (f v ctx) as [ctx' []]; [| done].
  rewrite <- IH by lia. f_equal. rewrite u32_id by (unfold is_u32; nia).
  rewrite Nat2Z.inj_succ, <- Z.add_1_r, <- Zplus_mod_idemp_l.
  destruct (Z.eqb_spec (Z.of_nat k mod dwCapacity cb + 1) (dwCapacity cb)) as [-> |].
  - by rewrite Z.mod_same by lia.
  - symmetry. apply Z.mod_small. lia.
Qed.

Lemma select_spec {A} (f : Z → A → A * bool) cb vs cnt ctx :
  cb_rel cb vs → 0 <= cnt →
  let recent := drop (length vs - Z.to_nat (dwCapacity cb)) vs in
  VmDirCircularBufferSelectElements cb cnt f ctx =
  Some (visit f (if cnt =? 0 then recent else take (Z.to_nat cnt) recent) ctx).
Proof.
  intros Hrel Hcnt recent. pose proof Hrel as ((Hc & He & Hov & _) & Hsz & Hhd & _).
  set (k := (length vs - Z.to_nat (dwCapacity cb))%nat) in *.
  assert (_VmDirCircularBufferGetStartIndex cb = Z.of_nat k mod dwCapacity cb) as Hst.
  { unfold _VmDirCircularBufferGetStartIndex. rewrite Hsz, Hhd.
    destruct (Z.ltb_spec (Z.min (Z.of_nat (length vs)) (dwCapacity cb)) (dwCapacity cb)).
    - replace k with 0%nat by lia. by rewrite Z.mod_0_l by lia.
    - replace (Z.of_nat (length vs)) with (Z.of_nat k + 1 * dwCapacity cb) by lia.
      apply Z_mod_plus_full. }
  unfold VmDirCircularBufferSelectElements. rewrite Hst.
  assert (length recent = Z.to_nat (dwSize cb)) as Hlen.
  { unfold recent. rewrite length_drop. unfold k. lia. }
  rewrite (select_loop_spec f cb vs) by (done || destruct (cnt =? 0); lia).
  fold recent. f_equal. f_equal. destruct (cnt =? 0).
  - apply take_ge. lia.
  - destruct (decide (cnt <= dwSize cb)).
    + by rewrite Z.min_l by lia.
    + rewrite !take_ge by lia. done.
Qed.

(** A buffer created with an element size and capacity whose product does
    not overflow holds the most recent [capacity] entries: after any sequence of
    entries, selecting visits exactly them from the oldest to the newest (the
    first [dwCount] of them when a count is given), stops when the callback
    says so, and no access leaves the allocated block. *)
Theorem circular_buffer_recent {A} cap esz cb vs (f : Z → A → A * bool) cnt ctx :
  0 < cap → 0 <= esz → cap * esz < 2 ^ 32 → 0 <= cnt →
  VmDirCircularBufferCreate false false false cap esz = (ERROR_SUCCESS, Some cb) →
  let recent := drop (length vs - Z.to_nat cap) vs in
  ∃ cb', cb_pushes cb vs = Some cb' ∧
    VmDirCircularBufferGetSize cb' = Z.min (Z.of_nat (length vs)) cap ∧
    VmDirCircularBufferSelectElements cb' cnt f ctx =
      Some (visit f (if cnt =? 0 then recent else take (Z.to_nat cnt) recent) ctx).
Proof.
  intros Hcap Hesz Hov Hcnt Hcr recent.
  destruct (cb_create_rel _ _ _ _ _ _ Hcap Hesz Hov Hcr) as (Hrel & Hc & _).
  destruct (cb_pushes_rel cb [] vs Hrel) as (cb' & ? & Hrel' & Hc').
  exists cb'. split; [done |]. pose proof Hrel' as (_ & Hsz & _).
  split; [unfold VmDirCircularBufferGetSize; rewrite Hsz, Hc', Hc; done |].
  rewrite (select_spec f cb' vs cnt ctx) by done. unfold recent. by rewrite Hc', Hc.
Qed.

(** The overflow check of [VmDirCircularBufferCreate] does not detect every
    overflow: a buffer of 2147483649 elements of 3 bytes is created with a block
    of 2147483651 bytes, and an index below the capacity then addresses memory
    outside the block. *)
Theorem circular_buffer_overflow_unchecked :
  ∃ cb, VmDirCircularBufferCreate false false false 2147483649 3 = (ERROR_SUCCESS, Some cb) ∧
    cb_bytes cb = Some 2147483651 ∧
    805306368 < dwCapacity cb ∧
    cb_read cb (_VmDirCircularBufferGetElementAtIndex cb 805306368) = None.
Proof. eexists. split; [reflexivity |]. vm_compute. done. Qed.

(** Changing the capacity either fails and changes nothing, or empties the
    ring, which then again holds the most recent entries up to the new
    capacity. *)
Theorem circular_buffer_set_capacity oom cap cb vs ws :
  cb_rel cb vs → 0 < cap → cap * dwElementSize cb < 2 ^ 32 →
  let (err, cb') := VmDirCircularBufferSetCapacity oom cap cb in
  (err ≠ ERROR_SUCCESS ∧ cb' = cb) ∨
  (err = ERROR_SUCCESS ∧ cb_rel cb' [] ∧
   ∃ cb'', cb_pushes cb' ws = Some cb'' ∧ cb_rel cb'' ws ∧ dwCapacity cb'' = cap).
Proof.
  intros ((Hc & He & _) & _) Hcap Hov. unfold VmDirCircularBufferSetCapacity.
  rewrite u32_id by (split; nia).
  destruct (cap * dwElementSize cb >? cap); [| by left]. destruct oom; [by left | right].
  split; [done |]. set (cb' := CIRC _ _ _ _ _ _).
  assert (cb_rel cb' []) as Hrel.
  { split; [done |]. cbn. split; [lia |]. split; [done |]. intros k v Hv. by rewrite lookup_nil in Hv. }
  split; [done |]. destruct (cb_pushes_rel cb' [] ws Hrel) as (cb'' & ? & ? & ?). by exists cb''.
Qed.

End Proofs.

Lemma circular_buffer_recent_witness :
  ∃ cb cb', VmDirCircularBufferCreate false false false 3 8 = (ERROR_SUCCESS, Some cb) ∧
    cb_pushes cb [1; 2; 3; 4; 5] = Some cb' ∧
    VmDirCircularBufferGetSize cb' = 3 ∧
    VmDirCircularBufferSelectElements cb' 2 (λ v acc, (acc ++ [v], true)) [] = Some [3; 4].
Proof.
  eexists.
  destruct (circular_buffer_recent 3 8 _ [1; 2; 3; 4; 5] (λ v acc, (acc ++ [v], true)) 2 []
    eq_refl ltac:(done) eq_refl ltac:(done) eq_refl) as (cb' & H1 & H2 & H3).
  exists cb'. split; [reflexivity |]. split; [exact H1 |]. split; [exact H2 | exact H3].
Defined.

Lemma circular_buffer_set_capacity_witness :
  let cb := CIRC (Some 24) ∅ 3 8 0 0 in
  let (err, cb') := VmDirCircularBufferSetCapacity false 2 cb in
  (err ≠ ERROR_SUCCESS ∧ cb' = cb) ∨
  (err = ERROR_SUCCESS ∧ cb_rel cb' [] ∧
   ∃ cb'', cb_pushes cb' [1; 2; 3] = Some cb'' ∧ cb_rel cb'' [1; 2; 3] ∧ dwCapacity cb'' = 2).
Proof.
  apply (circular_buffer_set_capacity false 2 (CIRC (Some 24) ∅ 3 8 0 0) [] [1; 2; 3]).
  - split; [done |]. split; [done |]. split; [done |]. intros k v Hv. by rewrite lookup_nil in Hv.
  - done.
  - done.
Defined.
