(* ===== verification/TSStack.v ===== *)
(** * TSStack: [vmdir/common/tsstack.c]

    The growing array stack that pools connections and buffers.  The mutex
    brackets each operation, so an operation is one atomic step of the model.
    The theorem refines every sequence of operations to a functional stack,
    failed reallocations included. *)

From S2P Require Import Prelude Heap.

Open Scope Z_scope.

(** [VMDIR_TSSTACK]. *)
Record tsstack := TSSTACK { ppBuffer : list Z; ts_iSize : Z; ts_iCapacity : Z }.

Definition sizeof_PVOID : Z := 8.

(** [oom]: one of the three allocations fails. *)
Definition VmDirAllocateTSStack (oom : bool) (iCapacity : Z) (ppStack : bool) : dwerror * option tsstack :=
  let iMinCap := if iCapacity =? 0 then 10 else iCapacity in
  if negb ppStack then (VMDIR_ERROR_INVALID_PARAMETER, None)
  else if oom then (ERROR_NO_MEMORY, None)
  else (ERROR_SUCCESS,
        Some (TSSTACK (replicate (Z.to_nat (u64 (sizeof_PVOID * iMinCap) / sizeof_PVOID)) NULL) 0 iMinCap)).

(** [None] is a store outside the buffer. *)
Definition VmDirPushTSStack (oom : bool) (pStack : option tsstack) (e : Z)
  : option (dwerror * option tsstack) :=
  match pStack with
  | None => Some (VMDIR_ERROR_INVALID_PARAMETER, None)
  | Some st =>
      if bool_decide (e = NULL) then Some (VMDIR_ERROR_INVALID_PARAMETER, Some st)
      else
        let (err, st1) :=
          if ts_iSize st =? ts_iCapacity st
          then
            match VmDirReallocateMemoryWithInit oom (ppBuffer st)
                    (u64 (sizeof_PVOID * ts_iCapacity st * 2)) (u64 (sizeof_PVOID * ts_iCapacity st)) with
            | (ERROR_SUCCESS, buf) =>
                (ERROR_SUCCESS, TSSTACK buf (ts_iSize st) (u64 (ts_iCapacity st * 2)))
            | (err, buf) => (err, TSSTACK buf (ts_iSize st) (ts_iCapacity st))
            end
          else (ERROR_SUCCESS, st) in
        if bool_decide (err = ERROR_SUCCESS)
        then
          if bool_decide (Z.to_nat (ts_iSize st1) < length (ppBuffer st1))%nat
          then Some (ERROR_SUCCESS,
                     Some (TSSTACK (<[Z.to_nat (ts_iSize st1) := e]> (ppBuffer st1))
                                   (u64 (ts_iSize st1 + 1)) (ts_iCapacity st1)))
          else None
        else Some (err, Some st1)
  end.

(** The result is the error, [*ppElement] and the new state; [None] is an
    access outside the buffer. *)
Definition VmDirPopTSStack (pStack : option tsstack) (ppElement : bool)
  : option (dwerror * Z * option tsstack) :=
  match pStack with
  | None => Some (VMDIR_ERROR_INVALID_PARAMETER, NULL, None)
  | Some st =>
      if negb ppElement then Some (VMDIR_ERROR_INVALID_PARAMETER, NULL, Some st)
      else if ts_iSize st >? 0
      then
        match ppBuffer st !! Z.to_nat (ts_iSize st - 1) with
        | Some e => Some (ERROR_SUCCESS, e,
                          Some (TSSTACK (<[Z.to_nat (ts_iSize st - 1) := NULL]> (ppBuffer st))
                                        (ts_iSize st - 1) (ts_iCapacity st)))
        | None => None
        end
      else Some (ERROR_SUCCESS, NULL, Some st)
  end.

Definition VmDirGetTSStackSize (pStack : option tsstack) : Z :=
  match pStack with Some st => ts_iSize st | None => 0 end.

Definition VmDirIsEmptyTSStack (pStack : option tsstack) : bool := VmDirGetTSStackSize pStack =? 0.

(** ** Refinement *)

Inductive ts_op := TS_Push (oom : bool) (e : Z) | TS_Pop | TS_Size.
Inductive ts_res := TS_err (r : dwerror) | TS_elem (e : Z) | TS_num (z : Z).

Definition ts_run (o : ts_op) (st : option tsstack) : option (ts_res * option tsstack) :=
  match o with
  | TS_Push oom e => '(r, st') ← VmDirPushTSStack oom st e; Some (TS_err r, st')
  | TS_Pop => '(_, e, st') ← VmDirPopTSStack st true; Some (TS_elem e, st')
  | TS_Size => Some (TS_num (VmDirGetTSStackSize st), st)
  end.

Fixpoint ts_runs (os : list ts_op) (st : option tsstack) : option (list ts_res * option tsstack) :=
  match os with
  | [] => Some ([], st)
  | o :: os => '(r, st1) ← ts_run o st; '(rs, st2) ← ts_runs os st1; Some (r :: rs, st2)
  end.

(** The functional stack: elements from bottom to top, and the capacity, which
    only decides when a failing reallocation is noticed. *)
Definition ts_abs (o : ts_op) (s : list Z * Z) : ts_res * (list Z * Z) :=
  let (q, cap) := s in
  match o with
  | TS_Push oom e =>
      if bool_decide (e = NULL) then (TS_err VMDIR_ERROR_INVALID_PARAMETER, s)
      else if Z.of_nat (length q) =? cap
      then if oom then (TS_err ERROR_NO_MEMORY, s)
           else (TS_err ERROR_SUCCESS, (q ++ [e], cap * 2))
      else (TS_err ERROR_SUCCESS, (q ++ [e], cap))
  | TS_Pop => (TS_elem (default NULL (last q)), (take (length q - 1) q, cap))
  | TS_Size => (TS_num (Z.of_nat (length q)), s)
  end.

Fixpoint ts_abss (os : list ts_op) (s : list Z * Z) : list ts_res * (list Z * Z) :=
  match os with
  | [] => ([], s)
  | o :: os => let (r, s1) := ts_abs o s in let (rs, s2) := ts_abss os s1 in (r :: rs, s2)
  end.

(** The buffer holds the stack and is NULL above it. *)
Definition ts_rel (st : tsstack) (s : list Z * Z) : Prop :=
  let (q, cap) := s in
  ts_iCapacity st = cap ∧ 0 < cap ∧ (length q <= Z.to_nat cap)%nat ∧
  ts_iSize st = Z.of_nat (length q) ∧
  ppBuffer st = q ++ replicate (Z.to_nat cap - length q) NULL.

Lemma insert_replicate_next {A} (q : list A) (n : nat) (x e : A) :
  (0 < n)%nat → <[length q := e]> (q ++ replicate n x) = (q ++ [e]) ++ replicate (n - 1) x.
Proof.
  intros Hn. rewrite <- (Nat.add_0_r (length q)) at 1. rewrite insert_app_r.
  destruct n as [|n]; [lia |]. simpl. by rewrite Nat.sub_0_r, <- app_assoc.
Qed.

(** The stack that doubles its buffer has room. *)
Lemma ts_push_room st q cap e :
  ts_rel st (q, cap) → Z.of_nat (length q) < cap → cap < 2 ^ 58 →
  let i := Z.to_nat (ts_iSize st) in
  (i < length (ppBuffer st))%nat ∧
  ts_rel (TSSTACK (<[i := e]> (ppBuffer st)) (u64 (ts_iSize st + 1)) (ts_iCapacity st)) (q ++ [e], cap).
Proof.
  intros (Hc & Hpos & Hlen & Hsz & Hbuf) Hlt Hcap i. unfold i. rewrite Hsz, Hbuf, Nat2Z.id. split.
  - rewrite length_app, length_replicate. lia.
  - unfold ts_rel. cbn. rewrite length_app. cbn.
    rewrite u64_id by (unfold is_u64; lia).
    split; [done |]. split; [done |]. split; [lia |]. split; [lia |].
    rewrite insert_replicate_next by lia. f_equal. f_equal. lia.
Qed.

Lemma ts_grow st q cap :
  ts_rel st (q, cap) → Z.of_nat (length q) = cap → cap < 2 ^ 58 →
  VmDirReallocateMemoryWithInit false (ppBuffer st) (u64 (sizeof_PVOID * cap * 2)) (u64 (sizeof_PVOID * cap)) =
    (ERROR_SUCCESS, q ++ replicate (Z.to_nat cap) NULL).
Proof.
  intros (Hc & Hpos & Hlen & Hsz & Hbuf) Heq Hcap. unfold VmDirReallocateMemoryWithInit, sizeof_PVOID.
  rewrite !u64_id by (unfold is_u64; lia).
  destruct (Z.ltb_spec (8 * cap * 2) (8 * cap)); [lia |]. f_equal.
  replace (8 * cap * 2 / 8) with (cap * 2) by (apply Z.div_unique_exact; lia).
  replace (8 * cap / 8) with cap by (apply Z.div_unique_exact; lia).
  rewrite Hbuf. rewrite take_app_le by (rewrite length_app, length_replicate; lia).
  replace (Z.to_nat cap) with (length q) by lia.
  rewrite take_app_length. f_equal. f_equal. lia.
Qed.

Lemma ts_run_spec o st s :
  ts_rel st s → s.2 < 2 ^ 57 →
  ∃ st', ts_run o (Some st) = Some ((ts_abs o s).1, Some st') ∧ ts_rel st' (ts_abs o s).2.
Proof.
  destruct s as [q cap]. intros Hrel Hcap. pose proof Hrel as (Hc & Hpos & Hlen & Hsz & Hbuf).
  cbn [snd] in Hcap. destruct o as [oom e | |]; cbn [ts_run ts_abs].
  - unfold VmDirPushTSStack. case_bool_decide; [by exists st |].
    rewrite Hc, Hsz. destruct (Z.eqb_spec (Z.of_nat (length q)) cap) as [Heq | Hne].
    + destruct oom.
      { unfold VmDirReallocateMemoryWithInit. unfold sizeof_PVOID.
        rewrite !u64_id by (unfold is_u64; lia).
        destruct (Z.ltb_spec (8 * cap * 2) (8 * cap)); [lia |].
        rewrite bool_decide_eq_false_2 by done.
        exists (TSSTACK (ppBuffer st) (Z.of_nat (length q)) cap). by split. }
      rewrite (ts_grow st q cap) by (done || lia).
      rewrite (bool_decide_eq_true_2 (ERROR_SUCCESS = _)) by done.
      set (st1 := TSSTACK _ _ _).
      assert (ts_rel st1 (q, cap * 2)) as Hrel1.
      { unfold st1, ts_rel. cbn. rewrite u64_id by (unfold is_u64; lia).
        split; [done |]. split; [lia |]. split; [lia |]. split; [done |]. f_equal. f_equal. lia. }
      destruct (ts_push_room st1 q (cap * 2) e) as [Hi Hrel2]; [done | lia | lia |].
      rewrite bool_decide_eq_true_2 by exact Hi. eexists. split; [reflexivity |]. exact Hrel2.
    + rewrite (bool_decide_eq_true_2 (ERROR_SUCCESS = _)) by done.
      destruct (ts_push_room st q cap e) as [Hi Hrel2]; [done | lia | lia |].
      rewrite bool_decide_eq_true_2 by exact Hi. eexists. split; [reflexivity |]. exact Hrel2.
  - unfold VmDirPopTSStack. cbn [negb]. rewrite Hsz.
    destruct q as [|e q _] using rev_ind.
    { cbn. exists st. by split. }
    rewrite length_app, last_snoc. cbn [length default]. rewrite Z.gtb_ltb, (proj2 (Z.ltb_lt _ _)) by lia.
    replace (Z.to_nat (Z.of_nat (length q + 1) - 1)) with (length q) by lia.
    rewrite Nat.add_sub, take_app_length. rewrite length_app in *. cbn [length] in *.
    rewrite Hbuf, <- app_assoc, lookup_app_r, Nat.sub_diag by lia. cbn.
    eexists. split; [reflexivity |]. unfold ts_rel. cbn.
    split; [done |]. split; [done |]. split; [lia |]. split; [lia |].
    rewrite <- (Nat.add_0_r (length q)) at 1. rewrite insert_app_r. simpl. f_equal.
    by replace (Z.to_nat cap - length q)%nat with (S (Z.to_nat cap - (length q + 1))) by lia.
  - exists st. split; [| done]. unfold VmDirGetTSStackSize. by rewrite Hsz.
Qed.

Lemma ts_abs_cap o s : (ts_abs o s).2.2 <= Z.max s.2 (s.2 * 2).
Proof. destruct s, o as [[] | |]; cbn; repeat case_match; cbn; lia. Qed.

Lemma ts_runs_spec os st s :
  ts_rel st s → s.2 * 2 ^ Z.of_nat (length os) < 2 ^ 58 →
  ∃ st', ts_runs os (Some st) = Some ((ts_abss os s).1, Some st') ∧ ts_rel st' (ts_abss os s).2.
Proof.
  revert st s. induction os as [|o os IH]; intros st s Hrel Hcap; cbn [ts_runs ts_abss]; [by exists st |].
  assert (0 < s.2) as Hpos by (destruct s; apply Hrel).
  cbn [length] in Hcap. rewrite Nat2Z.inj_succ, Z.pow_succ_r in Hcap by lia.
  assert (1 <= 2 ^ Z.of_nat (length os)) as H1 by (pose proof (Z.pow_pos_nonneg 2 (Z.of_nat (length os))); lia).
  destruct (ts_run_spec o st s Hrel) as (st1 & Hrun & Hrel1); [nia |].
  pose proof (ts_abs_cap o s) as Hc1.
  destruct (ts_abs o s) as [r s1]. cbn [fst snd] in *.
  destruct (IH st1 s1 Hrel1) as (st2 & Hrun2 & Hrel2); [nia |].
  destruct (ts_abss os s1) as [rs s2]. exists st2. cbn [fst snd] in *.
  by rewrite Hrun; cbn; rewrite Hrun2.
Qed.

(** A stack just allocated behaves, for every sequence of pushes, pops and
    size queries, as a functional stack: last in first out, NULL when empty, an
    element refused when NULL, and a push whose reallocation fails leaves the
    stack unchanged; no access leaves the buffer.  The bound on the capacity is
    what 64-bit sizes can address. *)
Theorem tsstack_refines_stack cap os st :
  0 <= cap → Z.max 10 cap * 2 ^ Z.of_nat (length os) < 2 ^ 58 →
  VmDirAllocateTSStack false cap true = (ERROR_SUCCESS, Some st) →
  ∃ st', ts_runs os (Some st) =
      Some ((ts_abss os ([], if cap =? 0 then 10 else cap)).1, Some st') ∧
    ts_rel st' (ts_abss os ([], if cap =? 0 then 10 else cap)).2.
Proof.
  intros Hcap Hbound [= <-].
  assert (1 <= 2 ^ Z.of_nat (length os)) as H1 by (pose proof (Z.pow_pos_nonneg 2 (Z.of_nat (length os))); lia).
  assert (0 < (if cap =? 0 then 10 else cap) <= Z.max 10 cap) as Hc
    by (destruct (Z.eqb_spec cap 0); lia).
  apply ts_runs_spec; [| cbn; nia].
  unfold ts_rel, sizeof_PVOID. cbn. set (c := if cap =? 0 then 10 else cap) in *.
  rewrite u64_id by (unfold is_u64; nia).
  replace (8 * c / 8) with c by (apply Z.div_unique_exact; lia).
  split; [done |]. split; [lia |]. split; [lia |]. split; [done |]. by rewrite Nat.sub_0_r.
Qed.

Lemma tsstack_refines_stack_witness :
  ∃ st', ts_runs [TS_Push false 5; TS_Push true 6; TS_Push false 7; TS_Pop; TS_Pop; TS_Pop; TS_Size]
           (Some (TSSTACK [NULL] 0 1)) =
      Some ([TS_err ERROR_SUCCESS; TS_err ERROR_NO_MEMORY; TS_err ERROR_SUCCESS;
             TS_elem 7; TS_elem 5; TS_elem NULL; TS_num 0], Some st') ∧
    ts_rel st' ([], 2).
Proof.
  apply (tsstack_refines_stack 1
    [TS_Push false 5; TS_Push true 6; TS_Push false 7; TS_Pop; TS_Pop; TS_Pop; TS_Size]);
    [done | done | reflexivity].
Defined.
