(* ===== verification/StringList.v ===== *)
(** * StringList: [vmdir/common/stringlist.c]

    The growing array of string pointers, and its conversion to and from a
    multi-string (NUL-terminated strings one after the other, closed by an empty
    one).  Pointers are addresses into a store of strings; [None] is undefined
    behaviour (an access outside an array, a free of an unallocated string). *)

From Stdlib Require Export Ascii.
From S2P Require Import Prelude Heap.

Open Scope Z_scope.

(** ** Data *)

(** Bytes of a C string without its terminator. *)
Abbreviation cstr := (list ascii).
Definition NUL : ascii := Ascii.zero.

(** [VMDIR_STRING_LIST]. *)
Record strlist := STRLIST { pStringList : list Z; dwCount : Z; sl_dwSize : Z }.

(** The string store and the outcomes of the coming allocations. *)
Record smem := SMEM { sm_strs : gmap Z cstr; sm_brk : Z; sm_oom : list bool }.

(** A computation over the store: [None] is undefined behaviour. *)
Abbreviation SM A := (smem → option (A * smem)).

Definition next_oom (m : smem) : bool * smem :=
  match sm_oom m with
  | [] => (false, m)
  | b :: o => (b, SMEM (sm_strs m) (sm_brk m) o)
  end.

(** [VmDirFreeStringA]. *)
Definition free_str (p : Z) (m : smem) : option smem :=
  if bool_decide (p = NULL) then Some m
  else match sm_strs m !! p with
       | Some _ => Some (SMEM (delete p (sm_strs m)) (sm_brk m) (sm_oom m))
       | None => None
       end.

(** [VmDirAllocateStringA]: a copy at a fresh address. *)
Definition VmDirAllocateStringA (s : cstr) (m : smem) : (dwerror * Z) * smem :=
  let (fail, m) := next_oom m in
  if fail then ((ERROR_NO_MEMORY, NULL), m)
  else ((ERROR_SUCCESS, sm_brk m),
        SMEM (<[sm_brk m := s]> (sm_strs m)) (sm_brk m + 1) (sm_oom m)).

(** ** Operations *)

Definition VmDirStringListFreeContent (sl : strlist) (m : smem) : option (strlist * smem) :=
  match foldl (λ om p, match om with Some m => free_str p m | None => None end) (Some m)
          (take (Z.to_nat (dwCount sl)) (pStringList sl)) with
  | Some m' => Some (STRLIST (pStringList sl) 0 (sl_dwSize sl), m')
  | None => None
  end.

Definition VmDirStringListFree (sl : option strlist) (m : smem) : option smem :=
  match sl with
  | Some sl => match VmDirStringListFreeContent sl m with Some (_, m') => Some m' | None => None end
  | None => Some m
  end.

Definition VmDirStringListInitialize (dwInitialCount : Z) (m : smem) : (dwerror * option strlist) * smem :=
  let n := if dwInitialCount <? 4 then 4 else dwInitialCount in
  let dwAllocationSize := u32 (u32 (n + 1) * 8) in
  if dwAllocationSize <? n then ((VMDIR_ERROR_INVALID_PARAMETER, None), m)
  else
    let (fail1, m) := next_oom m in
    if fail1 then ((ERROR_NO_MEMORY, None), m)
    else
      let (fail2, m) := next_oom m in
      if fail2 then ((ERROR_NO_MEMORY, None), m)
      else ((ERROR_SUCCESS,
             Some (STRLIST (replicate (Z.to_nat (dwAllocationSize / 8)) NULL) 0 n)), m).

(** The growth step of [VmDirStringListAdd]. *)
Definition sl_grow (sl : strlist) (m : smem) : (dwerror * strlist) * smem :=
  if u32 (dwCount sl + 1) =? sl_dwSize sl
  then
    let dwNewSize := u32 (sl_dwSize sl * 2) in
    if dwNewSize <? sl_dwSize sl then ((VMDIR_ERROR_SIZELIMIT_EXCEEDED, sl), m)
    else
      let (fail, m) := next_oom m in
      match VmDirReallocateMemoryWithInit fail (pStringList sl) (dwNewSize * 8) (sl_dwSize sl * 8) with
      | (ERROR_SUCCESS, buf) => ((ERROR_SUCCESS, STRLIST buf (dwCount sl) dwNewSize), m)
      | (err, buf) => ((err, STRLIST buf (dwCount sl) (sl_dwSize sl)), m)
      end
  else ((ERROR_SUCCESS, sl), m).

(** [pStringList[dwCount++] = p]. *)
Definition sl_store (sl : strlist) (p : Z) : option strlist :=
  if bool_decide (Z.to_nat (dwCount sl) < length (pStringList sl))%nat
  then Some (STRLIST (<[Z.to_nat (dwCount sl) := p]> (pStringList sl))
                     (u32 (dwCount sl + 1)) (sl_dwSize sl))
  else None.

Definition VmDirStringListAdd (sl : strlist) (p : Z) (m : smem) : option ((dwerror * strlist) * smem) :=
  match sl_grow sl m with
  | ((ERROR_SUCCESS, sl), m) =>
      match sl_store sl p with Some sl => Some ((ERROR_SUCCESS, sl), m) | None => None end
  | ((err, sl), m) => Some ((err, sl), m)
  end.

(** The index of the first slot below [n] that holds [p]. *)
Fixpoint find_ptr (p : Z) (l : list Z) (n : nat) : option nat :=
  match n, l with
  | S n, q :: l => if bool_decide (q = p) then Some 0%nat else S <$> find_ptr p l n
  | _, _ => None
  end.

(** [memmove] of the [k] slots from [i + 1] to [i]. *)
Definition memmove_down (l : list Z) (i k : nat) : list Z :=
  take i l ++ take k (drop (i + 1) l) ++ drop (i + k) l.

Definition VmDirStringListRemove (sl : strlist) (p : Z) : dwerror * strlist :=
  match find_ptr p (pStringList sl) (Z.to_nat (dwCount sl)) with
  | Some i => (ERROR_SUCCESS,
               STRLIST (memmove_down (pStringList sl) i (Z.to_nat (dwCount sl) - i - 1))
                       (dwCount sl - 1) (sl_dwSize sl))
  | None => (VMDIR_ERROR_NOT_FOUND, sl)
  end.

Definition VmDirStringListContains (sl : strlist) (p : Z) : bool :=
  match find_ptr p (pStringList sl) (Z.to_nat (dwCount sl)) with Some _ => true | None => false end.

Definition VmDirStringListAddStrClone (s : option cstr) (sl : option strlist) (m : smem)
  : option ((dwerror * option strlist) * smem) :=
  match s, sl with
  | Some s, Some sl =>
      match VmDirAllocateStringA s m with
      | ((ERROR_SUCCESS, p), m) =>
          match VmDirStringListAdd sl p m with
          | Some ((ERROR_SUCCESS, sl), m) => Some ((ERROR_SUCCESS, Some sl), m)
          | Some ((err, sl), m) =>
              match free_str p m with Some m => Some ((err, Some sl), m) | None => None end
          | None => None
          end
      | ((err, _), m) => Some ((err, Some sl), m)
      end
  | _, _ => Some ((VMDIR_ERROR_INVALID_PARAMETER, sl), m)
  end.

(** The swap loop of [VmDirStringListReverse]. *)
Fixpoint reverse_loop (fuel : nat) (l : list Z) (i j : nat) : list Z :=
  match fuel with
  | O => l
  | S f =>
      if bool_decide (i < j)%nat
      then
        let x := default NULL (l !! i) in
        let y := default NULL (l !! j) in
        reverse_loop f (<[j := x]> (<[i := y]> l)) (i + 1) (j - 1)
      else l
  end.

Definition VmDirStringListReverse (sl : option strlist) : dwerror * option strlist :=
  match sl with
  | None => (VMDIR_ERROR_INVALID_PARAMETER, None)
  | Some sl =>
      (ERROR_SUCCESS,
       Some (if dwCount sl >? 1
             then STRLIST (reverse_loop (Z.to_nat (dwCount sl)) (pStringList sl) 0
                             (Z.to_nat (dwCount sl - 1))) (dwCount sl) (sl_dwSize sl)
             else sl))
  end.

Definition VmDirStringListRemoveLast (sl : option strlist) (m : smem)
  : option ((dwerror * option strlist) * smem) :=
  match sl with
  | None => Some ((VMDIR_ERROR_INVALID_PARAMETER, None), m)
  | Some sl =>
      if dwCount sl =? 0 then Some ((VMDIR_ERROR_INVALID_PARAMETER, Some sl), m)
      else
        let n := dwCount sl - 1 in
        match pStringList sl !! Z.to_nat n with
        | None => None
        | Some p =>
            if bool_decide (p = NULL)
            then Some ((ERROR_SUCCESS, Some (STRLIST (pStringList sl) n (sl_dwSize sl))), m)
            else match free_str p m with
                 | None => None
                 | Some m => Some ((ERROR_SUCCESS,
                     Some (STRLIST (<[Z.to_nat n := NULL]> (pStringList sl)) n (sl_dwSize sl))), m)
                 end
        end
  end.

(** [strlen] and the string at the start of a block: [None] when the block ends
    before a terminator. *)
Fixpoint read_cstr (b : list ascii) : option (cstr * list ascii) :=
  match b with
  | [] => None
  | c :: b => if bool_decide (c = NUL) then Some ([], b)
              else match read_cstr b with Some (s, r) => Some (c :: s, r) | None => None end
  end.

(** The loop of [VmDirStringListFromMultiString] over the rest of the block. *)
Fixpoint from_multi_loop (fuel : nat) (b : list ascii) (sl : strlist) (m : smem)
  : option ((dwerror * strlist) * smem) :=
  match fuel with
  | O => None
  | S f =>
      match read_cstr b with
      | None => None
      | Some (s, rest) =>
          match VmDirStringListAddStrClone (Some s) (Some sl) m with
          | Some ((ERROR_SUCCESS, Some sl), m) =>
              match rest with
              | [] => None
              | c :: _ => if bool_decide (c = NUL) then Some ((ERROR_SUCCESS, sl), m)
                          else from_multi_loop f rest sl m
              end
          | Some ((err, _), m) => Some ((err, sl), m)
          | None => None
          end
      end
  end.

Definition VmDirStringListFromMultiString (b : list ascii) (dwCountHint : Z) (m : smem)
  : option ((dwerror * option strlist) * smem) :=
  match VmDirStringListInitialize dwCountHint m with
  | ((ERROR_SUCCESS, Some sl), m) =>
      match from_multi_loop (S (length b)) b sl m with
      | Some ((ERROR_SUCCESS, sl), m) => Some ((ERROR_SUCCESS, Some sl), m)
      | Some ((err, sl), m) =>
          match VmDirStringListFree (Some sl) m with Some m => Some ((err, None), m) | None => None end
      | None => None
      end
  | ((err, sl), m) =>
      match VmDirStringListFree sl m with Some m => Some ((err, None), m) | None => None end
  end.

(** The strings the first [dwCount] slots point to. *)
Definition sl_strings (sl : strlist) (m : smem) : option (list cstr) :=
  mapM (λ p, sm_strs m !! p) (take (Z.to_nat (dwCount sl)) (pStringList sl)).

(** [strcpy] of every string with its terminator, then the closing NUL: the
    block and [*pdwByteCount]. *)
Definition VmDirMultiStringFromStringList (sl : strlist) (m : smem)
  : option ((dwerror * list ascii * Z) * smem) :=
  match sl_strings sl m with
  | None => None
  | Some ss =>
      let dwSize := foldl (λ n (s : cstr), u32 (n + (Z.of_nat (length s) + 1))) 1 ss in
      let (fail, m) := next_oom m in
      if fail then Some ((ERROR_NO_MEMORY, [], 0), m)
      else
        let b := concat (map (λ s : cstr, s ++ [NUL]) ss) ++ [NUL] in
        (* the block has dwSize bytes *)
        if bool_decide (Z.of_nat (length b) <= dwSize) then Some ((ERROR_SUCCESS, b, dwSize), m)
        else None
  end.

(** ** Refinement to a list of pointers *)

Section Proofs.
Implicit Types (sl : strlist) (q : list Z) (m : smem).

(** The first [dwCount] slots are [q], and at least one more slot is left. *)
Definition sl_rel sl q : Prop :=
  dwCount sl = Z.of_nat (length q) ∧ Z.of_nat (length q) < sl_dwSize sl < 2 ^ 32 ∧
  sl_dwSize sl <= Z.of_nat (length (pStringList sl)) ∧
  take (length q) (pStringList sl) = q.

Lemma sl_rel_slots sl q : sl_rel sl q → ∃ r, pStringList sl = q ++ r ∧ r ≠ [].
Proof.
  intros (Hc & Hlt & Hlen & Htk). exists (drop (length q) (pStringList sl)). split.
  - rewrite <- Htk at 1. by rewrite take_drop.
  - intros Heq%(f_equal length). rewrite length_drop in Heq. simpl in Heq. lia.
Qed.

Lemma init_rel n m sl m' :
  0 <= n < 2 ^ 29 - 1 → VmDirStringListInitialize n m = ((ERROR_SUCCESS, Some sl), m') → sl_rel sl [].
Proof.
  intros Hn. unfold VmDirStringListInitialize. set (n' := if n <? 4 then 4 else n).
  assert (4 <= n' < 2 ^ 29 - 1) by (unfold n'; destruct (Z.ltb_spec n 4); lia).
  rewrite (u32_id (n' + 1)), u32_id by (unfold is_u32; lia).
  replace ((n' + 1) * 8 / 8) with (n' + 1) by (apply Z.div_unique_exact; lia).
  case_match; [done |]. destruct (next_oom m) as [[] m1]; [done |].
  destruct (next_oom m1) as [[] m2]; [done |]. intros [= <- <-].
  split; [done |]. cbn. rewrite length_replicate. split; [lia |]. split; [lia | done].
Qed.

Lemma init_ok n m :
  0 <= n < 2 ^ 29 - 1 → sm_oom m = [] →
  ∃ sl, VmDirStringListInitialize n m = ((ERROR_SUCCESS, Some sl), m).
Proof.
  intros Hn Ho. unfold VmDirStringListInitialize, next_oom. rewrite Ho.
  set (n' := if n <? 4 then 4 else n).
  assert (4 <= n' < 2 ^ 29 - 1) by (unfold n'; destruct (Z.ltb_spec n 4); lia).
  rewrite (u32_id (n' + 1)), u32_id by (unfold is_u32; lia).
  destruct (Z.ltb_spec ((n' + 1) * 8) n'); [lia |]. rewrite Ho. eauto.
Qed.

Lemma sl_store_spec sl q p :
  sl_rel sl q → Z.of_nat (length q) + 1 < sl_dwSize sl →
  ∃ sl', sl_store sl p = Some sl' ∧ sl_rel sl' (q ++ [p]).
Proof.
  intros Hrel Hroom. pose proof Hrel as (Hc & Hlt & Hlen & _).
  destruct (sl_rel_slots _ _ Hrel) as ([|x r] & Hr & Hne); [done |].
  unfold sl_store. rewrite Hc, Nat2Z.id. rewrite bool_decide_eq_true_2 by lia.
  eexists. split; [reflexivity |].
  split; [| split; [| split]]; cbn; rewrite ?length_app, ?length_insert; cbn.
  - rewrite u32_id by (unfold is_u32; lia). lia.
  - lia.
  - lia.
  - rewrite Hr. rewrite <- (Nat.add_0_r (length q)) at 2. rewrite insert_app_r. simpl.
    change (p :: r) with ([p] ++ r). rewrite app_assoc.
    by rewrite take_app_length' by (rewrite length_app; done).
Qed.

Lemma next_oom_spec m :
  sm_strs (next_oom m).2 = sm_strs m ∧ sm_brk (next_oom m).2 = sm_brk m ∧
  (sm_oom m = [] → next_oom m = (false, m)).
Proof. unfold next_oom. by destruct (sm_oom m). Qed.

(** Growing keeps the contents and makes room, or fails and changes nothing. *)
Lemma sl_grow_spec sl q m :
  sl_rel sl q → ∃ err sl' m', sl_grow sl m = ((err, sl'), m') ∧ sl_rel sl' q ∧
    sm_strs m' = sm_strs m ∧ sm_brk m' = sm_brk m ∧
    (err = ERROR_SUCCESS → Z.of_nat (length q) + 1 < sl_dwSize sl') ∧
    (sm_oom m = [] → sm_oom m' = [] ∧ (Z.of_nat (length q) + 1 < 2 ^ 31 → err = ERROR_SUCCESS)).
Proof.
  intros Hrel. pose proof Hrel as (Hc & Hlt & Hlen & Htk).
  unfold sl_grow. rewrite Hc, u32_id by (unfold is_u32; lia).
  destruct (Z.eqb_spec (Z.of_nat (length q) + 1) (sl_dwSize sl)) as [Heq | Hneq].
  2: { eexists _, _, _. split; [reflexivity |]. do 3 (split; [done |]). split; [lia | done]. }
  set (sz := sl_dwSize sl) in *. destruct (Z.lt_ge_cases (sz * 2) (2 ^ 32)) as [Hsm | Hge].
  2: { unfold u32. rewrite <- (Z.mod_unique (sz * 2) (2 ^ 32) 1 (sz * 2 - 2 ^ 32)) by lia.
       destruct (Z.ltb_spec (sz * 2 - 2 ^ 32) sz); [| lia].
       eexists _, _, _. split; [reflexivity |]. do 4 (split; [done |]). intros ->.
       split; [done | lia]. }
  rewrite u32_id by (unfold is_u32; lia). destruct (Z.ltb_spec (sz * 2) sz); [lia |].
  pose proof (next_oom_spec m) as (Hs & Hb & Ho). destruct (next_oom m) as [fail m1].
  unfold VmDirReallocateMemoryWithInit. destruct (Z.ltb_spec (sz * 2 * 8) (sz * 8)); [lia |].
  destruct fail.
  { eexists _, _, _. split; [reflexivity |]. do 4 (split; [done |]).
    intros Hm. by specialize (Ho Hm). }
  eexists _, _, _. split; [reflexivity |]. split; [| do 2 (split; [done |])].
  - rewrite !Z.div_mul by lia. split; [done |]. cbn. split; [lia |]. split.
    + rewrite length_app, length_take, length_app, !length_replicate. lia.
    + rewrite take_app_le by (rewrite length_take, length_app, length_replicate; lia).
      rewrite take_take, Nat.min_l, take_app_le by lia. exact Htk.
  - split; [intros _; cbn; lia |]. intros Hm. specialize (Ho Hm). by simplify_eq.
Qed.

Lemma add_spec sl q p m :
  sl_rel sl q → ∃ err sl' m', VmDirStringListAdd sl p m = Some ((err, sl'), m') ∧
    sm_strs m' = sm_strs m ∧ sm_brk m' = sm_brk m ∧
    ((err = ERROR_SUCCESS ∧ sl_rel sl' (q ++ [p])) ∨ (err ≠ ERROR_SUCCESS ∧ sl_rel sl' q)) ∧
    (sm_oom m = [] → sm_oom m' = [] ∧ (Z.of_nat (length q) + 1 < 2 ^ 31 → err = ERROR_SUCCESS)).
Proof.
  intros Hrel. destruct (sl_grow_spec sl q m Hrel)
    as (err & sl1 & m1 & Hg & Hrel1 & Hs & Hb & Hroom & Ho).
  unfold VmDirStringListAdd. rewrite Hg. destruct (decide (err = ERROR_SUCCESS)) as [-> | Hne].
  - destruct (sl_store_spec sl1 q p Hrel1) as (sl2 & -> & Hrel2); [by apply Hroom |].
    eexists _, _, _. split; [reflexivity |]. do 2 (split; [done |]). split; [by left | done].
  - exists err, sl1, m1. split; [by destruct err |]. do 2 (split; [done |]). split; [by right | done].
Qed.

Lemma find_ptr_spec p q r :
  find_ptr p (q ++ r) (length q) = fst <$> list_find (p =.) q.
Proof.
  induction q as [|x q IH]; [by destruct r |]. cbn. rewrite IH.
  destruct (decide (p = x)) as [-> | Hne].
  - by rewrite bool_decide_eq_true_2.
  - rewrite bool_decide_eq_false_2 by done. by destruct (list_find _ q) as [[]|].
Qed.

Lemma contains_spec sl q p : sl_rel sl q → VmDirStringListContains sl p = bool_decide (p ∈ q).
Proof.
  intros Hrel. destruct (sl_rel_slots _ _ Hrel) as (r & Hr & _). destruct Hrel as (Hc & _).
  unfold VmDirStringListContains. rewrite Hc, Hr, Nat2Z.id, find_ptr_spec.
  destruct (list_find (p =.) q) as [[i x]|] eqn:Hf; cbn; symmetry.
  - apply bool_decide_eq_true. apply list_find_Some in Hf as (Hi & -> & _).
    by eapply list_elem_of_lookup_2.
  - apply bool_decide_eq_false. intros Hin. apply list_find_None in Hf.
    rewrite Forall_forall in Hf. by apply (Hf p).
Qed.

(** The first occurrence of [p] is removed. *)
Definition remove_first (p : Z) q : list Z :=
  match list_find (p =.) q with Some (i, _) => delete i q | None => q end.

Lemma sl_remove_spec sl q p :
  sl_rel sl q →
  let (err, sl') := VmDirStringListRemove sl p in
  err = (if bool_decide (p ∈ q) then ERROR_SUCCESS else VMDIR_ERROR_NOT_FOUND) ∧
  sl_rel sl' (remove_first p q).
Proof.
  intros Hrel. pose proof (contains_spec sl q p Hrel) as Hin.
  destruct (sl_rel_slots _ _ Hrel) as (r & Hr & Hne). pose proof Hrel as (Hc & Hlt & Hlen & _).
  unfold VmDirStringListContains in Hin. unfold VmDirStringListRemove, remove_first. rewrite <- Hin.
  rewrite Hc, Hr, Nat2Z.id, find_ptr_spec. destruct (list_find (p =.) q) as [[i x]|] eqn:Hf; cbn; [| done].
  split; [done |]. apply list_find_Some in Hf as (Hi & -> & _). apply lookup_lt_Some in Hi as Hil.
  assert (length (delete i q) = (length q - 1)%nat) as Hdl by (apply length_delete; by exists x).
  split; [cbn; lia |]. cbn. rewrite Hdl. rewrite Hr in Hlen. rewrite length_app in Hlen.
  assert (take i (q ++ r) = take i q) as Ht1 by (apply take_app_le; lia).
  assert (take (length q - i - 1) (drop (i + 1) (q ++ r)) = drop (i + 1) q) as Ht2.
  { rewrite drop_app_le by lia. rewrite take_app_le by (rewrite length_drop; lia).
    apply take_ge. rewrite length_drop. lia. }
  unfold memmove_down. rewrite Ht1, Ht2. split; [lia |]. split.
  - rewrite !length_app, length_take, !length_drop, length_app. lia.
  - rewrite app_assoc, take_app_le by (rewrite length_app, length_take, length_drop; lia).
    rewrite delete_take_drop, Nat.add_1_r. apply take_ge.
    rewrite length_app, length_take, length_drop. lia.
Qed.

Lemma reverse_loop_spec fuel (a mid b : list Z) :
  (length mid <= fuel)%nat →
  reverse_loop fuel (a ++ mid ++ b) (length a) (length a + length mid - 1) = a ++ reverse mid ++ b.
Proof.
  revert a mid b. induction fuel as [|fuel IH]; intros a mid b Hf.
  { destruct mid; simpl in *; [done | lia]. }
  cbn [reverse_loop]. case_bool_decide as Hij.
  2: { destruct mid as [|x [|y mid]]; simpl in *; [done | done | lia]. }
  destruct mid as [|x mid]; [simpl in *; lia |].
  destruct mid as [|y mid _] using rev_ind; [simpl in *; lia |].
  assert (length a + length (x :: mid ++ [y]) - 1 = length ((a ++ [x]) ++ mid))%nat as Hj
    by (rewrite !length_app; simpl; rewrite length_app; simpl; lia).
  rewrite Hj. assert (a ++ (x :: mid ++ [y]) ++ b = ((a ++ [x]) ++ mid) ++ y :: b) as Hl
    by by rewrite <- !app_assoc; simpl; rewrite <- app_assoc.
  assert (((a ++ (x :: mid ++ [y]) ++ b) !! length a) = Some x) as Hx by by apply list_lookup_middle.
  assert (((a ++ (x :: mid ++ [y]) ++ b) !! length ((a ++ [x]) ++ mid)) = Some y) as Hy
    by (rewrite Hl; by apply list_lookup_middle).
  rewrite Hx, Hy. cbn [default id].
  assert (<[length ((a ++ [x]) ++ mid) := x]> (<[length a := y]> (a ++ (x :: mid ++ [y]) ++ b)) =
          (a ++ [y]) ++ mid ++ x :: b) as ->.
  { rewrite <- (Nat.add_0_r (length a)) at 1. rewrite insert_app_r. cbn.
    replace (a ++ y :: (mid ++ [y]) ++ b) with (((a ++ [y]) ++ mid) ++ y :: b)
      by by rewrite <- !app_assoc.
    replace (length ((a ++ [x]) ++ mid)) with (length ((a ++ [y]) ++ mid) + 0)%nat
      by (rewrite !length_app; simpl; lia).
    rewrite insert_app_r. cbn. by rewrite <- !app_assoc. }
  replace (length a + 1)%nat with (length (a ++ [y])) by (rewrite length_app; done).
  replace (length ((a ++ [x]) ++ mid) - 1)%nat with (length (a ++ [y]) + length mid - 1)%nat
    by (rewrite !length_app; simpl; lia).
  rewrite IH by (simpl in Hf; rewrite length_app in Hf; simpl in Hf; lia).
  rewrite reverse_cons, reverse_app. cbn. by rewrite <- !app_assoc.
Qed.

Lemma reverse_spec sl q :
  sl_rel sl q → ∃ sl', VmDirStringListReverse (Some sl) = (ERROR_SUCCESS, Some sl') ∧ sl_rel sl' (reverse q).
Proof.
  intros Hrel. destruct (sl_rel_slots _ _ Hrel) as (r & Hr & Hne). pose proof Hrel as (Hc & Hlt & Hlen & _).
  unfold VmDirStringListReverse. rewrite Hc, Hr, Nat2Z.id. eexists. split; [reflexivity |].
  destruct (Z.gtb_spec (Z.of_nat (length q)) 1).
  - pose proof (reverse_loop_spec (length q) [] q r ltac:(lia)) as Hrl. cbn [app length] in Hrl.
    replace (Z.to_nat (Z.of_nat (length q) - 1)) with (0 + length q - 1)%nat by lia. rewrite Hrl.
    split; [by rewrite length_reverse |]. cbn. rewrite length_reverse.
    split; [done |]. split; [rewrite length_app, length_reverse; rewrite Hr, length_app in Hlen; lia |].
    rewrite <- (length_reverse q). by rewrite take_app_length.
  - by destruct q as [|x [|]]; simpl in *; [| | lia].
Qed.

Lemma remove_last_spec sl q p m :
  sl_rel sl (q ++ [p]) → p = NULL ∨ is_Some (sm_strs m !! p) →
  ∃ sl' m', VmDirStringListRemoveLast (Some sl) m = Some ((ERROR_SUCCESS, Some sl'), m') ∧
    sl_rel sl' q ∧ (p ≠ NULL → sm_strs m' = delete p (sm_strs m)).
Proof.
  intros Hrel Hp. destruct (sl_rel_slots _ _ Hrel) as (r & Hr & Hne).
  pose proof Hrel as (Hc & Hlt & Hlen & _). rewrite Hr in Hlen.
  rewrite !length_app in *. simpl in Hc, Hlt, Hlen.
  unfold VmDirStringListRemoveLast. destruct (Z.eqb_spec (dwCount sl) 0); [lia |].
  replace (Z.to_nat (dwCount sl - 1)) with (length q) by lia.
  assert (pStringList sl !! length q = Some p) as -> by (rewrite Hr, <- app_assoc; by apply list_lookup_middle).
  case_bool_decide as Hnull.
  - eexists _, _. split; [reflexivity |]. split; [| done]. split; [cbn; lia |]. cbn.
    split; [lia |]. split; [rewrite Hr, !length_app; simpl; lia |].
    by rewrite Hr, <- app_assoc, take_app_length.
  - destruct Hp as [| [s Hs]]; [done |]. unfold free_str. rewrite bool_decide_eq_false_2 by done.
    rewrite Hs. eexists _, _. split; [reflexivity |]. split; [| done]. split; [cbn; lia |]. cbn.
    split; [lia |]. split; [rewrite length_insert, Hr, !length_app; simpl; lia |].
    rewrite Hr, <- app_assoc. rewrite <- (Nat.add_0_r (length q)) at 2.
    by rewrite insert_app_r, take_app_length.
Qed.

(** *** Sequences of operations *)

Inductive sl_op := SL_Add (p : Z) | SL_Remove (p : Z) | SL_Contains (p : Z) | SL_Reverse.
Inductive sl_res := SL_err (r : dwerror) | SL_bool (b : bool).

Definition sl_run (o : sl_op) (sl : strlist) (m : smem) : option (sl_res * strlist * smem) :=
  match o with
  | SL_Add p => match VmDirStringListAdd sl p m with
                | Some ((err, sl), m) => Some (SL_err err, sl, m) | None => None end
  | SL_Remove p => let (err, sl) := VmDirStringListRemove sl p in Some (SL_err err, sl, m)
  | SL_Contains p => Some (SL_bool (VmDirStringListContains sl p), sl, m)
  | SL_Reverse => match VmDirStringListReverse (Some sl) with
                  | (err, Some sl) => Some (SL_err err, sl, m) | (_, None) => None end
  end.

Fixpoint sl_runs (os : list sl_op) (sl : strlist) (m : smem) : option (list sl_res * strlist * smem) :=
  match os with
  | [] => Some ([], sl, m)
  | o :: os => '(r, sl, m) ← sl_run o sl m; '(rs, sl, m) ← sl_runs os sl m; Some (r :: rs, sl, m)
  end.

(** The step of the abstract list [q] to [q'] with result [r]: an [Add] may
    fail, and then changes nothing. *)
Definition sl_abs (o : sl_op) (r : sl_res) (q q' : list Z) : Prop :=
  match o with
  | SL_Add p => (r = SL_err ERROR_SUCCESS ∧ q' = q ++ [p]) ∨
                (∃ e, e ≠ ERROR_SUCCESS ∧ r = SL_err e ∧ q' = q)
  | SL_Remove p =>
      r = SL_err (if bool_decide (p ∈ q) then ERROR_SUCCESS else VMDIR_ERROR_NOT_FOUND) ∧
      q' = remove_first p q
  | SL_Contains p => r = SL_bool (bool_decide (p ∈ q)) ∧ q' = q
  | SL_Reverse => r = SL_err ERROR_SUCCESS ∧ q' = reverse q
  end.

Inductive sl_abss : list sl_op → list sl_res → list Z → list Z → Prop :=
  | sl_abss_nil q : sl_abss [] [] q q
  | sl_abss_cons o os r rs q1 q2 q3 :
      sl_abs o r q1 q2 → sl_abss os rs q2 q3 → sl_abss (o :: os) (r :: rs) q1 q3.

Lemma sl_run_spec o sl q m :
  sl_rel sl q → ∃ r sl' m' q', sl_run o sl m = Some (r, sl', m') ∧ sl_rel sl' q' ∧ sl_abs o r q q'.
Proof.
  intros Hrel. destruct o as [p | p | p |]; cbn [sl_run sl_abs].
  - destruct (add_spec sl q p m Hrel) as (err & sl' & m' & -> & _ & _ & Hcase & _).
    destruct Hcase as [[-> ?] | [? ?]].
    + exists (SL_err ERROR_SUCCESS), sl', m', (q ++ [p]). split; [done |]. split; [done | by left].
    + exists (SL_err err), sl', m', q. split; [done |]. split; [done | right; eauto].
  - pose proof (sl_remove_spec sl q p Hrel) as Hrm. destruct (VmDirStringListRemove sl p) as [err sl'].
    destruct Hrm as [-> ?]. eexists _, _, _, _. done.
  - eexists _, _, _, _. split; [reflexivity |]. split; [done |]. by rewrite (contains_spec sl q).
  - destruct (reverse_spec sl q Hrel) as (sl' & -> & ?). eexists _, _, _, _. done.
Qed.

(** From an initialised list, every sequence of additions, removals (by
    pointer, first occurrence), membership tests and reversals behaves as on a
    mathematical list; an addition that cannot grow the array fails and changes
    nothing, and no access leaves the array. *)
Theorem stringlist_refines_list n os m sl m1 :
  0 <= n < 2 ^ 29 - 1 → VmDirStringListInitialize n m = ((ERROR_SUCCESS, Some sl), m1) →
  ∃ rs sl' m' q', sl_runs os sl m1 = Some (rs, sl', m') ∧ sl_rel sl' q' ∧ sl_abss os rs [] q'.
Proof.
  intros Hn Hinit. pose proof (init_rel _ _ _ _ Hn Hinit) as Hrel. clear Hinit. revert Hrel.
  generalize (@nil Z) as q. revert sl m1.
  induction os as [|o os IH]; intros sl m1 q Hrel; cbn [sl_runs].
  { exists [], sl, m1, q. split; [done |]. split; [done | constructor]. }
  destruct (sl_run_spec o sl q m1 Hrel) as (r & sl1 & m2 & q1 & Hrun & Hrel1 & Habs).
  destruct (IH sl1 m2 q1 Hrel1) as (rs & sl2 & m3 & q2 & Hrun2 & Hrel2 & Habs2).
  exists (r :: rs), sl2, m3, q2. rewrite Hrun. cbn. rewrite Hrun2. cbn.
  split; [done |]. split; [done |]. by econstructor.
Qed.

(** *** Multi-strings *)

(** A string the multi-string format can hold. *)
Definition valid_str (s : cstr) : Prop := s ≠ [] ∧ NUL ∉ s.

Lemma read_cstr_spec s r : NUL ∉ s → read_cstr (s ++ NUL :: r) = Some (s, r).
Proof.
  induction s as [|c s IH]; intros Hs; cbn; [done |]. apply not_elem_of_cons in Hs as [Hc Hs].
  rewrite bool_decide_eq_false_2 by congruence. by rewrite IH.
Qed.

Definition smem_wf m : Prop := 0 < sm_brk m ∧ below (sm_brk m) (sm_strs m) ∧ sm_oom m = [].

(** The slots [q] point to the strings [ss]. *)
Definition points m q (ss : list cstr) : Prop := Forall2 (λ p s, sm_strs m !! p = Some s) q ss.

Lemma add_clone_spec sl q ss s m :
  sl_rel sl q → Z.of_nat (length q) + 1 < 2 ^ 31 → smem_wf m → points m q ss →
  ∃ sl' m' p, VmDirStringListAddStrClone (Some s) (Some sl) m = Some ((ERROR_SUCCESS, Some sl'), m') ∧
    sl_rel sl' (q ++ [p]) ∧ smem_wf m' ∧ points m' (q ++ [p]) (ss ++ [s]).
Proof.
  intros Hrel Hlen (Hb & Hbl & Ho) Hpt. unfold VmDirStringListAddStrClone, VmDirAllocateStringA, next_oom.
  rewrite Ho. set (m1 := SMEM _ _ _).
  destruct (add_spec sl q (sm_brk m) m1 Hrel) as (err & sl' & m' & -> & Hs & Hbk & Hcase & Hok).
  destruct Hok as [Ho' Herr]; [done |]. rewrite Herr in * by done.
  destruct Hcase as [[_ Hrel'] | [? _]]; [| done].
  exists sl', m', (sm_brk m). split; [done |]. split; [done |]. split.
  - split; [rewrite Hbk; cbn; lia |]. split; [| done]. rewrite Hbk, Hs. cbn.
    apply below_insert; [lia |]. eapply below_mono; [| done]. lia.
  - apply Forall2_app; [| constructor; [| constructor]].
    + eapply Forall2_impl; [exact Hpt |]. cbn. intros p t Hp. rewrite Hs. cbn.
      apply Hbl in Hp as Hp'. rewrite lookup_insert_ne by lia. done.
    + rewrite Hs. cbn. apply lookup_insert_eq.
Qed.

Lemma from_multi_loop_spec fuel ss s sl q qs m :
  (length ss < fuel)%nat → Forall valid_str (s :: ss) →
  sl_rel sl q → Z.of_nat (length q + length ss) + 1 < 2 ^ 31 → smem_wf m → points m q qs →
  ∃ sl' m' ps, from_multi_loop fuel (concat (map (λ s : cstr, s ++ [NUL]) (s :: ss)) ++ [NUL]) sl m =
      Some ((ERROR_SUCCESS, sl'), m') ∧
    sl_rel sl' (q ++ ps) ∧ points m' (q ++ ps) (qs ++ s :: ss).
Proof.
  revert ss s sl q qs m. induction fuel as [|fuel IH]; intros ss s sl q qs m Hf Hv Hrel Hlen Hwf Hpt; [lia |].
  apply Forall_cons in Hv as [[Hs0 Hs] Hv]. cbn [from_multi_loop map concat].
  rewrite <- !app_assoc. cbn [app]. rewrite read_cstr_spec by done.
  destruct (add_clone_spec sl q qs s m) as (sl1 & m1 & p & -> & Hrel1 & Hwf1 & Hpt1); [done | lia | done | done |].
  destruct ss as [|s2 ss].
  - cbn [map concat app]. rewrite bool_decide_eq_true_2 by done. by exists sl1, m1, [p].
  - pose proof Hv as [[Hs20 Hs2] _]%Forall_cons. destruct s2 as [|c s2]; [done |].
    destruct (IH ss (c :: s2) sl1 (q ++ [p]) (qs ++ [s]) m1) as (sl2 & m2 & ps & Hrun & Hrel2 & Hpt2);
      [simpl in *; lia | done | done | rewrite length_app; simpl in *; lia | done | done |].
    cbn [map concat app] in Hrun |- *. rewrite bool_decide_eq_false_2.
    + rewrite Hrun. exists sl2, m2, (p :: ps). rewrite <- app_assoc in Hrel2, Hpt2.
      rewrite <- app_assoc in Hpt2. by cbn in *.
    + intros ->. apply Hs2. left.
Qed.

Lemma multi_size ss n :
  0 <= n → n + Z.of_nat (length (concat (map (λ s : cstr, s ++ [NUL]) ss))) < 2 ^ 32 →
  foldl (λ n (s : cstr), u32 (n + (Z.of_nat (length s) + 1))) n ss =
  n + Z.of_nat (length (concat (map (λ s : cstr, s ++ [NUL]) ss))).
Proof.
  revert n. induction ss as [|s ss IH]; intros n Hn Hlt; cbn in *; [lia |].
  rewrite !length_app in *. cbn in *. rewrite u32_id by (unfold is_u32; lia).
  rewrite IH by lia. lia.
Qed.

(** Writing a non-empty list of non-empty strings as a multi-string and
    reading it back gives the same strings, the byte count being the length of
    the block; both conversions succeed when memory is available. *)
Theorem multistring_roundtrip sl m ss hint m2 :
  sl_strings sl m = Some ss → ss ≠ [] → Forall valid_str ss →
  Z.of_nat (length (concat (map (λ s : cstr, s ++ [NUL]) ss))) + 1 < 2 ^ 31 →
  sm_oom m = [] → 0 <= hint < 2 ^ 29 - 1 → smem_wf m2 →
  ∃ b sl' m', VmDirMultiStringFromStringList sl m = Some ((ERROR_SUCCESS, b, Z.of_nat (length b)), m) ∧
    VmDirStringListFromMultiString b hint m2 = Some ((ERROR_SUCCESS, Some sl'), m') ∧
    sl_strings sl' m' = Some ss.
Proof.
  intros Hss Hne Hv Hlen Ho Hhint Hwf2. set (body := concat _) in *.
  assert (length ss <= length body)%nat as Hcnt.
  { unfold body. clear. induction ss; cbn; [lia |]. rewrite !length_app. cbn. lia. }
  exists (body ++ [NUL]).
  unfold VmDirMultiStringFromStringList. rewrite Hss, multi_size by (fold body; lia). fold body.
  unfold next_oom at 1. rewrite Ho. rewrite length_app, bool_decide_eq_true_2 by (cbn; lia).
  unfold VmDirStringListFromMultiString.
  destruct (init_ok hint m2) as [sl0 Hinit]; [done | by apply Hwf2 |]. rewrite Hinit.
  pose proof (init_rel _ _ _ _ Hhint Hinit) as Hrel.
  destruct ss as [|s ss]; [done |].
  destruct (from_multi_loop_spec (S (length (body ++ [NUL]))) ss s sl0 [] [] m2) as (sl' & m' & ps & Hrun & Hrel' & Hpt);
    [rewrite length_app; simpl in Hcnt; lia | done | done | simpl in *; lia | done | constructor |].
  exists sl', m'. split; [f_equal; f_equal; f_equal; cbn; lia |].
  fold body in Hrun. rewrite Hrun. split; [done |].
  unfold sl_strings. destruct Hrel' as (Hc & _ & _ & Htk). rewrite Hc, Nat2Z.id, Htk.
  by apply mapM_Some.
Qed.

(** Removal leaves the array without its NULL terminator, which the code
    of [VmDirStringListAdd] claims to keep: removing the first of two strings
    leaves the old last pointer after the list.  Reading back the multi-string
    of an empty list reads past its block. *)
Theorem stringlist_defects m m2 sl hint :
  sl_rel sl [] → sm_oom m = [] → smem_wf m2 → 0 <= hint < 2 ^ 29 - 1 →
  (∃ sl', VmDirStringListRemove (STRLIST [7; 8; NULL; NULL; NULL] 2 4) 7 = (ERROR_SUCCESS, sl') ∧
     dwCount sl' = 1 ∧ pStringList sl' !! 1%nat = Some 8) ∧
  VmDirMultiStringFromStringList sl m = Some ((ERROR_SUCCESS, [NUL], 1), m) ∧
  VmDirStringListFromMultiString [NUL] hint m2 = None.
Proof.
  intros (Hc & _) Ho Hwf Hh. split; [by eexists |]. split.
  - unfold VmDirMultiStringFromStringList, sl_strings, next_oom. rewrite Hc, Ho. done.
  - destruct (init_ok hint m2) as [sl0 Hinit]; [done | by apply Hwf |].
    unfold VmDirStringListFromMultiString. rewrite Hinit. cbn [from_multi_loop length read_cstr].
    rewrite bool_decide_eq_true_2 by done.
    destruct (add_clone_spec sl0 [] [] [] m2) as (sl1 & m1 & p & -> & _);
      [by eapply init_rel | done | done | constructor | done].
Qed.

End Proofs.

(** ** Concrete lists *)

Definition sl_ex_mem : smem :=
  SMEM {[1 := ["a"%char; "b"%char]; 2 := ["c"%char]]} 3 [].

Lemma sl_ex_wf : smem_wf sl_ex_mem.
Proof.
  split; [done |]. split; [| done]. apply (bool_decide_unpack (map_Forall _ _)). vm_compute. exact I.
Qed.

Lemma stringlist_refines_list_witness :
  ∃ rs sl' m' q', sl_runs [SL_Add 1; SL_Add 2; SL_Reverse; SL_Remove 1; SL_Contains 1]
      (STRLIST [NULL; NULL; NULL; NULL; NULL] 0 4) sl_ex_mem = Some (rs, sl', m') ∧
    sl_rel sl' q' ∧
    sl_abss [SL_Add 1; SL_Add 2; SL_Reverse; SL_Remove 1; SL_Contains 1] rs [] q'.
Proof.
  apply (stringlist_refines_list 0 _ sl_ex_mem); [done | reflexivity].
Defined.

Lemma multistring_roundtrip_witness :
  ∃ b sl' m', VmDirMultiStringFromStringList (STRLIST [2; 1; NULL; NULL; NULL] 2 4) sl_ex_mem =
      Some ((ERROR_SUCCESS, b, Z.of_nat (length b)), sl_ex_mem) ∧
    VmDirStringListFromMultiString b 0 sl_ex_mem = Some ((ERROR_SUCCESS, Some sl'), m') ∧
    sl_strings sl' m' = Some [["c"%char]; ["a"%char; "b"%char]].
Proof.
  apply (multistring_roundtrip (STRLIST [2; 1; NULL; NULL; NULL] 2 4) sl_ex_mem
           [["c"%char]; ["a"%char; "b"%char]] 0 sl_ex_mem).
  - reflexivity.
  - done.
  - apply (bool_decide_unpack (Forall _ _)). vm_compute. exact I.
  - done.
  - done.
  - done.
  - exact sl_ex_wf.
Defined.

Lemma stringlist_defects_witness :
  (∃ sl', VmDirStringListRemove (STRLIST [7; 8; NULL; NULL; NULL] 2 4) 7 = (ERROR_SUCCESS, sl') ∧
     dwCount sl' = 1 ∧ pStringList sl' !! 1%nat = Some 8) ∧
  VmDirMultiStringFromStringList (STRLIST [NULL; NULL; NULL; NULL; NULL] 0 4) sl_ex_mem =
    Some ((ERROR_SUCCESS, [NUL], 1), sl_ex_mem) ∧
  VmDirStringListFromMultiString [NUL] 0 sl_ex_mem = None.
Proof.
  apply (stringlist_defects sl_ex_mem sl_ex_mem (STRLIST [NULL; NULL; NULL; NULL; NULL] 0 4) 0).
  - split; [done |]. split; [done |]. split; done.
  - done.
  - exact sl_ex_wf.
  - done.
Defined.
