(* ===== verification/CString.v ===== *)
(** * CString: [vmdir/common/string.c]

    C strings as byte lists without the terminator, the parts of the C library
    the code calls ([strtok_r], [strstr], [strncmp], [strtoll] and its
    siblings, the decimal conversions of [printf]), and the string functions of
    the directory on top of them.  Allocation succeeds in this file: the code
    only forwards its error.  A [VMDIR_STRING_LIST] is the list of its strings,
    which [StringList] justifies. *)

From Stdlib Require Export Ascii.
From S2P Require Import Prelude Heap StringList.

Open Scope Z_scope.

(** ** The C library *)

Definition byte (c : ascii) : Z := Z.of_N (N_of_ascii c).

(** [tolower] in the C locale. *)
Definition tolower (c : ascii) : Z :=
  if (65 <=? byte c) && (byte c <=? 90) then byte c + 32 else byte c.

(** [strncmp]/[strncasecmp] through a key of each byte; the terminator is 0. *)
Fixpoint strncmp_by (key : ascii → Z) (n : nat) (a b : cstr) : Z :=
  match n with
  | O => 0
  | S n =>
      match a, b with
      | [], [] => 0
      | [], c :: _ => - key c
      | c :: _, [] => key c
      | c :: a, d :: b => if key c =? key d then strncmp_by key n a b else key c - key d
      end
  end.

Fixpoint is_prefix (p s : cstr) : bool :=
  match p, s with
  | [], _ => true
  | c :: p, d :: s => bool_decide (c = d) && is_prefix p s
  | _, [] => false
  end.

(** [strstr]: the offset of the first occurrence. *)
Fixpoint strstr (s p : cstr) : option nat :=
  if is_prefix p s then Some 0%nat
  else match s with [] => None | _ :: s' => S <$> strstr s' p end.

(** [strtok_r]: skip delimiters, then cut at the next one. *)
Definition is_delim (d : cstr) (c : ascii) : bool := bool_decide (c ∈ d).

Fixpoint skip_delims (d s : cstr) : cstr :=
  match s with
  | [] => []
  | c :: s' => if is_delim d c then skip_delims d s' else s
  end.

Fixpoint cut_token (d s : cstr) : cstr * cstr :=
  match s with
  | [] => ([], [])
  | c :: s' => if is_delim d c then ([], s') else let (t, r) := cut_token d s' in (c :: t, r)
  end.

(** The token and the saved rest. *)
Definition VmDirStringTokA (s d : cstr) : option (cstr * cstr) :=
  match skip_delims d s with [] => None | s' => Some (cut_token d s') end.

(** Decimal conversions. *)
Definition is_space (c : ascii) : bool :=
  (byte c =? 32) || ((9 <=? byte c) && (byte c <=? 13)).
Definition is_digit (c : ascii) : bool := (48 <=? byte c) && (byte c <=? 57).

Fixpoint read_digits (acc : Z) (s : cstr) : Z :=
  match s with
  | c :: s' => if is_digit c then read_digits (acc * 10 + (byte c - 48)) s' else acc
  | [] => acc
  end.

(** Sign and magnitude after leading white space. *)
Fixpoint skip_spaces (s : cstr) : cstr :=
  match s with
  | [] => []
  | c :: s' => if is_space c then skip_spaces s' else s
  end.

Definition read_signed (s : cstr) : bool * Z :=
  match skip_spaces s with
  | c :: s' =>
      if byte c =? 45 then (true, read_digits 0 s')
      else if byte c =? 43 then (false, read_digits 0 s')
      else (false, read_digits 0 (c :: s'))
  | [] => (false, 0)
  end.

(** [strtoll] (and [strtol], [long] having 64 bits): value and whether [errno]
    is set.  A string without digits converts to 0 and leaves [errno]. *)
Definition strtoll (s : cstr) : Z * bool :=
  let (neg, n) := read_signed s in
  if neg then if n <=? 2 ^ 63 then (- n, false) else (- 2 ^ 63, true)
  else if n <? 2 ^ 63 then (n, false) else (2 ^ 63 - 1, true).

(** [strtoull] (and [strtoul]): a minus sign negates modulo 2^64. *)
Definition strtoull (s : cstr) : Z * bool :=
  let (neg, n) := read_signed s in
  if n <? 2 ^ 64 then (if neg then u64 (- n) else n, false) else (2 ^ 64 - 1, true).

(** [%u]: decimal digits, most significant first. *)
Definition digit_char (d : Z) : ascii := ascii_of_N (Z.to_N (48 + d)).

Fixpoint print_digits (fuel : nat) (n : Z) : cstr :=
  match fuel with
  | O => []
  | S f => (if n <? 10 then [] else print_digits f (n / 10)) ++ [digit_char (n mod 10)]
  end.

(** Twenty digits are enough for 64 bits. *)
Definition print_u (n : Z) : cstr := print_digits 20 n.
Definition print_d (n : Z) : cstr :=
  if n <? 0 then "-"%char :: print_u (- n) else print_u n.

(** [vsnprintf] of an already formatted text into [n] bytes. *)
Definition snprintf (n : Z) (s : cstr) : cstr := take (Z.to_nat (n - 1)) s.

(** ** The string functions *)

(** [LwRtlCStringCompare] of the runtime library: zero on equal strings, up to
    ASCII case when the comparison is caseless. *)
Class CStringCompare (compare : cstr → cstr → bool → Z) : Prop := {
  compare_sensitive a b : compare a b true = 0 ↔ a = b;
  compare_caseless a b : compare a b false = 0 ↔ map tolower a = map tolower b
}.

Definition IsNullOrEmptyString (s : option cstr) : bool :=
  match s with None => true | Some [] => true | Some _ => false end.

Definition VmDirStringNCompareA (a b : cstr) (n : nat) (bIsCaseSensitive : bool) : Z :=
  if bIsCaseSensitive then strncmp_by byte n a b else strncmp_by tolower n a b.

Definition VmDirStringStartsWith (pszStr pszPrefix : option cstr) (bIsCaseSensitive : bool) : bool :=
  if IsNullOrEmptyString pszPrefix then true
  else match pszStr, pszPrefix with
       | Some s, Some p =>
           if IsNullOrEmptyString (Some s) then false
           else if (length p <=? length s)%nat
           then VmDirStringNCompareA s p (length p) bIsCaseSensitive =? 0
           else false
       | _, _ => false
       end.

Definition VmDirStringEndsWith (compare : cstr → cstr → bool → Z)
    (pszStr pszSuffix : option cstr) (bIsCaseSensitive : bool) : bool :=
  if IsNullOrEmptyString pszSuffix then true
  else match pszStr, pszSuffix with
       | Some s, Some x =>
           if IsNullOrEmptyString (Some s) then false
           else if (length x <=? length s)%nat
           then compare (drop (length s - length x) s) x bIsCaseSensitive =? 0
           else false
       | _, _ => false
       end.

(** The offset of the first caseless occurrence. *)
Fixpoint caseless_loop (s p : cstr) : option nat :=
  if strncmp_by tolower (length p) s p =? 0 then Some 0%nat
  else match s with
       | [] => None
       | _ :: [] => None
       | _ :: s' => S <$> caseless_loop s' p
       end.

Definition VmDirCaselessStrStrA (a b : option cstr) : option nat :=
  match a, b with
  | Some s, Some p =>
      if IsNullOrEmptyString a || IsNullOrEmptyString b then None else caseless_loop s p
  | _, _ => None
  end.

(** [VmDirStringPrintFA] of a formatted text: truncation is not an error. *)
Definition VmDirStringPrintFA (destinationSize : Z) (text : cstr) : dwerror * cstr :=
  (ERROR_SUCCESS, snprintf destinationSize text).

(** The loop of [VmDirStringReplaceAll]: the copied text after each step. *)
Fixpoint replace_loop (fuel : nat) (cur patn rplc dst : cstr) : cstr :=
  match fuel with
  | O => dst
  | S f =>
      match strstr cur patn with
      | Some toklen =>
          replace_loop f (drop (toklen + length patn) cur) patn rplc (dst ++ take toklen cur ++ rplc)
      | None => dst ++ cur
      end
  end.

Definition VmDirStringReplaceAll (pszSrc pszPatn pszRplc : option cstr) : dwerror * option cstr :=
  match pszSrc, pszPatn, pszRplc with
  | Some s, Some p, Some r =>
      if IsNullOrEmptyString pszSrc || IsNullOrEmptyString pszPatn || IsNullOrEmptyString pszRplc
      then (VMDIR_ERROR_INVALID_PARAMETER, None)
      else (ERROR_SUCCESS, Some (replace_loop (S (length s)) s p r []))
  | _, _, _ => (VMDIR_ERROR_INVALID_PARAMETER, None)
  end.

(** [VMDIR_ASCII_SPACE]. *)
Definition VMDIR_ASCII_SPACE (c : ascii) : bool := (byte c =? 32) || (byte c =? 9) || (byte c =? 10) || (byte c =? 13).

(** The three loops of [VmDirStringTrimSpace]. *)
Fixpoint trim_start (s : cstr) : nat :=
  match s with
  | c :: s' => if VMDIR_ASCII_SPACE c then S (trim_start s') else 0%nat
  | [] => 0%nat
  end.

Fixpoint trim_end (s : cstr) (e : nat) : nat :=
  match e with
  | O => 0%nat
  | S e' => match s !! e with
            | Some c => if VMDIR_ASCII_SPACE c then trim_end s e' else e
            | None => e
            end
  end.

(** [for (i = start; i <= end; i++, j++) pszStr[j] = pszStr[i]]: [n] steps. *)
Fixpoint copy_down (n : nat) (s : cstr) (i j : nat) : cstr :=
  match n with
  | O => s
  | S n => copy_down n (match s !! i with Some c => <[j := c]> s | None => s end) (i + 1) (j + 1)
  end.

Definition VmDirStringTrimSpace (s : cstr) : cstr :=
  match s with
  | [] => []
  | _ =>
      let start := trim_start s in
      let e := trim_end s (length s - 1) in
      let n := (e + 1 - start)%nat in
      take n (copy_down n s start 0)
  end.

(** The loop of [VmdDirNormalizeString], in place. *)
Fixpoint normalize_loop (n : nat) (s : cstr) (i j : nat) : cstr * nat :=
  match n with
  | O => (s, j)
  | S n =>
      match s !! i with
      | None => (s, j)
      | Some c =>
          let prev_space := match i with
                            | O => true
                            | S i' => match s !! i' with Some d => VMDIR_ASCII_SPACE d | None => false end
                            end in
          if VMDIR_ASCII_SPACE c && prev_space then normalize_loop n s (i + 1) j
          else normalize_loop n (<[j := c]> s) (i + 1) (j + 1)
      end
  end.

Definition VmdDirNormalizeString (s : cstr) : cstr :=
  let (s', j) := normalize_loop (length s) s 0 0 in
  match j with
  | O => []
  | S j' => match s' !! j' with
            | Some c => if VMDIR_ASCII_SPACE c then take j' s' else take j s'
            | None => take j s'
            end
  end.

(** The loop of [VmDirStringToTokenList]. *)
Fixpoint token_loop (fuel : nat) (s d : cstr) : list cstr :=
  match fuel with
  | O => []
  | S f => match VmDirStringTokA s d with
           | Some (t, r) => t :: token_loop f r d
           | None => []
           end
  end.

Definition VmDirStringToTokenList (pszStr pszDelimiter : option cstr) : dwerror * option (list cstr) :=
  match pszStr, pszDelimiter with
  | Some s, Some d =>
      if IsNullOrEmptyString pszStr || IsNullOrEmptyString pszDelimiter
      then (VMDIR_ERROR_INVALID_PARAMETER, None)
      else (ERROR_SUCCESS, Some (token_loop (S (length s)) s d))
  | _, _ => (VMDIR_ERROR_INVALID_PARAMETER, None)
  end.

(** The loop of [VmDirStringToTokenListExt]. *)
Fixpoint token_ext_loop (fuel : nat) (s d : cstr) : list cstr :=
  match fuel with
  | O => []
  | S f => match strstr s d with
           | Some i => take i s :: token_ext_loop f (drop (i + length d) s) d
           | None => [s]
           end
  end.

Definition VmDirStringToTokenListExt (pszStr pszDelimiter : option cstr) : dwerror * option (list cstr) :=
  match pszStr, pszDelimiter with
  | Some s, Some d =>
      if IsNullOrEmptyString pszStr || IsNullOrEmptyString pszDelimiter
      then (VMDIR_ERROR_INVALID_PARAMETER, None)
      else (ERROR_SUCCESS, Some (token_ext_loop (S (length s)) s d))
  | _, _ => (VMDIR_ERROR_INVALID_PARAMETER, None)
  end.

(** The two loops of [VmDirTokenListToString]: the 32-bit length, and the
    copies.  [None]: the copies do not fit the block that was allocated. *)
Fixpoint join_length (ts : list cstr) (d : cstr) (n : Z) : Z :=
  match ts with
  | [] => n
  | [t] => u32 (n + Z.of_nat (length t))
  | t :: ts => join_length ts d (u32 (u32 (n + Z.of_nat (length t)) + Z.of_nat (length d)))
  end.

Fixpoint join (ts : list cstr) (d : cstr) : cstr :=
  match ts with
  | [] => []
  | [t] => t
  | t :: ts => t ++ d ++ join ts d
  end.

Definition VmDirTokenListToString (pStrList : option (list cstr)) (pszDelimiter : option cstr)
  : option (dwerror * option cstr) :=
  match pStrList, pszDelimiter with
  | Some ts, Some d =>
      let block := u32 (join_length ts d 0 + 1) in
      if Z.of_nat (length (join ts d)) + 1 <=? block then Some (ERROR_SUCCESS, Some (join ts d)) else None
  | _, _ => Some (ERROR_INVALID_PARAMETER, None)
  end.

(** The value is only written on success. *)
Definition VmDirStringToINT32 (s : option cstr) : dwerror * Z :=
  match s with
  | Some s => let (v, errno) := strtoll s in
              if errno then (VMDIR_ERROR_INVALID_PARAMETER, 0) else (ERROR_SUCCESS, s32 v)
  | None => (VMDIR_ERROR_INVALID_PARAMETER, 0)
  end.

Definition VmDirStringToUINT32 (s : option cstr) : dwerror * Z :=
  match s with
  | Some s => let (v, errno) := strtoull s in
              if errno then (VMDIR_ERROR_INVALID_PARAMETER, 0) else (ERROR_SUCCESS, u32 v)
  | None => (VMDIR_ERROR_INVALID_PARAMETER, 0)
  end.

Definition VmDirStringToINT64 (s : option cstr) : dwerror * Z :=
  match s with
  | Some s => let (v, errno) := strtoll s in
              if errno then (VMDIR_ERROR_INVALID_PARAMETER, 0) else (ERROR_SUCCESS, v)
  | None => (VMDIR_ERROR_INVALID_PARAMETER, 0)
  end.

Definition VmDirStringToUINT64 (s : option cstr) : dwerror * Z :=
  match s with
  | Some s => let (v, errno) := strtoull s in
              if errno then (VMDIR_ERROR_INVALID_PARAMETER, 0) else (ERROR_SUCCESS, v)
  | None => (VMDIR_ERROR_INVALID_PARAMETER, 0)
  end.

(** ** Numbers *)

Section Numbers.

Lemma byte_range c : 0 <= byte c < 256.
Proof. unfold byte. pose proof (N_ascii_bounded c). lia. Qed.

Lemma byte_digit d : 0 <= d < 10 → byte (digit_char d) = 48 + d.
Proof.
  intros Hd. unfold byte, digit_char. rewrite N_ascii_embedding by lia. lia.
Qed.

Definition digits (s : cstr) : Prop := Forall (λ c, is_digit c = true) s.

Lemma digit_char_digit d : 0 <= d < 10 → is_digit (digit_char d) = true.
Proof. intros Hd. unfold is_digit. rewrite byte_digit by done. lia. Qed.

Lemma read_digits_app acc s t : digits s → read_digits acc (s ++ t) = read_digits (read_digits acc s) t.
Proof. intros Hs. revert acc. induction Hs as [|c s Hc Hs IH]; intros acc; cbn; [done |]. by rewrite Hc. Qed.

Lemma print_digits_spec f n :
  0 <= n < 10 ^ Z.of_nat f → (0 < f)%nat →
  digits (print_digits f n) ∧ print_digits f n ≠ [] ∧
  read_digits 0 (print_digits f n) = n.
Proof.
  revert n. induction f as [|f IH]; intros n Hn Hf; [lia |]. cbn [print_digits].
  pose proof (Z.mod_pos_bound n 10 ltac:(lia)) as Hm.
  destruct (Z.ltb_spec n 10) as [Hlt | Hge].
  - cbn. rewrite digit_char_digit by done. rewrite byte_digit, Z.mod_small by lia.
    split; [repeat constructor; rewrite Z.mod_small in Hm by lia; by apply digit_char_digit |]. split; [done | lia].
  - rewrite Nat2Z.inj_succ, Z.pow_succ_r in Hn by lia.
    assert (0 <= n / 10 < 10 ^ Z.of_nat f) as Hq.
    { split; [apply Z.div_pos; lia |]. apply Z.div_lt_upper_bound; lia. }
    destruct f as [|f']; [cbn in Hq; assert (1 <= n / 10) by (apply Z.div_le_lower_bound; lia); lia |].
    destruct (IH (n / 10) Hq) as (Hd & Hne & Hr); [lia |].
    split; [| split].
    + apply Forall_app. split; [done |]. repeat constructor. by apply digit_char_digit.
    + by intros [? _]%app_nil.
    + rewrite read_digits_app by done. rewrite Hr. cbn [read_digits].
      rewrite digit_char_digit, byte_digit by done.
      rewrite (Z.div_mod n 10) at 3 by lia. lia.
Qed.

Lemma print_u_spec n :
  is_u64 n → digits (print_u n) ∧ print_u n ≠ [] ∧ read_digits 0 (print_u n) = n.
Proof. intros Hn. apply print_digits_spec; [| lia]. unfold is_u64 in Hn. cbn. lia. Qed.

Lemma digit_not_space c : is_digit c = true → is_space c = false ∧ byte c ≠ 45 ∧ byte c ≠ 43.
Proof. unfold is_digit, is_space. lia. Qed.

Lemma read_signed_print n :
  is_u64 n → read_signed (print_u n) = (false, n) ∧ read_signed ("-"%char :: print_u n) = (true, n).
Proof.
  intros Hn. destruct (print_u_spec n Hn) as (Hd & Hne & Hr). split.
  - unfold read_signed. destruct (print_u n) as [|c s]; [done |]. apply Forall_cons in Hd as [Hc _].
    destruct (digit_not_space c Hc) as (Hs & H1 & H2). cbn [skip_spaces]. rewrite Hs.
    rewrite (proj2 (Z.eqb_neq _ _) H1), (proj2 (Z.eqb_neq _ _) H2). by rewrite Hr.
  - unfold read_signed. cbn [skip_spaces].
    change (is_space "-"%char) with false. cbv iota. change (byte "-"%char =? 45) with true.
    cbv iota.
    by rewrite Hr.
Qed.

Lemma strtoll_print n : is_s64 n → strtoll (print_d n) = (n, false).
Proof.
  intros Hn. unfold is_s64 in Hn. unfold strtoll, print_d.
  destruct (Z.ltb_spec n 0).
  - rewrite (proj2 (read_signed_print (- n) ltac:(unfold is_u64; lia))).
    destruct (Z.leb_spec (- n) (2 ^ 63)); [| lia]. f_equal. lia.
  - rewrite (proj1 (read_signed_print n ltac:(unfold is_u64; lia))).
    by destruct (Z.ltb_spec n (2 ^ 63)); [| lia].
Qed.

Lemma strtoull_print_u n : is_u64 n → strtoull (print_u n) = (n, false).
Proof.
  intros Hn. unfold strtoull. rewrite (proj1 (read_signed_print n Hn)).
  destruct Hn. by destruct (Z.ltb_spec n (2 ^ 64)); [| lia].
Qed.

(** An unsigned value printed as signed reads back as itself. *)
Lemma strtoull_print_d n : is_u64 n → strtoull (print_d (s64 n)) = (n, false).
Proof.
  intros Hn. pose proof (u64_s64 n Hn) as Hw. unfold strtoull, print_d.
  assert (- 2 ^ 63 <= s64 n < 2 ^ 63) as Hs.
  { unfold s64. pose proof (Z.mod_pos_bound n (2 ^ 64) ltac:(lia)).
    destruct (Z.ltb_spec (n mod 2 ^ 64) (2 ^ 63)); lia. }
  destruct (Z.ltb_spec (s64 n) 0).
  - rewrite (proj2 (read_signed_print (- s64 n) ltac:(unfold is_u64; lia))).
    destruct (Z.ltb_spec (- s64 n) (2 ^ 64)); [| lia]. f_equal. by rewrite Z.opp_involutive.
  - rewrite (proj1 (read_signed_print (s64 n) ltac:(unfold is_u64; lia))).
    destruct (Z.ltb_spec (s64 n) (2 ^ 64)); [| lia]. f_equal.
    transitivity (u64 (s64 n)); [symmetry; apply u64_id; unfold is_u64; lia | done].
Qed.

(** Every decimal conversion of the server reads back what [printf] wrote:
    signed and unsigned 64-bit and 32-bit values, and also an unsigned 64-bit
    value that was printed with the signed conversion, as the metadata code
    does. *)
Theorem number_roundtrip n :
  (is_s64 n → VmDirStringToINT64 (Some (print_d n)) = (ERROR_SUCCESS, n)) ∧
  (is_u64 n → VmDirStringToUINT64 (Some (print_u n)) = (ERROR_SUCCESS, n)) ∧
  (is_u64 n → VmDirStringToUINT64 (Some (print_d (s64 n))) = (ERROR_SUCCESS, n)) ∧
  (- 2 ^ 31 <= n < 2 ^ 31 → VmDirStringToINT32 (Some (print_d n)) = (ERROR_SUCCESS, n)) ∧
  (is_u32 n → VmDirStringToUINT32 (Some (print_u n)) = (ERROR_SUCCESS, n)).
Proof.
  split; [| split; [| split; [| split]]]; intros Hn; unfold VmDirStringToINT64, VmDirStringToUINT64, VmDirStringToINT32, VmDirStringToUINT32.
  - by rewrite strtoll_print.
  - by rewrite strtoull_print_u.
  - by rewrite strtoull_print_d.
  - rewrite strtoll_print by (unfold is_s64; lia). f_equal. unfold s32.
    destruct (Z.ltb_spec (n mod 2 ^ 32) (2 ^ 31)).
    + destruct (Z.le_gt_cases 0 n); [apply Z.mod_small; lia |].
      rewrite <- (Z.mod_unique n (2 ^ 32) (-1) (n + 2 ^ 32)) in H by lia. lia.
    + destruct (Z.le_gt_cases 0 n); [rewrite Z.mod_small in H by lia; lia |].
      rewrite <- (Z.mod_unique n (2 ^ 32) (-1) (n + 2 ^ 32)) by lia. lia.
  - rewrite strtoull_print_u by (unfold is_u64; unfold is_u32 in Hn; lia). by rewrite u32_id.
Qed.

End Numbers.

Lemma number_roundtrip_witness :
  VmDirStringToUINT64 (Some (print_d (s64 18446744073709551615))) =
    (ERROR_SUCCESS, 18446744073709551615) ∧
  print_d (s64 18446744073709551615) = ["-"%char; "1"%char].
Proof.
  split; [| reflexivity].
  apply (proj1 (proj2 (proj2 (number_roundtrip 18446744073709551615)))). done.
Defined.

(** ** Tokens *)

Section Tokens.
Implicit Types (s t d : cstr) (ts : list cstr).

(** A token [strtok_r] can return: not empty, without delimiters. *)
Definition clean d t : Prop := t ≠ [] ∧ Forall (λ c, is_delim d c = false) t.

Lemma skip_clean d t s : clean d t → skip_delims d (t ++ s) = t ++ s.
Proof. intros [Hne Hf]. destruct t as [|c t]; [done |]. apply Forall_cons in Hf as [Hc _]. cbn. by rewrite Hc. Qed.

Lemma cut_clean d t c r :
  Forall (λ c, is_delim d c = false) t → is_delim d c = true → cut_token d (t ++ c :: r) = (t, r).
Proof. intros Ht Hc. induction Ht as [|x t Hx Ht IH]; cbn; [by rewrite Hc |]. by rewrite Hx, IH. Qed.

Lemma cut_clean_end d t : Forall (λ c, is_delim d c = false) t → cut_token d t = (t, []).
Proof. intros Ht. induction Ht as [|x t Hx Ht IH]; cbn; [done |]. by rewrite Hx, IH. Qed.

Lemma tok_clean d t c r :
  clean d t → is_delim d c = true → VmDirStringTokA (t ++ c :: r) d = Some (t, r).
Proof.
  intros Ht Hc. unfold VmDirStringTokA. rewrite skip_clean by done.
  destruct Ht as [Hne Hf]. rewrite <- (cut_clean d t c r Hf Hc). by destruct t.
Qed.

Lemma tok_clean_end d t : clean d t → VmDirStringTokA t d = Some (t, []).
Proof.
  intros Ht. unfold VmDirStringTokA. rewrite <- (app_nil_r t) at 1. rewrite skip_clean, app_nil_r by done.
  destruct Ht as [Hne Hf]. destruct t; [done |]. by rewrite cut_clean_end.
Qed.

Lemma join_cons t ts d : ts ≠ [] → join (t :: ts) d = t ++ d ++ join ts d.
Proof. by destruct ts. Qed.

Lemma token_loop_join fuel c ts :
  (length ts < fuel)%nat → Forall (clean [c]) ts → token_loop fuel (join ts [c]) [c] = ts.
Proof.
  intros Hf Hts. revert fuel Hf. induction Hts as [|t ts Ht Hts IH]; intros fuel Hf.
  { by destruct fuel. }
  destruct fuel as [|fuel]; [lia |]. cbn [token_loop length] in *.
  destruct (decide (ts = [])) as [-> | Hne].
  - cbn [join]. rewrite tok_clean_end by done. by destruct fuel.
  - rewrite join_cons by done. cbn [app].
    assert (is_delim [c] c = true) as Hc by (apply bool_decide_eq_true; left).
    rewrite tok_clean by done. f_equal. apply IH. lia.
Qed.

Lemma join_clean_length c ts : Forall (clean [c]) ts → (length ts <= length (join ts [c]))%nat.
Proof.
  intros Hts. induction Hts as [|t ts [Ht _] Hts IH]; [done |].
  destruct (decide (ts = [])) as [-> | Hne]; [destruct t; cbn; [done | lia] |].
  rewrite join_cons, !length_app by done. cbn. lia.
Qed.

Lemma token_list_join c ts :
  ts ≠ [] → Forall (clean [c]) ts →
  VmDirStringToTokenList (Some (join ts [c])) (Some [c]) = (ERROR_SUCCESS, Some ts).
Proof.
  intros Hne Hts. unfold VmDirStringToTokenList.
  pose proof (join_clean_length c ts Hts) as Hlen.
  destruct (join ts [c]) as [|x s] eqn:Hj; [destruct ts; cbn in *; [done | lia] |].
  cbn [IsNullOrEmptyString orb]. rewrite <- Hj. rewrite token_loop_join; [done | | done].
  rewrite Hj. lia.
Qed.

(** Splitting at a delimiter with [VmDirStringToTokenList] inverts joining
    with it, for tokens that are not empty and do not contain it (the function
    drops empty tokens). *)
Theorem token_list_roundtrip c ts :
  ts ≠ [] → Forall (clean [c]) ts →
  VmDirStringToTokenList (Some (join ts [c])) (Some [c]) = (ERROR_SUCCESS, Some ts).
Proof. apply token_list_join. Qed.

Lemma is_prefix_spec p s : is_prefix p s = true ↔ ∃ r, s = p ++ r.
Proof.
  revert s. induction p as [|c p IH]; intros s; cbn [is_prefix]; [by split; eauto |].
  destruct s as [|x s]; [split; [intros [=] | intros [r [=]]] |].
  rewrite andb_true_iff, bool_decide_eq_true, IH. split.
  - intros [-> [r ->]]. by exists r.
  - intros [r [= -> ->]]. eauto.
Qed.

Lemma strstr_Some s p i :
  strstr s p = Some i → s = take i s ++ p ++ drop (i + length p) s ∧ (i + length p <= length s)%nat.
Proof.
  revert i. induction s as [|c s IH]; intros i; cbn.
  - destruct (is_prefix p []) eqn:Hp; [| done]. intros [= <-]. apply is_prefix_spec in Hp as [r Hr].
    symmetry in Hr. apply app_nil in Hr as [-> ->]. split; [done | cbn; lia].
  - destruct (is_prefix p (c :: s)) eqn:Hp.
    + intros [= <-]. apply is_prefix_spec in Hp as [r Hr]. 
      pose proof (f_equal length Hr) as Hlen. rewrite length_app in Hlen. cbn in Hlen.
      split; [| cbn; lia]. cbn [take app Nat.add]. by rewrite Hr, drop_app_length.
    + destruct (strstr s p) as [j|] eqn:Hj; [| done]. intros [= <-]. destruct (IH j eq_refl) as [He Hl].
      cbn. split; [by f_equal | lia].
Qed.

Lemma token_ext_nonnil f s d : (0 < f)%nat → token_ext_loop f s d ≠ [].
Proof. destruct f; [lia |]. intros _. cbn. by destruct (strstr s d). Qed.

Lemma replace_loop_spec f s p r dst :
  (length s < f)%nat → p ≠ [] → replace_loop f s p r dst = dst ++ join (token_ext_loop f s p) r.
Proof.
  intros Hf Hp. assert (0 < length p)%nat by (destruct p; [done | cbn; lia]).
  revert s dst Hf. induction f as [|f IH]; intros s dst Hf; [lia |]. cbn [replace_loop token_ext_loop].
  destruct (strstr s p) as [i|] eqn:Hi; [| done]. apply strstr_Some in Hi as [_ Hl].
  rewrite join_cons by (apply token_ext_nonnil; lia).
  rewrite IH by (rewrite length_drop; lia). by rewrite <- !app_assoc.
Qed.

Lemma join_token_ext f s d :
  (length s < f)%nat → d ≠ [] → join (token_ext_loop f s d) d = s.
Proof.
  intros Hf Hp. assert (0 < length d)%nat by (destruct d; [done | cbn; lia]).
  revert s Hf. induction f as [|f IH]; intros s Hf; [lia |]. cbn [token_ext_loop].
  destruct (strstr s d) as [i|] eqn:Hi; [| done]. apply strstr_Some in Hi as [He Hl].
  rewrite join_cons by (apply token_ext_nonnil; lia).
  rewrite IH by (rewrite length_drop; lia). by symmetry.
Qed.

Lemma join_length_spec ts d n :
  0 <= n → n + Z.of_nat (length (join ts d)) < 2 ^ 32 →
  join_length ts d n = n + Z.of_nat (length (join ts d)).
Proof.
  revert n. induction ts as [|t ts IH]; intros n Hn Hlt; [cbn; lia |].
  destruct ts as [|t2 ts]; [cbn in *; apply u32_id; unfold is_u32; lia |].
  rewrite join_cons in * by done. rewrite !length_app in *.
  change (join_length (t :: t2 :: ts) d n) with
    (join_length (t2 :: ts) d (u32 (u32 (n + Z.of_nat (length t)) + Z.of_nat (length d)))).
  rewrite (u32_id (n + _)), u32_id by (unfold is_u32; lia). rewrite IH by lia. lia.
Qed.

Lemma token_list_to_string ts d :
  Z.of_nat (length (join ts d)) + 1 < 2 ^ 32 →
  VmDirTokenListToString (Some ts) (Some d) = Some (ERROR_SUCCESS, Some (join ts d)).
Proof.
  intros Hlt. unfold VmDirTokenListToString. rewrite join_length_spec, Z.add_0_l by lia.
  rewrite u32_id by (unfold is_u32; lia). by rewrite Z.leb_refl.
Qed.

(** Splitting with [VmDirStringToTokenListExt] (which keeps empty tokens)
    and joining again gives back the string, for every string and every
    delimiter; [VmDirStringReplaceAll] is the same split joined with the
    replacement. *)
Theorem token_ext_roundtrip s d r ts :
  s ≠ [] → d ≠ [] → r ≠ [] →
  VmDirStringToTokenListExt (Some s) (Some d) = (ERROR_SUCCESS, Some ts) →
  Z.of_nat (length s) + 1 < 2 ^ 32 → Z.of_nat (length (join ts r)) + 1 < 2 ^ 32 →
  VmDirTokenListToString (Some ts) (Some d) = Some (ERROR_SUCCESS, Some s) ∧
  VmDirTokenListToString (Some ts) (Some r) = Some (VmDirStringReplaceAll (Some s) (Some d) (Some r)).
Proof.
  intros Hs Hd Hr Hts Hl1 Hl2. unfold VmDirStringToTokenListExt in Hts.
  destruct s as [|c s]; [done |]. destruct d as [|x d]; [done |]. cbn [IsNullOrEmptyString orb] in Hts.
  assert (ts = token_ext_loop (S (length (c :: s))) (c :: s) (x :: d)) as -> by congruence. clear Hts.
  split.
  - rewrite token_list_to_string; rewrite join_token_ext by (done || lia); done.
  - rewrite token_list_to_string by done. unfold VmDirStringReplaceAll.
    destruct r as [|y r]; [done |]. cbn [IsNullOrEmptyString orb].
    by rewrite replace_loop_spec by (done || lia).
Qed.

End Tokens.

Lemma token_list_roundtrip_witness :
  VmDirStringToTokenList (Some ["a"; ":"; "b"; "c"]%char) (Some [":"%char]) =
    (ERROR_SUCCESS, Some [["a"]; ["b"; "c"]]%char).
Proof.
  apply (token_list_roundtrip ":"%char [["a"]; ["b"; "c"]]%char); [done |].
  repeat constructor; done.
Defined.

Lemma token_ext_roundtrip_witness :
  VmDirTokenListToString (Some [["a"]; []; ["b"]]%char) (Some [":"%char]) =
    Some (ERROR_SUCCESS, Some ["a"; ":"; ":"; "b"]%char) ∧
  VmDirTokenListToString (Some [["a"]; []; ["b"]]%char) (Some ["-"%char]) =
    Some (VmDirStringReplaceAll (Some ["a"; ":"; ":"; "b"]%char) (Some [":"%char]) (Some ["-"%char])).
Proof.
  apply (token_ext_roundtrip ["a"; ":"; ":"; "b"]%char [":"%char] ["-"%char]); try done; reflexivity.
Defined.

(** ** Prefixes and suffixes *)

Section Affixes.
Implicit Types (s p : cstr).

Lemma byte_inj c d : byte c = byte d → c = d.
Proof.
  unfold byte. intros H%N2Z.inj. rewrite <- (ascii_N_embedding c), <- (ascii_N_embedding d). by f_equal.
Qed.

Lemma map_byte_inj s p : map byte s = map byte p → s = p.
Proof.
  revert p. induction s as [|c s IH]; intros [|d p]; cbn; try done.
  intros [= Hc Hs]. f_equal; [by apply byte_inj | by apply IH].
Qed.

Lemma strncmp_by_zero key s p :
  (length p <= length s)%nat →
  strncmp_by key (length p) s p = 0 ↔ map key (take (length p) s) = map key p.
Proof.
  revert s. induction p as [|d p IH]; intros s Hl; cbn; [done |].
  destruct s as [|c s]; cbn in *; [lia |]. destruct (Z.eqb_spec (key c) (key d)) as [He | Hne].
  - rewrite IH by lia. rewrite He. split; [by intros -> | by intros [= ->]].
  - split; [intros; lia | intros [= Hc _]; done].
Qed.

Definition key_of (bIsCaseSensitive : bool) : ascii → Z :=
  if bIsCaseSensitive then byte else tolower.

(** [VmDirStringStartsWith] and [VmDirStringEndsWith] decide the prefix and
    the suffix relation, up to ASCII case when the comparison is caseless. *)
Theorem affixes_decided compare s p cs :
  CStringCompare compare →
  (VmDirStringStartsWith (Some s) (Some p) cs = true ↔
     ∃ q r, s = q ++ r ∧ map (key_of cs) q = map (key_of cs) p) ∧
  (VmDirStringEndsWith compare (Some s) (Some p) cs = true ↔
     ∃ q r, s = r ++ q ∧ map (key_of cs) q = map (key_of cs) p).
Proof.
  intros Hcmp. destruct p as [|d p].
  { split; (split; [intros _ | done]).
    - by exists [], s.
    - exists [], s. by rewrite app_nil_r. }
  destruct s as [|c s].
  { split; (split; [done |]); intros (q & r & Hs & Hm); symmetry in Hs; apply app_nil in Hs as [Hq Hr];
      by subst. }
  unfold VmDirStringStartsWith, VmDirStringEndsWith, IsNullOrEmptyString.
  set (s1 := c :: s). set (p1 := d :: p).
  assert (∀ q, map (key_of cs) q = map (key_of cs) p1 → length q = length p1) as Hlen.
  { intros q Hm%(f_equal length). by rewrite !length_map in Hm. }
  split; destruct (Nat.leb_spec (length p1) (length s1)) as [Hle | Hgt].
  - rewrite Z.eqb_eq. unfold VmDirStringNCompareA.
    assert ((if cs then strncmp_by byte (length p1) s1 p1 else strncmp_by tolower (length p1) s1 p1) =
            strncmp_by (key_of cs) (length p1) s1 p1) as -> by by destruct cs.
    rewrite strncmp_by_zero by done. split.
    + intros Hm. exists (take (length p1) s1), (drop (length p1) s1). by rewrite take_drop.
    + intros (q & r & -> & Hm). by rewrite take_app_length' by (symmetry; by apply Hlen).
  - split; [done |]. intros (q & r & Hs & Hm). specialize (Hlen q Hm).
    apply (f_equal length) in Hs. rewrite length_app in Hs. lia.
  - rewrite Z.eqb_eq.
    assert (compare (drop (length s1 - length p1) s1) p1 cs = 0 ↔
            map (key_of cs) (drop (length s1 - length p1) s1) = map (key_of cs) p1) as ->.
    { destruct cs; cbn [key_of]; [| apply compare_caseless].
      rewrite compare_sensitive. split; [by intros -> | by apply map_byte_inj]. }
    split.
    + intros Hm. exists (drop (length s1 - length p1) s1), (take (length s1 - length p1) s1).
      by rewrite take_drop.
    + intros (q & r & Hs & Hm). specialize (Hlen q Hm). rewrite Hs, length_app.
      by rewrite drop_app_length' by lia.
  - split; [done |]. intros (q & r & Hs & Hm). specialize (Hlen q Hm).
    apply (f_equal length) in Hs. rewrite length_app in Hs. lia.
Qed.

End Affixes.

(** A comparison with the documented behaviour. *)
Definition simple_compare (a b : cstr) (cs : bool) : Z :=
  if bool_decide (map (key_of cs) a = map (key_of cs) b) then 0 else 1.

#[export] Instance simple_compare_ok : CStringCompare simple_compare.
Proof.
  split; intros a b; unfold simple_compare; case_bool_decide as H; cbn in H;
    (split; [try done | try done]); try (intros ->; done).
  intros _. by apply map_byte_inj.
Qed.

Lemma affixes_decided_witness :
  (VmDirStringStartsWith (Some ["C"; "n"; "="; "a"]%char) (Some ["c"; "N"]%char) false = true ↔
     ∃ q r, ["C"; "n"; "="; "a"]%char = q ++ r ∧
            map (key_of false) q = map (key_of false) ["c"; "N"]%char) ∧
  (VmDirStringEndsWith simple_compare (Some ["C"; "n"; "="; "a"]%char) (Some ["c"; "N"]%char) false = true ↔
     ∃ q r, ["C"; "n"; "="; "a"]%char = r ++ q ∧
            map (key_of false) q = map (key_of false) ["c"; "N"]%char).
Proof. apply (affixes_decided simple_compare). apply _. Defined.

(** ** White space *)

Section Spaces.
Implicit Types s t : cstr.
Abbreviation sp := VMDIR_ASCII_SPACE.

(** What the loop keeps of the rest of a string, given whether the byte before
    it is a space. *)
Fixpoint squeeze (prev : bool) s : cstr :=
  match s with
  | [] => []
  | c :: s' => if sp c && prev then squeeze (sp c) s' else c :: squeeze (sp c) s'
  end.

(** No leading space after [prev], no two spaces in a row. *)
Fixpoint norm_ok (prev : bool) s : bool :=
  match s with
  | [] => true
  | c :: s' => negb (sp c && prev) && norm_ok (sp c) s'
  end.

Definition normalized s : Prop :=
  norm_ok true s = true ∧ ∀ c, last s = Some c → sp c = false.

Definition prev_space s (i : nat) : bool :=
  match i with
  | O => true
  | S i' => match s !! i' with Some d => sp d | None => false end
  end.

Lemma normalize_loop_spec n s i j :
  (j <= i)%nat → (i + n = length s)%nat →
  let (s', j') := normalize_loop n s i j in
  let t := squeeze (prev_space s i) (drop i s) in
  take j' s' = take j s ++ t ∧ j' = (j + length t)%nat.
Proof.
  revert s i j. induction n as [|n IH]; intros s i j Hji Hn; cbn [normalize_loop].
  { rewrite drop_ge by lia. cbn. rewrite app_nil_r. split; [done | lia]. }
  destruct (lookup_lt_is_Some_2 s i) as [c Hc]; [lia |]. rewrite Hc.
  rewrite (drop_S s c i Hc). cbn [squeeze]. fold (prev_space s i).
  destruct (sp c && prev_space s i) eqn:Hskip.
  - specialize (IH s (i + 1)%nat j ltac:(lia) ltac:(lia)).
    rewrite Nat.add_1_r in *. cbn [prev_space] in IH. by rewrite Hc in IH.
  - specialize (IH (<[j := c]> s) (i + 1)%nat (j + 1)%nat ltac:(lia) ltac:(rewrite length_insert; lia)).
    rewrite !Nat.add_1_r in *. cbn [prev_space] in IH.
    assert (<[j := c]> s !! i = Some c) as Hci.
    { destruct (decide (i = j)) as [<- |]; [apply list_lookup_insert_eq; lia |].
      by rewrite list_lookup_insert_ne. }
    rewrite Hci, drop_insert_lt in IH by lia.
    destruct (normalize_loop n _ _ _) as [s' j']. destruct IH as [IH1 IH2]. split.
    + rewrite IH1. rewrite (take_S_r _ _ c) by (apply list_lookup_insert_eq; lia).
      rewrite take_insert_ge by lia. by rewrite <- app_assoc.
    + cbn [length]. lia.
Qed.

Lemma squeeze_ok prev s : norm_ok prev (squeeze prev s) = true.
Proof.
  revert prev. induction s as [|c s IH]; intros prev; cbn; [done |].
  destruct (sp c && prev) eqn:Hc; cbn.
  - apply andb_prop in Hc as [Hc ->]. rewrite Hc. rewrite <- Hc at 1. rewrite Hc. apply IH.
  - by rewrite Hc, IH.
Qed.

Lemma squeeze_id prev s : norm_ok prev s = true → squeeze prev s = s.
Proof.
  revert prev. induction s as [|c s IH]; intros prev; cbn; [done |].
  destruct (sp c && prev); cbn; [done |]. intros H. by rewrite IH.
Qed.

Lemma norm_ok_snoc prev s c :
  norm_ok prev (s ++ [c]) = true →
  norm_ok prev s = true ∧ (sp c = true → prev = true ∨ s ≠ [] → ∀ d, last s = Some d → sp d = false).
Proof.
  revert prev. induction s as [|x s IH]; intros prev; cbn; [done |].
  intros [Hx Hs]%andb_prop. destruct (IH _ Hs) as [H1 H2]. rewrite Hx. split; [done |].
  intros Hc _ d Hd. destruct s as [|y s].
  - injection Hd as <-. cbn in Hs. destruct (sp x); [| done]. by rewrite Hc in Hs.
  - apply (H2 Hc); [by right | done].
Qed.

Lemma squeeze_filter prev s :
  filter (λ c, sp c = false) (squeeze prev s) = filter (λ c, sp c = false) s.
Proof.
  revert prev. induction s as [|c s IH]; intros prev; cbn [squeeze]; [done |].
  destruct (sp c) eqn:Hc; cbn [andb].
  - rewrite (filter_cons_False _ c s) by (rewrite Hc; done).
    destruct prev; [apply IH |]. rewrite filter_cons_False by (rewrite Hc; done). apply IH.
  - rewrite !filter_cons_True by done. f_equal. apply IH.
Qed.

(** The function that the in-place code computes. *)
Definition norm_spec s : cstr :=
  let t := squeeze true s in
  match last t with Some c => if sp c then take (length t - 1) t else t | None => t end.

Lemma normalize_spec s : VmdDirNormalizeString s = norm_spec s.
Proof.
  unfold VmdDirNormalizeString, norm_spec.
  pose proof (normalize_loop_spec (length s) s 0 0 ltac:(lia) ltac:(lia)) as H.
  destruct (normalize_loop (length s) s 0 0) as [s' j]. cbn in H. rewrite drop_0 in H.
  destruct H as [Ht Hj]. set (t := squeeze true s) in *. clearbody t. subst j.
  destruct t as [|c t _] using rev_ind; [done |].
  rewrite last_snoc. rewrite length_app in *. cbn [length] in *. rewrite Nat.add_1_r in *.
  assert (s' !! length t = Some c) as Hlk.
  { rewrite <- (lookup_take_lt s' (S (length t))) by lia. rewrite Ht. by apply list_lookup_middle. }
  rewrite Hlk. destruct (sp c); [| done]. cbn. rewrite Nat.sub_0_r, take_app_length.
  replace (take (length t) s') with (take (length t) (take (S (length t)) s'))
    by (rewrite take_take; f_equal; lia).
  rewrite Ht. apply (take_app_length t [c]).
Qed.

Lemma norm_spec_normalized s : normalized (norm_spec s).
Proof.
  unfold norm_spec. pose proof (squeeze_ok true s) as Hok.
  set (t := squeeze true s) in *. clearbody t. destruct t as [|c t _] using rev_ind; [done |].
  rewrite last_snoc, length_app. cbn [length]. rewrite Nat.add_sub, take_app_length.
  destruct (norm_ok_snoc true t c Hok) as [H1 H2]. destruct (sp c) eqn:Hc.
  - split; [done |]. apply H2; [done | by left].
  - split; [done |]. intros d. rewrite last_snoc. congruence.
Qed.

(** The three parts of [VmDirStringTrimSpace]. *)
Lemma trim_start_spec s :
  Forall (λ c, sp c = true) (take (trim_start s) s) ∧
  (trim_start s <= length s)%nat ∧ ∀ c, s !! trim_start s = Some c → sp c = false.
Proof.
  induction s as [|c s (IH1 & IH2 & IH3)]; cbn; [split; [constructor | split; [lia | done]] |].
  destruct (sp c) eqn:Hc; cbn.
  - split; [by constructor |]. split; [lia | done].
  - split; [constructor |]. split; [lia |]. intros d [= <-]. done.
Qed.

Lemma trim_end_spec s e :
  (e < length s)%nat →
  (trim_end s e <= e)%nat ∧
  Forall (λ c, sp c = true) (drop (trim_end s e + 1) (take (e + 1) s)) ∧
  (trim_end s e = 0%nat ∨ ∃ c, s !! trim_end s e = Some c ∧ sp c = false).
Proof.
  induction e as [|e IH]; intros He; cbn [trim_end].
  { split; [lia |]. split; [| by left]. rewrite drop_ge; [constructor |]. rewrite length_take. lia. }
  destruct (lookup_lt_is_Some_2 s (S e)) as [c Hc]; [done |]. rewrite Hc.
  destruct (sp c) eqn:Hsp.
  - destruct IH as (H1 & H2 & H3); [lia |]. split; [lia |]. split; [| done].
    rewrite (Nat.add_1_r (S e)), (take_S_r _ _ c) by done. rewrite drop_app_le by (rewrite length_take; lia).
    rewrite (Nat.add_1_r e) in H2. apply Forall_app. split; [done | by repeat constructor].
  - split; [lia |]. split; [| by eauto]. rewrite drop_ge; [constructor |]. rewrite length_take. lia.
Qed.

Lemma copy_down_spec n s i j :
  (j <= i)%nat → (i + n <= length s)%nat →
  take (j + n) (copy_down n s i j) = take j s ++ take n (drop i s).
Proof.
  revert s i j. induction n as [|n IH]; intros s i j Hji Hn; cbn [copy_down].
  { by rewrite Nat.add_0_r, take_0, app_nil_r. }
  destruct (lookup_lt_is_Some_2 s i) as [c Hc]; [lia |]. rewrite Hc.
  replace (j + S n)%nat with (j + 1 + n)%nat by lia. rewrite IH by (rewrite ?length_insert; lia).
  rewrite !Nat.add_1_r, (take_S_r _ _ c) by (apply list_lookup_insert_eq; lia).
  rewrite take_insert_ge, drop_insert_lt by lia. rewrite (drop_S s c i Hc). cbn [take].
  by rewrite <- app_assoc.
Qed.

Lemma trim_spec s :
  ∃ a b, s = a ++ VmDirStringTrimSpace s ++ b ∧
     Forall (λ c, sp c = true) a ∧ Forall (λ c, sp c = true) b ∧
     (∀ c, head (VmDirStringTrimSpace s) = Some c → sp c = false) ∧
     (∀ c, last (VmDirStringTrimSpace s) = Some c → sp c = false).
Proof.
  destruct s as [|c0 s0]; [exists [], []; repeat split; done || constructor |].
  unfold VmDirStringTrimSpace. set (s := c0 :: s0).
  assert (0 < length s)%nat as Hpos by (cbn; lia). clearbody s.
  destruct (trim_start_spec s) as (Ha & Hlen & Hhd).
  destruct (trim_end_spec s (length s - 1)) as (He & Hb & Hend); [lia |].
  replace (length s - 1 + 1)%nat with (length s) in Hb by lia. rewrite take_ge in Hb by done.
  set (st := trim_start s) in *. set (e := trim_end s (length s - 1)) in *.
  destruct (decide (st <= e)%nat) as [Hle | Hgt].
  - pose proof (copy_down_spec (e + 1 - st) s st 0 ltac:(lia) ltac:(lia)) as Hcp. rewrite take_0 in Hcp. cbn [Nat.add app] in Hcp.
    rewrite Hcp. exists (take st s), (drop (e + 1) s). split; [| split; [done | split; [done | split]]].
    + replace (drop (e + 1) s) with (drop (e + 1 - st) (drop st s)) by (rewrite drop_drop; f_equal; lia).
      by rewrite !take_drop.
    + intros c Hc. apply Hhd. rewrite head_lookup, lookup_take_lt, lookup_drop, Nat.add_0_r in Hc by lia. done.
    + intros c Hc. rewrite last_lookup, length_take, length_drop in Hc.
      rewrite lookup_take_lt, lookup_drop in Hc by lia.
      replace (st + pred (min (e + 1 - st) (length s - st)))%nat with e in Hc by lia.
      destruct Hend as [H0 | (d & Hd & Hs)]; [| by simplify_eq].
      apply Hhd. by replace st with e by lia.
  - replace (e + 1 - st)%nat with 0%nat by lia. rewrite take_0. exists s, []. rewrite app_nil_r.
    split; [done |]. split; [| split; [constructor | by split]].
    rewrite <- (take_drop st s). apply Forall_app. split; [done |].
    replace (drop st s) with (drop (st - (e + 1)) (drop (e + 1) s)) by (rewrite drop_drop; f_equal; lia).
    by apply Forall_drop.
Qed.

(** [VmDirStringTrimSpace] removes exactly the leading and the trailing
    white space; [VmdDirNormalizeString] yields a string without leading,
    trailing or repeated white space, keeps every other byte in order, and
    leaves a string that is already normal unchanged.  Both work in place, and
    the index arithmetic of the loops is part of the model. *)
Theorem white_space_normal_forms s :
  (∃ a b, s = a ++ VmDirStringTrimSpace s ++ b ∧
     Forall (λ c, sp c = true) a ∧ Forall (λ c, sp c = true) b ∧
     (∀ c, head (VmDirStringTrimSpace s) = Some c → sp c = false) ∧
     (∀ c, last (VmDirStringTrimSpace s) = Some c → sp c = false)) ∧
  normalized (VmdDirNormalizeString s) ∧
  filter (λ c, sp c = false) (VmdDirNormalizeString s) = filter (λ c, sp c = false) s ∧
  (normalized s → VmdDirNormalizeString s = s).
Proof.
  split; [apply trim_spec |]. rewrite normalize_spec. split; [apply norm_spec_normalized |]. split.
  - unfold norm_spec. rewrite <- (squeeze_filter true s). set (t := squeeze true s). clearbody t.
    destruct t as [|c t _] using rev_ind; [done |].
    rewrite last_snoc, length_app. cbn [length]. rewrite Nat.add_sub, take_app_length.
    destruct (sp c) eqn:Hc; [| done]. rewrite filter_app, filter_cons_False by (rewrite Hc; done).
    by rewrite filter_nil, app_nil_r.
  - intros [Hok Hlast]. unfold norm_spec. rewrite squeeze_id by done.
    destruct (last s) as [c|] eqn:Hl; [| done]. by rewrite (Hlast c).
Qed.

End Spaces.

Lemma white_space_normal_forms_witness :
  VmDirStringTrimSpace [" "; "a"; " "; " "; "b"; " "]%char = ["a"; " "; " "; "b"]%char ∧
  VmdDirNormalizeString [" "; "a"; " "; " "; "b"; " "]%char = ["a"; " "; "b"]%char ∧
  VmdDirNormalizeString ["a"; " "; "b"]%char = ["a"; " "; "b"]%char.
Proof.
  split; [reflexivity |]. split; [reflexivity |].
  apply (proj2 (proj2 (proj2 (white_space_normal_forms ["a"; " "; "b"]%char)))).
  split; [reflexivity |]. intros c [= <-]. reflexivity.
Defined.
