(* ===== verification/HashMap.v ===== *)
(** * HashMap: the interface to the hash map of the runtime library

    The server keys its vectors and metadata by strings compared without case,
    in hash maps of a library that is not part of the repository.  [HashMap]
    states what the code relies on; its clients are proved against the class,
    and [assoc_hash_map] shows that the laws can be met. *)

From S2P Require Import Prelude Heap StringList CString.

Open Scope Z_scope.

(** [LwRtlHashEqualPstrCaseless]: keys are equal when these agree. *)
Definition ckey (k : cstr) : list Z := map tolower k.
Arguments ckey : simpl never.

(** Iteration visits each binding once, in an unspecified order. *)
Class HashMap (H : Type → Type) := {
  LwRtlCreateHashMap : ∀ {V}, H V;
  LwRtlHashMapInsert : ∀ {V}, H V → cstr → V → H V;
  LwRtlHashMapFindKey : ∀ {V}, H V → cstr → option V;
  LwRtlHashMapClear : ∀ {V}, H V → H V;
  LwRtlHashMapIterate : ∀ {V}, H V → list (cstr * V);
  hm_find_create V k : LwRtlHashMapFindKey (V := V) LwRtlCreateHashMap k = None;
  hm_find_clear V (m : H V) k : LwRtlHashMapFindKey (LwRtlHashMapClear m) k = None;
  hm_find_insert V (m : H V) k v k' :
    LwRtlHashMapFindKey (LwRtlHashMapInsert m k v) k' =
    if bool_decide (ckey k = ckey k') then Some v else LwRtlHashMapFindKey m k';
  hm_iter_find V (m : H V) k v :
    LwRtlHashMapFindKey m k = Some v ↔ ∃ k', ckey k = ckey k' ∧ (k', v) ∈ LwRtlHashMapIterate m;
  hm_iter_nodup V (m : H V) : NoDup (map (λ kv, ckey kv.1) (LwRtlHashMapIterate m))
}.

#[export] Hint Rewrite @hm_find_create @hm_find_clear @hm_find_insert : heap.

(** Maps with the same bindings. *)
Section Equiv.
Context `{HM : HashMap H} {V : Type}.
Implicit Types m : H V.

Definition hm_equiv m1 m2 : Prop := ∀ k, LwRtlHashMapFindKey m1 k = LwRtlHashMapFindKey m2 k.

#[export] Instance hm_equiv_equivalence : Equivalence hm_equiv.
Proof.
  split; [done | intros m1 m2 Hm k; symmetry; apply Hm |].
  intros m1 m2 m3 H12 H23 k. by rewrite H12.
Qed.

#[export] Instance hm_insert_proper k v : Proper (hm_equiv ==> hm_equiv) (λ m, LwRtlHashMapInsert m k v).
Proof. intros m1 m2 Hm k'. rewrite !hm_find_insert. case_bool_decide; [done | apply Hm]. Qed.

Lemma hm_find_ckey m k k' : ckey k = ckey k' → LwRtlHashMapFindKey m k = LwRtlHashMapFindKey m k'.
Proof.
  intros Hk. destruct (LwRtlHashMapFindKey m k') as [v|] eqn:H1.
  - apply hm_iter_find in H1 as (k2 & ? & ?). apply hm_iter_find. exists k2. split; [congruence | done].
  - destruct (LwRtlHashMapFindKey m k) as [v|] eqn:H2; [| done].
    apply hm_iter_find in H2 as (k2 & ? & ?).
    assert (LwRtlHashMapFindKey m k' = Some v) as H3; [| congruence].
    apply hm_iter_find. exists k2. split; [congruence | done].
Qed.

(** Inserting the pairs of a list from left to right. *)
Fixpoint insert_all (kvs : list (cstr * V)) m : H V :=
  match kvs with
  | [] => m
  | kv :: kvs => insert_all kvs (LwRtlHashMapInsert m kv.1 kv.2)
  end.

#[export] Instance insert_all_proper kvs : Proper (hm_equiv ==> hm_equiv) (insert_all kvs).
Proof.
  induction kvs as [|kv kvs IH]; intros m1 m2 Hm; [done |]. cbn. apply IH. by apply hm_insert_proper.
Qed.

Lemma insert_all_notin kvs m k :
  ckey k ∉ map (λ kv, ckey kv.1) kvs → LwRtlHashMapFindKey (insert_all kvs m) k = LwRtlHashMapFindKey m k.
Proof.
  revert m. induction kvs as [|kv kvs IH]; intros m Hk; [done |]. cbn in Hk.
  apply not_elem_of_cons in Hk as [H1 H2]. cbn. rewrite IH, hm_find_insert by done.
  by rewrite bool_decide_eq_false_2.
Qed.

Lemma insert_all_in kvs m k k' v :
  NoDup (map (λ kv, ckey kv.1) kvs) → (k', v) ∈ kvs → ckey k = ckey k' →
  LwRtlHashMapFindKey (insert_all kvs m) k = Some v.
Proof.
  revert m. induction kvs as [|kv kvs IH]; intros m Hnd Hin Hk; [by apply elem_of_nil in Hin |].
  cbn in Hnd. apply NoDup_cons in Hnd as [Hn Hnd]. apply elem_of_cons in Hin as [<- | Hin]; cbn.
  - rewrite insert_all_notin by (rewrite Hk; done). rewrite hm_find_insert.
    by rewrite bool_decide_eq_true_2.
  - by apply IH.
Qed.

(** For distinct keys the order of insertion does not matter. *)
Lemma insert_all_perm kvs1 kvs2 m :
  kvs1 ≡ₚ kvs2 → NoDup (map (λ kv, ckey kv.1) kvs1) →
  hm_equiv (insert_all kvs1 m) (insert_all kvs2 m).
Proof.
  intros Hp Hnd k. assert (NoDup (map (λ kv, ckey kv.1) kvs2)) as Hnd2 by by rewrite <- Hp.
  destruct (decide (ckey k ∈ map (λ kv, ckey kv.1) kvs1)) as [Hin | Hout].
  - apply list_elem_of_fmap in Hin as ([k' v] & Hk & Hin). cbn in Hk.
    rewrite (insert_all_in kvs1 m k k' v), (insert_all_in kvs2 m k k' v); rewrite <- ?Hp; done.
  - rewrite !insert_all_notin; [done | by rewrite <- Hp | done].
Qed.

(** Re-inserting what iteration yields rebuilds the map. *)
Lemma insert_all_iter m : hm_equiv (insert_all (LwRtlHashMapIterate m) LwRtlCreateHashMap) m.
Proof.
  intros k. destruct (LwRtlHashMapFindKey m k) as [v|] eqn:Hf.
  - apply hm_iter_find in Hf as (k' & Hk & Hin). eapply insert_all_in; [apply hm_iter_nodup | done | done].
  - rewrite insert_all_notin, hm_find_create; [done |]. intros Hin.
    apply list_elem_of_fmap in Hin as ([k' v] & Hk & Hin).
    assert (LwRtlHashMapFindKey m k = Some v); [| congruence]. apply hm_iter_find. by exists k'.
Qed.

End Equiv.

(** ** An implementation *)

(** Association lists without two equal keys. *)
Definition assoc_ok {V} (l : list (cstr * V)) : Prop := NoDup (map (λ kv, ckey kv.1) l).
Definition assoc (V : Type) : Type := { l : list (cstr * V) | assoc_ok l }.

Definition assoc_find_list {V} (l : list (cstr * V)) (k : cstr) : option V :=
  snd <$> (snd <$> list_find (λ kv, ckey kv.1 = ckey k) l).
Definition assoc_find {V} (m : assoc V) (k : cstr) : option V := assoc_find_list (`m) k.

Definition assoc_drop {V} (k : cstr) (l : list (cstr * V)) : list (cstr * V) :=
  filter (λ kv, ckey kv.1 ≠ ckey k) l.

Lemma assoc_drop_sub {V} k (l : list (cstr * V)) x :
  x ∈ map (λ kv, ckey kv.1) (assoc_drop k l) ↔ x ≠ ckey k ∧ x ∈ map (λ kv, ckey kv.1) l.
Proof.
  unfold assoc_drop. setoid_rewrite list_elem_of_fmap. setoid_rewrite list_elem_of_filter.
  naive_solver.
Qed.

Lemma assoc_drop_ok {V} k (l : list (cstr * V)) : assoc_ok l → assoc_ok (assoc_drop k l).
Proof.
  unfold assoc_ok, assoc_drop. induction l as [|kv l IH]; intros Hl; [done |].
  cbn [map] in Hl. apply NoDup_cons in Hl as [Hn Hnd]. rewrite filter_cons. destruct (decide _); [| by apply IH].
  cbn. apply NoDup_cons. split; [| by apply IH].
  intros Hin. apply Hn. by apply (assoc_drop_sub k l).
Qed.

Lemma assoc_insert_ok {V} k v (l : list (cstr * V)) : assoc_ok l → assoc_ok ((k, v) :: assoc_drop k l).
Proof.
  intros Hl. apply NoDup_cons. split; [| by apply assoc_drop_ok]. intros [H _]%assoc_drop_sub. done.
Qed.

Definition assoc_insert {V} (m : assoc V) (k : cstr) (v : V) : assoc V :=
  exist _ ((k, v) :: assoc_drop k (`m)) (assoc_insert_ok k v _ (proj2_sig m)).

Definition assoc_empty {V} : assoc V := exist assoc_ok [] (NoDup_nil_2).

Lemma assoc_find_spec {V} (l : list (cstr * V)) k v :
  assoc_ok l → assoc_find_list l k = Some v ↔ ∃ k', ckey k = ckey k' ∧ (k', v) ∈ l.
Proof.
  intros Hl. unfold assoc_find_list. split.
  - destruct (list_find _ l) as [[i [k' v']]|] eqn:Hf; cbn; intros Heq;
      [injection Heq as <- | discriminate Heq].
    apply list_find_Some in Hf as (Hi & Hk & _). exists k'. split; [done | by eapply list_elem_of_lookup_2].
  - intros (k' & Hk & Hin). induction l as [|[k2 v2] l IH]; [by inversion Hin |].
    apply NoDup_cons in Hl as [Hn Hnd]. cbn [list_find fst]. destruct (decide (ckey k2 = ckey k)) as [He | He].
    + apply elem_of_cons in Hin as [[= <- <-] | Hin]; [done |]. exfalso. apply Hn.
      change (ckey k2 ∈ map (λ kv, ckey kv.1) l).
      cbn in He. rewrite Hk in He. rewrite He. by apply (list_elem_of_fmap_2 (λ kv, ckey kv.1) l (k', v)).
    + apply elem_of_cons in Hin as [[= <- <-] | Hin]; [congruence |].
      specialize (IH Hnd Hin). by destruct (list_find _ l) as [[]|].
Qed.

#[export] Instance assoc_hash_map : HashMap assoc.
Proof.
  refine {| LwRtlCreateHashMap := @assoc_empty; LwRtlHashMapInsert := @assoc_insert;
            LwRtlHashMapFindKey := @assoc_find; LwRtlHashMapClear V m := assoc_empty;
            LwRtlHashMapIterate V m := `m |}.
  - done.
  - done.
  - intros V [l Hl] k v k'. unfold assoc_find, assoc_insert. cbn [proj1_sig].
    case_bool_decide as Hk.
    + apply assoc_find_spec; [by apply assoc_insert_ok |]. exists k. split; [done | left].
    + destruct (assoc_find_list l k') as [v'|] eqn:Hf.
      * apply assoc_find_spec in Hf as (k2 & ? & ?); [| done].
        apply assoc_find_spec; [by apply assoc_insert_ok |]. exists k2. split; [done |]. right.
        apply list_elem_of_filter. split; [cbn [fst]; congruence | done].
      * destruct (assoc_find_list ((k, v) :: _) k') as [v'|] eqn:Hf2; [| done].
        apply assoc_find_spec in Hf2 as (k2 & Hk2 & [[= -> ->] | [_ Hin]%list_elem_of_filter]%elem_of_cons);
          [congruence | | by apply assoc_insert_ok].
        assert (assoc_find_list l k' = Some v'); [| congruence].
        apply assoc_find_spec; [done | by exists k2].
  - intros V [l Hl] k v. by apply assoc_find_spec.
  - intros V [l Hl]. exact Hl.
Defined.
