(* ===== verification/UtdVector.v ===== *)
(** * UtdVector: up-to-dateness vectors

    [vmdir/server/replication/utdvector.c] and [vmdir/server/common/vectorutils.c]:
    the map from invocation ids to the highest USN seen from each server, its
    string form, the server's cached copy and the update from a supplier's
    sync-done control.  Proved against the hash map interface of [HashMap]. *)

From S2P Require Import Prelude Heap StringList CString HashMap.

Open Scope Z_scope.

Definition comma : ascii := ","%char.
Definition colon : ascii := ":"%char.

(** [VMDIR_REPL_DD_VEC_INDICATOR] and [VMDIR_REPL_CONT_INDICATOR_STR]. *)
Definition VMDIR_REPL_DD_VEC_INDICATOR : cstr := ["v"; "e"; "c"; "t"; "o"; "r"; ":"]%char.
Definition VMDIR_REPL_CONT_INDICATOR_STR : cstr := ["c"; "o"; "n"; "t"; "i"; "n"; "u"; "e"; ":"]%char.

Section Vector.
Context `{HM : HashMap H}.

(** ** Operations *)

Definition _VmDirUTDVectorPairToStr (k : cstr) (usn : Z) : cstr :=
  k ++ [colon] ++ print_d usn ++ [comma].

Definition _VmDirUTDVectorStrToPair (pszKey pszValue : cstr) : dwerror * (cstr * Z) :=
  let (err, usn) := VmDirStringToINT64 (Some pszValue) in (err, (pszKey, usn)).

(** Pairs whose value is NULL (USN 0) are skipped. *)
Definition VmDirVectorToStr (m : H Z) (PairToStr : cstr → Z → cstr) : option (dwerror * option cstr) :=
  VmDirTokenListToString
    (Some (map (λ kv, PairToStr kv.1 kv.2) (filter (λ kv, kv.2 ≠ 0) (LwRtlHashMapIterate m))))
    (Some []).

Fixpoint vector_loop (StrToPair : cstr → cstr → dwerror * (cstr * Z)) (ts : list cstr) (m : H Z)
  : dwerror * H Z :=
  match ts with
  | [] => (ERROR_SUCCESS, m)
  | [] :: ts => vector_loop StrToPair ts m
  | t :: ts =>
      match VmDirStringTokA t [colon] with
      | Some (pszKey, pszVal) =>
          match StrToPair pszKey pszVal with
          | (ERROR_SUCCESS, (k, v)) => vector_loop StrToPair ts (LwRtlHashMapInsert m k v)
          | (err, _) => (err, m)
          end
      | None => (VMDIR_ERROR_INVALID_VECTOR_STR, m)
      end
  end.

Definition VmDirStrtoVector (pszVector : option cstr)
    (StrToPair : cstr → cstr → dwerror * (cstr * Z)) (m : H Z) : dwerror * H Z :=
  match pszVector with
  | None => (VMDIR_ERROR_INVALID_PARAMETER, m)
  | Some s =>
      match VmDirStringToTokenList (Some s) (Some [comma]) with
      | (ERROR_SUCCESS, Some ts) => vector_loop StrToPair ts m
      | (err, _) => (err, m)
      end
  end.

Definition VmDirStringToUTDVector (pszUTDVector : option cstr) : dwerror * option (H Z) :=
  match pszUTDVector with
  | None => (VMDIR_ERROR_INVALID_PARAMETER, None)
  | Some [] => (ERROR_SUCCESS, Some LwRtlCreateHashMap)
  | Some s =>
      match VmDirStrtoVector (Some s) _VmDirUTDVectorStrToPair LwRtlCreateHashMap with
      | (ERROR_SUCCESS, m) => (ERROR_SUCCESS, Some m)
      | (err, _) => (err, None)
      end
  end.

Definition VmDirUTDVectorToString (m : H Z) : option (dwerror * option cstr) :=
  VmDirVectorToStr m _VmDirUTDVectorPairToStr.

Definition VmDirUTDVectorLookup (m : H Z) (pszInvocationId : option cstr) : dwerror * Z :=
  match pszInvocationId with
  | Some k =>
      if IsNullOrEmptyString (Some k) then (VMDIR_ERROR_INVALID_PARAMETER, 0)
      else match LwRtlHashMapFindKey m k with
           | Some usn => (ERROR_SUCCESS, usn)
           | None => (LW_STATUS_NOT_FOUND, 0)
           end
  | None => (VMDIR_ERROR_INVALID_PARAMETER, 0)
  end.

(** [VMDIR_UTDVECTOR_CACHE]; its lock makes each operation atomic. *)
Record utd_cache := UTD_CACHE { pUtdVectorMap : H Z; pszUtdVector : cstr }.

Definition VmDirUTDVectorCacheInit : utd_cache := UTD_CACHE LwRtlCreateHashMap [].

Definition VmDirUTDVectorCacheUpdate (s : option cstr) (c : utd_cache) : dwerror * utd_cache :=
  match s with
  | Some s' =>
      if IsNullOrEmptyString s then (VMDIR_ERROR_INVALID_PARAMETER, c)
      else
        match VmDirStrtoVector (Some s') _VmDirUTDVectorStrToPair (LwRtlHashMapClear (pUtdVectorMap c)) with
        | (ERROR_SUCCESS, m) => (ERROR_SUCCESS, UTD_CACHE m s')
        | (err, m) => (err, UTD_CACHE m (pszUtdVector c))
        end
  | None => (VMDIR_ERROR_INVALID_PARAMETER, c)
  end.

Definition VmDirUTDVectorCacheToString (c : utd_cache) : dwerror * cstr := (ERROR_SUCCESS, pszUtdVector c).

Definition VmDirUTDVectorCacheLookup (c : utd_cache) (pszInvocationId : option cstr) : dwerror * Z :=
  VmDirUTDVectorLookup (pUtdVectorMap c) pszInvocationId.

Definition VmDirSyncDoneCtrlFromLocalCache (lastSupplierUsnProcessed : Z) (m : H Z)
  : option (dwerror * option cstr) :=
  match VmDirUTDVectorToString m with
  | Some (ERROR_SUCCESS, Some s) =>
      Some (ERROR_SUCCESS, Some (print_d lastSupplierUsnProcessed ++ [comma] ++ s))
  | r => r
  end.

(** The loop of [VmDirUpdateUtdVectorLocalCache].  [None]: a token of colons
    only gives a NULL key. *)
Fixpoint update_loop (ts : list cstr) (m : H Z) : option (dwerror * H Z) :=
  match ts with
  | [] => Some (ERROR_SUCCESS, m)
  | t :: ts =>
      match strstr t VMDIR_REPL_DD_VEC_INDICATOR, strstr t VMDIR_REPL_CONT_INDICATOR_STR with
      | None, None =>
          match t with
          | [] => update_loop ts m
          | _ =>
              match VmDirStringTokA t [colon] with
              | None => None
              | Some (pszKey, pszVal) =>
                  match VmDirStringToINT64 (Some pszVal) with
                  | (ERROR_SUCCESS, currUsn) =>
                      match LwRtlHashMapFindKey m pszKey with
                      | Some cachedUsn =>
                          update_loop ts (if currUsn >? cachedUsn
                                          then LwRtlHashMapInsert m pszKey currUsn else m)
                      | None => update_loop ts (LwRtlHashMapInsert m pszKey currUsn)
                      end
                  | (err, _) => Some (err, m)
                  end
              end
          end
      | _, _ => Some (ERROR_SUCCESS, m)
      end
  end.

Definition VmDirUpdateUtdVectorLocalCache (m : H Z) (bv_val : option cstr) : option (dwerror * H Z) :=
  match VmDirStringToTokenList bv_val (Some [comma]) with
  | (ERROR_SUCCESS, Some ts) => update_loop (tail ts) m
  | (err, _) => Some (err, m)
  end.

(** ** Correctness *)

(** A key the string form can carry: not empty, without ',' and ':'. *)
Definition valid_key (k : cstr) : Prop := clean [comma] k ∧ clean [colon] k.

Definition entry_token (kv : cstr * Z) : cstr := kv.1 ++ [colon] ++ print_d kv.2.

Definition no_indicator (kv : cstr * Z) : Prop :=
  strstr (entry_token kv) VMDIR_REPL_DD_VEC_INDICATOR = None ∧
  strstr (entry_token kv) VMDIR_REPL_CONT_INDICATOR_STR = None.

Definition valid_entry (kv : cstr * Z) : Prop := valid_key kv.1 ∧ is_s64 kv.2.

(** What the string form keeps of a map: the bindings with a USN other than 0. *)
Definition nonzero (o : option Z) : option Z :=
  match o with Some u => if u =? 0 then None else Some u | None => None end.

Lemma print_d_chars n c : is_s64 n → c ∈ print_d n → c = "-"%char ∨ is_digit c = true.
Proof.
  intros Hn Hc. unfold is_s64 in Hn. unfold print_d in Hc. destruct (Z.ltb_spec n 0).
  - apply elem_of_cons in Hc as [-> | Hc]; [by left | right].
    destruct (print_u_spec (- n)) as (Hd & _); [unfold is_u64; lia |].
    unfold digits in Hd. rewrite Forall_forall in Hd. by apply Hd.
  - right. destruct (print_u_spec n) as (Hd & _); [unfold is_u64; lia |].
    unfold digits in Hd. rewrite Forall_forall in Hd. by apply Hd.
Qed.

Lemma print_d_nonnil n : is_s64 n → print_d n ≠ [].
Proof.
  intros Hn. unfold is_s64 in Hn. unfold print_d. destruct (Z.ltb_spec n 0); [done |].
  apply print_u_spec. unfold is_u64. lia.
Qed.

Lemma print_d_clean n d : is_s64 n → (d = comma ∨ d = colon) → clean [d] (print_d n).
Proof.
  intros Hn Hd. split; [by apply print_d_nonnil |]. rewrite Forall_forall. intros c Hc.
  apply bool_decide_eq_false. intros ->%list_elem_of_singleton.
  destruct (print_d_chars n d Hn Hc) as [-> | Hdig]; [by destruct Hd | by destruct Hd; subst d].
Qed.

Lemma entry_clean kv : valid_entry kv → clean [comma] (entry_token kv).
Proof.
  destruct kv as [k v]. intros [[[Hne Hk] _] Hv]. unfold entry_token. cbn [fst snd].
  destruct (print_d_clean v comma Hv) as [_ Hp]; [by left |].
  split; [by destruct k |]. apply Forall_app. split; [done |]. apply Forall_app. split; [| done].
  by repeat constructor.
Qed.

Lemma entry_tok kv : valid_entry kv → VmDirStringTokA (entry_token kv) [colon] = Some (kv.1, print_d kv.2).
Proof.
  destruct kv as [k v]. intros [[_ Hk] Hv]. unfold entry_token. cbn [fst snd app].
  apply tok_clean; [done |]. apply bool_decide_eq_true. left.
Qed.

Lemma token_loop_concat fuel c ts :
  (length ts < fuel)%nat → Forall (clean [c]) ts →
  token_loop fuel (concat (map (λ t, t ++ [c]) ts)) [c] = ts.
Proof.
  intros Hf Hts. revert fuel Hf. induction Hts as [|t ts Ht Hts IH]; intros fuel Hf.
  { by destruct fuel. }
  destruct fuel as [|fuel]; [lia |]. cbn [token_loop map concat]. rewrite <- app_assoc. cbn [app].
  rewrite tok_clean; [| done | apply bool_decide_eq_true; left]. f_equal. apply IH.
  cbn [length] in Hf. lia.
Qed.

Lemma join_nil_delim ts : join ts [] = concat ts.
Proof.
  induction ts as [|t ts IH]; [done |]. destruct (decide (ts = [])) as [-> | Hne].
  - cbn. by rewrite app_nil_r.
  - rewrite join_cons by done. cbn. by rewrite IH.
Qed.

Lemma concat_length_tokens ts : Forall (clean [comma]) ts →
  (length ts <= length (concat (map (λ t : cstr, t ++ [comma]) ts)))%nat.
Proof. intros _. induction ts as [|t ts IH]; cbn; [lia |]. rewrite !length_app. cbn. lia. Qed.

(** The entries of a map that its string form carries. *)
Definition entries (m : H Z) : list (cstr * Z) := filter (λ kv, kv.2 ≠ 0) (LwRtlHashMapIterate m).
Definition vector_str (kvs : list (cstr * Z)) : cstr :=
  concat (map (λ t, t ++ [comma]) (map entry_token kvs)).

Definition valid_map (m : H Z) : Prop :=
  Forall valid_entry (LwRtlHashMapIterate m) ∧
  Z.of_nat (length (vector_str (entries m))) + 1 < 2 ^ 32.

Lemma entries_valid m : valid_map m → Forall valid_entry (entries m).
Proof.
  intros [Hv _]. unfold entries. rewrite Forall_forall in *. intros kv [_ Hin]%list_elem_of_filter. by apply Hv.
Qed.

Lemma to_string_spec m :
  valid_map m → VmDirUTDVectorToString m = Some (ERROR_SUCCESS, Some (vector_str (entries m))).
Proof.
  intros [_ Hlen]. unfold VmDirUTDVectorToString, VmDirVectorToStr. fold (entries m).
  assert (join (map (λ kv, _VmDirUTDVectorPairToStr kv.1 kv.2) (entries m)) [] = vector_str (entries m)) as Hj.
  { rewrite join_nil_delim. unfold vector_str. rewrite map_map. f_equal. apply map_ext. intros [k v].
    unfold entry_token, _VmDirUTDVectorPairToStr. cbn [fst snd]. by rewrite <- !app_assoc. }
  rewrite token_list_to_string; by rewrite Hj.
Qed.

Lemma vector_tokens kvs :
  Forall valid_entry kvs → kvs ≠ [] →
  VmDirStringToTokenList (Some (vector_str kvs)) (Some [comma]) = (ERROR_SUCCESS, Some (map entry_token kvs)).
Proof.
  intros Hv Hne. unfold VmDirStringToTokenList.
  assert (Forall (clean [comma]) (map entry_token kvs)) as Hc.
  { apply Forall_fmap. eapply Forall_impl; [exact Hv |]. apply entry_clean. }
  pose proof (concat_length_tokens _ Hc) as Hlen. fold (vector_str kvs) in Hlen.
  destruct (vector_str kvs) as [|x s] eqn:Hs; [destruct kvs; [done | cbn in Hlen; lia] |].
  cbn [IsNullOrEmptyString orb]. rewrite <- Hs. unfold vector_str. rewrite token_loop_concat; [done | | done].
  fold (vector_str kvs). rewrite Hs. lia.
Qed.

Lemma entry_nonnil kv : valid_entry kv → ∃ c t, entry_token kv = c :: t.
Proof. intros [Hne _]%entry_clean. destruct (entry_token kv) as [|c t]; [done | eauto]. Qed.

Lemma vector_loop_spec kvs m :
  Forall valid_entry kvs →
  vector_loop _VmDirUTDVectorStrToPair (map entry_token kvs) m = (ERROR_SUCCESS, insert_all kvs m).
Proof.
  intros Hv. revert m. induction Hv as [|kv kvs Hkv Hv IH]; intros m; [done |]. cbn [map vector_loop insert_all].
  destruct (entry_nonnil kv Hkv) as (c & t & Ht). pose proof (entry_tok kv Hkv) as Htok. rewrite Ht in Htok |- *.
  rewrite Htok. unfold _VmDirUTDVectorStrToPair, VmDirStringToINT64.
  rewrite strtoll_print by apply Hkv. apply IH.
Qed.

Lemma find_entries m m0 k :
  LwRtlHashMapFindKey (insert_all (entries m) m0) k =
  match nonzero (LwRtlHashMapFindKey m k) with Some u => Some u | None => LwRtlHashMapFindKey m0 k end.
Proof.
  pose proof (hm_iter_nodup _ m) as Hnd.
  assert (NoDup (map (λ kv : cstr * Z, ckey kv.1) (entries m))) as Hnd'.
  { by apply NoDup_map_filter. }
  destruct (LwRtlHashMapFindKey m k) as [u|] eqn:Hf; cbn [nonzero].
  - apply hm_iter_find in Hf as (k' & Hk & Hin). destruct (Z.eqb_spec u 0) as [-> | Hu].
    + apply insert_all_notin. intros Hin'. apply list_elem_of_fmap in Hin' as ([k2 v] & Hk2 & [Hv Hin2]%list_elem_of_filter).
      cbn [fst snd] in *.
      assert (LwRtlHashMapFindKey m k = Some v) by (apply hm_iter_find; by exists k2).
      assert (LwRtlHashMapFindKey m k = Some 0) by (apply hm_iter_find; by exists k'). congruence.
    + eapply insert_all_in; [done | by apply list_elem_of_filter | done].
  - apply insert_all_notin. intros Hin'. apply list_elem_of_fmap in Hin' as ([k2 v] & Hk2 & [Hv Hin2]%list_elem_of_filter).
    assert (LwRtlHashMapFindKey m k = Some v) by (apply hm_iter_find; by exists k2). congruence.
Qed.

(** Writing an up-to-dateness vector as a string and parsing it back gives
    the same map, except that servers whose USN is 0 are dropped (the string
    form skips NULL values): the parsed map binds exactly the other servers to
    the same USNs, whatever order the hash map iterates in. *)
Theorem utd_vector_roundtrip m :
  valid_map m →
  ∃ s m', VmDirUTDVectorToString m = Some (ERROR_SUCCESS, Some s) ∧
    VmDirStringToUTDVector (Some s) = (ERROR_SUCCESS, Some m') ∧
    ∀ k, LwRtlHashMapFindKey m' k = nonzero (LwRtlHashMapFindKey m k).
Proof.
  intros Hv. exists (vector_str (entries m)). rewrite to_string_spec by done.
  pose proof (entries_valid m Hv) as Hev.
  exists (insert_all (entries m) LwRtlCreateHashMap). split; [done |]. split.
  - destruct (entries m) as [|kv kvs] eqn:He; [done |].
    pose proof (vector_tokens (kv :: kvs) Hev ltac:(done)) as Htok.
    unfold VmDirStringToUTDVector, VmDirStrtoVector.
    destruct (vector_str (kv :: kvs)) as [|c s] eqn:Hs; [done |]. rewrite Htok.
    by rewrite vector_loop_spec.
  - intros k. rewrite find_entries, hm_find_create. by destruct (nonzero _).
Qed.

(** The pointwise maximum of two vectors. *)
Definition usn_max (new old : option Z) : option Z :=
  match new, old with
  | Some u, Some v => Some (Z.max u v)
  | Some u, None => Some u
  | None, _ => old
  end.

Lemma update_loop_spec kvs m :
  Forall (λ kv, valid_entry kv ∧ no_indicator kv) kvs → NoDup (map (λ kv, ckey kv.1) kvs) →
  ∃ m', update_loop (map entry_token kvs) m = Some (ERROR_SUCCESS, m') ∧
    ∀ k, LwRtlHashMapFindKey m' k =
      usn_max (LwRtlHashMapFindKey (insert_all kvs LwRtlCreateHashMap) k) (LwRtlHashMapFindKey m k).
Proof.
  intros Hv. revert m. induction Hv as [|kv kvs [Hkv [Hi1 Hi2]] Hv IH]; intros m Hnd.
  { exists m. split; [done |]. intros k. cbn. by rewrite hm_find_create. }
  cbn [map] in Hnd. apply NoDup_cons in Hnd as [Hn Hnd]. cbn [map update_loop].
  destruct (entry_nonnil kv Hkv) as (c & t & Ht). pose proof (entry_tok kv Hkv) as Htok.
  rewrite Hi1, Hi2. rewrite Ht in Htok |- *. rewrite Htok. unfold VmDirStringToINT64.
  rewrite strtoll_print by apply Hkv.
  assert (∀ k, LwRtlHashMapFindKey (insert_all (kv :: kvs) LwRtlCreateHashMap) k =
    if bool_decide (ckey kv.1 = ckey k) then Some kv.2
    else LwRtlHashMapFindKey (insert_all kvs (LwRtlCreateHashMap (H := H))) k) as Hins.
  { intros k. cbn [insert_all]. case_bool_decide as Hk.
    - rewrite insert_all_notin by by rewrite <- Hk. rewrite hm_find_insert. by rewrite bool_decide_eq_true_2.
    - destruct (decide (ckey k ∈ map (λ kv, ckey kv.1) kvs)) as [Hin | Hout].
      + apply list_elem_of_fmap in Hin as ([k' v] & Hk' & Hin).
        by rewrite !(insert_all_in kvs _ k k' v).
      + rewrite !insert_all_notin by done. rewrite hm_find_insert. by rewrite bool_decide_eq_false_2. }
  set (m1 := match LwRtlHashMapFindKey m kv.1 with
             | Some cached => if kv.2 >? cached then LwRtlHashMapInsert m kv.1 kv.2 else m
             | None => LwRtlHashMapInsert m kv.1 kv.2 end).
  destruct (IH m1 Hnd) as (m' & Hrun & Hm'). exists m'. split.
  { unfold m1 in Hrun. by destruct (LwRtlHashMapFindKey m kv.1). }
  intros k. rewrite Hm', Hins. unfold m1. case_bool_decide as Hk.
  - rewrite insert_all_notin, hm_find_create by by rewrite <- Hk. cbn [usn_max].
    rewrite <- (hm_find_ckey m _ _ Hk). destruct (LwRtlHashMapFindKey m kv.1) as [v|] eqn:Hf.
    + destruct (Z.gtb_spec kv.2 v).
      * rewrite hm_find_insert, bool_decide_eq_true_2 by done. cbn. f_equal. lia.
      * rewrite <- (hm_find_ckey m _ _ Hk), Hf. cbn. f_equal. lia.
    + by rewrite hm_find_insert, bool_decide_eq_true_2.
  - f_equal. destruct (LwRtlHashMapFindKey m kv.1) as [v|]; [destruct (kv.2 >? v) |];
      rewrite ?hm_find_insert, ?bool_decide_eq_false_2 by done; done.
Qed.

(** C32: Processing a supplier's sync-done control joins the supplier's vector
    into the local one: afterwards every server is bound to the larger of the
    two USNs, and no binding is lost.  The local vector therefore never moves
    backwards, processing a control twice changes nothing more, and the order
    of two controls does not matter. *)
Theorem utd_update_joins usn m1 m2 s :
  is_s64 usn → valid_map m2 → Forall no_indicator (entries m2) →
  VmDirSyncDoneCtrlFromLocalCache usn m2 = Some (ERROR_SUCCESS, Some s) →
  ∃ m', VmDirUpdateUtdVectorLocalCache m1 (Some s) = Some (ERROR_SUCCESS, m') ∧
    ∀ k, LwRtlHashMapFindKey m' k =
      usn_max (nonzero (LwRtlHashMapFindKey m2 k)) (LwRtlHashMapFindKey m1 k).
Proof.
  intros Husn Hv Hni. unfold VmDirSyncDoneCtrlFromLocalCache. rewrite to_string_spec by done.
  intros [= <-]. pose proof (entries_valid m2 Hv) as Hev.
  destruct (update_loop_spec (entries m2) m1) as (m' & Hrun & Hm').
  { apply Forall_and. by split. } { apply NoDup_map_filter, hm_iter_nodup. }
  exists m'. split.
  - unfold VmDirUpdateUtdVectorLocalCache.
    assert (VmDirStringToTokenList (Some (print_d usn ++ comma :: vector_str (entries m2))) (Some [comma]) =
            (ERROR_SUCCESS, Some (print_d usn :: map entry_token (entries m2)))) as ->; [| exact Hrun].
    pose proof (print_d_clean usn comma Husn ltac:(by left)) as Hclean.
    assert (Forall (clean [comma]) (print_d usn :: map entry_token (entries m2))) as Hc.
    { apply Forall_cons. split; [done |]. apply Forall_fmap. eapply Forall_impl; [exact Hev |]. apply entry_clean. }
    pose proof (concat_length_tokens _ Hc) as Hlen.
    pose proof (token_loop_concat (S (length (concat (map (λ t : cstr, t ++ [comma])
      (print_d usn :: map entry_token (entries m2))))))
      comma (print_d usn :: map entry_token (entries m2)) ltac:(lia) Hc) as Htl.
    cbn [map concat] in Htl. rewrite <- app_assoc in Htl. fold (vector_str (entries m2)) in Htl.
    cbn [app] in Htl.
    unfold VmDirStringToTokenList.
    destruct (print_d usn ++ comma :: vector_str (entries m2)) as [|c s] eqn:Hs.
    { apply app_nil in Hs as [Hs _]. by destruct (proj1 Hclean). }
    cbn [IsNullOrEmptyString orb]. rewrite Htl. done.
  - intros k. rewrite Hm', find_entries, hm_find_create. by destruct (nonzero _).
Qed.

Lemma vector_loop_equiv f ts m1 m2 :
  hm_equiv m1 m2 →
  (vector_loop f ts m1).1 = (vector_loop f ts m2).1 ∧
  hm_equiv (vector_loop f ts m1).2 (vector_loop f ts m2).2.
Proof.
  revert m1 m2. induction ts as [|t ts IH]; intros m1 m2 Hm; [done |]. cbn [vector_loop].
  destruct t as [|c t]; [by apply IH |]. destruct (VmDirStringTokA (c :: t) [colon]) as [[k v]|]; [| done].
  destruct (f k v) as [err [k' v']]. destruct err; try done. apply IH. by apply hm_insert_proper.
Qed.

(** A successful update of the cached vector replaces string and map
    together: looking a server up returns what parsing the stored string gives.
    A failing update does not: it clears the map and may fill it in part, while
    the old string stays. *)
Theorem utd_cache_update s c err c' :
  s ≠ [] → VmDirUTDVectorCacheUpdate (Some s) c = (err, c') →
  (err = ERROR_SUCCESS →
     VmDirUTDVectorCacheToString c' = (ERROR_SUCCESS, s) ∧
     ∃ m, VmDirStringToUTDVector (Some s) = (ERROR_SUCCESS, Some m) ∧
       ∀ k, VmDirUTDVectorCacheLookup c' (Some k) = VmDirUTDVectorLookup m (Some k)) ∧
  (err ≠ ERROR_SUCCESS → pszUtdVector c' = pszUtdVector c ∧
     VmDirStringToUTDVector (Some s) = (err, None)).
Proof.
  intros Hs Hup. unfold VmDirUTDVectorCacheUpdate, VmDirStrtoVector in Hup.
  unfold VmDirStringToUTDVector, VmDirStrtoVector. destruct s as [|a s]; [done |].
  cbn [IsNullOrEmptyString] in Hup.
  destruct (VmDirStringToTokenList (Some (a :: s)) (Some [comma])) as [e ots] eqn:Ht.
  assert (e = ERROR_SUCCESS ∧ ∃ ts, ots = Some ts) as [-> [ts ->]].
  { unfold VmDirStringToTokenList in Ht. cbn [IsNullOrEmptyString orb] in Ht. injection Ht as <- <-. eauto. }
  assert (hm_equiv (LwRtlHashMapClear (pUtdVectorMap c)) LwRtlCreateHashMap) as Heq
    by (intros k; by rewrite hm_find_clear, hm_find_create).
  pose proof (vector_loop_equiv _VmDirUTDVectorStrToPair ts _ _ Heq) as [He Hm].
  destruct (vector_loop _ ts (LwRtlHashMapClear _)) as [e1 m1].
  destruct (vector_loop _ ts LwRtlCreateHashMap) as [e2 m2]. cbn [fst snd] in He, Hm. subst e2.
  split; intros Herr.
  - assert (e1 = ERROR_SUCCESS ∧ c' = UTD_CACHE m1 (a :: s)) as [-> ->]
      by (destruct e1; simplify_eq; done).
    split; [done |]. exists m2. split; [done |]. intros k.
    unfold VmDirUTDVectorCacheLookup, VmDirUTDVectorLookup. cbn [pUtdVectorMap]. by rewrite Hm.
  - destruct e1; simplify_eq; done.
Qed.

End Vector.
Arguments utd_cache : clear implicits.

(** ** Concrete vectors *)

Definition utd_ex : assoc Z := LwRtlHashMapInsert (LwRtlHashMapInsert LwRtlCreateHashMap ["a"%char] 7) ["b"%char] 0.

Ltac clean_key := split; (split; [done | apply (bool_decide_unpack (Forall _ _)); vm_compute; exact I]).

Lemma utd_ex_valid : valid_map utd_ex.
Proof. split; [| done]. repeat constructor; cbn [fst snd]; try done; clean_key. Qed.

Lemma utd_vector_roundtrip_witness :
  ∃ s (m' : assoc Z), VmDirUTDVectorToString utd_ex = Some (ERROR_SUCCESS, Some s) ∧
    VmDirStringToUTDVector (Some s) = (ERROR_SUCCESS, Some m') ∧
    ∀ k, LwRtlHashMapFindKey m' k = nonzero (LwRtlHashMapFindKey utd_ex k).
Proof. apply (utd_vector_roundtrip utd_ex). exact utd_ex_valid. Defined.

Lemma utd_update_joins_witness :
  ∃ m' : assoc Z, VmDirUpdateUtdVectorLocalCache (LwRtlHashMapInsert LwRtlCreateHashMap ["A"%char] 5)
      (Some ["4"; "2"; ","; "a"; ":"; "7"; ","]%char) = Some (ERROR_SUCCESS, m') ∧
    ∀ k, LwRtlHashMapFindKey m' k =
      usn_max (nonzero (LwRtlHashMapFindKey utd_ex k))
              (LwRtlHashMapFindKey (LwRtlHashMapInsert LwRtlCreateHashMap ["A"%char] 5) k).
Proof.
  apply (utd_update_joins 42 _ utd_ex ["4"; "2"; ","; "a"; ":"; "7"; ","]%char).
  - done.
  - exact utd_ex_valid.
  - repeat constructor; reflexivity.
  - reflexivity.
Defined.

Lemma utd_cache_update_witness :
  let s := ["b"; ":"; "2"; ","; ":"; ":"]%char in
  let c := UTD_CACHE utd_ex ["a"; ":"; "7"; ","]%char in
  let c' := (VmDirUTDVectorCacheUpdate (Some s) c).2 in
  pszUtdVector c' = pszUtdVector c ∧
  VmDirStringToUTDVector (H := assoc) (Some s) = (VMDIR_ERROR_INVALID_VECTOR_STR, None) ∧
  VmDirUTDVectorCacheLookup c' (Some ["a"%char]) = (LW_STATUS_NOT_FOUND, 0).
Proof.
  intros s c c'.
  destruct (proj2 (utd_cache_update s c VMDIR_ERROR_INVALID_VECTOR_STR c' ltac:(done) eq_refl) ltac:(done))
    as [H1 H2].
  split; [exact H1 |]. split; [exact H2 | reflexivity].
Defined.
