(* ===== verification/Metadata.v ===== *)
(** * Metadata: replication metadata of attributes and values

    [vmdir/server/common/metadata.c], [replmetadata.c] and [valuemetadata.c]: the
    records that drive conflict resolution, their string form (fields separated
    by ':') and the containers they are collected in.  Allocation succeeds in
    this file; the linked list and the deque are sequences, as [LinkedList] and
    [Deque] justify, and the hash map is the interface of [HashMap]. *)

From S2P Require Import Prelude Heap StringList CString HashMap UtdVector.

Open Scope Z_scope.

(** ** Data *)

(** [VMDIR_ATTRIBUTE_METADATA]: USNs are [INT64], the version is [UINT64];
    [None] is a NULL pointer. *)
Record attr_metadata := METADATA {
  localUsn : Z; version : Z; pszOrigInvoId : option cstr; pszOrigTime : option cstr; origUsn : Z }.

(** [VMDIR_REPL_ATTRIBUTE_METADATA]. *)
Record repl_metadata := REPL_METADATA { pszAttrType : cstr; pMetaData : attr_metadata }.

(** [VMDIR_VALUE_ATTRIBUTE_METADATA]; the value is a blob. *)
Record value_metadata := VALUE_METADATA {
  vm_pszAttrType : cstr; vm_localUsn : Z; vm_version : Z; vm_pszOrigInvoId : cstr;
  pszValChgOrigInvoId : cstr; pszValChgOrigTime : cstr; valChgOrigUsn : Z;
  dwOpCode : Z; dwValSize : Z; pszValue : list ascii }.

Definition VMDIR_GUID_STR_LEN : Z := 37.
Definition VMDIR_MAX_ATTR_META_DATA_LEN : Z := 20 + 1 + (20 + 1) + (VMDIR_GUID_STR_LEN + 1) + (19 + 1) + (20 + 1).
Definition VMDIR_PARTIAL_ATTR_VALUE_META_DATA_LEN : Z :=
  20 + 1 + (20 + 1) + (VMDIR_GUID_STR_LEN + 1) + (VMDIR_GUID_STR_LEN + 1) + (19 + 1) + (20 + 1) + (11 + 1) + (11 + 1).

(** [%s] of a NULL pointer. *)
Definition print_s (s : option cstr) : cstr :=
  match s with Some s => s | None => ["("; "n"; "u"; "l"; "l"; ")"]%char end.

(** ** Attribute metadata *)

Definition VmDirMetaDataIsEmpty (md : option attr_metadata) : bool :=
  match md with
  | Some md => match pszOrigInvoId md with Some _ => false | None => true end
  | None => true
  end.

Definition metadata_fields (md : attr_metadata) : list cstr :=
  [print_d (localUsn md); print_d (s64 (version md)); print_s (pszOrigInvoId md);
   print_s (pszOrigTime md); print_d (origUsn md)].

(** The format string joins the fields with ':'. *)
Definition VmDirMetaDataSerialize (md : option attr_metadata) : dwerror * option cstr :=
  match md with
  | Some m =>
      if VmDirMetaDataIsEmpty md then (VMDIR_ERROR_INVALID_PARAMETER, None)
      else let (err, s) := VmDirStringPrintFA VMDIR_MAX_ATTR_META_DATA_LEN (join (metadata_fields m) [colon]) in
           (err, Some s)
  | None => (VMDIR_ERROR_INVALID_PARAMETER, None)
  end.

Definition VmDirMetaDataDeserialize (pszMetaData : option cstr) : dwerror * option attr_metadata :=
  match pszMetaData with
  | None => (VMDIR_ERROR_INVALID_PARAMETER, None)
  | Some s =>
      match VmDirStringToTokenList (Some s) (Some [colon]) with
      | (ERROR_SUCCESS, Some [t0; t1; t2; t3; t4]) =>
          match VmDirStringToINT64 (Some t0) with
          | (ERROR_SUCCESS, usn) =>
              match VmDirStringToUINT64 (Some t1) with
              | (ERROR_SUCCESS, ver) =>
                  match VmDirStringToINT64 (Some t4) with
                  | (ERROR_SUCCESS, ousn) => (ERROR_SUCCESS, Some (METADATA usn ver (Some t2) (Some t3) ousn))
                  | (err, _) => (err, None)
                  end
              | (err, _) => (err, None)
              end
          | (err, _) => (err, None)
          end
      | (ERROR_SUCCESS, _) => (VMDIR_ERROR_BACKEND_INVALID_METADATA, None)
      | (err, _) => (err, None)
      end
  end.

Definition VmDirMetaDataCopyContent (src dst : option attr_metadata) : dwerror * option attr_metadata :=
  match src, dst with
  | Some s, Some _ =>
      if VmDirMetaDataIsEmpty src then (VMDIR_ERROR_INVALID_PARAMETER, dst)
      else (ERROR_SUCCESS, Some s)
  | _, _ => (VMDIR_ERROR_INVALID_PARAMETER, dst)
  end.

Definition VmDirMetaDataCreate (usn ver : Z) (invo time : option cstr) (ousn : Z)
  : dwerror * option attr_metadata :=
  if IsNullOrEmptyString invo || IsNullOrEmptyString time then (VMDIR_ERROR_INVALID_PARAMETER, None)
  else (ERROR_SUCCESS, Some (METADATA usn ver invo time ousn)).

Definition VmDirMetaDataSetLocalUsn (md : option attr_metadata) (usn : Z) : dwerror * option attr_metadata :=
  match md with
  | Some m => (ERROR_SUCCESS, Some (METADATA usn (version m) (pszOrigInvoId m) (pszOrigTime m) (origUsn m)))
  | None => (VMDIR_ERROR_INVALID_PARAMETER, None)
  end.

Definition VmDirFreeMetaDataContent (md : option attr_metadata) : option attr_metadata :=
  match md with Some _ => Some (METADATA 0 0 None None 0) | None => None end.

(** ** Metadata with the attribute name *)

(** [strchr]: the bytes before and after the first [c]. *)
Fixpoint strchr (c : ascii) (s : cstr) : option (cstr * cstr) :=
  match s with
  | [] => None
  | d :: s => if bool_decide (c = d) then Some ([], s)
              else match strchr c s with Some (a, b) => Some (d :: a, b) | None => None end
  end.

(** The input string is cut at the first ':' in place: the third result is the
    string the caller is left with. *)
Definition VmDirReplMetaDataDeserialize (pszReplMetaData : option cstr)
  : dwerror * option repl_metadata * option cstr :=
  match pszReplMetaData with
  | None => (VMDIR_ERROR_INVALID_PARAMETER, None, None)
  | Some s =>
      match strchr colon s with
      | None => (VMDIR_ERROR_BACKEND_INVALID_METADATA, None, Some s)
      | Some (attr, rest) =>
          match VmDirMetaDataDeserialize (Some rest) with
          | (ERROR_SUCCESS, Some md) => (ERROR_SUCCESS, Some (REPL_METADATA attr md), Some attr)
          | (err, _) => (err, None, Some attr)
          end
      end
  end.

Definition VmDirReplMetaDataCreate (attr : option cstr) (usn ver : Z) (invo time : option cstr) (ousn : Z)
  : dwerror * option repl_metadata :=
  match attr with
  | Some a =>
      if IsNullOrEmptyString attr || IsNullOrEmptyString invo || IsNullOrEmptyString time
      then (VMDIR_ERROR_INVALID_PARAMETER, None)
      else match VmDirMetaDataCreate usn ver invo time ousn with
           | (ERROR_SUCCESS, Some md) => (ERROR_SUCCESS, Some (REPL_METADATA a md))
           | (err, _) => (err, None)
           end
  | None => (VMDIR_ERROR_INVALID_PARAMETER, None)
  end.

(** The loop of [VmDirAttributeMetaDataToList]: each value goes to the head. *)
Fixpoint metadata_list_loop (vals : list cstr) (acc : list repl_metadata) : dwerror * option (list repl_metadata) :=
  match vals with
  | [] => (ERROR_SUCCESS, Some acc)
  | v :: vals =>
      match VmDirReplMetaDataDeserialize (Some v) with
      | (ERROR_SUCCESS, Some r, _) => metadata_list_loop vals (r :: acc)
      | (err, _, _) => (err, None)
      end
  end.

Definition VmDirAttributeMetaDataToList (pAttr : option (list cstr)) : dwerror * option (list repl_metadata) :=
  match pAttr with
  | None => (VMDIR_ERROR_INVALID_PARAMETER, None)
  | Some vals => metadata_list_loop vals []
  end.

Section Maps.
Context `{HM : HashMap H}.

(** Moves every element of the list into the map. *)
Definition VmDirAttributeMetaDataListConvertToHashMap (l : option (list repl_metadata))
  : dwerror * option (H attr_metadata) :=
  match l with
  | None => (VMDIR_ERROR_INVALID_PARAMETER, None)
  | Some l => (ERROR_SUCCESS,
               Some (insert_all (map (λ r, (pszAttrType r, pMetaData r)) l) LwRtlCreateHashMap))
  end.

Fixpoint metadata_map_loop (vals : list cstr) (m : H attr_metadata) : dwerror * option (H attr_metadata) :=
  match vals with
  | [] => (ERROR_SUCCESS, Some m)
  | v :: vals =>
      match strchr colon v with
      | None => (VMDIR_ERROR_BACKEND_INVALID_METADATA, None)
      | Some (key, rest) =>
          match VmDirMetaDataDeserialize (Some rest) with
          | (ERROR_SUCCESS, Some md) => metadata_map_loop vals (LwRtlHashMapInsert m key md)
          | (err, _) => (err, None)
          end
      end
  end.

Definition VmDirAttributeMetaDataToHashMap (pAttr : option (list cstr)) : dwerror * option (H attr_metadata) :=
  match pAttr with
  | None => (VMDIR_ERROR_INVALID_PARAMETER, None)
  | Some vals => metadata_map_loop vals LwRtlCreateHashMap
  end.

End Maps.

(** ** Value metadata *)

(** The fields before the value. *)
Definition value_fields (v : value_metadata) : list cstr :=
  [vm_pszAttrType v; print_d (vm_localUsn v); print_u (vm_version v); vm_pszOrigInvoId v;
   pszValChgOrigInvoId v; pszValChgOrigTime v; print_d (valChgOrigUsn v);
   print_u (dwOpCode v); print_u (dwValSize v)].

Definition value_header (v : value_metadata) : cstr := concat (map (λ t, t ++ [colon]) (value_fields v)).

Definition VmDirValueMetaDataIsEmpty (v : option value_metadata) : bool :=
  match v with
  | None => true
  | Some v => IsNullOrEmptyString (Some (vm_pszAttrType v)) || (vm_localUsn v =? 0)
  end.

(** The first byte of the value decides whether it is an empty string. *)
Definition VmDirValueMetaDataIsValid (v : value_metadata) : bool :=
  negb (IsNullOrEmptyString (Some (vm_pszAttrType v))) &&
  negb (IsNullOrEmptyString (Some (vm_pszOrigInvoId v))) &&
  negb (IsNullOrEmptyString (Some (pszValChgOrigInvoId v))) &&
  negb (IsNullOrEmptyString (Some (pszValChgOrigTime v))) &&
  match pszValue v with [] => false | c :: _ => negb (bool_decide (c = NUL)) end &&
  negb (vm_localUsn v =? 0) && negb (valChgOrigUsn v =? 0).

(** The block that is allocated, and the length of the value in it; the block
    is zero-filled, so it stays NUL-terminated. *)
Definition VmDirValueMetaDataSerialize (v : option value_metadata) : dwerror * option (list ascii * Z) :=
  match v with
  | None => (VMDIR_ERROR_INVALID_PARAMETER, None)
  | Some m =>
      if VmDirValueMetaDataIsEmpty v then (VMDIR_ERROR_INVALID_PARAMETER, None)
      else
        let dwLength := u32 (Z.of_nat (length (vm_pszAttrType m)) + dwValSize m +
                             VMDIR_PARTIAL_ATTR_VALUE_META_DATA_LEN + 1) in
        let (_, head) := VmDirStringPrintFA dwLength (value_header m) in
        let partial := Z.of_nat (length head) in
        if dwValSize m >? dwLength - partial then (ERROR_INVALID_PARAMETER, None)
        else
          let body := head ++ take (Z.to_nat (dwValSize m)) (pszValue m) in
          (ERROR_SUCCESS,
           Some (body ++ replicate (Z.to_nat dwLength - length body) NUL, partial + dwValSize m))
  end.

(** The C string at the start of a block. *)
Definition c_string (b : list ascii) : option cstr := fst <$> read_cstr b.

(** [VALUE_META_TO_NEXT_FIELD]: past the next [n] colons; [None] when [strchr]
    finds none, which the macro does not check. *)
Fixpoint next_fields (n : nat) (b : list ascii) : option (list ascii) :=
  match n with
  | O => Some b
  | S n =>
      match c_string b with
      | None => None
      | Some s => match strchr colon s with
                  | Some (a, _) => next_fields n (drop (length a + 1) b)
                  | None => None
                  end
      end
  end.

(** The first [n] bytes of a block, inside it. *)
Definition copy_bytes (n : Z) (b : list ascii) : option (list ascii) :=
  if bool_decide (Z.to_nat n <= length b)%nat then Some (take (Z.to_nat n) b) else None.

(** [None] is undefined behaviour: no terminator, a missing colon, or a value
    that extends past the block. *)
Definition VmDirValueMetaDataDeserialize (b : list ascii) : option (dwerror * option value_metadata) :=
  match c_string b with
  | None => None
  | Some s =>
      match VmDirStringToTokenList (Some s) (Some [colon]) with
      | (ERROR_SUCCESS, Some (t0 :: t1 :: t2 :: t3 :: t4 :: t5 :: t6 :: t7 :: t8 :: _ :: _)) =>
          match VmDirStringToINT64 (Some t1), VmDirStringToUINT64 (Some t2), VmDirStringToINT64 (Some t6),
                VmDirStringToUINT32 (Some t7), VmDirStringToUINT32 (Some t8) with
          | (ERROR_SUCCESS, usn), (ERROR_SUCCESS, ver), (ERROR_SUCCESS, ousn), (ERROR_SUCCESS, op), (ERROR_SUCCESS, sz) =>
              match next_fields 9 b with
              | None => None
              | Some p =>
                  if sz <? 1 then Some (ERROR_INVALID_PARAMETER, None)
                  else match copy_bytes sz p with
                       | None => None
                       | Some val =>
                           let v := VALUE_METADATA t0 usn ver t3 t4 t5 ousn op sz val in
                           if VmDirValueMetaDataIsValid v then Some (ERROR_SUCCESS, Some v)
                           else Some (VMDIR_ERROR_BACKEND_INVALID_METADATA, None)
                       end
              end
          | _, _, _, _, _ => Some (VMDIR_ERROR_INVALID_PARAMETER, None)
          end
      | (ERROR_SUCCESS, _) => Some (VMDIR_ERROR_BACKEND_INVALID_METADATA, None)
      | (err, _) => Some (err, None)
      end
  end.

Definition VmDirValueMetaDataCreate (attr : option cstr) (usn ver : Z) (invo vinvo vtime : option cstr)
    (vusn op : Z) (val : option (list ascii)) : dwerror * option value_metadata :=
  match attr, invo, vinvo, vtime, val with
  | Some a, Some i, Some vi, Some vt, Some val =>
      if bool_decide (val = []) then (ERROR_INVALID_PARAMETER, None)
      else (ERROR_SUCCESS, Some (VALUE_METADATA a usn ver i vi vt vusn op (u32 (Z.of_nat (length val))) val))
  | _, _, _, _, _ => (VMDIR_ERROR_INVALID_PARAMETER, None)
  end.

(** The loop of [VmDirAttributeValueMetaDataToList]. *)
Fixpoint value_list_loop (vals : list (list ascii)) (acc : list value_metadata)
  : option (dwerror * option (list value_metadata)) :=
  match vals with
  | [] => Some (ERROR_SUCCESS, Some acc)
  | b :: vals =>
      match VmDirValueMetaDataDeserialize b with
      | Some (ERROR_SUCCESS, Some v) => value_list_loop vals (v :: acc)
      | Some (err, _) => Some (err, None)
      | None => None
      end
  end.

Definition VmDirAttributeValueMetaDataToList (pAttr : option (list (list ascii)))
  : option (dwerror * option (list value_metadata)) :=
  value_list_loop (default [] pAttr) [].

(** Moves the elements of the list to the end of the queue. *)
Definition VmDirAttributeValueMetaDataListConvertToDequeue (l q : list value_metadata)
  : list value_metadata * list value_metadata := ([], q ++ l).

(** ** Correctness *)

Lemma print_digits_length f n k :
  0 <= n < 10 ^ Z.of_nat k → (1 <= k)%nat → (length (print_digits f n) <= k)%nat.
Proof.
  revert n k. induction f as [|f IH]; intros n k Hn Hk; [cbn; lia |]. cbn [print_digits].
  rewrite length_app. cbn [length]. destruct (Z.ltb_spec n 10); [cbn; lia |].
  destruct k as [|[|k]]; [lia | cbn in Hn; lia |].
  assert (length (print_digits f (n / 10)) <= S k)%nat; [| lia]. apply IH; [| lia].
  rewrite Nat2Z.inj_succ, Z.pow_succ_r in Hn by lia.
  split; [apply Z.div_pos; lia | apply Z.div_lt_upper_bound; lia].
Qed.

Lemma print_u_length n k : 0 <= n < 10 ^ Z.of_nat k → (1 <= k)%nat → (length (print_u n) <= k)%nat.
Proof. apply print_digits_length. Qed.

Lemma print_d_length n : is_s64 n → (length (print_d n) <= 20)%nat.
Proof.
  intros Hn. unfold is_s64 in Hn. unfold print_d. destruct (Z.ltb_spec n 0); cbn [length].
  - assert (length (print_u (- n)) <= 19)%nat; [apply print_u_length; [cbn; lia | lia] | lia].
  - assert (length (print_u n) <= 19)%nat; [apply print_u_length; [cbn; lia | lia] | lia].
Qed.

Lemma s64_range n : is_s64 (s64 n).
Proof.
  unfold is_s64, s64. pose proof (Z.mod_pos_bound n (2 ^ 64) ltac:(lia)).
  destruct (Z.ltb_spec (n mod 2 ^ 64) (2 ^ 63)); lia.
Qed.

Lemma print_u_clean n d : is_u64 n → (d = comma ∨ d = colon) → clean [d] (print_u n).
Proof.
  intros Hn Hd. destruct (print_u_spec n Hn) as (Hdig & Hne & _). split; [done |].
  eapply Forall_impl; [exact Hdig |]. cbn. intros c Hc. apply bool_decide_eq_false.
  intros ->%list_elem_of_singleton. by destruct Hd; subst d.
Qed.

(** A text field: not empty, without ':', short enough for its column. *)
Definition field_ok (n : nat) (s : cstr) : Prop := clean [colon] s ∧ (length s <= n)%nat.

(** Metadata as the server makes it: a GUID and a time stamp as text. *)
Definition metadata_ok (md : attr_metadata) : Prop :=
  is_s64 (localUsn md) ∧ is_u64 (version md) ∧ is_s64 (origUsn md) ∧
  (∃ i, pszOrigInvoId md = Some i ∧ field_ok 36 i) ∧ (∃ t, pszOrigTime md = Some t ∧ field_ok 18 t).

Lemma deserialize_join md :
  metadata_ok md → VmDirMetaDataDeserialize (Some (join (metadata_fields md) [colon])) = (ERROR_SUCCESS, Some md).
Proof.
  destruct md as [usn ver oi ot ousn]. intros (Hu & Hv & Ho & (i & Hi & Hic & _) & (t & Ht & Htc & _)).
  cbn [localUsn version pszOrigInvoId pszOrigTime origUsn] in *. subst oi ot.
  unfold VmDirMetaDataDeserialize. rewrite token_list_join; [| done |].
  - cbn [metadata_fields print_s localUsn version pszOrigInvoId pszOrigTime origUsn].
    unfold VmDirStringToINT64, VmDirStringToUINT64.
    by rewrite !strtoll_print, strtoull_print_d by done.
  - cbn [metadata_fields print_s localUsn version pszOrigInvoId pszOrigTime origUsn].
    unfold metadata_fields. rewrite !Forall_cons. pose proof (s64_range ver).
    do 2 (split; [apply print_d_clean; [done | by right] |]). split; [done |]. split; [done |].
    split; [apply print_d_clean; [done | by right] | constructor].
Qed.

(** The text fits the buffer whatever the numbers are. *)
Lemma metadata_length md : metadata_ok md → (length (join (metadata_fields md) [colon]) <= 120)%nat.
Proof.
  intros (Hu & Hv & Ho & (i & Hi & _ & Hil) & (t & Ht & _ & Htl)).
  unfold metadata_fields. cbn [join]. rewrite Hi, Ht. cbn [print_s]. rewrite !length_app. cbn [length].
  pose proof (print_d_length (localUsn md) Hu). pose proof (print_d_length (s64 (version md)) (s64_range _)).
  pose proof (print_d_length (origUsn md) Ho). lia.
Qed.

Lemma serialize_join md :
  metadata_ok md → VmDirMetaDataSerialize (Some md) = (ERROR_SUCCESS, Some (join (metadata_fields md) [colon])).
Proof.
  intros Hmd. pose proof (metadata_length md Hmd). destruct Hmd as (_ & _ & _ & (i & Hi & _) & _).
  unfold VmDirMetaDataSerialize, VmDirMetaDataIsEmpty, VmDirStringPrintFA, snprintf. rewrite Hi.
  f_equal. f_equal. apply take_ge. change (Z.to_nat (VMDIR_MAX_ATTR_META_DATA_LEN - 1)) with 120%nat. lia.
Qed.

Lemma strchr_clean c t r : clean [c] t → strchr c (t ++ c :: r) = Some (t, r).
Proof.
  intros [_ Ht]. induction Ht as [|d t Hd Ht IH]; cbn; [by rewrite bool_decide_eq_true_2 |].
  apply bool_decide_eq_false in Hd. rewrite bool_decide_eq_false_2; [by rewrite IH |].
  intros ->. apply Hd. left.
Qed.

(** C33: Attribute metadata survives serialisation: the text fits the buffer of
    [VMDIR_MAX_ATTR_META_DATA_LEN] bytes for every value of its 64-bit fields,
    and deserialising it gives back the same record, although the unsigned
    version is printed as a signed number; the form with the attribute name in
    front reads back name and record. *)
Theorem metadata_roundtrip md attr :
  metadata_ok md → clean [colon] attr →
  ∃ s, VmDirMetaDataSerialize (Some md) = (ERROR_SUCCESS, Some s) ∧
    Z.of_nat (length s) < VMDIR_MAX_ATTR_META_DATA_LEN ∧
    VmDirMetaDataDeserialize (Some s) = (ERROR_SUCCESS, Some md) ∧
    VmDirReplMetaDataDeserialize (Some (attr ++ colon :: s)) =
      (ERROR_SUCCESS, Some (REPL_METADATA attr md), Some attr).
Proof.
  intros Hmd Hattr. pose proof (serialize_join md Hmd) as Hser. eexists. split; [exact Hser |]. split.
  - pose proof (metadata_length md Hmd). change VMDIR_MAX_ATTR_META_DATA_LEN with 121. lia.
  - pose proof (deserialize_join md Hmd) as Hde. split; [done |].
    unfold VmDirReplMetaDataDeserialize. rewrite strchr_clean by done. by rewrite Hde.
Qed.

(** *** Lists and maps of metadata *)

Section MapProofs.
Context `{HM : HashMap H}.

Lemma deserialize_some s : VmDirMetaDataDeserialize s ≠ (ERROR_SUCCESS, None).
Proof. unfold VmDirMetaDataDeserialize. repeat case_match; congruence. Qed.

(** Both loops parse the same values and fail on the same one. *)
Lemma metadata_loops vals (m : H attr_metadata) acc :
  let rm := metadata_map_loop vals m in
  let rl := metadata_list_loop vals acc in
  rm.1 = rl.1 ∧
  (rm.1 = ERROR_SUCCESS →
   ∃ rs, rl.2 = Some (rev_append rs acc) ∧
     rm.2 = Some (insert_all (map (λ r, (pszAttrType r, pMetaData r)) rs) m)).
Proof.
  revert m acc. induction vals as [|v vals IH]; intros m acc; cbn [metadata_map_loop metadata_list_loop].
  { split; [done |]. intros _. by exists []. }
  unfold VmDirReplMetaDataDeserialize. destruct (strchr colon v) as [[k rest]|]; [| done].
  pose proof (deserialize_some (Some rest)) as Hne.
  destruct (VmDirMetaDataDeserialize (Some rest)) as [err [md|]]; [| by destruct err].
  destruct err; try done. destruct (IH (LwRtlHashMapInsert m k md) (REPL_METADATA k md :: acc)) as [H1 H2].
  split; [done |]. intros Hs. destruct (H2 Hs) as (rs & Hl & Hm). exists (REPL_METADATA k md :: rs).
  split; [done | exact Hm].
Qed.

(** Building the metadata map directly from an attribute's values, or
    through the linked list of deserialised metadata (which reverses them),
    fails on the same inputs with the same error and otherwise yields the same
    map, provided no attribute name occurs twice up to case. *)
Theorem metadata_maps_agree vals :
  let rm := VmDirAttributeMetaDataToHashMap (H := H) (Some vals) in
  let rl := VmDirAttributeMetaDataToList (Some vals) in
  rm.1 = rl.1 ∧
  (rm.1 = ERROR_SUCCESS →
   ∃ m1 l m2, rm.2 = Some m1 ∧ rl.2 = Some l ∧
     VmDirAttributeMetaDataListConvertToHashMap (Some l) = (ERROR_SUCCESS, Some m2) ∧
     (NoDup (map (λ r, ckey (pszAttrType r)) l) → hm_equiv m1 m2)).
Proof.
  intros rm rl. destruct (metadata_loops vals LwRtlCreateHashMap []) as [H1 H2]. split; [exact H1 |].
  intros Hs. destruct (H2 Hs) as (rs & Hl & Hm).
  exists (insert_all (map (λ r, (pszAttrType r, pMetaData r)) rs) LwRtlCreateHashMap), (rev_append rs []).
  eexists. split; [exact Hm |]. split; [exact Hl |]. split; [reflexivity |]. intros Hnd.
  symmetry. apply insert_all_perm.
  - rewrite <- rev_alt. apply Permutation_map. symmetry. apply Permutation_rev.
  - rewrite map_map. exact Hnd.
Qed.

End MapProofs.

(** *** Values *)

(** A value the text form can carry: before its first NUL there is a byte other
    than ':'. *)
Definition val_ok (val : list ascii) : Prop :=
  ∃ p c r, val = p ++ c :: r ∧ NUL ∉ p ∧ c ≠ NUL ∧ c ≠ colon.

Definition text_ok (n : nat) (s : cstr) : Prop := field_ok n s ∧ NUL ∉ s.

Definition value_ok (v : value_metadata) : Prop :=
  clean [colon] (vm_pszAttrType v) ∧ NUL ∉ vm_pszAttrType v ∧
  (is_s64 (vm_localUsn v) ∧ vm_localUsn v ≠ 0) ∧ is_u64 (vm_version v) ∧
  text_ok 36 (vm_pszOrigInvoId v) ∧ text_ok 36 (pszValChgOrigInvoId v) ∧ text_ok 18 (pszValChgOrigTime v) ∧
  (is_s64 (valChgOrigUsn v) ∧ valChgOrigUsn v ≠ 0) ∧ is_u32 (dwOpCode v) ∧
  dwValSize v = Z.of_nat (length (pszValue v)) ∧
  Z.of_nat (length (vm_pszAttrType v)) + dwValSize v + 184 < 2 ^ 32 ∧ val_ok (pszValue v).

Lemma read_cstr_app h b s r : NUL ∉ h → read_cstr b = Some (s, r) → read_cstr (h ++ b) = Some (h ++ s, r).
Proof.
  intros Hh Hb. induction h as [|c h IH]; [done |]. apply not_elem_of_cons in Hh as [Hc Hh]. cbn.
  rewrite bool_decide_eq_false_2 by congruence. by rewrite IH.
Qed.

Lemma read_cstr_total b r : ∃ s r', read_cstr (b ++ NUL :: r) = Some (s, r').
Proof.
  induction b as [|c b (s & r' & IH)]; cbn; [eauto |]. case_bool_decide; [eauto |]. rewrite IH. eauto.
Qed.

Lemma token_loop_app fuel c ts rest :
  (length ts <= fuel)%nat → Forall (clean [c]) ts →
  token_loop fuel (concat (map (λ t, t ++ [c]) ts) ++ rest) [c] =
  ts ++ token_loop (fuel - length ts) rest [c].
Proof.
  intros Hf Hts. revert fuel Hf. induction Hts as [|t ts Ht Hts IH]; intros fuel Hf.
  { cbn. by rewrite Nat.sub_0_r. }
  destruct fuel as [|fuel]; [cbn in Hf; lia |]. cbn [token_loop map concat length] in *.
  rewrite <- !app_assoc. cbn [app]. rewrite tok_clean; [| done | apply bool_decide_eq_true; left].
  f_equal. apply IH. lia.
Qed.

Lemma tok_found s c d : c ∈ s → c ≠ d → is_Some (VmDirStringTokA s [d]).
Proof.
  intros Hin Hne. unfold VmDirStringTokA. induction s as [|x s IH]; [by inversion Hin |]. cbn [skip_delims].
  destruct (is_delim [d] x) eqn:Hx; [| by eexists]. apply IH.
  apply elem_of_cons in Hin as [-> | Hin]; [| done].
  apply bool_decide_eq_true in Hx. by apply list_elem_of_singleton in Hx.
Qed.

Lemma next_fields_spec ts b s r :
  Forall (λ t, clean [colon] t ∧ NUL ∉ t) ts → read_cstr b = Some (s, r) →
  next_fields (length ts) (concat (map (λ t, t ++ [colon]) ts) ++ b) = Some b.
Proof.
  intros Hts Hb. induction Hts as [|t ts [Ht Hn] Hts IH]; [done |]. cbn [length next_fields map concat].
  rewrite <- !app_assoc. cbn [app]. unfold c_string.
  assert (NUL ∉ concat (map (λ t, t ++ [colon]) ts)) as Hnc.
  { clear -Hts. induction Hts as [|t ts [_ Hn] Hts IH]; cbn; [apply not_elem_of_nil |].
    rewrite !not_elem_of_app. split; [| done]. split; [done |]. by apply not_elem_of_single. }
  pose proof (read_cstr_app _ _ _ _ Hnc Hb) as Hr1.
  pose proof (read_cstr_app (t ++ [colon]) _ _ _ ltac:(rewrite not_elem_of_app; split; [done |];
    by apply not_elem_of_single) Hr1) as Hr2.
  rewrite <- app_assoc in Hr2. cbn [app] in Hr2. rewrite Hr2. cbn [fmap option_fmap option_map fst].
  rewrite <- app_assoc. cbn [app]. rewrite strchr_clean by done.
  rewrite Nat.add_comm. cbn [Nat.add]. change (t ++ colon :: ?x) with (t ++ [colon] ++ x).
  rewrite app_assoc, drop_app_length' by (rewrite length_app; cbn; lia). exact IH.
Qed.

Lemma value_fields_ok v : value_ok v → Forall (λ t, clean [colon] t ∧ NUL ∉ t) (value_fields v).
Proof.
  intros (Ha & Han & (Hu & _) & Hv & [[Hi _] Hin] & [[Hvi _] Hvin] & [[Ht _] Htn] & (Hvu & _) & Hop & Hsz & Htot & _).
  assert (∀ n, is_s64 n → clean [colon] (print_d n) ∧ NUL ∉ print_d n) as Hd.
  { intros n Hn. split; [apply print_d_clean; [done | by right] |]. intros Hx.
    by destruct (print_d_chars n NUL Hn Hx). }
  assert (∀ n, is_u64 n → clean [colon] (print_u n) ∧ NUL ∉ print_u n) as Hpu.
  { intros n Hn. split; [apply print_u_clean; [done | by right] |]. intros Hx.
    destruct (print_u_spec n Hn) as (Hdig & _). unfold digits in Hdig. rewrite Forall_forall in Hdig.
    by specialize (Hdig NUL Hx). }
  unfold is_u32 in Hop. unfold value_fields. rewrite !Forall_cons.
  repeat (split; [by auto || (apply Hpu; unfold is_u64; lia) |]). constructor.
Qed.

Lemma value_header_length v : value_ok v → (length (value_header v) <= length (vm_pszAttrType v) + 179)%nat.
Proof.
  intros (Ha & Han & (Hu & _) & Hv & [[_ Hi] _] & [[_ Hvi] _] & [[_ Ht] _] & (Hvu & _) & Hop & Hsz & Htot & _).
  unfold value_header, value_fields. cbn [map concat]. rewrite !length_app. cbn [length].
  pose proof (print_d_length _ Hu). pose proof (print_d_length _ Hvu).
  unfold is_u64 in Hv. unfold is_u32 in Hop.
  pose proof (print_u_length (vm_version v) 20 ltac:(cbn; lia) ltac:(lia)).
  pose proof (print_u_length (dwOpCode v) 10 ltac:(cbn; lia) ltac:(lia)).
  pose proof (print_u_length (dwValSize v) 10 ltac:(cbn; lia) ltac:(lia)). lia.
Qed.

(** The block that [VmDirValueMetaDataSerialize] makes. *)
Lemma value_serialize v :
  value_ok v → ∃ k, VmDirValueMetaDataSerialize (Some v) =
    (ERROR_SUCCESS, Some (value_header v ++ pszValue v ++ NUL :: replicate k NUL,
                          Z.of_nat (length (value_header v ++ pszValue v)))).
Proof.
  intros Hok. pose proof (value_header_length v Hok) as Hlen.
  destruct Hok as ((Ha & _) & _ & (_ & Hu) & _ & _ & _ & _ & _ & _ & Hsz & Htot & _).
  unfold VmDirValueMetaDataSerialize, VmDirValueMetaDataIsEmpty, IsNullOrEmptyString.
  destruct (vm_pszAttrType v) as [|x a] eqn:Hattr; [done |]. rewrite <- Hattr in *.
  rewrite (proj2 (Z.eqb_neq _ _) Hu). cbn [orb].
  change VMDIR_PARTIAL_ATTR_VALUE_META_DATA_LEN with 183. rewrite u32_id by (unfold is_u32; lia).
  unfold VmDirStringPrintFA, snprintf. rewrite take_ge by lia.
  set (n := Z.of_nat (length (vm_pszAttrType v)) + dwValSize v + 183 + 1) in *.
  destruct (Z.gtb_spec (dwValSize v) (n - Z.of_nat (length (value_header v)))); [lia |].
  rewrite Hsz, Nat2Z.id, (take_ge (pszValue v)) by done.
  rewrite length_app. set (k := (Z.to_nat n - (length (value_header v) + length (pszValue v)))%nat).
  exists (k - 1)%nat. f_equal. f_equal. f_equal; [| lia]. rewrite <- app_assoc. f_equal. f_equal.
  change (NUL :: replicate (k - 1) NUL) with (replicate (S (k - 1)) NUL). f_equal. lia.
Qed.

Lemma value_tokens v p c s :
  value_ok v → c ≠ colon →
  ∃ x xs, VmDirStringToTokenList (Some (value_header v ++ p ++ c :: s)) (Some [colon]) =
    (ERROR_SUCCESS, Some (value_fields v ++ x :: xs)).
Proof.
  intros Hok Hc. pose proof (value_fields_ok v Hok) as Hf.
  assert (Forall (clean [colon]) (value_fields v)) as Hcl by (eapply Forall_impl; [exact Hf |]; by intros t [? _]).
  set (rest := p ++ c :: s). assert (9 <= length (value_header v))%nat as Hl9.
  { unfold value_header, value_fields. cbn [map concat]. rewrite !length_app. cbn [length]. lia. }
  destruct (tok_found rest c colon) as [[x r] Hx]; [unfold rest; apply elem_of_app; right; left | done |].
  exists x, (token_loop (length (value_header v) + length rest - 9) r [colon]). unfold VmDirStringToTokenList.
  destruct (value_header v ++ rest) as [|y t] eqn:Hs; [apply app_nil in Hs as [Hs _]; rewrite Hs in Hl9; cbn in Hl9; lia |].
  cbn [IsNullOrEmptyString orb]. rewrite <- Hs. unfold value_header at 2.
  rewrite token_loop_app; [| rewrite length_app; cbn [length value_fields]; lia | done].
  rewrite length_app. change (length (value_fields v)) with 9%nat.
  replace (S (length (value_header v) + length rest) - 9)%nat
    with (S (length (value_header v) + length rest - 9)) by lia.
  cbn [token_loop]. rewrite Hx. reflexivity.
Qed.

(** The five numbers of the header read back. *)
Lemma value_numbers v {A} (k : Z → Z → Z → Z → Z → A) (e : A) :
  value_ok v →
  match VmDirStringToINT64 (Some (print_d (vm_localUsn v))), VmDirStringToUINT64 (Some (print_u (vm_version v))),
        VmDirStringToINT64 (Some (print_d (valChgOrigUsn v))), VmDirStringToUINT32 (Some (print_u (dwOpCode v))),
        VmDirStringToUINT32 (Some (print_u (dwValSize v))) with
  | (ERROR_SUCCESS, usn), (ERROR_SUCCESS, ver), (ERROR_SUCCESS, ousn), (ERROR_SUCCESS, op), (ERROR_SUCCESS, sz) =>
      k usn ver ousn op sz
  | _, _, _, _, _ => e
  end = k (vm_localUsn v) (vm_version v) (valChgOrigUsn v) (dwOpCode v) (dwValSize v).
Proof.
  intros (_ & _ & (Hu & _) & Hv & _ & _ & _ & (Hvu & _) & Hop & Hsz & Htot & _). unfold is_u32 in Hop.
  unfold VmDirStringToINT64, VmDirStringToUINT64, VmDirStringToUINT32.
  rewrite !strtoll_print, !strtoull_print_u by (done || (unfold is_u64; lia)).
  by rewrite !u32_id by (unfold is_u32; lia).
Qed.

(** Value metadata survives serialisation: the header fits the block that
    is allocated for it, the value is carried as a blob that may contain ':' and
    NUL bytes, and deserialising the block gives back the same record. *)
Theorem value_metadata_roundtrip v :
  value_ok v →
  ∃ b n, VmDirValueMetaDataSerialize (Some v) = (ERROR_SUCCESS, Some (b, n)) ∧
    0 <= n < Z.of_nat (length b) ∧
    VmDirValueMetaDataDeserialize b = Some (ERROR_SUCCESS, Some v).
Proof.
  intros Hok. destruct (value_serialize v Hok) as [k Hser]. eexists _, _. split; [exact Hser |].
  split; [rewrite !length_app; cbn; lia |].
  pose proof (value_fields_ok v Hok) as Hf.
  pose proof Hok as (_ & _ & (Hu & Hu0) & Hv & [[[Hi _] _] _] & [[[Hvi _] _] _] & [[[Ht _] _] _] &
    (Hvu & Hvu0) & Hop & Hsz & Htot & (p & c & r & Hval & Hp & Hc & Hcc)).
  destruct (read_cstr_total r (replicate k NUL)) as (s & r' & Hr).
  assert (read_cstr (pszValue v ++ NUL :: replicate k NUL) = Some (p ++ c :: s, r')) as Hrv.
  { rewrite Hval, <- app_assoc. change ((c :: r) ++ ?x) with ([c] ++ r ++ x).
    rewrite app_assoc. rewrite (read_cstr_app (p ++ [c]) _ s r'); [by rewrite <- app_assoc | | done].
    rewrite not_elem_of_app. split; [done |]. apply not_elem_of_single. congruence. }
  assert (NUL ∉ value_header v) as Hnh.
  { unfold value_header. clear -Hf. induction Hf as [|t ts [_ Hn] _ IH]; cbn; [apply not_elem_of_nil |].
    rewrite !not_elem_of_app. split; [| done]. split; [done |]. by apply not_elem_of_single. }
  unfold VmDirValueMetaDataDeserialize, c_string.
  rewrite (read_cstr_app _ _ _ _ Hnh Hrv). cbn [fmap option_fmap option_map fst].
  destruct (value_tokens v p c s Hok Hcc) as (x & xs & ->).
  cbn [value_fields app]. rewrite (value_numbers v) by done. unfold value_header.
  change 9%nat with (length (value_fields v)). rewrite (next_fields_spec _ _ _ _ Hf Hrv).
  destruct (Z.ltb_spec (dwValSize v) 1); [rewrite Hsz, Hval, length_app in *; cbn in *; lia |].
  unfold copy_bytes. rewrite Hsz, Nat2Z.id, length_app, bool_decide_eq_true_2 by lia.
  rewrite take_app_length, <- Hsz.
  assert (VmDirValueMetaDataIsValid v = true) as Hvalid; [| by destruct v; cbn in *; rewrite Hvalid].
  unfold VmDirValueMetaDataIsValid. rewrite (proj2 (Z.eqb_neq _ _) Hu0), (proj2 (Z.eqb_neq _ _) Hvu0).
  destruct Hok as ((Ha & _) & _). unfold IsNullOrEmptyString.
  assert (match pszValue v with [] => false | c :: _ => negb (bool_decide (c = NUL)) end = true) as ->.
  { rewrite Hval. destruct p as [|y p]; cbn; [by rewrite bool_decide_eq_false_2 |].
    apply not_elem_of_cons in Hp as [Hy _]. by rewrite bool_decide_eq_false_2. }
  by destruct (vm_pszAttrType v), (vm_pszOrigInvoId v), (pszValChgOrigInvoId v), (pszValChgOrigTime v).
Qed.

(** Metadata of a change to attribute [a]. *)
Definition md_ex : attr_metadata := METADATA 12 18446744073709551615 (Some ["i"%char]) (Some ["t"%char]) (-3).
Definition vm_ex (val : list ascii) : value_metadata :=
  VALUE_METADATA ["a"%char] 12 1 ["i"%char] ["j"%char] ["t"%char] 9 2 (Z.of_nat (length val)) val.

(** A value made of ':' bytes only does not survive: serialising succeeds
    but deserialising the block reports invalid metadata, since the tokeniser
    drops the empty tokens that the value consists of. *)
Theorem value_metadata_colon_lost :
  ∃ b n, VmDirValueMetaDataSerialize (Some (vm_ex [colon])) = (ERROR_SUCCESS, Some (b, n)) ∧
    VmDirValueMetaDataDeserialize b = Some (VMDIR_ERROR_BACKEND_INVALID_METADATA, None).
Proof. eexists _, _. split; [vm_compute; reflexivity |]. vm_compute. reflexivity. Qed.

Ltac eval_clean := split; [done | apply (bool_decide_unpack (Forall _ _)); vm_compute; exact I].
Ltac eval_notin := apply (bool_decide_unpack (_ ∉ _)); vm_compute; exact I.
Ltac eval_text := split; [split; [eval_clean | cbn; lia] | eval_notin].

Lemma metadata_roundtrip_witness :
  ∃ s, VmDirMetaDataSerialize (Some md_ex) = (ERROR_SUCCESS, Some s) ∧
    Z.of_nat (length s) < VMDIR_MAX_ATTR_META_DATA_LEN ∧
    VmDirMetaDataDeserialize (Some s) = (ERROR_SUCCESS, Some md_ex) ∧
    VmDirReplMetaDataDeserialize (Some (["a"%char] ++ colon :: s)) =
      (ERROR_SUCCESS, Some (REPL_METADATA ["a"%char] md_ex), Some ["a"%char]).
Proof.
  apply (metadata_roundtrip md_ex ["a"%char]); [| eval_clean].
  split; [done |]. split; [done |]. split; [done |]. split.
  - exists ["i"%char]. split; [done |]. split; [eval_clean | cbn; lia].
  - exists ["t"%char]. split; [done |]. split; [eval_clean | cbn; lia].
Defined.

Lemma metadata_maps_agree_witness :
  let vals := [["a"; ":"; "1"; ":"; "2"; ":"; "i"; ":"; "t"; ":"; "3"]%char;
               ["b"; ":"; "4"; ":"; "5"; ":"; "i"; ":"; "t"; ":"; "6"]%char] in
  ∃ m1 l m2, (VmDirAttributeMetaDataToHashMap (H := assoc) (Some vals)).2 = Some m1 ∧
     (VmDirAttributeMetaDataToList (Some vals)).2 = Some l ∧
     VmDirAttributeMetaDataListConvertToHashMap (Some l) = (ERROR_SUCCESS, Some m2) ∧
     (NoDup (map (λ r, ckey (pszAttrType r)) l) → hm_equiv m1 m2).
Proof.
  intros vals. apply (proj2 (metadata_maps_agree vals)). reflexivity.
Defined.

Lemma value_metadata_roundtrip_witness :
  let v := vm_ex [colon; "x"%char; NUL; colon] in
  ∃ b n, VmDirValueMetaDataSerialize (Some v) = (ERROR_SUCCESS, Some (b, n)) ∧
    0 <= n < Z.of_nat (length b) ∧
    VmDirValueMetaDataDeserialize b = Some (ERROR_SUCCESS, Some v).
Proof.
  apply (value_metadata_roundtrip (vm_ex [colon; "x"%char; NUL; colon])).
  split; [eval_clean |]. split; [eval_notin |]. split; [done |]. split; [done |].
  do 3 (split; [eval_text |]). do 4 (split; [done |]).
  exists [colon], "x"%char, [NUL; colon]. split; [done |]. split; [eval_notin | done].
Defined.
