(* ===== verification/Conflict.v ===== *)
(** * Conflict: replication conflict resolution

    [vmdir/server/replication2/conflictresolution.c], the one the default
    configuration builds: which of two versions of an
    attribute survives, for a whole change and for a single value.  The backend
    and the schema lookups are arguments (their outcome for each attribute);
    the check for benign conflicts only decides what is logged and is left out.
    The theorems show that the rule is a strict order, so that replicas that
    have seen the same updates agree whatever the order of delivery. *)

From S2P Require Import Prelude Heap StringList CString HashMap UtdVector Metadata.

Open Scope Z_scope.

Definition ATTR_OBJECT_GUID : cstr := ["o"; "b"; "j"; "e"; "c"; "t"; "G"; "U"; "I"; "D"]%char.
Definition ATTR_USN_CHANGED : cstr := ["u"; "S"; "N"; "C"; "h"; "a"; "n"; "g"; "e"; "d"]%char.

(** ** Operations *)

(** The supplier wins with a higher version, with the same version and a
    greater server id (caseless, over the length of a GUID), or with both the
    same and a greater originating USN. *)
Definition _VmDirReplAttrConflictCheck (s c : attr_metadata) : bool :=
  let cmp := VmDirStringNCompareA (default [] (pszOrigInvoId s)) (default [] (pszOrigInvoId c))
               (Z.to_nat VMDIR_GUID_STR_LEN) false in
  (version s >? version c) ||
  ((version s =? version c) && (cmp >? 0)) ||
  ((version s =? version c) && (cmp =? 0) && (origUsn s >? origUsn c)).

(** What [pfnBEGetAttrMetaData] returns for an attribute of the entry. *)
Inductive be_result := BE_FOUND (md : attr_metadata) | BE_NOTFOUND | BE_FAILED.

Section Resolve.
Context (compare : cstr → cstr → bool → Z).
(** Does [VmDirAttributeAllocate] know the attribute; the backend's answer. *)
Context (attr_known : cstr → bool) (backend : cstr → be_result).

(** One turn of the loop: the supplier's metadata after it, or an error. *)
Definition resolve_one (attr : cstr) (s : attr_metadata) : dwerror * attr_metadata :=
  if compare attr ATTR_OBJECT_GUID false =? 0 then (ERROR_SUCCESS, s)
  else if negb (attr_known attr) then (LDAP_OPERATIONS_ERROR, s)
  else
    match backend attr with
    | BE_NOTFOUND => (ERROR_SUCCESS, s)
    | BE_FAILED => (ERROR_SUCCESS, s) (* the macro tests retVal, which is 0 *)
    | BE_FOUND c =>
        if _VmDirReplAttrConflictCheck s c then (ERROR_SUCCESS, s)
        else if compare attr ATTR_USN_CHANGED false =? 0
        then match VmDirMetaDataCopyContent (Some c) (Some s) with
             | (ERROR_SUCCESS, Some s') => (ERROR_SUCCESS, s')
             | (err, _) => (err, s)
             end
        else (ERROR_SUCCESS, default s (VmDirFreeMetaDataContent (Some s)))
    end.

(** The loop over the pairs of the map: the values are changed in place. *)
Fixpoint resolve_loop (kvs : list (cstr * attr_metadata)) : dwerror * list (cstr * attr_metadata) :=
  match kvs with
  | [] => (ERROR_SUCCESS, [])
  | (k, s) :: kvs =>
      match resolve_one k s with
      | (ERROR_SUCCESS, s') => let (err, r) := resolve_loop kvs in (err, (k, s') :: r)
      | (err, s') => (err, (k, s') :: kvs)
      end
  end.

Definition VmDirReplResolveConflicts (kvs : list (cstr * attr_metadata)) : dwerror * list (cstr * attr_metadata) :=
  resolve_loop kvs.

(** One turn of the loop over the consumer's changes of the attribute. *)
Definition value_scope_step (s : value_metadata) (inScope : bool) (c : value_metadata) : bool :=
  if negb (dwValSize c =? dwValSize s) ||
     negb (bool_decide (take (Z.to_nat (dwValSize c)) (pszValue c) = take (Z.to_nat (dwValSize c)) (pszValue s)))
  then inScope
  else if compare (pszValChgOrigTime c) (pszValChgOrigTime s) true >? 0 then false
  else inScope.

(** [inl]: the backend's error for the metadata of the attribute or of its
    values.  The result is the error code and [*pInScope]. *)
Definition VmDirReplResolveValueMetaDataConflicts (md : dwerror + attr_metadata) (s : value_metadata)
    (queue : dwerror + list value_metadata) : dwerror * bool :=
  match md with
  | inl err => (err, true)
  | inr md =>
      if negb (vm_version s =? version md) ||
         negb (compare (vm_pszOrigInvoId s) (default [] (pszOrigInvoId md)) true =? 0)
      then (ERROR_SUCCESS, false)
      else match queue with
           | inl err => (err, true)
           | inr q =>
               (ERROR_SUCCESS,
                foldl (value_scope_step s) true q)
           end
  end.

End Resolve.

(** ** The order of the rule *)

Section Order.

Lemma strncmp_antisym key n a b : strncmp_by key n b a = - strncmp_by key n a b.
Proof.
  revert a b. induction n as [|n IH]; intros [|x a] [|y b]; cbn; try lia.
  destruct (Z.eqb_spec (key x) (key y)) as [He | Hne].
  - by rewrite He, Z.eqb_refl, IH.
  - destruct (Z.eqb_spec (key y) (key x)); lia.
Qed.

(** Strings without bytes of key 0: C strings. *)
Definition positive (key : ascii → Z) (a : cstr) : Prop := Forall (λ x, 0 < key x) a.

Lemma strncmp_trans key n a b c :
  positive key a → positive key b → positive key c →
  strncmp_by key n a b <= 0 → strncmp_by key n b c <= 0 → strncmp_by key n a c <= 0.
Proof.
  revert a b c. induction n as [|n IH]; intros a b c Ha Hb Hc; [done |].
  destruct a as [|x a], b as [|y b], c as [|z c]; cbn;
    repeat match goal with H : positive _ (_ :: _) |- _ => apply Forall_cons in H as [? ?] end; try lia.
  destruct (Z.eqb_spec (key x) (key y)) as [E1 | E1], (Z.eqb_spec (key y) (key z)) as [E2 | E2],
    (Z.eqb_spec (key x) (key z)) as [E3 | E3]; try lia. by apply IH.
Qed.

Lemma strncmp_zero key n a b :
  positive key a → positive key b →
  strncmp_by key n a b = 0 ↔ map key (take n a) = map key (take n b).
Proof.
  revert a b. induction n as [|n IH]; intros a b Ha Hb; [done |].
  destruct a as [|x a], b as [|y b]; cbn;
    repeat match goal with H : positive _ (_ :: _) |- _ => apply Forall_cons in H as [? ?] end.
  - done.
  - split; [lia | done].
  - split; [lia | done].
  - destruct (Z.eqb_spec (key x) (key y)) as [He | Hne].
    + rewrite IH by done. rewrite He. split; [by intros -> | by intros [= ->]].
    + split; [lia | by intros [= ? _]].
Qed.

Lemma tolower_positive a : NUL ∉ a → positive tolower a.
Proof.
  intros Ha. apply Forall_forall. intros x Hx. unfold tolower. pose proof (byte_range x) as Hr.
  assert (byte x ≠ 0).
  { intros H0. apply Ha. replace NUL with x; [done |]. apply byte_inj. by rewrite H0. }
  destruct ((65 <=? byte x) && (byte x <=? 90)) eqn:Hb; lia.
Qed.

(** Metadata with an invocation id. *)
Definition stamped (m : attr_metadata) : Prop := ∃ i, pszOrigInvoId m = Some i ∧ NUL ∉ i.

(** The part of the metadata the rule looks at. *)
Definition stamp (m : attr_metadata) : Z * list Z * Z :=
  (version m, map tolower (take 37 (default [] (pszOrigInvoId m))), origUsn m).

(** [beats s c]: the supplier's update replaces the consumer's. *)
Definition beats (s c : attr_metadata) : Prop := _VmDirReplAttrConflictCheck s c = true.

Lemma beats_spec s c i j :
  pszOrigInvoId s = Some i → pszOrigInvoId c = Some j →
  beats s c ↔ version s > version c ∨ version s = version c ∧ strncmp_by tolower 37 i j > 0 ∨
              version s = version c ∧ strncmp_by tolower 37 i j = 0 ∧ origUsn s > origUsn c.
Proof.
  intros Hi Hj. unfold beats, _VmDirReplAttrConflictCheck, VmDirStringNCompareA. rewrite Hi, Hj. cbn [default id].
  change (Z.to_nat VMDIR_GUID_STR_LEN) with 37%nat. cbv zeta.
  rewrite !orb_true_iff, !andb_true_iff, !Z.gtb_lt, !Z.eqb_eq. lia.
Qed.

(** The rule is a strict order, total up to equal stamps. *)
Lemma beats_irrefl m : stamped m → ¬ beats m m.
Proof.
  intros (i & Hi & Hn). rewrite (beats_spec m m i i) by done.
  pose proof (proj2 (strncmp_zero tolower 37 i i (tolower_positive i Hn) (tolower_positive i Hn)) eq_refl). lia.
Qed.

Lemma not_beats_trans a b c :
  stamped a → stamped b → stamped c → ¬ beats a b → ¬ beats b c → ¬ beats a c.
Proof.
  intros (i & Hi & Hni) (j & Hj & Hnj) (k & Hk & Hnk).
  rewrite (beats_spec a b i j), (beats_spec b c j k), (beats_spec a c i k) by done.
  apply tolower_positive in Hni, Hnj, Hnk.
  pose proof (strncmp_trans tolower 37 i j k Hni Hnj Hnk). pose proof (strncmp_trans tolower 37 j k i Hnj Hnk Hni).
  pose proof (strncmp_trans tolower 37 k i j Hnk Hni Hnj).
  pose proof (strncmp_antisym tolower 37 i j). pose proof (strncmp_antisym tolower 37 j k). pose proof (strncmp_antisym tolower 37 i k). lia.
Qed.

Lemma beats_total a b : stamped a → stamped b → ¬ beats a b → ¬ beats b a → stamp a = stamp b.
Proof.
  intros (i & Hi & Hni) (j & Hj & Hnj). rewrite (beats_spec a b i j), (beats_spec b a j i) by done.
  rewrite (strncmp_antisym tolower 37 i j). intros H1 H2. unfold stamp. rewrite Hi, Hj. cbn [default id].
  f_equal; [| lia]. f_equal; [lia |]. apply strncmp_zero; [by apply tolower_positive | by apply tolower_positive |]. lia.
Qed.

Lemma beats_asym a b : stamped a → stamped b → beats a b → ¬ beats b a.
Proof.
  intros (i & Hi & Hni) (j & Hj & Hnj). rewrite (beats_spec a b i j), (beats_spec b a j i) by done.
  rewrite (strncmp_antisym tolower 37 i j). lia.
Qed.

(** A replica that applies the updates it receives one by one. *)
Definition receive (c s : attr_metadata) : attr_metadata := if _VmDirReplAttrConflictCheck s c then s else c.
Definition receive_all (c : attr_metadata) (us : list attr_metadata) : attr_metadata := foldl receive c us.

Lemma receive_all_max c us :
  Forall stamped (c :: us) →
  receive_all c us ∈ c :: us ∧ ∀ u, u ∈ c :: us → ¬ beats u (receive_all c us).
Proof.
  revert c. induction us as [|s us IH]; intros c Hst; cbn [receive_all foldl].
  { split; [left |]. intros u ->%list_elem_of_singleton. apply Forall_cons in Hst as [Hc _]. by apply beats_irrefl. }
  apply Forall_cons in Hst as [Hc [Hs Hus]%Forall_cons]. fold (receive_all (receive c s) us).
  assert (stamped (receive c s)) as Hr by (unfold receive; by destruct (_VmDirReplAttrConflictCheck s c)).
  destruct (IH (receive c s)) as [Hin Hmax]; [by apply Forall_cons |].
  assert (Forall stamped (receive c s :: us)) as Hall by by apply Forall_cons.
  assert (stamped (receive_all (receive c s) us)) as Hrm by (rewrite Forall_forall in Hall; by apply Hall).
  split.
  - apply elem_of_cons in Hin as [-> | Hin]; [| by right; right].
    unfold receive. destruct (_VmDirReplAttrConflictCheck s c); [right; left | left].
  - assert (¬ beats c (receive c s) ∧ ¬ beats s (receive c s)) as [H1 H2].
    { unfold receive. destruct (_VmDirReplAttrConflictCheck s c) eqn:Hb.
      - split; [by apply beats_asym | by apply beats_irrefl].
      - split; [by apply beats_irrefl | unfold beats; congruence]. }
    intros u [-> | [-> | Hu]%elem_of_cons]%elem_of_cons.
    + eapply not_beats_trans; [| | done | exact H1 | apply Hmax; left]; done.
    + eapply not_beats_trans; [| | done | exact H2 | apply Hmax; left]; done.
    + apply Hmax. by right.
Qed.

(** C8: Replicas converge: two replicas that start from the same metadata of an
    attribute and receive the same set of updates, in any order and with any
    repetitions, end with the same winner, provided that two updates with the
    same version, server id and originating USN are the same update. *)
Theorem conflict_resolution_converges c us1 us2 :
  Forall stamped (c :: us1) → (∀ u, u ∈ c :: us1 ↔ u ∈ c :: us2) →
  (∀ u v, u ∈ c :: us1 → v ∈ c :: us1 → stamp u = stamp v → u = v) →
  receive_all c us1 = receive_all c us2.
Proof.
  intros Hst Hset Hinj.
  assert (Forall stamped (c :: us2)) as Hst2.
  { rewrite Forall_forall in *. intros u Hu. by apply Hst, Hset. }
  destruct (receive_all_max c us1 Hst) as [Hin1 Hm1]. destruct (receive_all_max c us2 Hst2) as [Hin2 Hm2].
  apply Hinj; [done | by apply Hset |]. rewrite Forall_forall in *.
  apply beats_total; [by apply Hst | by apply Hst2 | by apply Hm2, Hset | by apply Hm1, Hset].
Qed.

(** The rule is a strict order on versions with their server ids and USNs: no update
    replaces itself, at most one of two updates replaces the other, exactly one
    does unless both carry the same stamp, and it is transitive. *)
Theorem conflict_rule_order a b c :
  stamped a → stamped b → stamped c →
  _VmDirReplAttrConflictCheck a a = false ∧
  (_VmDirReplAttrConflictCheck a b = true → _VmDirReplAttrConflictCheck b a = false) ∧
  (stamp a ≠ stamp b → _VmDirReplAttrConflictCheck a b = negb (_VmDirReplAttrConflictCheck b a)) ∧
  (_VmDirReplAttrConflictCheck a b = true → _VmDirReplAttrConflictCheck b c = true →
   _VmDirReplAttrConflictCheck a c = true).
Proof.
  intros Ha Hb Hc. pose proof (beats_irrefl a Ha) as H1. pose proof (beats_asym a b Ha Hb) as H2.
  pose proof (beats_total a b Ha Hb) as H3. pose proof (not_beats_trans b a c Hb Ha Hc) as H4.
  unfold beats in *. split; [by apply not_true_is_false |]. split; [| split].
  - intros Hab. by apply not_true_is_false, H2.
  - intros Hne. destruct (_VmDirReplAttrConflictCheck a b), (_VmDirReplAttrConflictCheck b a); try done.
    + by destruct H2.
    + by destruct Hne; apply H3.
  - intros Hab Hbc. apply not_false_is_true. intros Hac. apply H4; [by apply H2 | congruence | done].
Qed.

End Order.

(** ** A whole change *)

Section Change.
Context (compare : cstr → cstr → bool → Z) `{!CStringCompare compare}.
Context (attr_known : cstr → bool) (backend : cstr → be_result).

(** What becomes of the supplier's metadata of attribute [k]. *)
Definition outcome (k : cstr) (s s' : attr_metadata) : Prop :=
  (ckey k = ckey ATTR_OBJECT_GUID ∧ s' = s) ∨
  (backend k = BE_NOTFOUND ∧ s' = s) ∨
  (backend k = BE_FAILED ∧ s' = s) ∨
  (∃ c, backend k = BE_FOUND c ∧
     ((beats s c ∧ s' = s) ∨
      (¬ beats s c ∧ ckey k = ckey ATTR_USN_CHANGED ∧ s' = c) ∨
      (¬ beats s c ∧ VmDirMetaDataIsEmpty (Some s') = true))).

Lemma resolve_one_spec k s s' :
  resolve_one compare attr_known backend k s = (ERROR_SUCCESS, s') → outcome k s s'.
Proof.
  unfold resolve_one, outcome, beats. destruct (Z.eqb_spec (compare k ATTR_OBJECT_GUID false) 0) as [He | _].
  { intros [= <-]. left. split; [by apply compare_caseless | done]. }
  destruct (attr_known k); cbn [negb]; [| done].
  destruct (backend k) as [c | |]; [| intros [= <-]; by auto..].
  destruct (_VmDirReplAttrConflictCheck s c) eqn:Hb; intros Hr; right; right; right; exists c; (split; [done |]).
  - left. by simplify_eq.
  - right. destruct (Z.eqb_spec (compare k ATTR_USN_CHANGED false) 0) as [He | _].
    + left. split; [congruence |]. split; [by apply compare_caseless |]. revert Hr.
      unfold VmDirMetaDataCopyContent. destruct (VmDirMetaDataIsEmpty (Some c)); [done |]. by intros [= ->].
    + right. split; [congruence |]. by simplify_eq.
Qed.

(** When a change is resolved without error, exactly the attributes whose
    supplier version wins keep their metadata: an attribute the consumer has no
    metadata for is taken, a losing one is emptied so that it is not applied
    (for uSNChanged the consumer's metadata is copied instead), and the object
    GUID is left alone.  No attribute is added or dropped. *)
Theorem resolve_conflicts_outcome kvs kvs' :
  VmDirReplResolveConflicts compare attr_known backend kvs = (ERROR_SUCCESS, kvs') →
  Forall2 (λ kv kv', kv'.1 = kv.1 ∧ outcome kv.1 kv.2 kv'.2) kvs kvs'.
Proof.
  unfold VmDirReplResolveConflicts. revert kvs'.
  induction kvs as [|[k s] kvs IH]; intros kvs'; cbn [resolve_loop]; [intros [= <-]; constructor |].
  destruct (resolve_one _ _ _ k s) as [err s'] eqn:Hone. destruct (decide (err = ERROR_SUCCESS)) as [-> | Hne].
  - destruct (resolve_loop _ _ _ kvs) as [err r]. intros [= -> <-]. constructor; [| by apply IH].
    split; [done | by apply resolve_one_spec].
  - intros Hr. by destruct err; simplify_eq.
Qed.

(** A failing backend read is not reported: the loop tests the return value
    of an earlier call, so resolution succeeds and the supplier's metadata is
    kept as if it had won. *)
Theorem resolve_conflicts_ignores_backend_failure k s :
  ckey k ≠ ckey ATTR_OBJECT_GUID → attr_known k = true → backend k = BE_FAILED →
  VmDirReplResolveConflicts compare attr_known backend [(k, s)] = (ERROR_SUCCESS, [(k, s)]).
Proof.
  intros Hg Hk Hb. unfold VmDirReplResolveConflicts. cbn [resolve_loop]. unfold resolve_one. rewrite Hk, Hb.
  destruct (Z.eqb_spec (compare k ATTR_OBJECT_GUID false) 0) as [He | _]; [by apply compare_caseless in He | done].
Qed.

(** A change of the same value on the consumer is not later. *)
Definition not_later (s c : value_metadata) : Prop :=
  pszValue c = pszValue s → compare (pszValChgOrigTime c) (pszValChgOrigTime s) true <= 0.

#[export] Instance not_later_dec s c : Decision (not_later s c).
Proof. unfold not_later. apply _. Defined.

Lemma value_scope_step_spec s b c :
  dwValSize s = Z.of_nat (length (pszValue s)) → dwValSize c = Z.of_nat (length (pszValue c)) →
  value_scope_step compare s b c = b && bool_decide (not_later s c).
Proof.
  intros Hs Hc. unfold value_scope_step. rewrite Hs, Hc, Nat2Z.id, (take_ge (pszValue c)) by done.
  destruct (decide (pszValue c = pszValue s)) as [He | Hne].
  - rewrite He, Z.eqb_refl, take_ge, bool_decide_eq_true_2 by done. cbn [negb orb].
    destruct (Z.gtb_spec (compare (pszValChgOrigTime c) (pszValChgOrigTime s) true) 0).
    + rewrite bool_decide_eq_false_2, andb_false_r; [done |]. intros Hl. specialize (Hl He). lia.
    + rewrite bool_decide_eq_true_2, andb_true_r; [done |]. intros _. lia.
  - rewrite (bool_decide_eq_true_2 (not_later s c)), andb_true_r by by intros He.
    destruct (Z.eqb_spec (Z.of_nat (length (pszValue c))) (Z.of_nat (length (pszValue s)))) as [Hl | Hl]; [| done].
    rewrite take_ge by lia. by rewrite bool_decide_eq_false_2.
Qed.

Lemma value_scope_fold s q :
  dwValSize s = Z.of_nat (length (pszValue s)) →
  (∀ c, c ∈ q → dwValSize c = Z.of_nat (length (pszValue c))) →
  ∀ b, foldl (value_scope_step compare s) b q = b && bool_decide (Forall (not_later s) q).
Proof.
  intros Hs. induction q as [|c q IH]; intros Hq b; cbn [foldl].
  { by rewrite bool_decide_eq_true_2, andb_true_r by constructor. }
  rewrite IH by (intros x Hx; apply Hq; by right). rewrite value_scope_step_spec by (done || apply Hq; left).
  rewrite <- andb_assoc. f_equal. rewrite <- bool_decide_and. apply bool_decide_ext. by rewrite Forall_cons.
Qed.

(** A value change of the supplier is in scope exactly when the attribute
    has the same version and server id on the consumer and no change of the same
    value on the consumer is strictly later: equal times win. *)
Theorem value_conflict_scope md s q :
  (∀ c, c ∈ q → dwValSize c = Z.of_nat (length (pszValue c))) →
  dwValSize s = Z.of_nat (length (pszValue s)) →
  VmDirReplResolveValueMetaDataConflicts compare (inr md) s (inr q) =
  (ERROR_SUCCESS,
   bool_decide (vm_version s = version md ∧ vm_pszOrigInvoId s = default [] (pszOrigInvoId md) ∧
     Forall (not_later s) q)).
Proof.
  intros Hq Hs. unfold VmDirReplResolveValueMetaDataConflicts.
  destruct (Z.eqb_spec (vm_version s) (version md)) as [Hv | Hv]; cbn [negb orb];
    [| by rewrite bool_decide_eq_false_2 by tauto].
  destruct (Z.eqb_spec (compare (vm_pszOrigInvoId s) (default [] (pszOrigInvoId md)) true) 0) as [Hi | Hi];
    cbn [negb].
  2: { rewrite bool_decide_eq_false_2; [done |]. intros (_ & Heq & _). by apply Hi, compare_sensitive. }
  apply compare_sensitive in Hi. f_equal. rewrite (value_scope_fold s q Hs Hq true). cbn [andb].
  apply bool_decide_ext. tauto.
Qed.

End Change.

(** ** Concrete conflicts *)

Definition cf_md (v : Z) (i : ascii) : attr_metadata := METADATA 1 v (Some [i]) (Some ["t"%char]) 1.

Lemma cf_stamped v i : NUL ∉ [i] → stamped (cf_md v i).
Proof. intros Hi. by exists [i]. Qed.

Ltac cf_notin := apply not_elem_of_single; done.

Lemma conflict_resolution_converges_witness :
  receive_all (cf_md 1 "a") [cf_md 2 "b"; cf_md 2 "a"; cf_md 1 "c"] =
  receive_all (cf_md 1 "a") [cf_md 1 "c"; cf_md 2 "a"; cf_md 2 "b"; cf_md 2 "a"].
Proof.
  apply conflict_resolution_converges.
  - repeat constructor; apply cf_stamped; cf_notin.
  - intros u. rewrite !elem_of_cons. tauto.
  - intros u v. rewrite !elem_of_cons, !elem_of_nil.
    intros [-> | [-> | [-> | [-> | []]]]] [-> | [-> | [-> | [-> | []]]]]; vm_compute; congruence.
Defined.

Lemma conflict_rule_order_witness :
  _VmDirReplAttrConflictCheck (cf_md 2 "b") (cf_md 2 "a") = true ∧
  _VmDirReplAttrConflictCheck (cf_md 2 "a") (cf_md 2 "b") = false.
Proof.
  destruct (conflict_rule_order (cf_md 2 "b") (cf_md 2 "a") (cf_md 1 "c")) as (_ & H & _);
    [apply cf_stamped; cf_notin.. |]. split; [reflexivity | apply H; reflexivity].
Defined.

Definition cf_backend (k : cstr) : be_result :=
  if bool_decide (k = ["x"%char]) then BE_FOUND (cf_md 5 "a")
  else if bool_decide (k = ["y"%char]) then BE_FAILED else BE_NOTFOUND.

Lemma resolve_conflicts_outcome_witness :
  Forall2 (λ kv kv', kv'.1 = kv.1 ∧ outcome cf_backend kv.1 kv.2 kv'.2)
    [(["x"%char], cf_md 2 "b"); (["z"%char], cf_md 1 "b")]
    [(["x"%char], METADATA 0 0 None None 0); (["z"%char], cf_md 1 "b")].
Proof.
  apply (resolve_conflicts_outcome simple_compare (λ _, true) cf_backend). vm_compute. reflexivity.
Defined.

Lemma resolve_conflicts_ignores_backend_failure_witness :
  VmDirReplResolveConflicts simple_compare (λ _, true) cf_backend [(["y"%char], cf_md 2 "b")] =
    (ERROR_SUCCESS, [(["y"%char], cf_md 2 "b")]).
Proof.
  apply (resolve_conflicts_ignores_backend_failure simple_compare); [by vm_compute | reflexivity | reflexivity].
Defined.

Lemma value_conflict_scope_witness :
  VmDirReplResolveValueMetaDataConflicts simple_compare (inr (cf_md 1 "i")) (vm_ex ["x"%char]) (inr [vm_ex ["x"%char]]) =
  (ERROR_SUCCESS,
   bool_decide (vm_version (vm_ex ["x"%char]) = version (cf_md 1 "i") ∧
     vm_pszOrigInvoId (vm_ex ["x"%char]) = default [] (pszOrigInvoId (cf_md 1 "i")) ∧
     Forall (not_later simple_compare (vm_ex ["x"%char])) [vm_ex ["x"%char]])).
Proof.
  apply (value_conflict_scope simple_compare); [| done]. intros c ->%list_elem_of_singleton. done.
Defined.
