(* ===== verification/DnsBuffer.v ===== *)
(** * DnsBuffer: the message buffer of [vmdns/common/buffer.c]

    A growing block with a write cursor ([szLength]) and a read cursor
    ([szCursor]).  The block is a list of bytes; reading or writing outside of
    it is undefined behaviour ([None]).  Integers go out in network order,
    labels with a length byte in front, names as a sequence of labels or, for
    records kept in the directory, as one string
    ([vmdns/common/record.c], domain names).  A NULL buffer or output pointer,
    which every function refuses first, does not occur here: the buffer is the
    state. *)

From S2P Require Import Prelude Heap Effects.

Open Scope Z_scope.

(** ** The buffer *)

Record dns_buffer := DNS_BUFFER {
  szMaxSize : Z;
  szCurrentSize : Z;
  szLength : Z;
  szCursor : Z;
  bCanWrite : bool;
  bTokenizeDomainName : bool;
  pMessage : list Z
}.

Definition set_szCursor (c : Z) (b : dns_buffer) : dns_buffer :=
  DNS_BUFFER (szMaxSize b) (szCurrentSize b) (szLength b) c (bCanWrite b) (bTokenizeDomainName b) (pMessage b).
Definition set_block (m : list Z) (cur len : Z) (b : dns_buffer) : dns_buffer :=
  DNS_BUFFER (szMaxSize b) cur len (szCursor b) (bCanWrite b) (bTokenizeDomainName b) m.

Abbreviation DM := (RM dns_buffer).
Abbreviation zlen l := (Z.of_nat (length l)).

Definition VMDNS_MAX_SIZE_BUFFER : Z := 2048.
Definition VMDNS_LABEL_LENGTH_MAX : Z := 63.
Definition VMDNS_NAME_LENGTH_MAX : Z := 255.

(** [malloc], [memcpy] and [strlen] on blocks. *)
Definition block_read (off n : Z) (m : list Z) : option (list Z) :=
  if (0 <=? off) && (0 <=? n) && (off + n <=? zlen m)
  then Some (take (Z.to_nat n) (drop (Z.to_nat off) m)) else None.

Definition block_write (off : Z) (bs m : list Z) : option (list Z) :=
  if (0 <=? off) && (off + zlen bs <=? zlen m)
  then Some (take (Z.to_nat off) m ++ bs ++ drop (Z.to_nat off + length bs) m) else None.

Definition block_byte (off : Z) (m : list Z) : option Z :=
  if 0 <=? off then m !! Z.to_nat off else None.

(** The characters before the first NUL of a block. *)
Fixpoint cstring (m : list Z) : option (list Z) :=
  match m with
  | [] => None
  | c :: m => if c =? 0 then Some [] else option_map (cons c) (cstring m)
  end.

(** [VmDnsAllocateMemory]: a zeroed block. *)
Definition VmDnsAllocateMemory {St} (dwSize : Z) : RM St (list Z) :=
  if dwSize =? 0 then rfail ERROR_INVALID_PARAMETER
  else o <- next_outcome ;;
       if o =? 0 then rret (replicate (Z.to_nat dwSize) 0) else rfail ERROR_NO_MEMORY.

(** [VmDnsCopyMemory] to the offset [off] of the block [dst], from the start of
    [src]. *)
Definition VmDnsCopyMemory {St} (dst : list Z) (off destinationSize : Z) (src : list Z) (maxCount : Z)
  : RM St (list Z) :=
  if destinationSize <? maxCount then rfail ERROR_INSUFFICIENT_BUFFER
  else bs <- rlift (block_read 0 maxCount src) ;; rlift (block_write off bs dst).

(** A copy of a C string, as a block with its terminator. *)
Definition VmDnsAllocateStringA {St} (pszString : list Z) : RM St (list Z) :=
  s <- rlift (cstring pszString) ;;
  new <- VmDnsAllocateMemory (zlen s + 1) ;;
  VmDnsCopyMemory new 0 (zlen s + 1) s (zlen s).

Definition VmDnsReallocateMemoryWithInit {St} (pMemory : list Z) (dwNewSize dwOldSize : Z) : RM St (list Z) :=
  if dwNewSize <? dwOldSize then rfail ERROR_INVALID_PARAMETER
  else o <- next_outcome ;;
       if o =? 0 then rret (take (Z.to_nat dwOldSize) pMemory ++ replicate (Z.to_nat (dwNewSize - dwOldSize)) 0)
       else rfail ERROR_NO_MEMORY.

Definition VmDnsAllocateBufferStream {St} (dwMaxSize : Z) : RM St dns_buffer :=
  if dwMaxSize >? VMDNS_MAX_SIZE_BUFFER then rfail ERROR_INVALID_PARAMETER
  else
    VmDnsAllocateMemory 48 ;;;
    rret (DNS_BUFFER (if dwMaxSize =? 0 then VMDNS_MAX_SIZE_BUFFER else dwMaxSize) 0 0 0 true false []).

(** The result only has the first [szBufSize] bytes of [pBuffer]. *)
Definition VmDnsAllocateBufferStreamWithBuffer {St} (pBuffer : list Z) (szBufSize szMaxSize' : Z) (bCanWrite' : bool)
  : RM St dns_buffer :=
  if szBufSize =? 0 then rfail ERROR_INVALID_PARAMETER
  else
    tmp <- VmDnsAllocateMemory szBufSize ;;
    tmp <- VmDnsCopyMemory tmp 0 szBufSize pBuffer szBufSize ;;
    b <- VmDnsAllocateBufferStream szMaxSize' ;;
    rret (DNS_BUFFER (szMaxSize b) szBufSize szBufSize (szCursor b) bCanWrite' (bTokenizeDomainName b) tmp).

(** [pBuffer] is [None] when only the size is asked for; the result is the new
    content of [pBuffer] and the size. *)
Definition VmDnsCopyBufferFromBufferStream (pBuffer : option (list Z)) (dwBufferSize : Z)
  : DM (option (list Z) * Z) :=
  b <- rget ;;
  match pBuffer with
  | Some p =>
      if szLength b =? 0 then rret (pBuffer, szLength b)
      else p' <- VmDnsCopyMemory p 0 dwBufferSize (pMessage b) (szLength b) ;; rret (Some p', szLength b)
  | None => rret (None, szLength b)
  end.

Definition VmDnsSetBufferTokenizedFlag (bTokenized : bool) : DM unit :=
  rset (λ b, DNS_BUFFER (szMaxSize b) (szCurrentSize b) (szLength b) (szCursor b) (bCanWrite b) bTokenized (pMessage b)).

(** A function that makes a buffer of its own and releases it at the end. *)
Definition with_buffer {St A} (mk : RM St dns_buffer) (m : DM A) : RM St A := λ s e,
  match mk s e with
  | Some (inr b, s', e') => match m b e' with Some (r, _, e2) => Some (r, s', e2) | None => None end
  | Some (inl err, s', e') => Some (inl err, s', e')
  | None => None
  end.

(** The block of the stream's size with its contents, as the callers of
    [VmDnsCopyBufferFromBufferStream] make it: ask for the size, allocate, copy. *)
Definition copy_stream : DM (list Z) :=
  x <- VmDnsCopyBufferFromBufferStream None 0 ;;
  p <- VmDnsAllocateMemory (snd x) ;;
  y <- VmDnsCopyBufferFromBufferStream (Some p) (snd x) ;;
  rlift (fst y).

(** ** Byte order *)

(** The bytes of an integer in the memory of the host, which is little-endian. *)
Definition host_bytes (n : nat) (v : Z) : list Z := rev (enc n v).
Definition host_value (bs : list Z) : Z := be (rev bs).

Definition VmDnsIsBigEndian : bool := default 0 (head (host_bytes 4 0x01020304)) =? 1.

(** The loop over [dwInIndex = szData, ..., 1]. *)
Fixpoint swap_loop (dwInIndex : nat) (pInData : list Z) : list Z :=
  match dwInIndex with
  | O => []
  | S i => default 0 (pInData !! i) :: swap_loop i pInData
  end.

Definition VmDnsNToH (pInData : list Z) : list Z :=
  if VmDnsIsBigEndian then pInData else swap_loop (length pInData) pInData.
Definition VmDnsHToN : list Z → list Z := VmDnsNToH.

Definition htons (v : Z) : Z := be (host_bytes 2 v).
Definition ntohs (v : Z) : Z := be (host_bytes 2 v).
Definition htonl (v : Z) : Z := be (host_bytes 4 v).
Definition ntohl (v : Z) : Z := be (host_bytes 4 v).

Definition u16 (z : Z) : Z := z mod 2 ^ 16.
Definition s16 (z : Z) : Z := let r := z mod 2 ^ 16 in if r <? 2 ^ 15 then r else r - 2 ^ 16.
Definition s8 (z : Z) : Z := let r := z mod 2 ^ 8 in if r <? 2 ^ 7 then r else r - 2 ^ 8.

(** ** Writing *)

Definition VmDnsAdjustMemoryBuffer (szDataSize : Z) : DM unit :=
  b <- rget ;;
  let szRequired := u64 (szLength b + szDataSize) in
  if szCurrentSize b <? szRequired then
    let szNewSize := u64 (2 * szCurrentSize b + szDataSize) in
    if szNewSize >? szMaxSize b then rfail ERROR_NOT_ENOUGH_MEMORY
    else
      m <- VmDnsReallocateMemoryWithInit (pMessage b) szNewSize (szCurrentSize b) ;;
      rset (set_block m szNewSize (szLength b))
  else rret tt.

Definition check_can_write : DM unit :=
  b <- rget ;; if bCanWrite b then rret tt else rfail ERROR_CANTWRITE.

(** The common tail of the writers: make room, copy to the end of the message,
    advance [szLength]. *)
Definition append_bytes (bs : list Z) : DM unit :=
  VmDnsAdjustMemoryBuffer (zlen bs) ;;;
  b <- rget ;;
  m <- VmDnsCopyMemory (pMessage b) (szLength b) (u64 (szCurrentSize b - szLength b)) bs (zlen bs) ;;
  rset (set_block m (szCurrentSize b) (u64 (szLength b + zlen bs))).

Definition VmDnsWriteBoolToBuffer (bData : Z) : DM unit :=
  check_can_write ;;; append_bytes (VmDnsHToN (host_bytes 4 bData)).
Definition VmDnsWriteBooleanToBuffer (bData : Z) : DM unit :=
  check_can_write ;;; append_bytes (VmDnsHToN (host_bytes 1 bData)).
Definition VmDnsWriteCharToBuffer (cData : Z) : DM unit :=
  check_can_write ;;; append_bytes (host_bytes 1 cData).
Definition VmDnsWriteUCharToBuffer (ucData : Z) : DM unit :=
  check_can_write ;;; append_bytes (host_bytes 1 ucData).
Definition VmDnsWriteUINT16ToBuffer (uData : Z) : DM unit :=
  check_can_write ;;; append_bytes (host_bytes 2 (htons uData)).
Definition VmDnsWriteUINT32ToBuffer (uData : Z) : DM unit :=
  check_can_write ;;; append_bytes (host_bytes 4 (htonl uData)).
Definition VmDnsWriteUINT64ToBuffer (uData : Z) : DM unit :=
  check_can_write ;;; append_bytes (VmDnsHToN (host_bytes 8 uData)).
Definition VmDnsWriteINT16ToBuffer (iData : Z) : DM unit :=
  check_can_write ;;; append_bytes (host_bytes 2 (htons iData)).
Definition VmDnsWriteINT32ToBuffer (iData : Z) : DM unit :=
  check_can_write ;;; append_bytes (host_bytes 4 (htonl iData)).
Definition VmDnsWriteINT64ToBuffer (iData : Z) : DM unit :=
  check_can_write ;;; append_bytes (VmDnsHToN (host_bytes 8 iData)).

(** [pszString] is a block; the result of the copy is not looked at. *)
Definition VmDnsWriteStringToBuffer (pszString : option (list Z)) (uStringLength : Z) : DM unit :=
  let szDataSize := u8 uStringLength + 1 in
  check_can_write ;;;
  VmDnsAdjustMemoryBuffer szDataSize ;;;
  b <- rget ;;
  m <- rlift (block_write (szLength b) [u8 uStringLength] (pMessage b)) ;;
  m <- match pszString with
       | Some s =>
           if u8 uStringLength =? 0 then rret m
           else r <- rtry (VmDnsCopyMemory m (szLength b + 1) (u64 (szCurrentSize b - szLength b)) s (u8 uStringLength)) ;;
                rret (match r with inr m' => m' | inl _ => m end)
       | None => rret m
       end ;;
  rset (set_block m (szCurrentSize b) (u64 (szLength b + szDataSize))).

(** [VMDNS_BLOB]; a NULL [pData] is [None]. *)
Record dns_blob := BLOB { unSize : Z; pData : option (list Z) }.

Definition VmDnsWriteBlobToBuffer (pBlob : dns_blob) (bWriteSize : bool) : DM unit :=
  check_can_write ;;;
  (if bWriteSize then VmDnsWriteUINT16ToBuffer (unSize pBlob) else rret tt) ;;;
  match pData pBlob with
  | None => if unSize pBlob =? 0 then append_bytes [] else rfail ERROR_INVALID_PARAMETER
  | Some d => bs <- rlift (block_read 0 (unSize pBlob) d) ;; append_bytes bs
  end.

(** ** Reading *)

Definition VmDnsCheckMemory (szDataSize : Z) : DM unit :=
  b <- rget ;;
  if szLength b <? u64 (szCursor b + szDataSize) then rfail ERROR_INSUFFICIENT_BUFFER else rret tt.

Definition advance (n : Z) : DM unit := rset (λ b, set_szCursor (u64 (szCursor b + n)) b).

(** The common part of the readers: the bytes at the cursor, which advances. *)
Definition take_bytes (n : Z) : DM (list Z) :=
  VmDnsCheckMemory n ;;;
  b <- rget ;;
  bs <- rlift (block_read (szCursor b) n (pMessage b)) ;;
  advance n ;;;
  rret bs.

Definition VmDnsReadBoolFromBuffer : DM Z := bs <- take_bytes 4 ;; rret (s32 (host_value (VmDnsNToH bs))).
Definition VmDnsReadBooleanFromBuffer : DM Z := bs <- take_bytes 1 ;; rret (host_value (VmDnsNToH bs)).
Definition VmDnsReadCharFromBuffer : DM Z := bs <- take_bytes 1 ;; rret (s8 (host_value bs)).
Definition VmDnsReadUCharFromBuffer : DM Z := bs <- take_bytes 1 ;; rret (host_value bs).
Definition VmDnsReadUINT16FromBuffer : DM Z := bs <- take_bytes 2 ;; rret (ntohs (host_value bs)).
Definition VmDnsReadUINT32FromBuffer : DM Z := bs <- take_bytes 4 ;; rret (ntohl (host_value bs)).
Definition VmDnsReadUINT64FromBuffer : DM Z := bs <- take_bytes 8 ;; rret (host_value (VmDnsNToH bs)).
Definition VmDnsReadINT16FromBuffer : DM Z := bs <- take_bytes 2 ;; rret (s16 (ntohs (host_value bs))).
Definition VmDnsReadINT32FromBuffer : DM Z := bs <- take_bytes 4 ;; rret (s32 (ntohl (host_value bs))).
Definition VmDnsReadINT64FromBuffer : DM Z := bs <- take_bytes 8 ;; rret (s64 (host_value (VmDnsNToH bs))).

Definition VMDNS_COMPRESSED_NAME (d : Z) : bool :=
  negb (Z.land d (Z.shiftl 1 7) =? 0) && negb (Z.land d (Z.shiftl 1 6) =? 0).

Definition DOT : Z := 46.

(** The labels from [pCurrentPos] on, copied to [pszTempString] with a dot
    after each.  [pszTempStringCursor] is [dwStringLength] bytes into the block
    in every round.  Every label adds at least two characters, so 130 rounds
    are enough to pass the limit of 255. *)
Fixpoint offset_loop (fuel : nat) (dwLabelLength dwStringLength pCurrentPos : Z) (pszTempString : list Z)
  : DM (list Z * Z) :=
  match fuel with
  | O => rub
  | S fuel =>
      if dwLabelLength =? 0 then rret (pszTempString, dwStringLength)
      else if dwLabelLength >? VMDNS_LABEL_LENGTH_MAX then rfail ERROR_LABEL_TOO_LONG
      else if dwStringLength >? VMDNS_NAME_LENGTH_MAX then rfail ERROR_LABEL_TOO_LONG
      else if dwLabelLength >? u32 (VMDNS_NAME_LENGTH_MAX - dwStringLength) then rfail ERROR_LABEL_TOO_LONG
      else
        VmDnsCheckMemory dwLabelLength ;;;
        b <- rget ;;
        if pCurrentPos + dwLabelLength >? szLength b then rfail ERROR_INVALID_PARAMETER
        else
          tmp <- VmDnsCopyMemory pszTempString dwStringLength (u32 (VMDNS_NAME_LENGTH_MAX - dwStringLength))
                                 (drop (Z.to_nat pCurrentPos) (pMessage b)) dwLabelLength ;;
          tmp <- rlift (block_write (dwStringLength + dwLabelLength) [DOT] tmp) ;;
          next <- rlift (block_byte (pCurrentPos + dwLabelLength) (pMessage b)) ;;
          offset_loop fuel next (u32 (dwStringLength + (dwLabelLength + 1))) (pCurrentPos + dwLabelLength + 1) tmp
  end.

(** The result is the string with its length and [bEndOfString]. *)
Definition VmDnsReadOffsetStringFromBuffer (unOffset : Z) : DM (list Z * Z * bool) :=
  tmp <- VmDnsAllocateMemory (VMDNS_NAME_LENGTH_MAX + 2) ;;
  b <- rget ;;
  if unOffset + 1 >? szLength b then rfail ERROR_INSUFFICIENT_BUFFER
  else
    len <- rlift (block_byte unOffset (pMessage b)) ;;
    r <- offset_loop 130 len 0 (unOffset + 1) tmp ;;
    psz <- VmDnsAllocateStringA r.1 ;;
    rret (psz, r.2, true).

(** The string is [None] where the code leaves NULL. *)
Definition VmDnsReadStringFromBuffer : DM (option (list Z) * Z * bool) :=
  VmDnsCheckMemory 1 ;;;
  b <- rget ;;
  dwStringLength <- rlift (block_byte (szCursor b) (pMessage b)) ;;
  advance 1 ;;;
  if dwStringLength =? 0 then rret (None, 0, true)
  else if dwStringLength >? VMDNS_NAME_LENGTH_MAX then rfail ERROR_LABEL_TOO_LONG
  else if VMDNS_COMPRESSED_NAME dwStringLength then
    b <- rget ;;
    unOffset <- rlift (block_byte (szCursor b) (pMessage b)) ;;
    r <- VmDnsReadOffsetStringFromBuffer unOffset ;;
    advance 1 ;;;
    rret (Some r.1.1, r.1.2, r.2)
  else
    VmDnsCheckMemory dwStringLength ;;;
    psz <- VmDnsAllocateMemory (dwStringLength + 1) ;;
    b <- rget ;;
    psz <- VmDnsCopyMemory psz 0 (dwStringLength + 1) (drop (Z.to_nat (szCursor b)) (pMessage b)) dwStringLength ;;
    advance dwStringLength ;;;
    psz <- rlift (block_write dwStringLength [0] psz) ;;
    rret (Some psz, dwStringLength, false).

Definition VmDnsAllocateBlob {St} (unSize' : Z) : RM St dns_blob :=
  VmDnsAllocateMemory 16 ;;;
  if unSize' =? 0 then rret (BLOB 0 None)
  else d <- VmDnsAllocateMemory unSize' ;; rret (BLOB unSize' (Some d)).

Definition VmDnsReadBlobFromBuffer : DM dns_blob :=
  unBlobSize <- VmDnsReadUINT16FromBuffer ;;
  VmDnsCheckMemory unBlobSize ;;;
  pBlob <- VmDnsAllocateBlob unBlobSize ;;
  if unBlobSize =? 0 then rret pBlob
  else
    b <- rget ;;
    match pData pBlob with
    | None => rub
    | Some d =>
        d <- VmDnsCopyMemory d 0 unBlobSize (drop (Z.to_nat (szCursor b)) (pMessage b)) unBlobSize ;;
        advance unBlobSize ;;;
        rret (BLOB (unSize pBlob) (Some d))
    end.

(** ** Invariant and composition *)

(** The block has [szCurrentSize] bytes, and the message is its beginning.  A
    block that is written never exceeds [szMaxSize]; a received message may. *)
Record dns_wf (b : dns_buffer) : Prop := {
  wf_block : szCurrentSize b = zlen (pMessage b);
  wf_length : 0 <= szLength b <= szCurrentSize b;
  wf_max : bCanWrite b = true → szCurrentSize b <= szMaxSize b;
  wf_limit : szMaxSize b <= 2 ^ 32 ∧ szCurrentSize b <= 2 ^ 32;
  wf_cursor : 0 <= szCursor b <= szLength b;
  wf_bytes : bytes (pMessage b)
}.

Definition contents (b : dns_buffer) : list Z := take (Z.to_nat (szLength b)) (pMessage b).

(** What a writer leaves alone. *)
Record same_ends (b b' : dns_buffer) : Prop := {
  se_max : szMaxSize b' = szMaxSize b;
  se_cursor : szCursor b' = szCursor b;
  se_write : bCanWrite b' = bCanWrite b;
  se_token : bTokenizeDomainName b' = bTokenizeDomainName b
}.

(** A message of [n] bytes is certain to fit: the block at most triples what is
    needed. *)
Definition fits (n : Z) (b : dns_buffer) : Prop := 3 * (szLength b + n) <= szMaxSize b.

(** [m] appends the bytes [bs].  It succeeds when the allocator does and the
    message stays small enough; when it fails it has appended a part of them. *)
Definition emits {A} (tok : bool) (m : DM A) (bs : list Z) (a : A) : Prop :=
  ∀ b e, dns_wf b → bCanWrite b = true → bTokenizeDomainName b = tok →
  ∃ r b' e', m b e = Some (r, b', e') ∧ dns_wf b' ∧ same_ends b b' ∧ (quiet e → quiet e') ∧
    match r with
    | inr x => x = a ∧ contents b' = contents b ++ bs
    | inl _ => ¬ (quiet e ∧ fits (zlen bs) b) ∧ ∃ p, p `prefix_of` bs ∧ contents b' = contents b ++ p
    end.

Lemma contents_length b : dns_wf b → zlen (contents b) = szLength b.
Proof.
  intros [Hb Hl _ _ _ _]. unfold contents. rewrite length_take. lia.
Qed.

Lemma same_ends_refl b : same_ends b b.
Proof. done. Qed.

Lemma same_ends_trans b1 b2 b3 : same_ends b1 b2 → same_ends b2 b3 → same_ends b1 b3.
Proof. intros [] []. split; congruence. Qed.

Lemma emits_ret {A} tok (a : A) : emits tok (rret a) [] a.
Proof.
  intros b e Hb _ _. exists (inr a), b, e. split_and!; [done | done | apply same_ends_refl | done | done |].
  by rewrite app_nil_r.
Qed.

Lemma emits_bind {A B} tok (m : DM A) (k : A → DM B) bs bs' a c :
  emits tok m bs a → emits tok (k a) bs' c → emits tok (rbind m k) (bs ++ bs') c.
Proof.
  intros Hm Hk b e Hb Hw Ht.
  destruct (Hm b e Hb Hw Ht) as ([err | x] & b' & e' & Hr & Hb' & Hs & Hq & Hres); unfold rbind; rewrite Hr.
  - destruct Hres as [Hnf (p & Hp & Hc)]. exists (inl err), b', e'. split_and!; try done.
    + intros [Hqe Hf]. apply Hnf. split; [done |]. unfold fits in *. rewrite length_app in Hf. lia.
    + exists p. split; [by apply prefix_app_r | done].
  - destruct Hres as [-> Hc]. pose proof Hs as [H1 H2 H3 H4].
    destruct (Hk b' e' Hb' ltac:(congruence) ltac:(congruence)) as (r & b2 & e2 & Hr2 & Hb2 & Hs2 & Hq2 & Hres2).
    exists r, b2, e2. split_and!; try done; [exact (same_ends_trans _ _ _ Hs Hs2) | auto |].
    destruct r as [err | y].
    + destruct Hres2 as [Hnf (p & Hp & Hc2)]. split.
      * intros [Hqe Hf]. apply Hnf. split; [auto |]. unfold fits in *. rewrite H1.
        rewrite <- (contents_length b'), Hc, length_app by done. rewrite length_app in Hf.
        rewrite <- (contents_length b) in Hf by done. lia.
      * exists (bs ++ p). split; [by apply prefix_app |]. by rewrite Hc2, Hc, app_assoc.
    + destruct Hres2 as [-> Hc2]. split; [done |]. by rewrite Hc2, Hc, app_assoc.
Qed.

(** [m] reads the bytes [bs] at the cursor and returns [a], which may depend on
    the position. *)
Definition consumes {A} (tok : bool) (m : DM A) (bs : list Z) (a : Z → A) : Prop :=
  ∀ b e post, dns_wf b → quiet e → bTokenizeDomainName b = tok →
  drop (Z.to_nat (szCursor b)) (contents b) = bs ++ post →
  ∃ e', m b e = Some (inr (a (szCursor b)), set_szCursor (szCursor b + zlen bs) b, e') ∧ quiet e'.

(** [m] never leaves the block, whatever the allocator does: it returns, and
    moves only the read cursor, forward. *)
Definition reads {A} (ok : dns_buffer → Prop) (m : DM A) (P : A → Prop) : Prop :=
  ∀ b e, dns_wf b → ok b →
  ∃ r c e', m b e = Some (r, set_szCursor c b, e') ∧ szCursor b <= c <= szLength b ∧
    match r with inr a => P a | inl _ => True end.

Lemma set_cursor_wf b c : dns_wf b → 0 <= c <= szLength b → dns_wf (set_szCursor c b).
Proof. intros [] Hc. by constructor. Qed.

Lemma set_cursor_id b : set_szCursor (szCursor b) b = b.
Proof. by destruct b. Qed.

Lemma set_cursor_set c c' b : set_szCursor c (set_szCursor c' b) = set_szCursor c b.
Proof. done. Qed.

Lemma consumes_ret {A} tok (a : A) : consumes tok (rret a) [] (λ _, a).
Proof.
  intros b e post _ He _ _. exists e. split; [| done]. unfold rret. rewrite Z.add_0_r. by rewrite set_cursor_id.
Qed.

Lemma rest_cursor b bs post :
  dns_wf b → drop (Z.to_nat (szCursor b)) (contents b) = bs ++ post →
  szCursor b + zlen bs <= szLength b.
Proof.
  intros Hb Hd. apply (f_equal length) in Hd. rewrite length_drop, length_app in Hd.
  pose proof (contents_length b Hb). pose proof (wf_cursor b Hb). lia.
Qed.

Lemma consumes_bind {A B} tok (m : DM A) (k : A → DM B) bs bs' (a : Z → A) (c : Z → B) :
  consumes tok m bs a → (∀ p, consumes tok (k (a p)) bs' (λ q, c (q - zlen bs))) →
  consumes tok (rbind m k) (bs ++ bs') c.
Proof.
  intros Hm Hk b e post Hb He Ht Hd. rewrite <- app_assoc in Hd.
  pose proof (rest_cursor _ _ _ Hb Hd) as Hc. pose proof (wf_cursor b Hb).
  destruct (Hm b e (bs' ++ post) Hb He Ht Hd) as (e' & Hr & He'). unfold rbind. rewrite Hr.
  destruct (Hk (szCursor b) (set_szCursor (szCursor b + zlen bs) b) e' post) as (e2 & Hr2 & He2).
  - apply set_cursor_wf; [done | lia].
  - done.
  - done.
  - change (drop (Z.to_nat (szCursor b + zlen bs)) (contents b) = bs' ++ post).
    rewrite Z2Nat.inj_add, Nat2Z.id, <- drop_drop, Hd by lia. apply drop_app_length.
  - exists e2. split; [| done]. rewrite Hr2. cbn [szCursor set_szCursor]. rewrite length_app, Nat2Z.inj_add, Z.add_assoc.
    by replace (szCursor b + zlen bs - zlen bs) with (szCursor b) by lia.
Qed.

Lemma reads_ret {A} ok (a : A) (P : A → Prop) : P a → reads ok (rret a) P.
Proof.
  intros Ha b e Hb _. exists (inr a), (szCursor b), e. rewrite set_cursor_id.
  split_and!; [done | lia | by destruct Hb as [_ _ _ _ [_ ?] _] | done].
Qed.

Lemma reads_fail {A} ok err (P : A → Prop) : reads ok (rfail err) P.
Proof.
  intros b e Hb _. exists (inl err), (szCursor b), e. rewrite set_cursor_id.
  split_and!; [done | lia | by destruct Hb as [_ _ _ _ [_ ?] _] | done].
Qed.

(** A condition on the message that stays when the cursor moves forward. *)
Class MessageCond (ok : dns_buffer → Prop) := message_cond b c : ok b → szCursor b <= c → ok (set_szCursor c b).

Lemma reads_bind {A B} ok `{!MessageCond ok} (m : DM A) (k : A → DM B) (P : A → Prop) (Q : B → Prop) :
  reads ok m P → (∀ a, P a → reads ok (k a) Q) → reads ok (rbind m k) Q.
Proof.
  intros Hm Hk b e Hb Ho. destruct (Hm b e Hb Ho) as ([err | a] & c & e' & Hr & Hc & Ha); unfold rbind; rewrite Hr.
  - exists (inl err), c, e'. split_and!; [done | lia | lia | done].
  - pose proof (wf_cursor b Hb).
    destruct (Hk a Ha (set_szCursor c b) e') as (r & c2 & e2 & Hr2 & Hc2 & Hq).
    { apply set_cursor_wf; [done | lia]. } { apply message_cond; [done | lia]. }
    cbn [szCursor szLength set_szCursor] in Hc2. exists r, c2, e2. rewrite Hr2.
    split_and!; [done | lia | lia | done].
Qed.

Lemma reads_under {A} (ok ok' : dns_buffer → Prop) (m : DM A) P : (∀ b, ok' b → ok b) → reads ok m P → reads ok' m P.
Proof. intros Ho Hm b e Hb Hok. apply Hm; auto. Qed.

Lemma reads_get {A} ok (k : dns_buffer → DM A) P : (∀ b, dns_wf b → ok b → reads ok (k b) P) → reads ok (rbind rget k) P.
Proof. intros Hk b e Hb Ho. unfold rbind at 1, rget. exact (Hk b Hb Ho b e Hb Ho). Qed.

Lemma reads_weaken {A} ok (m : DM A) (P Q : A → Prop) : reads ok m P → (∀ a, P a → Q a) → reads ok m Q.
Proof.
  intros Hm HPQ b e Hb Ho. destruct (Hm b e Hb Ho) as (r & c & e' & Hr & Hc & Ha).
  exists r, c, e'. split_and!; [done | lia | lia | destruct r; auto].
Qed.

(** ** The writers *)

Lemma block_read_spec off n m : 0 <= off → 0 <= n → off + n <= zlen m →
  block_read off n m = Some (take (Z.to_nat n) (drop (Z.to_nat off) m)).
Proof.
  intros Ho Hn Hm. unfold block_read. by rewrite !(proj2 (Z.leb_le _ _)) by lia.
Qed.

Lemma block_read_all m : block_read 0 (zlen m) m = Some m.
Proof. rewrite block_read_spec by lia. by rewrite drop_0, Nat2Z.id, firstn_all. Qed.

Lemma block_write_spec off bs m : 0 <= off → off + zlen bs <= zlen m →
  block_write off bs m = Some (take (Z.to_nat off) m ++ bs ++ drop (Z.to_nat off + length bs) m).
Proof.
  intros Ho Hm. unfold block_write. by rewrite !(proj2 (Z.leb_le _ _)) by lia.
Qed.

Lemma copy_memory_spec {St} dst off destinationSize src n (s : St) e :
  0 <= off → 0 <= n <= destinationSize → n <= zlen src → off + n <= zlen dst →
  VmDnsCopyMemory dst off destinationSize src n s e =
    Some (inr (take (Z.to_nat off) dst ++ take (Z.to_nat n) src ++ drop (Z.to_nat off + Z.to_nat n) dst), s, e).
Proof.
  intros Ho Hn Hs Hd. unfold VmDnsCopyMemory. rewrite (proj2 (Z.ltb_ge _ _)) by lia.
  unfold rbind, rlift. rewrite block_read_spec, drop_0 by lia.
  rewrite block_write_spec by (rewrite ?length_take; lia). rewrite length_take. by rewrite Nat.min_l by lia.
Qed.

Lemma adjust_spec n b e : dns_wf b → 0 <= n < 2 ^ 32 →
  ∃ r b' e', VmDnsAdjustMemoryBuffer n b e = Some (r, b', e') ∧ dns_wf b' ∧ same_ends b b' ∧
    szLength b' = szLength b ∧ contents b' = contents b ∧ (quiet e → quiet e') ∧
    match r with inr _ => szLength b + n <= szCurrentSize b' | inl _ => ¬ (quiet e ∧ fits n b) end.
Proof.
  intros Hb Hn. pose proof Hb as [Hblk Hlen Hmax Hlim Hcur Hby].
  unfold VmDnsAdjustMemoryBuffer, rbind at 1, rget. rewrite !u64_id by (unfold is_u64; lia).
  destruct (Z.ltb_spec (szCurrentSize b) (szLength b + n)) as [Hlt | Hge].
  2: { exists (inr tt), b, e. split_and!; try done. }
  destruct (Z.gtb_spec (2 * szCurrentSize b + n) (szMaxSize b)) as [Hgt | Hle].
  { exists (inl ERROR_NOT_ENOUGH_MEMORY), b, e. split_and!; try done. unfold fits. intros [_ ?]. lia. }
  unfold VmDnsReallocateMemoryWithInit. rewrite (proj2 (Z.ltb_ge _ _)) by lia.
  unfold rbind, next_outcome. destruct (Z.eqb_spec (default 0 (head e)) 0) as [Ho | Ho]; cbn [rret rfail].
  - eexists (inr tt), _, (tail e). split; [reflexivity |].
    assert (take (Z.to_nat (szCurrentSize b)) (pMessage b) = pMessage b) as Htk by (apply take_ge; lia).
    rewrite Htk. split_and!; try done; [| | apply quiet_tail | cbn; lia].
    + constructor; cbn; try (lia || exact Hmax).
      * rewrite length_app, length_replicate. lia.
      * apply Forall_app. split; [done |]. apply Forall_replicate. unfold is_byte. lia.
    + unfold contents. cbn. apply take_app_le. lia.
  - eexists (inl ERROR_NO_MEMORY), b, (tail e). split_and!; try done; [apply quiet_tail |].
    intros [Hq _]. apply Ho. by apply quiet_head.
Qed.

Lemma same_ends_block b b' m c l : same_ends b b' → same_ends b (set_block m c l b').
Proof. intros []. by constructor. Qed.

(** The state after [bs] has been copied behind the message. *)
Lemma copied_wf b bs : dns_wf b → bytes bs → szLength b + zlen bs <= szCurrentSize b →
  let m := take (Z.to_nat (szLength b)) (pMessage b) ++ bs ++ drop (Z.to_nat (szLength b) + length bs) (pMessage b) in
  let b' := set_block m (szCurrentSize b) (szLength b + zlen bs) b in
  dns_wf b' ∧ contents b' = contents b ++ bs.
Proof.
  intros [Hblk Hlen Hmax Hlim Hcur Hby] Hbs Hroom m b'. unfold b'. split.
  - constructor; cbn; try (lia || exact Hmax).
    + unfold m. rewrite !length_app, length_take, length_drop. lia.
    + unfold m. rewrite !Forall_app. split_and!; [by apply Forall_take | done | by apply Forall_drop].
  - unfold contents, m. cbn. rewrite app_assoc. rewrite take_app_le by (rewrite length_app, length_take; lia).
    by rewrite take_ge by (rewrite length_app, length_take; lia).
Qed.

Lemma append_emits tok bs : bytes bs → zlen bs < 2 ^ 32 → emits tok (append_bytes bs) bs tt.
Proof.
  intros Hbs Hn b e Hb Hw Ht.
  destruct (adjust_spec (zlen bs) b e Hb ltac:(lia)) as (r & b1 & e1 & Hr & Hb1 & Hs1 & Hl1 & Hc1 & Hq & Hres).
  unfold append_bytes, rbind at 1. rewrite Hr. destruct r as [err | []].
  { exists (inl err), b1, e1. split_and!; try done. exists []. split; [apply prefix_nil | by rewrite app_nil_r]. }
  pose proof Hb1 as [Hblk Hlen Hmax Hlim Hcur Hby]. rewrite <- Hl1 in Hres.
  unfold rbind, rget. rewrite u64_id by (unfold is_u64; lia). rewrite copy_memory_spec by lia.
  rewrite Nat2Z.id, (take_ge bs) by lia. rewrite u64_id by (unfold is_u64; lia).
  destruct (copied_wf b1 bs Hb1 Hbs Hres) as [Hwf Hc]. cbn [rset].
  eexists (inr tt), _, e1. split; [reflexivity |]. split_and!; [done | | done | done |].
  - by apply same_ends_block.
  - by rewrite Hc, Hc1.
Qed.

Lemma can_write_emits {A} tok (m : DM A) bs a : emits tok m bs a → emits tok (check_can_write ;;; m) bs a.
Proof. intros Hm b e Hb Hw Ht. unfold check_can_write, rbind, rget. rewrite Hw. by apply Hm. Qed.

Lemma host_bytes_length n v : length (host_bytes n v) = n.
Proof. unfold host_bytes. by rewrite length_rev, enc_length. Qed.

Lemma swap_loop_rev n l : n = length l → swap_loop n l = rev l.
Proof.
  revert l. induction n as [|i IH]; intros l Hl; [by destruct l |].
  destruct (exists_last (l:=l)) as (l' & x & ->); [by destruct l |]. rewrite length_app in Hl. cbn in Hl.
  cbn [swap_loop]. rewrite rev_app_distr. cbn [rev app]. f_equal.
  - assert (i = length l') as -> by lia. by rewrite lookup_app_r, Nat.sub_diag by lia.
  - rewrite <- (IH l') by lia. clear IH. assert (Hi : (i <= length l')%nat) by lia. clear Hl.
    induction i as [|j IHj]; [done |]. cbn [swap_loop]. by rewrite lookup_app_l, IHj by lia.
Qed.

Lemma nToH_rev l : VmDnsNToH l = rev l.
Proof. unfold VmDnsNToH. change VmDnsIsBigEndian with false. by apply swap_loop_rev. Qed.

Lemma hToN_host n v : VmDnsHToN (host_bytes n v) = enc n v.
Proof. unfold VmDnsHToN, host_bytes. by rewrite nToH_rev, rev_involutive. Qed.

Lemma enc_be bs : bytes bs → enc (length bs) (be bs) = bs.
Proof.
  induction 1 as [|b bs Hb Hbs IH]; [done |]. cbn [length enc]. rewrite be_cons.
  pose proof (be_range bs Hbs). unfold is_byte in Hb. f_equal.
  - rewrite Z.shiftl_mul_pow2, Z.shiftr_div_pow2 by lia. change (2 ^ 3) with 8.
    replace (2 ^ (zlen bs * 8)) with (256 ^ zlen bs)
      by (change 256 with (2 ^ 8); rewrite <- Z.pow_mul_r by lia; f_equal; lia).
    rewrite Z.div_add_l, Z.div_small by lia. unfold u8. rewrite Z.mod_small; lia.
  - etransitivity; [| exact IH]. rewrite <- (enc_mod _ (be bs) (length bs * 8)) by lia.
    rewrite <- (enc_mod _ (_ + _) (length bs * 8)) by lia. f_equal.
    replace (2 ^ Z.of_nat (length bs * 8)) with (256 ^ zlen bs)
      by (change 256 with (2 ^ 8); rewrite <- Z.pow_mul_r by lia; f_equal; lia).
    rewrite (Z.add_comm (b * _)). apply Z_mod_plus_full.
Qed.

Lemma host_swap n v : host_bytes n (be (host_bytes n v)) = enc n v.
Proof.
  unfold host_bytes. set (l := rev (enc n v)).
  assert (length l = n) as Hl by (unfold l; by rewrite length_rev, enc_length).
  rewrite <- Hl at 1. rewrite enc_be; [unfold l; by rewrite rev_involutive |].
  unfold l. apply Forall_rev, enc_bytes.
Qed.

Lemma host_bytes_1 v : host_bytes 1 v = enc 1 v.
Proof. done. Qed.

Ltac emit_int := apply can_write_emits; first [rewrite hToN_host | unfold htons, htonl; rewrite host_swap | idtac];
  apply append_emits; [apply enc_bytes | rewrite enc_length; lia].

Lemma emits_uint16 tok v : emits tok (VmDnsWriteUINT16ToBuffer v) (enc 2 v) tt.
Proof. unfold VmDnsWriteUINT16ToBuffer. emit_int. Qed.
Lemma emits_uint32 tok v : emits tok (VmDnsWriteUINT32ToBuffer v) (enc 4 v) tt.
Proof. unfold VmDnsWriteUINT32ToBuffer. emit_int. Qed.
Lemma emits_uint64 tok v : emits tok (VmDnsWriteUINT64ToBuffer v) (enc 8 v) tt.
Proof. unfold VmDnsWriteUINT64ToBuffer. emit_int. Qed.
Lemma emits_uchar tok v : emits tok (VmDnsWriteUCharToBuffer v) (enc 1 v) tt.
Proof. unfold VmDnsWriteUCharToBuffer. rewrite host_bytes_1. emit_int. Qed.
Lemma emits_char tok v : emits tok (VmDnsWriteCharToBuffer v) (enc 1 v) tt.
Proof. unfold VmDnsWriteCharToBuffer. rewrite host_bytes_1. emit_int. Qed.

(** Two adjacent copies. *)
Lemma write_twice (m : list Z) k x bs : (k < length m)%nat →
  let m1 := take k m ++ [x] ++ drop (k + 1) m in
  take (S k) m1 ++ bs ++ drop (S k + length bs) m1 = take k m ++ (x :: bs) ++ drop (k + length (x :: bs)) m.
Proof.
  intros Hk m1. unfold m1. rewrite (app_assoc (take k m) [x]).
  assert (length (take k m ++ [x]) = S k) as Hl by (rewrite length_app, length_take; cbn; lia).
  rewrite (take_app_length' _ _ _ (eq_sym Hl)), <- app_assoc. cbn [app]. do 3 f_equal.
  rewrite <- drop_drop, (drop_app_length' _ _ _ (eq_sym Hl)), drop_drop. cbn [length].
  f_equal. lia.
Qed.

Lemma emits_string tok s n : bytes s → 0 <= n < 256 → n <= zlen s →
  emits tok (VmDnsWriteStringToBuffer (Some s) n) (n :: take (Z.to_nat n) s) tt.
Proof.
  intros Hs Hn Hls. apply can_write_emits. intros b e Hb Hw Ht.
  assert (u8 n = n) as -> by (apply Z.mod_small; lia).
  set (bs := n :: take (Z.to_nat n) s).
  assert (zlen bs = n + 1) as Hbl by (unfold bs; cbn [length]; rewrite length_take; lia).
  assert (bytes bs) as Hbs by (constructor; [done | by apply Forall_take]).
  destruct (adjust_spec (n + 1) b e Hb ltac:(lia)) as (r & b1 & e1 & Hr & Hb1 & Hs1 & Hl1 & Hc1 & Hq & Hres).
  unfold rbind at 1. rewrite Hr. destruct r as [err | []].
  { exists (inl err), b1, e1. rewrite Hbl. split_and!; try done. exists []. split; [apply prefix_nil | by rewrite app_nil_r]. }
  pose proof Hb1 as [Hblk Hlen Hmax Hlim Hcur Hby]. rewrite <- Hl1 in Hres.
  destruct (copied_wf b1 bs Hb1 Hbs ltac:(lia)) as [Hwf Hc]. rewrite Hbl in Hwf, Hc.
  exists (inr tt). eexists _, e1. split.
  { unfold rbind, rget, rlift. rewrite block_write_spec by (cbn; lia).
    rewrite !u64_id by (unfold is_u64; lia). unfold rtry.
    assert (Hm : take (Z.to_nat (szLength b1)) (pMessage b1) ++ bs ++ drop (Z.to_nat (szLength b1) + length bs) (pMessage b1) =
      (if n =? 0 then take (Z.to_nat (szLength b1)) (pMessage b1) ++ [n] ++ drop (Z.to_nat (szLength b1) + 1) (pMessage b1)
       else let m1 := take (Z.to_nat (szLength b1)) (pMessage b1) ++ [n] ++ drop (Z.to_nat (szLength b1) + 1) (pMessage b1) in
         take (Z.to_nat (szLength b1 + 1)) m1 ++ take (Z.to_nat n) s ++ drop (Z.to_nat (szLength b1 + 1) + Z.to_nat n) m1)).
    { destruct (Z.eqb_spec n 0) as [-> |]; [done |]. cbv zeta. rewrite Z2Nat.inj_add by lia.
      change (Z.to_nat 1) with 1%nat. rewrite Nat.add_1_r.
      pose proof (write_twice (pMessage b1) (Z.to_nat (szLength b1)) n (take (Z.to_nat n) s) ltac:(lia)) as Hwt.
      cbv zeta in Hwt. fold bs in Hwt. rewrite Nat.add_1_r, length_take, Nat.min_l in Hwt by lia. exact (eq_sym Hwt). }
    cbn [length]. change (Z.of_nat 1) with 1. destruct (Z.eqb_spec n 0) as [Hn0 | Hn0]; cbn [rret].
    - unfold rset. rewrite <- Hm. reflexivity.
    - rewrite copy_memory_spec; [| lia | lia | lia |].
      + unfold rset, rret. cbv zeta in Hm. rewrite <- Hm. reflexivity.
      + rewrite !length_app, length_take, length_drop. cbn. lia. }
  split_and!; [exact Hwf | by apply same_ends_block | done | done | by rewrite Hc, Hc1].
Qed.

Lemma emits_nil_string tok : emits tok (VmDnsWriteStringToBuffer (Some [0]) 0) [0] tt.
Proof. apply (emits_string tok [0] 0); [by repeat constructor | lia | cbn; lia]. Qed.

(** The bytes of a blob: its size and its data. *)
Definition blob_data (x : dns_blob) : list Z := default [] (pData x).
Definition blob_ok (x : dns_blob) : Prop :=
  bytes (blob_data x) ∧ zlen (blob_data x) = unSize x ∧ unSize x < 2 ^ 16 ∧ (pData x = None ↔ unSize x = 0).
Definition blob_bytes (x : dns_blob) : list Z := enc 2 (unSize x) ++ blob_data x.

Lemma emits_blob tok x : blob_ok x → emits tok (VmDnsWriteBlobToBuffer x true) (blob_bytes x) tt.
Proof.
  intros (Hd & Hsz & Hlim & Hnull). apply can_write_emits. apply emits_bind with tt; [apply emits_uint16 |].
  unfold blob_data in *. destruct x as [sz [d|]]; cbn in *.
  - assert (emits tok (append_bytes d) d tt) as Ha by (apply append_emits; [done | lia]).
    rewrite <- Hsz. intros b e Hb Hw Ht. unfold rbind, rlift. rewrite block_read_all. by apply Ha.
  - rewrite (proj1 Hnull eq_refl). apply append_emits; [constructor | cbn; lia].
Qed.

(** ** The readers *)

(** The bytes behind the cursor are the same in the message and in the block. *)
Lemma message_rest b bs post :
  dns_wf b → drop (Z.to_nat (szCursor b)) (contents b) = bs ++ post →
  ∃ rest, drop (Z.to_nat (szCursor b)) (pMessage b) = bs ++ rest.
Proof.
  intros Hb Hd. unfold contents in Hd. exists (post ++ drop (Z.to_nat (szLength b)) (pMessage b)).
  rewrite app_assoc, <- Hd. rewrite <- (take_drop (Z.to_nat (szLength b)) (pMessage b)) at 1.
  rewrite drop_app_le; [done |]. pose proof (contents_length b Hb). unfold contents in *.
  pose proof (wf_cursor b Hb). lia.
Qed.

Lemma consumes_map {A B} tok (m : DM A) (f : A → B) bs a c :
  consumes tok m bs a → (∀ p, f (a p) = c p) → consumes tok (x <- m ;; rret (f x)) bs c.
Proof.
  intros Hm Hf b e post Hb He Ht Hd. destruct (Hm b e post Hb He Ht Hd) as (e' & Hr & He').
  exists e'. unfold rbind. rewrite Hr. by rewrite <- Hf.
Qed.

Lemma check_ok b n e : dns_wf b → 0 <= n → szCursor b + n <= szLength b →
  VmDnsCheckMemory n b e = Some (inr tt, b, e).
Proof.
  intros [_ ? ? ? ? _] Hn Hc. unfold VmDnsCheckMemory, rbind, rget.
  rewrite u64_id by (unfold is_u64; lia). by rewrite (proj2 (Z.ltb_ge _ _)) by lia.
Qed.

Lemma check_short b n e : dns_wf b → 0 <= n < 2 ^ 32 → szLength b < szCursor b + n →
  VmDnsCheckMemory n b e = Some (inl ERROR_INSUFFICIENT_BUFFER, b, e).
Proof.
  intros [_ ? ? ? ? _] Hn Hc. unfold VmDnsCheckMemory, rbind, rget.
  rewrite u64_id by (unfold is_u64; lia). by rewrite (proj2 (Z.ltb_lt _ _)) by lia.
Qed.

Lemma advance_ok b n e : dns_wf b → 0 <= n → szCursor b + n <= szLength b →
  advance n b e = Some (inr tt, set_szCursor (szCursor b + n) b, e).
Proof.
  intros [_ ? ? ? ? _] Hn Hc. unfold advance, rset. by rewrite u64_id by (unfold is_u64; lia).
Qed.

Lemma take_bytes_ok b n e : dns_wf b → 0 <= n → szCursor b + n <= szLength b →
  take_bytes n b e =
    Some (inr (take (Z.to_nat n) (drop (Z.to_nat (szCursor b)) (pMessage b))), set_szCursor (szCursor b + n) b, e).
Proof.
  intros Hb Hn Hc. pose proof Hb as [Hblk ? ? ? ? _]. unfold take_bytes, rbind. rewrite check_ok by done.
  unfold rget, rlift. rewrite block_read_spec by lia. by rewrite advance_ok.
Qed.

Lemma take_bytes_consumes tok n bs : n = zlen bs → consumes tok (take_bytes n) bs (λ _, bs).
Proof.
  intros -> b e post Hb He Ht Hd. destruct (message_rest b bs post Hb Hd) as [rest Hrest].
  exists e. split; [| done]. rewrite take_bytes_ok by (done || lia || by eapply rest_cursor).
  by rewrite Hrest, Nat2Z.id, take_app_length.
Qed.

Lemma host_value_be bs : host_value (VmDnsNToH bs) = be bs.
Proof. unfold host_value. by rewrite nToH_rev, rev_involutive. Qed.

Lemma ntoh_be n bs : length bs = n → bytes bs → be (host_bytes n (host_value bs)) = be bs.
Proof.
  intros <- Hbs. unfold host_bytes, host_value. rewrite <- length_rev, enc_be by (by apply Forall_rev).
  by rewrite rev_involutive.
Qed.

Lemma consumes_uint16 tok v : 0 <= v < 2 ^ 16 → consumes tok VmDnsReadUINT16FromBuffer (enc 2 v) (λ _, v).
Proof.
  intros Hv. eapply consumes_map; [by apply take_bytes_consumes |]. intros p. cbv beta. unfold ntohs.
  rewrite ntoh_be, be_enc by (apply enc_length || apply enc_bytes). by apply Z.mod_small.
Qed.

Lemma consumes_uint32 tok v : is_u32 v → consumes tok VmDnsReadUINT32FromBuffer (enc 4 v) (λ _, v).
Proof.
  intros Hv. eapply consumes_map; [by apply take_bytes_consumes |]. intros p. cbv beta. unfold ntohl.
  rewrite ntoh_be, be_enc by (apply enc_length || apply enc_bytes). by apply Z.mod_small.
Qed.

Lemma consumes_uint64 tok v : is_u64 v → consumes tok VmDnsReadUINT64FromBuffer (enc 8 v) (λ _, v).
Proof.
  intros Hv. eapply consumes_map; [by apply take_bytes_consumes |]. intros p. cbv beta.
  rewrite host_value_be, be_enc. by apply Z.mod_small.
Qed.

Lemma consumes_uchar tok v : is_byte v → consumes tok VmDnsReadUCharFromBuffer [v] (λ _, v).
Proof. intros Hv. eapply consumes_map; [by apply take_bytes_consumes |]. intros p. cbn. lia. Qed.

Lemma alloc_ok {St} n (s : St) e : 0 < n → quiet e →
  VmDnsAllocateMemory n s e = Some (inr (replicate (Z.to_nat n) 0), s, tail e).
Proof.
  intros Hn He. unfold VmDnsAllocateMemory. rewrite (proj2 (Z.eqb_neq n 0)) by lia.
  unfold rbind, next_outcome. by rewrite quiet_head.
Qed.

(** A copy that fills the whole block. *)
Lemma copy_fill {St} dst src n (s : St) e : zlen dst = n → n <= zlen src →
  VmDnsCopyMemory dst 0 n src n s e = Some (inr (take (Z.to_nat n) src), s, e).
Proof.
  intros Hd Hs. rewrite copy_memory_spec by lia. cbn [Z.to_nat take app Nat.add].
  rewrite drop_ge by lia. by rewrite app_nil_r.
Qed.

Lemma consumes_blob tok x : blob_ok x → consumes tok VmDnsReadBlobFromBuffer (blob_bytes x) (λ _, x).
Proof.
  intros (Hd & Hsz & Hlim & Hnull). unfold VmDnsReadBlobFromBuffer, blob_bytes.
  apply consumes_bind with (a := λ _, unSize x); [apply consumes_uint16; lia |]. intros _ b e post Hb He Ht Hdr.
  pose proof (rest_cursor _ _ _ Hb Hdr) as Hc. destruct (message_rest _ _ _ Hb Hdr) as [rest Hrest].
  unfold rbind at 1. rewrite check_ok by (done || lia).
  unfold rbind at 1, VmDnsAllocateBlob, rbind at 1. rewrite alloc_ok by (done || lia).
  apply quiet_tail in He. unfold blob_data in *. destruct x as [sz [d|]]; cbn in *.
  - assert (sz ≠ 0) by (intros ->; by specialize (proj2 Hnull eq_refl)).
    rewrite (proj2 (Z.eqb_neq sz 0)) by done. unfold rbind at 1. rewrite alloc_ok by (done || lia).
    unfold rbind, rget. cbn [pData rret]. rewrite Hrest.
    rewrite copy_fill by (rewrite ?length_replicate, ?length_app; lia). rewrite advance_ok by (done || lia).
    exists (tail (tail e)). rewrite <- Hsz, Nat2Z.id, take_app_length. split; [done | by apply quiet_tail].
  - rewrite (proj1 Hnull eq_refl). cbn. exists (tail e). rewrite Z.add_0_r, set_cursor_id. done.
Qed.

(** ** Bounds of the readers *)

Lemma contents_lookup b i : dns_wf b → Z.of_nat i < szLength b → contents b !! i = pMessage b !! i.
Proof. intros Hb Hi. unfold contents. apply lookup_take_lt. lia. Qed.

Lemma block_byte_in b o : dns_wf b → 0 <= o < szLength b →
  ∃ n, block_byte o (pMessage b) = Some n ∧ contents b !! Z.to_nat o = Some n ∧ is_byte n.
Proof.
  intros Hb Ho. pose proof Hb as [Hblk ? ? ? ? Hby]. unfold block_byte. rewrite (proj2 (Z.leb_le 0 o)) by lia.
  destruct (lookup_lt_is_Some_2 (pMessage b) (Z.to_nat o) ltac:(lia)) as [n Hn].
  exists n. rewrite contents_lookup by (done || lia). split_and!; [done | done |].
  all: by apply (Forall_lookup_1 _ _ _ _ Hby Hn).
Qed.

(** A step that leaves the buffer as it is. *)
Lemma reads_stay {A} b (r : dwerror + A) (e : env) (P : A → Prop) :
  dns_wf b → match r with inr a => P a | inl _ => True end →
  ∃ r' c e', Some (r, b, e) = Some (r', set_szCursor c b, e') ∧ szCursor b <= c <= szLength b ∧
    match r' with inr a => P a | inl _ => True end.
Proof.
  intros Hb Hr. pose proof (wf_cursor b Hb). exists r, (szCursor b), e. rewrite set_cursor_id. split_and!; done || lia.
Qed.

Lemma reads_take ok n : 0 <= n < 2 ^ 32 → reads ok (take_bytes n) (λ bs, zlen bs = n ∧ bytes bs).
Proof.
  intros Hn b e Hb _. pose proof Hb as [Hblk ? ? ? ? Hby].
  destruct (decide (szCursor b + n <= szLength b)) as [Hc | Hc].
  - rewrite take_bytes_ok by (done || lia). eexists (inr _), _, e. split; [reflexivity |].
    split_and!; [lia | lia | rewrite length_take, length_drop; lia |]. by apply Forall_take, Forall_drop.
  - unfold take_bytes, rbind. rewrite check_short by (done || lia). by apply reads_stay.
Qed.

Section Reads.
Context (ok : dns_buffer → Prop) `{!MessageCond ok}.

Lemma reads_map {A B} (m : DM A) (f : A → B) (P : A → Prop) (Q : B → Prop) :
  reads ok m P → (∀ a, P a → Q (f a)) → reads ok (x <- m ;; rret (f x)) Q.
Proof. intros Hm HQ. eapply reads_bind; [done | exact Hm |]. intros a Ha. by apply reads_ret, HQ. Qed.

Lemma be_host_range n bs : length bs = n → bytes bs → 0 <= be (host_bytes n (host_value bs)) < 256 ^ Z.of_nat n.
Proof. intros Hl Hbs. rewrite ntoh_be by done. rewrite <- Hl. by apply be_range. Qed.

Lemma reads_uint16 : reads ok VmDnsReadUINT16FromBuffer (λ v, 0 <= v < 2 ^ 16).
Proof.
  eapply reads_map; [by apply reads_take |]. intros bs [Hl Hb]. apply (be_host_range 2); [lia | done].
Qed.

Lemma reads_uint32 : reads ok VmDnsReadUINT32FromBuffer is_u32.
Proof.
  eapply reads_map; [by apply reads_take |]. intros bs [Hl Hb]. apply (be_host_range 4); [lia | done].
Qed.

Lemma reads_uint64 : reads ok VmDnsReadUINT64FromBuffer is_u64.
Proof.
  eapply reads_map; [by apply reads_take |]. intros bs [Hl Hb]. rewrite host_value_be.
  pose proof (be_range bs Hb) as Hr. by rewrite Hl in Hr.
Qed.

Lemma reads_uchar : reads ok VmDnsReadUCharFromBuffer is_byte.
Proof.
  eapply reads_map; [by apply reads_take |]. intros bs [Hl Hb]. unfold host_value.
  pose proof (be_range (rev bs) (Forall_rev Hb)) as Hr. rewrite length_rev, Hl in Hr. exact Hr.
Qed.

Lemma reads_alloc n : 0 < n → reads ok (VmDnsAllocateMemory n) (λ m, m = replicate (Z.to_nat n) 0).
Proof.
  intros Hn b e Hb _. pose proof (wf_cursor b Hb). unfold VmDnsAllocateMemory.
  rewrite (proj2 (Z.eqb_neq n 0)) by lia. unfold rbind, next_outcome.
  destruct (_ =? 0); by apply reads_stay.
Qed.

Lemma reads_check n : 0 <= n < 2 ^ 32 → reads ok (VmDnsCheckMemory n) (λ _, True).
Proof.
  intros Hn b e Hb _. pose proof (wf_cursor b Hb).
  destruct (decide (szCursor b + n <= szLength b)).
  - rewrite check_ok by (done || lia). by apply reads_stay.
  - rewrite check_short by (done || lia). by apply reads_stay.
Qed.

Lemma reads_blob : reads ok VmDnsReadBlobFromBuffer blob_ok.
Proof.
  unfold VmDnsReadBlobFromBuffer. eapply reads_bind; [done | apply reads_uint16 |]. cbv beta. intros n Hn b e Hb Hok.
  pose proof Hb as [Hblk ? ? ? ? Hby].
  unfold rbind at 1. destruct (decide (szCursor b + n <= szLength b)) as [Hc | Hc].
  2: { rewrite check_short by (done || lia). by apply reads_stay. }
  rewrite check_ok by (done || lia).
  unfold rbind at 1, VmDnsAllocateBlob, rbind at 1, VmDnsAllocateMemory at 1, rbind at 1, next_outcome. cbn [Z.eqb].
  destruct (Z.eqb_spec (default 0 (head e)) 0); cbn [rret rfail]; [| by apply reads_stay].
  destruct (Z.eqb_spec n 0) as [-> | Hn0]; cbn [rret].
  { apply reads_stay; [done |]. split_and!; done || constructor. }
  unfold rbind at 1, VmDnsAllocateMemory, rbind at 1, next_outcome.
  rewrite (proj2 (Z.eqb_neq n 0)) by lia.
  destruct (Z.eqb_spec (default 0 (head (tail e))) 0); cbn [rret rfail]; [| by apply reads_stay].
  unfold rbind, rget. cbn [pData].
  rewrite copy_fill by (rewrite ?length_replicate, ?length_drop; lia). rewrite advance_ok by (done || lia).
  eexists (inr _), _, _. split; [reflexivity |]. split; [lia |].
  unfold blob_ok, blob_data. cbn. rewrite length_take, length_drop.
  split_and!; [by apply Forall_take, Forall_drop | lia | lia | split; [done | intros; lia]].
Qed.

End Reads.

(** ** Whole messages *)

Lemma alloc_run {St} n (s : St) e : 0 < n →
  VmDnsAllocateMemory n s e = Some (inr (replicate (Z.to_nat n) 0), s, tail e) ∨
  VmDnsAllocateMemory n s e = Some (inl ERROR_NO_MEMORY, s, tail e).
Proof.
  intros Hn. unfold VmDnsAllocateMemory. rewrite (proj2 (Z.eqb_neq n 0)) by lia. unfold rbind, next_outcome.
  destruct (_ =? 0); [by left | by right].
Qed.

(** The buffer of a message that came in. *)
Definition in_buffer (fl : bool) (msg : list Z) : dns_buffer :=
  DNS_BUFFER VMDNS_MAX_SIZE_BUFFER (zlen msg) (zlen msg) 0 false fl msg.

Lemma in_buffer_contents fl msg : contents (in_buffer fl msg) = msg.
Proof. unfold contents. cbn. rewrite Nat2Z.id. apply take_ge. lia. Qed.

Lemma in_buffer_wf fl msg : bytes msg → zlen msg <= 2 ^ 32 → dns_wf (in_buffer fl msg).
Proof. intros Hm Hl. constructor; cbn -[Z.pow]; unfold VMDNS_MAX_SIZE_BUFFER; done || lia. Qed.

Lemma set_flag_in {A} fl (m : DM A) msg e : (VmDnsSetBufferTokenizedFlag fl ;;; m) (in_buffer false msg) e = m (in_buffer fl msg) e.
Proof. done. Qed.

(** The buffer is made, or memory is refused. *)
Lemma in_buffer_made {St} (msg : list Z) (s : St) e : 0 < zlen msg →
  ∃ e', (VmDnsAllocateBufferStreamWithBuffer msg (zlen msg) 0 false s e = Some (inr (in_buffer false msg), s, e') ∧
         (quiet e → quiet e')) ∨
        (VmDnsAllocateBufferStreamWithBuffer msg (zlen msg) 0 false s e = Some (inl ERROR_NO_MEMORY, s, e') ∧ ¬ quiet e).
Proof.
  intros Hm. unfold VmDnsAllocateBufferStreamWithBuffer. rewrite (proj2 (Z.eqb_neq _ _)) by lia. unfold rbind.
  destruct (alloc_run (zlen msg) s e ltac:(lia)) as [Hr | Hr]; rewrite !Hr.
  2: { eexists. right. split; [done |]. intros Hq. by rewrite alloc_ok in Hr by (done || lia). }
  rewrite !copy_fill by (rewrite ?length_replicate; lia). rewrite Nat2Z.id, firstn_all.
  unfold VmDnsAllocateBufferStream, rbind. cbn [Z.gtb Z.compare VMDNS_MAX_SIZE_BUFFER Z.eqb].
  destruct (alloc_run 48 s (tail e) ltac:(done)) as [Hr' | Hr']; rewrite !Hr'; eexists.
  - left. split; [done |]. intros Hq. by do 2 apply quiet_tail.
  - right. split; [done |]. intros Hq. by rewrite alloc_ok in Hr' by (done || by apply quiet_tail).
Qed.

Lemma consume_message {St A} fl (m : DM A) msg a (s : St) e :
  consumes fl m msg a → bytes msg → 0 < zlen msg <= 2 ^ 32 → quiet e →
  ∃ e', with_buffer (VmDnsAllocateBufferStreamWithBuffer msg (zlen msg) 0 false) (VmDnsSetBufferTokenizedFlag fl ;;; m) s e =
    Some (inr (a 0), s, e') ∧ quiet e'.
Proof.
  intros Hm Hb Hl He. unfold with_buffer. destruct (in_buffer_made msg s e ltac:(lia)) as (e1 & [[-> He1] | [_ ?]]); [| done].
  rewrite set_flag_in. destruct (Hm (in_buffer fl msg) e1 []) as (e2 & Hr & He2); [apply in_buffer_wf; done || lia | auto | done | |].
  - cbn [szCursor in_buffer Z.to_nat drop]. by rewrite in_buffer_contents, app_nil_r.
  - exists e2. by rewrite Hr.
Qed.

Lemma read_message {St A} fl ok (m : DM A) msg (P : A → Prop) (s : St) e :
  reads ok m P → ok (in_buffer fl msg) → bytes msg → 0 < zlen msg <= 2 ^ 32 →
  ∃ r e', with_buffer (VmDnsAllocateBufferStreamWithBuffer msg (zlen msg) 0 false) (VmDnsSetBufferTokenizedFlag fl ;;; m) s e =
    Some (r, s, e') ∧ match r with inr a => P a | inl _ => True end.
Proof.
  intros Hm Hok Hb Hl. unfold with_buffer. destruct (in_buffer_made msg s e ltac:(lia)) as (e1 & [[-> _] | [-> _]]).
  2: by eexists (inl _), _.
  rewrite set_flag_in. destruct (Hm (in_buffer fl msg) e1) as (r & c & e2 & Hr & _ & HP); [apply in_buffer_wf; done || lia | done |].
  exists r, e2. by rewrite Hr.
Qed.

(** A message that goes out: when the allocator does its work and the message
    is small, the bytes are those that were appended; else there is an error. *)
Definition out_buffer (fl : bool) : dns_buffer := DNS_BUFFER VMDNS_MAX_SIZE_BUFFER 0 0 0 true fl [].

Lemma out_buffer_wf fl : dns_wf (out_buffer fl).
Proof. constructor; cbn -[Z.pow]; unfold VMDNS_MAX_SIZE_BUFFER; done || lia || constructor. Qed.

Lemma copy_stream_run b e : dns_wf b → 0 < szLength b →
  ∃ e', (copy_stream b e = Some (inr (contents b), b, e') ∧ (quiet e → quiet e')) ∨
        (copy_stream b e = Some (inl ERROR_NO_MEMORY, b, e') ∧ ¬ quiet e).
Proof.
  intros Hb Hl. pose proof Hb as [Hblk ? ? ? ? _]. exists (tail e).
  unfold copy_stream, VmDnsCopyBufferFromBufferStream, rbind, rget. cbn [rret fst snd].
  destruct (alloc_run (szLength b) b e ltac:(lia)) as [Hr | Hr].
  - left. rewrite Hr. rewrite (proj2 (Z.eqb_neq _ _)) by lia. rewrite copy_fill by (rewrite ?length_replicate; lia).
    cbn. split; [done | apply quiet_tail].
  - right. rewrite Hr. split; [done |]. intros Hq. by rewrite alloc_ok in Hr by (done || lia).
Qed.

Lemma emit_message {St} fl (m : DM unit) bs (s : St) e : emits fl m bs tt → 0 < zlen bs →
  ∃ r e', with_buffer (VmDnsAllocateBufferStream 0) (VmDnsSetBufferTokenizedFlag fl ;;; m ;;; copy_stream) s e = Some (r, s, e') ∧
    (quiet e → quiet e') ∧
    match r with inr x => x = bs ∧ bytes bs | inl _ => ¬ (quiet e ∧ 3 * zlen bs <= VMDNS_MAX_SIZE_BUFFER) end.
Proof.
  intros Hm Hl. unfold with_buffer, VmDnsAllocateBufferStream, rbind at 1. cbn [Z.gtb Z.compare VMDNS_MAX_SIZE_BUFFER Z.eqb].
  destruct (alloc_run 48 s e ltac:(done)) as [Hr | Hr]; rewrite Hr; cbn [rret].
  2: { eexists (inl _), _. split_and!; [done | apply quiet_tail |]. intros [Hq _]. by rewrite alloc_ok in Hr by done. }
  unfold rbind at 1, VmDnsSetBufferTokenizedFlag, rset. cbn [szMaxSize szCurrentSize szLength szCursor bCanWrite pMessage].
  change (DNS_BUFFER _ 0 0 0 true fl []) with (out_buffer fl).
  destruct (Hm (out_buffer fl) (tail e)) as (r & b' & e1 & Hrun & Hwf & _ & Hq1 & Hout); [apply out_buffer_wf | done | done |].
  unfold rbind. rewrite Hrun. destruct r as [err | []].
  { eexists (inl _), _. split_and!; [done | intros; by apply Hq1, quiet_tail |]. intros [Hq Hs]. apply (proj1 Hout).
    split; [by apply quiet_tail |]. unfold fits. cbn. exact Hs. }
  destruct Hout as [_ Hc]. change (contents b' = bs) in Hc.
  assert (szLength b' = zlen bs) as Hsz by (rewrite <- (contents_length b' Hwf), Hc; done).
  destruct (copy_stream_run b' e1 Hwf ltac:(lia)) as (e2 & [[Hcp Hq2] | [Hcp Hq2]]); rewrite Hcp.
  - eexists (inr _), _. split_and!; [done | intros; by apply Hq2, Hq1, quiet_tail | done |].
    rewrite <- Hc. unfold contents. apply Forall_take, Hwf.
  - eexists (inl _), _. split_and!; [done | intros ?; exfalso; by apply Hq2, Hq1, quiet_tail |].
    intros [Hq _]. by apply Hq2, Hq1, quiet_tail.
Qed.
