(* ===== verification/DnsName.v ===== *)
(** * DnsName: domain names of [vmdns/common/record.c]

    Writing a name as labels or as one string, its length on the wire, and
    reading it back.  A name is a list of bytes without NUL; a NULL name is
    [None].  The reader is the one place where a message can make the code read
    outside the buffer: through compressed names. *)

From S2P Require Import Prelude Heap Effects DnsBuffer.

Open Scope Z_scope.

(** ** Names *)

(** [strtok_r] with the delimiter ".": the token and the rest behind it. *)
Fixpoint skip_dots (s : list Z) : list Z :=
  match s with [] => [] | c :: r => if c =? DOT then skip_dots r else s end.

Fixpoint cut_dot (s : list Z) : list Z * list Z :=
  match s with
  | [] => ([], [])
  | c :: r => if c =? DOT then ([], r) else let (t, r') := cut_dot r in (c :: t, r')
  end.

Definition VmDnsStringTokA (s : list Z) : option (list Z * list Z) :=
  match skip_dots s with [] => None | s' => Some (cut_dot s') end.

(** [while (++uTotalStringLength && pToken)]: the counter is a [UINT16], and
    the loop also ends when it wraps to 0. *)
Fixpoint name_length_loop (fuel : nat) (pToken : option (list Z * list Z)) (uTotalStringLength : Z) : option Z :=
  match fuel with
  | O => None
  | S fuel =>
      let u := u16 (uTotalStringLength + 1) in
      if u =? 0 then Some u
      else match pToken with
           | None => Some u
           | Some (t, rest) => name_length_loop fuel (VmDnsStringTokA rest) (u16 (u + u16 (zlen t)))
           end
  end.

(** [strtok_r] and [strlen] of NULL are undefined. *)
Definition VmDnsGetDomainNameLength {St} (pszDomainName : option (list Z)) (bTokenize : bool) : RM St Z :=
  match pszDomainName with
  | None => rub
  | Some s =>
      if bTokenize then
        VmDnsAllocateStringA (s ++ [0]) ;;;
        rlift (name_length_loop (S (S (length s))) (VmDnsStringTokA s) 0)
      else rret (u16 (zlen s))
  end.

Fixpoint write_labels (fuel : nat) (pToken : option (list Z * list Z)) (dwTotalStringLength : Z) : DM Z :=
  match fuel with
  | O => rub
  | S fuel =>
      match pToken with
      | None => rret dwTotalStringLength
      | Some (t, rest) =>
          let dwStringLength := u32 (zlen t) in
          if dwStringLength >? VMDNS_LABEL_LENGTH_MAX then rfail ERROR_LABEL_TOO_LONG
          else
            VmDnsWriteStringToBuffer (Some (t ++ [0])) dwStringLength ;;;
            let total := u32 (dwTotalStringLength + (dwStringLength + 1)) in
            if total >? VMDNS_NAME_LENGTH_MAX then rfail ERROR_LABEL_TOO_LONG
            else write_labels fuel (VmDnsStringTokA rest) total
      end
  end.

Definition VmDnsWriteDomainNameLabelsToBuffer (pszDomainName : option (list Z)) : DM unit :=
  match pszDomainName with
  | None => rfail ERROR_INVALID_PARAMETER
  | Some s =>
      VmDnsAllocateStringA (s ++ [0]) ;;;
      total <- write_labels (S (S (length s))) (VmDnsStringTokA s) 0 ;;
      if u32 (total + 1) >? VMDNS_NAME_LENGTH_MAX then rfail ERROR_LABEL_TOO_LONG
      else VmDnsWriteCharToBuffer 0
  end.

Definition VmDnsWriteDomainNameStringToBuffer (pszDomainName : option (list Z)) : DM unit :=
  match pszDomainName with
  | None => rfail ERROR_INVALID_PARAMETER
  | Some s =>
      let dwStringLength := u32 (zlen s) in
      if dwStringLength >? VMDNS_NAME_LENGTH_MAX then rfail ERROR_LABEL_TOO_LONG
      else
        (if dwStringLength =? 0 then rret tt else VmDnsWriteStringToBuffer (Some (s ++ [0])) dwStringLength) ;;;
        VmDnsWriteCharToBuffer 0
  end.

Definition VmDnsWriteDomainNameToBuffer (pszDomainName : option (list Z)) (bTokenize : bool) : DM unit :=
  if bTokenize then VmDnsWriteDomainNameLabelsToBuffer pszDomainName
  else VmDnsWriteDomainNameStringToBuffer pszDomainName.

Section Reader.
(** [inet_pton] of the C library: whether a string is an address of the family
    ([AF_INET] is 2, [AF_INET6] is 10).  Nothing is assumed about it. *)
Variable inet_pton : Z → list Z → bool.

Definition VmDnsCheckIfIPV4AddressA (s : list Z) : bool := match s with [] => false | _ => inet_pton 2 s end.
Definition VmDnsCheckIfIPV6AddressA (s : list Z) : bool := match s with [] => false | _ => inet_pton 10 s end.

(** The loop over labels.  [pszTempStringCursor] is [dwTotalStringLength] bytes
    into the block in every round. *)
Fixpoint read_labels (fuel : nat) (dwTotalStringLength : Z) (pszTempString : list Z) : DM (list Z * Z) :=
  match fuel with
  | O => rub
  | S fuel =>
      r <- VmDnsReadStringFromBuffer ;;
      let '(pszLabels, dwLabelLength, bEndOfString) := r in
      c <- (if dwLabelLength =? 0 then rret (pszTempString, dwLabelLength)
            else if dwLabelLength >? u32 (VMDNS_NAME_LENGTH_MAX - dwTotalStringLength) then rfail ERROR_INVALID_PARAMETER
            else
              tmp <- VmDnsCopyMemory pszTempString dwTotalStringLength (u32 (VMDNS_NAME_LENGTH_MAX - dwTotalStringLength))
                                     (default [] pszLabels) dwLabelLength ;;
              if bEndOfString then rret (tmp, dwLabelLength)
              else
                last <- rlift (block_byte (dwTotalStringLength + (dwLabelLength - 1)) tmp) ;;
                if last =? DOT then rret (tmp, dwLabelLength)
                else tmp <- rlift (block_write (dwTotalStringLength + dwLabelLength) [DOT] tmp) ;;
                     rret (tmp, dwLabelLength + 1)) ;;
      let total := u32 (dwTotalStringLength + c.2) in
      if total >? VMDNS_NAME_LENGTH_MAX then rfail ERROR_LABEL_TOO_LONG
      else if bEndOfString then rret (c.1, total)
      else read_labels fuel total c.1
  end.

(** The result of reading is the C string.  A round that does not end the name
    consumes at least one byte of the message. *)
Definition VmDnsReadDomainNameFromBuffer : DM (list Z) :=
  tmp <- VmDnsAllocateMemory (VMDNS_NAME_LENGTH_MAX + 2) ;;
  b <- rget ;;
  r <- read_labels (S (S (Z.to_nat (szLength b)))) 0 tmp ;;
  let '(tmp, total) := r in
  s <- rlift (cstring tmp) ;;
  tmp <- (if (total >? 0) && negb (VmDnsCheckIfIPV4AddressA s) && negb (VmDnsCheckIfIPV6AddressA s) then
            last <- rlift (block_byte (total - 1) tmp) ;;
            if last =? DOT then rret tmp else rlift (block_write total [DOT] tmp)
          else rret tmp) ;;
  psz <- VmDnsAllocateStringA tmp ;;
  rlift (cstring psz).

End Reader.

(** ** The block the names are built in *)

(** A block of 257 bytes with [w] at its start. *)
Definition temp (w : list Z) : list Z := w ++ replicate (257 - length w) 0.

Lemma temp_length w : (length w <= 257)%nat → length (temp w) = 257%nat.
Proof. intros H. unfold temp. rewrite length_app, length_replicate. lia. Qed.

Lemma temp_write w bs : (length w + length bs <= 257)%nat →
  take (length w) (temp w) ++ bs ++ drop (length w + length bs) (temp w) = temp (w ++ bs).
Proof.
  intros H. unfold temp. rewrite take_app_length, <- drop_drop, drop_app_length, drop_replicate, <- app_assoc.
  do 3 f_equal. rewrite length_app. lia.
Qed.

Lemma temp_copy {St} w src n d (s : St) e :
  0 <= n <= d → n <= zlen src → zlen w + n <= 257 →
  VmDnsCopyMemory (temp w) (zlen w) d src n s e = Some (inr (temp (w ++ take (Z.to_nat n) src)), s, e).
Proof.
  intros Hn Hs Hw. rewrite copy_memory_spec; [| lia | lia | lia | rewrite temp_length; lia].
  rewrite Nat2Z.id. rewrite <- (temp_write w (take (Z.to_nat n) src)) by (rewrite length_take; lia).
  by rewrite length_take, Nat.min_l by lia.
Qed.

Lemma temp_dot w n : n = zlen w → n < 257 → block_write n [DOT] (temp w) = Some (temp (w ++ [DOT])).
Proof.
  intros -> Hn. rewrite block_write_spec by (rewrite ?temp_length; cbn; lia).
  rewrite Nat2Z.id. by rewrite <- (temp_write w [DOT]) by (cbn; lia).
Qed.

(** The characters before the first NUL. *)
Fixpoint until0 (w : list Z) : list Z :=
  match w with [] => [] | c :: w => if c =? 0 then [] else c :: until0 w end.

Abbreviation nonzero := (Forall (λ c, c ≠ 0)).

Lemma until0_id w : nonzero w → until0 w = w.
Proof. induction 1 as [|c w Hc _ IH]; [done |]. cbn. by rewrite (proj2 (Z.eqb_neq c 0)), IH. Qed.

Lemma until0_nonzero w : nonzero (until0 w).
Proof. induction w as [|c w IH]; cbn; [done |]. destruct (Z.eqb_spec c 0); by constructor. Qed.

Lemma until0_bytes w : bytes w → bytes (until0 w).
Proof. induction 1 as [|c w Hc _ IH]; cbn; [done |]. destruct (c =? 0); by constructor. Qed.

Lemma until0_length w : (length (until0 w) <= length w)%nat.
Proof. induction w as [|c w IH]; cbn; [done |]. destruct (c =? 0); cbn; lia. Qed.

Lemma cstring_zero w r : cstring (w ++ 0 :: r) = Some (until0 w).
Proof. induction w as [|c w IH]; cbn; [done |]. rewrite IH. by destruct (c =? 0). Qed.

Lemma cstring_temp w : (length w < 257)%nat → cstring (temp w) = Some (until0 w).
Proof.
  intros H. unfold temp. destruct (257 - length w)%nat as [|k] eqn:E; [lia |]. apply cstring_zero.
Qed.

Lemma cstring_block w : cstring (w ++ [0]) = Some (until0 w).
Proof. apply cstring_zero. Qed.

Lemma copy_string {St} w (s : St) e :
  VmDnsCopyMemory (replicate (Z.to_nat (zlen w + 1)) 0) 0 (zlen w + 1) w (zlen w) s e = Some (inr (w ++ [0]), s, e).
Proof.
  rewrite copy_memory_spec by (rewrite ?length_replicate; lia). rewrite Nat2Z.id, firstn_all, drop_replicate.
  change (Z.to_nat 0) with 0%nat. rewrite take_0. by replace (_ - _)%nat with 1%nat by lia.
Qed.

Lemma alloc_string_ok {St} m w (s : St) e : cstring m = Some w → quiet e →
  ∃ e', VmDnsAllocateStringA m s e = Some (inr (w ++ [0]), s, e') ∧ quiet e'.
Proof.
  intros Hm He. exists (tail e). split; [| by apply quiet_tail].
  unfold VmDnsAllocateStringA, rbind, rlift. rewrite Hm, alloc_ok by (done || lia).
  by rewrite copy_string.
Qed.

Lemma alloc_string_run {St} m w (s : St) e : cstring m = Some w →
  VmDnsAllocateStringA m s e = Some (inr (w ++ [0]), s, tail e) ∨
  VmDnsAllocateStringA m s e = Some (inl ERROR_NO_MEMORY, s, tail e).
Proof.
  intros Hm. unfold VmDnsAllocateStringA, rbind, rlift. rewrite Hm. unfold VmDnsAllocateMemory.
  rewrite (proj2 (Z.eqb_neq _ 0)) by lia. unfold rbind, next_outcome.
  destruct (default 0 (head e) =? 0); [left | by right]. cbn [rret].
  by rewrite copy_string.
Qed.

(** ** Compressed names *)

(** Following the labels at [o] neither runs off the message nor meets a NUL
    inside a label, unless an earlier check stops it. *)
Fixpoint label_chain (fuel : nat) (msg : list Z) (o : nat) : bool :=
  match fuel with
  | O => false
  | S fuel =>
      match msg !! o with
      | None => false
      | Some n =>
          let next := (o + 1 + Z.to_nat n)%nat in
          (n =? 0) || (n >? VMDNS_LABEL_LENGTH_MAX) || (length msg <? next)%nat ||
          (forallb (λ c, negb (c =? 0)) (take (Z.to_nat n) (drop (o + 1) msg)) && label_chain fuel msg next)
      end
  end.

(** Every byte that reads as the start of a pointer is followed by the offset
    of a position outside the message or of such labels. *)
Definition pointers_ok (msg : list Z) : bool :=
  forallb (λ i, match msg !! i with
                | Some n => (n <? 192) ||
                    match msg !! S i with
                    | Some o => (length msg <=? Z.to_nat o)%nat || label_chain 130 msg (Z.to_nat o)
                    | None => false
                    end
                | None => true
                end) (seq 0 (length msg)).

Lemma compressed_spec n : is_byte n → VMDNS_COMPRESSED_NAME n = (192 <=? n).
Proof.
  intros Hn. assert (forallb (λ n, Bool.eqb (VMDNS_COMPRESSED_NAME n) (192 <=? n)) (seqZ 0 256) = true) as Hall by (vm_compute; reflexivity).
  rewrite forallb_forall in Hall. apply Bool.eqb_prop, Hall, list_elem_of_In, elem_of_seqZ. unfold is_byte in Hn. lia.
Qed.

Lemma pointer_at msg i n : pointers_ok msg = true → msg !! i = Some n → 192 <= n →
  ∃ o, msg !! S i = Some o ∧ ((length msg <= Z.to_nat o)%nat ∨ label_chain 130 msg (Z.to_nat o) = true).
Proof.
  unfold pointers_ok. rewrite forallb_forall. intros Hall Hi Hn. specialize (Hall i). rewrite Hi in Hall.
  rewrite (proj2 (Z.ltb_ge _ _)) in Hall by lia. cbn [orb] in Hall.
  destruct (msg !! S i) as [o|] eqn:Ho; [exists o; split; [done |] |].
  - apply orb_true_iff in Hall as [Hle%Nat.leb_le | ?]; [by left | by right |].
    apply list_elem_of_In, elem_of_seq. apply lookup_lt_Some in Hi. lia.
  - assert (false = true) by (apply Hall, list_elem_of_In, elem_of_seq; apply lookup_lt_Some in Hi; lia). done.
Qed.

(** ** Bounds *)

Definition good (w : list Z) : Prop := nonzero w ∧ bytes w ∧ zlen w <= 256.

Lemma u32_small z : 0 <= z < 2 ^ 32 → u32 z = z.
Proof. apply Z.mod_small. Qed.

Lemma offset_loop_in b e fuel len pos w :
  dns_wf b → 0 < pos → contents b !! Z.to_nat (pos - 1) = Some len → is_byte len →
  label_chain fuel (contents b) (Z.to_nat (pos - 1)) = true → good w →
  ∃ r, offset_loop fuel len (zlen w) pos (temp w) b e = Some (r, b, e) ∧
    match r with inr a => ∃ w', a = (temp w', zlen w') ∧ good w' | inl _ => True end.
Proof.
  revert len pos w. induction fuel as [|fuel IH]; intros len pos w Hb Hpos Hlk Hlen Hch (Hnz & Hby & Hw); [done |].
  pose proof Hb as [Hblk ? ? ? ? _]. pose proof (contents_length b Hb) as Hcl. unfold is_byte in Hlen.
  cbn [label_chain] in Hch. rewrite Hlk in Hch. cbn [offset_loop].
  unfold VMDNS_LABEL_LENGTH_MAX, VMDNS_NAME_LENGTH_MAX in *.
  destruct (Z.eqb_spec len 0) as [-> | Hl0]; [eexists; split; [reflexivity |]; by exists w |].
  destruct (Z.gtb_spec len 63); [by eexists |]. destruct (Z.gtb_spec (zlen w) 255); [by eexists |].
  rewrite u32_small by lia. destruct (Z.gtb_spec len (255 - zlen w)); [by eexists |]. cbn [orb] in Hch.
  unfold rbind at 1. destruct (decide (szCursor b + len <= szLength b)) as [Hck | Hck].
  2: { rewrite check_short by (done || lia). by eexists. }
  rewrite check_ok by (done || lia). unfold rbind at 1, rget.
  destruct (Z.gtb_spec (pos + len) (szLength b)) as [| Hin]; [by eexists |].
  assert (Z.to_nat (pos - 1) + 1 = Z.to_nat pos)%nat as Hp1 by lia. rewrite Hp1 in Hch.
  rewrite (proj2 (Nat.ltb_ge _ _)) in Hch by lia. cbn [orb] in Hch.
  apply andb_true_iff in Hch as [Hnul Hch]. set (l := take (Z.to_nat len) (drop (Z.to_nat pos) (pMessage b))).
  assert (take (Z.to_nat len) (drop (Z.to_nat pos) (contents b)) = l) as Hl.
  { unfold l, contents. rewrite skipn_firstn_comm, take_take. f_equal. lia. }
  assert (zlen l = len) as Hll by (unfold l; rewrite length_take, length_drop; lia).
  unfold rbind at 1. rewrite temp_copy by (rewrite ?length_drop; lia). fold l.
  unfold rbind at 1, rlift. rewrite temp_dot by (rewrite ?length_app; lia). rewrite <- app_assoc.
  destruct fuel as [|fuel']; [by cbn in Hch |].
  destruct (contents b !! (Z.to_nat pos + Z.to_nat len)%nat) as [next|] eqn:Hnext; [| cbn in Hch; by rewrite Hnext in Hch].
  pose proof (lookup_lt_Some _ _ _ Hnext) as Hlt.
  destruct (block_byte_in b (pos + len) Hb ltac:(lia)) as (n' & Hn1 & Hn2 & Hn3).
  unfold rbind at 1. rewrite Hn1. rewrite Z2Nat.inj_add, Hnext in Hn2 by lia. injection Hn2 as ->.
  rewrite u32_small by lia.
  replace (zlen w + (len + 1)) with (zlen (w ++ l ++ [DOT])) by (rewrite !length_app; cbn; lia).
  apply IH; try done; [lia | | |].
  - replace (Z.to_nat (pos + len + 1 - 1)) with (Z.to_nat pos + Z.to_nat len)%nat by lia. done.
  - replace (Z.to_nat (pos + len + 1 - 1)) with (Z.to_nat pos + Z.to_nat len)%nat by lia. done.
  - split_and!.
    + apply Forall_app; split; [done |]. apply Forall_app; split; [| by repeat constructor].
      rewrite Hl in Hnul. apply Forall_forall. intros c Hc. rewrite forallb_forall in Hnul.
      specialize (Hnul c (proj1 (list_elem_of_In _ _) Hc)). by destruct (Z.eqb_spec c 0).
    + apply Forall_app; split; [done |]. apply Forall_app; split; [| by repeat constructor].
      apply Forall_take, Forall_drop. apply (wf_bytes b Hb).
    + rewrite !length_app. cbn. lia.
Qed.

Lemma read_offset_in b e o : dns_wf b → is_byte o →
  (length (contents b) <= Z.to_nat o)%nat ∨ label_chain 130 (contents b) (Z.to_nat o) = true →
  ∃ r e', VmDnsReadOffsetStringFromBuffer o b e = Some (r, b, e') ∧
    match r with inr a => ∃ w, a = (w ++ [0], zlen w, true) ∧ good w | inl _ => True end.
Proof.
  intros Hb Ho Hch. unfold is_byte in Ho. pose proof (contents_length b Hb) as Hcl.
  unfold VmDnsReadOffsetStringFromBuffer, rbind at 1.
  destruct (alloc_run (VMDNS_NAME_LENGTH_MAX + 2) b e ltac:(done)) as [-> | ->]; [| by eexists _, _].
  unfold rbind at 1, rget. destruct (Z.gtb_spec (o + 1) (szLength b)) as [| Hin]; [by eexists _, _ |].
  destruct Hch as [Hout | Hch]; [lia |].
  destruct (block_byte_in b o Hb ltac:(lia)) as (n & Hn1 & Hn2 & Hn3). unfold rbind at 1, rlift. rewrite Hn1.
  destruct (offset_loop_in b (tail e) 130 n (o + 1) [] Hb ltac:(lia)) as (r & Hr & Hres);
    [by replace (o + 1 - 1) with o by lia | done | by replace (o + 1 - 1) with o by lia | split_and!; done || constructor |].
  change (temp []) with (replicate (Z.to_nat (VMDNS_NAME_LENGTH_MAX + 2)) 0) in Hr.
  change (Z.of_nat (length [])) with 0 in Hr.
  unfold rbind at 1. rewrite Hr. destruct r as [err | a]; [by eexists _, _ |].
  destruct Hres as (w & -> & (Hnz & Hby & Hw)). cbn [fst snd]. unfold rbind.
  destruct (alloc_string_run (temp w) (until0 w) b (tail e)) as [-> | ->]; [apply cstring_temp; lia | | by eexists _, _].
  rewrite until0_id by done. eexists _, _. split; [reflexivity |]. by exists w.
Qed.

(** The label at the cursor. *)
Definition string_ok (a : option (list Z) * Z * bool) : Prop :=
  0 <= a.1.2 <= 256 ∧ a.1.2 <= zlen (default [] a.1.1) ∧ bytes (default [] a.1.1).

Lemma read_string_in b e : dns_wf b → pointers_ok (contents b) = true →
  ∃ r c e', VmDnsReadStringFromBuffer b e = Some (r, set_szCursor c b, e') ∧ szCursor b <= c <= szLength b ∧
    match r with inr a => szCursor b < c ∧ string_ok a | inl _ => True end.
Proof.
  intros Hb Hp. pose proof Hb as [Hblk ? ? ? ? Hby]. pose proof (contents_length b Hb) as Hcl.
  unfold VmDnsReadStringFromBuffer, rbind at 1.
  destruct (decide (szCursor b + 1 <= szLength b)) as [Hc | Hc].
  2: { rewrite check_short by (done || lia).
       eexists _, (szCursor b), e. rewrite set_cursor_id. split_and!; done || lia. }
  rewrite check_ok by (done || lia). unfold rbind at 1, rget.
  destruct (block_byte_in b (szCursor b) Hb ltac:(lia)) as (n & Hn1 & Hn2 & Hn3). pose proof Hn3 as Hn. unfold is_byte in Hn.
  unfold rbind at 1, rlift. rewrite Hn1. unfold rbind at 1. rewrite advance_ok by (done || lia).
  set (b1 := set_szCursor (szCursor b + 1) b).
  assert (Hb1 : dns_wf b1) by (apply set_cursor_wf; [done | lia]).
  assert (Hstay : ∀ (r : dwerror + option (list Z) * Z * bool) c (e' : env), szCursor b < c <= szLength b →
    match r with inr a => string_ok a | inl _ => True end →
    ∃ r' c' e'', Some (r, set_szCursor c b1, e') = Some (r', set_szCursor c' b, e'') ∧
      szCursor b <= c' <= szLength b ∧ match r' with inr a => szCursor b < c' ∧ string_ok a | inl _ => True end).
  { intros r c e' Hc' Hr. exists r, c, e'. split_and!; [done | lia | lia |]. destruct r; [done | split; [lia | done]]. }
  assert (Hhere : ∀ (r : dwerror + option (list Z) * Z * bool) (e' : env),
    match r with inr a => string_ok a | inl _ => True end →
    ∃ r' c' e'', Some (r, b1, e') = Some (r', set_szCursor c' b, e'') ∧
      szCursor b <= c' <= szLength b ∧ match r' with inr a => szCursor b < c' ∧ string_ok a | inl _ => True end).
  { intros r e' Hr. apply (Hstay r (szCursor b + 1) e'); [lia | done]. }
  destruct (Z.eqb_spec n 0) as [-> | Hn0]; [apply Hhere; split_and!; cbn; (lia || constructor) |].
  unfold VMDNS_NAME_LENGTH_MAX.
  destruct (Z.gtb_spec n 255); [by apply Hhere |]. rewrite compressed_spec by done.
  destruct (Z.leb_spec 192 n) as [Hptr | Hlab].
  - destruct (pointer_at _ _ _ Hp Hn2 Hptr) as (o & Ho & Hch).
    pose proof (lookup_lt_Some _ _ _ Ho) as Hlt.
    unfold rbind at 1. change (szCursor b1) with (szCursor b + 1).
    destruct (block_byte_in b1 (szCursor b + 1) Hb1) as (o' & Ho1 & Ho2 & Ho3); [cbn; lia |].
    change (contents b1) with (contents b) in Ho2. replace (Z.to_nat (szCursor b + 1)) with (S (Z.to_nat (szCursor b))) in Ho2 by lia.
    rewrite Ho in Ho2. injection Ho2 as <-. unfold rbind at 1. rewrite Ho1.
    destruct (read_offset_in b1 e o Hb1 Ho3 Hch) as (r & e' & Hr & Hres).
    unfold rbind at 1. rewrite Hr. destruct r as [err | a]; [by apply Hhere |].
    destruct Hres as (w & -> & (_ & Hwb & Hw)). unfold rbind. rewrite advance_ok by (done || cbn; lia). cbn [rret].
    apply Hstay; [cbn; lia |]. split_and!; cbn [fst snd default from_option id]; [lia | lia | rewrite length_app; lia |].
    apply Forall_app. split; [done | by repeat constructor].
  - unfold rbind at 1. destruct (decide (szCursor b + 1 + n <= szLength b)) as [Hl | Hl].
    2: { rewrite check_short by (done || cbn; lia). by apply Hhere. }
    rewrite check_ok by (done || cbn; lia).
    unfold rbind at 1. destruct (alloc_run (n + 1) b1 e ltac:(lia)) as [-> | ->]; [| by apply Hhere].
    unfold rbind at 1. unfold rbind at 1. change (szCursor b1) with (szCursor b + 1). change (pMessage b1) with (pMessage b).
    rewrite copy_memory_spec by (rewrite ?length_replicate, ?length_drop; lia).
    unfold rbind at 1. rewrite advance_ok by (done || cbn; lia). unfold rbind.
    rewrite block_write_spec by (rewrite ?length_app, ?length_take, ?length_drop, ?length_replicate; cbn; lia).
    apply Hstay; [cbn; lia |]. split_and!; cbn [fst snd default from_option id]; [lia | lia | |].
    + rewrite !length_app, !length_take, !length_drop, !length_app, !length_take, !length_drop, !length_replicate. cbn. lia.
    + repeat (apply Forall_app; split); repeat first [apply Forall_take | apply Forall_drop | apply Forall_app; split];
        try done; try (apply Forall_replicate; unfold is_byte; lia); by repeat constructor.
Qed.

(** Appending one label to the block, whatever its bytes are. *)
Definition add_label {St} (w psz : list Z) (len : Z) (eos : bool) : RM St (list Z * Z) :=
  if len =? 0 then rret (temp w, len)
  else if len >? u32 (VMDNS_NAME_LENGTH_MAX - zlen w) then rfail ERROR_INVALID_PARAMETER
  else
    tmp <- VmDnsCopyMemory (temp w) (zlen w) (u32 (VMDNS_NAME_LENGTH_MAX - zlen w)) psz len ;;
    if eos then rret (tmp, len)
    else
      last <- rlift (block_byte (zlen w + (len - 1)) tmp) ;;
      if last =? DOT then rret (tmp, len)
      else tmp <- rlift (block_write (zlen w + len) [DOT] tmp) ;; rret (tmp, len + 1).

Lemma temp_byte w i : (i < length w)%nat → block_byte (Z.of_nat i) (temp w) = w !! i.
Proof.
  intros Hi. unfold block_byte, temp. rewrite (proj2 (Z.leb_le _ _)) by lia.
  by rewrite Nat2Z.id, lookup_app_l.
Qed.

Lemma add_label_run {St} w psz len eos (s : St) e :
  zlen w <= 255 → 0 <= len → len <= zlen psz → bytes psz → bytes w →
  ∃ r, add_label w psz len eos s e = Some (r, s, e) ∧
    match r with
    | inr a => ∃ w', a = (temp w', zlen w' - zlen w) ∧ bytes w' ∧ zlen w <= zlen w' <= 256
    | inl _ => True
    end.
Proof.
  intros Hw Hl Hp Hpb Hwb. unfold add_label, VMDNS_NAME_LENGTH_MAX. rewrite u32_small by lia.
  destruct (Z.eqb_spec len 0) as [-> | Hl0].
  { eexists; split; [reflexivity |]. exists w. rewrite Z.sub_diag. split_and!; done || lia. }
  destruct (Z.gtb_spec len (255 - zlen w)); [by eexists |].
  unfold rbind at 1. rewrite temp_copy by lia. set (l := take (Z.to_nat len) psz).
  assert (zlen l = len) as Hll by (unfold l; rewrite length_take; lia).
  assert (bytes (w ++ l)) as Hb by (apply Forall_app; split; [done | by apply Forall_take]).
  assert (zlen (w ++ l) = zlen w + len) as Hwl by (rewrite length_app; lia).
  assert (∃ r, Some (@inr dwerror _ (temp (w ++ l), len), s, e) = Some (r, s, e) ∧
    match r with inr a => ∃ w', a = (temp w', zlen w' - zlen w) ∧ bytes w' ∧ zlen w <= zlen w' <= 256 | inl _ => True end)
    as Hplain.
  { eexists; split; [reflexivity |]. exists (w ++ l). split_and!; [f_equal; lia | done | lia | lia]. }
  destruct eos; [done |]. unfold rbind at 1, rlift.
  replace (zlen w + (len - 1)) with (Z.of_nat (length (w ++ l) - 1)) by lia. rewrite temp_byte by lia.
  destruct (lookup_lt_is_Some_2 (w ++ l) (length (w ++ l) - 1) ltac:(lia)) as [x ->].
  destruct (x =? DOT); [done |]. unfold rbind. rewrite temp_dot by lia. cbn [rret].
  eexists; split; [reflexivity |]. exists ((w ++ l) ++ [DOT]). rewrite length_app. cbn [length].
  split_and!; [f_equal; lia | | lia | lia]. apply Forall_app. split; [done | by repeat constructor].
Qed.

Lemma read_labels_in b e fuel w :
  dns_wf b → pointers_ok (contents b) = true → bytes w → zlen w <= 255 → szLength b - szCursor b < Z.of_nat fuel →
  ∃ r c e', read_labels fuel (zlen w) (temp w) b e = Some (r, set_szCursor c b, e') ∧ szCursor b <= c <= szLength b ∧
    match r with inr a => ∃ w', a = (temp w', zlen w') ∧ bytes w' ∧ zlen w' <= 255 | inl _ => True end.
Proof.
  revert b e w. induction fuel as [|fuel IH]; intros b e w Hb Hp Hwb Hw Hf; pose proof (wf_cursor b Hb); [lia |].
  cbn [read_labels]. unfold rbind at 1.
  destruct (read_string_in b e Hb Hp) as (r & c & e1 & -> & Hc & Hr). destruct r as [err | [[psz len] eos]].
  { eexists _, c, e1. split_and!; done || lia. }
  destruct Hr as (Hlt & Hl & Hlp & Hpb). cbn [fst snd] in Hl, Hlp, Hpb. unfold rbind at 1.
  fold (add_label (St := dns_buffer) w (default [] psz) len eos).
  destruct (add_label_run w (default [] psz) len eos (set_szCursor c b) e1) as (r & -> & Hr); try done; [lia |].
  destruct r as [err | a]; [eexists _, c, e1; split_and!; done || lia |].
  destruct Hr as (w' & -> & Hwb' & Hw'). cbn [fst snd]. replace (zlen w + (zlen w' - zlen w)) with (zlen w') by lia.
  rewrite u32_small by lia. unfold VMDNS_NAME_LENGTH_MAX.
  destruct (Z.gtb_spec (zlen w') 255); [eexists _, c, e1; split_and!; done || lia |].
  destruct eos.
  - eexists _, c, e1. split; [reflexivity |]. split; [lia |]. exists w'. split_and!; done || lia.
  - destruct (IH (set_szCursor c b) e1 w') as (r & c2 & e2 & Hr2 & Hc2 & Hres); try done.
    { apply set_cursor_wf; [done | lia]. } { cbn. lia. }
    cbn [szCursor szLength set_szCursor] in Hc2. exists r, c2, e2. split_and!; [exact Hr2 | lia | lia | done].
Qed.

(** What the reader returns. *)
Definition name_str (s : list Z) : Prop := nonzero s ∧ bytes s ∧ zlen s <= 256.

Definition safe_message (b : dns_buffer) : Prop := pointers_ok (contents b) = true.

#[export] Instance safe_message_cond : MessageCond safe_message.
Proof. by intros b c. Qed.

Lemma reads_name inet_pton : reads safe_message (VmDnsReadDomainNameFromBuffer inet_pton) name_str.
Proof.
  intros b e Hb Hp. pose proof (wf_cursor b Hb). pose proof (wf_length b Hb).
  unfold VmDnsReadDomainNameFromBuffer, rbind at 1.
  destruct (alloc_run (VMDNS_NAME_LENGTH_MAX + 2) b e ltac:(done)) as [-> | ->]; [| by apply reads_stay].
  unfold rbind at 1, rget, rbind at 1. change (replicate (Z.to_nat (VMDNS_NAME_LENGTH_MAX + 2)) 0) with (temp []).
  destruct (read_labels_in b (tail e) (S (S (Z.to_nat (szLength b)))) []) as (r & c & e1 & Hr & Hc & Hres); try done; [lia |].
  change (Z.of_nat (length [])) with 0 in Hr. rewrite Hr. destruct r as [err | a].
  { eexists _, c, e1. split_and!; done || lia. }
  destruct Hres as (w & -> & Hwb & Hw). unfold rbind at 1, rlift at 1. rewrite cstring_temp by lia.
  unfold rbind at 1. set (b1 := set_szCursor c b).
  match goal with |- context [match ?m b1 e1 with _ => _ end] =>
    assert (∃ w', m b1 e1 = Some (inr (temp w'), b1, e1) ∧ bytes w' ∧ zlen w' <= 256) as (w' & -> & Hwb' & Hw') end.
  { destruct (Z.gtb_spec (zlen w) 0) as [Hpos |]; cbn [andb]; [| exists w; split_and!; done || lia].
    destruct (_ && _); [| exists w; split_and!; done || lia]. unfold rbind, rlift.
    replace (zlen w - 1) with (Z.of_nat (length w - 1)) by lia. rewrite temp_byte by lia.
    destruct (lookup_lt_is_Some_2 w (length w - 1) ltac:(lia)) as [x ->].
    destruct (x =? DOT); [exists w; split_and!; done || lia |]. rewrite temp_dot by lia.
    exists (w ++ [DOT]). rewrite length_app. split_and!; [done | | cbn; lia].
    apply Forall_app. split; [done | by repeat constructor]. }
  unfold rbind. destruct (alloc_string_run (temp w') (until0 w') b1 e1) as [-> | ->]; [apply cstring_temp; lia | |].
  - unfold rlift. rewrite cstring_block. eexists _, c, _. split; [reflexivity |]. split; [lia |].
    rewrite until0_id by apply until0_nonzero. pose proof (until0_length w').
    split_and!; [apply until0_nonzero | by apply until0_bytes | lia].
  - eexists _, c, _. split_and!; done || lia.
Qed.

(** ** Round trips *)

Definition wire_label (l : list Z) : list Z := zlen l :: l.
Definition wire_labels (ls : list (list Z)) : list Z := concat (map wire_label ls) ++ [0].

(** A label as the reader adds it to a name. *)
Definition dotted (l : list Z) : list Z := if decide (last l = Some DOT) then l else l ++ [DOT].
Definition joined (ls : list (list Z)) : list Z := concat (map dotted ls).

(** A label that is not taken for a pointer. *)
Definition label_str (l : list Z) : Prop := bytes l ∧ nonzero l ∧ 1 <= zlen l <= 191.

Lemma message_byte b n rest : dns_wf b → drop (Z.to_nat (szCursor b)) (contents b) = n :: rest →
  block_byte (szCursor b) (pMessage b) = Some n.
Proof.
  intros Hb Hd. destruct (message_rest b [n] rest Hb Hd) as [r Hr]. pose proof (wf_cursor b Hb).
  unfold block_byte. rewrite (proj2 (Z.leb_le _ _)) by lia.
  transitivity (drop (Z.to_nat (szCursor b)) (pMessage b) !! 0%nat); [rewrite lookup_drop; f_equal; lia |]. by rewrite Hr.
Qed.

Lemma consumes_label tok l : label_str l →
  consumes tok VmDnsReadStringFromBuffer (wire_label l) (λ _, (Some (l ++ [0]), zlen l, false)).
Proof.
  intros (Hlb & Hnz & Hl) b e post Hb He Ht Hd. pose proof (wf_cursor b Hb).
  pose proof (rest_cursor _ _ _ Hb Hd) as Hc. cbn [wire_label length] in Hc.
  exists (tail e). split; [| by apply quiet_tail].
  unfold VmDnsReadStringFromBuffer, rbind at 1. rewrite check_ok by (done || lia).
  unfold rbind at 1, rget, rbind at 1, rlift. rewrite (message_byte b (zlen l) (l ++ post) Hb Hd).
  unfold rbind at 1. rewrite advance_ok by (done || lia). rewrite (proj2 (Z.eqb_neq _ 0)) by lia.
  unfold VMDNS_NAME_LENGTH_MAX. destruct (Z.gtb_spec (zlen l) 255); [lia |].
  rewrite compressed_spec by (unfold is_byte; lia). rewrite (proj2 (Z.leb_gt _ _)) by lia.
  set (b1 := set_szCursor (szCursor b + 1) b).
  assert (Hb1 : dns_wf b1) by (apply set_cursor_wf; [done | lia]).
  assert (Hd1 : drop (Z.to_nat (szCursor b1)) (contents b1) = l ++ post).
  { change (drop (Z.to_nat (szCursor b + 1)) (contents b) = l ++ post).
    rewrite Z2Nat.inj_add, <- drop_drop, Hd by lia. done. }
  destruct (message_rest b1 l post Hb1 Hd1) as [rest Hrest].
  unfold rbind at 1. rewrite check_ok by (done || cbn; lia).
  unfold rbind at 1. rewrite alloc_ok by (done || lia). unfold rbind at 1, rbind at 1. rewrite Hrest.
  rewrite copy_memory_spec by (rewrite ?length_replicate, ?length_app; lia).
  unfold rbind at 1. rewrite advance_ok by (done || cbn; lia).
  change (Z.to_nat 0) with 0%nat. rewrite take_0, Nat2Z.id, take_app_length, drop_replicate. cbn [app].
  replace (Z.to_nat (zlen l + 1) - (0 + length l))%nat with 1%nat by lia. unfold rbind.
  rewrite block_write_spec by (rewrite ?length_app; cbn; lia).
  rewrite Nat2Z.id, take_app_length, drop_ge by (rewrite length_app; cbn; lia). rewrite app_nil_r.
  unfold rret, wire_label, b1. cbn [length set_szCursor szCursor]. rewrite set_cursor_set.
  by replace (szCursor b + 1 + zlen l) with (szCursor b + Z.of_nat (S (length l))) by lia.
Qed.

Lemma consumes_end tok : consumes tok VmDnsReadStringFromBuffer [0] (λ _, (None, 0, true)).
Proof.
  intros b e post Hb He Ht Hd. pose proof (rest_cursor _ _ _ Hb Hd) as Hc. cbn in Hc.
  exists e. split; [| done]. unfold VmDnsReadStringFromBuffer, rbind at 1. rewrite check_ok by (done || lia).
  unfold rbind, rget, rlift. rewrite (message_byte b 0 post Hb Hd). by rewrite advance_ok by (done || lia).
Qed.

Lemma dotted_length l : (length l <= length (dotted l) <= S (length l))%nat.
Proof. unfold dotted. case_decide; rewrite ?length_app; cbn; lia. Qed.

Lemma last_lookup_app (w l : list Z) : l ≠ [] → (w ++ l) !! (length (w ++ l) - 1)%nat = last l.
Proof.
  intros Hl. destruct (exists_last Hl) as (l' & x & ->). rewrite last_snoc, app_assoc, length_app.
  cbn. rewrite lookup_app_r by lia. by replace (_ - _ - _)%nat with 0%nat by lia.
Qed.

Lemma add_label_joined {St} w l (s : St) e : label_str l → zlen w + zlen (dotted l) <= 255 →
  add_label w (l ++ [0]) (zlen l) false s e =
    Some (inr (temp (w ++ dotted l), zlen (dotted l)), s, e).
Proof.
  intros (Hlb & Hnz & Hl) Hw. pose proof (dotted_length l). unfold add_label, VMDNS_NAME_LENGTH_MAX.
  rewrite (proj2 (Z.eqb_neq _ 0)), u32_small by lia. destruct (Z.gtb_spec (zlen l) (255 - zlen w)); [lia |].
  unfold rbind at 1. rewrite temp_copy by (rewrite ?length_app; cbn; lia). rewrite Nat2Z.id, take_app_length.
  unfold rbind at 1, rlift. replace (zlen w + (zlen l - 1)) with (Z.of_nat (length (w ++ l) - 1)) by (rewrite length_app; lia).
  rewrite temp_byte by (rewrite length_app; lia). rewrite last_lookup_app by (intros ->; cbn in Hl; lia).
  destruct (last l) as [x|] eqn:Hlast; [| apply last_None in Hlast as ->; cbn in Hl; lia].
  unfold dotted in *. rewrite Hlast in *. destruct (Z.eqb_spec x DOT) as [-> | Hx]; case_decide; try congruence; [done |].
  unfold rbind. rewrite length_app in Hw. cbn in Hw. rewrite temp_dot by (rewrite ?length_app; lia).
  unfold rret. rewrite length_app. cbn [length]. by rewrite app_assoc, Nat2Z.inj_add.
Qed.

Lemma read_labels_consumes tok fuel w ls :
  Forall label_str ls → (length ls < fuel)%nat → zlen w + zlen (joined ls) <= 255 →
  consumes tok (read_labels fuel (zlen w) (temp w)) (wire_labels ls)
    (λ _, (temp (w ++ joined ls), zlen (w ++ joined ls))).
Proof.
  revert w fuel. induction ls as [|l ls IH]; intros w [|fuel] Hls Hf Hw; try (cbn in Hf; lia).
  - intros b e post Hb He Ht Hd. destruct (consumes_end tok b e post Hb He Ht Hd) as (e' & Hr & He').
    exists e'. split; [| done]. cbn [read_labels]. unfold rbind at 1. rewrite Hr. unfold rbind. cbn [Z.eqb rret fst snd].
    cbn in Hw. rewrite Z.add_0_r, u32_small by lia. unfold VMDNS_NAME_LENGTH_MAX.
    destruct (Z.gtb_spec (zlen w) 255); [lia |]. cbn [joined map concat]. by rewrite app_nil_r.
  - apply Forall_cons in Hls as [Hl Hls]. cbn [joined map concat] in Hw. fold (joined ls) in Hw.
    rewrite length_app in Hw. cbn [length] in Hf.
    change (wire_labels (l :: ls)) with ((wire_label l ++ concat (map wire_label ls)) ++ [0]). rewrite <- app_assoc.
    cbn [read_labels]. eapply consumes_bind; [by apply consumes_label |]. intros p b e post Hb He Ht Hd.
    cbv beta iota. fold (add_label (St := dns_buffer) w (default [] (Some (l ++ [0]))) (zlen l) false).
    unfold rbind at 1. cbn [default from_option id]. rewrite add_label_joined by (done || lia). cbn [fst snd].
    rewrite u32_small by lia. unfold VMDNS_NAME_LENGTH_MAX. destruct (Z.gtb_spec (zlen w + zlen (dotted l)) 255); [lia |].
    replace (zlen w + zlen (dotted l)) with (zlen (w ++ dotted l)) by (rewrite length_app; lia).
    destruct (IH (w ++ dotted l) fuel Hls ltac:(lia) ltac:(rewrite length_app; lia) b e post Hb He Ht Hd) as (e' & Hr & He').
    exists e'. rewrite Hr. split; [| done]. cbn [joined map concat]. fold (joined ls). by rewrite <- app_assoc.
Qed.

Lemma dotted_str l : label_str l → bytes (dotted l) ∧ nonzero (dotted l) ∧ last (dotted l) = Some DOT.
Proof.
  intros (Hb & Hn & _). unfold dotted. case_decide; [done |]. rewrite last_snoc.
  split_and!; [apply Forall_app; split; [done | by repeat constructor] | | done].
  apply Forall_app. split; [done | by repeat constructor].
Qed.

Lemma joined_str ls : Forall label_str ls → nonzero (joined ls) ∧ (joined ls = [] ∨ last (joined ls) = Some DOT).
Proof.
  induction 1 as [|l ls Hl _ [IHn IHl]]; [split; [done | by left] |].
  destruct (dotted_str l Hl) as (_ & Hn & Hd). cbn [joined map concat]. fold (joined ls). split.
  - by apply Forall_app.
  - right. destruct IHl as [-> | IHl]; [by rewrite app_nil_r | by rewrite last_app, IHl].
Qed.

Lemma wire_labels_count ls : (length ls < length (wire_labels ls))%nat.
Proof.
  unfold wire_labels. rewrite length_app. cbn [length]. induction ls as [|l ls IH]; cbn; [lia |].
  rewrite length_app. lia.
Qed.

Lemma consumes_labels inet_pton tok ls : Forall label_str ls → zlen (joined ls) <= 255 →
  consumes tok (VmDnsReadDomainNameFromBuffer inet_pton) (wire_labels ls) (λ _, joined ls).
Proof.
  intros Hls Hlen b e post Hb He Ht Hd. pose proof (wf_cursor b Hb). destruct (joined_str ls Hls) as [Hn Hlast].
  pose proof (rest_cursor _ _ _ Hb Hd) as Hc. pose proof (wire_labels_count ls).
  unfold VmDnsReadDomainNameFromBuffer, rbind at 1. rewrite alloc_ok by done.
  unfold rbind at 1, rget, rbind at 1. change (replicate (Z.to_nat (VMDNS_NAME_LENGTH_MAX + 2)) 0) with (temp []).
  destruct (read_labels_consumes tok (S (S (Z.to_nat (szLength b)))) [] ls Hls ltac:(lia) Hlen b (tail e) post Hb
              (quiet_tail e He) Ht Hd) as (e1 & Hr & He1). change (Z.of_nat (length [])) with 0 in Hr. rewrite Hr.
  cbn [app]. unfold rbind at 1, rlift at 1. rewrite cstring_temp, until0_id by (done || lia).
  unfold rbind at 1. set (b1 := set_szCursor _ b).
  match goal with |- context [match ?m b1 e1 with _ => _ end] =>
    assert (m b1 e1 = Some (inr (temp (joined ls)), b1, e1)) as -> end.
  { destruct (Z.gtb_spec (zlen (joined ls)) 0) as [Hpos |]; cbn [andb]; [| done]. destruct (_ && _); [| done].
    unfold rbind, rlift. replace (zlen (joined ls) - 1) with (Z.of_nat (length (joined ls) - 1)) by lia.
    rewrite temp_byte by lia. rewrite Nat.sub_1_r, <- last_lookup. destruct Hlast as [Hnil | ->]; [rewrite Hnil in Hpos; cbn in Hpos; lia |]. done. }
  unfold rbind. destruct (alloc_string_ok (temp (joined ls)) (joined ls) b1 e1) as (e2 & Hr2 & He2); [| done |].
  { rewrite cstring_temp, until0_id by (done || lia). done. }
  rewrite Hr2. unfold rlift. rewrite cstring_block, until0_id by done. by exists e2.
Qed.

(** *** Tokens *)

Fixpoint tokens (fuel : nat) (s : list Z) : list (list Z) :=
  match fuel with
  | O => []
  | S fuel => match VmDnsStringTokA s with None => [] | Some (t, r) => t :: tokens fuel r end
  end.

(** The labels of a name: the parts between dots that are not empty. *)
Definition labels (s : list Z) : list (list Z) := tokens (S (length s)) s.

Lemma skip_dots_suffix s : ∃ d, s = d ++ skip_dots s.
Proof.
  induction s as [|c s [d IH]]; [by exists [] |]. cbn. destruct (Z.eqb_spec c DOT) as [-> |]; [| by exists []].
  exists (DOT :: d). cbn. congruence.
Qed.

Lemma skip_dots_head s c r : skip_dots s = c :: r → c ≠ DOT.
Proof.
  induction s as [|x s IH]; cbn; [done |]. destruct (Z.eqb_spec x DOT); [done |]. by intros [= -> ->].
Qed.

Lemma cut_dot_spec s t r : cut_dot s = (t, r) → DOT ∉ t ∧ ((s = t ∧ r = []) ∨ s = t ++ DOT :: r).
Proof.
  revert t r. induction s as [|c s IH]; intros t r; cbn.
  { intros [= <- <-]. split; [apply not_elem_of_nil | by left]. }
  destruct (Z.eqb_spec c DOT) as [-> | Hc].
  { intros [= <- <-]. split; [apply not_elem_of_nil | by right]. }
  destruct (cut_dot s) as [t' r'] eqn:E. intros [= <- <-]. destruct (IH t' r' eq_refl) as [Hn Hs].
  split; [apply not_elem_of_cons; by split |]. destruct Hs as [[-> ->] | ->]; [by left | by right].
Qed.

(** A token is not empty, has no dot, and shortens the string. *)
Lemma tok_spec s t r : VmDnsStringTokA s = Some (t, r) →
  DOT ∉ t ∧ t ≠ [] ∧ (length t + length r <= length s)%nat ∧ (∃ d u, s = d ++ t ++ u ++ r).
Proof.
  unfold VmDnsStringTokA. destruct (skip_dots_suffix s) as [d Hs]. destruct (skip_dots s) as [|c s'] eqn:E; [done |].
  intros [= Hcut]. change (cut_dot (c :: s') = (t, r)) in Hcut. apply skip_dots_head in E as Hc. destruct (cut_dot_spec _ _ _ Hcut) as [Hn Hd].
  assert (t ≠ []) as Hne. { intros ->. cbn in Hcut. rewrite (proj2 (Z.eqb_neq c DOT)) in Hcut by done. by destruct (cut_dot s'). }
  rewrite Hs. destruct Hd as [[-> ->] | ->].
  - split_and!; [done | done | rewrite length_app; cbn; lia |]. exists d, []. by rewrite !app_nil_r.
  - split_and!; [done | done | rewrite !length_app; cbn; lia |]. by exists d, [DOT].
Qed.

Lemma tokens_fuel n m s : (length s < n)%nat → (length s < m)%nat → tokens n s = tokens m s.
Proof.
  revert m s. induction n as [|n IH]; intros [|m] s Hn Hm; try lia. cbn [tokens].
  destruct (VmDnsStringTokA s) as [[t r]|] eqn:E; [| done]. destruct (tok_spec _ _ _ E) as (_ & Ht & Hl & _).
  destruct t; [done |]. cbn in Hl. f_equal. apply IH; lia.
Qed.

Lemma labels_eq s : labels s = match VmDnsStringTokA s with None => [] | Some (t, r) => t :: labels r end.
Proof.
  unfold labels at 1. cbn [tokens]. destruct (VmDnsStringTokA s) as [[t r]|] eqn:E; [| done].
  destruct (tok_spec _ _ _ E) as (_ & Ht & Hl & _). destruct t; [done |]. cbn in Hl. f_equal. apply tokens_fuel; lia.
Qed.

(** A label that the label form can carry. *)
Definition dns_label (l : list Z) : Prop := bytes l ∧ nonzero l ∧ DOT ∉ l ∧ 1 <= zlen l <= 63.

Lemma dns_label_str l : dns_label l → label_str l.
Proof. intros (? & ? & _ & ?). split_and!; done || lia. Qed.

Lemma dns_label_dotted l : dns_label l → dotted l = l ++ [DOT].
Proof.
  intros (_ & _ & Hd & _). unfold dotted. case_decide as Hl; [| done]. exfalso. apply Hd.
  by eapply last_Some_elem_of.
Qed.

(** *** Names *)

(** A name that can be written: as labels of at most 63 characters, or as a
    string that is not taken for a pointer. *)
Definition name_ok (tok : bool) (s : list Z) : Prop :=
  bytes s ∧ nonzero s ∧
  if tok then Forall (λ l, zlen l <= 63) (labels s) ∧ zlen (joined (labels s)) <= 254 else zlen s <= 191.

(** The labels as the reader sees them, the bytes of the name, and the name
    that is read back: every label with a dot behind it. *)
Definition read_parts (tok : bool) (s : list Z) : list (list Z) :=
  if tok then labels s else match s with [] => [] | _ => [s] end.
Definition name_wire (tok : bool) (s : list Z) : list Z := wire_labels (read_parts tok s).
Definition name_norm (tok : bool) (s : list Z) : list Z := joined (read_parts tok s).

Lemma labels_ok s : bytes s → nonzero s → Forall (λ l, zlen l <= 63) (labels s) → Forall dns_label (labels s).
Proof.
  remember (length s) as n eqn:Hn. revert s Hn. induction (lt_wf n) as [n _ IH]. intros s -> Hb Hz.
  rewrite labels_eq. destruct (VmDnsStringTokA s) as [[t r]|] eqn:E; [| constructor].
  destruct (tok_spec _ _ _ E) as (Hd & Ht & Hl & (d & u & Hs)). intros [Ht63 Hr63]%Forall_cons.
  subst s. rewrite !Forall_app in Hb, Hz. destruct Hb as (_ & Htb & _ & Hrb), Hz as (_ & Htz & _ & Hrz).
  constructor.
  - split_and!; try done. destruct t; [done | cbn; lia].
  - eapply IH; [| done | done | done | done]. destruct t; [done |]. rewrite !length_app. cbn. lia.
Qed.

Lemma name_parts tok s : name_ok tok s → Forall label_str (read_parts tok s) ∧ zlen (name_norm tok s) <= 255.
Proof.
  intros (Hb & Hz & Hs). unfold name_norm. destruct tok; cbn [read_parts].
  - destruct Hs as [H63 Hlen]. split; [| lia]. eapply Forall_impl; [by apply labels_ok | apply dns_label_str].
  - destruct s as [|c s]; [split; [constructor | cbn; lia] |]. pose proof (dotted_length (c :: s)).
    split; [constructor; [split_and!; try done; cbn [length] in *; lia | constructor] |]. unfold joined. cbn [map concat].
    rewrite app_nil_r. lia.
Qed.

Lemma consumes_name inet_pton fl tok s : name_ok tok s →
  consumes fl (VmDnsReadDomainNameFromBuffer inet_pton) (name_wire tok s) (λ _, name_norm tok s).
Proof. intros [Hp Hl]%name_parts. by apply consumes_labels. Qed.

Lemma emits_alloc_string tok m w : cstring m = Some w → emits tok (VmDnsAllocateStringA m) [] (w ++ [0]).
Proof.
  intros Hm b e Hb Hw Ht. destruct (alloc_string_run m w b e Hm) as [Hr | Hr]; rewrite Hr.
  - exists (inr (w ++ [0])), b, (tail e). split_and!; [done | done | apply same_ends_refl | apply quiet_tail | done |]. by rewrite app_nil_r.
  - exists (inl ERROR_NO_MEMORY), b, (tail e). split_and!; [done | done | apply same_ends_refl | apply quiet_tail | |].
    + intros [Hq _]. destruct (alloc_string_ok m w b e Hm Hq) as (? & Hok & _). congruence.
    + exists []. split; [apply prefix_nil | by rewrite app_nil_r].
Qed.

Lemma emits_app {A B} tok (m : DM A) (k : A → DM B) bs bs' a c bs0 :
  emits tok m bs a → emits tok (k a) bs' c → bs0 = bs ++ bs' → emits tok (rbind m k) bs0 c.
Proof. intros Hm Hk ->. by eapply emits_bind. Qed.

Lemma write_labels_emits tok fuel s total :
  Forall dns_label (labels s) → (length s < fuel)%nat → 0 <= total → total + zlen (joined (labels s)) <= 255 →
  emits tok (write_labels fuel (VmDnsStringTokA s) total) (concat (map wire_label (labels s)))
    (total + zlen (joined (labels s))).
Proof.
  revert s total. induction fuel as [|fuel IH]; intros s total Hls Hf Ht Hlen; [lia |].
  rewrite labels_eq in *. cbn [write_labels].
  destruct (VmDnsStringTokA s) as [[t r]|] eqn:E; [| rewrite Z.add_0_r; apply emits_ret].
  destruct (tok_spec _ _ _ E) as (_ & Hne & Hl & _).
  apply Forall_cons in Hls as [Hlb Hls]. cbn [map concat joined] in *. fold (joined (labels r)) in *.
  rewrite dns_label_dotted in * by done. rewrite !length_app in *. cbn [length] in *. pose proof Hlb as (Hb & Hn & _ & Hll).
  rewrite (u32_small (zlen t)) by lia. unfold VMDNS_LABEL_LENGTH_MAX, VMDNS_NAME_LENGTH_MAX.
  destruct (Z.gtb_spec (zlen t) 63); [lia |]. eapply emits_app.
  - apply emits_string; [apply Forall_app; split; [done | by repeat constructor] | lia | rewrite length_app; lia].
  - rewrite u32_small by lia. destruct (Z.gtb_spec (total + (zlen t + 1)) 255); [lia |].
    replace (total + Z.of_nat (length t + 1 + length (joined (labels r)))) with (total + (zlen t + 1) + zlen (joined (labels r))) by lia.
    apply IH; [done | lia | lia | lia].
  - unfold wire_label. by rewrite Nat2Z.id, take_app_length.
Qed.

Lemma emits_name tok s : name_ok tok s → emits tok (VmDnsWriteDomainNameToBuffer (Some s) tok) (name_wire tok s) tt.
Proof.
  intros (Hb & Hz & Hs). destruct tok.
  - destruct Hs as [H63 Hlen]. apply labels_ok in H63; [| done | done].
    unfold VmDnsWriteDomainNameToBuffer, VmDnsWriteDomainNameLabelsToBuffer.
    apply (emits_app true _ _ [] (name_wire true s) (until0 s ++ [0])); [by apply emits_alloc_string, cstring_block | | done].
    eapply emits_bind; [apply (write_labels_emits true _ s 0); [done | lia | lia | lia] |].
    rewrite u32_small by lia. unfold VMDNS_NAME_LENGTH_MAX.
    destruct (Z.gtb_spec (0 + zlen (joined (labels s)) + 1) 255); [lia |]. apply emits_char.
  - unfold VmDnsWriteDomainNameToBuffer, VmDnsWriteDomainNameStringToBuffer.
    rewrite u32_small by lia. unfold VMDNS_NAME_LENGTH_MAX. destruct (Z.gtb_spec (zlen s) 255); [lia |].
    destruct (Z.eqb_spec (zlen s) 0) as [H0 | H0].
    + destruct s; [| cbn in H0; lia]. eapply emits_app; [apply emits_ret | apply emits_char | done].
    + eapply emits_app; [apply emits_string | apply emits_char |].
      * apply Forall_app; split; [done | by repeat constructor].
      * lia.
      * rewrite length_app. lia.
      * rewrite Nat2Z.id, take_app_length. unfold name_wire, read_parts, wire_labels. destruct s; [done |].
        cbn [map concat]. by rewrite app_nil_r.
Qed.

Lemma name_length_loop_spec fuel s total :
  Forall dns_label (labels s) → (length s < fuel)%nat → 0 <= total → total + zlen (joined (labels s)) < 2 ^ 16 - 1 →
  name_length_loop fuel (VmDnsStringTokA s) total = Some (total + zlen (joined (labels s)) + 1).
Proof.
  revert s total. induction fuel as [|fuel IH]; intros s total Hls Hf Ht Hlen; [lia |].
  rewrite labels_eq in *. cbn [name_length_loop].
  destruct (VmDnsStringTokA s) as [[t r]|] eqn:E.
  2: { cbn [joined map concat length] in *. unfold u16. rewrite Z.mod_small by lia.
       rewrite (proj2 (Z.eqb_neq _ 0)) by lia. f_equal. lia. }
  destruct (tok_spec _ _ _ E) as (_ & Hne & Hl & _).
  apply Forall_cons in Hls as [Hlb Hls]. cbn [map concat joined] in *. fold (joined (labels r)) in *.
  rewrite dns_label_dotted in * by done. rewrite !length_app in *. cbn [length] in *. pose proof Hlb as (_ & _ & _ & Hll).
  unfold u16. rewrite (Z.mod_small (total + 1)), (Z.mod_small (zlen t)), (Z.mod_small (_ + zlen t)) by lia.
  rewrite (proj2 (Z.eqb_neq _ 0)) by lia. rewrite IH by (done || lia). f_equal. lia.
Qed.

Lemma wire_labels_length ls : Forall dns_label ls → zlen (wire_labels ls) = zlen (joined ls) + 1.
Proof.
  unfold wire_labels. rewrite length_app. cbn [length]. induction 1 as [|l ls Hl _ IH]; [done |].
  cbn [joined map concat] in *. fold (joined ls). rewrite dns_label_dotted by done. rewrite !length_app in *.
  cbn [length wire_label]. lia.
Qed.

(** What [VmDnsGetDomainNameLength] returns: the bytes of the label form; for
    the string form, the length byte and the terminator are not counted. *)
Definition name_length (tok : bool) (s : list Z) : Z := if tok then zlen (name_wire tok s) else zlen s.

Lemma emits_name_length tok s : name_ok tok s → emits tok (VmDnsGetDomainNameLength (Some s) tok) [] (name_length tok s).
Proof.
  intros (Hb & Hz & Hs). destruct tok; cbn [VmDnsGetDomainNameLength name_length].
  - destruct Hs as [H63 Hlen]. apply labels_ok in H63; [| done | done].
    apply (emits_app true _ _ [] [] (until0 s ++ [0])); [by apply emits_alloc_string, cstring_block | | done].
    rewrite (name_length_loop_spec _ s 0) by (done || lia). unfold name_wire. cbn [read_parts].
    rewrite wire_labels_length by done. apply emits_ret.
  - unfold u16. rewrite Z.mod_small by lia. apply emits_ret.
Qed.
