(* ===== verification/DnsRecord.v ===== *)
(** * DnsRecord: resource records of [vmdns/common/record.c] and [record-*.c]

    The record types the server knows, their wire format, comparison,
    validation and copying.  The tagged union [VMDNS_RECORD_DATA] is the type
    [rdata], whose constructors are selected by [dwType] through the table
    [gRecordMethods]; using a member the type does not select is undefined.
    Releasing records is not modelled: strings are values. *)

From S2P Require Import Prelude Heap Effects DnsBuffer DnsName.

Open Scope Z_scope.

(** ** Records *)

Abbreviation dns_string := (option (list Z)).

Record soa_data := SOA_DATA {
  pNamePrimaryServer : dns_string; pNameAdministrator : dns_string;
  dwSerialNo : Z; dwRefresh : Z; dwRetry : Z; dwExpire : Z; dwDefaultTtl : Z }.
Record srv_data := SRV_DATA { pNameTarget : dns_string; wPriority : Z; wWeight : Z; wPort : Z }.
Record tkey_data := TKEY_DATA {
  tkey_pNameAlgorithm : dns_string; pKey : option dns_blob; tkey_pOtherData : option dns_blob;
  dwCreateTime : Z; dwExpireTime : Z; wMode : Z; tkey_wError : Z }.

(** [pRawTsigPtr] is the offset of the record in the message. *)
Record tsig_data := TSIG_DATA {
  tsig_pNameAlgorithm : dns_string; pSignature : option dns_blob; tsig_pOtherData : option dns_blob;
  unCreateTime : Z; wFudgeTime : Z; wOriginalXid : Z; tsig_wError : Z; pRawTsigPtr : option Z }.

Inductive rdata :=
  | D_A (IpAddress : Z)
  | D_AAAA (IP6Byte : list Z)
  | D_NS (pNameHost : dns_string)
  | D_PTR (pNameHost : dns_string)
  | D_CNAME (pNameHost : dns_string)
  | D_SOA (d : soa_data)
  | D_SRV (d : srv_data)
  | D_TKEY (d : tkey_data)
  | D_TSIG (d : tsig_data)
  (** the zeroed union of a type without methods *)
  | D_NONE.

Record dns_record := DNS_RECORD { pszName : dns_string; dwType : Z; iClass : Z; dwTtl : Z; Data : rdata }.

Definition VMDNS_RR_TYPE_A : Z := 0x1.
Definition VMDNS_RR_TYPE_NS : Z := 0x2.
Definition VMDNS_RR_TYPE_CNAME : Z := 0x5.
Definition VMDNS_RR_TYPE_SOA : Z := 0x6.
Definition VMDNS_RR_TYPE_PTR : Z := 0xC.
Definition VMDNS_RR_TYPE_AAAA : Z := 0x1C.
Definition VMDNS_RR_TYPE_SRV : Z := 0x21.
Definition VMDNS_RR_MTYPE_TKEY : Z := 0xF9.
Definition VMDNS_RR_MTYPE_TSIG : Z := 0xFA.
Definition VMDNS_RR_QTYPE_ANY : Z := 0xFF.
Definition VMDNS_CLASS_IN : Z := 1.
Definition VMDNS_CLASS_NONE : Z := 0xFE.
Definition VMDNS_CLASS_ANY : Z := 0xFF.

(** The rows of [gRecordMethods]. *)
Inductive rr_methods := M_SOA | M_SRV | M_CNAME | M_NS | M_PTR | M_A | M_AAAA | M_TKEY | M_TSIG.

Definition gRecordMethods : list (Z * rr_methods) :=
  [(VMDNS_RR_TYPE_SOA, M_SOA); (VMDNS_RR_TYPE_SRV, M_SRV); (VMDNS_RR_TYPE_CNAME, M_CNAME);
   (VMDNS_RR_TYPE_NS, M_NS); (VMDNS_RR_TYPE_PTR, M_PTR); (VMDNS_RR_TYPE_A, M_A);
   (VMDNS_RR_TYPE_AAAA, M_AAAA); (VMDNS_RR_MTYPE_TKEY, M_TKEY); (VMDNS_RR_MTYPE_TSIG, M_TSIG)].

Fixpoint find_methods (type : Z) (tab : list (Z * rr_methods)) : option rr_methods :=
  match tab with
  | [] => None
  | (t, m) :: tab => if type =? t then Some m else find_methods type tab
  end.

Definition VmDnsFindRecordMethods (type : Z) : option rr_methods := find_methods type gRecordMethods.

(** ** Length of the data *)

(** [pKey->unSize]: a NULL blob is dereferenced. *)
Definition blob_size (x : option dns_blob) : DM Z := match x with Some b => rret (unSize b) | None => rub end.

Definition VmDnsSoaGetRDataLength (d : soa_data) (tok : bool) : DM Z :=
  p <- VmDnsGetDomainNameLength (pNamePrimaryServer d) tok ;;
  a <- VmDnsGetDomainNameLength (pNameAdministrator d) tok ;;
  rret (u16 (p + a + 4 + 4 + 4 + 4 + 4)).
Definition VmDnsSrvGetRDataLength (d : srv_data) (tok : bool) : DM Z :=
  n <- VmDnsGetDomainNameLength (pNameTarget d) tok ;; rret (u16 (n + 2 + 2 + 2)).
Definition VmDnsCNameRecordGetRDataLength (h : dns_string) (tok : bool) : DM Z :=
  match h with None => rret 0 | Some _ => VmDnsGetDomainNameLength h tok end.
Definition VmDnsNSRecordGetRDataLength (h : dns_string) (tok : bool) : DM Z := VmDnsGetDomainNameLength h tok.
Definition VmDnsPtrRecordGetRDataLength (h : dns_string) (tok : bool) : DM Z := VmDnsGetDomainNameLength h tok.
Definition VmDnsAddressRecordGetRDataLength : DM Z := rret 4.
Definition VmDnsIp6AddressRecordGetRDataLength : DM Z := rret 16.
Definition VmDnsTkeyRecordGetRDataLength (d : tkey_data) (tok : bool) : DM Z :=
  n <- VmDnsGetDomainNameLength (tkey_pNameAlgorithm d) tok ;;
  k <- blob_size (pKey d) ;; o <- blob_size (tkey_pOtherData d) ;;
  rret (u16 (n + k + o + 4 + 4 + 2 + 2 + 2 + 2)).
Definition VmDnsTsigRecordGetRDataLength (d : tsig_data) (tok : bool) : DM Z :=
  n <- VmDnsGetDomainNameLength (tsig_pNameAlgorithm d) tok ;;
  s <- blob_size (pSignature d) ;; o <- blob_size (tsig_pOtherData d) ;;
  rret (u16 (n + s + o + 4 + 4 + 2 + 2 + 2 + 2)).

(** ** Serialising *)

Definition write_name (n : dns_string) : DM unit := b <- rget ;; VmDnsWriteDomainNameToBuffer n (bTokenizeDomainName b).
Definition write_blob (x : option dns_blob) : DM unit :=
  match x with Some b => VmDnsWriteBlobToBuffer b true | None => rfail ERROR_INVALID_PARAMETER end.

Definition VmDnsSerializeDnsSoaRecord (d : soa_data) : DM unit :=
  b <- rget ;;
  n <- VmDnsSoaGetRDataLength d (bTokenizeDomainName b) ;;
  VmDnsWriteUINT16ToBuffer n ;;;
  write_name (pNamePrimaryServer d) ;;;
  write_name (pNameAdministrator d) ;;;
  VmDnsWriteUINT32ToBuffer (dwSerialNo d) ;;;
  VmDnsWriteUINT32ToBuffer (dwRefresh d) ;;;
  VmDnsWriteUINT32ToBuffer (dwRetry d) ;;;
  VmDnsWriteUINT32ToBuffer (dwExpire d) ;;;
  VmDnsWriteUINT32ToBuffer (dwDefaultTtl d).

Definition VmDnsSerializeDnsSrvRecord (d : srv_data) : DM unit :=
  b <- rget ;;
  n <- VmDnsSrvGetRDataLength d (bTokenizeDomainName b) ;;
  VmDnsWriteUINT16ToBuffer n ;;;
  VmDnsWriteUINT16ToBuffer (wPriority d) ;;;
  VmDnsWriteUINT16ToBuffer (wWeight d) ;;;
  VmDnsWriteUINT16ToBuffer (wPort d) ;;;
  write_name (pNameTarget d).

Definition VmDnsSerializeDnsCNameRecord (h : dns_string) : DM unit :=
  b <- rget ;;
  n <- VmDnsCNameRecordGetRDataLength h (bTokenizeDomainName b) ;;
  VmDnsWriteUINT16ToBuffer n ;;;
  match h with None => rret tt | Some _ => write_name h end.

Definition VmDnsSerializeDnsNSRecord (h : dns_string) : DM unit :=
  b <- rget ;;
  n <- VmDnsNSRecordGetRDataLength h (bTokenizeDomainName b) ;;
  VmDnsWriteUINT16ToBuffer n ;;;
  write_name h.

Definition VmDnsSerializeDnsPtrRecord (h : dns_string) : DM unit :=
  b <- rget ;;
  n <- VmDnsPtrRecordGetRDataLength h (bTokenizeDomainName b) ;;
  VmDnsWriteUINT16ToBuffer n ;;;
  write_name h.

Definition VmDnsSerializeDnsAddressRecord (IpAddress : Z) : DM unit :=
  n <- VmDnsAddressRecordGetRDataLength ;;
  VmDnsWriteUINT16ToBuffer n ;;;
  VmDnsWriteUINT32ToBuffer IpAddress.

(** [for (; idx < ip6AddrLength; ++idx)] over the sixteen bytes. *)
Fixpoint write_ip6 (bs : list Z) : DM unit :=
  match bs with [] => rret tt | b :: bs => VmDnsWriteUCharToBuffer b ;;; write_ip6 bs end.

Definition VmDnsSerializeDnsIp6AddressRecord (IP6Byte : list Z) : DM unit :=
  n <- VmDnsIp6AddressRecordGetRDataLength ;;
  VmDnsWriteUINT16ToBuffer n ;;;
  write_ip6 (take (Z.to_nat n) IP6Byte).

Definition VmDnsSerializeDnsTkeyRecord (d : tkey_data) : DM unit :=
  b <- rget ;;
  n <- VmDnsTkeyRecordGetRDataLength d (bTokenizeDomainName b) ;;
  VmDnsWriteUINT16ToBuffer n ;;;
  write_name (tkey_pNameAlgorithm d) ;;;
  VmDnsWriteUINT32ToBuffer (dwCreateTime d) ;;;
  VmDnsWriteUINT32ToBuffer (dwExpireTime d) ;;;
  VmDnsWriteUINT16ToBuffer (wMode d) ;;;
  VmDnsWriteUINT16ToBuffer (tkey_wError d) ;;;
  write_blob (pKey d) ;;;
  write_blob (tkey_pOtherData d).

(** The macros on the combined creation and fudge times. *)
Definition VMDNS_TSIG_COMBINE_TIMES (unCreateTime' wFudgeTime' : Z) : Z :=
  Z.lor (u64 (Z.shiftl unCreateTime' 0x10)) wFudgeTime'.
Definition VMDNS_TSIG_GET_CREATE_TIME (c : Z) : Z := Z.shiftr (Z.land c 0xFFFFFFFFFFFF00) 0x10.
Definition VMDNS_TSIG_GET_FUDGE_TIME (c : Z) : Z := Z.land c 0xFFFF.

Definition VmDnsSerializeDnsTsigRecord (d : tsig_data) : DM unit :=
  b <- rget ;;
  n <- VmDnsTsigRecordGetRDataLength d (bTokenizeDomainName b) ;;
  VmDnsWriteUINT16ToBuffer n ;;;
  write_name (tsig_pNameAlgorithm d) ;;;
  VmDnsWriteUINT64ToBuffer (VMDNS_TSIG_COMBINE_TIMES (unCreateTime d) (wFudgeTime d)) ;;;
  write_blob (pSignature d) ;;;
  VmDnsWriteUINT16ToBuffer (wOriginalXid d) ;;;
  VmDnsWriteUINT16ToBuffer (tsig_wError d) ;;;
  write_blob (tsig_pOtherData d).

(** [pfnSerialize] of the row; the data must be the member it expects. *)
Definition serialize_data (m : rr_methods) (d : rdata) : DM unit :=
  match m, d with
  | M_SOA, D_SOA x => VmDnsSerializeDnsSoaRecord x
  | M_SRV, D_SRV x => VmDnsSerializeDnsSrvRecord x
  | M_CNAME, D_CNAME h => VmDnsSerializeDnsCNameRecord h
  | M_NS, D_NS h => VmDnsSerializeDnsNSRecord h
  | M_PTR, D_PTR h => VmDnsSerializeDnsPtrRecord h
  | M_A, D_A a => VmDnsSerializeDnsAddressRecord a
  | M_AAAA, D_AAAA a => VmDnsSerializeDnsIp6AddressRecord a
  | M_TKEY, D_TKEY x => VmDnsSerializeDnsTkeyRecord x
  | M_TSIG, D_TSIG x => VmDnsSerializeDnsTsigRecord x
  | _, _ => rub
  end.

Definition VmDnsWriteRecordToBuffer (r : dns_record) : DM unit :=
  write_name (pszName r) ;;;
  VmDnsWriteUINT16ToBuffer (dwType r) ;;;
  VmDnsWriteUINT16ToBuffer (iClass r) ;;;
  VmDnsWriteUINT32ToBuffer (dwTtl r) ;;;
  match VmDnsFindRecordMethods (dwType r) with
  | Some m => serialize_data m (Data r)
  | None => rret tt
  end.

(** ** Deserialising *)

Section Reader.
Variable inet_pton : Z → list Z → bool.

Definition read_name : DM (list Z) := VmDnsReadDomainNameFromBuffer inet_pton.

(** The data length is only compared with 0; the length of what was read is
    computed and not used. *)
Definition VmDnsDeserializeDnsSoaRecord : DM rdata :=
  n <- VmDnsReadUINT16FromBuffer ;;
  if n =? 0 then rfail ERROR_EMPTY
  else
    p <- read_name ;;
    a <- read_name ;;
    serial <- VmDnsReadUINT32FromBuffer ;;
    refresh <- VmDnsReadUINT32FromBuffer ;;
    retry <- VmDnsReadUINT32FromBuffer ;;
    expire <- VmDnsReadUINT32FromBuffer ;;
    ttl <- VmDnsReadUINT32FromBuffer ;;
    let d := SOA_DATA (Some p) (Some a) serial refresh retry expire ttl in
    b <- rget ;;
    VmDnsSoaGetRDataLength d (bTokenizeDomainName b) ;;;
    rret (D_SOA d).

Definition VmDnsDeserializeDnsSrvRecord : DM rdata :=
  n <- VmDnsReadUINT16FromBuffer ;;
  if n =? 0 then rfail ERROR_EMPTY
  else
    priority <- VmDnsReadUINT16FromBuffer ;;
    weight <- VmDnsReadUINT16FromBuffer ;;
    port <- VmDnsReadUINT16FromBuffer ;;
    t <- read_name ;;
    let d := SRV_DATA (Some t) priority weight port in
    b <- rget ;;
    VmDnsSrvGetRDataLength d (bTokenizeDomainName b) ;;;
    rret (D_SRV d).

Definition VmDnsDeserializeDnsCNameRecord : DM rdata :=
  n <- VmDnsReadUINT16FromBuffer ;;
  if n =? 0 then rret (D_CNAME None)
  else
    h <- read_name ;;
    b <- rget ;;
    VmDnsCNameRecordGetRDataLength (Some h) (bTokenizeDomainName b) ;;;
    rret (D_CNAME (Some h)).

Definition VmDnsDeserializeDnsNSRecord : DM rdata :=
  n <- VmDnsReadUINT16FromBuffer ;;
  if n =? 0 then rfail ERROR_EMPTY
  else
    h <- read_name ;;
    b <- rget ;;
    VmDnsNSRecordGetRDataLength (Some h) (bTokenizeDomainName b) ;;;
    rret (D_NS (Some h)).

Definition VmDnsDeserializeDnsPtrRecord : DM rdata :=
  n <- VmDnsReadUINT16FromBuffer ;;
  if n =? 0 then rfail ERROR_EMPTY
  else
    h <- read_name ;;
    b <- rget ;;
    VmDnsPtrRecordGetRDataLength (Some h) (bTokenizeDomainName b) ;;;
    rret (D_PTR (Some h)).

Definition VmDnsDeserializeDnsAddressRecord : DM rdata :=
  n <- VmDnsReadUINT16FromBuffer ;;
  if n =? 0 then rret (D_A 0) else a <- VmDnsReadUINT32FromBuffer ;; rret (D_A a).

Fixpoint read_ip6 (count : nat) : DM (list Z) :=
  match count with
  | O => rret []
  | S i => x <- VmDnsReadUCharFromBuffer ;; r <- read_ip6 i ;; rret (x :: r)
  end.

Definition VmDnsDeserializeDnsIp6AddressRecord : DM rdata :=
  n <- VmDnsReadUINT16FromBuffer ;;
  if n =? 0 then rret (D_AAAA (replicate 16 0)) else a <- read_ip6 16 ;; rret (D_AAAA a).

Definition VmDnsDeserializeDnsTkeyRecord : DM rdata :=
  n <- VmDnsReadUINT16FromBuffer ;;
  if n =? 0 then rfail ERROR_EMPTY
  else
    alg <- read_name ;;
    create <- VmDnsReadUINT32FromBuffer ;;
    expire <- VmDnsReadUINT32FromBuffer ;;
    mode <- VmDnsReadUINT16FromBuffer ;;
    err <- VmDnsReadUINT16FromBuffer ;;
    key <- VmDnsReadBlobFromBuffer ;;
    other <- VmDnsReadBlobFromBuffer ;;
    rret (D_TKEY (TKEY_DATA (Some alg) (Some key) (Some other) create expire mode err)).

Definition VmDnsDeserializeDnsTsigRecord (pRaw : option Z) : DM rdata :=
  n <- VmDnsReadUINT16FromBuffer ;;
  if n =? 0 then rfail ERROR_EMPTY
  else
    alg <- read_name ;;
    times <- VmDnsReadUINT64FromBuffer ;;
    sig <- VmDnsReadBlobFromBuffer ;;
    xid <- VmDnsReadUINT16FromBuffer ;;
    err <- VmDnsReadUINT16FromBuffer ;;
    other <- VmDnsReadBlobFromBuffer ;;
    let d := TSIG_DATA (Some alg) (Some sig) (Some other) (VMDNS_TSIG_GET_CREATE_TIME times)
                       (VMDNS_TSIG_GET_FUDGE_TIME times) xid err pRaw in
    b <- rget ;;
    VmDnsTsigRecordGetRDataLength d (bTokenizeDomainName b) ;;;
    rret (D_TSIG d).

Definition deserialize_data (m : rr_methods) (pRaw : option Z) : DM rdata :=
  match m with
  | M_SOA => VmDnsDeserializeDnsSoaRecord
  | M_SRV => VmDnsDeserializeDnsSrvRecord
  | M_CNAME => VmDnsDeserializeDnsCNameRecord
  | M_NS => VmDnsDeserializeDnsNSRecord
  | M_PTR => VmDnsDeserializeDnsPtrRecord
  | M_A => VmDnsDeserializeDnsAddressRecord
  | M_AAAA => VmDnsDeserializeDnsIp6AddressRecord
  | M_TKEY => VmDnsDeserializeDnsTkeyRecord
  | M_TSIG => VmDnsDeserializeDnsTsigRecord pRaw
  end.

(** A record whose type has no methods is returned without its data: the data
    length and the data stay in front of the cursor. *)
Definition VmDnsReadRecordFromBuffer : DM dns_record :=
  VmDnsAllocateMemory 112 ;;;
  b <- rget ;;
  let pRaw := szCursor b in
  name <- read_name ;;
  type <- VmDnsReadUINT16FromBuffer ;;
  class <- VmDnsReadUINT16FromBuffer ;;
  ttl <- VmDnsReadUINT32FromBuffer ;;
  data <- match VmDnsFindRecordMethods type with
          | Some m => deserialize_data m (if type =? VMDNS_RR_MTYPE_TSIG then Some pRaw else None)
          | None => rret D_NONE
          end ;;
  rret (DNS_RECORD (Some name) type class (s32 ttl) data).

End Reader.

(** ** Records on their own, as the store keeps them *)

(** [VmDnsGetRDataLength]: 0 for a type without methods. *)
Definition VmDnsGetRDataLength (r : dns_record) (tok : bool) : DM Z :=
  match VmDnsFindRecordMethods (dwType r) with
  | None => rret 0
  | Some m =>
      match m, Data r with
      | M_SOA, D_SOA d => VmDnsSoaGetRDataLength d tok
      | M_SRV, D_SRV d => VmDnsSrvGetRDataLength d tok
      | M_CNAME, D_CNAME h => VmDnsCNameRecordGetRDataLength h tok
      | M_NS, D_NS h => VmDnsNSRecordGetRDataLength h tok
      | M_PTR, D_PTR h => VmDnsPtrRecordGetRDataLength h tok
      | M_A, D_A _ => VmDnsAddressRecordGetRDataLength
      | M_AAAA, D_AAAA _ => VmDnsIp6AddressRecordGetRDataLength
      | M_TKEY, D_TKEY d => VmDnsTkeyRecordGetRDataLength d tok
      | M_TSIG, D_TSIG d => VmDnsTsigRecordGetRDataLength d tok
      | _, _ => rub
      end
  end.

Definition VmDnsSerializeDnsRecord {St} (r : dns_record) (bTokenize : bool) : RM St (list Z) :=
  with_buffer (VmDnsAllocateBufferStream 0)
    (VmDnsSetBufferTokenizedFlag bTokenize ;;; VmDnsWriteRecordToBuffer r ;;; copy_stream).

(** The flag is only written to the buffer: the reader does not look at it. *)
Definition VmDnsDeserializeDnsRecord {St} (inet_pton : Z → list Z → bool) (pBytes : list Z) (bTokenize : bool)
  : RM St dns_record :=
  if zlen pBytes =? 0 then rfail ERROR_INVALID_PARAMETER
  else with_buffer (VmDnsAllocateBufferStreamWithBuffer pBytes (zlen pBytes) 0 false)
         (VmDnsSetBufferTokenizedFlag bTokenize ;;; VmDnsReadRecordFromBuffer inet_pton).

(** ** Wire format *)

(** The data without its length, the length field, and the data that is read
    back at offset [off] of a message. *)
Definition str (n : dns_string) : list Z := default [] n.
Definition blob_wire (x : option dns_blob) : list Z := match x with Some b => blob_bytes b | None => [] end.
Definition blob_len (x : option dns_blob) : Z := match x with Some b => unSize b | None => 0 end.

Definition data_wire (tok : bool) (d : rdata) : list Z :=
  match d with
  | D_A a => enc 4 a
  | D_AAAA bs => bs
  | D_NS h | D_PTR h => name_wire tok (str h)
  | D_CNAME h => match h with Some s => name_wire tok s | None => [] end
  | D_SOA d => name_wire tok (str (pNamePrimaryServer d)) ++ name_wire tok (str (pNameAdministrator d)) ++
      enc 4 (dwSerialNo d) ++ enc 4 (dwRefresh d) ++ enc 4 (dwRetry d) ++ enc 4 (dwExpire d) ++ enc 4 (dwDefaultTtl d)
  | D_SRV d => enc 2 (wPriority d) ++ enc 2 (wWeight d) ++ enc 2 (wPort d) ++ name_wire tok (str (pNameTarget d))
  | D_TKEY d => name_wire tok (str (tkey_pNameAlgorithm d)) ++ enc 4 (dwCreateTime d) ++ enc 4 (dwExpireTime d) ++
      enc 2 (wMode d) ++ enc 2 (tkey_wError d) ++ blob_wire (pKey d) ++ blob_wire (tkey_pOtherData d)
  | D_TSIG d => name_wire tok (str (tsig_pNameAlgorithm d)) ++
      enc 8 (VMDNS_TSIG_COMBINE_TIMES (unCreateTime d) (wFudgeTime d)) ++ blob_wire (pSignature d) ++
      enc 2 (wOriginalXid d) ++ enc 2 (tsig_wError d) ++ blob_wire (tsig_pOtherData d)
  | D_NONE => []
  end.

Definition data_len (tok : bool) (d : rdata) : Z :=
  match d with
  | D_A _ => 4
  | D_AAAA _ => 16
  | D_NS h | D_PTR h => name_length tok (str h)
  | D_CNAME h => match h with Some s => name_length tok s | None => 0 end
  | D_SOA d => name_length tok (str (pNamePrimaryServer d)) + name_length tok (str (pNameAdministrator d)) + 20
  | D_SRV d => name_length tok (str (pNameTarget d)) + 6
  | D_TKEY d => name_length tok (str (tkey_pNameAlgorithm d)) + blob_len (pKey d) + blob_len (tkey_pOtherData d) + 16
  | D_TSIG d => name_length tok (str (tsig_pNameAlgorithm d)) + blob_len (pSignature d) + blob_len (tsig_pOtherData d) + 16
  | D_NONE => 0
  end.

Definition norm (tok : bool) (n : dns_string) : dns_string := option_map (name_norm tok) n.

Definition data_norm (tok : bool) (off : Z) (d : rdata) : rdata :=
  match d with
  | D_A _ | D_AAAA _ | D_NONE => d
  | D_NS h => D_NS (norm tok h)
  | D_PTR h => D_PTR (norm tok h)
  | D_CNAME h => D_CNAME (norm tok h)
  | D_SOA d => D_SOA (SOA_DATA (norm tok (pNamePrimaryServer d)) (norm tok (pNameAdministrator d))
      (dwSerialNo d) (dwRefresh d) (dwRetry d) (dwExpire d) (dwDefaultTtl d))
  | D_SRV d => D_SRV (SRV_DATA (norm tok (pNameTarget d)) (wPriority d) (wWeight d) (wPort d))
  | D_TKEY d => D_TKEY (TKEY_DATA (norm tok (tkey_pNameAlgorithm d)) (pKey d) (tkey_pOtherData d)
      (dwCreateTime d) (dwExpireTime d) (wMode d) (tkey_wError d))
  | D_TSIG d => D_TSIG (TSIG_DATA (norm tok (tsig_pNameAlgorithm d)) (pSignature d) (tsig_pOtherData d)
      (unCreateTime d) (wFudgeTime d) (wOriginalXid d) (tsig_wError d) (Some off))
  end.

(** The ranges of the C fields; names and blobs are there; the creation time
    is within the 40 bits that survive the mask. *)
Definition is_u16 (z : Z) : Prop := 0 <= z < 2 ^ 16.
Definition some_name (tok : bool) (n : dns_string) : Prop := match n with Some s => name_ok tok s | None => False end.
Definition some_blob (x : option dns_blob) : Prop := match x with Some b => blob_ok b | None => False end.

Definition fields_ok (tok : bool) (d : rdata) : Prop :=
  match d with
  | D_A a => is_u32 a
  | D_AAAA bs => length bs = 16%nat ∧ bytes bs
  | D_NS h | D_PTR h => some_name tok h
  | D_CNAME h => h = None ∨ some_name tok h
  | D_SOA d => some_name tok (pNamePrimaryServer d) ∧ some_name tok (pNameAdministrator d) ∧
      is_u32 (dwSerialNo d) ∧ is_u32 (dwRefresh d) ∧ is_u32 (dwRetry d) ∧ is_u32 (dwExpire d) ∧ is_u32 (dwDefaultTtl d)
  | D_SRV d => some_name tok (pNameTarget d) ∧ is_u16 (wPriority d) ∧ is_u16 (wWeight d) ∧ is_u16 (wPort d)
  | D_TKEY d => some_name tok (tkey_pNameAlgorithm d) ∧ some_blob (pKey d) ∧ some_blob (tkey_pOtherData d) ∧
      is_u32 (dwCreateTime d) ∧ is_u32 (dwExpireTime d) ∧ is_u16 (wMode d) ∧ is_u16 (tkey_wError d)
  | D_TSIG d => some_name tok (tsig_pNameAlgorithm d) ∧ some_blob (pSignature d) ∧ some_blob (tsig_pOtherData d) ∧
      0 <= unCreateTime d < 2 ^ 40 ∧ is_u16 (wFudgeTime d) ∧ is_u16 (wOriginalXid d) ∧ is_u16 (tsig_wError d)
  | D_NONE => True
  end.

(** The length fits its field and is not taken for an empty record. *)
Definition data_ok (tok : bool) (d : rdata) : Prop :=
  fields_ok tok d ∧ data_len tok d < 2 ^ 16 ∧ (data_len tok d = 0 → d = D_CNAME None ∨ d = D_NONE).

Definition data_methods (d : rdata) : option rr_methods :=
  match d with
  | D_A _ => Some M_A | D_AAAA _ => Some M_AAAA | D_NS _ => Some M_NS | D_PTR _ => Some M_PTR
  | D_CNAME _ => Some M_CNAME | D_SOA _ => Some M_SOA | D_SRV _ => Some M_SRV | D_TKEY _ => Some M_TKEY
  | D_TSIG _ => Some M_TSIG | D_NONE => None
  end.

Definition record_wire (tok : bool) (r : dns_record) : list Z :=
  name_wire tok (str (pszName r)) ++ enc 2 (dwType r) ++ enc 2 (iClass r) ++ enc 4 (dwTtl r) ++
  match data_methods (Data r) with Some _ => enc 2 (data_len tok (Data r)) ++ data_wire tok (Data r) | None => [] end.

Definition record_norm (tok : bool) (off : Z) (r : dns_record) : dns_record :=
  DNS_RECORD (norm tok (pszName r)) (dwType r) (iClass r) (dwTtl r) (data_norm tok off (Data r)).

Definition record_ok (tok : bool) (r : dns_record) : Prop :=
  some_name tok (pszName r) ∧ is_u16 (dwType r) ∧ is_u16 (iClass r) ∧ - 2 ^ 31 <= dwTtl r < 2 ^ 31 ∧
  VmDnsFindRecordMethods (dwType r) = data_methods (Data r) ∧ data_ok tok (Data r).

(** ** Writing *)

Lemma emits_get {A} tok (k : dns_buffer → DM A) bs a :
  (∀ b, bTokenizeDomainName b = tok → emits tok (k b) bs a) → emits tok (rbind rget k) bs a.
Proof. intros Hk b e Hb Hw Ht. unfold rbind, rget. by apply Hk. Qed.

Lemma emits_skip {A B} tok (m : DM A) (k : A → DM B) bs a c :
  emits tok m [] a → emits tok (k a) bs c → emits tok (rbind m k) bs c.
Proof. intros Hm Hk. by eapply emits_app. Qed.

Lemma emits_write_name tok n : some_name tok n → emits tok (write_name n) (name_wire tok (str n)) tt.
Proof.
  destruct n as [s|]; [| done]. intros Hs. apply emits_get. intros b ->. by apply emits_name.
Qed.

Lemma emits_some_length tok n : some_name tok n →
  emits tok (VmDnsGetDomainNameLength n tok) [] (name_length tok (str n)).
Proof. destruct n as [s|]; [| done]. apply emits_name_length. Qed.

Lemma emits_write_blob tok x : some_blob x → emits tok (write_blob x) (blob_wire x) tt.
Proof. destruct x as [x|]; [| done]. apply emits_blob. Qed.

Lemma emits_blob_size tok x : some_blob x → emits tok (blob_size x) [] (blob_len x).
Proof. destruct x as [x|]; [| done]. intros _. apply emits_ret. Qed.

Lemma length_enc tok v n : v mod 2 ^ 16 = n mod 2 ^ 16 → emits tok (VmDnsWriteUINT16ToBuffer v) (enc 2 n) tt.
Proof.
  intros Hv. replace (enc 2 n) with (enc 2 v); [apply emits_uint16 |].
  rewrite <- (enc_mod 2 v 16), <- (enc_mod 2 n 16) by lia. by f_equal.
Qed.

Lemma emits_soa_length tok d : some_name tok (pNamePrimaryServer d) → some_name tok (pNameAdministrator d) →
  emits tok (VmDnsSoaGetRDataLength d tok) [] (u16 (data_len tok (D_SOA d))).
Proof.
  intros Hp Ha. unfold VmDnsSoaGetRDataLength. do 2 (eapply emits_skip; [by apply emits_some_length |]).
  replace (data_len tok (D_SOA d)) with (name_length tok (str (pNamePrimaryServer d)) +
    name_length tok (str (pNameAdministrator d)) + 4 + 4 + 4 + 4 + 4) by (cbn; lia). apply emits_ret.
Qed.

Lemma emits_srv_length tok d : some_name tok (pNameTarget d) →
  emits tok (VmDnsSrvGetRDataLength d tok) [] (u16 (data_len tok (D_SRV d))).
Proof.
  intros Hn. unfold VmDnsSrvGetRDataLength. eapply emits_skip; [by apply emits_some_length |].
  replace (data_len tok (D_SRV d)) with (name_length tok (str (pNameTarget d)) + 2 + 2 + 2) by (cbn; lia). apply emits_ret.
Qed.

Lemma emits_tkey_length tok d : some_name tok (tkey_pNameAlgorithm d) → some_blob (pKey d) → some_blob (tkey_pOtherData d) →
  emits tok (VmDnsTkeyRecordGetRDataLength d tok) [] (u16 (data_len tok (D_TKEY d))).
Proof.
  intros Hn Hk Ho. unfold VmDnsTkeyRecordGetRDataLength. eapply emits_skip; [by apply emits_some_length |].
  do 2 (eapply emits_skip; [by apply emits_blob_size |]).
  replace (data_len tok (D_TKEY d)) with (name_length tok (str (tkey_pNameAlgorithm d)) + blob_len (pKey d) +
    blob_len (tkey_pOtherData d) + 4 + 4 + 2 + 2 + 2 + 2) by (cbn; lia). apply emits_ret.
Qed.

Lemma emits_tsig_length tok d : some_name tok (tsig_pNameAlgorithm d) → some_blob (pSignature d) → some_blob (tsig_pOtherData d) →
  emits tok (VmDnsTsigRecordGetRDataLength d tok) [] (u16 (data_len tok (D_TSIG d))).
Proof.
  intros Hn Hk Ho. unfold VmDnsTsigRecordGetRDataLength. eapply emits_skip; [by apply emits_some_length |].
  do 2 (eapply emits_skip; [by apply emits_blob_size |]).
  replace (data_len tok (D_TSIG d)) with (name_length tok (str (tsig_pNameAlgorithm d)) + blob_len (pSignature d) +
    blob_len (tsig_pOtherData d) + 4 + 4 + 2 + 2 + 2 + 2) by (cbn; lia). apply emits_ret.
Qed.

Lemma emits_u16 tok n : emits tok (VmDnsWriteUINT16ToBuffer (u16 n)) (enc 2 n) tt.
Proof. apply length_enc. unfold u16. by rewrite Z.mod_mod. Qed.

(** A writer built from these: lengths first, then the fields. *)
Ltac emits_length :=
  lazymatch goal with
  | |- emits _ (VmDnsGetDomainNameLength _ _) _ _ => apply emits_some_length
  | |- emits _ (VmDnsSoaGetRDataLength _ _) _ _ => apply emits_soa_length
  | |- emits _ (VmDnsSrvGetRDataLength _ _) _ _ => apply emits_srv_length
  | |- emits _ (VmDnsTkeyRecordGetRDataLength _ _) _ _ => apply emits_tkey_length
  | |- emits _ (VmDnsTsigRecordGetRDataLength _ _) _ _ => apply emits_tsig_length
  end; assumption.
Ltac emits_field :=
  lazymatch goal with
  | |- emits _ (VmDnsWriteUINT16ToBuffer (u16 _)) _ _ => apply emits_u16
  | |- emits _ (VmDnsWriteUINT16ToBuffer _) _ _ => apply emits_uint16
  | |- emits _ (VmDnsWriteUINT32ToBuffer _) _ _ => apply emits_uint32
  | |- emits _ (VmDnsWriteUINT64ToBuffer _) _ _ => apply emits_uint64
  | |- emits _ (rret _) _ _ => apply emits_ret
  | |- emits _ (write_name _) _ _ => apply emits_write_name; assumption
  | |- emits _ (write_blob _) _ _ => apply emits_write_blob; assumption
  end.
Ltac emits_seq :=
  lazymatch goal with
  | |- emits _ (rbind rget _) _ _ => apply emits_get; intros ? ->; emits_seq
  | |- emits _ (rbind _ _) _ _ =>
      first [ eapply emits_skip; [emits_length |] | eapply emits_bind; [emits_field |] ]; emits_seq
  | |- _ => emits_field
  end.

Lemma emits_ip6 tok bs : bytes bs → emits tok (write_ip6 bs) bs tt.
Proof.
  induction 1 as [|x bs Hx _ IH]; cbn [write_ip6]; [apply emits_ret |].
  apply (emits_app tok _ _ (enc 1 x) bs tt tt); [apply emits_uchar | done |].
  cbn. f_equal. unfold u8. rewrite Z.shiftr_0_r. symmetry. by apply Z.mod_small.
Qed.

Lemma emits_data tok m d : fields_ok tok d → data_methods d = Some m →
  emits tok (serialize_data m d) (enc 2 (data_len tok d) ++ data_wire tok d) tt.
Proof.
  destruct d as [a | bs | h | h | h | d | d | d | d |]; intros Hf [= <-]; cbn [serialize_data fields_ok data_wire] in *.
  - unfold VmDnsSerializeDnsAddressRecord. eapply emits_skip; [apply emits_ret |].
    eapply emits_bind; [apply emits_uint16 | apply emits_uint32].
  - destruct Hf as [Hl Hb]. unfold VmDnsSerializeDnsIp6AddressRecord. eapply emits_skip; [apply emits_ret |].
    eapply emits_bind; [apply emits_uint16 |]. change (Z.to_nat 16) with 16%nat. rewrite <- Hl, firstn_all. by apply emits_ip6.
  - unfold VmDnsSerializeDnsNSRecord, VmDnsNSRecordGetRDataLength. emits_seq.
  - unfold VmDnsSerializeDnsPtrRecord, VmDnsPtrRecordGetRDataLength. emits_seq.
  - unfold VmDnsSerializeDnsCNameRecord, VmDnsCNameRecordGetRDataLength. destruct h as [s|].
    2: { apply emits_get. intros b _. eapply emits_skip; [apply emits_ret |]. emits_seq. }
    destruct Hf as [? | Hf]; [done |]. cbn [data_len]. change (name_length tok s) with (name_length tok (str (Some s))).
    change (name_wire tok s) with (name_wire tok (str (Some s))). emits_seq.
  - destruct Hf as (Hp & Ha & _). unfold VmDnsSerializeDnsSoaRecord. emits_seq.
  - destruct Hf as (Hp & _). unfold VmDnsSerializeDnsSrvRecord. emits_seq.
  - destruct Hf as (Hp & Hk & Ho & _). unfold VmDnsSerializeDnsTkeyRecord. emits_seq.
  - destruct Hf as (Hp & Hk & Ho & _). unfold VmDnsSerializeDnsTsigRecord. emits_seq.
Qed.

Lemma emits_record tok r : record_ok tok r → emits tok (VmDnsWriteRecordToBuffer r) (record_wire tok r) tt.
Proof.
  intros (Hn & _ & _ & _ & Hm & Hf & _). unfold VmDnsWriteRecordToBuffer, record_wire. rewrite Hm.
  do 4 (eapply emits_bind; [emits_field |]).
  destruct (data_methods (Data r)) as [m|] eqn:E; [by apply emits_data | apply emits_ret].
Qed.

(** ** Reading *)

Lemma consumes_then {A B} tok (m : DM A) (k : A → DM B) bs bs' x (c : B) :
  consumes tok m bs (λ _, x) → consumes tok (k x) bs' (λ _, c) → consumes tok (rbind m k) (bs ++ bs') (λ _, c).
Proof. intros Hm Hk. by apply consumes_bind with (a := λ _, x). Qed.

Lemma consumes_get {A} tok (k : dns_buffer → DM A) bs a :
  (∀ b, bTokenizeDomainName b = tok → consumes tok (k b) bs a) → consumes tok (rbind rget k) bs a.
Proof. intros Hk b e post Hb He Ht Hd. unfold rbind at 1, rget. exact (Hk b Ht b e post Hb He Ht Hd). Qed.

Lemma consumes_skip {A B} tok (m : DM A) (k : A → DM B) bs (c : B) :
  (∃ v, consumes tok m [] (λ _, v)) → (∀ v, consumes tok (k v) bs (λ _, c)) → consumes tok (rbind m k) bs (λ _, c).
Proof. intros [v Hm] Hk. exact (consumes_then tok m k [] bs v c Hm (Hk v)). Qed.

Lemma name_length_loop_some fuel s total : (length s < fuel)%nat → is_Some (name_length_loop fuel (VmDnsStringTokA s) total).
Proof.
  revert s total. induction fuel as [|fuel IH]; intros s total Hf; [lia |]. cbn [name_length_loop].
  destruct (_ =? 0); [by eexists |]. destruct (VmDnsStringTokA s) as [[t r]|] eqn:E; [| by eexists].
  destruct (tok_spec _ _ _ E) as (_ & Ht & Hl & _). destruct t; [done |]. cbn in Hl. apply IH. lia.
Qed.

Lemma name_length_run tok s (b : dns_buffer) e :
  ∃ e', (∃ v, VmDnsGetDomainNameLength (Some s) tok b e = Some (inr v, b, e')) ∧ (quiet e → quiet e') ∨
        VmDnsGetDomainNameLength (Some s) tok b e = Some (inl ERROR_NO_MEMORY, b, e') ∧ ¬ quiet e.
Proof.
  cbn [VmDnsGetDomainNameLength]. destruct tok; [| exists e; left; split; [by eexists | done]].
  exists (tail e). unfold rbind. destruct (alloc_string_run (s ++ [0]) (until0 s) b e (cstring_block s)) as [Hr | Hr]; rewrite Hr.
  - left. destruct (name_length_loop_some (S (S (length s))) s 0 ltac:(lia)) as [v Hv].
    split; [exists v; unfold rlift; by rewrite Hv | apply quiet_tail].
  - right. split; [done |]. intros Hq. destruct (alloc_string_ok (s ++ [0]) (until0 s) b e (cstring_block s) Hq) as (? & Hok & _).
    congruence.
Qed.

Lemma consumes_some_length tok n tok' : n ≠ None → ∃ v, consumes tok (VmDnsGetDomainNameLength n tok') [] (λ _, v).
Proof.
  destruct n as [s|]; [intros _ | done].
  assert (∃ v, ∀ (b : dns_buffer) e, quiet e → ∃ e', VmDnsGetDomainNameLength (Some s) tok' b e = Some (inr v, b, e') ∧ quiet e')
    as [v Hv].
  { destruct tok'; cbn [VmDnsGetDomainNameLength]; [| eexists; intros b e He; exists e; by split].
    destruct (name_length_loop_some (S (S (length s))) s 0 ltac:(lia)) as [v Hv]. exists v. intros b e He.
    destruct (alloc_string_ok (s ++ [0]) (until0 s) b e (cstring_block s) He) as (e' & Hok & He').
    exists e'. unfold rbind, rlift. by rewrite Hok, Hv. }
  exists v. intros b e post Hb He Ht _. destruct (Hv b e He) as (e' & Hr & He'). exists e'.
  rewrite Hr, Z.add_0_r, set_cursor_id. by split.
Qed.

Lemma some_name_read inet_pton fl tok n : some_name tok n →
  ∃ s, norm tok n = Some s ∧ consumes fl (read_name inet_pton) (name_wire tok (str n)) (λ _, s).
Proof.
  destruct n as [s|]; [| done]. intros Hs. exists (name_norm tok s). split; [done |]. by apply consumes_name.
Qed.

Lemma some_blob_read tok x : some_blob x →
  ∃ b, x = Some b ∧ consumes tok VmDnsReadBlobFromBuffer (blob_wire x) (λ _, b).
Proof. destruct x as [x|]; [| done]. intros Hx. exists x. split; [done |]. by apply consumes_blob. Qed.

Lemma tsig_times c f : 0 <= c < 2 ^ 40 → is_u16 f →
  is_u64 (VMDNS_TSIG_COMBINE_TIMES c f) ∧
  VMDNS_TSIG_GET_CREATE_TIME (VMDNS_TSIG_COMBINE_TIMES c f) = c ∧
  VMDNS_TSIG_GET_FUDGE_TIME (VMDNS_TSIG_COMBINE_TIMES c f) = f.
Proof.
  intros Hc Hf. unfold is_u16 in Hf.
  assert (VMDNS_TSIG_COMBINE_TIMES c f = c * 2 ^ 16 + f) as E.
  { unfold VMDNS_TSIG_COMBINE_TIMES. rewrite u64_id by (unfold is_u64; rewrite Z.shiftl_mul_pow2; lia).
    rewrite <- Z.lxor_lor, <- Z.add_nocarry_lxor; try (rewrite Z.shiftl_mul_pow2 by lia; reflexivity).
    all: apply Z.bits_inj'; intros k Hk; rewrite Z.land_spec, Z.bits_0, Z.shiftl_spec by lia;
      (destruct (decide (k < 16)); [rewrite Z.testbit_neg_r by lia; done |]);
      rewrite <- (Z.mod_small f (2 ^ 16)), Z.mod_pow2_bits_high by lia; by rewrite andb_false_r. }
  rewrite E. split_and!.
  - unfold is_u64. lia.
  - unfold VMDNS_TSIG_GET_CREATE_TIME. apply Z.bits_inj'. intros k Hk.
    rewrite Z.shiftr_spec, Z.land_spec by lia. change 0x10 with 16.
    assert (Z.testbit (c * 2 ^ 16 + f) (k + 16) = Z.testbit c k) as Hb.
    { rewrite <- (Z.shiftr_spec _ 16 k) by lia. f_equal. rewrite Z.shiftr_div_pow2, Z.div_add_l, Z.div_small by lia. lia. }
    rewrite Hb. destruct (decide (k < 40)) as [Hk40 | Hk40].
    + assert (Z.testbit 0xFFFFFFFFFFFF00 (k + 16) = true) as ->; [| apply andb_true_r].
      change 0xFFFFFFFFFFFF00 with (Z.shiftl (Z.ones 48) 8). rewrite Z.shiftl_spec, Z.testbit_ones_nonneg by lia.
      apply Z.ltb_lt. lia.
    + rewrite <- (Z.mod_small c (2 ^ 40)), Z.mod_pow2_bits_high by lia. done.
  - unfold VMDNS_TSIG_GET_FUDGE_TIME. change 0xFFFF with (Z.ones 16). rewrite Z.land_ones, Z.add_comm, Z_mod_plus_full by lia.
    by apply Z.mod_small.
Qed.

(** A step that reads nothing. *)
Lemma skips_bind {A B} tok (m : DM A) (k : A → DM B) :
  (∃ v, consumes tok m [] (λ _, v)) → (∀ v, ∃ c, consumes tok (k v) [] (λ _, c)) →
  ∃ c, consumes tok (rbind m k) [] (λ _, c).
Proof. intros [v Hm] Hk. destruct (Hk v) as [c Hc]. exists c. exact (consumes_then tok m k [] [] v c Hm Hc). Qed.

(** A reader built from these, in the order of the fields. *)
Ltac consumes_field :=
  lazymatch goal with
  | |- consumes _ VmDnsReadUINT16FromBuffer _ _ => apply consumes_uint16; assumption
  | |- consumes _ VmDnsReadUINT32FromBuffer _ _ => apply consumes_uint32; assumption
  | |- consumes _ VmDnsReadUINT64FromBuffer _ _ => apply consumes_uint64; assumption
  | |- _ => eassumption
  end.
Ltac skips :=
  cbv beta;
  lazymatch goal with
  | |- ∃ _, consumes _ (rbind _ _) _ _ => apply skips_bind; [skips | intros ?; skips]
  | |- ∃ _, consumes _ (rret _) _ _ => eexists; apply consumes_ret
  | |- _ => by apply consumes_some_length
  end.
(** The length computed at the end is not used. *)
Ltac consumes_end :=
  cbv beta zeta;
  lazymatch goal with
  | |- consumes _ (rbind rget _) _ _ => apply consumes_get; intros ? _; consumes_end
  | |- consumes _ (rbind _ _) _ _ => apply consumes_skip; [skips | intros ?; consumes_end]
  | |- _ => apply consumes_ret
  end.

Lemma consumes_last {A} tok (m : DM A) (k : A → DM rdata) bs x c :
  consumes tok m bs (λ _, x) → consumes tok (k x) [] (λ _, c) → consumes tok (rbind m k) bs (λ _, c).
Proof. intros Hm Hk. rewrite <- (app_nil_r bs). by eapply consumes_then. Qed.

Lemma consumes_ip6 tok bs : bytes bs → consumes tok (read_ip6 (length bs)) bs (λ _, bs).
Proof.
  induction 1 as [|x bs Hx _ IH]; cbn [read_ip6 length]; [apply consumes_ret |].
  apply (consumes_then tok _ _ [x] bs x); [by apply consumes_uchar |].
  rewrite <- (app_nil_r bs) at 2. eapply consumes_then; [exact IH | apply consumes_ret].
Qed.

(** Every reader of data starts with the length field. *)
Lemma consumes_len {A} tok n (k : Z → DM A) bs (c : A) : 0 <= n < 2 ^ 16 → consumes tok (k n) bs (λ _, c) →
  consumes tok (rbind VmDnsReadUINT16FromBuffer k) (enc 2 n ++ bs) (λ _, c).
Proof. intros Hn. apply consumes_then. by apply consumes_uint16. Qed.

Section Records.
Variable inet_pton : Z → list Z → bool.

Lemma consumes_data fl tok m d off : data_ok tok d → 0 <= data_len tok d → data_methods d = Some m →
  consumes fl (deserialize_data inet_pton m (match m with M_TSIG => Some off | _ => None end))
    (enc 2 (data_len tok d) ++ data_wire tok d) (λ _, data_norm tok off d).
Proof.
  intros (Hf & Hmax & Hzero) Hpos Hm.
  assert (d ≠ D_CNAME None → (data_len tok d =? 0) = false) as Hne.
  { intros Hd. apply Z.eqb_neq. intros [-> | ->]%Hzero; done. }
  revert Hm. destruct d as [a | bs | h | h | h | d | d | d | d |]; intros [= <-]; cbn [deserialize_data fields_ok data_wire] in *.
  - apply consumes_len; [done |]. eapply consumes_last; [by apply consumes_uint32 | apply consumes_ret].
  - destruct Hf as [Hl Hb]. apply consumes_len; [done |]. cbv beta. rewrite Hne by done. rewrite <- Hl.
    eapply consumes_last; [by apply consumes_ip6 | apply consumes_ret].
  - apply consumes_len; [lia |]. rewrite Hne by done. destruct (some_name_read inet_pton fl tok h Hf) as (s & Hs & Hr).
    cbn [data_norm]. rewrite Hs. eapply consumes_last; [exact Hr |]. unfold VmDnsNSRecordGetRDataLength. consumes_end.
  - apply consumes_len; [lia |]. rewrite Hne by done. destruct (some_name_read inet_pton fl tok h Hf) as (s & Hs & Hr).
    cbn [data_norm]. rewrite Hs. eapply consumes_last; [exact Hr |]. unfold VmDnsPtrRecordGetRDataLength. consumes_end.
  - apply consumes_len; [lia |]. destruct h as [s|]; [| apply consumes_ret]. destruct Hf as [? | Hf]; [done |].
    rewrite Hne by done. destruct (some_name_read inet_pton fl tok (Some s) Hf) as (s' & Hs & Hr).
    cbn [data_norm]. rewrite Hs. eapply consumes_last; [exact Hr |]. unfold VmDnsCNameRecordGetRDataLength. consumes_end.
  - apply consumes_len; [lia |]. rewrite Hne by done. destruct Hf as (Hp & Ha & H1 & H2 & H3 & H4 & H5).
    destruct (some_name_read inet_pton fl tok _ Hp) as (p & Ep & Hrp), (some_name_read inet_pton fl tok _ Ha) as (a & Ea & Hra).
    cbn [data_norm]. rewrite Ep, Ea. do 6 (eapply consumes_then; [consumes_field |]).
    eapply consumes_last; [consumes_field |]. unfold VmDnsSoaGetRDataLength. consumes_end.
  - apply consumes_len; [lia |]. rewrite Hne by done. destruct Hf as (Hp & H1 & H2 & H3).
    destruct (some_name_read inet_pton fl tok _ Hp) as (p & Ep & Hrp). cbn [data_norm]. rewrite Ep.
    do 3 (eapply consumes_then; [consumes_field |]). eapply consumes_last; [consumes_field |].
    unfold VmDnsSrvGetRDataLength. consumes_end.
  - apply consumes_len; [lia |]. rewrite Hne by done. destruct Hf as (Hp & Hk & Ho & H1 & H2 & H3 & H4).
    destruct (some_name_read inet_pton fl tok _ Hp) as (p & Ep & Hrp), (some_blob_read fl _ Hk) as (k & Ek & Hrk),
      (some_blob_read fl _ Ho) as (o & Eo & Hro). cbn [data_norm]. rewrite Ep.
    do 6 (eapply consumes_then; [consumes_field |]). eapply consumes_last; [consumes_field |]. rewrite Ek, Eo. consumes_end.
  - apply consumes_len; [lia |]. rewrite Hne by done. destruct Hf as (Hp & Hk & Ho & H1 & H2 & H3 & H4).
    destruct (tsig_times _ _ H1 H2) as (Hu & Hc & Hfu).
    destruct (some_name_read inet_pton fl tok _ Hp) as (p & Ep & Hrp), (some_blob_read fl _ Hk) as (k & Ek & Hrk),
      (some_blob_read fl _ Ho) as (o & Eo & Hro). cbn [data_norm]. rewrite Ep.
    do 5 (eapply consumes_then; [consumes_field |]). eapply consumes_last; [consumes_field |]. rewrite Ek, Eo, Hc, Hfu.
    unfold VmDnsTsigRecordGetRDataLength, blob_size.
    cbv beta zeta. cbn [pSignature tsig_pOtherData tsig_pNameAlgorithm]. consumes_end.
Qed.

Lemma name_length_pos tok s : 0 <= name_length tok s.
Proof. unfold name_length. destruct tok; lia. Qed.

Lemma blob_len_pos x : some_blob x → 0 <= blob_len x.
Proof. destruct x as [x|]; [| done]. intros (_ & Hl & _). cbn. lia. Qed.

Lemma data_len_pos tok d : fields_ok tok d → 0 <= data_len tok d.
Proof.
  intros Hf. destruct d as [a | bs | h | h | h | d | d | d | d |]; cbn [data_len fields_ok] in *; try lia;
    try apply name_length_pos.
  - destruct h; [apply name_length_pos | lia].
  - pose proof (name_length_pos tok (str (pNamePrimaryServer d))). pose proof (name_length_pos tok (str (pNameAdministrator d))). lia.
  - pose proof (name_length_pos tok (str (pNameTarget d))). lia.
  - destruct Hf as (_ & Hk & Ho & _). pose proof (name_length_pos tok (str (tkey_pNameAlgorithm d))).
    pose proof (blob_len_pos _ Hk). pose proof (blob_len_pos _ Ho). lia.
  - destruct Hf as (_ & Hk & Ho & _). pose proof (name_length_pos tok (str (tsig_pNameAlgorithm d))).
    pose proof (blob_len_pos _ Hk). pose proof (blob_len_pos _ Ho). lia.
Qed.

Lemma methods_tsig type d : VmDnsFindRecordMethods type = data_methods d →
  (type =? VMDNS_RR_MTYPE_TSIG) = match data_methods d with Some M_TSIG => true | _ => false end.
Proof.
  intros <-. unfold VmDnsFindRecordMethods, gRecordMethods. cbn [find_methods].
  destruct (Z.eqb_spec type VMDNS_RR_MTYPE_TSIG) as [-> | Hn]; [done |].
  by repeat (destruct (type =? _); [done |]).
Qed.

(** The form of the names on the wire is independent of the flag of the buffer. *)
Lemma consumes_record fl tok r : record_ok tok r →
  consumes fl (VmDnsReadRecordFromBuffer inet_pton) (record_wire tok r) (λ off, record_norm tok off r).
Proof.
  intros (Hn & Ht & Hc & Httl & Hm & Hd) b e post Hb He Htok Hdr.
  unfold VmDnsReadRecordFromBuffer, rbind at 1. rewrite alloc_ok by (done || lia). unfold rbind at 1, rget.
  set (off := szCursor b). destruct (some_name_read inet_pton fl tok _ Hn) as (s & Es & Hr).
  match goal with |- context [?k b (tail e)] =>
    assert (consumes fl k (record_wire tok r) (λ _, record_norm tok off r)) as Hk end.
  { unfold record_wire, record_norm. rewrite Es. eapply consumes_then; [exact Hr |].
    eapply consumes_then; [by apply consumes_uint16 |]. eapply consumes_then; [by apply consumes_uint16 |].
    rewrite <- enc_u32. eapply consumes_then; [apply consumes_uint32, u32_range |].
    assert (s32 (u32 (dwTtl r)) = dwTtl r) as Ettl.
    { unfold s32, u32. rewrite Z.mod_mod by done. by apply s32_id. }
    pose proof (data_len_pos tok _ (proj1 Hd)) as Hpos. rewrite Hm, (methods_tsig _ _ Hm).
    destruct (data_methods (Data r)) as [m|] eqn:Em.
    - match goal with |- consumes _ _ ?bs _ => rewrite <- (app_nil_r bs) end.
      eapply consumes_then; [| rewrite Ettl; apply consumes_ret].
      replace (if match m with M_TSIG => true | _ => false end then Some off else None)
        with (match m with M_TSIG => Some off | _ => None end) by (by destruct m). by apply consumes_data.
    - eapply (consumes_then fl _ _ [] [] D_NONE); [apply consumes_ret |]. rewrite Ettl.
      destruct (Data r); try done. apply consumes_ret. }
  destruct (Hk b (tail e) post Hb (quiet_tail e He) Htok Hdr) as (e' & Hrun & He'). exists e'. by rewrite Hrun.
Qed.

End Records.

(** ** RDLENGTH *)

Lemma blob_wire_length x : some_blob x → zlen (blob_wire x) = 2 + blob_len x.
Proof.
  destruct x as [x|]; [| done]. intros (_ & Hl & _). cbn [blob_wire blob_len]. unfold blob_bytes.
  rewrite length_app, enc_length. lia.
Qed.

Lemma data_len_wire d : fields_ok true d → data_methods d ≠ None → data_len true d = zlen (data_wire true d).
Proof.
  intros Hf Hm. destruct d as [a | bs | h | h | h | d | d | d | d |]; cbn [data_len data_wire fields_ok name_length] in *.
  - by rewrite enc_length.
  - destruct Hf as [Hl _]. lia.
  - done.
  - done.
  - by destruct h.
  - rewrite !length_app, !enc_length. lia.
  - rewrite !length_app, !enc_length. lia.
  - destruct Hf as (_ & Hk & Ho & _). rewrite !length_app, !enc_length.
    pose proof (blob_wire_length _ Hk). pose proof (blob_wire_length _ Ho). lia.
  - destruct Hf as (_ & Hk & Ho & _). rewrite !length_app, !enc_length.
    pose proof (blob_wire_length _ Hk). pose proof (blob_wire_length _ Ho). lia.
  - done.
Qed.

(** ** Bounds and types of what is read *)

Definition read_str (n : dns_string) : Prop := ∃ s, n = Some s ∧ name_str s.
Definition read_blob (x : option dns_blob) : Prop := ∃ b, x = Some b ∧ blob_ok b.

(** Data as the C types allow it, with names of at most 256 characters without
    NUL and blobs that have their size. *)
Definition data_typed (d : rdata) : Prop :=
  match d with
  | D_A a => is_u32 a
  | D_AAAA bs => length bs = 16%nat ∧ bytes bs
  | D_NS h | D_PTR h => read_str h
  | D_CNAME h => h = None ∨ read_str h
  | D_SOA d => read_str (pNamePrimaryServer d) ∧ read_str (pNameAdministrator d) ∧
      is_u32 (dwSerialNo d) ∧ is_u32 (dwRefresh d) ∧ is_u32 (dwRetry d) ∧ is_u32 (dwExpire d) ∧ is_u32 (dwDefaultTtl d)
  | D_SRV d => read_str (pNameTarget d) ∧ is_u16 (wPriority d) ∧ is_u16 (wWeight d) ∧ is_u16 (wPort d)
  | D_TKEY d => read_str (tkey_pNameAlgorithm d) ∧ read_blob (pKey d) ∧ read_blob (tkey_pOtherData d) ∧
      is_u32 (dwCreateTime d) ∧ is_u32 (dwExpireTime d) ∧ is_u16 (wMode d) ∧ is_u16 (tkey_wError d)
  | D_TSIG d => read_str (tsig_pNameAlgorithm d) ∧ read_blob (pSignature d) ∧ read_blob (tsig_pOtherData d) ∧
      0 <= unCreateTime d < 2 ^ 40 ∧ is_u16 (wFudgeTime d) ∧ is_u16 (wOriginalXid d) ∧ is_u16 (tsig_wError d)
  | D_NONE => True
  end.

Definition record_typed (r : dns_record) : Prop :=
  read_str (pszName r) ∧ is_u16 (dwType r) ∧ is_u16 (iClass r) ∧ - 2 ^ 31 <= dwTtl r < 2 ^ 31 ∧
  data_methods (Data r) = VmDnsFindRecordMethods (dwType r) ∧ data_typed (Data r).

(** The offset a signature has kept. *)
Definition data_raw (raw : option Z) (d : rdata) : Prop :=
  match d with D_TSIG t => pRawTsigPtr t = raw | _ => True end.

Section Bounds.
Variable inet_pton : Z → list Z → bool.

Lemma reads_some_length ok n tok : n ≠ None → reads ok (VmDnsGetDomainNameLength n tok) (λ _, True).
Proof.
  destruct n as [s|]; [intros _ | done]. intros b e Hb _.
  destruct (name_length_run tok s b e) as (e' & [[[v Hv] _] | [Hv _]]); rewrite Hv; by apply reads_stay.
Qed.

Lemma reads_read_name : reads safe_message (read_name inet_pton) name_str.
Proof. apply reads_name. Qed.

Lemma create_time_range c : 0 <= c → 0 <= VMDNS_TSIG_GET_CREATE_TIME c < 2 ^ 40.
Proof.
  intros _. unfold VMDNS_TSIG_GET_CREATE_TIME. rewrite Z.shiftr_land.
  change (Z.shiftr 0xFFFFFFFFFFFF00 0x10) with (Z.ones 40). rewrite Z.land_ones by lia. by apply Z.mod_pos_bound.
Qed.

Lemma fudge_time_range c : 0 <= c → is_u16 (VMDNS_TSIG_GET_FUDGE_TIME c).
Proof.
  intros Hc. unfold VMDNS_TSIG_GET_FUDGE_TIME. change 0xFFFF with (Z.ones 16). rewrite Z.land_ones by lia.
  apply Z.mod_pos_bound. lia.
Qed.

Ltac reads_step :=
  cbv beta zeta;
  lazymatch goal with
  | |- reads _ (rbind rget _) _ => apply reads_get; intros ? _ _
  | |- reads _ (rbind VmDnsReadUINT16FromBuffer _) _ => eapply reads_bind; [exact _ | apply reads_uint16; exact _ |]; cbv beta; intros ? ?
  | |- reads _ (rbind VmDnsReadUINT32FromBuffer _) _ => eapply reads_bind; [exact _ | apply reads_uint32; exact _ |]; cbv beta; intros ? ?
  | |- reads _ (rbind VmDnsReadUINT64FromBuffer _) _ => eapply reads_bind; [exact _ | apply reads_uint64; exact _ |]; cbv beta; intros ? ?
  | |- reads _ (rbind VmDnsReadBlobFromBuffer _) _ => eapply reads_bind; [exact _ | apply reads_blob; exact _ |]; cbv beta; intros ? ?
  | |- reads _ (rbind (read_name _) _) _ => eapply reads_bind; [exact _ | apply reads_read_name |]; cbv beta; intros ? ?
  | |- reads _ (rbind (VmDnsGetDomainNameLength _ _) _) _ => eapply reads_bind; [exact _ | by apply reads_some_length |]; intros ? _
  | |- reads _ (VmDnsGetDomainNameLength _ _) _ => by apply reads_some_length
  | |- reads _ (rbind (rbind _ _) _) _ => eapply (reads_bind _ _ _ (λ _, True)); [| intros ? _]
  | |- reads _ (rbind (rret _) _) _ => eapply (reads_bind _ _ _ (λ _, True)); [by apply reads_ret | intros ? _]
  | |- reads _ (if _ =? 0 then _ else _) _ => destruct (_ =? 0)
  | |- reads _ (rfail _) _ => apply reads_fail
  | |- reads _ (rret _) _ => apply reads_ret
  end.

Lemma reads_ip6 n : reads safe_message (read_ip6 n) (λ bs, length bs = n ∧ bytes bs).
Proof.
  induction n as [|n IH]; cbn [read_ip6]; [by apply reads_ret |].
  eapply reads_bind; [exact _ | apply reads_uchar; exact _ |]. cbv beta. intros x Hx.
  eapply reads_bind; [exact _ | exact IH |]. intros bs [Hl Hb]. apply reads_ret. split; [cbn; lia | by constructor].
Qed.

Lemma reads_data m raw : reads safe_message (deserialize_data inet_pton m raw)
  (λ d, data_methods d = Some m ∧ data_typed d ∧ data_raw raw d).
Proof.
  destruct m; cbn [deserialize_data];
    [unfold VmDnsDeserializeDnsSoaRecord, VmDnsSoaGetRDataLength | unfold VmDnsDeserializeDnsSrvRecord, VmDnsSrvGetRDataLength
    | unfold VmDnsDeserializeDnsCNameRecord, VmDnsCNameRecordGetRDataLength
    | unfold VmDnsDeserializeDnsNSRecord, VmDnsNSRecordGetRDataLength
    | unfold VmDnsDeserializeDnsPtrRecord, VmDnsPtrRecordGetRDataLength
    | unfold VmDnsDeserializeDnsAddressRecord | unfold VmDnsDeserializeDnsIp6AddressRecord
    | unfold VmDnsDeserializeDnsTkeyRecord
    | unfold VmDnsDeserializeDnsTsigRecord, VmDnsTsigRecordGetRDataLength, blob_size;
      cbn [pSignature tsig_pOtherData tsig_pNameAlgorithm] ];
    repeat reads_step; try exact I;
    try (split; [done |]; split; [| exact I]; cbn [data_typed]; unfold read_str, read_blob; cbn; first [split_and!; by eauto | by eauto]).
  - split; [done |]. split; [| done]. split; [by rewrite length_replicate |]. apply Forall_replicate. unfold is_byte. lia.
  - eapply reads_bind; [exact _ | apply reads_ip6 |]. intros bs Hbs. by apply reads_ret.
  - split; [done |]. split; [| done]. cbn [data_typed]. unfold read_str, read_blob, is_u64 in *.
    cbn -[VMDNS_TSIG_GET_CREATE_TIME VMDNS_TSIG_GET_FUDGE_TIME].
    pose proof (create_time_range a1 ltac:(lia)). pose proof (fudge_time_range a1 ltac:(lia)).
    do 6 (split; [by eauto |]). by eauto.
Qed.

(** A record that is read from a message of [len] bytes at or behind [start];
    a signature knows the offset of its record. *)
Definition message_from (start len : Z) (b : dns_buffer) : Prop :=
  safe_message b ∧ start <= szCursor b ∧ szLength b = len.

#[export] Instance message_from_cond start len : MessageCond (message_from start len).
Proof. intros b c (Hs & Hc & Hl) Hle. split_and!; [done | cbn; lia | done]. Qed.

Definition raw_within (start len : Z) (r : dns_record) : Prop :=
  match Data r with D_TSIG t => ∃ p, pRawTsigPtr t = Some p ∧ start <= p <= len | _ => True end.

Lemma reads_record start len :
  reads (message_from start len) (VmDnsReadRecordFromBuffer inet_pton) (λ r, record_typed r ∧ raw_within start len r).
Proof.
  unfold VmDnsReadRecordFromBuffer. eapply reads_bind; [exact _ | by apply reads_alloc |]. intros _ _.
  apply reads_get. intros b Hb (_ & Hst & Hlen). eapply (reads_under safe_message); [by intros ? [] |].
  cbv zeta. repeat reads_step.
  eapply (reads_bind _ _ _ (λ d, data_methods d = VmDnsFindRecordMethods a0 ∧ data_typed d ∧
    data_raw (if a0 =? VMDNS_RR_MTYPE_TSIG then Some (szCursor b) else None) d)).
  - destruct (VmDnsFindRecordMethods a0) as [m|]; [apply reads_data | by apply reads_ret].
  - intros d (Hm & Hd & Hraw). apply reads_ret. unfold record_typed, raw_within, read_str. cbn.
    split; [split_and!; eauto; try done |].
    + unfold is_u32 in *; unfold s32; rewrite Z.mod_small by done; destruct (Z.ltb_spec a2 (2 ^ 31)); lia.
    + unfold is_u32 in *; unfold s32; rewrite Z.mod_small by done; destruct (Z.ltb_spec a2 (2 ^ 31)); lia.
    + rewrite (methods_tsig a0 d (eq_sym Hm)) in Hraw. destruct d; try done. cbn in Hraw.
      exists (szCursor b). pose proof (wf_cursor b Hb). split; [done | lia].
Qed.

End Bounds.

(** ** Records on their own *)

Lemma record_wire_pos tok r : 0 < zlen (record_wire tok r).
Proof. unfold record_wire. rewrite !length_app, !enc_length. lia. Qed.

(** A record that is stored and read again, in label or in string form
    and whatever flag the reader is given, is the same record with its names
    in the form the reader gives them. *)
Theorem stored_record {St} inet_pton tok fl r (s : St) e :
  record_ok tok r → 3 * zlen (record_wire tok r) <= VMDNS_MAX_SIZE_BUFFER → quiet e →
  ∃ e' e2, VmDnsSerializeDnsRecord r tok s e = Some (inr (record_wire tok r), s, e') ∧
    VmDnsDeserializeDnsRecord inet_pton (record_wire tok r) fl s e' = Some (inr (record_norm tok 0 r), s, e2) ∧ quiet e2.
Proof.
  intros Hr Hl He. pose proof (record_wire_pos tok r).
  destruct (emit_message tok _ _ s e (emits_record tok r Hr)) as (x & e' & Hx & Hq & Hout); [done |].
  destruct x as [err | x]; [by destruct Hout |]. destruct Hout as [-> Hb].
  destruct (consume_message fl _ _ _ s e' (consumes_record inet_pton fl tok r Hr)) as (e2 & He2 & Hq2);
    [done | unfold VMDNS_MAX_SIZE_BUFFER in *; lia | auto |].
  exists e', e2. split_and!; [exact Hx | | done]. unfold VmDnsDeserializeDnsRecord.
  by rewrite (proj2 (Z.eqb_neq _ _)) by lia.
Qed.

Definition stored_a : dns_record := DNS_RECORD (Some [97; 46; 98]) VMDNS_RR_TYPE_A 1 300 (D_A 0x0A000001).

Lemma stored_a_ok : record_ok false stored_a.
Proof.
  split; [| by split_and!]. split_and!; [..| done]; forall_list.
Qed.

Lemma stored_record_witness : ∃ e' e2,
  VmDnsSerializeDnsRecord stored_a false tt [] = Some (inr (record_wire false stored_a), tt, e') ∧
  VmDnsDeserializeDnsRecord (λ _ _, false) (record_wire false stored_a) false tt e' =
    Some (inr (record_norm false 0 stored_a), tt, e2) ∧ quiet e2.
Proof. apply (stored_record (λ _ _, false) false false stored_a tt []); [exact stored_a_ok | vm_compute; discriminate | constructor]. Defined.

(** C35: reading a record from bytes whose name pointers are safe returns, and
    a record that is returned is well typed: the data is the member the type
    selects, every field is in the range of its C type, names have at most 256
    characters without NUL and blobs have their size. *)
Theorem record_from_bytes_typed {St} inet_pton msg fl (s : St) e :
  bytes msg → zlen msg <= 2 ^ 32 → pointers_ok msg = true →
  ∃ r e', VmDnsDeserializeDnsRecord inet_pton msg fl s e = Some (r, s, e') ∧
    match r with inr x => record_typed x | inl _ => True end.
Proof.
  intros Hb Hl Hp. unfold VmDnsDeserializeDnsRecord. destruct (Z.eqb_spec (zlen msg) 0) as [H0 | H0]; [by eexists (inl _), _ |].
  destruct (read_message fl _ _ msg _ s e (reads_record inet_pton 0 (zlen msg))) as (r & e' & Hr & HP); [| done | lia |].
  { split_and!; [| done | done]. unfold safe_message. by rewrite in_buffer_contents. }
  exists r, e'. split; [exact Hr |]. destruct r; [done | by destruct HP].
Qed.

Definition stored_bytes : list Z := [1; 97; 1; 98; 0; 0; 1; 0; 1; 0; 0; 1; 44; 0; 4; 10; 0; 0; 1].

Lemma record_from_bytes_typed_witness : ∃ r e',
  VmDnsDeserializeDnsRecord (λ _ _, false) stored_bytes true tt [] = Some (r, tt, e') ∧
    match r with inr x => record_typed x | inl _ => True end.
Proof.
  apply (record_from_bytes_typed (λ _ _, false) stored_bytes true tt []);
    [unfold stored_bytes; forall_list | vm_compute; discriminate | reflexivity].
Defined.

(** The length written in front of the data of a record in label form is
    the number of bytes that follow it, for every record type. *)
Theorem rdlength_exact m d : fields_ok true d → data_methods d = Some m →
  emits true (serialize_data m d) (enc 2 (zlen (data_wire true d)) ++ data_wire true d) tt.
Proof.
  intros Hf Hm. rewrite <- data_len_wire by (done || by rewrite Hm). by apply emits_data.
Qed.

Lemma rdlength_exact_witness :
  emits true (serialize_data M_A (D_A 1)) (enc 2 (zlen (data_wire true (D_A 1))) ++ data_wire true (D_A 1)) tt.
Proof. apply (rdlength_exact M_A (D_A 1)); [split; vm_compute; [discriminate | reflexivity] | reflexivity]. Defined.

(** In string form the terminating byte and the length byte of a name are not
    counted. *)
Example rdlength_string_form :
  VmDnsSerializeDnsRecord (DNS_RECORD (Some [97]) VMDNS_RR_TYPE_NS 1 0 (D_NS (Some [98; 99]))) false tt [] =
  Some (inr [1; 97; 0; 0; 2; 0; 1; 0; 0; 0; 0; 0; 2; 2; 98; 99; 0], tt, []).
Proof. by vm_compute. Qed.
