(* ===== verification/DnsRecordOps.v ===== *)
(** * DnsRecordOps: comparing, validating and copying resource records

    [VmDnsCompareRecord], [VmDnsMatchRecord], [VmDnsValidateRecord],
    [VmDnsCopyRecord] and [VmDnsDuplicateRecord] of [vmdns/common/record.c] and
    the functions of [record-*.c] they dispatch to.  The comparison of strings
    is a function of the runtime library and a parameter of the model. *)

From S2P Require Import Prelude Heap Effects DnsBuffer DnsName DnsRecord.

Open Scope Z_scope.

(** ** Strings *)

(** [tolower] in the C locale. *)
Definition lower (c : Z) : Z := if (65 <=? c) && (c <=? 90) then c + 32 else c.

(** [LwRtlCStringCompare]: 0 exactly for equal strings, up to ASCII case when
    the comparison is not case sensitive. *)
Class StringCompare := {
  LwRtlCStringCompare : list Z → list Z → bool → Z;
  string_compare_exact s t : LwRtlCStringCompare s t true = 0 ↔ s = t;
  string_compare_caseless s t : LwRtlCStringCompare s t false = 0 ↔ map lower s = map lower t
}.

Section Compare.
Context `{StringCompare}.

Definition VmDnsStringCompareA (pszStr1 pszStr2 : dns_string) (bIsCaseSensitive : bool) : Z :=
  match pszStr1, pszStr2 with
  | None, None => 0
  | None, _ => 1
  | _, None => -1
  | Some s, Some t => LwRtlCStringCompare s t bIsCaseSensitive
  end.

(** ** Comparison *)

Definition VmDnsMatchRecordCommon (r1 r2 : dns_record) : bool :=
  if negb (dwType r1 =? VMDNS_RR_QTYPE_ANY) && negb (dwType r1 =? dwType r2) then false
  else if negb (iClass r1 =? VMDNS_CLASS_NONE) && negb (iClass r1 =? iClass r2) then false
  else VmDnsStringCompareA (pszName r1) (pszName r2) true =? 0.

Definition VmDnsCompareRecordCommon (r1 r2 : dns_record) : bool := VmDnsMatchRecordCommon r1 r2.

(** The member of the data the type selects is compared when the common part
    agrees; [None] is the use of another member. *)
Definition same_name (s t : dns_string) : bool := VmDnsStringCompareA s t false =? 0.

Definition VmDnsCompareAddressRecord (r1 r2 : dns_record) : option bool :=
  if VmDnsCompareRecordCommon r1 r2
  then match Data r1, Data r2 with D_A x, D_A y => Some (x =? y) | _, _ => None end
  else Some false.
Definition VmDnsCompareIp6AddressRecord (r1 r2 : dns_record) : option bool :=
  if VmDnsCompareRecordCommon r1 r2
  then match Data r1, Data r2 with D_AAAA x, D_AAAA y => Some (bool_decide (take 16 x = take 16 y)) | _, _ => None end
  else Some false.
Definition VmDnsCompareCNameRecord (r1 r2 : dns_record) : option bool :=
  if VmDnsCompareRecordCommon r1 r2
  then match Data r1, Data r2 with D_CNAME x, D_CNAME y => Some (same_name x y) | _, _ => None end
  else Some false.
Definition VmDnsCompareNSRecord (r1 r2 : dns_record) : option bool :=
  if VmDnsCompareRecordCommon r1 r2
  then match Data r1, Data r2 with D_NS x, D_NS y => Some (same_name x y) | _, _ => None end
  else Some false.
Definition VmDnsComparePtrRecord (r1 r2 : dns_record) : option bool :=
  if VmDnsCompareRecordCommon r1 r2
  then match Data r1, Data r2 with D_PTR x, D_PTR y => Some (same_name x y) | _, _ => None end
  else Some false.
Definition VmDnsCompareSoaRecord (r1 r2 : dns_record) : option bool :=
  if VmDnsCompareRecordCommon r1 r2
  then match Data r1, Data r2 with D_SOA x, D_SOA y => Some (same_name (pNameAdministrator x) (pNameAdministrator y) && same_name (pNamePrimaryServer x) (pNamePrimaryServer y) &&
      (dwDefaultTtl x =? dwDefaultTtl y) && (dwExpire x =? dwExpire y) && (dwRefresh x =? dwRefresh y) &&
      (dwRetry x =? dwRetry y) && (dwSerialNo x =? dwSerialNo y)) | _, _ => None end
  else Some false.
Definition VmDnsMatchSoaRecord (r1 r2 : dns_record) : option bool :=
  if VmDnsMatchRecordCommon r1 r2
  then match Data r1, Data r2 with D_SOA x, D_SOA y => Some (same_name (pNameAdministrator x) (pNameAdministrator y) && same_name (pNamePrimaryServer x) (pNamePrimaryServer y) &&
      (dwDefaultTtl x =? dwDefaultTtl y) && (dwExpire x =? dwExpire y) && (dwRefresh x =? dwRefresh y) &&
      (dwRetry x =? dwRetry y) && (dwSerialNo x =? dwSerialNo y)) | _, _ => None end
  else Some false.
Definition VmDnsCompareSrvRecord (r1 r2 : dns_record) : option bool :=
  if VmDnsCompareRecordCommon r1 r2
  then match Data r1, Data r2 with D_SRV x, D_SRV y => Some (same_name (pNameTarget x) (pNameTarget y) && (wPort x =? wPort y) &&
      (wPriority x =? wPriority y) && (wWeight x =? wWeight y)) | _, _ => None end
  else Some false.
Definition VmDnsMatchSrvRecord (r1 r2 : dns_record) : option bool :=
  if VmDnsMatchRecordCommon r1 r2
  then match Data r1, Data r2 with D_SRV x, D_SRV y => Some (same_name (pNameTarget x) (pNameTarget y)) | _, _ => None end
  else Some false.
Definition VmDnsCompareTkeyRecord (r1 r2 : dns_record) : option bool := Some false.
Definition VmDnsCompareTsigRecord (r1 r2 : dns_record) : option bool := Some false.

(** [pfnCompare] and [pfnMatch] of a row. *)
Definition pfnCompare (m : rr_methods) : dns_record → dns_record → option bool :=
  match m with
  | M_SOA => VmDnsCompareSoaRecord | M_SRV => VmDnsCompareSrvRecord | M_CNAME => VmDnsCompareCNameRecord
  | M_NS => VmDnsCompareNSRecord | M_PTR => VmDnsComparePtrRecord | M_A => VmDnsCompareAddressRecord
  | M_AAAA => VmDnsCompareIp6AddressRecord | M_TKEY => VmDnsCompareTkeyRecord | M_TSIG => VmDnsCompareTsigRecord
  end.
Definition pfnMatch (m : rr_methods) : dns_record → dns_record → option bool :=
  match m with M_SOA => VmDnsMatchSoaRecord | M_SRV => VmDnsMatchSrvRecord | _ => pfnCompare m end.

(** For a type without methods the error code is returned as the result, which
    is not 0 and so true. *)
Definition VmDnsCompareRecord (r1 r2 : dns_record) : option bool :=
  match VmDnsFindRecordMethods (dwType r1) with Some m => pfnCompare m r1 r2 | None => Some true end.

Definition VmDnsMatchRecord (r1 r2 : dns_record) : option bool :=
  match VmDnsFindRecordMethods (dwType r1) with Some m => pfnMatch m r1 r2 | None => Some true end.

End Compare.

(** ** Validation *)

(** [strlen] of NULL is undefined. *)
Definition short_name (s : dns_string) : option bool := option_map (λ s : list Z, zlen s <=? VMDNS_NAME_LENGTH_MAX) s.

Definition VmDnsValidateRecordCommon (r : dns_record) : option bool :=
  option_map (λ b : bool, b && (iClass r =? VMDNS_CLASS_IN)) (short_name (pszName r)).

(** [a && b] where [b] is only evaluated when [a] holds. *)
Definition and_then (a b : option bool) : option bool := a ≫= λ x : bool, if x then b else Some false.

Definition VmDnsValidateSoaRecord (r : dns_record) : option bool :=
  and_then (VmDnsValidateRecordCommon r)
    (match Data r with
     | D_SOA d => and_then (short_name (pNameAdministrator d)) (short_name (pNamePrimaryServer d))
     | _ => None
     end).
Definition VmDnsValidateSrvRecord (r : dns_record) : option bool :=
  and_then (VmDnsValidateRecordCommon r) (match Data r with D_SRV d => short_name (pNameTarget d) | _ => None end).
Definition VmDnsValidateCNameRecord (r : dns_record) : option bool :=
  and_then (VmDnsValidateRecordCommon r) (match Data r with D_CNAME h => short_name h | _ => None end).
Definition VmDnsValidateNSRecord (r : dns_record) : option bool :=
  and_then (VmDnsValidateRecordCommon r) (match Data r with D_NS h => short_name h | _ => None end).
Definition VmDnsValidatePtrRecord (r : dns_record) : option bool :=
  and_then (VmDnsValidateRecordCommon r) (match Data r with D_PTR h => short_name h | _ => None end).
Definition VmDnsValidateAddressRecord (r : dns_record) : option bool := VmDnsValidateRecordCommon r.
Definition VmDnsValidateIp6AddressRecord (r : dns_record) : option bool := VmDnsValidateRecordCommon r.
Definition VmDnsValidateTkeyRecord (r : dns_record) : option bool :=
  and_then (short_name (pszName r))
    (if (dwType r =? VMDNS_RR_MTYPE_TKEY) && (iClass r =? VMDNS_CLASS_ANY) && (dwTtl r =? 0)
     then match Data r with D_TKEY d => short_name (tkey_pNameAlgorithm d) | _ => None end else Some false).
Definition VmDnsValidateTsigRecord (r : dns_record) : option bool :=
  and_then (short_name (pszName r))
    (if (dwType r =? VMDNS_RR_MTYPE_TSIG) && (iClass r =? VMDNS_CLASS_ANY) && (dwTtl r =? 0)
     then match Data r with D_TSIG d => short_name (tsig_pNameAlgorithm d) | _ => None end else Some false).

Definition VmDnsValidateRecord (r : dns_record) : option bool :=
  match VmDnsFindRecordMethods (dwType r) with
  | None => Some false
  | Some M_SOA => VmDnsValidateSoaRecord r
  | Some M_SRV => VmDnsValidateSrvRecord r
  | Some M_CNAME => VmDnsValidateCNameRecord r
  | Some M_NS => VmDnsValidateNSRecord r
  | Some M_PTR => VmDnsValidatePtrRecord r
  | Some M_A => VmDnsValidateAddressRecord r
  | Some M_AAAA => VmDnsValidateIp6AddressRecord r
  | Some M_TKEY => VmDnsValidateTkeyRecord r
  | Some M_TSIG => VmDnsValidateTsigRecord r
  end.

(** ** Copies *)

Section Copy.
Context {St : Type}.

(** [VmDnsAllocateStringA] of a string that may be NULL. *)
Definition dup_string (s : dns_string) : RM St dns_string :=
  match s with
  | None => rret None
  | Some s => new <- VmDnsAllocateStringA (s ++ [0]) ;; t <- rlift (cstring new) ;; rret (Some t)
  end.

(** A copy whose error is not looked at: the destination stays NULL. *)
Definition dup_string_unchecked (s : dns_string) : RM St dns_string :=
  r <- rtry (dup_string s) ;; rret (match r with inr s => s | inl _ => None end).

Definition VmDnsCopyBlob (x : option dns_blob) : RM St (option dns_blob) :=
  match x with
  | None => rfail ERROR_INVALID_PARAMETER
  | Some b =>
      new <- VmDnsAllocateBlob (unSize b) ;;
      d <- VmDnsCopyMemory (default [] (pData new)) 0 (unSize new) (default [] (pData b)) (unSize b) ;;
      rret (Some (BLOB (unSize new) (option_map (λ _, d) (pData new))))
  end.

Definition VmDnsCopyAddressRecord (r : dns_record) (a : Z) : RM St dns_record :=
  n <- dup_string (pszName r) ;; rret (DNS_RECORD n (dwType r) (iClass r) (dwTtl r) (D_A a)).
Definition VmDnsCopyIp6AddressRecord (r : dns_record) (a : list Z) : RM St dns_record :=
  n <- dup_string_unchecked (pszName r) ;;
  bs <- VmDnsCopyMemory (replicate 16 0) 0 16 a 16 ;;
  rret (DNS_RECORD n (dwType r) (iClass r) (dwTtl r) (D_AAAA bs)).
Definition copy_host (mk : dns_string → rdata) (r : dns_record) (h : dns_string) : RM St dns_record :=
  n <- dup_string_unchecked (pszName r) ;;
  h' <- dup_string_unchecked h ;;
  rret (DNS_RECORD n (dwType r) (iClass r) (dwTtl r) (mk h')).
Definition VmDnsCopyCNameRecord : dns_record → dns_string → RM St dns_record := copy_host D_CNAME.
Definition VmDnsCopyNSRecord : dns_record → dns_string → RM St dns_record := copy_host D_NS.
Definition VmDnsCopyPtrRecord : dns_record → dns_string → RM St dns_record := copy_host D_PTR.
Definition VmDnsCopySoaRecord (r : dns_record) (d : soa_data) : RM St dns_record :=
  n <- dup_string_unchecked (pszName r) ;;
  a <- dup_string_unchecked (pNameAdministrator d) ;;
  p <- dup_string_unchecked (pNamePrimaryServer d) ;;
  rret (DNS_RECORD n (dwType r) (iClass r) (dwTtl r)
    (D_SOA (SOA_DATA p a (dwSerialNo d) (dwRefresh d) (dwRetry d) (dwExpire d) (dwDefaultTtl d)))).
Definition VmDnsCopySrvRecord (r : dns_record) (d : srv_data) : RM St dns_record :=
  n <- dup_string_unchecked (pszName r) ;;
  t <- dup_string_unchecked (pNameTarget d) ;;
  rret (DNS_RECORD n (dwType r) (iClass r) (dwTtl r) (D_SRV (SRV_DATA t (wPriority d) (wWeight d) (wPort d)))).
Definition VmDnsCopyTkeyRecord (r : dns_record) (d : tkey_data) : RM St dns_record :=
  n <- dup_string (pszName r) ;;
  a <- dup_string (tkey_pNameAlgorithm d) ;;
  k <- VmDnsCopyBlob (pKey d) ;;
  o <- VmDnsCopyBlob (tkey_pOtherData d) ;;
  rret (DNS_RECORD n (dwType r) (iClass r) (dwTtl r)
    (D_TKEY (TKEY_DATA a k o (dwCreateTime d) (dwExpireTime d) (wMode d) (tkey_wError d)))).
Definition VmDnsCopyTsigRecord (r : dns_record) (d : tsig_data) : RM St dns_record :=
  n <- dup_string (pszName r) ;;
  a <- dup_string (tsig_pNameAlgorithm d) ;;
  s <- VmDnsCopyBlob (pSignature d) ;;
  o <- VmDnsCopyBlob (tsig_pOtherData d) ;;
  rret (DNS_RECORD n (dwType r) (iClass r) (dwTtl r)
    (D_TSIG (TSIG_DATA a s o (unCreateTime d) (wFudgeTime d) (wOriginalXid d) (tsig_wError d) None))).

(** [pfnCopy] of the row of the type. *)
Definition VmDnsCopyRecord (r : dns_record) : RM St dns_record :=
  match VmDnsFindRecordMethods (dwType r), Data r with
  | None, _ => rfail ERROR_INVALID_PARAMETER
  | Some M_SOA, D_SOA d => VmDnsCopySoaRecord r d
  | Some M_SRV, D_SRV d => VmDnsCopySrvRecord r d
  | Some M_CNAME, D_CNAME h => VmDnsCopyCNameRecord r h
  | Some M_NS, D_NS h => VmDnsCopyNSRecord r h
  | Some M_PTR, D_PTR h => VmDnsCopyPtrRecord r h
  | Some M_A, D_A a => VmDnsCopyAddressRecord r a
  | Some M_AAAA, D_AAAA a => VmDnsCopyIp6AddressRecord r a
  | Some M_TKEY, D_TKEY d => VmDnsCopyTkeyRecord r d
  | Some M_TSIG, D_TSIG d => VmDnsCopyTsigRecord r d
  | _, _ => rub
  end.

(** The duplicate of every type is a new record that is copied to. *)
Definition VmDnsDuplicateRecord (r : dns_record) : RM St dns_record :=
  match VmDnsFindRecordMethods (dwType r) with
  | None => rfail ERROR_INVALID_PARAMETER
  | Some _ => VmDnsAllocateMemory 112 ;;; VmDnsCopyRecord r
  end.

(** [VmDnsCopyRecords] of [dnsutils.c]. *)
Fixpoint copy_each (l : list dns_record) : RM St (list dns_record) :=
  match l with
  | [] => rret []
  | r :: l => x <- VmDnsDuplicateRecord r ;; y <- copy_each l ;; rret (x :: y)
  end.

Definition VmDnsCopyRecords (arr : option (list dns_record)) (dwCount : Z) : RM St (option (list dns_record)) :=
  if dwCount =? 0 then rret None
  else
    VmDnsAllocateMemory (112 * dwCount) ;;;
    match arr with
    | Some l => if zlen l <? dwCount then rub else x <- copy_each (take (Z.to_nat dwCount) l) ;; rret (Some x)
    | None => rub
    end.

End Copy.

Definition VmDnsIsSupportedRecordType (t : Z) : bool :=
  (t =? VMDNS_RR_TYPE_A) || (t =? VMDNS_RR_TYPE_AAAA) || (t =? VMDNS_RR_TYPE_CNAME) || (t =? VMDNS_RR_TYPE_NS) ||
  (t =? VMDNS_RR_TYPE_SOA) || (t =? VMDNS_RR_TYPE_SRV) || (t =? VMDNS_RR_TYPE_PTR) || (t =? VMDNS_RR_QTYPE_ANY).

Definition VMDNS_RR_QTYPE_AXFR : Z := 0xFC.
Definition VMDNS_RR_QTYPE_MAILB : Z := 0xFD.
Definition VMDNS_RR_QTYPE_MAILA : Z := 0xFE.
Definition VMDNS_RR_MTYPE_OPT : Z := 0x29.

Definition VmDnsIsRecordQType (t : Z) : bool :=
  (t =? VMDNS_RR_QTYPE_AXFR) || (t =? VMDNS_RR_QTYPE_MAILB) || (t =? VMDNS_RR_QTYPE_MAILA) || (t =? VMDNS_RR_QTYPE_ANY).
Definition VmDnsIsRecordMType (t : Z) : bool :=
  (t =? VMDNS_RR_MTYPE_OPT) || (t =? VMDNS_RR_MTYPE_TKEY) || (t =? VMDNS_RR_MTYPE_TSIG).

(** ** What the comparison decides *)

(** The data with its names in lower case. *)
Definition fold_name (n : dns_string) : dns_string := option_map (map lower) n.
Definition data_key (d : rdata) : rdata :=
  match d with
  | D_NS h => D_NS (fold_name h)
  | D_PTR h => D_PTR (fold_name h)
  | D_CNAME h => D_CNAME (fold_name h)
  | D_SOA d => D_SOA (SOA_DATA (fold_name (pNamePrimaryServer d)) (fold_name (pNameAdministrator d))
      (dwSerialNo d) (dwRefresh d) (dwRetry d) (dwExpire d) (dwDefaultTtl d))
  | D_SRV d => D_SRV (SRV_DATA (fold_name (pNameTarget d)) (wPriority d) (wWeight d) (wPort d))
  | _ => d
  end.

(** A record without its time to live. *)
Definition record_key (r : dns_record) : dns_string * Z * Z * rdata :=
  (pszName r, dwType r, iClass r, data_key (Data r)).

(** A record of a type that is stored, with the member its type selects. *)
Definition stored_type (r : dns_record) : Prop :=
  VmDnsFindRecordMethods (dwType r) = data_methods (Data r) ∧
  match Data r with D_TKEY _ | D_TSIG _ | D_NONE => False | D_AAAA bs => length bs = 16%nat | _ => True end.

Section CompareLaws.
Context `{StringCompare}.

Lemma compare_name_exact s t : VmDnsStringCompareA s t true = 0 ↔ s = t.
Proof.
  destruct s as [s|], t as [t|]; cbn; try done. rewrite string_compare_exact. (split; intros; intuition congruence).
Qed.

Lemma same_name_spec s t : same_name s t = true ↔ fold_name s = fold_name t.
Proof.
  unfold same_name, fold_name. destruct s as [s|], t as [t|]; cbn; try done.
  rewrite Z.eqb_eq, string_compare_caseless. (split; intros; intuition congruence).
Qed.

Lemma common_spec r1 r2 : dwType r1 ≠ VMDNS_RR_QTYPE_ANY → iClass r1 ≠ VMDNS_CLASS_NONE →
  VmDnsCompareRecordCommon r1 r2 = true ↔ pszName r1 = pszName r2 ∧ dwType r1 = dwType r2 ∧ iClass r1 = iClass r2.
Proof.
  intros Ht Hc. unfold VmDnsCompareRecordCommon, VmDnsMatchRecordCommon.
  rewrite (proj2 (Z.eqb_neq _ _) Ht), (proj2 (Z.eqb_neq _ _) Hc). cbn [negb andb].
  destruct (Z.eqb_spec (dwType r1) (dwType r2)) as [E1|]; cbn; [| (split; intros; intuition congruence)].
  destruct (Z.eqb_spec (iClass r1) (iClass r2)) as [E2|]; cbn; [| (split; intros; intuition congruence)].
  rewrite Z.eqb_eq, compare_name_exact. (split; intros; intuition congruence).
Qed.

(** The member that is compared. *)
Definition data_same (d1 d2 : rdata) : option bool :=
  match d1, d2 with
  | D_A x, D_A y => Some (x =? y)
  | D_AAAA x, D_AAAA y => Some (bool_decide (take 16 x = take 16 y))
  | D_CNAME x, D_CNAME y | D_NS x, D_NS y | D_PTR x, D_PTR y => Some (same_name x y)
  | D_SOA x, D_SOA y => Some (same_name (pNameAdministrator x) (pNameAdministrator y) &&
      same_name (pNamePrimaryServer x) (pNamePrimaryServer y) && (dwDefaultTtl x =? dwDefaultTtl y) &&
      (dwExpire x =? dwExpire y) && (dwRefresh x =? dwRefresh y) && (dwRetry x =? dwRetry y) && (dwSerialNo x =? dwSerialNo y))
  | D_SRV x, D_SRV y => Some (same_name (pNameTarget x) (pNameTarget y) && (wPort x =? wPort y) &&
      (wPriority x =? wPriority y) && (wWeight x =? wWeight y))
  | _, _ => None
  end.

Lemma data_same_spec r1 r2 : stored_type r1 → stored_type r2 → dwType r1 = dwType r2 →
  ∃ b, data_same (Data r1) (Data r2) = Some b ∧ (b = true ↔ data_key (Data r1) = data_key (Data r2)).
Proof.
  intros [Hm1 H1] [Hm2 H2] Ht. rewrite Ht, Hm2 in Hm1.
  destruct (Data r1) as [x | x | x | x | x | x | x | | |], (Data r2) as [y | y | y | y | y | y | y | | |]; try done;
    cbn [data_same data_key]; eexists; (split; [reflexivity |]).
  - rewrite Z.eqb_eq. (split; intros; intuition congruence).
  - rewrite bool_decide_eq_true, !take_ge by lia. (split; intros; intuition congruence).
  - rewrite same_name_spec. (split; intros; intuition congruence).
  - rewrite same_name_spec. (split; intros; intuition congruence).
  - rewrite same_name_spec. (split; intros; intuition congruence).
  - rewrite !andb_true_iff, !Z.eqb_eq, !same_name_spec. destruct x, y; cbn. (split; intros; intuition congruence).
  - rewrite !andb_true_iff, !Z.eqb_eq, same_name_spec. destruct x, y; cbn. (split; intros; intuition congruence).
Qed.

Lemma compare_record_run r1 r2 : stored_type r1 →
  VmDnsCompareRecord r1 r2 = if VmDnsCompareRecordCommon r1 r2 then data_same (Data r1) (Data r2) else Some false.
Proof.
  intros [Hm Hd]. unfold VmDnsCompareRecord. rewrite Hm.
  destruct (Data r1) as [x | x | x | x | x | x | x | | |] eqn:E; try done; cbn [data_methods pfnCompare];
    unfold VmDnsCompareAddressRecord, VmDnsCompareIp6AddressRecord, VmDnsCompareCNameRecord, VmDnsCompareNSRecord,
      VmDnsComparePtrRecord, VmDnsCompareSoaRecord, VmDnsCompareSrvRecord; rewrite E; by destruct (Data r2).
Qed.

Lemma stored_type_not_any r : stored_type r → dwType r ≠ VMDNS_RR_QTYPE_ANY.
Proof. intros [Hm Hd] E. rewrite E in Hm. by destruct (Data r). Qed.

(** Comparing two stored records returns, and says whether they are the
    same record: equal name, type and class, and equal data up to the case of
    the names in it; the time to live does not count. *)
Theorem compare_record_decides r1 r2 : stored_type r1 → stored_type r2 → iClass r1 ≠ VMDNS_CLASS_NONE →
  ∃ b, VmDnsCompareRecord r1 r2 = Some b ∧ (b = true ↔ record_key r1 = record_key r2).
Proof.
  intros H1 H2 Hc. rewrite compare_record_run by done. pose proof (stored_type_not_any r1 H1) as Ht.
  unfold record_key. destruct (VmDnsCompareRecordCommon r1 r2) eqn:E.
  - apply common_spec in E as (En & Et & Ec); [| done | done].
    destruct (data_same_spec r1 r2 H1 H2 Et) as (b & -> & Hb). exists b. split; [done |]. rewrite Hb. split; [intros ->; congruence | by intros [= _ _ _ ->]].
  - exists false. split; [done |]. split; [done |]. intros [= En Et Ec _].
    rewrite <- not_true_iff_false in E. exfalso. by apply E, common_spec.
Qed.

End CompareLaws.

(** ** Copies *)

Definition name_clean (n : dns_string) : Prop := match n with Some s => nonzero s | None => True end.
Definition data_clean (d : rdata) : Prop :=
  match d with
  | D_AAAA bs => length bs = 16%nat
  | D_NS h | D_PTR h | D_CNAME h => name_clean h
  | D_SOA d => name_clean (pNamePrimaryServer d) ∧ name_clean (pNameAdministrator d)
  | D_SRV d => name_clean (pNameTarget d)
  | D_TKEY d => name_clean (tkey_pNameAlgorithm d) ∧ read_blob (pKey d) ∧ read_blob (tkey_pOtherData d)
  | D_TSIG d => name_clean (tsig_pNameAlgorithm d) ∧ read_blob (pSignature d) ∧ read_blob (tsig_pOtherData d)
  | D_A _ | D_NONE => True
  end.

(** What every function of the table needs: the member of its type, C strings
    without NUL, addresses and blobs of their size. *)
Definition copyable (r : dns_record) : Prop :=
  VmDnsFindRecordMethods (dwType r) = data_methods (Data r) ∧ Data r ≠ D_NONE ∧ name_clean (pszName r) ∧ data_clean (Data r).

(** The offset of a signature is not copied. *)
Definition forget_raw (d : rdata) : rdata :=
  match d with
  | D_TSIG t => D_TSIG (TSIG_DATA (tsig_pNameAlgorithm t) (pSignature t) (tsig_pOtherData t) (unCreateTime t)
      (wFudgeTime t) (wOriginalXid t) (tsig_wError t) None)
  | _ => d
  end.
Definition copied (r : dns_record) : dns_record := DNS_RECORD (pszName r) (dwType r) (iClass r) (dwTtl r) (forget_raw (Data r)).

Section CopyLaws.
Context {St : Type}.

(** A step that returns, and one that moreover succeeds when the allocator
    does. *)
Definition runs {A} (m : RM St A) : Prop := ∀ s e, ∃ r e', m s e = Some (r, s, e').
Definition makes {A} (m : RM St A) (a : A) : Prop :=
  runs m ∧ ∀ s e, quiet e → ∃ e', m s e = Some (inr a, s, e') ∧ quiet e'.

Lemma makes_ret {A} (a : A) : makes (rret a) a.
Proof. split; [intros s e; by exists (inr a), e | intros s e He; by exists e]. Qed.

Lemma runs_bind {A B} (m : RM St A) (k : A → RM St B) : runs m → (∀ x, runs (k x)) → runs (rbind m k).
Proof.
  intros Hm Hk s e. destruct (Hm s e) as (r & e1 & Hr). unfold rbind. rewrite Hr.
  destruct r as [err | x]; [by exists (inl err), e1 | apply Hk].
Qed.

Lemma makes_bind {A B} (m : RM St A) (k : A → RM St B) a b : makes m a → makes (k a) b → (∀ x, runs (k x)) → makes (rbind m k) b.
Proof.
  intros [Hm Hma] [_ Hk] Hany. split; [by apply runs_bind |]. intros s e He.
  destruct (Hma s e He) as (e1 & Hr & He1). unfold rbind. rewrite Hr. by apply Hk.
Qed.

Lemma makes_string n : name_clean n → makes (dup_string n) n.
Proof.
  destruct n as [t|]; [| intros _; apply makes_ret]. intros Ht. split.
  - intros s e. unfold dup_string, rbind. destruct (alloc_string_run (t ++ [0]) (until0 t) s e (cstring_block t)) as [-> | ->].
    + unfold rlift. rewrite cstring_block. by eexists _, _.
    + by eexists _, _.
  - intros s e He. unfold dup_string, rbind. destruct (alloc_string_ok (t ++ [0]) (until0 t) s e (cstring_block t) He) as (e' & -> & He').
    exists e'. unfold rlift. rewrite cstring_block, !until0_id by (rewrite ?until0_id; done). done.
Qed.

Lemma makes_unchecked n : name_clean n → makes (dup_string_unchecked n) n.
Proof.
  intros [Hr Hm]%makes_string. split.
  - intros s e. destruct (Hr s e) as (r & e' & Hrun). unfold dup_string_unchecked, rbind, rtry. rewrite Hrun. by eexists _, _.
  - intros s e He. destruct (Hm s e He) as (e' & Hrun & He'). exists e'. unfold dup_string_unchecked, rbind, rtry. by rewrite Hrun.
Qed.

Lemma makes_alloc n : 0 < n → makes (VmDnsAllocateMemory n) (replicate (Z.to_nat n) 0).
Proof.
  intros Hn. split.
  - intros s e. destruct (alloc_run n s e Hn) as [-> | ->]; by eexists _, _.
  - intros s e He. exists (tail e). rewrite alloc_ok by done. split; [done | by apply quiet_tail].
Qed.

Lemma copy_whole dst src n (s : St) e : zlen dst = n → zlen src = n → VmDnsCopyMemory dst 0 n src n s e = Some (inr src, s, e).
Proof. intros Hd Hs. rewrite copy_fill by lia. rewrite <- Hs, Nat2Z.id. by rewrite firstn_all. Qed.

Lemma makes_blob x : read_blob x → makes (VmDnsCopyBlob x) x.
Proof.
  intros (b & -> & Hb & Hl & Hlim & Hn). destruct b as [sz d]. unfold blob_data in *. cbn [unSize pData] in *.
  unfold VmDnsCopyBlob, VmDnsAllocateBlob. cbn [unSize pData]. destruct d as [d|]; cbn [from_option id] in Hl.
  - assert (sz ≠ 0) by (intros ?%Hn; done). rewrite (proj2 (Z.eqb_neq sz 0)) by done.
    assert (∀ s e, VmDnsCopyMemory (replicate (Z.to_nat sz) 0) 0 sz d sz s e = Some (inr d, s : St, e)) as Hc.
    { intros s e. apply copy_whole; [rewrite length_replicate |]; lia. }
    split; intros s e; [| intros He]; unfold rbind.
    + destruct (alloc_run 16 s e ltac:(done)) as [-> | ->]; [| by eexists _, _].
      destruct (alloc_run sz s (tail e) ltac:(lia)) as [-> | ->]; [| by eexists _, _].
      cbn [rret pData unSize from_option id]. rewrite Hc. by eexists _, _.
    + rewrite !alloc_ok by (lia || done || by apply quiet_tail). cbn [rret pData unSize from_option id]. rewrite Hc.
      eexists. split; [done | by do 2 apply quiet_tail].
  - rewrite (proj1 Hn eq_refl). cbn [Z.eqb]. split; intros s e; [| intros He]; unfold rbind.
    + destruct (alloc_run 16 s e ltac:(done)) as [-> | ->]; [| by eexists _, _].
      cbn [rret pData unSize from_option id]. rewrite copy_whole by done. by eexists _, _.
    + rewrite alloc_ok by done. cbn [rret pData unSize from_option id]. rewrite copy_whole by done.
      eexists. split; [done | by apply quiet_tail].
Qed.

Lemma makes_ip6 bs : length bs = 16%nat → makes (VmDnsCopyMemory (replicate 16 0) 0 16 bs 16) bs.
Proof.
  intros Hl. assert (∀ s e, VmDnsCopyMemory (replicate 16 0) 0 16 bs 16 s e = Some (inr bs, s : St, e)) as Hc.
  { intros s e. apply copy_whole; [done | lia]. }
  split; intros s e; rewrite Hc; by eauto.
Qed.

Ltac runs_all :=
  lazymatch goal with
  | |- ∀ _, runs _ => intros ?; runs_all
  | |- runs (rbind _ _) => apply runs_bind; [runs_all | runs_all]
  | |- runs (rret _) => apply (proj1 (makes_ret _))
  | |- runs (dup_string _) => refine (proj1 (makes_string _ _)); assumption
  | |- runs (dup_string_unchecked _) => refine (proj1 (makes_unchecked _ _)); assumption
  | |- runs (VmDnsCopyBlob _) => refine (proj1 (makes_blob _ _)); assumption
  | |- runs (VmDnsCopyMemory _ _ _ _ _) => refine (proj1 (makes_ip6 _ _)); assumption
  end.
Ltac makes_all :=
  lazymatch goal with
  | |- makes (rbind (dup_string _) _) _ => eapply makes_bind; [by apply makes_string | makes_all | runs_all]
  | |- makes (rbind (dup_string_unchecked _) _) _ => eapply makes_bind; [by apply makes_unchecked | makes_all | runs_all]
  | |- makes (rbind (VmDnsCopyBlob _) _) _ => eapply makes_bind; [by apply makes_blob | makes_all | runs_all]
  | |- makes (rbind (VmDnsCopyMemory _ _ _ _ _) _) _ => eapply makes_bind; [by apply makes_ip6 | makes_all | runs_all]
  | |- makes (rret _) _ => apply makes_ret
  end.

Lemma makes_record r : copyable r → makes (VmDnsCopyRecord r) (copied r).
Proof.
  intros (Hm & Hn & Hname & Hd). unfold VmDnsCopyRecord, copied. rewrite Hm.
  destruct (Data r) as [x | x | x | x | x | x | x | x | x |] eqn:E; try done; cbn [data_methods data_clean forget_raw] in *.
  - unfold VmDnsCopyAddressRecord. makes_all.
  - unfold VmDnsCopyIp6AddressRecord. makes_all.
  - unfold VmDnsCopyNSRecord, copy_host. makes_all.
  - unfold VmDnsCopyPtrRecord, copy_host. makes_all.
  - unfold VmDnsCopyCNameRecord, copy_host. makes_all.
  - destruct Hd. unfold VmDnsCopySoaRecord. destruct x. cbn in *. makes_all.
  - unfold VmDnsCopySrvRecord. destruct x. cbn in *. makes_all.
  - destruct Hd as (? & ? & ?). unfold VmDnsCopyTkeyRecord. destruct x. cbn in *. makes_all.
  - destruct Hd as (? & ? & ?). unfold VmDnsCopyTsigRecord. destruct x. cbn in *. makes_all.
Qed.

Lemma makes_duplicate r : copyable r → makes (VmDnsDuplicateRecord r) (copied r).
Proof.
  intros Hr. pose proof Hr as (Hm & Hn & _). unfold VmDnsDuplicateRecord. rewrite Hm. destruct (Data r); try done;
    (eapply makes_bind; [by apply makes_alloc | by apply makes_record | intros ?; by apply makes_record]).
Qed.

Lemma makes_each l : Forall copyable l → makes (copy_each l) (map copied l).
Proof.
  induction 1 as [|r l Hr _ IH]; cbn [copy_each map]; [apply makes_ret |].
  eapply makes_bind; [by apply makes_duplicate | |].
  - eapply makes_bind; [exact IH | apply makes_ret | intros ?; apply makes_ret].
  - intros x. apply runs_bind; [apply IH | intros ?; apply makes_ret].
Qed.

Lemma makes_records arr n : zlen (default [] arr) = n → (arr = None ↔ n = 0) → Forall copyable (default [] arr) →
  makes (VmDnsCopyRecords arr n) (option_map (map copied) arr).
Proof.
  intros Hl Hn Hc. unfold VmDnsCopyRecords. destruct (Z.eqb_spec n 0) as [H0 | H0].
  { rewrite (proj2 Hn H0). apply makes_ret. }
  destruct arr as [l|]; cbn in *; [| lia]. rewrite (proj2 (Z.ltb_ge _ _)) by lia. rewrite <- Hl, Nat2Z.id, firstn_all.
  assert (makes (x <- copy_each l ;; rret (Some x)) (Some (map copied l))) as Hm.
  { eapply makes_bind; [by apply makes_each | apply makes_ret | intros ?; apply makes_ret]. }
  eapply makes_bind; [apply makes_alloc; lia | exact Hm | intros ?; apply Hm].
Qed.

End CopyLaws.

(** Copying a record returns whatever the allocator does; when it gives
    memory the copy is the record, of every type, except that the offset of a
    signature in its message is not taken over. *)
Theorem copy_record_exact {St} r (s : St) e : copyable r →
  ∃ x e', VmDnsCopyRecord r s e = Some (x, s, e') ∧ (quiet e → x = inr (copied r)).
Proof.
  intros Hr. destruct (makes_record (St := St) r Hr) as [Hrun Hmk].
  destruct (Hrun s e) as (x & e' & Hx). exists x, e'. split; [done |]. intros He.
  destruct (Hmk s e He) as (e2 & H2 & _). congruence.
Qed.

(** ** Witnesses *)

(** A comparison with the documented behaviour. *)
Definition compare_bytes (s t : list Z) (cs : bool) : Z :=
  if cs then (if decide (s = t) then 0 else 1) else if decide (map lower s = map lower t) then 0 else 1.

#[local] Instance compare_bytes_ok : StringCompare.
Proof.
  refine {| LwRtlCStringCompare := compare_bytes |}; intros s t; unfold compare_bytes; by case_decide.
Defined.

Definition host_a : dns_record := DNS_RECORD (Some [97]) VMDNS_RR_TYPE_NS VMDNS_CLASS_IN 60 (D_NS (Some [110; 115])).
Definition host_b : dns_record := DNS_RECORD (Some [97]) VMDNS_RR_TYPE_NS VMDNS_CLASS_IN 300 (D_NS (Some [78; 115])).

Lemma compare_record_decides_witness :
  VmDnsCompareRecord host_a host_b = Some true ∧ record_key host_a = record_key host_b.
Proof.
  destruct (compare_record_decides host_a host_b) as (b & Hb & Hk); [split; done | split; done | discriminate |].
  assert (b = true) as -> by (vm_compute in Hb; by injection Hb). split; [exact Hb | by apply Hk].
Defined.

Lemma copy_record_exact_witness :
  ∃ x e', VmDnsCopyRecord host_a tt [0; 1] = Some (x, tt, e') ∧ (quiet [0; 1] → x = inr (copied host_a)).
Proof. apply (copy_record_exact host_a tt [0; 1]). split_and!; try done; vm_compute; forall_list. Defined.

(** Records of a type without methods are all the same to the comparison. *)
Example compare_unknown_type r1 r2 : VmDnsFindRecordMethods (dwType r1) = None → VmDnsCompareRecord r1 r2 = Some true.
Proof. intros Hm. unfold VmDnsCompareRecord. by rewrite Hm. Qed.

(** The copy of a name server record succeeds without its names when memory is
    refused; that of an address record fails. *)
Example copy_without_memory :
  VmDnsCopyRecord host_a tt [1; 1] = Some (inr (DNS_RECORD None VMDNS_RR_TYPE_NS VMDNS_CLASS_IN 60 (D_NS None)), tt, []) ∧
  VmDnsCopyRecord (DNS_RECORD (Some [97]) VMDNS_RR_TYPE_A VMDNS_CLASS_IN 60 (D_A 1)) tt [1] = Some (inl ERROR_NO_MEMORY, tt, []).
Proof. by vm_compute. Qed.
