(* ===== verification/DnsHashTable.v ===== *)
(** * DnsHashTable: the hash table of [vmdns/server/common/hashtable.c]

    The table that finds the cached names of a zone and the security contexts:
    chains of nodes, doubled in size when the count reaches a threshold.  A
    chain is a list, the array of chains a list of lists; [None] is an array
    that has been released or was never made.  Nodes are values, so that what
    is leaked is not seen; the use of a released array or of a NULL node is
    undefined.  [ULONG] has 32 bits. *)

From S2P Require Import Prelude Heap Effects DnsBuffer DnsName DnsRecord DnsRecordOps.
From stdpp Require Import gmap.

Open Scope Z_scope.

(** ** The table *)

Record hash_node (V : Type) := HASH_NODE { node_pKey : list Z; ulDigest : Z; node_pData : V }.
Arguments HASH_NODE {V}. Arguments node_pKey {V}. Arguments ulDigest {V}. Arguments node_pData {V}.

Record hash_table (V : Type) := HASH_TABLE {
  ulSize : Z; ulThreshold : Z; ulCount : Z; ppData : option (list (list (hash_node V))) }.
Arguments HASH_TABLE {V}. Arguments ulSize {V}. Arguments ulThreshold {V}. Arguments ulCount {V}. Arguments ppData {V}.

Definition RESIZE_THRESHOLD (n : Z) : Z := u32 (n * 80 / 100).

(** [char] is signed. *)
Definition VmDnsGetHash (pszKey : list Z) : Z := fold_left (λ code c, u32 (code * 31 + s8 c)) pszKey 0.

Section Table.
Context `{StringCompare} {V : Type}.

Abbreviation HM := (RM (hash_table V)).
Abbreviation chains := (list (list (hash_node V))).

Definition set_table (size threshold count : Z) (data : option chains) : HM unit :=
  rset (λ _, HASH_TABLE size threshold count data).

Definition VmDnsHashTableAllocate {St} (n : Z) : RM St (hash_table V) :=
  if n <? 1 then rfail ERROR_INVALID_PARAMETER
  else
    VmDnsAllocateMemory 24 ;;;
    VmDnsAllocateMemory (8 * n) ;;;
    rret (HASH_TABLE n (RESIZE_THRESHOLD n) 0 (Some (replicate (Z.to_nat n) []))).

Definition VmDnsCompareKey (k1 k2 : list Z) : bool := VmDnsStringCompareA (Some k1) (Some k2) true =? 0.

(** The first node of the chain with the digest and the key, what is before it
    and what is behind it. *)
Fixpoint find_node (key : list Z) (digest : Z) (chain : list (hash_node V))
  : option (list (hash_node V) * hash_node V * list (hash_node V)) :=
  match chain with
  | [] => None
  | n :: rest =>
      if (ulDigest n =? digest) && VmDnsCompareKey key (node_pKey n) then Some ([], n, rest)
      else match find_node key digest rest with
           | Some (before, x, behind) => Some (n :: before, x, behind)
           | None => None
           end
  end.

Definition chain_of (t : hash_table V) (digest : Z) : option (list (hash_node V)) :=
  ppData t ≫= λ cs : chains, cs !! Z.to_nat (digest mod ulSize t).

Definition VmDnsGetNode (key : list Z) (digest : Z) : HM (option (list (hash_node V) * hash_node V * list (hash_node V))) :=
  t <- rget ;; c <- rlift (chain_of t digest) ;; rret (find_node key digest c).

Definition VmDnsHashTableGet (key : list Z) : HM V :=
  if bool_decide (key = []) then rfail ERROR_INVALID_PARAMETER
  else
    f <- VmDnsGetNode key (VmDnsGetHash key) ;;
    match f with Some (_, n, _) => rret (node_pData n) | None => rfail ERROR_NOT_FOUND end.

Definition set_chain (digest : Z) (c : list (hash_node V)) (t : hash_table V) : option chains :=
  option_map (λ cs : chains, <[Z.to_nat (digest mod ulSize t) := c]> cs) (ppData t).

(** Insertion.  That the key is there already is not looked at: the error code
    is set and the code of the search, which is success, is tested.  When the
    parameters are wrong or the node cannot be allocated the NULL node is
    released. *)
Definition insert_node (key : list Z) (v : V) : HM unit :=
  let digest := VmDnsGetHash key in
  r <- rtry (VmDnsAllocateMemory 32) ;;
  match r with
  | inl _ => rub
  | inr _ =>
      VmDnsAllocateStringA (key ++ [0]) ;;;
      t <- rget ;;
      c <- rlift (chain_of t digest) ;;
      set_table (ulSize t) (ulThreshold t) (u32 (ulCount t + 1)) (set_chain digest (HASH_NODE key digest v :: c) t)
  end.

(** The loop of the resizing over the old nodes, with the insertion of the
    next depth. *)
Fixpoint insert_nodes (ins : list Z → V → HM unit) (nodes : list (hash_node V)) : HM unit :=
  match nodes with
  | [] => rret tt
  | n :: nodes => ins (node_pKey n) (node_pData n) ;;; insert_nodes ins nodes
  end.

(** Doubling.  Without memory for the new array, the error path reads it.  When
    an insertion fails the new array is read as well, which has been released
    when an insertion has doubled again; else the old array is put back, and
    released. *)
Definition resize_with (ins : list Z → V → HM unit) (n : Z) : HM unit :=
  old <- rget ;;
  if n <? 1 then set_table 0 (ulThreshold old) 0 None ;;; rfail ERROR_INVALID_PARAMETER
  else
    r <- rtry (VmDnsAllocateMemory (8 * n)) ;;
    match r with
    | inl _ => rub
    | inr _ =>
        cs <- rlift (ppData old) ;;
        set_table n (ulThreshold old) (ulCount old) (Some (replicate (Z.to_nat n) [])) ;;;
        r <- rtry (insert_nodes ins (concat cs)) ;;
        t <- rget ;;
        match r with
        | inr _ => set_table (ulSize t) (RESIZE_THRESHOLD n) (ulCount t) (ppData t)
        | inl err =>
            if ulSize t =? n then set_table (ulSize old) (ulThreshold t) (ulCount old) None ;;; rfail err else rub
        end
    end.

(** The insertion and the resizing call each other; the depth is the fuel. *)
Fixpoint insert_depth (fuel : nat) (key : list Z) (v : V) : HM unit :=
  match fuel with
  | O => rub
  | S fuel =>
      if bool_decide (key = []) then rub
      else
        VmDnsGetNode key (VmDnsGetHash key) ;;;
        t <- rget ;;
        (if ulCount t >=? ulThreshold t then resize_with (insert_depth fuel) (u32 (ulSize t * 2)) else rret tt) ;;;
        insert_node key v
  end.

Definition VmDnsHashTableInsert (key : list Z) (v : V) : HM unit := insert_depth 3 key v.
Definition VmDnsHashTableResize (n : Z) : HM unit := resize_with (insert_depth 2) n.

Definition VmDnsHashTableRemove (key : list Z) : HM unit :=
  if bool_decide (key = []) then rfail ERROR_INVALID_PARAMETER
  else
    let digest := VmDnsGetHash key in
    f <- VmDnsGetNode key digest ;;
    match f with
    | None => rfail ERROR_NOT_FOUND
    | Some (before, _, behind) =>
        t <- rget ;;
        set_table (ulSize t) (ulThreshold t) (u32 (ulCount t - 1)) (set_chain digest (before ++ behind) t)
    end.

Definition VmDnsHashTableGetSize (t : hash_table V) : Z := ulSize t.
Definition VmDnsHashTableGetCount (t : hash_table V) : Z := ulCount t.

Definition VmDnsHashTableClearData : HM unit :=
  t <- rget ;;
  match ppData t with
  | None => rret tt
  | Some cs => set_table (ulSize t) (ulThreshold t) 0 (Some (replicate (Z.to_nat (ulSize t)) []))
  end.

(** ** Iteration *)

Record hash_iter := HASH_ITER { iter_pNext : list (hash_node V); ulIndex : Z }.

Definition VmDnsHashTableResetIter : hash_iter := HASH_ITER [] 0.

(** [for (dwIdx = pIter->ulIndex; dwIdx < pTable->ulSize; dwIdx++)] *)
Fixpoint next_chain (cs : chains) (idx : Z) (it : hash_iter) : option (hash_node V) * hash_iter :=
  match cs with
  | [] => (None, it)
  | [] :: cs => next_chain cs (idx + 1) it
  | (n :: rest) :: _ => (Some n, HASH_ITER rest (idx + 1))
  end.

(** The node and the iterator behind it.  The rest of a chain is a suffix of it. *)
Definition VmDnsHashTableIterate (t : hash_table V) (it : hash_iter) : option (hash_node V) * hash_iter :=
  match iter_pNext it with
  | n :: rest => (Some n, HASH_ITER rest (ulIndex it))
  | [] =>
      match ppData t with
      | None => (None, it)
      | Some cs => next_chain (drop (Z.to_nat (ulIndex it)) (take (Z.to_nat (ulSize t)) cs)) (ulIndex it) it
      end
  end.

End Table.

(** ** Chains *)

(** The node of a key, and chains of nodes that are where they belong. *)
Definition node_of {V} (kv : list Z * V) : hash_node V := HASH_NODE kv.1 (VmDnsGetHash kv.1) kv.2.

Definition placed {V} (s : Z) (cs : list (list (hash_node V))) : Prop :=
  1 <= s ∧ zlen cs = s ∧
  ∀ i c n, cs !! i = Some c → n ∈ c → n = node_of (node_pKey n, node_pData n) ∧ node_pKey n ≠ [] ∧ Z.to_nat (ulDigest n mod s) = i.

Section Chains.
Context `{StringCompare} {V : Type}.
Implicit Types (cs : list (list (hash_node V))) (n : hash_node V) (key : list Z).

Lemma compare_key_spec k1 k2 : VmDnsCompareKey k1 k2 = true ↔ k1 = k2.
Proof. unfold VmDnsCompareKey. rewrite Z.eqb_eq, compare_name_exact. split; congruence. Qed.

Lemma concat_insert cs i c n : cs !! i = Some c → concat (<[i := n :: c]> cs) ≡ₚ n :: concat cs.
Proof.
  intros Hi. rewrite insert_take_drop by eauto using lookup_lt_Some. rewrite <- (take_drop_middle cs i c Hi) at 3.
  rewrite !concat_app. cbn [concat app]. apply Permutation_sym, Permutation_middle.
Qed.

Lemma concat_update cs i c c' : cs !! i = Some c → ∃ l r, concat cs = l ++ c ++ r ∧ concat (<[i := c']> cs) = l ++ c' ++ r.
Proof.
  intros Hi. exists (concat (take i cs)), (concat (drop (S i) cs)).
  rewrite insert_take_drop by eauto using lookup_lt_Some. rewrite <- (take_drop_middle cs i c Hi) at 1.
  by rewrite !concat_app.
Qed.

Lemma placed_index s cs d : placed s cs → ∃ c, cs !! Z.to_nat (d mod s) = Some c.
Proof.
  intros (Hs & Hl & _). apply lookup_lt_is_Some_2. pose proof (Z.mod_pos_bound d s ltac:(lia)). lia.
Qed.

Lemma placed_insert s cs key (v : V) c : placed s cs → key ≠ [] → cs !! Z.to_nat (VmDnsGetHash key mod s) = Some c →
  placed s (<[Z.to_nat (VmDnsGetHash key mod s) := node_of (key, v) :: c]> cs).
Proof.
  intros (Hs & Hl & Hp) Hk Hc. split_and!; [done | by rewrite length_insert |]. intros i c' n Hi Hn.
  apply list_lookup_insert_Some in Hi as [(<- & <- & _) | (Hne & Hi)]; [| by eapply Hp].
  apply elem_of_cons in Hn as [-> | Hn]; [done |]. by eapply Hp.
Qed.

Lemma placed_update s cs i c c' : placed s cs → cs !! i = Some c → (∀ n, n ∈ c' → n ∈ c) → placed s (<[i := c']> cs).
Proof.
  intros (Hs & Hl & Hp) Hc Hsub. split_and!; [done | by rewrite length_insert |]. intros j d n Hj Hn.
  apply list_lookup_insert_Some in Hj as [(<- & <- & _) | (Hne & Hj)]; [| by eapply Hp]. eapply Hp; eauto.
Qed.

Lemma placed_empty s : 1 <= s → placed s (replicate (Z.to_nat s) ([] : list (hash_node V))).
Proof.
  intros Hs. split_and!; [done | rewrite length_replicate; lia |]. intros i c n [-> _]%lookup_replicate Hn. by apply elem_of_nil in Hn.
Qed.

Lemma concat_replicate_nil k : concat (replicate k ([] : list (hash_node V))) = [].
Proof. by induction k. Qed.

Lemma placed_elem s cs n : placed s cs → n ∈ concat cs →
  n = node_of (node_pKey n, node_pData n) ∧ node_pKey n ≠ [] ∧ ∃ c, cs !! Z.to_nat (VmDnsGetHash (node_pKey n) mod s) = Some c ∧ n ∈ c.
Proof.
  intros (Hs & Hl & Hp) Hn. apply list_elem_of_In, in_concat in Hn as (c & Hc & Hn).
  apply list_elem_of_In, list_elem_of_lookup in Hc as [i Hi]. apply list_elem_of_In in Hn.
  destruct (Hp i c n Hi Hn) as (E & Hk & Hidx). split_and!; [done | done |]. exists c. split; [| done].
  rewrite E in Hidx. unfold node_of in Hidx. cbn [ulDigest fst] in Hidx. by rewrite Hidx.
Qed.

Lemma find_node_some key d c b n a : find_node key d c = Some (b, n, a) → c = b ++ n :: a ∧ node_pKey n = key ∧ ulDigest n = d.
Proof.
  revert b. induction c as [|x c IH]; intros b; cbn; [done |].
  destruct (Z.eqb_spec (ulDigest x) d) as [Hd | Hd]; cbn.
  - destruct (VmDnsCompareKey key (node_pKey x)) eqn:E.
    + intros [= <- <- <-]. apply compare_key_spec in E. done.
    + destruct (find_node key d c) as [[[b' n'] a']|]; [| done]. intros [= <- <- <-]. destruct (IH b' eq_refl) as (-> & ?). done.
  - destruct (find_node key d c) as [[[b' n'] a']|]; [| done]. intros [= <- <- <-]. destruct (IH b' eq_refl) as (-> & ?). done.
Qed.

Lemma find_node_none key d c n : find_node key d c = None → n ∈ c → ulDigest n = d → node_pKey n ≠ key.
Proof.
  induction c as [|x c IH]; cbn; intros Hf Hn Hd Hk; [by apply elem_of_nil in Hn |].
  apply elem_of_cons in Hn as [<- | Hn].
  - rewrite Hd, Z.eqb_refl, (proj2 (compare_key_spec key (node_pKey n)) (eq_sym Hk)) in Hf. done.
  - destruct (_ && _); [done |]. destruct (find_node key d c) as [[[? ?] ?]|]; [done |]. by apply IH.
Qed.

End Chains.

(** ** Insertion and resizing *)

Section Insertion.
Context `{StringCompare} {V : Type}.
Implicit Types (cs : list (list (hash_node V))) (t : hash_table V) (key : list Z).

(** The table [t] holds the nodes [l]. *)
Definition holds t (l : list (hash_node V)) : Prop := ∃ cs, ppData t = Some cs ∧ placed (ulSize t) cs ∧ concat cs ≡ₚ l.

Definition proper_node (n : hash_node V) : Prop := n = node_of (node_pKey n, node_pData n) ∧ node_pKey n ≠ [].

Lemma holds_proper t l : holds t l → Forall proper_node l.
Proof.
  intros (cs & _ & Hp & HP). rewrite <- HP. apply Forall_forall. intros n Hn.
  destruct (placed_elem _ _ _ Hp Hn) as (? & ? & _). done.
Qed.

Lemma holds_perm t l l' : l ≡ₚ l' → holds t l → holds t l'.
Proof. intros E (cs & ? & ? & ?). exists cs. split_and!; [done | done | by rewrite <- E]. Qed.

Lemma get_node_run t l key e : holds t l →
  ∃ f, VmDnsGetNode key (VmDnsGetHash key) t e = Some (inr f, t, e) ∧
    match f with
    | None => key ∉ map node_pKey l
    | Some (b, n, a) => node_pKey n = key ∧ ∃ cs, ppData t = Some cs ∧ placed (ulSize t) cs ∧ concat cs ≡ₚ l ∧
        cs !! Z.to_nat (VmDnsGetHash key mod ulSize t) = Some (b ++ n :: a)
    end.
Proof.
  intros (cs & Hd & Hp & HP). destruct (placed_index _ _ (VmDnsGetHash key) Hp) as [c Hc].
  exists (find_node key (VmDnsGetHash key) c). split.
  { unfold VmDnsGetNode, rbind, rget, rlift, chain_of. rewrite Hd. cbn [mbind option_bind]. rewrite Hc. done. }
  destruct (find_node _ _ c) as [[[b n] a]|] eqn:E.
  - apply find_node_some in E as (-> & Hk & _). split; [done |]. exists cs. done.
  - intros (n & -> & Hn)%list_elem_of_fmap. rewrite <- HP in Hn.
    destruct (placed_elem _ _ _ Hp Hn) as (En & _ & c' & Hc' & Hin). simplify_eq.
    eapply find_node_none; [exact E | exact Hin | by rewrite En | done].
Qed.

Lemma insert_node_run t l key v e : holds t l → key ≠ [] → quiet e →
  ∃ t' e', insert_node key v t e = Some (inr tt, t', e') ∧ quiet e' ∧ holds t' (node_of (key, v) :: l) ∧
    ulSize t' = ulSize t ∧ ulThreshold t' = ulThreshold t ∧ ulCount t' = u32 (ulCount t + 1).
Proof.
  intros (cs & Hd & Hp & HP) Hk He. destruct (placed_index _ _ (VmDnsGetHash key) Hp) as [c Hc].
  destruct (alloc_string_ok (key ++ [0]) _ t (tail e) (cstring_block key)) as (e' & Hs & He'); [by apply quiet_tail |].
  eexists _, e'. split_and!.
  - unfold insert_node, rbind, rtry. rewrite alloc_ok by done. rewrite Hs. unfold rget, rlift, chain_of, set_chain. rewrite Hd. cbn [mbind option_bind option_map]. rewrite Hc. reflexivity.
  - done.
  - eexists. split_and!; [reflexivity | by apply placed_insert |]. cbn [ulSize].
    change (HASH_NODE key (VmDnsGetHash key) v) with (node_of (key, v)). rewrite concat_insert by done. by rewrite HP.
  - done.
  - done.
  - done.
Qed.

(** An insertion below the threshold. *)
Lemma insert_below f t l key v e : holds t l → key ≠ [] → quiet e → ulCount t < ulThreshold t →
  insert_depth (S f) key v t e = insert_node key v t e.
Proof.
  intros Ht Hk He Hc. cbn [insert_depth]. rewrite bool_decide_eq_false_2 by done.
  destruct (get_node_run t l key e Ht) as (g & Hg & _). unfold rbind at 1. rewrite Hg.
  unfold rbind, rget at 1. rewrite Z.geb_leb, (proj2 (Z.leb_gt _ _)) by lia. done.
Qed.

Lemma insert_all_below f nodes : ∀ t l e, holds t l → Forall proper_node nodes → quiet e →
  0 <= ulCount t → ulCount t + zlen nodes <= ulThreshold t → ulThreshold t < 2 ^ 32 →
  ∃ t' e', insert_nodes (insert_depth (S f)) nodes t e = Some (inr tt, t', e') ∧ quiet e' ∧ holds t' (nodes ++ l) ∧
    ulSize t' = ulSize t ∧ ulCount t' = ulCount t + zlen nodes.
Proof.
  induction nodes as [|n nodes IH]; intros t l e Ht Hn He H0 Hc Hb; [exists t, e; split_and!; try done; cbn; lia |].
  apply Forall_cons_1 in Hn as [[En Hk] Hn]. cbn [length] in Hc. cbn [insert_nodes]. unfold rbind.
  rewrite insert_below with (l := l) by (done || lia).
  destruct (insert_node_run t l (node_pKey n) (node_pData n) e Ht Hk He) as (t1 & e1 & -> & He1 & Ht1 & Hs1 & Hth1 & Hc1).
  unfold u32 in Hc1. rewrite Z.mod_small in Hc1 by lia.
  destruct (IH t1 _ e1 Ht1 Hn He1) as (t2 & e2 & -> & He2 & Ht2 & Hs2 & Hc2); [lia | lia | lia |].
  exists t2, e2. rewrite <- En in Ht2. split_and!; [done | done | | congruence | cbn [length]; lia].
  eapply holds_perm; [| exact Ht2]. symmetry. apply Permutation_middle.
Qed.

(** Resizing a table without nodes. *)
Lemma resize_empty ins t n e : holds t [] → 1 <= n → quiet e →
  ∃ t' e', resize_with ins n t e = Some (inr tt, t', e') ∧ quiet e' ∧ holds t' [] ∧
    ulSize t' = n ∧ ulThreshold t' = RESIZE_THRESHOLD n ∧ ulCount t' = ulCount t.
Proof.
  intros (cs & Hd & Hp & HP) Hn He. apply Permutation_nil_r in HP. eexists _, (tail e). split_and!.
  - unfold resize_with. unfold rbind at 1, rget at 1. rewrite (proj2 (Z.ltb_ge _ _)) by lia.
    unfold rtry. unfold rbind. rewrite alloc_ok by (done || lia). unfold rlift. rewrite Hd, HP. reflexivity.
  - by apply quiet_tail.
  - eexists. split_and!; [reflexivity | by apply placed_empty | by rewrite concat_replicate_nil].
  - done.
  - done.
  - done.
Qed.

End Insertion.

(** ** The table as a map *)

Section Refinement.
Context `{StringCompare} {V : Type}.
Implicit Types (t : hash_table V) (key : list Z) (m : gmap (list Z) V).

(** What the table counts against.  The re-insertion of a resizing counts the
    nodes again, and doubles the table once more: then the threshold is the
    one of half the size. *)
Definition loaded t : Prop :=
  (ulThreshold t = RESIZE_THRESHOLD (ulSize t) ∧ ulCount t <= ulThreshold t) ∨
  (∃ h, 2 <= h ∧ ulSize t = 2 * h ∧ ulThreshold t = RESIZE_THRESHOLD h ∧ ulCount t <= ulThreshold t + 1).

Record rep t m : Prop := {
  rep_holds : holds t (map node_of (map_to_list m));
  rep_count : Z.of_nat (size m) <= ulCount t;
  rep_size : 1 <= ulSize t <= 2 ^ 31;
  rep_loaded : loaded t }.

Lemma threshold_bounds n : 0 <= n <= 2 ^ 31 → 100 * RESIZE_THRESHOLD n <= 80 * n < 100 * RESIZE_THRESHOLD n + 100.
Proof.
  intros Hn. pose proof (Z.div_mod (n * 80) 100 ltac:(lia)). pose proof (Z.mod_pos_bound (n * 80) 100 ltac:(lia)).
  unfold RESIZE_THRESHOLD, u32. rewrite Z.mod_small by lia. lia.
Qed.

(** An insertion at the threshold. *)
Lemma insert_full f t l key v e : holds t l → key ≠ [] → ulThreshold t <= ulCount t → 1 <= ulSize t <= 2 ^ 30 →
  insert_depth (S f) key v t e = (resize_with (insert_depth f) (2 * ulSize t) ;;; insert_node key v) t e.
Proof.
  intros Ht Hk Hfull Hs. cbn [insert_depth]. rewrite bool_decide_eq_false_2 by done.
  destruct (get_node_run t l key e Ht) as (g & Hg & _). unfold rbind at 1. rewrite Hg.
  unfold rbind at 1, rget at 1. rewrite Z.geb_leb, (proj2 (Z.leb_le _ _)) by lia.
  unfold u32. rewrite Z.mod_small by lia. by rewrite Z.mul_comm.
Qed.

(** Resizing a table with nodes: the insertion of the first finds the new
    table full by its count, and doubles it; the others fit. *)
Lemma resize_nodes t n0 l e : holds t (n0 :: l) → quiet e → ulThreshold t <= ulCount t → 0 <= ulCount t →
  1 <= ulSize t <= 2 ^ 29 → ulCount t + zlen (n0 :: l) <= RESIZE_THRESHOLD (4 * ulSize t) →
  ∃ t' e', resize_with (insert_depth 2) (2 * ulSize t) t e = Some (inr tt, t', e') ∧ quiet e' ∧ holds t' (n0 :: l) ∧
    ulSize t' = 4 * ulSize t ∧ ulThreshold t' = RESIZE_THRESHOLD (2 * ulSize t) ∧ ulCount t' = ulCount t + zlen (n0 :: l).
Proof.
  intros Ht He Hfull H0 Hs Hroom. pose proof (holds_proper _ _ Ht) as Hprop. destruct Ht as (cs & Hd & Hp & HP).
  destruct (concat cs) as [|n1 l1] eqn:Ecs; [by apply Permutation_nil_l in HP |].
  assert (Hprop1 : Forall proper_node (n1 :: l1)) by (by rewrite HP). apply Forall_cons_1 in Hprop1 as [[En1 Hk1] Hl1].
  pose proof (Permutation_length HP) as Hlen. cbn [length] in Hlen, Hroom |- *.
  pose proof (threshold_bounds (4 * ulSize t) ltac:(lia)) as Hth.
  set (t1 := HASH_TABLE (2 * ulSize t) (ulThreshold t) (ulCount t) (Some (replicate (Z.to_nat (2 * ulSize t)) ([] : list (hash_node V))))).
  assert (Ht1 : holds t1 []).
  { eexists. split_and!; [reflexivity | apply placed_empty; cbn; lia | by rewrite concat_replicate_nil]. }
  destruct (resize_empty (insert_depth 1) t1 (2 * (2 * ulSize t)) (tail e) Ht1) as (t2 & e2 & Hr2 & He2 & Ht2 & Hs2 & Hth2 & Hc2);
    [lia | by apply quiet_tail |].
  destruct (insert_node_run t2 [] (node_pKey n1) (node_pData n1) e2 Ht2 Hk1 He2) as (t3 & e3 & Hr3 & He3 & Ht3 & Hs3 & Hth3 & Hc3).
  rewrite Hc2 in Hc3. change (ulCount t1) with (ulCount t) in Hc3. unfold u32 in Hc3. rewrite Z.mod_small in Hc3 by lia.
  replace (2 * (2 * ulSize t)) with (4 * ulSize t) in * by lia.
  destruct (insert_all_below 1 l1 t3 _ e3 Ht3 Hl1 He3) as (t4 & e4 & Hr4 & He4 & Ht4 & Hs4 & Hc4); [lia | lia | lia |].
  eexists _, e4. split_and!.
  - unfold resize_with. unfold rbind at 1, rget at 1. rewrite (proj2 (Z.ltb_ge _ _)) by lia.
    unfold rbind, rtry at 1. rewrite alloc_ok by (done || lia). unfold rlift. rewrite Hd. unfold set_table at 1, rset at 1.
    rewrite Ecs. fold t1. unfold rtry. cbn [insert_nodes]. unfold rbind at 1.
    rewrite (insert_full 1 t1 []) by (done || cbn; lia). unfold rbind at 1. change (ulSize t1) with (2 * ulSize t).
    replace (2 * (2 * ulSize t)) with (4 * ulSize t) by lia. rewrite Hr2, Hr3, Hr4. reflexivity.
  - done.
  - destruct Ht4 as (cs4 & Hd4 & Hp4 & HP4). exists cs4. split_and!; [done | done |]. rewrite HP4, <- HP.
    rewrite <- En1. symmetry. apply Permutation_cons_append.
  - cbn. lia.
  - done.
  - cbn. lia.
Qed.


(** Room for the nodes that are there, and for one more behind it. *)
Lemma loaded_room t (k : Z) : loaded t → ulThreshold t <= ulCount t → 0 <= k <= ulCount t → 1 <= ulSize t <= 2 ^ 29 →
  ulCount t + k <= RESIZE_THRESHOLD (4 * ulSize t) ∧ ulCount t + k + 1 <= RESIZE_THRESHOLD (2 * ulSize t) + 1 ∧
  ulCount t + 1 <= RESIZE_THRESHOLD (2 * ulSize t).
Proof.
  intros Hl Hf Hk Hs. pose proof (threshold_bounds (2 * ulSize t) ltac:(lia)). pose proof (threshold_bounds (4 * ulSize t) ltac:(lia)).
  destruct Hl as [[Hth Hc] | (h & Hh & Hsz & Hth & Hc)].
  - pose proof (threshold_bounds (ulSize t) ltac:(lia)). lia.
  - pose proof (threshold_bounds h ltac:(lia)). lia.
Qed.

Lemma fresh_list m key v l : m !! key = None → l ≡ₚ map node_of (map_to_list m) →
  node_of (key, v) :: l ≡ₚ map node_of (map_to_list (<[key := v]> m)).
Proof. intros Hf ->. rewrite (map_to_list_insert m key v Hf). done. Qed.

Lemma rep_insert t m key v e : rep t m → m !! key = None → key ≠ [] → ulSize t <= 2 ^ 29 → quiet e →
  ∃ t' e', VmDnsHashTableInsert key v t e = Some (inr tt, t', e') ∧ quiet e' ∧ rep t' (<[key := v]> m).
Proof.
  intros [Hh Hc Hs Hl] Hf Hk Hsz He.
  assert (Hlen : zlen (map (node_of (V := V)) (map_to_list m)) = Z.of_nat (size m)) by by rewrite length_map, length_map_to_list.
  unfold VmDnsHashTableInsert. pose proof (threshold_bounds (ulSize t) ltac:(lia)) as Hthr.
  assert (Hth : ulThreshold t <= ulSize t).
  { destruct Hl as [[-> _] | (h & ? & ? & -> & _)]; [lia |]. pose proof (threshold_bounds h ltac:(lia)). lia. }
  destruct (decide (ulCount t < ulThreshold t)) as [Hlt | Hge].
  - rewrite (insert_below 2 t _ key v e Hh Hk He Hlt).
    destruct (insert_node_run t _ key v e Hh Hk He) as (t' & e' & -> & He' & Ht' & Hs' & Hth' & Hc').
    exists t', e'. split_and!; [done | done |]. unfold u32 in Hc'. rewrite Z.mod_small in Hc' by lia. constructor.
    + eapply holds_perm; [| exact Ht']. by apply fresh_list.
    + rewrite map_size_insert_None by done. lia.
    + lia.
    + destruct Hl as [[E1 E2] | (h & E1 & E2 & E3 & E4)]; [left | right; exists h]; rewrite ?Hs', ?Hth'; lia.
  - destruct (loaded_room t (Z.of_nat (size m)) Hl) as (Hr1 & Hr2 & Hr3); [lia | lia | lia |].
    rewrite (insert_full 2 t _ key v e Hh Hk) by lia. unfold rbind.
    pose proof (threshold_bounds (2 * ulSize t) ltac:(lia)) as Hthr2.
    destruct (map node_of (map_to_list m)) as [|n0 l] eqn:El.
    + destruct (resize_empty (insert_depth 2) t (2 * ulSize t) e Hh ltac:(lia) He) as (t1 & e1 & -> & He1 & Ht1 & Hs1 & Hth1 & Hc1).
      destruct (insert_node_run t1 _ key v e1 Ht1 Hk He1) as (t' & e' & -> & He' & Ht' & Hs' & Hth' & Hc').
      exists t', e'. split_and!; [done | done |]. unfold u32 in Hc'. rewrite Z.mod_small in Hc' by lia. constructor.
      * eapply holds_perm; [| exact Ht']. apply fresh_list; [done | by rewrite El].
      * rewrite map_size_insert_None by done. lia.
      * lia.
      * left. rewrite Hs', Hth', Hs1, Hth1. lia.
    + destruct (resize_nodes t n0 l e Hh He) as (t1 & e1 & -> & He1 & Ht1 & Hs1 & Hth1 & Hc1); [lia | lia | lia | lia |].
      destruct (insert_node_run t1 _ key v e1 Ht1 Hk He1) as (t' & e' & -> & He' & Ht' & Hs' & Hth' & Hc').
      exists t', e'. split_and!; [done | done |]. unfold u32 in Hc'. rewrite Z.mod_small in Hc' by lia. constructor.
      * eapply holds_perm; [| exact Ht']. apply fresh_list; [done | by rewrite El].
      * rewrite map_size_insert_None by done. lia.
      * lia.
      * right. exists (2 * ulSize t). rewrite Hs', Hth', Hs1, Hth1. lia.
Qed.

Lemma node_of_key key (v : V) m : node_of (key, v) ∈ map node_of (map_to_list m) ↔ m !! key = Some v.
Proof.
  rewrite <- elem_of_map_to_list. split.
  - intros ([k w] & E & Hin)%list_elem_of_fmap. pose proof (f_equal node_pKey E). pose proof (f_equal node_pData E).
    cbn in *. by subst.
  - intros Hin. apply list_elem_of_fmap. by exists (key, v).
Qed.

(** What the search finds. *)
Lemma rep_find t m key e : rep t m →
  ∃ f, VmDnsGetNode key (VmDnsGetHash key) t e = Some (inr f, t, e) ∧
    match f with
    | None => m !! key = None
    | Some (b, n, a) => n = node_of (key, node_pData n) ∧ m !! key = Some (node_pData n) ∧
        ∃ cs, ppData t = Some cs ∧ placed (ulSize t) cs ∧ concat cs ≡ₚ map node_of (map_to_list m) ∧
          cs !! Z.to_nat (VmDnsGetHash key mod ulSize t) = Some (b ++ n :: a)
    end.
Proof.
  intros [Hh _ _ _]. destruct (get_node_run t _ key e Hh) as (f & Hr & Hf). exists f. split; [done |].
  destruct f as [[[b n] a]|].
  - destruct Hf as (Hk & cs & Hd & Hp & HP & Hc).
    assert (Hin : n ∈ concat cs).
    { apply list_elem_of_In, in_concat. exists (b ++ n :: a). split; apply list_elem_of_In; [by eapply list_elem_of_lookup_2 |].
      apply elem_of_app. right. apply elem_of_cons. by left. }
    destruct (placed_elem _ _ _ Hp Hin) as (En & _). rewrite Hk in En. split_and!; [done | | by exists cs].
    apply node_of_key. rewrite <- En. by rewrite <- HP.
  - destruct (m !! key) as [v|] eqn:E; [| done]. exfalso. apply Hf, list_elem_of_fmap. exists (node_of (key, v)).
    split; [done |]. by apply node_of_key.
Qed.

Lemma rep_remove t m key v b n a cs : rep t m → m !! key = Some v → n = node_of (key, v) →
  ppData t = Some cs → placed (ulSize t) cs → concat cs ≡ₚ map node_of (map_to_list m) →
  cs !! Z.to_nat (VmDnsGetHash key mod ulSize t) = Some (b ++ n :: a) →
  rep (HASH_TABLE (ulSize t) (ulThreshold t) (u32 (ulCount t - 1)) (set_chain (VmDnsGetHash key) (b ++ a) t)) (delete key m).
Proof.
  intros [Hh Hc Hs Hl] Hv -> Hd Hp HP Hcs.
  assert (Hdel : Z.of_nat (size (delete key m)) = Z.of_nat (size m) - 1 ∧ 1 <= Z.of_nat (size m)).
  { rewrite map_size_delete_Some by eauto. assert (size m ≠ 0%nat) by (apply (map_size_ne_0_lookup_2 m key); eauto). lia. }
  assert (Hth : ulThreshold t <= ulSize t).
  { destruct Hl as [[-> _] | (h & ? & ? & -> & _)]; [pose proof (threshold_bounds (ulSize t) ltac:(lia)); lia |].
    pose proof (threshold_bounds h ltac:(lia)). lia. }
  assert (Hcnt : u32 (ulCount t - 1) = ulCount t - 1).
  { apply Z.mod_small. destruct Hl as [[_ ?] | (h & _ & _ & _ & ?)]; lia. }
  constructor; cbn [ulSize ulThreshold ulCount]; rewrite ?Hcnt; [| lia | lia |].
  - unfold set_chain. rewrite Hd. eexists. split_and!; [reflexivity | |].
    + eapply placed_update; [done | exact Hcs |]. intros n. rewrite !elem_of_app, elem_of_cons. tauto.
    + destruct (concat_update cs _ _ (b ++ a) Hcs) as (l & r & E1 & E2). rewrite E2. apply (Permutation_cons_inv (a := node_of (key, v))).
      change (node_of (key, v) :: map node_of (map_to_list (delete key m)))
        with (map node_of ((key, v) :: map_to_list (delete key m))).
      rewrite (map_to_list_delete m key v Hv), <- HP, E1, <- !app_assoc. cbn [app]. by rewrite <- !Permutation_middle.
  - destruct Hl as [[E1 E2] | (h & E1 & E2 & E3 & E4)]; [left; cbn; lia | right; exists h; cbn; lia].
Qed.

Lemma allocate_rep n (St : Type) (s : St) e : 1 <= n <= 2 ^ 31 → quiet e →
  ∃ t e', VmDnsHashTableAllocate (V := V) n s e = Some (inr t, s, e') ∧ quiet e' ∧ rep t ∅ ∧ ulSize t = n.
Proof.
  intros Hn He. pose proof (threshold_bounds n ltac:(lia)). eexists _, (tail (tail e)). split_and!.
  - unfold VmDnsHashTableAllocate. rewrite (proj2 (Z.ltb_ge _ _)) by lia. unfold rbind.
    rewrite alloc_ok by done. rewrite alloc_ok by (lia || by apply quiet_tail). reflexivity.
  - by do 2 apply quiet_tail.
  - constructor; cbn [ulSize ulThreshold ulCount]; [| rewrite map_size_empty; lia | lia | left; cbn; lia].
    eexists. split_and!; [reflexivity | apply placed_empty; cbn; lia | by rewrite concat_replicate_nil, map_to_list_empty].
  - done.
Qed.

(** ** Operations against a map *)

Inductive hash_op := Get (key : list Z) | Insert (key : list Z) (v : V) | Remove (key : list Z).

Definition run_hash_op (op : hash_op) : RM (hash_table V) (option V) :=
  match op with
  | Get key => v <- VmDnsHashTableGet key ;; rret (Some v)
  | Insert key v => VmDnsHashTableInsert key v ;;; rret None
  | Remove key => VmDnsHashTableRemove key ;;; rret None
  end.

Definition map_op (op : hash_op) m : (dwerror + option V) * gmap (list Z) V :=
  match op with
  | Get [] | Remove [] => (inl ERROR_INVALID_PARAMETER, m)
  | Get key => (from_option (λ v, inr (Some v)) (inl ERROR_NOT_FOUND) (m !! key), m)
  | Insert key v => (inr None, <[key := v]> m)
  | Remove key => (from_option (λ _, inr None) (inl ERROR_NOT_FOUND) (m !! key), delete key m)
  end.

(** Insertions are of new, non-empty keys, into a table that can be doubled twice. *)
Definition op_allowed (op : hash_op) t m : Prop :=
  match op with Insert key _ => key ≠ [] ∧ m !! key = None ∧ ulSize t <= 2 ^ 29 | _ => True end.

(** C22: the hash table is a finite map: on a table that represents a map, every
    lookup, every removal and every insertion of a key that is not empty and not
    there, into a table of at most 2^29 chains, returns what the map returns,
    errors included, and leaves a table that represents the map after the
    operation, through the chains, the resizing and the insertions a resizing
    makes.  The count of the table is only an upper bound of the number of keys,
    for a resizing counts again ([resize_counts_twice]); a key that is there is
    inserted a second time ([insert_existing_key]). *)
Theorem hash_table_refines_map t m op e : rep t m → quiet e → op_allowed op t m →
  ∃ t' e', run_hash_op op t e = Some ((map_op op m).1, t', e') ∧ quiet e' ∧ rep t' (map_op op m).2.
Proof.
  intros Ht He Hok. destruct op as [key | key v | key].
  - destruct (decide (key = [])) as [-> | Hk]; [by exists t, e |].
    destruct (rep_find t m key e Ht) as (f & Hr & Hf). exists t, e. cbn [run_hash_op]. unfold VmDnsHashTableGet.
    rewrite bool_decide_eq_false_2 by done. unfold rbind. rewrite Hr.
    destruct key; [done |]. cbn [map_op fst snd]. destruct f as [[[b n] a]|].
    + destruct Hf as (_ & -> & _). done.
    + by rewrite Hf.
  - destruct Hok as (Hk & Hf & Hs). destruct (rep_insert t m key v e Ht Hf Hk Hs He) as (t' & e' & Hr & He' & Ht').
    exists t', e'. cbn [run_hash_op]. unfold rbind. rewrite Hr. destruct key; done.
  - destruct (decide (key = [])) as [-> | Hk]; [by exists t, e |].
    destruct (rep_find t m key e Ht) as (f & Hr & Hf). cbn [run_hash_op]. unfold VmDnsHashTableRemove.
    rewrite bool_decide_eq_false_2 by done. unfold rbind. rewrite Hr.
    destruct key; [done |]. cbn [map_op fst snd]. destruct f as [[[b n] a]|].
    + destruct Hf as (En & Hv & cs & Hd & Hp & HP & Hc). rewrite Hv. eexists _, e. split_and!; [reflexivity | done |].
      by eapply rep_remove.
    + rewrite Hf. exists t, e. split_and!; [done | done |]. by rewrite delete_id.
Qed.

(** ** Iteration *)

(** The nodes the iterator returns, until it returns NULL. *)
Fixpoint iterate_all (fuel : nat) t (it : hash_iter) : option (list (hash_node V)) :=
  match fuel with
  | O => None
  | S fuel =>
      match VmDnsHashTableIterate t it with
      | (None, _) => Some []
      | (Some n, it') => option_map (cons n) (iterate_all fuel t it')
      end
  end.

Lemma next_chain_spec (cs : list (list (hash_node V))) i (it : hash_iter) :
  match next_chain cs (Z.of_nat i) it with
  | (None, it') => concat cs = [] ∧ it' = it
  | (Some n, it') => ∃ k, ulIndex it' = Z.of_nat (i + S k) ∧ concat cs = n :: iter_pNext it' ++ concat (drop (S k) cs)
  end.
Proof.
  revert i. induction cs as [|[|n c] cs IH]; intros i; cbn [next_chain]; [done | |].
  - replace (Z.of_nat i + 1) with (Z.of_nat (S i)) by lia. specialize (IH (S i)).
    destruct (next_chain cs (Z.of_nat (S i)) it) as [[n|] it']; [| done].
    destruct IH as (k & Hi & Hc). exists (S k). split; [rewrite Hi; f_equal; lia | done].
  - exists 0%nat. cbn. split; [lia | done].
Qed.

Lemma iterate_all_spec t cs fuel (it : hash_iter) : ppData t = Some cs → zlen cs = ulSize t → 0 <= ulIndex it →
  (length (iter_pNext it ++ concat (drop (Z.to_nat (ulIndex it)) cs)) < fuel)%nat →
  iterate_all fuel t it = Some (iter_pNext it ++ concat (drop (Z.to_nat (ulIndex it)) cs)).
Proof.
  intros Hd Hl. revert it. induction fuel as [|fuel IH]; intros it Hi Hf; [lia |]. cbn [iterate_all].
  unfold VmDnsHashTableIterate. destruct (iter_pNext it) as [|n rest] eqn:En.
  - rewrite Hd, take_ge by lia. rewrite <- (Z2Nat.id (ulIndex it)) at 2 by done.
    pose proof (next_chain_spec (drop (Z.to_nat (ulIndex it)) cs) (Z.to_nat (ulIndex it)) it) as Hn.
    destruct (next_chain _ _ it) as [[n|] it'].
    + destruct Hn as (k & Hi' & Hc). cbn [app] in Hf |- *. rewrite Hc in Hf |- *. rewrite drop_drop in Hf |- *.
      rewrite IH; rewrite ?Hi', ?Nat2Z.id; [done | lia |]. cbn [length] in Hf. lia.
    + by rewrite (proj1 Hn).
  - rewrite IH; cbn [iter_pNext ulIndex]; [done | done |]. cbn [app length] in Hf. lia.
Qed.

(** An iteration over a table that represents a map returns every entry
    of the map, each once, and then NULL. *)
Theorem iteration_visits_map t m : rep t m →
  ∃ l, iterate_all (S (size m)) t VmDnsHashTableResetIter = Some l ∧ l ≡ₚ map node_of (map_to_list m).
Proof.
  intros [(cs & Hd & (_ & Hl & _) & HP) _ _ _]. exists (concat cs). split; [| done].
  rewrite (iterate_all_spec t cs); [done | done | done | done |]. cbn.
  rewrite HP, length_map, length_map_to_list. lia.
Qed.

End Refinement.

(** ** Concrete tables *)

#[local] Existing Instance compare_bytes_ok.

(** A table of size 2 with one entry is full: the next insertion makes it 8
    chains long, and counts the entry again. *)
Definition one_entry : hash_table Z :=
  HASH_TABLE 2 (RESIZE_THRESHOLD 2) 1 (Some [[]; [node_of ([97], 7)]]).

Lemma one_entry_rep `{StringCompare} : rep one_entry {[ [97] := 7 ]}.
Proof.
  constructor; [| by rewrite map_size_singleton | by cbn | by left].
  exists [[]; [node_of ([97], 7)]]. split_and!; [done | | by rewrite map_to_list_singleton].
  split_and!; [done | done |]. intros [|[|i]] c n Hi Hn; simplify_eq/=; [by apply elem_of_nil in Hn |].
  apply list_elem_of_singleton in Hn as ->. by vm_compute.
Qed.

Lemma hash_table_refines_map_witness :
  op_allowed (Insert [98] 8) one_entry {[ [97] := 7 ]} ∧
  ∃ t' e', run_hash_op (Insert [98] 8) one_entry [] = Some (inr None, t', e') ∧ quiet e' ∧ rep t' {[ [98] := 8; [97] := 7 ]}.
Proof.
  assert (Hok : op_allowed (Insert [98] 8) one_entry {[ [97] := 7 ]}) by (by vm_compute).
  split; [exact Hok |].
  exact (hash_table_refines_map one_entry {[ [97] := 7 ]} (Insert [98] 8) [] one_entry_rep (Forall_nil_2 _) Hok).
Defined.

Lemma iteration_visits_map_witness :
  ∃ l, iterate_all 2 one_entry VmDnsHashTableResetIter = Some l ∧ l ≡ₚ map node_of (map_to_list {[ [97] := 7 ]}).
Proof. exact (iteration_visits_map one_entry {[ [97] := 7 ]} one_entry_rep). Defined.

Example resize_counts_twice :
  VmDnsHashTableInsert [98] 8 one_entry [] =
  Some (inr tt, HASH_TABLE 8 (RESIZE_THRESHOLD 4) 3
    (Some [[]; [node_of ([97], 7)]; [node_of ([98], 8)]; []; []; []; []; []]), []).
Proof. by vm_compute. Qed.

(** A key that is there is inserted again; removing it uncovers the old value. *)
Example insert_existing_key :
  (VmDnsHashTableInsert [97] 8 ;;; VmDnsHashTableRemove [97] ;;; VmDnsHashTableGet [97])
    (HASH_TABLE 4 (RESIZE_THRESHOLD 4) 1 (Some [[]; [node_of ([97], 7)]; []; []])) [] =
  Some (inr 7, HASH_TABLE 4 (RESIZE_THRESHOLD 4) 1 (Some [[]; [node_of ([97], 7)]; []; []]), []).
Proof. by vm_compute. Qed.

(** Without memory for the node, the resizing that inserts it and the insertion
    itself release what they do not have. *)
Example insert_without_memory : VmDnsHashTableInsert [98] 8 one_entry [1] = None.
Proof. by vm_compute. Qed.
