(* ===== verification/DnsRecordList.v ===== *)
(** * DnsRecordList: record lists and name entries of the DNS cache

    [vmdns/server/common/recordlist.c], a list of records that grows by
    doubling, and [nameEntry.c], the cached records of a name with the round
    robin that rotates the answers of one type.  A record object is its record:
    its reference count, and that of a list, is not modelled.  The count of a
    name entry is, in [DnsZone]. *)

From S2P Require Import Prelude Heap Effects DnsBuffer DnsName DnsRecord DnsRecordOps.

Open Scope Z_scope.

(** ** Record lists *)

(** [slots] is the length of the block [ppRecords] points to, of which the
    first [dwCurrentSize] are used. *)
Record record_list := RECORD_LIST { dwMaxSize : Z; slots : Z; ppRecords : list dns_record }.

Definition dwCurrentSize (l : record_list) : Z := zlen (ppRecords l).
Definition VmDnsRecordListGetSize (l : record_list) : Z := dwCurrentSize l.

(** A computation on a state of its own inside another one: its result, and the
    state at its end. *)
Definition run_on {St T A} (t : T) (m : RM T A) : RM St ((dwerror + A) * T) := λ s e,
  match m t e with Some (r, t', e') => Some (inr (r, t'), s, e') | None => None end.

Definition bail {St A} (r : dwerror + A) : RM St A := match r with inr x => rret x | inl err => rfail err end.

(** A list that is given up when the computation on it fails. *)
Definition build_list {St} (l : record_list) (m : RM record_list unit) : RM St record_list :=
  x <- run_on l m ;; bail x.1 ;;; rret x.2.

Section Lists.
Context `{StringCompare}.

Definition VmDnsRecordListCreate {St} : RM St record_list :=
  VmDnsAllocateMemory 24 ;;;
  VmDnsAllocateMemory (8 * 10) ;;;
  rret (RECORD_LIST 10 10 []).

(** The maximum is doubled before the new block is there, and stays doubled
    when it cannot be allocated. *)
Definition VmDnsRecordListAdd (r : dns_record) : RM record_list unit :=
  l <- rget ;;
  (if dwCurrentSize l >=? dwMaxSize l then
     let n := u32 (2 * dwMaxSize l) in
     rset (λ l, RECORD_LIST n (slots l) (ppRecords l)) ;;;
     VmDnsAllocateMemory (8 * n) ;;;
     (if 8 * n <? 8 * dwCurrentSize l then rfail ERROR_INSUFFICIENT_BUFFER else rret tt) ;;;
     rset (λ l, RECORD_LIST (dwMaxSize l) n (ppRecords l))
   else rret tt) ;;;
  l <- rget ;;
  if dwCurrentSize l <? slots l then rset (λ l, RECORD_LIST (dwMaxSize l) (slots l) (ppRecords l ++ [r])) else rub.

Fixpoint add_all (rs : list dns_record) : RM record_list unit :=
  match rs with [] => rret tt | r :: rs => VmDnsRecordListAdd r ;;; add_all rs end.

Definition VmDnsRecordListAddList (pSrcList : option record_list) : RM record_list unit :=
  match pSrcList with None => rret tt | Some src => add_all (ppRecords src) end.

(** [assert(pList->dwCurrentSize > nIndex)] *)
Definition VmDnsRecordListGetRecord (l : record_list) (nIndex : Z) : option dns_record := ppRecords l !! Z.to_nat nIndex.

(** The index of the first record that is the object itself, at [self], or
    equal to its record. *)
Fixpoint find_record (self : option nat) (r : dns_record) (rs : list dns_record) (i : nat) : option (option nat) :=
  match rs with
  | [] => Some None
  | x :: rs =>
      if bool_decide (self = Some i) then Some (Some i)
      else match VmDnsCompareRecord x r with
           | None => None
           | Some true => Some (Some i)
           | Some false => find_record self r rs (S i)
           end
  end.

(** The loop that closes the gap tests [i], which it does not change: in front
    of another record it runs past the block.  The last record is removed, and
    then not found. *)
Definition VmDnsRecordListRemove (self : option nat) (r : dns_record) : RM record_list unit :=
  l <- rget ;;
  x <- rlift (find_record self r (ppRecords l) 0) ;;
  match x with
  | None => rfail ERROR_NOT_FOUND
  | Some i =>
      if bool_decide (Z.of_nat i < dwCurrentSize l - 1) then rub
      else rset (λ l, RECORD_LIST (dwMaxSize l) (slots l) (take i (ppRecords l))) ;;; rfail ERROR_NOT_FOUND
  end.

(** [for (; i < dwSize; i++)] of the round robin. *)
Fixpoint rotate_loop (count : nat) (l : record_list) (dwRecordIndex : Z) : RM record_list unit :=
  match count with
  | O => rret tt
  | S count =>
      r <- rlift (VmDnsRecordListGetRecord l dwRecordIndex) ;;
      VmDnsRecordListAdd r ;;;
      rotate_loop count l (u32 (dwRecordIndex + 1) mod dwCurrentSize l)
  end.

Definition VmDnsRecordListRoundRobin {St} (l : record_list) (dwIndex : Z) : RM St record_list :=
  new <- VmDnsRecordListCreate ;;
  build_list new (rotate_loop (length (ppRecords l)) l dwIndex).

(** The records as an array of their own. *)
Fixpoint copy_array {St} (rs : list dns_record) : RM St (list dns_record) :=
  match rs with
  | [] => rret []
  | r :: rs => VmDnsAllocateMemory 112 ;;; x <- VmDnsCopyRecord r ;; y <- copy_array rs ;; rret (x :: y)
  end.

Definition VmDnsCopyRecordArray {St} (l : record_list) : RM St (list dns_record) :=
  VmDnsAllocateMemory (112 * dwCurrentSize l) ;;; copy_array (ppRecords l).

(** ** Name entries *)

Record name_entry := NAME_ENTRY {
  nRefCount : Z; entry_pszName : list Z; pRecords : option record_list; dwRoundRobinIndex : Z; dwRoundRobinType : Z }.

Definition set_pRecords (l : option record_list) (n : name_entry) : name_entry :=
  NAME_ENTRY (nRefCount n) (entry_pszName n) l (dwRoundRobinIndex n) (dwRoundRobinType n).
Definition set_nRefCount (c : Z) (n : name_entry) : name_entry :=
  NAME_ENTRY c (entry_pszName n) (pRecords n) (dwRoundRobinIndex n) (dwRoundRobinType n).
Definition set_round_robin (i t : Z) (n : name_entry) : name_entry :=
  NAME_ENTRY (nRefCount n) (entry_pszName n) (pRecords n) i t.

Definition VmDnsNameEntryCreate {St} (pszName : list Z) : RM St name_entry :=
  VmDnsAllocateMemory 48 ;;;
  VmDnsAllocateStringA (pszName ++ [0]) ;;;
  l <- VmDnsRecordListCreate ;;
  rret (NAME_ENTRY 1 pszName (Some l) 0 0).

(** The round robin stays where it was. *)
Definition VmDnsNameEntryReplaceRecords (pRecordList : option record_list) : RM name_entry unit :=
  rset (set_pRecords pRecordList).

(** An operation on the list of the entry. *)
Definition on_records (m : RM record_list unit) : RM name_entry unit :=
  n <- rget ;;
  l <- rlift (pRecords n) ;;
  x <- run_on l m ;;
  rset (set_pRecords (Some x.2)) ;;;
  bail x.1.

Definition VmDnsNameEntryAddRecord (r : dns_record) : RM name_entry unit := on_records (VmDnsRecordListAdd r).
Definition VmDnsNameEntryRemoveRecord (self : option nat) (r : dns_record) : RM name_entry unit :=
  on_records (VmDnsRecordListRemove self r).

(** The records a query of the type is answered with. *)
Definition type_matches (rrType : Z) (r : dns_record) : bool :=
  (dwType r =? rrType) || (rrType =? VMDNS_RR_QTYPE_ANY) || (dwType r =? VMDNS_RR_TYPE_CNAME).

Fixpoint select_matching (rrType : Z) (rs : list dns_record) : RM record_list unit :=
  match rs with
  | [] => rret tt
  | r :: rs => (if type_matches rrType r then VmDnsRecordListAdd r else rret tt) ;;; select_matching rrType rs
  end.

Definition VmDnsNameEntryGetRecords (rrType : Z) : RM name_entry record_list :=
  n <- rget ;;
  match pRecords n with
  | None => rfail ERROR_NOT_FOUND
  | Some l =>
      let index := if dwRoundRobinType n =? rrType then dwRoundRobinIndex n else 0 in
      temp <- VmDnsRecordListCreate ;;
      temp <- build_list temp (select_matching rrType (ppRecords l)) ;;
      res <- VmDnsRecordListRoundRobin temp index ;;
      let index := if dwCurrentSize res =? 0 then index else u32 (index + 1) mod dwCurrentSize res in
      rset (set_round_robin index rrType) ;;;
      rret res
  end.

End Lists.

(** ** Lists that grow *)

Definition list_ok (l : record_list) : Prop := dwMaxSize l = slots l ∧ 1 <= slots l ∧ dwCurrentSize l <= slots l.

(** A computation that, with memory, appends the records to its list. *)
Definition appends (m : RM record_list unit) (rs : list dns_record) : Prop :=
  ∀ l e, list_ok l → quiet e → dwCurrentSize l + zlen rs < 2 ^ 31 →
  ∃ l' e', m l e = Some (inr tt, l', e') ∧ quiet e' ∧ list_ok l' ∧ ppRecords l' = ppRecords l ++ rs.

Lemma appends_ret : appends (rret tt) [].
Proof. intros l e Hl He _. exists l, e. split_and!; try done. by rewrite app_nil_r. Qed.

Lemma appends_bind m k rs rs' : appends m rs → appends k rs' → appends (m ;;; k) (rs ++ rs').
Proof.
  intros Hm Hk l e Hl He Hn. rewrite length_app in Hn.
  destruct (Hm l e Hl He ltac:(lia)) as (l1 & e1 & Hr & He1 & Hl1 & E1).
  destruct (Hk l1 e1 Hl1 He1) as (l2 & e2 & Hr2 & He2 & Hl2 & E2); [unfold dwCurrentSize in *; rewrite E1, length_app; lia |].
  exists l2, e2. unfold rbind. rewrite Hr. split_and!; try done. by rewrite E2, E1, app_assoc.
Qed.

Lemma appends_add r : appends (VmDnsRecordListAdd r) [r].
Proof.
  intros l e (Hm & H1 & Hs) He Hn. cbn [length] in Hn. unfold VmDnsRecordListAdd. unfold rbind at 1, rget at 1.
  rewrite Z.geb_leb. destruct (Z.leb_spec (dwMaxSize l) (dwCurrentSize l)) as [Hfull | Hroom].
  - unfold u32. rewrite Z.mod_small by (unfold dwCurrentSize in *; lia). unfold rbind, rset. rewrite alloc_ok by (done || lia).
    rewrite (proj2 (Z.ltb_ge _ _)) by lia. cbn [rret rget dwMaxSize slots ppRecords]. rewrite (proj2 (Z.ltb_lt _ _)) by (unfold dwCurrentSize in *; cbn; lia).
    eexists _, _. split_and!; [reflexivity | by apply quiet_tail | | done].
    unfold list_ok, dwCurrentSize in *. cbn. rewrite length_app. cbn. lia.
  - unfold rbind, rget. cbn [rret]. rewrite (proj2 (Z.ltb_lt _ _)) by lia. eexists _, _. split_and!; [reflexivity | done | | done].
    unfold list_ok, dwCurrentSize in *. cbn. rewrite length_app. cbn. lia.
Qed.

Lemma appends_all rs : appends (add_all rs) rs.
Proof.
  induction rs as [|r rs IH]; [apply appends_ret |]. exact (appends_bind _ _ [r] rs (appends_add r) IH).
Qed.

Lemma appends_select t rs : appends (select_matching t rs) (filter (λ r, type_matches t r) rs).
Proof.
  induction rs as [|r rs IH]; [apply appends_ret |]. cbn [select_matching]. rewrite filter_cons. destruct (decide (type_matches t r)) as [Hm | Hm].
  - rewrite (Is_true_eq_true _ Hm). exact (appends_bind _ _ [r] _ (appends_add r) IH).
  - destruct (type_matches t r); [by destruct Hm |]. exact (appends_bind _ _ [] _ appends_ret IH).
Qed.

(** The list from an index on, around its end. *)
Definition rotated {A} (i : nat) (l : list A) : list A := drop i l ++ take i l.

Lemma rotated_perm {A} i (l : list A) : rotated i l ≡ₚ l.
Proof. unfold rotated. rewrite Permutation_app_comm. by rewrite take_drop. Qed.

Lemma length_rotated {A} i (l : list A) : length (rotated i l) = length l.
Proof. by rewrite rotated_perm. Qed.

(** The walk of an index around a list. *)
Lemma walk_step {A} (l : list A) i k : (i < length l)%nat → (S k <= length l)%nat →
  ∃ x, l !! i = Some x ∧ take (S k) (drop i l ++ l) = x :: take k (drop (S i mod length l) l ++ l).
Proof.
  intros Hi Hk. destruct (lookup_lt_is_Some_2 l i Hi) as [x Hx]. exists x. split; [done |].
  rewrite (drop_S l x i Hx). cbn [app take]. f_equal. destruct (decide (S i = length l)) as [E | E].
  - rewrite E, Nat.Div0.mod_same, drop_all, drop_0. cbn [app]. by rewrite take_app_le by lia.
  - rewrite Nat.mod_small by lia. done.
Qed.

Lemma appends_rotate l k : ∀ i, (i < length (ppRecords l))%nat → (k <= length (ppRecords l))%nat → dwCurrentSize l < 2 ^ 31 →
  appends (rotate_loop k l (Z.of_nat i)) (take k (drop i (ppRecords l) ++ ppRecords l)).
Proof.
  induction k as [|k IH]; intros i Hi Hk Hn; [apply appends_ret |].
  destruct (walk_step (ppRecords l) i k Hi Hk) as (r & Hr & ->). cbn [rotate_loop].
  unfold VmDnsRecordListGetRecord. rewrite Nat2Z.id, Hr.
  replace (u32 (Z.of_nat i + 1) mod dwCurrentSize l) with (Z.of_nat (S i mod length (ppRecords l))).
  - apply (appends_bind _ _ [r]); [apply appends_add | apply IH; [apply Nat.mod_upper_bound; lia | lia | done]].
  - unfold u32, dwCurrentSize in *. rewrite (Z.mod_small (Z.of_nat i + 1)) by lia. rewrite Nat2Z.inj_mod. f_equal. lia.
Qed.

Lemma create_run {St} (s : St) e : quiet e →
  ∃ e', VmDnsRecordListCreate s e = Some (inr (RECORD_LIST 10 10 []), s, e') ∧ quiet e'.
Proof.
  intros He. exists (tail (tail e)). split; [| by do 2 apply quiet_tail]. unfold VmDnsRecordListCreate, rbind.
  rewrite alloc_ok by done. rewrite alloc_ok by (done || by apply quiet_tail). done.
Qed.

(** A fresh list the records are appended to. *)
Lemma build_run {St} m rs (s : St) e : appends m rs → quiet e → zlen rs < 2 ^ 31 →
  ∃ l e', (new <- VmDnsRecordListCreate ;; build_list new m) s e = Some (inr l, s, e') ∧ quiet e' ∧ list_ok l ∧ ppRecords l = rs.
Proof.
  intros Hm He Hn. destruct (create_run s e He) as (e1 & Hr & He1). unfold rbind. rewrite Hr.
  destruct (Hm (RECORD_LIST 10 10 []) e1) as (l & e2 & Hr2 & He2 & Hl & E); [done | done | unfold dwCurrentSize; cbn; lia |].
  exists l, e2. unfold build_list, run_on, rbind, bail. rewrite Hr2. done.
Qed.

Lemma round_robin_run {St} l i (s : St) e : quiet e → dwCurrentSize l < 2 ^ 31 →
  (ppRecords l = [] ∨ (i < length (ppRecords l))%nat) →
  ∃ l' e', VmDnsRecordListRoundRobin l (Z.of_nat i) s e = Some (inr l', s, e') ∧ quiet e' ∧ list_ok l' ∧ ppRecords l' = rotated i (ppRecords l).
Proof.
  intros He Hn Hi. unfold VmDnsRecordListRoundRobin. apply build_run; [| done | by rewrite length_rotated].
  destruct (decide (ppRecords l = [])) as [E | E].
  - rewrite E. unfold rotated. rewrite drop_nil, take_nil. apply appends_ret.
  - destruct Hi as [Hi | Hi]; [done |]. unfold rotated.
    pose proof (appends_rotate l (length (ppRecords l)) i Hi (le_n _) Hn) as Ha.
    replace (drop i (ppRecords l) ++ take i (ppRecords l)) with (take (length (ppRecords l)) (drop i (ppRecords l) ++ ppRecords l)); [done |].
    rewrite take_app_ge by (rewrite length_drop; lia). f_equal. f_equal. rewrite length_drop. lia.
Qed.

(** ** Answers *)

Definition matching (t : Z) (l : record_list) : list dns_record := filter (λ r, type_matches t r) (ppRecords l).

(** Where the answer to a query of the type starts. *)
Definition answer_index (t : Z) (n : name_entry) : Z := if dwRoundRobinType n =? t then dwRoundRobinIndex n else 0.

(** The index is one of the records that are served: the entry was not given
    other records since it was last asked. *)
Definition index_ok (t : Z) (l : record_list) (n : name_entry) : Prop :=
  matching t l = [] ∧ answer_index t n = 0 ∨ 0 <= answer_index t n < zlen (matching t l).

Lemma matching_short t l : zlen (matching t l) <= dwCurrentSize l.
Proof. unfold matching, dwCurrentSize. pose proof (length_filter (λ r, type_matches t r) (ppRecords l)). lia. Qed.

Lemma get_records_run t n l e : pRecords n = Some l → dwCurrentSize l < 2 ^ 31 → quiet e → index_ok t l n →
  ∃ res e' i, VmDnsNameEntryGetRecords t n e = Some (inr res, set_round_robin i t n, e') ∧ quiet e' ∧ list_ok res ∧
    ppRecords res = rotated (Z.to_nat (answer_index t n)) (matching t l) ∧
    i = (if zlen (matching t l) =? 0 then answer_index t n else (answer_index t n + 1) mod zlen (matching t l)).
Proof.
  intros Hl Hn He Hi. pose proof (matching_short t l) as Hs. unfold VmDnsNameEntryGetRecords. unfold rbind at 1, rget at 1.
  rewrite Hl. fold (answer_index t n).
  destruct (build_run (select_matching t (ppRecords l)) (matching t l) n e (appends_select t _) He ltac:(lia)) as (temp & e1 & Hr1 & He1 & _ & Et).
  destruct (create_run n e He) as (e0 & Hr0 & _). unfold rbind in Hr1. rewrite Hr0 in Hr1.
  unfold rbind at 1. rewrite Hr0. unfold rbind at 1. rewrite Hr1.
  destruct (round_robin_run temp (Z.to_nat (answer_index t n)) n e1) as (res & e2 & Hr2 & He2 & Hok & Er).
  { done. } { unfold dwCurrentSize in *. rewrite Et. lia. } { rewrite Et. destruct Hi as [[Hi _] | Hi]; [by left | right; lia]. }
  rewrite Z2Nat.id in Hr2 by (destruct Hi; lia). unfold rbind at 1. rewrite Hr2. rewrite Et in Er.
  assert (Hsz : dwCurrentSize res = zlen (matching t l)) by (unfold dwCurrentSize; by rewrite Er, length_rotated).
  exists res, e2, (if zlen (matching t l) =? 0 then answer_index t n else (answer_index t n + 1) mod zlen (matching t l)).
  split_and!; try done. unfold rbind, rset, rret. rewrite Hsz. destruct (Z.eqb_spec (zlen (matching t l)) 0); [done |].
  unfold u32. rewrite (Z.mod_small (answer_index t n + 1)); [done |]. destruct Hi as [[E _] | Hi]; [by rewrite E in * | lia].
Qed.

(** Queries of one type, one after the other. *)
Fixpoint queries (k : nat) (t : Z) : RM name_entry (list (list dns_record)) :=
  match k with
  | O => rret []
  | S k => l <- VmDnsNameEntryGetRecords t ;; ls <- queries k t ;; rret (ppRecords l :: ls)
  end.

Lemma queries_run t l k : ∀ n e, pRecords n = Some l → dwCurrentSize l < 2 ^ 31 → quiet e → matching t l ≠ [] → index_ok t l n →
  (k <= length (matching t l))%nat →
  ∃ n' e' ls, queries k t n e = Some (inr ls, n', e') ∧ quiet e' ∧ pRecords n' = Some l ∧ index_ok t l n' ∧
    Forall (λ a, a ≡ₚ matching t l) ls ∧
    map head ls = map Some (take k (drop (Z.to_nat (answer_index t n)) (matching t l) ++ matching t l)).
Proof.
  induction k as [|k IH]; intros n e Hl Hn He Hm Hi Hk; [by exists n, e, [] |]. cbn [queries].
  destruct (get_records_run t n l e Hl Hn He Hi) as (res & e1 & i & Hr & He1 & _ & Er & Ei).
  destruct Hi as [[? _] | Hi]; [done |]. rewrite (proj2 (Z.eqb_neq _ _)) in Ei by lia.
  assert (Ha : answer_index t (set_round_robin i t n) = i) by (unfold answer_index; cbn; by rewrite Z.eqb_refl).
  pose proof (Z.mod_pos_bound (answer_index t n + 1) (zlen (matching t l)) ltac:(lia)) as Hb.
  destruct (IH (set_round_robin i t n) e1) as (n2 & e2 & ls & Hr2 & He2 & Hl2 & Hi2 & Hp2 & Hh2); try done; [right; lia | lia |].
  exists n2, e2, (ppRecords res :: ls). unfold rbind. rewrite Hr, Hr2. split_and!; try done.
  - constructor; [| done]. rewrite Er. apply rotated_perm.
  - cbn [map]. rewrite Hh2, Ha, Ei.
    destruct (walk_step (matching t l) (Z.to_nat (answer_index t n)) k ltac:(lia) Hk) as (x & Hx & ->). cbn [map]. f_equal.
    + rewrite Er. unfold rotated. by rewrite (drop_S _ x _ Hx).
    + do 4 f_equal. rewrite Z2Nat.inj_mod by lia. rewrite Nat2Z.id. f_equal. lia.
Qed.

(** C23: the round robin is fair: among as many consecutive queries of a type
    as the entry has records for it, every answer holds all of these records,
    and every record is the first of exactly one answer. *)
Theorem round_robin_fair t n l e : pRecords n = Some l → dwCurrentSize l < 2 ^ 31 → quiet e →
  matching t l ≠ [] → index_ok t l n →
  ∃ n' e' ls, queries (length (matching t l)) t n e = Some (inr ls, n', e') ∧
    Forall (λ a, a ≡ₚ matching t l) ls ∧ map head ls ≡ₚ map Some (matching t l) ∧
    index_ok t l n' ∧ pRecords n' = Some l.
Proof.
  intros Hl Hn He Hm Hi. destruct (queries_run t l (length (matching t l)) n e Hl Hn He Hm Hi (le_n _))
    as (n' & e' & ls & Hr & _ & Hl' & Hi' & Hp & Hh).
  exists n', e', ls. split_and!; try done. rewrite Hh. apply Permutation_map.
  destruct Hi as [[? _] | Hi]; [done |].
  rewrite take_app_ge by (rewrite length_drop; lia). rewrite length_drop.
  replace (length (matching t l) - (length (matching t l) - Z.to_nat (answer_index t n)))%nat with (Z.to_nat (answer_index t n)) by lia.
  apply rotated_perm.
Qed.

(** The loops of the list never take a record out: removing a record never
    returns success. *)
Lemma remove_fails `{StringCompare} self r l e out l' e' :
  VmDnsRecordListRemove self r l e = Some (out, l', e') → out = inl ERROR_NOT_FOUND.
Proof.
  unfold VmDnsRecordListRemove, rbind, rget, rlift.
  destruct (find_record self r (ppRecords l) 0) as [[i|]|]; [case_bool_decide; [done |] | | done]; by intros [= <- _ _].
Qed.

(** ** Concrete entries *)

Definition addr (a : Z) : dns_record := DNS_RECORD (Some [97]) VMDNS_RR_TYPE_A VMDNS_CLASS_IN 60 (D_A a).
Definition three_hosts : record_list := RECORD_LIST 10 10 [addr 1; host_a; addr 2; addr 3].
Definition entry_of (l : record_list) (i : Z) : name_entry := NAME_ENTRY 2 [97] (Some l) i VMDNS_RR_TYPE_A.

Lemma round_robin_fair_witness :
  ∃ n' e' ls, queries 3 VMDNS_RR_TYPE_A (entry_of three_hosts 1) [] = Some (inr ls, n', e') ∧
    Forall (λ a, a ≡ₚ matching VMDNS_RR_TYPE_A three_hosts) ls ∧ map head ls ≡ₚ map Some (matching VMDNS_RR_TYPE_A three_hosts) ∧
    index_ok VMDNS_RR_TYPE_A three_hosts n' ∧ pRecords n' = Some three_hosts.
Proof.
  exact (round_robin_fair VMDNS_RR_TYPE_A (entry_of three_hosts 1) three_hosts [] eq_refl eq_refl (Forall_nil_2 _)
    ltac:(by vm_compute) ltac:(right; by vm_compute)).
Defined.

Example three_queries :
  queries 4 VMDNS_RR_TYPE_A (entry_of three_hosts 1) [] =
  Some (inr [[addr 2; addr 3; addr 1]; [addr 3; addr 1; addr 2]; [addr 1; addr 2; addr 3]; [addr 2; addr 3; addr 1]],
    entry_of three_hosts 2, []).
Proof. by vm_compute. Qed.

(** Queries of another type in between start the answers over. *)
Example alternating_types :
  (x <- VmDnsNameEntryGetRecords VMDNS_RR_TYPE_A ;; VmDnsNameEntryGetRecords VMDNS_RR_TYPE_AAAA ;;;
   y <- VmDnsNameEntryGetRecords VMDNS_RR_TYPE_A ;; rret (head (ppRecords x), head (ppRecords y))) (entry_of three_hosts 0) [] =
  Some (inr (Some (addr 1), Some (addr 1)), entry_of three_hosts 1, []).
Proof. by vm_compute. Qed.

(** When the records of an entry are replaced by fewer, the index is out of
    their range: the assertion fails. *)
Example stale_index :
  (VmDnsNameEntryGetRecords VMDNS_RR_TYPE_A ;;; VmDnsNameEntryGetRecords VMDNS_RR_TYPE_A ;;;
   VmDnsNameEntryReplaceRecords (Some (RECORD_LIST 10 10 [addr 9])) ;;; VmDnsNameEntryGetRecords VMDNS_RR_TYPE_A)
    (entry_of three_hosts 0) [] = None.
Proof. by vm_compute. Qed.

(** After a growth without memory the next record is written behind the block. *)
Example add_after_failed_growth :
  (rtry (VmDnsRecordListAdd (addr 11)) ;;; VmDnsRecordListAdd (addr 12)) (RECORD_LIST 10 10 (map addr (seqZ 0 10))) [1] = None.
Proof. by vm_compute. Qed.
