(* ===== verification/DnsZone.v ===== *)
(** * DnsZone: the cache of a zone

    [vmdns/server/common/zone.c], the name entries of a zone in a hash table,
    and [lru.c], the list that orders them by their last use, with the eviction
    of [cache.c].  Entries are shared between the table, the list and the
    operations that hold them: they live in a store at their addresses, with
    their reference counts, and a released entry is gone from the store.  The
    list of the links is the list of the addresses it goes through; unlinking an
    entry that is not linked is undefined.  The lock of the zone is a flag: the
    model has one thread, for which taking it twice does not return. *)

From S2P Require Import Prelude Heap Effects DnsBuffer DnsName DnsRecord DnsRecordOps DnsHashTable DnsRecordList.
From stdpp Require Import gmap.

Open Scope Z_scope.

(** ** The zone *)

Record lru_list := LRU_LIST {
  LruListHead : list Z; dwCurrentCount : Z; dwMaxCount : Z; dwLowerThreshold : Z; dwUpperThreshold : Z }.

Record zone_object := ZONE_OBJECT {
  zone_name : list Z; zoneId : Z; pNameEntries : hash_table Z; pLruList : lru_list;
  entries : gmap Z name_entry; next_entry : Z; locked : bool }.

Definition set_names (t : hash_table Z) (z : zone_object) : zone_object :=
  ZONE_OBJECT (zone_name z) (zoneId z) t (pLruList z) (entries z) (next_entry z) (locked z).
Definition set_lru (l : lru_list) (z : zone_object) : zone_object :=
  ZONE_OBJECT (zone_name z) (zoneId z) (pNameEntries z) l (entries z) (next_entry z) (locked z).
Definition set_entries (m : gmap Z name_entry) (z : zone_object) : zone_object :=
  ZONE_OBJECT (zone_name z) (zoneId z) (pNameEntries z) (pLruList z) m (next_entry z) (locked z).
Definition set_next (n : Z) (z : zone_object) : zone_object :=
  ZONE_OBJECT (zone_name z) (zoneId z) (pNameEntries z) (pLruList z) (entries z) n (locked z).
Definition set_locked (b : bool) (z : zone_object) : zone_object :=
  ZONE_OBJECT (zone_name z) (zoneId z) (pNameEntries z) (pLruList z) (entries z) (next_entry z) b.

Definition VMDNS_LRU_SIZE : Z := 10000.
Definition VMDNS_LRU_PURGE : Z := 10.
Definition VMDNS_LRU_PURGEFAST : Z := 20.
Definition VMDNS_LRU_UPPERTHRES : Z := 80.
Definition VMDNS_LRU_LOWERTHRES : Z := 60.
Definition DEFAULT_NAME_HASHTABLE_SIZE : Z := 97.
Definition VMDNS_ZONE_ID_PRIMARY : Z := 1.
Definition VMDNS_ZONE_ID_FORWARDER : Z := 4.

Section Zone.
Context `{StringCompare}.

Abbreviation ZM := (RM zone_object).

(** ** Entries in the store *)

Definition get_entry (id : Z) : ZM name_entry := z <- rget ;; rlift (entries z !! id).

(** An operation on an entry, and one on the table. *)
Definition on_entry {A} (id : Z) (m : RM name_entry A) : ZM A :=
  n <- get_entry id ;;
  x <- run_on n m ;;
  rset (λ z, set_entries (<[id := x.2]> (entries z)) z) ;;;
  bail x.1.

Definition on_names {A} (m : RM (hash_table Z) A) : ZM A :=
  z <- rget ;;
  x <- run_on (pNameEntries z) m ;;
  rset (set_names x.2) ;;;
  bail x.1.

Definition VmDnsNameEntryAddRef (id : Z) : ZM unit :=
  n <- get_entry id ;;
  rset (λ z, set_entries (<[id := set_nRefCount (s32 (nRefCount n + 1)) n]> (entries z)) z).

Definition VmDnsNameEntryRelease (id : Z) : ZM unit :=
  n <- get_entry id ;;
  if s32 (nRefCount n - 1) =? 0 then rset (λ z, set_entries (delete id (entries z)) z)
  else rset (λ z, set_entries (<[id := set_nRefCount (s32 (nRefCount n - 1)) n]> (entries z)) z).

(** A new entry at a new address. *)
Definition new_entry (pszName : list Z) : ZM Z :=
  n <- VmDnsNameEntryCreate pszName ;;
  z <- rget ;;
  rset (λ z, set_next (next_entry z + 1) (set_entries (<[next_entry z := n]> (entries z)) z)) ;;;
  rret (next_entry z).

(** [cleanup: VmDnsNameEntryRelease(pNameEntry)] *)
Definition releasing {A} (id : Z) (m : ZM A) : ZM A :=
  r <- rtry m ;;
  VmDnsNameEntryRelease id ;;;
  bail r.

(** [VmDnsLockWrite] or [VmDnsLockRead] at the start and the unlocking at the
    end. *)
Definition with_lock {A} (m : ZM A) : ZM A :=
  z <- rget ;;
  if locked z then rub
  else
    rset (set_locked true) ;;;
    r <- rtry m ;;
    rset (set_locked false) ;;;
    bail r.

(** ** The table of the names *)

Definition VmDnsZoneFindNameEntry (pszName : list Z) : ZM Z :=
  id <- on_names (VmDnsHashTableGet pszName) ;;
  VmDnsNameEntryAddRef id ;;;
  rret id.

Definition VmDnsZoneAddNameEntry (id : Z) : ZM unit :=
  n <- get_entry id ;;
  on_names (VmDnsHashTableInsert (entry_pszName n) id) ;;;
  VmDnsNameEntryAddRef id.

Definition VmDnsZoneRemoveNameEntry (id : Z) : ZM unit :=
  n <- get_entry id ;;
  on_names (VmDnsHashTableRemove (entry_pszName n)) ;;;
  VmDnsNameEntryRelease id.

(** ** The order of use *)

Definition VmDnsLruInitialize {St} : RM St lru_list :=
  VmDnsAllocateMemory 56 ;;;
  VmDnsAllocateMemory 48 ;;;
  rret (LRU_LIST [] 0 VMDNS_LRU_SIZE (u32 (VMDNS_LRU_SIZE * VMDNS_LRU_LOWERTHRES) / 100)
    (u32 (VMDNS_LRU_SIZE * VMDNS_LRU_UPPERTHRES) / 100)).

Definition set_links (ids : list Z) (count : Z) : ZM unit :=
  rset (λ z, let l := pLruList z in set_lru (LRU_LIST ids count (dwMaxCount l) (dwLowerThreshold l) (dwUpperThreshold l)) z).

(** [RemoveEntryList] *)
Definition unlink (id : Z) (ids : list Z) : option (list Z) :=
  if bool_decide (id ∈ ids) then Some (filter (λ x, x ≠ id) ids) else None.

(** [VmDnsCacheEvictEntryProc] of [cache.c]: the entry of the zone itself stays
    in the table. *)
Definition VmDnsCacheEvictEntryProc (id : Z) : ZM unit :=
  n <- get_entry id ;;
  z <- rget ;;
  if VmDnsStringCompareA (Some (zone_name z)) (Some (entry_pszName n)) false =? 0 then rfail ERROR_INVALID_PARAMETER
  else VmDnsZoneRemoveNameEntry id.

(** From the least recently used entry on.  [links] are the entries from
    [pLink] towards the head; the step to the next one reads the link of the
    entry that has just been released. *)
Fixpoint clear_loop (links : list Z) (dwCount : Z) : ZM unit :=
  match links with
  | [] => rret tt
  | id :: links =>
      if dwCount <=? 0 then rret tt
      else
        z <- rget ;;
        ids <- rlift (unlink id (LruListHead (pLruList z))) ;;
        set_links ids (u32 (dwCurrentCount (pLruList z) - 1)) ;;;
        r <- rtry (VmDnsCacheEvictEntryProc id) ;;
        match r with
        | inl err =>
            if bool_decide (err = ERROR_INVALID_PARAMETER)
            then VmDnsNameEntryRelease id ;;; get_entry id ;;; clear_loop links dwCount
            else rfail err
        | inr _ => VmDnsNameEntryRelease id ;;; get_entry id ;;; clear_loop links (dwCount - 1)
        end
  end.

Definition VmDnsLruClearEntries (dwCount : Z) : ZM unit :=
  z <- rget ;; clear_loop (rev (LruListHead (pLruList z))) dwCount.

Definition VmDnsLruAddNameEntry (id : Z) : ZM unit :=
  z <- rget ;;
  (if dwCurrentCount (pLruList z) >=? dwMaxCount (pLruList z) then VmDnsLruClearEntries 10 else rret tt) ;;;
  z <- rget ;;
  set_links (id :: LruListHead (pLruList z)) (dwCurrentCount (pLruList z)) ;;;
  VmDnsNameEntryAddRef id ;;;
  z <- rget ;;
  set_links (LruListHead (pLruList z)) (u32 (dwCurrentCount (pLruList z) + 1)).

Definition VmDnsLruRemoveNameEntry (id : Z) : ZM unit :=
  z <- rget ;;
  ids <- rlift (unlink id (LruListHead (pLruList z))) ;;
  set_links ids (u32 (dwCurrentCount (pLruList z) - 1)) ;;;
  VmDnsNameEntryRelease id.

Definition VmDnsLruRefreshNameEntry (id : Z) : ZM unit :=
  z <- rget ;;
  ids <- rlift (unlink id (LruListHead (pLruList z))) ;;
  set_links (id :: ids) (dwCurrentCount (pLruList z)).

Definition VmDnsLruTrimEntries (dwCount : Z) : ZM unit := VmDnsLruClearEntries dwCount.

Definition VmDnsLruGetPurgeInterval (l : lru_list) : Z :=
  if dwCurrentCount l >? dwUpperThreshold l then 30 else if dwCurrentCount l >? dwLowerThreshold l then 60 else 120.
Definition VmDnsLruIsPurgingNeeded (l : lru_list) : bool := dwCurrentCount l >? dwLowerThreshold l.
Definition VmDnsLruGetPurgeRate (l : lru_list) : Z :=
  if dwCurrentCount l >? dwUpperThreshold l then VMDNS_LRU_PURGEFAST else VMDNS_LRU_PURGE.

(** ** Operations of the zone *)

(** The entry of the name, a new one when there is none; it is held by the
    caller. *)
Definition find_or_add (pszName : list Z) : ZM Z :=
  r <- rtry (VmDnsZoneFindNameEntry pszName) ;;
  match r with
  | inr id => rret id
  | inl err =>
      if bool_decide (err = ERROR_NOT_FOUND) then
        id <- new_entry pszName ;;
        r <- rtry (VmDnsZoneAddNameEntry id ;;; VmDnsLruAddNameEntry id) ;;
        match r with
        | inr _ => rret id
        | inl err => VmDnsNameEntryRelease id ;;; rfail err
        end
      else rfail err
  end.

Definition VmDnsZoneUpdateRecords (pszName : list Z) (pRecordList : option record_list) : ZM unit :=
  with_lock (
    id <- find_or_add pszName ;;
    releasing id (on_entry id (VmDnsNameEntryReplaceRecords pRecordList))).

Definition VmDnsZoneAddRecord (r : dns_record) : ZM unit :=
  with_lock (
    name <- rlift (pszName r) ;;
    id <- find_or_add name ;;
    releasing id (on_entry id (VmDnsNameEntryAddRecord r))).

Definition VmDnsZoneRemoveRecord (self : option nat) (r : dns_record) : ZM unit :=
  with_lock (
    name <- rlift (pszName r) ;;
    id <- VmDnsZoneFindNameEntry name ;;
    releasing id (on_entry id (VmDnsNameEntryRemoveRecord self r))).

Definition VmDnsZonePurgeRecords (pszName : list Z) : ZM unit :=
  r <- rtry (with_lock (
    id <- VmDnsZoneFindNameEntry pszName ;;
    r <- rtry (VmDnsZoneRemoveNameEntry id ;;; VmDnsLruRemoveNameEntry id) ;;
    rret (id, r))) ;;
  match r with
  | inl err => rfail err
  | inr (id, r) => VmDnsNameEntryRelease id ;;; bail r
  end.

(** The records of a name, and whether the name is in the zone. *)
Definition VmDnsZoneGetRecords (pszName : list Z) (dwType : Z) : ZM ((dwerror + record_list) * bool) :=
  r <- rtry (with_lock (
    id <- VmDnsZoneFindNameEntry pszName ;;
    r <- rtry (
      l <- on_entry id (VmDnsNameEntryGetRecords dwType) ;;
      VmDnsLruRefreshNameEntry id ;;;
      rret l) ;;
    rret (id, r))) ;;
  match r with
  | inl err => rret (inl err, false)
  | inr (id, r) => VmDnsNameEntryRelease id ;;; rret (r, true)
  end.

Definition VmDnsZoneIsPurgingNeeded : ZM bool :=
  with_lock (z <- rget ;; rret (dwCurrentCount (pLruList z) >? dwLowerThreshold (pLruList z))).

Definition VmDnsZoneGetSoaRecord : ZM dns_record :=
  z <- rget ;;
  id <- VmDnsZoneFindNameEntry (zone_name z) ;;
  releasing id (
    l <- on_entry id (VmDnsNameEntryGetRecords VMDNS_RR_TYPE_SOA) ;;
    if dwCurrentSize l =? 1 then rlift (VmDnsRecordListGetRecord l 0) else rfail ERROR_INTERNAL_ERROR).

(** ** Making and describing zones *)

Record zone_info := ZONE_INFO {
  info_pszName : list Z; pszPrimaryDnsSrvName : list Z; pszRName : list Z; serial : Z; refreshInterval : Z;
  retryInterval : Z; expire : Z; minimum : Z; dwZoneType : Z }.

Definition VMDNS_ZONE_TYPE_FORWARD : Z := 0.
Definition VMDNS_ZONE_TYPE_REVERSE : Z := 1.
Definition VMDNS_ZONE_TYPE_FORWARDER : Z := 2.
Definition VMDNS_PROPERTY_ID_ZONE_ID : Z := 1.

(** The member [ZoneId] of the last property with its identifier. *)
Definition zone_id_of (pPropertyList : option (list (Z * Z))) : Z :=
  fold_left (λ id p, if p.1 =? VMDNS_PROPERTY_ID_ZONE_ID then p.2 else id) (default [] pPropertyList) VMDNS_ZONE_ID_PRIMARY.

(** When memory is refused before the zone has its lock, the release of the
    zone takes the lock that is not there. *)
Definition VmDnsZoneCreateFromRecordList {St} (szZoneName : list Z) (pRecordList : option record_list)
    (pPropertyList : option (list (Z * Z))) : RM St zone_object :=
  VmDnsAllocateMemory 72 ;;;
  r <- rtry (
    VmDnsAllocateStringA (szZoneName ++ [0]) ;;;
    t <- VmDnsHashTableAllocate DEFAULT_NAME_HASHTABLE_SIZE ;;
    VmDnsAllocateMemory 56 ;;;
    rret t) ;;
  match r with
  | inl _ => rub
  | inr t =>
      lru <- VmDnsLruInitialize ;;
      x <- run_on (ZONE_OBJECT szZoneName (zone_id_of pPropertyList) t lru ∅ 1 false) (VmDnsZoneUpdateRecords szZoneName pRecordList) ;;
      bail x.1 ;;;
      VmDnsAllocateMemory 32 ;;;
      VmDnsAllocateMemory 56 ;;;
      rret x.2
  end.

(** [VmDnsCreateSoaRecord] of [record.c], in a record object. *)
Definition VmDnsCreateSoaRecord {St} (zi : zone_info) : RM St dns_record :=
  VmDnsAllocateMemory 112 ;;;
  VmDnsAllocateStringA (info_pszName zi ++ [0]) ;;;
  VmDnsAllocateStringA (pszPrimaryDnsSrvName zi ++ [0]) ;;;
  VmDnsAllocateStringA (pszRName zi ++ [0]) ;;;
  rret (DNS_RECORD (Some (info_pszName zi)) VMDNS_RR_TYPE_SOA VMDNS_CLASS_IN 0
    (D_SOA (SOA_DATA (Some (pszPrimaryDnsSrvName zi)) (Some (pszRName zi)) (serial zi) (refreshInterval zi)
      (retryInterval zi) (expire zi) (minimum zi)))).

Definition VmDnsZoneCreateSoaRecord {St} (zi : zone_info) : RM St dns_record :=
  r <- VmDnsCreateSoaRecord zi ;; VmDnsAllocateMemory 16 ;;; rret r.

(** The record of the zone is removed and added with the lock of the zone held,
    which both take. *)
Definition VmDnsZoneUpdate (self : option nat) (zi : zone_info) : ZM unit :=
  with_lock (
    new <- VmDnsZoneCreateSoaRecord zi ;;
    old <- VmDnsZoneGetSoaRecord ;;
    VmDnsZoneRemoveRecord self old ;;;
    VmDnsZoneAddRecord new).

(** [VmDnsIsReverseZoneName] of [utils.c]: the end of the name is looked at
    where the suffix would start, also when the name is shorter. *)
Definition in_addr_arpa : list Z := [105; 110; 45; 97; 100; 100; 114; 46; 97; 114; 112; 97; 46].
Definition ip6_arpa : list Z := [105; 112; 54; 46; 97; 114; 112; 97; 46].

Definition has_tail (pszZoneName suffix : list Z) : option bool :=
  if zlen pszZoneName <? zlen suffix then None
  else Some (VmDnsStringCompareA (Some (drop (length pszZoneName - length suffix) pszZoneName)) (Some suffix) false =? 0).

Definition VmDnsIsReverseZoneName (pszZoneName : list Z) : option bool :=
  if bool_decide (pszZoneName = []) then Some false
  else has_tail pszZoneName in_addr_arpa ≫= λ b : bool, if b then Some true else has_tail pszZoneName ip6_arpa.

Definition zone_type (z : zone_object) : option Z :=
  option_map (λ b : bool, if b then VMDNS_ZONE_TYPE_REVERSE else VMDNS_ZONE_TYPE_FORWARD) (VmDnsIsReverseZoneName (zone_name z)).

(** [VmDnsZoneCopyZoneInfo] and [VmDnsZoneCopySoaInfo]: what they write of the
    description. *)
Definition VmDnsZoneCopyZoneInfo : ZM zone_info :=
  with_lock (
    z <- rget ;;
    VmDnsAllocateStringA (zone_name z ++ [0]) ;;;
    if zoneId z =? VMDNS_ZONE_ID_PRIMARY then
      soa <- VmDnsZoneGetSoaRecord ;;
      match Data soa with
      | D_SOA d =>
          VmDnsAllocateStringA (zone_name z ++ [0]) ;;;
          primary <- rlift (pNamePrimaryServer d) ;;
          VmDnsAllocateStringA (primary ++ [0]) ;;;
          admin <- rlift (pNameAdministrator d) ;;
          VmDnsAllocateStringA (admin ++ [0]) ;;;
          t <- rlift (zone_type z) ;;
          rret (ZONE_INFO (zone_name z) primary admin (dwSerialNo d) (dwRefresh d) (dwRetry d) (dwExpire d) (dwDefaultTtl d) t)
      | _ => rub
      end
    else if zoneId z =? VMDNS_ZONE_ID_FORWARDER then rret (ZONE_INFO (zone_name z) [] [] 0 0 0 0 0 VMDNS_ZONE_TYPE_FORWARDER)
    else rret (ZONE_INFO (zone_name z) [] [] 0 0 0 0 0 0)).

End Zone.

(** ** The zone as a list of cells in the order of their use *)

(** [m] is the table: the address of every name.  Every entry is held by the
    table and by the list. *)
Record zone_wf (z : zone_object) (m : gmap (list Z) Z) : Prop := {
  wf_table : rep (pNameEntries z) m;
  wf_unlocked : locked z = false;
  wf_links : LruListHead (pLruList z) ≡ₚ (map_to_list m).*2;
  wf_nodup : NoDup (LruListHead (pLruList z));
  wf_count : dwCurrentCount (pLruList z) = zlen (LruListHead (pLruList z));
  wf_named : ∀ k id, m !! k = Some id → ∃ n, entries z !! id = Some n ∧ entry_pszName n = k ∧ nRefCount n = 2;
  wf_stored : ∀ id n, entries z !! id = Some n → m !! entry_pszName n = Some id ∧ id < next_entry z }.

(** The cells, the most recently used first. *)
Definition cells (z : zone_object) : list name_entry := omap (λ id, entries z !! id) (LruListHead (pLruList z)).

Definition named (pszName : list Z) (n : name_entry) : bool := bool_decide (entry_pszName n = pszName).

Lemma entry_count_id n : set_nRefCount (nRefCount n) n = n.
Proof. by destruct n. Qed.

Lemma links_member z m id : zone_wf z m → id ∈ LruListHead (pLruList z) ↔ ∃ k, m !! k = Some id.
Proof.
  intros Hz. rewrite (wf_links _ _ Hz), list_elem_of_fmap. split.
  - intros ([k i] & -> & Hin). exists k. by apply elem_of_map_to_list.
  - intros [k Hk]. exists (k, id). split; [done |]. by apply elem_of_map_to_list.
Qed.

(** The entry of a name. *)
Lemma wf_entry z m k id : zone_wf z m → m !! k = Some id →
  ∃ n, entries z !! id = Some n ∧ entry_pszName n = k ∧ nRefCount n = 2 ∧ id ∈ LruListHead (pLruList z).
Proof.
  intros Hz Hk. destruct (wf_named _ _ Hz k id Hk) as (n & Hn & Hname & Hc). exists n. split_and!; try done.
  apply (links_member z m id Hz). eauto.
Qed.

Section ZoneLaws.
Context `{StringCompare}.

Lemma zone_find_none z m name e : zone_wf z m → name ≠ [] → m !! name = None → VmDnsZoneFindNameEntry name z e = Some (inl ERROR_NOT_FOUND, z, e).
Proof.
  intros Hz Hne Hm. unfold VmDnsZoneFindNameEntry, on_names, rbind, rget, run_on.
  destruct (rep_find (pNameEntries z) m name e (wf_table _ _ Hz)) as (f & Hr & Hf).
  assert (VmDnsHashTableGet name (pNameEntries z) e = Some (inl ERROR_NOT_FOUND, pNameEntries z, e)) as ->.
  { unfold VmDnsHashTableGet. rewrite bool_decide_eq_false_2 by done. unfold rbind. rewrite Hr.
    destruct f as [[[b n] a]|]; [| done]. destruct Hf as (_ & Hf & _). congruence. }
  cbn. by destruct z.
Qed.

Lemma table_get_some (t : hash_table Z) m name id e : rep t m → name ≠ [] → m !! name = Some id →
  VmDnsHashTableGet name t e = Some (inr id, t, e).
Proof.
  intros Ht Hne Hm. destruct (rep_find t m name e Ht) as (f & Hr & Hf).
  unfold VmDnsHashTableGet. rewrite bool_decide_eq_false_2 by done. unfold rbind. rewrite Hr.
  destruct f as [[[b n] a]|]; [| congruence]. destruct Hf as (_ & Hf & _). rewrite Hm in Hf. by injection Hf as ->.
Qed.

(** The entry of the name is held once more. *)
Lemma find_held z m name id n e : rep (pNameEntries z) m → name ≠ [] → m !! name = Some id → entries z !! id = Some n → nRefCount n = 2 →
  VmDnsZoneFindNameEntry name z e = Some (inr id, set_entries (<[id := set_nRefCount 3 n]> (entries z)) z, e).
Proof.
  intros Ht Hne Hm Hn Hc. unfold VmDnsZoneFindNameEntry, on_names, rbind, rget, run_on.
  rewrite (table_get_some _ _ _ id _ Ht Hne Hm). cbn. unfold VmDnsNameEntryAddRef, get_entry, rbind, rget, rlift, rset. cbn.
  rewrite Hn, Hc. by destruct z.
Qed.

Lemma on_entry_run {A} id n (m : RM name_entry A) z e r n' e' : entries z !! id = Some n → m n e = Some (r, n', e') →
  on_entry id m z e = Some (r, set_entries (<[id := n']> (entries z)) z, e').
Proof.
  intros Hn Hm. unfold on_entry, get_entry, rbind, rget, rlift, run_on. rewrite Hn, Hm. cbn. by destruct r.
Qed.

Lemma release_held id n z e : entries z !! id = Some n → nRefCount n = 3 →
  VmDnsNameEntryRelease id z e = Some (inr tt, set_entries (<[id := set_nRefCount 2 n]> (entries z)) z, e).
Proof. intros Hn Hc. unfold VmDnsNameEntryRelease, get_entry, rbind, rget, rlift. by rewrite Hn, Hc. Qed.

(** A zone in which one entry is changed and the list reordered. *)
Definition touched (id : Z) (n : name_entry) (ids : list Z) (z : zone_object) : zone_object :=
  set_lru (LRU_LIST ids (dwCurrentCount (pLruList z)) (dwMaxCount (pLruList z)) (dwLowerThreshold (pLruList z)) (dwUpperThreshold (pLruList z)))
    (set_entries (<[id := n]> (entries z)) z).

Lemma touched_wf z m id n n' ids : zone_wf z m → entries z !! id = Some n → entry_pszName n' = entry_pszName n → nRefCount n' = 2 →
  ids ≡ₚ LruListHead (pLruList z) → zone_wf (touched id n' ids z) m.
Proof.
  intros Hz Hn Hname Hc Hids. destruct Hz as [Ht Hl Hk Hd Hcnt He Hs]. constructor; cbn; try done.
  - by rewrite Hids.
  - by rewrite Hids.
  - by rewrite Hids.
  - intros k i Hi. destruct (He k i Hi) as (x & Hx & Hxn & Hxc). destruct (decide (i = id)) as [-> | Hne].
    + exists n'. rewrite lookup_insert_eq. split_and!; [done | congruence | done].
    + exists x. by rewrite lookup_insert_ne.
  - intros i x [[<- <-] | [Hne Hx]]%lookup_insert_Some; [rewrite Hname |]; by apply Hs.
Qed.

Lemma cells_touched z id n ids : cells (touched id n ids z) = omap (λ i, if decide (i = id) then Some n else entries z !! i) ids.
Proof. unfold cells. cbn. apply list_omap_ext, Forall_Forall2_diag, Forall_true. intros i. destruct (decide (i = id)) as [-> |]; [by rewrite lookup_insert_eq | by rewrite lookup_insert_ne]. Qed.

(** Only the entry of a name has the name. *)
Lemma named_entry z m k id i n : zone_wf z m → m !! k = Some id → entries z !! i = Some n → named k n = bool_decide (i = id).
Proof.
  intros Hz Hk Hn. unfold named. apply bool_decide_ext. destruct (wf_stored _ _ Hz i n Hn) as [Hi _].
  destruct (wf_named _ _ Hz k id Hk) as (x & Hx & Hxn & _). split; [intros E; rewrite E in Hi; congruence | intros ->; congruence].
Qed.

Lemma cells_others z m k id (ids : list Z) : zone_wf z m → m !! k = Some id →
  omap (λ i, entries z !! i) (filter (λ i, i ≠ id) ids) = filter (λ n, ¬ named k n) (omap (λ i, entries z !! i) ids).
Proof.
  intros Hz Hk. induction ids as [|i ids IH]; [done |]. rewrite filter_cons. cbn [omap list_omap].
  destruct (entries z !! i) as [n|] eqn:En.
  - rewrite filter_cons, (named_entry z m k id i n Hz Hk En). destruct (decide (i = id)) as [-> | Hne].
    + rewrite decide_False, decide_False by (rewrite ?bool_decide_eq_true_2 by done; naive_solver). done.
    + rewrite decide_True, decide_True by (rewrite ?bool_decide_eq_false_2 by done; naive_solver). cbn [omap list_omap]. by rewrite En, IH.
  - destruct (decide (i ≠ id)); cbn [omap list_omap]; by rewrite ?En, IH.
Qed.

Lemma cells_find z m k id n : zone_wf z m → m !! k = Some id → entries z !! id = Some n → n ∈ cells z ∧ entry_pszName n = k.
Proof.
  intros Hz Hk Hn. destruct (wf_entry z m k id Hz Hk) as (x & Hx & Hxn & _ & Hin). split; [| congruence].
  apply list_elem_of_omap. by exists id.
Qed.

Lemma cells_none z m k : zone_wf z m → m !! k = None → Forall (λ n, named k n = false) (cells z).
Proof.
  intros Hz Hk. apply Forall_forall. intros n (i & _ & Hn)%list_elem_of_omap. unfold named. apply bool_decide_eq_false_2.
  intros <-. destruct (wf_stored _ _ Hz i n Hn). congruence.
Qed.

(** ** The operations of the zone *)

Lemma unlink_member id ids : id ∈ ids → unlink id ids = Some (filter (λ x, x ≠ id) ids).
Proof. intros Hin. unfold unlink. by rewrite bool_decide_eq_true_2. Qed.

Lemma filter_keep id (ids : list Z) : id ∉ ids → filter (λ x, x ≠ id) ids = ids.
Proof.
  induction ids as [|i ids IH]; [done |]. intros [Hne Hni]%not_elem_of_cons. rewrite filter_cons, decide_True by done. by rewrite IH.
Qed.

Lemma unlink_perm id (ids : list Z) : id ∈ ids → NoDup ids → id :: filter (λ x, x ≠ id) ids ≡ₚ ids.
Proof.
  intros Hin Hd. induction ids as [|i ids IH]; [by apply elem_of_nil in Hin |]. apply NoDup_cons in Hd as [Hni Hd].
  rewrite filter_cons. apply elem_of_cons in Hin as [<- | Hin].
  - rewrite decide_False by naive_solver. by rewrite filter_keep.
  - rewrite decide_True by (intros ->; done). rewrite Permutation_swap. f_equiv. by apply IH.
Qed.

Lemma get_run z m name id n t l e : zone_wf z m → name ≠ [] → m !! name = Some id → entries z !! id = Some n →
  pRecords n = Some l → dwCurrentSize l < 2 ^ 31 → quiet e → index_ok t l n →
  ∃ res e' i, VmDnsZoneGetRecords name t z e = Some (inr (inr res, true),
      touched id (set_round_robin i t n) (id :: filter (λ x, x ≠ id) (LruListHead (pLruList z))) z, e') ∧ quiet e' ∧
    ppRecords res = rotated (Z.to_nat (answer_index t n)) (matching t l) ∧
    i = (if zlen (matching t l) =? 0 then answer_index t n else (answer_index t n + 1) mod zlen (matching t l)).
Proof.
  intros Hz Hne Hm Hn Hl Hs He Hi. destruct (wf_entry z m name id Hz Hm) as (n0 & Hn0 & _ & Hc & Hin).
  assert (n0 = n) as -> by congruence.
  destruct (get_records_run t (set_nRefCount 3 n) l e Hl Hs He Hi) as (res & e' & i & Hr & He' & _ & Hres & Hidx).
  exists res, e', i. split_and!; try done.
  unfold VmDnsZoneGetRecords, with_lock. unfold rbind at 1, rtry at 1, rbind at 1, rget at 1. rewrite (wf_unlocked _ _ Hz).
  unfold rbind at 1, rset at 1. unfold rbind at 1, rtry at 1. unfold rbind at 1.
  rewrite (find_held (set_locked true z) m name id n e) by (done || apply Hz).
  unfold rbind at 1, rtry at 1. unfold rbind at 1.
  erewrite on_entry_run; [| cbn; apply lookup_insert_eq | exact Hr].
  unfold rbind at 1, VmDnsLruRefreshNameEntry. unfold rbind at 1, rget at 1. unfold rbind at 1, rlift at 1. cbn [pLruList set_entries set_locked].
  rewrite unlink_member by done. unfold set_links, rset, rbind, bail, rret. cbn [pLruList set_entries set_locked set_lru].
  erewrite release_held; [| cbn; apply lookup_insert_eq | done]. cbn. rewrite !insert_insert_eq. cbn.
  unfold touched. f_equal. f_equal. f_equal. destruct z as [? ? ? ? ? ? lk], n as [c ? ? ? ?]. cbn in *. subst c.
  rewrite (wf_unlocked _ _ Hz : lk = false). done.
Qed.

(** A name that is not there, and an entry without records. *)
Lemma locked_wf z m : zone_wf z m → set_locked false (set_locked true z) = z.
Proof. intros Hz. destruct z as [? ? ? ? ? ? lk]. cbn. by rewrite (wf_unlocked _ _ Hz : lk = false). Qed.

Lemma find_none_locked z m name e : zone_wf z m → name ≠ [] → m !! name = None →
  VmDnsZoneFindNameEntry name (set_locked true z) e = Some (inl ERROR_NOT_FOUND, set_locked true z, e).
Proof.
  intros Hz Hne Hm. unfold VmDnsZoneFindNameEntry, on_names, rbind, rget, run_on. cbn [pNameEntries set_locked].
  pose proof (zone_find_none z m name e Hz Hne Hm) as Hf. unfold VmDnsZoneFindNameEntry, on_names, rbind, rget, run_on in Hf.
  destruct (VmDnsHashTableGet name (pNameEntries z) e) as [[[[err|id] t'] e']|]; cbn in Hf |- *; [| | done].
  - injection Hf as -> Hz' ->. apply (f_equal pNameEntries) in Hz'. cbn in Hz'. subst t'. by destruct z.
  - exfalso. unfold VmDnsNameEntryAddRef, get_entry, rbind, rget, rlift in Hf. cbn in Hf. by destruct (entries z !! id).
Qed.

Lemma get_missing z m name t e : zone_wf z m → name ≠ [] → m !! name = None →
  VmDnsZoneGetRecords name t z e = Some (inr (inl ERROR_NOT_FOUND, false), z, e).
Proof.
  intros Hz Hne Hm. unfold VmDnsZoneGetRecords, with_lock. unfold rbind at 1, rtry at 1, rbind at 1, rget at 1. rewrite (wf_unlocked _ _ Hz).
  unfold rbind at 1, rset at 1. unfold rbind at 1, rtry at 1. unfold rbind at 1. rewrite (find_none_locked z m) by done.
  unfold rset, rbind, bail, rfail, rret. by rewrite (locked_wf z m Hz).
Qed.

Lemma get_null z m name id n t e : zone_wf z m → name ≠ [] → m !! name = Some id → entries z !! id = Some n → pRecords n = None →
  VmDnsZoneGetRecords name t z e = Some (inr (inl ERROR_NOT_FOUND, true), z, e).
Proof.
  intros Hz Hne Hm Hn Hl. destruct (wf_entry z m name id Hz Hm) as (n0 & Hn0 & _ & Hc & Hin). assert (n0 = n) as -> by congruence.
  unfold VmDnsZoneGetRecords, with_lock. unfold rbind at 1, rtry at 1, rbind at 1, rget at 1. rewrite (wf_unlocked _ _ Hz).
  unfold rbind at 1, rset at 1. unfold rbind at 1, rtry at 1. unfold rbind at 1.
  rewrite (find_held (set_locked true z) m name id n e) by (done || apply Hz).
  unfold rbind at 1, rtry at 1. unfold rbind at 1.
  assert (VmDnsNameEntryGetRecords t (set_nRefCount 3 n) e = Some (inl ERROR_NOT_FOUND, set_nRefCount 3 n, e)) as Hg.
  { unfold VmDnsNameEntryGetRecords, rbind, rget. cbn [pRecords set_nRefCount]. by rewrite Hl. }
  erewrite on_entry_run; [| cbn; apply lookup_insert_eq | exact Hg].
  unfold rset, rbind, bail, rret. erewrite release_held; [| cbn; apply lookup_insert_eq | done]. cbn. rewrite !insert_insert_eq. cbn.
  do 2 f_equal. f_equal. destruct z as [? ? ? ? ? ? lk], n as [c ? ? ? ?]. cbn in *. subst c.
  rewrite (wf_unlocked _ _ Hz : lk = false). by rewrite insert_id.
Qed.

(** New records for a name that is there. *)
Lemma replace_run z m name id n l e : zone_wf z m → name ≠ [] → m !! name = Some id → entries z !! id = Some n →
  VmDnsZoneUpdateRecords name l z e = Some (inr tt, touched id (set_pRecords l n) (LruListHead (pLruList z)) z, e).
Proof.
  intros Hz Hne Hm Hn. destruct (wf_entry z m name id Hz Hm) as (n0 & Hn0 & _ & Hc & Hin). assert (n0 = n) as -> by congruence.
  unfold VmDnsZoneUpdateRecords, with_lock. unfold rbind at 1, rget at 1. rewrite (wf_unlocked _ _ Hz).
  unfold rbind at 1, rset at 1. unfold rbind at 1, rtry at 1. unfold rbind at 1, find_or_add at 1. unfold rbind at 1, rtry at 1.
  rewrite (find_held (set_locked true z) m name id n e) by (done || apply Hz).
  unfold rret at 1. unfold releasing. unfold rbind at 1, rtry at 1.
  erewrite on_entry_run; [| cbn; apply lookup_insert_eq | reflexivity].
  unfold rbind at 1. erewrite release_held; [| cbn; apply lookup_insert_eq | done].
  unfold rset, rbind, bail, rret. cbn. rewrite !insert_insert_eq. unfold touched. do 2 f_equal. f_equal.
  destruct z as [? ? ? [] ? ? lk], n as [c ? ? ? ?]. cbn in *. subst c. by rewrite (wf_unlocked _ _ Hz : lk = false).
Qed.

(** A name that is not there: a new entry in the table and at the front. *)
Definition added (name : list Z) (l : option record_list) (t : hash_table Z) (z : zone_object) : zone_object :=
  ZONE_OBJECT (zone_name z) (zoneId z) t
    (LRU_LIST (next_entry z :: LruListHead (pLruList z)) (dwCurrentCount (pLruList z) + 1) (dwMaxCount (pLruList z))
      (dwLowerThreshold (pLruList z)) (dwUpperThreshold (pLruList z)))
    (<[next_entry z := NAME_ENTRY 2 name l 0 0]> (entries z)) (next_entry z + 1) false.

Lemma new_entry_run name z e : quiet e →
  ∃ e', new_entry name z e = Some (inr (next_entry z),
    set_next (next_entry z + 1) (set_entries (<[next_entry z := NAME_ENTRY 1 name (Some (RECORD_LIST 10 10 [])) 0 0]> (entries z)) z), e') ∧ quiet e'.
Proof.
  intros He. destruct (alloc_string_ok (name ++ [0]) _ z (tail e) (cstring_block name) (quiet_tail _ He)) as (e1 & Hs & He1).
  destruct (create_run z e1 He1) as (e2 & Hc & He2). exists e2. split; [| done].
  unfold new_entry, VmDnsNameEntryCreate, rbind. rewrite alloc_ok by done. rewrite Hs, Hc. reflexivity.
Qed.

Lemma on_names_run {A} (m : RM (hash_table Z) A) z e r t e' : m (pNameEntries z) e = Some (r, t, e') → on_names m z e = Some (r, set_names t z, e').
Proof. intros Hm. unfold on_names, rbind, rget, run_on. rewrite Hm. cbn. by destruct r. Qed.

Lemma add_ref_run id n z e : entries z !! id = Some n →
  VmDnsNameEntryAddRef id z e = Some (inr tt, set_entries (<[id := set_nRefCount (s32 (nRefCount n + 1)) n]> (entries z)) z, e).
Proof. intros Hn. unfold VmDnsNameEntryAddRef, get_entry, rbind, rget, rlift. by rewrite Hn. Qed.

(** The entry is put into the table and the list, and held by both. *)
Lemma add_entry_run z m name id e n : rep (pNameEntries z) m → name ≠ [] → m !! name = None → entries z !! id = Some n →
  entry_pszName n = name → nRefCount n = 1 → ulSize (pNameEntries z) <= 2 ^ 29 → quiet e →
  0 <= dwCurrentCount (pLruList z) < dwMaxCount (pLruList z) → dwMaxCount (pLruList z) < 2 ^ 32 →
  ∃ t e', (VmDnsZoneAddNameEntry id ;;; VmDnsLruAddNameEntry id) z e =
    Some (inr tt, set_entries (<[id := set_nRefCount 3 n]> (entries z)) (set_lru
      (LRU_LIST (id :: LruListHead (pLruList z)) (dwCurrentCount (pLruList z) + 1) (dwMaxCount (pLruList z))
        (dwLowerThreshold (pLruList z)) (dwUpperThreshold (pLruList z))) (set_names t z)), e') ∧ quiet e' ∧ rep t (<[name := id]> m).
Proof.
  intros Ht Hne Hm Hn Hname Hc Hs He Hcnt Hmax.
  destruct (rep_insert _ m name id e Ht Hm Hne Hs He) as (t & e' & Hr & He' & Ht').
  exists t, e'. split_and!; try done. unfold VmDnsZoneAddNameEntry. unfold rbind at 1. unfold rbind at 1.
  unfold get_entry. unfold rbind at 1, rget at 1, rlift at 1. rewrite Hn, Hname.
  unfold rbind at 1. rewrite (on_names_run _ _ _ _ _ _ Hr).
  erewrite add_ref_run by done. unfold VmDnsLruAddNameEntry. unfold rbind at 1, rget at 1.
  cbn [pLruList set_entries set_names]. rewrite Z.geb_leb, (proj2 (Z.leb_gt _ _)) by lia.
  unfold rbind at 1, rret at 1. unfold rbind at 1, rget at 1. unfold rbind at 1, set_links at 1, rset at 1.
  unfold rbind at 1. erewrite add_ref_run by (cbn; apply lookup_insert_eq).
  unfold rbind, rget, set_links, rset. cbn. unfold u32. rewrite (Z.mod_small (_ + 1)) by lia.
  rewrite insert_insert_eq, Hc. done.
Qed.

Lemma add_run z m name l e : zone_wf z m → name ≠ [] → m !! name = None → quiet e → ulSize (pNameEntries z) <= 2 ^ 29 →
  dwCurrentCount (pLruList z) < dwMaxCount (pLruList z) → dwMaxCount (pLruList z) < 2 ^ 32 →
  ∃ t e', VmDnsZoneUpdateRecords name l z e = Some (inr tt, added name l t z, e') ∧ quiet e' ∧ rep t (<[name := next_entry z]> m).
Proof.
  intros Hz Hne Hm He Hs Hcnt Hmax. pose proof (wf_count _ _ Hz) as Hc.
  destruct (new_entry_run name (set_locked true z) e He) as (e1 & Hnew & He1). cbn [next_entry set_locked entries] in Hnew.
  set (z2 := set_next _ _) in Hnew.
  assert (Hz2 : entries z2 !! next_entry z = Some (NAME_ENTRY 1 name (Some (RECORD_LIST 10 10 [])) 0 0)) by (cbn; apply lookup_insert_eq).
  destruct (add_entry_run z2 m name (next_entry z) e1 _ (wf_table _ _ Hz) Hne Hm Hz2 eq_refl eq_refl Hs He1) as (t & e2 & Hadd & He2 & Ht).
  { cbn. lia. } { done. }
  exists t, e2. split_and!; try done.
  unfold VmDnsZoneUpdateRecords, with_lock. unfold rbind at 1, rget at 1. rewrite (wf_unlocked _ _ Hz).
  unfold rbind at 1, rset at 1. unfold rbind at 1, rtry at 1. unfold rbind at 1, find_or_add at 1. unfold rbind at 1, rtry at 1.
  rewrite (find_none_locked z m) by done. rewrite bool_decide_eq_true_2 by done.
  unfold rbind at 1. rewrite Hnew. unfold rbind at 1, rtry at 1. rewrite Hadd. unfold rret at 1.
  unfold releasing. unfold rbind at 1, rtry at 1.
  erewrite on_entry_run; [| cbn; apply lookup_insert_eq | reflexivity].
  unfold rbind at 1. erewrite release_held; [| cbn; apply lookup_insert_eq | done].
  unfold rset, rbind, bail, rret. cbn. by rewrite !insert_insert_eq.
Qed.

Lemma fresh_link z m : zone_wf z m → next_entry z ∉ LruListHead (pLruList z).
Proof.
  intros Hz (k & Hk)%(links_member z m _ Hz). destruct (wf_named _ _ Hz _ _ Hk) as (n & Hn & _).
  destruct (wf_stored _ _ Hz _ _ Hn). lia.
Qed.

Lemma added_wf z m name l t : zone_wf z m → m !! name = None → rep t (<[name := next_entry z]> m) →
  zone_wf (added name l t z) (<[name := next_entry z]> m).
Proof.
  intros Hz Hm Ht. pose proof (fresh_link z m Hz) as Hf. destruct Hz as [_ _ Hk Hd Hcnt He Hs]. constructor; cbn; try done.
  - rewrite (map_to_list_insert m name (next_entry z) Hm), Hk. done.
  - by constructor.
  - lia.
  - intros k i [[<- <-] | [Hne Hi]]%lookup_insert_Some; [eexists; by rewrite lookup_insert_eq |].
    destruct (He k i Hi) as (x & Hx & Hxn & Hxc). exists x. rewrite lookup_insert_ne; [done |].
    intros <-. destruct (Hs _ _ Hx). lia.
  - intros i x [[<- <-] | [Hne Hx]]%lookup_insert_Some; [cbn; rewrite lookup_insert_eq; split; [done | lia] |].
    destruct (Hs _ _ Hx) as [Hi Hlt]. rewrite lookup_insert_ne by congruence. split; [done | lia].
Qed.

(** A name is taken out. *)
Definition removed (id : Z) (t : hash_table Z) (z : zone_object) : zone_object :=
  ZONE_OBJECT (zone_name z) (zoneId z) t
    (LRU_LIST (filter (λ x, x ≠ id) (LruListHead (pLruList z))) (dwCurrentCount (pLruList z) - 1) (dwMaxCount (pLruList z))
      (dwLowerThreshold (pLruList z)) (dwUpperThreshold (pLruList z)))
    (delete id (entries z)) (next_entry z) false.

Lemma hash_remove (t : hash_table Z) m name id e : rep t m → name ≠ [] → m !! name = Some id →
  ∃ t', VmDnsHashTableRemove name t e = Some (inr tt, t', e) ∧ rep t' (delete name m).
Proof.
  intros Ht Hne Hm. destruct (rep_find t m name e Ht) as (f & Hr & Hf). unfold VmDnsHashTableRemove.
  rewrite bool_decide_eq_false_2 by done. unfold rbind at 1. rewrite Hr. destruct f as [[[b n] a]|]; [| congruence].
  destruct Hf as (En & Hv & cs & Hd & Hp & HP & Hc). eexists. split; [reflexivity |]. by eapply rep_remove.
Qed.

Lemma release_run id n z e c : entries z !! id = Some n → nRefCount n = c → 2 <= c <= 10 →
  VmDnsNameEntryRelease id z e = Some (inr tt, set_entries (<[id := set_nRefCount (c - 1) n]> (entries z)) z, e).
Proof.
  intros Hn Hc Hb. unfold VmDnsNameEntryRelease, get_entry, rbind, rget, rlift. rewrite Hn, Hc, s32_id by lia.
  by rewrite (proj2 (Z.eqb_neq _ _)) by lia.
Qed.

Lemma release_last id n z e : entries z !! id = Some n → nRefCount n = 1 →
  VmDnsNameEntryRelease id z e = Some (inr tt, set_entries (delete id (entries z)) z, e).
Proof. intros Hn Hc. unfold VmDnsNameEntryRelease, get_entry, rbind, rget, rlift. by rewrite Hn, Hc. Qed.

Lemma purge_run z m name id e : zone_wf z m → name ≠ [] → m !! name = Some id → dwCurrentCount (pLruList z) < 2 ^ 32 →
  ∃ t, VmDnsZonePurgeRecords name z e = Some (inr tt, removed id t z, e) ∧ rep t (delete name m).
Proof.
  intros Hz Hne Hm Hb. destruct (wf_entry z m name id Hz Hm) as (n & Hn & Hname & Hc & Hin).
  destruct (hash_remove _ m name id e (wf_table _ _ Hz) Hne Hm) as (t & Hr & Ht). exists t. split; [| done].
  pose proof (wf_count _ _ Hz) as Hcnt. assert (1 <= dwCurrentCount (pLruList z)).
  { rewrite Hcnt. destruct (LruListHead (pLruList z)); [by apply elem_of_nil in Hin | cbn; lia]. }
  unfold VmDnsZonePurgeRecords, with_lock. unfold rbind at 1, rtry at 1, rbind at 1, rget at 1. rewrite (wf_unlocked _ _ Hz).
  unfold rbind at 1, rset at 1. unfold rbind at 1, rtry at 1. unfold rbind at 1.
  rewrite (find_held (set_locked true z) m name id n e) by (done || apply Hz).
  unfold rbind at 1, rtry at 1. unfold rbind at 1, VmDnsZoneRemoveNameEntry at 1. unfold rbind at 1.
  unfold get_entry at 1, rbind at 1, rget at 1, rlift at 1. cbn [entries set_entries]. rewrite lookup_insert_eq. cbn [entry_pszName set_nRefCount].
  rewrite Hname. unfold rbind at 1. erewrite on_names_run; [| exact Hr].
  erewrite (release_run id (set_nRefCount 3 n) _ _ 3); [| cbn; apply lookup_insert_eq | reflexivity | lia]. unfold VmDnsLruRemoveNameEntry.
  unfold rbind at 1, rget at 1. unfold rbind at 1, rlift at 1. cbn [pLruList set_entries set_names set_locked]. rewrite unlink_member by done.
  unfold rbind at 1, set_links at 1, rset at 1.
  erewrite (release_run id (set_nRefCount 2 n) _ _ 2); [| cbn; apply lookup_insert_eq | reflexivity | lia].
  unfold rset, rbind, bail, rret. erewrite (release_last id (set_nRefCount 1 n)); [| cbn; apply lookup_insert_eq | reflexivity].
  cbn. rewrite !insert_insert_eq, delete_insert_eq. unfold u32. rewrite Z.mod_small by lia. done.
Qed.

Lemma purge_missing z m name e : zone_wf z m → name ≠ [] → m !! name = None →
  VmDnsZonePurgeRecords name z e = Some (inl ERROR_NOT_FOUND, z, e).
Proof.
  intros Hz Hne Hm. unfold VmDnsZonePurgeRecords, with_lock. unfold rbind at 1, rtry at 1, rbind at 1, rget at 1. rewrite (wf_unlocked _ _ Hz).
  unfold rbind at 1, rset at 1. unfold rbind at 1, rtry at 1. unfold rbind at 1. rewrite (find_none_locked z m) by done.
  unfold rset, rbind, bail, rfail, rret. by rewrite (locked_wf z m Hz).
Qed.

Lemma removed_wf z m name id t : zone_wf z m → m !! name = Some id → rep t (delete name m) → zone_wf (removed id t z) (delete name m).
Proof.
  intros Hz Hm Ht. destruct (wf_entry z m name id Hz Hm) as (n & Hn & Hname & _ & Hin).
  assert (Hinj : ∀ k, m !! k = Some id → k = name).
  { intros k Hk. destruct (wf_named _ _ Hz k id Hk) as (x & Hx & <- & _). congruence. }
  destruct Hz as [_ _ Hk Hd Hcnt He Hs]. pose proof (unlink_perm id _ Hin Hd) as Hperm. constructor; cbn; try done.
  - rewrite <- (map_to_list_delete m name id Hm) in Hk. cbn in Hk. rewrite <- Hperm in Hk. by apply Permutation_cons_inv in Hk.
  - by apply NoDup_filter.
  - apply Permutation_length in Hperm. cbn in Hperm. lia.
  - intros k i [Hne Hi]%lookup_delete_Some. destruct (He k i Hi) as (x & Hx & Hxn & Hxc). exists x. rewrite lookup_delete_ne; [done |].
    intros <-. by apply Hne, eq_sym, Hinj.
  - intros i x [Hne Hx]%lookup_delete_Some. destruct (Hs i x Hx) as [Hi Hlt]. split; [| done].
    rewrite lookup_delete_ne; [done |]. congruence.
Qed.

(** ** Refinement *)

Inductive zone_op := Z_UPDATE (name : list Z) (l : option record_list) | Z_GET (name : list Z) (t : Z) | Z_PURGE (name : list Z).
Inductive zone_result := DONE | ANSWER (r : dwerror + list dns_record) (bNameInZone : bool).

Definition run_zone_op (op : zone_op) : RM zone_object zone_result :=
  match op with
  | Z_UPDATE name l => VmDnsZoneUpdateRecords name l ;;; rret DONE
  | Z_GET name t => x <- VmDnsZoneGetRecords name t ;; rret (ANSWER (sum_map id ppRecords x.1) x.2)
  | Z_PURGE name => VmDnsZonePurgeRecords name ;;; rret DONE
  end.

(** The cell after a query of the type. *)
Definition served (t : Z) (l : record_list) (n : name_entry) : name_entry :=
  set_round_robin (if zlen (matching t l) =? 0 then answer_index t n else (answer_index t n + 1) mod zlen (matching t l)) t n.

(** The cache as a list: new names and names that are asked for come to the
    front; new records take the place of the old ones. *)
Definition cache_op (op : zone_op) (cs : list name_entry) : (dwerror + zone_result) * list name_entry :=
  match op with
  | Z_UPDATE name l =>
      (inr DONE, match find (named name) cs with
                 | Some _ => map (λ n, if named name n then set_pRecords l n else n) cs
                 | None => NAME_ENTRY 2 name l 0 0 :: cs
                 end)
  | Z_GET name t =>
      match find (named name) cs with
      | None => (inr (ANSWER (inl ERROR_NOT_FOUND) false), cs)
      | Some n =>
          match pRecords n with
          | None => (inr (ANSWER (inl ERROR_NOT_FOUND) true), cs)
          | Some l => (inr (ANSWER (inr (rotated (Z.to_nat (answer_index t n)) (matching t l))) true),
                       served t l n :: filter (λ n, ¬ named name n) cs)
          end
      end
  | Z_PURGE name =>
      match find (named name) cs with
      | None => (inl ERROR_NOT_FOUND, cs)
      | Some _ => (inr DONE, filter (λ n, ¬ named name n) cs)
      end
  end.

(** There is room for another name in the cache. *)
Definition roomy (z : zone_object) : Prop :=
  ulSize (pNameEntries z) <= 2 ^ 29 ∧ dwCurrentCount (pLruList z) < dwMaxCount (pLruList z) < 2 ^ 32.

(** Names are not empty; there is room for a new one; the round robin of a
    queried entry is in the range of its records. *)
Definition zone_op_allowed (op : zone_op) (z : zone_object) : Prop :=
  match op with
  | Z_UPDATE name _ => name ≠ [] ∧ (find (named name) (cells z) = None → roomy z)
  | Z_GET name t => name ≠ [] ∧ ∀ n l, n ∈ cells z → entry_pszName n = name → pRecords n = Some l → dwCurrentSize l < 2 ^ 31 ∧ index_ok t l n
  | Z_PURGE name => name ≠ [] ∧ dwCurrentCount (pLruList z) < 2 ^ 32
  end.

Lemma find_cell z m name id n : zone_wf z m → m !! name = Some id → entries z !! id = Some n → find (named name) (cells z) = Some n.
Proof.
  intros Hz Hm Hn. destruct (cells_find z m name id n Hz Hm Hn) as [Hin Hname].
  assert (Hall : ∀ x, x ∈ cells z → named name x = true → x = n).
  { intros x (i & _ & Hi)%list_elem_of_omap Hx. rewrite (named_entry z m name id i x Hz Hm Hi) in Hx. apply bool_decide_eq_true in Hx. congruence. }
  destruct (find (named name) (cells z)) as [x|] eqn:E.
  - apply find_some in E as [Hx Ht]. f_equal. apply Hall; [by apply list_elem_of_In | done].
  - apply list_elem_of_In in Hin. pose proof (List.find_none _ _ E n Hin) as Hf. unfold named in Hf. by rewrite bool_decide_eq_true_2 in Hf.
Qed.

Lemma find_no_cell z m name : zone_wf z m → m !! name = None → find (named name) (cells z) = None.
Proof.
  intros Hz Hm. destruct (find (named name) (cells z)) as [x|] eqn:E; [| done]. apply List.find_some in E as [Hx Ht].
  pose proof (cells_none z m name Hz Hm) as Hf. rewrite Forall_forall in Hf. apply list_elem_of_In in Hx. by rewrite Hf in Ht.
Qed.

(** What the changed zones hold. *)
Lemma cells_front z m name id n n' : zone_wf z m → m !! name = Some id → entries z !! id = Some n →
  cells (touched id n' (id :: filter (λ x, x ≠ id) (LruListHead (pLruList z))) z) = n' :: filter (λ n, ¬ named name n) (cells z).
Proof.
  intros Hz Hm Hn. rewrite cells_touched. cbn [omap list_omap]. rewrite decide_True by done. f_equal.
  unfold cells. rewrite <- (cells_others z m name id) by done. apply list_omap_ext, Forall_Forall2_diag, Forall_forall.
  intros i [Hne _]%list_elem_of_filter. by rewrite decide_False.
Qed.

Lemma cells_replaced z m name id n n' (f : name_entry → name_entry) : zone_wf z m → m !! name = Some id → entries z !! id = Some n → n' = f n →
  cells (touched id n' (LruListHead (pLruList z)) z) = map (λ n, if named name n then f n else n) (cells z).
Proof.
  intros Hz Hm Hn ->. rewrite cells_touched. unfold cells. induction (LruListHead (pLruList z)) as [|i ids IH]; [done |].
  cbn [omap list_omap]. destruct (decide (i = id)) as [-> | Hne].
  - rewrite Hn. cbn [map]. rewrite IH, (named_entry z m name id id n Hz Hm Hn), bool_decide_eq_true_2 by done. done.
  - destruct (entries z !! i) as [x|] eqn:Ex; [| done]. cbn [map].
    rewrite IH, (named_entry z m name id i x Hz Hm Ex), bool_decide_eq_false_2 by done. done.
Qed.

Lemma cells_added z m name l t : zone_wf z m → cells (added name l t z) = NAME_ENTRY 2 name l 0 0 :: cells z.
Proof.
  intros Hz. unfold cells. cbn. rewrite lookup_insert_eq. f_equal. apply list_omap_ext, Forall_Forall2_diag, Forall_forall.
  intros i Hi. rewrite lookup_insert_ne; [done |]. intros <-. by apply (fresh_link z m Hz).
Qed.

Lemma cells_removed z m name id t : zone_wf z m → m !! name = Some id → cells (removed id t z) = filter (λ n, ¬ named name n) (cells z).
Proof.
  intros Hz Hm. unfold cells. cbn. rewrite <- (cells_others z m name id) by done. apply list_omap_ext, Forall_Forall2_diag, Forall_forall.
  intros i [Hne _]%list_elem_of_filter. by rewrite lookup_delete_ne.
Qed.

(** The operations against the list. *)
Lemma zone_step z m op e : zone_wf z m → quiet e → zone_op_allowed op z →
  ∃ z' m' e', run_zone_op op z e = Some ((cache_op op (cells z)).1, z', e') ∧ quiet e' ∧
    zone_wf z' m' ∧ cells z' = (cache_op op (cells z)).2 ∧ zone_name z' = zone_name z ∧
    dwCurrentCount (pLruList z') <= dwCurrentCount (pLruList z) + 1 ∧ dwMaxCount (pLruList z') = dwMaxCount (pLruList z) ∧
    match op with
    | Z_GET _ _ => pNameEntries z' = pNameEntries z ∧ dwCurrentCount (pLruList z') = dwCurrentCount (pLruList z)
    | Z_UPDATE name _ => find (named name) (cells z) ≠ None → dwCurrentCount (pLruList z') = dwCurrentCount (pLruList z)
    | Z_PURGE _ => dwCurrentCount (pLruList z') <= dwCurrentCount (pLruList z)
    end.
Proof.
  intros Hz He Hok. destruct op as [name l | name t | name]; cbn [run_zone_op cache_op].
  - destruct Hok as (Hne & Hroom). destruct (m !! name) as [id|] eqn:Hm.
    + destruct (wf_named _ _ Hz name id Hm) as (n & Hn & Hname & Hcnt). rewrite (find_cell z m name id n) by done.
      eexists _, m, e. unfold rbind. rewrite (replace_run z m name id n) by done.
      split_and!; [reflexivity | done | by eapply touched_wf | by eapply (cells_replaced z m name id n) | done | cbn; lia | done | done].
    + rewrite (find_no_cell z m) by done. destruct (Hroom (find_no_cell z m name Hz Hm)) as (Hs & Hc & Hmax). destruct (add_run z m name l e) as (t & e' & Hr & He' & Ht); try done.
      eexists _, (<[name := next_entry z]> m), e'. unfold rbind. rewrite Hr.
      split_and!; [reflexivity | done | by apply added_wf | by eapply cells_added | done | cbn; lia | done | done].
  - destruct Hok as (Hne & Hidx). destruct (m !! name) as [id|] eqn:Hm.
    + destruct (wf_named _ _ Hz name id Hm) as (n & Hn & Hname & Hcnt). rewrite (find_cell z m name id n) by done.
      destruct (pRecords n) as [l|] eqn:Hl.
      * destruct (Hidx n l (proj1 (cells_find z m name id n Hz Hm Hn)) Hname Hl) as [Hs Hi].
        destruct (get_run z m name id n t l e) as (res & e' & i & Hr & He' & Hres & ->); try done.
        destruct (wf_entry z m name id Hz Hm) as (_ & _ & _ & _ & Hin).
        eexists _, m, e'. unfold rbind. rewrite Hr. cbn [fst snd sum_map]. rewrite Hres.
        split_and!; [reflexivity | done | eapply touched_wf; try done; apply unlink_perm; [done | apply Hz] | by eapply cells_front | done | cbn; lia | done | done | done].
      * eexists z, m, e. unfold rbind. rewrite (get_null z m name id n) by done. split_and!; done || lia.
    + rewrite (find_no_cell z m) by done. eexists z, m, e. unfold rbind. rewrite (get_missing z m) by done. split_and!; done || lia.
  - destruct Hok as (Hne & Hb). destruct (m !! name) as [id|] eqn:Hm.
    + destruct (wf_named _ _ Hz name id Hm) as (n & Hn & Hname & Hcnt). rewrite (find_cell z m name id n) by done.
      destruct (purge_run z m name id e) as (t & Hr & Ht); try done. eexists _, (delete name m), e. unfold rbind. rewrite Hr.
      split_and!; [reflexivity | done | by apply removed_wf | by apply cells_removed with (m := m) | done | cbn; lia | done | cbn; lia].
    + rewrite (find_no_cell z m) by done. eexists z, m, e. unfold rbind. rewrite (purge_missing z m) by done. split_and!; done || lia.
Qed.

(** *** Sequences of operations *)

(** The records of a name are fewer than 2^31 and its round robin is in their
    range. *)
Definition cell_fits (n : name_entry) : Prop :=
  match pRecords n with
  | Some l => dwCurrentSize l < 2 ^ 31 ∧ index_ok (dwRoundRobinType n) l n
  | None => True
  end.

(** The list is within its limit. *)
Definition lru_bounded (z : zone_object) : Prop := dwCurrentCount (pLruList z) <= dwMaxCount (pLruList z) < 2 ^ 32.

(** What an operation needs of the state it starts in: a name; room for a name
    that is new; and new records that the round robin of the cell fits. *)
Definition op_fits (op : zone_op) (z : zone_object) : Prop :=
  match op with
  | Z_UPDATE name l =>
      name ≠ [] ∧
      match find (named name) (cells z) with
      | Some n => cell_fits (set_pRecords l n)
      | None => roomy z ∧ cell_fits (NAME_ENTRY 2 name l 0 0)
      end
  | Z_GET name _ | Z_PURGE name => name ≠ []
  end.

Fixpoint run_zone_ops (ops : list zone_op) : RM zone_object (list (dwerror + zone_result)) :=
  match ops with
  | [] => rret []
  | op :: ops => r <- rtry (run_zone_op op) ;; rs <- run_zone_ops ops ;; rret (r :: rs)
  end.

Fixpoint cache_ops (ops : list zone_op) (cs : list name_entry) : list (dwerror + zone_result) * list name_entry :=
  match ops with
  | [] => ([], cs)
  | op :: ops => let (r, cs) := cache_op op cs in let (rs, cs) := cache_ops ops cs in (r :: rs, cs)
  end.

(** Every operation has what it needs in the state it starts in. *)
Fixpoint ops_fit (ops : list zone_op) (z : zone_object) (e : env) : Prop :=
  match ops with
  | [] => True
  | op :: ops => op_fits op z ∧ ∀ r z' e', run_zone_op op z e = Some (r, z', e') → ops_fit ops z' e'
  end.

Lemma any_index_ok t l n : index_ok (dwRoundRobinType n) l n → index_ok t l n.
Proof.
  unfold index_ok, answer_index. rewrite Z.eqb_refl. destruct (Z.eqb_spec (dwRoundRobinType n) t) as [-> | Hne]; [done |]. intros _.
  destruct (matching t l) as [|r rs]; [by left | right; cbn; lia].
Qed.

Lemma served_fits t l n : cell_fits n → pRecords n = Some l → cell_fits (served t l n).
Proof.
  intros Hc Hl. unfold cell_fits in *. rewrite Hl in Hc. destruct Hc as (Hs & Hi). cbn [pRecords served set_round_robin]. rewrite Hl.
  split; [done |]. apply (any_index_ok t) in Hi. unfold index_ok, served. cbn [dwRoundRobinType set_round_robin].
  assert (Ha : ∀ i, answer_index t (set_round_robin i t n) = i) by (intros i; unfold answer_index; cbn; by rewrite Z.eqb_refl).
  rewrite !Ha. destruct Hi as [[Hm Hi] | Hi]; [left; rewrite Hm; done |]. right.
  rewrite (proj2 (Z.eqb_neq _ _)) by lia. apply Z.mod_pos_bound. lia.
Qed.

Lemma op_fits_allowed op z : Forall cell_fits (cells z) → lru_bounded z → op_fits op z → zone_op_allowed op z.
Proof.
  intros Hc Hb Hop. rewrite Forall_forall in Hc. destruct op as [name l | name t | name]; cbn in *.
  - destruct Hop as [Hne Hop]. split; [done |]. intros Hno. rewrite Hno in Hop. apply Hop.
  - split; [done |]. intros n l Hin _ Hl. specialize (Hc n Hin). unfold cell_fits in Hc. rewrite Hl in Hc. destruct Hc as [Hs Hi]. split; [done |]. by apply any_index_ok.
  - split; [done |]. unfold lru_bounded in Hb. lia.
Qed.

(** The cells stay as they have to be. *)
Lemma cells_fit_step op z : Forall cell_fits (cells z) → op_fits op z → (∀ n n', n ∈ cells z → n' ∈ cells z → entry_pszName n = entry_pszName n' → n = n') →
  Forall cell_fits (cache_op op (cells z)).2.
Proof.
  intros Hc Hop Huniq. destruct op as [name l | name t | name]; cbn [cache_op op_fits] in *.
  - destruct Hop as [Hne Hop]. cbn [snd]. destruct (find (named name) (cells z)) as [n|] eqn:Ef; [| constructor; [by apply Hop | done]].
    apply List.find_some in Ef as [Hin Hn]. apply list_elem_of_In in Hin. rewrite Forall_forall in Hc |- *.
    intros x (y & <- & Hy%list_elem_of_In)%list_elem_of_In%in_map_iff. destruct (named name y) eqn:Ey; [| by apply Hc].
    unfold named in Hn, Ey. apply bool_decide_eq_true in Hn, Ey. by rewrite (Huniq y n Hy Hin) by congruence.
  - destruct (find (named name) (cells z)) as [n|] eqn:Ef; [| done]. destruct (pRecords n) as [l|] eqn:El; [| done]. cbn [snd].
    apply List.find_some in Ef as [Hin _]. apply list_elem_of_In in Hin. rewrite Forall_forall in Hc. constructor; [apply served_fits; [by apply Hc | done] |].
    apply Forall_forall. intros x [_ Hx]%list_elem_of_filter. by apply Hc.
  - destruct (find (named name) (cells z)); [| done]. cbn [snd]. rewrite Forall_forall in Hc |- *. intros x [_ Hx]%list_elem_of_filter. by apply Hc.
Qed.

Lemma cells_unique z m n n' : zone_wf z m → n ∈ cells z → n' ∈ cells z → entry_pszName n = entry_pszName n' → n = n'.
Proof.
  intros Hz (i & _ & Hi)%list_elem_of_omap (j & _ & Hj)%list_elem_of_omap E.
  destruct (wf_stored _ _ Hz i n Hi) as [Hmi _]. destruct (wf_stored _ _ Hz j n' Hj) as [Hmj _]. congruence.
Qed.

Lemma zone_sequence ops : ∀ z m e, zone_wf z m → Forall cell_fits (cells z) → lru_bounded z → quiet e → ops_fit ops z e →
  ∃ z' m' e', run_zone_ops ops z e = Some (inr (cache_ops ops (cells z)).1, z', e') ∧ quiet e' ∧
    zone_wf z' m' ∧ cells z' = (cache_ops ops (cells z)).2 ∧ Forall cell_fits (cells z') ∧ lru_bounded z'.
Proof.
  induction ops as [|op ops IH]; intros z m e Hz Hc Hb He Hops; [by exists z, m, e |]. destruct Hops as [Hop Hops]. cbn [run_zone_ops cache_ops].
  destruct (zone_step z m op e Hz He (op_fits_allowed op z Hc Hb Hop)) as (z1 & m1 & e1 & Hr & He1 & Hz1 & Hcells & _ & Hup & Hmax & Hcnt).
  assert (Hb1 : lru_bounded z1).
  { unfold lru_bounded in *. rewrite Hmax. destruct op as [name l | name t | name]; [| lia | lia]. destruct Hop as [_ Hop].
    destruct (find (named name) (cells z)) as [n|] eqn:Ef; [by rewrite Hcnt |]. destruct Hop as [(_ & Hroom) _]. lia. }
  destruct (IH z1 m1 e1 Hz1) as (z' & m' & e' & Hrs & Hrest); [| done | done | by eapply Hops |].
  { rewrite Hcells. apply cells_fit_step; [done | done |]. intros n n'. by eapply cells_unique. }
  exists z', m', e'. unfold rbind at 1, rtry at 1. rewrite Hr. unfold rbind at 1. rewrite Hrs, Hcells in *.
  destruct (cache_op op (cells z)) as [r cs]. cbn [fst snd] in *. by destruct (cache_ops ops cs).
Qed.

(** C14: the cache of a zone is a list of names with their records, in the order
    of their last use.  Every operation of a sequence returns what it returns on
    the list, and the list changes as the cache does: a query moves its name to
    the front and returns the records of the type in turn, new records replace
    the old ones or come in at the front, purging takes exactly the name out;
    and the table, the links, the addresses and the reference counts of the
    entries stay consistent.  What is needed is [ops_fit], at the state in which
    each operation starts: a name that is not empty; for a name that is new,
    fewer names than the limit of the list and a table of at most 2^29 chains;
    for new records, fewer than 2^31, and, when the name is there already, a
    round robin index of the cell that is in their range.  Beyond it, a new name in
    a full cache evicts an entry and reads it after its release
    ([eviction_reads_released]), and fewer records than before leave an index
    behind them ([stale_index]). *)
Theorem zone_refines_cache z m ops e : zone_wf z m → Forall cell_fits (cells z) → lru_bounded z → quiet e → ops_fit ops z e →
  ∃ z' m' e', run_zone_ops ops z e = Some (inr (cache_ops ops (cells z)).1, z', e') ∧ quiet e' ∧
    zone_wf z' m' ∧ cells z' = (cache_ops ops (cells z)).2 ∧ Forall cell_fits (cells z').
Proof.
  intros Hz Hc Hb He Hops. destruct (zone_sequence ops z m e Hz Hc Hb He Hops) as (z' & m' & e' & ? & ? & ? & ? & ? & _). by exists z', m', e'.
Qed.

(** ** Creation *)

(** With memory, a zone is created with the records of its own name as the
    one cell of a consistent cache, with the identifier its properties give or
    that of a primary zone. *)
Theorem zone_created {St} name l props (s : St) e : name ≠ [] → quiet e →
  ∃ z e', VmDnsZoneCreateFromRecordList name l props s e = Some (inr z, s, e') ∧ quiet e' ∧
    zone_wf z {[ name := 1 ]} ∧ cells z = [NAME_ENTRY 2 name l 0 0] ∧ zone_name z = name ∧ zoneId z = zone_id_of props.
Proof.
  intros Hne He. unfold VmDnsZoneCreateFromRecordList. unfold rbind at 1. rewrite alloc_ok by done. apply quiet_tail in He.
  destruct (alloc_string_ok (name ++ [0]) _ s (tail e) (cstring_block name) He) as (e1 & Hs & He1).
  destruct (allocate_rep (V := Z) DEFAULT_NAME_HASHTABLE_SIZE St s e1 ltac:(by vm_compute) He1) as (t & e2 & Ht & He2 & Hrep & Hsz).
  unfold rbind at 1, rtry at 1. unfold rbind at 1. rewrite Hs. unfold rbind at 1. rewrite Ht. unfold rbind at 1. rewrite alloc_ok by done.
  apply quiet_tail in He2. unfold rret at 1. unfold VmDnsLruInitialize. unfold rbind at 1. unfold rbind at 1. rewrite alloc_ok by done.
  apply quiet_tail in He2. unfold rbind at 1. rewrite alloc_ok by done. apply quiet_tail in He2. unfold rret at 1.
  set (e3 := tail (tail (tail e2))) in *. set (lru := LRU_LIST _ _ _ _ _). set (z0 := ZONE_OBJECT _ _ _ _ _ _ _).
  assert (Hz0 : zone_wf z0 ∅).
  { constructor; cbn; try done. by constructor. }
  destruct (add_run z0 ∅ name l e3 Hz0 Hne ltac:(done) He2) as (t' & e4 & Hr & He4 & Ht'); [cbn; rewrite Hsz; by vm_compute | by vm_compute | by vm_compute |].
  unfold rbind at 1, run_on at 1. rewrite Hr. cbn [fst snd bail]. unfold rbind at 1, rret at 1.
  unfold rbind at 1. rewrite alloc_ok by done. apply quiet_tail in He4. unfold rbind at 1. rewrite alloc_ok by done. apply quiet_tail in He4.
  eexists _, _. split_and!; [reflexivity | done | | | done | done].
  - change {[ name := 1 ]} with (<[name := next_entry z0]> (∅ : gmap (list Z) Z)). by apply added_wf.
  - by rewrite (cells_added z0 ∅).
Qed.

(** ** Eviction *)

(** The step of the loop from the evicted entry reads it after its last
    reference is gone. *)
Theorem eviction_reads_released z m id ids n k e : rep (pNameEntries z) m → LruListHead (pLruList z) = ids ++ [id] →
  entries z !! id = Some n → nRefCount n = 2 → entry_pszName n ≠ [] → m !! entry_pszName n = Some id →
  VmDnsStringCompareA (Some (zone_name z)) (Some (entry_pszName n)) false ≠ 0 → 0 < k →
  VmDnsLruClearEntries k z e = None.
Proof.
  intros Ht Hids Hn Hc Hne Hm Hcmp Hk. unfold VmDnsLruClearEntries. unfold rbind at 1, rget at 1. rewrite Hids, rev_app_distr. cbn [rev app clear_loop].
  rewrite (proj2 (Z.leb_gt _ _)) by lia. unfold rbind at 1, rget at 1. unfold rbind at 1, rlift at 1.
  rewrite unlink_member by (rewrite Hids; apply elem_of_app; right; by apply list_elem_of_singleton).
  unfold rbind at 1, set_links at 1, rset at 1. unfold rbind at 1, rtry at 1. unfold VmDnsCacheEvictEntryProc, get_entry.
  unfold rbind at 1, rbind at 1, rget at 1, rlift at 1. cbn [entries set_lru]. rewrite Hn. unfold rbind at 1, rget at 1.
  cbn [zone_name set_lru]. rewrite (proj2 (Z.eqb_neq _ _) Hcmp). unfold VmDnsZoneRemoveNameEntry, get_entry.
  unfold rbind at 1, rbind at 1, rget at 1, rlift at 1. cbn [entries set_lru]. rewrite Hn. unfold rbind at 1.
  destruct (hash_remove _ m _ id e Ht Hne Hm) as (t & Hr & _). erewrite on_names_run; [| exact Hr].
  erewrite (release_run id n _ _ 2); [| exact Hn | done | lia]. unfold rbind at 1.
  erewrite (release_last id (set_nRefCount 1 n)); [| cbn; apply lookup_insert_eq | reflexivity].
  unfold rbind, rget, rlift. cbn. by rewrite lookup_delete_eq.
Qed.

End ZoneLaws.

(** ** Concrete zones *)

#[local] Existing Instance compare_bytes_ok.

(** A zone with one name, in the table of one entry. *)
Definition one_name (max : Z) (zone : list Z) : zone_object :=
  ZONE_OBJECT zone VMDNS_ZONE_ID_PRIMARY one_entry (LRU_LIST [7] 1 max 0 0) {[ 7 := entry_of three_hosts 1 ]} 8 false.

Lemma one_name_wf max zone : zone_wf (one_name max zone) {[ [97] := 7 ]}.
Proof.
  constructor; cbn [pNameEntries locked pLruList LruListHead dwCurrentCount entries next_entry one_name]; try done.
  - apply one_entry_rep.
  - apply NoDup_singleton.
  - intros k id [<- <-]%lookup_singleton_Some. eexists. by rewrite lookup_singleton_eq.
  - intros id n [<- <-]%lookup_singleton_Some. by rewrite lookup_singleton_eq.
Qed.

(** Queries, a new name, new records for a name that is there, a purge. *)
Definition some_ops : list zone_op :=
  [Z_GET [97] VMDNS_RR_TYPE_A; Z_UPDATE [99] (Some three_hosts); Z_GET [97] VMDNS_RR_TYPE_A; Z_GET [99] VMDNS_RR_TYPE_A;
   Z_UPDATE [97] (Some three_hosts); Z_PURGE [99]; Z_GET [99] VMDNS_RR_TYPE_A].

Lemma zone_refines_cache_witness :
  ∃ z' m' e', run_zone_ops some_ops (one_name 5 [98]) [] =
      Some (inr [inr (ANSWER (inr [addr 2; addr 3; addr 1]) true); inr DONE; inr (ANSWER (inr [addr 3; addr 1; addr 2]) true);
        inr (ANSWER (inr [addr 1; addr 2; addr 3]) true); inr DONE; inr DONE; inr (ANSWER (inl ERROR_NOT_FOUND) false)], z', e') ∧
    quiet e' ∧ zone_wf z' m' ∧ cells z' = [entry_of three_hosts 0] ∧ Forall cell_fits (cells z').
Proof.
  assert (Hi : ∀ i, 0 <= i < 3 → index_ok VMDNS_RR_TYPE_A three_hosts (entry_of three_hosts i)).
  { intros i Hi. right. change (answer_index VMDNS_RR_TYPE_A (entry_of three_hosts i)) with i. exact Hi. }
  apply (zone_refines_cache (one_name 5 [98]) {[ [97] := 7 ]} some_ops [] (one_name_wf 5 [98])); [| done | by constructor |].
  - change (cells (one_name 5 [98])) with [entry_of three_hosts 1]. constructor; [| done]. split; [done | by apply Hi].
  - repeat (split; [first [done | split; [done |]; vm_compute; split_and?; first [done | by left | by right]]
      | intros ? ? ? E; vm_compute in E; injection E as <- <- <-]). done.
Defined.

Lemma zone_created_witness :
  ∃ z e', VmDnsZoneCreateFromRecordList [97] None (Some [(1, 4)]) tt [0] = Some (inr z, tt, e') ∧ quiet e' ∧
    zone_wf z {[ [97] := 1 ]} ∧ cells z = [NAME_ENTRY 2 [97] None 0 0] ∧ zone_name z = [97] ∧ zoneId z = VMDNS_ZONE_ID_FORWARDER.
Proof. apply (zone_created [97] None (Some [(1, 4)]) tt [0]); [done | forall_list]. Defined.

(** A zone whose list is full: adding a name evicts the one there, and reads it
    afterwards. *)
Example full_list_evicts : VmDnsZoneUpdateRecords [99] None (one_name 1 [98]) [] = None.
Proof. by vm_compute. Qed.

(** When the entry left is that of the zone, it is unlinked and stays in the
    table: the next query for it unlinks it again. *)
Example apex_unlinked_twice :
  VmDnsZoneUpdateRecords [99] None (one_name 1 [65]) [] ≠ None ∧
  (VmDnsZoneUpdateRecords [99] None ;;; VmDnsZoneGetRecords [97] VMDNS_RR_TYPE_A) (one_name 1 [65]) [] = None.
Proof. split; by vm_compute. Qed.

Definition soa_of (serial : Z) : dns_record :=
  DNS_RECORD (Some [97]) VMDNS_RR_TYPE_SOA VMDNS_CLASS_IN 60 (D_SOA (SOA_DATA (Some [110]) (Some [109]) serial 1 2 3 4)).
Definition soa_zone : zone_object :=
  ZONE_OBJECT [97] VMDNS_ZONE_ID_PRIMARY one_entry (LRU_LIST [7] 1 5 0 0) {[ 7 := entry_of (RECORD_LIST 10 10 [soa_of 1]) 0 ]} 8 false.
Definition new_info : zone_info := ZONE_INFO [97] [110] [109] 2 1 2 3 4 0.

(** The update of a zone takes the lock it holds. *)
Example zone_update_deadlock : VmDnsZoneUpdate None new_info soa_zone [] = None.
Proof. by vm_compute. Qed.

(** The kind of a zone with a short name is looked for in front of the name. *)
Example short_zone_name : VmDnsIsReverseZoneName [97; 46] = None ∧ VmDnsZoneCopyZoneInfo soa_zone [] = None.
Proof. split; by vm_compute. Qed.

(** Without memory for its name, a zone that is released takes a lock it does
    not have. *)
Example create_without_memory : VmDnsZoneCreateFromRecordList [97] None None tt [0; 1] = None.
Proof. by vm_compute. Qed.
