(* ===== verification/DnsZoneList.v ===== *)
(** * DnsZoneList: the zones of the cache

    [vmdns/server/common/zonelist.c]: an array of slots with the zones, and the
    search for the zone a name belongs to.  A slot holds the address of a zone
    object and its name; reference counts of zones are not modelled. *)

From S2P Require Import Prelude Heap Effects DnsBuffer DnsName DnsRecord DnsRecordOps DnsHashTable DnsRecordList DnsZone.

Open Scope Z_scope.

Record zone_ref := ZONE_REF { ref_address : Z; ref_name : list Z }.
Abbreviation zone_list := (list (option zone_ref)).

Definition VMDNS_MAX_ZONES : nat := 64.

Section ZoneList.
Context `{StringCompare} {St : Type}.

Definition VmDnsZoneListInit : RM St zone_list := VmDnsAllocateMemory 520 ;;; rret (replicate VMDNS_MAX_ZONES None).

(** The zone goes to the first free slot, or stays away when a zone of the name
    is found before that. *)
Fixpoint add_zone (zr : zone_ref) (zs : zone_list) : option zone_list :=
  match zs with
  | [] => None
  | None :: zs => Some (Some zr :: zs)
  | Some x :: zs =>
      if VmDnsStringCompareA (Some (ref_name x)) (Some (ref_name zr)) false =? 0 then Some (Some x :: zs)
      else option_map (cons (Some x)) (add_zone zr zs)
  end.

Definition VmDnsZoneListAddZone (zr : zone_ref) : RM zone_list unit :=
  zs <- rget ;;
  match add_zone zr zs with Some zs' => rset (λ _, zs') | None => rfail ERROR_OUT_OF_STRUCTURES end.

Fixpoint remove_zone (address : Z) (zs : zone_list) : option zone_list :=
  match zs with
  | [] => None
  | Some x :: zs => if ref_address x =? address then Some (None :: zs) else option_map (cons (Some x)) (remove_zone address zs)
  | None :: zs => option_map (cons None) (remove_zone address zs)
  end.

Definition VmDnsZoneListRemoveZone (address : Z) : RM zone_list unit :=
  zs <- rget ;;
  match remove_zone address zs with Some zs' => rset (λ _, zs') | None => rfail ERROR_NOT_FOUND end.

(** [VmDnsZoneGetName], for a copy of the name. *)
Definition get_name (x : zone_ref) : RM St (list Z) := VmDnsAllocateStringA (ref_name x ++ [0]) ;;; rret (ref_name x).

Fixpoint VmDnsZoneListFindZone (szZoneName : list Z) (zs : zone_list) : RM St zone_ref :=
  match zs with
  | [] => rfail ERROR_NOT_FOUND
  | None :: zs => VmDnsZoneListFindZone szZoneName zs
  | Some x :: zs =>
      name <- get_name x ;;
      if VmDnsStringCompareA (Some szZoneName) (Some name) false =? 0 then rret x else VmDnsZoneListFindZone szZoneName zs
  end.

(** [strncasecmp] is 0, for as many characters as both strings have. *)
Definition same_text (s t : list Z) : bool := bool_decide (map lower s = map lower t).

(** [for (; i < VMDNS_MAX_ZONES; ++i)] with the longest match so far. *)
Fixpoint match_loop (sQName : list Z) (zs : zone_list) (best : option zone_ref) (nMaxNameMatched : Z) : RM St (option zone_ref) :=
  match zs with
  | [] => rret best
  | None :: zs => match_loop sQName zs best nMaxNameMatched
  | Some x :: zs =>
      name <- get_name x ;;
      let nStartCursor := zlen sQName - zlen name in
      if (0 <=? nStartCursor) && same_text (drop (Z.to_nat nStartCursor) sQName) name && (zlen name >? nMaxNameMatched)
      then match_loop sQName zs (Some x) (zlen name)
      else match_loop sQName zs best nMaxNameMatched
  end.

Definition VmDnsZoneListFindZoneByQName (sQName : list Z) (zs : zone_list) : RM St zone_ref :=
  best <- match_loop sQName zs None 0 ;;
  match best with Some x => rret x | None => rfail ERROR_NOT_FOUND end.

(** The descriptions: there is memory for as many as there are zones, and each
    is written at the index of its slot. *)
Fixpoint copy_infos (copy : zone_ref → RM St zone_info) (dwCount i : Z) (zs : zone_list) : RM St (list zone_info) :=
  match zs with
  | [] => rret []
  | None :: zs => copy_infos copy dwCount (i + 1) zs
  | Some x :: zs =>
      if i <? dwCount then zi <- copy x ;; rest <- copy_infos copy dwCount (i + 1) zs ;; rret (zi :: rest) else rub
  end.

Definition VmDnsZoneListGetZones (copy : zone_ref → RM St zone_info) (zs : zone_list) : RM St (list zone_info) :=
  let dwCount := zlen (omap id zs) in
  VmDnsAllocateMemory 16 ;;;
  (if dwCount =? 0 then rret [] else VmDnsAllocateMemory (56 * dwCount)) ;;;
  copy_infos copy dwCount 0 zs.

End ZoneList.

(** ** The zone of a name *)

(** The name ends, up to case, with the name of the zone. *)
Definition covers (q : list Z) (x : zone_ref) : Prop := ∃ p, map lower q = p ++ map lower (ref_name x) ∧ ref_name x ≠ [].

Section Laws.
Context `{StringCompare} {St : Type}.

Lemma get_name_run x (s : St) e : quiet e → ∃ e', get_name x s e = Some (inr (ref_name x), s, e') ∧ quiet e'.
Proof.
  intros He. destruct (alloc_string_ok (ref_name x ++ [0]) _ s e (cstring_block (ref_name x)) He) as (e' & Hr & He').
  exists e'. unfold get_name, rbind. by rewrite Hr.
Qed.

Lemma same_tail q n : zlen n <= zlen q →
  same_text (drop (Z.to_nat (zlen q - zlen n)) q) n = true ↔ ∃ p, map lower q = p ++ map lower n.
Proof.
  intros Hl. unfold same_text. rewrite bool_decide_eq_true. set (k := Z.to_nat (zlen q - zlen n)). split.
  - intros E. exists (map lower (take k q)). rewrite <- E, <- map_app, take_drop. done.
  - intros [p E]. assert (length p = k).
    { apply (f_equal length) in E. rewrite length_app, !length_map in E. unfold k. lia. }
    rewrite <- (take_drop k q), map_app in E. apply app_inj_1 in E as [_ E]; [done |].
    rewrite length_map, length_take. unfold k in *. lia.
Qed.

Lemma covers_test q x : ref_name x ≠ [] →
  (0 <=? zlen q - zlen (ref_name x)) && same_text (drop (Z.to_nat (zlen q - zlen (ref_name x))) q) (ref_name x) = true ↔ covers q x.
Proof.
  intros Hne. rewrite andb_true_iff, Z.leb_le. split.
  - intros [Hl Hs]. apply same_tail in Hs as [p Hp]; [by exists p | lia].
  - intros (p & Hp & _). assert (zlen (ref_name x) <= zlen q).
    { apply (f_equal length) in Hp. rewrite length_app, !length_map in Hp. lia. }
    split; [lia |]. apply same_tail; [done | by exists p].
Qed.

(** What the loop has found is a longest match of what it has seen. *)
Definition best_of (q : list Z) (seen : zone_list) (best : option zone_ref) (n : Z) : Prop :=
  match best with
  | Some x => Some x ∈ seen ∧ covers q x ∧ zlen (ref_name x) = n
  | None => n = 0
  end ∧ ∀ y, Some y ∈ seen → covers q y → zlen (ref_name y) <= n.

Lemma match_loop_run q zs : ∀ seen best n (s : St) e, best_of q seen best n → 0 <= n → quiet e →
  ∃ best' n' e', match_loop q zs best n s e = Some (inr best', s, e') ∧ quiet e' ∧ best_of q (seen ++ zs) best' n'.
Proof.
  induction zs as [|[x|] zs IH]; intros seen best n s e Hb Hn He; cbn [match_loop].
  - exists best, n, e. by rewrite app_nil_r.
  - destruct (get_name_run x s e He) as (e1 & Hr & He1). unfold rbind. rewrite Hr.
    rewrite (cons_middle (Some x) seen zs), app_assoc.
    destruct ((0 <=? _) && _) eqn:Et; [destruct (Z.gtb_spec (zlen (ref_name x)) n) as [Hgt | Hle] |]; cbn [andb].
    + assert (ref_name x ≠ []) as Hx by (intros E; rewrite E in Hgt; cbn in Hgt; lia).
      apply covers_test in Et as Hc; [| done]. apply IH; [| lia | done]. split.
      * split_and!; try done. apply elem_of_app. right. by apply list_elem_of_singleton.
      * intros y [Hy | [= ->]%list_elem_of_singleton]%elem_of_app Hcy; [| lia]. pose proof (proj2 Hb y Hy Hcy). lia.
    + apply IH; [| done | done]. split.
      * destruct best as [b|]; [| apply Hb]. destruct Hb as ((Hin & ?) & _). split; [| done]. apply elem_of_app. by left.
      * intros y [Hy | [= ->]%list_elem_of_singleton]%elem_of_app Hcy; [by apply Hb | lia].
    + apply IH; [| done | done]. split.
      * destruct best as [b|]; [| apply Hb]. destruct Hb as ((Hin & ?) & _). split; [| done]. apply elem_of_app. by left.
      * intros y [Hy | [= ->]%list_elem_of_singleton]%elem_of_app Hcy; [by apply Hb |].
        assert (ref_name x ≠ []) as Hx by (by destruct Hcy as (? & _ & ?)). apply covers_test in Hcy; [| done]. congruence.
  - rewrite (cons_middle None seen zs), app_assoc. apply IH; [| done | done]. split.
    + destruct best as [b|]; [| apply Hb]. destruct Hb as ((Hin & ?) & _). split; [| done]. apply elem_of_app. by left.
    + intros y [Hy | Hy%list_elem_of_singleton]%elem_of_app Hcy; [by apply Hb | done].
Qed.

(** The answer of the search: a longest match, or no match at all. *)
Definition longest_match (q : list Z) (zs : zone_list) (r : dwerror + zone_ref) : Prop :=
  match r with
  | inr x => Some x ∈ zs ∧ covers q x ∧ ∀ y, Some y ∈ zs → covers q y → zlen (ref_name y) <= zlen (ref_name x)
  | inl err => err = ERROR_NOT_FOUND ∧ ∀ y, Some y ∈ zs → ¬ covers q y
  end.

Lemma find_zone_run q zs (s : St) e : quiet e →
  ∃ r e', VmDnsZoneListFindZoneByQName q zs s e = Some (r, s, e') ∧ quiet e' ∧ longest_match q zs r.
Proof.
  intros He. destruct (match_loop_run q zs [] None 0 s e) as (best & n & e' & Hr & He' & Hb & Hmax); [| done | done |].
  { split; [done |]. intros y Hy. by apply elem_of_nil in Hy. }
  unfold VmDnsZoneListFindZoneByQName, rbind. rewrite Hr. cbn [app] in *. destruct best as [x|].
  - eexists (inr x), e'. split; [done |]. destruct Hb as (Hin & Hc & Hl). do 3 (split; [done |]). intros y Hy Hcy. rewrite Hl. by apply Hmax.
  - eexists (inl _), e'. split; [done |]. split; [done |]. split; [done |]. intros y Hy Hcy. pose proof (Hmax y Hy Hcy). destruct Hcy as (_ & _ & Hne).
    destruct (ref_name y); [done | cbn in *; lia].
Qed.

(** The zone that is found for a name is one whose name the name ends
    with, and no zone of the list with that property has a longer name; when
    none is found there is none. *)
Theorem find_zone_longest q zs (s : St) e : quiet e →
  ∃ r e', VmDnsZoneListFindZoneByQName q zs s e = Some (r, s, e') ∧
    match r with
    | inr x => Some x ∈ zs ∧ covers q x ∧ ∀ y, Some y ∈ zs → covers q y → zlen (ref_name y) <= zlen (ref_name x)
    | inl err => err = ERROR_NOT_FOUND ∧ ∀ y, Some y ∈ zs → ¬ covers q y
    end.
Proof. intros He. destruct (find_zone_run q zs s e He) as (r & e' & Hr & _ & Hm). by exists r, e'. Qed.

(** A zone that the list takes is found again by any spelling of its
    name, or another zone of that name that was there before; a full list
    refuses it and stays as it is. *)
Theorem zone_add_find zr zs q (s : St) e : quiet e → map lower q = map lower (ref_name zr) →
  match VmDnsZoneListAddZone zr zs e with
  | Some (inr _, zs', e1) => ∃ x e', VmDnsZoneListFindZone q zs' s e1 = Some (inr x, s, e') ∧ map lower (ref_name x) = map lower q ∧ (x = zr ∨ Some x ∈ zs)
  | Some (inl err, zs', _) => err = ERROR_OUT_OF_STRUCTURES ∧ zs' = zs ∧ None ∉ zs
  | None => False
  end.
Proof.
  intros He Hq. unfold VmDnsZoneListAddZone, rbind, rget. destruct (add_zone zr zs) as [zs'|] eqn:Ea; cbn.
  - revert zs' e He Ea. induction zs as [|[x|] zs IH]; intros zs' e He Ea; cbn in Ea; [done | |].
    + destruct (Z.eqb_spec (LwRtlCStringCompare (ref_name x) (ref_name zr) false) 0) as [E | E].
      * injection Ea as <-. destruct (get_name_run x s e He) as (e1 & Hr & He1). exists x, e1. cbn. unfold rbind. rewrite Hr. cbn.
        apply string_compare_caseless in E. assert (LwRtlCStringCompare q (ref_name x) false = 0) as -> by (apply string_compare_caseless; congruence).
        cbn. split_and!; [done | congruence | right; apply elem_of_cons; by left].
      * destruct (add_zone zr zs) as [zs1|]; [| done]. injection Ea as <-. destruct (get_name_run x s e He) as (e1 & Hr & He1).
        destruct (IH zs1 e1 He1 eq_refl) as (y & e2 & Hy & Hn & Hin). exists y, e2. cbn. unfold rbind. rewrite Hr. cbn.
        assert (LwRtlCStringCompare q (ref_name x) false ≠ 0) as Hne.
        { intros E2. apply E. apply string_compare_caseless in E2. apply string_compare_caseless. congruence. }
        rewrite (proj2 (Z.eqb_neq _ _) Hne). split_and!; [done | done |]. destruct Hin as [-> | Hin]; [by left | right; apply elem_of_cons; by right].
    + injection Ea as <-. destruct (get_name_run zr s e He) as (e1 & Hr & He1). exists zr, e1. cbn. unfold rbind. rewrite Hr. cbn.
      assert (LwRtlCStringCompare q (ref_name zr) false = 0) as -> by (by apply string_compare_caseless). cbn. split_and!; [done | done | by left].
  - split_and!; try done. clear -Ea. induction zs as [|[x|] zs IH]; cbn in Ea; [by intros ?%elem_of_nil | | done].
    destruct (_ =? 0); [done |]. destruct (add_zone zr zs); [done |]. intros [? | ?]%elem_of_cons; [done |]. by apply IH.
Qed.

End Laws.

(** ** Concrete lists *)

#[local] Existing Instance compare_bytes_ok.

(** [ab.] and [b.]. *)
Definition zone_ab : zone_ref := ZONE_REF 100 [97; 98; 46].
Definition zone_b : zone_ref := ZONE_REF 200 [98; 46].

Lemma find_zone_longest_witness :
  ∃ r e', VmDnsZoneListFindZoneByQName [120; 46; 65; 98; 46] [None; Some zone_b; Some zone_ab] tt [] = Some (r, tt, e') ∧
    match r with
    | inr x => Some x ∈ [None; Some zone_b; Some zone_ab] ∧ covers [120; 46; 65; 98; 46] x ∧
        ∀ y, Some y ∈ [None; Some zone_b; Some zone_ab] → covers [120; 46; 65; 98; 46] y → zlen (ref_name y) <= zlen (ref_name x)
    | inl err => err = ERROR_NOT_FOUND ∧ ∀ y, Some y ∈ [None; Some zone_b; Some zone_ab] → ¬ covers [120; 46; 65; 98; 46] y
    end.
Proof. exact (find_zone_longest [120; 46; 65; 98; 46] [None; Some zone_b; Some zone_ab] tt [] (Forall_nil_2 _)). Defined.

Lemma zone_add_find_witness :
  ∃ x e', VmDnsZoneListFindZone [66; 46] [Some zone_ab; Some zone_b] tt [] = Some (inr x, tt, e') ∧
    map lower (ref_name x) = map lower [66; 46] ∧ (x = zone_b ∨ Some x ∈ [Some zone_ab; None]).
Proof. exact (zone_add_find zone_b [Some zone_ab; None] [66; 46] tt [] (Forall_nil_2 _) eq_refl). Defined.

(** The end of a name need not be at a label: [xb.] belongs to the zone [b.]. *)
Example end_inside_label : VmDnsZoneListFindZoneByQName [120; 98; 46] [Some zone_b] tt [] = Some (inr zone_b, tt, []).
Proof. by vm_compute. Qed.

(** When the first zone is gone, the description of the second is written
    behind the memory for one. *)
Example list_zones_gap : VmDnsZoneListGetZones (λ _, rret new_info) [None; Some zone_b] tt [] = None.
Proof. by vm_compute. Qed.

(** A zone is added again in front of itself when a slot before it is free. *)
Example add_again_before : VmDnsZoneListAddZone zone_b [None; Some zone_b] [] = Some (inr tt, [Some zone_b; Some zone_b], []).
Proof. by vm_compute. Qed.
