(* ===== verification/DnsService.v ===== *)
(** * DnsService: lookups and updates of a zone

    [vmdns/server/common/serviceapi.c]: the records of a name come from the
    cache of the zone or, when it has none for the query, from the directory,
    through [store.c]; additions and deletions go to the directory and purge the
    cache ([VmDnsCachePurgeRecord] of [cache.c]); CNAME records are followed.
    The directory is an interface: the operations of [ldap.c] on it, with what
    an LDAP directory promises about the values of an entry. *)

From S2P Require Import Prelude Heap Effects DnsBuffer DnsName DnsRecord DnsRecordOps DnsHashTable DnsRecordList DnsZone.

Open Scope Z_scope.

(** ** The directory *)

(** The records the directory has for a name of a zone.  Names of entries are
    compared without case.  A search of an entry returns its values, or an error;
    "not found" and "no such object" mean that there are none, other errors (of
    LDAP, or of the decoding of a value) say nothing; a modification changes the entry of its name or
    fails without effect. *)
Class Directory (D : Type) := {
  dir_records : D → list Z → list Z → list dns_record;
  VmDnsDirGetRecords : list Z → list Z → RM D record_list;
  VmDnsDirAddZoneRecord : list Z → dns_record → RM D unit;
  VmDnsDirDeleteZoneRecord : list Z → dns_record → RM D unit;
  dir_caseless d zone n n' : map lower n = map lower n' → dir_records d zone n = dir_records d zone n';
  dir_get d zone n e : quiet e → ∃ r e', VmDnsDirGetRecords zone n d e = Some (r, d, e') ∧ quiet e' ∧
    match r with
    | inr l => list_ok l ∧ ppRecords l = dir_records d zone n ∧ ppRecords l ≠ []
    | inl err => err = ERROR_NOT_FOUND ∨ err = LDAP_NO_SUCH_OBJECT → dir_records d zone n = []
    end;
  dir_add d zone r name e : pszName r = Some name → quiet e →
    ∃ x d' e', VmDnsDirAddZoneRecord zone r d e = Some (x, d', e') ∧ quiet e' ∧
    (∀ n, map lower n ≠ map lower name → dir_records d' zone n = dir_records d zone n) ∧
    match x with
    | inr _ => dir_records d' zone name ≡ₚ r :: dir_records d zone name
    | inl err => dir_records d' zone name = dir_records d zone name ∧ err ≠ ERROR_NOT_FOUND
    end;
  dir_delete d zone r name e : pszName r = Some name → quiet e →
    ∃ x d' e', VmDnsDirDeleteZoneRecord zone r d e = Some (x, d', e') ∧ quiet e' ∧
    (∀ n, map lower n ≠ map lower name → dir_records d' zone n = dir_records d zone n) ∧
    match x with
    | inr _ => r :: dir_records d' zone name ≡ₚ dir_records d zone name
    | inl _ => dir_records d' zone name = dir_records d zone name
    end }.

(** A search of the name fails with an error that says nothing about it. *)
Definition dir_fails `{Directory D} (d : D) (zone n : list Z) (err : dwerror) : Prop :=
  err ≠ ERROR_NOT_FOUND ∧ err ≠ LDAP_NO_SUCH_OBJECT ∧ ∃ e e', quiet e ∧ VmDnsDirGetRecords zone n d e = Some (inl err, d, e').

(** Why a lookup in the directory gives no records. *)
Definition no_answer `{Directory D} (d : D) (zone n : list Z) (err : dwerror) : Prop :=
  err = ERROR_NOT_FOUND ∧ dir_records d zone n = [] ∨ dir_fails d zone n err.

(** ** The service *)

Record server (D : Type) := SERVER { srv_zone : zone_object; srv_dir : D; srv_ready : bool }.
Arguments SERVER {D}. Arguments srv_zone {D}. Arguments srv_dir {D}. Arguments srv_ready {D}.

Section Service.
Context `{StringCompare} {D : Type} `{Directory D}.
Variable inet_pton : Z → list Z → bool.

Abbreviation SM := (RM (server D)).

Definition on_zone {A} (m : RM zone_object A) : SM A :=
  s <- rget ;;
  x <- run_on (srv_zone s) m ;;
  rset (λ s, SERVER x.2 (srv_dir s) (srv_ready s)) ;;;
  bail x.1.

Definition on_dir {A} (m : RM D A) : SM A :=
  s <- rget ;;
  x <- run_on (srv_dir s) m ;;
  rset (λ s, SERVER (srv_zone s) x.2 (srv_ready s)) ;;;
  bail x.1.

(** [store.c] *)
Definition VmDnsStoreGetRecords (zone name : list Z) : SM record_list :=
  r <- rtry (on_dir (VmDnsDirGetRecords zone name)) ;;
  match r with
  | inl err => rfail (if bool_decide (err = LDAP_NO_SUCH_OBJECT) then ERROR_NOT_FOUND else err)
  | inr l => rret l
  end.
Definition VmDnsStoreAddZoneRecord (zone : list Z) (r : dns_record) : SM unit := on_dir (VmDnsDirAddZoneRecord zone r).
Definition VmDnsStoreDeleteZoneRecord (zone : list Z) (r : dns_record) : SM unit := on_dir (VmDnsDirDeleteZoneRecord zone r).

Definition VmDnsCacheGetZoneName : SM (list Z) :=
  s <- rget ;; VmDnsAllocateStringA (zone_name (srv_zone s) ++ [0]) ;;; rret (zone_name (srv_zone s)).

(** [strstr] finds the second string in the first. *)
Fixpoint contains (s t : list Z) : bool :=
  bool_decide (t `prefix_of` s) || match s with [] => false | _ :: s => contains s t end.

(** The name [VmDnsMakeFQDN] of [utils.c] makes. *)
Definition fqdn (host domain : list Z) : list Z :=
  if VmDnsCheckIfIPV4AddressA inet_pton host || VmDnsCheckIfIPV6AddressA inet_pton host then host
  else if bool_decide (last host = Some DOT) then host
  else if contains host domain then host ++ [DOT]
  else if bool_decide (last domain = Some DOT) then host ++ [DOT] ++ domain
  else host ++ [DOT] ++ domain ++ [DOT].

Definition VmDnsMakeFQDN (host : dns_string) (domain : list Z) : SM (list Z) :=
  match host with
  | None | Some [] => rfail ERROR_INVALID_PARAMETER
  | Some h =>
      if bool_decide (domain = []) then rfail ERROR_INVALID_PARAMETER
      else VmDnsAllocateMemory (zlen (fqdn h domain) + 1) ;;; rret (fqdn h domain)
  end.

(** The records of a type, from the cache, or from the directory through the
    cache.  The second component says whether the name was found in the cache
    at last. *)
Definition VmDnsSrvGetRecords (pszName : dns_string) (dwType : Z) : SM ((dwerror + record_list) * bool) :=
  r <- rtry (zone <- VmDnsCacheGetZoneName ;; name <- VmDnsMakeFQDN pszName zone ;; rret (zone, name)) ;;
  match r with
  | inl err => rret (inl err, false)
  | inr (zone, name) =>
      x <- on_zone (VmDnsZoneGetRecords name dwType) ;;
      let load :=
        g <- rtry (VmDnsStoreGetRecords zone name) ;;
        match g with
        | inl err => rret (inl err, x.2)
        | inr l =>
            u <- rtry (on_zone (VmDnsZoneUpdateRecords name (Some l))) ;;
            match u with
            | inl err => rret (inl err, x.2)
            | inr _ => on_zone (VmDnsZoneGetRecords name dwType)
            end
        end in
      match x.1 with
      | inl err => if bool_decide (err = ERROR_NOT_FOUND) then load else rret (inl err, x.2)
      | inr l => if VmDnsRecordListGetSize l =? 0 then load else rret x
      end
  end.

(** The loop over the records of an answer, each with the next index. *)
Fixpoint follow (next : Z → dns_record → SM (option record_list)) (idx : Z) (rs : list dns_record) (links : record_list)
  : SM record_list :=
  match rs with
  | [] => rret links
  | r :: rs =>
      t <- next (idx + 1) r ;;
      links <- build_list links (VmDnsRecordListAddList t) ;;
      follow next (idx + 1) rs links
  end.

(** The records behind a CNAME record.  The index counts the records that have
    been looked at on the way, and ends the search at 5. *)
Fixpoint linked (fuel : nat) (idx dwType : Z) (r : dns_record) : SM (option record_list) :=
  match fuel with
  | O => rub
  | S fuel =>
      if negb (DnsRecord.dwType r =? VMDNS_RR_TYPE_CNAME) then rret None
      else if idx >? 4 then rfail ERROR_NOT_SUPPORTED
      else
        match Data r with
        | D_CNAME host =>
            new <- VmDnsRecordListCreate ;;
            x <- VmDnsSrvGetRecords host dwType ;;
            l <- bail x.1 ;;
            links <- follow (λ i r, linked fuel i dwType r) idx (ppRecords l) new ;;
            l <- build_list l (VmDnsRecordListAddList (Some links)) ;;
            rret (Some l)
        | _ => rub
        end
  end.

Definition VmDnsGetLinkedRecords (idx dwType : Z) (r : dns_record) : SM (option record_list) :=
  linked (S (Z.to_nat (5 - idx))) idx dwType r.

(** [ERROR_NOT_READY] before the cache is loaded. *)
Definition when_ready : SM unit := s <- rget ;; if srv_ready s then rret tt else rfail ERROR_NOT_READY.

Definition VmDnsSrvQueryRecords (pszName : dns_string) (dwType : Z) : SM ((dwerror + record_list) * bool) :=
  r <- rtry (when_ready ;;; VmDnsRecordListCreate) ;;
  match r with
  | inl err => rret (inl err, false)
  | inr new =>
      x <- VmDnsSrvGetRecords pszName dwType ;;
      r <- rtry (
        l <- bail x.1 ;;
        links <- follow (λ i r, VmDnsGetLinkedRecords i dwType r) 0 (ppRecords l) new ;;
        build_list l (VmDnsRecordListAddList (Some links))) ;;
      rret (r, x.2)
  end.

(** ** Updates *)

(** [VmDnsIsUpdatePermitted] of [dnsutils.c]: there is one SOA or CNAME record,
    and nothing beside a CNAME. *)
Definition VmDnsIsUpdatePermitted (dwRecordType : Z) (l : option record_list) : bool :=
  match l with
  | None => true
  | Some l =>
      if (dwRecordType =? VMDNS_RR_TYPE_SOA) || (dwRecordType =? VMDNS_RR_TYPE_CNAME) then dwCurrentSize l =? 0
      else forallb (λ r, negb (dwType r =? VMDNS_RR_TYPE_CNAME)) (ppRecords l)
  end.

Definition VmDnsSrvIsRecordCompatible (zone : list Z) (recordType : Z) : option bool :=
  option_map (λ reverse : bool,
    if reverse then (recordType =? VMDNS_RR_TYPE_PTR) || (recordType =? VMDNS_RR_TYPE_SOA) || (recordType =? VMDNS_RR_TYPE_NS)
    else negb (recordType =? VMDNS_RR_TYPE_PTR)) (VmDnsIsReverseZoneName zone).

(** The records of the zone itself are read again; those of another name are
    dropped. *)
Definition VmDnsCachePurgeRecord (pszRecord : list Z) : SM unit :=
  s <- rget ;;
  let zone := zone_name (srv_zone s) in
  if VmDnsStringCompareA (Some zone) (Some pszRecord) false =? 0 then
    l <- VmDnsStoreGetRecords zone zone ;;
    on_zone (VmDnsZoneUpdateRecords zone (Some l))
  else
    r <- rtry (on_zone (VmDnsZonePurgeRecords pszRecord)) ;;
    match r with
    | inl err => if bool_decide (err = ERROR_NOT_FOUND) then rret tt else rfail err
    | inr _ => rret tt
    end.

Definition VmDnsSrvAddRecord (r : dns_record) : SM unit :=
  when_ready ;;;
  zone <- VmDnsCacheGetZoneName ;;
  ok <- rlift (VmDnsSrvIsRecordCompatible zone (dwType r)) ;;
  if negb ok then rfail ERROR_INVALID_PARAMETER
  else
    x <- VmDnsSrvGetRecords (pszName r) (if dwType r =? VMDNS_RR_TYPE_CNAME then VMDNS_RR_QTYPE_ANY else dwType r) ;;
    l <- match x.1 with
         | inr l => rret (Some l)
         | inl err => if bool_decide (err = ERROR_NOT_FOUND) then rret None else rfail err
         end ;;
    if negb (VmDnsIsUpdatePermitted (dwType r) l) then rfail ERROR_INVALID_PARAMETER
    else
      VmDnsStoreAddZoneRecord zone r ;;;
      name <- rlift (pszName r) ;;
      VmDnsCachePurgeRecord name.

(** The record of the zone itself is not read again here. *)
Definition VmDnsSrvDeleteRecord (r : dns_record) : SM unit :=
  when_ready ;;;
  if dwType r =? VMDNS_RR_TYPE_SOA then rfail ERROR_OPERATION_NOT_PERMITTED
  else
    zone <- VmDnsCacheGetZoneName ;;
    VmDnsStoreDeleteZoneRecord zone r ;;;
    name <- rlift (pszName r) ;;
    x <- rtry (on_zone (VmDnsZonePurgeRecords name)) ;;
    match x with
    | inl err => rfail err
    | inr _ => rret tt
    end.

Definition VmDnsSrvUpdateRecord (old new : dns_record) : SM unit := VmDnsSrvDeleteRecord old ;;; VmDnsSrvAddRecord new.

Fixpoint VmDnsSrvAddRecords (rs : list dns_record) : SM unit :=
  match rs with [] => rret tt | r :: rs => VmDnsSrvAddRecord r ;;; VmDnsSrvAddRecords rs end.
Fixpoint VmDnsSrvDeleteRecords (rs : list dns_record) : SM unit :=
  match rs with [] => rret tt | r :: rs => VmDnsSrvDeleteRecord r ;;; VmDnsSrvDeleteRecords rs end.

Definition VmDnsSrvGetInverseRRTypeRecordList (l : record_list) (dwExcludeType : Z) : SM record_list :=
  new <- VmDnsRecordListCreate ;;
  build_list new (add_all (filter (λ r, dwType r ≠ dwExcludeType) (ppRecords l))).

End Service.

(** ** Coherence *)

(** What the cache has of a name is what the directory has, and the round robin
    is in its range. *)
Definition cell_coherent `{Directory D} (d : D) (zone : list Z) (n : name_entry) : Prop :=
  match pRecords n with
  | Some l => ppRecords l = dir_records d zone (entry_pszName n) ∧ dwCurrentSize l < 2 ^ 31 ∧ index_ok (dwRoundRobinType n) l n
  | None => dwRoundRobinIndex n = 0
  end.

Definition coherent `{Directory D} (s : server D) : Prop :=
  (∃ m, zone_wf (srv_zone s) m) ∧ Forall (cell_coherent (srv_dir s) (zone_name (srv_zone s))) (cells (srv_zone s)).

(** The cache has an entry of the name. *)
Definition cached (q : list Z) (z : zone_object) : bool := match find (named q) (cells z) with Some _ => true | None => false end.

(** The name is in the cache in no other spelling: the table tells names apart
    by case. *)
Definition one_spelling (name : list Z) (z : zone_object) : Prop :=
  Forall (λ n, map lower (entry_pszName n) = map lower name → entry_pszName n = name) (cells z).

(** The name is in the cache, or there is room for it. *)
Definition room_for (q : list Z) (z : zone_object) : Prop :=
  dwCurrentCount (pLruList z) < 2 ^ 32 ∧ (cached q z = false → roomy z).

Section ServiceLaws.
Context `{StringCompare} {D : Type} `{Directory D}.
Variable inet_pton : Z → list Z → bool.
Implicit Types (s : server D) (d : D).

Lemma on_zone_run {A} (m : RM zone_object A) s e r z e' : m (srv_zone s) e = Some (r, z, e') →
  on_zone m s e = Some (r, SERVER z (srv_dir s) (srv_ready s), e').
Proof. intros Hm. unfold on_zone, rbind, rget, run_on. rewrite Hm. cbn. by destruct r. Qed.

Lemma on_dir_run {A} (m : RM D A) s e r d e' : m (srv_dir s) e = Some (r, d, e') →
  on_dir m s e = Some (r, SERVER (srv_zone s) d (srv_ready s), e').
Proof. intros Hm. unfold on_dir, rbind, rget, run_on. rewrite Hm. cbn. by destruct r. Qed.

Lemma served_coherent d zone t l n : cell_coherent d zone n → pRecords n = Some l → cell_coherent d zone (served t l n).
Proof.
  unfold cell_coherent. intros Hc Hl. rewrite Hl in Hc. destruct Hc as (Hd & Hs & Hi).
  assert (Hf : cell_fits (served t l n)) by (apply served_fits; [unfold cell_fits; by rewrite Hl | done]).
  unfold cell_fits in Hf. cbn [pRecords served set_round_robin entry_pszName] in *. rewrite Hl in *. done.
Qed.

(** The names in a cell after a query or an update of the name [q]. *)
Lemma spelling_kept z z' name : Forall (λ n, entry_pszName n ∈ map entry_pszName (cells z) ∨ entry_pszName n = name) (cells z') →
  one_spelling name z → one_spelling name z'.
Proof.
  unfold one_spelling. intros Hn Ho. rewrite Forall_forall in Hn, Ho |- *. intros n Hin E. destruct (Hn n Hin) as [Hold | ->]; [| done].
  apply list_elem_of_In, in_map_iff in Hold as (x & Ex & Hx%list_elem_of_In). rewrite <- Ex. apply Ho; [done |]. by rewrite Ex.
Qed.

Lemma cache_op_names op cs : let name := match op with Z_UPDATE q _ | Z_GET q _ | Z_PURGE q => q end in
  Forall (λ n, entry_pszName n ∈ map entry_pszName cs ∨ entry_pszName n = name) (cache_op op cs).2.
Proof.
  assert (Hsame : ∀ n, n ∈ cs → entry_pszName n ∈ map entry_pszName cs) by (intros n Hn; apply list_elem_of_In, in_map_iff; exists n; split; [done | by apply list_elem_of_In]).
  destruct op as [q l | q t | q]; cbn [cache_op]; apply Forall_forall; intros n Hin.
  - cbn [snd] in Hin. destruct (find (named q) cs) as [x|].
    + apply list_elem_of_In, in_map_iff in Hin as (y & <- & Hy%list_elem_of_In). left. destruct (named q y); cbn; by apply Hsame.
    + apply elem_of_cons in Hin as [-> | Hin]; [by right | left; by apply Hsame].
  - destruct (find (named q) cs) as [x|] eqn:Ef; [| left; by apply Hsame]. destruct (pRecords x) as [l|]; [| left; by apply Hsame].
    cbn [snd] in Hin. apply elem_of_cons in Hin as [-> | [_ Hin]%list_elem_of_filter]; left; [| by apply Hsame].
    apply List.find_some in Ef as [Hx%list_elem_of_In _]. by apply (Hsame x).
  - destruct (find (named q) cs); [| left; by apply Hsame]. apply list_elem_of_filter in Hin as [_ Hin]. left. by apply Hsame.
Qed.

Lemma wf_inv s : coherent s → ∃ m, zone_wf (srv_zone s) m.
Proof. by intros [? _]. Qed.

(** A query of the cache. *)
Lemma get_step s q t e : coherent s → quiet e → q ≠ [] →
  ∃ r b s' e', on_zone (VmDnsZoneGetRecords q t) s e = Some (inr (r, b), s', e') ∧ quiet e' ∧ coherent s' ∧ srv_dir s' = srv_dir s ∧
    srv_ready s' = srv_ready s ∧ zone_name (srv_zone s') = zone_name (srv_zone s) ∧ (room_for q (srv_zone s) → room_for q (srv_zone s')) ∧
    (one_spelling q (srv_zone s) → one_spelling q (srv_zone s')) ∧
    match find (named q) (cells (srv_zone s)) with
    | Some n => b = true ∧ match pRecords n with
                           | Some l => ∃ res, r = inr res ∧ ppRecords res ≡ₚ matching t l
                           | None => r = inl ERROR_NOT_FOUND
                           end
    | None => r = inl ERROR_NOT_FOUND ∧ b = false
    end.
Proof.
  intros [[m Hm] Hc] He Hq. rewrite Forall_forall in Hc.
  destruct (zone_step (srv_zone s) m (Z_GET q t) e Hm He) as (z' & m' & e' & Hr & He' & Hz' & Hcells & Hname & Hsame).
  { split; [done |]. intros n l Hin Hn Hl. pose proof (Hc n Hin) as Hcell. unfold cell_coherent in Hcell. rewrite Hl in Hcell.
    destruct Hcell as (_ & Hs & Hi). split; [done | by apply any_index_ok]. }
  cbn [run_zone_op] in Hr. unfold rbind in Hr.
  destruct (VmDnsZoneGetRecords q t (srv_zone s) e) as [[[[err | [r b]] z1] e1]|] eqn:Eg; [| | done].
  { cbn in Hr. destruct (find (named q) (cells (srv_zone s))) as [n|]; [destruct (pRecords n)|]; done. }
  cbn [rret] in Hr. injection Hr as Hr -> ->. exists r, b. eexists _, e'. split; [by apply on_zone_run |].
  split; [done |]. split; [| split_and!; [done | done | done | | |]].
  - split; [by exists m' |]. cbn [srv_zone srv_dir]. rewrite Hname, Hcells. apply Forall_forall. intros n Hin. cbn [cache_op] in Hin.
    destruct (find (named q) (cells (srv_zone s))) as [x|] eqn:Ef; [| by apply Hc].
    destruct (pRecords x) as [l|] eqn:El; [| by apply Hc]. cbn [snd] in Hin. apply elem_of_cons in Hin as [-> | Hin].
    + apply served_coherent; [| done]. apply Hc. apply List.find_some in Ef as [Hx _]. by apply list_elem_of_In.
    + apply list_elem_of_filter in Hin as [_ Hin]. by apply Hc.
  - intros (Hcnt & Hroom). destruct Hsame as (_ & H2 & Hp & H1). unfold room_for, roomy in *. cbn [srv_zone]. rewrite Hp, H1, H2.
    split; [done |]. intros Hno. apply Hroom. unfold cached in *. rewrite Hcells in Hno. cbn [cache_op] in Hno.
    destruct (find (named q) (cells (srv_zone s))) as [n|] eqn:Ef; [| done]. destruct (pRecords n) as [l|]; cbn [snd find] in Hno; [| by rewrite Ef in Hno].
    change (named q (served t l n)) with (named q n) in Hno. apply List.find_some in Ef as [_ Hn]. by rewrite Hn in Hno.
  - apply spelling_kept. cbn [srv_zone]. rewrite Hcells. exact (cache_op_names (Z_GET q t) (cells (srv_zone s))).
  - cbn [cache_op] in Hr. destruct (find (named q) (cells (srv_zone s))) as [n|]; [destruct (pRecords n) as [l|]|].
    + cbn in Hr. injection Hr as Hr ->. destruct r as [err | res]; [done |]. cbn in Hr. injection Hr as Hr. split; [done |].
      exists res. split; [done |]. rewrite Hr. apply rotated_perm.
    + cbn in Hr. injection Hr as Hr ->. destruct r as [err | res]; [| done]. cbn in Hr. by injection Hr as ->.
    + cbn in Hr. injection Hr as Hr ->. destruct r as [err | res]; [| done]. cbn in Hr. by injection Hr as ->.
Qed.

(** The cells of the other names agree with the directory. *)
Definition coherent_but (name : list Z) s : Prop :=
  (∃ m, zone_wf (srv_zone s) m) ∧
  Forall (λ n, entry_pszName n ≠ name → cell_coherent (srv_dir s) (zone_name (srv_zone s)) n) (cells (srv_zone s)).

Lemma coherent_but_all name s : coherent s → coherent_but name s.
Proof. intros [Hm Hc]. split; [done |]. eapply Forall_impl; [exact Hc | done]. Qed.

(** The round robin of what the cache has of a name is in the range of the
    records. *)
Definition index_fits (q : list Z) (l : record_list) (z : zone_object) : Prop :=
  Forall (λ n, entry_pszName n = q → index_ok (dwRoundRobinType n) l n) (cells z).

(** It is when there are no fewer records of any type than the directory had. *)
Lemma grown_fits s q l rs : coherent s → ppRecords l ≡ₚ rs ++ dir_records (srv_dir s) (zone_name (srv_zone s)) q →
  index_fits q l (srv_zone s).
Proof.
  unfold index_fits. intros [_ Hc] Hl. rewrite Forall_forall in Hc |- *. intros n Hin Hn. pose proof (Hc n Hin) as Hcell. unfold cell_coherent in Hcell.
  set (t := dwRoundRobinType n). assert (Hidx : 0 <= answer_index t n ∧
    (answer_index t n = 0 ∨ answer_index t n < zlen (filter (λ r, type_matches t r) (dir_records (srv_dir s) (zone_name (srv_zone s)) q)))).
  { destruct (pRecords n) as [l0|].
    - destruct Hcell as (E & _ & Hi). rewrite Hn in E. unfold index_ok, matching in Hi. fold t in Hi. rewrite E in Hi. lia.
    - unfold answer_index. rewrite Hcell. destruct (_ =? _); lia. }
  assert (Hle : zlen (filter (λ r, type_matches t r) (dir_records (srv_dir s) (zone_name (srv_zone s)) q)) <= zlen (matching t l)).
  { unfold matching. rewrite Hl, filter_app, length_app. lia. }
  unfold index_ok. fold t. destruct (matching t l) as [|r rs']; [left; cbn [length] in Hle; split; [done | lia] | right; cbn [length] in *; lia].
Qed.

(** New records of the directory for a name. *)
Lemma load_step s q l e : coherent_but q s → index_fits q l (srv_zone s) → quiet e → q ≠ [] → room_for q (srv_zone s) →
  ppRecords l = dir_records (srv_dir s) (zone_name (srv_zone s)) q → dwCurrentSize l < 2 ^ 31 →
  ∃ s' e', on_zone (VmDnsZoneUpdateRecords q (Some l)) s e = Some (inr tt, s', e') ∧ quiet e' ∧ coherent s' ∧ srv_dir s' = srv_dir s ∧
    srv_ready s' = srv_ready s ∧ zone_name (srv_zone s') = zone_name (srv_zone s) ∧
    room_for q (srv_zone s') ∧ (one_spelling q (srv_zone s) → one_spelling q (srv_zone s')) ∧
    ∃ n, find (named q) (cells (srv_zone s')) = Some n ∧ pRecords n = Some l.
Proof.
  unfold index_fits. intros [[m Hm] Hc] Hfit He Hq Hroom Hd Hsz. rewrite Forall_forall in Hc, Hfit.
  destruct (zone_step (srv_zone s) m (Z_UPDATE q (Some l)) e Hm He) as (z' & m' & e' & Hr & He' & Hz' & Hcells & Hname & Hcnt & Hmax & Hcnt').
  { split; [done |]. intros Hno. apply Hroom. unfold cached. by rewrite Hno. }
  cbn [run_zone_op] in Hr. unfold rbind in Hr.
  destruct (VmDnsZoneUpdateRecords q (Some l) (srv_zone s) e) as [[[[err | []] z1] e1]|] eqn:Eg; [done | | done].
  injection Hr as -> ->. eexists _, e'. split; [by apply on_zone_run |]. cbn [srv_zone srv_dir srv_ready]. split; [done |].
  assert (Hnew : ∀ n, named q n = true → index_ok (dwRoundRobinType n) l n → cell_coherent (srv_dir s) (zone_name (srv_zone s)) (set_pRecords (Some l) n)).
  { intros n Hn Hi. unfold named in Hn. apply bool_decide_eq_true in Hn. unfold cell_coherent. cbn. rewrite Hn. split_and!; done. }
  assert (Hfind : ∃ n, find (named q) (cells z') = Some n ∧ pRecords n = Some l).
  { rewrite Hcells. cbn [cache_op snd]. destruct (find (named q) (cells (srv_zone s))) as [x|] eqn:Ef.
    - apply List.find_some in Ef as [Hx Hn]. clear -Hx Hn. induction (cells (srv_zone s)) as [|y cs IH]; [done |]. cbn [map find].
      destruct (named q y) eqn:Ey.
      + replace (named q (set_pRecords (Some l) y)) with true by (by rewrite <- Ey). by eexists.
      + rewrite Ey. apply IH. destruct Hx as [-> | Hx]; [congruence | done].
    - cbn [find]. unfold named at 1. cbn [entry_pszName]. rewrite bool_decide_eq_true_2 by done. by eexists. }
  assert (Hroom' : room_for q z').
  { split; [| unfold cached; by destruct Hfind as (n & -> & _)]. destruct Hroom as [Hb Hroom]. unfold cached in Hroom.
    destruct (find (named q) (cells (srv_zone s))) as [n|]; [by rewrite Hcnt' |]. destruct (Hroom eq_refl) as (_ & Hc1 & Hc2). lia. }
  assert (Hspell : one_spelling q (srv_zone s) → one_spelling q z').
  { apply spelling_kept. rewrite Hcells. exact (cache_op_names (Z_UPDATE q (Some l)) (cells (srv_zone s))). }
  split; [| done].
  split; [by exists m' |]. cbn [srv_zone srv_dir]. rewrite Hname, Hcells. cbn [cache_op snd]. apply Forall_forall. intros n Hin.
  destruct (find (named q) (cells (srv_zone s))) as [x|] eqn:Ef.
  - apply list_elem_of_In, in_map_iff in Hin as (y & <- & Hy). apply list_elem_of_In in Hy. destruct (named q y) eqn:Ey.
    + apply Hnew; [done |]. apply Hfit; [done |]. unfold named in Ey. by apply bool_decide_eq_true in Ey.
    + apply Hc; [done |]. unfold named in Ey. by apply bool_decide_eq_false in Ey.
  - apply elem_of_cons in Hin as [-> | Hin].
    + apply (Hnew (NAME_ENTRY 2 q (Some l) 0 0)); [unfold named; by rewrite bool_decide_eq_true_2 |].
      unfold index_ok, answer_index. cbn. destruct (matching 0 l); [by left | right; cbn; lia].
    + apply Hc; [done |]. intros E. apply list_elem_of_In in Hin. pose proof (List.find_none _ _ Ef n Hin) as Hf. unfold named in Hf. by rewrite bool_decide_eq_true_2 in Hf.
Qed.

Lemma fqdn_not_empty h zone : h ≠ [] → fqdn inet_pton h zone ≠ [].
Proof. intros Hh. unfold fqdn. repeat case_match; destruct h; done. Qed.

Lemma store_get_run s zone q e : quiet e →
  ∃ r e', VmDnsStoreGetRecords zone q s e = Some (r, s, e') ∧ quiet e' ∧
    match r with
    | inr l => ppRecords l = dir_records (srv_dir s) zone q ∧ ppRecords l ≠ []
    | inl err => no_answer (srv_dir s) zone q err
    end.
Proof.
  intros He. destruct (dir_get (srv_dir s) zone q e He) as (r & e' & Hr & He' & Hc).
  unfold VmDnsStoreGetRecords, rbind, rtry. rewrite (on_dir_run _ _ _ _ _ _ Hr).
  assert (SERVER (srv_zone s) (srv_dir s) (srv_ready s) = s) as -> by (by destruct s).
  destruct r as [err | l].
  - eexists (inl _), e'. split; [reflexivity |]. split; [done |]. case_bool_decide as Hl; [left; split; [done | by apply Hc; right] |].
    destruct (decide (err = ERROR_NOT_FOUND)) as [-> | Hn]; [left; split; [done | by apply Hc; left] |]. right. split_and!; [done | done | by exists e, e'].
  - eexists (inr l), e'. destruct Hc as (_ & ? & ?). done.
Qed.

(** The records of the directory that a query of the type asks for. *)
Definition dir_answer s (q : list Z) (t : Z) : list dns_record :=
  filter (λ r, type_matches t r) (dir_records (srv_dir s) (zone_name (srv_zone s)) q).

(** A lookup of the host: the cache agrees with the directory, the name is in the
    cache or has room there, and the names are not empty. *)
Record lookup_ok s (h : list Z) : Prop := {
  look_coherent : coherent s;
  look_room : room_for (fqdn inet_pton h (zone_name (srv_zone s))) (srv_zone s);
  look_zone : zone_name (srv_zone s) ≠ [];
  look_host : h ≠ [];
  look_size : zlen (dir_records (srv_dir s) (zone_name (srv_zone s)) (fqdn inet_pton h (zone_name (srv_zone s)))) < 2 ^ 31 }.

Lemma names_run s h e : lookup_ok s h → quiet e →
  ∃ e', (zone <- VmDnsCacheGetZoneName ;; name <- VmDnsMakeFQDN inet_pton (Some h) zone ;; rret (zone, name)) s e =
    Some (inr (zone_name (srv_zone s), fqdn inet_pton h (zone_name (srv_zone s))), s, e') ∧ quiet e'.
Proof.
  intros [_ _ Hz Hh _] He. unfold VmDnsCacheGetZoneName, VmDnsMakeFQDN. unfold rbind, rget.
  destruct (alloc_string_ok (zone_name (srv_zone s) ++ [0]) _ s e (cstring_block _) He) as (e1 & Hs & He1). rewrite Hs. unfold rret.
  destruct h as [|c h]; [done |]. rewrite bool_decide_eq_false_2 by done. rewrite alloc_ok by (done || lia).
  eexists. split; [reflexivity | by apply quiet_tail].
Qed.

Lemma records_lookup_run s h t e : lookup_ok s h → quiet e →
  let q := fqdn inet_pton h (zone_name (srv_zone s)) in
  ∃ r b s' e', VmDnsSrvGetRecords inet_pton (Some h) t s e = Some (inr (r, b), s', e') ∧ quiet e' ∧ coherent s' ∧
    srv_dir s' = srv_dir s ∧ srv_ready s' = srv_ready s ∧ zone_name (srv_zone s') = zone_name (srv_zone s) ∧ room_for q (srv_zone s') ∧
    (one_spelling q (srv_zone s) → one_spelling q (srv_zone s')) ∧
    match r with
    | inr l => ppRecords l ≡ₚ dir_answer s q t ∧ dir_records (srv_dir s) (zone_name (srv_zone s)) q ≠ [] ∧ b = true
    | inl err => no_answer (srv_dir s) (zone_name (srv_zone s)) q err ∧ b = cached q (srv_zone s)
    end.
Proof.
  intros Hlook He q. destruct (names_run s h e Hlook He) as (e1 & Hn & He1). destruct Hlook as [Hc Hroom Hz Hh Hsz].
  assert (Hq : q ≠ []) by (by apply fqdn_not_empty). fold q in Hsz.
  unfold VmDnsSrvGetRecords. unfold rbind at 1, rtry at 1. rewrite Hn. fold q.
  destruct (get_step s q t e1 Hc He1 Hq) as (r & b & s1 & e2 & Hr & He2 & Hc1 & Hd1 & Hy1 & Hz1 & Hroom1 & Hsp1 & Hres).
  unfold rbind at 1. rewrite Hr. cbn [fst snd].
  assert (Hcached : b = cached q (srv_zone s)).
  { unfold cached. destruct (find (named q) (cells (srv_zone s))); [apply Hres | by destruct Hres as [_ ->]]. }
  assert (Hload : ∃ r' b' s' e',
    (g <- rtry (VmDnsStoreGetRecords (zone_name (srv_zone s)) q) ;;
     match g with
     | inl err => rret (inl err, b)
     | inr l =>
         u <- rtry (on_zone (VmDnsZoneUpdateRecords q (Some l))) ;;
         match u with inl err => rret (inl err, b) | inr _ => on_zone (VmDnsZoneGetRecords q t) end
     end) s1 e2 = Some (inr (r', b'), s', e') ∧ quiet e' ∧ coherent s' ∧
    srv_dir s' = srv_dir s ∧ srv_ready s' = srv_ready s ∧ zone_name (srv_zone s') = zone_name (srv_zone s) ∧ room_for q (srv_zone s') ∧
    (one_spelling q (srv_zone s) → one_spelling q (srv_zone s')) ∧
    match r' with
    | inr l => ppRecords l ≡ₚ dir_answer s q t ∧ dir_records (srv_dir s) (zone_name (srv_zone s)) q ≠ [] ∧ b' = true
    | inl err => no_answer (srv_dir s) (zone_name (srv_zone s)) q err ∧ b' = cached q (srv_zone s)
    end).
  { destruct (store_get_run s1 (zone_name (srv_zone s)) q e2 He2) as (g & e3 & Hg & He3 & Hgc). unfold rbind at 1, rtry at 1. rewrite Hg.
    rewrite Hd1 in Hgc. destruct g as [err | l].
    - eexists (inl err), b, s1, e3. split_and!; try done. by apply Hroom1.
    - destruct Hgc as (Hl & Hne).
      destruct (load_step s1 q l e3 (coherent_but_all q s1 Hc1)) as (s2 & e4 & Hu & He4 & Hc2 & Hd2 & Hy2 & Hz2 & Hb2 & Hsp2 & n & Hfind & Hrec); try done.
      { apply (grown_fits s1 q l []); [done |]. by rewrite Hd1, Hz1, Hl. } { by apply Hroom1. } { by rewrite Hd1, Hz1. } { unfold dwCurrentSize. by rewrite Hl. }
      destruct (get_step s2 q t e4 Hc2 He4 Hq) as (r2 & b2 & s3 & e5 & Hr2 & He5 & Hc3 & Hd3 & Hy3 & Hz3 & Hb3 & Hsp3 & Hres2).
      rewrite Hfind, Hrec in Hres2. destruct Hres2 as (-> & res & -> & Hperm).
      eexists (inr res), true, s3, e5. unfold rbind, rtry. rewrite Hu, Hr2. split_and!; try done; try congruence; [by apply Hb3 | intros; by apply Hsp3, Hsp2, Hsp1 |].
      rewrite Hperm. unfold matching, dir_answer. by rewrite Hl. }
  destruct r as [err | l].
  - assert (err = ERROR_NOT_FOUND) as ->.
    { destruct (find (named q) (cells (srv_zone s))) as [n|]; [destruct Hres as (_ & Hres); destruct (pRecords n)|].
      - by destruct Hres as (? & ? & _). - congruence. - destruct Hres. congruence. }
    rewrite bool_decide_eq_true_2 by done. exact Hload.
  - destruct (Z.eqb_spec (VmDnsRecordListGetSize l) 0) as [E | E]; [exact Hload |].
    eexists (inr l), b, s1, e2. do 8 (split; [done || by apply Hroom1 |]).
    destruct (find (named q) (cells (srv_zone s))) as [n|] eqn:Ef; [| by destruct Hres].
    destruct Hres as (-> & Hres). destruct (pRecords n) as [l0|] eqn:El; [| done]. destruct Hres as (res & [= <-] & Hperm).
    apply List.find_some in Ef as [Hin Hnm]. unfold named in Hnm. apply bool_decide_eq_true in Hnm. apply list_elem_of_In in Hin.
    destruct Hc as [_ Hcells]. rewrite Forall_forall in Hcells. pose proof (Hcells n Hin) as Hcell. unfold cell_coherent in Hcell. rewrite El, Hnm in Hcell.
    destruct Hcell as (Hl0 & _ & _). unfold matching in Hperm. rewrite Hl0 in Hperm. split_and!; [done | | done].
    intros Hempty. rewrite Hempty in Hperm. apply Permutation_nil_r in Hperm. unfold VmDnsRecordListGetSize, dwCurrentSize in E. by rewrite Hperm in E.
Qed.

(** ** Queries *)

Definition no_alias (rs : list dns_record) : Prop := Forall (λ r, dwType r ≠ VMDNS_RR_TYPE_CNAME) rs.

Lemma follow_none t rs : ∀ idx links s e, no_alias rs →
  follow (λ i r, VmDnsGetLinkedRecords inet_pton i t r) idx rs links s e = Some (inr links, s, e).
Proof.
  induction rs as [|r rs IH]; intros idx links s e Hn; [done |]. apply Forall_cons_1 in Hn as [Hr Hn]. cbn [follow].
  unfold rbind at 1, VmDnsGetLinkedRecords at 1. cbn [linked]. rewrite (proj2 (Z.eqb_neq _ _) Hr). cbn [negb]. unfold rret at 1.
  unfold rbind at 1, build_list at 1, run_on at 1. cbn [VmDnsRecordListAddList]. unfold rbind, bail, rret. cbn [fst snd]. by apply IH.
Qed.

Lemma lookup_ok_again s s' h : lookup_ok s h → coherent s' → srv_dir s' = srv_dir s → zone_name (srv_zone s') = zone_name (srv_zone s) →
  room_for (fqdn inet_pton h (zone_name (srv_zone s))) (srv_zone s') → lookup_ok s' h.
Proof. intros [] Hc Hd Hz Hr. constructor; rewrite ?Hz, ?Hd; done. Qed.

Lemma query_run s h t e : lookup_ok s h → srv_ready s = true → quiet e →
  let q := fqdn inet_pton h (zone_name (srv_zone s)) in
  no_alias (dir_records (srv_dir s) (zone_name (srv_zone s)) q) →
  ∃ r b s' e', VmDnsSrvQueryRecords inet_pton (Some h) t s e = Some (inr (r, b), s', e') ∧ quiet e' ∧ lookup_ok s' h ∧ srv_dir s' = srv_dir s ∧
    srv_ready s' = true ∧ zone_name (srv_zone s') = zone_name (srv_zone s) ∧
    (one_spelling q (srv_zone s) → one_spelling q (srv_zone s')) ∧
    match r with
    | inr l => ppRecords l ≡ₚ dir_answer s q t ∧ dir_records (srv_dir s) (zone_name (srv_zone s)) q ≠ [] ∧ b = true
    | inl err => no_answer (srv_dir s) (zone_name (srv_zone s)) q err ∧ b = cached q (srv_zone s)
    end.
Proof.
  intros Hlook Hready He q Hna. destruct (create_run s e He) as (e1 & Hcr & He1).
  destruct (records_lookup_run s h t e1 Hlook He1) as (r & b & s' & e2 & Hr & He2 & Hc & Hd & Hy & Hz & Hroom & Hsp & Hres). fold q in Hres, Hsp.
  assert (Hagain : lookup_ok s' h) by (by eapply lookup_ok_again). rewrite Hready in Hy.
  unfold VmDnsSrvQueryRecords. unfold rbind at 1, rtry at 1, rbind at 1, when_ready, rbind at 1, rget at 1. rewrite Hready.
  unfold rret at 1. rewrite Hcr. unfold rbind at 1. rewrite Hr. cbn [fst snd]. destruct r as [err | l].
  - eexists (inl err), b, s', e2. done.
  - assert (Hl : no_alias (ppRecords l)).
    { unfold no_alias. destruct Hres as (-> & _). unfold dir_answer, no_alias in *.
      rewrite Forall_forall in Hna |- *. intros x [_ Hx]%list_elem_of_filter. by apply Hna. }
    eexists (inr l), b, s', e2. split; [| done].
    unfold rbind at 1, rtry at 1, bail at 1, rbind at 1, rret at 1. unfold rbind at 1. rewrite (follow_none t (ppRecords l)) by done.
    unfold build_list, run_on, rbind, bail, rret. cbn [VmDnsRecordListAddList ppRecords add_all]. done.
Qed.

(** C15: a query for a name without an alias (the directory has no CNAME record
    for it) that is in the cache, or for which the cache has room, returns
    exactly the records of its type that the directory has, in some order,
    whether they come from the cache or from the directory; when the name has
    records of other types only, it succeeds with none.  It fails with "not
    found" when the directory has no record of any type for the name, and with
    the error of the directory when that fails to answer; a name with records
    gets no other failure ([no_answer]).
    The cache agrees with the directory before and after, whatever the spelling
    of the name.  The server is loaded and memory is not refused. *)
Theorem query_exact s h t e : lookup_ok s h → srv_ready s = true → quiet e →
  let q := fqdn inet_pton h (zone_name (srv_zone s)) in
  no_alias (dir_records (srv_dir s) (zone_name (srv_zone s)) q) →
  ∃ r b s' e', VmDnsSrvQueryRecords inet_pton (Some h) t s e = Some (inr (r, b), s', e') ∧ coherent s' ∧ srv_dir s' = srv_dir s ∧
    match r with
    | inr l => ppRecords l ≡ₚ dir_answer s q t ∧ dir_records (srv_dir s) (zone_name (srv_zone s)) q ≠ [] ∧ b = true
    | inl err => no_answer (srv_dir s) (zone_name (srv_zone s)) q err
    end.
Proof.
  intros Hlook Hready He q Hna. destruct (query_run s h t e Hlook Hready He Hna) as (r & b & s' & e' & Hr & _ & Hc & Hd & _ & _ & _ & Hres).
  exists r, b, s', e'. split_and!; try done; [apply Hc |]. destruct r; [| done]. by destruct Hres.
Qed.

(** ** Links *)

Lemma follow_ext n n' idx rs : ∀ links s e, (∀ i r s e, idx < i → n i r s e = n' i r s e) →
  follow n idx rs links s e = follow n' idx rs links s e.
Proof.
  revert idx. induction rs as [|r rs IH]; intros idx links s e Hn; [done |]. cbn [follow]. unfold rbind at 1 3. rewrite Hn by lia.
  destruct (n' (idx + 1) r s e) as [[[[err | t] s1] e1]|]; [done | | done]. unfold rbind.
  destruct (build_list links (VmDnsRecordListAddList t) s1 e1) as [[[[err | l] s2] e2]|]; [done | | done].
  apply IH. intros. apply Hn. lia.
Qed.

Lemma linked_fuel t f : ∀ f' idx r s e, (Z.to_nat (5 - idx) < f)%nat → (Z.to_nat (5 - idx) < f')%nat →
  linked inet_pton f idx t r s e = linked inet_pton f' idx t r s e.
Proof.
  induction f as [|f IH]; intros f' idx r s e Hf Hf'; [lia |]. destruct f' as [|f']; [lia |]. cbn [linked].
  destruct (negb _); [done |]. rewrite Z.gtb_ltb. destruct (Z.ltb_spec 4 idx) as [| Hidx]; [done |]. destruct (Data r); try done.
  unfold rbind at 1 6. destruct (VmDnsRecordListCreate s e) as [[[[err | new] s1] e1]|]; [done | | done].
  unfold rbind at 1 5. destruct (VmDnsSrvGetRecords inet_pton pNameHost t s1 e1) as [[[[err | x] s2] e2]|]; [done | | done].
  unfold rbind at 1 4. destruct (bail x.1 s2 e2) as [[[[err | l] s3] e3]|]; [done | | done].
  unfold rbind at 1 3. erewrite follow_ext; [done |]. intros i r' s' e' Hi. apply IH; lia.
Qed.

(** The search behind CNAME records ends: from any index, no more levels
    than are left to the limit of 5 are entered, whatever the records say, so
    that the depth of the recursion is never what ends it; behind the limit a
    CNAME record is an error. *)
Theorem links_bounded fuel idx t r s e : (Z.to_nat (5 - idx) < fuel)%nat →
  linked inet_pton fuel idx t r s e = VmDnsGetLinkedRecords inet_pton idx t r s e ∧
  (4 < idx → dwType r = VMDNS_RR_TYPE_CNAME → VmDnsGetLinkedRecords inet_pton idx t r s e = Some (inl ERROR_NOT_SUPPORTED, s, e)).
Proof.
  intros Hf. split; [by apply linked_fuel; [| lia] |]. intros Hidx Ht. unfold VmDnsGetLinkedRecords. cbn [linked].
  rewrite Ht. cbn. rewrite Z.gtb_ltb, (proj2 (Z.ltb_lt _ _)) by lia. done.
Qed.

(** ** Updates *)

Lemma purge_step s name e : coherent_but name s → quiet e → name ≠ [] → dwCurrentCount (pLruList (srv_zone s)) < 2 ^ 32 →
  ∃ s' e', on_zone (VmDnsZonePurgeRecords name) s e =
      Some (if cached name (srv_zone s) then inr tt else inl ERROR_NOT_FOUND, s', e') ∧
    quiet e' ∧ coherent s' ∧ srv_dir s' = srv_dir s ∧ srv_ready s' = srv_ready s ∧ zone_name (srv_zone s') = zone_name (srv_zone s).
Proof.
  intros [[m Hm] Hc] He Hne Hcnt. rewrite Forall_forall in Hc.
  destruct (zone_step (srv_zone s) m (Z_PURGE name) e Hm He) as (z' & m' & e' & Hr & He' & Hz' & Hcells & Hname & _); [done |].
  cbn [run_zone_op] in Hr. unfold rbind in Hr.
  destruct (VmDnsZonePurgeRecords name (srv_zone s) e) as [[[[err | []] z1] e1]|] eqn:Eg; [| | done];
    injection Hr as Hr -> ->; cbn [cache_op] in Hr, Hcells; unfold cached; destruct (find (named name) (cells (srv_zone s))) as [n|] eqn:Ef; try done.
  - injection Hr as ->. eexists _, e'. split_and!; [by apply on_zone_run | done | | done | done | done].
    split; [by exists m' |]. cbn [srv_zone srv_dir]. rewrite Hname, Hcells. apply Forall_forall. intros n Hin. apply Hc; [done |].
    intros E. apply list_elem_of_In in Hin. pose proof (List.find_none _ _ Ef n Hin) as Hf. unfold named in Hf. by rewrite bool_decide_eq_true_2 in Hf.
  - eexists _, e'. split_and!; [by apply on_zone_run | done | | done | done | done].
    split; [by exists m' |]. cbn [srv_zone srv_dir]. rewrite Hname, Hcells. apply Forall_forall. intros x [Hx Hin]%list_elem_of_filter.
    apply Hc; [done |]. intros E. apply Hx. unfold named. by rewrite bool_decide_eq_true_2.
Qed.

(** A change of one entry of the directory. *)
Lemma dir_changed s d name : coherent s → one_spelling name (srv_zone s) →
  (∀ n, map lower n ≠ map lower name → dir_records d (zone_name (srv_zone s)) n = dir_records (srv_dir s) (zone_name (srv_zone s)) n) →
  coherent_but name (SERVER (srv_zone s) d (srv_ready s)).
Proof.
  unfold one_spelling. intros [Hm Hc] Ho Hd. split; [done |]. cbn [srv_zone srv_dir]. rewrite Forall_forall in Hc, Ho |- *. intros n Hin Hne.
  pose proof (Hc n Hin) as Hcell. unfold cell_coherent in *. rewrite Hd; [done |]. intros E. by apply Hne, Ho.
Qed.

Lemma dir_unchanged s d name : coherent s →
  (∀ n, map lower n ≠ map lower name → dir_records d (zone_name (srv_zone s)) n = dir_records (srv_dir s) (zone_name (srv_zone s)) n) →
  dir_records d (zone_name (srv_zone s)) name = dir_records (srv_dir s) (zone_name (srv_zone s)) name →
  coherent (SERVER (srv_zone s) d (srv_ready s)).
Proof.
  intros [Hm Hc] Hd Hsame. split; [done |]. cbn [srv_zone srv_dir]. rewrite Forall_forall in Hc |- *. intros n Hin.
  pose proof (Hc n Hin) as Hcell. unfold cell_coherent in *. destruct (decide (map lower (entry_pszName n) = map lower name)) as [E | E].
  - rewrite (dir_caseless d _ _ name E), Hsame. by rewrite <- (dir_caseless (srv_dir s) _ _ name E).
  - by rewrite Hd.
Qed.

Lemma delete_record_run s r name e : coherent s → srv_ready s = true → quiet e → dwType r ≠ VMDNS_RR_TYPE_SOA →
  pszName r = Some name → one_spelling name (srv_zone s) → name ≠ [] → dwCurrentCount (pLruList (srv_zone s)) < 2 ^ 32 →
  ∃ x s' e', VmDnsSrvDeleteRecord r s e = Some (x, s', e') ∧ quiet e' ∧ coherent s' ∧ srv_ready s' = true ∧ zone_name (srv_zone s') = zone_name (srv_zone s) ∧
    (∀ n, map lower n ≠ map lower name →
       dir_records (srv_dir s') (zone_name (srv_zone s)) n = dir_records (srv_dir s) (zone_name (srv_zone s)) n) ∧
    (r :: dir_records (srv_dir s') (zone_name (srv_zone s)) name ≡ₚ dir_records (srv_dir s) (zone_name (srv_zone s)) name ∧
       x = (if cached name (srv_zone s) then inr tt else inl ERROR_NOT_FOUND) ∨
     dir_records (srv_dir s') (zone_name (srv_zone s)) name = dir_records (srv_dir s) (zone_name (srv_zone s)) name ∧ ∃ err, x = inl err).
Proof.
  intros Hc Hready He Hsoa Hname Hlow Hne Hcnt. set (zone := zone_name (srv_zone s)).
  destruct (alloc_string_ok (zone ++ [0]) _ s e (cstring_block _) He) as (e1 & Hs & He1).
  destruct (dir_delete (srv_dir s) zone r name e1 Hname He1) as (x & d & e2 & Hdel & He2 & Hothers & Hx).
  unfold VmDnsSrvDeleteRecord. unfold rbind at 1, when_ready, rbind at 1, rget at 1. rewrite Hready. unfold rret at 1.
  rewrite (proj2 (Z.eqb_neq _ _) Hsoa). unfold rbind at 1, VmDnsCacheGetZoneName, rbind at 1, rget at 1. fold zone. unfold rbind at 1. rewrite Hs.
  unfold rret at 1. unfold rbind at 1, VmDnsStoreDeleteZoneRecord. rewrite (on_dir_run _ _ _ _ _ _ Hdel). rewrite Hname.
  pose proof (dir_changed s d name Hc Hlow Hothers) as Hbut. destruct x as [err | []].
  - eexists (inl err), _, e2. split; [reflexivity |]. split; [done |]. split; [by eapply dir_unchanged |]. split; [done |]. split; [done |].
    split; [done | right; split; [done | by exists err]].
  - unfold rbind at 1, rlift at 1. unfold rbind at 1, rtry at 1.
    destruct (purge_step _ name e2 Hbut He2 Hne Hcnt) as (s' & e3 & Hp & He3 & Hc' & Hd' & Hy' & Hz'). cbn [srv_zone srv_dir srv_ready] in Hp, Hd', Hy', Hz'. rewrite Hp.
    eexists _, s', e3. rewrite Hd'. split; [| split; [done |]; split; [done |]; split; [congruence |]; split; [done |]; split; [done | left; split; [done | reflexivity]]].
    by destruct (cached name (srv_zone s)).
Qed.

(** A deletion takes the record out of the directory, leaves every other
    name there alone, and leaves a cache that agrees with the directory, if the
    cache has the name in no other spelling; its result is success only when the
    name was in the cache, and "not found" when it was not although the record
    is deleted. *)
Theorem delete_record_coherent s r name e : coherent s → srv_ready s = true → quiet e → dwType r ≠ VMDNS_RR_TYPE_SOA →
  pszName r = Some name → one_spelling name (srv_zone s) → name ≠ [] → dwCurrentCount (pLruList (srv_zone s)) < 2 ^ 32 →
  ∃ x s' e', VmDnsSrvDeleteRecord r s e = Some (x, s', e') ∧ coherent s' ∧
    (∀ n, map lower n ≠ map lower name →
       dir_records (srv_dir s') (zone_name (srv_zone s)) n = dir_records (srv_dir s) (zone_name (srv_zone s)) n) ∧
    (r :: dir_records (srv_dir s') (zone_name (srv_zone s)) name ≡ₚ dir_records (srv_dir s) (zone_name (srv_zone s)) name ∧
       x = (if cached name (srv_zone s) then inr tt else inl ERROR_NOT_FOUND) ∨
     dir_records (srv_dir s') (zone_name (srv_zone s)) name = dir_records (srv_dir s) (zone_name (srv_zone s)) name ∧ ∃ err, x = inl err).
Proof.
  intros Hc Hready He Hsoa Hname Hlow Hne Hcnt.
  destruct (delete_record_run s r name e Hc Hready He Hsoa Hname Hlow Hne Hcnt) as (x & s' & e' & Hr & _ & Hc' & _ & _ & Hx). by exists x, s', e'.
Qed.

(** What the check of an update establishes. *)
Lemma permitted_spec t l rs : VmDnsIsUpdatePermitted t (Some l) = true →
  ppRecords l ≡ₚ filter (λ r, type_matches (if t =? VMDNS_RR_TYPE_CNAME then VMDNS_RR_QTYPE_ANY else t) r) rs →
  (t = VMDNS_RR_TYPE_CNAME → rs = []) ∧ no_alias rs.
Proof.
  set (T := if t =? VMDNS_RR_TYPE_CNAME then VMDNS_RR_QTYPE_ANY else t). intros Hp Hl.
  assert (Hcname : ∀ r, r ∈ rs → dwType r = VMDNS_RR_TYPE_CNAME → r ∈ ppRecords l).
  { intros r Hr Ht. rewrite Hl. apply list_elem_of_filter. split; [| done]. unfold type_matches. rewrite Ht. cbn. by rewrite orb_true_r. }
  assert (Hnone : ppRecords l = [] → no_alias rs).
  { intros E. apply Forall_forall. intros r Hr Ht. specialize (Hcname r Hr Ht). rewrite E in Hcname. by apply elem_of_nil in Hcname. }
  cbn [VmDnsIsUpdatePermitted] in Hp. destruct (Z.eqb_spec t VMDNS_RR_TYPE_CNAME) as [Et | Et].
  - rewrite orb_true_r in Hp. apply Z.eqb_eq in Hp. assert (ppRecords l = []) as E by (unfold dwCurrentSize in Hp; destruct (ppRecords l); [done | cbn in Hp; lia]).
    split; [| by apply Hnone]. intros _. destruct rs as [|r rs]; [done |]. exfalso. rewrite E in Hl.
    assert (r ∈ ([] : list dns_record)) as Hin; [| by apply elem_of_nil in Hin]. rewrite Hl. apply list_elem_of_filter. split; [| apply elem_of_cons; by left].
    unfold type_matches, T. cbn. by rewrite orb_true_r.
  - split; [done |]. rewrite orb_false_r in Hp. destruct (t =? VMDNS_RR_TYPE_SOA).
    + apply Hnone. apply Z.eqb_eq in Hp. unfold dwCurrentSize in Hp. destruct (ppRecords l); [done | cbn in Hp; lia].
    + apply Forall_forall. intros r Hr Ht. rewrite forallb_forall in Hp. specialize (Hp r (proj1 (list_elem_of_In _ _) (Hcname r Hr Ht))). by rewrite Ht in Hp.
Qed.

(** The records of the zone itself are read again after an addition. *)
Lemma apex_step s d r name e : coherent s → quiet e → coherent_but name (SERVER (srv_zone s) d (srv_ready s)) → name = zone_name (srv_zone s) → name ≠ [] →
  room_for name (srv_zone s) → zlen (dir_records (srv_dir s) (zone_name (srv_zone s)) name) < 2 ^ 31 - 1 →
  dir_records d (zone_name (srv_zone s)) name ≡ₚ r :: dir_records (srv_dir s) (zone_name (srv_zone s)) name →
  (∀ err, ¬ dir_fails d name name err) →
  ∃ s' e', (l <- VmDnsStoreGetRecords name name ;; on_zone (VmDnsZoneUpdateRecords name (Some l))) (SERVER (srv_zone s) d (srv_ready s)) e = Some (inr tt, s', e') ∧
    quiet e' ∧ coherent s' ∧ srv_dir s' = d ∧ srv_ready s' = srv_ready s ∧ zone_name (srv_zone s') = zone_name (srv_zone s).
Proof.
  intros Hc He Hbut Hname Hne Hroom Hsize Hd Hreads. rewrite <- Hname in Hsize, Hd. set (s2 := SERVER _ d _) in *.
  destruct (store_get_run s2 name name e He) as (g & e1 & Hg & He1 & Hc2). cbn [s2 srv_dir] in Hc2. unfold rbind at 1. rewrite Hg.
  destruct g as [err | l]; [destruct Hc2 as [[_ E] | E]; [rewrite E in Hd; by apply Permutation_nil_cons in Hd | by destruct (Hreads err)] |]. destruct Hc2 as [Hl _].
  assert (Hperm : ppRecords l ≡ₚ [r] ++ dir_records (srv_dir s) name name) by (by rewrite Hl).
  destruct (load_step s2 name l e1 Hbut) as (s' & e2 & Hu & He2 & Hc' & Hd' & Hy' & Hz' & _); cbn [s2 srv_zone srv_dir srv_ready] in *; try done.
  - apply (grown_fits s name l [r]); [done |]. by rewrite <- Hname.
  - by rewrite <- Hname.
  - unfold dwCurrentSize. rewrite Hperm. cbn in Hsize |- *. lia.
  - by exists s', e2.
Qed.

Lemma add_record_run s r name e : lookup_ok s name → srv_ready s = true → quiet e → pszName r = Some name → one_spelling name (srv_zone s) →
  fqdn inet_pton name (zone_name (srv_zone s)) = name → (map lower name = map lower (zone_name (srv_zone s)) → name = zone_name (srv_zone s) ∧ ∀ d err, ¬ dir_fails d name name err) →
  zlen (dir_records (srv_dir s) (zone_name (srv_zone s)) name) < 2 ^ 31 - 1 → VmDnsIsReverseZoneName (zone_name (srv_zone s)) ≠ None →
  ∃ x s' e', VmDnsSrvAddRecord inet_pton r s e = Some (x, s', e') ∧ quiet e' ∧ coherent s' ∧ srv_ready s' = srv_ready s ∧ zone_name (srv_zone s') = zone_name (srv_zone s) ∧
    (∀ n, map lower n ≠ map lower name →
       dir_records (srv_dir s') (zone_name (srv_zone s)) n = dir_records (srv_dir s) (zone_name (srv_zone s)) n) ∧
    match x with
    | inr _ => dir_records (srv_dir s') (zone_name (srv_zone s)) name ≡ₚ r :: dir_records (srv_dir s) (zone_name (srv_zone s)) name ∧
        VmDnsSrvIsRecordCompatible (zone_name (srv_zone s)) (dwType r) = Some true ∧
        (dwType r = VMDNS_RR_TYPE_CNAME → dir_records (srv_dir s) (zone_name (srv_zone s)) name = []) ∧
        no_alias (dir_records (srv_dir s) (zone_name (srv_zone s)) name)
    | inl _ => dir_records (srv_dir s') (zone_name (srv_zone s)) name = dir_records (srv_dir s) (zone_name (srv_zone s)) name
    end.
Proof.
  intros Hlook Hready He Hname Hlow Hfq Hapex Hsize Hrev. pose proof Hlook as [_ _ _ Hne _]. set (zone := zone_name (srv_zone s)) in *.
  destruct (alloc_string_ok (zone ++ [0]) _ s e (cstring_block _) He) as (e1 & Hs & He1).
  destruct (records_lookup_run s name (if dwType r =? VMDNS_RR_TYPE_CNAME then VMDNS_RR_QTYPE_ANY else dwType r) e1 Hlook He1)
    as (g & b & s1 & e2 & Hg & He2 & Hc1 & Hd1 & Hy1 & Hz1 & Hb1 & Hsp & Hres). fold zone in Hz1, Hsp, Hres. rewrite Hfq in Hres, Hsp. apply Hsp in Hlow.
  unfold VmDnsSrvAddRecord. unfold rbind at 1, when_ready, rbind at 1, rget at 1. rewrite Hready. unfold rret at 1.
  unfold rbind at 1, VmDnsCacheGetZoneName, rbind at 1, rget at 1. fold zone. unfold rbind at 1. rewrite Hs. unfold rret at 1.
  unfold rbind at 1, rlift at 1. destruct (VmDnsSrvIsRecordCompatible zone (dwType r)) as [ok|] eqn:Eok.
  2: { unfold VmDnsSrvIsRecordCompatible in Eok. by destruct (VmDnsIsReverseZoneName zone). }
  destruct ok; cbn [negb].
  2: { eexists (inl _), s, e1. split; [reflexivity |]. split; [done |]. split; [by destruct Hlook |]. done. }
  unfold rbind at 1. rewrite Hname, Hg. cbn [fst].
  assert (Hl : ∃ l, match g with
    | inr l => rret (Some l)
    | inl err => if bool_decide (err = ERROR_NOT_FOUND) then rret None else rfail err
    end s1 e2 = Some (l, s1, e2) ∧ ∀ l', l = inr l' → (VmDnsIsUpdatePermitted (dwType r) l' = true →
      (dwType r = VMDNS_RR_TYPE_CNAME → dir_records (srv_dir s) zone name = []) ∧ no_alias (dir_records (srv_dir s) zone name))).
  { destruct g as [err | l].
    - case_bool_decide as En; [| by exists (inl err)]. destruct Hres as [[[_ Hempty] | (? & _)] _]; [| done].
      exists (inr None). split; [done |]. intros _ [= <-] _. rewrite Hempty. split; [done | constructor].
    - exists (inr (Some l)). split; [done |]. intros _ [= <-] Hp. destruct Hres as (Hperm & _). by apply (permitted_spec _ l). }
  destruct Hl as (l & Hl & Hperm). unfold rbind at 1. rewrite Hl. destruct l as [err | l].
  { eexists (inl _), s1, e2. split; [reflexivity |]. rewrite Hd1. do 2 (split; [done |]). split; [congruence |]. split; [congruence |]. done. }
  specialize (Hperm l eq_refl). destruct (VmDnsIsUpdatePermitted (dwType r) l); cbn [negb].
  2: { eexists (inl _), s1, e2. split; [reflexivity |]. rewrite Hd1. do 2 (split; [done |]). split; [congruence |]. split; [congruence |]. done. }
  destruct (dir_add (srv_dir s1) zone r name e2 Hname He2) as (x & d & e3 & Hadd & He3 & Hothers & Hx).
  unfold rbind at 1, VmDnsStoreAddZoneRecord. rewrite (on_dir_run _ _ _ _ _ _ Hadd). rewrite <- Hz1 in Hothers, Hx.
  pose proof (dir_changed s1 d name Hc1 Hlow Hothers) as Hbut. rewrite Hz1, Hd1 in Hx. rewrite Hz1, Hd1 in Hothers. destruct x as [err | []].
  { eexists (inl err), _, e3. split; [reflexivity |]. split; [done |]. split; [| split; [cbn; congruence | split; [cbn; congruence | split; [done | apply Hx]]]].
    eapply dir_unchanged; [done | |]; rewrite Hz1, Hd1; [done | apply Hx]. }
  unfold rbind at 1, rlift at 1. unfold VmDnsCachePurgeRecord. unfold rbind at 1, rget at 1. cbn [srv_zone]. rewrite Hz1.
  destruct (Z.eqb_spec (VmDnsStringCompareA (Some zone) (Some name) false) 0) as [Hcmp | _].
  { cbn in Hcmp. apply string_compare_caseless in Hcmp. symmetry in Hcmp. apply Hapex in Hcmp as [Hcmp Hreads]. fold zone in Hb1. rewrite Hfq in Hb1.
    destruct (apex_step s1 d r name e3) as (s' & e4 & Hu & He4 & Hc' & Hd' & Hy' & Hz'); rewrite ?Hd1, ?Hz1; try done. rewrite Hcmp in Hu. rewrite Hu.
    eexists (inr tt), s', e4. rewrite Hd'. split; [reflexivity |]. split; [done |]. split; [done |]. split; [congruence |]. split; [congruence |].
    split; [done |]. split; [done |]. split; [done | by apply Hperm]. }
  unfold rbind, rtry.
  destruct (purge_step _ name e3 Hbut He3 Hne (proj1 Hb1)) as (s' & e4 & Hp & He4 & Hc' & Hd' & Hy' & Hz'). rewrite Hp. cbn [srv_dir] in Hd'. cbn [srv_zone srv_ready] in Hy', Hz'.
  eexists (inr tt), s', e4. rewrite Hd'. split; [| split; [done |]; split; [done |]; split; [congruence |]; split; [congruence |]; split; [done |]; split; [done |]; split; [done | by apply Hperm]].
  cbn [srv_zone]. by destruct (cached name (srv_zone s1)).
Qed.


End ServiceLaws.

(** ** A directory *)

#[local] Existing Instance compare_bytes_ok.

#[local] Instance blob_eq_dec : EqDecision dns_blob. Proof. solve_decision. Defined.
#[local] Instance soa_eq_dec : EqDecision soa_data. Proof. solve_decision. Defined.
#[local] Instance srv_eq_dec : EqDecision srv_data. Proof. solve_decision. Defined.
#[local] Instance tkey_eq_dec : EqDecision tkey_data. Proof. solve_decision. Defined.
#[local] Instance tsig_eq_dec : EqDecision tsig_data. Proof. solve_decision. Defined.
#[local] Instance rdata_eq_dec : EqDecision rdata. Proof. solve_decision. Defined.
#[local] Instance record_eq_dec : EqDecision dns_record. Proof. solve_decision. Defined.

(** A directory in memory: the records of every name in lower case. *)
Abbreviation mem_dir := (gmap (list Z) (list dns_record)).
Definition mem_records (d : mem_dir) (zone n : list Z) : list dns_record := default [] (d !! map lower n).

Fixpoint remove_one (r : dns_record) (rs : list dns_record) : option (list dns_record) :=
  match rs with
  | [] => None
  | x :: rs => if decide (x = r) then Some rs else option_map (cons x) (remove_one r rs)
  end.

Lemma remove_one_perm r rs rs' : remove_one r rs = Some rs' → r :: rs' ≡ₚ rs.
Proof.
  revert rs'. induction rs as [|x rs IH]; intros rs' E; [done |]. cbn in E. case_decide as Hx; [by simplify_eq |].
  destruct (remove_one r rs) as [l|]; [| done]. injection E as <-. rewrite <- (IH l eq_refl). apply Permutation_swap.
Qed.

Definition mem_get (zone n : list Z) : RM mem_dir record_list :=
  d <- rget ;;
  match mem_records d zone n with
  | [] => rfail LDAP_NO_SUCH_OBJECT
  | rs => rret (RECORD_LIST (zlen rs) (zlen rs) rs)
  end.
Definition mem_add (zone : list Z) (r : dns_record) : RM mem_dir unit :=
  name <- rlift (pszName r) ;;
  rset (λ d, <[map lower name := r :: mem_records d zone name]> d).
Definition mem_delete (zone : list Z) (r : dns_record) : RM mem_dir unit :=
  name <- rlift (pszName r) ;;
  d <- rget ;;
  match remove_one r (mem_records d zone name) with
  | Some rs => rset (λ d, <[map lower name := rs]> d)
  | None => rfail (BACKEND_ERROR 16)
  end.

#[local] Instance mem_directory : Directory mem_dir.
Proof.
  refine {| dir_records := mem_records; VmDnsDirGetRecords := mem_get; VmDnsDirAddZoneRecord := mem_add; VmDnsDirDeleteZoneRecord := mem_delete |}.
  - intros d zone n n' E. unfold mem_records. by rewrite E.
  - intros d zone n e He. unfold mem_get, rbind, rget. destruct (mem_records d zone n) as [|r rs] eqn:E.
    + by eexists (inl _), e.
    + eexists (inr _), e. split; [reflexivity |]. split; [done |]. split; [| split; done].
      unfold list_ok, dwCurrentSize. cbn [slots ppRecords length dwMaxSize]. lia.
  - intros d zone r name e Hn He. unfold mem_add, rbind, rlift. rewrite Hn. eexists (inr tt), _, e. split_and!; [reflexivity | done | |].
    + intros n Hne. unfold mem_records. by rewrite lookup_insert_ne.
    + unfold mem_records at 1. by rewrite lookup_insert_eq.
  - intros d zone r name e Hn He. unfold mem_delete, rbind, rlift. rewrite Hn. cbn [rget].
    destruct (remove_one r (mem_records d zone name)) as [rs|] eqn:E.
    + eexists (inr tt), _, e. split_and!; [reflexivity | done | |].
      * intros n Hne. unfold mem_records. by rewrite lookup_insert_ne.
      * unfold mem_records at 1. rewrite lookup_insert_eq. by apply remove_one_perm.
    + by eexists (inl _), d, e.
Defined.

(** No text is an address. *)
Definition no_pton (af : Z) (s : list Z) : bool := false.

(** The zone [example.arpa.]: the directory has the names [a.] and [b.], the
    cache the first. *)
Definition example_arpa : list Z := [101; 120; 97; 109; 112; 108; 101; 46; 97; 114; 112; 97; 46].
Definition a_dot : list Z := [97; 46].
Definition b_dot : list Z := [98; 46].
Definition B_dot : list Z := [66; 46].
Definition rec_a (a : Z) : dns_record := DNS_RECORD (Some a_dot) VMDNS_RR_TYPE_A VMDNS_CLASS_IN 60 (D_A a).
Definition rec_b (a : Z) : dns_record := DNS_RECORD (Some b_dot) VMDNS_RR_TYPE_A VMDNS_CLASS_IN 60 (D_A a).
Definition a_list : record_list := RECORD_LIST 10 10 [rec_a 1; rec_a 2].

Definition a_server : server mem_dir :=
  SERVER (ZONE_OBJECT example_arpa VMDNS_ZONE_ID_PRIMARY
      (HASH_TABLE 2 (RESIZE_THRESHOLD 2) 1 (Some [[]; [node_of (a_dot, 7)]]))
      (LRU_LIST [7] 1 5 0 0) {[ 7 := NAME_ENTRY 2 a_dot (Some a_list) 1 VMDNS_RR_TYPE_A ]} 8 false)
    {[ a_dot := [rec_a 1; rec_a 2]; b_dot := [rec_b 3] ]} true.

Lemma a_server_coherent : coherent a_server.
Proof.
  split.
  - exists {[ a_dot := 7 ]}. constructor; cbn [pNameEntries locked pLruList LruListHead dwCurrentCount entries next_entry a_server srv_zone]; try done.
    + constructor; [| by rewrite map_size_singleton | by vm_compute | left; by vm_compute].
      exists [[]; [node_of (a_dot, 7)]]. split_and!; [done | | by rewrite map_to_list_singleton].
      split_and!; [done | done |]. intros [|[|i]] c n Hi Hn; simplify_eq/=; [by apply elem_of_nil in Hn |].
      apply list_elem_of_singleton in Hn as ->. by vm_compute.
    + apply NoDup_singleton.
    + intros k id [<- <-]%lookup_singleton_Some. eexists. by rewrite lookup_singleton_eq.
    + intros id n [<- <-]%lookup_singleton_Some. by rewrite lookup_singleton_eq.
  - change (cells (srv_zone a_server)) with [NAME_ENTRY 2 a_dot (Some a_list) 1 VMDNS_RR_TYPE_A]. apply Forall_singleton.
    split; [by vm_compute |]. split; [by vm_compute |]. right. by vm_compute.
Qed.

Lemma a_server_spelling name : map lower a_dot ≠ map lower name ∨ a_dot = name → one_spelling name (srv_zone a_server).
Proof.
  intros Hn. unfold one_spelling. change (cells (srv_zone a_server)) with [NAME_ENTRY 2 a_dot (Some a_list) 1 VMDNS_RR_TYPE_A].
  apply Forall_singleton. cbn [entry_pszName]. by destruct Hn.
Qed.

Lemma a_server_lookup h : h ≠ [] → last h = Some DOT →
  zlen (dir_records (srv_dir a_server) example_arpa h) < 2 ^ 31 → lookup_ok no_pton a_server h.
Proof.
  intros Hh Hl Hs. assert (fqdn no_pton h example_arpa = h) as E.
  { unfold fqdn. destruct h; [done |]. cbn [VmDnsCheckIfIPV4AddressA VmDnsCheckIfIPV6AddressA no_pton orb]. by rewrite bool_decide_eq_true_2. }
  constructor; [apply a_server_coherent | done | done | done |]; change (zone_name (srv_zone a_server)) with example_arpa; by rewrite E.
Qed.

Lemma query_exact_witness :
  ∃ r b s' e', VmDnsSrvQueryRecords no_pton (Some B_dot) VMDNS_RR_TYPE_A a_server [] = Some (inr (r, b), s', e') ∧ coherent s' ∧
    srv_dir s' = srv_dir a_server ∧
    match r with
    | inr l => ppRecords l ≡ₚ dir_answer a_server B_dot VMDNS_RR_TYPE_A ∧ dir_records (srv_dir a_server) example_arpa B_dot ≠ [] ∧ b = true
    | inl err => no_answer (srv_dir a_server) example_arpa B_dot err
    end.
Proof.
  exact (query_exact no_pton a_server B_dot VMDNS_RR_TYPE_A [] (a_server_lookup B_dot ltac:(done) eq_refl ltac:(by vm_compute)) eq_refl
    (Forall_nil_2 _) ltac:(repeat constructor; by vm_compute)).
Defined.

Lemma links_bounded_witness :
  linked no_pton 7 1 VMDNS_RR_TYPE_A (rec_a 1) a_server [] = VmDnsGetLinkedRecords no_pton 1 VMDNS_RR_TYPE_A (rec_a 1) a_server [] ∧
  (4 < 1 → dwType (rec_a 1) = VMDNS_RR_TYPE_CNAME →
   VmDnsGetLinkedRecords no_pton 1 VMDNS_RR_TYPE_A (rec_a 1) a_server [] = Some (inl ERROR_NOT_SUPPORTED, a_server, [])).
Proof. apply (links_bounded no_pton 7 1 VMDNS_RR_TYPE_A (rec_a 1) a_server []). cbn. lia. Defined.

Lemma delete_record_coherent_witness :
  ∃ x s' e', VmDnsSrvDeleteRecord (rec_b 3) a_server [] = Some (x, s', e') ∧ coherent s' ∧
    (∀ n, map lower n ≠ map lower b_dot → dir_records (srv_dir s') example_arpa n = dir_records (srv_dir a_server) example_arpa n) ∧
    (rec_b 3 :: dir_records (srv_dir s') example_arpa b_dot ≡ₚ dir_records (srv_dir a_server) example_arpa b_dot ∧ x = inl ERROR_NOT_FOUND ∨
     dir_records (srv_dir s') example_arpa b_dot = dir_records (srv_dir a_server) example_arpa b_dot ∧ ∃ err, x = inl err).
Proof.
  exact (delete_record_coherent a_server (rec_b 3) b_dot [] a_server_coherent eq_refl (Forall_nil_2 _) ltac:(done) eq_refl
    (a_server_spelling b_dot ltac:(left; by vm_compute)) ltac:(done) ltac:(by vm_compute)).
Defined.


Definition result_of {A B C} (x : option (A * B * C)) : option A := match x with Some (r, _, _) => Some r | None => None end.

(** A deletion of a record whose name is not in the cache reports that it was
    not found: it is gone from the directory. *)
Example delete_uncached :
  result_of ((rtry (VmDnsSrvDeleteRecord (rec_b 3)) ;;; VmDnsSrvDeleteRecord (rec_b 3)) a_server []) = Some (inl (BACKEND_ERROR 16)) ∧
  result_of (VmDnsSrvDeleteRecord (rec_b 3) a_server []) = Some (inl ERROR_NOT_FOUND).
Proof. split; by vm_compute. Qed.

(** An update of such a record loses it. *)
Example update_uncached :
  result_of ((rtry (VmDnsSrvUpdateRecord no_pton (rec_b 3) (rec_b 4)) ;;; VmDnsSrvQueryRecords no_pton (Some b_dot) VMDNS_RR_TYPE_A) a_server []) =
  Some (inr (inl ERROR_NOT_FOUND, false)).
Proof. by vm_compute. Qed.

(** The names of the cache are told apart by case, those of the directory are
    not: an addition to [A.] leaves the old records of [a.] in the cache. *)
Example addition_in_other_case :
  result_of ((VmDnsSrvAddRecord no_pton (DNS_RECORD (Some [65; 46]) VMDNS_RR_TYPE_A VMDNS_CLASS_IN 60 (D_A 3)) ;;;
    x <- VmDnsSrvQueryRecords no_pton (Some a_dot) VMDNS_RR_TYPE_A ;; l <- bail x.1 ;; rret (ppRecords l)) a_server []) =
  Some (inr [rec_a 2; rec_a 1]).
Proof. by vm_compute. Qed.
