(* ===== verification/DnsMessage.v ===== *)
(** * DnsMessage: query and update messages of [vmdns/server/common/dnsparser.c]

    The header, questions, zone and record sections of a message, read from and
    written to a buffer, and the bytes of a response
    ([VmDnsGetQueryResponse] and [VmDnsGetUpdateResponse] of [dnsprotocol.c]).
    An array of pointers is [None] when it is NULL, and a list of what the
    pointers point to otherwise: the parser leaves no NULL entry in an array it
    returns.  An access behind the end of an array is undefined. *)

From S2P Require Import Prelude Heap Effects DnsBuffer DnsName DnsRecord.

Open Scope Z_scope.

(** ** Messages *)

Record header_codes := CODES {
  QR : Z; opcode : Z; AA : Z; TC : Z; RD : Z; RA : Z; Z_bits : Z; RCODE : Z }.

Record dns_header := DNS_HEADER {
  usId : Z; codes : header_codes; usQDCount : Z; usANCount : Z; usNSCount : Z; usARCount : Z }.

(** The other names of the counts, in an update message. *)
Abbreviation usZOCount := usQDCount.
Abbreviation usPRCount := usANCount.
Abbreviation usUPCount := usNSCount.
Abbreviation usADCount := usARCount.

Record dns_question := DNS_QUESTION { pszQName : dns_string; uQType : Z; uQClass : Z }.
Record update_zone := UPDATE_ZONE { zone_pszName : dns_string; uType : Z; uClass : Z }.

Record dns_message := DNS_MESSAGE {
  pHeader : dns_header; pQuestions : option (list dns_question);
  pAnswers : option (list dns_record); pAuthority : option (list dns_record);
  pAdditional : option (list dns_record); pRawDnsMessage : option dns_blob }.

Record update_message := UPDATE_MESSAGE {
  up_pHeader : dns_header; pZone : option update_zone;
  pPrerequisite : option (list dns_record); pUpdate : option (list dns_record);
  up_pAdditional : option (list dns_record); up_pRawDnsMessage : option dns_blob }.

(** ** Header *)

Definition VMDNS_GET_BITS (Data Start End : Z) : Z :=
  Z.shiftr (Z.land (Z.shiftl (Z.shiftl 1 (End - Start + 1) - 1) Start) Data) Start.

(** The fields are of type [unsigned char]. *)
Definition VmDnsExtractHeaderCodes (uData : Z) : header_codes :=
  CODES (u8 (VMDNS_GET_BITS uData 0x0f 0x0f)) (u8 (VMDNS_GET_BITS uData 0x0b 0x0e))
        (u8 (VMDNS_GET_BITS uData 0x0a 0x0a)) (u8 (VMDNS_GET_BITS uData 0x09 0x09))
        (u8 (VMDNS_GET_BITS uData 0x08 0x08)) (u8 (VMDNS_GET_BITS uData 0x07 0x07))
        (u8 (VMDNS_GET_BITS uData 0x04 0x06)) (u8 (VMDNS_GET_BITS uData 0x00 0x03)).

Definition VMDNS_FORM_HEADER (c : header_codes) : Z :=
  Z.lor (Z.lor (Z.lor (Z.lor (Z.lor (Z.lor (Z.lor
    (Z.shiftl (Z.land (QR c) 0x01) 0x0f)
    (Z.shiftl (Z.land (opcode c) 0x0f) 0x0b))
    (Z.shiftl (Z.land (AA c) 0x01) 0x0a))
    (Z.shiftl (Z.land (TC c) 0x01) 0x09))
    (Z.shiftl (Z.land (RD c) 0x01) 0x08))
    (Z.shiftl (Z.land (RA c) 0x01) 0x07))
    (Z.shiftl (Z.land (Z_bits c) 0x07) 0x04))
    (Z.land (RCODE c) 0x0f).

Definition VmDnsReadDnsHeaderFromBuffer : DM dns_header :=
  VmDnsAllocateMemory 18 ;;;
  id <- VmDnsReadUINT16FromBuffer ;;
  bits <- VmDnsReadUINT16FromBuffer ;;
  qd <- VmDnsReadUINT16FromBuffer ;;
  an <- VmDnsReadUINT16FromBuffer ;;
  ns <- VmDnsReadUINT16FromBuffer ;;
  ar <- VmDnsReadUINT16FromBuffer ;;
  rret (DNS_HEADER id (VmDnsExtractHeaderCodes bits) qd an ns ar).

Definition VmDnsWriteDnsHeaderToBuffer (h : dns_header) : DM unit :=
  VmDnsWriteUINT16ToBuffer (usId h) ;;;
  VmDnsWriteUINT16ToBuffer (u16 (VMDNS_FORM_HEADER (codes h))) ;;;
  VmDnsWriteUINT16ToBuffer (usQDCount h) ;;;
  VmDnsWriteUINT16ToBuffer (usANCount h) ;;;
  VmDnsWriteUINT16ToBuffer (usNSCount h) ;;;
  VmDnsWriteUINT16ToBuffer (usARCount h).

(** ** Parsing *)

(** The entries [0, ..., dwCount - 1] of an array are released. *)
Definition VmDnsFreeRecordsArray (pRecords : option (list dns_record)) (dwCount : Z) : DM unit :=
  match pRecords with
  | None => rret tt
  | Some l => if zlen l <? dwCount then rub else rret tt
  end.

Section Parser.
Variable inet_pton : Z → list Z → bool.

Definition read_question : DM dns_question :=
  VmDnsAllocateMemory 16 ;;;
  name <- VmDnsReadDomainNameFromBuffer inet_pton ;;
  type <- VmDnsReadUINT16FromBuffer ;;
  class <- VmDnsReadUINT16FromBuffer ;;
  rret (DNS_QUESTION (Some name) type class).

(** [for (; dwIndex < dwCount; ++dwIndex)] *)
Fixpoint read_each {A} (m : DM A) (count : nat) : DM (list A) :=
  match count with
  | O => rret []
  | S n => x <- m ;; l <- read_each m n ;; rret (x :: l)
  end.

(** The array of pointers is only allocated when there is an entry. *)
Definition read_array {A} (m : DM A) (dwCount : Z) : DM (option (list A)) :=
  if dwCount =? 0 then rret None
  else VmDnsAllocateMemory (8 * dwCount) ;;; l <- read_each m (Z.to_nat dwCount) ;; rret (Some l).

Definition VmDnsReadQuestionsFromBuffer (dwCount : Z) : DM (option (list dns_question)) := read_array read_question dwCount.
Definition VmDnsReadRecordsFromBuffer (dwCount : Z) : DM (option (list dns_record)) :=
  read_array (VmDnsReadRecordFromBuffer inet_pton) dwCount.

Definition VmDnsReadZoneFromBuffer : DM update_zone :=
  VmDnsAllocateMemory 16 ;;;
  name <- VmDnsReadDomainNameFromBuffer inet_pton ;;
  type <- VmDnsReadUINT16FromBuffer ;;
  class <- VmDnsReadUINT16FromBuffer ;;
  rret (UPDATE_ZONE (Some name) type class).

(** The copy of the message between [pStartOfMessage], which is behind the
    header, and the signature, when the last additional record is one. *)
Definition raw_message (start : Z) (arr : option (list dns_record)) (count : Z) : DM (option dns_blob) :=
  if count >? 0 then
    r <- rlift (arr ≫= λ l, l !! Z.to_nat (count - 1)) ;;
    if dwType r =? VMDNS_RR_MTYPE_TSIG then
      match Data r with
      | D_TSIG d =>
          ptr <- rlift (pRawTsigPtr d) ;;
          let unRawMsgSize := u16 (ptr - start) in
          blob <- VmDnsAllocateBlob unRawMsgSize ;;
          b <- rget ;;
          copy <- VmDnsCopyMemory (default [] (pData blob)) 0 unRawMsgSize (drop (Z.to_nat start) (pMessage b)) unRawMsgSize ;;
          rret (Some (BLOB (unSize blob) (option_map (λ _, copy) (pData blob))))
      | _ => rub
      end
    else rret None
  else rret None.

(** When the copy fails the additional records are released with the count of
    the authority records.  The other releases use the counts the arrays were
    made with. *)
Definition VmDnsParseQueryMessage (h : dns_header) : DM dns_message :=
  VmDnsAllocateMemory 48 ;;;
  b <- rget ;;
  let pStartOfMessage := szCursor b in
  qd <- VmDnsReadQuestionsFromBuffer (usQDCount h) ;;
  an <- VmDnsReadRecordsFromBuffer (usANCount h) ;;
  ns <- VmDnsReadRecordsFromBuffer (usNSCount h) ;;
  ar <- VmDnsReadRecordsFromBuffer (usARCount h) ;;
  raw <- rtry (raw_message pStartOfMessage ar (usARCount h)) ;;
  match raw with
  | inr raw => rret (DNS_MESSAGE h qd an ns ar raw)
  | inl err => VmDnsFreeRecordsArray ar (usNSCount h) ;;; rfail err
  end.

Definition VmDnsParseUpdateMessage (h : dns_header) : DM update_message :=
  VmDnsAllocateMemory 48 ;;;
  b <- rget ;;
  let pStartOfMessage := szCursor b in
  zone <- VmDnsReadZoneFromBuffer ;;
  pr <- VmDnsReadRecordsFromBuffer (usPRCount h) ;;
  up <- VmDnsReadRecordsFromBuffer (usUPCount h) ;;
  ad <- VmDnsReadRecordsFromBuffer (usADCount h) ;;
  raw <- rtry (raw_message pStartOfMessage ad (usADCount h)) ;;
  match raw with
  | inr raw => rret (UPDATE_MESSAGE h (Some zone) pr up ad raw)
  | inl err => VmDnsFreeRecordsArray ad (usADCount h) ;;; rfail err
  end.

End Parser.

(** ** Writing *)

Fixpoint write_each (ppRecords : list dns_record) (dwIndex count : nat) : DM unit :=
  match count with
  | O => rret tt
  | S n => r <- rlift (ppRecords !! dwIndex) ;; VmDnsWriteRecordToBuffer r ;;; write_each ppRecords (S dwIndex) n
  end.

Definition VmDnsWriteRecordsToBuffer (ppRecords : option (list dns_record)) (dwCount : Z) : DM unit :=
  match ppRecords with
  | Some l => if dwCount =? 0 then rret tt else write_each l 0 (Z.to_nat dwCount)
  | None => rret tt
  end.

Definition VmDnsWriteQuestionToBuffer (q : dns_question) : DM unit :=
  VmDnsWriteDomainNameToBuffer (pszQName q) true ;;;
  VmDnsWriteUINT16ToBuffer (uQType q) ;;;
  VmDnsWriteUINT16ToBuffer (uQClass q).

Definition VmDnsWriteZoneToBuffer (z : option update_zone) : DM unit :=
  match z with
  | None => rfail ERROR_INVALID_PARAMETER
  | Some z =>
      VmDnsWriteDomainNameToBuffer (zone_pszName z) true ;;;
      VmDnsWriteUINT16ToBuffer (uType z) ;;;
      VmDnsWriteUINT16ToBuffer (uClass z)
  end.

(** Only the first question is written. *)
Definition VmDnsWriteQueryMessageToBuffer (m : dns_message) : DM unit :=
  (if usQDCount (pHeader m) =? 0 then rret tt
   else q <- rlift (pQuestions m ≫= λ l, l !! O) ;; VmDnsWriteQuestionToBuffer q) ;;;
  VmDnsWriteRecordsToBuffer (pAnswers m) (usANCount (pHeader m)) ;;;
  VmDnsWriteRecordsToBuffer (pAuthority m) (usNSCount (pHeader m)) ;;;
  VmDnsWriteRecordsToBuffer (pAdditional m) (usARCount (pHeader m)).

Definition VmDnsWriteUpdateMessageToBuffer (m : update_message) : DM unit :=
  VmDnsWriteZoneToBuffer (pZone m) ;;;
  VmDnsWriteRecordsToBuffer (pPrerequisite m) (usPRCount (up_pHeader m)) ;;;
  VmDnsWriteRecordsToBuffer (pUpdate m) (usUPCount (up_pHeader m)) ;;;
  VmDnsWriteRecordsToBuffer (up_pAdditional m) (usADCount (up_pHeader m)).

(** ** Responses and requests *)

Definition VmDnsGetQueryResponse {St} (m : dns_message) : RM St (list Z) :=
  with_buffer (VmDnsAllocateBufferStream 0)
    (VmDnsSetBufferTokenizedFlag true ;;;
     (VmDnsWriteDnsHeaderToBuffer (pHeader m) ;;; VmDnsWriteQueryMessageToBuffer m) ;;; copy_stream).

Definition VmDnsGetUpdateResponse {St} (m : update_message) : RM St (list Z) :=
  with_buffer (VmDnsAllocateBufferStream 0)
    (VmDnsSetBufferTokenizedFlag true ;;;
     (VmDnsWriteDnsHeaderToBuffer (up_pHeader m) ;;; VmDnsWriteUpdateMessageToBuffer m) ;;; copy_stream).

Definition VmDnsGetDnsMessageBuffer {St} (pDnsRequest : list Z) : RM St dns_buffer :=
  if zlen pDnsRequest =? 0 then rfail ERROR_INVALID_PARAMETER
  else VmDnsAllocateBufferStreamWithBuffer pDnsRequest (zlen pDnsRequest) 0 false.

(** The messages [VmDnsProcessRequest] hands on. *)
Definition VM_DNS_OPCODE_QUERY : Z := 0.
Definition VM_DNS_OPCODE_UPDATE : Z := 5.

Inductive dns_request := R_QUERY (m : dns_message) | R_UPDATE (m : update_message) | R_OTHER.

Definition parse_request {St} (inet_pton : Z → list Z → bool) (pDnsRequest : list Z) : RM St dns_request :=
  with_buffer (VmDnsGetDnsMessageBuffer pDnsRequest)
    (h <- VmDnsReadDnsHeaderFromBuffer ;;
     if opcode (codes h) =? VM_DNS_OPCODE_QUERY then m <- VmDnsParseQueryMessage inet_pton h ;; rret (R_QUERY m)
     else if opcode (codes h) =? VM_DNS_OPCODE_UPDATE then m <- VmDnsParseUpdateMessage inet_pton h ;; rret (R_UPDATE m)
     else rret R_OTHER).

(** ** The header on the wire *)

Record codes_ok (c : header_codes) : Prop := {
  ok_qr : 0 <= QR c < 2; ok_opcode : 0 <= opcode c < 16; ok_aa : 0 <= AA c < 2; ok_tc : 0 <= TC c < 2;
  ok_rd : 0 <= RD c < 2; ok_ra : 0 <= RA c < 2; ok_z : 0 <= Z_bits c < 8; ok_rcode : 0 <= RCODE c < 16 }.

Record header_ok (h : dns_header) : Prop := {
  ok_id : is_u16 (usId h); ok_codes : codes_ok (codes h); ok_qd : is_u16 (usQDCount h);
  ok_an : is_u16 (usANCount h); ok_ns : is_u16 (usNSCount h); ok_ar : is_u16 (usARCount h) }.

#[export] Instance header_codes_eq_dec : EqDecision header_codes.
Proof. solve_decision. Defined.

(** All codes, to compare the two macros on each of them. *)
Definition all_codes : list header_codes :=
  q ← seqZ 0 2; o ← seqZ 0 16; a ← seqZ 0 2; t ← seqZ 0 2; d ← seqZ 0 2; r ← seqZ 0 2; z ← seqZ 0 8; c ← seqZ 0 16;
  [CODES q o a t d r z c].

Lemma in_range_bind {B} (f : Z → list B) n x (y : B) : 0 <= x < n → y ∈ f x → y ∈ seqZ 0 n ≫= f.
Proof. intros Hx Hy. apply list_elem_of_bind. exists x. split; [done |]. apply elem_of_seqZ. lia. Qed.

Lemma all_codes_spec c : codes_ok c → c ∈ all_codes.
Proof.
  destruct c as [q o a t d r z k]. intros [Hq Ho Ha Ht Hd Hr Hz Hk]. cbn in *. unfold all_codes.
  apply (in_range_bind _ 2 q), (in_range_bind _ 16 o), (in_range_bind _ 2 a), (in_range_bind _ 2 t),
    (in_range_bind _ 2 d), (in_range_bind _ 2 r), (in_range_bind _ 8 z), (in_range_bind _ 16 k); try done.
  by apply list_elem_of_singleton.
Qed.

Lemma all_codes_agree :
  forallb (λ c, bool_decide (VmDnsExtractHeaderCodes (u16 (VMDNS_FORM_HEADER c)) = c)) all_codes = true.
Proof. by vm_compute. Qed.

Lemma codes_roundtrip c : codes_ok c → VmDnsExtractHeaderCodes (u16 (VMDNS_FORM_HEADER c)) = c.
Proof.
  intros Hc%all_codes_spec. apply (bool_decide_unpack _). apply Is_true_true.
  exact (proj1 (forallb_forall _ _) all_codes_agree c (proj1 (list_elem_of_In _ _) Hc)).
Qed.

(** The codes that are extracted are in their ranges. *)
Lemma get_bits_range d s e : 0 <= s <= e → 0 <= VMDNS_GET_BITS d s e < 2 ^ (e - s + 1).
Proof.
  intros Hs. unfold VMDNS_GET_BITS. rewrite Z.shiftr_land.
  replace (Z.shiftl 1 (e - s + 1) - 1) with (Z.ones (e - s + 1)) by (unfold Z.ones; lia).
  rewrite Z.shiftr_shiftl_l, Z.sub_diag, Z.shiftl_0_r, Z.land_comm, Z.land_ones by lia. apply Z.mod_pos_bound. lia.
Qed.

Lemma extract_codes_ok u : codes_ok (VmDnsExtractHeaderCodes u).
Proof.
  assert (∀ s e, 0 <= s <= e → e - s < 8 → 0 <= u8 (VMDNS_GET_BITS u s e) < 2 ^ (e - s + 1)) as H.
  { intros s e Hs He. pose proof (get_bits_range u s e Hs) as Hr.
    assert (2 ^ (e - s + 1) <= 2 ^ 8) by (apply Z.pow_le_mono_r; lia). unfold u8. rewrite Z.mod_small; lia. }
  constructor; cbn -[VMDNS_GET_BITS]; match goal with |- 0 <= u8 (VMDNS_GET_BITS _ ?s ?e) < _ => exact (H s e ltac:(done) ltac:(done)) end.
Qed.

(** The header in the first twelve bytes of a message. *)
Definition field16 (i : nat) (msg : list Z) : Z := be (take 2 (drop i msg)).
Definition header_of (msg : list Z) : dns_header :=
  DNS_HEADER (field16 0 msg) (VmDnsExtractHeaderCodes (field16 2 msg))
    (field16 4 msg) (field16 6 msg) (field16 8 msg) (field16 10 msg).

Definition header_wire (h : dns_header) : list Z :=
  enc 2 (usId h) ++ enc 2 (u16 (VMDNS_FORM_HEADER (codes h))) ++ enc 2 (usQDCount h) ++ enc 2 (usANCount h) ++
  enc 2 (usNSCount h) ++ enc 2 (usARCount h).

Lemma header_wire_length h : zlen (header_wire h) = 12.
Proof. unfold header_wire. by rewrite !length_app, !enc_length. Qed.

Lemma emits_header tok h : emits tok (VmDnsWriteDnsHeaderToBuffer h) (header_wire h) tt.
Proof. unfold VmDnsWriteDnsHeaderToBuffer, header_wire. repeat (eapply emits_bind; [apply emits_uint16 |]). apply emits_uint16. Qed.

Lemma consumes_alloc {A} fl n (m : DM A) bs (c : Z → A) : 0 < n → consumes fl m bs c →
  consumes fl (VmDnsAllocateMemory n ;;; m) bs c.
Proof.
  intros Hn Hm b e post Hb He Ht Hd. unfold rbind. rewrite alloc_ok by done. apply (Hm b (tail e) post); try done.
  by apply quiet_tail.
Qed.

Lemma consumes_header fl h : header_ok h → consumes fl VmDnsReadDnsHeaderFromBuffer (header_wire h) (λ _, h).
Proof.
  intros []. apply consumes_alloc; [done |]. unfold header_wire.
  assert (is_u16 (u16 (VMDNS_FORM_HEADER (codes h)))) by (apply Z.mod_pos_bound; lia).
  do 5 (eapply consumes_then; [by apply consumes_uint16 |]).
  eapply consumes_map; [by apply consumes_uint16 |]. intros p. cbv beta. rewrite codes_roundtrip by done. by destruct h.
Qed.

Lemma read_uint16_run b e i : dns_wf b → szCursor b = Z.of_nat i → szCursor b + 2 <= szLength b →
  VmDnsReadUINT16FromBuffer b e = Some (inr (field16 i (contents b)), set_szCursor (Z.of_nat (i + 2)) b, e).
Proof.
  intros Hb Hi Hc. pose proof Hb as [Hblk ? ? ? ? Hby]. unfold VmDnsReadUINT16FromBuffer, rbind.
  rewrite take_bytes_ok by (done || lia). rewrite Hi, Nat2Z.id. unfold rret. repeat f_equal; [| lia].
  unfold ntohs, field16. rewrite ntoh_be.
  - unfold contents. rewrite skipn_firstn_comm, take_take. do 2 f_equal. change (Z.to_nat 2) with 2%nat. lia.
  - rewrite length_take, length_drop. lia.
  - by apply Forall_take, Forall_drop.
Qed.

(** Reading the header gives the fields of the first twelve bytes. *)
Lemma header_run b e : dns_wf b → szCursor b = 0 → 12 <= szLength b →
  VmDnsReadDnsHeaderFromBuffer b e =
    match VmDnsAllocateMemory 18 b e with
    | Some (inr _, _, e') => Some (inr (header_of (contents b)), set_szCursor 12 b, e')
    | Some (inl err, _, e') => Some (inl err, b, e')
    | None => None
    end.
Proof.
  intros Hb Hc Hl. unfold VmDnsReadDnsHeaderFromBuffer, rbind at 1.
  destruct (alloc_run 18 b e ltac:(done)) as [-> | ->]; [| done].
  assert (∀ i, (i <= 12)%nat → dns_wf (set_szCursor (Z.of_nat i) b)) as Hw by (intros; apply set_cursor_wf; [done | lia]).
  rewrite <- (set_cursor_id b) at 1. rewrite Hc. change 0 with (Z.of_nat 0).
  let step i := unfold rbind at 1; rewrite (read_uint16_run _ _ i) by first [apply (Hw i); lia | reflexivity | cbn; lia] in
  step 0%nat; step 2%nat; step 4%nat; step 6%nat; step 8%nat; step 10%nat.
  reflexivity.
Qed.

(** ** Bounds and types of what is read *)

(** An array with its count. *)
Definition array_of {A} (count : Z) (P : A → Prop) (arr : option (list A)) : Prop :=
  zlen (default [] arr) = count ∧ Forall P (default [] arr) ∧ (arr = None ↔ count = 0).

Definition question_typed (q : dns_question) : Prop := read_str (pszQName q) ∧ is_u16 (uQType q) ∧ is_u16 (uQClass q).
Definition zone_typed (z : update_zone) : Prop := read_str (zone_pszName z) ∧ is_u16 (uType z) ∧ is_u16 (uClass z).

Definition raw_typed (raw : option dns_blob) : Prop := match raw with Some x => blob_ok x | None => True end.

Definition query_typed (h : dns_header) (m : dns_message) : Prop :=
  pHeader m = h ∧ array_of (usQDCount h) question_typed (pQuestions m) ∧
  array_of (usANCount h) record_typed (pAnswers m) ∧ array_of (usNSCount h) record_typed (pAuthority m) ∧
  array_of (usARCount h) record_typed (pAdditional m) ∧ raw_typed (pRawDnsMessage m).

Definition update_typed (h : dns_header) (m : update_message) : Prop :=
  up_pHeader m = h ∧ (∃ z, pZone m = Some z ∧ zone_typed z) ∧
  array_of (usPRCount h) record_typed (pPrerequisite m) ∧ array_of (usUPCount h) record_typed (pUpdate m) ∧
  array_of (usADCount h) record_typed (up_pAdditional m) ∧ raw_typed (up_pRawDnsMessage m).

Lemma array_of_impl {A} count (P Q : A → Prop) arr : (∀ x, P x → Q x) → array_of count P arr → array_of count Q arr.
Proof. intros HPQ (Hl & HP & Hn). split_and!; try done. by eapply Forall_impl. Qed.

Section Bounds.
Variable inet_pton : Z → list Z → bool.

Lemma reads_each {A} ok `{!MessageCond ok} (m : DM A) P n : reads ok m P →
  reads ok (read_each m n) (λ l, length l = n ∧ Forall P l).
Proof.
  intros Hm. induction n as [|n IH]; cbn [read_each]; [by apply reads_ret |].
  eapply reads_bind; [done | exact Hm |]. intros x Hx. eapply reads_bind; [done | exact IH |].
  intros l [Hl HP]. apply reads_ret. split; [cbn; lia | by constructor].
Qed.

Lemma reads_array {A} ok `{!MessageCond ok} (m : DM A) P n : 0 <= n → reads ok m P →
  reads ok (read_array m n) (array_of n P).
Proof.
  intros Hn Hm. unfold read_array. destruct (Z.eqb_spec n 0) as [-> | H0]; [by apply reads_ret |].
  eapply reads_bind; [done | apply reads_alloc; lia |]. intros _ _.
  eapply reads_bind; [done | by apply reads_each |]. intros l [Hl HP]. apply reads_ret.
  split_and!; [cbn; lia | done | done].
Qed.

Lemma reads_question : reads safe_message (read_question inet_pton) question_typed.
Proof.
  unfold read_question. eapply reads_bind; [exact _ | by apply reads_alloc |]. intros _ _.
  eapply reads_bind; [exact _ | apply reads_name |]. cbv beta. intros s Hs.
  eapply reads_bind; [exact _ | apply reads_uint16; exact _ |]. cbv beta. intros t Ht.
  eapply reads_bind; [exact _ | apply reads_uint16; exact _ |]. cbv beta. intros c Hc.
  apply reads_ret. split_and!; try done. by eexists.
Qed.

Lemma reads_zone : reads safe_message (VmDnsReadZoneFromBuffer inet_pton) zone_typed.
Proof.
  unfold VmDnsReadZoneFromBuffer. eapply reads_bind; [exact _ | by apply reads_alloc |]. intros _ _.
  eapply reads_bind; [exact _ | apply reads_name |]. cbv beta. intros s Hs.
  eapply reads_bind; [exact _ | apply reads_uint16; exact _ |]. cbv beta. intros t Ht.
  eapply reads_bind; [exact _ | apply reads_uint16; exact _ |]. cbv beta. intros c Hc.
  apply reads_ret. split_and!; try done. by eexists.
Qed.

(** The copy of the message before the signature stays within the message. *)
Lemma reads_raw start len arr n : 0 <= start →
  array_of n (λ r, record_typed r ∧ raw_within start len r) arr →
  reads (message_from start len) (raw_message start arr n) raw_typed.
Proof.
  intros Hst (Hl & HP & Hn). unfold raw_message. destruct (Z.gtb_spec n 0) as [H0 | H0]; [| by apply reads_ret].
  destruct arr as [l|]; cbn in Hl, HP; [| lia]. cbn [mbind option_bind].
  destruct (lookup_lt_is_Some_2 l (Z.to_nat (n - 1)) ltac:(lia)) as [r Hr]. rewrite Hr.
  destruct (Forall_lookup_1 _ _ _ _ HP Hr) as [(_ & _ & _ & _ & Hm & _) Hraw].
  intros b e Hb Hok. unfold rbind at 1, rlift. destruct (Z.eqb_spec (dwType r) VMDNS_RR_MTYPE_TSIG) as [Ht | Ht].
  2: by apply reads_stay.
  rewrite Ht in Hm. unfold raw_within in Hraw. destruct (Data r) as [| | | | | | | | t |]; try done.
  destruct Hraw as (p & Hp & Hpr). destruct Hok as (Hs & Hc & Hlen). rewrite Hp. unfold rbind at 1, rlift.
  pose proof Hb as [Hblk ? ? ? ? Hby].
  assert (0 <= u16 (p - start) <= p - start) as Hu.
  { unfold u16. split; [apply Z.mod_pos_bound; lia | apply Z.mod_le; lia]. }
  assert (u16 (p - start) < 2 ^ 16) by (apply Z.mod_pos_bound; lia).
  set (k := u16 (p - start)) in *. unfold rbind at 1, VmDnsAllocateBlob, rbind at 1.
  destruct (alloc_run 16 b e ltac:(done)) as [-> | ->]; [| by apply reads_stay].
  destruct (Z.eqb_spec k 0) as [Hk | Hk].
  - unfold rret at 1, rbind, rget. cbn [pData from_option id]. rewrite Hk, copy_fill by (cbn; lia).
    apply reads_stay; [done |].
    split_and!; [constructor | done | done | done].
  - unfold rbind at 1. destruct (alloc_run k b (tail e) ltac:(lia)) as [-> | ->]; [| by apply reads_stay].
    unfold rret at 1, rbind, rget. cbn [pData from_option id]. rewrite copy_fill by (rewrite ?length_replicate, ?length_drop; lia).
    cbn [rret]. apply reads_stay; [done |]. cbn [raw_typed option_map unSize].
    unfold blob_ok, blob_data. cbn. rewrite length_take, length_drop.
    split_and!; [by apply Forall_take, Forall_drop | lia | lia | split; [done | intros; lia]].
Qed.

Lemma reads_try {A B} ok `{!MessageCond ok} (m : DM A) (k : dwerror + A → DM B) P Q : reads ok m P →
  (∀ a, P a → reads ok (k (inr a)) Q) → (∀ err, reads ok (k (inl err)) Q) → reads ok (rbind (rtry m) k) Q.
Proof.
  intros Hm Hk Herr. eapply (reads_bind ok (rtry m) k (λ r, match r with inr a => P a | inl _ => True end)).
  - intros b e Hb Ho. destruct (Hm b e Hb Ho) as (r & c & e' & Hr & Hc & Ha). unfold rtry. rewrite Hr.
    exists (inr r), c, e'. split_and!; done || lia.
  - intros [err | a]; auto.
Qed.

Lemma typed_array n start len arr : array_of n (λ r, record_typed r ∧ raw_within start len r) arr → array_of n record_typed arr.
Proof. apply array_of_impl. by intros r []. Qed.

Lemma reads_release {B} ok (arr : option (list dns_record)) count n P err (Q : B → Prop) :
  array_of count P arr → n <= count ∨ count = 0 → reads ok (VmDnsFreeRecordsArray arr n ;;; (rfail err : DM B)) Q.
Proof.
  intros (Hl & _ & Hn) Hc b e Hb Ho. unfold rbind, VmDnsFreeRecordsArray.
  destruct arr as [l|]; [| by apply reads_stay]. cbn in Hl. rewrite (proj2 (Z.ltb_ge _ _)); [by apply reads_stay |].
  destruct Hc as [? | Hc]; [lia |]. by apply Hn in Hc.
Qed.

(** The additional records are released with the count of the authority
    records, which has to be within the array. *)
Lemma reads_query h : header_ok h → usNSCount h <= usARCount h ∨ usARCount h = 0 →
  reads safe_message (VmDnsParseQueryMessage inet_pton h) (query_typed h).
Proof.
  intros [] Hns. unfold is_u16 in *. unfold VmDnsParseQueryMessage, VmDnsReadQuestionsFromBuffer, VmDnsReadRecordsFromBuffer.
  eapply reads_bind; [exact _ | by apply reads_alloc |]. intros _ _. intros b e Hb Hs. unfold rbind at 1, rget. cbv zeta.
  set (start := szCursor b). set (len := szLength b). pose proof (wf_cursor b Hb) as Hc.
  match goal with |- context [?m b e] => assert (reads (message_from start len) m (query_typed h)) as Hm end.
  2: { apply Hm; [done |]. split_and!; [done | unfold start; lia | done]. }
  eapply reads_bind; [exact _ | apply reads_array; [exact _ | lia | eapply reads_under; [| apply reads_question]; by intros ? []] |].
  intros qd Hqd. do 3 (eapply reads_bind; [exact _ | apply reads_array; [exact _ | lia | apply reads_record] |]; intros ? ?).
  eapply reads_try; [exact _ | apply reads_raw; [unfold start; lia | done] | |].
  - intros raw Hraw. apply reads_ret. split_and!; eauto using typed_array.
  - intros err. by eapply reads_release.
Qed.

Lemma reads_update h : header_ok h → reads safe_message (VmDnsParseUpdateMessage inet_pton h) (update_typed h).
Proof.
  intros []. unfold is_u16 in *. unfold VmDnsParseUpdateMessage, VmDnsReadRecordsFromBuffer.
  eapply reads_bind; [exact _ | by apply reads_alloc |]. intros _ _. intros b e Hb Hs. unfold rbind at 1, rget. cbv zeta.
  set (start := szCursor b). set (len := szLength b). pose proof (wf_cursor b Hb) as Hc.
  match goal with |- context [?m b e] => assert (reads (message_from start len) m (update_typed h)) as Hm end.
  2: { apply Hm; [done |]. split_and!; [done | unfold start; lia | done]. }
  eapply reads_bind; [exact _ | eapply reads_under; [| apply reads_zone]; by intros ? [] |].
  intros zone Hz. do 3 (eapply reads_bind; [exact _ | apply reads_array; [exact _ | lia | apply reads_record] |]; intros ? ?).
  eapply reads_try; [exact _ | apply reads_raw; [unfold start; lia | done] | |].
  - intros raw Hraw. apply reads_ret. split_and!; eauto using typed_array.
  - intros err. eapply reads_release; [done | left; lia].
Qed.

Lemma header_of_ok msg : bytes msg → 12 <= zlen msg → header_ok (header_of msg).
Proof.
  intros Hb Hl. assert (∀ i, (i <= 10)%nat → is_u16 (field16 i msg)) as Hf.
  { intros i Hi. unfold field16. pose proof (be_range (take 2 (drop i msg)) (Forall_take _ _ _ (Forall_drop _ _ _ Hb))) as Hr.
    rewrite length_take, length_drop, Nat.min_l in Hr by lia. exact Hr. }
  constructor; try (apply Hf; lia). apply extract_codes_ok.
Qed.

(** What a request gives. *)
Definition request_typed (msg : list Z) (r : dns_request) : Prop :=
  match r with
  | R_QUERY m => opcode (codes (header_of msg)) = VM_DNS_OPCODE_QUERY ∧ query_typed (header_of msg) m
  | R_UPDATE m => opcode (codes (header_of msg)) = VM_DNS_OPCODE_UPDATE ∧ update_typed (header_of msg) m
  | R_OTHER => True
  end.

Lemma read_uint16_short b e : dns_wf b → szLength b < szCursor b + 2 →
  VmDnsReadUINT16FromBuffer b e = Some (inl ERROR_INSUFFICIENT_BUFFER, b, e).
Proof.
  intros Hb Hl. unfold VmDnsReadUINT16FromBuffer, take_bytes, rbind. by rewrite check_short by (done || lia).
Qed.

Lemma short_header b e : dns_wf b → szLength b < 12 →
  ∃ err b' e', VmDnsReadDnsHeaderFromBuffer (set_szCursor (Z.of_nat 0) b) e = Some (inl err, b', e').
Proof.
  intros Hb Hl. pose proof (wf_length b Hb). unfold VmDnsReadDnsHeaderFromBuffer, rbind at 1.
  destruct (alloc_run 18 (set_szCursor (Z.of_nat 0) b) e ltac:(done)) as [-> | ->]; [| by do 3 eexists].
  assert (∀ i, Z.of_nat i <= szLength b → dns_wf (set_szCursor (Z.of_nat i) b)) as Hw by (intros; apply set_cursor_wf; [done | lia]).
  let step i := unfold rbind at 1; (destruct (decide (Z.of_nat (i + 2) <= szLength b));
    [rewrite (read_uint16_run _ _ i) by first [apply (Hw i); cbn in *; lia | reflexivity | cbn in *; lia]
    | rewrite read_uint16_short by first [apply (Hw i); cbn in *; lia | cbn in *; lia]; by do 3 eexists]) in
  step 0%nat; step 2%nat; step 4%nat; step 6%nat; step 8%nat; step 10%nat.
  cbn in *. lia.
Qed.

(** C20: whatever bytes arrive and whatever the allocator does, parsing a
    request returns and never reads outside the message, provided its name
    pointers are safe ([pointers_ok]) and a query does not announce more
    authority than additional records; a message that is returned has the
    header of the first twelve bytes, arrays of exactly the announced sizes,
    fields in their ranges and names of at most 256 characters. *)
Theorem request_bounds {St} msg (s : St) e :
  bytes msg → zlen msg <= 2 ^ 32 → pointers_ok msg = true →
  (opcode (codes (header_of msg)) = VM_DNS_OPCODE_QUERY →
     usNSCount (header_of msg) <= usARCount (header_of msg) ∨ usARCount (header_of msg) = 0) →
  ∃ r e', parse_request inet_pton msg s e = Some (r, s, e') ∧
    match r with inr x => request_typed msg x | inl _ => True end.
Proof.
  intros Hb Hl Hp Hns. unfold parse_request, with_buffer, VmDnsGetDnsMessageBuffer.
  destruct (Z.eqb_spec (zlen msg) 0) as [H0 | H0]; [by eexists (inl _), _ |].
  destruct (in_buffer_made msg s e ltac:(lia)) as (e1 & [[-> _] | [-> _]]); [| by eexists (inl _), _].
  pose proof (in_buffer_wf false msg Hb Hl) as Hwf.
  assert (safe_message (in_buffer false msg)) as Hsafe by (unfold safe_message; by rewrite in_buffer_contents).
  unfold rbind at 1. destruct (decide (12 <= zlen msg)) as [H12 | H12].
  2: { destruct (short_header (in_buffer false msg) e1 Hwf) as (err & b' & e' & Hr); [cbn; lia |].
       rewrite (Hr : _ (in_buffer false msg) e1 = _). by eexists (inl _), _. }
  rewrite header_run by done. destruct (alloc_run 18 (in_buffer false msg) e1 ltac:(done)) as [-> | ->]; [| by eexists (inl _), _].
  rewrite in_buffer_contents. pose proof (header_of_ok msg Hb H12) as Hh. set (b := set_szCursor 12 (in_buffer false msg)).
  assert (dns_wf b) as Hwb by (apply set_cursor_wf; [done | cbn; lia]).
  destruct (Z.eqb_spec (opcode (codes (header_of msg))) VM_DNS_OPCODE_QUERY) as [Hq | Hq];
    [| destruct (Z.eqb_spec (opcode (codes (header_of msg))) VM_DNS_OPCODE_UPDATE) as [Hu | Hu]]; unfold rbind.
  - destruct (reads_query _ Hh (Hns Hq) b (tail e1) Hwb Hsafe) as (r & c & e2 & -> & _ & Hr).
    destruct r; [by eexists (inl _), _ | by eexists (inr _), _].
  - destruct (reads_update _ Hh b (tail e1) Hwb Hsafe) as (r & c & e2 & -> & _ & Hr).
    destruct r; [by eexists (inl _), _ | by eexists (inr _), _].
  - by eexists (inr _), _.
Qed.

End Bounds.

(** ** Messages on the wire *)

Definition question_wire (q : dns_question) : list Z := name_wire true (str (pszQName q)) ++ enc 2 (uQType q) ++ enc 2 (uQClass q).
Definition question_norm (q : dns_question) : dns_question := DNS_QUESTION (norm true (pszQName q)) (uQType q) (uQClass q).
Definition question_ok (q : dns_question) : Prop := some_name true (pszQName q) ∧ is_u16 (uQType q) ∧ is_u16 (uQClass q).

Definition zone_wire (z : update_zone) : list Z := name_wire true (str (zone_pszName z)) ++ enc 2 (uType z) ++ enc 2 (uClass z).
Definition zone_norm (z : update_zone) : update_zone := UPDATE_ZONE (norm true (zone_pszName z)) (uType z) (uClass z).
Definition zone_ok (z : update_zone) : Prop := some_name true (zone_pszName z) ∧ is_u16 (uType z) ∧ is_u16 (uClass z).

Definition array_wire {A} (wire : A → list Z) (arr : option (list A)) : list Z := concat (map wire (default [] arr)).
Abbreviation questions_wire := (array_wire question_wire).
Abbreviation records_wire := (array_wire (record_wire true)).

(** The records as they are read at offset [off]. *)
Fixpoint records_from (off : Z) (l : list dns_record) : list dns_record :=
  match l with
  | [] => []
  | r :: l => record_norm true off r :: records_from (off + zlen (record_wire true r)) l
  end.
Definition records_norm (off : Z) (arr : option (list dns_record)) : option (list dns_record) :=
  option_map (records_from off) arr.

(** The copy of what is before a signature at the end. *)
Definition blob_of (bs : list Z) : dns_blob := BLOB (zlen bs) (match bs with [] => None | _ => Some bs end).
Definition raw_of (body : list Z) (ar : option (list dns_record)) : option dns_blob :=
  match last (default [] ar) with
  | Some r => if dwType r =? VMDNS_RR_MTYPE_TSIG
              then Some (blob_of (take (length body - length (record_wire true r)) body)) else None
  | None => None
  end.

Definition query_body (m : dns_message) : list Z :=
  questions_wire (pQuestions m) ++ records_wire (pAnswers m) ++ records_wire (pAuthority m) ++ records_wire (pAdditional m).
Definition query_wire (m : dns_message) : list Z := header_wire (pHeader m) ++ query_body m.

Definition query_norm (m : dns_message) : dns_message :=
  let an := 12 + zlen (questions_wire (pQuestions m)) in
  let ns := an + zlen (records_wire (pAnswers m)) in
  let ar := ns + zlen (records_wire (pAuthority m)) in
  DNS_MESSAGE (pHeader m) (option_map (map question_norm) (pQuestions m))
    (records_norm an (pAnswers m)) (records_norm ns (pAuthority m)) (records_norm ar (pAdditional m))
    (raw_of (query_body m) (pAdditional m)).

(** A message with one question at most: more are not written. *)
Record query_ok (m : dns_message) : Prop := {
  query_header : header_ok (pHeader m);
  query_one : usQDCount (pHeader m) <= 1;
  query_qd : array_of (usQDCount (pHeader m)) question_ok (pQuestions m);
  query_an : array_of (usANCount (pHeader m)) (record_ok true) (pAnswers m);
  query_ns : array_of (usNSCount (pHeader m)) (record_ok true) (pAuthority m);
  query_ar : array_of (usARCount (pHeader m)) (record_ok true) (pAdditional m)
}.

Definition update_body (m : update_message) : list Z :=
  match pZone m with Some z => zone_wire z | None => [] end ++
  records_wire (pPrerequisite m) ++ records_wire (pUpdate m) ++ records_wire (up_pAdditional m).
Definition update_wire (m : update_message) : list Z := header_wire (up_pHeader m) ++ update_body m.

Definition update_norm (m : update_message) : update_message :=
  let pr := 12 + zlen (match pZone m with Some z => zone_wire z | None => [] end) in
  let up := pr + zlen (records_wire (pPrerequisite m)) in
  let ad := up + zlen (records_wire (pUpdate m)) in
  UPDATE_MESSAGE (up_pHeader m) (option_map zone_norm (pZone m))
    (records_norm pr (pPrerequisite m)) (records_norm up (pUpdate m)) (records_norm ad (up_pAdditional m))
    (raw_of (update_body m) (up_pAdditional m)).

Record update_ok (m : update_message) : Prop := {
  update_header : header_ok (up_pHeader m);
  update_zone_ok : ∃ z, pZone m = Some z ∧ zone_ok z;
  update_pr : array_of (usPRCount (up_pHeader m)) (record_ok true) (pPrerequisite m);
  update_up : array_of (usUPCount (up_pHeader m)) (record_ok true) (pUpdate m);
  update_ad : array_of (usADCount (up_pHeader m)) (record_ok true) (up_pAdditional m)
}.

(** ** Writing messages *)

Lemma emits_each l i n : (i + n = length l)%nat → Forall (record_ok true) l →
  emits true (write_each l i n) (concat (map (record_wire true) (drop i l))) tt.
Proof.
  revert i. induction n as [|n IH]; intros i Hi Hl; cbn [write_each].
  { rewrite drop_ge by lia. apply emits_ret. }
  destruct (lookup_lt_is_Some_2 l i ltac:(lia)) as [r Hr]. rewrite (drop_S l r i) by done. cbn [map concat].
  intros b e Hb Hw Ht. unfold rbind at 1, rlift. rewrite Hr.
  apply (emits_bind true _ _ _ _ tt tt (emits_record true r (Forall_lookup_1 _ _ _ _ Hl Hr)) (IH (S i) ltac:(lia) Hl)); done.
Qed.

Lemma emits_records arr n : array_of n (record_ok true) arr → emits true (VmDnsWriteRecordsToBuffer arr n) (records_wire arr) tt.
Proof.
  intros (Hl & HP & Hn). unfold VmDnsWriteRecordsToBuffer, array_wire. destruct arr as [l|]; cbn in *; [| apply emits_ret].
  destruct (Z.eqb_spec n 0) as [-> | H0]; [by apply Hn in H0 || (destruct l; [apply emits_ret | done]) |].
  apply (emits_each l 0); [lia | done].
Qed.

Lemma emits_question q : question_ok q → emits true (VmDnsWriteQuestionToBuffer q) (question_wire q) tt.
Proof.
  intros (Hn & Ht & Hc). unfold VmDnsWriteQuestionToBuffer, question_wire. destruct (pszQName q) as [s|]; [| done].
  eapply emits_bind; [by apply emits_name |]. eapply emits_bind; [apply emits_uint16 |]. apply emits_uint16.
Qed.

Lemma emits_zone z : zone_ok z → emits true (VmDnsWriteZoneToBuffer (Some z)) (zone_wire z) tt.
Proof.
  intros (Hn & Ht & Hc). unfold VmDnsWriteZoneToBuffer, zone_wire. destruct (zone_pszName z) as [s|]; [| done].
  eapply emits_bind; [by apply emits_name |]. eapply emits_bind; [apply emits_uint16 |]. apply emits_uint16.
Qed.

Lemma emits_questions h qd : usQDCount h <= 1 → array_of (usQDCount h) question_ok qd →
  emits true (if usQDCount h =? 0 then rret tt else q <- rlift (qd ≫= λ l, l !! O) ;; VmDnsWriteQuestionToBuffer q)
    (questions_wire qd) tt.
Proof.
  intros H1 (Hl & HP & Hn). unfold array_wire. destruct (Z.eqb_spec (usQDCount h) 0) as [H0 | H0].
  - rewrite (proj2 Hn H0). apply emits_ret.
  - destruct qd as [[|q [|q' l]]|]; cbn in *; try lia. rewrite app_nil_r. inversion HP; subst.
    intros b e Hb Hw Ht. unfold rbind at 1, rlift. by apply emits_question.
Qed.

Lemma emits_query m : query_ok m →
  emits true (VmDnsWriteDnsHeaderToBuffer (pHeader m) ;;; VmDnsWriteQueryMessageToBuffer m) (query_wire m) tt.
Proof.
  intros []. unfold query_wire, query_body, VmDnsWriteQueryMessageToBuffer.
  eapply emits_bind; [apply emits_header |]. eapply emits_bind; [by apply emits_questions |].
  do 2 (eapply emits_bind; [by apply emits_records |]). by apply emits_records.
Qed.

Lemma emits_update m : update_ok m →
  emits true (VmDnsWriteDnsHeaderToBuffer (up_pHeader m) ;;; VmDnsWriteUpdateMessageToBuffer m) (update_wire m) tt.
Proof.
  intros [Hh (z & Hz & Hok) Hpr Hup Had]. unfold update_wire, update_body, VmDnsWriteUpdateMessageToBuffer. rewrite Hz.
  eapply emits_bind; [apply emits_header |]. eapply emits_bind; [by apply emits_zone |].
  do 2 (eapply emits_bind; [by apply emits_records |]). by apply emits_records.
Qed.

(** ** Reading messages *)

(** [consumes] at a known offset. *)
Definition consumes_at {A} (off : Z) (fl : bool) (m : DM A) (bs : list Z) (a : A) : Prop :=
  ∀ b e post, dns_wf b → quiet e → bTokenizeDomainName b = fl → szCursor b = off →
  drop (Z.to_nat off) (contents b) = bs ++ post →
  ∃ e', m b e = Some (inr a, set_szCursor (off + zlen bs) b, e') ∧ quiet e'.

Lemma consumes_here {A} off fl (m : DM A) bs a : consumes fl m bs a → consumes_at off fl m bs (a off).
Proof. intros Hm b e post Hb He Ht <- Hd. exact (Hm b e post Hb He Ht Hd). Qed.

Lemma consumes_at_bind {A B} off fl (m : DM A) (k : A → DM B) bs bs' a c :
  consumes_at off fl m bs a → consumes_at (off + zlen bs) fl (k a) bs' c → consumes_at off fl (rbind m k) (bs ++ bs') c.
Proof.
  intros Hm Hk b e post Hb He Ht Hc Hd. rewrite <- app_assoc in Hd.
  destruct (Hm b e (bs' ++ post) Hb He Ht Hc Hd) as (e1 & Hr & He1).
  pose proof (wf_cursor b Hb). rewrite <- Hc in Hd. pose proof (rest_cursor _ _ _ Hb Hd) as Hlen. rewrite Hc in Hd.
  destruct (Hk (set_szCursor (off + zlen bs) b) e1 post) as (e2 & Hr2 & He2); try done.
  - apply set_cursor_wf; [done | lia].
  - change (contents (set_szCursor _ b)) with (contents b).
    rewrite Z2Nat.inj_add, Nat2Z.id, <- drop_drop, Hd by lia. apply drop_app_length.
  - exists e2. unfold rbind. rewrite Hr, Hr2. split; [| done]. do 3 f_equal. rewrite length_app.
    unfold set_szCursor. f_equal. cbn. lia.
Qed.

Section Reader.
Variable inet_pton : Z → list Z → bool.
Variable fl : bool.

Lemma consumes_at_nil {A} off (a : A) : consumes_at off fl (rret a) [] a.
Proof. apply (consumes_here off fl (rret a) [] (λ _, a)), consumes_ret. Qed.

Lemma consumes_at_map {A B} off (m : DM A) (f : A → B) bs a :
  consumes_at off fl m bs a → consumes_at off fl (x <- m ;; rret (f x)) bs (f a).
Proof. intros Hm. rewrite <- (app_nil_r bs). eapply consumes_at_bind; [exact Hm | apply consumes_at_nil]. Qed.

Lemma consumes_at_alloc {A} off n (m : DM A) bs a : 0 < n → consumes_at off fl m bs a →
  consumes_at off fl (VmDnsAllocateMemory n ;;; m) bs a.
Proof.
  intros Hn Hm b e post Hb He Ht Hc Hd. unfold rbind. rewrite alloc_ok by done. apply (Hm b (tail e) post); try done.
  by apply quiet_tail.
Qed.

Lemma consumes_question q : question_ok q →
  consumes fl (read_question inet_pton) (question_wire q) (λ _, question_norm q).
Proof.
  intros (Hn & Ht & Hc). apply consumes_alloc; [done |]. unfold question_wire, question_norm.
  destruct (pszQName q) as [s|]; [| done]. cbn [str norm option_map default from_option].
  eapply consumes_then; [by apply consumes_name |]. eapply consumes_then; [by apply consumes_uint16 |].
  eapply consumes_map; [by apply consumes_uint16 |]. done.
Qed.

Lemma consumes_zone z : zone_ok z → consumes fl (VmDnsReadZoneFromBuffer inet_pton) (zone_wire z) (λ _, zone_norm z).
Proof.
  intros (Hn & Ht & Hc). apply consumes_alloc; [done |]. unfold zone_wire, zone_norm.
  destruct (zone_pszName z) as [s|]; [| done]. cbn [str norm option_map default from_option].
  eapply consumes_then; [by apply consumes_name |]. eapply consumes_then; [by apply consumes_uint16 |].
  eapply consumes_map; [by apply consumes_uint16 |]. done.
Qed.

Lemma consumes_array {A} (m : DM A) (wire : A → list Z) (P : A → Prop) (nrm : Z → list A → list A) off n arr :
  (∀ off l, Forall P l → consumes_at off fl (read_each m (length l)) (concat (map wire l)) (nrm off l)) →
  array_of n P arr → consumes_at off fl (read_array m n) (array_wire wire arr) (option_map (nrm off) arr).
Proof.
  intros Hm (Hl & HP & Hn). unfold read_array, array_wire. destruct (Z.eqb_spec n 0) as [H0 | H0].
  - rewrite (proj2 Hn H0). apply consumes_at_nil.
  - destruct arr as [l|]; cbn in *; [| lia]. apply consumes_at_alloc; [lia |]. apply consumes_at_map.
    rewrite <- Hl, Nat2Z.id. by apply Hm.
Qed.

Lemma consumes_questions off n qd : array_of n question_ok qd →
  consumes_at off fl (VmDnsReadQuestionsFromBuffer inet_pton n) (questions_wire qd) (option_map (map question_norm) qd).
Proof.
  apply (consumes_array _ _ _ (λ _, map question_norm)). clear. intros off l Hl. revert off.
  induction Hl as [|q l Hq Hl IH]; intros off; cbn [length read_each map concat]; [apply consumes_at_nil |].
  eapply consumes_at_bind; [by apply (consumes_here off fl _ _ (λ _, question_norm q)), consumes_question |].
  apply consumes_at_map, IH.
Qed.

Lemma consumes_records off n arr : array_of n (record_ok true) arr →
  consumes_at off fl (VmDnsReadRecordsFromBuffer inet_pton n) (records_wire arr) (records_norm off arr).
Proof.
  apply (consumes_array _ _ _ records_from). clear. intros off l Hl. revert off.
  induction Hl as [|r l Hr Hl IH]; intros off; cbn [length read_each map concat records_from]; [apply consumes_at_nil |].
  eapply consumes_at_bind; [by apply (consumes_here off fl _ _ (λ o, record_norm true o r)), consumes_record |].
  apply consumes_at_map, IH.
Qed.

Lemma records_from_snoc off l r :
  records_from off (l ++ [r]) = records_from off l ++ [record_norm true (off + zlen (concat (map (record_wire true) l))) r].
Proof.
  revert off. induction l as [|x l IH]; intros off; cbn [records_from app map concat length]; [by rewrite Z.add_0_r |].
  by rewrite IH, length_app, Nat2Z.inj_add, Z.add_assoc.
Qed.

Lemma records_from_length off l : length (records_from off l) = length l.
Proof. revert off. induction l; intros; cbn; auto. Qed.

(** The signature at the end is found, and what is before it is copied. *)
Lemma raw_run b e off n arr body : dns_wf b → quiet e → drop 12 (contents b) = body → zlen body < 2 ^ 16 →
  array_of n (record_ok true) arr → off + zlen (records_wire arr) = 12 + zlen body → 12 <= off →
  ∃ e', raw_message 12 (records_norm off arr) n b e = Some (inr (raw_of body arr), b, e') ∧ quiet e'.
Proof.
  intros Hb He Hbody Hlim (Hl & HP & Hn) Hoff Hge. unfold raw_message, raw_of.
  destruct arr as [l|]; cbn in Hl, HP; [| subst n; by exists e]. cbn [records_norm option_map mbind option_bind default from_option id].
  destruct (Z.gtb_spec n 0) as [H0 | H0].
  2: { destruct l; [by exists e | cbn in *; lia]. }
  destruct (exists_last (l := l)) as (l' & r & ->); [intros ->; cbn in *; lia |]. rewrite last_snoc, records_from_snoc.
  rewrite length_app in Hl. cbn in Hl. rewrite lookup_app_r, records_from_length by (rewrite records_from_length; lia).
  replace (Z.to_nat (n - 1) - length l')%nat with O by lia. cbn [lookup list_lookup].
  unfold array_wire in Hoff. cbn [default from_option id] in Hoff.
  rewrite map_app, concat_app, length_app in Hoff. cbn [map concat] in Hoff. rewrite app_nil_r in Hoff.
  apply Forall_app in HP as [_ (_ & _ & _ & _ & Hm & _)%Forall_singleton].
  set (p := off + zlen (concat (map (record_wire true) l'))). unfold rbind at 1, rlift. cbn [record_norm dwType Data].
  destruct (Z.eqb_spec (dwType r) VMDNS_RR_MTYPE_TSIG) as [Ht | Ht]; [| by exists e].
  rewrite Ht in Hm. destruct (Data r) as [| | | | | | | | t |] eqn:Ed; try done. cbn [data_norm pRawTsigPtr]. fold p. unfold rbind at 1.
  pose proof Hb as [Hblk ? ? ? ? Hby]. pose proof (f_equal length Hbody) as Hbl. rewrite length_drop in Hbl.
  pose proof (contents_length b Hb). rewrite Nat2Z.inj_add in Hoff. pose proof (record_wire_pos true r).
  assert (p - 12 = zlen body - zlen (record_wire true r)) as Hp by (unfold p; lia). assert (12 <= p) by (unfold p; lia).
  replace (length body - length (record_wire true r))%nat with (Z.to_nat (p - 12)) by lia.
  unfold u16. rewrite Z.mod_small by lia. set (k := p - 12) in *.
  assert (take (Z.to_nat k) (drop (Z.to_nat 12) (pMessage b)) = take (Z.to_nat k) body) as Hcopy.
  { rewrite <- Hbody. unfold contents. change (Z.to_nat 12) with 12%nat. rewrite skipn_firstn_comm, take_take. f_equal. lia. }
  unfold rbind at 1, VmDnsAllocateBlob, rbind at 1. rewrite alloc_ok by done.
  destruct (Z.eqb_spec k 0) as [Hk | Hk].
  - unfold rret at 1, rbind, rget. cbn [pData from_option id]. rewrite Hk, copy_fill by (cbn; lia).
    exists (tail e). split; [done | by apply quiet_tail].
  - unfold rbind at 1. rewrite alloc_ok by (lia || by apply quiet_tail). unfold rret at 1, rbind, rget. cbn [pData from_option id].
    rewrite copy_fill by (rewrite ?length_replicate, ?length_drop; lia). exists (tail (tail e)).
    split; [| by do 2 apply quiet_tail]. rewrite Hcopy. cbn [option_map unSize rret]. unfold blob_of, rret.
    assert (length (take (Z.to_nat k) body) = Z.to_nat k) as Htl by (rewrite length_take; lia).
    destruct (take (Z.to_nat k) body) as [|x xs]; [cbn in Htl; lia |]. by replace (zlen (x :: xs)) with k by lia.
Qed.

Lemma consumes_step {A B} off (m : DM A) (k : A → DM B) bs a b e post :
  consumes_at off fl m bs a → dns_wf b → quiet e → bTokenizeDomainName b = fl → 0 <= off <= szLength b →
  drop (Z.to_nat off) (contents b) = bs ++ post →
  ∃ e', rbind m k (set_szCursor off b) e = k a (set_szCursor (off + zlen bs) b) e' ∧ quiet e' ∧
    off + zlen bs <= szLength b ∧ drop (Z.to_nat (off + zlen bs)) (contents b) = post.
Proof.
  intros Hm Hb He Ht Ho Hd. assert (dns_wf (set_szCursor off b)) as Hw by (by apply set_cursor_wf).
  destruct (Hm (set_szCursor off b) e post) as (e' & Hr & He'); try done.
  exists e'. unfold rbind. rewrite Hr. split_and!; [done | done | |].
  - exact (rest_cursor (set_szCursor off b) bs post Hw Hd).
  - rewrite Z2Nat.inj_add, Nat2Z.id, <- drop_drop, Hd by lia. apply drop_app_length.
Qed.

(** The next section, whose reader is described by [H]. *)
Ltac section_step H Hd Hd' :=
  match goal with
  | Hb : dns_wf ?b, Ht : bTokenizeDomainName ?b = _ |- ∃ _ _, rbind ?m ?k (set_szCursor ?off ?b) ?e = _ ∧ _ =>
      let e' := fresh "e" in let E := fresh in let He := fresh "He" in let Hc := fresh "Hc" in
      destruct (consumes_step off m k _ _ b e _ H Hb ltac:(assumption) Ht ltac:(lia) Hd) as (e' & E & He & Hc & Hd');
      rewrite E; clear E
  end.

(** The parser reads back what the writer wrote, and makes the copy for the
    signature. *)
Lemma parse_query_run b e m : query_ok m → dns_wf b → quiet e → bTokenizeDomainName b = fl → 12 <= szLength b →
  drop 12 (contents b) = query_body m → zlen (query_body m) < 2 ^ 16 →
  ∃ b' e', VmDnsParseQueryMessage inet_pton (pHeader m) (set_szCursor 12 b) e = Some (inr (query_norm m), b', e') ∧ quiet e'.
Proof.
  intros [Hh _ Hqd Han Hns Har] Hb He Ht Hc Hd Hl. unfold VmDnsParseQueryMessage, rbind at 1. rewrite alloc_ok by done.
  unfold rbind at 1, rget. cbv zeta. cbn [szCursor set_szCursor]. pose proof (quiet_tail e He) as He0.
  pose proof (f_equal length Hd) as Hdl. rewrite length_drop in Hdl. pose proof (contents_length b Hb).
  pose proof Hd as Hdr. change 12%nat with (Z.to_nat 12) in Hdr. unfold query_body in Hdr.
  section_step (consumes_questions 12 _ _ Hqd) Hdr Hd1. section_step (consumes_records (12 + zlen (questions_wire (pQuestions m))) _ _ Han) Hd1 Hd2.
  section_step (consumes_records (12 + zlen (questions_wire (pQuestions m)) + zlen (records_wire (pAnswers m))) _ _ Hns) Hd2 Hd3.
  rewrite <- (app_nil_r (records_wire (pAdditional m))) in Hd3.
  section_step (consumes_records (12 + zlen (questions_wire (pQuestions m)) + zlen (records_wire (pAnswers m)) +
    zlen (records_wire (pAuthority m))) _ _ Har) Hd3 Hd4. clear Hd4.
  apply (f_equal length) in Hd3. rewrite length_drop, app_nil_r in Hd3.
  edestruct (raw_run (set_szCursor (12 + zlen (questions_wire (pQuestions m)) + zlen (records_wire (pAnswers m)) +
    zlen (records_wire (pAuthority m)) + zlen (records_wire (pAdditional m))) b)) as (e5 & Hraw & He5);
    [apply set_cursor_wf; [done | lia] | eassumption | exact Hd | done | exact Har | | |];
    [| | unfold rbind at 1, rtry; rewrite Hraw; by do 2 eexists]; lia.
Qed.

Lemma parse_update_run b e m : update_ok m → dns_wf b → quiet e → bTokenizeDomainName b = fl → 12 <= szLength b →
  drop 12 (contents b) = update_body m → zlen (update_body m) < 2 ^ 16 →
  ∃ b' e', VmDnsParseUpdateMessage inet_pton (up_pHeader m) (set_szCursor 12 b) e = Some (inr (update_norm m), b', e') ∧ quiet e'.
Proof.
  intros [Hh (z & Hz & Hzok) Hpr Hup Had] Hb He Ht Hc Hd Hl. unfold VmDnsParseUpdateMessage, rbind at 1. rewrite alloc_ok by done.
  unfold rbind at 1, rget. cbv zeta. cbn [szCursor set_szCursor]. pose proof (quiet_tail e He) as He0.
  pose proof (f_equal length Hd) as Hdl. rewrite length_drop in Hdl. pose proof (contents_length b Hb).
  pose proof Hd as Hdr. change 12%nat with (Z.to_nat 12) in Hdr. unfold update_body in Hdr. rewrite Hz in Hdr.
  unfold update_norm. rewrite Hz. cbn [option_map].
  section_step (consumes_here 12 _ _ _ _ (consumes_zone z Hzok)) Hdr Hd1.
  section_step (consumes_records (12 + zlen (zone_wire z)) _ _ Hpr) Hd1 Hd2.
  section_step (consumes_records (12 + zlen (zone_wire z) + zlen (records_wire (pPrerequisite m))) _ _ Hup) Hd2 Hd3.
  rewrite <- (app_nil_r (records_wire (up_pAdditional m))) in Hd3.
  section_step (consumes_records (12 + zlen (zone_wire z) + zlen (records_wire (pPrerequisite m)) +
    zlen (records_wire (pUpdate m))) _ _ Had) Hd3 Hd4. clear Hd4.
  apply (f_equal length) in Hd3. rewrite length_drop, app_nil_r in Hd3.
  edestruct (raw_run (set_szCursor (12 + zlen (zone_wire z) + zlen (records_wire (pPrerequisite m)) +
    zlen (records_wire (pUpdate m)) + zlen (records_wire (up_pAdditional m))) b)) as (e5 & Hraw & He5);
    [apply set_cursor_wf; [done | lia] | eassumption | exact Hd | done | exact Had | | |];
    [| | unfold rbind at 1, rtry; rewrite Hraw; by do 2 eexists]; lia.
Qed.

End Reader.

(** The first step of a request that starts with a header. *)
Lemma request_header {St} inet_pton h body (s : St) e :
  header_ok h → bytes (header_wire h ++ body) → zlen (header_wire h ++ body) <= 2 ^ 32 → quiet e →
  ∃ e', quiet e' ∧ parse_request inet_pton (header_wire h ++ body) s e =
    match (if opcode (codes h) =? VM_DNS_OPCODE_QUERY then m <- VmDnsParseQueryMessage inet_pton h ;; rret (R_QUERY m)
           else if opcode (codes h) =? VM_DNS_OPCODE_UPDATE then m <- VmDnsParseUpdateMessage inet_pton h ;; rret (R_UPDATE m)
           else rret R_OTHER) (set_szCursor 12 (in_buffer false (header_wire h ++ body))) e' with
    | Some (r, _, e2) => Some (r, s, e2)
    | None => None
    end.
Proof.
  intros Hh Hb Hl He. set (msg := header_wire h ++ body) in *. pose proof (header_wire_length h) as Hw.
  assert (12 <= zlen msg) by (unfold msg; rewrite length_app; lia).
  unfold parse_request, with_buffer, VmDnsGetDnsMessageBuffer. rewrite (proj2 (Z.eqb_neq _ _)) by lia.
  destruct (in_buffer_made msg s e ltac:(lia)) as (e1 & [[-> Hq] | [_ ?]]); [| done].
  destruct (consumes_header false h Hh (in_buffer false msg) e1 body) as (e2 & Hr & Hq2); auto.
  { by apply in_buffer_wf. } { by rewrite in_buffer_contents. }
  exists e2. split; [done |]. unfold rbind at 1. rewrite Hr, Hw. done.
Qed.

(** A response that fits is written completely. *)
Lemma response_run {St} m (s : St) e : query_ok m → 3 * zlen (query_wire m) <= VMDNS_MAX_SIZE_BUFFER → quiet e →
  ∃ e', VmDnsGetQueryResponse m s e = Some (inr (query_wire m), s, e') ∧ quiet e' ∧ bytes (query_wire m).
Proof.
  intros Hm Hl He. destruct (emit_message true _ _ s e (emits_query m Hm)) as (x & e' & Hx & Hq & Hout).
  { unfold query_wire. rewrite length_app. pose proof (header_wire_length (pHeader m)). lia. }
  destruct x as [err | x]; [by destruct Hout |]. destruct Hout as [-> Hb]. exists e'. split; [exact Hx | auto].
Qed.

(** A query message that fits is read back. *)
Lemma parse_query_message {St} inet_pton m (s : St) e :
  query_ok m → 3 * zlen (query_wire m) <= VMDNS_MAX_SIZE_BUFFER → opcode (codes (pHeader m)) = VM_DNS_OPCODE_QUERY → quiet e →
  ∃ e', parse_request inet_pton (query_wire m) s e = Some (inr (R_QUERY (query_norm m)), s, e') ∧ quiet e'.
Proof.
  intros Hm Hl Hop He. assert (zlen (query_wire m) = 12 + zlen (query_body m)) as Hlen
    by (unfold query_wire; rewrite length_app; pose proof (header_wire_length (pHeader m)); lia).
  destruct (response_run m s e Hm Hl He) as (_ & _ & _ & Hb). unfold VMDNS_MAX_SIZE_BUFFER in Hl.
  destruct (request_header inet_pton (pHeader m) (query_body m) s e) as (e1 & Hq1 & Hreq);
    [apply Hm | done | unfold query_wire in *; lia | auto |].
  rewrite Hop in Hreq. cbn [Z.eqb VM_DNS_OPCODE_QUERY] in Hreq.
  destruct (parse_query_run inet_pton false (in_buffer false (query_wire m)) e1 m Hm) as (b' & e2 & Hr & Hq2);
    [apply in_buffer_wf; [done | lia] | done | done | cbn; lia | rewrite in_buffer_contents; apply drop_app_length' | lia |].
  { pose proof (header_wire_length (pHeader m)). lia. }
  exists e2. split; [| done]. unfold query_wire in *. rewrite Hreq. unfold rbind. by rewrite Hr.
Qed.

(** C21: a query response whose sections agree with its header and which is
    small enough is written completely, and the parser reads it back: the same
    header, question and records, with names normalised, and with the copy of
    the bytes in front of a signature. *)
Theorem query_response_parses {St} inet_pton m (s : St) e :
  query_ok m → 3 * zlen (query_wire m) <= VMDNS_MAX_SIZE_BUFFER → opcode (codes (pHeader m)) = VM_DNS_OPCODE_QUERY → quiet e →
  ∃ e' e2, VmDnsGetQueryResponse m s e = Some (inr (query_wire m), s, e') ∧
    parse_request inet_pton (query_wire m) s e' = Some (inr (R_QUERY (query_norm m)), s, e2).
Proof.
  intros Hm Hl Hop He. destruct (response_run m s e Hm Hl He) as (e' & Hx & He' & _).
  destruct (parse_query_message inet_pton m s e' Hm Hl Hop He') as (e2 & Hp & _). by exists e', e2.
Qed.

(** An update message with its zone, prerequisite, update and additional
    sections is written completely and read back by the parser, with the copy
    of the bytes in front of a signature. *)
Theorem update_response_parses {St} inet_pton m (s : St) e :
  update_ok m → 3 * zlen (update_wire m) <= VMDNS_MAX_SIZE_BUFFER → opcode (codes (up_pHeader m)) = VM_DNS_OPCODE_UPDATE → quiet e →
  ∃ e' e2, VmDnsGetUpdateResponse m s e = Some (inr (update_wire m), s, e') ∧
    parse_request inet_pton (update_wire m) s e' = Some (inr (R_UPDATE (update_norm m)), s, e2).
Proof.
  intros Hm Hl Hop He. assert (zlen (update_wire m) = 12 + zlen (update_body m)) as Hlen
    by (unfold update_wire; rewrite length_app; pose proof (header_wire_length (up_pHeader m)); lia).
  unfold VMDNS_MAX_SIZE_BUFFER in Hl.
  destruct (emit_message true _ _ s e (emits_update m Hm)) as (x & e' & Hx & Hq & Hout); [lia |].
  destruct x as [err | x]; [by destruct Hout |]. destruct Hout as [-> Hb].
  destruct (request_header inet_pton (up_pHeader m) (update_body m) s e') as (e1 & Hq1 & Hreq);
    [apply Hm | done | unfold update_wire in *; lia | auto |].
  rewrite Hop in Hreq. change (VM_DNS_OPCODE_UPDATE =? VM_DNS_OPCODE_QUERY) with false in Hreq.
  rewrite Z.eqb_refl in Hreq.
  destruct (parse_update_run inet_pton false (in_buffer false (update_wire m)) e1 m Hm) as (b' & e2 & Hr & _);
    [apply in_buffer_wf; [done | lia] | done | done | cbn; lia | rewrite in_buffer_contents; apply drop_app_length' | lia |].
  { pose proof (header_wire_length (up_pHeader m)). lia. }
  exists e', e2. split; [exact Hx |]. unfold update_wire in *. rewrite Hreq. unfold rbind. by rewrite Hr.
Qed.

(** ** Witnesses *)

(** A response to a question for [a.b] with one address, and one with a
    signature. *)
Definition ab : list Z := [97; 46; 98].
Definition sample_a : dns_record := DNS_RECORD (Some ab) VMDNS_RR_TYPE_A 1 300 (D_A 0x0A000001).
Definition sample_tsig : dns_record :=
  DNS_RECORD (Some ab) VMDNS_RR_MTYPE_TSIG 255 0
    (D_TSIG (TSIG_DATA (Some ab) (Some (BLOB 2 (Some [7; 8]))) (Some (BLOB 0 None)) 1500000000 300 4660 0 None)).
Definition sample_codes (op : Z) : header_codes := CODES 1 op 1 0 0 0 0 0.
Definition sample_query : dns_message :=
  DNS_MESSAGE (DNS_HEADER 4660 (sample_codes 0) 1 1 0 1) (Some [DNS_QUESTION (Some ab) 1 1])
    (Some [sample_a]) None (Some [sample_tsig]) None.
Definition sample_update : update_message :=
  UPDATE_MESSAGE (DNS_HEADER 4660 (sample_codes 5) 1 0 1 1) (Some (UPDATE_ZONE (Some ab) 6 1))
    None (Some [sample_a]) (Some [sample_tsig]) None.

Lemma ab_ok : name_ok true ab.
Proof.
  split; [unfold ab; forall_list |]. split; [unfold ab; forall_list |]. split; [| by vm_compute].
  change (labels ab) with [[97]; [98]]. forall_list.
Qed.

Lemma sample_a_ok : record_ok true sample_a.
Proof. split_and!; try done; [apply ab_ok ..]. Qed.

Lemma sample_tsig_ok : record_ok true sample_tsig.
Proof.
  assert (some_blob (Some (BLOB 2 (Some [7; 8])))) by (split_and!; [unfold blob_data; cbn; forall_list | done | done | done]).
  assert (some_blob (Some (BLOB 0 None))) by (split_and!; [apply Forall_nil_2 | done | done | done]).
  split_and!; try done; [apply ab_ok |]. split; [| done]. cbn [sample_tsig Data fields_ok]. by repeat (split; [try done; apply ab_ok |]).
Qed.

Lemma sample_header_ok op n a : 0 <= op < 16 → is_u16 n → is_u16 a → header_ok (DNS_HEADER 4660 (sample_codes op) 1 n a 1).
Proof. intros. constructor; try done; by constructor. Qed.

Lemma array_one {A} (P : A → Prop) x : P x → array_of 1 P (Some [x]).
Proof. intros Hx. split_and!; [done | by apply Forall_singleton | done]. Qed.

Lemma array_none {A} (P : A → Prop) : array_of 0 P None.
Proof. split_and!; [done | apply Forall_nil_2 | done]. Qed.

Lemma sample_query_ok : query_ok sample_query.
Proof.
  constructor; [by apply sample_header_ok | done | apply array_one; split_and!; try done; apply ab_ok
    | apply array_one, sample_a_ok | apply array_none | apply array_one, sample_tsig_ok].
Qed.

Lemma sample_update_ok : update_ok sample_update.
Proof.
  constructor; [by apply sample_header_ok | eexists; split; [done |]; split_and!; try done; apply ab_ok
    | apply array_none | apply array_one, sample_a_ok | apply array_one, sample_tsig_ok].
Qed.

(** A query response is never cut: the caller gets all of the message or
    an error, and an error means that memory was refused or that the message
    is larger than a third of the largest buffer. *)
Theorem response_complete_or_error {St} m (s : St) e : query_ok m →
  ∃ r e', VmDnsGetQueryResponse m s e = Some (r, s, e') ∧
    match r with
    | inr bs => bs = query_wire m
    | inl _ => ¬ (quiet e ∧ 3 * zlen (query_wire m) <= VMDNS_MAX_SIZE_BUFFER)
    end.
Proof.
  intros Hm. destruct (emit_message true _ _ s e (emits_query m Hm)) as (x & e' & Hx & _ & Hout).
  { unfold query_wire. rewrite length_app. pose proof (header_wire_length (pHeader m)). lia. }
  exists x, e'. split; [exact Hx |]. destruct x; [done | by destruct Hout].
Qed.

Lemma response_complete_or_error_witness :
  ∃ r e', VmDnsGetQueryResponse sample_query tt [0; 1] = Some (r, tt, e') ∧
    match r with
    | inr bs => bs = query_wire sample_query
    | inl _ => ¬ (quiet [0; 1] ∧ 3 * zlen (query_wire sample_query) <= VMDNS_MAX_SIZE_BUFFER)
    end.
Proof. exact (response_complete_or_error sample_query tt [0; 1] sample_query_ok). Defined.

Lemma query_response_parses_witness :
  VmDnsGetQueryResponse sample_query tt [] = Some (inr (query_wire sample_query), tt, []) ∧
  parse_request (λ _ _, false) (query_wire sample_query) tt [] = Some (inr (R_QUERY (query_norm sample_query)), tt, []).
Proof.
  destruct (query_response_parses (λ _ _, false) sample_query tt [] sample_query_ok) as (e' & e2 & H1 & H2);
    [vm_compute; discriminate | reflexivity | constructor |].
  vm_compute in H1. injection H1 as <-. split; [reflexivity |]. vm_compute in H2. injection H2 as <-. reflexivity.
Defined.

Lemma update_response_parses_witness :
  VmDnsGetUpdateResponse sample_update tt [] = Some (inr (update_wire sample_update), tt, []) ∧
  parse_request (λ _ _, false) (update_wire sample_update) tt [] = Some (inr (R_UPDATE (update_norm sample_update)), tt, []).
Proof.
  destruct (update_response_parses (λ _ _, false) sample_update tt [] sample_update_ok) as (e' & e2 & H1 & H2);
    [vm_compute; discriminate | reflexivity | constructor |].
  vm_compute in H1. injection H1 as <-. split; [reflexivity |]. vm_compute in H2. injection H2 as <-. reflexivity.
Defined.

(** A question whose name is a pointer to the name of the zone behind it, and
    an additional record; the third allocation is refused. *)
Definition pointed_request : list Z :=
  [18; 52; 0; 0; 0; 1; 0; 0; 0; 0; 0; 0; 192; 18; 0; 1; 0; 1; 1; 97; 0].

Lemma request_bounds_witness : ∃ r e', parse_request (λ _ _, false) pointed_request tt [0; 0; 1] = Some (r, tt, e') ∧
  match r with inr x => request_typed pointed_request x | inl _ => True end.
Proof.
  apply (request_bounds (λ _ _, false) pointed_request tt [0; 0; 1]);
    [unfold pointed_request; forall_list | vm_compute; discriminate | reflexivity | intros _; right; reflexivity].
Defined.

(** ** Requests that are not parsed within their bytes *)

Definition request_of (qd an ns ar : Z) (body : list Z) : list Z := [18; 52; 0; 0; 0; qd; 0; an; 0; ns; 0; ar] ++ body.

(** A pointer whose second byte is missing, a chain of labels that runs to the
    end of the message, and a label with a NUL byte behind a pointer leave the
    block of the message or of a copied label. *)
Example pointer_at_end : parse_request (λ _ _, false) (request_of 1 0 0 0 [192]) tt [] = None.
Proof. by vm_compute. Qed.

Example pointed_labels_to_end : parse_request (λ _ _, false) (request_of 1 0 0 0 [192; 18; 0; 1; 0; 1; 1; 97]) tt [] = None.
Proof. by vm_compute. Qed.

Example pointed_label_with_nul :
  parse_request (λ _ _, false) (request_of 1 0 0 0 [192; 18; 0; 1; 0; 1; 2; 97; 0; 0]) tt [] = None.
Proof. by vm_compute. Qed.

(** Two authority records, one signature, and no memory for the copy of the
    message: the array of one additional record is released with count two. *)
Example release_with_other_count :
  parse_request (λ _ _, false)
    (request_of 0 0 2 1 (record_wire true sample_a ++ record_wire true sample_a ++ record_wire true sample_tsig))
    tt (replicate 28 0 ++ [1]) = None.
Proof. by vm_compute. Qed.

(** Only the low byte of an offset is used: a pointer to offset 256 + 18 is
    read as one to 18. *)
Example pointer_low_byte :
  parse_request (λ _ _, false) (request_of 1 0 0 0 [193; 18; 0; 1; 0; 1; 1; 97; 0]) tt [] =
  Some (inr (R_QUERY (DNS_MESSAGE (header_of (request_of 1 0 0 0 [])) (Some [DNS_QUESTION (Some [97; 46]) 1 1]) None None None None)), tt, []).
Proof. by vm_compute. Qed.

(** The data of a record of an unknown type is taken for the next record. *)
Example unknown_type_not_skipped :
  parse_request (λ _ _, false) (request_of 0 1 0 0 [0; 0; 41; 16; 0; 0; 0; 0; 0; 0; 0]) tt [] =
  Some (inr (R_QUERY (DNS_MESSAGE (header_of (request_of 0 1 0 0 [])) None
    (Some [DNS_RECORD (Some []) 41 4096 0 D_NONE]) None None None)), tt, []).
Proof. by vm_compute. Qed.

(** A stored name of 192 characters is read as a pointer. *)
Example long_stored_name :
  VmDnsSerializeDnsRecord (DNS_RECORD (Some (replicate 192 97)) VMDNS_RR_TYPE_A 1 300 (D_A 1)) false tt [] =
    Some (inr (192 :: replicate 192 97 ++ [0; 0; 1; 0; 1; 0; 0; 1; 44; 0; 4; 0; 0; 0; 1]), tt, []) ∧
  VmDnsDeserializeDnsRecord (λ _ _, false)
    (192 :: replicate 192 97 ++ [0; 0; 1; 0; 1; 0; 0; 1; 44; 0; 4; 0; 0; 0; 1]) false tt [] =
    Some (inl ERROR_LABEL_TOO_LONG, tt, []).
Proof. split; by vm_compute. Qed.
