(* ===== verification/DnsProtocol.v ===== *)
(** * DnsProtocol: queries and updates as the server answers them

    [vmdns/server/common/dnsprotocol.c]: the response to a query, composed of
    the search for the zone, the lookup of the records and the writing of the
    response; and the sections of an update: the zone, the prerequisites, the
    scan of the update section and its execution.  The negotiation of keys
    ([VmDnsSecProcessTkeyQuery]) is a parameter. *)

From S2P Require Import Prelude Heap Effects DnsBuffer DnsName DnsRecord DnsRecordOps DnsHashTable DnsRecordList DnsZone DnsZoneList DnsService DnsMessage.
From stdpp Require Import gmap.

Open Scope Z_scope.

Definition VM_DNS_RCODE_NOERROR : Z := 0.
Definition VM_DNS_RCODE_FORMAT_ERROR : Z := 1.
Definition VM_DNS_RCODE_SERVER_FAILURE : Z := 2.
Definition VM_DNS_RCODE_NAME_ERROR : Z := 3.
Definition VM_DNS_RCODE_NOT_IMPLEMENTED : Z := 4.
Definition VM_DNS_RCODE_YXDOMAIN : Z := 6.
Definition VM_DNS_RCODE_YXRRSET : Z := 7.
Definition VM_DNS_RCODE_NXRRSET : Z := 8.
Definition VM_DNS_RCODE_NOTAUTH : Z := 9.
Definition VM_DNS_OPCODE_IQUERY : Z := 1.
Definition VM_DNS_OPCODE_STATUS : Z := 2.
Definition VM_DNS_OPCODE_NOTIFY : Z := 4.

(** ** The header of a response *)

Definition set_rcode (rc : Z) (h : dns_header) : dns_header :=
  let c := codes h in
  DNS_HEADER (usId h) (CODES (QR c) (opcode c) (AA c) (TC c) (RD c) (RA c) (Z_bits c) rc) (usQDCount h) (usANCount h) (usNSCount h) (usARCount h).
Definition set_qd (n : Z) (h : dns_header) : dns_header :=
  DNS_HEADER (usId h) (codes h) n (usANCount h) (usNSCount h) (usARCount h).
Definition set_an (n : Z) (h : dns_header) : dns_header :=
  DNS_HEADER (usId h) (codes h) (usQDCount h) n (usNSCount h) (usARCount h).

Definition VmDnsBuildResponseHeader (h : dns_header) : dns_header :=
  let c := codes h in
  if QR c =? 1 then DNS_HEADER 0 (CODES 0 0 0 0 0 0 0 VM_DNS_RCODE_FORMAT_ERROR) 0 0 0 0
  else
    let code aa rc := DNS_HEADER (usId h) (CODES 1 (opcode c) aa 0 0 0 0 rc) 0 0 0 0 in
    if negb (TC c =? 0) || negb (RD c =? 0) then code 0 VM_DNS_RCODE_NOT_IMPLEMENTED
    else if opcode c =? VM_DNS_OPCODE_QUERY then code 1 VM_DNS_RCODE_NOERROR
    else if opcode c =? VM_DNS_OPCODE_UPDATE then code 0 VM_DNS_RCODE_NOERROR
    else if (opcode c =? VM_DNS_OPCODE_IQUERY) || (opcode c =? VM_DNS_OPCODE_STATUS) || (opcode c =? VM_DNS_OPCODE_NOTIFY)
    then code 0 VM_DNS_RCODE_NOT_IMPLEMENTED
    else code 0 VM_DNS_RCODE_FORMAT_ERROR.

(** ** The state of the server *)

Record dns_state (D : Type) := DNS_STATE {
  st_zones : list (option zone_ref); st_objects : gmap Z zone_object; st_dir : D; st_ready : bool }.
Arguments DNS_STATE {D}. Arguments st_zones {D}. Arguments st_objects {D}. Arguments st_dir {D}. Arguments st_ready {D}.

Section Protocol.
Context `{StringCompare} {D : Type} `{Directory D}.
Variable inet_pton : Z → list Z → bool.

Abbreviation PM := (RM (dns_state D)).

(** A service operation on the zone at an address. *)
Definition on_server {A} (address : Z) (m : RM (server D) A) : PM A :=
  s <- rget ;;
  z <- rlift (st_objects s !! address) ;;
  x <- run_on (SERVER z (st_dir s) (st_ready s)) m ;;
  rset (λ s, DNS_STATE (st_zones s) (<[address := srv_zone x.2]> (st_objects s)) (srv_dir x.2) (st_ready s)) ;;;
  bail x.1.

Definition VmDnsCacheFindZoneByQName (szQName : dns_string) : PM zone_ref :=
  match szQName with
  | None | Some [] => rfail ERROR_INVALID_PARAMETER
  | Some q => s <- rget ;; VmDnsZoneListFindZoneByQName q (st_zones s)
  end.

Definition VmDnsCacheFindZone (pszZoneName : dns_string) : PM zone_ref :=
  match pszZoneName with
  | None | Some [] => rfail ERROR_INVALID_PARAMETER
  | Some q => s <- rget ;; VmDnsZoneListFindZone q (st_zones s)
  end.

Definition VmDnsSrvFindZone (pszZoneName : dns_string) : PM zone_ref :=
  s <- rget ;; if st_ready s then VmDnsCacheFindZone pszZoneName else rfail ERROR_NOT_READY.

(** ** Queries *)

Definition VmDnsCopyQuestion (q : dns_question) : PM dns_question :=
  VmDnsAllocateMemory 16 ;;;
  name <- match pszQName q with Some s => rret s | None => rfail ERROR_INVALID_PARAMETER end ;;
  VmDnsAllocateStringA (name ++ [0]) ;;;
  rret (DNS_QUESTION (Some name) (uQType q) (uQClass q)).

Fixpoint copy_questions (qs : list dns_question) : PM (list dns_question) :=
  match qs with [] => rret [] | q :: qs => x <- VmDnsCopyQuestion q ;; y <- copy_questions qs ;; rret (x :: y) end.

Definition VmDnsCopyQuestions (qs : option (list dns_question)) (dwCount : Z) : PM (option (list dns_question)) :=
  match qs with
  | None => rfail ERROR_INVALID_PARAMETER
  | Some l =>
      if dwCount =? 0 then rret None
      else VmDnsAllocateMemory (16 * dwCount) ;;; x <- copy_questions (take (Z.to_nat dwCount) l) ;; rret (Some x)
  end.

Definition VmDnsSecIsRRTypeSec (t : Z) : bool := (t =? VMDNS_RR_MTYPE_TKEY) || (t =? VMDNS_RR_MTYPE_TSIG).

Variable VmDnsSecProcessTkeyQuery : dns_message → dns_message → PM dns_message.

(** What a query is answered with: the bytes or an error, the code of the
    response, and whether the query was in a zone. *)
Definition respond (m : dns_message) (bQueryInZone : bool) : PM ((dwerror + list Z) * Z * bool) :=
  r <- rtry (VmDnsGetQueryResponse m) ;;
  rret (r, RCODE (codes (pHeader m)), bQueryInZone).

Definition message_of (h : dns_header) (qs : option (list dns_question)) (an : option (list dns_record)) : dns_message :=
  DNS_MESSAGE h qs an None None None.

(** The answer of a zone. *)
Definition answer_query (x : zone_ref) (q : dns_question) (h : dns_header) (qs : option (list dns_question))
  : PM ((dwerror + list Z) * Z * bool) :=
  a <- on_server (ref_address x) (VmDnsSrvQueryRecords inet_pton (pszQName q) (uQType q)) ;;
  let missing := respond (message_of (set_rcode (if a.2 then VM_DNS_RCODE_NOERROR else VM_DNS_RCODE_NAME_ERROR) h) qs None) true in
  match a.1 with
  | inl err =>
      if bool_decide (err = ERROR_NOT_FOUND) then missing
      else respond (message_of (set_rcode VM_DNS_RCODE_SERVER_FAILURE h) qs None) true
  | inr l =>
      if VmDnsRecordListGetSize l =? 0 then missing
      else
        let h := set_an (u16 (dwCurrentSize l)) h in
        r <- rtry (VmDnsCopyRecordArray l) ;;
        match r with
        | inl _ => respond (message_of (set_rcode VM_DNS_RCODE_SERVER_FAILURE h) qs None) true
        | inr an => respond (message_of (set_rcode VM_DNS_RCODE_NOERROR h) qs (Some an)) true
        end
  end.

Definition VmDnsProcessQuery (m : dns_message) : PM ((dwerror + list Z) * Z * bool) :=
  s <- rget ;;
  if negb (st_ready s) then
    r <- rtry (VmDnsAllocateBufferStream 0 ;;; rfail ERROR_INVALID_PARAMETER) ;;
    rret (r, VM_DNS_RCODE_SERVER_FAILURE, false)
  else
    let h := set_qd (usQDCount (pHeader m)) (VmDnsBuildResponseHeader (pHeader m)) in
    qs <- rtry (VmDnsCopyQuestions (pQuestions m) (usQDCount (pHeader m))) ;;
    match qs with
    | inl _ => respond (message_of (set_rcode VM_DNS_RCODE_SERVER_FAILURE h) None None) false
    | inr qs =>
        if negb (usQDCount (pHeader m) =? 1) then respond (message_of (set_rcode VM_DNS_RCODE_FORMAT_ERROR h) qs None) false
        else
          q <- rlift (pQuestions m ≫= λ l, l !! O) ;;
          if negb (VmDnsIsSupportedRecordType (uQType q)) && negb (VmDnsSecIsRRTypeSec (uQType q))
          then respond (message_of (set_rcode VM_DNS_RCODE_NOT_IMPLEMENTED h) qs None) false
          else if uQType q =? VMDNS_RR_MTYPE_TKEY then
            r <- rtry (VmDnsSecProcessTkeyQuery m (message_of h qs None)) ;;
            match r with
            | inr resp => respond resp false
            | inl _ => respond (message_of (set_rcode VM_DNS_RCODE_SERVER_FAILURE h) qs None) false
            end
          else
            x <- rtry (VmDnsCacheFindZoneByQName (pszQName q)) ;;
            match x with
            | inl err =>
                respond (message_of (set_rcode (if bool_decide (err = ERROR_NOT_FOUND) then VM_DNS_RCODE_NAME_ERROR
                                                else VM_DNS_RCODE_SERVER_FAILURE) h) qs None) false
            | inr x =>
                s <- rget ;;
                z <- rlift (st_objects s !! ref_address x) ;;
                if zoneId z =? VMDNS_ZONE_ID_FORWARDER then respond (message_of (set_rcode VM_DNS_RCODE_NAME_ERROR h) qs None) false
                else answer_query x q h qs
            end
    end.

End Protocol.

(** ** Queries are answered *)

(** Whether the reply to a query is marked as authoritative: not when the
    message is truncated or asks for recursion. *)
Definition marked (h : dns_header) : Z := if negb (TC (codes h) =? 0) || negb (RD (codes h) =? 0) then 0 else 1.

(** The reply to a question: the identity of the request, the mark, the
    question, a code and records. *)
Definition reply (h : dns_header) (q : dns_question) (rc : Z) (rs : list dns_record) : dns_message :=
  message_of (DNS_HEADER (usId h) (CODES 1 VM_DNS_OPCODE_QUERY (marked h) 0 0 0 0 rc) 1 (zlen rs) 0 0) (Some [q])
    (match rs with [] => None | _ => Some (map copied rs) end).

(** A query with one question of a type the server answers, short enough that
    the growing buffer takes the reply without records ([fits]).  Recursion may
    be asked for. *)
Record question_request (m : dns_message) (q : dns_question) (name : list Z) : Prop := {
  rq_header : header_ok (pHeader m);
  rq_plain : QR (codes (pHeader m)) = 0 ∧ opcode (codes (pHeader m)) = VM_DNS_OPCODE_QUERY;
  rq_one : usQDCount (pHeader m) = 1 ∧ pQuestions m = Some [q];
  rq_question : question_ok q;
  rq_name : pszQName q = Some name ∧ name ≠ [];
  rq_type : VmDnsIsSupportedRecordType (uQType q) = true;
  rq_size : 3 * zlen (query_wire (reply (pHeader m) q 0 [])) <= VMDNS_MAX_SIZE_BUFFER
}.

Section Answers.
Context `{StringCompare} {D : Type} `{Directory D}.
Variable inet_pton : Z → list Z → bool.
Variable tkey : dns_message → dns_message → RM (dns_state D) dns_message.
Implicit Types (st : dns_state D) (z : zone_object).

(** What the directory has for a name in a zone, as a zone object looks it up. *)
Definition looked_up st z (name : list Z) : list dns_record :=
  dir_records (st_dir st) (zone_name z) (fqdn inet_pton name (zone_name z)).
Definition answers st z (name : list Z) (t : Z) : list dns_record := filter (λ r, type_matches t r) (looked_up st z name).

(** A zone whose cache agrees with the directory, with records that can be
    copied and written into one response. *)
Record servable st z (q : dns_question) (name : list Z) (h : dns_header) : Prop := {
  sv_lookup : lookup_ok inet_pton (SERVER z (st_dir st) true) name;
  sv_alias : no_alias (looked_up st z name);
  sv_records : Forall (λ r, copyable r ∧ record_ok true (copied r)) (looked_up st z name);
  sv_count : zlen (answers st z name (uQType q)) < 2 ^ 16;
  sv_size : 3 * zlen (query_wire (reply h q 0 (answers st z name (uQType q)))) <= VMDNS_MAX_SIZE_BUFFER
}.

Lemma makes_array {St} rs : Forall copyable rs → makes (St := St) (copy_array rs) (map copied rs).
Proof.
  induction 1 as [|r rs Hr _ IH]; cbn [copy_array map]; [apply makes_ret |].
  assert (Hrest : makes (St := St) (x <- VmDnsCopyRecord r ;; y <- copy_array rs ;; rret (x :: y)) (copied r :: map copied rs)).
  { eapply makes_bind; [by apply makes_record | |].
    - eapply makes_bind; [exact IH | apply makes_ret | intros ?; apply makes_ret].
    - intros x. apply runs_bind; [apply IH | intros ?; apply makes_ret]. }
  eapply makes_bind; [by apply makes_alloc | exact Hrest | intros ?; apply Hrest].
Qed.

Lemma copy_list_run l st e : Forall copyable (ppRecords l) → ppRecords l ≠ [] → quiet e →
  ∃ e', VmDnsCopyRecordArray l st e = Some (inr (map copied (ppRecords l)), st, e') ∧ quiet e'.
Proof.
  intros Hc Hne He. assert (0 < dwCurrentSize l) by (unfold dwCurrentSize; destruct (ppRecords l); [done | cbn; lia]).
  assert (makes (St := dns_state D) (VmDnsCopyRecordArray l) (map copied (ppRecords l))) as [_ Hm]; [| by apply Hm].
  eapply makes_bind; [apply makes_alloc; lia | by apply makes_array | intros ?; by apply makes_array].
Qed.

Lemma copy_question_run q name st e : pszQName q = Some name → quiet e →
  ∃ e', VmDnsCopyQuestions (Some [q]) 1 st e = Some (inr (Some [q]), st, e') ∧ quiet e'.
Proof.
  intros Hq He. unfold VmDnsCopyQuestions. cbn [Z.eqb]. unfold rbind at 1. rewrite alloc_ok by done.
  change (take (Z.to_nat 1) [q]) with [q]. cbn [copy_questions]. unfold rbind at 1 2. unfold VmDnsCopyQuestion at 1. unfold rbind at 1.
  rewrite alloc_ok by (done || by apply quiet_tail). rewrite Hq. unfold rbind at 1, rret at 1.
  destruct (alloc_string_ok (name ++ [0]) _ st (tail (tail e)) (cstring_block _)) as (e1 & Hs & He1); [by do 2 apply quiet_tail |].
  exists e1. split; [| done]. unfold rbind. rewrite Hs. unfold rret. destruct q. cbn in *. by rewrite Hq.
Qed.

Lemma marked_bit h : 0 <= marked h < 2.
Proof. unfold marked. destruct (_ || _); lia. Qed.

Lemma reply_ok h q rc rs : header_ok h → question_ok q → 0 <= rc < 16 → zlen rs < 2 ^ 16 → Forall (λ r, record_ok true (copied r)) rs →
  query_ok (reply h q rc rs).
Proof.
  intros [Hid _ _ _ _ _] Hq Hrc Hl Hrs. pose proof (marked_bit h). constructor; cbn [reply message_of pHeader usQDCount usANCount usNSCount usARCount pQuestions pAnswers pAuthority pAdditional]; try apply array_none.
  - constructor; cbn [usId codes usQDCount usANCount usNSCount usARCount]; unfold is_u16 in *; try lia. constructor; cbn [QR opcode AA TC RD RA Z_bits RCODE]; unfold VM_DNS_OPCODE_QUERY; lia.
  - done.
  - by apply array_one.
  - split_and!.
    + destruct rs as [|r rs]; [done |]. exact (f_equal Z.of_nat (length_map copied (r :: rs))).
    + destruct rs as [|r rs]; [constructor |]. exact (proj2 (Forall_map _ _ (r :: rs)) Hrs).
    + destruct rs; [done |]. split; [done |]. cbn. lia.
Qed.

Lemma reply_wire_length h q rc rs : zlen (query_wire (reply h q rc rs)) = 12 + zlen (question_wire q) + zlen (concat (map (record_wire true ∘ copied) rs)).
Proof.
  unfold query_wire, query_body, array_wire. rewrite !length_app. pose proof (header_wire_length (pHeader (reply h q rc rs))) as Hh.
  assert (length (concat (map question_wire (default [] (pQuestions (reply h q rc rs))))) = length (question_wire q)) as -> by (cbn; by rewrite app_nil_r).
  assert (map (record_wire true) (default [] (pAnswers (reply h q rc rs))) = map (record_wire true ∘ copied) rs) as ->.
  { destruct rs; [done |]. cbn. by rewrite map_map. }
  cbn [reply message_of pAuthority pAdditional default from_option map concat length]. cbn [length]. lia.
Qed.

Lemma respond_run h q rc rs b st e : query_ok (reply h q rc rs) → 3 * zlen (query_wire (reply h q rc rs)) <= VMDNS_MAX_SIZE_BUFFER → quiet e →
  ∃ e', respond (reply h q rc rs) b st e = Some (inr (inr (query_wire (reply h q rc rs)), rc, b), st, e') ∧ quiet e'.
Proof.
  intros Hok Hl He. destruct (response_run _ st e Hok Hl He) as (e' & Hr & He' & _). exists e'. split; [| done].
  unfold respond, rbind, rtry. by rewrite Hr.
Qed.

(** The header every reply starts from. *)
Definition reply_header (h : dns_header) : dns_header :=
  DNS_HEADER (usId h) (CODES 1 VM_DNS_OPCODE_QUERY (marked h) 0 0 0 0 (if marked h =? 0 then VM_DNS_RCODE_NOT_IMPLEMENTED else VM_DNS_RCODE_NOERROR)) 1 0 0 0.

Definition answer_code st z (name : list Z) : Z :=
  if bool_decide (looked_up st z name = []) && negb (cached (fqdn inet_pton name (zone_name z)) z) then VM_DNS_RCODE_NAME_ERROR else VM_DNS_RCODE_NOERROR.

(** The code and the records of a reply: those of the directory, or a server
    failure without records when the directory does not answer. *)
Definition answered st z (name : list Z) (t rc : Z) (rs : list dns_record) : Prop :=
  rc = answer_code st z name ∧ rs ≡ₚ answers st z name t ∨
  rc = VM_DNS_RCODE_SERVER_FAILURE ∧ rs = [] ∧ ∃ err, dir_fails (st_dir st) (zone_name z) (fqdn inet_pton name (zone_name z)) err.

(** The state with the object of one zone replaced. *)
Definition with_object (address : Z) z st : dns_state D :=
  DNS_STATE (st_zones st) (<[address := z]> (st_objects st)) (st_dir st) (st_ready st).

Lemma on_server_run {A} address (m : RM (server D) A) st z e r s' e' : st_objects st !! address = Some z →
  m (SERVER z (st_dir st) (st_ready st)) e = Some (r, s', e') → srv_dir s' = st_dir st →
  on_server address m st e = Some (r, with_object address (srv_zone s') st, e').
Proof.
  intros Hz Hm Hd. unfold on_server. unfold rbind at 1, rget at 1. unfold rbind at 1, rlift at 1. rewrite Hz.
  unfold rbind at 1, run_on at 1. rewrite Hm. cbn [fst snd]. unfold rbind, rset. rewrite Hd. by destruct r.
Qed.

Lemma reply_fits h q rc rs rs' : rs ≡ₚ rs' → 3 * zlen (query_wire (reply h q 0 rs')) <= VMDNS_MAX_SIZE_BUFFER →
  3 * zlen (query_wire (reply h q rc rs)) <= VMDNS_MAX_SIZE_BUFFER.
Proof.
  intros Hp. rewrite !reply_wire_length. enough (length (concat (map (record_wire true ∘ copied) rs)) = length (concat (map (record_wire true ∘ copied) rs'))) by lia.
  apply Permutation_length. by rewrite Hp.
Qed.

Lemma answer_run x z q name h st e : servable st z q name h → st_ready st = true → st_objects st !! ref_address x = Some z →
  header_ok h → question_ok q → pszQName q = Some name → 3 * zlen (query_wire (reply h q 0 [])) <= VMDNS_MAX_SIZE_BUFFER → quiet e →
  ∃ rc rs z' e', answer_query inet_pton x q (reply_header h) (Some [q]) st e =
      Some (inr (inr (query_wire (reply h q rc rs)), rc, true), with_object (ref_address x) z' st, e') ∧
    answered st z name (uQType q) rc rs ∧ coherent (SERVER z' (st_dir st) true).
Proof.
  intros [Hlook Hna Hrec Hcnt Hsz] Hready Hx Hh Hq Hname Hsmall He.
  destruct (query_run inet_pton (SERVER z (st_dir st) true) name (uQType q) e Hlook eq_refl He Hna) as (r & b & s' & e1 & Hr & He1 & [Hc _ _ _ _] & Hd & Hrdy & _ & _ & Hres).
  unfold answer_query. unfold rbind at 1. rewrite Hname. rewrite <- Hready in Hr.
  rewrite (on_server_run (ref_address x) _ st z e _ s' e1 Hx Hr Hd). cbn [fst snd].
  set (st' := with_object _ _ _). cbn [srv_zone srv_dir] in *. fold (looked_up st z name) in Hres.
  assert (Hcoh : coherent (SERVER (srv_zone s') (st_dir st) true)) by (rewrite <- Hd, <- Hrdy; by destruct s').
  assert (Hmissing : ∀ rc, 0 <= rc < 16 → ∃ e', respond (message_of (set_rcode rc (reply_header h)) (Some [q]) None) true st' e1 =
    Some (inr (inr (query_wire (reply h q rc [])), rc, true), st', e')).
  { intros rc Hrc. destruct (respond_run h q rc [] true st' e1) as (e' & Hrun & _); [| | done | by exists e'].
    - apply reply_ok; [done | done | done | done | constructor].
    - by eapply reply_fits. }
  destruct r as [err | l].
  - destruct Hres as [[[-> Hempty] | Hfail] ->].
    2: { destruct (Hmissing VM_DNS_RCODE_SERVER_FAILURE ltac:(by vm_compute)) as (e' & Hrun). exists VM_DNS_RCODE_SERVER_FAILURE, [], (srv_zone s'), e'.
      rewrite bool_decide_eq_false_2 by apply Hfail. split; [exact Hrun |]. split; [| done]. right. split_and!; [done | done | by exists err]. }
    cbn [srv_zone srv_dir] in Hempty. fold (looked_up st z name) in Hempty. destruct (Hmissing (answer_code st z name)) as (e' & Hrun).
    { unfold answer_code. destruct (_ && _); by vm_compute. }
    exists (answer_code st z name), [], (srv_zone s'), e'. split; [| split; [left; split; [done |]; unfold answers; by rewrite Hempty | done]].
    rewrite bool_decide_eq_true_2 by done. refine (eq_trans _ Hrun). do 3 f_equal. unfold answer_code. rewrite Hempty. rewrite bool_decide_eq_true_2 by done.
    by destruct (cached _ z).
  - destruct Hres as (Hperm & Hne & ->). change (dir_answer _ _ _) with (answers st z name (uQType q)) in Hperm.
    assert (Hcode : answer_code st z name = 0) by (unfold answer_code; by rewrite bool_decide_eq_false_2). exists 0.
    unfold answered. rewrite Hcode.
    unfold VmDnsRecordListGetSize. assert (Hl : dwCurrentSize l = zlen (ppRecords l)) by done. rewrite Hl.
    destruct (ppRecords l) as [|r0 rs0] eqn:El.
    { destruct (Hmissing 0 ltac:(lia)) as (e' & Hrun). exists [], (srv_zone s'), e'. split; [exact Hrun |]. split; [by left | done]. }
    rewrite <- El in *. assert (ppRecords l ≠ []) as Hn by congruence.
    rewrite (proj2 (Z.eqb_neq _ _)) by (destruct (ppRecords l); [done | cbn; lia]).
    assert (Hall : Forall (λ r, copyable r ∧ record_ok true (copied r)) (ppRecords l)).
    { rewrite Hperm. unfold answers. rewrite Forall_forall in Hrec |- *. intros y [_ Hy]%list_elem_of_filter. by apply Hrec. }
    apply Forall_and in Hall as [Hcopy Hok]. assert (zlen (ppRecords l) < 2 ^ 16) as Hcl by (by rewrite Hperm).
    destruct (copy_list_run l st' e1 Hcopy Hn He1) as (e2 & Hcp & He2).
    destruct (respond_run h q 0 (ppRecords l) true st' e2) as (e3 & Hrun & _); [by apply reply_ok | by eapply reply_fits | done |].
    exists (ppRecords l), (srv_zone s'), e3. split; [| split; [by left | done]]. unfold rbind at 1, rtry at 1. rewrite Hcp. refine (eq_trans _ Hrun). f_equal.
    unfold reply, message_of, set_rcode, set_an, reply_header. cbn [codes usId QR opcode AA TC RD RA Z_bits usQDCount usANCount usNSCount usARCount].
    unfold u16. rewrite Z.mod_small by lia. by destruct (ppRecords l).
Qed.

Lemma supported_not_tkey t : VmDnsIsSupportedRecordType t = true → (t =? VMDNS_RR_MTYPE_TKEY) = false.
Proof. intros Ht. apply Z.eqb_neq. by intros ->. Qed.

(** The way of a plain question through the checks to the zone. *)
Lemma process_run m q name st e : question_request m q name → st_ready st = true → quiet e →
  ∃ r e1, longest_match name (st_zones st) r ∧ quiet e1 ∧
    VmDnsProcessQuery inet_pton tkey m st e =
    match r with
    | inl _ => respond (reply (pHeader m) q VM_DNS_RCODE_NAME_ERROR []) false st e1
    | inr x =>
        match st_objects st !! ref_address x with
        | Some z => if zoneId z =? VMDNS_ZONE_ID_FORWARDER then respond (reply (pHeader m) q VM_DNS_RCODE_NAME_ERROR []) false st e1
                    else answer_query inet_pton x q (reply_header (pHeader m)) (Some [q]) st e1
        | None => None
        end
    end.
Proof.
  intros [Hh (Hqr & Hop) [Hone Hqs] Hq [Hname Hne] Ht _] Hready He.
  destruct (copy_question_run q name st e Hname He) as (e1 & Hcp & He1).
  destruct (find_zone_run name (st_zones st) st e1 He1) as (r & e2 & Hf & He2 & Hm).
  exists r, e2. split; [done |]. split; [done |].
  unfold VmDnsProcessQuery. unfold rbind at 1, rget at 1. rewrite Hready. cbn [negb]. rewrite Hone.
  assert (set_qd 1 (VmDnsBuildResponseHeader (pHeader m)) = reply_header (pHeader m)) as ->.
  { unfold VmDnsBuildResponseHeader, reply_header, marked. rewrite Hqr, Hop. by destruct (_ || _). }
  rewrite Hqs. unfold rbind at 1, rtry at 1. rewrite Hcp. cbn [Z.eqb Pos.eqb negb]. unfold rbind at 1, rlift at 1. cbn [mbind option_bind lookup list_lookup].
  rewrite Ht. cbn [negb andb]. rewrite (supported_not_tkey _ Ht). unfold rbind at 1, rtry at 1. unfold VmDnsCacheFindZoneByQName. rewrite Hname.
  destruct name as [|c name]; [done |]. unfold rbind at 1, rget at 1. rewrite Hf. destruct r as [err | x].
  - destruct Hm as [-> _]. done.
  - unfold rbind at 1, rget at 1. unfold rbind at 1, rlift at 1. destruct (st_objects st !! ref_address x) as [z|]; [| done].
    by destruct (zoneId z =? VMDNS_ZONE_ID_FORWARDER).
Qed.

(** A question is answered from the zone with the longest matching name:
    the reply carries the identity of the request, the question and exactly the
    records of its type that the directory has there, in some order; the code is
    a name error when no zone matches, when the zone is forwarded, or when the
    name has no records and no entry in the cache, and success otherwise.  The
    directory is left alone and the cache of the zone agrees with it after. *)
Lemma query_answered m q name st e : question_request m q name → st_ready st = true → quiet e →
  (∀ x, Some x ∈ st_zones st → covers name x → ∃ z, st_objects st !! ref_address x = Some z ∧
     (zoneId z ≠ VMDNS_ZONE_ID_FORWARDER → servable st z q name (pHeader m))) →
  ∃ rc rs inzone st' e', VmDnsProcessQuery inet_pton tkey m st e =
      Some (inr (inr (query_wire (reply (pHeader m) q rc rs)), rc, inzone), st', e') ∧
    ((∀ y, Some y ∈ st_zones st → ¬ covers name y) ∧ rc = VM_DNS_RCODE_NAME_ERROR ∧ rs = [] ∧ inzone = false ∧ st' = st ∨
     ∃ x z, longest_match name (st_zones st) (inr x) ∧ st_objects st !! ref_address x = Some z ∧
       if zoneId z =? VMDNS_ZONE_ID_FORWARDER then rc = VM_DNS_RCODE_NAME_ERROR ∧ rs = [] ∧ inzone = false ∧ st' = st
       else answered st z name (uQType q) rc rs ∧ inzone = true ∧
         ∃ z', st' = with_object (ref_address x) z' st ∧ coherent (SERVER z' (st_dir st) true)).
Proof.
  intros Hrq Hready He Hzones. destruct (process_run m q name st e Hrq Hready He) as (r & e1 & Hm & He1 & ->).
  destruct Hrq as [Hh _ _ Hq [Hname _] _ Hsmall].
  assert (Hmissing : ∃ e', respond (reply (pHeader m) q VM_DNS_RCODE_NAME_ERROR []) false st e1 =
    Some (inr (inr (query_wire (reply (pHeader m) q VM_DNS_RCODE_NAME_ERROR [])), VM_DNS_RCODE_NAME_ERROR, false), st, e')).
  { destruct (respond_run (pHeader m) q VM_DNS_RCODE_NAME_ERROR [] false st e1) as (e' & Hrun & _); [| | done | by exists e'].
    - apply reply_ok; [done | done | done | done | constructor].
    - by eapply reply_fits. }
  destruct Hmissing as (e' & Hmissing). destruct r as [err | x].
  { eexists _, [], _, st, e'. split; [exact Hmissing |]. left. by destruct Hm. }
  destruct (Hzones x) as (z & Hz & Hserv); [by destruct Hm | by destruct Hm as (_ & ? & _) |]. rewrite Hz.
  destruct (Z.eqb_spec (zoneId z) VMDNS_ZONE_ID_FORWARDER) as [Ez | Ez].
  { eexists _, [], _, st, e'. split; [exact Hmissing |]. right. exists x, z. rewrite (proj2 (Z.eqb_eq _ _) Ez). done. }
  destruct (answer_run x z q name (pHeader m) st e1 (Hserv Ez) Hready Hz Hh Hq Hname Hsmall He1) as (rc & rs & z' & e2 & Hrun & Hperm & Hc).
  eexists rc, rs, _, _, e2. split; [exact Hrun |]. right. exists x, z. rewrite (proj2 (Z.eqb_neq _ _) Ez). split_and!; try done. by exists z'.
Qed.

End Answers.

(** ** A server *)

#[local] Existing Instances compare_bytes_ok mem_directory.

(** The zone [b.] with nothing in its cache, and a directory with the name
    [a.b.]. *)
Definition zone_b_name : list Z := [98; 46].
Definition host_ab : list Z := [97; 46; 98; 46].
Definition rec_ab (a : Z) : dns_record := DNS_RECORD (Some host_ab) VMDNS_RR_TYPE_A VMDNS_CLASS_IN 60 (D_A a).
Definition b_zone : zone_object :=
  ZONE_OBJECT zone_b_name VMDNS_ZONE_ID_PRIMARY (HASH_TABLE 2 (RESIZE_THRESHOLD 2) 0 (Some [[]; []])) (LRU_LIST [] 0 5 0 0) ∅ 7 false.
Definition b_state : dns_state mem_dir :=
  DNS_STATE [None; Some zone_b] {[ ref_address zone_b := b_zone ]} {[ host_ab := [rec_ab 1; rec_ab 2] ]} true.

Definition ab_question : dns_question := DNS_QUESTION (Some host_ab) VMDNS_RR_TYPE_A VMDNS_CLASS_IN.
Definition ab_request (qr rd : Z) : dns_message :=
  DNS_MESSAGE (DNS_HEADER 4660 (CODES qr VM_DNS_OPCODE_QUERY 0 0 rd 0 0 0) 1 0 0 0) (Some [ab_question]) None None None None.

(** No keys are negotiated. *)
Definition no_tkey (m r : dns_message) : RM (dns_state mem_dir) dns_message := rfail ERROR_NOT_SUPPORTED.

Lemma b_zone_coherent : coherent (SERVER b_zone (st_dir b_state) true).
Proof.
  split.
  - exists ∅. constructor; cbn [pNameEntries locked pLruList LruListHead dwCurrentCount entries next_entry b_zone srv_zone]; try done.
    + constructor; [| by rewrite map_size_empty | by vm_compute | left; by vm_compute].
      exists [[]; []]. split_and!; [done | | done]. split_and!; [done | done |].
      intros [|[|i]] c n Hi Hn; simplify_eq/=; by apply elem_of_nil in Hn.
    + constructor.
  - change (cells (srv_zone (SERVER b_zone (st_dir b_state) true))) with ([] : list name_entry). constructor.
Qed.

Lemma host_ab_ok : name_ok true host_ab.
Proof.
  split; [unfold host_ab; forall_list |]. split; [unfold host_ab; forall_list |]. split; [| by vm_compute].
  change (labels host_ab) with [[97]; [98]]. forall_list.
Qed.

Lemma rec_ab_ok a : 0 <= a < 2 ^ 32 → copyable (rec_ab a) ∧ record_ok true (copied (rec_ab a)).
Proof.
  intros Ha. split; [| split_and!; try done; apply host_ab_ok]. split_and!; try done. cbn. unfold host_ab. forall_list.
Qed.

Lemma ab_request_ok : question_request (ab_request 0 0) ab_question host_ab.
Proof.
  constructor; [| done | done | | done | done | by vm_compute].
  - constructor; [done | | done | done | done | done]. by constructor.
  - split; [apply host_ab_ok | done].
Qed.

Lemma b_zone_servable : servable no_pton b_state b_zone ab_question host_ab (pHeader (ab_request 0 0)).
Proof.
  constructor; [| repeat constructor; by vm_compute | | by vm_compute | by vm_compute].
  - constructor; [apply b_zone_coherent | done ..].
  - change (looked_up no_pton b_state b_zone host_ab) with [rec_ab 1; rec_ab 2]. repeat apply Forall_cons_2; [by apply rec_ab_ok .. | constructor].
Qed.

Lemma b_state_serves x : Some x ∈ st_zones b_state → covers host_ab x → ∃ z, st_objects b_state !! ref_address x = Some z ∧
  (zoneId z ≠ VMDNS_ZONE_ID_FORWARDER → servable no_pton b_state z ab_question host_ab (pHeader (ab_request 0 0))).
Proof.
  intros Hx _. apply elem_of_cons in Hx as [Hx | Hx]; [done |]. apply list_elem_of_singleton in Hx. injection Hx as ->.
  exists b_zone. split; [apply lookup_singleton_eq |]. intros _. apply b_zone_servable.
Qed.

(** The first bytes of a response. *)
Definition response_head (x : option ((dwerror + (dwerror + list Z) * Z * bool) * dns_state mem_dir * env)) : option (list Z) :=
  match x with Some (inr (inr bs, _, _), _, _) => Some (take 8 bs) | _ => None end.

(** A message that is itself a response is answered too, with the identity 0. *)
Example response_is_answered :
  response_head (VmDnsProcessQuery no_pton no_tkey (ab_request 1 0) b_state []) = Some [0; 0; 0; 0; 0; 1; 0; 2].
Proof. by vm_compute. Qed.

(** A client that asks for recursion gets the records without the mark that the
    answer is authoritative: "not implemented" is overwritten by success. *)
Example recursion_desired :
  response_head (VmDnsProcessQuery no_pton no_tkey (ab_request 0 1) b_state []) = Some [18; 52; 128; 0; 0; 1; 0; 2].
Proof. by vm_compute. Qed.
