(* ===== verification/DnsUpdate.v ===== *)
(** * DnsUpdate: the sections of an update and the dispatch of requests

    [vmdns/server/common/dnsprotocol.c]: the zone section, the prerequisites, the
    scan of the update section and its execution record by record, the response,
    and [VmDnsProcessRequest] over parsing and answering.  The check of the
    signature and the signing of the response ([securityutils.c]) are
    parameters. *)

From S2P Require Import Prelude Heap Effects DnsBuffer DnsName DnsRecord DnsRecordOps DnsHashTable DnsRecordList DnsZone DnsZoneList DnsService DnsMessage DnsProtocol.
From stdpp Require Import gmap.

Open Scope Z_scope.

Definition set_up_counts (zo pr up : Z) (h : dns_header) : dns_header := DNS_HEADER (usId h) (codes h) zo pr up (usARCount h).
Definition up_set_rcode (rc : Z) (m : update_message) : update_message :=
  UPDATE_MESSAGE (set_rcode rc (up_pHeader m)) (pZone m) (pPrerequisite m) (pUpdate m) (up_pAdditional m) (up_pRawDnsMessage m).

Section Update.
Context `{StringCompare} {D : Type} `{Directory D}.
Variable inet_pton : Z → list Z → bool.

Abbreviation PM := (RM (dns_state D)).

Definition VmDnsCopyZone (z : option update_zone) : PM update_zone :=
  match z with
  | None => rfail ERROR_INVALID_PARAMETER
  | Some z =>
      VmDnsAllocateMemory 16 ;;;
      name <- match zone_pszName z with Some s => rret s | None => rfail ERROR_INVALID_PARAMETER end ;;
      VmDnsAllocateStringA (name ++ [0]) ;;;
      rret (UPDATE_ZONE (Some name) (uType z) (uClass z))
  end.

(** ** The zone section *)

(** The code of the response, and the zone when there is one. *)
Definition VmDnsProcessUpdateZone (z : update_zone) : PM (Z * option zone_ref) :=
  if negb (uType z =? VMDNS_RR_TYPE_SOA) then rret (VM_DNS_RCODE_FORMAT_ERROR, None)
  else
    x <- rtry (VmDnsSrvFindZone (zone_pszName z)) ;;
    match x with
    | inl err => if bool_decide (err = ERROR_NOT_FOUND) then rret (VM_DNS_RCODE_NOTAUTH, None) else rfail err
    | inr x => rret (VM_DNS_RCODE_NOERROR, Some x)
    end.

(** ** Prerequisites *)

(** The records of a name, none when the lookup does not find it. *)
Definition lookup_records (x : zone_ref) (name : dns_string) (t : Z) : PM (option record_list) :=
  a <- on_server (ref_address x) (VmDnsSrvQueryRecords inet_pton name t) ;;
  match a.1 with
  | inl err => if bool_decide (err = ERROR_NOT_FOUND) then rret None else rfail err
  | inr l => rret (Some l)
  end.
Definition some_records (l : option record_list) : bool :=
  match l with Some l => negb (VmDnsRecordListGetSize l =? 0) | None => false end.

Definition rdata_length (r : dns_record) : PM Z := x <- run_on (out_buffer false) (VmDnsGetRDataLength r false) ;; bail x.1.

(** A prerequisite of class ANY or NONE: the code that ends the section, if any. *)
Definition check_any (x : zone_ref) (r : dns_record) : PM (option Z) :=
  n <- rdata_length r ;;
  if negb (n =? 0) then rret (Some VM_DNS_RCODE_FORMAT_ERROR)
  else l <- lookup_records x (pszName r) (dwType r) ;; rret (if some_records l then None else Some VM_DNS_RCODE_NXRRSET).
Definition check_none (x : zone_ref) (r : dns_record) : PM (option Z) :=
  n <- rdata_length r ;;
  if negb (n =? 0) then rret (Some VM_DNS_RCODE_FORMAT_ERROR)
  else
    l <- lookup_records x (pszName r) (dwType r) ;;
    rret (if some_records l then Some (if dwType r =? VMDNS_RR_QTYPE_ANY then VM_DNS_RCODE_YXDOMAIN else VM_DNS_RCODE_YXRRSET) else None).

(** The first loop.  Records of the class of the zone are collected; the list
    takes over the records of the message, which is the last component: they
    are freed with it. *)
Fixpoint pre_loop (zclass : Z) (x : zone_ref) (rs : list dns_record) (tmp : record_list) (taken : bool)
  : PM ((dwerror + (Z + record_list)) * bool) :=
  match rs with
  | [] => rret (inr (inr tmp), taken)
  | r :: rs =>
      if negb (VmDnsIsSupportedRecordType (dwType r)) then pre_loop zclass x rs tmp taken
      else if negb (dwTtl r =? 0) then rret (inr (inl VM_DNS_RCODE_FORMAT_ERROR), taken)
      else
        let checked (m : PM (option Z)) :=
          v <- rtry m ;;
          match v with
          | inl err => rret (inl err, taken)
          | inr (Some rc) => rret (inr (inl rc), taken)
          | inr None => pre_loop zclass x rs tmp taken
          end in
        if iClass r =? VMDNS_CLASS_ANY then checked (check_any x r)
        else if iClass r =? VMDNS_CLASS_NONE then checked (check_none x r)
        else if iClass r =? zclass then
          o <- rtry (VmDnsAllocateMemory 16) ;;
          match o with
          | inl err => rret (inl err, taken)
          | inr _ =>
              a <- rtry (build_list tmp (VmDnsRecordListAdd r)) ;;
              match a with
              | inl err => rret (inl err, true)
              | inr tmp => pre_loop zclass x rs tmp true
              end
          end
        else rret (inr (inl VM_DNS_RCODE_FORMAT_ERROR), taken)
  end.

(** The second loop: [!pRecordList || VmDnsRecordListGetSize(pRecordList)]. *)
Fixpoint value_loop (x : zone_ref) (rs : list dns_record) : PM Z :=
  match rs with
  | [] => rret VM_DNS_RCODE_NOERROR
  | r :: rs =>
      l <- lookup_records x (pszName r) (dwType r) ;;
      match l with
      | None => rret VM_DNS_RCODE_NXRRSET
      | Some l => if VmDnsRecordListGetSize l =? 0 then value_loop x rs else rret VM_DNS_RCODE_NXRRSET
      end
  end.

Definition VmDnsProcessUpdatePrerequisites (rs : list dns_record) (z : update_zone) (x : zone_ref) : PM ((dwerror + Z) * bool) :=
  c <- rtry VmDnsRecordListCreate ;;
  match c with
  | inl err => rret (inl err, false)
  | inr tmp =>
      p <- pre_loop (uClass z) x rs tmp false ;;
      match p.1 with
      | inl err => rret (inl err, p.2)
      | inr (inl rc) => rret (inr rc, p.2)
      | inr (inr tmp) => v <- rtry (value_loop x (ppRecords tmp)) ;; rret (v, p.2)
      end
  end.

(** ** The scan of the update section *)

Definition both_kinds (r : dns_record) : bool := VmDnsIsRecordQType (dwType r) && VmDnsIsRecordMType (dwType r).

Fixpoint VmDnsProcessUpdatePrescan (zclass : Z) (rs : list dns_record) : PM Z :=
  match rs with
  | [] => rret VM_DNS_RCODE_NOERROR
  | r :: rs =>
      if negb (VmDnsIsSupportedRecordType (dwType r)) then VmDnsProcessUpdatePrescan zclass rs
      else if iClass r =? zclass then
        if both_kinds r then rret VM_DNS_RCODE_FORMAT_ERROR else VmDnsProcessUpdatePrescan zclass rs
      else if iClass r =? VMDNS_CLASS_ANY then
        n <- rdata_length r ;;
        if (negb (dwTtl r =? 0) && negb (n =? 0)) || both_kinds r then rret VM_DNS_RCODE_FORMAT_ERROR else VmDnsProcessUpdatePrescan zclass rs
      else if iClass r =? VMDNS_CLASS_NONE then
        if negb (dwTtl r =? 0) || both_kinds r then rret VM_DNS_RCODE_FORMAT_ERROR else VmDnsProcessUpdatePrescan zclass rs
      else rret VM_DNS_RCODE_FORMAT_ERROR
  end.

(** ** The execution of the update section *)

Abbreviation on_ref x := (on_server (ref_address x)).

(** [for (dwIndex2 = 0; dwIndex2 < dwSize; ++dwIndex2)] over the records of the
    name and type: the record that is looked at is the one at [dwIndex], the
    index of the update.  It is replaced when it is equal, and always for the
    types there is one of; the answer says whether it was. *)
Fixpoint replace_equal (x : zone_ref) (count : nat) (l : record_list) (dwIndex : Z) (r : dns_record) : PM bool :=
  match count with
  | O => rret false
  | S count =>
      old <- rlift (VmDnsRecordListGetRecord l dwIndex) ;;
      same <- (if (dwType r =? VMDNS_RR_TYPE_CNAME) || (dwType r =? VMDNS_RR_TYPE_SOA) then rret true else rlift (VmDnsCompareRecord r old)) ;;
      if (same : bool) then on_ref x (VmDnsSrvUpdateRecord inet_pton old r) ;;; rret true else replace_equal x count l dwIndex r
  end.

(** An addition: the code that ends the section, if any. *)
Definition commit_add (x : zone_ref) (dwIndex : Z) (r : dns_record) : PM (option Z) :=
  skip <- (if dwType r =? VMDNS_RR_TYPE_CNAME then
             l <- lookup_records x (pszName r) VMDNS_RR_QTYPE_ANY ;;
             match l with
             | Some l =>
                 if VmDnsRecordListGetSize l =? 0 then rret false
                 else o <- on_ref x (VmDnsSrvGetInverseRRTypeRecordList l VMDNS_RR_TYPE_CNAME) ;; rret (negb (VmDnsRecordListGetSize o =? 0))
             | None => rret false
             end
           else l <- lookup_records x (pszName r) VMDNS_RR_TYPE_CNAME ;; rret (some_records l)) ;;
  if (skip : bool) then rret None
  else
    let finish :=
      l <- lookup_records x (pszName r) (dwType r) ;;
      done <- match l with
              | Some l => if VmDnsRecordListGetSize l =? 0 then rret false else replace_equal x (length (ppRecords l)) l dwIndex r
              | None => rret false
              end ;;
      if (done : bool) then rret None else on_ref x (VmDnsSrvAddRecord inet_pton r) ;;; rret None in
    if dwType r =? VMDNS_RR_TYPE_SOA then
      l <- lookup_records x (pszName r) VMDNS_RR_TYPE_SOA ;;
      match l with
      | None => rret None
      | Some l =>
          if VmDnsRecordListGetSize l =? 0 then rret None
          else if VmDnsRecordListGetSize l =? 1 then
            old <- rlift (VmDnsRecordListGetRecord l 0) ;;
            match Data old, Data r with
            | D_SOA o, D_SOA n => if dwSerialNo o >? dwSerialNo n then rret None else finish
            | _, _ => rub
            end
          else rret (Some VM_DNS_RCODE_SERVER_FAILURE)
      end
    else finish.

(** All records of the name, at the apex of the zone: what is deleted is the
    whole list, twice, when there is more than the SOA record and more than NS
    records. *)
Definition delete_apex (x : zone_ref) (l : record_list) : PM unit :=
  o <- on_ref x (VmDnsSrvGetInverseRRTypeRecordList l VMDNS_RR_TYPE_SOA) ;;
  (if VmDnsRecordListGetSize o =? 0 then rret tt else on_ref x (VmDnsSrvDeleteRecords (ppRecords l))) ;;;
  o <- on_ref x (VmDnsSrvGetInverseRRTypeRecordList l VMDNS_RR_TYPE_NS) ;;
  if VmDnsRecordListGetSize o =? 0 then rret tt else on_ref x (VmDnsSrvDeleteRecords (ppRecords l)).

Definition commit_any (x : zone_ref) (zname : dns_string) (r : dns_record) : PM unit :=
  let apex := VmDnsStringCompareA (pszName r) zname false =? 0 in
  let all t k := l <- lookup_records x (pszName r) t ;; match l with Some l => if VmDnsRecordListGetSize l =? 0 then rret tt else k l | None => rret tt end in
  if dwType r =? VMDNS_RR_QTYPE_ANY then
    if apex then all VMDNS_RR_QTYPE_ANY (delete_apex x) else all VMDNS_RR_QTYPE_ANY (λ l, on_ref x (VmDnsSrvDeleteRecords (ppRecords l)))
  else if apex && ((dwType r =? VMDNS_RR_TYPE_SOA) || (dwType r =? VMDNS_RR_TYPE_NS)) then rret tt
  else all (dwType r) (λ l, on_ref x (VmDnsSrvDeleteRecords (ppRecords l))).

(** Every record that is equal has the record of the update deleted once. *)
Fixpoint delete_equal (x : zone_ref) (rs : list dns_record) (r : dns_record) : PM unit :=
  match rs with
  | [] => rret tt
  | o :: rs =>
      same <- rlift (VmDnsCompareRecord r o) ;;
      (if (same : bool) then on_ref x (VmDnsSrvDeleteRecord r) else rret tt) ;;;
      delete_equal x rs r
  end.

Definition commit_none (x : zone_ref) (r : dns_record) : PM unit :=
  if dwType r =? VMDNS_RR_TYPE_SOA then rret tt
  else
    l <- lookup_records x (pszName r) (dwType r) ;;
    match l with
    | Some l =>
        if (VmDnsRecordListGetSize l =? 0) || ((dwType r =? VMDNS_RR_TYPE_NS) && (VmDnsRecordListGetSize l =? 1)) then rret tt
        else delete_equal x (ppRecords l) r
    | None => rret tt
    end.

Fixpoint VmDnsProcessUpdateCommit (z : update_zone) (x : zone_ref) (dwIndex : Z) (rs : list dns_record) : PM Z :=
  match rs with
  | [] => rret VM_DNS_RCODE_NOERROR
  | r :: rs =>
      let next := VmDnsProcessUpdateCommit z x (dwIndex + 1) rs in
      if negb (VmDnsIsSupportedRecordType (dwType r)) then next
      else if iClass r =? uClass z then
        c <- commit_add x dwIndex r ;;
        match c with Some rc => rret rc | None => next end
      else if iClass r =? VMDNS_CLASS_ANY then commit_any x (zone_pszName z) r ;;; next
      else if iClass r =? VMDNS_CLASS_NONE then commit_none x r ;;; next
      else next
  end.

(** ** Updates *)

(** The context of the signature, the check of the update against it and the
    signature of the response. *)
Context {GssCtx : Type}.
Variable VmDnsSecCheckUpdatePermissions : update_message → update_message → PM (update_message * GssCtx * bool).
Variable VmDnsSecSignUpdateMessage : GssCtx → update_message → PM update_message.

(** The response, its code, and whether the update was in a zone; and whether
    the records of the prerequisites are freed already. *)
Definition up_respond (m : update_message) (bUpdateInZone taken : bool) : PM ((dwerror + list Z) * Z * bool * bool) :=
  r <- rtry (VmDnsGetUpdateResponse m) ;;
  rret (r, RCODE (codes (up_pHeader m)), bUpdateInZone, taken).

(** The update section, once the update is permitted: the response to send. *)
Definition run_update (m : update_message) (z : update_zone) (x : zone_ref) (resp : update_message) (ctx : GssCtx) : PM update_message :=
  let sign resp := r <- rtry (VmDnsSecSignUpdateMessage ctx resp) ;; rret (match r with inr resp => resp | inl _ => up_set_rcode VM_DNS_RCODE_SERVER_FAILURE resp end) in
  match pUpdate m with
  | Some rs =>
      let rs := take (Z.to_nat (usUPCount (up_pHeader m))) rs in
      if usUPCount (up_pHeader m) =? 0 then sign resp
      else
        r <- rtry (rc <- VmDnsProcessUpdatePrescan (uClass z) rs ;;
                   if negb (rc =? VM_DNS_RCODE_NOERROR) then rret rc else VmDnsProcessUpdateCommit z x 0 rs) ;;
        match r with
        | inl _ => rret (up_set_rcode VM_DNS_RCODE_SERVER_FAILURE resp)
        | inr rc => if rc =? VM_DNS_RCODE_NOERROR then sign (up_set_rcode rc resp) else rret (up_set_rcode rc resp)
        end
  | None => sign resp
  end.

Definition VmDnsProcessUpdate (m : update_message) : PM ((dwerror + list Z) * Z * bool * bool) :=
  s <- rget ;;
  if negb (st_ready s) then
    r <- rtry (VmDnsAllocateBufferStream 0 ;;; rfail ERROR_INVALID_PARAMETER) ;;
    rret (r, VM_DNS_RCODE_SERVER_FAILURE, false, false)
  else
    let req := up_pHeader m in
    let h := set_up_counts (usZOCount req) (usPRCount req) (usUPCount req) (VmDnsBuildResponseHeader req) in
    let resp z pr up := UPDATE_MESSAGE h z pr up None None in
    let failed z pr up := up_respond (up_set_rcode VM_DNS_RCODE_SERVER_FAILURE (resp z pr up)) false false in
    z' <- rtry (VmDnsCopyZone (pZone m)) ;;
    match z' with
    | inl _ => failed None None None
    | inr z' =>
        pr <- rtry (VmDnsCopyRecords (pPrerequisite m) (usPRCount req)) ;;
        match pr with
        | inl _ => failed (Some z') None None
        | inr pr =>
            up <- rtry (VmDnsCopyRecords (pUpdate m) (usUPCount req)) ;;
            match up with
            | inl _ => failed (Some z') pr None
            | inr up =>
                let resp := resp (Some z') pr up in
                match pZone m with
                | None => up_respond (up_set_rcode VM_DNS_RCODE_FORMAT_ERROR resp) false false
                | Some z =>
                    if negb (usZOCount req =? 1) then up_respond (up_set_rcode VM_DNS_RCODE_FORMAT_ERROR resp) false false
                    else
                      zr <- rtry (VmDnsProcessUpdateZone z) ;;
                      match zr with
                      | inl _ => failed (Some z') pr up
                      | inr (rc, None) => up_respond (up_set_rcode rc resp) false false
                      | inr (rc, Some x) =>
                          p <- match pPrerequisite m with
                               | Some rs =>
                                   if usPRCount req =? 0 then rret (inr rc, false)
                                   else VmDnsProcessUpdatePrerequisites (take (Z.to_nat (usPRCount req)) rs) z x
                               | None => rret (inr rc, false)
                               end ;;
                          match p.1 with
                          | inl _ => up_respond (up_set_rcode VM_DNS_RCODE_SERVER_FAILURE resp) true p.2
                          | inr rc =>
                              let resp := up_set_rcode rc resp in
                              if negb (rc =? VM_DNS_RCODE_NOERROR) then up_respond resp true p.2
                              else
                                c <- rtry (VmDnsSecCheckUpdatePermissions m resp) ;;
                                match c with
                                | inl _ => up_respond (up_set_rcode VM_DNS_RCODE_SERVER_FAILURE resp) true p.2
                                | inr (resp, ctx, false) => up_respond resp true p.2
                                | inr (resp, ctx, true) => resp <- run_update m z x resp ctx ;; up_respond resp true p.2
                                end
                          end
                      end
                end
            end
        end
    end.

(** ** Requests *)

Variable VmDnsSecProcessTkeyQuery : dns_message → dns_message → PM dns_message.

(** The response if there is one, its code, and whether the message was in a
    zone.  Of an update that took over the records of its prerequisites the
    message is freed once more. *)
Definition VmDnsProcessRequest (pDnsRequest : list Z) : PM (option (list Z) * Z * bool * bool) :=
  r <- parse_request inet_pton pDnsRequest ;;
  match r with
  | R_QUERY m =>
      x <- VmDnsProcessQuery inet_pton VmDnsSecProcessTkeyQuery m ;;
      bs <- bail x.1.1 ;; rret (Some bs, x.1.2, x.2, false)
  | R_UPDATE m =>
      x <- VmDnsProcessUpdate m ;;
      if x.2 : bool then rub else bs <- bail x.1.1.1 ;; rret (Some bs, x.1.1.2, false, x.1.2)
  | R_OTHER => rret (None, 0, false, false)
  end.

End Update.

(** ** The scan *)

(** What the scan lets pass: types it does not support, additions, deletions of
    record sets with no time to live or no data, and deletions of records with
    no time to live. *)
Definition acceptable (zclass : Z) (r : dns_record) : bool :=
  negb (VmDnsIsSupportedRecordType (dwType r)) ||
  (if iClass r =? zclass then true
   else if iClass r =? VMDNS_CLASS_ANY then (dwTtl r =? 0) || (u16 (data_len false (Data r)) =? 0)
   else (iClass r =? VMDNS_CLASS_NONE) && (dwTtl r =? 0)).

Section UpdateLaws.
Context `{StringCompare} {D : Type} `{Directory D}.
Variable inet_pton : Z → list Z → bool.
Implicit Types (st : dns_state D) (s : server D).

(** No type is of both kinds: the test for them never holds. *)
Lemma both_kinds_never r : both_kinds r = false.
Proof.
  unfold both_kinds, VmDnsIsRecordQType, VmDnsIsRecordMType. destruct (Z.eqb_spec (dwType r) VMDNS_RR_MTYPE_OPT) as [-> | H1]; [done |].
  destruct (Z.eqb_spec (dwType r) VMDNS_RR_MTYPE_TKEY) as [-> | H2]; [done |].
  destruct (Z.eqb_spec (dwType r) VMDNS_RR_MTYPE_TSIG) as [-> | H3]; [done |]. apply andb_false_r.
Qed.

Lemma u16_add2 a b c : u16 (u16 a + u16 b + c) = u16 (a + b + c).
Proof. unfold u16. rewrite <- Z.add_mod_idemp_l, <- Z.add_mod by lia. by rewrite Z.add_mod_idemp_l by lia. Qed.

Lemma u16_add1 a c : u16 (u16 a + c) = u16 (a + c).
Proof. unfold u16. by rewrite Z.add_mod_idemp_l by lia. Qed.

Lemma rdata_length_run r st e : record_ok true r → VmDnsIsSupportedRecordType (dwType r) = true →
  rdata_length r st e = Some (inr (u16 (data_len false (Data r))), st, e).
Proof.
  intros (_ & _ & _ & _ & Hm & (Hf & _)) Ht. unfold rdata_length, rbind, run_on, VmDnsGetRDataLength. rewrite Hm.
  destruct (Data r) as [x | x | [x|] | [x|] | [x|] | x | x | x | x |]; cbn [data_methods fields_ok some_name] in *; try done.
  - unfold VmDnsSoaGetRDataLength, rbind, rret. cbn [data_len]. destruct (pNamePrimaryServer x) as [p|]; [| by destruct Hf]. destruct (pNameAdministrator x) as [a|]; [| by destruct Hf as (_ & ? & _)].
    refine (f_equal (λ v, Some (inr v, st, e)) _). transitivity (u16 (u16 (zlen p) + u16 (zlen a) + 20)); [f_equal; lia | apply u16_add2].
  - unfold VmDnsSrvGetRDataLength, rbind, rret. cbn [data_len]. destruct (pNameTarget x) as [p|]; [| by destruct Hf].
    refine (f_equal (λ v, Some (inr v, st, e)) _). transitivity (u16 (u16 (zlen p) + 6)); [f_equal; lia | apply u16_add1].
  - exfalso. clear -Hm Ht. unfold VmDnsIsSupportedRecordType in Ht. repeat (apply orb_true_iff in Ht as [Ht | Ht]); apply Z.eqb_eq in Ht; rewrite Ht in Hm; done.
  - exfalso. clear -Hm Ht. unfold VmDnsIsSupportedRecordType in Ht. repeat (apply orb_true_iff in Ht as [Ht | Ht]); apply Z.eqb_eq in Ht; rewrite Ht in Hm; done.
Qed.

(** The scan of the update section reads nothing but the message, changes
    nothing, and ends with success exactly when every record of a supported type
    is an addition in the class of the zone, a deletion of a record set whose
    time to live or data length is zero, or a deletion of a record with time to
    live zero; with a format error otherwise. *)
Theorem prescan_exact zclass rs st e : Forall (record_ok true) rs →
  VmDnsProcessUpdatePrescan zclass rs st e =
  Some (inr (if forallb (acceptable zclass) rs then VM_DNS_RCODE_NOERROR else VM_DNS_RCODE_FORMAT_ERROR), st, e).
Proof.
  induction 1 as [|r rs Hr _ IH]; [done |]. cbn [VmDnsProcessUpdatePrescan forallb]. unfold acceptable at 1.
  destruct (VmDnsIsSupportedRecordType (dwType r)) eqn:Ht; cbn [negb orb]; [| exact IH]. rewrite both_kinds_never.
  destruct (iClass r =? zclass); [exact IH |]. destruct (iClass r =? VMDNS_CLASS_ANY).
  - unfold rbind. rewrite rdata_length_run by done. rewrite orb_false_r.
    destruct (dwTtl r =? 0); [exact IH |]. destruct (u16 (data_len false (Data r)) =? 0); [exact IH | done].
  - destruct (iClass r =? VMDNS_CLASS_NONE); [| done]. rewrite orb_false_r. destruct (dwTtl r =? 0); [exact IH | done].
Qed.

(** ** An addition *)

Lemma on_server_step {A} address (m : RM (server D) A) st z e r s' e' : st_objects st !! address = Some z →
  m (SERVER z (st_dir st) (st_ready st)) e = Some (r, s', e') →
  on_server address m st e = Some (r, DNS_STATE (st_zones st) (<[address := srv_zone s']> (st_objects st)) (srv_dir s') (st_ready st), e').
Proof.
  intros Hz Hm. unfold on_server. unfold rbind at 1, rget at 1. unfold rbind at 1, rlift at 1. rewrite Hz.
  unfold rbind at 1, run_on at 1. rewrite Hm. cbn [fst snd]. unfold rbind, rset. by destruct r.
Qed.

(** A zone of a server whose cache agrees with the directory, ready for lookups
    of a name without an alias, which the cache has in no other spelling. *)
Record zone_ready st (x : zone_ref) z (name : list Z) : Prop := {
  zr_ready : st_ready st = true;
  zr_object : st_objects st !! ref_address x = Some z;
  zr_lookup : lookup_ok inet_pton (SERVER z (st_dir st) true) name;
  zr_alias : no_alias (looked_up inet_pton st z name);
  zr_spelling : one_spelling (fqdn inet_pton name (zone_name z)) z }.

Lemma lookup_step st x z name t e : zone_ready st x z name → quiet e →
  ∃ l z' e', lookup_records inet_pton x (Some name) t st e = Some (l, with_object (ref_address x) z' st, e') ∧ quiet e' ∧
    zone_ready (with_object (ref_address x) z' st) x z' name ∧ zone_name z' = zone_name z ∧
    match l with
    | inr (Some l) => ppRecords l ≡ₚ answers inet_pton st z name t
    | inr None => looked_up inet_pton st z name = []
    | inl err => dir_fails (st_dir st) (zone_name z) (fqdn inet_pton name (zone_name z)) err
    end.
Proof.
  intros [Hready Hx Hlook Hna Hsp] He.
  destruct (query_run inet_pton (SERVER z (st_dir st) true) name t e Hlook eq_refl He Hna) as (r & b & s' & e1 & Hr & He1 & Hl & Hd & Hy & Hz & Hsp' & Hres).
  rewrite <- Hready in Hr. cbn [srv_dir srv_zone] in *. unfold lookup_records, rbind. rewrite (on_server_run (ref_address x) _ st z e _ s' e1 Hx Hr Hd). cbn [fst].
  assert (Hzr : zone_ready (with_object (ref_address x) (srv_zone s') st) x (srv_zone s') name).
  { constructor; [done | by apply lookup_insert_eq | | unfold looked_up; by rewrite Hz | rewrite Hz; by apply Hsp']. destruct s' as [z' d y]. cbn in Hd, Hy |- *. by rewrite Hd, Hy in Hl. }
  destruct r as [err | l].
  - destruct Hres as [[[-> Hempty] | Hfail] _]; [exists (inr None), (srv_zone s'), e1; by rewrite bool_decide_eq_true_2 |].
    exists (inl err), (srv_zone s'), e1. by rewrite bool_decide_eq_false_2 by apply Hfail.
  - destruct Hres as (Hperm & _ & _). by exists (inr (Some l)), (srv_zone s'), e1.
Qed.

Lemma no_alias_records rs : no_alias rs → filter (λ r, type_matches VMDNS_RR_TYPE_CNAME r) rs = [].
Proof.
  induction 1 as [|r rs Hr _ IH]; [done |]. rewrite filter_cons_False; [done |]. unfold type_matches.
  rewrite (proj2 (Z.eqb_neq _ _) Hr). vm_compute. tauto.
Qed.

Lemma replace_nothing x count l r st e : (0 < length (ppRecords l))%nat → dwType r ≠ VMDNS_RR_TYPE_CNAME → dwType r ≠ VMDNS_RR_TYPE_SOA →
  Forall (λ o, VmDnsCompareRecord r o = Some false) (ppRecords l) → replace_equal inet_pton x count l 0 r st e = Some (inr false, st, e).
Proof.
  intros Hl Hc Hs Hall. induction count as [|count IH]; [done |]. cbn [replace_equal]. unfold rbind at 1, rlift at 1, VmDnsRecordListGetRecord.
  destruct (ppRecords l) as [|o rs]; [cbn in Hl; lia |]. change ((o :: rs) !! Z.to_nat 0) with (Some o).
  rewrite (proj2 (Z.eqb_neq _ _) Hc), (proj2 (Z.eqb_neq _ _) Hs). cbn [orb]. unfold rbind at 1, rlift at 1.
  rewrite (Forall_inv Hall). exact IH.
Qed.

(** The first record of an update adds to the records of its name. *)
Lemma commit_add_run st x z r name e : zone_ready st x z name → quiet e → pszName r = Some name →
  fqdn inet_pton name (zone_name z) = name → dwType r ≠ VMDNS_RR_TYPE_CNAME → dwType r ≠ VMDNS_RR_TYPE_SOA →
  Forall (λ o, VmDnsCompareRecord r o = Some false) (answers inet_pton st z name (dwType r)) →
  ∃ z' e', quiet e' ∧ zone_name z' = zone_name z ∧ zone_ready (with_object (ref_address x) z' st) x z' name ∧
    ((∃ err, commit_add inet_pton x 0 r st e = Some (inl err, with_object (ref_address x) z' st, e')) ∨
     commit_add inet_pton x 0 r st e =
     (on_server (ref_address x) (VmDnsSrvAddRecord inet_pton r) ;;; rret None) (with_object (ref_address x) z' st) e').
Proof.
  intros Hzr He Hname Hfq Hc Hs Hall. unfold commit_add. rewrite (proj2 (Z.eqb_neq _ _) Hc), (proj2 (Z.eqb_neq _ _) Hs), Hname.
  destruct (lookup_step st x z name VMDNS_RR_TYPE_CNAME e Hzr He) as (l1 & z1 & e1 & Hr1 & He1 & Hzr1 & Hz1 & Hl1).
  destruct l1 as [err | l1]; [exists z1, e1; split_and!; try done; left; exists err; unfold rbind at 1, rbind at 1; by rewrite Hr1 |].
  assert (some_records l1 = false) as Hnone.
  { destruct l1 as [l1|]; [| done]. unfold answers in Hl1. rewrite no_alias_records in Hl1 by apply Hzr. apply Permutation_nil_r in Hl1.
    cbn. unfold VmDnsRecordListGetSize, dwCurrentSize. by rewrite Hl1. }
  destruct (lookup_step _ x z1 name (dwType r) e1 Hzr1 He1) as (l2 & z2 & e2 & Hr2 & He2 & Hzr2 & Hz2 & Hl2).
  assert (answers inet_pton (with_object (ref_address x) z1 st) z1 name (dwType r) = answers inet_pton st z name (dwType r)) as Hans
    by (unfold answers, looked_up; by rewrite Hz1).
  set (st2 := with_object (ref_address x) z2 (with_object (ref_address x) z1 st)) in *.
  assert (st2 = with_object (ref_address x) z2 st) as Est by (unfold st2, with_object; cbn; by rewrite insert_insert_eq).
  exists z2, e2. rewrite Est in *. split; [done |]. split; [congruence |]. split; [done |].
  destruct l2 as [err | l2].
  { left. exists err. unfold rbind at 1, rbind at 1. rewrite Hr1. unfold rret at 1. rewrite Hnone. unfold rbind at 1. by rewrite Hr2. }
  right. unfold rbind at 1, rbind at 1. rewrite Hr1. unfold rret at 1. rewrite Hnone. unfold rbind at 1. rewrite Hr2.
  assert (Hrep : (match l2 with
    | Some l => if VmDnsRecordListGetSize l =? 0 then rret false else replace_equal inet_pton x (length (ppRecords l)) l 0 r
    | None => rret false
    end) (with_object (ref_address x) z2 st) e2 = Some (inr false, with_object (ref_address x) z2 st, e2)).
  { destruct l2 as [l2|]; [| done]. rewrite Hans in Hl2. unfold VmDnsRecordListGetSize, dwCurrentSize.
    destruct (ppRecords l2) as [|o rs] eqn:El; [done |]. rewrite (proj2 (Z.eqb_neq _ _)) by (cbn; lia).
    apply replace_nothing; [rewrite El; cbn; lia | done | done |]. by rewrite El, Hl2. }
  unfold rbind at 1. rewrite Hrep. done.
Qed.

(** C31: an update with one addition is carried out: with success the directory
    has the record beside the others of the name, with an error it has what it
    had; every other name is left alone and the cache of the zone agrees with
    the directory afterwards.  The record has a supported type other than CNAME
    and SOA, the class of the zone and a fully qualified name, which has no
    alias and no record that compares equal (an equal record is replaced, by a
    deletion and an addition, and can be lost, [update_uncached]); the cache
    agrees with the directory before, has the name or room for it, and has it in
    no other spelling; the zone's own name is written as the zone writes it, can be
    read, and is not shorter than the suffix it is compared with.  Of several
    additions the second one reads behind the list ([second_update_index]). *)
Theorem commit_addition st x z r name zo e : zone_ready st x z name → quiet e → pszName r = Some name →
  iClass r = uClass zo → VmDnsIsSupportedRecordType (dwType r) = true → dwType r ≠ VMDNS_RR_TYPE_CNAME → dwType r ≠ VMDNS_RR_TYPE_SOA →
  fqdn inet_pton name (zone_name z) = name → (map lower name = map lower (zone_name z) → name = zone_name z ∧ ∀ d err, ¬ dir_fails d name name err) →
  zlen (dir_records (st_dir st) (zone_name z) name) < 2 ^ 31 - 1 → VmDnsIsReverseZoneName (zone_name z) ≠ None →
  Forall (λ o, VmDnsCompareRecord r o = Some false) (answers inet_pton st z name (dwType r)) →
  ∃ rc st' z' e', VmDnsProcessUpdateCommit inet_pton zo x 0 [r] st e = Some (rc, st', e') ∧
    st_objects st' !! ref_address x = Some z' ∧ coherent (SERVER z' (st_dir st') true) ∧
    (∀ n, map lower n ≠ map lower name → dir_records (st_dir st') (zone_name z) n = dir_records (st_dir st) (zone_name z) n) ∧
    match rc with
    | inr c => c = VM_DNS_RCODE_NOERROR ∧ dir_records (st_dir st') (zone_name z) name ≡ₚ r :: dir_records (st_dir st) (zone_name z) name
    | inl _ => dir_records (st_dir st') (zone_name z) name = dir_records (st_dir st) (zone_name z) name
    end.
Proof.
  intros Hzr He Hname Hcls Hsup Hc Hs Hfq Hapex Hsize Hrev Hall.
  destruct (commit_add_run st x z r name e Hzr He Hname Hfq Hc Hs Hall) as (z1 & e1 & He1 & Hz1 & [Hy Hx Hl _ Hsp] & Hrun). rewrite Hz1, Hfq in Hsp.
  cbn [VmDnsProcessUpdateCommit]. rewrite Hsup. cbn [negb]. rewrite (proj2 (Z.eqb_eq _ _) Hcls). unfold rbind at 1. destruct Hrun as [[err Hrun] | Hrun]; rewrite Hrun.
  { eexists (inl err), _, z1, e1. split; [reflexivity |]. split; [done |]. split; [apply Hl |]. done. }
  destruct (add_record_run inet_pton (SERVER z1 (st_dir st) true) r name e1) as (a & s' & e2 & Ha & _ & Hcoh & Hy' & _ & Hothers & Hres);
    cbn [srv_zone srv_dir srv_ready] in *; try done; rewrite ?Hz1; try done.
  rewrite Hz1 in *. unfold rbind at 1. rewrite (on_server_step (ref_address x) _ (with_object (ref_address x) z1 st) z1 e1 a s' e2 Hx).
  2: { cbn [with_object st_ready st_dir] in *. by rewrite Hy. }
  assert (Hc2 : coherent (SERVER (srv_zone s') (srv_dir s') true)) by (rewrite <- Hy'; by destruct s').
  destruct a as [err | []].
  - eexists (inl err), _, (srv_zone s'), e2. split; [reflexivity |]. split; [by apply lookup_insert_eq |]. done.
  - eexists (inr _), _, (srv_zone s'), e2. split; [reflexivity |]. split; [by apply lookup_insert_eq |]. split; [done |]. split; [done |].
    split; [done | by destruct Hres].
Qed.

End UpdateLaws.

(** ** Requests are answered *)

Section Requests.
Context `{StringCompare} {D : Type} `{Directory D}.
Variable inet_pton : Z → list Z → bool.
Context {GssCtx : Type}.
Variable check : update_message → update_message → RM (dns_state D) (update_message * GssCtx * bool).
Variable sign : GssCtx → update_message → RM (dns_state D) update_message.
Variable tkey : dns_message → dns_message → RM (dns_state D) dns_message.
Implicit Types (st : dns_state D).

(** C13: from the bytes of a request to the bytes of the response: a query with
    one question of a supported type, with recursion asked for or not, is
    parsed, the zone with the longest matching name is found, and the response
    is the wire form of a reply with the identity of the request, the question
    and exactly the records of its type that the directory has there, in some
    order, marked as authoritative unless recursion is asked for or the request is
    truncated; the code is a server failure, without records, when the directory
    fails to answer, a name error when no zone matches, when the zone is forwarded, or when the
    name has no records and no entry in the cache, and success otherwise.  The
    directory is left alone, and the cache of the zone agrees with it
    afterwards.  What is needed ([servable]): three times the length of the
    request and of the response fit the buffer of 2048 bytes; the name has no
    CNAME record; the cache agrees with the directory and has the name or room
    for it; and the records can be copied and written.  Memory is not refused and
    the server is loaded. *)
Theorem request_answered m q name st e :
  query_ok m → 3 * zlen (query_wire m) <= VMDNS_MAX_SIZE_BUFFER → question_request (query_norm m) q name → st_ready st = true → quiet e →
  (∀ x, Some x ∈ st_zones st → covers name x → ∃ z, st_objects st !! ref_address x = Some z ∧
     (zoneId z ≠ VMDNS_ZONE_ID_FORWARDER → servable inet_pton st z q name (pHeader m))) →
  ∃ rc rs inzone st' e', VmDnsProcessRequest inet_pton check sign tkey (query_wire m) st e =
      Some (inr (Some (query_wire (reply (pHeader m) q rc rs)), rc, inzone, false), st', e') ∧
    ((∀ y, Some y ∈ st_zones st → ¬ covers name y) ∧ rc = VM_DNS_RCODE_NAME_ERROR ∧ rs = [] ∧ inzone = false ∧ st' = st ∨
     ∃ x z, longest_match name (st_zones st) (inr x) ∧ st_objects st !! ref_address x = Some z ∧
       if zoneId z =? VMDNS_ZONE_ID_FORWARDER then rc = VM_DNS_RCODE_NAME_ERROR ∧ rs = [] ∧ inzone = false ∧ st' = st
       else answered inet_pton st z name (uQType q) rc rs ∧ inzone = true ∧
         ∃ z', st' = with_object (ref_address x) z' st ∧ coherent (SERVER z' (st_dir st) true)).
Proof.
  intros Hm Hl Hrq Hready He Hzones. pose proof (rq_plain _ _ _ Hrq) as (_ & Hop).
  destruct (parse_query_message inet_pton m st e Hm Hl Hop He) as (e1 & Hp & He1).
  destruct (query_answered inet_pton tkey (query_norm m) q name st e1 Hrq Hready He1 Hzones) as (rc & rs & inzone & st' & e' & Hr & Hres).
  exists rc, rs, inzone, st', e'. split; [| done]. unfold VmDnsProcessRequest. unfold rbind at 1. rewrite Hp. unfold rbind at 1. rewrite Hr. done.
Qed.

End Requests.

(** ** Concrete updates *)

#[local] Existing Instances compare_bytes_ok mem_directory.

(** Every update is permitted, and responses are not signed. *)
Definition all_permitted (m r : update_message) : RM (dns_state mem_dir) (update_message * unit * bool) := rret (r, tt, true).
Definition no_signature (c : unit) (m : update_message) : RM (dns_state mem_dir) update_message := rret m.

Lemma ab_wire_ok : query_ok (ab_request 0 0).
Proof.
  pose proof (rq_question _ _ _ ab_request_ok). constructor; try apply array_none; [apply (rq_header _ _ _ ab_request_ok) | done | by apply array_one].
Qed.

Lemma request_answered_witness :
  ∃ rc rs inzone st' e', VmDnsProcessRequest no_pton all_permitted no_signature no_tkey (query_wire (ab_request 0 0)) b_state [] =
      Some (inr (Some (query_wire (reply (pHeader (ab_request 0 0)) ab_question rc rs)), rc, inzone, false), st', e') ∧
    ((∀ y, Some y ∈ [None; Some zone_b] → ¬ covers host_ab y) ∧ rc = VM_DNS_RCODE_NAME_ERROR ∧ rs = [] ∧ inzone = false ∧ st' = b_state ∨
     ∃ x z, longest_match host_ab [None; Some zone_b] (inr x) ∧ st_objects b_state !! ref_address x = Some z ∧
       if zoneId z =? VMDNS_ZONE_ID_FORWARDER then rc = VM_DNS_RCODE_NAME_ERROR ∧ rs = [] ∧ inzone = false ∧ st' = b_state
       else answered no_pton b_state z host_ab VMDNS_RR_TYPE_A rc rs ∧ inzone = true ∧
         ∃ z', st' = with_object (ref_address x) z' b_state ∧ coherent (SERVER z' (st_dir b_state) true)).
Proof.
  exact (request_answered no_pton all_permitted no_signature no_tkey (ab_request 0 0) ab_question host_ab b_state [] ab_wire_ok
    ltac:(by vm_compute) ab_request_ok eq_refl (Forall_nil_2 _) b_state_serves).
Defined.

Definition rec_update (type class ttl : Z) (d : rdata) : dns_record := DNS_RECORD (Some host_ab) type class ttl d.

Lemma prescan_exact_witness :
  VmDnsProcessUpdatePrescan 1 [rec_ab 3; rec_update VMDNS_RR_TYPE_A VMDNS_CLASS_NONE 60 (D_A 1)] b_state [] =
  Some (inr VM_DNS_RCODE_FORMAT_ERROR, b_state, []).
Proof.
  apply (prescan_exact 1 [rec_ab 3; rec_update VMDNS_RR_TYPE_A VMDNS_CLASS_NONE 60 (D_A 1)] b_state []).
  apply Forall_cons_2; [| apply Forall_cons_2; [| constructor]]; split_and!; try done; apply host_ab_ok.
Defined.

(** The zone [example.arpa.], with the names [a.] and [b.]. *)
Definition arpa_ref : zone_ref := ZONE_REF 300 example_arpa.
Definition arpa_state (rs : list dns_record) : dns_state mem_dir :=
  DNS_STATE [Some arpa_ref] {[ 300 := srv_zone a_server ]} {[ a_dot := [rec_a 1; rec_a 2]; b_dot := rs ]} true.
Definition arpa_zone : update_zone := UPDATE_ZONE (Some example_arpa) VMDNS_RR_TYPE_SOA VMDNS_CLASS_IN.

Lemma arpa_ready : zone_ready no_pton (arpa_state [rec_b 3]) arpa_ref (srv_zone a_server) a_dot.
Proof.
  constructor; [done | apply lookup_singleton_eq | | | apply (a_server_spelling a_dot); by right].
  - exact (a_server_lookup a_dot ltac:(done) eq_refl ltac:(by vm_compute)).
  - change (looked_up no_pton (arpa_state [rec_b 3]) (srv_zone a_server) a_dot) with [rec_a 1; rec_a 2]. repeat constructor; by vm_compute.
Qed.

Lemma commit_addition_witness :
  ∃ rc st' z' e', VmDnsProcessUpdateCommit no_pton arpa_zone arpa_ref 0 [rec_a 3] (arpa_state [rec_b 3]) [] = Some (rc, st', e') ∧
    st_objects st' !! 300 = Some z' ∧ coherent (SERVER z' (st_dir st') true) ∧
    (∀ n, map lower n ≠ map lower a_dot → dir_records (st_dir st') example_arpa n = dir_records (st_dir (arpa_state [rec_b 3])) example_arpa n) ∧
    match rc with
    | inr c => c = VM_DNS_RCODE_NOERROR ∧ dir_records (st_dir st') example_arpa a_dot ≡ₚ rec_a 3 :: dir_records (st_dir (arpa_state [rec_b 3])) example_arpa a_dot
    | inl _ => dir_records (st_dir st') example_arpa a_dot = dir_records (st_dir (arpa_state [rec_b 3])) example_arpa a_dot
    end.
Proof.
  apply (commit_addition no_pton (arpa_state [rec_b 3]) arpa_ref (srv_zone a_server) (rec_a 3) a_dot arpa_zone [] arpa_ready (Forall_nil_2 _));
    try done; try by vm_compute.
  change (answers no_pton (arpa_state [rec_b 3]) (srv_zone a_server) a_dot (dwType (rec_a 3))) with [rec_a 1; rec_a 2].
  repeat apply Forall_cons_2; [by vm_compute .. | constructor].
Defined.

(** The records the directory has after an update, with the result. *)
Definition after (name : list Z) (x : option ((dwerror + Z) * dns_state mem_dir * env)) : option ((dwerror + Z) * list dns_record) :=
  match x with Some (r, st, _) => Some (r, mem_records (st_dir st) example_arpa name) | None => None end.

(** The deletion of a record set stops after the second record: the first took
    the name out of the cache, where the second does not find it. *)
Example delete_set_stops :
  after b_dot (VmDnsProcessUpdateCommit no_pton arpa_zone arpa_ref 0 [DNS_RECORD (Some b_dot) VMDNS_RR_TYPE_A VMDNS_CLASS_ANY 0 (D_A 0)]
    (arpa_state [rec_b 3; rec_b 4; rec_b 5]) []) = Some (inl ERROR_NOT_FOUND, [rec_b 5]).
Proof. by vm_compute. Qed.

(** The record at the index of the update is looked at, not the one of the loop:
    for the second update there is none. *)
Example second_update_index :
  VmDnsProcessUpdateCommit no_pton arpa_zone arpa_ref 0 [rec_a 3; rec_b 4] (arpa_state [rec_b 3]) [] = None.
Proof. by vm_compute. Qed.

(** A deletion of one record is looked up in the directory with its class NONE
    and its time to live of zero, and is not there. *)
Example delete_one_record :
  after b_dot (VmDnsProcessUpdateCommit no_pton arpa_zone arpa_ref 0 [DNS_RECORD (Some b_dot) VMDNS_RR_TYPE_A VMDNS_CLASS_NONE 0 (D_A 3)]
    (arpa_state [rec_b 3]) []) = Some (inl (BACKEND_ERROR 16), [rec_b 3]).
Proof. by vm_compute. Qed.

(** A prerequisite that a record exists fails when it does, and its record is
    freed. *)
Example prerequisite_holds :
  result_of (VmDnsProcessUpdatePrerequisites no_pton [DNS_RECORD (Some b_dot) VMDNS_RR_TYPE_A VMDNS_CLASS_IN 0 (D_A 3)] arpa_zone arpa_ref
    (arpa_state [rec_b 3]) []) = Some (inr (inr VM_DNS_RCODE_NXRRSET, true)).
Proof. by vm_compute. Qed.

(** A prerequisite that a set of addresses exists is a format error: the length
    of an address does not depend on the message. *)
Example prerequisite_of_set :
  result_of (VmDnsProcessUpdatePrerequisites no_pton [DNS_RECORD (Some b_dot) VMDNS_RR_TYPE_A VMDNS_CLASS_ANY 0 (D_A 0)] arpa_zone arpa_ref
    (arpa_state [rec_b 3]) []) = Some (inr (inr VM_DNS_RCODE_FORMAT_ERROR, false)).
Proof. by vm_compute. Qed.

(** A request with such a prerequisite frees its record twice. *)
Definition prerequisite_update : update_message :=
  UPDATE_MESSAGE (DNS_HEADER 7 (CODES 0 VM_DNS_OPCODE_UPDATE 0 0 0 0 0 0) 1 1 0 0) (Some arpa_zone)
    (Some [DNS_RECORD (Some b_dot) VMDNS_RR_TYPE_A VMDNS_CLASS_IN 0 (D_A 3)]) None None None.
Example prerequisite_freed_twice :
  VmDnsProcessRequest no_pton all_permitted no_signature no_tkey (update_wire prerequisite_update) (arpa_state [rec_b 3]) [] = None.
Proof. by vm_compute. Qed.
