(* ===== verification/RaftLog.v ===== *)
(** * RaftLog: the replicated log of [lwraft/server/replication/replentry.c]

    The wire and storage format of a log entry (big-endian header of 24 bytes
    followed by the change log), the batch format of user transactions, and the
    operations of the log store.  Blocks are byte lists; a read or a write
    outside a block is undefined behaviour ([None] of the monad [RM]).  The
    backend is the map from log index to packed entry that the code keeps under
    [RAFT_LOGS_CONTAINER_DN]; its calls and the allocator may fail, as told by
    the outcome sequence [env]. *)

From S2P Require Import Prelude Heap Effects CString.

Open Scope Z_scope.

(** [VmDirAllocateMemory]: a zeroed block. *)
Definition VmDirAllocateMemory {St} (dwSize : Z) : RM St (list Z) :=
  if dwSize =? 0 then rfail ERROR_INVALID_PARAMETER
  else o <- next_outcome ;;
       if o =? 0 then rret (replicate (Z.to_nat dwSize) 0) else rfail ERROR_NO_MEMORY.

(** A call into the backend or the LDAP layer that only reports its error. *)
Definition backend_call {St} : RM St unit :=
  o <- next_outcome ;; if o =? 0 then rret tt else rfail (BACKEND_ERROR o).

(** ** Integers on the wire *)

(** A block and the position of the write pointer. *)
Record writer := WRITER { w_buf : list Z; w_pos : nat }.

(** [**ppbuf = b; ( *ppbuf)++] *)
Definition put_byte (b : Z) (w : writer) : option writer :=
  if decide (w_pos w < length (w_buf w))%nat
  then Some (WRITER (<[w_pos w := b]> (w_buf w)) (S (w_pos w)))
  else None.

Fixpoint encode_loop (n : nat) (value : Z) (w : writer) : option writer :=
  match n with
  | O => Some w
  | S i =>
      match put_byte (u8 (Z.shiftr value (Z.shiftl (Z.of_nat i) 3))) w with
      | Some w' => encode_loop i value w'
      | None => None
      end
  end.

Definition _VmDirEncodeUINT32 (value : Z) (w : writer) : option writer := encode_loop 4 (u32 value) w.
Definition _VmDirEncodeUINT64 (value : Z) (w : writer) : option writer := encode_loop 8 (u64 value) w.

(** [memcpy] to the write pointer, which advances by the length. *)
Fixpoint put_bytes (bs : list Z) (w : writer) : option writer :=
  match bs with
  | [] => Some w
  | b :: bs => match put_byte b w with Some w' => put_bytes bs w' | None => None end
  end.

(** A reader is the rest of the block from the read pointer on. *)
Fixpoint decode_loop (wrap : Z → Z) (n : nat) (value : Z) (r : list Z) : option (Z * list Z) :=
  match n with
  | O => Some (value, r)
  | S i =>
      match r with
      | [] => None
      | j :: r => decode_loop wrap i (Z.lor value (wrap (Z.shiftl j (Z.shiftl (Z.of_nat i) 3)))) r
      end
  end.

Definition _VmDirDecodeUINT32 (r : list Z) : option (Z * list Z) := decode_loop u32 4 0 r.
Definition _VmDirDecodeUINT64 (r : list Z) : option (Z * list Z) := decode_loop u64 8 0 r.

(** ** Log entries *)

(** A [VDIR_BERVALUE]: the bytes from [lberbv_val] to the end of its block,
    and [lberbv_len]. *)
Record berval := BERVAL { lberbv_val : list Z; lberbv_len : Z }.

(** [VDIR_RAFT_LOG]; a NULL [chglog] has no bytes, a NULL [packRaftLog] is
    [None]. *)
Record VDIR_RAFT_LOG := RAFT_LOG {
  index : Z; term : Z; entryId : Z; requestCode : Z;
  chglog : list Z;
  packRaftLog : option berval
}.

Definition ZERO_LOG : VDIR_RAFT_LOG := RAFT_LOG 0 0 0 0 [] None.

(** The size only has to be positive here. *)
Definition sizeof_VDIR_RAFT_LOG : Z := 120.

Definition RAFT_LOG_HEADER_LEN : Z := 8 + 4 + 8 + 4.
Definition chglog_len (l : VDIR_RAFT_LOG) : Z := Z.of_nat (length (chglog l)).

(** The four [_VmDirEncode] calls that write a header. *)
Definition put_header (i t e c : Z) (w : writer) : option writer :=
  match _VmDirEncodeUINT64 i w with
  | Some w => match _VmDirEncodeUINT32 t w with
    | Some w => match _VmDirEncodeUINT64 e w with
      | Some w => _VmDirEncodeUINT32 c w
      | None => None end
    | None => None end
  | None => None end.

Definition _VmDirPackLogEntry {St} (l : VDIR_RAFT_LOG) : RM St VDIR_RAFT_LOG :=
  let iSize := s32 (RAFT_LOG_HEADER_LEN + chglog_len l) in
  buf <- VmDirAllocateMemory (u64 iSize) ;;
  w <- rlift (put_header (index l) (term l) (entryId l) (requestCode l) (WRITER buf 0)) ;;
  w <- rlift (put_bytes (chglog l) w) ;;
  rret (RAFT_LOG (index l) (term l) (entryId l) (requestCode l) (chglog l)
                 (Some (BERVAL (w_buf w) (u64 iSize)))).

Fixpoint pack_size (ls : list VDIR_RAFT_LOG) (chglog_size : Z) : Z :=
  match ls with
  | [] => chglog_size
  | l :: ls => pack_size ls (s32 (chglog_size + RAFT_LOG_HEADER_LEN + chglog_len l + 8))
  end.

(** The first entry whose index is not zero names the batch ([logIndex],
    [logTerm]); [entryId] is set on the first entry, and read uninitialised
    when there is none. *)
Fixpoint pack_name (ls : list VDIR_RAFT_LOG) (logIndex logTerm : Z) : Z * Z :=
  match ls with
  | [] => (logIndex, logTerm)
  | l :: ls => if logIndex =? 0 then pack_name ls (index l) (s32 (term l)) else pack_name ls logIndex logTerm
  end.

Fixpoint pack_loop (ls : list VDIR_RAFT_LOG) (w : writer) : option writer :=
  match ls with
  | [] => Some w
  | l :: ls =>
      let iSize := s32 (chglog_len l + RAFT_LOG_HEADER_LEN) in
      match _VmDirEncodeUINT64 iSize w with
      | Some w => match put_header (index l) (term l) (entryId l) (requestCode l) w with
        | Some w => match put_bytes (chglog l) w with
          | Some w => pack_loop ls w
          | None => None end
        | None => None end
      | None => None end
  end.

(** The deque is emptied once the block is allocated. *)
Definition VmDirPackLogEntries {St} (l : VDIR_RAFT_LOG) (pChglogs : list VDIR_RAFT_LOG)
  : RM St (VDIR_RAFT_LOG * list VDIR_RAFT_LOG) :=
  let chglog_size := s32 (pack_size pChglogs 0 + RAFT_LOG_HEADER_LEN) in
  let (logIndex, logTerm) := pack_name pChglogs 0 0 in
  let requestCode := match pChglogs with [] => 0 | _ => 1 end in
  buf <- VmDirAllocateMemory (u64 chglog_size) ;;
  (match pChglogs with [] => rub | _ => rret tt end) ;;;
  w <- rlift (put_header logIndex logTerm 0 requestCode (WRITER buf 0)) ;;
  w <- rlift (pack_loop pChglogs w) ;;
  rret (RAFT_LOG logIndex (u32 logTerm) 0 requestCode (chglog l)
                 (Some (BERVAL (w_buf w) (u64 chglog_size))), []).

(** The four [_VmDirDecode] calls that read a header. *)
Definition get_header (r : list Z) : option (Z * Z * Z * Z * list Z) :=
  match _VmDirDecodeUINT64 r with
  | Some (i, r) => match _VmDirDecodeUINT32 r with
    | Some (t, r) => match _VmDirDecodeUINT64 r with
      | Some (e, r) => match _VmDirDecodeUINT32 r with
        | Some (c, r) => Some (i, t, e, c, r)
        | None => None end
      | None => None end
    | None => None end
  | None => None end.

(** [memcpy] from a reader. *)
Definition get_bytes (n : Z) (r : list Z) : option (list Z) :=
  if n <=? Z.of_nat (length r) then Some (take (Z.to_nat n) r) else None.

Definition _VmDirUnpackLogEntry {St} (l : VDIR_RAFT_LOG) : RM St VDIR_RAFT_LOG :=
  match packRaftLog l with
  | None => rfail ERROR_INVALID_PARAMETER
  | Some (BERVAL val len) =>
      if len <? RAFT_LOG_HEADER_LEN then rfail ERROR_INVALID_PARAMETER
      else
        h <- rlift (get_header val) ;;
        let '(i, t, e, c, reader) := h in
        if len >? RAFT_LOG_HEADER_LEN then
          VmDirAllocateMemory (len - RAFT_LOG_HEADER_LEN) ;;;
          bs <- rlift (get_bytes (len - RAFT_LOG_HEADER_LEN) reader) ;;
          rret (RAFT_LOG i t e c bs (Some (BERVAL val len)))
        else rret (RAFT_LOG i t e c [] (Some (BERVAL val len)))
  end.

(** The loop of [VmDirUnpackLogEntries]: [reader] is the rest of the block and
    [rest] its distance to [end].  The result carries the deque, which keeps
    what was pushed when the loop stops with an error.  Every round consumes at
    least 32 bytes, so the length of the block is enough fuel; a round that
    would move the reader back is not reached (the copy before it leaves the
    block). *)
Fixpoint unpack_loop {St} (fuel : nat) (reader : list Z) (rest : Z) (pChglogs : list VDIR_RAFT_LOG)
  : RM St (dwerror * list VDIR_RAFT_LOG) :=
  match fuel with
  | O => rub
  | S fuel =>
      if rest >? RAFT_LOG_HEADER_LEN then
        d <- rlift (_VmDirDecodeUINT64 reader) ;;
        let iSize := s32 d.1 in
        let rest := rest - 8 in
        if iSize >? rest then rret (VMDIR_ERROR_INVALID_PARAMETER, pChglogs)
        else
          r <- rtry (_VmDirUnpackLogEntry (RAFT_LOG 0 0 0 0 [] (Some (BERVAL d.2 (u64 iSize))))) ;;
          match r with
          | inl err => rret (err, pChglogs)
          | inr logEntry =>
              a <- rtry (VmDirAllocateMemory sizeof_VDIR_RAFT_LOG) ;;
              match a with
              | inl err => rret (err, pChglogs)
              | inr _ =>
                  if iSize <? 0 then rub
                  else unpack_loop fuel (drop (Z.to_nat iSize) d.2) (rest - iSize) (pChglogs ++ [logEntry])
              end
          end
      else if rest =? 0 then rret (ERROR_SUCCESS, pChglogs)
      else rret (VMDIR_ERROR_INVALID_PARAMETER, pChglogs)
  end.

Definition VmDirUnpackLogEntries {St} (pChglogs : list VDIR_RAFT_LOG) (l : VDIR_RAFT_LOG)
  : RM St (dwerror * VDIR_RAFT_LOG * list VDIR_RAFT_LOG) :=
  match packRaftLog l with
  | None => rret (ERROR_INVALID_PARAMETER, l, pChglogs)
  | Some (BERVAL val len) =>
      if len <? RAFT_LOG_HEADER_LEN then rret (ERROR_INVALID_PARAMETER, l, pChglogs)
      else
        h <- rlift (get_header val) ;;
        let '(i, t, e, c, reader) := h in
        r <- unpack_loop (S (length val)) reader (len - RAFT_LOG_HEADER_LEN) pChglogs ;;
        rret (r.1, RAFT_LOG i t e c (chglog l) (packRaftLog l), r.2)
  end.

(** ** The bytes of an encoding *)

Definition header_bytes (i t e c : Z) : list Z := enc 8 i ++ enc 4 t ++ enc 8 e ++ enc 4 c.
Definition entry_bytes (l : VDIR_RAFT_LOG) : list Z :=
  header_bytes (index l) (term l) (entryId l) (requestCode l) ++ chglog l.

Lemma header_length i t e c : length (header_bytes i t e c) = 24%nat.
Proof. unfold header_bytes. rewrite !length_app, !enc_length. done. Qed.

Lemma encode_loop_put n v w : encode_loop n v w = put_bytes (enc n v) w.
Proof. revert w. induction n as [|n IH]; intros w; cbn [enc encode_loop put_bytes]; [done |]. by destruct (put_byte _ w). Qed.

Lemma put_bytes_app b1 b2 w :
  put_bytes (b1 ++ b2) w = match put_bytes b1 w with Some w' => put_bytes b2 w' | None => None end.
Proof. revert w. induction b1 as [|b b1 IH]; intros w; cbn [app put_bytes]; [done |]. by destruct (put_byte b w). Qed.

Lemma put_bytes_spec bs a m c :
  length m = length bs →
  put_bytes bs (WRITER (a ++ m ++ c) (length a)) = Some (WRITER (a ++ bs ++ c) (length a + length bs)).
Proof.
  revert a m. induction bs as [|b bs IH]; intros a m Hm; destruct m as [|x m]; cbn in Hm; try done.
  { cbn. by rewrite Nat.add_0_r. }
  cbn [put_bytes]. unfold put_byte. cbn [w_buf w_pos]. rewrite decide_True by (rewrite length_app; cbn; lia).
  rewrite insert_app_r_alt, Nat.sub_diag by lia. cbn [app].
  replace (a ++ <[0%nat:=b]> (x :: m ++ c)) with ((a ++ [b]) ++ m ++ c) by (rewrite <- app_assoc; done).
  replace (S (length a)) with (length (a ++ [b])) by (rewrite length_app; cbn; lia).
  rewrite IH by lia. rewrite length_app, <- app_assoc. cbn. do 2 f_equal. lia.
Qed.

Lemma put_bytes_fill bs m :
  length m = length bs → put_bytes bs (WRITER m 0) = Some (WRITER bs (length bs)).
Proof.
  intros Hm. pose proof (put_bytes_spec bs [] m [] Hm) as Hp. cbn in Hp. by rewrite !app_nil_r in Hp.
Qed.

Lemma put_header_bytes i t e c w : put_header i t e c w = put_bytes (header_bytes i t e c) w.
Proof.
  unfold put_header, header_bytes, _VmDirEncodeUINT64, _VmDirEncodeUINT32.
  rewrite !encode_loop_put, enc_u64, !put_bytes_app. destruct (put_bytes (enc 8 i) w); [| done].
  rewrite encode_loop_put, enc_u32, !put_bytes_app. destruct (put_bytes (enc 4 t) _); [| done].
  rewrite encode_loop_put, enc_u64, !put_bytes_app. destruct (put_bytes (enc 8 e) _); [| done].
  by rewrite encode_loop_put, enc_u32.
Qed.

Lemma decode_loop_spec wrap n acc v r :
  (∀ z, 0 <= z < 2 ^ (8 * Z.of_nat n) → wrap z = z) →
  decode_loop wrap n acc (enc n v ++ r) = Some (Z.lor acc (v mod 2 ^ (8 * Z.of_nat n)), r).
Proof.
  revert acc. induction n as [|i IH]; intros acc Hw; cbn [enc decode_loop app].
  { change (2 ^ (8 * Z.of_nat 0)) with 1. by rewrite Z.mod_1_r, Z.lor_0_r. }
  rewrite (Z.shiftl_mul_pow2 (Z.of_nat i) 3) by lia. change (2 ^ 3) with 8. rewrite (Z.mul_comm _ 8).
  pose proof (byte_split (Z.of_nat i) v ltac:(lia)) as Hs.
  replace (8 * Z.of_nat (S i)) with (8 * (Z.of_nat i + 1)) in * by lia.
  assert (0 <= u8 (Z.shiftr v (8 * Z.of_nat i)) < 2 ^ 8) as Hb by (apply Z.mod_pos_bound; lia).
  assert (0 < 2 ^ (8 * Z.of_nat i)) as Hp by (apply Z.pow_pos_nonneg; lia).
  assert (2 ^ (8 * (Z.of_nat i + 1)) = 2 ^ 8 * 2 ^ (8 * Z.of_nat i)) as Hp'
    by (rewrite <- Z.pow_add_r by lia; f_equal; lia).
  rewrite Hw by (rewrite Z.shiftl_mul_pow2 by lia; nia).
  rewrite IH by (intros z Hz; apply Hw; nia). by rewrite <- Z.lor_assoc, Hs.
Qed.

Lemma decode32 v r : is_u32 v → _VmDirDecodeUINT32 (enc 4 v ++ r) = Some (v, r).
Proof.
  intros Hv. unfold _VmDirDecodeUINT32. rewrite decode_loop_spec by (intros; by apply u32_id).
  by rewrite Z.lor_0_l, (Z.mod_small v).
Qed.

Lemma decode64 v r : is_u64 v → _VmDirDecodeUINT64 (enc 8 v ++ r) = Some (v, r).
Proof.
  intros Hv. unfold _VmDirDecodeUINT64. rewrite decode_loop_spec by (intros; by apply u64_id).
  by rewrite Z.lor_0_l, (Z.mod_small v).
Qed.

(** The ranges of the C fields, and a length that fits the [int] sizes. *)
Definition log_ok (l : VDIR_RAFT_LOG) : Prop :=
  is_u64 (index l) ∧ is_u32 (term l) ∧ is_u64 (entryId l) ∧ is_u32 (requestCode l) ∧
  RAFT_LOG_HEADER_LEN + chglog_len l < 2 ^ 31.

Lemma get_header_spec i t e c r :
  is_u64 i → is_u32 t → is_u64 e → is_u32 c →
  get_header (header_bytes i t e c ++ r) = Some (i, t, e, c, r).
Proof.
  intros Hi Ht He Hc. unfold get_header, header_bytes.
  rewrite <- !app_assoc, decode64, decode32, decode64, decode32 by done. done.
Qed.

(** ** Round trips *)

Lemma entry_length l : Z.of_nat (length (entry_bytes l)) = RAFT_LOG_HEADER_LEN + chglog_len l.
Proof. unfold entry_bytes, RAFT_LOG_HEADER_LEN, chglog_len. rewrite length_app, header_length. lia. Qed.

Lemma chglog_len_pos l : 0 <= chglog_len l.
Proof. unfold chglog_len. lia. Qed.

(** What packing returns. *)
Definition packed (l : VDIR_RAFT_LOG) : VDIR_RAFT_LOG :=
  RAFT_LOG (index l) (term l) (entryId l) (requestCode l) (chglog l)
           (Some (BERVAL (entry_bytes l) (Z.of_nat (length (entry_bytes l))))).

Section RoundTrips.
Context {St : Type}.
Implicit Types (s : St) (e : env).

Lemma allocate_ok n s e : 0 < n → default 0 (head e) = 0 →
  VmDirAllocateMemory n s e = Some (inr (replicate (Z.to_nat n) 0), s, tail e).
Proof.
  intros Hn He. unfold VmDirAllocateMemory. rewrite (proj2 (Z.eqb_neq n 0)) by lia.
  unfold rbind, next_outcome. by rewrite He.
Qed.

Lemma allocate_fail n s o e : 0 < n → o ≠ 0 →
  VmDirAllocateMemory n s (o :: e) = Some (inl ERROR_NO_MEMORY, s, e).
Proof.
  intros Hn Ho. unfold VmDirAllocateMemory. rewrite (proj2 (Z.eqb_neq n 0)) by lia.
  unfold rbind, next_outcome. cbn. by rewrite (proj2 (Z.eqb_neq o 0)).
Qed.

Lemma pack_spec l s e : log_ok l → default 0 (head e) = 0 →
  _VmDirPackLogEntry l s e = Some (inr (packed l), s, tail e).
Proof.
  intros (_ & _ & _ & _ & Hlen) He. pose proof (chglog_len_pos l). pose proof (entry_length l) as Hel.
  unfold _VmDirPackLogEntry. change RAFT_LOG_HEADER_LEN with 24 in *.
  rewrite s32_id, u64_id by (unfold is_u64; lia). unfold rbind. rewrite allocate_ok by (done || lia).
  assert (put_bytes (entry_bytes l) (WRITER (replicate (Z.to_nat (24 + chglog_len l)) 0) 0) =
          Some (WRITER (entry_bytes l) (length (entry_bytes l)))) as Hput.
  { apply put_bytes_fill. rewrite length_replicate. lia. }
  unfold entry_bytes at 1 in Hput. rewrite put_bytes_app, <- put_header_bytes in Hput.
  destruct (put_header _ _ _ _ _) as [w|]; [| done]. cbn [rlift]. rewrite Hput. cbn [rlift rret w_buf].
  unfold packed. by rewrite Hel.
Qed.

(** Unpacking a block that starts with the entry. *)
Lemma unpack_spec l l0 r s :
  log_ok l → packRaftLog l0 = Some (BERVAL (entry_bytes l ++ r) (Z.of_nat (length (entry_bytes l)))) →
  _VmDirUnpackLogEntry l0 s [] =
    Some (inr (RAFT_LOG (index l) (term l) (entryId l) (requestCode l) (chglog l) (packRaftLog l0)), s, []).
Proof.
  intros (Hi & Ht & He & Hc & Hlen) Hp. pose proof (chglog_len_pos l). unfold _VmDirUnpackLogEntry. rewrite Hp.
  rewrite entry_length in *. change RAFT_LOG_HEADER_LEN with 24 in *.
  rewrite (proj2 (Z.ltb_ge _ _)) by lia. unfold entry_bytes. rewrite <- app_assoc.
  unfold rbind. rewrite get_header_spec by done. cbn [rlift].
  replace (24 + chglog_len l - 24) with (chglog_len l) by lia.
  destruct (Z.gtb_spec (24 + chglog_len l) 24) as [Hgt | Hle].
  - rewrite allocate_ok by (done || lia). unfold get_bytes. rewrite length_app.
    rewrite (proj2 (Z.leb_le _ _)) by (unfold chglog_len; lia). cbn [rlift rret tail].
    unfold chglog_len. by rewrite Nat2Z.id, take_app_length.
  - destruct (chglog l) as [|x c] eqn:E; [done |]. unfold chglog_len in *. rewrite E in *. cbn in *. lia.
Qed.

(** ** Batches *)

Definition record_bytes (l : VDIR_RAFT_LOG) : list Z := enc 8 (RAFT_LOG_HEADER_LEN + chglog_len l) ++ entry_bytes l.
Definition batch_bytes (ls : list VDIR_RAFT_LOG) : list Z := concat (map record_bytes ls).

Lemma record_length l : Z.of_nat (length (record_bytes l)) = 8 + RAFT_LOG_HEADER_LEN + chglog_len l.
Proof. unfold record_bytes. rewrite length_app, enc_length, Nat2Z.inj_add, entry_length. lia. Qed.

Lemma pack_loop_bytes ls w :
  Forall log_ok ls → pack_loop ls w = put_bytes (batch_bytes ls) w.
Proof.
  revert w. induction ls as [|l ls IH]; intros w Hok; cbn [pack_loop]; [done |].
  apply Forall_cons in Hok as [(_ & _ & _ & _ & Hlen) Hok]. pose proof (chglog_len_pos l).
  unfold batch_bytes. cbn [map concat]. fold (batch_bytes ls). unfold record_bytes, entry_bytes.
  rewrite !put_bytes_app. change RAFT_LOG_HEADER_LEN with 24 in *. rewrite s32_id by lia.
  unfold _VmDirEncodeUINT64. rewrite encode_loop_put, enc_u64, (Z.add_comm _ 24).
  destruct (put_bytes (enc 8 _) w) as [w1|]; [| done]. rewrite put_header_bytes, !put_bytes_app.
  destruct (put_bytes (header_bytes _ _ _ _) w1) as [w2|]; [| done].
  destruct (put_bytes (chglog l) w2) as [w3|]; [| done]. by apply IH.
Qed.

Lemma pack_size_spec ls a :
  0 <= a → a + Z.of_nat (length (batch_bytes ls)) < 2 ^ 31 →
  pack_size ls a = a + Z.of_nat (length (batch_bytes ls)).
Proof.
  revert a. induction ls as [|l ls IH]; intros a Ha Hb; cbn [pack_size]; [cbn; lia |].
  unfold batch_bytes in *. cbn [map concat] in *. rewrite length_app, Nat2Z.inj_add, record_length in *.
  pose proof (chglog_len_pos l). change RAFT_LOG_HEADER_LEN with 24 in *. rewrite s32_id by lia.
  rewrite IH by lia. lia.
Qed.

(** Equal up to where the packed form is stored. *)
Definition same_log (a b : VDIR_RAFT_LOG) : Prop :=
  index a = index b ∧ term a = term b ∧ entryId a = entryId b ∧ requestCode a = requestCode b ∧ chglog a = chglog b.

Lemma unpack_loop_spec ls fuel q s :
  (length ls < fuel)%nat → Forall log_ok ls →
  ∃ ls', unpack_loop fuel (batch_bytes ls) (Z.of_nat (length (batch_bytes ls))) q s [] =
           Some (inr (ERROR_SUCCESS, q ++ ls'), s, []) ∧ Forall2 same_log ls' ls.
Proof.
  revert fuel q. induction ls as [|l ls IH]; intros fuel q Hf Hok; (destruct fuel as [|fuel]; [cbn in Hf; lia |]).
  { exists []. rewrite app_nil_r. split; [done | constructor]. }
  apply Forall_cons in Hok as [Hl Hok]. pose proof Hl as (_ & _ & _ & _ & Hlen). pose proof (chglog_len_pos l).
  unfold batch_bytes. cbn [map concat]. fold (batch_bytes ls). cbn [unpack_loop].
  rewrite length_app, Nat2Z.inj_add, record_length. change RAFT_LOG_HEADER_LEN with 24 in *.
  rewrite (proj2 (Z.gtb_lt _ _)) by lia. unfold record_bytes. rewrite <- app_assoc.
  unfold rbind at 1. rewrite decode64 by (unfold is_u64; change RAFT_LOG_HEADER_LEN with 24; lia). cbn [rlift fst snd].
  change RAFT_LOG_HEADER_LEN with 24. rewrite s32_id by lia.
  destruct (Z.gtb_spec (24 + chglog_len l) (8 + 24 + chglog_len l + Z.of_nat (length (batch_bytes ls)) - 8)); [lia |].
  unfold rbind at 1, rtry at 1. rewrite (unpack_spec l _ (batch_bytes ls)); [| done |].
  2: { cbn [packRaftLog]. rewrite entry_length, u64_id by (unfold is_u64; lia). done. }
  unfold rbind at 1, rtry at 1. rewrite allocate_ok by (done || reflexivity). cbn [tail].
  rewrite (proj2 (Z.ltb_ge _ _)) by lia.
  pose proof (entry_length l) as Hel. change RAFT_LOG_HEADER_LEN with 24 in Hel.
  replace (drop (Z.to_nat (24 + chglog_len l)) (entry_bytes l ++ batch_bytes ls)) with (batch_bytes ls).
  2: { rewrite <- Hel, Nat2Z.id. by rewrite drop_app_length. }
  replace (8 + 24 + chglog_len l + Z.of_nat (length (batch_bytes ls)) - 8 - (24 + chglog_len l))
    with (Z.of_nat (length (batch_bytes ls))) by lia.
  match goal with |- context [unpack_loop fuel _ _ (q ++ [?x])] => set (l1 := x) end.
  destruct (IH fuel (q ++ [l1])) as (ls' & Hrun & Hsame); [cbn in Hf; lia | done |].
  exists (l1 :: ls'). rewrite Hrun, <- app_assoc. split; [done |]. constructor; [by repeat split | done].
Qed.

Lemma u32_s32 t : is_u32 t → u32 (s32 t) = t.
Proof.
  unfold is_u32, s32, u32. intros Ht. rewrite (Z.mod_small t) by lia.
  destruct (Z.ltb_spec t (2 ^ 31)); [by rewrite Z.mod_small by lia |].
  symmetry. apply (Z.mod_unique _ _ (-1)); lia.
Qed.

Lemma pack_name_nonzero ls i t : i ≠ 0 → pack_name ls i t = (i, t).
Proof. intros Hi. induction ls; cbn [pack_name]; [done |]. by rewrite (proj2 (Z.eqb_neq i 0)). Qed.

Lemma pack_entries_spec l0 l ls s :
  Forall log_ok (l :: ls) → 0 < index l →
  24 + Z.of_nat (length (batch_bytes (l :: ls))) < 2 ^ 31 →
  let b := header_bytes (index l) (term l) 0 1 ++ batch_bytes (l :: ls) in
  VmDirPackLogEntries l0 (l :: ls) s [] =
    Some (inr (RAFT_LOG (index l) (term l) 0 1 (chglog l0) (Some (BERVAL b (Z.of_nat (length b)))), []), s, []).
Proof.
  intros Hok Hi Hlen b. pose proof Hok as [(_ & Ht & _ & _ & _) _]%Forall_cons.
  assert (Z.of_nat (length b) = 24 + Z.of_nat (length (batch_bytes (l :: ls)))) as Hb.
  { unfold b. rewrite length_app, header_length. lia. }
  unfold VmDirPackLogEntries. rewrite pack_size_spec by lia. cbn [pack_name]. cbn [Z.eqb].
  rewrite pack_name_nonzero by lia. change RAFT_LOG_HEADER_LEN with 24. rewrite Z.add_0_l.
  rewrite s32_id, u64_id by (unfold is_u64; lia). unfold rbind. rewrite allocate_ok by (done || lia).
  unfold rret at 1. rewrite put_header_bytes.
  assert (header_bytes (index l) (s32 (term l)) 0 1 = header_bytes (index l) (term l) 0 1) as ->.
  { unfold header_bytes. by rewrite <- (enc_u32 (s32 _)), u32_s32. }
  assert (put_bytes b (WRITER (replicate (Z.to_nat (Z.of_nat (length (batch_bytes (l :: ls))) + 24)) 0) 0) =
          Some (WRITER b (length b))) as Hput.
  { apply put_bytes_fill. rewrite length_replicate. lia. }
  unfold b in Hput at 1. rewrite put_bytes_app in Hput.
  destruct (put_bytes (header_bytes _ _ _ _) _) as [w|]; [| done]. cbn [rlift].
  rewrite pack_loop_bytes, Hput by done. cbn [rlift rret w_buf tail].
  rewrite u32_s32, Hb by done. by rewrite (Z.add_comm _ 24).
Qed.

(** C37: A log entry survives packing and unpacking: packing allocates exactly
    the header and the change log, fills the block without leaving it, and
    unpacking any entry that holds the block gives back index, term, entry id,
    request code and change log; a failed allocation is reported. *)
Theorem raft_log_roundtrip l s :
  log_ok l →
  (∃ p b, _VmDirPackLogEntry l s [] = Some (inr p, s, []) ∧ packRaftLog p = Some b ∧
     Z.of_nat (length (lberbv_val b)) = lberbv_len b ∧ lberbv_len b = RAFT_LOG_HEADER_LEN + chglog_len l ∧
     ∀ l0, packRaftLog l0 = Some b → ∃ q, _VmDirUnpackLogEntry l0 s [] = Some (inr q, s, []) ∧ same_log q l) ∧
  (∀ o e, o ≠ 0 → _VmDirPackLogEntry l s (o :: e) = Some (inl ERROR_NO_MEMORY, s, e)).
Proof.
  intros Hl. split.
  - do 2 eexists. split; [by apply pack_spec |]. split; [reflexivity |]. split; [done |].
    split; [apply entry_length |]. intros l0 Hp. eexists. split; [| shelve].
    apply (unpack_spec l l0 []); [done |]. by rewrite app_nil_r. Unshelve. by repeat split.
  - intros o e Ho. destruct Hl as (_ & _ & _ & _ & Hlen). pose proof (chglog_len_pos l).
    unfold _VmDirPackLogEntry. change RAFT_LOG_HEADER_LEN with 24 in *.
    rewrite s32_id, u64_id by (unfold is_u64; lia). unfold rbind. by rewrite allocate_fail by lia.
Qed.

(** A user transaction survives: packing a non-empty deque of entries
    names the batch after its first entry and empties the deque; unpacking the
    block appends entries equal to the packed ones to the receiving deque, in
    order, and reads back the name of the batch. *)
Theorem raft_batch_roundtrip l0 l ls s q :
  Forall log_ok (l :: ls) → 0 < index l →
  24 + Z.of_nat (length (batch_bytes (l :: ls))) < 2 ^ 31 →
  ∃ p, VmDirPackLogEntries l0 (l :: ls) s [] = Some (inr (p, []), s, []) ∧
    ∀ l1, packRaftLog l1 = packRaftLog p →
    ∃ p' ls', VmDirUnpackLogEntries q l1 s [] = Some (inr (ERROR_SUCCESS, p', q ++ ls'), s, []) ∧
      Forall2 same_log ls' (l :: ls) ∧ index p' = index l ∧ term p' = term l ∧ requestCode p' = 1.
Proof.
  intros Hok Hi Hlen. eexists. split; [by apply pack_entries_spec |]. intros l1 Hp. cbn [packRaftLog] in Hp.
  pose proof Hok as [(Hi64 & Ht & _ & _ & _) _]%Forall_cons.
  unfold VmDirUnpackLogEntries. rewrite Hp, length_app, header_length. change RAFT_LOG_HEADER_LEN with 24.
  rewrite (proj2 (Z.ltb_ge _ _)) by lia. unfold rbind at 1.
  rewrite get_header_spec by (done || (unfold is_u64, is_u32; lia)). cbn [rlift].
  replace (Z.of_nat (24 + length (batch_bytes (l :: ls))) - 24)
    with (Z.of_nat (length (batch_bytes (l :: ls)))) by lia.
  unfold rbind. edestruct (unpack_loop_spec (l :: ls)) as (ls' & Hrun & Hsame); [| exact Hok |].
  2: { rewrite Hrun. do 2 eexists. split; [reflexivity |]. done. }
  clear. induction (l :: ls) as [|x xs IH]; cbn [length]; [lia |].
  unfold batch_bytes in *. cbn [map concat]. rewrite length_app. pose proof (record_length x).
  pose proof (chglog_len_pos x). change RAFT_LOG_HEADER_LEN with 24 in *. lia.
Qed.

End RoundTrips.

(** A batch whose size field is 0xFFFFFFFF, which the code reads as -1. *)
Definition negative_size_block : list Z :=
  header_bytes 1 1 0 1 ++ enc 8 (2 ^ 32 - 1) ++ replicate 17 0.

(** The size field of a batch entry is not checked for a negative value:
    this block of 49 bytes makes the parser read behind the block, whatever the
    allocator does. *)
Theorem raft_unpack_negative_size e :
  length negative_size_block = 49%nat ∧
  VmDirUnpackLogEntries [] (RAFT_LOG 0 0 0 0 [] (Some (BERVAL negative_size_block 49))) tt e = None.
Proof. split; [vm_compute; reflexivity |]. vm_compute. reflexivity. Qed.

(** ** The log store *)

(** The entries under [RAFT_LOGS_CONTAINER_DN]: the packed bytes by log index.
    An entry has always been written with its [ATTR_RAFT_LOG_ENTRIES]
    attribute, so a lookup that finds it finds the bytes.  When the server keeps
    the previous log database beside the current one, this is the map of both
    ([log_view]). *)
Abbreviation log_store := (gmap Z (list Z)).

Section Store.
Context {St : Type}.
Implicit Types (s : St) (e : env) (logs : log_store).

(** The entry with the index, all zero when there is none. *)
Definition _VmDirFetchLogEntry logs (logIndex : Z) : RM St VDIR_RAFT_LOG :=
  backend_call ;;;
  match logs !! logIndex with
  | None => rret ZERO_LOG
  | Some b =>
      VmDirAllocateMemory (Z.of_nat (length b)) ;;;
      _VmDirUnpackLogEntry (RAFT_LOG 0 0 0 0 [] (Some (BERVAL b (Z.of_nat (length b)))))
  end.

(** The databases of the log: the current one, and the previous one when the
    server has it ([bHasPrevLog]). *)
Record log_databases := LOG_DATABASES { log_current : log_store; log_previous : option log_store }.

(** A search that fails counts as an entry that is not there. *)
Definition _VmDirIsEntryInCurrentLog (db : log_databases) (logIndex : Z) : RM St bool :=
  r <- rtry backend_call ;;
  rret (match r with inr _ => bool_decide (is_Some (log_current db !! logIndex)) | inl _ => false end).

Definition VmDirBackendForLogIndex (db : log_databases) (logIndex : Z) : RM St log_store :=
  match log_previous db with
  | None => rret (log_current db)
  | Some previous =>
      b <- _VmDirIsEntryInCurrentLog db logIndex ;;
      rret (if b : bool then log_current db else previous)
  end.

(** Both databases as one map. *)
Definition log_view (db : log_databases) : log_store := log_current db ∪ default ∅ (log_previous db).

(** Whether the entry exists, and whether it has the term. *)
Definition _VmDirLogLookup logs (logIndex logTerm : Z) : RM St (bool * bool) :=
  logEntry <- _VmDirFetchLogEntry logs logIndex ;;
  rret (if index logEntry >? 0 then (true, term logEntry =? logTerm) else (false, false)).

Definition _VmDirGetLogTerm logs (idx : Z) : RM St Z :=
  logEntry <- _VmDirFetchLogEntry logs idx ;; rret (term logEntry).

(** The loop counts down in unsigned arithmetic; with a positive
    [firstLogIndex] the range of indices bounds its rounds. *)
Fixpoint prev_loop (fuel : nat) logs (firstLogIndex idx : Z) : RM St (Z * Z) :=
  match fuel with
  | O => rub
  | S fuel =>
      if idx >=? firstLogIndex then
        l <- _VmDirFetchLogEntry logs idx ;;
        if index l >? 0 then rret (index l, term l)
        else prev_loop fuel logs firstLogIndex (u64 (idx - 1))
      else rret (0, 0)
  end.

Definition _VmDirGetPrevLogArgs logs (firstLogIndex startIndex : Z) : RM St (Z * Z) :=
  prev_loop (S (Z.to_nat (startIndex - firstLogIndex + 1))) logs firstLogIndex startIndex.

(** The bound of the loop is [startIndex], not [endIndex]. *)
Fixpoint next_loop (fuel : nat) logs (startIndex idx : Z) (l : VDIR_RAFT_LOG) : RM St VDIR_RAFT_LOG :=
  match fuel with
  | O => rub
  | S fuel =>
      if (index l =? 0) && (idx <=? startIndex) then
        l <- _VmDirFetchLogEntry logs idx ;; next_loop fuel logs startIndex (u64 (idx + 1)) l
      else rret l
  end.

Definition _VmDirGetNextLog logs (startIndex endIndex : Z) (pNextLogEntry : VDIR_RAFT_LOG) : RM St VDIR_RAFT_LOG :=
  next_loop 2 logs startIndex startIndex pNextLogEntry.

(** Every stored block is the packed form of the entry with its index. *)
Definition store_ok logs : Prop :=
  ∀ i b, logs !! i = Some b → ∃ l, log_ok l ∧ b = entry_bytes l ∧ index l = i ∧ 0 < i.

(** The term of an entry, 0 when there is none. *)
Definition log_term logs (i : Z) : Z :=
  match logs !! i with
  | Some b => match get_header b with Some (_, t, _, _, _) => t | None => 0 end
  | None => 0
  end.

Lemma log_term_entry logs i l r :
  log_ok l → logs !! i = Some (entry_bytes l ++ r) → log_term logs i = term l.
Proof.
  intros (Hi & Ht & He & Hc & _) Hl. unfold log_term. rewrite Hl. unfold entry_bytes.
  by rewrite <- app_assoc, get_header_spec.
Qed.

Lemma run_backend {A} (k : unit → RM St A) s : rbind backend_call k s [] = k tt s [].
Proof. done. Qed.

Lemma fetch_spec logs i s :
  store_ok logs →
  match logs !! i with
  | Some _ => ∃ l, _VmDirFetchLogEntry logs i s [] = Some (inr l, s, []) ∧ index l = i ∧ 0 < i ∧
                   term l = log_term logs i
  | None => _VmDirFetchLogEntry logs i s [] = Some (inr ZERO_LOG, s, [])
  end.
Proof.
  intros Hok. unfold _VmDirFetchLogEntry. rewrite run_backend. unfold rbind.
  destruct (logs !! i) as [b|] eqn:Hb; [| done].
  destruct (Hok i b Hb) as (l & Hl & -> & Hi & Hpos). pose proof (entry_length l). pose proof (chglog_len_pos l).
  change RAFT_LOG_HEADER_LEN with 24 in *. rewrite allocate_ok by (done || lia). cbn [tail].
  eexists. split; [apply (unpack_spec l _ []); [done |]; cbn [packRaftLog]; by rewrite app_nil_r |].
  split; [done |]. split; [done |]. cbn [term]. symmetry. apply (log_term_entry _ _ _ []); [done |].
  by rewrite app_nil_r.
Qed.

Lemma prev_loop_spec logs first idx s fuel :
  store_ok logs → 0 < first → is_u64 idx → (Z.to_nat (idx - first + 1) < fuel)%nat →
  ∃ i t, prev_loop fuel logs first idx s [] = Some (inr (i, t), s, []) ∧
    ((i = 0 ∧ t = 0 ∧ ∀ j, first <= j <= idx → logs !! j = None) ∨
     (first <= i <= idx ∧ is_Some (logs !! i) ∧ t = log_term logs i ∧ ∀ j, i < j <= idx → logs !! j = None)).
Proof.
  intros Hok Hf. revert idx. induction fuel as [|fuel IH]; intros idx Hidx Hfuel; [lia |]. cbn [prev_loop].
  rewrite Z.geb_leb. destruct (Z.leb_spec first idx) as [Hle | Hgt].
  2: { exists 0, 0. split; [done |]. left. split; [done |]. split; [done |]. lia. }
  unfold rbind. pose proof (fetch_spec logs idx s Hok) as Hfetch.
  destruct (logs !! idx) as [b|] eqn:Hb.
  - destruct Hfetch as (l & -> & Hi & Hpos & Ht). rewrite (proj2 (Z.gtb_lt _ _)) by lia.
    exists idx, (log_term logs idx). rewrite Hi, Ht. split; [done |]. right.
    split; [lia |]. split; [by rewrite Hb |]. split; [done | lia].
  - rewrite Hfetch. cbn [index ZERO_LOG Z.gtb]. unfold is_u64 in Hidx.
    change (0 >? 0) with false. cbn iota. rewrite u64_id by (unfold is_u64; lia).
    destruct (IH (idx - 1)) as (i & t & Hrun & Hspec); [unfold is_u64; lia | lia |].
    exists i, t. split; [done |]. destruct Hspec as [(-> & -> & Hn) | (Hi & Hs & -> & Hn)].
    + left. split; [done |]. split; [done |]. intros j Hj. destruct (decide (j = idx)) as [-> |]; [done |]. apply Hn. lia.
    + right. split; [lia |]. split; [done |]. split; [done |]. intros j Hj.
      destruct (decide (j = idx)) as [-> |]; [done |]. apply Hn. lia.
Qed.

Lemma prev_log_args_spec logs first start s :
  store_ok logs → 0 < first → is_u64 start →
  ∃ i t, _VmDirGetPrevLogArgs logs first start s [] = Some (inr (i, t), s, []) ∧
    ((i = 0 ∧ t = 0 ∧ ∀ j, first <= j <= start → logs !! j = None) ∨
     (first <= i <= start ∧ is_Some (logs !! i) ∧ t = log_term logs i ∧
      ∀ j, i < j <= start → logs !! j = None)).
Proof. intros Hok Hf Hs. apply prev_loop_spec; [done | done | done | lia]. Qed.

(** Looking for the previous log terminates and finds the entry with the
    highest index not above the start, with its term; it reports (0, 0) exactly
    when the log has no entry from the first index up to the start. *)
Theorem raft_prev_log logs first start s :
  store_ok logs → 0 < first → is_u64 start →
  ∃ i t, _VmDirGetPrevLogArgs logs first start s [] = Some (inr (i, t), s, []) ∧
    ((i = 0 ∧ t = 0 ∧ ∀ j, first <= j <= start → logs !! j = None) ∨
     (first <= i <= start ∧ is_Some (logs !! i) ∧ t = log_term logs i ∧
      ∀ j, i < j <= start → logs !! j = None)).
Proof. apply prev_log_args_spec. Qed.

(** *** Two databases *)

(** The database that is chosen for an index has for it what the map of both
    has, unless the search of the current one fails. *)
Lemma log_view_backend db i s e : (is_Some (log_previous db) → default 0 (head e) = 0) →
  ∃ pBE e', VmDirBackendForLogIndex db i s e = Some (inr pBE, s, e') ∧ pBE !! i = log_view db !! i ∧
    (log_previous db = None ∨ log_current db ##ₘ default ∅ (log_previous db) → log_view db !! i ≠ None →
     pBE = log_current db ∧ delete i (log_view db) = log_view (LOG_DATABASES (delete i pBE) (log_previous db)) ∨
     log_previous db = Some pBE ∧ delete i (log_view db) = log_view (LOG_DATABASES (log_current db) (Some (delete i pBE)))).
Proof.
  intros He. unfold VmDirBackendForLogIndex, log_view. destruct db as [cur [prev|]]; cbn [log_current log_previous default from_option id] in *.
  - unfold rbind at 1. unfold _VmDirIsEntryInCurrentLog, backend_call. unfold rbind at 1, rtry, rbind at 1, next_outcome at 1. rewrite (He ltac:(done)). cbn [Z.eqb rret].
    case_bool_decide as Hin; eexists _, _; (split; [reflexivity |]).
    + split; [by symmetry; apply lookup_union_l' |]. intros [? | Hd] _; [done |]. left. split; [done |].
      rewrite delete_union. f_equal. apply delete_id. destruct Hin as [x Hx]. by eapply map_disjoint_Some_l.
    + apply eq_None_not_Some in Hin. split; [by rewrite lookup_union_r |]. intros _ _. right. split; [done |]. rewrite delete_union. f_equal. by apply delete_id.
  - eexists _, _. split; [reflexivity |]. rewrite map_union_empty. split; [done |]. intros _ _. left. split; [done |]. by rewrite map_union_empty.
Qed.

(** So an entry is read from the two databases as from the map of both. *)
Theorem log_view_fetch db i s e : (is_Some (log_previous db) → default 0 (head e) = 0) →
  ∃ e', (pBE <- VmDirBackendForLogIndex db i ;; _VmDirFetchLogEntry pBE i) s e = _VmDirFetchLogEntry (log_view db) i s e'.
Proof.
  intros He. destruct (log_view_backend db i s e He) as (pBE & e' & Hrun & Hi & _). exists e'. unfold rbind at 1. rewrite Hrun.
  unfold _VmDirFetchLogEntry. by rewrite Hi.
Qed.

End Store.

(** ** Concrete runs *)

Definition log_ex (i t : Z) (c : list Z) : VDIR_RAFT_LOG := RAFT_LOG i t 7 104 c None.

Lemma log_ex_ok i t c : 0 <= i < 2 ^ 64 → 0 <= t < 2 ^ 32 → (length c <= 100)%nat → log_ok (log_ex i t c).
Proof. intros Hi Ht Hc. unfold log_ok, is_u64, is_u32, chglog_len, RAFT_LOG_HEADER_LEN. cbn. lia. Qed.

Lemma raft_log_roundtrip_witness :
  ∃ p q, _VmDirPackLogEntry (log_ex 5 2 [1; 255; 0]) tt [] = Some (inr p, tt, []) ∧
    _VmDirUnpackLogEntry (RAFT_LOG 0 0 0 0 [] (packRaftLog p)) tt [] = Some (inr q, tt, []) ∧
    same_log q (log_ex 5 2 [1; 255; 0]).
Proof.
  destruct (raft_log_roundtrip (log_ex 5 2 [1; 255; 0]) tt) as [(p & b & Hp & Hb & _ & _ & Hq) _].
  - apply log_ex_ok; cbn; lia.
  - destruct (Hq (RAFT_LOG 0 0 0 0 [] (packRaftLog p)) Hb) as (q & Hrun & Hsame).
    exists p, q. split; [exact Hp |]. split; [exact Hrun | exact Hsame].
Defined.

Lemma raft_batch_roundtrip_witness :
  let ls := [log_ex 8 3 [9; 9]; log_ex 8 3 []; log_ex 8 3 [0; 1; 2]] in
  ∃ p p' ls', VmDirPackLogEntries ZERO_LOG ls tt [] = Some (inr (p, []), tt, []) ∧
    VmDirUnpackLogEntries [] (RAFT_LOG 0 0 0 0 [] (packRaftLog p)) tt [] = Some (inr (ERROR_SUCCESS, p', ls'), tt, []) ∧
    Forall2 same_log ls' ls.
Proof.
  intros ls.
  destruct (raft_batch_roundtrip ZERO_LOG (log_ex 8 3 [9; 9]) [log_ex 8 3 []; log_ex 8 3 [0; 1; 2]] tt [])
    as (p & Hp & Hq).
  - repeat constructor; cbn; lia.
  - reflexivity.
  - vm_compute. reflexivity.
  - destruct (Hq (RAFT_LOG 0 0 0 0 [] (packRaftLog p)) eq_refl) as (p' & ls' & Hrun & Hsame & _).
    exists p, p', ls'. split; [exact Hp |]. split; [exact Hrun | exact Hsame].
Defined.

Definition store_ex : log_store :=
  <[3 := entry_bytes (log_ex 3 1 [])]> {[5 := entry_bytes (log_ex 5 2 [1])]}.

Lemma store_ex_ok : store_ok store_ex.
Proof.
  intros i b. unfold store_ex. intros [[<- <-] | [_ [<- <-]%lookup_singleton_Some]]%lookup_insert_Some.
  - exists (log_ex 3 1 []). split; [apply log_ex_ok; cbn; lia | done].
  - exists (log_ex 5 2 [1]). split; [apply log_ex_ok; cbn; lia | done].
Qed.

Lemma raft_prev_log_witness :
  ∃ i t, _VmDirGetPrevLogArgs store_ex 1 9 tt [] = Some (inr (i, t), tt, []) ∧
    ((i = 0 ∧ t = 0 ∧ ∀ j, 1 <= j <= 9 → store_ex !! j = None) ∨
     (1 <= i <= 9 ∧ is_Some (store_ex !! i) ∧ t = log_term store_ex i ∧ ∀ j, i < j <= 9 → store_ex !! j = None)).
Proof. apply (raft_prev_log store_ex 1 9 tt); [apply store_ex_ok | lia | unfold is_u64; lia]. Defined.

(** The previous log of 9 is 5 with term 2, the one of 4 is 3 with term 1, and
    there is none below 3. *)
Example prev_log_values :
  (_VmDirGetPrevLogArgs store_ex 1 9 tt [], _VmDirGetPrevLogArgs store_ex 1 4 tt [],
   _VmDirGetPrevLogArgs store_ex 1 2 tt []) =
  (Some (inr (5, 2), tt, []), Some (inr (3, 1), tt, []), Some (inr (0, 0), tt, [])).
Proof. vm_compute. reflexivity. Qed.

(** The entry 5 is in the current database; when the search for it fails it is
    looked for in the previous one, and read as none. *)
Definition read_index : RM unit Z :=
  pBE <- VmDirBackendForLogIndex (LOG_DATABASES store_ex (Some ∅)) 5 ;; l <- _VmDirFetchLogEntry pBE 5 ;; rret (index l).
Example failed_search_reads_none :
  read_index tt [] = Some (inr 5, tt, []) ∧ read_index tt [1; 0] = Some (inr 0, tt, []).
Proof. split; by vm_compute. Qed.
