(* ===== verification/Raft.v ===== *)
(** * Raft: the consensus module of [lwraft/server/replication]

    One server: the global [gRaftState] with its persistent part, the two RPC
    handlers of [raftldaprpc.c], the vote thread and the vote requests of
    [thread.c], loading the state at start ([replentry.c]).  A function that
    runs under [gRaftStateMutex] is one definition; where the code releases the
    mutex in between there is one definition per critical section, so that
    [RaftElection] can interleave them.  [None] is undefined behaviour or a
    failed assertion (the server stops).  The clock is an argument. *)

From stdpp Require Import sorting.
From S2P Require Import Prelude Heap StringList CString HashMap Effects RaftLog.

Open Scope Z_scope.

(** ** State *)

Inductive VDIR_RAFT_ROLE := VDIR_RAFT_ROLE_CANDIDATE | VDIR_RAFT_ROLE_FOLLOWER | VDIR_RAFT_ROLE_LEADER.
Inductive VDIR_RAFT_EXEC_CMD := ExecNone | ExecReqestVote | ExecAppendEntries | ExecPing.
Inductive VDIR_RAFT_PROXY_STATE := RPC_IDLE | RPC_BUSY | RPC_DISCONN | PENDING_ADD.

#[export] Instance role_eq_dec : EqDecision VDIR_RAFT_ROLE.
Proof. solve_decision. Defined.
#[export] Instance cmd_eq_dec : EqDecision VDIR_RAFT_EXEC_CMD.
Proof. solve_decision. Defined.
#[export] Instance proxy_state_eq_dec : EqDecision VDIR_RAFT_PROXY_STATE.
Proof. solve_decision. Defined.

Record VMDIR_PEER_PROXY := PROXY {
  isDeleted : bool;
  proxy_state : VDIR_RAFT_PROXY_STATE;
  raftPeerHostname : cstr;
  bLogReplicated : bool;
  matchIndex : Z
}.

(** [VDIR_RAFT_STATE] (the fields the modelled code uses; a [VDIR_BERVALUE] of
    length 0 is the empty string), followed by what is on disk: the attributes
    of [RAFT_PERSIST_STATE_DN] and the log. *)
Record raft_state := RS {
  role : VDIR_RAFT_ROLE;
  cmd : VDIR_RAFT_EXEC_CMD;
  hostname : cstr;
  clusterSize : Z;
  voteConsensusCnt : Z;
  voteDeniedCnt : Z;
  voteConsensusTerm : Z;
  initialized : bool;
  lastPingRecvTime : Z;
  commitIndex : Z;
  commitIndexTerm : Z;
  lastLogIndex : Z;
  firstLogIndex : Z;
  indexToApply : Z;
  opCounts : Z;
  lastLogTerm : Z;
  leader : cstr;
  disallowUpdates : bool;
  proxies : list VMDIR_PEER_PROXY;
  lastApplied : Z;
  currentTerm : Z;
  votedForTerm : Z;
  votedFor : cstr;
  ps_term : Z;
  ps_lastApplied : Z;
  ps_firstLogIndex : Z;
  logs : log_store
}.

(** Assignments to one field. *)
Definition set_role (x : VDIR_RAFT_ROLE) (s : raft_state) : raft_state :=
  RS x (cmd s) (hostname s) (clusterSize s) (voteConsensusCnt s) (voteDeniedCnt s)
     (voteConsensusTerm s) (initialized s) (lastPingRecvTime s) (commitIndex s)
     (commitIndexTerm s) (lastLogIndex s) (firstLogIndex s) (indexToApply s) (opCounts s)
     (lastLogTerm s) (leader s) (disallowUpdates s) (proxies s) (lastApplied s) (currentTerm s)
     (votedForTerm s) (votedFor s) (ps_term s) (ps_lastApplied s) (ps_firstLogIndex s) (logs s).

Definition set_cmd (x : VDIR_RAFT_EXEC_CMD) (s : raft_state) : raft_state :=
  RS (role s) x (hostname s) (clusterSize s) (voteConsensusCnt s) (voteDeniedCnt s)
     (voteConsensusTerm s) (initialized s) (lastPingRecvTime s) (commitIndex s)
     (commitIndexTerm s) (lastLogIndex s) (firstLogIndex s) (indexToApply s) (opCounts s)
     (lastLogTerm s) (leader s) (disallowUpdates s) (proxies s) (lastApplied s) (currentTerm s)
     (votedForTerm s) (votedFor s) (ps_term s) (ps_lastApplied s) (ps_firstLogIndex s) (logs s).

Definition set_voteConsensusCnt (x : Z) (s : raft_state) : raft_state :=
  RS (role s) (cmd s) (hostname s) (clusterSize s) x (voteDeniedCnt s) (voteConsensusTerm s)
     (initialized s) (lastPingRecvTime s) (commitIndex s) (commitIndexTerm s) (lastLogIndex s)
     (firstLogIndex s) (indexToApply s) (opCounts s) (lastLogTerm s) (leader s)
     (disallowUpdates s) (proxies s) (lastApplied s) (currentTerm s) (votedForTerm s)
     (votedFor s) (ps_term s) (ps_lastApplied s) (ps_firstLogIndex s) (logs s).

Definition set_voteDeniedCnt (x : Z) (s : raft_state) : raft_state :=
  RS (role s) (cmd s) (hostname s) (clusterSize s) (voteConsensusCnt s) x (voteConsensusTerm s)
     (initialized s) (lastPingRecvTime s) (commitIndex s) (commitIndexTerm s) (lastLogIndex s)
     (firstLogIndex s) (indexToApply s) (opCounts s) (lastLogTerm s) (leader s)
     (disallowUpdates s) (proxies s) (lastApplied s) (currentTerm s) (votedForTerm s)
     (votedFor s) (ps_term s) (ps_lastApplied s) (ps_firstLogIndex s) (logs s).

Definition set_voteConsensusTerm (x : Z) (s : raft_state) : raft_state :=
  RS (role s) (cmd s) (hostname s) (clusterSize s) (voteConsensusCnt s) (voteDeniedCnt s) x
     (initialized s) (lastPingRecvTime s) (commitIndex s) (commitIndexTerm s) (lastLogIndex s)
     (firstLogIndex s) (indexToApply s) (opCounts s) (lastLogTerm s) (leader s)
     (disallowUpdates s) (proxies s) (lastApplied s) (currentTerm s) (votedForTerm s)
     (votedFor s) (ps_term s) (ps_lastApplied s) (ps_firstLogIndex s) (logs s).

Definition set_initialized (x : bool) (s : raft_state) : raft_state :=
  RS (role s) (cmd s) (hostname s) (clusterSize s) (voteConsensusCnt s) (voteDeniedCnt s)
     (voteConsensusTerm s) x (lastPingRecvTime s) (commitIndex s) (commitIndexTerm s)
     (lastLogIndex s) (firstLogIndex s) (indexToApply s) (opCounts s) (lastLogTerm s) (leader s)
     (disallowUpdates s) (proxies s) (lastApplied s) (currentTerm s) (votedForTerm s)
     (votedFor s) (ps_term s) (ps_lastApplied s) (ps_firstLogIndex s) (logs s).

Definition set_lastPingRecvTime (x : Z) (s : raft_state) : raft_state :=
  RS (role s) (cmd s) (hostname s) (clusterSize s) (voteConsensusCnt s) (voteDeniedCnt s)
     (voteConsensusTerm s) (initialized s) x (commitIndex s) (commitIndexTerm s) (lastLogIndex s)
     (firstLogIndex s) (indexToApply s) (opCounts s) (lastLogTerm s) (leader s)
     (disallowUpdates s) (proxies s) (lastApplied s) (currentTerm s) (votedForTerm s)
     (votedFor s) (ps_term s) (ps_lastApplied s) (ps_firstLogIndex s) (logs s).

Definition set_commitIndex (x : Z) (s : raft_state) : raft_state :=
  RS (role s) (cmd s) (hostname s) (clusterSize s) (voteConsensusCnt s) (voteDeniedCnt s)
     (voteConsensusTerm s) (initialized s) (lastPingRecvTime s) x (commitIndexTerm s)
     (lastLogIndex s) (firstLogIndex s) (indexToApply s) (opCounts s) (lastLogTerm s) (leader s)
     (disallowUpdates s) (proxies s) (lastApplied s) (currentTerm s) (votedForTerm s)
     (votedFor s) (ps_term s) (ps_lastApplied s) (ps_firstLogIndex s) (logs s).

Definition set_commitIndexTerm (x : Z) (s : raft_state) : raft_state :=
  RS (role s) (cmd s) (hostname s) (clusterSize s) (voteConsensusCnt s) (voteDeniedCnt s)
     (voteConsensusTerm s) (initialized s) (lastPingRecvTime s) (commitIndex s) x
     (lastLogIndex s) (firstLogIndex s) (indexToApply s) (opCounts s) (lastLogTerm s) (leader s)
     (disallowUpdates s) (proxies s) (lastApplied s) (currentTerm s) (votedForTerm s)
     (votedFor s) (ps_term s) (ps_lastApplied s) (ps_firstLogIndex s) (logs s).

Definition set_lastLogIndex (x : Z) (s : raft_state) : raft_state :=
  RS (role s) (cmd s) (hostname s) (clusterSize s) (voteConsensusCnt s) (voteDeniedCnt s)
     (voteConsensusTerm s) (initialized s) (lastPingRecvTime s) (commitIndex s)
     (commitIndexTerm s) x (firstLogIndex s) (indexToApply s) (opCounts s) (lastLogTerm s)
     (leader s) (disallowUpdates s) (proxies s) (lastApplied s) (currentTerm s) (votedForTerm s)
     (votedFor s) (ps_term s) (ps_lastApplied s) (ps_firstLogIndex s) (logs s).

Definition set_firstLogIndex (x : Z) (s : raft_state) : raft_state :=
  RS (role s) (cmd s) (hostname s) (clusterSize s) (voteConsensusCnt s) (voteDeniedCnt s)
     (voteConsensusTerm s) (initialized s) (lastPingRecvTime s) (commitIndex s)
     (commitIndexTerm s) (lastLogIndex s) x (indexToApply s) (opCounts s) (lastLogTerm s)
     (leader s) (disallowUpdates s) (proxies s) (lastApplied s) (currentTerm s) (votedForTerm s)
     (votedFor s) (ps_term s) (ps_lastApplied s) (ps_firstLogIndex s) (logs s).

Definition set_indexToApply (x : Z) (s : raft_state) : raft_state :=
  RS (role s) (cmd s) (hostname s) (clusterSize s) (voteConsensusCnt s) (voteDeniedCnt s)
     (voteConsensusTerm s) (initialized s) (lastPingRecvTime s) (commitIndex s)
     (commitIndexTerm s) (lastLogIndex s) (firstLogIndex s) x (opCounts s) (lastLogTerm s)
     (leader s) (disallowUpdates s) (proxies s) (lastApplied s) (currentTerm s) (votedForTerm s)
     (votedFor s) (ps_term s) (ps_lastApplied s) (ps_firstLogIndex s) (logs s).

Definition set_opCounts (x : Z) (s : raft_state) : raft_state :=
  RS (role s) (cmd s) (hostname s) (clusterSize s) (voteConsensusCnt s) (voteDeniedCnt s)
     (voteConsensusTerm s) (initialized s) (lastPingRecvTime s) (commitIndex s)
     (commitIndexTerm s) (lastLogIndex s) (firstLogIndex s) (indexToApply s) x (lastLogTerm s)
     (leader s) (disallowUpdates s) (proxies s) (lastApplied s) (currentTerm s) (votedForTerm s)
     (votedFor s) (ps_term s) (ps_lastApplied s) (ps_firstLogIndex s) (logs s).

Definition set_lastLogTerm (x : Z) (s : raft_state) : raft_state :=
  RS (role s) (cmd s) (hostname s) (clusterSize s) (voteConsensusCnt s) (voteDeniedCnt s)
     (voteConsensusTerm s) (initialized s) (lastPingRecvTime s) (commitIndex s)
     (commitIndexTerm s) (lastLogIndex s) (firstLogIndex s) (indexToApply s) (opCounts s) x
     (leader s) (disallowUpdates s) (proxies s) (lastApplied s) (currentTerm s) (votedForTerm s)
     (votedFor s) (ps_term s) (ps_lastApplied s) (ps_firstLogIndex s) (logs s).

Definition set_leader (x : cstr) (s : raft_state) : raft_state :=
  RS (role s) (cmd s) (hostname s) (clusterSize s) (voteConsensusCnt s) (voteDeniedCnt s)
     (voteConsensusTerm s) (initialized s) (lastPingRecvTime s) (commitIndex s)
     (commitIndexTerm s) (lastLogIndex s) (firstLogIndex s) (indexToApply s) (opCounts s)
     (lastLogTerm s) x (disallowUpdates s) (proxies s) (lastApplied s) (currentTerm s)
     (votedForTerm s) (votedFor s) (ps_term s) (ps_lastApplied s) (ps_firstLogIndex s) (logs s).

Definition set_disallowUpdates (x : bool) (s : raft_state) : raft_state :=
  RS (role s) (cmd s) (hostname s) (clusterSize s) (voteConsensusCnt s) (voteDeniedCnt s)
     (voteConsensusTerm s) (initialized s) (lastPingRecvTime s) (commitIndex s)
     (commitIndexTerm s) (lastLogIndex s) (firstLogIndex s) (indexToApply s) (opCounts s)
     (lastLogTerm s) (leader s) x (proxies s) (lastApplied s) (currentTerm s) (votedForTerm s)
     (votedFor s) (ps_term s) (ps_lastApplied s) (ps_firstLogIndex s) (logs s).

Definition set_proxies (x : list VMDIR_PEER_PROXY) (s : raft_state) : raft_state :=
  RS (role s) (cmd s) (hostname s) (clusterSize s) (voteConsensusCnt s) (voteDeniedCnt s)
     (voteConsensusTerm s) (initialized s) (lastPingRecvTime s) (commitIndex s)
     (commitIndexTerm s) (lastLogIndex s) (firstLogIndex s) (indexToApply s) (opCounts s)
     (lastLogTerm s) (leader s) (disallowUpdates s) x (lastApplied s) (currentTerm s)
     (votedForTerm s) (votedFor s) (ps_term s) (ps_lastApplied s) (ps_firstLogIndex s) (logs s).

Definition set_lastApplied (x : Z) (s : raft_state) : raft_state :=
  RS (role s) (cmd s) (hostname s) (clusterSize s) (voteConsensusCnt s) (voteDeniedCnt s)
     (voteConsensusTerm s) (initialized s) (lastPingRecvTime s) (commitIndex s)
     (commitIndexTerm s) (lastLogIndex s) (firstLogIndex s) (indexToApply s) (opCounts s)
     (lastLogTerm s) (leader s) (disallowUpdates s) (proxies s) x (currentTerm s)
     (votedForTerm s) (votedFor s) (ps_term s) (ps_lastApplied s) (ps_firstLogIndex s) (logs s).

Definition set_currentTerm (x : Z) (s : raft_state) : raft_state :=
  RS (role s) (cmd s) (hostname s) (clusterSize s) (voteConsensusCnt s) (voteDeniedCnt s)
     (voteConsensusTerm s) (initialized s) (lastPingRecvTime s) (commitIndex s)
     (commitIndexTerm s) (lastLogIndex s) (firstLogIndex s) (indexToApply s) (opCounts s)
     (lastLogTerm s) (leader s) (disallowUpdates s) (proxies s) (lastApplied s) x
     (votedForTerm s) (votedFor s) (ps_term s) (ps_lastApplied s) (ps_firstLogIndex s) (logs s).

Definition set_votedForTerm (x : Z) (s : raft_state) : raft_state :=
  RS (role s) (cmd s) (hostname s) (clusterSize s) (voteConsensusCnt s) (voteDeniedCnt s)
     (voteConsensusTerm s) (initialized s) (lastPingRecvTime s) (commitIndex s)
     (commitIndexTerm s) (lastLogIndex s) (firstLogIndex s) (indexToApply s) (opCounts s)
     (lastLogTerm s) (leader s) (disallowUpdates s) (proxies s) (lastApplied s) (currentTerm s) x
     (votedFor s) (ps_term s) (ps_lastApplied s) (ps_firstLogIndex s) (logs s).

Definition set_votedFor (x : cstr) (s : raft_state) : raft_state :=
  RS (role s) (cmd s) (hostname s) (clusterSize s) (voteConsensusCnt s) (voteDeniedCnt s)
     (voteConsensusTerm s) (initialized s) (lastPingRecvTime s) (commitIndex s)
     (commitIndexTerm s) (lastLogIndex s) (firstLogIndex s) (indexToApply s) (opCounts s)
     (lastLogTerm s) (leader s) (disallowUpdates s) (proxies s) (lastApplied s) (currentTerm s)
     (votedForTerm s) x (ps_term s) (ps_lastApplied s) (ps_firstLogIndex s) (logs s).

Definition set_ps_term (x : Z) (s : raft_state) : raft_state :=
  RS (role s) (cmd s) (hostname s) (clusterSize s) (voteConsensusCnt s) (voteDeniedCnt s)
     (voteConsensusTerm s) (initialized s) (lastPingRecvTime s) (commitIndex s)
     (commitIndexTerm s) (lastLogIndex s) (firstLogIndex s) (indexToApply s) (opCounts s)
     (lastLogTerm s) (leader s) (disallowUpdates s) (proxies s) (lastApplied s) (currentTerm s)
     (votedForTerm s) (votedFor s) x (ps_lastApplied s) (ps_firstLogIndex s) (logs s).

Definition set_logs (x : log_store) (s : raft_state) : raft_state :=
  RS (role s) (cmd s) (hostname s) (clusterSize s) (voteConsensusCnt s) (voteDeniedCnt s)
     (voteConsensusTerm s) (initialized s) (lastPingRecvTime s) (commitIndex s)
     (commitIndexTerm s) (lastLogIndex s) (firstLogIndex s) (indexToApply s) (opCounts s)
     (lastLogTerm s) (leader s) (disallowUpdates s) (proxies s) (lastApplied s) (currentTerm s)
     (votedForTerm s) (votedFor s) (ps_term s) (ps_lastApplied s) (ps_firstLogIndex s) x.

(** ** Peers *)

Definition live_peers (s : raft_state) : list VMDIR_PEER_PROXY :=
  filter (λ p, isDeleted p = false) (proxies s).

Definition _VmDirClearProxyLogReplicatedInLock (s : raft_state) : raft_state :=
  set_proxies (map (λ p, if isDeleted p then p
                         else PROXY (isDeleted p) (proxy_state p) (raftPeerHostname p) false (matchIndex p))
                   (proxies s)) s.

Definition _VmDirGetAppendEntriesConsensusCountInLock (s : raft_state) : Z :=
  1 + Z.of_nat (length (filter (λ p, bLogReplicated p = true) (live_peers s))).

Definition _VmDirPeersConnectedInLock (s : raft_state) : Z :=
  Z.of_nat (length (filter (λ p, proxy_state p ≠ RPC_DISCONN ∧ proxy_state p ≠ PENDING_ADD) (live_peers s))).

Definition _VmDirPeersIdleInLock (s : raft_state) : Z :=
  Z.of_nat (length (filter (λ p, proxy_state p = RPC_IDLE) (live_peers s))).

(** ** Persistence *)

(** [VmDirPersistTerm]: a term that is negative as [int] is not written; a
    failure to write stops the server. *)
Definition VmDirPersistTerm (t : Z) : RM raft_state unit :=
  o <- next_outcome ;;
  if o =? 0 then (if s32 t >? 0 then rset (set_ps_term (u32 (s32 t))) else rret tt) else rub.

(** [_VmDirPersistLog]: adding an entry that exists fails. *)
Definition _VmDirPersistLog (l : VDIR_RAFT_LOG) : RM raft_state unit :=
  backend_call ;;;
  s <- rget ;;
  match logs s !! index l, packRaftLog l with
  | Some _, _ => rfail VMDIR_ERROR_BACKEND_ENTRY_EXISTS
  | None, Some b => rset (set_logs (<[index l := take (Z.to_nat (lberbv_len b)) (lberbv_val b)]> (logs s)))
  | None, None => rub
  end.

(** [_VmdirDeleteLog] for a log that is replaced (not for compaction): the last
    log becomes the one before it. *)
Definition _VmdirDeleteLog (logIndex : Z) : RM raft_state unit :=
  backend_call ;;;
  s <- rget ;;
  rset (set_logs (delete logIndex (logs s))) ;;;
  s <- rget ;;
  if logIndex <=? lastLogIndex s then
    p <- _VmDirGetPrevLogArgs (logs s) (firstLogIndex s) (u64 (logIndex - 1)) ;;
    if p.1 =? 0 then rfail LDAP_OPERATIONS_ERROR
    else rset (set_lastLogIndex p.1) ;;; rset (set_lastLogTerm p.2)
  else rret tt.

(** The deletion loop, over indices from high to low; the flag is
    [*pbFatalError]. *)
Fixpoint delete_loop (idxs : list Z) : RM raft_state (dwerror * bool) :=
  match idxs with
  | [] => rret (ERROR_SUCCESS, false)
  | i :: idxs =>
      s <- rget ;;
      if i <=? lastApplied s then rret (LDAP_OPERATIONS_ERROR, true)
      else r <- rtry (_VmdirDeleteLog i) ;;
           match r with inl err => rret (err, false) | inr _ => delete_loop idxs end
  end.

(** [qsort] with [_VmDirCompareLogIdx]: from high to low. *)
Definition high_to_low (a b : Z) : Prop := b <= a.
#[export] Instance high_to_low_dec : RelDecision high_to_low.
Proof. intros a b. apply Z.le_dec. Defined.

Definition sort_desc (l : list Z) : list Z := merge_sort high_to_low l.

Definition VmDirDeleteAllLogs (startLogIndex : Z) : RM raft_state (dwerror * bool) :=
  r <- rtry backend_call ;;
  match r with
  | inl err => rret (err, false)
  | inr _ =>
      s <- rget ;;
      let idxs := filter (λ i, startLogIndex <= i) ((map_to_list (logs s)).*1) in
      match idxs with
      | [] => rret (ERROR_SUCCESS, false)
      | _ =>
          a <- rtry (VmDirAllocateMemory (8 * Z.of_nat (length idxs))) ;;
          match a with
          | inl err => rret (err, false)
          | inr _ => delete_loop (sort_desc idxs)
          end
      end
  end.

(** ** RequestVote *)

Section Server.

(** [LwRtlCStringCompare], through [VmDirStringCompareA]. *)
Context (compare : cstr → cstr → bool → Z).

(** A string copied to a [VDIR_BERVALUE]. *)
Definition berval_copy (v : cstr) : RM raft_state unit :=
  VmDirAllocateMemory (Z.of_nat (length v) + 1) ;;; rret tt.

(** Whether the log of this server is more complete than the candidate's. *)
Definition log_newer (s : raft_state) (cLastLogIndex cLastLogTerm : Z) : bool :=
  (lastLogTerm s >? cLastLogTerm) || ((lastLogTerm s =? cLastLogTerm) && (lastLogIndex s >? cLastLogIndex)).

(** The part under [gRaftStateMutex] up to [cleanup]: the error and
    [iVoteGranted] (0 granted, 1 denied, 2 denied for the log). *)
Definition request_vote_decide (t : Z) (candidateId : cstr) (cLastLogIndex cLastLogTerm : Z)
  : RM raft_state (dwerror * Z) :=
  s <- rget ;;
  if negb (initialized s) then rret (VMDIR_ERROR_UNWILLING_TO_PERFORM, 1)
  else if (t <? currentTerm s) || log_newer s cLastLogIndex cLastLogTerm ||
          (bool_decide (role s = VDIR_RAFT_ROLE_LEADER) && (t =? currentTerm s))
  then rret (ERROR_SUCCESS, if log_newer s cLastLogIndex cLastLogTerm then 2 else 1)
  else if bool_decide (votedFor s ≠ []) && (votedForTerm s =? t) && negb (compare (votedFor s) candidateId false =? 0)
  then rret (ERROR_SUCCESS, 1)
  else
    rset (set_votedFor []) ;;;
    r <- rtry (berval_copy candidateId) ;;
    match r with
    | inl err => rret (err, 0)
    | inr _ =>
        rset (set_votedFor candidateId) ;;;
        r <- rtry (berval_copy candidateId) ;;
        rret (match r with inl err => err | inr _ => ERROR_SUCCESS end, 0)
    end.

(** The label [cleanup]: a higher term is adopted, a granted vote is stamped. *)
Definition request_vote_cleanup (now t iVoteGranted : Z) (s : raft_state) : raft_state :=
  let s := if t >? currentTerm s
           then set_lastPingRecvTime (if iVoteGranted =? 2 then 0 else now)
                  (set_role VDIR_RAFT_ROLE_FOLLOWER (set_currentTerm t s))
           else s in
  if iVoteGranted =? 0 then set_votedForTerm (currentTerm s) s else s.

(** The whole handler: the error, [*currentTerm] and [*voteGranted]. *)
Definition _VmDirRequestVoteGetReply (now t : Z) (candidateId : cstr) (cLastLogIndex cLastLogTerm : Z)
  : RM raft_state (dwerror * Z * Z) :=
  s0 <- rget ;;
  let oldTerm := if initialized s0 then s32 (currentTerm s0) else 0 in
  d <- request_vote_decide t candidateId cLastLogIndex cLastLogTerm ;;
  rset (request_vote_cleanup now t d.2) ;;;
  s <- rget ;;
  (if bool_decide (d.1 = ERROR_SUCCESS) && (s32 (currentTerm s) >? oldTerm)
   then VmDirPersistTerm (currentTerm s) else rret tt) ;;;
  rret (d.1, currentTerm s, d.2).

(** ** AppendEntries *)

Definition RAFT_APPLIED_GAP_MAX : Z := 5000.

(** What the handler returns: the error, [*currentTerm] and [*status]. *)
Record append_reply := APPEND_REPLY { ar_error : dwerror; ar_currentTerm : Z; ar_status : Z }.

(** The locals that are live when [gRaftStateMutex] is released. *)
Record append_locals := APPEND_LOCALS { al_oldTerm : Z; al_newTerm : Z; al_lastLogIndex : Z }.

(** The leader is noted for referrals, before its term is looked at. *)
Definition note_leader (ldr : cstr) : RM raft_state unit :=
  s <- rget ;;
  if bool_decide (leader s = []) || negb (compare (leader s) ldr false =? 0)
  then rset (set_leader []) ;;; berval_copy ldr ;;; rset (set_leader ldr)
  else rret tt.

(** The terms are compared.  [inl]: the handler is left through [cleanup] with
    this reply, [oldTerm] and [newTerm]; [inr]: it goes on to the log. *)
Definition append_entries_term (now t : Z) : RM raft_state ((append_reply * Z * Z) + append_locals) :=
  s <- rget ;;
  let oldTerm := s32 (currentTerm s) in
  if currentTerm s >? t
  then rret (inl (APPEND_REPLY ERROR_SUCCESS (currentTerm s) (lastLogIndex s), oldTerm, 0))
  else if bool_decide (role s ≠ VDIR_RAFT_ROLE_FOLLOWER) && (currentTerm s <? t)
  then rset (λ s, set_lastPingRecvTime now (set_role VDIR_RAFT_ROLE_FOLLOWER (set_currentTerm t s))) ;;;
       rret (inl (APPEND_REPLY VMDIR_ERROR_UNWILLING_TO_PERFORM t 0, oldTerm, s32 t))
  else rset (λ s, set_currentTerm t (set_role VDIR_RAFT_ROLE_FOLLOWER s)) ;;;
       (if bool_decide (role s ≠ VDIR_RAFT_ROLE_FOLLOWER) then rset (set_lastPingRecvTime now) else rret tt) ;;;
       rret (inr (APPEND_LOCALS oldTerm (s32 t) (lastLogIndex s))).

(** The first critical section. *)
Definition append_entries_check (now t : Z) (ldr : cstr)
  : RM raft_state ((append_reply * Z * Z) + append_locals) :=
  s <- rget ;;
  if negb (initialized s) then rret (inl (APPEND_REPLY VMDIR_ERROR_UNWILLING_TO_PERFORM 0 0, 0, 0))
  else
    rset (set_lastPingRecvTime (u64 (now + 3600000))) ;;;
    r <- rtry (note_leader ldr) ;;
    match r with
    | inl err => rret (inl (APPEND_REPLY err 0 0, 0, 0))
    | inr _ => append_entries_term now t
    end.

(** Storing the entry of the request, when there is one (a ping carries one
    byte). *)
Definition append_entries_store (preLogIndex leaderCommit : Z) (entries : list Z) : RM raft_state unit :=
  if Z.of_nat (length entries) >? 1 then
    VmDirAllocateMemory (Z.of_nat (length entries)) ;;;
    chgLog <- _VmDirUnpackLogEntry (RAFT_LOG 0 0 0 0 [] (Some (BERVAL entries (Z.of_nat (length entries))))) ;;
    _VmDirPersistLog chgLog ;;;
    rset (set_lastLogIndex (index chgLog)) ;;;
    rset (set_lastLogTerm (term chgLog)) ;;;
    rset (set_commitIndex (Z.min leaderCommit preLogIndex)) ;;;
    rset (set_indexToApply (Z.min leaderCommit preLogIndex)) ;;;
    s <- rget ;; rset (set_opCounts (s32 (opCounts s + 1)))
  else
    rset (set_commitIndex (Z.min leaderCommit preLogIndex)) ;;;
    rset (set_indexToApply (Z.min leaderCommit preLogIndex)).

(** The rest of the body: the error, [*status] and [bFatalError]. *)
Definition append_entries_log (preLogIndex preLogTerm leaderCommit : Z) (entries : list Z) (lastIdx : Z)
  : RM raft_state (dwerror * Z * bool) :=
  s <- rget ;;
  m <- rtry (if preLogIndex =? 0 then rret (true, true) else _VmDirLogLookup (logs s) preLogIndex preLogTerm) ;;
  match m with
  | inl err => rret (err, 0, false)
  | inr (bLogFound, bTermMatch) =>
      if negb bLogFound || negb bTermMatch then rret (ERROR_SUCCESS, lastIdx, false)
      else
        d <- VmDirDeleteAllLogs (u64 (preLogIndex + 1)) ;;
        if bool_decide (d.1 = ERROR_SUCCESS) then
          r <- rtry (append_entries_store preLogIndex leaderCommit entries) ;;
          match r with
          | inl err => rret (err, 0, false)
          | inr _ =>
              s <- rget ;;
              if u64 (lastApplied s + RAFT_APPLIED_GAP_MAX) <? lastLogIndex s
              then rret (VMDIR_ERROR_UNWILLING_TO_PERFORM, 0, false)
              else rret (ERROR_SUCCESS, 0, false)
          end
        else rret (d.1, 0, d.2)
  end.

(** The label [cleanup]: a new term is persisted, a fatal error stops the
    server, and the ping time is set. *)
Definition append_entries_finish (now oldTerm newTerm : Z) (bFatalError : bool) : RM raft_state unit :=
  (if newTerm >? oldTerm then VmDirPersistTerm newTerm else rret tt) ;;;
  (if bFatalError then rub else rret tt) ;;;
  rset (set_lastPingRecvTime now).

Definition _VmDirAppendEntriesGetReply (now t : Z) (ldr : cstr) (preLogIndex preLogTerm leaderCommit : Z)
    (entries : list Z) : RM raft_state append_reply :=
  c <- append_entries_check now t ldr ;;
  match c with
  | inl (reply, oldTerm, newTerm) => append_entries_finish now oldTerm newTerm false ;;; rret reply
  | inr al =>
      r <- append_entries_log preLogIndex preLogTerm leaderCommit entries (al_lastLogIndex al) ;;
      let '(err, status, bFatalError) := r in
      append_entries_finish now (al_oldTerm al) (al_newTerm al) bFatalError ;;;
      rret (APPEND_REPLY err t status)
  end.

(** ** The vote thread *)

(** One round of [_VmDirRaftVoteSchdThread] is cut where the mutex is released
    or waited on.  First: does this server start a vote?  A candidate does
    (split vote), a follower after the election timeout, becoming a
    candidate. *)
Definition vote_decide (now dwRaftElectionTimeoutMS : Z) (s : raft_state) : option raft_state :=
  if clusterSize s <? 2 then None
  else match role s with
       | VDIR_RAFT_ROLE_CANDIDATE => Some s
       | VDIR_RAFT_ROLE_FOLLOWER =>
           if now <? lastPingRecvTime s then None
           else if u64 (now - lastPingRecvTime s) >=? dwRaftElectionTimeoutMS
           then Some (set_role VDIR_RAFT_ROLE_CANDIDATE s)
           else None
       | VDIR_RAFT_ROLE_LEADER => None
       end.

(** [term = ++gRaftState.currentTerm], after the wait for idle peers. *)
Definition vote_increment (s : raft_state) : Z * raft_state :=
  let t := u32 (currentTerm s + 1) in (t, set_currentTerm t s).

(** After the term has been persisted: the vote for itself, unless the term
    moved or the vote of the term is taken.  [true]: the vote is requested. *)
Definition vote_self (now t : Z) : RM raft_state bool :=
  s <- rget ;;
  if negb (currentTerm s =? u32 t) then rret false
  else if (votedForTerm s =? currentTerm s) && bool_decide (votedFor s ≠ [])
  then rset (set_role VDIR_RAFT_ROLE_FOLLOWER) ;;; rset (set_lastPingRecvTime now) ;;; rret false
  else
    rset (set_votedFor []) ;;;
    r <- rtry (berval_copy (hostname s)) ;;
    (match r with inl _ => rret tt | inr _ => rset (set_votedFor (hostname s)) end) ;;;
    rset (set_votedForTerm (currentTerm s)) ;;;
    rset (set_voteConsensusCnt 1) ;;;
    rset (set_voteDeniedCnt 0) ;;;
    rset (set_voteConsensusTerm (currentTerm s)) ;;;
    rset (set_cmd ExecReqestVote) ;;;
    rret true.

(** The wait for the result is over. *)
Definition vote_wake (s : raft_state) : raft_state := set_cmd ExecNone s.

(** [clusterSize/2 + 1] *)
Definition majority (s : raft_state) : Z := clusterSize s `quot` 2 + 1.

(** [_VmDirEvaluateVoteResult] up to the replication of the no-op entry: the
    candidate becomes the leader if the votes of its term reach a majority, and
    writes the no-op entry; an error makes it a follower again.  [true]: leader.
    The begin of the main transaction, the pack, the entry construction and the
    log transaction may fail. *)
Definition _VmDirEvaluateVoteResult : RM raft_state bool :=
  r <- rtry backend_call ;;
  match r with
  | inl _ => rset (set_role VDIR_RAFT_ROLE_FOLLOWER) ;;; rset (set_disallowUpdates false) ;;; rret false
  | inr _ =>
      rset (set_disallowUpdates true) ;;;
      s <- rget ;;
      if bool_decide (role s ≠ VDIR_RAFT_ROLE_CANDIDATE) ||
         negb (currentTerm s =? voteConsensusTerm s) || (voteConsensusCnt s <? majority s)
      then rset (set_disallowUpdates false) ;;; rret false
      else
        rset (set_role VDIR_RAFT_ROLE_LEADER) ;;;
        r <- rtry (l <- _VmDirPackLogEntry
                          (RAFT_LOG (u64 (lastLogIndex s + 1)) (currentTerm s) 0 0 [] None) ;;
                   _VmDirPersistLog l ;;;
                   rset (set_lastLogIndex (index l))) ;;
        match r with
        | inl _ => rset (set_role VDIR_RAFT_ROLE_FOLLOWER) ;;; rset (set_disallowUpdates false) ;;; rret false
        | inr _ => rret true
        end
  end.

(** ** Requesting a vote *)

Record request_vote_args := REQUEST_VOTE_ARGS {
  rv_term : Z; rv_candidateId : cstr; rv_lastLogIndex : Z; rv_lastLogTerm : Z
}.

(** What [_VmDirRequestVoteRpc] sends: the index is cast to [UINT32]. *)
Definition request_vote_send (s : raft_state) : request_vote_args :=
  REQUEST_VOTE_ARGS (currentTerm s) (hostname s) (u32 (lastLogIndex s)) (lastLogTerm s).

(** What it does with the reply of a successful call. *)
Definition request_vote_receive (now replyTerm voteGranted : Z) : RM raft_state unit :=
  s <- rget ;;
  if replyTerm >? currentTerm s then
    rset (set_role VDIR_RAFT_ROLE_FOLLOWER) ;;;
    rset (set_lastPingRecvTime now) ;;;
    rset (set_currentTerm replyTerm) ;;;
    rset (set_voteDeniedCnt (u32 (voteDeniedCnt s + 1))) ;;;
    VmDirPersistTerm replyTerm
  else if bool_decide (role s ≠ VDIR_RAFT_ROLE_CANDIDATE) then rret tt
  else if negb (voteGranted =? 0) then
    rset (set_voteDeniedCnt (u32 (voteDeniedCnt s + 1))) ;;;
    if voteGranted =? 2
    then rset (set_role VDIR_RAFT_ROLE_FOLLOWER) ;;; rset (set_lastPingRecvTime now)
    else rret tt
  else if currentTerm s =? voteConsensusTerm s
  then rset (set_voteConsensusCnt (u32 (voteConsensusCnt s + 1)))
  else rret tt.

(** The peer thread after a call: the command is cleared. *)
Definition peer_thread_done (s : raft_state) : raft_state := set_cmd ExecNone s.

(** ** Start *)

(** [VmDirLoadRaftState] on the memory of a fresh process: what is read from
    disk; [votedFor] and [votedForTerm] keep their initial zero. *)
Definition VmDirLoadRaftState (now maxEId : Z) : RM raft_state unit :=
  backend_call ;;;
  s <- rget ;;
  rset (set_currentTerm (ps_term s)) ;;;
  rset (set_lastApplied (ps_lastApplied s)) ;;;
  rset (set_firstLogIndex (ps_firstLogIndex s)) ;;;
  l <- _VmDirFetchLogEntry (logs s) (ps_lastApplied s) ;;
  rset (set_commitIndex (index l)) ;;;
  rset (set_commitIndexTerm (term l)) ;;;
  rset (set_cmd ExecNone) ;;;
  rset (set_role VDIR_RAFT_ROLE_FOLLOWER) ;;;
  rset (set_lastPingRecvTime now) ;;;
  backend_call ;;;
  l <- _VmDirFetchLogEntry (logs s) maxEId ;;
  rset (set_lastLogIndex (index l)) ;;;
  rset (set_lastLogTerm (term l)) ;;;
  rset (set_initialized true).

(** The state of a new process over the disk of an old one. *)
Definition fresh_process (s : raft_state) : raft_state :=
  RS VDIR_RAFT_ROLE_CANDIDATE ExecNone (hostname s) (clusterSize s) 0 0 0 false 0 0 0 0 0 0 0 0 [] false
     (proxies s) 0 0 0 [] (ps_term s) (ps_lastApplied s) (ps_firstLogIndex s) (logs s).

End Server.

(** ** Voting *)

(** Effects of a computation on the state, whatever its outcome. *)
Definition keeps {A} (P : raft_state → raft_state → Prop) (m : RM raft_state A) : Prop :=
  ∀ s e r s' e', m s e = Some (r, s', e') → P s s'.

Section Keeps.
Context (P : raft_state → raft_state → Prop) `{!PreOrder P}.

Lemma keeps_ret {A} (x : A) : keeps P (rret x).
Proof. intros s e r s' e' [= <- <- <-]. reflexivity. Qed.
Lemma keeps_fail {A} err : keeps P (rfail (A := A) err).
Proof. intros s e r s' e' [= <- <- <-]. reflexivity. Qed.
Lemma keeps_ub {A} : keeps P (rub (A := A)).
Proof. intros s e r s' e' [=]. Qed.
Lemma keeps_get : keeps P rget.
Proof. intros s e r s' e' [= <- <- <-]. reflexivity. Qed.
Lemma keeps_outcome : keeps P next_outcome.
Proof. intros s e r s' e' [= <- <- <-]. reflexivity. Qed.
Lemma keeps_lift {A} (x : option A) : keeps P (rlift x).
Proof. intros s e r s' e'. unfold rlift. destruct x; [intros [= <- <- <-]; reflexivity | done]. Qed.
Lemma keeps_set f : (∀ s, P s (f s)) → keeps P (rset f).
Proof. intros Hf s e r s' e' [= <- <- <-]. apply Hf. Qed.
Lemma keeps_bind {A B} (m : RM raft_state A) (k : A → RM raft_state B) :
  keeps P m → (∀ a, keeps P (k a)) → keeps P (rbind m k).
Proof.
  intros Hm Hk s e r s' e'. unfold rbind. destruct (m s e) as [[[[err | a] s1] e1]|] eqn:E; [| | done].
  - intros [= <- <- <-]. by eapply Hm.
  - intros Hr. transitivity s1; [by eapply Hm | by eapply Hk].
Qed.
Lemma keeps_try {A} (m : RM raft_state A) : keeps P m → keeps P (rtry m).
Proof.
  intros Hm s e r s' e'. unfold rtry. destruct (m s e) as [[[x s1] e1]|] eqn:E; [| done].
  intros [= <- <- <-]. by eapply Hm.
Qed.

Lemma keeps_allocate n : keeps P (VmDirAllocateMemory n).
Proof.
  unfold VmDirAllocateMemory. destruct (n =? 0); [apply keeps_fail |].
  apply keeps_bind; [apply keeps_outcome | intros o; destruct (o =? 0); [apply keeps_ret | apply keeps_fail]].
Qed.
Lemma keeps_backend : keeps P backend_call.
Proof.
  apply keeps_bind; [apply keeps_outcome | intros o; destruct (o =? 0); [apply keeps_ret | apply keeps_fail]].
Qed.
End Keeps.

Create HintDb keeps.
#[export] Hint Resolve keeps_ret keeps_fail keeps_ub keeps_get keeps_outcome keeps_lift keeps_try
  keeps_allocate keeps_backend : keeps.

(** Follows the structure of a computation. *)
Ltac solve_keeps :=
  repeat first
    [ solve [auto with keeps typeclass_instances]
    | apply keeps_bind; [apply _ | | intros ?]
    | apply keeps_try
    | apply keeps_set; intros ?
    | match goal with
      | |- keeps _ (if ?b then _ else _) => destruct b
      | |- keeps _ (match ?x with _ => _ end) => destruct x
      | |- keeps _ (let '(_, _) := ?x in _) => destruct x
      end ].

(** The part of the state that decides elections is not touched; terms do not
    decrease; a leader or candidate that stays one stays in its term. *)
Definition vote_frame (s s' : raft_state) : Prop :=
  (votedFor s' = votedFor s ∧ votedForTerm s' = votedForTerm s ∧ voteConsensusCnt s' = voteConsensusCnt s ∧
   voteConsensusTerm s' = voteConsensusTerm s ∧ hostname s' = hostname s ∧ clusterSize s' = clusterSize s ∧
   cmd s' = cmd s ∧ initialized s' = initialized s) ∧
  currentTerm s <= currentTerm s' ∧
  (role s' = VDIR_RAFT_ROLE_LEADER → role s = VDIR_RAFT_ROLE_LEADER ∧ currentTerm s' = currentTerm s).

#[export] Instance vote_frame_preorder : PreOrder vote_frame.
Proof.
  split.
  - intros s. unfold vote_frame. intuition lia.
  - intros s1 s2 s3 ((? & ? & ? & ? & ? & ? & ? & ?) & ? & Hl1) ((? & ? & ? & ? & ? & ? & ? & ?) & ? & Hl2).
    split; [repeat split; congruence |]. split; [lia |]. intros Hl3. destruct (Hl2 Hl3) as [Hl4 ->]. by apply Hl1.
Qed.

(** Assignments to other fields. *)
Ltac frame_set := split; [repeat split; reflexivity |]; split; [cbn; lia | cbn; intros; split; [done | lia]].


Lemma keeps_unpack P `{!PreOrder P} l : keeps P (_VmDirUnpackLogEntry l).
Proof. unfold _VmDirUnpackLogEntry. destruct (packRaftLog l) as [[v n]|]; [| solve_keeps]. solve_keeps. Qed.
Lemma keeps_fetch P `{!PreOrder P} lg i : keeps P (_VmDirFetchLogEntry lg i).
Proof. unfold _VmDirFetchLogEntry. solve_keeps. apply keeps_unpack, _. Qed.
Lemma keeps_lookup P `{!PreOrder P} lg i t : keeps P (_VmDirLogLookup lg i t).
Proof. unfold _VmDirLogLookup. apply keeps_bind; [apply _ | apply keeps_fetch, _ | solve_keeps]. Qed.
Lemma keeps_prev P `{!PreOrder P} lg f i : keeps P (_VmDirGetPrevLogArgs lg f i).
Proof.
  unfold _VmDirGetPrevLogArgs. generalize (S (Z.to_nat (i - f + 1))) as fuel. intros fuel. revert i.
  induction fuel as [|fuel IH]; intros i; cbn [prev_loop]; [solve_keeps |].
  destruct (i >=? f); [| solve_keeps]. apply keeps_bind; [apply _ | apply keeps_fetch, _ |]. intros l.
  destruct (index l >? 0); [solve_keeps | apply IH].
Qed.
#[export] Hint Resolve keeps_unpack keeps_fetch keeps_lookup keeps_prev : keeps.

Lemma keeps_delete_log i : keeps vote_frame (_VmdirDeleteLog i).
Proof. unfold _VmdirDeleteLog. solve_keeps; frame_set. Qed.
#[export] Hint Resolve keeps_delete_log : keeps.

Lemma keeps_delete_loop ixs : keeps vote_frame (delete_loop ixs).
Proof. induction ixs as [|i ixs IH]; cbn [delete_loop]; solve_keeps. Qed.
#[export] Hint Resolve keeps_delete_loop : keeps.

Lemma keeps_delete_all i : keeps vote_frame (VmDirDeleteAllLogs i).
Proof. unfold VmDirDeleteAllLogs. solve_keeps. Qed.

Lemma keeps_persist_log l : keeps vote_frame (_VmDirPersistLog l).
Proof. unfold _VmDirPersistLog. solve_keeps; frame_set. Qed.

Lemma keeps_persist_term t : keeps vote_frame (VmDirPersistTerm t).
Proof. unfold VmDirPersistTerm. solve_keeps; frame_set. Qed.
#[export] Hint Resolve keeps_delete_all keeps_persist_log keeps_persist_term : keeps.

Lemma keeps_append_store a b c : keeps vote_frame (append_entries_store a b c).
Proof. unfold append_entries_store. solve_keeps; frame_set. Qed.
#[export] Hint Resolve keeps_append_store : keeps.

Lemma keeps_append_log a b c d f : keeps vote_frame (append_entries_log a b c d f).
Proof. unfold append_entries_log. solve_keeps. Qed.

Lemma keeps_append_finish a b c d : keeps vote_frame (append_entries_finish a b c d).
Proof. unfold append_entries_finish. solve_keeps; frame_set. Qed.
#[export] Hint Resolve keeps_append_log keeps_append_finish : keeps.

Lemma run_berval_copy v s e :
  berval_copy v s e = Some (if default 0 (head e) =? 0 then inr tt else inl ERROR_NO_MEMORY, s, tail e).
Proof.
  unfold berval_copy, VmDirAllocateMemory. rewrite (proj2 (Z.eqb_neq _ 0)) by lia.
  unfold rbind, next_outcome. by destruct (default 0 (head e) =? 0).
Qed.

(** Runs the state and control operations of the monad. *)
Ltac run_raft H := repeat (unfold rbind, rget, rset, rtry, rret in H; cbn beta iota in H).

Lemma keeps_note_leader compare ldr : keeps vote_frame (note_leader compare ldr).
Proof. unfold note_leader, berval_copy. solve_keeps; frame_set. Qed.

Lemma keeps_append_term now t : keeps vote_frame (append_entries_term now t).
Proof.
  intros s e r s' e' Hrun. unfold append_entries_term in Hrun. run_raft Hrun.
  destruct (Z.gtb_spec (currentTerm s) t); [injection Hrun as <- <- <-; reflexivity |].
  destruct (_ && _); [| destruct (bool_decide _)]; injection Hrun as <- <- <-;
    (split; [by repeat split |]; split; [cbn; lia | done]).
Qed.
#[export] Hint Resolve keeps_note_leader keeps_append_term : keeps.

Lemma keeps_append_check compare now t ldr : keeps vote_frame (append_entries_check compare now t ldr).
Proof. unfold append_entries_check. solve_keeps. frame_set. Qed.
#[export] Hint Resolve keeps_append_check : keeps.

Lemma keeps_append compare now t ldr a b c d :
  keeps vote_frame (_VmDirAppendEntriesGetReply compare now t ldr a b c d).
Proof. unfold _VmDirAppendEntriesGetReply. solve_keeps. Qed.

(** *** The vote handler *)

Section Vote.
Context (compare : cstr → cstr → bool → Z) `{!CStringCompare compare}.

(** The answer of the handler. *)
Definition vote_answer (s : raft_state) (t : Z) (cand : cstr) (li lt : Z) : Z :=
  if (t <? currentTerm s) || log_newer s li lt || (bool_decide (role s = VDIR_RAFT_ROLE_LEADER) && (t =? currentTerm s))
  then if log_newer s li lt then 2 else 1
  else if bool_decide (votedFor s ≠ []) && (votedForTerm s =? t) && negb (compare (votedFor s) cand false =? 0)
  then 1 else 0.

(** The state it leaves, before a new term is persisted. *)
Definition vote_post (now t g : Z) (cand : cstr) (s : raft_state) : raft_state :=
  request_vote_cleanup now t g (if g =? 0 then set_votedFor cand s else s).

Definition persist_if (t old : Z) (s : raft_state) : raft_state :=
  if s32 t >? old then if s32 t >? 0 then set_ps_term (u32 (s32 t)) s else s else s.

Lemma request_vote_decide_run t cand li lt s :
  initialized s = true →
  request_vote_decide compare t cand li lt s [] =
    let g := vote_answer s t cand li lt in
    Some (inr (ERROR_SUCCESS, g), if g =? 0 then set_votedFor cand s else s, []).
Proof.
  intros Hi. unfold request_vote_decide, vote_answer, rbind, rget, rset, rtry, rret. cbn beta iota. rewrite Hi. cbn [negb].
  destruct ((t <? currentTerm s) || log_newer s li lt || _); [by destruct (log_newer s li lt) |].
  destruct (bool_decide (votedFor s ≠ []) && (votedForTerm s =? t) && _); [done |].
  rewrite run_berval_copy. cbn. rewrite run_berval_copy. done.
Qed.

Lemma request_vote_run now t cand li lt s :
  initialized s = true →
  let g := vote_answer s t cand li lt in
  let s1 := vote_post now t g cand s in
  _VmDirRequestVoteGetReply compare now t cand li lt s [] =
    Some (inr (ERROR_SUCCESS, currentTerm s1, g), persist_if (currentTerm s1) (s32 (currentTerm s)) s1, []).
Proof.
  intros Hi g s1. unfold _VmDirRequestVoteGetReply. unfold rbind at 1. unfold rget at 1. cbn beta iota. rewrite Hi.
  unfold rbind at 1. rewrite request_vote_decide_run by done. cbn zeta. fold g. unfold rbind, rset, rget, rret.
  cbn [fst snd]. fold (vote_post now t g cand s). fold s1. unfold persist_if, VmDirPersistTerm, rbind, next_outcome, rset, rret.
  rewrite bool_decide_eq_true_2 by done. cbn [andb]. destruct (s32 (currentTerm s1) >? s32 (currentTerm s)); [| done]. cbn.
  by destruct (s32 (currentTerm s1) >? 0).
Qed.

Lemma vote_post_term now t g cand s : currentTerm (vote_post now t g cand s) = Z.max (currentTerm s) t.
Proof.
  unfold vote_post, request_vote_cleanup. destruct (g =? 0); cbn;
    destruct (Z.gtb_spec t (currentTerm s)); cbn; lia.
Qed.

Lemma persist_if_frame t old s : vote_frame s (persist_if t old s).
Proof. unfold persist_if. destruct (_ >? old); [destruct (_ >? 0) |]; [frame_set | reflexivity..]. Qed.

(** Whether the log of the candidate is at least as complete. *)
Definition up_to_date (s : raft_state) (li lt : Z) : Prop :=
  lastLogTerm s < lt ∨ (lastLogTerm s = lt ∧ lastLogIndex s <= li).

Lemma log_newer_spec s li lt : log_newer s li lt = false ↔ up_to_date s li lt.
Proof.
  unfold log_newer, up_to_date. destruct (Z.gtb_spec (lastLogTerm s) lt), (Z.eqb_spec (lastLogTerm s) lt),
    (Z.gtb_spec (lastLogIndex s) li); cbn; split; intros; try done; try lia.
Qed.

Lemma vote_granted s t cand li lt :
  vote_answer s t cand li lt = 0 ↔
  currentTerm s <= t ∧ up_to_date s li lt ∧ ¬ (role s = VDIR_RAFT_ROLE_LEADER ∧ t = currentTerm s) ∧
  (votedFor s ≠ [] → votedForTerm s = t → ckey (votedFor s) = ckey cand).
Proof.
  unfold vote_answer. rewrite <- log_newer_spec.
  destruct (Z.ltb_spec t (currentTerm s)); [cbn; destruct (log_newer _ _ _); split; [done | lia | done | lia] |].
  destruct (log_newer s li lt); [cbn; split; [done | intros (_ & [=] & _)] |]. cbn [orb].
  case_bool_decide as Hr; destruct (Z.eqb_spec t (currentTerm s)); cbn [andb];
    [split; [done | tauto] | ..];
  (case_bool_decide as Hv; destruct (Z.eqb_spec (votedForTerm s) t); cbn [andb];
   [destruct (Z.eqb_spec (compare (votedFor s) cand false) 0) as [Hc | Hc]; cbn [negb];
    rewrite compare_caseless in Hc; unfold ckey; split; [| done | done | tauto]; intuition lia
   | split; [intuition lia | done]..]).
Qed.

Lemma vote_answer_cases s t cand li lt :
  vote_answer s t cand li lt = 0 ∨ vote_answer s t cand li lt = 1 ∨ vote_answer s t cand li lt = 2.
Proof. unfold vote_answer. destruct (_ || _); [destruct (log_newer _ _ _) |destruct (_ && _)]; auto. Qed.

(** C7: The answer to a vote request of an initialised server.  The vote is
    granted exactly when the requester's term is not behind, its log is at
    least as complete, this server is not the leader of that term and has not
    voted for another candidate in it; the grant is recorded.  The server moves
    to the higher of both terms, as a follower when its own was lower, and
    persists it; a denial leaves the recorded vote alone, and the log is never
    touched. *)
Theorem raft_vote_handler now t cand li lt s :
  initialized s = true → is_u32 (currentTerm s) → 0 <= t < 2 ^ 31 →
  ∃ g s', _VmDirRequestVoteGetReply compare now t cand li lt s [] =
      Some (inr (ERROR_SUCCESS, Z.max (currentTerm s) t, g), s', []) ∧
    (g = 0 ↔ currentTerm s <= t ∧ up_to_date s li lt ∧ ¬ (role s = VDIR_RAFT_ROLE_LEADER ∧ t = currentTerm s) ∧
             (votedFor s ≠ [] → votedForTerm s = t → ckey (votedFor s) = ckey cand)) ∧
    currentTerm s' = Z.max (currentTerm s) t ∧
    (g = 0 → votedFor s' = cand ∧ votedForTerm s' = t) ∧
    (g ≠ 0 → votedFor s' = votedFor s ∧ votedForTerm s' = votedForTerm s) ∧
    (if decide (currentTerm s < t) then role s' = VDIR_RAFT_ROLE_FOLLOWER ∧ ps_term s' = t
     else role s' = role s ∧ ps_term s' = ps_term s) ∧
    logs s' = logs s ∧ lastLogIndex s' = lastLogIndex s ∧ lastLogTerm s' = lastLogTerm s.
Proof.
  intros Hi Hc Ht. set (g := vote_answer s t cand li lt).
  set (s1 := vote_post now t g cand s). eexists g, _. rewrite request_vote_run by done. fold g s1.
  pose proof (vote_post_term now t g cand s) as Hs1. fold s1 in Hs1. rewrite Hs1. split; [reflexivity |].
  split; [apply vote_granted |]. unfold persist_if, s1, vote_post, request_vote_cleanup.
  unfold is_u32 in Hc.
  destruct (decide (currentTerm s < t)) as [Hlt | Hge].
  - rewrite Z.max_r by lia. rewrite (s32_id t) by lia.
    assert ((t >? s32 (currentTerm s)) = true) as ->.
    { rewrite s32_id by lia. apply Z.gtb_lt. lia. }
    rewrite (proj2 (Z.gtb_lt t 0)) by lia. rewrite u32_id by (unfold is_u32; lia).
    destruct (Z.eqb_spec g 0) as [Hg | Hg]; cbn; rewrite (proj2 (Z.gtb_lt t (currentTerm s))) by lia; cbn; tauto.
  - rewrite Z.max_l by lia.
    assert ((s32 (currentTerm s) >? s32 (currentTerm s)) = false) as ->.
    { destruct (Z.gtb_spec (s32 (currentTerm s)) (s32 (currentTerm s))); [lia | done]. }
    assert ((t >? currentTerm s) = false) as Hf.
    { destruct (Z.gtb_spec t (currentTerm s)); [lia | done]. }
    destruct (Z.eqb_spec g 0) as [Hg | Hg]; cbn; rewrite Hf; cbn; [| tauto].
    pose proof Hg as [Hle _]%vote_granted. assert (currentTerm s = t) by lia. tauto.
Qed.

(** The votes cast so far are consistent with the recorded one. *)
Definition vote_inv (s : raft_state) (vs : list (Z * cstr)) : Prop :=
  votedForTerm s <= currentTerm s ∧
  (∀ t c, (t, c) ∈ vs → t <= votedForTerm s) ∧
  (∀ t c, (t, c) ∈ vs → t = votedForTerm s → votedFor s ≠ [] ∧ ckey c = ckey (votedFor s)) ∧
  (∀ t c d, (t, c) ∈ vs → (t, d) ∈ vs → ckey c = ckey d).

Lemma vote_inv_frame s s' vs : vote_inv s vs → vote_frame s s' → vote_inv s' vs.
Proof.
  intros (H1 & H2 & H3 & H4) ((Hv & Hvt & _) & Ht & _). unfold vote_inv. rewrite Hv, Hvt.
  split; [lia |]. done.
Qed.

Lemma vote_inv_cast s s' vs t c :
  vote_inv s vs → votedForTerm s' = t → votedFor s' = c → c ≠ [] → votedForTerm s <= t → currentTerm s' = t →
  (votedFor s ≠ [] → votedForTerm s = t → ckey (votedFor s) = ckey c) →
  vote_inv s' ((t, c) :: vs).
Proof.
  intros (H1 & H2 & H3 & H4) Hvt Hv Hc Hle Ht Hold. unfold vote_inv. rewrite Hv, Hvt, Ht.
  assert (∀ d, (t, d) ∈ vs → ckey d = ckey c) as Hsame.
  { intros d Hd. pose proof (H2 _ _ Hd). assert (t = votedForTerm s) as He by lia.
    destruct (H3 _ _ Hd He) as [Hne ->]. by apply Hold. }
  split; [lia |]. split; [| split].
  - intros t' d [[= -> ->] | Hd]%elem_of_cons; [lia |]. pose proof (H2 _ _ Hd). lia.
  - intros t' d Hd ->. split; [done |]. apply elem_of_cons in Hd as [[= ->] | Hd]; [done | by apply Hsame].
  - intros t' d1 d2 [[= -> ->] | Hd1]%elem_of_cons [Heq | Hd2]%elem_of_cons; simplify_eq; [done | | | by eapply H4].
    + symmetry. by apply Hsame.
    + by apply Hsame.
Qed.

Lemma vote_inv_handler now t cand li lt s vs ct g s' e' err :
  vote_inv s vs → initialized s = true → cand ≠ [] →
  _VmDirRequestVoteGetReply compare now t cand li lt s [] = Some (inr (err, ct, g), s', e') →
  vote_inv s' (if g =? 0 then (t, cand) :: vs else vs).
Proof.
  intros Hinv Hi Hc. rewrite request_vote_run by done. cbn zeta. intros [= <- <- <- <- <-].
  eapply vote_inv_frame; [| apply persist_if_frame]. set (g := vote_answer s t cand li lt).
  pose proof (vote_post_term now t g cand s) as Hterm. destruct (Z.eqb_spec g 0) as [Hg | Hg].
  - pose proof Hg as (Hle & _ & _ & Hold)%vote_granted. pose proof Hinv as [Hv _].
    rewrite Z.max_r in Hterm by lia.
    apply (vote_inv_cast s); [done | | | done | lia | done | done];
      unfold vote_post, request_vote_cleanup; rewrite Hg; cbn;
      destruct (Z.gtb_spec t (currentTerm s)); cbn; try done; lia.
  - destruct Hinv as (H1 & H2 & H3 & H4). revert Hterm. unfold vote_post, request_vote_cleanup.
    rewrite (proj2 (Z.eqb_neq g 0)) by done. destruct (t >? currentTerm s); cbn; intros Hterm;
      (split; [cbn; lia | done]).
Qed.

End Vote.

(** ** Replicating entries *)

(** A running server: the log is a set of packed entries whose highest one is
    the recorded last log. *)
Definition server_ok (s : raft_state) : Prop :=
  initialized s = true ∧ store_ok (logs s) ∧ 0 < firstLogIndex s ∧ is_u32 (currentTerm s) ∧
  is_Some (logs s !! lastLogIndex s) ∧ (∀ i, is_Some (logs s !! i) → firstLogIndex s <= i <= lastLogIndex s) ∧
  lastLogTerm s = log_term (logs s) (lastLogIndex s).

(** The server with its log cut after an entry. *)
Definition trunc (pre : Z) (s : raft_state) : raft_state :=
  set_lastLogTerm (log_term (logs s) pre)
    (set_lastLogIndex pre (set_logs (filter (λ kv, kv.1 <= pre) (logs s)) s)).

Lemma store_index_range lg i : store_ok lg → is_Some (lg !! i) → 0 < i < 2 ^ 64.
Proof.
  intros Hok [b Hb]. destruct (Hok i b Hb) as (l & ((_ & Hi) & _) & _ & <- & Hp). lia.
Qed.

Lemma store_ok_subset lg lg' : store_ok lg → lg' ⊆ lg → store_ok lg'.
Proof. intros Hok Hsub i b Hb. apply Hok. by eapply lookup_weaken. Qed.

Lemma log_term_delete lg i j : i ≠ j → log_term (delete i lg) j = log_term lg j.
Proof. intros Hne. unfold log_term. by rewrite lookup_delete_ne. Qed.

Lemma delete_log_spec s pre :
  server_ok s → pre < lastLogIndex s → is_Some (logs s !! pre) →
  ∃ j, let s1 := set_lastLogTerm (log_term (logs s) j)
                   (set_lastLogIndex j (set_logs (delete (lastLogIndex s) (logs s)) s)) in
    _VmdirDeleteLog (lastLogIndex s) s [] = Some (inr tt, s1, []) ∧
    pre <= j < lastLogIndex s ∧ server_ok s1.
Proof.
  intros (Hin & Hok & Hf & Hct & Hlast & Hrange & Hlt) Hpre Hsome. set (i := lastLogIndex s) in *.
  pose proof (store_index_range _ _ Hok Hlast) as Hi64.
  assert (store_ok (delete i (logs s))) as Hok' by (eapply store_ok_subset; [done | apply delete_subseteq]).
  destruct (prev_log_args_spec (delete i (logs s)) (firstLogIndex s) (i - 1)
              (set_logs (delete i (logs s)) s)) as (j & t & Hrun & Hspec); [done | done | unfold is_u64; lia |].
  assert (first_le : firstLogIndex s <= pre) by by apply Hrange.
  assert (firstLogIndex s <= j <= i - 1 ∧ is_Some (delete i (logs s) !! j) ∧ t = log_term (delete i (logs s)) j ∧
          ∀ k, j < k <= i - 1 → delete i (logs s) !! k = None) as (Hj & Hsj & -> & Hnone).
  { destruct Hspec as [(_ & _ & Hnone) | Hspec]; [| done]. destruct Hsome as [b Hb].
    specialize (Hnone pre ltac:(lia)). rewrite lookup_delete_ne in Hnone by lia. congruence. }
  exists j. cbn zeta. split; [| split].
  - unfold _VmdirDeleteLog. rewrite run_backend. unfold rbind at 1, rget at 1. unfold rbind at 1, rset at 1.
    unfold rbind at 1, rget at 1. cbn [lastLogIndex set_logs logs firstLogIndex]. fold i. rewrite Z.leb_refl.
    unfold rbind at 1. rewrite u64_id by (unfold is_u64; lia). rewrite Hrun. cbn [fst snd].
    rewrite (proj2 (Z.eqb_neq j 0)) by lia. unfold rbind, rset. rewrite log_term_delete by lia. done.
  - split; [| lia]. destruct (decide (j < pre)); [| lia]. destruct Hsome as [b Hb].
    specialize (Hnone pre ltac:(lia)). rewrite lookup_delete_ne in Hnone by lia. congruence.
  - split; [exact Hin |]. split; [exact Hok' |]. split; [exact Hf |]. split; [exact Hct |]. split; [exact Hsj |].
    split; [| cbn; by rewrite log_term_delete by lia]. cbn.
    intros k Hk. split.
    + destruct Hk as [b Hk]. apply lookup_delete_Some in Hk as [_ Hk]. apply Hrange. eauto.
    + destruct (decide (j < k)); [| lia]. destruct Hk as [b Hk]. pose proof Hk as [Hne Hk']%lookup_delete_Some.
      assert (k <= i) by (apply Hrange; eauto). rewrite Hnone in Hk by lia. done.
Qed.

Lemma trunc_id pre s : server_ok s → pre = lastLogIndex s → trunc pre s = s.
Proof.
  intros (_ & _ & _ & _ & _ & Hrange & Hlt) ->. unfold trunc. rewrite <- Hlt.
  rewrite map_filter_id; [by destruct s |]. intros k b Hb. cbn. apply Hrange. eauto.
Qed.

Lemma filter_delete_high (lg : log_store) pre i :
  pre < i → filter (λ kv, kv.1 <= pre) (delete i lg) = filter (λ kv, kv.1 <= pre) lg.
Proof.
  intros Hi. apply map_eq. intros k. apply option_eq. intros b. rewrite !map_lookup_filter_Some, lookup_delete_Some. cbn.
  split; [tauto |]. intros [Hk Hle]. split; [split; [lia | done] | done].
Qed.

#[export] Instance high_to_low_trans : Transitive high_to_low.
Proof. unfold high_to_low. intros x y z. lia. Qed.
#[export] Instance high_to_low_total : Total high_to_low.
Proof. unfold high_to_low. intros x y. lia. Qed.

Lemma delete_loop_spec pre ixs s :
  server_ok s → is_Some (logs s !! pre) → lastApplied s <= pre →
  StronglySorted high_to_low ixs → NoDup ixs → (∀ i, i ∈ ixs ↔ is_Some (logs s !! i) ∧ pre < i) →
  delete_loop ixs s [] = Some (inr (ERROR_SUCCESS, false), trunc pre s, []).
Proof.
  revert s. induction ixs as [|i ixs IH]; intros s Hs Hpre Hap Hsort Hnd Hin.
  - cbn [delete_loop]. rewrite trunc_id; [done | done |].
    pose proof Hs as (_ & _ & _ & _ & Hlast & Hrange & _). apply Z.le_antisymm; [by apply Hrange |].
    destruct (decide (pre < lastLogIndex s)) as [Hlt |]; [| lia]. exfalso. apply (not_elem_of_nil (lastLogIndex s)). by apply Hin.
  - apply StronglySorted_inv in Hsort as [Hsort Hall]. apply NoDup_cons in Hnd as [Hni Hnd].
    pose proof Hs as (_ & _ & _ & _ & Hlast & Hrange & _).
    destruct (proj1 (Hin i)) as [Hi Hgt]; [left |].
    assert (i = lastLogIndex s) as Heq.
    { apply Z.le_antisymm; [by apply Hrange |].
      assert (lastLogIndex s ∈ i :: ixs) as [-> | Hl]%elem_of_cons; [| done |].
      - apply Hin. split; [done |]. pose proof (proj2 (Hrange _ Hi)). lia.
      - rewrite Forall_forall in Hall. by apply Hall. }
    cbn [delete_loop]. unfold rbind at 1, rget at 1. destruct (Z.leb_spec i (lastApplied s)); [lia |].
    destruct (delete_log_spec s pre) as (j & Hrun & Hj & Hs1); [done | lia | done |].
    unfold rbind, rtry. rewrite Heq, Hrun. rewrite IH; [| done | | done | done | done |].
    + unfold trunc. cbn. rewrite log_term_delete, filter_delete_high by lia. done.
    + cbn. rewrite lookup_delete_ne by lia. done.
    + intros k. cbn. specialize (Hin k). rewrite elem_of_cons in Hin. split.
      * intros Hk. rewrite lookup_delete_ne by congruence. apply Hin. by right.
      * intros [[b Hk] Hk2]. apply lookup_delete_Some in Hk as [Hne Hk]. destruct (proj2 Hin) as [|]; [eauto | congruence | done].
Qed.

Lemma delete_all_spec pre s :
  server_ok s → is_Some (logs s !! pre) → lastApplied s <= pre →
  VmDirDeleteAllLogs (pre + 1) s [] = Some (inr (ERROR_SUCCESS, false), trunc pre s, []).
Proof.
  intros Hs Hpre Hap. unfold VmDirDeleteAllLogs. unfold rbind at 1, rtry at 1, backend_call at 1.
  unfold rbind at 1, next_outcome at 1. cbn [default head tail Z.eqb]. unfold rret at 1. cbn beta iota.
  unfold rbind at 1, rget at 1. set (ixs := filter (λ i, pre + 1 <= i) (map_to_list (logs s)).*1).
  assert (∀ i, i ∈ ixs ↔ is_Some (logs s !! i) ∧ pre < i) as Hin.
  { intros i. unfold ixs. rewrite list_elem_of_filter, list_elem_of_fmap. split.
    - intros [Hi ((k & b) & -> & Hk%elem_of_map_to_list)]. cbn in *. split; [eauto | lia].
    - intros [[b Hb] Hi]. split; [lia |]. exists (i, b). split; [done |]. by apply elem_of_map_to_list. }
  destruct ixs as [|i ixs'] eqn:Hixs.
  { rewrite trunc_id; [done | done |]. pose proof Hs as (_ & _ & _ & _ & Hlast & Hrange & _).
    apply Z.le_antisymm; [by apply Hrange |]. destruct (decide (pre < lastLogIndex s)) as [Hlt |]; [| lia].
    exfalso. apply (not_elem_of_nil (lastLogIndex s)). by apply Hin. }
  rewrite <- Hixs. unfold rbind, rtry. rewrite allocate_ok; [| rewrite Hixs; cbn [length]; lia | done]. cbn [tail].
  assert (sort_desc ixs ≡ₚ ixs) as Hp by apply merge_sort_Permutation.
  apply delete_loop_spec; [done | done | done | apply StronglySorted_merge_sort; apply _ | |].
  - rewrite Hp. unfold ixs. apply NoDup_filter, NoDup_fst_map_to_list.
  - intros k. rewrite Hp, Hixs. apply Hin.
Qed.

Lemma lookup_run (lg : log_store) i t (s : raft_state) :
  store_ok lg →
  _VmDirLogLookup lg i t s [] =
    Some (inr (match lg !! i with Some _ => (true, log_term lg i =? t) | None => (false, false) end), s, []).
Proof.
  intros Hok. unfold _VmDirLogLookup, rbind. pose proof (fetch_spec lg i s Hok) as Hf.
  destruct (lg !! i) as [b|].
  - destruct Hf as (l & -> & <- & Hpos & ->). by rewrite (proj2 (Z.gtb_lt _ _)) by lia.
  - by rewrite Hf.
Qed.

Lemma server_ok_ext s s' :
  server_ok s → initialized s' = initialized s → logs s' = logs s → firstLogIndex s' = firstLogIndex s →
  lastLogIndex s' = lastLogIndex s → lastLogTerm s' = lastLogTerm s → is_u32 (currentTerm s') → server_ok s'.
Proof. unfold server_ok. intros (? & ? & ? & ? & ? & ? & ?) -> -> -> -> -> ?. done. Qed.

Lemma trunc_ok pre s : server_ok s → is_Some (logs s !! pre) → server_ok (trunc pre s).
Proof.
  intros (Hin & Hok & Hf & Hct & Hlast & Hrange & Hlt) [b Hb]. unfold trunc.
  split; [exact Hin |]. split; [eapply store_ok_subset; [exact Hok | apply map_filter_subseteq] |].
  split; [exact Hf |]. split; [exact Hct |]. cbn. split; [| split].
  - exists b. by apply map_lookup_filter_Some.
  - intros i [c [Hc Hle]%map_lookup_filter_Some]. cbn in Hle. split; [| done]. apply Hrange. eauto.
  - unfold log_term. rewrite Hb. by rewrite (map_lookup_filter_Some_2 _ _ _ b).
Qed.

(** The follower with its log cut after [pre] and the new entry behind. *)
Definition appended (pre leaderCommit : Z) (l : VDIR_RAFT_LOG) (s : raft_state) : raft_state :=
  set_opCounts (s32 (opCounts s + 1))
    (set_indexToApply (Z.min leaderCommit pre) (set_commitIndex (Z.min leaderCommit pre)
      (set_lastLogTerm (term l) (set_lastLogIndex (index l)
        (set_logs (<[index l := entry_bytes l]> (logs (trunc pre s))) (trunc pre s)))))).

Lemma append_store_run pre lc l s :
  log_ok l → logs s !! index l = None →
  append_entries_store pre lc (entry_bytes l) s [] =
    Some (inr tt, set_opCounts (s32 (opCounts s + 1))
      (set_indexToApply (Z.min lc pre) (set_commitIndex (Z.min lc pre)
        (set_lastLogTerm (term l) (set_lastLogIndex (index l) (set_logs (<[index l := entry_bytes l]> (logs s)) s))))), []).
Proof.
  intros Hl Hnone. unfold append_entries_store. pose proof (entry_length l) as Hlen. pose proof (chglog_len_pos l).
  change RAFT_LOG_HEADER_LEN with 24 in Hlen. rewrite (proj2 (Z.gtb_lt _ _)) by lia.
  unfold rbind at 1. rewrite allocate_ok by (done || lia). cbn [tail].
  unfold rbind at 1. rewrite (unpack_spec l _ []); [| done | cbn [packRaftLog]; by rewrite app_nil_r].
  cbn [packRaftLog]. unfold rbind at 1. unfold _VmDirPersistLog. rewrite run_backend. unfold rbind at 1, rget at 1.
  cbn [index packRaftLog lberbv_len lberbv_val]. rewrite Hnone. unfold rset at 1.
  rewrite Nat2Z.id, firstn_all. done.
Qed.

Lemma append_log_run pre pt lc l last s :
  server_ok s → is_Some (logs s !! pre) → log_term (logs s) pre = pt → lastApplied s <= pre →
  log_ok l → pre < index l <= lastApplied s + RAFT_APPLIED_GAP_MAX → 0 <= lastApplied s < 2 ^ 63 →
  append_entries_log pre pt lc (entry_bytes l) last s [] =
    Some (inr (ERROR_SUCCESS, 0, false), appended pre lc l s, []).
Proof.
  intros Hs Hpre Hpt Hap Hl Hidx Hla. pose proof Hs as (_ & Hok & _).
  pose proof (store_index_range _ _ Hok Hpre) as Hpre64. unfold append_entries_log.
  unfold rbind at 1, rget at 1. unfold rbind at 1, rtry at 1.
  rewrite (proj2 (Z.eqb_neq pre 0)) by lia. rewrite lookup_run by done. destruct Hpre as [b Hb].
  rewrite Hb, Hpt, Z.eqb_refl. cbn [negb orb]. unfold rbind at 1.
  pose proof Hl as ((_ & Hi64) & _). rewrite u64_id by (unfold is_u64; lia).
  rewrite delete_all_spec; [| done | by rewrite Hb | done]. cbn [fst]. rewrite bool_decide_eq_true_2 by done.
  unfold rbind at 1, rtry at 1. rewrite append_store_run; [| done |].
  - unfold rbind, rget. unfold appended. cbn [lastApplied lastLogIndex set_opCounts set_indexToApply set_commitIndex
      set_lastLogTerm set_lastLogIndex set_logs trunc opCounts].
    unfold RAFT_APPLIED_GAP_MAX in *. rewrite u64_id by (unfold is_u64; lia).
    destruct (Z.ltb_spec (lastApplied s + 5000) (index l)); [lia | done].
  - unfold trunc. cbn. apply map_lookup_filter_None. right. intros ? _. cbn. lia.
Qed.

Section Append.
Context (compare : cstr → cstr → bool → Z) `{!CStringCompare compare}.

(** The state after the leader has been noted. *)
Definition noted (now : Z) (ldr : cstr) (s : raft_state) : raft_state :=
  let s := set_lastPingRecvTime (u64 (now + 3600000)) s in
  if bool_decide (leader s = []) || negb (compare (leader s) ldr false =? 0) then set_leader ldr (set_leader [] s) else s.

Lemma append_check_run now t ldr s :
  initialized s = true →
  append_entries_check compare now t ldr s [] = append_entries_term now t (noted now ldr s) [].
Proof.
  intros Hi. unfold append_entries_check. unfold rbind at 1, rget at 1. rewrite Hi. cbn [negb].
  unfold rbind at 1, rset at 1. unfold rbind at 1, rtry at 1. unfold note_leader. unfold rbind at 1, rget at 1.
  unfold noted. cbn zeta. cbn [leader set_lastPingRecvTime].
  destruct (bool_decide (leader s = []) || _); [| done].
  unfold rbind at 1, rset at 1. unfold rbind at 1. by rewrite run_berval_copy.
Qed.

Lemma noted_same now ldr s :
  let s' := noted now ldr s in
  initialized s' = initialized s ∧ logs s' = logs s ∧ firstLogIndex s' = firstLogIndex s ∧
  lastLogIndex s' = lastLogIndex s ∧ lastLogTerm s' = lastLogTerm s ∧ currentTerm s' = currentTerm s ∧
  role s' = role s ∧ lastApplied s' = lastApplied s ∧ commitIndex s' = commitIndex s ∧ ps_term s' = ps_term s.
Proof. unfold noted. cbn zeta. by destruct (_ || _). Qed.

Lemma s32_s32 t : s32 (s32 t) = s32 t.
Proof.
  apply s32_id. unfold s32. pose proof (Z.mod_pos_bound t (2 ^ 32)). destruct (Z.ltb_spec (t mod 2 ^ 32) (2 ^ 31)); lia.
Qed.

Lemma finish_run now old t s :
  append_entries_finish now old (s32 t) false s [] = Some (inr tt, set_lastPingRecvTime now (persist_if t old s), []).
Proof.
  unfold append_entries_finish, persist_if, VmDirPersistTerm, rbind, next_outcome, rset, rret.
  destruct (s32 t >? old); [| done]. cbn. rewrite s32_s32. by destruct (s32 t >? 0).
Qed.

Lemma persist_if_same t old s :
  let s' := persist_if t old s in
  initialized s' = initialized s ∧ logs s' = logs s ∧ firstLogIndex s' = firstLogIndex s ∧
  lastLogIndex s' = lastLogIndex s ∧ lastLogTerm s' = lastLogTerm s ∧ currentTerm s' = currentTerm s ∧
  role s' = role s ∧ lastApplied s' = lastApplied s ∧ commitIndex s' = commitIndex s.
Proof. unfold persist_if. by destruct (s32 t >? old), (s32 t >? 0). Qed.

(** The server that accepted the term of the leader. *)
Definition follows (now t : Z) (ldr : cstr) (s : raft_state) : raft_state :=
  let s1 := set_currentTerm t (set_role VDIR_RAFT_ROLE_FOLLOWER (noted now ldr s)) in
  if bool_decide (role s ≠ VDIR_RAFT_ROLE_FOLLOWER) then set_lastPingRecvTime now s1 else s1.

Definition accepts_term (t : Z) (s : raft_state) : Prop :=
  currentTerm s <= t ∧ (role s = VDIR_RAFT_ROLE_FOLLOWER ∨ currentTerm s = t).

Lemma append_accept_run now t ldr s :
  initialized s = true → accepts_term t s →
  append_entries_check compare now t ldr s [] =
    Some (inr (inr (APPEND_LOCALS (s32 (currentTerm s)) (s32 t) (lastLogIndex s))), follows now t ldr s, []).
Proof.
  intros Hi [Hle Hrole]. rewrite append_check_run by done. unfold append_entries_term, rbind, rget, rset, rret.
  destruct (noted_same now ldr s) as (_ & _ & _ & Hll & _ & Hct & Hr & _). rewrite Hct, Hr, Hll. unfold follows.
  destruct (Z.gtb_spec (currentTerm s) t); [lia |].
  assert (bool_decide (role s ≠ VDIR_RAFT_ROLE_FOLLOWER) && (currentTerm s <? t) = false) as ->.
  { case_bool_decide; [| done]. destruct Hrole as [| ->]; [done |]. cbn. apply Z.ltb_irrefl. }
  by destruct (bool_decide _).
Qed.

Lemma follows_same now t ldr s :
  let s' := follows now t ldr s in
  initialized s' = initialized s ∧ logs s' = logs s ∧ firstLogIndex s' = firstLogIndex s ∧
  lastLogIndex s' = lastLogIndex s ∧ lastLogTerm s' = lastLogTerm s ∧ currentTerm s' = t ∧
  role s' = VDIR_RAFT_ROLE_FOLLOWER ∧ lastApplied s' = lastApplied s ∧ commitIndex s' = commitIndex s.
Proof.
  destruct (noted_same now ldr s) as (? & ? & ? & ? & ? & ? & ? & ? & ? & _).
  unfold follows. cbn zeta. destruct (bool_decide _); cbn; tauto.
Qed.

Lemma follows_ok now t ldr s : server_ok s → is_u32 t → server_ok (follows now t ldr s).
Proof.
  intros Hs Ht. destruct (follows_same now t ldr s) as (? & ? & ? & ? & ? & Hc & _).
  eapply server_ok_ext; [exact Hs | done.. | by rewrite Hc].
Qed.

Lemma appended_same pre lc l s :
  let s' := appended pre lc l s in
  initialized s' = initialized s ∧ logs s' = <[index l := entry_bytes l]> (filter (λ kv, kv.1 <= pre) (logs s)) ∧
  firstLogIndex s' = firstLogIndex s ∧ lastLogIndex s' = index l ∧ lastLogTerm s' = term l ∧
  currentTerm s' = currentTerm s ∧ role s' = role s ∧ lastApplied s' = lastApplied s ∧
  commitIndex s' = Z.min lc pre.
Proof. repeat split; reflexivity. Qed.

Lemma appended_ok pre lc l s :
  server_ok s → is_Some (logs s !! pre) → log_ok l → pre < index l → server_ok (appended pre lc l s).
Proof.
  intros (Hin & Hok & Hf & Hct & Hlast & Hrange & Hlt) Hpre Hl Hidx.
  pose proof (store_index_range _ _ Hok Hpre) as Hp. pose proof (Hrange pre Hpre) as Hfp.
  destruct (appended_same pre lc l s) as (Ha1 & Ha2 & Ha3 & Ha4 & Ha5 & Ha6 & _).
  unfold server_ok. rewrite Ha1, Ha2, Ha3, Ha4, Ha5, Ha6. clear Ha1 Ha2 Ha3 Ha4 Ha5 Ha6.
  split; [done |]. split; [| split; [done |]; split; [done |]; split; [| split]].
  - intros i b [[<- <-] | [Hne [Hb _]%map_lookup_filter_Some]]%lookup_insert_Some; [| by apply Hok].
    exists l. split; [done |]. split; [done |]. split; [done | lia].
  - exists (entry_bytes l). apply lookup_insert_eq.
  - intros i [b [[<- <-] | [Hne [Hb Hle]%map_lookup_filter_Some]]%lookup_insert_Some]; [lia |]. cbn in Hle.
    destruct (Hrange i) as [H1 H2]; [eauto |]. lia.
  - symmetry. apply (log_term_entry _ _ _ []); [done |]. rewrite app_nil_r. apply lookup_insert_eq.
Qed.

Lemma append_success now t ldr pre pt lc l s :
  server_ok s → is_u32 t → accepts_term t s →
  is_Some (logs s !! pre) → log_term (logs s) pre = pt → lastApplied s <= pre →
  log_ok l → pre < index l <= lastApplied s + RAFT_APPLIED_GAP_MAX → 0 <= lastApplied s < 2 ^ 63 →
  ∃ s', _VmDirAppendEntriesGetReply compare now t ldr pre pt lc (entry_bytes l) s [] =
      Some (inr (APPEND_REPLY ERROR_SUCCESS t 0), s', []) ∧
    logs s' = <[index l := entry_bytes l]> (filter (λ kv, kv.1 <= pre) (logs s)) ∧
    lastLogIndex s' = index l ∧ lastLogTerm s' = term l ∧ commitIndex s' = Z.min lc pre ∧
    currentTerm s' = t ∧ role s' = VDIR_RAFT_ROLE_FOLLOWER ∧ lastApplied s' = lastApplied s ∧ server_ok s'.
Proof.
  intros Hs Ht Hacc Hpre Hpt Hap Hl Hidx Hla. pose proof Hs as [Hi _].
  destruct (follows_same now t ldr s) as (Hf1 & Hf2 & Hf3 & Hf4 & Hf5 & Hf6 & Hf7 & Hf8 & Hf9).
  set (s1 := follows now t ldr s) in *. set (s2 := appended pre lc l s1).
  destruct (persist_if_same t (s32 (currentTerm s)) s2) as (Hp1 & Hp2 & Hp3 & Hp4 & Hp5 & Hp6 & Hp7 & Hp8 & Hp9).
  exists (set_lastPingRecvTime now (persist_if t (s32 (currentTerm s)) s2)). split.
  - unfold _VmDirAppendEntriesGetReply. unfold rbind at 1. rewrite append_accept_run by done. cbn beta iota.
    unfold rbind at 1. fold s1. rewrite append_log_run; rewrite ?Hf2, ?Hf8; [| by apply follows_ok | done..].
    fold s2. unfold rbind at 1. cbn [al_oldTerm al_newTerm]. by rewrite finish_run.
  - cbn [logs lastLogIndex lastLogTerm commitIndex currentTerm role lastApplied set_lastPingRecvTime].
    destruct (appended_same pre lc l s1) as (Ha1 & Ha2 & Ha3 & Ha4 & Ha5 & Ha6 & Ha7 & Ha8 & Ha9).
    fold s2 in Ha1, Ha2, Ha3, Ha4, Ha5, Ha6, Ha7, Ha8, Ha9.
    rewrite Hp2, Hp4, Hp5, Hp6, Hp7, Hp8, Hp9, Ha2, Ha4, Ha5, Ha6, Ha7, Ha8, Ha9, Hf2, Hf6, Hf7, Hf8.
    repeat (split; [reflexivity |]). apply (server_ok_ext s2); [| exact Hp1 | exact Hp2 | exact Hp3 | exact Hp4 | exact Hp5 |].
    + apply appended_ok; rewrite ?Hf2; [by apply follows_ok | done | done | lia].
    + cbn [currentTerm set_lastPingRecvTime]. by rewrite Hp6, Ha6, Hf6.
Qed.

(** C5: A request whose previous entry is in the log with the right term is
    accepted: everything behind that entry is replaced by the new entry, the
    last log and the commit index follow, the server is a follower in the
    leader's term, and the invariant of the log holds again. *)
Theorem raft_append_accepts now t ldr pre pt lc l s :
  server_ok s → is_u32 t → accepts_term t s →
  is_Some (logs s !! pre) → log_term (logs s) pre = pt → lastApplied s <= pre →
  log_ok l → pre < index l <= lastApplied s + RAFT_APPLIED_GAP_MAX → 0 <= lastApplied s < 2 ^ 63 →
  ∃ s', _VmDirAppendEntriesGetReply compare now t ldr pre pt lc (entry_bytes l) s [] =
      Some (inr (APPEND_REPLY ERROR_SUCCESS t 0), s', []) ∧
    logs s' = <[index l := entry_bytes l]> (filter (λ kv, kv.1 <= pre) (logs s)) ∧
    lastLogIndex s' = index l ∧ lastLogTerm s' = term l ∧ commitIndex s' = Z.min lc pre ∧
    currentTerm s' = t ∧ role s' = VDIR_RAFT_ROLE_FOLLOWER ∧ lastApplied s' = lastApplied s ∧ server_ok s'.
Proof. apply append_success. Qed.

(** Two logs agree up to every entry they share by index and term. *)
Definition log_match (l1 l2 : log_store) : Prop :=
  ∀ i, is_Some (l1 !! i) → is_Some (l2 !! i) → log_term l1 i = log_term l2 i → ∀ j, j <= i → l1 !! j = l2 !! j.

Lemma append_keeps_match (lg Lg : log_store) pre l :
  pre < index l → log_match lg Lg → Lg !! index l = Some (entry_bytes l) → is_Some (Lg !! pre) →
  (∀ j, pre < j < index l → Lg !! j = None) → is_Some (lg !! pre) → log_term lg pre = log_term Lg pre →
  let lg' := <[index l := entry_bytes l]> (filter (λ kv, kv.1 <= pre) lg) in
  (∀ j, j <= index l → lg' !! j = Lg !! j) ∧ log_match lg' Lg.
Proof.
  intros Hidx Hm Hlg Hlpre Hgap Hpre Hpt lg'.
  assert (∀ j, j <= index l → lg' !! j = Lg !! j) as Heq.
  { intros j Hj. unfold lg'. destruct (decide (j = index l)) as [-> | Hne]; [by rewrite lookup_insert_eq |].
    rewrite lookup_insert_ne by done. destruct (decide (j <= pre)) as [Hle | Hgt].
    - rewrite <- (Hm pre Hpre Hlpre Hpt j Hle). destruct (lg !! j) as [b|] eqn:Hb.
      + by apply map_lookup_filter_Some.
      + apply map_lookup_filter_None. by left.
    - rewrite Hgap by lia. apply map_lookup_filter_None. right. intros ? _. cbn. lia. }
  split; [done |]. intros i Hi1 Hi2 _ j Hj. apply Heq.
  destruct Hi1 as [b Hb]. unfold lg' in Hb.
  apply lookup_insert_Some in Hb as [[-> _] | [_ [_ Hle]%map_lookup_filter_Some]]; [done | cbn in Hle; lia].
Qed.

(** C2: Log matching: if the follower's log matches the leader's, and the
    leader sends an entry of its log with the index and term of the entry
    before it, then accepting it makes both logs equal up to that entry, and
    they match again. *)
Theorem raft_log_matching now t ldr pre pt lc l s Lg :
  server_ok s → is_u32 t → accepts_term t s → lastApplied s <= pre →
  pre < index l <= lastApplied s + RAFT_APPLIED_GAP_MAX → 0 <= lastApplied s < 2 ^ 63 → log_ok l →
  log_match (logs s) Lg → Lg !! index l = Some (entry_bytes l) → is_Some (Lg !! pre) → log_term Lg pre = pt →
  (∀ j, pre < j < index l → Lg !! j = None) →
  is_Some (logs s !! pre) → log_term (logs s) pre = pt →
  ∃ s', _VmDirAppendEntriesGetReply compare now t ldr pre pt lc (entry_bytes l) s [] =
      Some (inr (APPEND_REPLY ERROR_SUCCESS t 0), s', []) ∧
    (∀ j, j <= index l → logs s' !! j = Lg !! j) ∧ log_match (logs s') Lg.
Proof.
  intros Hs Ht Hacc Hap Hidx Hla Hl Hm Hlg Hlpre Hlpt Hgap Hpre Hpt.
  destruct (append_success now t ldr pre pt lc l s) as (s' & Hrun & Hlogs & _); [done.. |].
  exists s'. split; [done |]. rewrite Hlogs. apply append_keeps_match; [lia | done.. | congruence].
Qed.

(** A request whose previous entry is missing or different. *)
Lemma append_mismatch now t ldr pre pt lc es s :
  server_ok s → is_u32 t → accepts_term t s → pre ≠ 0 → (logs s !! pre = None ∨ log_term (logs s) pre ≠ pt) →
  ∃ s', _VmDirAppendEntriesGetReply compare now t ldr pre pt lc es s [] =
      Some (inr (APPEND_REPLY ERROR_SUCCESS t (lastLogIndex s)), s', []) ∧ lastLogIndex s ≠ 0 ∧
    logs s' = logs s ∧ currentTerm s' = t ∧ role s' = VDIR_RAFT_ROLE_FOLLOWER ∧
    lastLogIndex s' = lastLogIndex s ∧ lastApplied s' = lastApplied s ∧ server_ok s'.
Proof.
  intros Hs Ht Hacc Hp0 Hno. pose proof Hs as (Hi & Hok & _ & _ & Hlast & _).
  destruct (follows_same now t ldr s) as (Hf1 & Hf2 & Hf3 & Hf4 & Hf5 & Hf6 & Hf7 & Hf8 & _).
  destruct (persist_if_same t (s32 (currentTerm s)) (follows now t ldr s)) as (Hp1 & Hp2 & Hp3 & Hp4 & Hp5 & Hp6 & Hp7 & Hp8 & _).
  exists (set_lastPingRecvTime now (persist_if t (s32 (currentTerm s)) (follows now t ldr s))).
  split; [| split; [pose proof (store_index_range _ _ Hok Hlast); lia |]].
  - unfold _VmDirAppendEntriesGetReply. unfold rbind at 1. rewrite append_accept_run by done. cbn beta iota.
    unfold rbind at 1, append_entries_log. unfold rbind at 1, rget at 1. unfold rbind at 1, rtry at 1.
    rewrite (proj2 (Z.eqb_neq pre 0)) by done. rewrite Hf2, lookup_run by done.
    assert (∀ A (x y : A), (if negb (match logs s !! pre with Some _ => (true, log_term (logs s) pre =? pt)
        | None => (false, false) end).1 || negb (match logs s !! pre with Some _ => (true, log_term (logs s) pre =? pt)
        | None => (false, false) end).2 then x else y) = x) as Hif.
    { intros A x y. destruct (logs s !! pre); [| done]. destruct Hno as [|Hne]; [done |].
      cbn. by rewrite (proj2 (Z.eqb_neq _ _)). }
    destruct (match logs s !! pre with Some _ => _ | None => _ end) as [bf bm]. cbn [fst snd] in Hif. rewrite Hif.
    unfold rret at 1. cbn beta iota. unfold rbind at 1. cbn [al_oldTerm al_newTerm al_lastLogIndex].
    rewrite finish_run. reflexivity.
  - cbn [logs currentTerm role lastLogIndex lastApplied set_lastPingRecvTime].
    rewrite Hp2, Hp4, Hp6, Hp7, Hp8, Hf2, Hf4, Hf6, Hf7, Hf8. do 5 (split; [reflexivity |]).
    apply (server_ok_ext s); [done | exact (eq_trans Hp1 Hf1) | exact (eq_trans Hp2 Hf2) | exact (eq_trans Hp3 Hf3)
      | exact (eq_trans Hp4 Hf4) | exact (eq_trans Hp5 Hf5) |].
    cbn [currentTerm set_lastPingRecvTime]. by rewrite Hp6, Hf6.
Qed.

(** C36: A request that is not accepted leaves the log alone: a stale leader is
    told the higher term, a leader or candidate of a lower term steps down and
    asks for a fresh request, and a missing or different previous entry is
    answered with the index of the last log, which is not zero. *)
Theorem raft_append_rejects now t ldr pre pt lc es s :
  server_ok s → is_u32 t →
  (t < currentTerm s → ∃ s',
     _VmDirAppendEntriesGetReply compare now t ldr pre pt lc es s [] =
       Some (inr (APPEND_REPLY ERROR_SUCCESS (currentTerm s) (lastLogIndex s)), s', []) ∧
     logs s' = logs s ∧ currentTerm s' = currentTerm s ∧ role s' = role s) ∧
  (currentTerm s < t → role s ≠ VDIR_RAFT_ROLE_FOLLOWER → ∃ s',
     _VmDirAppendEntriesGetReply compare now t ldr pre pt lc es s [] =
       Some (inr (APPEND_REPLY VMDIR_ERROR_UNWILLING_TO_PERFORM t 0), s', []) ∧
     logs s' = logs s ∧ currentTerm s' = t ∧ role s' = VDIR_RAFT_ROLE_FOLLOWER) ∧
  (accepts_term t s → pre ≠ 0 → (logs s !! pre = None ∨ log_term (logs s) pre ≠ pt) → ∃ s',
     _VmDirAppendEntriesGetReply compare now t ldr pre pt lc es s [] =
       Some (inr (APPEND_REPLY ERROR_SUCCESS t (lastLogIndex s)), s', []) ∧ lastLogIndex s ≠ 0 ∧
     logs s' = logs s ∧ currentTerm s' = t ∧ role s' = VDIR_RAFT_ROLE_FOLLOWER).
Proof.
  intros Hs Ht. pose proof Hs as (Hi & Hok & _ & _ & Hlast & _).
  destruct (noted_same now ldr s) as (Hn1 & Hn2 & _ & Hn4 & _ & Hn6 & Hn7 & _).
  unfold _VmDirAppendEntriesGetReply. split; [| split].
  - intros Hlt. eexists. split; [| shelve]. unfold rbind at 1. rewrite append_check_run by done.
    unfold append_entries_term. unfold rbind at 1, rget at 1. rewrite Hn6, (proj2 (Z.gtb_lt _ _)) by lia.
    unfold rret at 1. cbn beta iota. unfold rbind at 1. change 0 with (s32 0) at 1. rewrite finish_run, Hn4.
    reflexivity. Unshelve. cbn. destruct (persist_if_same 0 (s32 (currentTerm s)) (noted now ldr s))
      as (_ & -> & _ & _ & _ & -> & -> & _). by rewrite Hn2, Hn6, Hn7.
  - intros Hlt Hr. eexists. split; [| shelve]. unfold rbind at 1. rewrite append_check_run by done.
    unfold append_entries_term. unfold rbind at 1, rget at 1. rewrite Hn6, Hn7.
    destruct (Z.gtb_spec (currentTerm s) t); [lia |]. rewrite bool_decide_eq_true_2 by done.
    rewrite (proj2 (Z.ltb_lt _ _)) by lia. cbn [andb]. unfold rbind at 1, rset at 1. unfold rret at 1. cbn beta iota.
    unfold rbind at 1. rewrite finish_run. reflexivity. Unshelve. cbn.
    match goal with |- context [persist_if t ?o ?x] => destruct (persist_if_same t o x) as (_ & -> & _ & _ & _ & -> & -> & _) end.
    cbn. by rewrite Hn2.
  - intros Hacc Hp0 Hno.
    destruct (append_mismatch now t ldr pre pt lc es s) as (s' & Hrun & Hl0 & Hl & Hc & Hr & _); [done.. |]. by exists s'.
Qed.

(** Applied entries stay in the log. *)
Definition applied_frame (s s' : raft_state) : Prop :=
  lastApplied s' = lastApplied s ∧
  ∀ i b, i <= lastApplied s → logs s !! i = Some b → logs s' !! i = Some b.

#[local] Instance applied_frame_preorder : PreOrder applied_frame.
Proof.
  split; [done |]. intros s1 s2 s3 [Ha1 Hl1] [Ha2 Hl2]. split; [congruence |].
  intros i b Hi Hb. apply Hl2; [lia |]. by apply Hl1.
Qed.

Lemma applied_delete i s e r s' e' :
  lastApplied s < i → _VmdirDeleteLog i s e = Some (r, s', e') → applied_frame s s'.
Proof.
  intros Hi. unfold _VmdirDeleteLog. intros Hrun.
  unfold rbind at 1 in Hrun. destruct (backend_call s e) as [[[[err | []] s1] e1]|] eqn:Hb; [| | done].
  { injection Hrun as <- <- <-. eapply (keeps_backend applied_frame). exact Hb. }
  assert (s1 = s) as ->.
  { revert Hb. unfold backend_call, rbind, next_outcome. destruct (_ =? 0); intros [=]; done. }
  unfold rbind at 1, rget at 1 in Hrun. unfold rbind at 1, rset at 1 in Hrun.
  transitivity (set_logs (delete i (logs s)) s).
  - split; [done |]. intros j b Hj Hl. cbn. rewrite lookup_delete_ne by lia. done.
  - match type of Hrun with ?k _ _ = _ => assert (keeps applied_frame k) as Hk by (solve_keeps; done) end.
    by eapply Hk.
Qed.

Lemma applied_delete_loop ixs : keeps applied_frame (delete_loop ixs).
Proof.
  induction ixs as [|i ixs IH]; cbn [delete_loop]; [solve_keeps |].
  intros s e r s' e'. unfold rbind at 1, rget at 1. destruct (Z.leb_spec i (lastApplied s)) as [|Hgt].
  { intros [= <- <- <-]. reflexivity. }
  unfold rbind, rtry. destruct (_VmdirDeleteLog i s e) as [[[[err | u] s1] e1]|] eqn:Hd; [| | done].
  - intros [= <- <- <-]. by eapply applied_delete.
  - intros Hr. transitivity s1; [by eapply applied_delete | by eapply IH].
Qed.

Lemma applied_persist l : keeps applied_frame (_VmDirPersistLog l).
Proof.
  intros s e r s' e'. unfold _VmDirPersistLog. unfold rbind at 1.
  destruct (backend_call s e) as [[[[err | []] s1] e1]|] eqn:Hb; [| | done];
    apply (keeps_backend applied_frame) in Hb; [by intros [= <- <- <-] |].
  unfold rbind, rget, rset, rfail, rub. destruct (logs s1 !! index l) eqn:Hn; [by intros [= <- <- <-] |].
  destruct (packRaftLog l); [| done]. intros [= <- <- <-]. transitivity s1; [done |].
  split; [done |]. intros i b' Hi Hl. cbn. rewrite lookup_insert_ne; [done |]. congruence.
Qed.

Lemma applied_append now t ldr pre pt lc es :
  keeps applied_frame (_VmDirAppendEntriesGetReply compare now t ldr pre pt lc es).
Proof.
  pose proof applied_delete_loop. pose proof applied_persist.
  unfold _VmDirAppendEntriesGetReply, append_entries_check, note_leader, berval_copy, append_entries_term,
    append_entries_log, append_entries_store, append_entries_finish, VmDirPersistTerm, VmDirDeleteAllLogs.
  solve_keeps; first [done | auto].
Qed.

(** C6: Whatever a request contains and whichever allocation or backend call
    fails, a handler that returns has kept every applied entry of the log, the
    applied index and the recorded vote, and has not lowered the term; where
    the code would delete an applied entry the server stops instead. *)
Theorem raft_append_safety now t ldr pre pt lc es s e r s' e' :
  _VmDirAppendEntriesGetReply compare now t ldr pre pt lc es s e = Some (r, s', e') →
  lastApplied s' = lastApplied s ∧
  (∀ i b, i <= lastApplied s → logs s !! i = Some b → logs s' !! i = Some b) ∧
  currentTerm s <= currentTerm s' ∧ votedFor s' = votedFor s ∧ votedForTerm s' = votedForTerm s.
Proof.
  intros Hrun. destruct (applied_append _ _ _ _ _ _ _ _ _ _ _ _ Hrun) as [Ha Hl].
  destruct (keeps_append _ _ _ _ _ _ _ _ _ _ _ _ _ Hrun) as ((Hv & Hvt & _) & Hc & _). done.
Qed.

End Append.

(** ** Votes and restarts *)

Definition host_a : cstr := ["a"%char].
Definition host_b : cstr := ["b"%char].
Definition host_c : cstr := ["c"%char].

(** A follower in term 4 of a cluster of three, with the entries 3 and 5. *)
Definition srv_ex : raft_state :=
  RS VDIR_RAFT_ROLE_FOLLOWER ExecNone host_c 3 0 0 0 true 100 3 1 5 1 3 0 2 [] false [] 3 4 0 [] 4 3 1 store_ex.

Lemma srv_ex_ok : server_ok srv_ex.
Proof.
  split; [done |]. split; [apply store_ex_ok |]. split; [done |]. split; [unfold is_u32; cbn; lia |].
  split; [by eexists |]. split; [| vm_compute; reflexivity].
  intros i [b Hb]. cbn [logs srv_ex] in Hb. unfold store_ex in Hb.
  apply lookup_insert_Some in Hb as [[<- _] | [_ [<- _]%lookup_singleton_Some]]; cbn; lia.
Qed.

(** Evaluates one run after the other, each fixing the state of the next. *)
Ltac eval_runs := repeat (split; [vm_compute; reflexivity |]); vm_compute; reflexivity.

(** The recorded vote does not survive a restart, although the state
    structure lists it among the persistent variables: a server that has voted
    for one candidate in a term grants the vote of the same term to another
    candidate after it has been restarted. *)
Theorem raft_restart_votes_again :
  ∃ s1 s2 s3,
    _VmDirRequestVoteGetReply simple_compare 200 6 host_a 9 3 srv_ex [] = Some (inr (ERROR_SUCCESS, 6, 0), s1, []) ∧
    votedFor s1 = host_a ∧ votedForTerm s1 = 6 ∧
    VmDirLoadRaftState 300 5 (fresh_process s1) [] = Some (inr tt, s2, []) ∧
    _VmDirRequestVoteGetReply simple_compare 400 6 host_b 9 3 s2 [] = Some (inr (ERROR_SUCCESS, 6, 0), s3, []).
Proof. do 3 eexists. eval_runs. Qed.

(** Without the restart the second request is denied. *)
Example second_vote_denied :
  ∃ s1 s3,
    _VmDirRequestVoteGetReply simple_compare 200 6 host_a 9 3 srv_ex [] = Some (inr (ERROR_SUCCESS, 6, 0), s1, []) ∧
    _VmDirRequestVoteGetReply simple_compare 400 6 host_b 9 3 s1 [] = Some (inr (ERROR_SUCCESS, 6, 1), s3, []).
Proof. do 2 eexists. eval_runs. Qed.

(** A failed allocation loses the vote, too: when the copy of the name
    fails while the same candidate asks again, another candidate is granted the
    vote of the same term. *)
Theorem raft_failed_copy_votes_again :
  ∃ s1 s2 s3,
    _VmDirRequestVoteGetReply simple_compare 200 6 host_a 9 3 srv_ex [] = Some (inr (ERROR_SUCCESS, 6, 0), s1, []) ∧
    _VmDirRequestVoteGetReply simple_compare 300 6 host_a 9 3 s1 [12] = Some (inr (ERROR_NO_MEMORY, 6, 0), s2, []) ∧
    _VmDirRequestVoteGetReply simple_compare 400 6 host_b 9 3 s2 [] = Some (inr (ERROR_SUCCESS, 6, 0), s3, []).
Proof. do 3 eexists. eval_runs. Qed.

(** A server with an empty log answers a request whose previous entry it
    does not have with status 0, the answer of a successful request, although
    it has stored nothing. *)
Theorem raft_empty_log_answers_success :
  let s := set_logs ∅ (set_lastLogIndex 0 (set_lastLogTerm 0 (set_lastApplied 0 srv_ex))) in
  ∃ s', _VmDirAppendEntriesGetReply simple_compare 200 6 host_a 5 2 5 (entry_bytes (log_ex 6 3 [1])) s [] =
          Some (inr (APPEND_REPLY ERROR_SUCCESS 6 0), s', []) ∧ logs s' = ∅.
Proof. eexists. eval_runs. Qed.

(** ** Concrete runs *)

Lemma raft_vote_handler_witness :
  ∃ g s', _VmDirRequestVoteGetReply simple_compare 200 6 host_a 9 3 srv_ex [] =
      Some (inr (ERROR_SUCCESS, Z.max (currentTerm srv_ex) 6, g), s', []) ∧
    (g = 0 ↔ currentTerm srv_ex <= 6 ∧ up_to_date srv_ex 9 3 ∧
             ¬ (role srv_ex = VDIR_RAFT_ROLE_LEADER ∧ 6 = currentTerm srv_ex) ∧
             (votedFor srv_ex ≠ [] → votedForTerm srv_ex = 6 → ckey (votedFor srv_ex) = ckey host_a)) ∧
    currentTerm s' = Z.max (currentTerm srv_ex) 6.
Proof.
  destruct (raft_vote_handler simple_compare 200 6 host_a 9 3 srv_ex) as (g & s' & Hrun & Hg & Ht & _).
  - reflexivity.
  - unfold is_u32. cbn. lia.
  - lia.
  - exists g, s'. split; [exact Hrun |]. split; [exact Hg | exact Ht].
Defined.

Lemma srv_ex_accepts : accepts_term 6 srv_ex.
Proof. split; [cbn; lia | left; reflexivity]. Qed.

Lemma raft_append_accepts_witness :
  ∃ s', _VmDirAppendEntriesGetReply simple_compare 200 6 host_a 5 2 3 (entry_bytes (log_ex 6 6 [1])) srv_ex [] =
      Some (inr (APPEND_REPLY ERROR_SUCCESS 6 0), s', []) ∧
    logs s' = <[6 := entry_bytes (log_ex 6 6 [1])]> (filter (λ kv, kv.1 <= 5) (logs srv_ex)) ∧ server_ok s'.
Proof.
  destruct (raft_append_accepts simple_compare 200 6 host_a 5 2 3 (log_ex 6 6 [1]) srv_ex)
    as (s' & Hrun & Hl & _ & _ & _ & _ & _ & _ & Hok).
  - apply srv_ex_ok.
  - unfold is_u32. lia.
  - apply srv_ex_accepts.
  - by eexists.
  - vm_compute. reflexivity.
  - cbn. lia.
  - apply log_ex_ok; cbn; lia.
  - unfold RAFT_APPLIED_GAP_MAX. cbn. lia.
  - cbn. lia.
  - exists s'. split; [exact Hrun |]. split; [exact Hl | exact Hok].
Defined.

(** The leader of the next example has the entries 3, 5 and 6. *)
Definition leader_ex : log_store := <[6 := entry_bytes (log_ex 6 6 [1])]> store_ex.

Lemma leader_ex_match : log_match store_ex leader_ex.
Proof.
  intros i Hi _ _ j Hj. unfold leader_ex. rewrite lookup_insert_ne; [done |].
  destruct Hi as [b Hb]. unfold store_ex in Hb.
  apply lookup_insert_Some in Hb as [[<- _] | [_ [<- _]%lookup_singleton_Some]]; lia.
Qed.

Lemma raft_log_matching_witness :
  ∃ s', _VmDirAppendEntriesGetReply simple_compare 200 6 host_a 5 2 3 (entry_bytes (log_ex 6 6 [1])) srv_ex [] =
      Some (inr (APPEND_REPLY ERROR_SUCCESS 6 0), s', []) ∧
    (∀ j, j <= 6 → logs s' !! j = leader_ex !! j) ∧ log_match (logs s') leader_ex.
Proof.
  apply (raft_log_matching simple_compare 200 6 host_a 5 2 3 (log_ex 6 6 [1]) srv_ex leader_ex).
  - apply srv_ex_ok.
  - unfold is_u32. lia.
  - apply srv_ex_accepts.
  - cbn. lia.
  - unfold RAFT_APPLIED_GAP_MAX. cbn. lia.
  - cbn. lia.
  - apply log_ex_ok; cbn; lia.
  - apply leader_ex_match.
  - vm_compute. reflexivity.
  - by eexists.
  - vm_compute. reflexivity.
  - intros j Hj. cbn in Hj. lia.
  - by eexists.
  - vm_compute. reflexivity.
Defined.

Lemma raft_append_rejects_witness :
  ∃ s', _VmDirAppendEntriesGetReply simple_compare 200 3 host_a 4 2 3 [0] srv_ex [] =
       Some (inr (APPEND_REPLY ERROR_SUCCESS (currentTerm srv_ex) (lastLogIndex srv_ex)), s', []) ∧
     logs s' = logs srv_ex ∧ currentTerm s' = currentTerm srv_ex ∧ role s' = role srv_ex.
Proof.
  apply (raft_append_rejects simple_compare 200 3 host_a 4 2 3 [0] srv_ex).
  - apply srv_ex_ok.
  - unfold is_u32. lia.
  - reflexivity.
Defined.

Lemma raft_append_safety_witness :
  ∃ r s' e', _VmDirAppendEntriesGetReply simple_compare 200 6 host_a 5 2 3 (entry_bytes (log_ex 6 6 [1])) srv_ex
               [0; 0; 0; 0; 0; 0; 0; 14] = Some (r, s', e') ∧
    lastApplied s' = lastApplied srv_ex ∧ currentTerm srv_ex <= currentTerm s'.
Proof.
  destruct (_VmDirAppendEntriesGetReply simple_compare 200 6 host_a 5 2 3 (entry_bytes (log_ex 6 6 [1])) srv_ex
              [0; 0; 0; 0; 0; 0; 0; 14]) as [[[r s'] e']|] eqn:Hrun.
  - exists r, s', e'. split; [reflexivity |].
    destruct (raft_append_safety simple_compare 200 6 host_a 5 2 3 (entry_bytes (log_ex 6 6 [1])) srv_ex _ r s' e' Hrun)
      as (Ha & _ & Hc & _). split; [exact Ha | exact Hc].
  - exfalso. revert Hrun. vm_compute. discriminate.
Defined.
