(* ===== verification/RaftElection.v ===== *)
(** * RaftElection: elections in a cluster

    Any number of servers run the vote thread, the peer threads and the RPC
    handlers of [Raft] concurrently.  An event is one critical section of one
    thread, or a message that arrives or is lost; [exec] executes it.  The
    ghost fields record the votes cast, the peers counted and the elections
    won.  Requests to append entries arrive from anywhere with any content. *)

From S2P Require Import Prelude Heap StringList CString HashMap Effects RaftLog Raft.

Open Scope Z_scope.

(** ** The cluster *)

(** Where the vote thread of a server is. *)
Inductive schd_pc :=
  | SchdWait                (** waiting for the election timeout *)
  | SchdStart               (** past [startVote] *)
  | SchdPersist (t : Z)     (** the term is incremented, not persisted *)
  | SchdReady (t : Z)       (** persisted *)
  | SchdVoted               (** the votes are requested *)
  | SchdEval.               (** the wait for the result is over *)

(** Where a peer thread is. *)
Inductive peer_pc :=
  | PeerIdle
  | PeerChosen                                              (** has read the command *)
  | PeerSent (a : request_vote_args)                        (** the call is on its way *)
  | PeerReplied (a : request_vote_args) (ct g : Z)          (** the reply is on its way *)
  | PeerDone.                                               (** the call is over *)

Record cluster := CLUSTER {
  srv : nat → raft_state;
  schd : nat → schd_pc;
  peer : nat → nat → peer_pc;
  votes : nat → list (Z * cstr);
  counted : nat → list nat;
  elected : list (Z * nat)
}.

Definition upd {A} (i : nat) (x : A) (f : nat → A) : nat → A := λ j, if decide (j = i) then x else f j.

Lemma upd_eq {A} i (x : A) f : upd i x f i = x.
Proof. unfold upd. by rewrite decide_True. Qed.
Lemma upd_ne {A} i j (x : A) f : j ≠ i → upd i x f j = f j.
Proof. intros H. unfold upd. by rewrite decide_False. Qed.

Definition set_srv i s c := CLUSTER (upd i s (srv c)) (schd c) (peer c) (votes c) (counted c) (elected c).
Definition set_schd i x c := CLUSTER (srv c) (upd i x (schd c)) (peer c) (votes c) (counted c) (elected c).
Definition set_peer i p x c := CLUSTER (srv c) (schd c) (upd i (upd p x (peer c i)) (peer c)) (votes c) (counted c) (elected c).
Definition add_vote i v c := CLUSTER (srv c) (schd c) (peer c) (upd i (v :: votes c i) (votes c)) (counted c) (elected c).
Definition set_counted i x c := CLUSTER (srv c) (schd c) (peer c) (votes c) (upd i x (counted c)) (elected c).
Definition add_elected x c := CLUSTER (srv c) (schd c) (peer c) (votes c) (counted c) (x :: elected c).

Inductive event :=
  | EvDecide (i : nat) (now timeout : Z)
  | EvIncrement (i : nat)
  | EvPersist (i : nat)
  | EvSelf (i : nat) (now : Z)
  | EvWake (i : nat)
  | EvEvaluate (i : nat) (e : env)
  | EvChoose (i p : nat)
  | EvSend (i p : nat)
  | EvHandle (i p : nat) (now : Z)
  | EvLose (i p : nat)
  | EvReceive (i p : nat) (now : Z)
  | EvDone (i p : nat)
  | EvRepeat (i p : nat)
  | EvAppendCheck (i : nat) (now t : Z) (ldr : cstr) (e : env)
  | EvAppendLog (i : nat) (pre pt lc last : Z) (es : list Z) (e : env)
  | EvAppendFinish (i : nat) (now old new : Z) (e : env)
  | EvHigherTerm (i : nat) (now t : Z)
  | EvCommand (i : nat) (x : VDIR_RAFT_EXEC_CMD)
  | EvStepDown (i : nat).

(** The reply to [_VmDirAppendEntriesRpc] carries a higher term. *)
Definition append_reply_higher (now t : Z) (s : raft_state) : raft_state :=
  set_currentTerm t (set_lastPingRecvTime now (set_role VDIR_RAFT_ROLE_FOLLOWER s)).

Section Cluster.
Context (compare : cstr → cstr → bool → Z) `{!CStringCompare compare}.

(** The number of servers, their host names, and whether a granted vote is
    only received in the term it was requested for (the code does not check
    this). *)
Context (N : nat) (host : nat → cstr) (timely : bool).

(** The vote counted by a reply. *)
Definition counts (ct g : Z) (s : raft_state) : bool :=
  negb (ct >? currentTerm s) && bool_decide (role s = VDIR_RAFT_ROLE_CANDIDATE) && (g =? 0) &&
  (currentTerm s =? voteConsensusTerm s).

(** The state a computation leaves, its value or error apart. *)
Definition left_by {A} (m : RM raft_state A) (s : raft_state) (e : env) : option raft_state :=
  match m s e with Some (_, s', _) => Some s' | None => None end.

Definition exec_vote_thread (ev : event) (c : cluster) : option cluster :=
  match ev with
  | EvDecide i now timeout =>
      match schd c i, vote_decide now timeout (srv c i) with
      | SchdWait, Some s => Some (set_schd i SchdStart (set_srv i s c))
      | _, _ => None
      end
  | EvIncrement i =>
      match schd c i with
      | SchdStart =>
          (* the 32-bit term does not wrap *)
          if currentTerm (srv c i) + 1 <? 2 ^ 32 then
            let (t, s) := vote_increment (srv c i) in Some (set_schd i (SchdPersist t) (set_srv i s c))
          else None
      | _ => None
      end
  | EvPersist i =>
      match schd c i with
      | SchdPersist t =>
          match left_by (VmDirPersistTerm t) (srv c i) [] with
          | Some s => Some (set_schd i (SchdReady t) (set_srv i s c))
          | None => None
          end
      | _ => None
      end
  | EvSelf i now =>
      match schd c i with
      | SchdReady t =>
          match vote_self now t (srv c i) [] with
          | Some (inr true, s, _) =>
              Some (set_schd i SchdVoted (set_counted i [] (add_vote i (currentTerm s, votedFor s) (set_srv i s c))))
          | Some (inr false, s, _) => Some (set_schd i SchdWait (set_srv i s c))
          | _ => None
          end
      | _ => None
      end
  | EvWake i =>
      match schd c i with
      | SchdVoted => Some (set_schd i SchdEval (set_srv i (vote_wake (srv c i)) c))
      | _ => None
      end
  | EvEvaluate i e =>
      match schd c i with
      | SchdEval =>
          match _VmDirEvaluateVoteResult (srv c i) e with
          | Some (inr true, s, _) => Some (set_schd i SchdWait (add_elected (currentTerm s, i) (set_srv i s c)))
          | Some (inr false, s, _) => Some (set_schd i SchdWait (set_srv i s c))
          | _ => None
          end
      | _ => None
      end
  | _ => None
  end.

Definition exec_peer_thread (ev : event) (c : cluster) : option cluster :=
  match ev with
  | EvChoose i p =>
      match peer c i p, cmd (srv c i) with
      | PeerIdle, ExecReqestVote => if decide (p < N ∧ p ≠ i)%nat then Some (set_peer i p PeerChosen c) else None
      | _, _ => None
      end
  | EvSend i p =>
      match peer c i p with
      | PeerChosen => Some (set_peer i p (PeerSent (request_vote_send (srv c i))) c)
      | _ => None
      end
  | EvHandle i p now =>
      match peer c i p with
      | PeerSent a =>
          match _VmDirRequestVoteGetReply compare now (rv_term a) (rv_candidateId a) (rv_lastLogIndex a)
                  (rv_lastLogTerm a) (srv c p) [] with
          | Some (inr (ERROR_SUCCESS, ct, g), s, _) =>
              let c := set_peer i p (PeerReplied a ct g) (set_srv p s c) in
              Some (if g =? 0 then add_vote p (rv_term a, rv_candidateId a) c else c)
          | _ => None
          end
      | _ => None
      end
  | EvLose i p =>
      match peer c i p with
      | PeerSent _ | PeerReplied _ _ _ => Some (set_peer i p PeerDone c)
      | _ => None
      end
  | EvReceive i p now =>
      match peer c i p with
      | PeerReplied a ct g =>
          let s := srv c i in
          if timely && counts ct g s && negb (rv_term a =? currentTerm s) then None
          else match left_by (request_vote_receive now ct g) s [] with
               | Some s' =>
                   let c' := set_peer i p PeerDone (set_srv i s' c) in
                   Some (if counts ct g s then set_counted i (p :: counted c i) c' else c')
               | None => None
               end
      | _ => None
      end
  | EvDone i p =>
      match peer c i p with
      | PeerDone => Some (set_peer i p PeerIdle (set_srv i (peer_thread_done (srv c i)) c))
      | _ => None
      end
  | EvRepeat i p =>
      match peer c i p, role (srv c i), cmd (srv c i) with
      | PeerDone, VDIR_RAFT_ROLE_LEADER, ExecAppendEntries => Some (set_peer i p PeerIdle c)
      | _, _, _ => None
      end
  | _ => None
  end.

Definition exec_others (ev : event) (c : cluster) : option cluster :=
  match ev with
  | EvAppendCheck i now t ldr e =>
      (λ s, set_srv i s c) <$> left_by (append_entries_check compare now t ldr) (srv c i) e
  | EvAppendLog i pre pt lc last es e =>
      (λ s, set_srv i s c) <$> left_by (append_entries_log pre pt lc es last) (srv c i) e
  | EvAppendFinish i now old new e =>
      (λ s, set_srv i s c) <$> left_by (append_entries_finish now old new false) (srv c i) e
  | EvHigherTerm i now t =>
      if t >? currentTerm (srv c i) then Some (set_srv i (append_reply_higher now t (srv c i)) c) else None
  | EvCommand i x => match x with ExecReqestVote => None | _ => Some (set_srv i (set_cmd x (srv c i)) c) end
  | EvStepDown i => Some (set_srv i (set_role VDIR_RAFT_ROLE_FOLLOWER (srv c i)) c)
  | _ => None
  end.

(** The server whose code an event runs is in the cluster. *)
Definition actor (ev : event) : nat :=
  match ev with
  | EvDecide i _ _ | EvIncrement i | EvPersist i | EvSelf i _ | EvWake i | EvEvaluate i _ | EvChoose i _
  | EvSend i _ | EvHandle i _ _ | EvLose i _ | EvReceive i _ _ | EvDone i _ | EvRepeat i _
  | EvAppendCheck i _ _ _ _ | EvAppendLog i _ _ _ _ _ _ | EvAppendFinish i _ _ _ _ | EvHigherTerm i _ _
  | EvCommand i _ | EvStepDown i => i
  end.

Definition exec (ev : event) (c : cluster) : option cluster :=
  if decide (actor ev < N)%nat then
    match ev with
    | EvDecide _ _ _ | EvIncrement _ | EvPersist _ | EvSelf _ _ | EvWake _ | EvEvaluate _ _ => exec_vote_thread ev c
    | EvChoose _ _ | EvSend _ _ | EvHandle _ _ _ | EvLose _ _ | EvReceive _ _ _ | EvDone _ _ | EvRepeat _ _ => exec_peer_thread ev c
    | _ => exec_others ev c
    end
  else None.

Fixpoint execs (evs : list event) (c : cluster) : option cluster :=
  match evs with [] => Some c | ev :: evs => match exec ev c with Some c' => execs evs c' | None => None end end.

(** A cluster after start: no vote has been cast or requested. *)
Definition started (c : cluster) : Prop :=
  (∀ i, (i < N)%nat →
    let s := srv c i in
    initialized s = true ∧ hostname s = host i ∧ clusterSize s = Z.of_nat N ∧ 1 <= currentTerm s ∧
    role s = VDIR_RAFT_ROLE_FOLLOWER ∧ cmd s = ExecNone ∧ votedForTerm s <= currentTerm s ∧
    voteConsensusTerm s = 0 ∧ voteConsensusCnt s = 0) ∧
  (∀ i, schd c i = SchdWait ∧ votes c i = [] ∧ counted c i = []) ∧ (∀ i p, peer c i p = PeerIdle) ∧ elected c = [].

(** ** The invariant *)

(** Everything but the recorded vote: counters, identity, terms, roles; a
    command other than a vote request may be set. *)
Definition core_frame (s s' : raft_state) : Prop :=
  (voteConsensusCnt s' = voteConsensusCnt s ∧ voteConsensusTerm s' = voteConsensusTerm s ∧
   hostname s' = hostname s ∧ clusterSize s' = clusterSize s ∧ initialized s' = initialized s) ∧
  (cmd s' = cmd s ∨ cmd s' ≠ ExecReqestVote) ∧ currentTerm s <= currentTerm s' ∧
  (role s' = VDIR_RAFT_ROLE_LEADER → role s = VDIR_RAFT_ROLE_LEADER ∧ currentTerm s' = currentTerm s).

Lemma vote_frame_core s s' : vote_frame s s' → core_frame s s'.
Proof. intros ((_ & _ & ? & ? & ? & ? & ? & ?) & ? & ?). unfold core_frame. intuition. Qed.

Definition node_ok (i : nat) (s : raft_state) (sc : schd_pc) (vs : list (Z * cstr)) (el : list (Z * nat)) : Prop :=
  initialized s = true ∧ hostname s = host i ∧ clusterSize s = Z.of_nat N ∧ 1 <= currentTerm s ∧
  voteConsensusTerm s <= currentTerm s ∧ vote_inv s vs ∧
  (role s = VDIR_RAFT_ROLE_LEADER → sc = SchdWait ∧ (currentTerm s, i) ∈ el).

(** The counter counts distinct peers that voted for this server in the term,
    and whose threads do not ask again. *)
Definition count_ok (i : nat) (s : raft_state) (pc : nat → peer_pc) (vts : nat → list (Z * cstr)) (cs : list nat) : Prop :=
  NoDup cs ∧
  (∀ p, p ∈ cs → (p < N)%nat ∧ p ≠ i ∧ (voteConsensusTerm s, host i) ∈ vts p ∧
                 (pc p = PeerDone ∨ (pc p = PeerIdle ∧ cmd s ≠ ExecReqestVote))) ∧
  ((voteConsensusTerm s = 0 ∧ cs = [] ∧ voteConsensusCnt s = 0) ∨
   ((voteConsensusTerm s, host i) ∈ vts i ∧ voteConsensusCnt s = 1 + Z.of_nat (length cs))).

Definition call_ok (i p : nat) (x : peer_pc) (vts : nat → list (Z * cstr)) : Prop :=
  match x with
  | PeerIdle => True
  | PeerChosen | PeerDone => (p < N)%nat ∧ p ≠ i
  | PeerSent a => (p < N)%nat ∧ p ≠ i ∧ rv_candidateId a = host i
  | PeerReplied a _ g => (p < N)%nat ∧ p ≠ i ∧ rv_candidateId a = host i ∧ (g = 0 → (rv_term a, host i) ∈ vts p)
  end.

(** A majority voted for every server that was elected. *)
Definition elected_ok (el : list (Z * nat)) (vts : nat → list (Z * cstr)) : Prop :=
  ∀ t i, (t, i) ∈ el → (i < N)%nat ∧
    ∃ Q, NoDup Q ∧ (∀ q, q ∈ Q → (q < N)%nat ∧ (t, host i) ∈ vts q) ∧ Z.of_nat N `quot` 2 + 1 <= Z.of_nat (length Q).

Definition cluster_inv (c : cluster) : Prop :=
  (∀ i, (i < N)%nat →
     node_ok i (srv c i) (schd c i) (votes c i) (elected c) ∧
     count_ok i (srv c i) (peer c i) (votes c) (counted c i) ∧
     ∀ p, call_ok i p (peer c i p) (votes c)) ∧
  elected_ok (elected c) (votes c).

Section Mono.
Context (vts vts' : nat → list (Z * cstr)) (Hle : ∀ j, vts j ⊆ vts' j).

Lemma count_ok_mono i s pc cs : count_ok i s pc vts cs → count_ok i s pc vts' cs.
Proof.
  intros (Hnd & Hcs & Hcnt). split; [done |]. split.
  - intros p Hp. destruct (Hcs p Hp) as (? & ? & ? & ?). split; [done |]. split; [done |]. split; [by apply Hle | done].
  - destruct Hcnt as [Hc | [Hv Hc]]; [by left | right; split; [by apply Hle | done]].
Qed.

Lemma call_ok_mono i p x : call_ok i p x vts → call_ok i p x vts'.
Proof. destruct x; cbn; intuition. by apply Hle. Qed.

Lemma elected_ok_mono el : elected_ok el vts → elected_ok el vts'.
Proof.
  intros Hel t i Hin. destruct (Hel t i Hin) as (Hi & Q & Hnd & HQ & Hlen). split; [done |]. exists Q.
  split; [done |]. split; [| done]. intros q Hq. destruct (HQ q Hq). split; [done | by apply Hle].
Qed.
End Mono.

Lemma node_ok_core i s s' sc sc' vs vs' el :
  node_ok i s sc vs el → core_frame s s' → vote_inv s' vs' → (role s' = VDIR_RAFT_ROLE_LEADER → sc' = SchdWait) →
  node_ok i s' sc' vs' el.
Proof.
  intros (H1 & H2 & H3 & H4 & H5 & H6 & H7) ((_ & F2 & F3 & F4 & F5) & _ & F6 & F7) Hv Hsc. unfold node_ok.
  rewrite F2, F3, F4, F5. split; [done |]. split; [done |]. split; [done |]. split; [lia |]. split; [lia |].
  split; [done |]. intros Hr. split; [by apply Hsc |]. destruct (F7 Hr) as [Hr' ->]. by apply H7.
Qed.

Lemma count_ok_core i s s' pc vts cs : core_frame s s' → count_ok i s pc vts cs → count_ok i s' pc vts cs.
Proof.
  intros ((F1 & F2 & _) & Fc & _) (Hnd & Hcs & Hcnt). unfold count_ok. rewrite F1, F2. split; [done |]. split; [| done].
  intros p Hp. destruct (Hcs p Hp) as (? & ? & ? & Hpc). split; [done |]. split; [done |]. split; [done |].
  destruct Hpc as [| [? ?]]; [by left | right]. split; [done |]. destruct Fc; congruence.
Qed.

(** One server changes, casts votes perhaps, and counts nothing. *)
Lemma inv_core c c' i :
  cluster_inv c → (i < N)%nat → core_frame (srv c i) (srv c' i) → (∀ j, j ≠ i → srv c' j = srv c j) →
  vote_inv (srv c' i) (votes c' i) → (∀ j, j ≠ i → votes c' j = votes c j) → votes c i ⊆ votes c' i →
  (∀ j, j ≠ i → schd c' j = schd c j) → (role (srv c' i) = VDIR_RAFT_ROLE_LEADER → schd c' i = SchdWait) →
  peer c' = peer c → counted c' = counted c → elected c' = elected c → cluster_inv c'.
Proof.
  intros [Hn He] Hi Hf Hs Hvi Hv Hle Hsc Hl Hp Hc Hel.
  assert (∀ j, votes c j ⊆ votes c' j) as Hall.
  { intros j. destruct (decide (j = i)) as [-> |]; [done | by rewrite Hv]. }
  split; [| rewrite Hel; by eapply elected_ok_mono]. intros j Hj. destruct (Hn j Hj) as (Hnode & Hcount & Hcall).
  rewrite Hp, Hc, Hel. split; [| split; [| intros p; by eapply call_ok_mono]].
  - destruct (decide (j = i)) as [-> | Hne]; [by eapply node_ok_core | by rewrite Hs, Hsc, Hv].
  - eapply (count_ok_mono (votes c)); [exact Hall |]. destruct (decide (j = i)) as [-> | Hne]; [by eapply count_ok_core | by rewrite Hs].
Qed.

(** One peer thread moves. *)
Lemma inv_peer c i p x :
  cluster_inv c → (i < N)%nat →
  (p ∈ counted c i → x = PeerDone ∨ (x = PeerIdle ∧ cmd (srv c i) ≠ ExecReqestVote)) →
  call_ok i p x (votes c) → cluster_inv (set_peer i p x c).
Proof.
  intros [Hn He] Hi Hcnt Hx. split; [| done]. intros j Hj. destruct (Hn j Hj) as (Hnode & (Hnd & Hcs & Hc) & Hcall).
  cbn [set_peer srv schd peer votes counted elected]. split; [done |].
  destruct (decide (j = i)) as [-> | Hne]; [rewrite upd_eq | by rewrite upd_ne]. split.
  - split; [done |]. split; [| done]. intros q Hq. destruct (Hcs q Hq) as (? & ? & ? & ?).
    split; [done |]. split; [done |]. split; [done |]. unfold upd. destruct (decide (q = p)) as [-> |]; [by apply Hcnt | done].
  - intros q. unfold upd. destruct (decide (q = p)) as [-> |]; [done | apply Hcall].
Qed.

(** A thread that is calling has not been counted. *)
Lemma not_counted c i p :
  cluster_inv c → (i < N)%nat → peer c i p ≠ PeerDone → (peer c i p = PeerIdle → cmd (srv c i) = ExecReqestVote) →
  p ∉ counted c i.
Proof.
  intros [Hn _] Hi Hd Hidle Hp. destruct (Hn i Hi) as (_ & (_ & Hcs & _) & _).
  destruct (Hcs p Hp) as (_ & _ & _ & [| [? ?]]); [done |]. by apply Hidle in H.
Qed.

(** ** The vote thread keeps the invariant *)

Lemma left_by_keeps {A} P (m : RM raft_state A) s e s' : keeps P m → left_by m s e = Some s' → P s s'.
Proof. intros Hk. unfold left_by. destruct (m s e) as [[[r s1] e1]|] eqn:E; [| done]. intros [= <-]. by eapply Hk. Qed.

Lemma vote_inv_ext s s' vs :
  votedFor s' = votedFor s → votedForTerm s' = votedForTerm s → currentTerm s <= currentTerm s' →
  vote_inv s vs → vote_inv s' vs.
Proof. unfold vote_inv. intros -> -> Hle (H1 & H2). split; [lia | done]. Qed.

Lemma node_of c i : cluster_inv c → (i < N)%nat → node_ok i (srv c i) (schd c i) (votes c i) (elected c).
Proof. intros [Hn _] Hi. by destruct (Hn i Hi). Qed.

Lemma inv_srv_schd c i s' sc' :
  cluster_inv c → (i < N)%nat → core_frame (srv c i) s' → vote_inv s' (votes c i) →
  (role s' = VDIR_RAFT_ROLE_LEADER → sc' = SchdWait) → cluster_inv (set_schd i sc' (set_srv i s' c)).
Proof.
  intros Hc Hi Hf Hv Hsc. apply (inv_core c _ i); cbn; rewrite ?upd_eq; try done; intros j Hj; by rewrite upd_ne.
Qed.

Lemma inv_srv c i s' :
  cluster_inv c → (i < N)%nat → core_frame (srv c i) s' → vote_inv s' (votes c i) → cluster_inv (set_srv i s' c).
Proof.
  intros Hc Hi Hf Hv. apply (inv_core c _ i); cbn; rewrite ?upd_eq; try done; [intros j Hj; by rewrite upd_ne |].
  intros Hr. destruct Hf as (_ & _ & _ & Hf). destruct (node_of c i Hc Hi) as (_ & _ & _ & _ & _ & _ & Hl).
  by apply Hl, Hf.
Qed.

Lemma inv_srv_frame c i s' :
  cluster_inv c → (i < N)%nat → vote_frame (srv c i) s' → cluster_inv (set_srv i s' c).
Proof.
  intros Hc Hi Hf. apply inv_srv; [done | done | by apply vote_frame_core |].
  eapply vote_inv_frame; [| done]. by destruct (node_of c i Hc Hi) as (_ & _ & _ & _ & _ & ? & _).
Qed.

Lemma inv_srv_schd_frame c i s' sc' :
  cluster_inv c → (i < N)%nat → vote_frame (srv c i) s' → role s' ≠ VDIR_RAFT_ROLE_LEADER →
  cluster_inv (set_schd i sc' (set_srv i s' c)).
Proof.
  intros Hc Hi Hf Hr. apply inv_srv_schd; [done | done | by apply vote_frame_core | | done].
  eapply vote_inv_frame; [| done]. by destruct (node_of c i Hc Hi) as (_ & _ & _ & _ & _ & ? & _).
Qed.

(** Outside the wait a server is not the leader. *)
Lemma busy_not_leader c i : cluster_inv c → (i < N)%nat → schd c i ≠ SchdWait → role (srv c i) ≠ VDIR_RAFT_ROLE_LEADER.
Proof. intros Hc Hi Hsc Hr. destruct (node_of c i Hc Hi) as (_ & _ & _ & _ & _ & _ & Hl). by destruct (Hl Hr). Qed.

Lemma decide_frame now timeout s s' :
  vote_decide now timeout s = Some s' → vote_frame s s' ∧ role s' ≠ VDIR_RAFT_ROLE_LEADER.
Proof.
  unfold vote_decide. destruct (clusterSize s <? 2); [done |]. destruct (role s) eqn:Hr; [| | done].
  - intros [= <-]. split; [reflexivity | congruence].
  - destruct (now <? _); [done |]. destruct (_ >=? _); [| done]. intros [= <-].
    split; [| done]. split; [by repeat split |]. split; [cbn; lia | done].
Qed.

Lemma increment_frame s :
  role s ≠ VDIR_RAFT_ROLE_LEADER → 1 <= currentTerm s → currentTerm s + 1 < 2 ^ 32 →
  vote_frame s (vote_increment s).2.
Proof.
  intros Hr Hc Hlt. unfold vote_increment. cbn [snd]. rewrite u32_id by (unfold is_u32; lia).
  split; [by repeat split |]. split; [cbn; lia | done].
Qed.

(** The state after a vote for itself. *)
Definition self_voted (s : raft_state) : raft_state :=
  set_cmd ExecReqestVote (set_voteConsensusTerm (currentTerm s) (set_voteDeniedCnt 0 (set_voteConsensusCnt 1
    (set_votedForTerm (currentTerm s) (set_votedFor (hostname s) (set_votedFor [] s)))))).

Lemma vote_self_run now t s :
  vote_self now t s [] =
    if negb (currentTerm s =? u32 t) then Some (inr false, s, [])
    else if (votedForTerm s =? currentTerm s) && bool_decide (votedFor s ≠ [])
    then Some (inr false, set_lastPingRecvTime now (set_role VDIR_RAFT_ROLE_FOLLOWER s), [])
    else Some (inr true, self_voted s, []).
Proof.
  unfold vote_self. unfold rbind at 1, rget at 1. destruct (negb _); [done |]. destruct (_ && _); [done |].
  unfold rbind at 1, rset at 1. unfold rbind at 1, rtry at 1. by rewrite run_berval_copy.
Qed.

Lemma inv_self c i :
  cluster_inv c → (i < N)%nat → host i ≠ [] → role (srv c i) ≠ VDIR_RAFT_ROLE_LEADER →
  (votedForTerm (srv c i) =? currentTerm (srv c i)) && bool_decide (votedFor (srv c i) ≠ []) = false →
  let s := self_voted (srv c i) in
  cluster_inv (set_schd i SchdVoted (set_counted i [] (add_vote i (currentTerm s, votedFor s) (set_srv i s c)))).
Proof.
  intros [Hn He] Hi Hh Hr Hfree s.
  assert (∀ j, votes c j ⊆ upd i ((currentTerm s, votedFor s) :: votes c i) (votes c) j) as Hall.
  { intros j. unfold upd. destruct (decide (j = i)) as [-> |]; [| done]. intros x Hx. by right. }
  split; [| by eapply elected_ok_mono]. intros j Hj. destruct (Hn j Hj) as (Hnode & Hcount & Hcall).
  cbn [set_schd set_counted add_vote set_srv srv schd peer votes counted elected].
  split; [| split; [| intros p; eapply call_ok_mono; [exact Hall | apply Hcall]]].
  - destruct (decide (j = i)) as [-> | Hne]; [rewrite !upd_eq | by rewrite !upd_ne].
    destruct Hnode as (H1 & H2 & H3 & H4 & H5 & H6 & H7).
    split; [done |]. split; [done |]. split; [done |]. split; [done |]. split; [cbn; lia |]. split; [| done].
    pose proof H6 as (Hvt & _). apply (vote_inv_cast (srv c i)); [done | done | done | | cbn; lia | done |].
    + cbn. by rewrite H2.
    + intros Hv Hvt'. cbn in Hvt'. rewrite Hvt', Z.eqb_refl, bool_decide_eq_true_2 in Hfree by done. done.
  - destruct (decide (j = i)) as [-> | Hne]; [rewrite !upd_eq | rewrite !upd_ne by done; by eapply count_ok_mono].
    split; [constructor |]. split; [by intros p ?%elem_of_nil |]. right. rewrite upd_eq. split; [| done].
    destruct Hnode as (_ & H2 & _). cbn. rewrite H2. left.
Qed.

Definition log_frame (s s' : raft_state) : Prop :=
  vote_frame s s' ∧ currentTerm s' = currentTerm s ∧ role s' = role s.

#[local] Instance log_frame_preorder : PreOrder log_frame.
Proof.
  split; [intros s; split; [reflexivity | done] |].
  intros s1 s2 s3 (F1 & T1 & R1) (F2 & T2 & R2). split; [by transitivity s2 | split; congruence].
Qed.

Lemma keeps_pack P `{!PreOrder P} l : keeps P (_VmDirPackLogEntry l).
Proof. unfold _VmDirPackLogEntry. solve_keeps. Qed.

Lemma keeps_noop l :
  keeps log_frame (l <- _VmDirPackLogEntry l ;; _VmDirPersistLog l ;;; rset (set_lastLogIndex (index l))).
Proof.
  apply keeps_bind; [apply _ | apply keeps_pack, _ | intros l']. unfold _VmDirPersistLog.
  solve_keeps; (split; [frame_set | done]).
Qed.

(** The candidate with a majority in its term, and only it, is elected. *)
Lemma evaluate_spec s e b s' e' :
  _VmDirEvaluateVoteResult s e = Some (inr b, s', e') →
  if b then role s = VDIR_RAFT_ROLE_CANDIDATE ∧ currentTerm s = voteConsensusTerm s ∧ majority s <= voteConsensusCnt s ∧
            log_frame (set_role VDIR_RAFT_ROLE_LEADER s) s'
  else vote_frame s s' ∧ (role s' = VDIR_RAFT_ROLE_LEADER → role s = VDIR_RAFT_ROLE_LEADER).
Proof.
  unfold _VmDirEvaluateVoteResult. unfold rbind at 1, rtry at 1.
  destruct (backend_call s e) as [[[[err | []] s1] e1]|] eqn:Hb; [| | done];
    assert (s1 = s) as -> by (revert Hb; unfold backend_call, rbind, next_outcome; destruct (_ =? 0); by intros [=]).
  { unfold rbind, rset, rret. intros [= <- <- <-]. split; [| done]. split; [by repeat split |]. split; [cbn; lia | done]. }
  unfold rbind at 1, rset at 1. unfold rbind at 1, rget at 1.
  cbn [role currentTerm voteConsensusTerm voteConsensusCnt majority clusterSize set_disallowUpdates].
  destruct (bool_decide (role s ≠ VDIR_RAFT_ROLE_CANDIDATE) || _ || _) eqn:Hc.
  { unfold rbind, rset, rret. intros [= <- <- <-]. split; [frame_set | done]. }
  apply orb_false_iff in Hc as [[Hc1 Hc2]%orb_false_iff Hc3]. apply bool_decide_eq_false in Hc1.
  apply negb_false_iff, Z.eqb_eq in Hc2. apply Z.ltb_ge in Hc3.
  unfold rbind at 1, rset at 1. unfold rbind at 1, rtry at 1.
  match goal with |- context [match ?k ?x e1 with Some _ => _ | None => None end] =>
    destruct (k x e1) as [[[[err | u] s2] e2]|] eqn:Hk; [| | done] end; apply keeps_noop in Hk.
  - unfold rbind, rset, rret. intros [= <- <- <-]. split; [| done].
    destruct Hk as (((? & ? & ? & ? & ? & ? & ? & ?) & ? & _) & ? & ?). cbn in *.
    split; [by repeat split |]. split; [cbn; lia | done].
  - unfold rret. intros [= <- <- <-]. split; [by apply dec_stable |]. split; [done |]. split; [done |].
    etransitivity; [| exact Hk]. split; [frame_set | done].
Qed.

Lemma inv_elect c i s' :
  cluster_inv c → (i < N)%nat → currentTerm (srv c i) = voteConsensusTerm (srv c i) →
  majority (srv c i) <= voteConsensusCnt (srv c i) → log_frame (set_role VDIR_RAFT_ROLE_LEADER (srv c i)) s' →
  cluster_inv (set_schd i SchdWait (add_elected (currentTerm s', i) (set_srv i s' c))).
Proof.
  intros [Hn He] Hi Hterm Hmaj (Hf & Ht & Hr).
  destruct Hf as ((Fv & Fvt & Fc & Fct & Fh & Fs & Fcmd & Fi) & _ & _). cbn in *.
  split.
  - intros j Hj. destruct (Hn j Hj) as (Hnode & Hcount & Hcall).
    cbn [set_schd add_elected set_srv srv schd peer votes counted elected]. split; [| split; [| done]].
    + destruct (decide (j = i)) as [-> | Hne]; [rewrite !upd_eq | rewrite !upd_ne by done].
      * destruct Hnode as (H1 & H2 & H3 & H4 & H5 & H6 & H7). unfold node_ok. rewrite Fct, Fh, Fs, Fi, Ht.
        split; [done |]. split; [done |]. split; [done |]. split; [done |]. split; [done |].
        split; [| intros _; split; [done | left]]. eapply vote_inv_ext; [exact Fv | exact Fvt | | exact H6]. lia.
      * destruct Hnode as (H1 & H2 & H3 & H4 & H5 & H6 & H7). repeat (split; [done |]). intros Hl.
        destruct (H7 Hl). split; [done | by right].
    + destruct (decide (j = i)) as [-> | Hne]; [rewrite upd_eq | by rewrite upd_ne].
      destruct Hcount as (Hnd & Hcs & Hc). unfold count_ok. by rewrite Fc, Fct, Fcmd.
  - intros t k [[= -> ->] | Hin]%elem_of_cons; [| by apply He]. split; [done |]. destruct (Hn i Hi) as (Hnode & (Hnd & Hcs & Hc) & _).
    destruct Hnode as (_ & _ & H3 & H4 & _). unfold majority in Hmaj. rewrite H3 in Hmaj.
    destruct Hc as [(H0 & _) | [Hself Hcnt]]; [lia |]. exists (i :: counted c i). rewrite Ht, Hterm. split; [| split].
    + constructor; [| done]. intros Hin. by destruct (Hcs i Hin) as (_ & ? & _).
    + intros q [-> | Hq]%elem_of_cons; [done |]. destruct (Hcs q Hq) as (? & _ & ? & _). done.
    + cbn [length]. lia.
Qed.

(** ** The peer threads keep the invariant *)

(** A reply that is not counted. *)
Lemma receive_frame now ct g s s' :
  counts ct g s = false → left_by (request_vote_receive now ct g) s [] = Some s' → vote_frame s s'.
Proof.
  unfold counts, left_by, request_vote_receive. unfold rbind at 1, rget at 1. intros Hc.
  destruct (Z.gtb_spec ct (currentTerm s)) as [Hgt | Hle].
  { unfold VmDirPersistTerm, rbind, rset, rret, next_outcome. cbn.
    destruct (s32 ct >? 0); intros [= <-]; (split; [by repeat split |]; split; [cbn; lia | done]). }
  cbn [negb andb] in Hc. case_bool_decide as Hr; case_bool_decide as Hr'; try done; cbn [andb] in Hc.
  2: { unfold rret. intros [= <-]. reflexivity. }
  - destruct (g =? 0); cbn [negb andb] in *.
    + rewrite Hc. unfold rret. intros [= <-]. reflexivity.
    + unfold rbind, rset, rret. destruct (g =? 2); intros [= <-]; [| frame_set].
      split; [by repeat split |]. split; [cbn; lia | done].
Qed.

Lemma receive_counted now ct g s :
  counts ct g s = true →
  left_by (request_vote_receive now ct g) s [] = Some (set_voteConsensusCnt (u32 (voteConsensusCnt s + 1)) s).
Proof.
  unfold counts, left_by, request_vote_receive. unfold rbind at 1, rget at 1.
  intros [[[Hc1%negb_true_iff Hc2%bool_decide_eq_true]%andb_true_iff Hc3]%andb_true_iff Hc4]%andb_true_iff.
  rewrite Hc1, bool_decide_eq_false_2 by (intros H; by apply H). by rewrite Hc3, Hc4.
Qed.

Lemma inv_count c i p a ct g :
  cluster_inv c → (i < N)%nat → Z.of_nat N < 2 ^ 32 → peer c i p = PeerReplied a ct g →
  counts ct g (srv c i) = true → rv_term a = currentTerm (srv c i) →
  let s := set_voteConsensusCnt (u32 (voteConsensusCnt (srv c i) + 1)) (srv c i) in
  cluster_inv (set_counted i (p :: counted c i) (set_peer i p PeerDone (set_srv i s c))).
Proof.
  intros Hinv Hi HN Hpc Hcounts Hta s. pose proof Hinv as [Hn He].
  assert (p ∉ counted c i) as Hni by (apply not_counted; rewrite ?Hpc; done).
  revert Hcounts. unfold counts.
  intros [[[_ Hcand%bool_decide_eq_true]%andb_true_iff Hg%Z.eqb_eq]%andb_true_iff Hct%Z.eqb_eq]%andb_true_iff.
  split; [| done]. intros j Hj. destruct (Hn j Hj) as (Hnode & Hcount & Hcall).
  cbn [set_counted set_peer set_srv srv schd peer votes counted elected].
  destruct (decide (j = i)) as [-> | Hne]; [rewrite !upd_eq | by rewrite !upd_ne].
  pose proof (Hcall p) as Hp. rewrite Hpc in Hp. destruct Hp as (HpN & Hpi & Hpa & Hpv). split; [| split].
  - destruct Hnode as (? & ? & ? & ? & ? & ? & ?). repeat (split; [done |]). done.
  - destruct Hnode as (_ & _ & _ & Hpos & _). destruct Hcount as (Hnd & Hcs & Hc). split; [by constructor |]. split.
    + intros q [-> | Hq]%elem_of_cons.
      * split; [done |]. split; [done |]. rewrite upd_eq. split; [| by left]. cbn. rewrite <- Hct, <- Hta. by apply Hpv.
      * destruct (Hcs q Hq) as (? & ? & ? & ?). rewrite upd_ne by (intros ->; done). done.
    + destruct Hc as [(H0 & _) | [Hself Hcnt]]; [lia |]. right. split; [exact Hself |].
      change (u32 (voteConsensusCnt (srv c i) + 1) = 1 + Z.of_nat (S (length (counted c i)))).
      rewrite Hcnt, u32_id; [lia |].
      assert (length (i :: p :: counted c i) <= length (seq 0 N))%nat as Hlen.
      { apply submseteq_length, NoDup_submseteq.
        - constructor; [| by constructor]. intros [-> | Hin]%elem_of_cons; [done |]. by destruct (Hcs i Hin) as (_ & ? & _).
        - intros q [-> | [-> | Hq]%elem_of_cons]%elem_of_cons; apply elem_of_seq; [lia | lia |]. destruct (Hcs q Hq). lia. }
      rewrite length_seq in Hlen. cbn [length] in Hlen. unfold is_u32. lia.
  - intros q. unfold upd. destruct (decide (q = p)) as [-> |]; [done | apply Hcall].
Qed.

(** The vote handler changes votes, terms and roles only. *)
Lemma handler_core now t cand li lt s err ct g s' e' :
  initialized s = true →
  _VmDirRequestVoteGetReply compare now t cand li lt s [] = Some (inr (err, ct, g), s', e') → core_frame s s'.
Proof.
  intros Hi. rewrite request_vote_run by done. cbn zeta. intros [= <- <- <- <- <-].
  set (g := vote_answer compare s t cand li lt). set (s1 := vote_post now t g cand s).
  assert (core_frame s s1) as (F1 & F2 & F3 & F4).
  { pose proof (vote_post_term now t g cand s) as Ht. fold s1 in Ht. unfold core_frame. rewrite Ht.
    unfold s1, vote_post, request_vote_cleanup.
    destruct (g =? 0); cbn; destruct (Z.gtb_spec t (currentTerm s)); cbn;
      (split; [done |]; split; [by left |]; split; [lia |]; first [done | intros; split; [done | lia]]). }
  destruct (persist_if_frame (currentTerm s1) (s32 (currentTerm s)) s1)
    as ((_ & _ & G1 & G2 & G3 & G4 & G5 & G6) & G7 & G8).
  unfold core_frame. rewrite G1, G2, G3, G4, G5, G6. split; [done |]. split; [done |]. split; [lia |].
  intros Hr. destruct (G8 Hr) as [Hr1 ->]. by apply F4.
Qed.

Lemma exec_vote_thread_inv ev c c' :
  (∀ i, (i < N)%nat → host i ≠ []) → cluster_inv c → (actor ev < N)%nat →
  exec_vote_thread ev c = Some c' → cluster_inv c'.
Proof.
  intros Hh Hinv Hi. destruct ev; cbn [exec_vote_thread actor] in *; try done.
  - destruct (schd c i) eqn:Hsc; try done. destruct (vote_decide _ _ _) as [s|] eqn:Hd; [| done].
    intros [= <-]. apply decide_frame in Hd as [Hf Hr]. by apply inv_srv_schd_frame.
  - destruct (schd c i) eqn:Hsc; try done. destruct (Z.ltb_spec (currentTerm (srv c i) + 1) (2 ^ 32)); [| done].
    pose proof (busy_not_leader c i Hinv Hi ltac:(congruence)) as Hr.
    destruct (node_of c i Hinv Hi) as (_ & _ & _ & Hpos & _).
    pose proof (increment_frame (srv c i) Hr Hpos ltac:(lia)) as Hf.
    unfold vote_increment in *. intros [= <-]. by apply inv_srv_schd_frame.
  - destruct (schd c i) eqn:Hsc; try done. destruct (left_by _ _ _) as [s|] eqn:Hl; [| done]. intros [= <-].
    apply (left_by_keeps vote_frame) in Hl; [| apply keeps_persist_term].
    pose proof (busy_not_leader c i Hinv Hi ltac:(congruence)) as Hr.
    apply inv_srv_schd_frame; [done | done | done |]. intros Hr'. destruct Hl as (_ & _ & Hl). by destruct (Hl Hr').
  - destruct (schd c i) eqn:Hsc; try done. pose proof (busy_not_leader c i Hinv Hi ltac:(congruence)) as Hr.
    rewrite vote_self_run. destruct (negb _).
    { intros [= <-]. by apply inv_srv_schd_frame. }
    destruct (_ && _) eqn:Hfree; intros [= <-].
    + apply inv_srv_schd_frame; [done | done | | done]. split; [by repeat split |]. split; [cbn; lia | done].
    + apply inv_self; auto.
  - destruct (schd c i) eqn:Hsc; try done. intros [= <-].
    pose proof (busy_not_leader c i Hinv Hi ltac:(congruence)) as Hr.
    destruct (node_of c i Hinv Hi) as (_ & _ & _ & _ & _ & Hv & _).
    apply inv_srv_schd; [done | done | | | done].
    + split; [done |]. split; [by right |]. split; [cbn; lia | done].
    + eapply vote_inv_ext; [..| exact Hv]; cbn; [done | done | lia].
  - destruct (schd c i) eqn:Hsc; try done. pose proof (busy_not_leader c i Hinv Hi ltac:(congruence)) as Hr.
    destruct (_VmDirEvaluateVoteResult _ _) as [[[[err | b] s] e']|] eqn:He; [done | | done].
    apply evaluate_spec in He. destruct b; intros [= <-].
    + destruct He as (_ & Ht & Hm & Hf). by apply inv_elect.
    + destruct He as [Hf Hl]. apply inv_srv_schd_frame; [done | done | done | auto].
Qed.

(** A handled request: the peer answers, and casts a vote if it grants. *)
Lemma inv_handle c i p a ct g s :
  cluster_inv c → (i < N)%nat → (p < N)%nat → p ≠ i → peer c i p = PeerSent a → rv_candidateId a = host i →
  core_frame (srv c p) s →
  vote_inv s (if g =? 0 then (rv_term a, rv_candidateId a) :: votes c p else votes c p) →
  let c1 := set_peer i p (PeerReplied a ct g) (set_srv p s c) in
  cluster_inv (if g =? 0 then add_vote p (rv_term a, rv_candidateId a) c1 else c1).
Proof.
  intros Hinv Hi HpN Hpi Hp Hcand Hf Hv c1.
  assert (p ∉ counted c i) as Hnc by (apply not_counted; rewrite ?Hp; done).
  destruct (Z.eqb_spec g 0) as [Hg | Hg].
  - change (cluster_inv (set_peer i p (PeerReplied a ct g) (add_vote p (rv_term a, rv_candidateId a) (set_srv p s c)))).
    apply inv_peer; [| done | done |].
    + apply (inv_core c _ p); cbn; rewrite ?upd_eq; try done; try (intros j Hj; by rewrite upd_ne).
      * intros x Hx. by right.
      * intros Hr. destruct Hf as (_ & _ & _ & Hf). destruct (node_of c p Hinv HpN) as (_ & _ & _ & _ & _ & _ & Hl).
        by apply Hl, Hf.
    + split; [done |]. split; [done |]. split; [done |]. intros _. cbn. rewrite upd_eq, Hcand. left.
  - apply inv_peer; [by apply inv_srv | done | done |]. split; [done |]. split; [done |]. by split.
Qed.

Lemma exec_peer_thread_inv ev c c' :
  (∀ i, (i < N)%nat → host i ≠ []) → Z.of_nat N < 2 ^ 32 → timely = true → cluster_inv c → (actor ev < N)%nat →
  exec_peer_thread ev c = Some c' → cluster_inv c'.
Proof.
  intros Hh HN Htl Hinv Hi. pose proof Hinv as [Hn _].
  destruct ev as [| | | | | | i p | i p | i p now | i p | i p now | i p | i p | | | | | |];
    cbn [exec_peer_thread actor] in *; try done;
    destruct (Hn i Hi) as (Hnode & Hcount & Hcall); specialize (Hcall p).
  - destruct (peer c i p) eqn:Hp; try done. destruct (cmd (srv c i)) eqn:Hcmd; try done.
    destruct (decide _); [| done]. intros [= <-]. apply inv_peer; [done | done | | done].
    intros Hin. exfalso. revert Hin. apply not_counted; rewrite ?Hp; done.
  - destruct (peer c i p) eqn:Hp; try done. intros [= <-]. destruct Hcall as [HpN Hpi].
    apply inv_peer; [done | done | | split; [done |]; split; [done |]; by destruct Hnode as (_ & ? & _)].
    intros Hin. exfalso. revert Hin. apply not_counted; rewrite ?Hp; done.
  - destruct (peer c i p) eqn:Hp; try done. destruct Hcall as (HpN & Hpi & Hcand).
    destruct (Hn p HpN) as ((Hini & _ & _ & _ & _ & Hvp & _) & _ & _).
    destruct (_VmDirRequestVoteGetReply _ _ _ _ _ _ _ _) as [[[[err | [[err ct] g]] s] e']|] eqn:Hr; [done | | done].
    destruct err; try done. pose proof (handler_core _ _ _ _ _ _ _ _ _ _ _ Hini Hr) as Hcore.
    assert (rv_candidateId a ≠ []) as Hne by (rewrite Hcand; auto).
    pose proof (vote_inv_handler compare _ _ _ _ _ _ _ _ _ _ _ _ Hvp Hini Hne Hr) as Hv'.
    assert (p ∉ counted c i) as Hnc by (apply not_counted; rewrite ?Hp; done).
    intros [= <-]. by apply inv_handle.
  - destruct (peer c i p) eqn:Hp; try done; intros [= <-]; (apply inv_peer; [done | done | by left |]);
      destruct Hcall as (? & ? & _); done.
  - destruct (peer c i p) eqn:Hp; try done. rewrite Htl. cbn [andb].
    destruct (counts ct g (srv c i)) eqn:Hc; cbn [andb].
    + destruct (Z.eqb_spec (rv_term a) (currentTerm (srv c i))) as [Ht | Ht]; [cbn [negb] | done].
      rewrite receive_counted by done. intros [= <-]. by apply (inv_count c i p a ct g).
    + destruct (left_by _ _ _) as [s|] eqn:Hl; [| done]. apply receive_frame in Hl; [| done]. intros [= <-].
      apply inv_peer; [by apply inv_srv_frame | done | by left |]. destruct Hcall as (? & ? & _). done.
  - destruct (peer c i p) eqn:Hp; try done. intros [= <-]. apply inv_peer; [| done | | done].
    + apply inv_srv; [done | done | |].
      * split; [done |]. split; [by right |]. split; [cbn; lia | done].
      * destruct Hnode as (_ & _ & _ & _ & _ & Hv & _). eapply vote_inv_ext; [..| exact Hv]; cbn; [done | done | lia].
    + intros _. right. cbn. rewrite upd_eq. done.
  - destruct (peer c i p) eqn:Hp; try done. destruct (role (srv c i)); try done.
    destruct (cmd (srv c i)) eqn:Hcmd; try done. intros [= <-]. apply inv_peer; [done | done | | done].
    intros _. right. by rewrite Hcmd.
Qed.

Lemma exec_others_inv ev c c' :
  cluster_inv c → (actor ev < N)%nat → exec_others ev c = Some c' → cluster_inv c'.
Proof.
  intros Hinv Hi. destruct ev; cbn [exec_others actor] in *; try done.
  - destruct (left_by _ _ _) as [s|] eqn:Hl; [| done]. intros [= <-].
    apply inv_srv_frame; [done | done |]. eapply left_by_keeps; [| exact Hl]. apply keeps_append_check.
  - destruct (left_by _ _ _) as [s|] eqn:Hl; [| done]. intros [= <-].
    apply inv_srv_frame; [done | done |]. eapply left_by_keeps; [| exact Hl]. apply keeps_append_log.
  - destruct (left_by _ _ _) as [s|] eqn:Hl; [| done]. intros [= <-].
    apply inv_srv_frame; [done | done |]. eapply left_by_keeps; [| exact Hl]. apply keeps_append_finish.
  - destruct (Z.gtb_spec t (currentTerm (srv c i))); [| done]. intros [= <-].
    apply inv_srv_frame; [done | done |]. split; [by repeat split |]. split; [cbn; lia | done].
  - assert (x ≠ ExecReqestVote → cluster_inv (set_srv i (set_cmd x (srv c i)) c)) as Hx.
    { intros Hx. destruct (node_of c i Hinv Hi) as (_ & _ & _ & _ & _ & Hv & _). apply inv_srv; [done | done | |].
      - split; [done |]. split; [by right |]. split; [cbn; lia | done].
      - eapply vote_inv_ext; [..| exact Hv]; cbn; [done | done | lia]. }
    destruct x; try done; intros [= <-]; by apply Hx.
  - intros [= <-]. apply inv_srv_frame; [done | done |]. split; [by repeat split |]. split; [cbn; lia | done].
Qed.

(** ** Election safety *)

Lemma exec_inv ev c c' :
  (∀ i, (i < N)%nat → host i ≠ []) → Z.of_nat N < 2 ^ 32 → timely = true → cluster_inv c →
  exec ev c = Some c' → cluster_inv c'.
Proof.
  intros Hh HN Htl Hinv. unfold exec. destruct (decide _) as [Hi | _]; [| done].
  destruct ev; (apply exec_vote_thread_inv || apply exec_peer_thread_inv || apply exec_others_inv); done.
Qed.

Lemma execs_inv evs c c' :
  (∀ i, (i < N)%nat → host i ≠ []) → Z.of_nat N < 2 ^ 32 → timely = true → cluster_inv c →
  execs evs c = Some c' → cluster_inv c'.
Proof.
  intros Hh HN Htl. revert c. induction evs as [|ev evs IH]; intros c Hinv; cbn [execs]; [by intros [= <-] |].
  destruct (exec ev c) as [c1|] eqn:He; [| done]. apply IH. by eapply exec_inv.
Qed.

Lemma started_inv c : started c → cluster_inv c.
Proof.
  intros (Hs & Hi & Hp & He). split.
  - intros i HiN. destruct (Hs i HiN) as (H1 & H2 & H3 & H4 & H5 & H6 & H7 & H8 & H9). destruct (Hi i) as (Hsc & Hv & Hc).
    rewrite Hc, Hv, Hsc, He. split; [| split].
    + split; [done |]. split; [done |]. split; [done |]. split; [done |]. split; [lia |]. split; [| congruence].
      split; [done |]. split; [by intros ? ? ?%elem_of_nil |]. split; [by intros ? ? ?%elem_of_nil |].
      by intros ? ? ? ?%elem_of_nil.
    + split; [constructor |]. split; [by intros p ?%elem_of_nil |]. by left.
    + intros p. by rewrite Hp.
  - rewrite He. by intros t i ?%elem_of_nil.
Qed.

Lemma quorums_meet (Q1 Q2 : list nat) :
  NoDup Q1 → NoDup Q2 → (∀ q, q ∈ Q1 → (q < N)%nat) → (∀ q, q ∈ Q2 → (q < N)%nat) →
  Z.of_nat N `quot` 2 + 1 <= Z.of_nat (length Q1) → Z.of_nat N `quot` 2 + 1 <= Z.of_nat (length Q2) →
  ∃ q, q ∈ Q1 ∧ q ∈ Q2.
Proof.
  intros Hn1 Hn2 Hb1 Hb2 Hl1 Hl2. destruct (decide (Exists (λ q, q ∈ Q2) Q1)) as [(q & H1 & H2)%Exists_exists | Hno];
    [by exists q |]. exfalso.
  assert (length (Q1 ++ Q2) <= length (seq 0 N))%nat as Hlen.
  { apply submseteq_length, NoDup_submseteq.
    - apply NoDup_app. split; [done |]. split; [| done]. intros q H1 H2. apply Hno, Exists_exists. eauto.
    - intros q [Hq | Hq]%elem_of_app; apply elem_of_seq; [pose proof (Hb1 q Hq) | pose proof (Hb2 q Hq)]; lia. }
  rewrite length_app, length_seq in Hlen. rewrite Z.quot_div_nonneg in * by lia.
  pose proof (Z_div_mod_eq_full (Z.of_nat N) 2). pose proof (Z.mod_pos_bound (Z.of_nat N) 2). lia.
Qed.

Lemma elected_once c t i j :
  (∀ i j, (i < N)%nat → (j < N)%nat → ckey (host i) = ckey (host j) → i = j) →
  cluster_inv c → (t, i) ∈ elected c → (t, j) ∈ elected c → i = j.
Proof.
  intros Hinj [Hn He] Hi Hj. destruct (He t i Hi) as (HiN & Q1 & Hn1 & HQ1 & Hl1).
  destruct (He t j Hj) as (HjN & Q2 & Hn2 & HQ2 & Hl2).
  destruct (quorums_meet Q1 Q2) as (q & Hq1 & Hq2); [done | done | by intros; apply HQ1 | by intros; apply HQ2 | done | done |].
  apply Hinj; [done | done |]. destruct (HQ1 q Hq1) as [HqN Hv1]. destruct (HQ2 q Hq2) as [_ Hv2].
  destruct (Hn q HqN) as ((_ & _ & _ & _ & _ & (_ & _ & _ & Hone) & _) & _). by eapply Hone.
Qed.

(** C1: Election safety: from a started cluster, after any interleaving of the
    vote threads, the peer threads, lost messages, the RPC handlers and the
    leaders' requests in which granted votes are received in the term they were
    requested for, at most one server has been elected in each term, and two
    leaders are never in the same term. *)
Theorem raft_election_safety evs c c' :
  (∀ i j, (i < N)%nat → (j < N)%nat → ckey (host i) = ckey (host j) → i = j) →
  (∀ i, (i < N)%nat → host i ≠ []) → Z.of_nat N < 2 ^ 32 → timely = true →
  started c → execs evs c = Some c' →
  (∀ t i j, (t, i) ∈ elected c' → (t, j) ∈ elected c' → i = j) ∧
  (∀ i j, (i < N)%nat → (j < N)%nat → role (srv c' i) = VDIR_RAFT_ROLE_LEADER → role (srv c' j) = VDIR_RAFT_ROLE_LEADER →
     currentTerm (srv c' i) = currentTerm (srv c' j) → i = j).
Proof.
  intros Hinj Hh HN Htl Hst Hrun. assert (cluster_inv c') as Hinv by (eapply execs_inv; eauto using started_inv).
  split; [intros t i j; by apply elected_once |]. intros i j HiN HjN Hi Hj Ht.
  destruct (node_of c' i Hinv HiN) as (_ & _ & _ & _ & _ & _ & Hli). destruct (node_of c' j Hinv HjN) as (_ & _ & _ & _ & _ & _ & Hlj).
  destruct (Hli Hi) as [_ Hei]. destruct (Hlj Hj) as [_ Hej]. rewrite Ht in Hei. by eapply elected_once.
Qed.

End Cluster.

(** ** Two leaders in one term *)

Definition hosts3 (i : nat) : cstr := match i with 0%nat => host_a | 1%nat => host_b | _ => host_c end.

(** A server just started, in term 1 with an empty log. *)
Definition new_server (i : nat) : raft_state :=
  RS VDIR_RAFT_ROLE_FOLLOWER ExecNone (hosts3 i) 3 0 0 0 true 0 0 0 0 1 0 0 0 [] false [] 0 1 0 [] 1 0 1 ∅.

Definition cluster3 : cluster :=
  CLUSTER new_server (λ _, SchdWait) (λ _ _, PeerIdle) (λ _, []) (λ _, []) [].

Definition start_vote (i : nat) : list event := [EvDecide i 1000 100; EvIncrement i; EvPersist i; EvSelf i 1000].
Definition end_vote (i : nat) : list event := [EvWake i; EvEvaluate i []].
Definition ask (i p : nat) : list event := [EvChoose i p; EvSend i p; EvHandle i p 1000].

(** Server 0 asks server 1 in term 2; the granted vote is delayed, server 0
    starts over in term 3, server 2 is elected with the vote of server 1 in
    term 3, and then the old vote arrives. *)
Definition stale_grant : list event :=
  start_vote 0 ++ ask 0 1 ++ end_vote 0 ++ start_vote 0 ++
  start_vote 2 ++ end_vote 2 ++ start_vote 2 ++ ask 2 1 ++ [EvReceive 2 1 1000] ++ end_vote 2 ++
  [EvReceive 0 1 1000] ++ end_vote 0.

(** Two servers can be elected in the same term: the code counts a granted
    vote for the term in which its reply arrives, without comparing it with the
    term it was requested for, and the time limit of the call, given in
    milliseconds but used as seconds, lets the reply arrive in a later
    election. *)
Theorem raft_two_leaders :
  match execs simple_compare 3 false stale_grant cluster3 with
  | Some c => elected c = [(3, 0%nat); (3, 2%nat)] ∧
              role (srv c 0) = VDIR_RAFT_ROLE_LEADER ∧ currentTerm (srv c 0) = 3 ∧
              role (srv c 2) = VDIR_RAFT_ROLE_LEADER ∧ currentTerm (srv c 2) = 3
  | None => False
  end.
Proof. vm_compute. repeat split; reflexivity. Qed.

(** The run is not possible when votes are received in their term. *)
Example stale_grant_not_timely : execs simple_compare 3 true stale_grant cluster3 = None.
Proof. vm_compute. reflexivity. Qed.

Lemma hosts3_distinct i j : (i < 3)%nat → (j < 3)%nat → ckey (hosts3 i) = ckey (hosts3 j) → i = j.
Proof.
  intros Hi Hj. destruct i as [|[|[|]]], j as [|[|[|]]]; try lia; try done; vm_compute; done.
Qed.

Lemma cluster3_started : started 3 hosts3 cluster3.
Proof.
  split; [| split; [| split]]; [| done | done | done].
  intros i Hi. cbn [srv cluster3 new_server hostname]. repeat (split; [done || (cbn; lia) |]). done.
Qed.

(** A vote that succeeds: server 0 is elected in term 2. *)
Definition normal_vote : list event := start_vote 0 ++ ask 0 1 ++ [EvReceive 0 1 1000; EvDone 0 1] ++ end_vote 0.

Example normal_vote_elects :
  match execs simple_compare 3 true normal_vote cluster3 with
  | Some c => elected c = [(2, 0%nat)] ∧ role (srv c 0) = VDIR_RAFT_ROLE_LEADER
  | None => False
  end.
Proof. vm_compute. split; reflexivity. Qed.

Lemma raft_election_safety_witness :
  match execs simple_compare 3 true normal_vote cluster3 with
  | Some c => ∀ t i j, (t, i) ∈ elected c → (t, j) ∈ elected c → i = j
  | None => False
  end.
Proof.
  destruct (execs simple_compare 3 true normal_vote cluster3) as [c|] eqn:Hrun.
  - apply (raft_election_safety simple_compare 3 hosts3 true normal_vote cluster3 c).
    + exact hosts3_distinct.
    + intros i _. destruct i as [|[|i]]; discriminate.
    + lia.
    + reflexivity.
    + exact cluster3_started.
    + exact Hrun.
  - revert Hrun. vm_compute. discriminate.
Defined.
