(* ===== verification/RaftReplicate.v ===== *)
(** * RaftReplicate: sending log entries to a peer

    [_VmDirAppendEntriesRpc] of [lwraft/server/replication/thread.c]: the peer
    thread of a leader sends an entry (or a ping) to its peer, goes back in the
    log while the peer lacks the entry before it, and forward again until the
    peer has caught up.  The code between two releases of [gRaftStateMutex] is
    one definition; [append_loop] composes them with a peer that answers
    through its own handler. *)

From S2P Require Import Prelude Heap StringList CString HashMap Effects RaftLog Raft.

Open Scope Z_scope.

(** ** The call *)

Definition RAFT_PREVLOG_FETCH_MARGIN : Z := 64.

(** [APPEND_ENTRIES_ARGS] without the results; a NULL [entries] has no bytes. *)
Record append_args := APPEND_ARGS {
  aa_term : Z; aa_preLogIndex : Z; aa_preLogTerm : Z; aa_leaderCommit : Z; aa_entries : list Z
}.

(** [VmDirAllocateAndCopyMemory] *)
Definition copy_block {St} (bs : list Z) : RM St (list Z) :=
  if Z.of_nat (length bs) <? 1 then rfail ERROR_INVALID_PARAMETER
  else VmDirAllocateMemory (Z.of_nat (length bs) + 1) ;;; rret bs.

(** The bytes of [packRaftLog]. *)
Definition packed_bytes (l : VDIR_RAFT_LOG) : list Z :=
  match packRaftLog l with Some b => take (Z.to_nat (lberbv_len b)) (lberbv_val b) | None => [] end.

(** What is sent: the entries, [startLogIndex], and where the search for the
    entry before them begins. *)
Record append_pick := APPEND_PICK { ap_entries : list Z; ap_start : Z; ap_prev : Z }.

(** The first critical section; [None] when there is nothing to do.  [g] is
    what [gEntries] points to. *)
Definition append_choose (c : VDIR_RAFT_EXEC_CMD) (g : option VDIR_RAFT_LOG) : RM raft_state (option append_pick) :=
  s <- rget ;;
  if bool_decide (role s ≠ VDIR_RAFT_ROLE_LEADER) then rret None
  else match c with
       | ExecAppendEntries =>
           match g with
           | None => rret None
           | Some l =>
               if bool_decide (packed_bytes l = []) then rret None
               else es <- copy_block (packed_bytes l) ;;
                    rret (Some (APPEND_PICK es (index l) (u64 (index l - 1))))
           end
       | ExecPing => rret (Some (APPEND_PICK [] (lastLogIndex s) (u64 (lastLogIndex s + 1))))
       | _ => rub
       end.

(** The entry before, read outside the mutex. *)
Definition append_prev (a : append_pick) : RM raft_state append_args :=
  s <- rget ;;
  p <- _VmDirGetPrevLogArgs (logs s) (firstLogIndex s) (ap_prev a) ;;
  rret (APPEND_ARGS 0 p.1 p.2 0 (ap_entries a)).

(** [ReplicateLog]: the term and the commit index of the moment; [None] when
    this server is not the leader any more. *)
Definition append_send (a : append_args) : RM raft_state (option append_args) :=
  s <- rget ;;
  if bool_decide (role s ≠ VDIR_RAFT_ROLE_LEADER) then rret None
  else if aa_preLogIndex a <? firstLogIndex s then rfail LDAP_OPERATIONS_ERROR
  else rret (Some (APPEND_ARGS (currentTerm s) (aa_preLogIndex a) (aa_preLogTerm a) (commitIndex s) (aa_entries a))).

Definition set_clusterSize (x : Z) (s : raft_state) : raft_state :=
  RS (role s) (cmd s) (hostname s) x (voteConsensusCnt s) (voteDeniedCnt s) (voteConsensusTerm s)
     (initialized s) (lastPingRecvTime s) (commitIndex s) (commitIndexTerm s) (lastLogIndex s)
     (firstLogIndex s) (indexToApply s) (opCounts s) (lastLogTerm s) (leader s) (disallowUpdates s)
     (proxies s) (lastApplied s) (currentTerm s) (votedForTerm s) (votedFor s) (ps_term s)
     (ps_lastApplied s) (ps_firstLogIndex s) (logs s).

(** Assignments to the proxy of the peer. *)
Definition set_proxy (p : nat) (f : VMDIR_PEER_PROXY → VMDIR_PEER_PROXY) (s : raft_state) : raft_state :=
  set_proxies (alter f p (proxies s)) s.
Definition set_proxy_state (x : VDIR_RAFT_PROXY_STATE) (p : VMDIR_PEER_PROXY) : VMDIR_PEER_PROXY :=
  PROXY (isDeleted p) x (raftPeerHostname p) (bLogReplicated p) (matchIndex p).
Definition set_bLogReplicated (x : bool) (p : VMDIR_PEER_PROXY) : VMDIR_PEER_PROXY :=
  PROXY (isDeleted p) (proxy_state p) (raftPeerHostname p) x (matchIndex p).
Definition raise_matchIndex (x : Z) (p : VMDIR_PEER_PROXY) : VMDIR_PEER_PROXY :=
  PROXY (isDeleted p) (proxy_state p) (raftPeerHostname p) (bLogReplicated p)
        (if x >? matchIndex p then x else matchIndex p).

(** [VmDirLdapRpcConnect] once the connection is established: a peer that was
    to be added is now counted. *)
Definition VmDirLdapRpcConnect (p : nat) (s : raft_state) : raft_state :=
  let s := match proxies s !! p with
           | Some x => if bool_decide (proxy_state x = PENDING_ADD) then set_clusterSize (u32 (clusterSize s + 1)) s else s
           | None => s
           end in
  set_proxy p (set_proxy_state RPC_BUSY) s.

(** The bytes on the wire: a request without entries carries the letter p. *)
Definition wire_entries (es : list Z) : list Z := if Z.of_nat (length es) >? 1 then es else [112].

(** How the call goes on after a reply. *)
Inductive append_next := AppendDone | AppendBack | AppendForward.

(** The critical section after a reply.  A successful one confirms the entry
    before the sent one and the sent one; [cur] is [curChgLog.index]. *)
Definition append_confirm (c : VDIR_RAFT_EXEC_CMD) (g : option VDIR_RAFT_LOG) (p : nat) (start : Z) (a : append_args)
    (cur : Z) : RM raft_state (append_next * Z) :=
  cur <- (match aa_entries a with
          | [] => rret cur
          | es => es <- copy_block es ;;
                  l <- _VmDirUnpackLogEntry (RAFT_LOG 0 0 0 0 [] (Some (BERVAL es (Z.of_nat (length es))))) ;;
                  rret (index l)
          end) ;;
  rset (set_proxy p (raise_matchIndex cur)) ;;;
  rset (set_proxy p (raise_matchIndex (aa_preLogIndex a))) ;;;
  let goOn := if aa_preLogIndex a >=? start then AppendDone else AppendForward in
  if bool_decide (c = ExecAppendEntries) then
    match g with
    | Some l =>
        if (cur >? 0) && (cur =? index l)
        then rset (set_proxy p (set_bLogReplicated true)) ;;; rret (AppendDone, cur)
        else rret (goOn, cur)
    | None => rret (goOn, cur)
    end
  else if aa_preLogIndex a =? start then rret (AppendDone, cur) else rret (goOn, cur).

Definition append_receive (now : Z) (c : VDIR_RAFT_EXEC_CMD) (g : option VDIR_RAFT_LOG) (p : nat) (start : Z)
    (a : append_args) (cur replyTerm status : Z) : RM raft_state (append_next * Z) :=
  s <- rget ;;
  if replyTerm >? currentTerm s then
    rset (λ s, set_currentTerm replyTerm (set_lastPingRecvTime now (set_role VDIR_RAFT_ROLE_FOLLOWER s))) ;;;
    VmDirPersistTerm replyTerm ;;; rret (AppendDone, cur)
  else if bool_decide (role s ≠ VDIR_RAFT_ROLE_LEADER) then rret (AppendDone, cur)
  else if negb (status =? 0) then rret (AppendBack, cur)
  else append_confirm c g p start a cur.

(** The peer lacks the entry before: an earlier one is sent, from the end of
    the peer's log when that is far behind. *)
Definition append_back (a : append_args) (status : Z) : RM raft_state append_args :=
  s <- rget ;;
  let toFetch := if aa_preLogIndex a >? u64 (status + RAFT_PREVLOG_FETCH_MARGIN)
                 then u64 (status + RAFT_PREVLOG_FETCH_MARGIN) else aa_preLogIndex a in
  l <- _VmDirFetchLogEntry (logs s) toFetch ;;
  es <- copy_block (packed_bytes l) ;;
  pr <- _VmDirGetPrevLogArgs (logs s) (firstLogIndex s) (u64 (index l - 1)) ;;
  rret (APPEND_ARGS (aa_term a) pr.1 pr.2 (aa_leaderCommit a) es).

(** The next entry up; [None] when there is none (the error of the first fetch
    shows in its index only). *)
Definition append_forward (c : VDIR_RAFT_EXEC_CMD) (start : Z) (a : append_args) : RM raft_state (option (append_args * Z)) :=
  s <- rget ;;
  r <- rtry (_VmDirGetNextLog (logs s) (u64 (aa_preLogIndex a + 1)) start ZERO_LOG) ;;
  let l := match r with inr l => l | inl _ => ZERO_LOG end in
  if index l =? 0 then
    (if bool_decide (c = ExecAppendEntries)
     then match r with inl err => rfail err | inr _ => rret None end
     else rfail LDAP_OPERATIONS_ERROR)
  else
    l' <- _VmDirGetNextLog (logs s) (u64 (index l + 1)) start ZERO_LOG ;;
    if index l' =? 0 then rret (Some (APPEND_ARGS (aa_term a) (index l) (term l) (aa_leaderCommit a) [], 0))
    else es <- copy_block (packed_bytes l') ;;
         rret (Some (APPEND_ARGS (aa_term a) (index l) (term l) (aa_leaderCommit a) es, index l')).

(** ** The whole call against a peer *)

(** The leader and the peer. *)
Abbreviation pair_state := (raft_state * raft_state)%type.

Definition on_leader {A} (m : RM raft_state A) : RM pair_state A := λ s e,
  match m s.1 e with Some (r, s1, e') => Some (r, (s1, s.2), e') | None => None end.
Definition on_peer {A} (m : RM raft_state A) : RM pair_state A := λ s e,
  match m s.2 e with Some (r, s2, e') => Some (r, (s.1, s2), e') | None => None end.

Section Call.
Context (compare : cstr → cstr → bool → Z).

(** The LDAP search the peer answers with its handler: an error of the handler
    is the error of the search, the term is read back as an [int]. *)
Definition ldap_search (now : Z) (ldr : cstr) (a : append_args) : RM pair_state (dwerror + Z * Z) :=
  r <- on_peer (_VmDirAppendEntriesGetReply compare now (aa_term a) ldr (aa_preLogIndex a) (aa_preLogTerm a)
                  (aa_leaderCommit a) (wire_entries (aa_entries a))) ;;
  rret (if bool_decide (ar_error r = ERROR_SUCCESS) then inr (u32 (s32 (ar_currentTerm r)), ar_status r)
        else inl (ar_error r)).

(** An error other than the refusal of the peer is taken for a lost
    connection. *)
Definition VmDirRaftLdapRpcAppendEntries (now : Z) (p : nat) (ldr : cstr) (a : append_args) : RM pair_state (Z * Z) :=
  s <- rget ;;
  match proxies s.1 !! p with
  | None => rub
  | Some x =>
      if bool_decide (proxy_state x = RPC_DISCONN) then rfail VMDIR_ERROR_SERVER_DOWN
      else
        res <- ldap_search now ldr a ;;
        match res with
        | inr r => rret r
        | inl err =>
            if bool_decide (err = VMDIR_ERROR_UNWILLING_TO_PERFORM) then rfail VMDIR_ERROR_UNWILLING_TO_PERFORM
            else on_leader (rset (set_proxy p (set_proxy_state RPC_DISCONN))) ;;; rfail VMDIR_ERROR_CANNOT_CONNECT_VMDIR
        end
  end.

(** After a failed call: a lost connection is made again. *)
Definition append_failed (p : nat) (err : dwerror) : RM raft_state unit :=
  s <- rget ;;
  match proxies s !! p with
  | Some x =>
      if bool_decide (proxy_state x = RPC_DISCONN)
      then o <- next_outcome ;; (if o =? 0 then rset (VmDirLdapRpcConnect p) else rret tt) ;;; rfail err
      else rfail err
  | None => rub
  end.

(** From [ReplicateLog] on.  Each round of going back lowers the index of the
    entry before, each round forward raises it. *)
Fixpoint append_loop (fuel : nat) (now : Z) (c : VDIR_RAFT_EXEC_CMD) (g : option VDIR_RAFT_LOG) (p : nat)
    (start : Z) (a : append_args) (cur : Z) : RM pair_state unit :=
  match fuel with
  | O => rub
  | S fuel =>
      snd <- on_leader (append_send a) ;;
      match snd with
      | None => rret tt
      | Some a =>
          L <- rget ;;
          res <- rtry (VmDirRaftLdapRpcAppendEntries now p (hostname L.1) a) ;;
          match res with
          | inl err => on_leader (append_failed p err)
          | inr r =>
              n <- on_leader (append_receive now c g p start a cur r.1 r.2) ;;
              match n.1 with
              | AppendDone => rret tt
              | AppendBack =>
                  a <- on_leader (append_back a r.2) ;; append_loop fuel now c g p start a n.2
              | AppendForward =>
                  f <- on_leader (append_forward c start a) ;;
                  match f with
                  | None => rret tt
                  | Some (a, cur) => append_loop fuel now c g p start a cur
                  end
              end
          end
      end
  end.

Definition _VmDirAppendEntriesRpc (fuel : nat) (now : Z) (c : VDIR_RAFT_EXEC_CMD) (g : option VDIR_RAFT_LOG) (p : nat)
  : RM pair_state unit :=
  pk <- on_leader (append_choose c g) ;;
  match pk with
  | None => rret tt
  | Some pk =>
      a <- on_leader (append_prev pk) ;;
      append_loop fuel now c g p (ap_start pk) a 0
  end.

End Call.

(** ** Running the parts *)

Lemma fetch_entry {St} (lg : log_store) i l (s : St) :
  log_ok l → lg !! i = Some (entry_bytes l) → _VmDirFetchLogEntry lg i s [] = Some (inr (packed l), s, []).
Proof.
  intros Hl Hi. unfold _VmDirFetchLogEntry. rewrite run_backend, Hi. unfold rbind.
  pose proof (entry_length l). pose proof (chglog_len_pos l). change RAFT_LOG_HEADER_LEN with 24 in *.
  rewrite allocate_ok by (done || lia). cbn [tail].
  rewrite (unpack_spec l _ []); [done | done |]. cbn [packRaftLog]. by rewrite app_nil_r.
Qed.

Lemma packed_bytes_packed l : packed_bytes (packed l) = entry_bytes l.
Proof. unfold packed_bytes, packed. cbn [packRaftLog lberbv_len lberbv_val]. by rewrite Nat2Z.id, firstn_all. Qed.

Lemma entry_bytes_long l : 1 < Z.of_nat (length (entry_bytes l)).
Proof. rewrite entry_length. pose proof (chglog_len_pos l). unfold RAFT_LOG_HEADER_LEN. lia. Qed.

Lemma copy_entry {St} l (s : St) : copy_block (entry_bytes l) s [] = Some (inr (entry_bytes l), s, []).
Proof.
  unfold copy_block. pose proof (entry_bytes_long l). rewrite (proj2 (Z.ltb_ge _ _)) by lia.
  unfold rbind. by rewrite allocate_ok by (done || lia).
Qed.

Lemma wire_entry l : wire_entries (entry_bytes l) = entry_bytes l.
Proof. unfold wire_entries. pose proof (entry_bytes_long l). by rewrite (proj2 (Z.gtb_lt _ _)) by lia. Qed.

Lemma next_log_entry {St} (lg : log_store) i endIndex l (s : St) :
  log_ok l → lg !! i = Some (entry_bytes l) → 0 < index l →
  _VmDirGetNextLog lg i endIndex ZERO_LOG s [] = Some (inr (packed l), s, []).
Proof.
  intros Hl Hi Hpos. unfold _VmDirGetNextLog. cbn [next_loop index ZERO_LOG]. rewrite Z.leb_refl. cbn [Z.eqb andb].
  unfold rbind. rewrite (fetch_entry _ _ l) by done. cbn [next_loop]. change (index (packed l)) with (index l).
  rewrite (proj2 (Z.eqb_neq _ _)) by lia. done.
Qed.

Lemma prev_log_entry {St} (lg : log_store) first i l (s : St) :
  log_ok l → lg !! i = Some (entry_bytes l) → 0 < index l → first <= i →
  _VmDirGetPrevLogArgs lg first i s [] = Some (inr (index l, term l), s, []).
Proof.
  intros Hl Hi Hpos Hf. unfold _VmDirGetPrevLogArgs. cbn [prev_loop]. rewrite Z.geb_leb, (proj2 (Z.leb_le _ _)) by done.
  unfold rbind. rewrite (fetch_entry _ _ l) by done. change (index (packed l)) with (index l).
  by rewrite (proj2 (Z.gtb_lt _ _)) by lia.
Qed.

(** ** Catching up *)

Section CatchUp.
Context (compare : cstr → cstr → bool → Z) `{!CStringCompare compare}.

(** The log [Lg] of the leader has every entry from [first] to [start], and the
    entry [start] is the one to replicate; the peer is number [p]. *)
Context (Lg : log_store) (first start t : Z) (g : VDIR_RAFT_LOG) (p : nat) (now : Z).
Context (HLg : store_ok Lg) (Hfirst : 0 < first) (Ht : 0 <= t < 2 ^ 31).
Context (Hfull : ∀ i, first <= i <= start → is_Some (Lg !! i)).
Context (Hg : log_ok g) (Hgi : index g = start) (Hgb : Lg !! start = Some (entry_bytes g)).

(** The leader, while the call goes on. *)
Definition leader_ready (L : raft_state) : Prop :=
  role L = VDIR_RAFT_ROLE_LEADER ∧ currentTerm L = t ∧ logs L = Lg ∧ firstLogIndex L = first ∧
  ∃ x, proxies L !! p = Some x ∧ proxy_state x ≠ RPC_DISCONN.

(** The peer: it accepts the leader's term, its log matches the leader's, and it
    is not too far behind in applying it. *)
Definition peer_ready (F : raft_state) : Prop :=
  server_ok F ∧ accepts_term t F ∧ log_match (logs F) Lg ∧
  start <= lastApplied F + RAFT_APPLIED_GAP_MAX ∧ 0 <= lastApplied F < 2 ^ 63.

(** The peer has the leader's log up to [i]. *)
Definition agrees (F : raft_state) (i : Z) : Prop := is_Some (Lg !! i) ∧ ∀ j, j <= i → logs F !! j = Lg !! j.

(** Only the proxy of the peer differs. *)
Definition proxy_frame (L L' : raft_state) : Prop :=
  L' = set_proxies (proxies L') L ∧ ∀ q, q ≠ p → proxies L' !! q = proxies L !! q.

#[local] Instance proxy_frame_preorder : PreOrder proxy_frame.
Proof.
  split.
  - intros L. split; [by destruct L | done].
  - intros L1 L2 L3 [H1 Hq1] [H2 Hq2]. split; [rewrite H2, H1; done |]. intros q Hq. by rewrite Hq2, Hq1.
Qed.

Lemma set_proxy_frame f L : proxy_frame L (set_proxy p f L).
Proof. split; [done |]. intros q Hq. unfold set_proxy. cbn. by rewrite list_lookup_alter_ne. Qed.

Lemma leader_ready_proxy f L :
  (∀ x, proxy_state (f x) = proxy_state x) → leader_ready L → leader_ready (set_proxy p f L).
Proof.
  intros Hf (Hr & Hc & Hl & Hfi & x & Hx & Hd). do 4 (split; [done |]). exists (f x). split; [| by rewrite Hf].
  unfold set_proxy. cbn. by rewrite list_lookup_alter_eq, Hx.
Qed.

(** An entry of the leader's log as a record. *)
Lemma leader_entry i : first <= i <= start → ∃ l, log_ok l ∧ index l = i ∧ Lg !! i = Some (entry_bytes l) ∧ term l = log_term Lg i.
Proof.
  intros Hi. destruct (Hfull i Hi) as [b Hb]. destruct (HLg i b Hb) as (l & Hl & -> & Hli & _).
  exists l. split; [done |]. split; [done |]. split; [done |]. symmetry. apply (log_term_entry _ _ _ []); [done |].
  by rewrite app_nil_r.
Qed.

Lemma start_u64 : start < 2 ^ 64.
Proof. destruct Hg as ((_ & Hi) & _). lia. Qed.

(** One exchange. *)
Lemma rpc_reply ldr L F a F' rep :
  leader_ready L → aa_term a = t →
  _VmDirAppendEntriesGetReply compare now t ldr (aa_preLogIndex a) (aa_preLogTerm a) (aa_leaderCommit a)
    (wire_entries (aa_entries a)) F [] = Some (inr (APPEND_REPLY ERROR_SUCCESS t rep), F', []) →
  VmDirRaftLdapRpcAppendEntries compare now p ldr a (L, F) [] = Some (inr (t, rep), (L, F'), []).
Proof.
  intros (_ & _ & _ & _ & x & Hx & Hd) Hat Hrun. unfold VmDirRaftLdapRpcAppendEntries.
  unfold rbind at 1, rget at 1. cbn [fst]. rewrite Hx, bool_decide_eq_false_2 by done.
  unfold ldap_search. unfold rbind at 1 2. unfold on_peer at 1. cbn [fst snd]. rewrite Hat, Hrun. cbn [fst snd ar_error].
  rewrite bool_decide_eq_true_2 by done. unfold rret at 1. cbn [ar_currentTerm ar_status].
  rewrite s32_id, u32_id by (unfold is_u32; lia). done.
Qed.

Lemma t_u32 : is_u32 t.
Proof. unfold is_u32. lia. Qed.

Lemma rpc_accept ldr L F a pre l :
  leader_ready L → peer_ready F → first <= pre < start → lastApplied F <= pre →
  is_Some (logs F !! pre) → log_term (logs F) pre = log_term Lg pre →
  aa_term a = t → aa_preLogIndex a = pre → aa_preLogTerm a = log_term Lg pre → aa_entries a = entry_bytes l →
  log_ok l → index l = pre + 1 → Lg !! (pre + 1) = Some (entry_bytes l) →
  ∃ F', VmDirRaftLdapRpcAppendEntries compare now p ldr a (L, F) [] = Some (inr (t, 0), (L, F'), []) ∧
    peer_ready F' ∧ agrees F' (pre + 1) ∧ lastApplied F' = lastApplied F.
Proof.
  intros HL HF Hpre Hap HFp HFt Hat Hai Hapt Hae Hl Hli HLl. pose proof HF as (Hs & Hacc & Hm & Hgap & Hla).
  destruct (append_success compare now t ldr pre (log_term Lg pre) (aa_leaderCommit a) l F)
    as (F' & Hrun & Hlogs & Hll & _ & _ & Hct & Hrole & Hla' & Hok'); [done | apply t_u32 | done.. | lia | done |].
  destruct (append_keeps_match (logs F) Lg pre l) as [Heq Hm'];
    [lia | done | by rewrite Hli | apply Hfull; lia | lia | done | done |]. rewrite <- Hlogs in Heq, Hm'.
  exists F'. split; [| split; [| split; [| done]]].
  - apply rpc_reply; [done | done |]. by rewrite Hai, Hapt, Hae, wire_entry.
  - split; [done |]. split; [split; [lia | by left] |]. split; [done |]. rewrite Hla'. done.
  - split; [by rewrite HLl |]. intros j Hj. apply Heq. lia.
Qed.

Lemma rpc_reject ldr L F a pre :
  leader_ready L → peer_ready F → 0 < pre → (logs F !! pre = None ∨ log_term (logs F) pre ≠ log_term Lg pre) →
  aa_term a = t → aa_preLogIndex a = pre → aa_preLogTerm a = log_term Lg pre →
  ∃ F', VmDirRaftLdapRpcAppendEntries compare now p ldr a (L, F) [] = Some (inr (t, lastLogIndex F), (L, F'), []) ∧
    lastLogIndex F ≠ 0 ∧ peer_ready F' ∧ logs F' = logs F ∧ lastApplied F' = lastApplied F ∧ lastLogIndex F' = lastLogIndex F.
Proof.
  intros HL HF Hpre Hno Hat Hai Hapt. pose proof HF as (Hs & Hacc & Hm & Hgap & Hla).
  destruct (append_mismatch compare now t ldr pre (log_term Lg pre) (aa_leaderCommit a) (wire_entries (aa_entries a)) F)
    as (F' & Hrun & Hl0 & Hlogs & Hct & Hrole & Hll & Hla' & Hok'); [done | apply t_u32 | done | lia | done |].
  exists F'. split; [apply rpc_reply; [done | done |]; by rewrite Hai, Hapt |]. split; [done |].
  split; [| done]. split; [done |]. split; [split; [lia | by left] |]. rewrite Hlogs, Hla'. done.
Qed.

(** The leader's part of a round. *)
Lemma send_run L a :
  leader_ready L → first <= aa_preLogIndex a →
  append_send a L [] = Some (inr (Some (APPEND_ARGS t (aa_preLogIndex a) (aa_preLogTerm a) (commitIndex L) (aa_entries a))), L, []).
Proof.
  intros (Hr & Hc & _ & Hf & _) Hle. unfold append_send, rbind, rget. rewrite Hr, bool_decide_eq_false_2 by naive_solver.
  rewrite Hf, (proj2 (Z.ltb_ge _ _)) by done. by rewrite Hc.
Qed.

(** The proxy after the peer has confirmed. *)
Definition confirmed (L : raft_state) (cur pre : Z) : raft_state :=
  set_proxy p (raise_matchIndex pre) (set_proxy p (raise_matchIndex cur) L).

Lemma confirmed_ready L cur pre : leader_ready L → leader_ready (confirmed L cur pre).
Proof. intros HL. do 2 (apply leader_ready_proxy; [done |]). done. Qed.

Lemma confirmed_frame L cur pre : proxy_frame L (confirmed L cur pre).
Proof. unfold confirmed. etransitivity; apply set_proxy_frame. Qed.

Lemma receive_confirm L a l cur :
  leader_ready L → log_ok l → 0 < index l → aa_entries a = entry_bytes l → aa_preLogIndex a < start →
  append_receive now ExecAppendEntries (Some (packed g)) p start a cur t 0 L [] =
    if index l =? start
    then Some (inr (AppendDone, index l),
               set_proxy p (set_bLogReplicated true) (confirmed L (index l) (aa_preLogIndex a)), [])
    else Some (inr (AppendForward, index l), confirmed L (index l) (aa_preLogIndex a), []).
Proof.
  intros (Hr & Hc & _) Hl Hpos Hae Hlt. unfold append_receive. unfold rbind at 1, rget at 1.
  rewrite Hc. destruct (Z.gtb_spec t t); [lia |]. rewrite Hr, bool_decide_eq_false_2 by naive_solver.
  cbn [Z.eqb negb]. unfold append_confirm. rewrite Hae.
  destruct (entry_bytes l) as [|b0 bs] eqn:Hb; [pose proof (entry_bytes_long l); rewrite Hb in *; cbn in *; lia |].
  rewrite <- Hb. unfold rbind at 1. unfold rbind at 1. rewrite copy_entry. unfold rbind at 1.
  rewrite (unpack_spec l _ []); [| done | cbn [packRaftLog]; by rewrite app_nil_r]. cbn [index]. unfold rret at 1.
  unfold rbind at 1, rset at 1. unfold rbind at 1, rset at 1. fold (confirmed L (index l) (aa_preLogIndex a)).
  rewrite bool_decide_eq_true_2 by done. rewrite (proj2 (Z.gtb_lt _ _)) by lia.
  change (index (packed g)) with (index g). rewrite Hgi. cbn [andb].
  destruct (index l =? start); [done |]. rewrite Z.geb_leb, (proj2 (Z.leb_gt _ _)) by lia. done.
Qed.

Lemma receive_reject L a cur status :
  leader_ready L → status ≠ 0 →
  append_receive now ExecAppendEntries (Some (packed g)) p start a cur t status L [] = Some (inr (AppendBack, cur), L, []).
Proof.
  intros (Hr & Hc & _) Hst. unfold append_receive. unfold rbind at 1, rget at 1.
  rewrite Hc. destruct (Z.gtb_spec t t); [lia |]. rewrite Hr, bool_decide_eq_false_2 by naive_solver.
  by rewrite (proj2 (Z.eqb_neq _ _)).
Qed.

Lemma forward_run L a :
  leader_ready L → first <= aa_preLogIndex a → aa_preLogIndex a + 1 < start →
  ∃ l, log_ok l ∧ index l = aa_preLogIndex a + 2 ∧ Lg !! (aa_preLogIndex a + 2) = Some (entry_bytes l) ∧
    append_forward ExecAppendEntries start a L [] =
      Some (inr (Some (APPEND_ARGS (aa_term a) (aa_preLogIndex a + 1) (log_term Lg (aa_preLogIndex a + 1))
                         (aa_leaderCommit a) (entry_bytes l), aa_preLogIndex a + 2)), L, []).
Proof.
  intros (_ & _ & Hlg & _) Hf Hlt. pose proof start_u64. set (i := aa_preLogIndex a) in *.
  destruct (leader_entry (i + 1)) as (l1 & Hl1 & Hi1 & Hb1 & Ht1); [lia |].
  destruct (leader_entry (i + 2)) as (l2 & Hl2 & Hi2 & Hb2 & Ht2); [lia |].
  exists l2. split; [done |]. split; [done |]. split; [done |].
  unfold append_forward. fold i. unfold rbind at 1, rget at 1. rewrite Hlg, u64_id by (unfold is_u64; lia).
  unfold rbind at 1, rtry at 1. rewrite (next_log_entry _ _ _ l1) by (done || lia).
  change (index (packed l1)) with (index l1). change (term (packed l1)) with (term l1).
  rewrite Hi1, (proj2 (Z.eqb_neq _ _)) by lia. unfold rbind at 1.
  replace (i + 1 + 1) with (i + 2) by lia. rewrite u64_id by (unfold is_u64; lia).
  rewrite (next_log_entry _ _ _ l2) by (done || lia). change (index (packed l2)) with (index l2).
  rewrite Hi2, (proj2 (Z.eqb_neq _ _)) by lia. unfold rbind. rewrite packed_bytes_packed, copy_entry, Ht1. done.
Qed.

(** The end of a call: the peer has the leader's log up to [start], and its
    proxy says so. *)
Definition caught_up (L F L' F' : raft_state) : Prop :=
  peer_ready F' ∧ agrees F' start ∧ lastApplied F' = lastApplied F ∧ proxy_frame L L' ∧
  ∃ x, proxies L' !! p = Some x ∧ bLogReplicated x = true ∧ start <= matchIndex x.

Lemma raise_matchIndex_max i x : matchIndex (raise_matchIndex i x) = Z.max i (matchIndex x).
Proof. cbn. destruct (Z.gtb_spec i (matchIndex x)); lia. Qed.

Lemma confirmed_proxy L cur pre :
  leader_ready L →
  ∃ x, proxies (set_proxy p (set_bLogReplicated true) (confirmed L cur pre)) !! p = Some x ∧
    bLogReplicated x = true ∧ cur <= matchIndex x.
Proof.
  intros (_ & _ & _ & _ & x & Hx & _).
  exists (set_bLogReplicated true (raise_matchIndex pre (raise_matchIndex cur x))).
  unfold confirmed, set_proxy. cbn [proxies set_proxies]. rewrite !list_lookup_alter_eq, Hx. split; [done |]. split; [done |].
  cbn [matchIndex set_bLogReplicated]. rewrite !raise_matchIndex_max. lia.
Qed.

(** Entry after entry up to [start]. *)
Lemma forward_loop n fuel L F a pre l cur :
  (Z.to_nat (start - pre) <= n)%nat → (n <= fuel)%nat →
  leader_ready L → peer_ready F → first <= pre < start → lastApplied F <= pre →
  is_Some (logs F !! pre) → log_term (logs F) pre = log_term Lg pre →
  aa_preLogIndex a = pre → aa_preLogTerm a = log_term Lg pre → aa_entries a = entry_bytes l →
  log_ok l → index l = pre + 1 → Lg !! (pre + 1) = Some (entry_bytes l) →
  ∃ L' F', append_loop compare fuel now ExecAppendEntries (Some (packed g)) p start a cur (L, F) [] = Some (inr tt, (L', F'), []) ∧
    caught_up L F L' F'.
Proof.
  revert fuel L F a pre l cur. induction n as [|n IH];
    intros fuel L F a pre l cur Hn Hfuel HL HF Hpre Hap HFp HFt Hai Hapt Hae Hl Hli HLl; [lia |].
  destruct fuel as [|fuel]; [lia |]. cbn [append_loop]. unfold rbind at 1. unfold on_leader at 1. cbn [fst].
  rewrite send_run by (done || lia). cbn [fst snd]. unfold rbind at 1, rget at 1. cbn [fst].
  set (a1 := APPEND_ARGS t _ _ _ _).
  destruct (rpc_accept (hostname L) L F a1 pre l) as (F1 & Hrpc & HF1 & Hagr & Hla1); [done.. |].
  unfold rbind at 1, rtry at 1. rewrite Hrpc. unfold rbind at 1. unfold on_leader at 1. cbn [fst snd].
  rewrite (receive_confirm L a1 l) by (done || cbn; lia). change (aa_preLogIndex a1) with (aa_preLogIndex a). rewrite Hai.
  destruct (Z.eqb_spec (index l) start) as [Heq | Hne].
  - exists (set_proxy p (set_bLogReplicated true) (confirmed L (index l) pre)), F1. split; [done |].
    split; [done |]. split; [by rewrite Hli in Heq; rewrite <- Heq |]. split; [done |]. split.
    + etransitivity; [apply confirmed_frame | apply set_proxy_frame].
    + destruct (confirmed_proxy L (index l) pre HL) as (x & Hx & Hb & Hm). exists x. split; [done |]. split; [done | lia].
  - set (L1 := confirmed L (index l) pre). assert (leader_ready L1) as HL1 by by apply confirmed_ready.
    destruct (forward_run L1 a1) as (l2 & Hl2 & Hi2 & Hb2 & Hfw); [done | cbn; lia.. |].
    cbn [fst snd]. unfold rbind at 1. unfold on_leader at 1. cbn [fst snd]. rewrite Hfw. cbn [fst snd].
    change (aa_preLogIndex a1) with (aa_preLogIndex a) in *. rewrite Hai in *.
    destruct Hagr as [HLsome Hagr].
    destruct (IH fuel L1 F1 (APPEND_ARGS (aa_term a1) (pre + 1) (log_term Lg (pre + 1)) (aa_leaderCommit a1) (entry_bytes l2))
                (pre + 1) l2 (pre + 2)) as (L' & F' & Hrun & HF' & Hag' & Hla' & Hfr & Hx);
      [lia | lia | done | done | lia | lia | by rewrite Hagr by lia | unfold log_term; by rewrite Hagr by lia
      | done | done | done | done | lia | by replace (pre + 1 + 1) with (pre + 2) by lia |].
    exists L', F'. split; [exact Hrun |]. split; [done |]. split; [done |]. split; [congruence |]. split; [| done].
    etransitivity; [apply confirmed_frame | exact Hfr].
Qed.

(** Back in the log until the peer has the entry before; [m] is an entry both
    have. *)
Lemma back_run L a status m :
  leader_ready L → first <= m → m < aa_preLogIndex a < start → m <= status < 2 ^ 63 →
  ∃ l pre, log_ok l ∧ index l = pre + 1 ∧ m <= pre < aa_preLogIndex a ∧ Lg !! (pre + 1) = Some (entry_bytes l) ∧
    append_back a status L [] =
      Some (inr (APPEND_ARGS (aa_term a) pre (log_term Lg pre) (aa_leaderCommit a) (entry_bytes l)), L, []).
Proof.
  intros (_ & _ & Hlg & Hfi & _) Hm Hpre Hst. pose proof start_u64. unfold append_back. unfold rbind at 1, rget at 1.
  unfold RAFT_PREVLOG_FETCH_MARGIN. rewrite u64_id by (unfold is_u64; lia).
  set (f := if aa_preLogIndex a >? status + 64 then status + 64 else aa_preLogIndex a).
  assert (m < f <= aa_preLogIndex a) as Hf by (unfold f; destruct (Z.gtb_spec (aa_preLogIndex a) (status + 64)); lia).
  destruct (leader_entry f) as (l & Hl & Hi & Hb & _); [lia |].
  destruct (leader_entry (f - 1)) as (l0 & Hl0 & Hi0 & Hb0 & Ht0); [lia |].
  exists l, (f - 1). split; [done |]. split; [lia |]. split; [lia |]. split; [by replace (f - 1 + 1) with f by lia |].
  rewrite Hlg, Hfi. unfold rbind at 1. rewrite (fetch_entry _ _ l) by done. unfold rbind at 1.
  rewrite packed_bytes_packed, copy_entry. unfold rbind at 1. change (index (packed l)) with (index l).
  rewrite Hi, u64_id by (unfold is_u64; lia). rewrite (prev_log_entry _ _ _ l0) by (done || lia). cbn [fst snd].
  by rewrite Hi0, Ht0.
Qed.

Lemma back_loop n fuel L F a pre l cur m :
  (Z.to_nat (pre - m) + Z.to_nat (start - m) < n)%nat → (n <= fuel)%nat →
  leader_ready L → peer_ready F → first <= m → m <= pre < start → lastApplied F <= m →
  is_Some (logs F !! m) → log_term (logs F) m = log_term Lg m → lastLogIndex F < 2 ^ 63 →
  aa_preLogIndex a = pre → aa_preLogTerm a = log_term Lg pre → aa_entries a = entry_bytes l →
  log_ok l → index l = pre + 1 → Lg !! (pre + 1) = Some (entry_bytes l) →
  ∃ L' F', append_loop compare fuel now ExecAppendEntries (Some (packed g)) p start a cur (L, F) [] = Some (inr tt, (L', F'), []) ∧
    caught_up L F L' F'.
Proof.
  revert fuel L F a pre l cur. induction n as [|n IH];
    intros fuel L F a pre l cur Hn Hfuel HL HF Hm Hpre Hap HFm HFt Hll Hai Hapt Hae Hl Hli HLl; [lia |].
  assert (pre = m ∨ m < pre) as [-> | Hlt] by lia.
  { apply (forward_loop (Z.to_nat (start - m)) fuel L F a m l); (done || lia). }
  destruct (decide (is_Some (logs F !! pre) ∧ log_term (logs F) pre = log_term Lg pre)) as [[HFp HFpt] | Hno].
  { apply (forward_loop (Z.to_nat (start - pre)) fuel L F a pre l); (done || lia). }
  destruct fuel as [|fuel]; [lia |]. cbn [append_loop]. unfold rbind at 1. unfold on_leader at 1. cbn [fst].
  rewrite send_run by (done || lia). cbn [fst snd]. unfold rbind at 1, rget at 1. cbn [fst].
  set (a1 := APPEND_ARGS t _ _ _ _).
  destruct (rpc_reject (hostname L) L F a1 pre) as (F1 & Hrpc & Hne & HF1 & Hlogs & Hla1 & Hll1);
    [done | done | lia | | done.. |].
  { destruct (logs F !! pre) eqn:E; [| by left]. right. intros Heq. apply Hno. by split; [eexists |]. }
  unfold rbind at 1, rtry at 1. rewrite Hrpc. unfold rbind at 1. unfold on_leader at 1. cbn [fst snd].
  rewrite receive_reject by done. cbn [fst snd]. unfold rbind at 1. unfold on_leader at 1. cbn [fst snd].
  assert (m <= lastLogIndex F) as HmF by (destruct HF as ((_ & _ & _ & _ & _ & Hrange & _) & _); by apply Hrange).
  destruct (back_run L a1 (lastLogIndex F) m) as (l' & pre' & Hl' & Hi' & Hp' & Hb' & Hrun); [done | done | cbn; lia.. |].
  change (aa_preLogIndex a1) with (aa_preLogIndex a) in Hp'. rewrite Hai in Hp'. rewrite Hrun. cbn [fst snd].
  destruct (IH fuel L F1 (APPEND_ARGS (aa_term a1) pre' (log_term Lg pre') (aa_leaderCommit a1) (entry_bytes l')) pre' l' cur)
    as (L' & F' & Hend & HF' & Hag' & Hla' & Hrest);
    [lia | lia | done | done | done | lia | by rewrite Hla1 | by rewrite Hlogs | by rewrite Hlogs | by rewrite Hll1
    | done | done | done | done | lia | done |].
  exists L', F'. split; [exact Hend |]. split; [done |]. split; [done |]. split; [congruence | done].
Qed.

Lemma choose_run L : leader_ready L → first < start →
  append_choose ExecAppendEntries (Some (packed g)) L [] = Some (inr (Some (APPEND_PICK (entry_bytes g) start (start - 1))), L, []).
Proof.
  intros (Hr & _) Hlt. pose proof start_u64. unfold append_choose. unfold rbind at 1, rget at 1.
  rewrite Hr, bool_decide_eq_false_2 by naive_solver. rewrite packed_bytes_packed.
  rewrite bool_decide_eq_false_2 by (intros Hb; pose proof (entry_bytes_long g); rewrite Hb in *; cbn in *; lia).
  unfold rbind. rewrite copy_entry. change (index (packed g)) with (index g). rewrite Hgi, u64_id by (unfold is_u64; lia). done.
Qed.

(** C4: A leader brings a peer up to date.  Let the leader have every entry from
    its first to the one it replicates, and let the peer accept the leader's
    term, have a log that matches the leader's, share with it an entry not below
    what it has applied, and be less than 5000 entries behind in applying.
    Then the call ends (the rounds are bounded by the distance to the shared
    entry) without an error: the peer has exactly the leader's log up to the
    new entry, it is counted as having replicated it, the match index reaches
    it, and nothing else of the leader changes. *)
Theorem raft_catch_up fuel L F m :
  leader_ready L → peer_ready F → first <= m < start → lastApplied F <= m →
  is_Some (logs F !! m) → log_term (logs F) m = log_term Lg m → lastLogIndex F < 2 ^ 63 →
  (Z.to_nat (2 * (start - m)) <= fuel)%nat →
  ∃ L' F', _VmDirAppendEntriesRpc compare fuel now ExecAppendEntries (Some (packed g)) p (L, F) [] =
      Some (inr tt, (L', F'), []) ∧
    (∀ j, j <= start → logs F' !! j = Lg !! j) ∧ lastApplied F' = lastApplied F ∧
    (∃ x, proxies L' !! p = Some x ∧ bLogReplicated x = true ∧ start <= matchIndex x) ∧
    L' = set_proxies (proxies L') L ∧ ∀ q, q ≠ p → proxies L' !! q = proxies L !! q.
Proof.
  intros HL HF Hm Hap HFm HFt Hll Hfuel. destruct (leader_entry (start - 1)) as (l0 & Hl0 & Hi0 & Hb0 & Ht0); [lia |].
  pose proof HL as (_ & _ & Hlg & Hfi & _).
  unfold _VmDirAppendEntriesRpc. unfold rbind at 1. unfold on_leader at 1. cbn [fst snd]. rewrite choose_run by (done || lia).
  unfold rbind at 1. unfold on_leader at 1. cbn [fst snd]. unfold append_prev. unfold rbind at 1, rget at 1.
  cbn [ap_prev ap_entries ap_start]. rewrite Hlg, Hfi. unfold rbind at 1.
  rewrite (prev_log_entry _ _ _ l0) by (done || lia). unfold rret at 1. cbn [fst snd]. rewrite Hi0, Ht0.
  destruct (back_loop (Z.to_nat (2 * (start - m))) fuel L F
              (APPEND_ARGS 0 (start - 1) (log_term Lg (start - 1)) 0 (entry_bytes g)) (start - 1) g 0 m)
    as (L' & F' & Hrun & _ & [_ Hag] & Hla & [Hset Hq] & Hx);
    [lia | done | done | done | lia | lia | done | done | done | done | done | done | done | done | lia
    | by replace (start - 1 + 1) with start by lia |].
  exists L', F'. split; [exact Hrun |]. done.
Qed.

End CatchUp.

(** ** Concrete runs *)

(** A log of the given terms, from index 1 on. *)
Fixpoint log_of (i : Z) (ts : list Z) : log_store :=
  match ts with [] => ∅ | t :: ts => <[i := entry_bytes (log_ex i t [])]> (log_of (i + 1) ts) end.

Lemma log_of_lookup i ts j :
  log_of i ts !! j = if decide (i <= j) then (λ t, entry_bytes (log_ex j t [])) <$> ts !! Z.to_nat (j - i) else None.
Proof.
  revert i. induction ts as [|t ts IH]; intros i; cbn [log_of]; [by case_decide |].
  destruct (decide (j = i)) as [-> | Hne].
  - rewrite lookup_insert_eq, decide_True, Z.sub_diag by lia. done.
  - rewrite lookup_insert_ne, IH by done. destruct (decide (i + 1 <= j)).
    + rewrite decide_True by lia. replace (Z.to_nat (j - i)) with (S (Z.to_nat (j - (i + 1)))) by lia. done.
    + by rewrite decide_False by lia.
Qed.

Lemma log_of_ok i ts : 0 < i → i + Z.of_nat (length ts) < 2 ^ 64 → Forall is_u32 ts → store_ok (log_of i ts).
Proof.
  intros Hi Hlen Hts j b. rewrite log_of_lookup. case_decide as Hj; [| done].
  intros (t & Ht & ->)%fmap_Some. pose proof (lookup_lt_Some _ _ _ Ht).
  exists (log_ex j t []). split; [apply log_ex_ok; [lia | exact (Forall_lookup_1 _ _ _ _ Hts Ht) | cbn; lia] |].
  split; [done |]. split; [done | lia].
Qed.

Definition logs_leader : log_store := log_of 1 [1; 1; 2; 2; 3].
Definition logs_peer : log_store := log_of 1 [1; 1; 1].
Definition entry_5 : VDIR_RAFT_LOG := log_ex 5 3 [].

(** The leader of term 3 and a peer whose third entry is from a lost leader. *)
Definition srv_leader : raft_state :=
  RS VDIR_RAFT_ROLE_LEADER ExecAppendEntries host_a 3 0 0 0 true 100 4 2 5 1 0 0 2 [] false
     [PROXY false RPC_BUSY host_c false 0; PROXY false RPC_BUSY host_b false 0] 4 3 3 host_a 3 4 1 logs_leader.
Definition srv_peer : raft_state :=
  RS VDIR_RAFT_ROLE_FOLLOWER ExecNone host_c 3 0 0 0 true 100 1 1 3 1 1 0 1 [] false [] 1 2 0 [] 2 1 1 logs_peer.

(** The call deletes the third entry and sends the entries 3, 4 and 5. *)
Example catch_up_run :
  ∃ L' F', _VmDirAppendEntriesRpc simple_compare 8 200 ExecAppendEntries (Some (packed entry_5)) 0 (srv_leader, srv_peer) [] =
      Some (inr tt, (L', F'), []) ∧
    logs F' = logs_leader ∧ lastLogIndex F' = 5 ∧ lastLogTerm F' = 3 ∧ currentTerm F' = 3 ∧
    proxies L' = [PROXY false RPC_BUSY host_c true 5; PROXY false RPC_BUSY host_b false 0].
Proof. do 2 eexists. split; [vm_compute; reflexivity |]. repeat (split; [vm_compute; reflexivity |]). vm_compute; reflexivity. Qed.

Lemma logs_leader_ok : store_ok logs_leader.
Proof. apply log_of_ok; [lia | cbn; lia | repeat constructor; unfold is_u32; lia]. Qed.

Lemma peer_small i : is_Some (logs_peer !! i) → i = 1 ∨ i = 2 ∨ i = 3.
Proof.
  intros [b Hb]. unfold logs_peer in Hb. rewrite log_of_lookup in Hb. case_decide; [| done].
  apply fmap_Some in Hb as (t & Ht & _). pose proof (lookup_lt_Some _ _ _ Ht). cbn in *. lia.
Qed.

Lemma peer_match : log_match logs_peer logs_leader.
Proof.
  intros i Hi _ Hterm j Hj. apply peer_small in Hi. destruct Hi as [-> | [-> | ->]].
  3: { vm_compute in Hterm. discriminate. }
  all: unfold logs_peer, logs_leader; rewrite !log_of_lookup; destruct (decide (1 <= j)); [| done];
    assert (j = 1 ∨ j = 2) as [-> | ->] by lia; reflexivity.
Qed.

Lemma srv_peer_ok : server_ok srv_peer.
Proof.
  split; [done |]. split; [apply log_of_ok; [lia | cbn; lia | repeat constructor; unfold is_u32; lia] |].
  split; [done |]. split; [unfold is_u32; cbn; lia |]. split; [by eexists |].
  split; [| vm_compute; reflexivity]. intros i Hi%peer_small. cbn. lia.
Qed.

Lemma raft_catch_up_witness :
  ∃ L' F', _VmDirAppendEntriesRpc simple_compare 6 200 ExecAppendEntries (Some (packed entry_5)) 0 (srv_leader, srv_peer) [] =
      Some (inr tt, (L', F'), []) ∧
    (∀ j, j <= 5 → logs F' !! j = logs_leader !! j) ∧ lastApplied F' = lastApplied srv_peer.
Proof.
  destruct (raft_catch_up simple_compare logs_leader 1 5 3 entry_5 0 200 logs_leader_ok) with (fuel := 6%nat) (L := srv_leader)
    (F := srv_peer) (m := 2) as (L' & F' & Hrun & Heq & Hla & _).
  - lia.
  - lia.
  - intros i Hi. unfold logs_leader. rewrite log_of_lookup, decide_True by lia.
    apply fmap_is_Some, lookup_lt_is_Some_2. cbn. lia.
  - apply log_ex_ok; cbn; lia.
  - reflexivity.
  - reflexivity.
  - split; [reflexivity |]. split; [reflexivity |]. split; [reflexivity |]. split; [reflexivity |].
    eexists. split; [reflexivity | discriminate].
  - split; [apply srv_peer_ok |]. split; [split; [cbn; lia | left; reflexivity] |].
    split; [apply peer_match |]. unfold RAFT_APPLIED_GAP_MAX. cbn. lia.
  - lia.
  - cbn. lia.
  - by eexists.
  - vm_compute. reflexivity.
  - cbn. lia.
  - cbn. lia.
  - exists L', F'. split; [exact Hrun |]. split; [exact Heq | exact Hla].
Defined.
