(* ===== verification/RaftCommit.v ===== *)
(** * RaftCommit: committing a log entry on the leader

    The callbacks of the main database around the commit of a transaction
    ([lwraft/server/replication/thread.c]): the change logs of the transaction
    become one log entry that is packed and stored ([VmDirEncodeLogEntry],
    [VmDirAddRaftEntry]), and [VmDirRaftPrepareCommit] waits until a majority
    has replicated it.  That function waits on two condition variables and so
    releases [gRaftStateMutex] in between: it is cut at the waits, and a run
    ([prepare_run]) lets anything happen to the state during them. *)

From S2P Require Import Prelude Heap StringList CString HashMap Effects RaftLog Raft RaftReplicate.

Open Scope Z_scope.

(** ** State *)

Definition RAFT_NOOP : Z := 0.
Definition RAFT_MULTILOG : Z := 1.
Definition ETIMEDOUT : Z := 110.

(** The globals of [thread.c] around a commit; [gEntries] is NULL or
    [&gLogEntry]. *)
Record commit_state := COMMIT {
  raft : raft_state;
  gLogEntry : VDIR_RAFT_LOG;
  gEntries : bool;
  gQuorumOverride : bool
}.

Definition set_raft (f : raft_state → raft_state) (c : commit_state) : commit_state :=
  COMMIT (f (raft c)) (gLogEntry c) (gEntries c) (gQuorumOverride c).
Definition set_gLogEntry (x : VDIR_RAFT_LOG) (c : commit_state) : commit_state :=
  COMMIT (raft c) x (gEntries c) (gQuorumOverride c).
Definition set_gEntries (x : bool) (c : commit_state) : commit_state :=
  COMMIT (raft c) (gLogEntry c) x (gQuorumOverride c).
Definition set_gQuorumOverride (x : bool) (c : commit_state) : commit_state :=
  COMMIT (raft c) (gLogEntry c) (gEntries c) x.

(** The operations of the other files, on [gRaftState]. *)
Definition on_raft {A} (m : RM raft_state A) : RM commit_state A := λ c e,
  match m (raft c) e with Some (r, s, e') => Some (r, set_raft (λ _, s) c, e') | None => None end.

(** [_VmDirGetRaftQuorumOverride]: the registry key is read again once it was
    set. *)
Definition _VmDirGetRaftQuorumOverride (bForceKeyRead key : bool) : RM commit_state bool :=
  c <- rget ;;
  if negb bForceKeyRead && negb (gQuorumOverride c) then rret (gQuorumOverride c)
  else rset (set_gQuorumOverride key) ;;; rret key.

(** ** Storing the entry of a transaction *)

(** [VmDirAddRaftEntry]: the entry is added to the log database in a
    transaction of its own and the last log index follows; the last term does
    not.  The last applied index is replaced in the main transaction, which is
    not committed yet. *)
Definition VmDirAddRaftEntry (l : VDIR_RAFT_LOG) : RM raft_state unit :=
  backend_call ;;;
  s <- rget ;;
  match logs s !! index l, packRaftLog l with
  | Some _, _ => rfail VMDIR_ERROR_BACKEND_ENTRY_EXISTS
  | None, Some b =>
      backend_call ;;;
      rset (set_logs (<[index l := take (Z.to_nat (lberbv_len b)) (lberbv_val b)]> (logs s))) ;;;
      rset (set_lastLogIndex (index l))
  | None, None => rub
  end.

(** [VmDirEncodeLogEntry]: one change log keeps the old format, several are
    packed into one entry.  The change logs that are left are returned. *)
Definition VmDirEncodeLogEntry (chgLogs : list VDIR_RAFT_LOG) : RM commit_state (list VDIR_RAFT_LOG) :=
  match chgLogs with
  | [] => rret []
  | [l] =>
      l <- on_raft (_VmDirPackLogEntry l) ;;
      on_raft (VmDirAddRaftEntry l) ;;;
      rset (set_gLogEntry l) ;;; rret []
  | _ =>
      r <- on_raft (VmDirPackLogEntries ZERO_LOG chgLogs) ;;
      on_raft (VmDirAddRaftEntry r.1) ;;;
      rset (set_gLogEntry r.1) ;;; rret r.2
  end.

(** ** Waiting for consensus *)

(** [VDIR_RAFT_COMMIT_CTX] *)
Record commit_ctx := COMMIT_CTX { ctx_logIndex : Z; ctx_logTerm : Z; ctx_logRequestCode : Z }.

(** Where [VmDirRaftPrepareCommit] is, with [getConsensusRetry]. *)
Inductive commit_pc :=
  | PeersWait (getConsensusRetry : Z)        (** waits on [gPeersReadyCond] *)
  | ConsensusWait (getConsensusRetry : Z)    (** waits on [gRaftAppendEntryReachConsensusCond] *)
  | Returned (err : dwerror) (ctx : option commit_ctx).

(** The label [cleanup]. *)
Definition prepare_cleanup (err : dwerror) (ctx : option commit_ctx) : RM commit_state commit_pc :=
  rset (set_gLogEntry ZERO_LOG) ;;; rset (set_gEntries false) ;;; rret (Returned err ctx).

(** The label [error]. *)
Definition prepare_error (err : dwerror) : RM commit_state commit_pc :=
  rset (set_raft (set_cmd ExecNone)) ;;; prepare_cleanup err None.

(** The label [raft_commit_done]. *)
Definition raft_commit_done : RM commit_state commit_pc :=
  c <- rget ;;
  let l := gLogEntry c in
  rset (set_raft (λ s, set_opCounts (s32 (opCounts s + 1)) s)) ;;;
  if index l >? 0 then
    rset (set_raft (λ s, set_commitIndex (index l) (set_lastLogIndex (index l)
                           (set_commitIndexTerm (term l) (set_lastLogTerm (term l) s))))) ;;;
    (if requestCode l =? RAFT_NOOP then rret tt else rset (set_raft (set_lastApplied (index l)))) ;;;
    rset (set_raft (set_cmd ExecNone)) ;;;
    r <- rtry (VmDirAllocateMemory 24) ;;
    match r with
    | inl err => prepare_error err
    | inr _ => prepare_cleanup ERROR_SUCCESS (Some (COMMIT_CTX (index l) (term l) (requestCode l)))
    end
  else prepare_cleanup ERROR_SUCCESS None.

(** The server gives up the lead. *)
Definition prepare_give_up (err : dwerror) : RM commit_state commit_pc :=
  rset (set_raft (set_role VDIR_RAFT_ROLE_FOLLOWER)) ;;; prepare_error err.

Definition not_leader (bShutdown : bool) (s : raft_state) : bool :=
  bool_decide (role s ≠ VDIR_RAFT_ROLE_LEADER) || bShutdown.

(** The peer threads are called, and the wait for them begins. *)
Definition consensus_request (retry : Z) : RM commit_state commit_pc :=
  rset (set_raft (set_cmd ExecAppendEntries)) ;;;
  rset (set_gEntries true) ;;;
  rset (set_raft _VmDirClearProxyLogReplicatedInLock) ;;;
  rret (ConsensusWait retry).

(** [get_consensus_begin]: up to the wait for idle peers, or past it. *)
Definition get_consensus_begin (bShutdown : bool) (retry : Z) : RM commit_state commit_pc :=
  c <- rget ;;
  if not_leader bShutdown (raft c) then prepare_error VMDIR_ERROR_UNWILLING_TO_PERFORM
  else if _VmDirPeersIdleInLock (raft c) <? clusterSize (raft c) `quot` 2 then
    if retry >=? 32 then prepare_give_up LDAP_OPERATIONS_ERROR
    else rret (PeersWait (retry + 1))
  else consensus_request retry.

(** The wait for idle peers ended with [o]. *)
Definition peers_wake (o : Z) (bShutdown : bool) (retry : Z) : RM commit_state commit_pc :=
  if o =? ETIMEDOUT then get_consensus_begin bShutdown retry
  else if negb (o =? 0) then prepare_give_up LDAP_OPERATIONS_ERROR
  else
    c <- rget ;;
    if not_leader bShutdown (raft c) then prepare_error VMDIR_ERROR_UNWILLING_TO_PERFORM
    else consensus_request retry.

(** The wait for consensus is over. *)
Definition consensus_wake (bShutdown : bool) (retry : Z) : RM commit_state commit_pc :=
  c <- rget ;;
  if not_leader bShutdown (raft c) || negb (currentTerm (raft c) =? term (gLogEntry c))
  then prepare_error VMDIR_ERROR_UNWILLING_TO_PERFORM
  else if _VmDirGetAppendEntriesConsensusCountInLock (raft c) <? majority (raft c) then
    if retry >=? 32 then prepare_give_up LDAP_OPERATIONS_ERROR
    else get_consensus_begin bShutdown (retry + 1)
  else raft_commit_done.

(** Up to the first wait. *)
Definition VmDirRaftPrepareCommit (key bShutdown : bool) : RM commit_state commit_pc :=
  c <- rget ;;
  if index (gLogEntry c) =? 0 then raft_commit_done
  else
    ov <- _VmDirGetRaftQuorumOverride false key ;;
    if ov || (clusterSize (raft c) <? 2) then raft_commit_done
    else get_consensus_begin bShutdown 0.

(** A wait ends. *)
Definition prepare_wake (o : Z) (bShutdown : bool) (pc : commit_pc) : RM commit_state commit_pc :=
  match pc with
  | PeersWait retry => peers_wake o bShutdown retry
  | ConsensusWait retry => consensus_wake bShutdown retry
  | Returned err ctx => rret (Returned err ctx)
  end.

(** What happens during a wait: the state of the server when it ends, its
    outcome, and whether the server shuts down. *)
Record wait_result := WAIT { w_state : raft_state; w_outcome : Z; w_shutdown : bool }.

Fixpoint prepare_run (ws : list wait_result) (pc : commit_pc) : RM commit_state commit_pc :=
  match ws, pc with
  | w :: ws, (PeersWait _ | ConsensusWait _) =>
      rset (set_raft (λ _, w_state w)) ;;;
      pc <- prepare_wake (w_outcome w) (w_shutdown w) pc ;;
      prepare_run ws pc
  | _, _ => rret pc
  end.

(** ** After the commit *)

(** [VmDirRaftPostCommit] releases the mutex; the state is not changed. *)
Definition VmDirRaftPostCommit (ctx : option commit_ctx) : RM commit_state unit := rret tt.

Definition VmDirRaftCommitFail (now : Z) (ctx : option commit_ctx) : RM commit_state unit :=
  match ctx with
  | Some _ => rset (set_raft (λ s, set_cmd ExecNone (set_lastPingRecvTime now (set_role VDIR_RAFT_ROLE_FOLLOWER s))))
  | None => rret tt
  end.

(** ** One step *)

Section Step.
Implicit Types (c : commit_state) (e : env).

(** Unfolds the control operations of the monad. *)
Ltac run_commit := unfold rbind, rget, rset, rtry, rret; cbn [fst snd].

Lemma prepare_error_run err c e :
  prepare_error err c e =
    Some (inr (Returned err None), COMMIT (set_cmd ExecNone (raft c)) ZERO_LOG false (gQuorumOverride c), e).
Proof. done. Qed.

Lemma prepare_give_up_run err c e :
  prepare_give_up err c e =
    Some (inr (Returned err None),
          COMMIT (set_cmd ExecNone (set_role VDIR_RAFT_ROLE_FOLLOWER (raft c))) ZERO_LOG false (gQuorumOverride c), e).
Proof. done. Qed.

Lemma consensus_request_run retry c e :
  consensus_request retry c e =
    Some (inr (ConsensusWait retry),
          COMMIT (_VmDirClearProxyLogReplicatedInLock (set_cmd ExecAppendEntries (raft c))) (gLogEntry c) true
                 (gQuorumOverride c), e).
Proof. done. Qed.

(** What a commit does to [gRaftState]. *)
Definition committed (l : VDIR_RAFT_LOG) (s : raft_state) : raft_state :=
  let s := set_opCounts (s32 (opCounts s + 1)) s in
  if index l >? 0 then
    let s := set_commitIndex (index l) (set_lastLogIndex (index l) (set_commitIndexTerm (term l) (set_lastLogTerm (term l) s))) in
    set_cmd ExecNone (if requestCode l =? RAFT_NOOP then s else set_lastApplied (index l) s)
  else s.

Definition commit_result (l : VDIR_RAFT_LOG) : option commit_ctx :=
  if index l >? 0 then Some (COMMIT_CTX (index l) (term l) (requestCode l)) else None.

Lemma allocate_run {St} n (s : St) e : 0 < n →
  VmDirAllocateMemory n s e =
    Some (if default 0 (head e) =? 0 then inr (replicate (Z.to_nat n) 0) else inl ERROR_NO_MEMORY, s, tail e).
Proof.
  intros Hn. unfold VmDirAllocateMemory. rewrite (proj2 (Z.eqb_neq n 0)) by lia. unfold rbind, next_outcome.
  by destruct (default 0 (head e) =? 0).
Qed.

Lemma set_cmd_cmd x y s : set_cmd x (set_cmd y s) = set_cmd x s.
Proof. done. Qed.

#[local] Opaque set_opCounts set_commitIndex set_lastLogIndex set_commitIndexTerm set_lastLogTerm set_lastApplied set_cmd.

Lemma raft_commit_done_run c e :
  raft_commit_done c e =
    let l := gLogEntry c in
    let c' := COMMIT (committed l (raft c)) ZERO_LOG false (gQuorumOverride c) in
    if index l >? 0 then
      if default 0 (head e) =? 0 then Some (inr (Returned ERROR_SUCCESS (commit_result l)), c', tail e)
      else Some (inr (Returned ERROR_NO_MEMORY None), c', tail e)
    else Some (inr (Returned ERROR_SUCCESS None), c', e).
Proof.
  unfold raft_commit_done, committed, commit_result. destruct c as [s l g q].
  cbv beta iota zeta delta [rbind rget rset rtry rret gLogEntry raft set_raft].
  destruct (index l >? 0); [| reflexivity].
  destruct (requestCode l =? RAFT_NOOP); rewrite allocate_run by lia; (destruct (default 0 (head e) =? 0); [reflexivity |]);
    rewrite prepare_error_run; cbn [raft gQuorumOverride]; rewrite set_cmd_cmd; reflexivity.
Qed.

#[local] Transparent set_opCounts set_commitIndex set_lastLogIndex set_commitIndexTerm set_lastLogTerm set_lastApplied set_cmd.

(** The commit can be requested from the peers. *)
Definition can_request (bShutdown : bool) (s : raft_state) : Prop := role s = VDIR_RAFT_ROLE_LEADER ∧ bShutdown = false.

Lemma not_leader_spec sh s : not_leader sh s = false ↔ can_request sh s.
Proof. unfold not_leader, can_request. rewrite orb_false_iff, bool_decide_eq_false. split; intros [H1 H2]; split; try done; [by apply dec_stable | tauto]. Qed.

(** The waits that can still follow. *)
Definition rounds_left (pc : commit_pc) : Z :=
  match pc with PeersWait r => 2 * (32 - r) + 2 | ConsensusWait r => 2 * (32 - r) + 1 | Returned _ _ => 0 end.
Definition retry_ok (pc : commit_pc) : Prop :=
  match pc with PeersWait r | ConsensusWait r => 0 <= r <= 32 | Returned _ _ => True end.

(** A step that gives a result, with at most [n] waits to follow. *)
Definition steps_to (n : Z) (m : RM commit_state commit_pc) : Prop :=
  ∀ c e, ∃ pc c' e', m c e = Some (inr pc, c', e') ∧ retry_ok pc ∧ rounds_left pc <= n.

Lemma steps_returned n m :
  0 <= n → (∀ c e, ∃ err ctx c' e', m c e = Some (inr (Returned err ctx), c', e')) → steps_to n m.
Proof. intros Hn Hm c e. destruct (Hm c e) as (err & ctx & c' & e' & ->). by exists (Returned err ctx), c', e'. Qed.

Lemma steps_error n err : 0 <= n → steps_to n (prepare_error err).
Proof. intros Hn. apply steps_returned; [done |]. intros c e. by do 4 eexists. Qed.
Lemma steps_give_up n err : 0 <= n → steps_to n (prepare_give_up err).
Proof. intros Hn. apply steps_returned; [done |]. intros c e. by do 4 eexists. Qed.
Lemma steps_done n : 0 <= n → steps_to n raft_commit_done.
Proof.
  intros Hn. apply steps_returned; [done |]. intros c e. rewrite raft_commit_done_run. cbv zeta.
  destruct (index (gLogEntry c) >? 0); [destruct (default 0 (head e) =? 0) |]; by do 4 eexists.
Qed.
Lemma steps_request r n : 0 <= r <= 32 → 2 * (32 - r) + 1 <= n → steps_to n (consensus_request r).
Proof. intros Hr Hn c e. rewrite consensus_request_run. do 3 eexists. split; [done |]. cbn [retry_ok rounds_left]. lia. Qed.

Lemma steps_begin sh r n : 0 <= r <= 32 → 2 * (32 - r) + 1 <= n → steps_to n (get_consensus_begin sh r).
Proof.
  intros Hr Hn c e. unfold get_consensus_begin. unfold rbind at 1, rget at 1.
  destruct (not_leader sh (raft c)); [apply steps_error; lia |].
  destruct (_ <? _); [| by apply steps_request]. destruct (Z.geb_spec r 32); [apply steps_give_up; lia |].
  exists (PeersWait (r + 1)), c, e. split; [done |]. cbn [retry_ok rounds_left]. lia.
Qed.

Lemma steps_wake o sh pc : retry_ok pc → steps_to (Z.max 0 (rounds_left pc - 1)) (prepare_wake o sh pc).
Proof.
  intros Hok. destruct pc as [r | r | err ctx]; cbn [prepare_wake retry_ok rounds_left] in *.
  - unfold peers_wake. destruct (o =? ETIMEDOUT); [apply steps_begin; lia |]. destruct (negb _); [apply steps_give_up; lia |].
    intros c e. unfold rbind at 1, rget at 1. destruct (not_leader sh (raft c)); [apply steps_error; lia | apply steps_request; lia].
  - intros c e. unfold consensus_wake. unfold rbind at 1, rget at 1. destruct (not_leader sh (raft c) || _); [apply steps_error; lia |].
    destruct (_ <? _); [| apply steps_done; lia]. destruct (Z.geb_spec r 32); [apply steps_give_up; lia | apply steps_begin; lia].
  - intros c e. exists (Returned err ctx), c, e. split; [done |]. cbn. lia.
Qed.

Lemma steps_prepare key sh : steps_to 65 (VmDirRaftPrepareCommit key sh).
Proof.
  intros c e. unfold VmDirRaftPrepareCommit. unfold rbind at 1, rget at 1.
  destruct (index (gLogEntry c) =? 0); [apply steps_done; lia |]. unfold rbind at 1.
  unfold _VmDirGetRaftQuorumOverride. unfold rbind at 1, rget at 1.
  destruct (negb false && negb (gQuorumOverride c)); unfold rbind, rset, rret; cbn [fst snd];
    (destruct (_ || _); [apply steps_done; lia | apply steps_begin; lia]).
Qed.

Lemma prepare_run_returns ws pc c e :
  retry_ok pc → rounds_left pc <= Z.of_nat (length ws) →
  ∃ err ctx c' e', prepare_run ws pc c e = Some (inr (Returned err ctx), c', e').
Proof.
  revert pc c e. induction ws as [|w ws IH]; intros pc c e Hok Hn.
  { destruct pc as [r | r | err ctx]; cbn in Hok, Hn; [lia | lia |]. by do 4 eexists. }
  assert (∀ pc, retry_ok pc → 0 < rounds_left pc → rounds_left pc <= Z.of_nat (length (w :: ws)) →
    ∃ err ctx c' e', (rset (set_raft (λ _, w_state w)) ;;;
      pc <- prepare_wake (w_outcome w) (w_shutdown w) pc ;; prepare_run ws pc) c e = Some (inr (Returned err ctx), c', e')) as Hgo.
  { clear pc Hok Hn. intros pc Hok Hpos Hn. unfold rbind at 1, rset at 1. unfold rbind at 1.
    destruct (steps_wake (w_outcome w) (w_shutdown w) pc Hok (set_raft (λ _, w_state w) c) e)
      as (pc' & c1 & e1 & -> & Hok' & Hr). apply IH; [done |]. cbn [length] in Hn. lia. }
  destruct pc as [r | r | err ctx]; cbn [prepare_run].
  - apply Hgo; cbn in *; lia.
  - apply Hgo; cbn in *; lia.
  - by do 4 eexists.
Qed.

(** C26: Preparing a commit ends: whatever the other threads do to the state of
    the server during the waits, and however the waits and the allocations end,
    the function returns after at most 65 waits. *)
Theorem prepare_commit_returns key sh c e ws :
  (65 <= length ws)%nat →
  ∃ err ctx c' e', (pc <- VmDirRaftPrepareCommit key sh ;; prepare_run ws pc) c e = Some (inr (Returned err ctx), c', e').
Proof.
  intros Hws. unfold rbind. destruct (steps_prepare key sh c e) as (pc & c1 & e1 & -> & Hok & Hr).
  apply prepare_run_returns; [done | lia].
Qed.

(** The log and what is known of it are untouched. *)
Definition log_frame (s s' : raft_state) : Prop :=
  logs s' = logs s ∧ lastLogIndex s' = lastLogIndex s ∧ lastLogTerm s' = lastLogTerm s ∧ commitIndex s' = commitIndex s ∧
  commitIndexTerm s' = commitIndexTerm s ∧ lastApplied s' = lastApplied s ∧ currentTerm s' = currentTerm s.

(** The index of the entry cannot be used again by this server in the term of
    the entry. *)
Definition gave_up (bShutdown : bool) (l : VDIR_RAFT_LOG) (s : raft_state) : Prop :=
  role s ≠ VDIR_RAFT_ROLE_LEADER ∨ bShutdown = true ∨ currentTerm s ≠ term l.

Definition aborted (bShutdown : bool) (c c' : commit_state) : Prop :=
  log_frame (raft c) (raft c') ∧ gave_up bShutdown (gLogEntry c) (raft c') ∧
  gLogEntry c' = ZERO_LOG ∧ gEntries c' = false ∧ cmd (raft c') = ExecNone.

(** The outcomes of a step that returns: it has committed and [P] held, it has
    aborted, or the commit counts as done ([P] held) and only the context of the
    caller could not be allocated. *)
Inductive decided (bShutdown : bool) (P : Prop) (c : commit_state) (e : env) : dwerror → option commit_ctx → commit_state → Prop :=
  | decided_commit c' :
      P → raft c' = committed (gLogEntry c) (raft c) → decided bShutdown P c e ERROR_SUCCESS (commit_result (gLogEntry c)) c'
  | decided_abort err c' : err ≠ ERROR_SUCCESS → aborted bShutdown c c' → decided bShutdown P c e err None c'
  | decided_memory c' :
      P → default 0 (head e) ≠ 0 → 0 < index (gLogEntry c) → raft c' = committed (gLogEntry c) (raft c) →
      decided bShutdown P c e ERROR_NO_MEMORY None c'.

Definition decides (bShutdown : bool) (P : Prop) (m : RM commit_state commit_pc) (c : commit_state) : Prop :=
  ∀ e err ctx c' e', m c e = Some (inr (Returned err ctx), c', e') → decided bShutdown P c e err ctx c'.

Lemma decides_error sh P err c :
  err ≠ ERROR_SUCCESS → gave_up sh (gLogEntry c) (raft c) → decides sh P (prepare_error err) c.
Proof. intros Herr Hg e err' ctx c' e'. rewrite prepare_error_run. intros [= <- <- <- <-]. constructor; [done |]. by repeat split. Qed.

Lemma decides_give_up sh P err c : err ≠ ERROR_SUCCESS → decides sh P (prepare_give_up err) c.
Proof.
  intros Herr e err' ctx c' e'. rewrite prepare_give_up_run. intros [= <- <- <- <-]. constructor; [done |].
  split; [by repeat split |]. split; [by left | done].
Qed.

Lemma decides_done sh (P : Prop) c : P → decides sh P raft_commit_done c.
Proof.
  intros HP e err ctx c' e'. rewrite raft_commit_done_run. cbv zeta. destruct (Z.gtb_spec (index (gLogEntry c)) 0) as [Hi | Hi].
  - destruct (Z.eqb_spec (default 0 (head e)) 0); intros [= <- <- <- <-]; by constructor.
  - intros [= <- <- <- <-]. replace None with (commit_result (gLogEntry c)); [by constructor |]. unfold commit_result.
    destruct (Z.gtb_spec (index (gLogEntry c)) 0); [lia | done].
Qed.

Lemma not_leader_gave_up sh l s : not_leader sh s = true → gave_up sh l s.
Proof. unfold not_leader, gave_up. rewrite orb_true_iff, bool_decide_eq_true. tauto. Qed.

Lemma decides_request sh P r c : decides sh P (consensus_request r) c.
Proof. intros e err ctx c' e'. by rewrite consensus_request_run. Qed.

Lemma decides_begin sh P r c : decides sh P (get_consensus_begin sh r) c.
Proof.
  intros e err ctx c' e'. unfold get_consensus_begin. unfold rbind at 1, rget at 1.
  destruct (not_leader sh (raft c)) eqn:Hnl; [by apply decides_error; [| apply not_leader_gave_up] |].
  destruct (_ <? _); [| by apply decides_request]. destruct (_ >=? _); [by apply decides_give_up | done].
Qed.

(** A majority of the cluster, this server included, has replicated the entry,
    whose term is the current one. *)
Definition has_consensus (l : VDIR_RAFT_LOG) (s : raft_state) : Prop :=
  role s = VDIR_RAFT_ROLE_LEADER ∧ currentTerm s = term l ∧
  majority s <= _VmDirGetAppendEntriesConsensusCountInLock s.

Lemma decides_wake o sh pc c :
  (match pc with Returned _ _ => False | _ => True end) →
  decides sh (has_consensus (gLogEntry c) (raft c)) (prepare_wake o sh pc) c.
Proof.
  destruct pc as [r | r | ? ?]; intros Hpc; [| | done]; cbn [prepare_wake].
  - unfold peers_wake. destruct (o =? ETIMEDOUT); [apply decides_begin |]. destruct (negb _); [by apply decides_give_up |].
    intros e err ctx c' e'. unfold rbind at 1, rget at 1.
    destruct (not_leader sh (raft c)) eqn:Hnl; [by apply decides_error; [| apply not_leader_gave_up] | apply decides_request].
  - intros e err ctx c' e'. unfold consensus_wake. unfold rbind at 1, rget at 1.
    destruct (not_leader sh (raft c)) eqn:Hnl; [by apply decides_error; [| apply not_leader_gave_up] |].
    destruct (Z.eqb_spec (currentTerm (raft c)) (term (gLogEntry c))) as [Ht | Ht]; cbn [orb negb].
    2: by apply decides_error; [| right; right].
    destruct (Z.ltb_spec (_VmDirGetAppendEntriesConsensusCountInLock (raft c)) (majority (raft c))) as [Hlt | Hge].
    + destruct (_ >=? _); [by apply decides_give_up | apply decides_begin].
    + apply decides_done. apply not_leader_spec in Hnl as [Hr _]. done.
Qed.

(** Without waiting: no log entry, a server that stands alone, or the override
    of the quorum. *)
Definition needs_no_consensus (c : commit_state) : Prop :=
  index (gLogEntry c) = 0 ∨ clusterSize (raft c) < 2 ∨ gQuorumOverride c = true.

Lemma decides_prepare key sh c : decides sh (needs_no_consensus c) (VmDirRaftPrepareCommit key sh) c.
Proof.
  intros e err ctx c' e'. unfold VmDirRaftPrepareCommit. unfold rbind at 1, rget at 1.
  destruct (Z.eqb_spec (index (gLogEntry c)) 0) as [H0 |]; [by apply decides_done; left |].
  unfold rbind at 1, _VmDirGetRaftQuorumOverride. unfold rbind at 1, rget at 1.
  destruct (gQuorumOverride c) eqn:Hq; cbn [negb andb].
  - unfold rbind, rset, rret. cbn [fst snd]. intros Hrun.
    assert (decides sh (needs_no_consensus c) (if key || (clusterSize (raft c) <? 2) then raft_commit_done else get_consensus_begin sh 0)
              (set_gQuorumOverride key c)) as Hd.
    { destruct (key || _); [apply decides_done; right; by right | apply decides_begin]. }
    destruct (Hd _ _ _ _ _ Hrun) as [c1 H1 H2 | err1 c1 H1 H2 | c1 H1 H2 H3 H4];
      [exact (decided_commit _ _ c _ c1 H1 H2) | exact (decided_abort _ _ c _ _ c1 H1 H2) | exact (decided_memory _ _ c _ c1 H1 H2 H3 H4)].
  - unfold rret at 1. cbn [orb]. destruct (Z.ltb_spec (clusterSize (raft c)) 2) as [Hlt |]; [| apply decides_begin].
    apply decides_done. right. by left.
Qed.

(** C16: What preparing a commit decides when it returns, at once or after a wait,
    whatever calls fail.  Either it succeeds, and then there is no log entry, or
    the server stands alone, or the quorum is overridden, or the server leads
    the term of the entry and a majority has replicated it; the commit index and
    the last log are the entry's.  Or it returns an error that leaves the log,
    the commit index and the applied index as they were, and the server does not
    lead the term of the entry any more or shuts down.  Or, when the allocation
    of the context at the end fails, it returns [ERROR_NO_MEMORY] although the
    entry meets the conditions of a commit and counts as committed. *)
Theorem prepare_commit_decides key o sh pc c e err ctx c' e' :
  (VmDirRaftPrepareCommit key sh c e = Some (inr (Returned err ctx), c', e') → decided sh (needs_no_consensus c) c e err ctx c') ∧
  ((match pc with Returned _ _ => False | _ => True end) →
   prepare_wake o sh pc c e = Some (inr (Returned err ctx), c', e') →
   decided sh (has_consensus (gLogEntry c) (raft c)) c e err ctx c').
Proof. split; [apply decides_prepare | intros Hpc; by apply decides_wake]. Qed.

End Step.

(** ** The entry of a transaction *)

(** The server with the entry behind its log; the last term is the old one. *)
Definition stored (l : VDIR_RAFT_LOG) (s : raft_state) : raft_state :=
  set_lastLogIndex (index l) (set_logs (<[index l := entry_bytes l]> (logs s)) s).

Lemma encode_run l c :
  log_ok l → logs (raft c) !! index l = None →
  VmDirEncodeLogEntry [l] c [] = Some (inr [], set_gLogEntry (packed l) (set_raft (stored l) c), []).
Proof.
  intros Hl Hnone. unfold VmDirEncodeLogEntry. unfold rbind at 1. unfold on_raft at 1. rewrite pack_spec by done.
  unfold rbind at 1. unfold on_raft at 1. unfold VmDirAddRaftEntry. rewrite run_backend. unfold rbind at 1, rget at 1.
  cbn [raft set_raft]. change (index (packed l)) with (index l). rewrite Hnone. cbn [packRaftLog packed].
  rewrite run_backend. unfold rbind at 1, rset at 1. cbn [lberbv_len lberbv_val]. rewrite Nat2Z.id, firstn_all. done.
Qed.

(** An entry whose commit is aborted stays in the log with the old last term:
    until the next entry, the server presents itself in elections with the
    index of the entry and the term of the entry before. *)
Theorem raft_aborted_entry_stale_term o sh pc l c c1 err ctx c2 :
  log_ok l → logs (raft c) !! index l = None → lastLogTerm (raft c) ≠ term l →
  VmDirEncodeLogEntry [l] c [] = Some (inr [], c1, []) →
  (match pc with Returned _ _ => False | _ => True end) → err ≠ ERROR_SUCCESS →
  prepare_wake o sh pc c1 [] = Some (inr (Returned err ctx), c2, []) →
  lastLogIndex (raft c2) = index l ∧ log_term (logs (raft c2)) (lastLogIndex (raft c2)) = term l ∧
  lastLogTerm (raft c2) ≠ term l.
Proof.
  intros Hl Hnone Hne. rewrite encode_run by done. intros [= <-] Hpc Herr Hrun.
  destruct (decides_wake o sh pc _ Hpc _ _ _ _ _ Hrun) as [| err c2 _ ((Hlogs & Hli & Hlt & _) & _) |]; [done | | done].
  rewrite Hli, Hlt, Hlogs. cbn. split; [done |]. split; [| done].
  apply (log_term_entry _ _ _ []); [done |]. rewrite app_nil_r. apply lookup_insert_eq.
Qed.

Lemma consensus_reached_run r c e :
  has_consensus (gLogEntry c) (raft c) → consensus_wake false r c e = raft_commit_done c e.
Proof.
  intros (Hrole & Hterm & Hcnt). unfold consensus_wake. unfold rbind at 1, rget at 1. unfold not_leader.
  rewrite Hrole, bool_decide_eq_false_2 by naive_solver. rewrite Hterm, Z.eqb_refl. cbn [orb negb].
  by rewrite (proj2 (Z.ltb_ge _ _)).
Qed.

Lemma committed_entry l s :
  0 < index l → requestCode l ≠ RAFT_NOOP →
  commitIndex (committed l s) = index l ∧ lastApplied (committed l s) = index l ∧ role (committed l s) = role s.
Proof.
  intros Hi Hreq. unfold committed. by rewrite (proj2 (Z.gtb_lt _ _)), (proj2 (Z.eqb_neq _ _)) by (done || lia).
Qed.

(** When the last allocation fails, the error aborts the transaction although
    the entry counts as committed and applied, on a server that still leads. *)
Theorem raft_commit_without_context r c o e :
  0 < index (gLogEntry c) → requestCode (gLogEntry c) ≠ RAFT_NOOP → has_consensus (gLogEntry c) (raft c) → o ≠ 0 →
  ∃ c', consensus_wake false r c (o :: e) = Some (inr (Returned ERROR_NO_MEMORY None), c', e) ∧
    commitIndex (raft c') = index (gLogEntry c) ∧ lastApplied (raft c') = index (gLogEntry c) ∧
    role (raft c') = VDIR_RAFT_ROLE_LEADER.
Proof.
  intros Hi Hreq Hc Ho. pose proof Hc as [Hrole _]. eexists. split.
  - rewrite consensus_reached_run by done. rewrite raft_commit_done_run. cbv zeta.
    rewrite (proj2 (Z.gtb_lt _ _)) by lia. cbn [head default tail]. rewrite (proj2 (Z.eqb_neq _ _)) by done. reflexivity.
  - cbn [raft]. rewrite <- Hrole. by apply committed_entry.
Qed.

(** When the commit of the main database fails after the consensus, the server
    becomes a follower that takes the entry for applied, so that the
    application of the log begins behind it. *)
Theorem raft_failed_commit_applied now r c :
  0 < index (gLogEntry c) → requestCode (gLogEntry c) ≠ RAFT_NOOP → has_consensus (gLogEntry c) (raft c) →
  ∃ ctx c1 c2, consensus_wake false r c [] = Some (inr (Returned ERROR_SUCCESS ctx), c1, []) ∧
    VmDirRaftCommitFail now ctx c1 [] = Some (inr tt, c2, []) ∧
    role (raft c2) = VDIR_RAFT_ROLE_FOLLOWER ∧ lastApplied (raft c2) = index (gLogEntry c).
Proof.
  intros Hi Hreq Hc. rewrite consensus_reached_run, raft_commit_done_run by done. cbv zeta. unfold commit_result.
  rewrite (proj2 (Z.gtb_lt _ _)) by lia. cbn [head default tail Z.eqb]. do 3 eexists. split; [reflexivity |].
  split; [reflexivity |]. split; [reflexivity |]. cbn [raft set_raft lastApplied set_cmd set_lastPingRecvTime set_role].
  by apply committed_entry.
Qed.

(** Every wait ends with the server still leading and nothing replicated. *)
Lemma prepare_commit_returns_witness :
  let c := COMMIT srv_leader (packed entry_5) false false in
  let ws := replicate 65 (WAIT srv_leader ETIMEDOUT false) in
  ∃ err ctx c' e', (pc <- VmDirRaftPrepareCommit false false ;; prepare_run ws pc) c [] = Some (inr (Returned err ctx), c', e').
Proof. intros c ws. apply (prepare_commit_returns false false c [] ws). unfold ws. rewrite length_replicate. lia. Defined.

(** A wait that ends without a majority and with the server no longer leading,
    and a commit on a server that stands alone, with and without memory. *)
Lemma prepare_commit_decides_witness :
  let c := COMMIT (set_role VDIR_RAFT_ROLE_FOLLOWER srv_leader) (packed entry_5) true false in
  let a := COMMIT (set_clusterSize 1 srv_leader) (packed entry_5) false false in
  (∃ err c', prepare_wake 0 false (ConsensusWait 0) c [] = Some (inr (Returned err None), c', []) ∧
     decided false (has_consensus (gLogEntry c) (raft c)) c [] err None c') ∧
  (∃ ctx c', VmDirRaftPrepareCommit false false a [] = Some (inr (Returned ERROR_SUCCESS ctx), c', []) ∧
     decided false (needs_no_consensus a) a [] ERROR_SUCCESS ctx c') ∧
  (∃ c', VmDirRaftPrepareCommit false false a [12] = Some (inr (Returned ERROR_NO_MEMORY None), c', []) ∧
     decided false (needs_no_consensus a) a [12] ERROR_NO_MEMORY None c').
Proof.
  intros c a. split; [| split].
  - eexists _, _. split; [vm_compute; reflexivity |]. refine (proj2 (prepare_commit_decides false 0 false (ConsensusWait 0) c [] _ _ _ []) I _). vm_compute. reflexivity.
  - eexists _, _. split; [vm_compute; reflexivity |]. refine (proj1 (prepare_commit_decides false 0 false (ConsensusWait 0) a [] _ _ _ []) _). vm_compute. reflexivity.
  - eexists. split; [vm_compute; reflexivity |]. refine (proj1 (prepare_commit_decides false 0 false (ConsensusWait 0) a [12] _ _ _ []) _). vm_compute. reflexivity.
Defined.
