(* ===== verification/RaftQuorum.v ===== *)
(** * RaftQuorum: commits and the peers behind them

    A leader commits entries while its peer threads send them: the committing
    thread of [RaftCommit], the peer threads of [RaftReplicate] and the handlers
    of the peers interleave freely, and anything else that may happen to the
    leader between them is an event, too.  The commits that a majority was
    counted for are recorded with the peers that were counted. *)

From S2P Require Import Prelude Heap StringList CString HashMap Effects RaftLog Raft RaftReplicate RaftCommit.

Open Scope Z_scope.

(** ** A successful reply *)

(** A computation that does not fail with [ERROR_SUCCESS]. *)
Definition honest {St A} (m : RM St A) : Prop := ∀ s e s' e', m s e ≠ Some (inl ERROR_SUCCESS, s', e').

Section Honest.
Context {St : Type}.

Lemma honest_ret {A} (x : A) : honest (St := St) (rret x).
Proof. by intros s e s' e' [=]. Qed.
Lemma honest_fail {A} err : err ≠ ERROR_SUCCESS → honest (St := St) (rfail (A := A) err).
Proof. intros Herr s e s' e' [=]. done. Qed.
Lemma honest_ub {A} : honest (St := St) (rub (A := A)).
Proof. by intros s e s' e' [=]. Qed.
Lemma honest_get : honest (St := St) rget.
Proof. by intros s e s' e' [=]. Qed.
Lemma honest_set f : honest (St := St) (rset f).
Proof. by intros s e s' e' [=]. Qed.
Lemma honest_outcome : honest (St := St) next_outcome.
Proof. by intros s e s' e' [=]. Qed.
Lemma honest_lift {A} (x : option A) : honest (St := St) (rlift x).
Proof. intros s e s' e'. unfold rlift. by destruct x. Qed.
Lemma honest_bind {A B} (m : RM St A) (k : A → RM St B) : honest m → (∀ a, honest (k a)) → honest (rbind m k).
Proof.
  intros Hm Hk s e s' e'. unfold rbind. destruct (m s e) as [[[[err | a] s1] e1]|] eqn:E; [| apply Hk | done].
  intros [= -> -> ->]. by eapply Hm.
Qed.
Lemma honest_allocate n : honest (St := St) (VmDirAllocateMemory n).
Proof.
  unfold VmDirAllocateMemory. destruct (n =? 0); [by apply honest_fail |].
  apply honest_bind; [apply honest_outcome |]. intros o. destruct (o =? 0); [apply honest_ret | by apply honest_fail].
Qed.
Lemma honest_backend : honest (St := St) backend_call.
Proof.
  apply honest_bind; [apply honest_outcome |]. intros o. destruct (o =? 0); [apply honest_ret | by apply honest_fail].
Qed.
End Honest.

Create HintDb honest.
#[export] Hint Resolve honest_ret honest_ub honest_get honest_set honest_outcome honest_lift honest_allocate honest_backend : honest.

Ltac solve_honest :=
  repeat first
    [ solve [auto with honest]
    | apply honest_bind; [| intros ?]
    | apply honest_fail; discriminate
    | match goal with
      | |- honest (if ?b then _ else _) => destruct b
      | |- honest (match ?x with _ => _ end) => destruct x
      | |- honest (let '(_, _) := ?x in _) => destruct x
      end ].

Lemma honest_unpack {St} l : honest (St := St) (_VmDirUnpackLogEntry l).
Proof. unfold _VmDirUnpackLogEntry. destruct (packRaftLog l) as [[v n]|]; solve_honest. Qed.
#[export] Hint Resolve honest_unpack : honest.
Lemma honest_fetch {St} lg i : honest (St := St) (_VmDirFetchLogEntry lg i).
Proof. unfold _VmDirFetchLogEntry. solve_honest. Qed.
#[export] Hint Resolve honest_fetch : honest.
Lemma honest_lookup {St} lg i t : honest (St := St) (_VmDirLogLookup lg i t).
Proof. unfold _VmDirLogLookup. solve_honest. Qed.
#[export] Hint Resolve honest_lookup : honest.
Lemma honest_persist l : honest (_VmDirPersistLog l).
Proof. unfold _VmDirPersistLog. solve_honest. Qed.
#[export] Hint Resolve honest_persist : honest.
Lemma honest_note_leader compare ldr : honest (note_leader compare ldr).
Proof. unfold note_leader, berval_copy. solve_honest. Qed.
Lemma honest_store pre lc es : honest (append_entries_store pre lc es).
Proof. unfold append_entries_store. solve_honest. Qed.
#[export] Hint Resolve honest_note_leader honest_store : honest.

(** Steps of a run that did not end in undefined behaviour. *)
Lemma bind_inv {St A B} (m : RM St A) (k : A → RM St B) s e r s' e' :
  rbind m k s e = Some (r, s', e') →
  (∃ a s1 e1, m s e = Some (inr a, s1, e1) ∧ k a s1 e1 = Some (r, s', e')) ∨
  (∃ err, m s e = Some (inl err, s', e') ∧ r = inl err).
Proof.
  unfold rbind. destruct (m s e) as [[[[err | a] s1] e1]|] eqn:E; [| | done].
  - intros [= <- <- <-]. right. eauto.
  - intros H. left. eauto 6.
Qed.

Lemma bind_ok {St A B} (m : RM St A) (k : A → RM St B) s e b s' e' :
  rbind m k s e = Some (inr b, s', e') →
  ∃ a s1 e1, m s e = Some (inr a, s1, e1) ∧ k a s1 e1 = Some (inr b, s', e').
Proof. intros [H | (err & _ & [=])]%bind_inv. done. Qed.

Lemma try_ok {St A} (m : RM St A) s e r s' e' :
  rtry m s e = Some (inr r, s', e') → m s e = Some (r, s', e').
Proof. unfold rtry. destruct (m s e) as [[[x s1] e1]|]; [| done]. by intros [= -> -> ->]. Qed.

(** The parts of a result, without reducing the state. *)
Lemma run_eq {St A} (r r' : A) (s s' : St) (e e' : env) : Some (r, s, e) = Some (r', s', e') → r = r' ∧ s = s' ∧ e = e'.
Proof. by intros [= -> -> ->]. Qed.

(** Runs the first action of a successful run. *)
Tactic Notation "step" hyp(H) := apply bind_ok in H as (? & ? & ? & ? & H).
Tactic Notation "step" hyp(H) "as" ident(a) ident(Ha) := apply bind_ok in H as (a & ? & ? & Ha & H).

Lemma backend_inv {St} (s : St) e u s' e' : backend_call s e = Some (inr u, s', e') → s' = s.
Proof. unfold backend_call, rbind, next_outcome. destruct (_ =? 0); intros [=]; done. Qed.

Lemma allocate_inv {St} n (s : St) e b s' e' : VmDirAllocateMemory n s e = Some (inr b, s', e') → s' = s.
Proof. unfold VmDirAllocateMemory. destruct (n =? 0); [done |]. unfold rbind, next_outcome. destruct (_ =? 0); intros [=]; done. Qed.

Lemma unpack_inv {St} l l0 (s : St) e l' s' e' :
  log_ok l → packRaftLog l0 = Some (BERVAL (entry_bytes l) (Z.of_nat (length (entry_bytes l)))) →
  _VmDirUnpackLogEntry l0 s e = Some (inr l', s', e') →
  s' = s ∧ index l' = index l ∧ packRaftLog l' = packRaftLog l0.
Proof.
  intros (Hi & Ht & He & Hc & Hlen) Hp. pose proof (chglog_len_pos l). unfold _VmDirUnpackLogEntry. rewrite Hp.
  rewrite entry_length. change RAFT_LOG_HEADER_LEN with 24 in *. rewrite (proj2 (Z.ltb_ge _ _)) by lia.
  unfold entry_bytes at 1. intros Hrun. step Hrun. rewrite get_header_spec in H0 by done. injection H0 as <- <- <-.
  destruct (_ >? _); [step Hrun; step Hrun; apply allocate_inv in H0 as -> |].
  - unfold rlift in H1. destruct (get_bytes _ _); [| done]. injection H1 as <- <- <-. by injection Hrun as <- <- <-.
  - by injection Hrun as <- <- <-.
Qed.

Lemma persist_inv l s e u s' e' :
  _VmDirPersistLog l s e = Some (inr u, s', e') →
  ∃ b, packRaftLog l = Some b ∧ s' = set_logs (<[index l := take (Z.to_nat (lberbv_len b)) (lberbv_val b)]> (logs s)) s.
Proof.
  unfold _VmDirPersistLog. intros Hrun. step Hrun. apply backend_inv in H as ->. step Hrun. injection H as <- <- <-.
  destruct (logs s !! index l); [done |]. destruct (packRaftLog l) as [b|]; [| done]. injection Hrun as <- <- <-. by exists b.
Qed.

Lemma store_inv pre lc l s e u s' e' :
  log_ok l → append_entries_store pre lc (entry_bytes l) s e = Some (inr u, s', e') →
  logs s' !! index l = Some (entry_bytes l) ∧ currentTerm s' = currentTerm s.
Proof.
  intros Hl. unfold append_entries_store. pose proof (entry_bytes_long l). rewrite (proj2 (Z.gtb_lt _ _)) by lia.
  intros Hrun. step Hrun. apply allocate_inv in H0 as ->. step Hrun.
  apply (unpack_inv l) in H0 as (-> & Hi & Hp); [| done | done]. cbn [packRaftLog] in Hp.
  step Hrun. apply persist_inv in H0 as (b & Hb & ->). rewrite Hp in Hb. apply (inj Some) in Hb as <-.
  unfold rbind, rset, rget in Hrun. cbv beta iota in Hrun. apply run_eq in Hrun as (_ & <- & _).
  cbn [logs currentTerm set_opCounts set_indexToApply set_commitIndex set_lastLogTerm set_lastLogIndex set_logs lberbv_val lberbv_len].
  by rewrite Hi, Nat2Z.id, firstn_all, lookup_insert_eq.
Qed.

(** Log and term are kept. *)
Definition same_log_term (s s' : raft_state) : Prop := logs s' = logs s ∧ currentTerm s' = currentTerm s ∧ lastLogIndex s' = lastLogIndex s.
#[local] Instance same_log_term_preorder : PreOrder same_log_term.
Proof. split; [done |]. intros s1 s2 s3 (? & ? & ?) (? & ? & ?). split; [congruence |]. split; congruence. Qed.

Lemma same_finish now old new b : keeps same_log_term (append_entries_finish now old new b).
Proof. unfold append_entries_finish, VmDirPersistTerm. solve_keeps; done. Qed.
Lemma same_note compare ldr : keeps same_log_term (note_leader compare ldr).
Proof. unfold note_leader, berval_copy. solve_keeps; done. Qed.

Lemma check_inv compare now t ldr s e x s' e' :
  append_entries_check compare now t ldr s e = Some (inr x, s', e') →
  match x with
  | inl (rep, _, _) => ar_error rep = ERROR_SUCCESS → ar_status rep = 0 → lastLogIndex s' = 0 ∧ t <= currentTerm s'
  | inr al => al_lastLogIndex al = lastLogIndex s' ∧ currentTerm s' = t
  end.
Proof.
  unfold append_entries_check. intros Hrun. step Hrun as s0 H. injection H as <- <- <-.
  destruct (negb (initialized s)); [by injection Hrun as <- <- <- |].
  step Hrun as u H. apply run_eq in H as (_ & <- & _). step Hrun as r H. apply try_ok in H.
  destruct r as [err | u'].
  { apply run_eq in Hrun as (Hx & _). apply (inj inr) in Hx as <-. cbn. intros ->. by apply honest_note_leader in H. }
  unfold append_entries_term in Hrun.
  step Hrun as s2 H2. injection H2 as <- <- <-. destruct (Z.gtb_spec (currentTerm x0) t).
  { apply run_eq in Hrun as (Hx & <- & _). apply (inj inr) in Hx as <-. cbn. intros _ ->. split; [done | lia]. }
  destruct (_ && _).
  { step Hrun as u2 H2. apply run_eq in Hrun as (Hx & _). apply (inj inr) in Hx as <-. by cbn. }
  step Hrun as u2 H2. apply run_eq in H2 as (_ & <- & <-).
  step Hrun as u3 H3. apply run_eq in Hrun as (Hx & <- & _). apply (inj inr) in Hx as <-. cbn.
  destruct (bool_decide _); by apply run_eq in H3 as (_ & <- & _).
Qed.

Lemma log_inv pre pt lc l last s e err st fatal s' e' :
  log_ok l →
  append_entries_log pre pt lc (entry_bytes l) last s e = Some (inr (err, st, fatal), s', e') →
  err = ERROR_SUCCESS → st = 0 → logs s' !! index l = Some (entry_bytes l) ∨ (last = 0 ∧ s' = s).
Proof.
  intros Hl Hrun -> ->. unfold append_entries_log in Hrun. step Hrun as s0 H. injection H as <- <- <-.
  step Hrun as m H. apply try_ok in H. destruct m as [err | [bf bt]].
  { apply run_eq in Hrun as (Hx & _). injection Hx as -> _. exfalso. revert H.
    destruct (pre =? 0); [done | apply honest_lookup]. }
  destruct (negb bf || negb bt).
  { apply run_eq in Hrun as (Hx & <- & _). injection Hx as Hx _. right. split; [done |]. symmetry. revert H.
    assert (keeps eq (if pre =? 0 then rret (true, true) else _VmDirLogLookup (logs s) pre pt)) as Hk
      by (destruct (pre =? 0); [solve_keeps | unfold _VmDirLogLookup; solve_keeps]). apply Hk. }
  step Hrun as d Hdel. case_bool_decide as Hd; [| by apply run_eq in Hrun as ([= Hx] & _)].
  step Hrun as r Hst. apply try_ok in Hst. destruct r as [err | u].
  { apply run_eq in Hrun as ([= ->] & _). by apply honest_store in Hst. }
  left. apply store_inv in Hst as [Hst _]; [| done]. step Hrun as s3 H3. apply run_eq in H3 as (Hx & <- & <-). apply (inj inr) in Hx as <-.
  destruct (_ <? _); by apply run_eq in Hrun as ([= ] & <- & _).
Qed.

Definition same_term (s s' : raft_state) : Prop := currentTerm s' = currentTerm s.
#[local] Instance same_term_preorder : PreOrder same_term.
Proof. split; [done |]. unfold same_term. intros s1 s2 s3. congruence. Qed.

Lemma same_term_delete ixs : keeps same_term (delete_loop ixs).
Proof. induction ixs as [|i ixs IH]; cbn [delete_loop]; unfold _VmdirDeleteLog; solve_keeps; try done; auto with keeps. Qed.
#[local] Hint Resolve same_term_delete : keeps.

Lemma same_term_log pre pt lc es last : keeps same_term (append_entries_log pre pt lc es last).
Proof.
  unfold append_entries_log, append_entries_store, VmDirDeleteAllLogs, _VmDirPersistLog. solve_keeps; try done.
Qed.

(** What an answer of success tells of a peer: the entry [l] is in its log, in
    the sender's term [t]; or its log is empty, and [0] is the index it answers
    with when it refuses ([raft_empty_log_answers_success]). *)
Definition success_means (t : Z) (l : VDIR_RAFT_LOG) (F : raft_state) : Prop :=
  (currentTerm F = t ∧ logs F !! index l = Some (packed_bytes l)) ∨ (lastLogIndex F = 0 ∧ t <= currentTerm F).

(** Allocations and backend calls may fail. *)
Lemma append_success_stored compare now t ldr pre pt lc l F e rt F' e' :
  log_ok l →
  _VmDirAppendEntriesGetReply compare now t ldr pre pt lc (entry_bytes l) F e =
    Some (inr (APPEND_REPLY ERROR_SUCCESS rt 0), F', e') →
  success_means t (packed l) F'.
Proof.
  intros Hl Hrun. unfold _VmDirAppendEntriesGetReply in Hrun. step Hrun as c Hc. apply check_inv in Hc.
  destruct c as [[[rep old] new] | al].
  { step Hrun as u Hf. apply run_eq in Hrun as (Hx & <- & _). apply (inj inr) in Hx as ->. right.
    destruct (Hc eq_refl eq_refl) as [Hl0 Ht0]. apply same_finish in Hf as (_ & -> & ->). done. }
  destruct Hc as [Hal Hct]. step Hrun as r Hlog. destruct r as [[err st] fatal].
  step Hrun as u Hf. apply run_eq in Hrun as (Hx & <- & _). apply (inj inr) in Hx. injection Hx as -> <- ->.
  apply same_finish in Hf as (Hfl & Hft & Hfi). unfold success_means. rewrite Hfl, Hft, Hfi, packed_bytes_packed.
  destruct (log_inv _ _ _ _ _ _ _ _ _ _ _ _ Hl Hlog eq_refl eq_refl) as [Hst | [H0 ->]].
  - left. split; [| done]. rewrite <- Hct. by apply same_term_log in Hlog.
  - right. split; [congruence | lia].
Qed.

(** ** The system *)

(** Where the peer thread is in its call, with the term in which the call
    began. *)
Inductive rpc_pc :=
  | RpcIdle
  | RpcChosen (t0 : Z) (c : VDIR_RAFT_EXEC_CMD) (k : append_pick)
  | RpcReady (t0 : Z) (c : VDIR_RAFT_EXEC_CMD) (start : Z) (a : append_args) (cur : Z)
  | RpcSent (t0 : Z) (c : VDIR_RAFT_EXEC_CMD) (start : Z) (a : append_args) (cur : Z)
  | RpcReplied (t0 : Z) (c : VDIR_RAFT_EXEC_CMD) (start : Z) (a : append_args) (cur rt st : Z)
  | RpcBack (t0 : Z) (c : VDIR_RAFT_EXEC_CMD) (start : Z) (a : append_args) (cur st : Z)
  | RpcForward (t0 : Z) (c : VDIR_RAFT_EXEC_CMD) (start : Z) (a : append_args) (cur : Z).

(** A commit for which a majority was counted: the entry, the size of the
    cluster and the peers. *)
Record commit_record := COMMITTED { cr_entry : VDIR_RAFT_LOG; cr_clusterSize : Z; cr_peers : list nat }.

(** The leader with its committing thread and its peer threads (number [p]
    serves the proxy [p]), and the states each peer has been in, the latest
    first. *)
Record system := SYSTEM {
  me : commit_state;
  committing : commit_pc;
  thr : nat → rpc_pc;
  hist : nat → list raft_state;
  commits : list commit_record
}.

Definition fupd {A} (i : nat) (x : A) (f : nat → A) : nat → A := λ j, if decide (j = i) then x else f j.

Inductive sys_event :=
  | SvStore (l : VDIR_RAFT_LOG) (e : env)
  | SvPrepare (key sh : bool) (e : env)
  | SvWake (o : Z) (sh : bool) (e : env)
  | SvChoose (p : nat) (c : VDIR_RAFT_EXEC_CMD) (e : env)
  | SvPrev (p : nat) (e : env)
  | SvSend (p : nat) (e : env)
  | SvHandle (p : nat) (now : Z) (ldr : cstr) (e : env)
  | SvReceive (p : nat) (now : Z) (e : env)
  | SvBack (p : nat) (e : env)
  | SvForward (p : nat) (e : env)
  | SvLose (p : nat)
  | SvOther (s : raft_state)
  | SvPeer (p : nat) (F : raft_state).

(** The peers counted. *)
Definition counts_peer (x : VMDIR_PEER_PROXY) : bool := negb (isDeleted x) && bLogReplicated x.

Fixpoint counted (i : nat) (ps : list VMDIR_PEER_PROXY) : list nat :=
  match ps with
  | [] => []
  | x :: ps => if counts_peer x then i :: counted (S i) ps else counted (S i) ps
  end.

(** A transaction holds the write lock of the main database from its change log
    to its end. *)
Definition open_txn (y : system) : Prop :=
  index (gLogEntry (me y)) ≠ 0 ∨ match committing y with Returned _ _ => False | _ => True end.
#[export] Instance open_txn_dec y : Decision (open_txn y).
Proof. unfold open_txn. apply or_dec; [apply _ |]. destruct (committing y); apply _. Defined.

(** The term in which a call began and the entries it carries. *)
Definition call_of (x : rpc_pc) : option (Z * list Z) :=
  match x with
  | RpcIdle => None
  | RpcChosen t0 _ k => Some (t0, ap_entries k)
  | RpcReady t0 _ _ a _ | RpcSent t0 _ _ a _ | RpcReplied t0 _ _ a _ _ _ => Some (t0, aa_entries a)
  | RpcBack t0 _ _ _ _ _ | RpcForward t0 _ _ _ _ => Some (t0, [])
  end.

(** The indices of the entries that calls of the current term carry. *)
Definition in_use (y : system) (i : Z) : Prop :=
  ∃ p l, log_ok l ∧ index l = i ∧ call_of (thr y p) = Some (currentTerm (raft (me y)), entry_bytes l).

(** No call of the current term is under way. *)
Definition quiet (y : system) : Prop :=
  ∀ p t0 es, call_of (thr y p) = Some (t0, es) → t0 ≠ currentTerm (raft (me y)).

(** The entry is in the log, or has been removed from it (compaction) and its
    index is not going to be used again. *)
Definition present (s : raft_state) (b : list Z) (i : Z) : Prop :=
  logs s !! i = Some b ∨ (logs s !! i = None ∧ i <= lastLogIndex s).

(** What other threads may do to the server.  Terms do not go down, and no peer
    is marked as having replicated.  With a new term the log may become
    anything; within a term an entry that a call of this term carries is not
    replaced (it may be removed), and the entry of an open transaction of this
    term stays the last one; the rest of the log may change.  While a
    transaction is open the server does not become the leader, for that takes
    the same lock. *)
Definition other_ok (y : system) (s' : raft_state) : Prop :=
  let s := raft (me y) in let g := gLogEntry (me y) in
  currentTerm s <= currentTerm s' ∧ store_ok (logs s') ∧
  (currentTerm s' = currentTerm s →
     (∀ i b, in_use y i → present s b i → present s' b i) ∧
     (index g ≠ 0 → term g = currentTerm s → logs s' !! index g = logs s !! index g ∧ lastLogIndex s' = lastLogIndex s)) ∧
  (∀ q x', proxies s' !! q = Some x' → counts_peer x' = true → ∃ x, proxies s !! q = Some x ∧ counts_peer x = true) ∧
  (open_txn y → role s' = VDIR_RAFT_ROLE_LEADER → role s = VDIR_RAFT_ROLE_LEADER ∧ currentTerm s' = currentTerm s).

(** The entry of the transaction was made by the leader of its term, which
    cannot have changed since, behind the last entry. *)
Definition store_guard (l : VDIR_RAFT_LOG) (s : raft_state) : Prop :=
  log_ok l ∧ 0 < index l ∧ lastLogIndex s < index l ∧ term l <= currentTerm s ∧ (role s = VDIR_RAFT_ROLE_LEADER → currentTerm s = term l).

Definition set_me c y := SYSTEM c (committing y) (thr y) (hist y) (commits y).
Definition set_committing x y := SYSTEM (me y) x (thr y) (hist y) (commits y).
Definition set_thr p x y := SYSTEM (me y) (committing y) (fupd p x (thr y)) (hist y) (commits y).
Definition add_hist p F y := SYSTEM (me y) (committing y) (thr y) (fupd p (F :: hist y p) (hist y)) (commits y).
Definition add_commit x y := SYSTEM (me y) (committing y) (thr y) (hist y) (x :: commits y).

(** A step of a peer thread on the server; an error ends the call. *)
Definition thread_step {A} (p : nat) (m : RM raft_state A) (k : A → rpc_pc) (e : env) (y : system) : option system :=
  match m (raft (me y)) e with
  | Some (inr x, s, _) => Some (set_thr p (k x) (set_me (set_raft (λ _, s) (me y)) y))
  | Some (inl _, s, _) => Some (set_thr p RpcIdle (set_me (set_raft (λ _, s) (me y)) y))
  | None => None
  end.

(** What [gEntries] points to. *)
Definition the_entry (c : commit_state) : option VDIR_RAFT_LOG := if gEntries c then Some (gLogEntry c) else None.

Section System.
Context (compare : cstr → cstr → bool → Z).

(** Whether a call is over before the term of the server changes (the code does
    not check this). *)
Context (timely : bool).

Definition in_time (t0 : Z) (y : system) : bool := negb timely || (currentTerm (raft (me y)) =? t0).

(** The committing thread.  When the term is a later one than that of the entry
    to be stored, the server has not led in it. *)
Inductive commit_step : sys_event → system → system → Prop :=
  | step_store l e y c' e' :
      ¬ open_txn y → store_guard l (raft (me y)) → currentTerm (raft (me y)) = term l ∨ quiet y →
      (on_raft (VmDirAddRaftEntry (packed l)) ;;; rset (set_gLogEntry (packed l))) (me y) e = Some (inr tt, c', e') →
      commit_step (SvStore l e) y (set_me c' y)
  | step_prepare key sh e y pc c' e' err ctx :
      committing y = Returned err ctx →
      VmDirRaftPrepareCommit key sh (me y) e = Some (inr pc, c', e') →
      commit_step (SvPrepare key sh e) y (set_committing pc (set_me c' y))
  | step_wake o sh e y pc c' e' :
      (match committing y with Returned _ _ => False | _ => True end) →
      prepare_wake o sh (committing y) (me y) e = Some (inr pc, c', e') →
      let y' := set_committing pc (set_me c' y) in
      commit_step (SvWake o sh e) y
        (match pc with
         | Returned ERROR_SUCCESS _ =>
             add_commit (COMMITTED (gLogEntry (me y)) (clusterSize (raft (me y))) (counted 0 (proxies (raft (me y))))) y'
         | _ => y'
         end).

(** The peer threads. *)
Inductive thread_event : sys_event → system → system → Prop :=
  | step_choose p c e y y' :
      thr y p = RpcIdle →
      thread_step p (append_choose c (the_entry (me y)))
        (λ k, match k with Some k => RpcChosen (currentTerm (raft (me y))) c k | None => RpcIdle end) e y = Some y' →
      thread_event (SvChoose p c e) y y'
  | step_prev p e y y' t0 c k :
      thr y p = RpcChosen t0 c k →
      thread_step p (append_prev k) (λ a, RpcReady t0 c (ap_start k) a 0) e y = Some y' →
      thread_event (SvPrev p e) y y'
  | step_send p e y y' t0 c start a cur :
      thr y p = RpcReady t0 c start a cur → in_time t0 y = true →
      thread_step p (append_send a) (λ a, match a with Some a => RpcSent t0 c start a cur | None => RpcIdle end) e y = Some y' →
      thread_event (SvSend p e) y y'
  | step_receive p now e y y' t0 c start a cur rt st :
      thr y p = RpcReplied t0 c start a cur rt st → in_time t0 y = true →
      thread_step p (append_receive now c (the_entry (me y)) p start a cur rt st)
        (λ n, match n.1 with
              | AppendDone => RpcIdle
              | AppendBack => RpcBack t0 c start a n.2 st
              | AppendForward => RpcForward t0 c start a n.2
              end) e y = Some y' →
      thread_event (SvReceive p now e) y y'
  | step_back p e y y' t0 c start a cur st :
      thr y p = RpcBack t0 c start a cur st → 
      thread_step p (append_back a st) (λ a, RpcReady t0 c start a cur) e y = Some y' →
      thread_event (SvBack p e) y y'
  | step_forward p e y y' t0 c start a cur :
      thr y p = RpcForward t0 c start a cur → 
      thread_step p (append_forward c start a)
        (λ f, match f with Some (a, cur) => RpcReady t0 c start a cur | None => RpcIdle end) e y = Some y' →
      thread_event (SvForward p e) y y'
  | step_lose p y : thread_event (SvLose p) y (set_thr p RpcIdle y).

(** The peers and everything else. *)
Inductive peer_event : sys_event → system → system → Prop :=
  | step_handle p now ldr e y t0 c start a cur F hs r F' e' :
      thr y p = RpcSent t0 c start a cur → hist y p = F :: hs →
      _VmDirAppendEntriesGetReply compare now (aa_term a) ldr (aa_preLogIndex a) (aa_preLogTerm a) (aa_leaderCommit a)
        (wire_entries (aa_entries a)) F e = Some (inr r, F', e') →
      peer_event (SvHandle p now ldr e) y
        (set_thr p (if bool_decide (ar_error r = ERROR_SUCCESS)
                    then RpcReplied t0 c start a cur (u32 (s32 (ar_currentTerm r))) (ar_status r) else RpcIdle)
           (add_hist p F' y))
  | step_other s y : other_ok y s → peer_event (SvOther s) y (set_me (set_raft (λ _, s) (me y)) y)
  | step_peer p F y : peer_event (SvPeer p F) y (add_hist p F y).

Inductive sys_step : sys_event → system → system → Prop :=
  | sys_commit ev y y' : commit_step ev y y' → sys_step ev y y'
  | sys_thread ev y y' : thread_event ev y y' → sys_step ev y y'
  | sys_peer ev y y' : peer_event ev y y' → sys_step ev y y'.

Inductive sys_run : list sys_event → system → system → Prop :=
  | run_nil y : sys_run [] y y
  | run_cons ev evs y y1 y2 : sys_step ev y y1 → sys_run evs y1 y2 → sys_run (ev :: evs) y y2.


(** ** The invariant *)

(** The peer has had the entry in its log, in the term of the entry (or had no
    log). *)
Definition had_entry (hs : list raft_state) (l : VDIR_RAFT_LOG) : Prop :=
  ∃ F, F ∈ hs ∧ success_means (term l) l F.

(** The entries of a call are not replaced in the server's log as long as the
    term in which the call began lasts. *)
Definition carries (s : raft_state) (t0 : Z) (es : list Z) : Prop :=
  es = [] ∨ ∃ l, log_ok l ∧ es = entry_bytes l ∧ (currentTerm s = t0 → present s es (index l)).

Definition call_ok (s : raft_state) (t0 : Z) (es : list Z) (cur : Z) : Prop :=
  t0 <= currentTerm s ∧ carries s t0 es ∧ (es = [] → cur = 0).

(** A reply of success tells that the peer has stored the entries. *)
Definition reply_ok (hs : list raft_state) (a : append_args) (st : Z) : Prop :=
  st = 0 → ∀ l, log_ok l → aa_entries a = entry_bytes l → ∃ F, F ∈ hs ∧ success_means (aa_term a) (packed l) F.

Definition thr_ok (s : raft_state) (hs : list raft_state) (x : rpc_pc) : Prop :=
  match x with
  | RpcIdle => True
  | RpcChosen t0 _ k => call_ok s t0 (ap_entries k) 0
  | RpcReady t0 _ _ a cur => call_ok s t0 (aa_entries a) cur
  | RpcSent t0 _ _ a cur => call_ok s t0 (aa_entries a) cur ∧ (timely = true → aa_term a = t0)
  | RpcReplied t0 _ _ a cur _ st => call_ok s t0 (aa_entries a) cur ∧ (timely = true → aa_term a = t0) ∧ reply_ok hs a st
  | RpcBack t0 _ _ _ _ _ | RpcForward t0 _ _ _ _ => t0 <= currentTerm s
  end.

(** The entry of the open transaction. *)
Definition txn_entry (s : raft_state) (g : VDIR_RAFT_LOG) : Prop :=
  ∃ l, g = packed l ∧ log_ok l ∧ 0 < index l ∧ term l <= currentTerm s ∧
    (role s = VDIR_RAFT_ROLE_LEADER → currentTerm s = term l) ∧
    (currentTerm s = term l → logs s !! index l = Some (entry_bytes l) ∧ lastLogIndex s = index l).

Definition waiting (pc : commit_pc) : Prop := match pc with Returned _ _ => False | _ => True end.
Definition consensus_wait (pc : commit_pc) : Prop := match pc with ConsensusWait _ => True | _ => False end.

Definition flags_ok (y : system) : Prop :=
  consensus_wait (committing y) → currentTerm (raft (me y)) = term (gLogEntry (me y)) →
  ∀ q x, proxies (raft (me y)) !! q = Some x → counts_peer x = true → had_entry (hist y q) (gLogEntry (me y)).

Definition commit_ok (y : system) (r : commit_record) : Prop :=
  NoDup (cr_peers r) ∧ cr_clusterSize r `quot` 2 <= Z.of_nat (length (cr_peers r)) ∧
  ∀ q, q ∈ cr_peers r → had_entry (hist y q) (cr_entry r).

Record sys_inv (y : system) : Prop := {
  inv_store : store_ok (logs (raft (me y)));
  inv_entry : index (gLogEntry (me y)) ≠ 0 → txn_entry (raft (me y)) (gLogEntry (me y));
  inv_gEntries : gEntries (me y) = true → index (gLogEntry (me y)) ≠ 0;
  inv_waiting : waiting (committing y) → index (gLogEntry (me y)) ≠ 0;
  inv_flags : flags_ok y;
  inv_quiet : index (gLogEntry (me y)) ≠ 0 → currentTerm (raft (me y)) ≠ term (gLogEntry (me y)) → quiet y;
  inv_threads : ∀ p, thr_ok (raft (me y)) (hist y p) (thr y p);
  inv_commits : Forall (commit_ok y) (commits y)
}.

(** Within a term the entries of the indices [U] are not replaced. *)
Definition grows (U : Z → Prop) (s s' : raft_state) : Prop :=
  currentTerm s <= currentTerm s' ∧ store_ok (logs s') ∧
  (currentTerm s' = currentTerm s → ∀ i b, U i → present s b i → present s' b i).

Lemma grows_same U s s' :
  currentTerm s <= currentTerm s' → store_ok (logs s) → logs s' = logs s → lastLogIndex s' = lastLogIndex s → grows U s s'.
Proof. intros Hle Hst Hl Hi. split; [done |]. unfold present. rewrite Hl, Hi. done. Qed.

(** [U] has the indices of a call. *)
Definition uses (U : Z → Prop) (s : raft_state) (t0 : Z) (es : list Z) : Prop :=
  t0 = currentTerm s → ∀ l, log_ok l → es = entry_bytes l → U (index l).

Lemma carries_grows U s s' t0 es :
  grows U s s' → uses U s t0 es → t0 <= currentTerm s → carries s t0 es → carries s' t0 es.
Proof.
  intros (Hle & _ & Hsub) Hu Ht [-> | (l & Hl & -> & Hin)]; [by left |]. right. exists l. split; [done |]. split; [done |].
  intros Hc. assert (currentTerm s' = currentTerm s) as He by lia. apply (Hsub He); [by apply Hu; [lia | |] |]. apply Hin. lia.
Qed.

Lemma call_ok_grows U s s' t0 es cur : grows U s s' → uses U s t0 es → call_ok s t0 es cur → call_ok s' t0 es cur.
Proof. intros Hg Hu (Ht & Hc & Hz). pose proof Hg as (Hle & _). split; [lia |]. split; [by eapply carries_grows | done]. Qed.

Lemma reply_ok_mono hs hs' a st : hs ⊆ hs' → reply_ok hs a st → reply_ok hs' a st.
Proof. intros Hsub Hr Hst l Hl Ha. destruct (Hr Hst l Hl Ha) as (F & HF & Hrest). exists F. split; [by apply Hsub | done]. Qed.

Lemma thr_ok_mono U s s' hs hs' x :
  grows U s s' → (∀ t0 es, call_of x = Some (t0, es) → uses U s t0 es) → hs ⊆ hs' → thr_ok s hs x → thr_ok s' hs' x.
Proof.
  intros Hg Hu Hsub. pose proof Hg as (Hle & _). pose proof (call_ok_grows U s s') as Hc. destruct x; cbn; try done.
  - intros H. apply Hc; [done | by apply Hu | done].
  - intros H. apply Hc; [done | by apply Hu | done].
  - intros [H ?]. split; [apply Hc; [done | by apply Hu | done] | done].
  - intros (H & ? & ?). split; [apply Hc; [done | by apply Hu | done] |]. split; [done | by eapply reply_ok_mono].
  - lia.
  - lia.
Qed.

Lemma thr_ok_term s hs x t0 es : thr_ok s hs x → call_of x = Some (t0, es) → t0 <= currentTerm s.
Proof. destruct x; cbn; intros H [=]; subst; try done; try apply H. Qed.

Lemma uses_in_use y p t0 es : call_of (thr y p) = Some (t0, es) → uses (in_use y) (raft (me y)) t0 es.
Proof. intros Hc -> l Hl ->. by exists p, l. Qed.

Lemma had_entry_mono hs hs' l : hs ⊆ hs' → had_entry hs l → had_entry hs' l.
Proof. intros Hsub (F & HF & H). exists F. split; [by apply Hsub | done]. Qed.

Lemma txn_entry_grows s s' g :
  currentTerm s <= currentTerm s' →
  (currentTerm s' = currentTerm s → term g = currentTerm s →
     logs s' !! index g = logs s !! index g ∧ lastLogIndex s' = lastLogIndex s) →
  (role s' = VDIR_RAFT_ROLE_LEADER → role s = VDIR_RAFT_ROLE_LEADER ∧ currentTerm s' = currentTerm s) →
  txn_entry s g → txn_entry s' g.
Proof.
  intros Hle Hsub Hr (l & -> & Hl & Hi & Ht & Hlead & Hin). exists l. do 3 (split; [done |]). split; [lia |]. split.
  - intros H. destruct (Hr H) as [H' ->]. by apply Hlead.
  - intros Hc. assert (currentTerm s' = currentTerm s) as He by lia.
    destruct (Hsub He) as [Hlog Hlast]; [change (term (packed l)) with (term l); lia |]. change (index (packed l)) with (index l) in Hlog.
    rewrite Hlog, Hlast. apply Hin. lia.
Qed.

(** The server changes under the invariant. *)
Lemma inv_server y s' :
  sys_inv y → grows (in_use y) (raft (me y)) s' →
  (currentTerm s' = currentTerm (raft (me y)) → index (gLogEntry (me y)) ≠ 0 → term (gLogEntry (me y)) = currentTerm (raft (me y)) →
     logs s' !! index (gLogEntry (me y)) = logs (raft (me y)) !! index (gLogEntry (me y)) ∧
     lastLogIndex s' = lastLogIndex (raft (me y))) →
  (open_txn y → role s' = VDIR_RAFT_ROLE_LEADER →
     role (raft (me y)) = VDIR_RAFT_ROLE_LEADER ∧ currentTerm s' = currentTerm (raft (me y))) →
  (∀ q x', proxies s' !! q = Some x' → counts_peer x' = true →
     (∃ x, proxies (raft (me y)) !! q = Some x ∧ counts_peer x = true) ∨
     (currentTerm s' = term (gLogEntry (me y)) → had_entry (hist y q) (gLogEntry (me y)))) →
  sys_inv (set_me (set_raft (λ _, s') (me y)) y).
Proof.
  intros [Hst Hen Hge Hwa Hfl Hqu Hth Hco] Hg Hlast Hrole Hflags. pose proof Hg as (Hle & Hst' & _). constructor; cbn.
  - done.
  - intros Hi. eapply txn_entry_grows; [done | | | by apply Hen]; [intros ? ?; by apply Hlast |]. apply Hrole. by left.
  - done.
  - done.
  - intros Hw Ht q x' Hx Hc. cbn in Hw, Ht. destruct (Hflags q x' Hx Hc) as [(x & Hx0 & Hc0) | Hnew]; [| by apply Hnew].
    destruct (Hen (Hwa ltac:(by destruct (committing y)))) as (l & Hgl & _ & _ & Htl & _).
    apply (Hfl Hw) with (x := x); [| done | done]. rewrite Hgl in Ht |- *. change (term (packed l)) with (term l) in *. lia.
  - intros Hi Ht p t0 es Hc. cbn in *. pose proof (thr_ok_term _ _ _ _ _ (Hth p) Hc) as Hle0.
    destruct (decide (currentTerm s' = currentTerm (raft (me y)))) as [He | Hne]; [| lia].
    rewrite He. apply (Hqu Hi) with (p := p) (es := es); [congruence | done].
  - intros p. eapply thr_ok_mono; [done | by apply uses_in_use | done | apply Hth].
  - done.
Qed.

(** A call that goes on, or begins where the open transaction allows it. *)
Definition call_from (y : system) (p : nat) (x : rpc_pc) : Prop :=
  ∀ t0 es, call_of x = Some (t0, es) →
    (∃ es', call_of (thr y p) = Some (t0, es')) ∨
    (index (gLogEntry (me y)) ≠ 0 → currentTerm (raft (me y)) = term (gLogEntry (me y))).

Lemma inv_set_thr y p x :
  sys_inv y → call_from y p x → thr_ok (raft (me y)) (hist y p) x → sys_inv (set_thr p x y).
Proof.
  intros [Hst Hen Hge Hwa Hfl Hqu Hth Hco] Hfrom Hx. constructor; try done.
  - intros Hi Ht q t0 es. cbn in *. unfold fupd. case_decide as Hq; [subst | by apply Hqu].
    intros Hc. destruct (Hfrom t0 es Hc) as [[es' Hc'] | Hno]; [by eapply Hqu | by destruct (Ht (Hno Hi))].
  - intros q. cbn. unfold fupd. case_decide as Hq; [by subst | apply Hth].
Qed.

(** A step of a thread that only reads the server. *)
Lemma inv_thread_read {A} y p (m : RM raft_state A) k e y' :
  sys_inv y → (∀ r s e', m (raft (me y)) e = Some (r, s, e') → s = raft (me y)) →
  (∀ x s e', m (raft (me y)) e = Some (inr x, s, e') → call_from y p (k x) ∧ thr_ok (raft (me y)) (hist y p) (k x)) →
  thread_step p m k e y = Some y' → sys_inv y'.
Proof.
  intros Hinv Hread Hk. unfold thread_step. destruct (m (raft (me y)) e) as [[[[err | x] s] e']|] eqn:Hm; [| | done];
    pose proof (Hread _ _ _ eq_refl) as ->.
  - intros [= <-]. apply inv_set_thr; [| done | done]. by destruct y as [[] ? ? ? ?].
  - intros [= <-]. destruct (Hk x _ _ eq_refl) as [Hf Ho]. apply inv_set_thr; [by destruct y as [[] ? ? ? ?] | done | done].
Qed.

(** *** The steps of a thread *)

Lemma keeps_copy P `{!PreOrder P} bs : keeps P (copy_block bs).
Proof. unfold copy_block. solve_keeps. Qed.
#[local] Hint Resolve keeps_copy : keeps.

Lemma keeps_next P `{!PreOrder P} lg i j l : keeps P (_VmDirGetNextLog lg i j l).
Proof.
  unfold _VmDirGetNextLog. cbn [next_loop]. solve_keeps.
Qed.
#[local] Hint Resolve keeps_next : keeps.

Lemma choose_reads c g : keeps eq (append_choose c g).
Proof. unfold append_choose. solve_keeps. Qed.
Lemma prev_reads k : keeps eq (append_prev k).
Proof. unfold append_prev. solve_keeps. Qed.
Lemma send_reads a : keeps eq (append_send a).
Proof. unfold append_send. solve_keeps. Qed.
Lemma back_reads a st : keeps eq (append_back a st).
Proof. unfold append_back. solve_keeps. Qed.
Lemma forward_reads c start a : keeps eq (append_forward c start a).
Proof. unfold append_forward. solve_keeps. Qed.

Lemma copy_inv {St} bs (s : St) e x s' e' : copy_block bs s e = Some (inr x, s', e') → x = bs ∧ bs ≠ [] ∧ s' = s.
Proof.
  unfold copy_block. destruct (Z.ltb_spec (Z.of_nat (length bs)) 1); [done |]. intros Hrun. step Hrun as b Hb.
  apply allocate_inv in Hb as ->. injection Hrun as <- <- <-. split; [done |]. split; [| done]. intros ->. cbn in *. lia.
Qed.

Lemma fetch_inv {St} (lg : log_store) i (s : St) e l' s' e' :
  store_ok lg → _VmDirFetchLogEntry lg i s e = Some (inr l', s', e') →
  s' = s ∧ (l' = ZERO_LOG ∨ ∃ l, log_ok l ∧ lg !! i = Some (entry_bytes l) ∧ index l = i ∧ index l' = i ∧
                                  packed_bytes l' = entry_bytes l).
Proof.
  intros Hok. unfold _VmDirFetchLogEntry. intros Hrun. step Hrun as u Hb. apply backend_inv in Hb as ->.
  destruct (lg !! i) as [b|] eqn:Hi; [| injection Hrun as <- <- <-; split; [done | by left]].
  destruct (Hok i b Hi) as (l & Hl & -> & Hli & _). step Hrun as blk Ha. apply allocate_inv in Ha as ->.
  apply (unpack_inv l) in Hrun as (-> & Hx & Hp); [| done | done]. split; [done |]. right. exists l.
  split; [done |]. split; [done |]. split; [done |]. split; [congruence |].
  unfold packed_bytes. rewrite Hp. cbn [packRaftLog lberbv_len lberbv_val]. by rewrite Nat2Z.id, firstn_all.
Qed.

Lemma next_inv (lg : log_store) i j (s : raft_state) e l' s' e' :
  store_ok lg → _VmDirGetNextLog lg i j ZERO_LOG s e = Some (inr l', s', e') → index l' ≠ 0 →
  ∃ l, log_ok l ∧ lg !! index l = Some (entry_bytes l) ∧ index l' = index l ∧ packed_bytes l' = entry_bytes l.
Proof.
  intros Hok Hrun Hne. unfold _VmDirGetNextLog in Hrun. cbn [next_loop] in Hrun.
  destruct ((index ZERO_LOG =? 0) && (i <=? i)); [| by injection Hrun as <- <- <-].
  step Hrun as l1 H1. apply fetch_inv in H1 as (_ & Hl1); [| done].
  destruct ((index l1 =? 0) && (u64 (i + 1) <=? i)).
  { step Hrun as l2 H2. done. }
  injection Hrun as -> <- <-. destruct Hl1 as [-> | (l & Hl & Hi & Hli & Hl1 & Hp)]; [done |].
  exists l. split; [done |]. split; [by rewrite Hli |]. split; [congruence | done].
Qed.

Lemma choose_inv c g s e k s' e' :
  append_choose c g s e = Some (inr (Some k), s', e') →
  role s = VDIR_RAFT_ROLE_LEADER ∧ (ap_entries k = [] ∨ ∃ l, g = Some l ∧ ap_entries k = packed_bytes l).
Proof.
  unfold append_choose. intros Hrun. step Hrun as s0 H0. injection H0 as <- <- <-.
  case_bool_decide as Hr; [by injection Hrun as [=] |]. split; [destruct (decide (role s = VDIR_RAFT_ROLE_LEADER)); [done | tauto] |].
  destruct c; try done.
  - destruct g as [l|]; [| by injection Hrun as [=]]. case_bool_decide; [by injection Hrun as [=] |].
    step Hrun as es Hes. apply copy_inv in Hes as (-> & _ & _). injection Hrun as <- _ _. right. eauto.
  - injection Hrun as <- _ _. by left.
Qed.

Lemma back_inv a st s e a' s' e' :
  store_ok (logs s) → append_back a st s e = Some (inr a', s', e') →
  ∃ l, log_ok l ∧ aa_entries a' = entry_bytes l ∧ logs s !! index l = Some (entry_bytes l).
Proof.
  intros Hok. unfold append_back. intros Hrun. step Hrun as s0 H0. injection H0 as <- <- <-.
  step Hrun as l1 H1. apply fetch_inv in H1 as (-> & Hl1); [| done]. step Hrun as es Hes.
  apply copy_inv in Hes as (-> & Hne & ->). step Hrun as pr Hpr. injection Hrun as <- _ _. cbn [aa_entries].
  destruct Hl1 as [-> | (l & Hl & Hi & Hli & _ & Hp)]; [done |]. exists l. split; [done |]. split; [done |]. by rewrite Hli.
Qed.

Lemma forward_inv c start a s e a' cur s' e' :
  store_ok (logs s) → append_forward c start a s e = Some (inr (Some (a', cur)), s', e') →
  (aa_entries a' = [] ∧ cur = 0) ∨
  ∃ l, log_ok l ∧ aa_entries a' = entry_bytes l ∧ logs s !! index l = Some (entry_bytes l).
Proof.
  intros Hok. unfold append_forward. intros Hrun. step Hrun as s0 H0. injection H0 as <- <- <-.
  step Hrun as r Hr. destruct (index _ =? 0).
  { case_bool_decide; [| done]. destruct r; [done | by injection Hrun as [=]]. }
  step Hrun as l2 H2. destruct (Z.eqb_spec (index l2) 0) as [| Hne]; [injection Hrun as <- <- _ _; by left |].
  eapply (next_inv (logs s)) in H2 as (l & Hl & Hi & Hli & Hp); [| done | done].
  step Hrun as es Hes. apply copy_inv in Hes as (-> & _ & _). injection Hrun as <- <- _ _. right. exists l. cbn. by rewrite Hp.
Qed.

Lemma entry_not_nil l : entry_bytes l ≠ [].
Proof. intros Hb. pose proof (entry_bytes_long l) as Hl. rewrite Hb in Hl. cbn in Hl. lia. Qed.

(** The entries just read from the log. *)
Lemma call_ok_read s t0 l cur : 
  t0 <= currentTerm s → log_ok l → logs s !! index l = Some (entry_bytes l) → call_ok s t0 (entry_bytes l) cur.
Proof.
  intros Ht Hl Hin. split; [done |]. split; [right; exists l; split; [done |]; split; [done |]; intros _; by left |].
  intros Hb. by apply entry_not_nil in Hb.
Qed.

(** A call of the leader begins. *)
Lemma call_from_leader y p x :
  sys_inv y → role (raft (me y)) = VDIR_RAFT_ROLE_LEADER → call_from y p x.
Proof.
  intros Hinv Hr t0 es _. right. intros Hi. destruct (inv_entry y Hinv Hi) as (l & -> & _ & _ & _ & Hlead & _). by apply Hlead.
Qed.

Lemma call_from_same y p x x' :
  thr y p = x → (∀ t0 es, call_of x' = Some (t0, es) → ∃ es', call_of x = Some (t0, es')) → call_from y p x'.
Proof. intros <- H t0 es Hc. left. by eapply H. Qed.

Lemma thread_inv_reads ev y y' :
  sys_inv y → thread_event ev y y' → (∀ p now e, ev ≠ SvReceive p now e) → sys_inv y'.
Proof.
  intros Hinv Hstep Hnr. pose proof Hinv as [Hst Hen Hge Hwa Hfl Hqu Hth Hco].
  inversion Hstep as [p c e ? ? Hp Hrun | p e ? ? t0 c k Hp Hrun | p e ? ? t0 c start a cur Hp Hin Hrun | p now e ? ? t0 c start a cur rt st
    | p e ? ? t0 c start a cur st Hp Hrun | p e ? ? t0 c start a cur Hp Hrun | p]; subst; clear Hstep.
  - eapply inv_thread_read; [done | | | exact Hrun]; [intros ? ? ? H; symmetry; exact (choose_reads _ _ _ _ _ _ _ H) |].
    intros k s e' H. destruct k as [k|]; [| done]. apply choose_inv in H as [Hr Hk]. split; [by apply call_from_leader |]. cbn.
    destruct Hk as [-> | (g & Hg & ->)]; [split; [lia |]; split; [by left | done] |].
    unfold the_entry in Hg. destruct (gEntries (me y)) eqn:HgE; [| done]. injection Hg as <-.
    destruct (Hen (Hge eq_refl)) as (l & -> & Hl & Hi & Ht & Hlead & Hin). rewrite packed_bytes_packed.
    apply call_ok_read; [lia | done |]. apply Hin. by apply Hlead.
  - eapply inv_thread_read; [done | | | exact Hrun]; [intros ? ? ? H; symmetry; exact (prev_reads _ _ _ _ _ _ H) |].
    intros a s e' H. unfold append_prev in H. step H as s0 H0. step H as pr Hpr. injection H as <- _ _. cbn.
    split; [apply (call_from_same _ _ _ _ Hp); cbn; intros ? ? [= <- _]; eauto |]. specialize (Hth p). rewrite Hp in Hth. exact Hth.
  - eapply inv_thread_read; [done | | | exact Hrun]; [intros ? ? ? H; symmetry; exact (send_reads _ _ _ _ _ _ H) |].
    intros a' s e' H. destruct a' as [a'|]; [| done]. unfold append_send in H. step H as s0 H0. injection H0 as <- <- <-.
    case_bool_decide; [by injection H as [=] |]. destruct (_ <? _); [done |]. injection H as <- _ _. cbn.
    split; [apply (call_from_same _ _ _ _ Hp); cbn; intros ? ? [= <- _]; eauto |].
    specialize (Hth p). rewrite Hp in Hth. split; [exact Hth |]. intros Ht. unfold in_time in Hin. rewrite Ht in Hin. cbn in Hin. lia.
  - by destruct (Hnr p now e).
  - eapply inv_thread_read; [done | | | exact Hrun]; [intros ? ? ? H; symmetry; exact (back_reads _ _ _ _ _ _ _ H) |].
    intros a' s e' H. apply back_inv in H as (l & Hl & Ha & Hin); [| done]. cbn. rewrite Ha.
    split; [apply (call_from_same _ _ _ _ Hp); cbn; intros ? ? [= <- _]; eauto |].
    specialize (Hth p). rewrite Hp in Hth. by apply call_ok_read.
  - eapply inv_thread_read; [done | | | exact Hrun]; [intros ? ? ? H; symmetry; exact (forward_reads _ _ _ _ _ _ _ _ H) |].
    intros [[a' cur']|] s e' H; [| done]. specialize (Hth p). rewrite Hp in Hth. cbn in Hth |- *.
    split; [apply (call_from_same _ _ _ _ Hp); cbn; intros ? ? [= <- _]; eauto |].
    apply forward_inv in H as [[Ha ->] | (l & Hl & Ha & Hin)]; [| | done]; rewrite Ha.
    + split; [done |]. split; [by left | done].
    + by apply call_ok_read.
  - by apply inv_set_thr.
Qed.

(** *** A reply *)

Lemma set_proxy_inv p f s q x' :
  proxies (set_proxy p f s) !! q = Some x' → ∃ x, proxies s !! q = Some x ∧ (x' = x ∨ (q = p ∧ x' = f x)).
Proof.
  unfold set_proxy. cbn [proxies set_proxies]. destruct (decide (q = p)) as [-> | Hne].
  - rewrite list_lookup_alter_eq. intros (x & Hx & ->)%fmap_Some. exists x. split; [done |]. by right.
  - rewrite list_lookup_alter_ne by done. intros Hx. exists x'. split; [done |]. by left.
Qed.

Lemma raise_inv p i s q x' :
  proxies (set_proxy p (raise_matchIndex i) s) !! q = Some x' → counts_peer x' = true →
  ∃ x, proxies s !! q = Some x ∧ counts_peer x = true.
Proof. intros (x & Hx & [-> | [_ ->]])%set_proxy_inv Hc; by exists x. Qed.

(** The peer of a call that the call newly marks. *)
Definition newly_marked (g : option VDIR_RAFT_LOG) (a : append_args) (cur : Z) : Prop :=
  ∃ gl, g = Some gl ∧ 0 < index gl ∧
    ((aa_entries a = [] ∧ cur = index gl) ∨
     (aa_entries a ≠ [] ∧ ∀ l, log_ok l → aa_entries a = entry_bytes l → index l = index gl)).

(** The frame of a reply. *)
Definition reply_frame (g : option VDIR_RAFT_LOG) (p : nat) (a : append_args) (cur st : Z) (s s' : raft_state) : Prop :=
  currentTerm s <= currentTerm s' ∧ (logs s' = logs s ∧ lastLogIndex s' = lastLogIndex s) ∧
  (role s' = VDIR_RAFT_ROLE_LEADER → role s = VDIR_RAFT_ROLE_LEADER ∧ currentTerm s' = currentTerm s) ∧
  ∀ q x', proxies s' !! q = Some x' → counts_peer x' = true →
    (∃ x, proxies s !! q = Some x ∧ counts_peer x = true) ∨ (q = p ∧ st = 0 ∧ newly_marked g a cur).

Lemma reply_frame_same g p a cur st s : reply_frame g p a cur st s s.
Proof. split; [lia |]. split; [done |]. split; [done |]. intros q x' Hx Hc. left. eauto. Qed.

Lemma confirm_frame c g p start a cur s e r s' e' :
  append_confirm c g p start a cur s e = Some (r, s', e') → reply_frame g p a cur 0 s s'.
Proof.
  unfold append_confirm. intros [(cur' & s1 & e1 & Hcur & Hrun) | (err & Hcur & _)]%bind_inv.
  2: { replace s' with s; [apply reply_frame_same |]. revert Hcur. 
       match goal with |- ?m s e = _ → _ => assert (keeps eq m) as Hk by (destruct (aa_entries a); solve_keeps) end. apply Hk. }
  assert (s1 = s ∧ ((aa_entries a = [] ∧ cur' = cur) ∨
            (aa_entries a ≠ [] ∧ ∀ l, log_ok l → aa_entries a = entry_bytes l → index l = cur'))) as [-> Hc'].
  { destruct (aa_entries a) as [|b bs] eqn:Ha; [injection Hcur as <- <- <-; split; [done | by left] |].
    step Hcur as es Hes. apply copy_inv in Hes as (-> & _ & ->). step Hcur as l1 Hl1. injection Hcur as <- <- <-.
    split; [symmetry; exact (keeps_unpack eq _ _ _ _ _ _ Hl1) |]. right. split; [done |]. intros l Hl Hb.
    apply (unpack_inv l) in Hl1 as (_ & Hx & _); [done | done |]. cbn [packRaftLog]. by rewrite Hb. }
  unfold rbind at 1, rset at 1 in Hrun. unfold rbind at 1, rset at 1 in Hrun.
  set (s2 := set_proxy p (raise_matchIndex (aa_preLogIndex a)) (set_proxy p (raise_matchIndex cur') s)) in Hrun.
  assert (∀ q x', proxies s2 !! q = Some x' → counts_peer x' = true → ∃ x, proxies s !! q = Some x ∧ counts_peer x = true) as Hs2.
  { intros q x' Hx Hc. destruct (raise_inv _ _ _ _ _ Hx Hc) as (x & Hx1 & Hc1). by eapply raise_inv. }
  assert (s' = s2 → reply_frame g p a cur 0 s s') as Hplain.
  { intros ->. split; [cbn; lia |]. split; [done |]. split; [done |]. intros q x' Hx Hc. left. by eapply Hs2. }
  destruct (bool_decide (c = ExecAppendEntries)).
  2: { destruct (_ =? start); apply run_eq in Hrun as (_ & <- & _); by apply Hplain. }
  destruct g as [gl|]; [| apply run_eq in Hrun as (_ & <- & _); by apply Hplain].
  destruct (Z.gtb_spec cur' 0) as [Hpos |]; [| apply run_eq in Hrun as (_ & <- & _); by apply Hplain].
  destruct (Z.eqb_spec cur' (index gl)) as [Heq |]; [| apply run_eq in Hrun as (_ & <- & _); by apply Hplain].
  cbn [andb] in Hrun. unfold rbind, rset in Hrun. apply run_eq in Hrun as (_ & <- & _).
  split; [cbn; lia |]. split; [done |]. split; [done |]. intros q x' Hx Hc.
  apply set_proxy_inv in Hx as (x & Hx & [-> | [-> _]]); [left; by eapply Hs2 |]. right. split; [done |]. split; [done |].
  exists gl. split; [done |]. split; [lia |]. destruct Hc' as [[? ->] | [Hne Hl]]; [by left |]. right. split; [done |]. intros l Hlok Ha.
  rewrite (Hl l Hlok Ha). done.
Qed.

Lemma receive_reply_frame now c g p start a cur rt st s e r s' e' :
  append_receive now c g p start a cur rt st s e = Some (r, s', e') → reply_frame g p a cur st s s'.
Proof.
  unfold append_receive. intros [(s0 & s1 & e1 & H0 & Hrun) | (err & [=] & _)]%bind_inv. injection H0 as <- <- <-.
  destruct (Z.gtb_spec rt (currentTerm s)) as [Hgt |].
  { apply bind_inv in Hrun as [(u & s2 & e2 & H2 & Hrun) | (err & [=] & _)]. apply run_eq in H2 as (_ & <- & <-).
    set (s3 := set_currentTerm rt _) in Hrun.
    assert ((logs s' = logs s3 ∧ lastLogIndex s' = lastLogIndex s3) ∧ currentTerm s' = currentTerm s3 ∧ role s' = role s3 ∧ proxies s' = proxies s3) as (Hl & Hc & Hro & Hp).
    { match type of Hrun with ?m s3 e = _ => assert (keeps (λ s s', (logs s' = logs s ∧ lastLogIndex s' = lastLogIndex s) ∧ currentTerm s' = currentTerm s ∧
        role s' = role s ∧ proxies s' = proxies s) m) as Hk end; [| exact (Hk _ _ _ _ _ Hrun)].
      assert (PreOrder (λ s s' : raft_state, (logs s' = logs s ∧ lastLogIndex s' = lastLogIndex s) ∧ currentTerm s' = currentTerm s ∧
        role s' = role s ∧ proxies s' = proxies s)).
      { split; [done |]. intros x1 x2 x3 ((? & ?) & ? & ? & ?) ((? & ?) & ? & ? & ?). split; [split; congruence |]. split; [congruence |]. split; congruence. }
      unfold VmDirPersistTerm. solve_keeps; done. }
    unfold s3 in *. cbn in Hl, Hc, Hro, Hp. split; [lia |]. split; [done |]. split; [by rewrite Hro |].
    intros q x' Hx Hcc. rewrite Hp in Hx. left. eauto. }
  case_bool_decide; [apply run_eq in Hrun as (_ & <- & _); apply reply_frame_same |].
  destruct (Z.eqb_spec st 0) as [-> |]; cbn [negb] in Hrun; [by eapply confirm_frame |].
  apply run_eq in Hrun as (_ & <- & _). apply reply_frame_same.
Qed.

Lemma receive_inv ev y y' p now e :
  timely = true → sys_inv y → ev = SvReceive p now e → thread_event ev y y' → sys_inv y'.
Proof.
  intros Htim Hinv -> Hstep. pose proof Hinv as [Hst Hen Hge Hwa Hfl Hqu Hth Hco].
  inversion Hstep as [| | | ? ? ? ? ? t0 c start a cur rt st Hp Hin Hrun | | |]; subst; clear Hstep.
  unfold in_time in Hin. rewrite Htim in Hin. cbn in Hin. apply Z.eqb_eq in Hin.
  unfold thread_step in Hrun. pose proof (Hth p) as Hok. rewrite Hp in Hok. destruct Hok as ((Ht0 & Hcar & Hz) & Hterm & Hrep).
  destruct (append_receive now c (the_entry (me y)) p start a cur rt st (raft (me y)) e) as [[[r s'] e']|] eqn:Hrcv; [| done].
  pose proof (receive_reply_frame _ _ _ _ _ _ _ _ _ _ _ _ _ _ Hrcv) as (Hle & [Hlogs Hlast] & Hrole & Hflags).
  assert (sys_inv (set_me (set_raft (λ _, s') (me y)) y)) as Hinv'.
  { apply inv_server; [done | by apply grows_same | by rewrite Hlogs | by intros _ |].
    intros q x' Hx Hc. destruct (Hflags q x' Hx Hc) as [Hold | (-> & -> & gl & Hg & Hpos & Hcur)]; [by left |]. right. intros Hct.
    unfold the_entry in Hg. destruct (gEntries (me y)); [| done]. injection Hg as <-.
    destruct (Hen (Hge eq_refl)) as (l & Hgl & Hl & Hi & Htl & Hlead & Hinl). rewrite Hgl in *.
    change (index (packed l)) with (index l) in *. change (term (packed l)) with (term l) in *.
    destruct Hcar as [Hnil | (l1 & Hl1 & Ha & Hin1)].
    { exfalso. destruct Hcur as [[_ Hc0] | [Hne _]]; [rewrite (Hz Hnil) in Hc0; lia | done]. }
    assert (index l1 = index l) as Hidx.
    { destruct Hcur as [[Hnil _] | Hcur]; [rewrite Ha in Hnil; by apply entry_not_nil in Hnil | by apply Hcur]. }
    assert (currentTerm (raft (me y)) = term l) as Hcl by lia.
    specialize (Hin1 Hin). destruct (Hinl Hcl) as [Hbl _]. unfold present in Hin1. rewrite Hidx, Hbl in Hin1.
    destruct Hin1 as [[= Hbytes] | [[=] _]].
    destruct (Hrep eq_refl l Hl ltac:(congruence)) as (F & HF & HFm).
    exists F. split; [done |]. change (term (packed l)) with (term l). by rewrite <- Hcl, Hin, <- (Hterm Htim). }
  destruct r as [err | n]; injection Hrun as <-; (apply inv_set_thr; [done | |]); [done | done | |].
  - eapply call_from_same; [exact Hp |]. destruct n as [[] ?]; cbn; intros ? ? [=]; subst; eauto.
  - destruct n as [[] ?]; cbn; try done; lia.
Qed.

(** *** The committing thread *)

Lemma counted_elem i ps q : q ∈ counted i ps ↔ (i <= q)%nat ∧ ∃ x, ps !! (q - i)%nat = Some x ∧ counts_peer x = true.
Proof.
  revert i. induction ps as [|x ps IH]; intros i; cbn [counted].
  { split; [by intros ?%elem_of_nil | intros (_ & x & [=] & _)]. }
  assert (∀ (P : Prop), ((i <= q)%nat ∧ ∃ x0, (x :: ps) !! (q - i)%nat = Some x0 ∧ counts_peer x0 = true) ↔
    (q = i ∧ counts_peer x = true) ∨ ((S i <= q)%nat ∧ ∃ x0, ps !! (q - S i)%nat = Some x0 ∧ counts_peer x0 = true)) as Hsplit.
  { intros _. split.
    - intros [Hle (x0 & Hx & Hc)]. destruct (decide (q = i)) as [-> | Hne].
      + rewrite Nat.sub_diag in Hx. injection Hx as <-. by left.
      + right. split; [lia |]. exists x0. split; [| done]. by replace (q - i)%nat with (S (q - S i)) in Hx by lia.
    - intros [[-> Hc] | [Hle (x0 & Hx & Hc)]].
      + split; [lia |]. exists x. by rewrite Nat.sub_diag.
      + split; [lia |]. exists x0. split; [| done]. by replace (q - i)%nat with (S (q - S i)) by lia. }
  rewrite (Hsplit True). destruct (counts_peer x).
  - rewrite elem_of_cons, IH. tauto.
  - rewrite IH. intuition congruence.
Qed.

Lemma counted_NoDup i ps : NoDup (counted i ps).
Proof.
  revert i. induction ps as [|x ps IH]; intros i; cbn [counted]; [constructor |]. destruct (counts_peer x); [| done].
  constructor; [| done]. rewrite counted_elem. lia.
Qed.

Lemma counted_length i ps :
  length (counted i ps) = length (filter (λ p, bLogReplicated p = true) (filter (λ p, isDeleted p = false) ps)).
Proof.
  revert i. induction ps as [|x ps IH]; intros i; cbn [counted]; [done |]. unfold counts_peer.
  rewrite filter_cons. destruct (isDeleted x); cbn [negb andb].
  - rewrite decide_False by done. apply IH.
  - rewrite decide_True, filter_cons by done. destruct (bLogReplicated x).
    + rewrite decide_True by done. cbn. by rewrite IH.
    + rewrite decide_False by done. apply IH.
Qed.

Lemma consensus_count s : _VmDirGetAppendEntriesConsensusCountInLock s = 1 + Z.of_nat (length (counted 0 (proxies s))).
Proof. unfold _VmDirGetAppendEntriesConsensusCountInLock, live_peers. by rewrite (counted_length 0). Qed.

Lemma cleared_flags s q x :
  proxies (_VmDirClearProxyLogReplicatedInLock s) !! q = Some x → counts_peer x = false.
Proof.
  unfold _VmDirClearProxyLogReplicatedInLock. cbn [proxies set_proxies]. intros (x0 & -> & _)%list_lookup_fmap_Some.
  unfold counts_peer. by destruct (isDeleted x0) eqn:E; [rewrite E |].
Qed.

(** The state a step of [VmDirRaftPrepareCommit] leaves. *)
Definition commit_frame (c c' : commit_state) (pc : commit_pc) : Prop :=
  let s := raft c in let s' := raft c' in
  (logs s' = logs s ∧
   (lastLogIndex s' = lastLogIndex s ∨ (index (gLogEntry c) ≠ 0 ∧ lastLogIndex s' = index (gLogEntry c)))) ∧
  currentTerm s' = currentTerm s ∧
  (role s' = VDIR_RAFT_ROLE_LEADER → role s = VDIR_RAFT_ROLE_LEADER) ∧
  match pc with
  | Returned _ _ => gLogEntry c' = ZERO_LOG ∧ gEntries c' = false ∧ proxies s' = proxies s
  | PeersWait _ => gLogEntry c' = gLogEntry c ∧ gEntries c' = gEntries c ∧ proxies s' = proxies s
  | ConsensusWait _ => gLogEntry c' = gLogEntry c ∧ gEntries c' = true ∧
      ∀ q x, proxies s' !! q = Some x → counts_peer x = false
  end.

Definition frames (m : RM commit_state commit_pc) (c : commit_state) : Prop :=
  ∀ e r c' e', m c e = Some (r, c', e') → ∃ pc, r = inr pc ∧ commit_frame c c' pc.

Lemma frames_error err c : frames (prepare_error err) c.
Proof. intros e r c' e'. rewrite prepare_error_run. intros [= <- <- <-]. eexists. split; [done |]. split; [split; [done | by left] |]; by repeat split. Qed.
Lemma frames_give_up err c : frames (prepare_give_up err) c.
Proof. intros e r c' e'. rewrite prepare_give_up_run. intros [= <- <- <-]. eexists. split; [done |]. split; [split; [done | by left] |]; by repeat split. Qed.
Lemma frames_done c : frames raft_commit_done c.
Proof.
  intros e r c' e'. rewrite raft_commit_done_run. cbv zeta.
  assert (∀ l s, logs (committed l s) = logs s ∧ currentTerm (committed l s) = currentTerm s ∧ role (committed l s) = role s ∧
    proxies (committed l s) = proxies s ∧
    (lastLogIndex (committed l s) = lastLogIndex s ∨ (index l ≠ 0 ∧ lastLogIndex (committed l s) = index l))) as Hc.
  { intros l s. unfold committed. destruct (Z.gtb_spec (index l) 0), (requestCode l =? RAFT_NOOP);
      (do 4 (split; [done |])); first [by left | right; split; [lia | done]]. }
  destruct (Hc (gLogEntry c) (raft c)) as (H1 & H2 & H3 & H4 & H5).
  destruct (index (gLogEntry c) >? 0); [destruct (default 0 (head e) =? 0) |]; intros (<- & <- & _)%run_eq;
    (eexists; split; [done |]); unfold commit_frame; cbn [raft gLogEntry gEntries]; by rewrite H1, H2, H3, H4.
Qed.
Lemma frames_request retry c : frames (consensus_request retry) c.
Proof.
  intros e r c' e'. rewrite consensus_request_run. intros (<- & <- & _)%run_eq. eexists. split; [done |].
  unfold commit_frame. cbn [raft gLogEntry gEntries]. split; [split; [done | by left] |]. do 2 (split; [done |]). split; [done |]. split; [done |].
  intros q x. apply cleared_flags.
Qed.
Lemma frames_begin sh retry c : frames (get_consensus_begin sh retry) c.
Proof.
  intros e r c' e'. unfold get_consensus_begin. unfold rbind at 1, rget at 1.
  destruct (not_leader sh (raft c)); [apply frames_error |]. destruct (_ <? _); [| apply frames_request].
  destruct (_ >=? _); [apply frames_give_up |]. intros (<- & <- & _)%run_eq. eexists. split; [done |]. split; [split; [done | by left] |]; by repeat split.
Qed.
Lemma frames_wake o sh pc c : waiting pc → frames (prepare_wake o sh pc) c.
Proof.
  destruct pc as [r | r | ? ?]; intros Hw; [| | done]; cbn [prepare_wake].
  - unfold peers_wake. destruct (o =? ETIMEDOUT); [apply frames_begin |]. destruct (negb _); [apply frames_give_up |].
    intros e r' c' e'. unfold rbind at 1, rget at 1. destruct (not_leader sh (raft c)); [apply frames_error | apply frames_request].
  - intros e r' c' e'. unfold consensus_wake. unfold rbind at 1, rget at 1.
    destruct (_ || _); [apply frames_error |]. destruct (_ <? _); [| apply frames_done].
    destruct (_ >=? _); [apply frames_give_up | apply frames_begin].
Qed.
Lemma frames_prepare key sh c : frames (VmDirRaftPrepareCommit key sh) c.
Proof.
  intros e r c' e'. unfold VmDirRaftPrepareCommit. unfold rbind at 1, rget at 1.
  destruct (index (gLogEntry c) =? 0); [apply frames_done |].
  unfold rbind at 1, _VmDirGetRaftQuorumOverride. unfold rbind at 1, rget at 1.
  destruct (negb false && negb (gQuorumOverride c)).
  - unfold rret at 1. destruct (_ || _); [apply frames_done | apply frames_begin].
  - unfold rbind, rset, rret. cbn [fst snd]. intros Hrun.
    assert (frames (if key || (clusterSize (raft c) <? 2) then raft_commit_done else get_consensus_begin sh 0)
              (set_gQuorumOverride key c)) as Hd by (destruct (key || _); [apply frames_done | apply frames_begin]).
    destruct (Hd _ _ _ _ Hrun) as (pc & -> & Hf). exists pc. split; [done |]. by destruct pc.
Qed.

(** A success of the wait is a counted majority. *)
Definition never_ok (m : RM commit_state commit_pc) (c : commit_state) : Prop :=
  ∀ e ctx c' e', m c e ≠ Some (inr (Returned ERROR_SUCCESS ctx), c', e').

Lemma never_ok_error err c : err ≠ ERROR_SUCCESS → never_ok (prepare_error err) c.
Proof. intros Herr e ctx c' e'. rewrite prepare_error_run. by intros [=]. Qed.
Lemma never_ok_give_up err c : err ≠ ERROR_SUCCESS → never_ok (prepare_give_up err) c.
Proof. intros Herr e ctx c' e'. rewrite prepare_give_up_run. by intros [=]. Qed.
Lemma never_ok_request r c : never_ok (consensus_request r) c.
Proof. intros e ctx c' e'. by rewrite consensus_request_run. Qed.
Lemma never_ok_begin sh r c : never_ok (get_consensus_begin sh r) c.
Proof.
  intros e ctx c' e'. unfold get_consensus_begin. unfold rbind at 1, rget at 1.
  destruct (not_leader sh (raft c)); [by apply never_ok_error |]. destruct (_ <? _); [| apply never_ok_request].
  destruct (_ >=? _); [by apply never_ok_give_up | done].
Qed.

Lemma wake_ok o sh pc c e ctx c' e' :
  waiting pc → prepare_wake o sh pc c e = Some (inr (Returned ERROR_SUCCESS ctx), c', e') →
  consensus_wait pc ∧ has_consensus (gLogEntry c) (raft c).
Proof.
  destruct pc as [r | r | ? ?]; intros Hw; [| | done]; cbn [prepare_wake].
  - intros Hrun. exfalso. revert Hrun. unfold peers_wake. destruct (o =? ETIMEDOUT); [apply never_ok_begin |].
    destruct (negb _); [by apply never_ok_give_up |]. unfold rbind at 1, rget at 1.
    destruct (not_leader sh (raft c)); [by apply never_ok_error | apply never_ok_request].
  - unfold consensus_wake. unfold rbind at 1, rget at 1. intros Hrun.
    destruct (not_leader sh (raft c)) eqn:Hnl; [by apply never_ok_error in Hrun |].
    destruct (Z.eqb_spec (currentTerm (raft c)) (term (gLogEntry c))) as [Ht |]; [| by apply never_ok_error in Hrun].
    cbn [orb negb] in Hrun. destruct (Z.ltb_spec (_VmDirGetAppendEntriesConsensusCountInLock (raft c)) (majority (raft c))).
    + destruct (_ >=? _); [by apply never_ok_give_up in Hrun | by apply never_ok_begin in Hrun].
    + split; [done |]. apply not_leader_spec in Hnl as [Hr _]. done.
Qed.

Lemma prepare_waiting key sh c e pc c' e' :
  VmDirRaftPrepareCommit key sh c e = Some (inr pc, c', e') → waiting pc → index (gLogEntry c) ≠ 0.
Proof.
  unfold VmDirRaftPrepareCommit. unfold rbind at 1, rget at 1. destruct (Z.eqb_spec (index (gLogEntry c)) 0) as [H0 |]; [| done].
  rewrite raft_commit_done_run. cbv zeta. rewrite H0. cbn. intros (Hpc & _)%run_eq. apply (inj inr) in Hpc as <-. done.
Qed.

(** The server after a step of the committing thread. *)
Lemma inv_commit y pc c' :
  sys_inv y → commit_frame (me y) c' pc → (waiting pc → index (gLogEntry (me y)) ≠ 0) → sys_inv (set_committing pc (set_me c' y)).
Proof.
  intros [Hst Hen Hge Hwa Hfl Hqu Hth Hco] ([Hlogs Hlast] & Hct & Hrole & Hpc) Hwait.
  assert (index (gLogEntry (me y)) ≠ 0 → term (gLogEntry (me y)) = currentTerm (raft (me y)) →
    lastLogIndex (raft c') = lastLogIndex (raft (me y))) as Hsame.
  { intros Hi Ht. destruct Hlast as [-> | [_ ->]]; [done |]. destruct (Hen Hi) as (l & Hg & _ & _ & _ & _ & Hin).
    rewrite Hg in Ht |- *. symmetry. apply Hin. by symmetry. }
  assert (grows (in_use y) (raft (me y)) (raft c')) as Hg.
  { split; [lia |]. split; [by rewrite Hlogs |]. intros _ i b (p & l & _ & _ & Hc). unfold present. rewrite Hlogs.
    assert (lastLogIndex (raft c') = lastLogIndex (raft (me y))) as ->; [| done].
    destruct Hlast as [-> | [Hi Hl]]; [done |]. apply Hsame; [done |].
    destruct (decide (term (gLogEntry (me y)) = currentTerm (raft (me y)))) as [| Hne]; [done |].
    destruct (Hqu Hi (not_eq_sym Hne) _ _ _ Hc eq_refl). }
  assert (gLogEntry c' = gLogEntry (me y) ∨ gLogEntry c' = ZERO_LOG ∧ gEntries c' = false) as Hgl.
  { destruct pc; [left; apply Hpc | left; apply Hpc | right; split; apply Hpc]. }
  constructor; cbn [me committing thr hist commits set_committing set_me].
  - by rewrite Hlogs.
  - destruct Hgl as [-> | [-> _]]; [| by cbn]. intros Hi. apply (txn_entry_grows (raft (me y))); [lia | | | by apply Hen].
    + intros _ Ht. rewrite Hlogs. split; [done | by apply Hsame].
    + intros Hr. by split; [apply Hrole |].
  - destruct Hgl as [-> | [_ ->]]; [| done]. destruct pc; cbn in Hpc.
    + destruct Hpc as (_ & -> & _). done.
    + intros _. by apply Hwait.
    + destruct Hpc as (_ & -> & _). done.
  - intros Hw. destruct pc; cbn in Hpc, Hw; [| | done]; destruct Hpc as (-> & _); by apply Hwait.
  - intros Hw _ q x Hx Hc. cbn in Hw, Hx. destruct pc; [done | | done]. destruct Hpc as (_ & _ & Hnone).
    by rewrite (Hnone _ _ Hx) in Hc.
  - unfold quiet. cbn [me thr set_committing set_me]. rewrite Hct. destruct Hgl as [-> | [-> _]]; [exact Hqu | by cbn].
  - intros p. eapply thr_ok_mono; [exact Hg | by apply uses_in_use | done | apply Hth].
  - done.
Qed.

Lemma append_entry_run l c e c' e' :
  (on_raft (VmDirAddRaftEntry (packed l)) ;;; rset (set_gLogEntry (packed l))) c e = Some (inr tt, c', e') →
  logs (raft c) !! index l = None ∧ c' = set_gLogEntry (packed l) (set_raft (stored l) c).
Proof.
  intros Hrun. step Hrun as u Hadd. unfold on_raft in Hadd.
  destruct (VmDirAddRaftEntry (packed l) (raft c) e) as [[[r s] e1]|] eqn:Hr; [| done].
  apply run_eq in Hadd as (-> & <- & <-). apply run_eq in Hrun as (_ & <- & _).
  unfold VmDirAddRaftEntry in Hr. step Hr as u1 Hb. apply backend_inv in Hb as ->. step Hr as s0 H0. injection H0 as <- <- <-.
  change (index (packed l)) with (index l) in Hr. destruct (logs (raft c) !! index l); [done |]. split; [done |].
  cbn [packRaftLog packed] in Hr. step Hr as u2 Hb2. apply backend_inv in Hb2 as ->. unfold rbind, rset in Hr.
  apply run_eq in Hr as (_ & <- & _). cbn [lberbv_len lberbv_val]. by rewrite Nat2Z.id, firstn_all.
Qed.

Lemma commit_inv ev y y' : sys_inv y → commit_step ev y y' → sys_inv y'.
Proof.
  intros Hinv Hstep. destruct Hstep as [l e y c' e' Hno (Hl & Hi & Hnew & Ht & Hlead) Hcalls Hrun | key sh e y pc c' e' err ctx Hpc Hrun
    | o sh e y pc c' e' Hw Hrun y'].
  - apply append_entry_run in Hrun as [Hnone ->]. pose proof Hinv as [Hst Hen Hge Hwa Hfl Hqu Hth Hco].
    assert (grows (in_use y) (raft (me y)) (stored l (raft (me y)))) as Hg.
    { split; [cbn; lia |]. split.
      - cbn. intros i b [[<- <-] | [_ Hb]]%lookup_insert_Some; [by exists l | by apply Hst].
      - intros _ i b _ [Hb | [Hb Hle]].
        + left. cbn. rewrite lookup_insert_ne; [done |]. congruence.
        + right. cbn. rewrite lookup_insert_ne by lia. split; [done | lia]. }
    assert (¬ waiting (committing y)) as Hnw by (intros Hw; apply Hno; right; by destruct (committing y)).
    constructor; cbn [me committing thr hist commits set_me raft gLogEntry gEntries set_gLogEntry set_raft].
    + apply Hg.
    + intros _. exists l. do 3 (split; [done |]). split; [done |]. split; [done |]. intros _. cbn. split; [apply lookup_insert_eq | done].
    + intros _. change (index (packed l)) with (index l). lia.
    + done.
    + intros Hw. exfalso. apply Hnw. cbn in Hw. by destruct (committing y).
    + intros _ Hne. destruct Hcalls as [Hc | Hq]; [by destruct (Hne Hc) | exact Hq].
    + intros p. eapply thr_ok_mono; [exact Hg | by apply uses_in_use | done | apply Hth].
    + done.
  - destruct (frames_prepare key sh (me y) _ _ _ _ Hrun) as (pc' & [= <-] & Hf). apply inv_commit; [done | done |].
    intros Hw. by eapply prepare_waiting.
  - destruct (frames_wake o sh (committing y) (me y) Hw _ _ _ _ Hrun) as (pc' & [= <-] & Hf).
    pose proof Hinv as [Hst Hen Hge Hwa Hfl Hqu Hth Hco].
    assert (sys_inv y') as Hinv' by (apply inv_commit; [done | done | by intros _; apply Hwa]).
    destruct pc as [? | ? | [] ctx]; try done. apply wake_ok in Hrun as [Hcw (_ & Hterm & Hmaj)]; [| done].
    destruct Hinv' as [Hst' Hen' Hge' Hwa' Hfl' Hqu' Hth' Hco']. constructor; try done. constructor; [| done].
    split; [apply counted_NoDup |]. cbn [cr_peers cr_clusterSize cr_entry]. split.
    + rewrite consensus_count in Hmaj. unfold majority in Hmaj. lia.
    + intros q (_ & x & Hx & Hc)%counted_elem. rewrite Nat.sub_0_r in Hx. by apply (Hfl Hcw Hterm q x).
Qed.

(** *** The peers *)

Lemma fupd_sub p F (h : nat → list raft_state) q : h q ⊆ fupd p (F :: h p) h q.
Proof. unfold fupd. case_decide as Hq; [subst; set_solver | done]. Qed.

Lemma inv_add_hist y p F : sys_inv y → sys_inv (add_hist p F y).
Proof.
  intros [Hst Hen Hge Hwa Hfl Hqu Hth Hco]. constructor; try done.
  - intros Hw Ht q x Hx Hc. eapply had_entry_mono; [apply fupd_sub | by apply (Hfl Hw Ht q x)].
  - intros q. eapply thr_ok_mono; [| by apply uses_in_use | apply fupd_sub | apply Hth]. by apply grows_same.
  - eapply Forall_impl; [exact Hco |]. intros r (Hnd & Hlen & Hhad). split; [done |]. split; [done |].
    intros q Hq. eapply had_entry_mono; [apply fupd_sub | by apply Hhad].
Qed.

Lemma peer_inv ev y y' : sys_inv y → peer_event ev y y' → sys_inv y'.
Proof.
  intros Hinv Hstep. destruct Hstep as [p now ldr e y t0 c start a cur F hs r F' e' Hp Hh Hrun | s y (Hle & Hst & Hlogs & Hfl & Hrole) | p F y].
  - apply inv_set_thr; [by apply inv_add_hist | |].
    { apply (call_from_same _ _ (RpcSent t0 c start a cur)); [done |]. case_bool_decide; cbn; intros ? ? [=]; subst; eauto. }
    case_bool_decide as Herr; [| done].
    pose proof (inv_threads y Hinv p) as Hok. rewrite Hp in Hok. destruct Hok as [Hcall Hterm].
    split; [done |]. split; [done |]. intros Hst l Hl Ha. rewrite Ha, wire_entry in Hrun.
    destruct r as [err rt st]. cbn in Herr, Hst. subst err st.
    pose proof (append_success_stored _ _ _ _ _ _ _ _ _ _ _ _ _ Hl Hrun) as HF.
    exists F'. split; [| done]. cbn. unfold fupd. rewrite decide_True by done. left.
  - apply inv_server; [done | | | done |].
    + split; [done |]. split; [done |]. intros He. by apply Hlogs.
    + intros He. by apply Hlogs.
    + intros q x' Hx Hc. left. by apply Hfl with (x' := x').
  - by apply inv_add_hist.
Qed.

Lemma sys_step_inv ev y y' : timely = true → sys_inv y → sys_step ev y y' → sys_inv y'.
Proof.
  intros Htim Hinv Hstep. inversion Hstep as [? ? ? H | ? ? ? H | ? ? ? H]; subst.
  - by eapply commit_inv.
  - destruct ev; try (by eapply thread_inv_reads). by eapply receive_inv.
  - by eapply peer_inv.
Qed.

Lemma sys_run_inv evs y y' : timely = true → sys_inv y → sys_run evs y y' → sys_inv y'.
Proof. intros Htim Hinv Hrun. induction Hrun as [| ev evs y y1 y2 H1 _ IH]; [done |]. apply IH. by eapply sys_step_inv. Qed.

(** No transaction, no call, and nothing committed yet. *)
Definition sys_start (y : system) : Prop :=
  store_ok (logs (raft (me y))) ∧ gLogEntry (me y) = ZERO_LOG ∧ gEntries (me y) = false ∧ ¬ waiting (committing y) ∧
  (∀ p, thr y p = RpcIdle) ∧ commits y = [].

Lemma sys_start_inv y : sys_start y → sys_inv y.
Proof.
  intros (Hst & Hg & Hge & Hw & Hth & Hco). constructor.
  - done.
  - by rewrite Hg.
  - by rewrite Hge.
  - intros H. done.
  - intros Hc. exfalso. apply Hw. by destruct (committing y).
  - by rewrite Hg.
  - intros p. by rewrite Hth.
  - by rewrite Hco.
Qed.

(** C3: Commits have a majority behind them.  The committing thread, the peer
    threads and the handlers of the peers interleave in any way, calls and
    replies may be lost, allocations and backend calls may fail, and other
    threads change the server between any two steps: roles and terms at any
    moment, the log freely with a new term.  Within a term they do not replace
    an entry that a call of this term carries (compaction may remove it) and
    leave the entry of the open transaction the last one; they do not mark peers
    as having replicated, and the server does not become the leader while a
    transaction is open.  A call to a peer does not outlive the term of the
    leader ([timely]; the code does not check it, [raft_stale_reply_counts]).
    Then for every entry committed by consensus there are distinct peers, with
    this server more than half of the cluster, each of which has had exactly
    this entry in its log while it was in the term of the entry, or had an empty
    log: such a peer answers success without storing anything, and is counted. *)
Theorem raft_commit_quorum evs y y' r :
  timely = true → sys_start y → sys_run evs y y' → r ∈ commits y' →
  NoDup (cr_peers r) ∧ cr_clusterSize r `quot` 2 + 1 <= 1 + Z.of_nat (length (cr_peers r)) ∧
  ∀ q, q ∈ cr_peers r →
    ∃ F, F ∈ hist y' q ∧
      ((currentTerm F = term (cr_entry r) ∧ logs F !! index (cr_entry r) = Some (packed_bytes (cr_entry r))) ∨
       (lastLogIndex F = 0 ∧ term (cr_entry r) <= currentTerm F)).
Proof.
  intros Htim Hstart Hrun Hr. pose proof (sys_run_inv _ _ _ Htim (sys_start_inv y Hstart) Hrun) as Hinv.
  pose proof (inv_commits y' Hinv) as Hco. rewrite Forall_forall in Hco. destruct (Hco r Hr) as (Hnd & Hlen & Hhad).
  split; [done |]. split; [lia | done].
Qed.

End System.

(** ** Executing events *)

#[export] Instance store_guard_dec l s : Decision (store_guard l s).
Proof. unfold store_guard, log_ok, is_u64, is_u32. apply _. Defined.

Section Exec.
Context (compare : cstr → cstr → bool → Z) (timely : bool).

Definition sys_exec (ev : sys_event) (y : system) : option system :=
  match ev with
  | SvStore l e =>
      if decide (¬ open_txn y ∧ store_guard l (raft (me y)) ∧ currentTerm (raft (me y)) = term l) then
        match (on_raft (VmDirAddRaftEntry (packed l)) ;;; rset (set_gLogEntry (packed l))) (me y) e with
        | Some (inr tt, c', _) => Some (set_me c' y)
        | _ => None
        end
      else None
  | SvPrepare key sh e =>
      match committing y, VmDirRaftPrepareCommit key sh (me y) e with
      | Returned _ _, Some (inr pc, c', _) => Some (set_committing pc (set_me c' y))
      | _, _ => None
      end
  | SvWake o sh e =>
      match committing y with
      | Returned _ _ => None
      | pc =>
          match prepare_wake o sh pc (me y) e with
          | Some (inr pc, c', _) =>
              let y' := set_committing pc (set_me c' y) in
              Some (match pc with
                    | Returned ERROR_SUCCESS _ =>
                        add_commit (COMMITTED (gLogEntry (me y)) (clusterSize (raft (me y))) (counted 0 (proxies (raft (me y))))) y'
                    | _ => y'
                    end)
          | _ => None
          end
      end
  | SvChoose p c e =>
      match thr y p with
      | RpcIdle =>
          thread_step p (append_choose c (the_entry (me y)))
            (λ k, match k with Some k => RpcChosen (currentTerm (raft (me y))) c k | None => RpcIdle end) e y
      | _ => None
      end
  | SvPrev p e =>
      match thr y p with
      | RpcChosen t0 c k => thread_step p (append_prev k) (λ a, RpcReady t0 c (ap_start k) a 0) e y
      | _ => None
      end
  | SvSend p e =>
      match thr y p with
      | RpcReady t0 c start a cur =>
          if in_time timely t0 y
          then thread_step p (append_send a) (λ a, match a with Some a => RpcSent t0 c start a cur | None => RpcIdle end) e y
          else None
      | _ => None
      end
  | SvHandle p now ldr e =>
      match thr y p, hist y p with
      | RpcSent t0 c start a cur, F :: _ =>
          match _VmDirAppendEntriesGetReply compare now (aa_term a) ldr (aa_preLogIndex a) (aa_preLogTerm a)
                  (aa_leaderCommit a) (wire_entries (aa_entries a)) F e with
          | Some (inr r, F', _) =>
              Some (set_thr p (if bool_decide (ar_error r = ERROR_SUCCESS)
                               then RpcReplied t0 c start a cur (u32 (s32 (ar_currentTerm r))) (ar_status r) else RpcIdle)
                      (add_hist p F' y))
          | _ => None
          end
      | _, _ => None
      end
  | SvReceive p now e =>
      match thr y p with
      | RpcReplied t0 c start a cur rt st =>
          if in_time timely t0 y then
            thread_step p (append_receive now c (the_entry (me y)) p start a cur rt st)
              (λ n, match n.1 with
                    | AppendDone => RpcIdle
                    | AppendBack => RpcBack t0 c start a n.2 st
                    | AppendForward => RpcForward t0 c start a n.2
                    end) e y
          else None
      | _ => None
      end
  | SvBack p e =>
      match thr y p with
      | RpcBack t0 c start a cur st => thread_step p (append_back a st) (λ a, RpcReady t0 c start a cur) e y
      | _ => None
      end
  | SvForward p e =>
      match thr y p with
      | RpcForward t0 c start a cur =>
          thread_step p (append_forward c start a)
            (λ f, match f with Some (a, cur) => RpcReady t0 c start a cur | None => RpcIdle end) e y
      | _ => None
      end
  | SvLose p => Some (set_thr p RpcIdle y)
  | SvPeer p F => Some (add_hist p F y)
  | SvOther _ => None
  end.

Lemma sys_exec_sound ev y y' : sys_exec ev y = Some y' → sys_step compare timely ev y y'.
Proof.
  destruct ev; cbn [sys_exec]; intros Hx; try done.
  - destruct (decide _) as [(Hno & Hg & Ht) |]; [| done]. destruct ((_ ;;; _) (me y) e) as [[[[|[]] c'] e']|] eqn:Hrun; try done.
    injection Hx as <-. apply sys_commit. eapply step_store; [done | done | by left | done].
  - destruct (committing y) eqn:Hc; try done. destruct (VmDirRaftPrepareCommit key sh (me y) e) as [[[[|pc] c'] e']|] eqn:Hrun; try done.
    injection Hx as <-. apply sys_commit. by eapply step_prepare.
  - destruct (committing y) eqn:Hc; try done;
      (destruct (prepare_wake o sh _ (me y) e) as [[[[|pc] c'] e']|] eqn:Hrun; try done);
      injection Hx as <-; apply sys_commit; (eapply step_wake; [by rewrite Hc | by rewrite Hc]).
  - destruct (thr y p) eqn:Hp; try done. apply sys_thread. by eapply step_choose.
  - destruct (thr y p) eqn:Hp; try done. apply sys_thread. by eapply step_prev.
  - destruct (thr y p) eqn:Hp; try done. destruct (in_time timely t0 y) eqn:Hin; [| done]. apply sys_thread. by eapply step_send.
  - destruct (thr y p) eqn:Hp; try done. destruct (hist y p) as [|F hs] eqn:Hh; [done |].
    destruct (_VmDirAppendEntriesGetReply _ _ _ _ _ _ _ _ _ _) as [[[[|r] F'] e']|] eqn:Hrun; try done.
    injection Hx as <-. apply sys_peer. by eapply step_handle.
  - destruct (thr y p) eqn:Hp; try done. destruct (in_time timely t0 y) eqn:Hin; [| done]. apply sys_thread. by eapply step_receive.
  - destruct (thr y p) eqn:Hp; try done. apply sys_thread. by eapply step_back.
  - destruct (thr y p) eqn:Hp; try done. apply sys_thread. by eapply step_forward.
  - injection Hx as <-. apply sys_thread, step_lose.
  - injection Hx as <-. apply sys_peer, step_peer.
Qed.

Fixpoint sys_exec_all (evs : list sys_event) (y : system) : option system :=
  match evs with
  | [] => Some y
  | ev :: evs => match sys_exec ev y with Some y' => sys_exec_all evs y' | None => None end
  end.

Lemma sys_exec_all_sound evs y y' : sys_exec_all evs y = Some y' → sys_run compare timely evs y y'.
Proof.
  revert y. induction evs as [|ev evs IH]; intros y; cbn [sys_exec_all]; [intros [= ->]; constructor |].
  destruct (sys_exec ev y) as [y1|] eqn:Hx; [| done]. intros Hr. eapply run_cons; [by apply sys_exec_sound | by apply IH].
Qed.

Lemma sys_run_app evs1 evs2 y y1 y2 :
  sys_run compare timely evs1 y y1 → sys_run compare timely evs2 y1 y2 → sys_run compare timely (evs1 ++ evs2) y y2.
Proof. induction 1; cbn [app]; [done |]. intros. eapply run_cons; eauto. Qed.

End Exec.

(** ** Concrete runs *)

(** A server with the entries 1 to 4, in a cluster of three. *)
Definition lead4 (r : VDIR_RAFT_ROLE) (t : Z) : raft_state :=
  RS r ExecNone host_a 3 0 0 0 true 100 4 2 4 1 0 0 2 [] false
     [PROXY false RPC_IDLE host_c false 0; PROXY false RPC_IDLE host_b false 0] 4 t t host_a t 4 1 (log_of 1 [1; 1; 2; 2]).
Definition peer4 (t : Z) : raft_state :=
  RS VDIR_RAFT_ROLE_FOLLOWER ExecNone host_c 3 0 0 0 true 100 4 2 4 1 4 0 2 [] false [] 4 t 0 [] t 4 1 (log_of 1 [1; 1; 2; 2]).

Definition sys_ex : system :=
  SYSTEM (COMMIT (lead4 VDIR_RAFT_ROLE_LEADER 3) ZERO_LOG false false) (Returned ERROR_SUCCESS None)
         (λ _, RpcIdle) (λ _, [peer4 3]) [].

Definition new_entry (t : Z) : VDIR_RAFT_LOG := log_ex 5 t [].

Lemma log_1122_ok : store_ok (log_of 1 [1; 1; 2; 2]).
Proof. apply log_of_ok; [lia | cbn; lia | repeat constructor; unfold is_u32; lia]. Qed.

Lemma sys_ex_start : sys_start sys_ex.
Proof. split; [apply log_1122_ok |]. split; [done |]. split; [done |]. split; [intros [] |]. split; done. Qed.

(** The entry 5 of term 3 is stored, sent to the first peer and committed. *)
Definition quorum_events : list sys_event :=
  [SvStore (new_entry 3) []; SvPrepare false false []; SvChoose 0 ExecAppendEntries []; SvPrev 0 []; SvSend 0 [];
   SvHandle 0 200 host_a []; SvReceive 0 300 []; SvWake 0 false []].

Lemma raft_commit_quorum_witness :
  ∃ y' r, sys_run simple_compare true quorum_events sys_ex y' ∧ r ∈ commits y' ∧ cr_entry r = packed (new_entry 3) ∧
    cr_clusterSize r `quot` 2 + 1 <= 1 + Z.of_nat (length (cr_peers r)) ∧
    ∀ q, q ∈ cr_peers r →
      ∃ F, F ∈ hist y' q ∧
        ((currentTerm F = term (cr_entry r) ∧ logs F !! index (cr_entry r) = Some (packed_bytes (cr_entry r))) ∨
         (lastLogIndex F = 0 ∧ term (cr_entry r) <= currentTerm F)).
Proof.
  destruct (sys_exec_all simple_compare true quorum_events sys_ex) as [y'|] eqn:Hx.
  2: { exfalso. revert Hx. vm_compute. discriminate. }
  assert (commits y' = [COMMITTED (packed (new_entry 3)) 3 [0%nat]]) as Hc.
  { change y' with (default sys_ex (Some y')). rewrite <- Hx. vm_compute. reflexivity. }
  apply sys_exec_all_sound in Hx.
  destruct (raft_commit_quorum simple_compare true quorum_events sys_ex y' (COMMITTED (packed (new_entry 3)) 3 [0%nat]))
    as (_ & Hlen & Hhad).
  - reflexivity.
  - apply sys_ex_start.
  - exact Hx.
  - rewrite Hc. left.
  - exists y', (COMMITTED (packed (new_entry 3)) 3 [0%nat]). split; [exact Hx |]. split; [rewrite Hc; left |].
    split; [reflexivity |]. split; [exact Hlen | exact Hhad].
Defined.

(** *** A reply that outlives its term *)

(** In term 3 the first peer stores the entry 5, and its answer is on the way.
    The server then loses the lead (in term 4 the entry is removed again, on the
    peer, too), gives up the transaction, and leads again in term 6. *)
Definition stale_events1 : list sys_event :=
  [SvStore (new_entry 3) []; SvPrepare false false []; SvChoose 0 ExecAppendEntries []; SvPrev 0 []; SvSend 0 [];
   SvHandle 0 200 host_a []; SvPeer 0 (peer4 4)].
(** The old answer arrives while the entry 5 of term 6 is waiting. *)
Definition stale_events2 : list sys_event :=
  [SvStore (new_entry 6) []; SvPrepare false false []; SvReceive 0 300 []; SvWake 0 false []].

Lemma other_higher y s :
  currentTerm (raft (me y)) < currentTerm s → logs s = log_of 1 [1; 1; 2; 2] →
  Forall (λ x, counts_peer x = false) (proxies s) → (open_txn y → role s ≠ VDIR_RAFT_ROLE_LEADER) → other_ok y s.
Proof.
  intros Ht Hl Hp Hr. split; [lia |]. split; [rewrite Hl; apply log_1122_ok |]. split; [lia |]. split; [| intros Ho Hs; by apply Hr in Ho].
  intros q x Hx Hc. pose proof (Forall_lookup_1 _ _ _ _ Hp Hx) as Hf. cbn in Hf. congruence.
Qed.

(** The system while the transaction of term 3 waits, and after it was given
    up. *)
Definition y1_ex : system := default sys_ex (sys_exec_all simple_compare false stale_events1 sys_ex).
Definition y2_ex : system := set_me (set_raft (λ _, lead4 VDIR_RAFT_ROLE_FOLLOWER 4) (me y1_ex)) y1_ex.
Definition y3_ex : system := default sys_ex (sys_exec simple_compare false (SvWake 0 false []) y2_ex).
Definition y4_ex : system := set_me (set_raft (λ _, lead4 VDIR_RAFT_ROLE_LEADER 6) (me y3_ex)) y3_ex.
Definition y5_ex : system := default sys_ex (sys_exec_all simple_compare false stale_events2 y4_ex).

Lemma exec_default {A} (x : option A) d : (if x is Some _ then true else false) = true → x = Some (default d x).
Proof. by destruct x. Qed.

(** The answer of a peer is counted for the entry that is waiting when it
    arrives, whatever it was an answer to: the term of the call is not compared
    with the current one.  In this run a leader commits an entry of its new
    term with the answer to an entry of the same index from an earlier term,
    while no peer has ever had the committed entry. *)
Theorem raft_stale_reply_counts :
  ∃ evs y' r, sys_run simple_compare false evs sys_ex y' ∧ r ∈ commits y' ∧
    cr_entry r = packed (new_entry 6) ∧ cr_clusterSize r = 3 ∧ cr_peers r = [0%nat] ∧
    ∀ q F, q ∈ [0%nat; 1%nat] → F ∈ hist y' q → logs F !! 5 ≠ Some (entry_bytes (new_entry 6)).
Proof.
  exists (stale_events1 ++ [SvOther (lead4 VDIR_RAFT_ROLE_FOLLOWER 4); SvWake 0 false []; SvOther (lead4 VDIR_RAFT_ROLE_LEADER 6)]
          ++ stale_events2), y5_ex, (COMMITTED (packed (new_entry 6)) 3 [0%nat]).
  split; [| split].
  - eapply sys_run_app; [apply sys_exec_all_sound, (exec_default _ sys_ex); vm_compute; reflexivity |]. fold y1_ex.
    eapply run_cons; [apply sys_peer, step_other, other_higher |].
    { vm_compute. reflexivity. }
    { reflexivity. }
    { repeat constructor. }
    { intros _ [=]. }
    fold y2_ex. eapply run_cons; [apply sys_exec_sound, (exec_default _ sys_ex); vm_compute; reflexivity |]. fold y3_ex.
    eapply run_cons; [apply sys_peer, step_other, other_higher |].
    { vm_compute. reflexivity. }
    { reflexivity. }
    { repeat constructor. }
    { intros Ho _. revert Ho. vm_compute. intros [Hi | []]. by apply Hi. }
    fold y4_ex. apply sys_exec_all_sound, (exec_default _ sys_ex). vm_compute. reflexivity.
  - assert (commits y5_ex = [COMMITTED (packed (new_entry 6)) 3 [0%nat]]) as -> by (vm_compute; reflexivity). left.
  - split; [reflexivity |]. split; [reflexivity |]. split; [reflexivity |]. intros q F Hq HF.
    assert (Forall (λ F : raft_state, bool_decide (logs F !! 5 = Some (entry_bytes (new_entry 6))) = false)
              (hist y5_ex 0 ++ hist y5_ex 1)) as Hall.
    { apply Forall_forall. intros G HG.
      assert (forallb (λ F : raft_state, negb (bool_decide (logs F !! 5 = Some (entry_bytes (new_entry 6)))))
                (hist y5_ex 0 ++ hist y5_ex 1) = true) as Hb by (vm_compute; reflexivity).
      apply forallb_forall with (x := G) in Hb; [by apply negb_true_iff in Hb | by apply list_elem_of_In]. }
    rewrite Forall_forall in Hall. specialize (Hall F). apply bool_decide_eq_false in Hall; [done |]. apply elem_of_app.
    apply elem_of_cons in Hq as [-> | ->%list_elem_of_singleton]; [by left | by right].
Qed.
