(* ===== verification/RaftApply.v ===== *)
(** * RaftApply: applying the log, entry ids

    What follows the commit in [lwraft/server/replication/thread.c]: the
    application of committed entries to the directory ([_VmDirApplyLog] and its
    callers), and the ids of new entries.  The directory is an interface: a
    state and an application of one entry that may fail. *)

From S2P Require Import Prelude Heap StringList CString HashMap Effects RaftLog Raft RaftReplicate RaftCommit.

Open Scope Z_scope.

(** ** Application *)

(** What [_VmDirApplyOneLogEntry] does to the directory within the open
    transaction. *)
Class Directory (DB : Type) := apply_one : VDIR_RAFT_LOG → DB → dwerror + DB.

Section Apply.
Context {DB : Type} `{!Directory DB}.

(** The server and its directory. *)
Record apply_state := APPLY { ap_raft : raft_state; ap_db : DB }.

Definition set_ap_raft (f : raft_state → raft_state) (s : apply_state) : apply_state := APPLY (f (ap_raft s)) (ap_db s).
Definition set_ap_db (d : DB) (s : apply_state) : apply_state := APPLY (ap_raft s) d.

Definition set_ps_lastApplied (x : Z) (s : raft_state) : raft_state :=
  RS (role s) (cmd s) (hostname s) (clusterSize s) (voteConsensusCnt s) (voteDeniedCnt s)
     (voteConsensusTerm s) (initialized s) (lastPingRecvTime s) (commitIndex s)
     (commitIndexTerm s) (lastLogIndex s) (firstLogIndex s) (indexToApply s) (opCounts s)
     (lastLogTerm s) (leader s) (disallowUpdates s) (proxies s) (lastApplied s) (currentTerm s)
     (votedForTerm s) (votedFor s) (ps_term s) x (ps_firstLogIndex s) (logs s).

(** The entries of one log, in one transaction. *)
Fixpoint apply_list (ls : list VDIR_RAFT_LOG) (d : DB) : dwerror + DB :=
  match ls with
  | [] => inr d
  | l :: ls => match apply_one l d with inl err => inl err | inr d => apply_list ls d end
  end.

(** The label [error]: an entry that is applied by now was applied by another
    thread; anything else stops the server.  [i] is [logEntry.index]. *)
Definition apply_error (i : Z) : RM apply_state unit :=
  s <- rget ;; if i <=? lastApplied (ap_raft s) then rret tt else rub.

(** The applied index follows, and the commit index when it is behind. *)
Definition apply_done (indexToApply : Z) (l : VDIR_RAFT_LOG) : RM apply_state unit :=
  rset (set_ap_raft (set_lastApplied indexToApply)) ;;;
  s <- rget ;;
  if commitIndex (ap_raft s) <? index l
  then rset (set_ap_raft (λ s, set_commitIndexTerm (term l) (set_commitIndex (index l) s)))
  else rret tt.

(** The transaction: the entries, the applied index on disk, and the commit. *)
Definition apply_txn (indexToApply : Z) (l : VDIR_RAFT_LOG) (ls : list VDIR_RAFT_LOG) : RM apply_state unit :=
  s <- rget ;;
  match apply_list ls (ap_db s) with
  | inl _ => apply_error (index l)
  | inr d =>
      r <- rtry backend_call ;;
      match r with
      | inl _ => apply_error (index l)
      | inr _ =>
          rset (set_ap_db d) ;;; rset (set_ap_raft (set_ps_lastApplied indexToApply)) ;;; apply_done indexToApply l
      end
  end.

Definition _VmDirApplyLog (indexToApply : Z) (bFollowerOnly : bool) : RM apply_state unit :=
  s <- rget ;;
  if indexToApply <=? lastApplied (ap_raft s) then rret tt
  else if bFollowerOnly && bool_decide (role (ap_raft s) ≠ VDIR_RAFT_ROLE_FOLLOWER) then apply_error 0
  else
    r <- rtry (_VmDirFetchLogEntry (logs (ap_raft s)) indexToApply) ;;
    match r with
    | inl _ => apply_error 0
    | inr l =>
        if requestCode l =? RAFT_NOOP then apply_done indexToApply l
        else if requestCode l =? RAFT_MULTILOG then
          u <- VmDirUnpackLogEntries [] l ;;
          let '(_, l, ls) := u in
          match ls with
          | [] => rub
          | _ => apply_txn indexToApply l ls
          end
        else apply_txn indexToApply l [l]
    end.

(** The loop of [_VmDirApplyLogsUpto]; the error of a log ends it. *)
Fixpoint apply_loop (fuel : nat) (logIdx indexToApply : Z) (bFollowerOnly : bool) : RM apply_state unit :=
  match fuel with
  | O => rub
  | S fuel =>
      if logIdx <=? indexToApply then
        _VmDirApplyLog logIdx bFollowerOnly ;;; apply_loop fuel (u64 (logIdx + 1)) indexToApply bFollowerOnly
      else rret tt
  end.

(** The distance to the last applied index bounds the rounds. *)
Definition _VmDirApplyLogsUpto (indexToApply : Z) (bFollowerOnly : bool) : RM apply_state unit :=
  s <- rget ;;
  let start := u64 (lastApplied (ap_raft s) + 1) in
  apply_loop (S (Z.to_nat (indexToApply - start + 1))) start indexToApply bFollowerOnly.

(** One round of [_VmDirRaftLogApplyThread] after a signal. *)
Definition log_apply_round (timedOut : bool) : RM apply_state unit :=
  s <- rget ;;
  if timedOut || bool_decide (role (ap_raft s) ≠ VDIR_RAFT_ROLE_FOLLOWER) then rret tt
  else _VmDirApplyLogsUpto (indexToApply (ap_raft s)) true.

(** [_VmDirFixLogsForDR] *)
Definition _VmDirFixLogsForDR (quorumOverride : bool) : RM apply_state unit :=
  s <- rget ;;
  if quorumOverride || ((clusterSize (ap_raft s) =? 1) && (lastLogIndex (ap_raft s) >? commitIndex (ap_raft s)))
  then _VmDirApplyLogsUpto (lastLogIndex (ap_raft s)) false
  else rret tt.

(** *** In order, each once *)

(** An entry as the list of changes it stands for. *)
Definition changes_of (l : VDIR_RAFT_LOG) (ls : list VDIR_RAFT_LOG) : Prop :=
  if requestCode l =? RAFT_NOOP then ls = []
  else if requestCode l =? RAFT_MULTILOG then
    ls ≠ [] ∧ ∃ l' ls', (∀ s : apply_state, VmDirUnpackLogEntries [] (packed l) s [] = Some (inr (ERROR_SUCCESS, l', ls'), s, [])) ∧
      index l' = index l ∧ term l' = term l ∧ ls = ls'
  else ls = [packed l].

(** The entries from [i] on, with their changes. *)
Inductive log_changes (lg : log_store) : Z → list (VDIR_RAFT_LOG * list VDIR_RAFT_LOG) → Prop :=
  | changes_nil i : log_changes lg i []
  | changes_cons i l ls rest :
      log_ok l → index l = i → 0 < i → lg !! i = Some (entry_bytes l) → changes_of l ls →
      log_changes lg (i + 1) rest → log_changes lg i ((l, ls) :: rest).

(** The server after the entry. *)
Definition applied_raft (noop : bool) (l : VDIR_RAFT_LOG) (s : raft_state) : raft_state :=
  let s := if noop then s else set_ps_lastApplied (index l) s in
  let s := set_lastApplied (index l) s in
  if commitIndex s <? index l then set_commitIndexTerm (term l) (set_commitIndex (index l) s) else s.

Lemma apply_done_run i l s e :
  i = index l →
  apply_done i l s e = Some (inr tt, set_ap_raft (λ r, applied_raft true l r) s, e).
Proof.
  intros ->. unfold apply_done, applied_raft. unfold rbind, rset, rget, rret. destruct s as [r d].
  unfold set_ap_raft. cbn [ap_raft ap_db commitIndex set_lastApplied]. destruct (commitIndex r <? index l); reflexivity.
Qed.

Lemma apply_txn_run i l ls s d :
  i = index l → apply_list ls (ap_db s) = inr d →
  apply_txn i l ls s [] = Some (inr tt, APPLY (applied_raft false l (ap_raft s)) d, []).
Proof.
  intros -> Hd. unfold apply_txn. unfold rbind at 1, rget at 1. rewrite Hd.
  unfold rbind at 1, rtry at 1. unfold backend_call. unfold rbind at 1, next_outcome. cbn [head default tail Z.eqb].
  unfold rret at 1. unfold rbind at 1, rset at 1. unfold rbind at 1, rset at 1. rewrite apply_done_run by done. reflexivity.
Qed.

(** The changes of several entries. *)
Fixpoint apply_all (rest : list (VDIR_RAFT_LOG * list VDIR_RAFT_LOG)) (d : DB) : dwerror + DB :=
  match rest with
  | [] => inr d
  | (l, ls) :: rest => match apply_list ls d with inl err => inl err | inr d => apply_all rest d end
  end.

Definition applied_all (rest : list (VDIR_RAFT_LOG * list VDIR_RAFT_LOG)) (s : raft_state) : raft_state :=
  fold_left (λ s x, applied_raft (requestCode x.1 =? RAFT_NOOP) x.1 s) rest s.

Lemma apply_log_run fo l ls s d :
  lastApplied (ap_raft s) < index l → (fo = true → role (ap_raft s) = VDIR_RAFT_ROLE_FOLLOWER) →
  log_ok l → logs (ap_raft s) !! index l = Some (entry_bytes l) → changes_of l ls → apply_list ls (ap_db s) = inr d →
  _VmDirApplyLog (index l) fo s [] = Some (inr tt, APPLY (applied_raft (requestCode l =? RAFT_NOOP) l (ap_raft s)) d, []).
Proof.
  intros Hla Hrole Hl Hin Hch Hd. unfold _VmDirApplyLog. unfold rbind at 1, rget at 1.
  rewrite (proj2 (Z.leb_gt _ _)) by done.
  assert (fo && bool_decide (role (ap_raft s) ≠ VDIR_RAFT_ROLE_FOLLOWER) = false) as ->.
  { destruct fo; [| done]. rewrite Hrole by done. by rewrite bool_decide_eq_false_2 by naive_solver. }
  unfold rbind at 1, rtry at 1. rewrite (fetch_entry _ _ l) by done. change (requestCode (packed l)) with (requestCode l).
  unfold changes_of in Hch. destruct (requestCode l =? RAFT_NOOP).
  - subst ls. injection Hd as <-. rewrite apply_done_run by done. destruct s; reflexivity.
  - destruct (requestCode l =? RAFT_MULTILOG).
    + destruct Hch as (Hne & l' & ls' & Hun & Hi & Ht & ->). unfold rbind at 1. rewrite Hun.
      destruct ls' as [|l0 ls']; [done |]. rewrite (apply_txn_run _ _ _ _ d) by done.
      unfold applied_raft. rewrite Hi, Ht. reflexivity.
    + subst ls. rewrite (apply_txn_run _ _ _ _ d) by done. reflexivity.
Qed.

Lemma applied_raft_same noop l s :
  let s' := applied_raft noop l s in
  lastApplied s' = index l ∧ logs s' = logs s ∧ role s' = role s ∧ commitIndex s' = Z.max (commitIndex s) (index l) ∧
  currentTerm s' = currentTerm s ∧ lastLogIndex s' = lastLogIndex s.
Proof.
  unfold applied_raft. destruct noop; cbn; destruct (Z.ltb_spec (commitIndex s) (index l)); cbn; repeat split; lia.
Qed.

Lemma apply_loop_run fuel fo n rest s d :
  log_changes (logs (ap_raft s)) (lastApplied (ap_raft s) + 1) rest →
  (fo = true → role (ap_raft s) = VDIR_RAFT_ROLE_FOLLOWER) →
  n = lastApplied (ap_raft s) + Z.of_nat (length rest) → n + 1 < 2 ^ 64 → (length rest < fuel)%nat →
  apply_all rest (ap_db s) = inr d →
  apply_loop fuel (lastApplied (ap_raft s) + 1) n fo s [] = Some (inr tt, APPLY (applied_all rest (ap_raft s)) d, []).
Proof.
  revert fuel s. induction rest as [|[l ls] rest IH]; intros fuel s Hch Hrole Hn Hmax Hfuel Hd;
    (destruct fuel as [|fuel]; [cbn in Hfuel; lia |]); cbn [apply_loop].
  { cbn in Hn, Hd. injection Hd as <-. rewrite (proj2 (Z.leb_gt _ _)) by lia. by destruct s. }
  cbn [length] in Hn, Hfuel. inversion Hch as [| ? ? ? ? Hl Hi Hpos Hin Hco Hrest]; subst.
  rewrite (proj2 (Z.leb_le _ _)) by lia. cbn [apply_all] in Hd. destruct (apply_list ls (ap_db s)) as [err | d1] eqn:Hd1; [done |].
  unfold rbind. rewrite <- Hi. rewrite (apply_log_run _ _ ls _ d1); [| lia | done | done | by rewrite Hi | done | done].
  destruct (applied_raft_same (requestCode l =? RAFT_NOOP) l (ap_raft s)) as (Ha & Hlg & Hr & _).
  set (s1 := APPLY (applied_raft (requestCode l =? RAFT_NOOP) l (ap_raft s)) d1).
  rewrite u64_id by (unfold is_u64; lia).
  replace (index l + 1) with (lastApplied (ap_raft s1) + 1) by (cbn [ap_raft s1]; by rewrite Ha).
  rewrite IH; [reflexivity | | | | done | lia | exact Hd].
  - cbn [ap_raft s1]. rewrite Hlg, Ha, Hi. exact Hrest.
  - cbn [ap_raft s1]. by rewrite Hr.
  - cbn [ap_raft s1]. rewrite Ha. lia.
Qed.

Lemma applied_all_same rest s i :
  log_changes (logs s) i rest → i = lastApplied s + 1 →
  let s' := applied_all rest s in
  lastApplied s' = lastApplied s + Z.of_nat (length rest) ∧ logs s' = logs s ∧ role s' = role s ∧
  (rest ≠ [] → commitIndex s' = Z.max (commitIndex s) (lastApplied s + Z.of_nat (length rest))).
Proof.
  revert s i. induction rest as [|[l ls] rest IH]; intros s i Hch Hi; cbn [applied_all fold_left length].
  { cbn. split; [lia | done]. }
  inversion Hch as [| ? ? ? ? Hl Hix Hpos Hin Hco Hrest]; subst. cbn [fst].
  destruct (applied_raft_same (requestCode l =? RAFT_NOOP) l s) as (Ha & Hlg & Hr & Hci & _).
  set (s1 := applied_raft _ l s) in *. fold (applied_all rest s1).
  destruct (IH s1 (lastApplied s + 1 + 1)) as (H1 & H2 & H3 & H4); [by rewrite Hlg | lia |].
  rewrite H1, H2, H3, Ha. split; [lia |]. split; [done |]. split; [done |]. intros _.
  destruct rest as [|x rest]; [cbn; rewrite Hci; lia |]. rewrite H4 by done. rewrite Hci, Ha. cbn [length]. lia.
Qed.

(** C17: Committed entries are applied in the order of the log, each once.  Let
    the log have the entries behind the applied index, and let the directory
    accept their changes in this order.  Then applying up to the last of them
    terminates with the directory after exactly these changes; a batch is
    applied as a whole and a no-op changes nothing; the applied index is the
    last entry, the commit index is not behind it, and the log is untouched. *)
Theorem apply_logs_in_order fo n rest s d :
  log_changes (logs (ap_raft s)) (lastApplied (ap_raft s) + 1) rest →
  (fo = true → role (ap_raft s) = VDIR_RAFT_ROLE_FOLLOWER) → 0 <= lastApplied (ap_raft s) →
  n = lastApplied (ap_raft s) + Z.of_nat (length rest) → n + 1 < 2 ^ 64 → rest ≠ [] →
  apply_all rest (ap_db s) = inr d →
  ∃ s', _VmDirApplyLogsUpto n fo s [] = Some (inr tt, s', []) ∧ ap_db s' = d ∧
    lastApplied (ap_raft s') = n ∧ commitIndex (ap_raft s') = Z.max (commitIndex (ap_raft s)) n ∧
    logs (ap_raft s') = logs (ap_raft s).
Proof.
  intros Hch Hrole Hla Hn Hmax Hne Hd. eexists. split.
  - unfold _VmDirApplyLogsUpto. unfold rbind at 1, rget at 1. rewrite u64_id by (unfold is_u64; lia).
    apply apply_loop_run with (rest := rest); (done || lia).
  - destruct (applied_all_same rest (ap_raft s) _ Hch eq_refl) as (H1 & H2 & _ & H4). cbn [ap_raft ap_db].
    split; [done |]. rewrite H1, H2, H4 by done. split; [lia |]. split; [lia | done].
Qed.

(** An entry that is applied already is not applied again. *)
Lemma apply_log_again i fo s e : i <= lastApplied (ap_raft s) → _VmDirApplyLog i fo s e = Some (inr tt, s, e).
Proof. intros Hi. unfold _VmDirApplyLog. unfold rbind at 1, rget at 1. by rewrite (proj2 (Z.leb_le _ _)). Qed.

(** *** Entries that are skipped *)

Lemma backend_fail {St} o (s : St) e : o ≠ 0 → backend_call s (o :: e) = Some (inl (BACKEND_ERROR o), s, e).
Proof. intros Ho. unfold backend_call, rbind, next_outcome. cbn. by rewrite (proj2 (Z.eqb_neq o 0)). Qed.

(** An entry that cannot be read is not applied, and this is not an error:
    the error handler takes the index 0 of the unread entry for an applied one.
    When the read fails once, the loop goes on with the next entry, whose
    application moves the applied index past both. *)
Theorem apply_skips_unread_entry o l ls s d :
  o ≠ 0 → lastApplied (ap_raft s) + 2 = index l → 0 <= lastApplied (ap_raft s) → index l + 1 < 2 ^ 64 →
  log_ok l → logs (ap_raft s) !! index l = Some (entry_bytes l) → changes_of l ls → apply_list ls (ap_db s) = inr d →
  ∃ s', _VmDirApplyLogsUpto (index l) false s [o] = Some (inr tt, s', []) ∧
    ap_db s' = d ∧ lastApplied (ap_raft s') = index l.
Proof.
  intros Ho Hi Hla Hmax Hl Hin Hch Hd. eexists. split.
  - unfold _VmDirApplyLogsUpto. unfold rbind at 1, rget at 1. rewrite u64_id by (unfold is_u64; lia).
    replace (Z.to_nat (index l - (lastApplied (ap_raft s) + 1) + 1)) with 2%nat by lia. cbn [apply_loop].
    rewrite (proj2 (Z.leb_le _ _)) by lia. unfold rbind at 1. unfold _VmDirApplyLog at 1. unfold rbind at 1, rget at 1.
    rewrite (proj2 (Z.leb_gt _ _)) by lia. cbn [andb]. unfold rbind at 1, rtry at 1. unfold _VmDirFetchLogEntry.
    unfold rbind at 1. rewrite backend_fail by done. unfold apply_error. unfold rbind at 1, rget at 1. rewrite (proj2 (Z.leb_le 0 _)) by lia. unfold rret at 1.
    rewrite u64_id by (unfold is_u64; lia). replace (lastApplied (ap_raft s) + 1 + 1) with (index l) by lia.
    rewrite Z.leb_refl. unfold rbind. rewrite (apply_log_run false l ls s d); [| lia | done | done | done | done | done].
    rewrite (proj2 (Z.leb_gt _ _)) by (rewrite u64_id by (unfold is_u64; lia); lia). reflexivity.
  - cbn [ap_db ap_raft]. split; [done |]. apply applied_raft_same.
Qed.

(** A missing entry counts as a no-op, with the same effect. *)
Theorem apply_skips_missing_entry i s :
  lastApplied (ap_raft s) < i → logs (ap_raft s) !! i = None →
  ∃ s', _VmDirApplyLog i false s [] = Some (inr tt, s', []) ∧ ap_db s' = ap_db s ∧ lastApplied (ap_raft s') = i.
Proof.
  intros Hi Hnone. eexists. split.
  - unfold _VmDirApplyLog. unfold rbind at 1, rget at 1. rewrite (proj2 (Z.leb_gt _ _)) by done. cbn [andb].
    unfold rbind at 1, rtry at 1. unfold _VmDirFetchLogEntry. rewrite run_backend, Hnone. unfold rret at 1.
    change (requestCode ZERO_LOG =? RAFT_NOOP) with true. cbv iota. unfold apply_done. unfold rbind at 1, rset at 1.
    unfold rbind at 1, rget at 1. unfold set_ap_raft. cbn [ap_raft ap_db index ZERO_LOG commitIndex set_lastApplied].
    instantiate (1 := if commitIndex (ap_raft s) <? 0 then _ else _).
    destruct (commitIndex (ap_raft s) <? 0); reflexivity.
  - destruct (commitIndex (ap_raft s) <? 0); done.
Qed.

End Apply.

(** ** Entry ids *)

Definition NEW_ENTRY_EID_PREFIX : Z := 2 ^ 61.

(** The static variables of the two generators. *)
Record id_state := IDS { prevIdx : Z; idxMajor : Z }.

Definition next_major (ci : Z) (s : id_state) : id_state :=
  if ci =? prevIdx s then IDS (prevIdx s) (u64 (idxMajor s + 1)) else IDS ci 0.

Definition VmDirRaftLogIndexToCommit (ci : Z) (s : id_state) : Z * id_state :=
  let s := next_major ci s in
  (Z.lor (u64 (ci + 1)) (u64 (Z.shiftl (idxMajor s) 32)), s).

Definition VmDirRaftNextNewEntryId (ci : Z) (s : id_state) : Z * id_state :=
  let s := next_major ci s in
  (Z.lor (Z.lor NEW_ENTRY_EID_PREFIX (u64 (ci + 1))) (u64 (Z.shiftl (idxMajor s) 32)), s).

(** The ids given for a sequence of commit indices. *)
Fixpoint new_ids (cis : list Z) (s : id_state) : list Z :=
  match cis with
  | [] => []
  | ci :: cis => let (i, s) := VmDirRaftNextNewEntryId ci s in i :: new_ids cis s
  end.

Lemma lor_shiftl a b k : 0 <= k → 0 <= a < 2 ^ k → Z.lor a (Z.shiftl b k) = a + b * 2 ^ k.
Proof.
  intros Hk Ha. assert (Z.land a (Z.shiftl b k) = 0) as Hz.
  { apply Z.bits_inj'. intros n Hn. rewrite Z.land_spec, Z.bits_0, Z.shiftl_spec by done.
    destruct (decide (n < k)); [by rewrite (Z.testbit_neg_r b), andb_false_r by lia |].
    rewrite <- (Z.mod_small a (2 ^ k)) by done. by rewrite Z.mod_pow2_bits_high by lia. }
  pose proof (Z.add_lor_land a (Z.shiftl b k)). rewrite Hz, Z.shiftl_mul_pow2 in * by done. lia.
Qed.

(** Within the ranges an id shows the commit index and the count. *)
Lemma new_entry_id_value ci s :
  0 <= ci < 2 ^ 32 - 1 → 0 <= idxMajor (next_major ci s) < 2 ^ 29 →
  (VmDirRaftNextNewEntryId ci s).1 = 2 ^ 61 + (idxMajor (next_major ci s)) * 2 ^ 32 + (ci + 1).
Proof.
  intros Hci Hm. unfold VmDirRaftNextNewEntryId, NEW_ENTRY_EID_PREFIX. cbn [fst]. set (m := idxMajor _) in *.
  rewrite (u64_id (ci + 1)) by (unfold is_u64; lia).
  rewrite u64_id by (unfold is_u64; rewrite Z.shiftl_mul_pow2 by lia; lia).
  replace (2 ^ 61) with (Z.shiftl (2 ^ 29) 32) by (rewrite Z.shiftl_mul_pow2 by lia; reflexivity).
  rewrite (Z.lor_comm (Z.shiftl _ _) (ci + 1)), <- Z.lor_assoc, <- Z.shiftl_lor.
  replace (2 ^ 29) with (Z.shiftl 1 29) by reflexivity. rewrite (Z.lor_comm _ m), (lor_shiftl m 1 29) by lia.
  rewrite lor_shiftl by lia. rewrite Z.shiftl_mul_pow2 by lia. change (Z.shiftl 1 29) with (2 ^ 29). lia.
Qed.

(** The pairs behind the ids. *)
Fixpoint id_pairs (cis : list Z) (s : id_state) : list (Z * Z) :=
  match cis with
  | [] => []
  | ci :: cis => let s := next_major ci s in (ci, idxMajor s) :: id_pairs cis s
  end.

Lemma id_pairs_later cis s x :
  StronglySorted Z.le (prevIdx s :: cis) → 0 <= idxMajor s → idxMajor s + Z.of_nat (length cis) < 2 ^ 29 →
  x ∈ id_pairs cis s → prevIdx s <= x.1 ∧ (x.1 = prevIdx s → idxMajor s < x.2).
Proof.
  revert s. induction cis as [|ci cis IH]; intros s Hs Hm Hb; cbn [id_pairs]; [by intros ?%elem_of_nil |].
  apply StronglySorted_inv in Hs as [Hs Hall]. apply Forall_cons in Hall as [Hle Hall]. cbn [length] in Hb.
  assert (prevIdx (next_major ci s) = ci ∧
    (ci = prevIdx s ∧ idxMajor (next_major ci s) = idxMajor s + 1 ∨ prevIdx s < ci ∧ idxMajor (next_major ci s) = 0)) as [Hp Hcase].
  { unfold next_major. destruct (Z.eqb_spec ci (prevIdx s)) as [-> | Hne]; cbn; [rewrite u64_id by (unfold is_u64; lia) |]; lia. }
  intros [-> | Hx]%elem_of_cons; [cbn; lia |]. 
  destruct (IH (next_major ci s)) as [H1 H2]; [by rewrite Hp | lia | lia | done |]. rewrite Hp in *. lia.
Qed.

Lemma new_ids_pairs cis s :
  Forall (λ ci, 0 <= ci < 2 ^ 32 - 1) cis → 0 <= idxMajor s → idxMajor s + Z.of_nat (length cis) < 2 ^ 29 →
  new_ids cis s = map (λ x, 2 ^ 61 + x.2 * 2 ^ 32 + (x.1 + 1)) (id_pairs cis s) ∧
  Forall (λ x, 0 <= x.1 < 2 ^ 32 - 1 ∧ 0 <= x.2 < 2 ^ 29) (id_pairs cis s).
Proof.
  revert s. induction cis as [|ci cis IH]; intros s Hall Hm Hb; cbn [new_ids id_pairs map]; [done |].
  apply Forall_cons in Hall as [Hci Hall]. cbn [length] in Hb.
  assert (0 <= idxMajor (next_major ci s) <= idxMajor s + 1) as Hm'.
  { unfold next_major. destruct (_ =? _); cbn; [rewrite u64_id by (unfold is_u64; lia) |]; lia. }
  pose proof (new_entry_id_value ci s Hci ltac:(lia)) as Hv. unfold VmDirRaftNextNewEntryId in *. cbn [fst] in Hv.
  destruct (IH (next_major ci s)) as [H1 H2]; [done | lia | lia |]. split.
  - cbn [fst snd]. rewrite Hv, H1. done.
  - constructor; [cbn; lia | done].
Qed.

(** C29: The ids of new entries are distinct: as long as the commit index that the
    requests see does not go back and stays below 2^32 - 1, and fewer than 2^29
    ids are asked for,
    no id is given twice, however often ids are asked for between two commits. *)
Theorem new_entry_ids_distinct cis s :
  StronglySorted Z.le (prevIdx s :: cis) → Forall (λ ci, 0 <= ci < 2 ^ 32 - 1) cis →
  0 <= idxMajor s → idxMajor s + Z.of_nat (length cis) < 2 ^ 29 →
  NoDup (new_ids cis s).
Proof.
  intros Hs Hall Hm Hb. destruct (new_ids_pairs cis s) as [-> Hr]; [done.. |]. 
  assert (NoDup (id_pairs cis s)) as Hnd.
  { clear Hr. revert s Hs Hm Hb. induction cis as [|ci cis IH]; intros s Hs Hm Hb; cbn [id_pairs]; [constructor |].
    apply StronglySorted_inv in Hs as [Hs Hle]. apply Forall_cons in Hall as [Hci Hall]. cbn [length] in Hb.
    assert (prevIdx (next_major ci s) = ci ∧ 0 <= idxMajor (next_major ci s) <= idxMajor s + 1) as [Hp Hm'].
    { unfold next_major. destruct (Z.eqb_spec ci (prevIdx s)) as [-> |]; cbn; [rewrite u64_id by (unfold is_u64; lia) |]; lia. }
    constructor.
    - intros Hx. apply id_pairs_later in Hx as [_ Hx]; [| by rewrite Hp | lia | lia]. cbn in Hx. rewrite Hp in Hx. lia.
    - apply IH; [done | by rewrite Hp | lia | lia]. }
  apply NoDup_fmap_2_strong; [| done]. intros x y Hx Hy Heq. rewrite Forall_forall in Hr.
  pose proof (Hr x Hx). pose proof (Hr y Hy). destruct x as [x1 x2], y as [y1 y2]. cbn in *. assert (x2 = y2) by lia. f_equal; lia.
Qed.

(** ** Runs *)

(** A directory that records the changes. *)
#[local] Instance recorder : Directory (list VDIR_RAFT_LOG) := λ l d, inr (d ++ [l]).

(** A follower with five entries, three of them applied. *)
Definition srv_apply : apply_state (DB := list VDIR_RAFT_LOG) := APPLY (set_logs (log_of 1 [1; 1; 1; 3; 3]) srv_ex) [].
Definition entry_4 : VDIR_RAFT_LOG := log_ex 4 3 [].

Lemma apply_logs_in_order_witness :
  ∃ s', _VmDirApplyLogsUpto 5 true srv_apply [] = Some (inr tt, s', []) ∧
    ap_db s' = [packed entry_4; packed entry_5] ∧ lastApplied (ap_raft s') = 5 ∧
    commitIndex (ap_raft s') = Z.max (commitIndex (ap_raft srv_apply)) 5 ∧ logs (ap_raft s') = logs (ap_raft srv_apply).
Proof.
  apply (apply_logs_in_order true 5 [(entry_4, [packed entry_4]); (entry_5, [packed entry_5])] srv_apply); try done.
  cbn [ap_raft srv_apply lastApplied set_logs srv_ex logs].
  apply changes_cons; [apply log_ex_ok; cbn; lia | done | lia | vm_compute; reflexivity | vm_compute; reflexivity |].
  apply changes_cons; [apply log_ex_ok; cbn; lia | done | lia | vm_compute; reflexivity | vm_compute; reflexivity |].
  constructor.
Defined.

Lemma apply_skips_unread_entry_witness :
  ∃ s', _VmDirApplyLogsUpto (index entry_5) false srv_apply [7] = Some (inr tt, s', []) ∧
    ap_db s' = [packed entry_5] ∧ lastApplied (ap_raft s') = index entry_5.
Proof.
  apply (apply_skips_unread_entry 7 entry_5 [packed entry_5] srv_apply); try done; try (cbn; lia).
Defined.

Lemma new_entry_ids_distinct_witness : NoDup (new_ids [7; 7; 7; 9; 9; 12] (IDS 5 3)).
Proof.
  apply (new_entry_ids_distinct [7; 7; 7; 9; 9; 12] (IDS 5 3)); cbn [idxMajor length]; try lia.
  - cbn [prevIdx]. repeat (constructor; [| repeat constructor; lia]). constructor.
  - repeat constructor; lia.
Defined.
