(* ===== verification/RaftMember.v ===== *)
(** * RaftMember: compaction, membership, questions

    The other users of [gRaftState] in [lwraft/server/replication/thread.c]: the
    removal of old log entries ([_VmDirRaftCompactLogs] and its thread), the
    proxies that come and go with the members of the cluster, with the life of
    their threads, and the questions other components ask (leader, role,
    followers, whether an operation is allowed). *)

From S2P Require Import Prelude Heap StringList CString HashMap Effects RaftLog Raft RaftReplicate RaftCommit.

Open Scope Z_scope.

(** ** Compaction *)

Definition UNWILLING_TO_PERFORM_CODE : Z := 9114.

(** The server and the static counter of [_VmDirRaftCompactLogs]. *)
Record compact_state := COMPACT { cp_raft : raft_state; logsCompacted : Z }.

Definition set_cp_raft (f : raft_state → raft_state) (c : compact_state) : compact_state :=
  COMPACT (f (cp_raft c)) (logsCompacted c).
Definition set_logsCompacted (x : Z) (c : compact_state) : compact_state := COMPACT (cp_raft c) x.

Definition set_ps_firstLogIndex (x : Z) (s : raft_state) : raft_state :=
  RS (role s) (cmd s) (hostname s) (clusterSize s) (voteConsensusCnt s) (voteDeniedCnt s)
     (voteConsensusTerm s) (initialized s) (lastPingRecvTime s) (commitIndex s)
     (commitIndexTerm s) (lastLogIndex s) (firstLogIndex s) (indexToApply s) (opCounts s)
     (lastLogTerm s) (leader s) (disallowUpdates s) (proxies s) (lastApplied s) (currentTerm s)
     (votedForTerm s) (votedFor s) (ps_term s) (ps_lastApplied s) x (logs s).

(** [_VmdirDeleteLog] with [bCompactLog]: only the entry goes; a missing one is
    no error. *)
Definition delete_old_log (logIndex : Z) : RM compact_state unit :=
  backend_call ;;; rset (set_cp_raft (λ s, set_logs (delete logIndex (logs s)) s)).

(** The loop; the result says whether it came to its end. *)
Fixpoint compact_loop (n : nat) (logIdxToCompact : Z) : RM compact_state bool :=
  match n with
  | O => rret true
  | S n =>
      r <- rtry (delete_old_log logIdxToCompact) ;;
      match r with
      | inr _ =>
          rset (set_cp_raft (set_firstLogIndex (u64 (logIdxToCompact + 1)))) ;;;
          rset (λ c, set_logsCompacted (s32 (logsCompacted c + 1)) c) ;;;
          compact_loop n (u64 (logIdxToCompact + 1))
      | inl (BACKEND_ERROR o) =>
          if o =? UNWILLING_TO_PERFORM_CODE then rret false else compact_loop n (u64 (logIdxToCompact + 1))
      | inl _ => compact_loop n (u64 (logIdxToCompact + 1))
      end
  end.

(** [bNormal]: [VmDirdState() == VMDIRD_STATE_NORMAL]. *)
Definition _VmDirRaftCompactLogs (bNormal : bool) (compactLogsUpto : nat) : RM compact_state unit :=
  if negb bNormal then rret tt
  else
    c <- rget ;;
    b <- compact_loop compactLogsUpto (firstLogIndex (cp_raft c)) ;;
    c <- rget ;;
    if b && (logsCompacted c >? 200) then
      VmDirAllocateMemory 24 ;;;
      r <- rtry (backend_call (St := compact_state)) ;;
      (match r with
       | inr _ => rset (set_cp_raft (λ s, set_ps_firstLogIndex (firstLogIndex s) s))
       | inl _ => rret tt
       end) ;;;
      rset (set_logsCompacted 0)
    else rret tt.

(** The part of [_VmDirRaftLogCompactThread] under the lock: [true] is
    [RAFT_LOG_TRIM_SCORE_HIGH].  The [int] is compared with a [DWORD], that is
    as unsigned. *)
Definition compact_score (keep : Z) : RM compact_state bool :=
  c <- rget ;;
  let s := cp_raft c in
  let iLogsRemain := s32 (u64 (commitIndex s - firstLogIndex s)) in
  if u32 iLogsRemain <=? keep then rret false
  else if (opCounts s >? 0) && (u32 iLogsRemain <? u32 (keep * 2))
  then rset (set_cp_raft (set_opCounts 0)) ;;; rret false
  else rret true.

(** One round of the thread, from [continue_compact]; the error is dropped. *)
Definition compact_round (keep : Z) (bNormal : bool) : RM compact_state bool :=
  b <- compact_score keep ;;
  if b then rtry (_VmDirRaftCompactLogs bNormal 50) ;;; rret true else rret false.

(** What compaction may change: the first index, in memory and on disk, and the
    log itself. *)
Definition compacted (f pf : Z) (lg : log_store) (s : raft_state) : raft_state :=
  set_ps_firstLogIndex pf (set_firstLogIndex f (set_logs lg s)).

Lemma compacted_twice f pf lg f' pf' lg' s : compacted f' pf' lg' (compacted f pf lg s) = compacted f' pf' lg' s.
Proof. reflexivity. Qed.

Lemma compacted_self s : compacted (firstLogIndex s) (ps_firstLogIndex s) (logs s) s = s.
Proof. by destruct s. Qed.

Lemma delete_old_log_run i c e :
  ∃ r c' e', delete_old_log i c e = Some (r, c', e') ∧
    (r = inr tt ∧ c' = set_cp_raft (λ s, set_logs (delete i (logs s)) s) c ∨ (∃ o, r = inl (BACKEND_ERROR o)) ∧ c' = c).
Proof.
  unfold delete_old_log, backend_call, rbind, next_outcome, rset, rret, rfail.
  destruct (default 0 (head e) =? 0); [by eauto 10 | eauto 10].
Qed.

(** The loop always comes to an end; behind the new first index, and outside
    its range, nothing is removed. *)
Lemma compact_loop_run n i c e :
  0 <= i → i + Z.of_nat n < 2 ^ 64 → firstLogIndex (cp_raft c) <= i →
  ∃ b c' e' f lg, compact_loop n i c e = Some (inr b, c', e') ∧
    cp_raft c' = compacted f (ps_firstLogIndex (cp_raft c)) lg (cp_raft c) ∧
    firstLogIndex (cp_raft c) <= f <= i + Z.of_nat n ∧
    (∀ j, j < i ∨ f <= j → lg !! j = logs (cp_raft c) !! j).
Proof.
  revert i c e. induction n as [|n IH]; intros i c e Hi Hmax Hf; cbn [compact_loop].
  { exists true, c, e, (firstLogIndex (cp_raft c)), (logs (cp_raft c)). rewrite compacted_self. split; [done |]. split; [done |]. split; [lia | done]. }
  destruct (delete_old_log_run i c e) as (r & c1 & e1 & Hd & Hr). unfold rbind at 1, rtry. rewrite Hd.
  assert (u64 (i + 1) = i + 1) as Hu by (apply u64_id; unfold is_u64; lia). rewrite Hu.
  destruct Hr as [[-> ->] | [[o ->] ->]].
  - unfold rbind at 1, rset at 1. unfold rbind at 1, rset at 1.
    set (c2 := set_logsCompacted _ _). destruct (IH (i + 1) c2 e1) as (b & c' & e' & f & lg & Hrun & Hc & Hle & Hlg); [lia | lia | change (firstLogIndex (cp_raft c2)) with (i + 1); lia |].
    exists b, c', e', f, lg. split; [done |]. split; [by rewrite Hc |]. cbn in Hle. split; [lia |].
    intros j Hj. rewrite Hlg by lia. cbn. apply lookup_delete_ne. lia.
  - assert (∃ b c' e' f lg, compact_loop n (i + 1) c e1 = Some (inr b, c', e') ∧
      cp_raft c' = compacted f (ps_firstLogIndex (cp_raft c)) lg (cp_raft c) ∧
      firstLogIndex (cp_raft c) <= f <= i + Z.of_nat (S n) ∧ (∀ j, j < i ∨ f <= j → lg !! j = logs (cp_raft c) !! j)) as Hgo.
    { destruct (IH (i + 1) c e1) as (b & c' & e' & f & lg & Hrun & Hc & Hle & Hlg); [lia.. |].
      exists b, c', e', f, lg. do 2 (split; [done |]). split; [lia |]. intros j Hj. apply Hlg. lia. }
    destruct (o =? _); [| exact Hgo].
    exists false, c, e1, (firstLogIndex (cp_raft c)), (logs (cp_raft c)). rewrite compacted_self. do 2 (split; [done |]). split; [lia | done].
Qed.

(** Without failures it removes all it is asked to. *)
Lemma compact_loop_quiet n i c :
  0 <= i → i + Z.of_nat n < 2 ^ 64 → firstLogIndex (cp_raft c) = i →
  ∃ c' lg, compact_loop n i c [] = Some (inr true, c', []) ∧
    cp_raft c' = compacted (i + Z.of_nat n) (ps_firstLogIndex (cp_raft c)) lg (cp_raft c) ∧
    (∀ j, i <= j < i + Z.of_nat n → lg !! j = None).
Proof.
  revert i c. induction n as [|n IH]; intros i c Hi Hmax Hf; cbn [compact_loop].
  { exists c, (logs (cp_raft c)). rewrite Z.add_0_r, <- Hf, compacted_self. do 2 (split; [done |]). intros; lia. }
  assert (u64 (i + 1) = i + 1) as Hu by (apply u64_id; unfold is_u64; lia). rewrite Hu.
  unfold rbind at 1, rtry at 1. unfold delete_old_log. rewrite run_backend. unfold rset at 1. unfold rbind at 1, rset at 1. unfold rbind at 1, rset at 1.
  set (c2 := set_logsCompacted _ _). pose proof (compact_loop_run n (i + 1) c2 []) as (b & c1 & e1 & f & lg1 & Hrun1 & Hc1 & _ & Hlg1); [lia | lia | change (firstLogIndex (cp_raft c2)) with (i + 1); lia |].
  destruct (IH (i + 1) c2) as (c' & lg & Hrun & Hc & Hlg); [lia | lia | done |].
  rewrite Hrun in Hrun1. assert (c1 = c') as -> by congruence. rewrite Hc in Hc1. apply (f_equal logs) in Hc1. cbn in Hc1. subst lg1.
  exists c', lg. split; [done |]. split; [rewrite Hc; replace (i + 1 + Z.of_nat n) with (i + Z.of_nat (S n)) by lia; reflexivity |]. intros j Hj.
  destruct (decide (j = i)) as [-> | Hne]; [rewrite Hlg1 by lia; cbn; apply lookup_delete_eq | apply Hlg; lia].
Qed.

(** The rest of [_VmDirRaftCompactLogs] writes the first index to disk. *)
Lemma compact_logs_run n c e :
  let i := firstLogIndex (cp_raft c) in
  0 <= i → i + Z.of_nat n < 2 ^ 64 →
  ∃ r c' e' f pf lg, _VmDirRaftCompactLogs true n c e = Some (r, c', e') ∧
    cp_raft c' = compacted f pf lg (cp_raft c) ∧ (pf = ps_firstLogIndex (cp_raft c) ∨ pf = f) ∧
    i <= f <= i + Z.of_nat n ∧ (∀ j, j < i ∨ f <= j → lg !! j = logs (cp_raft c) !! j) ∧
    (e = [] → f = i + Z.of_nat n ∧ ∀ j, i <= j < f → lg !! j = None).
Proof.
  intros i Hi Hmax. destruct (compact_loop_run n i c e) as (b & c1 & e1 & f & lg & Hrun & Hc & Hle & Hlg); [lia.. |].
  assert (e = [] → f = i + Z.of_nat n ∧ ∀ j, i <= j < f → lg !! j = None) as Hquiet.
  { intros ->. destruct (compact_loop_quiet n i c) as (c2 & lg2 & Hrun2 & Hc2 & Hlg2); [lia | lia | done |].
    rewrite Hrun in Hrun2. assert (c1 = c2) as -> by congruence. rewrite Hc in Hc2.
    pose proof (f_equal firstLogIndex Hc2) as Hf. pose proof (f_equal logs Hc2) as Hl. cbn in Hf, Hl. subst. done. }
  unfold _VmDirRaftCompactLogs. cbn [negb]. unfold rbind at 1, rget at 1. unfold rbind at 1. fold i. rewrite Hrun.
  unfold rbind at 1, rget at 1. destruct (b && _).
  2: { exists (inr tt), c1, e1, f, (ps_firstLogIndex (cp_raft c)), lg. unfold rret. eauto 10. }
  unfold VmDirAllocateMemory. cbn [Z.eqb]. unfold rbind at 1 2, next_outcome. destruct (default 0 (head e1) =? 0).
  2: { exists (inl ERROR_NO_MEMORY), c1, (tail e1), f, (ps_firstLogIndex (cp_raft c)), lg. unfold rfail. eauto 10. }
  unfold rret at 1. unfold rbind at 1, rtry, backend_call. unfold rbind at 1, next_outcome. destruct (default 0 (head (tail e1)) =? 0).
  - unfold rret at 1. unfold rbind at 1, rset. exists (inr tt). eexists _, _, f, f, lg. split; [reflexivity |]. cbn [cp_raft set_cp_raft set_logsCompacted]. rewrite Hc. eauto 10.
  - unfold rfail. unfold rbind, rret, rset. exists (inr tt). eexists _, _, f, (ps_firstLogIndex (cp_raft c)), lg. split; [reflexivity |]. cbn [cp_raft set_logsCompacted]. eauto 10.
Qed.

Lemma u32_of_s32 z : u32 (s32 z) = u32 z.
Proof.
  unfold u32, s32. destruct (_ <? _); [apply Z.mod_mod; lia |].
  rewrite Zminus_mod, Z.mod_mod, Z_mod_same_full, Z.sub_0_r by lia. apply Z.mod_mod. lia.
Qed.

(** C28: Compaction keeps the recent entries.  The number of entries to keep is
    in the range of its registry key, and the first index is not behind the
    commit index, and less than 2^32 below it.  Then a round terminates whichever deletions fail; only
    entries below the new first index are gone, and the entry at the commit
    index and the configured number before it (less the last batch of 50) are
    all kept; the first index does not go back, and nothing else of the server
    changes but the count of operations. *)
Theorem compaction_keeps_recent keep bNormal c e :
  let s := cp_raft c in
  51200 <= keep <= 10240000 → 0 <= firstLogIndex s <= commitIndex s → commitIndex s - firstLogIndex s < 2 ^ 32 → commitIndex s + 51 < 2 ^ 64 →
  ∃ b c' e' f pf lg n, compact_round keep bNormal c e = Some (inr b, c', e') ∧
    cp_raft c' = set_opCounts n (compacted f pf lg s) ∧
    firstLogIndex s <= f ∧ (f = firstLogIndex s ∨ f + keep < commitIndex s + 50) ∧
    (∀ j, f <= j ∨ commitIndex s <= j + keep - 50 → lg !! j = logs s !! j).
Proof.
  intros s Hk Hf Hd Hmax. unfold compact_round. unfold rbind at 1. unfold compact_score. unfold rbind at 1, rget at 1.
  cbv zeta. fold s. rewrite u32_of_s32. assert (u32 (u64 (commitIndex s - firstLogIndex s)) = commitIndex s - firstLogIndex s) as ->.
  { rewrite u64_id, u32_id; unfold is_u32, is_u64; lia. }
  assert (∀ b n (x : env), ∃ b' c' e' f pf lg m, Some (inr b : dwerror + bool, set_cp_raft (set_opCounts n) c, x) = Some (inr b', c', e') ∧
    cp_raft c' = set_opCounts m (compacted f pf lg s) ∧ firstLogIndex s <= f ∧ (f = firstLogIndex s ∨ f + keep < commitIndex s + 50) ∧
    (∀ j, f <= j ∨ commitIndex s <= j + keep - 50 → lg !! j = logs s !! j)) as Hno.
  { intros b n x. eexists b, _, _, (firstLogIndex s), (ps_firstLogIndex s), (logs s), n. split; [reflexivity |].
    rewrite compacted_self. cbn [cp_raft set_cp_raft]. split; [done |]. split; [lia |]. split; [by left | done]. }
  assert (set_cp_raft (set_opCounts (opCounts s)) c = c) as Hsame by (unfold s; destruct c as [[] ?]; reflexivity).
  destruct (Z.leb_spec (commitIndex s - firstLogIndex s) keep) as [Hle | Hgt].
  { pose proof (Hno false (opCounts s) e) as H. rewrite Hsame in H. exact H. }
  destruct (_ && _); [exact (Hno false 0 e) |]. unfold rret at 1. unfold rbind at 1, rtry at 1.
  destruct bNormal; [| pose proof (Hno true (opCounts s) e) as H; rewrite Hsame in H; exact H].
  destruct (compact_logs_run 50 c e) as (r & c' & e' & f & pf & lg & -> & Hc & _ & Hle & Hlg & _); [fold s; lia | fold s; lia |].
  fold s in Hc, Hle, Hlg. exists true, c', e', f, pf, lg, (opCounts s). split; [reflexivity |].
  split; [rewrite Hc; by destruct s |]. split; [lia |]. split; [right; lia |]. intros j Hj. apply Hlg. lia.
Qed.

(** When the first index is behind the commit index, as in the state a new
    server starts with (1 and 0), the number of remaining entries is negative,
    is compared as unsigned, and every round removes the next 50 entries
    whether they are committed or not. *)
Theorem compaction_uncommitted keep c :
  let s := cp_raft c in
  51200 <= keep <= 10240000 → firstLogIndex s = commitIndex s + 1 → 0 <= commitIndex s → commitIndex s + 51 < 2 ^ 64 →
  ∃ c', compact_round keep true c [] = Some (inr true, c', []) ∧
    firstLogIndex (cp_raft c') = commitIndex s + 51 ∧ commitIndex (cp_raft c') = commitIndex s ∧
    ∀ j, commitIndex s < j <= commitIndex s + 50 → logs (cp_raft c') !! j = None.
Proof.
  intros s Hk Hf Hc Hmax. unfold compact_round. unfold rbind at 1. unfold compact_score. unfold rbind at 1, rget at 1.
  cbv zeta. fold s. rewrite u32_of_s32. assert (u32 (u64 (commitIndex s - firstLogIndex s)) = 2 ^ 32 - 1) as ->.
  { replace (commitIndex s - firstLogIndex s) with (-1) by lia. reflexivity. }
  rewrite (proj2 (Z.leb_gt _ _)) by lia. rewrite (u32_id (keep * 2)) by (unfold is_u32; lia).
  rewrite (proj2 (Z.ltb_ge (2 ^ 32 - 1) _)), andb_false_r by lia. unfold rret at 1. unfold rbind at 1, rtry at 1.
  destruct (compact_logs_run 50 c []) as (r & c' & e' & f & pf & lg & Hrun & Hc' & _ & _ & _ & Hq); [fold s; lia | fold s; lia |].
  destruct (Hq eq_refl) as [Hf' Hlg]. fold s in Hf', Hlg, Hc'. assert (e' = []) as ->.
  { revert Hrun. unfold _VmDirRaftCompactLogs. cbn [negb]. unfold rbind at 1, rget at 1. unfold rbind at 1.
    destruct (compact_loop_quiet 50 (firstLogIndex (cp_raft c)) c) as (c2 & lg2 & -> & _); [fold s; lia | fold s; lia | done |].
    unfold rbind at 1, rget at 1. destruct (_ && _); [| unfold rret; congruence]. intros Hrun.
    unfold VmDirAllocateMemory, backend_call, rbind, rtry, next_outcome, rret, rset in Hrun. cbn -[compact_loop] in Hrun.
    apply (f_equal (λ o, match o with Some (_, x) => x | None => [] end)) in Hrun. exact (eq_sym Hrun). }
  rewrite Hrun. exists c'. split; [reflexivity |]. rewrite Hc'. cbn. split; [lia |]. split; [done |]. intros j Hj. apply Hlg. lia.
Qed.

(** ** Membership *)

Section Members.

(** [LwRtlCStringCompare], through [VmDirStringCompareA]. *)
Context (compare : cstr → cstr → bool → Z).

Definition VMDIR_MAX_LDAP_URI_LEN : Z := 256.

Definition set_isDeleted (x : bool) (p : VMDIR_PEER_PROXY) : VMDIR_PEER_PROXY :=
  PROXY x (proxy_state p) (raftPeerHostname p) (bLogReplicated p) (matchIndex p).

(** The loop over [gRaftState.proxies]: the proxy of a host. *)
Definition find_proxy (pHostname : cstr) (s : raft_state) : option (nat * VMDIR_PEER_PROXY) :=
  list_find (λ x, compare (raftPeerHostname x) pHostname false = 0) (proxies s).

Definition _VmDirRemovePeerInLock (pHostname : cstr) (s : raft_state) : raft_state :=
  match find_proxy pHostname s with
  | Some (p, x) =>
      if negb (isDeleted x) && bool_decide (proxy_state x ≠ PENDING_ADD)
      then set_clusterSize (s32 (clusterSize s - 1)) (set_proxy p (set_isDeleted true) s)
      else s
  | None => s
  end.

(** Whether [_VmDirNewPeerProxyInLock] started a thread, and for which proxy. *)
Inductive peer_added := PeerExists | PeerAgain (p : nat) | PeerNew.

(** A new proxy goes to the head of the list; a deleted one is used again.
    [VmDirStringCpyA] refuses a name that does not fit. *)
Definition _VmDirNewPeerProxyInLock (pHostname : cstr) (state : VDIR_RAFT_PROXY_STATE) : RM raft_state peer_added :=
  s <- rget ;;
  match find_proxy pHostname s with
  | Some (p, x) =>
      if negb (isDeleted x) then rret PeerExists
      else if Z.of_nat (length pHostname) + 1 >? VMDIR_MAX_LDAP_URI_LEN then rfail ERROR_INVALID_PARAMETER
      else
        rset (set_proxy p (λ x, PROXY false state pHostname (bLogReplicated x) (matchIndex x))) ;;;
        backend_call ;;; rret (PeerAgain p)
  | None =>
      VmDirAllocateMemory 304 ;;;
      if Z.of_nat (length pHostname) + 1 >? VMDIR_MAX_LDAP_URI_LEN then rfail ERROR_INVALID_PARAMETER
      else
        rset (λ s, set_proxies (PROXY false state pHostname false 0 :: proxies s) s) ;;;
        backend_call ;;; rret PeerNew
  end.

(** The loop of [_VmDirStartProxies], over the names of the other servers. *)
Fixpoint start_loop (hosts : list cstr) : RM raft_state unit :=
  match hosts with
  | [] => rret tt
  | h :: hosts =>
      _VmDirNewPeerProxyInLock h RPC_DISCONN ;;;
      rset (λ s, set_clusterSize (s32 (clusterSize s + 1)) s) ;;;
      start_loop hosts
  end.

Definition _VmDirStartProxies (hosts : list cstr) : RM raft_state unit :=
  rset (set_clusterSize 1) ;;; start_loop hosts.

(** *** The threads of the peers *)

(** Where [_VmDirRaftPeerThread] is: it connects, checks whether its proxy is
    deleted (at the top of the loop and at [appendEntriesRepeat]), waits, works,
    or is on its way to [done]. *)
Inductive peer_phase := Connecting | Top | Ready | Waiting | Repeat | Working | Leaving.

#[global] Instance peer_phase_eq_dec : EqDecision peer_phase.
Proof. solve_decision. Defined.

(** The server and its peer threads, each with the position of its proxy. *)
Record cluster := CLUSTER { cl_raft : raft_state; cl_threads : list (nat * peer_phase) }.

Inductive cluster_event :=
  | AddPeer (host : cstr) (e : env)   (** [VmDirAddRaftProxy] *)
  | RemovePeer (host : cstr)          (** [_VmDirDeleteRaftProxy] *)
  | PeerConnect (t : nat)             (** the connection is established *)
  | PeerCheck (t : nat)               (** [isDeleted] is looked at *)
  | PeerWait (t : nat)
  | PeerWake (t : nat)
  | PeerLose (t : nat)                (** an RPC fails *)
  | PeerReconnect (t : nat)
  | PeerDone (t : nat) (again : bool) (** the RPC is over *)
  | PeerExit (t : nat).

(** Adding at the head moves the proxies. *)
Definition shift_threads (k : nat) (ts : list (nat * peer_phase)) : list (nat * peer_phase) :=
  map (λ x, ((x.1 + k)%nat, x.2)) ts.

Definition add_peer (host : cstr) (e : env) (c : cluster) : option cluster :=
  match _VmDirNewPeerProxyInLock host PENDING_ADD (cl_raft c) e with
  | Some (r, s, _) =>
      let ts := shift_threads (length (proxies s) - length (proxies (cl_raft c))) (cl_threads c) in
      Some (CLUSTER s (match r with
                       | inr PeerNew => (0%nat, Connecting) :: ts
                       | inr (PeerAgain p) => (p, Connecting) :: ts
                       | _ => ts
                       end))
  | None => None
  end.

(** A step of thread [t], which is in phase [a]: the effect on the state of its
    proxy, and the new phase. *)
Definition peer_step (t : nat) (a : peer_phase) (f : nat → raft_state → raft_state)
    (b : VMDIR_PEER_PROXY → peer_phase) (c : cluster) : option cluster :=
  match cl_threads c !! t with
  | Some (p, a') =>
      match proxies (cl_raft c) !! p with
      | Some x => if decide (a = a') then Some (CLUSTER (f p (cl_raft c)) (<[t := (p, b x)]> (cl_threads c))) else None
      | None => None
      end
  | None => None
  end.

Definition set_state_of (st : VDIR_RAFT_PROXY_STATE) (p : nat) (s : raft_state) : raft_state :=
  set_proxy p (set_proxy_state st) s.

Definition check_deleted (b : peer_phase) (x : VMDIR_PEER_PROXY) : peer_phase := if isDeleted x then Leaving else b.

Definition cluster_step (ev : cluster_event) (c : cluster) : option cluster :=
  match ev with
  | AddPeer h e => add_peer h e c
  | RemovePeer h => Some (CLUSTER (_VmDirRemovePeerInLock h (cl_raft c)) (cl_threads c))
  | PeerConnect t => peer_step t Connecting VmDirLdapRpcConnect (λ _, Top) c
  | PeerCheck t =>
      match cl_threads c !! t with
      | Some (_, Connecting) => peer_step t Connecting (λ _ s, s) (λ x, if isDeleted x then Top else Connecting) c
      | Some (_, Top) => peer_step t Top (λ _ s, s) (check_deleted Ready) c
      | Some (_, Repeat) => peer_step t Repeat (λ _ s, s) (check_deleted Working) c
      | _ => None
      end
  | PeerWait t => peer_step t Ready (set_state_of RPC_IDLE) (λ _, Waiting) c
  | PeerWake t => peer_step t Waiting (set_state_of RPC_BUSY) (λ _, Repeat) c
  | PeerLose t => peer_step t Working (set_state_of RPC_DISCONN) (λ _, Working) c
  | PeerReconnect t => peer_step t Working VmDirLdapRpcConnect (λ _, Working) c
  | PeerDone t again => peer_step t Working (λ _ s, s) (λ _, if again then Repeat else Top) c
  | PeerExit t =>
      match cl_threads c !! t with
      | Some (p, Leaving) =>
          Some (CLUSTER (set_proxy p (set_isDeleted true) (cl_raft c)) (delete t (cl_threads c)))
      | _ => None
      end
  end.

Fixpoint cluster_run (evs : list cluster_event) (c : cluster) : option cluster :=
  match evs with
  | [] => Some c
  | ev :: evs => match cluster_step ev c with Some c => cluster_run evs c | None => None end
  end.

(** The members of the cluster besides the server itself: the proxies that are
    neither deleted nor waiting for their first connection, whether or not they
    are connected at the moment. *)
Definition is_member (x : VMDIR_PEER_PROXY) : Prop := isDeleted x = false ∧ proxy_state x ≠ PENDING_ADD.
#[global] Instance is_member_dec x : Decision (is_member x).
Proof. apply _. Defined.

Definition member_count (l : list VMDIR_PEER_PROXY) : Z := Z.of_nat (length (filter is_member l)).

(** A peer is not added again while its former thread is still there. *)
Definition clean_event (ev : cluster_event) (c : cluster) : Prop :=
  match ev with
  | AddPeer h _ =>
      match find_proxy h (cl_raft c) with
      | Some (p, x) => isDeleted x = true → p ∉ (cl_threads c).*1
      | None => True
      end
  | _ => True
  end.

Fixpoint clean_run (evs : list cluster_event) (c : cluster) : Prop :=
  match evs with
  | [] => True
  | ev :: evs => clean_event ev c ∧ match cluster_step ev c with Some c => clean_run evs c | None => True end
  end.

(** *** The size of the cluster *)

Definition member_z (x : VMDIR_PEER_PROXY) : Z := if decide (is_member x) then 1 else 0.

Lemma member_count_cons x l : member_count (x :: l) = member_z x + member_count l.
Proof. unfold member_count, member_z. rewrite filter_cons. destruct (decide (is_member x)); cbn [length]; lia. Qed.

Lemma member_count_alter f p l x : l !! p = Some x → member_count (alter f p l) = member_count l - member_z x + member_z (f x).
Proof.
  revert p. induction l as [|y l IH]; intros [|p] Hp; [done | done | |]; cbn in Hp |- *.
  - injection Hp as ->. rewrite !member_count_cons. lia.
  - rewrite !member_count_cons, (IH p) by done. lia.
Qed.

Lemma member_count_bound l : 0 <= member_count l <= Z.of_nat (length l).
Proof. unfold member_count. pose proof (length_filter is_member l). lia. Qed.

(** What holds between a proxy and its thread. *)
Definition thread_ok (a : peer_phase) (x : VMDIR_PEER_PROXY) : Prop :=
  (a = Leaving → isDeleted x = true) ∧ (a ≠ Connecting → proxy_state x ≠ PENDING_ADD).

Definition threads_ok (l : list VMDIR_PEER_PROXY) (ts : list (nat * peer_phase)) : Prop :=
  NoDup ts.*1 ∧ ∀ p a, (p, a) ∈ ts → ∃ x, l !! p = Some x ∧ thread_ok a x.

Definition pending_ok (x : VMDIR_PEER_PROXY) : Prop := proxy_state x = PENDING_ADD → isDeleted x = false.

Record cluster_inv (c : cluster) : Prop := {
  ci_size : clusterSize (cl_raft c) = 1 + member_count (proxies (cl_raft c));
  ci_pending : Forall pending_ok (proxies (cl_raft c));
  ci_threads : threads_ok (proxies (cl_raft c)) (cl_threads c)
}.

#[local] Instance threads_ok_perm l : Proper ((≡ₚ) ==> iff) (threads_ok l).
Proof.
  intros ts ts' Hp. unfold threads_ok. rewrite Hp. split; intros [H1 H2]; (split; [done |]); intros p a Ha; apply H2; [by rewrite Hp | by rewrite <- Hp].
Qed.

Lemma thread_split (ts : list (nat * peer_phase)) t y :
  ts !! t = Some y → ∃ rest, ts ≡ₚ y :: rest ∧ (∀ z, <[t := z]> ts ≡ₚ z :: rest) ∧ delete t ts ≡ₚ rest.
Proof.
  intros Ht. exists (take t ts ++ drop (S t) ts). pose proof (lookup_lt_Some _ _ _ Ht) as Hlt. split; [| split].
  - rewrite <- (take_drop_middle ts t y Ht) at 1. by rewrite Permutation_middle.
  - intros z. rewrite insert_take_drop by done. by rewrite Permutation_middle.
  - by rewrite delete_take_drop.
Qed.

(** Changing one proxy does not touch the threads of the others. *)
Lemma threads_ok_alter l ts p f :
  threads_ok l ts → (∀ x a, l !! p = Some x → (p, a) ∈ ts → thread_ok a x → thread_ok a (f x)) → threads_ok (alter f p l) ts.
Proof.
  intros [Hnd H] Hf. split; [done |]. intros q a Hq. destruct (H q a Hq) as (x & Hx & Hok).
  destruct (decide (q = p)) as [-> | Hne].
  - exists (f x). rewrite list_lookup_alter_eq, Hx. split; [done | by apply Hf].
  - exists x. by rewrite list_lookup_alter_ne.
Qed.

(** A thread moves and changes its own proxy. *)
Lemma threads_ok_move l ts t p a b f x :
  threads_ok l ts → ts !! t = Some (p, a) → l !! p = Some x → thread_ok b (f x) → threads_ok (alter f p l) (<[t := (p, b)]> ts).
Proof.
  intros Hok Ht Hx Hb. destruct (thread_split ts t _ Ht) as (rest & Hp & Hins & _). rewrite Hins. rewrite Hp in Hok.
  destruct Hok as [Hnd H]. split; [exact Hnd |]. cbn in Hnd. apply NoDup_cons in Hnd as [Hnot _].
  intros q a' [Heq | Hq]%elem_of_cons.
  - injection Heq as -> ->. exists (f x). by rewrite list_lookup_alter_eq, Hx.
  - destruct (H q a') as (y & Hy & Hoky); [by right |]. exists y. rewrite list_lookup_alter_ne; [done |].
    intros ->. apply Hnot. apply list_elem_of_fmap. by exists (q, a').
Qed.

Lemma alter_self {A} (p : nat) (l : list A) : alter id p l = l.
Proof. revert p. induction l as [|y l IH]; intros [|p]; cbn; [done.. |]. f_equal. apply IH. Qed.

Lemma pending_alter f p l : Forall pending_ok l → (∀ x, l !! p = Some x → pending_ok x → pending_ok (f x)) → Forall pending_ok (alter f p l).
Proof. intros H Hf. apply Forall_alter; [done |]. intros x Hx _. apply Hf; [done |]. by eapply Forall_lookup_1. Qed.

(** A step of a thread, through what it does to its proxy. *)
Lemma peer_step_inv t a g f b c c' :
  cluster_inv c → peer_step t a f b c = Some c' →
  (∀ p s, proxies (f p s) = alter g p (proxies s)) →
  (∀ p x, proxies (cl_raft c) !! p = Some x → thread_ok a x → pending_ok x →
     clusterSize (f p (cl_raft c)) = clusterSize (cl_raft c) - member_z x + member_z (g x) ∧ pending_ok (g x) ∧ thread_ok (b x) (g x)) →
  cluster_inv c'.
Proof.
  intros Hinv Hstep Hg Hx. unfold peer_step in Hstep. destruct (cl_threads c !! t) as [[p a']|] eqn:Ht; [| done].
  destruct (proxies (cl_raft c) !! p) as [x|] eqn:Hp; [| done]. destruct (decide (a = a')) as [<- | _]; [| done]. injection Hstep as <-.
  destruct (ci_threads _ Hinv) as [Hnd Hth]. destruct (Hth p a) as (x' & Hx' & Hok); [by eapply list_elem_of_lookup_2 |].
  rewrite Hp in Hx'. injection Hx' as <-. pose proof (ci_pending _ Hinv) as Hpend.
  pose proof (Forall_lookup_1 _ _ _ _ Hpend Hp) as Hpx. destruct (Hx p x Hp Hok Hpx) as (Hsize & Hpg & Hbg).
  constructor; cbn [cl_raft cl_threads]; rewrite Hg.
  - rewrite Hsize, (member_count_alter _ _ _ x) by done. rewrite (ci_size _ Hinv). lia.
  - apply pending_alter; [done |]. intros y Hy _. rewrite Hp in Hy. by injection Hy as <-.
  - by eapply threads_ok_move; [apply (ci_threads _ Hinv) | ..].
Qed.

(** The states a working thread sets. *)
Lemma set_state_inv t a st b c c' :
  cluster_inv c → peer_step t a (set_state_of st) (λ _, b) c = Some c' → a ≠ Connecting → a ≠ Leaving → b ≠ Leaving → st ≠ PENDING_ADD → cluster_inv c'.
Proof.
  intros Hinv Hstep Ha Hl Hb Hst. apply (peer_step_inv _ _ (set_proxy_state st) _ _ _ _ Hinv Hstep); [done |].
  intros p x Hp [_ Hpend] _. specialize (Hpend Ha). cbn. unfold member_z, is_member. cbn [isDeleted proxy_state set_proxy_state].
  split; [destruct (decide _), (decide _); naive_solver lia |]. split; [by intros ? |]. split; [done |]. by cbn.
Qed.

(** A step that only looks. *)
Lemma look_inv t a b c c' :
  cluster_inv c → peer_step t a (λ _ s, s) b c = Some c' →
  (∀ x, thread_ok a x → pending_ok x → thread_ok (b x) x) → cluster_inv c'.
Proof.
  intros Hinv Hstep Hb. apply (peer_step_inv _ _ id _ _ _ _ Hinv Hstep); [intros; by rewrite alter_self |].
  intros p x Hp Hok Hpend. cbn. split; [lia |]. split; [done | by apply Hb].
Qed.

Lemma connect_inv t a b c c' :
  cluster_inv c → Z.of_nat (length (proxies (cl_raft c))) < 2 ^ 31 - 1 → peer_step t a VmDirLdapRpcConnect (λ _, b) c = Some c' → b ≠ Leaving → cluster_inv c'.
Proof.
  intros Hinv Hlen Hstep Hb. apply (peer_step_inv _ _ (set_proxy_state RPC_BUSY) _ _ _ _ Hinv Hstep).
  - intros p s. unfold VmDirLdapRpcConnect. by destruct (proxies s !! p) as [x|]; [destruct (bool_decide _) |].
  - intros p x Hp Hok Hpend. unfold VmDirLdapRpcConnect. rewrite Hp. split; [| split; [by intros ? |]].
    2: { split; [done |]. intros _. by cbn. }
    pose proof (member_count_bound (proxies (cl_raft c))). pose proof (ci_size _ Hinv).
    unfold member_z, is_member. cbn [isDeleted proxy_state set_proxy_state].
    case_bool_decide as Hst; cbn [set_proxy set_proxies clusterSize set_clusterSize].
    + rewrite u32_id by (unfold is_u32; lia). specialize (Hpend Hst). destruct (decide _), (decide _); naive_solver lia.
    + destruct (decide _), (decide _); naive_solver lia.
Qed.

Lemma remove_inv h c :
  cluster_inv c → Z.of_nat (length (proxies (cl_raft c))) < 2 ^ 31 - 1 →
  cluster_inv (CLUSTER (_VmDirRemovePeerInLock h (cl_raft c)) (cl_threads c)).
Proof.
  intros Hinv Hlen. unfold _VmDirRemovePeerInLock. destruct (find_proxy h (cl_raft c)) as [[p x]|] eqn:Hf; [| by destruct c].
  apply list_find_Some in Hf as (Hp & _). destruct (isDeleted x) eqn:Hd; cbn [negb andb]; [by destruct c |].
  case_bool_decide as Hst; [| by destruct c]. pose proof (member_count_bound (proxies (cl_raft c))). pose proof (ci_size _ Hinv) as Hsize.
  assert (member_z x = 1) as Hm by (unfold member_z; by rewrite decide_True by done).
  constructor; cbn [cl_raft cl_threads set_clusterSize set_proxy set_proxies proxies clusterSize].
  - rewrite (member_count_alter _ _ _ x) by done. rewrite Hm, Hsize. unfold member_z, is_member. cbn [isDeleted set_isDeleted].
    rewrite decide_False by (by intros [? ?]). rewrite s32_id by lia. lia.
  - apply pending_alter; [apply (ci_pending _ Hinv) |]. intros y Hy _ Hpe. rewrite Hp in Hy. injection Hy as <-. by cbn in Hpe.
  - apply threads_ok_alter; [apply (ci_threads _ Hinv) |]. intros y a _ _ [H1 H2]. by split.
Qed.

(** Growing at the head. *)
Lemma threads_ok_shift l ts y : threads_ok l ts → threads_ok (y :: l) (shift_threads 1 ts) ∧ 0%nat ∉ (shift_threads 1 ts).*1.
Proof.
  intros [Hnd H]. assert ((shift_threads 1 ts).*1 = map (λ p, (p + 1)%nat) ts.*1) as Heq.
  { induction ts as [|[q a] ts IH]; [done |]. cbn. f_equal. apply IH; [by apply NoDup_cons in Hnd as [_ ?] | intros; apply H; by right]. }
  split; [split |].
  - rewrite Heq. apply NoDup_fmap_2_strong; [intros; lia | done].
  - intros p a Hp. apply list_elem_of_fmap in Hp as ([q b] & [= -> ->] & Hq). cbn. rewrite Nat.add_1_r. by apply H.
  - rewrite Heq. intros (q & Hq & _)%list_elem_of_fmap. lia.
Qed.

Lemma shift_zero ts : shift_threads 0 ts = ts.
Proof. induction ts as [|[p a] ts IH]; [done |]. cbn. rewrite Nat.add_0_r. f_equal. exact IH. Qed.

(** All outcomes of [_VmDirNewPeerProxyInLock]. *)
Lemma new_peer_cases h st s e r s' e' :
  _VmDirNewPeerProxyInLock h st s e = Some (r, s', e') →
  s' = s ∧ (r = inr PeerExists ∨ ∃ err, r = inl err) ∨
  (∃ p x, find_proxy h s = Some (p, x) ∧ isDeleted x = true ∧
     s' = set_proxy p (λ x, PROXY false st h (bLogReplicated x) (matchIndex x)) s ∧ (r = inr (PeerAgain p) ∨ ∃ err, r = inl err)) ∨
  find_proxy h s = None ∧ s' = set_proxies (PROXY false st h false 0 :: proxies s) s ∧ (r = inr PeerNew ∨ ∃ err, r = inl err).
Proof.
  unfold _VmDirNewPeerProxyInLock. unfold rbind at 1, rget. destruct (find_proxy h s) as [[p x]|] eqn:Hf.
  - destruct (isDeleted x) eqn:Hd; cbn [negb].
    + destruct (_ >? _); unfold rfail, rbind, rset, backend_call, rbind, next_outcome, rret, rfail.
      * intros [= <- <- <-]. left. eauto.
      * destruct (default 0 (head e) =? 0); intros [= <- <- <-]; right; left; exists p, x; eauto 10.
    + unfold rret. intros [= <- <- <-]. left. eauto.
  - unfold VmDirAllocateMemory. cbn [Z.eqb]. unfold rbind at 1 2, next_outcome. destruct (default 0 (head e) =? 0).
    + unfold rret at 1. destruct (_ >? _); unfold rfail, rbind, rset, backend_call, rbind, next_outcome, rret, rfail.
      * intros [= <- <- <-]. left. eauto.
      * destruct (default 0 (head (tail e)) =? 0); intros [= <- <- <-]; right; right; eauto 10.
    + unfold rfail. intros [= <- <- <-]. left. eauto.
Qed.

Lemma add_inv h e c c' :
  cluster_inv c → clean_event (AddPeer h e) c → add_peer h e c = Some c' → cluster_inv c'.
Proof.
  intros Hinv Hclean Hadd. unfold add_peer in Hadd. cbn in Hclean.
  destruct (_VmDirNewPeerProxyInLock h PENDING_ADD (cl_raft c) e) as [[[r s'] e']|] eqn:Hnew; [| done].
  pose proof (ci_threads _ Hinv) as Hth. injection Hadd as <-. apply new_peer_cases in Hnew as [[-> Hr] | [(p & x & Hf & Hd & -> & Hr) | (Hf & -> & Hr)]].
  - rewrite Nat.sub_diag, shift_zero. destruct c. destruct Hr as [-> | [err ->]]; exact Hinv.
  - rewrite Hf in Hclean. specialize (Hclean Hd). pose proof (proj1 (proj1 (list_find_Some _ _ _ _) Hf)) as Hp.
    cbn [set_proxy set_proxies proxies]. rewrite length_alter, Nat.sub_diag, shift_zero.
    assert (threads_ok (alter (λ x, PROXY false PENDING_ADD h (bLogReplicated x) (matchIndex x)) p (proxies (cl_raft c))) (cl_threads c)) as Hth'.
    { apply threads_ok_alter; [done |]. intros y a _ Hin _. destruct Hclean. apply list_elem_of_fmap. by exists (p, a). }
    assert (member_z x = 0) as Hm by (unfold member_z, is_member; by rewrite decide_False by (intros [? _]; congruence)).
    constructor; cbn [cl_raft cl_threads proxies set_proxy set_proxies clusterSize].
    + rewrite (member_count_alter _ _ _ x) by done. rewrite Hm, (ci_size _ Hinv). unfold member_z, is_member. cbn [isDeleted proxy_state].
      rewrite decide_False by (by intros [? ?]). lia.
    + apply pending_alter; [apply (ci_pending _ Hinv) |]. by intros.
    + destruct Hr as [-> | [err ->]]; [| done]. destruct Hth' as [Hnd Hall]. split; [by constructor |].
      intros q a [[= -> ->] | Hq]%elem_of_cons; [| by apply Hall]. eexists. rewrite list_lookup_alter_eq, Hp. split; [done |]. by split.
  - cbn [set_proxies proxies length]. replace (S (length (proxies (cl_raft c))) - length (proxies (cl_raft c)))%nat with 1%nat by lia.
    destruct (threads_ok_shift _ _ (PROXY false PENDING_ADD h false 0) Hth) as [Hth' Hzero].
    constructor; cbn [cl_raft cl_threads proxies set_proxy set_proxies clusterSize].
    + rewrite member_count_cons, (ci_size _ Hinv). unfold member_z, is_member. cbn [isDeleted proxy_state]. rewrite decide_False by (by intros [? ?]). lia.
    + constructor; [done | apply (ci_pending _ Hinv)].
    + destruct Hr as [-> | [err ->]]; [| done]. destruct Hth' as [Hnd Hall]. split; [by constructor |].
      intros q a [[= -> ->] | Hq]%elem_of_cons; [| by apply Hall]. eexists. split; [done |]. by split.
Qed.

Lemma exit_inv t c c' : cluster_inv c → cluster_step (PeerExit t) c = Some c' → cluster_inv c'.
Proof.
  intros Hinv Hstep. cbn in Hstep. destruct (cl_threads c !! t) as [[p a]|] eqn:Ht; [| done]. destruct a; try done. injection Hstep as <-.
  destruct (ci_threads _ Hinv) as [Hnd Hall]. destruct (Hall p Leaving) as (x & Hx & Hdel & Hst); [by eapply list_elem_of_lookup_2 |].
  specialize (Hdel eq_refl). assert (alter (set_isDeleted true) p (proxies (cl_raft c)) = proxies (cl_raft c)) as Heq.
  { apply list_eq. intros q. destruct (decide (q = p)) as [-> | Hne]; [| by rewrite list_lookup_alter_ne].
    rewrite list_lookup_alter_eq, Hx. cbn. by destruct x; cbn in *; subst. }
  constructor; cbn [cl_raft cl_threads set_proxy set_proxies proxies clusterSize]; rewrite Heq; [apply Hinv | apply Hinv |].
  destruct (thread_split _ _ _ Ht) as (rest & Hp & _ & Hdl). rewrite Hdl. pose proof (ci_threads _ Hinv) as Hth. rewrite Hp in Hth.
  destruct Hth as [Hnd' Hall']. split; [by apply NoDup_cons in Hnd' as [_ ?] |]. intros q a Hq. apply Hall'. by right.
Qed.

Lemma cluster_step_inv ev c c' :
  cluster_inv c → Z.of_nat (length (proxies (cl_raft c))) < 2 ^ 31 - 1 → clean_event ev c → cluster_step ev c = Some c' → cluster_inv c'.
Proof.
  intros Hinv Hlen Hclean Hstep. destruct ev; cbn [cluster_step] in Hstep.
  - by eapply add_inv.
  - injection Hstep as <-. by apply remove_inv.
  - by eapply connect_inv.
  - destruct (cl_threads c !! t) as [[p []]|] eqn:Ht; try done; (eapply look_inv; [done | exact Hstep |]); intros x [H1 H2] Hpe; unfold check_deleted;
      destruct (isDeleted x) eqn:Hd; split; try done; intros _; try (by apply H2).
    intros Hst. specialize (Hpe Hst). congruence.
  - by eapply set_state_inv.
  - by eapply set_state_inv.
  - by eapply set_state_inv.
  - by eapply connect_inv.
  - eapply look_inv; [done | exact Hstep |]. intros x [H1 H2] _. destruct again; split; try done; intros _; by apply H2.
  - by eapply exit_inv.
Qed.

Lemma cluster_step_length ev c c' :
  cluster_step ev c = Some c' → (length (proxies (cl_raft c')) <= S (length (proxies (cl_raft c))))%nat.
Proof.
  assert (∀ t a f b, (∀ p s, length (proxies (f p s)) = length (proxies s)) → peer_step t a f b c = Some c' →
    (length (proxies (cl_raft c')) <= S (length (proxies (cl_raft c))))%nat) as Hpeer.
  { intros t a f b Hf. unfold peer_step. destruct (cl_threads c !! t) as [[p a']|]; [| done].
    destruct (proxies (cl_raft c) !! p); [| done]. destruct (decide _); [| done]. intros [= <-]. cbn. rewrite Hf. lia. }
  assert (∀ p s, length (proxies (VmDirLdapRpcConnect p s)) = length (proxies s)) as Hconn.
  { intros p s. unfold VmDirLdapRpcConnect. destruct (proxies s !! p); [destruct (bool_decide _) |]; apply length_alter. }
  assert (∀ st p s, length (proxies (set_state_of st p s)) = length (proxies s)) as Hset by (intros; apply length_alter).
  destruct ev; cbn [cluster_step]; try (by apply Hpeer).
  - unfold add_peer. destruct (_VmDirNewPeerProxyInLock _ _ _ _) as [[[r s'] e']|] eqn:Hnew; [| done]. intros [= <-]. cbn [cl_raft].
    apply new_peer_cases in Hnew as [[-> _] | [(p & x & _ & _ & -> & _) | (_ & -> & _)]]; cbn [set_proxy set_proxies proxies]; [lia | rewrite length_alter; lia | done].
  - intros [= <-]. cbn. unfold _VmDirRemovePeerInLock. destruct (find_proxy _ _) as [[p x]|]; [destruct (_ && _) |]; cbn [set_clusterSize set_proxy set_proxies proxies]; rewrite ?length_alter; lia.
  - destruct (cl_threads c !! t) as [[p []]|]; try done; by apply Hpeer.
  - destruct (cl_threads c !! t) as [[p []]|]; try done. intros [= <-]. cbn. rewrite length_alter. lia.
Qed.

Lemma cluster_run_inv evs c c' :
  cluster_inv c → Z.of_nat (length (proxies (cl_raft c)) + length evs) < 2 ^ 31 → clean_run evs c → cluster_run evs c = Some c' → cluster_inv c'.
Proof.
  revert c. induction evs as [|ev evs IH]; intros c Hinv Hlen Hclean Hrun; cbn in Hrun; [by injection Hrun as <- |].
  destruct Hclean as [Hev Hclean]. destruct (cluster_step ev c) as [c1|] eqn:Hstep; [| done].
  pose proof (cluster_step_length _ _ _ Hstep). cbn [length] in Hlen.
  apply (IH c1); [| lia | done | done]. eapply cluster_step_inv; [done | lia | done | done].
Qed.

(** *** The start *)

Context `{!CStringCompare compare}.

Definition host_fits (h : cstr) : Prop := Z.of_nat (length h) + 1 <= VMDIR_MAX_LDAP_URI_LEN.

Definition started_proxy (h : cstr) : VMDIR_PEER_PROXY := PROXY false RPC_DISCONN h false 0.

Lemma start_loop_run hosts s :
  Forall host_fits hosts → NoDup (map (map tolower) hosts) →
  (∀ x, x ∈ proxies s → map tolower (raftPeerHostname x) ∉ map (map tolower) hosts) →
  0 <= clusterSize s → clusterSize s + Z.of_nat (length hosts) < 2 ^ 31 →
  ∃ s', start_loop hosts s [] = Some (inr tt, s', []) ∧ proxies s' = rev (map started_proxy hosts) ++ proxies s ∧
    clusterSize s' = clusterSize s + Z.of_nat (length hosts).
Proof.
  revert s. induction hosts as [|h hosts IH]; intros s Hfit Hnd Hnew Hpos Hmax; cbn [start_loop].
  { exists s. cbn. split; [done |]. split; [done | lia]. }
  apply Forall_cons in Hfit as [Hh Hfit]. cbn in Hnd. apply NoDup_cons in Hnd as [Hnot Hnd]. cbn [length] in Hmax.
  assert (find_proxy h s = None) as Hf.
  { apply list_find_None. apply Forall_forall. intros x Hx Hc. apply compare_caseless in Hc. apply (Hnew x Hx). rewrite Hc. by left. }
  set (s1 := set_clusterSize (clusterSize s + 1) (set_proxies (started_proxy h :: proxies s) s)).
  destruct (IH s1) as (s' & Hrun & Hpr & Hsz); [done | done | | cbn; lia | cbn; lia |].
  { intros x [-> | Hx]%elem_of_cons; [done |]. intros Hin. apply (Hnew x Hx). by right. }
  exists s'. split; [| split].
  - unfold _VmDirNewPeerProxyInLock. unfold rbind at 1. unfold rbind at 1, rget at 1. rewrite Hf. unfold rbind at 1.
    change (VmDirAllocateMemory 304 s []) with (Some (inr (replicate 304 0) : dwerror + list Z, s, [] : env)). cbv beta iota.
    unfold host_fits in Hh. assert ((Z.of_nat (length h) + 1 >? VMDIR_MAX_LDAP_URI_LEN) = false) as -> by (rewrite Z.gtb_ltb; apply Z.ltb_ge; lia).
    unfold rbind at 1, rset at 1. rewrite run_backend. unfold rret at 1. unfold rbind at 1, rset at 1. cbn [clusterSize set_proxies].
    rewrite s32_id by lia. exact Hrun.
  - rewrite Hpr. cbn [s1 proxies set_clusterSize set_proxies map rev]. by rewrite <- app_assoc.
  - rewrite Hsz. cbn [s1 clusterSize set_clusterSize length]. lia.
Qed.

(** The server after [_VmDirStartProxies], with a thread for each proxy. *)
Definition started (s : raft_state) : cluster := CLUSTER s (imap (λ p _, (p, Connecting)) (proxies s)).

Lemma proxies_started_inv s :
  Forall (λ x, isDeleted x = false ∧ proxy_state x = RPC_DISCONN) (proxies s) →
  clusterSize s = 1 + Z.of_nat (length (proxies s)) → cluster_inv (started s).
Proof.
  intros Hall Hsize. constructor; cbn [started cl_raft cl_threads].
  - rewrite Hsize. f_equal. unfold member_count. f_equal. clear Hsize. induction Hall as [|x l [H1 H2] _ IH]; [done |].
    rewrite filter_cons_True by (split; [done | by rewrite H2]). cbn. by rewrite IH.
  - eapply Forall_impl; [exact Hall |]. by intros x [? ?] _.
  - split.
    + assert ((imap (λ p (_ : VMDIR_PEER_PROXY), (p, Connecting)) (proxies s)).*1 = seq 0 (length (proxies s))) as ->.
      { rewrite fmap_imap. apply list_eq. intros i. rewrite list_lookup_imap. destruct (proxies s !! i) as [x|] eqn:Hi.
        - cbn. symmetry. apply lookup_seq. split; [done |]. by apply lookup_lt_Some in Hi.
        - cbn. symmetry. apply lookup_seq_ge. by apply lookup_ge_None in Hi. }
      apply NoDup_seq.
    + intros p a (i & x & [= -> ->] & Hx)%elem_of_lookup_imap. exists x. split; [done |]. by split.
Qed.

(** C27: The size of the cluster is the number of its members.  A server that
    starts with the other servers of the directory (with distinct names that
    fit, fewer than 2^31) counts itself and them.  From then on, however additions, removals,
    connections, failures of calls and the ends of the peer threads interleave,
    the size is one more than the number of proxies that are neither deleted
    nor waiting for their first connection, connected or not, as long as no
    peer is added again before its former thread has ended. *)
Theorem cluster_size_counts hosts s :
  proxies s = [] → Forall host_fits hosts → NoDup (map (map tolower) hosts) →
  1 + Z.of_nat (length hosts) < 2 ^ 31 →
  ∃ s', _VmDirStartProxies hosts s [] = Some (inr tt, s', []) ∧
    clusterSize s' = 1 + Z.of_nat (length hosts) ∧
    ∀ evs c, Z.of_nat (length hosts + length evs) < 2 ^ 31 → clean_run evs (started s') → cluster_run evs (started s') = Some c →
      clusterSize (cl_raft c) = 1 + member_count (proxies (cl_raft c)).
Proof.
  intros Hnone Hfit Hnd Hmax. destruct (start_loop_run hosts (set_clusterSize 1 s)) as (s' & Hrun & Hpr & Hsz); [done | done | | done | cbn; lia |].
  { cbn [proxies set_clusterSize]. rewrite Hnone. by intros x ?%elem_of_nil. }
  exists s'. split; [exact Hrun |]. cbn [proxies set_clusterSize clusterSize] in Hpr, Hsz. rewrite Hnone, app_nil_r in Hpr. split; [done |].
  assert (length (proxies s') = length hosts) as Hlen by (by rewrite Hpr, length_rev, length_map).
  intros evs c Hevs Hclean Hev. apply ci_size. eapply cluster_run_inv; [| | exact Hclean | exact Hev].
  - apply proxies_started_inv; [| by rewrite Hlen]. rewrite Hpr. apply Forall_forall. intros x Hx%list_elem_of_In%in_rev%list_elem_of_In.
    apply list_elem_of_fmap in Hx as (h & -> & _). done.
  - cbn [started cl_raft]. by rewrite Hlen.
Qed.

End Members.

(** *** Runs *)

Definition host_d : cstr := ["d"%char].

Definition srv_alone : raft_state :=
  RS VDIR_RAFT_ROLE_LEADER ExecNone host_a 1 0 0 0 true 100 3 1 5 1 3 0 2 [] false [] 3 4 0 [] 4 3 1 store_ex.

(** The events of an undisturbed life: [b] and [c] connect, [b] is removed and
    its thread ends, then [b] is added again and connects. *)
Definition orderly_events : list cluster_event :=
  [PeerConnect 0; PeerConnect 1; PeerCheck 1; PeerWait 1; RemovePeer host_b; PeerWake 1; PeerCheck 1; PeerExit 1;
   AddPeer host_b []; PeerConnect 0].

Definition srv_started : raft_state :=
  match _VmDirStartProxies simple_compare [host_b; host_c] srv_alone [] with Some (_, s, _) => s | None => srv_alone end.

Definition orderly_end : cluster := default (started srv_started) (cluster_run simple_compare orderly_events (started srv_started)).

Example orderly_sizes :
  clusterSize srv_started = 3 ∧ cluster_run simple_compare orderly_events (started srv_started) = Some orderly_end ∧
  clusterSize (cl_raft orderly_end) = 3.
Proof. vm_compute. done. Qed.

#[global] Instance clean_event_dec compare ev c : Decision (clean_event compare ev c).
Proof. destruct ev; cbn; try apply _. destruct (find_proxy _ _ _) as [[p x]|]; apply _. Defined.

#[global] Instance clean_run_dec compare evs c : Decision (clean_run compare evs c).
Proof.
  revert c. induction evs as [|ev evs IH]; intros c; cbn; [apply _ |]. destruct (cluster_step compare ev c) as [c1|]; [| apply _].
  destruct (IH c1); apply _.
Defined.

Example orderly_clean : clean_run simple_compare orderly_events (started srv_started).
Proof. apply (bool_decide_unpack _). vm_compute. exact I. Qed.

Lemma cluster_size_counts_witness :
  Forall host_fits [host_b; host_c] ∧ NoDup (map (map tolower) [host_b; host_c]) ∧ clean_run simple_compare orderly_events (started srv_started) ∧
  ∃ s', _VmDirStartProxies simple_compare [host_b; host_c] srv_alone [] = Some (inr tt, s', []) ∧
    clusterSize s' = 1 + Z.of_nat (length [host_b; host_c]) ∧
    ∀ evs c, Z.of_nat (length [host_b; host_c] + length evs) < 2 ^ 31 → clean_run simple_compare evs (started s') →
      cluster_run simple_compare evs (started s') = Some c →
      clusterSize (cl_raft c) = 1 + member_count (proxies (cl_raft c)).
Proof.
  assert (Forall host_fits [host_b; host_c]) as H1 by (do 2 (apply Forall_cons_2; [unfold host_fits, VMDIR_MAX_LDAP_URI_LEN; cbn; lia |]); apply Forall_nil_2).
  assert (NoDup (map (map tolower) [host_b; host_c])) as H2 by (apply (bool_decide_unpack _); vm_compute; exact I).
  split; [exact H1 |]. split; [exact H2 |]. split; [exact orderly_clean |].
  apply (cluster_size_counts simple_compare [host_b; host_c] srv_alone eq_refl H1 H2). cbn. lia.
Defined.

(** A peer that is removed and added again while its thread still works is
    not counted: the thread overwrites the state that marks the addition, and
    the connection of the new thread finds nothing to count.  A cluster of four
    then has size three, and two servers are taken for a majority of four. *)
Theorem readded_peer_uncounted :
  ∃ s c, _VmDirStartProxies simple_compare [host_b; host_c; host_d] srv_alone [] = Some (inr tt, s, []) ∧
    cluster_run simple_compare
      [PeerConnect 0; PeerConnect 1; PeerConnect 2; PeerCheck 2; PeerWait 2; RemovePeer host_b; AddPeer host_b []; PeerWake 3; PeerConnect 0]
      (started s) = Some c ∧
    clusterSize s = 4 ∧ member_count (proxies (cl_raft c)) = 3 ∧ clusterSize (cl_raft c) = 3 ∧ clusterSize (cl_raft c) / 2 + 1 = 2.
Proof. do 2 eexists. repeat (split; [vm_compute; reflexivity |]). vm_compute. reflexivity. Qed.

(** The removal of a peer that has not been connected yet is dropped: it is
    counted when it connects. *)
Theorem pending_peer_stays :
  ∃ c, cluster_run simple_compare [AddPeer host_b []; RemovePeer host_b; PeerConnect 0] (started srv_alone) = Some c ∧
    clusterSize (cl_raft c) = 2.
Proof. eexists. split; vm_compute; reflexivity. Qed.

Lemma compaction_keeps_recent_witness :
  let c := COMPACT (set_commitIndex 200000 (set_firstLogIndex 1 srv_alone)) 0 in
  ∃ b c' e' f pf lg n, compact_round 51200 true c [] = Some (inr b, c', e') ∧
    cp_raft c' = set_opCounts n (compacted f pf lg (cp_raft c)) ∧
    firstLogIndex (cp_raft c) <= f ∧ (f = firstLogIndex (cp_raft c) ∨ f + 51200 < commitIndex (cp_raft c) + 50) ∧
    (∀ j, f <= j ∨ commitIndex (cp_raft c) <= j + 51200 - 50 → lg !! j = logs (cp_raft c) !! j).
Proof. intros c. apply (compaction_keeps_recent 51200 true c []); cbn; lia. Defined.

Lemma compaction_uncommitted_witness :
  let c := COMPACT (set_commitIndex 0 (set_firstLogIndex 1 srv_alone)) 0 in
  logs (cp_raft c) !! 3 ≠ None ∧
  ∃ c', compact_round 51200 true c [] = Some (inr true, c', []) ∧
    firstLogIndex (cp_raft c') = 0 + 51 ∧ commitIndex (cp_raft c') = 0 ∧
    ∀ j, 0 < j <= 0 + 50 → logs (cp_raft c') !! j = None.
Proof. intros c. split; [by vm_compute |]. apply (compaction_uncommitted 51200 c); cbn; lia. Defined.

(** ** Questions *)

(** [VmDirValidateOp] *)
Definition VmDirValidateOp (bExternal : bool) (s : raft_state) : dwerror :=
  if bExternal && disallowUpdates s then VMDIR_ERROR_UNWILLING_TO_PERFORM else ERROR_SUCCESS.

Definition is_role (r : VDIR_RAFT_ROLE) (s : raft_state) : bool := bool_decide (role s = r).
Definition non_empty (v : cstr) : bool := negb (IsNullOrEmptyString (Some v)).

(** [VmDirAllocateStringPrintf] of one string. *)
Definition copy_string (v : cstr) : RM raft_state (option cstr) :=
  VmDirAllocateMemory (Z.of_nat (length v) + 1) ;;; rret (Some v).

Definition VmDirRaftGetLeader : RM raft_state (option cstr) :=
  s <- rget ;;
  if (clusterSize s >=? 2) && is_role VDIR_RAFT_ROLE_FOLLOWER s && non_empty (leader s) then copy_string (leader s) else rret None.

Definition VmDirRaftGetRole (s : raft_state) : VDIR_RAFT_ROLE :=
  if clusterSize s <? 2 then VDIR_RAFT_ROLE_LEADER else role s.

Definition VmDirRaftGetLeaderString : RM raft_state (option cstr) :=
  s <- rget ;;
  if (clusterSize s <? 2) && non_empty (hostname s) then copy_string (hostname s)
  else if is_role VDIR_RAFT_ROLE_FOLLOWER s && non_empty (leader s) then copy_string (leader s)
  else if is_role VDIR_RAFT_ROLE_LEADER s && non_empty (hostname s) then copy_string (hostname s)
  else rret None.

(** The loop of [VmDirRaftGetFollowers] over the active peers; a push takes a
    node and a copy of the name. *)
Fixpoint push_followers (ps : list VMDIR_PEER_PROXY) (q : list cstr) : RM raft_state (list cstr) :=
  match ps with
  | [] => rret q
  | p :: ps =>
      if isDeleted p || bool_decide (proxy_state p = RPC_DISCONN) then push_followers ps q
      else copy_string (raftPeerHostname p) ;;; VmDirAllocateMemory 24 ;;; push_followers ps (q ++ [raftPeerHostname p])
  end.

Definition VmDirRaftGetFollowers (q : list cstr) : RM raft_state (list cstr) :=
  s <- rget ;;
  if clusterSize s <? 2 then rret q
  else if is_role VDIR_RAFT_ROLE_FOLLOWER s && non_empty (hostname s)
  then copy_string (hostname s) ;;; VmDirAllocateMemory 24 ;;; rret (q ++ [hostname s])
  else if is_role VDIR_RAFT_ROLE_LEADER s then push_followers (proxies s) q
  else rret q.

Lemma copy_string_quiet v (s : raft_state) : copy_string v s [] = Some (inr (Some v), s, []).
Proof.
  unfold copy_string, VmDirAllocateMemory. rewrite (proj2 (Z.eqb_neq _ _)) by lia. reflexivity.
Qed.

Definition active (p : VMDIR_PEER_PROXY) : Prop := isDeleted p = false ∧ proxy_state p ≠ RPC_DISCONN.

Lemma push_followers_quiet ps q s :
  push_followers ps q s [] = Some (inr (q ++ map raftPeerHostname (filter active ps)), s, []).
Proof.
  revert q. induction ps as [|p ps IH]; intros q; cbn [push_followers]; [by rewrite app_nil_r |].
  destruct (isDeleted p) eqn:Hd; cbn [orb].
  { rewrite filter_cons_False by (intros [? _]; congruence). apply IH. }
  case_bool_decide as Hs.
  { rewrite filter_cons_False by (by intros [_ ?]). apply IH. }
  rewrite filter_cons_True by done. unfold rbind at 1. rewrite copy_string_quiet. unfold rbind at 1.
  change (VmDirAllocateMemory 24 s []) with (Some (inr (replicate 24 0) : dwerror + list Z, s, [] : env)). cbv beta iota. rewrite IH. cbn [map]. by rewrite <- app_assoc.
Qed.

(** The answers about the cluster agree.  On a server with a name, a leader
    names itself as leader and lists exactly its connected peers as followers;
    a follower that knows the leader names it, refers clients to it, and lists
    itself; a server on its own names itself, has no followers and refers
    nobody, whatever its role. *)
Theorem cluster_answers s :
  hostname s ≠ [] →
  match VmDirRaftGetRole s with
  | VDIR_RAFT_ROLE_LEADER =>
      VmDirRaftGetLeaderString s [] = Some (inr (Some (hostname s)), s, []) ∧ VmDirRaftGetLeader s [] = Some (inr None, s, []) ∧
      VmDirRaftGetFollowers [] s [] =
        Some (inr (if clusterSize s <? 2 then [] else map raftPeerHostname (filter active (proxies s))), s, [])
  | VDIR_RAFT_ROLE_FOLLOWER =>
      (leader s ≠ [] → VmDirRaftGetLeaderString s [] = Some (inr (Some (leader s)), s, []) ∧
                       VmDirRaftGetLeader s [] = Some (inr (Some (leader s)), s, [])) ∧
      VmDirRaftGetFollowers [] s [] = Some (inr [hostname s], s, [])
  | VDIR_RAFT_ROLE_CANDIDATE =>
      VmDirRaftGetLeaderString s [] = Some (inr None, s, []) ∧ VmDirRaftGetLeader s [] = Some (inr None, s, []) ∧
      VmDirRaftGetFollowers [] s [] = Some (inr [], s, [])
  end.
Proof.
  intros Hh. assert (non_empty (hostname s) = true) as Hne by (unfold non_empty; by destruct (hostname s)).
  unfold VmDirRaftGetRole, VmDirRaftGetLeaderString, VmDirRaftGetLeader, VmDirRaftGetFollowers.
  unfold rbind, rget. rewrite Hne, Z.geb_leb, (Z.leb_antisym (clusterSize s) 2). destruct (clusterSize s <? 2); cbn [andb negb].
  { by rewrite copy_string_quiet. }
  unfold is_role. destruct (role s) eqn:Hr; cbn [bool_decide decide_rel role_eq_dec andb];
    rewrite ?bool_decide_eq_true_2, ?bool_decide_eq_false_2 by done; cbn [andb].
  - done.
  - split; [| rewrite copy_string_quiet; reflexivity]. intros Hl. assert (non_empty (leader s) = true) as -> by (unfold non_empty; by destruct (leader s)).
    cbn [andb]. by rewrite copy_string_quiet.
  - rewrite bool_decide_eq_true_2 by done. cbn [andb]. rewrite copy_string_quiet. split; [done |]. split; [done |]. apply (push_followers_quiet (proxies s) []).
Qed.

Lemma cluster_answers_witness :
  hostname srv_started ≠ [] ∧ VmDirRaftGetRole srv_started = VDIR_RAFT_ROLE_LEADER ∧
  VmDirRaftGetLeaderString srv_started [] = Some (inr (Some (hostname srv_started)), srv_started, []).
Proof. split; [by vm_compute |]. split; [by vm_compute |]. apply (cluster_answers srv_started). by vm_compute. Defined.
