(* ===== verification/Filter.v ===== *)
(** * Filter: evaluating search filters on entries

    [vmdir/server/ldap-head/filter.c]: the filter of a search request as the
    parser leaves it, and [CheckIfEntryPassesFilter] with the tests of its
    items, up to the matching of substrings.  What the schema knows of an
    attribute type (its normalisation and matching rules) is part of the
    filter, as the function pointers of the source are.

    The evaluation is shown to be the three-valued one of RFC 4511, and the
    test of substrings to find the pieces in order and without overlap. *)

From S2P Require Import Prelude Heap StringList CString.

Open Scope Z_scope.

(** ** Data *)

(** A value ([VDIR_BERVALUE]): its bytes and, once known, its normal form. *)
Record berval := BER { bv_val : list Z; bvnorm_val : option (list Z) }.

(** [BERVAL_NORM_VAL] *)
Definition norm_or_raw (v : berval) : list Z := default (bv_val v) (bvnorm_val v).

Inductive VDIR_SCHEMA_MATCH_TYPE := VDIR_SCHEMA_MATCH_EQUAL | VDIR_SCHEMA_MATCH_GE | VDIR_SCHEMA_MATCH_LE.

Abbreviation compare_function := (VDIR_SCHEMA_MATCH_TYPE → berval → berval → bool).

(** [VDIR_SCHEMA_AT_DESC], as far as filters use it: [VmDirSchemaBervalNormalize]
    for the type, and the compare functions of its matching rules. *)
Record at_desc := AT_DESC {
  normalize : list Z → option (list Z);
  equalityCompare : option compare_function;
  orderingCompare : option compare_function
}.

Inductive VDIR_FILTER_COMPUTE_RESULT := FILTER_RES_NORMAL | FILTER_RES_TRUE | FILTER_RES_FALSE | FILTER_RES_UNDEFINED.

#[export] Instance compute_result_eq_dec : EqDecision VDIR_FILTER_COMPUTE_RESULT.
Proof. solve_decision. Defined.

(** [VDIR_CANDIDATES]; [size] is the length of [eIds]. *)
Record VDIR_CANDIDATES := CANDS { eIds : list Z; cmax : Z; positive : bool; eIdsSorted : bool }.

(** [AttrValAssertion] and [SubStringFilter] *)
Record AttrValAssertion := AVA { ava_desc : option at_desc; ava_type : cstr; ava_value : berval }.
Record SubStringFilter := SUBSTR {
  ss_desc : option at_desc; ss_type : cstr; ss_initial : berval; ss_any : list berval; ss_final : berval
}.

(** The fields of [VDIR_FILTER] that the search sets. *)
Record filter_node := NODE {
  computeResult : VDIR_FILTER_COMPUTE_RESULT;
  iMaxIndexScan : Z;
  bAncestorGotPositiveCandidateSet : bool;
  candidates : option VDIR_CANDIDATES
}.

(** The choices without components; [FUnsupported] is a choice the server does
    not know. *)
Inductive filter_item :=
  | FEquality (a : AttrValAssertion)
  | FGe (a : AttrValAssertion)
  | FLe (a : AttrValAssertion)
  | FSubstrings (s : SubStringFilter)
  | FPresent (t : cstr)
  | FOneLevel (parentDn : berval)
  | FUnsupported.

Inductive VDIR_FILTER :=
  | FAnd (n : filter_node) (complex : list VDIR_FILTER)
  | FOr (n : filter_node) (complex : list VDIR_FILTER)
  | FNot (n : filter_node) (complex : VDIR_FILTER)
  | FItem (n : filter_node) (i : filter_item).

(** An entry: its id, its attributes, the normal form of its DN (when it can be
    normalised) and that of its parent ([VmDirGetParentDN]). *)
Record entry := ENTRY {
  e_id : Z;
  e_attrs : list (cstr * list berval);
  e_dn_norm : option (list Z);
  e_parent_norm : option (list Z)
}.

(** ** Items *)

Section Tests.

(** [LwRtlCStringCompare], through [VmDirStringCompareA]. *)
Context (compare : cstr → cstr → bool → Z).

Definition ATTR_DN : cstr := ["e"; "n"; "t"; "r"; "y"; "D"; "N"]%char.

(** The type of an attribute is that of the filter. *)
Definition same_type (t u : cstr) : bool := (length t =? length u)%nat && (compare t u false =? 0).

(** The normal form of an attribute value, computed when it is not there. *)
Definition norm_value (d : at_desc) (v : berval) : option berval :=
  match bvnorm_val v with
  | Some _ => Some v
  | None => (λ n, BER (bv_val v) (Some n)) <$> normalize d (bv_val v)
  end.

(** The loop over the values of the attribute. *)
Fixpoint test_values (d : at_desc) (matches : berval → bool) (vs : list berval) : VDIR_FILTER_COMPUTE_RESULT :=
  match vs with
  | [] => FILTER_RES_FALSE
  | v :: vs =>
      match norm_value d v with
      | None => FILTER_RES_UNDEFINED
      | Some v => if matches v then FILTER_RES_TRUE else test_values d matches vs
      end
  end.

Definition bytes_equal (v w : berval) : bool := bool_decide (norm_or_raw v = norm_or_raw w).

(** [TestAvaFilter] after the choice of the compare function: the first
    attribute of the type decides. *)
Definition test_ava (a : AttrValAssertion) (d : at_desc) (m : VDIR_SCHEMA_MATCH_TYPE) (f : option compare_function)
    (e : entry) : VDIR_FILTER_COMPUTE_RESULT :=
  match list_find (λ x, same_type (ava_type a) x.1) (e_attrs e) with
  | Some (_, (_, vs)) =>
      test_values d (λ v, match f with Some f => f m v (ava_value a) | None => bytes_equal (ava_value a) v end) vs
  | None => FILTER_RES_FALSE
  end.

Inductive ava_choice := ChoiceEquality | ChoiceGe | ChoiceLe.

Definition TestAvaFilter (n : filter_node) (c : ava_choice) (a : AttrValAssertion) (e : entry)
    : option VDIR_FILTER_COMPUTE_RESULT :=
  match computeResult n with
  | FILTER_RES_NORMAL =>
      match ava_desc a with
      | None => None
      | Some d =>
          Some match c, orderingCompare d with
               | ChoiceEquality, _ => test_ava a d VDIR_SCHEMA_MATCH_EQUAL (equalityCompare d) e
               | _, None => FILTER_RES_UNDEFINED
               | ChoiceGe, Some f => test_ava a d VDIR_SCHEMA_MATCH_GE (Some f) e
               | ChoiceLe, Some f => test_ava a d VDIR_SCHEMA_MATCH_LE (Some f) e
               end
      end
  | r => Some r
  end.

Definition TestOneLevelFilter (n : filter_node) (parentDn : berval) (e : entry) : VDIR_FILTER_COMPUTE_RESULT :=
  match computeResult n with
  | FILTER_RES_NORMAL =>
      match e_dn_norm e, e_parent_norm e with
      | Some _, Some p =>
          if bool_decide (p = default [] (bvnorm_val parentDn)) then FILTER_RES_TRUE else FILTER_RES_FALSE
      | _, _ => FILTER_RES_FALSE
      end
  | r => r
  end.

Definition TestPresentFilter (n : filter_node) (t : cstr) (e : entry) : VDIR_FILTER_COMPUTE_RESULT :=
  match computeResult n with
  | FILTER_RES_NORMAL | FILTER_RES_TRUE =>
      if existsb (λ x, same_type t x.1) (e_attrs e) then FILTER_RES_TRUE else FILTER_RES_FALSE
  | r => r
  end.

(** ** Substrings *)

(** [memchr]: the offset of a byte within the first [len] bytes; reading past
    the value is not defined. *)
Fixpoint memchr (s : list Z) (c len : Z) : option (option nat) :=
  if len <=? 0 then Some None
  else match s with
       | [] => None
       | x :: s => if x =? c then Some (Some 0%nat)
                   else match memchr s c (len - 1) with Some (Some k) => Some (Some (S k)) | r => r end
       end.

(** [memcmp] of the bytes of [p]. *)
Definition memcmp_equal (rem p : list Z) : option bool :=
  if (length rem <? length p)%nat then None else Some (bool_decide (take (length p) rem = p)).

(** The search for one piece from [next_pos] on, in the [remLen] bytes from
    [rem]; the result is what is left behind the piece.  The first byte of an
    empty piece is its terminator. *)
Fixpoint find_piece (fuel : nat) (p rem : list Z) (remLen : Z) : option (option (list Z * Z)) :=
  match fuel with
  | O => None
  | S fuel =>
      if Z.of_nat (length p) >? remLen then Some None
      else
        k ← memchr rem (default 0 (head p)) remLen;
        match k with
        | None => Some None
        | Some k =>
            let rem := drop k rem in
            let remLen := remLen - Z.of_nat k in
            if Z.of_nat (length p) >? remLen then Some None
            else
              b ← memcmp_equal rem p;
              if b : bool then Some (Some (drop (length p) rem, remLen - Z.of_nat (length p)))
              else find_piece fuel p (drop 1 rem) (remLen - 1)
        end
  end.

(** [TestSubstringAny]; each round of [next_pos] drops a byte. *)
Fixpoint TestSubstringAny (anys : list (list Z)) (v : list Z) (len : Z) : option VDIR_FILTER_COMPUTE_RESULT :=
  match anys with
  | [] => Some FILTER_RES_TRUE
  | p :: anys =>
      r ← find_piece (S (length v)) p v len;
      match r with
      | Some (v, len) => TestSubstringAny anys v len
      | None => Some FILTER_RES_FALSE
      end
  end.

(** The value begins with [p], ends with [p]. *)
Definition starts_with (p v : list Z) : bool := (length p <=? length v)%nat && bool_decide (take (length p) v = p).
Definition ends_with (p v : list Z) : bool := (length p <=? length v)%nat && bool_decide (drop (length v - length p) v = p).

(** The test of one value.  The length that is left for the middle pieces is
    unsigned: it wraps around when the first and the last piece overlap. *)
Definition test_substring_value (s : SubStringFilter) (v : list Z) : option bool :=
  let initial := norm_or_raw (ss_initial s) in
  let final := norm_or_raw (ss_final s) in
  let existInitial := negb (length (bv_val (ss_initial s)) =? 0)%nat in
  let existFinal := negb (length (bv_val (ss_final s)) =? 0)%nat in
  let existAny := negb (length (ss_any s) =? 0)%nat in
  let evalInitial := existInitial && negb (length initial =? 0)%nat && starts_with initial v in
  let evalFinal := existFinal && negb (length final =? 0)%nat && ends_with final v in
  let i := if evalInitial then length initial else 0%nat in
  let f := if evalFinal then length final else 0%nat in
  r ← (if existAny
       then TestSubstringAny (map norm_or_raw (ss_any s)) (drop i v) (u64 (Z.of_nat (length v) - Z.of_nat i - Z.of_nat f))
       else Some FILTER_RES_FALSE);
  let evalAny := bool_decide (r = FILTER_RES_TRUE) in
  Some ((negb existInitial || evalInitial) && (negb existFinal || evalFinal) && (negb existAny || evalAny)).

(** The loop over the values, as in [test_values]. *)
Fixpoint test_substring_values (d : at_desc) (s : SubStringFilter) (vs : list berval)
    : option (option VDIR_FILTER_COMPUTE_RESULT) :=
  match vs with
  | [] => Some None
  | v :: vs =>
      match norm_value d v with
      | None => Some (Some FILTER_RES_UNDEFINED)
      | Some v =>
          b ← test_substring_value s (norm_or_raw v);
          if b : bool then Some (Some FILTER_RES_TRUE) else test_substring_values d s vs
      end
  end.

(** The loop over the attributes: unlike in [TestAvaFilter] all of the type are
    looked at. *)
Fixpoint test_substring_attrs (d : at_desc) (s : SubStringFilter) (attrs : list (cstr * list berval))
    : option VDIR_FILTER_COMPUTE_RESULT :=
  match attrs with
  | [] => Some FILTER_RES_FALSE
  | (t, vs) :: attrs =>
      if same_type (ss_type s) t then
        r ← test_substring_values d s vs;
        match r with Some r => Some r | None => test_substring_attrs d s attrs end
      else test_substring_attrs d s attrs
  end.

Definition TestSubstringsFilter (n : filter_node) (s : SubStringFilter) (e : entry) : option VDIR_FILTER_COMPUTE_RESULT :=
  match computeResult n with
  | FILTER_RES_NORMAL =>
      if compare (ss_type s) ATTR_DN false =? 0 then
        Some match e_dn_norm e with
             | None => FILTER_RES_UNDEFINED
             | Some dn =>
                 let final := norm_or_raw (ss_final s) in
                 if negb (length (bv_val (ss_final s)) =? 0)%nat && negb (length final =? 0)%nat && ends_with final dn
                 then FILTER_RES_TRUE else FILTER_RES_FALSE
             end
      else match ss_desc s with
           | None => None
           | Some d => test_substring_attrs d s (e_attrs e)
           end
  | r => Some r
  end.

(** ** The whole filter *)

Definition test_item (n : filter_node) (i : filter_item) (e : entry) : option VDIR_FILTER_COMPUTE_RESULT :=
  match i with
  | FEquality a => TestAvaFilter n ChoiceEquality a e
  | FGe a => TestAvaFilter n ChoiceGe a e
  | FLe a => TestAvaFilter n ChoiceLe a e
  | FSubstrings s => TestSubstringsFilter n s e
  | FPresent t => Some (TestPresentFilter n t e)
  | FOneLevel p => Some (TestOneLevelFilter n p e)
  | FUnsupported => Some FILTER_RES_FALSE
  end.

(** The loop over the components of an AND or OR: it ends at the result [stop];
    [retVal] is the result of the last one, [FILTER_RES_FALSE] before the first. *)
Fixpoint check_components (stop : VDIR_FILTER_COMPUTE_RESULT) (foundAnUndefined : bool)
    (retVal : VDIR_FILTER_COMPUTE_RESULT) (rs : list (option VDIR_FILTER_COMPUTE_RESULT)) : option VDIR_FILTER_COMPUTE_RESULT :=
  match rs with
  | [] => Some (if foundAnUndefined then FILTER_RES_UNDEFINED else retVal)
  | r :: rs =>
      r ← r;
      if decide (r = stop) then Some stop
      else check_components stop (foundAnUndefined || bool_decide (r = FILTER_RES_UNDEFINED)) r rs
  end.

Definition not_result (r : VDIR_FILTER_COMPUTE_RESULT) : VDIR_FILTER_COMPUTE_RESULT :=
  match r with
  | FILTER_RES_TRUE => FILTER_RES_FALSE
  | FILTER_RES_FALSE => FILTER_RES_TRUE
  | _ => FILTER_RES_UNDEFINED
  end.

Fixpoint CheckIfEntryPassesFilter (e : entry) (f : VDIR_FILTER) : option VDIR_FILTER_COMPUTE_RESULT :=
  match f with
  | FAnd _ fs => check_components FILTER_RES_FALSE false FILTER_RES_FALSE (map (CheckIfEntryPassesFilter e) fs)
  | FOr _ fs => check_components FILTER_RES_TRUE false FILTER_RES_FALSE (map (CheckIfEntryPassesFilter e) fs)
  | FNot _ f => not_result <$> CheckIfEntryPassesFilter e f
  | FItem n i => test_item n i e
  end.

(** *** What the tests of substrings decide *)

(** The pieces occur in this order, without overlap. *)
Fixpoint has_pieces (anys : list (list Z)) (w : list Z) : Prop :=
  match anys with
  | [] => True
  | p :: anys => ∃ a b, w = a ++ p ++ b ∧ has_pieces anys b
  end.

Lemma has_pieces_suffix anys a w : has_pieces anys w → has_pieces anys (a ++ w).
Proof.
  destruct anys as [|p anys]; [done |]. intros (x & y & -> & H). exists (a ++ x), y. by rewrite <- app_assoc.
Qed.

(** [memchr] within the value: the first occurrence. *)
Lemma memchr_spec s c len :
  0 <= len <= Z.of_nat (length s) →
  ∃ r, memchr s c len = Some r ∧
    match r with
    | Some k => Z.of_nat k < len ∧ s !! k = Some c ∧ ∀ j, (j < k)%nat → s !! j ≠ Some c
    | None => ∀ j, Z.of_nat j < len → s !! j ≠ Some c
    end.
Proof.
  revert len. induction s as [|x s IH]; intros len Hlen; cbn [memchr].
  - cbn in Hlen. rewrite (proj2 (Z.leb_le len 0)) by lia. exists None. split; [done |]. intros j Hj. lia.
  - cbn [length] in Hlen. destruct (Z.leb_spec len 0).
    { exists None. split; [done |]. intros j Hj. lia. }
    destruct (Z.eqb_spec x c) as [-> | Hne].
    { exists (Some 0%nat). split; [done |]. split; [lia |]. split; [done |]. intros j Hj. lia. }
    destruct (IH (len - 1)) as (r & -> & Hr); [lia |]. destruct r as [k|].
    + exists (Some (S k)). split; [done |]. destruct Hr as (H1 & H2 & H3). split; [lia |]. split; [done |].
      intros [|j] Hj; [cbn; congruence | apply H3; lia].
    + exists None. split; [done |]. intros [|j] Hj; [cbn; congruence | apply Hr; lia].
Qed.

(** Where [p] occurs in the first [len] bytes of [v]. *)
Definition occurs (p v : list Z) (len : Z) (k : nat) : Prop :=
  Z.of_nat k + Z.of_nat (length p) <= len ∧ take (length p) (drop k v) = p.

Lemma occurs_head p v len k : p ≠ [] → occurs p v len k → v !! k = Some (default 0 (head p)).
Proof.
  destruct p as [|c p]; [done |]. intros _ [_ H]. cbn [length] in H. cbn. rewrite <- (Nat.add_0_r k), <- lookup_drop.
  destruct (drop k v) as [|x w]; [done |]. cbn in H. injection H as -> _. done.
Qed.

Lemma occurs_drop p v len k m : (m <= k)%nat → occurs p v len k ↔ occurs p (drop m v) (len - Z.of_nat m) (k - m).
Proof. intros Hm. unfold occurs. rewrite drop_drop. replace (m + (k - m))%nat with k by lia. split; intros [? ?]; split; (done || lia). Qed.

(** The search for a piece gives the first occurrence. *)
Lemma find_piece_spec fuel p v len :
  p ≠ [] → 0 <= len <= Z.of_nat (length v) → (length v < fuel)%nat →
  ∃ r, find_piece fuel p v len = Some r ∧
    match r with
    | Some (w, l) => ∃ k, occurs p v len k ∧ (∀ j, occurs p v len j → (k <= j)%nat) ∧
                       w = drop (k + length p) v ∧ l = len - Z.of_nat (k + length p)
    | None => ∀ j, ¬ occurs p v len j
    end.
Proof.
  intros Hp. revert v len. induction fuel as [|fuel IH]; intros v len Hlen Hfuel; [lia |]. cbn [find_piece].
  destruct (Z.gtb_spec (Z.of_nat (length p)) len).
  { exists None. split; [done |]. intros j [Hj _]. lia. }
  destruct (memchr_spec v (default 0 (head p)) len Hlen) as (r & -> & Hr). cbn [mbind option_bind]. destruct r as [k|].
  2: { exists None. split; [done |]. intros j Hj. pose proof (occurs_head p v len j Hp Hj) as Hh. destruct Hj as [Hj _].
       apply (Hr j); [| done]. destruct p; [done | cbn in Hj; lia]. }
  destruct Hr as (Hk & Hat & Hbefore).
  assert (∀ j, occurs p v len j → (k <= j)%nat) as Hmin.
  { intros j Hj. destruct (decide (k <= j)%nat); [done |]. destruct (Hbefore j); [lia | by apply (occurs_head p v len)]. }
  destruct (Z.gtb_spec (Z.of_nat (length p)) (len - Z.of_nat k)).
  { exists None. split; [done |]. intros j Hj. specialize (Hmin j Hj). destruct Hj. lia. }
  unfold memcmp_equal. rewrite length_drop. rewrite (proj2 (Nat.ltb_ge _ _)) by lia. cbn [mbind option_bind].
  case_bool_decide as Hm.
  - eexists (Some (_, _)). split; [reflexivity |]. exists k. split; [split; [lia | done] |]. split; [done |].
    rewrite drop_drop. split; [done | lia].
  - destruct (IH (drop 1 (drop k v)) (len - Z.of_nat k - 1)) as (r & -> & Hr).
    { rewrite drop_drop, length_drop. destruct p; [done |]. cbn in *. lia. }
    { rewrite drop_drop, length_drop. apply lookup_lt_Some in Hat. lia. }
    assert (∀ j, occurs p v len j ↔ (k < j)%nat ∧ occurs p (drop 1 (drop k v)) (len - Z.of_nat k - 1) (j - S k)) as Hocc.
    { intros j. rewrite drop_drop. replace (k + 1)%nat with (S k) by lia. split.
      - intros Hj. pose proof (Hmin j Hj). destruct (decide (j = k)) as [-> | Hne]; [by destruct Hj |].
        split; [lia |]. replace (len - Z.of_nat k - 1) with (len - Z.of_nat (S k)) by lia. apply occurs_drop; [lia | done].
      - intros [Hlt Hj]. apply (occurs_drop p v len j (S k)); [lia |]. by replace (len - Z.of_nat (S k)) with (len - Z.of_nat k - 1) by lia. }
    exists r. split; [done |]. destruct r as [[w l]|].
    + destruct Hr as (k' & Hk' & Hmin' & -> & ->). exists (S k + k')%nat. split; [| split; [| split]].
      * apply Hocc. split; [lia |]. by replace (S k + k' - S k)%nat with k' by lia.
      * intros j [Hlt Hj]%Hocc. specialize (Hmin' _ Hj). lia.
      * rewrite !drop_drop. f_equal. lia.
      * lia.
    + intros j [_ Hj]%Hocc. exact (Hr _ Hj).
Qed.

(** Occurrences and splittings of the first [len] bytes. *)
Lemma split_occurs p v len a b :
  0 <= len <= Z.of_nat (length v) → take (Z.to_nat len) v = a ++ p ++ b → occurs p v len (length a).
Proof.
  intros Hlen Hab. assert (Z.of_nat (length (take (Z.to_nat len) v)) = len) as Hl by (rewrite length_take; lia).
  rewrite Hab, !length_app in Hl. split; [lia |].
  rewrite <- (take_drop (Z.to_nat len) v), Hab, <- !app_assoc, drop_app_length, take_app_length. done.
Qed.

(** What is left behind an occurrence at [j]. *)
Definition behind (p v : list Z) (len : Z) (j : nat) : list Z := take (Z.to_nat len - (j + length p)) (drop (j + length p) v).

Lemma occurs_split p v len j :
  occurs p v len j → take (Z.to_nat len) v = take j v ++ p ++ behind p v len j.
Proof.
  intros [Hj Hp']. rewrite <- (take_drop j (take _ v)), take_take. f_equal; [f_equal; lia |].
  rewrite <- (take_drop (length p) (drop j (take _ v))). rewrite skipn_firstn_comm, take_take. f_equal.
  - rewrite Nat.min_l by lia. done.
  - unfold behind. rewrite skipn_firstn_comm, drop_drop. f_equal. lia.
Qed.

(** An earlier occurrence leaves more. *)
Lemma behind_earlier p v len k j :
  (k <= j)%nat → Z.of_nat j + Z.of_nat (length p) <= len →
  behind p v len k = take (j - k) (drop (k + length p) v) ++ behind p v len j.
Proof.
  intros Hkj Hj. unfold behind.
  rewrite <- (take_drop (j - k) (take (Z.to_nat len - (k + length p)) (drop (k + length p) v))), take_take, skipn_firstn_comm, drop_drop.
  f_equal; [f_equal; lia |]. f_equal; [lia |]. f_equal. lia.
Qed.

(** The search for the middle pieces of a substring filter is exact: within a
    value it finds the pieces if and only if they occur there one after the
    other without overlap, although it takes the first place for each; it
    terminates and does not read past the value. *)
Lemma substring_any_run anys v len :
  Forall (λ p, p ≠ []) anys → 0 <= len <= Z.of_nat (length v) →
  ∃ r, TestSubstringAny anys v len = Some r ∧ (r = FILTER_RES_TRUE ↔ has_pieces anys (take (Z.to_nat len) v)).
Proof.
  revert v len. induction anys as [|p anys IH]; intros v len Hall Hlen; cbn [TestSubstringAny has_pieces]; [by eexists |].
  apply Forall_cons in Hall as [Hp Hall]. destruct (find_piece_spec (S (length v)) p v len) as (r & -> & Hr); [done | done | lia |].
  cbn [mbind option_bind]. destruct r as [[w l]|].
  - destruct Hr as (k & [Hk Hat] & Hmin & -> & ->).
    destruct (IH (drop (k + length p) v) (len - Z.of_nat (k + length p))) as (r & -> & Hr); [done | rewrite length_drop; lia |].
    exists r. split; [done |]. rewrite Hr.
    replace (take (Z.to_nat (len - Z.of_nat (k + length p))) (drop (k + length p) v)) with (behind p v len k) by (unfold behind; f_equal; lia).
    split.
    + intros Hb. do 2 eexists. split; [by apply occurs_split | done].
    + intros (a & b & Hab & Hb). pose proof (split_occurs _ _ _ _ _ Hlen Hab) as Hocc.
      pose proof (Hmin _ Hocc) as Hle. rewrite (occurs_split _ _ _ _ Hocc) in Hab.
      assert (length (take (length a) v) = length a) as Hla by (rewrite length_take; destruct Hocc; lia).
      apply app_inj_1 in Hab as [_ Hab]; [| done]. apply app_inj_1 in Hab as [_ <-]; [| done].
      rewrite (behind_earlier p v len k (length a)) by (destruct Hocc; lia). by apply has_pieces_suffix.
  - exists FILTER_RES_FALSE. split; [done |]. split; [done |]. intros (a & b & Hab & _). by destruct (Hr (length a)); eapply split_occurs.
Qed.

Lemma starts_with_iff p v : starts_with p v = true ↔ ∃ w, v = p ++ w.
Proof.
  unfold starts_with. rewrite andb_true_iff, Nat.leb_le, bool_decide_eq_true. split.
  - intros [_ H]. exists (drop (length p) v). rewrite <- (take_drop (length p) v) at 1. by rewrite H.
  - intros [w ->]. rewrite length_app, take_app_length. split; [lia | done].
Qed.

Lemma ends_with_iff p v : ends_with p v = true ↔ ∃ w, v = w ++ p.
Proof.
  unfold ends_with. rewrite andb_true_iff, Nat.leb_le, bool_decide_eq_true. split.
  - intros [_ H]. exists (take (length v - length p) v). rewrite <- (take_drop (length v - length p) v) at 1. by rewrite H.
  - intros [w ->]. rewrite length_app. split; [lia |]. replace (length w + length p - length p)%nat with (length w) by lia. by rewrite drop_app_length.
Qed.

Lemma length_zero {A} (l : list A) : (length l =? 0)%nat = bool_decide (l = []).
Proof. by destruct l. Qed.

(** The middle of a value that is long enough for its ends. *)
Lemma middle_split i f (v : list Z) :
  (length i + length f <= length v)%nat → (∃ w, v = i ++ w) → (∃ w, v = w ++ f) →
  v = i ++ take (length v - length i - length f) (drop (length i) v) ++ f.
Proof.
  intros Hlen [w Hw] [u Hu]. rewrite <- (take_drop (length i) v) at 1. rewrite Hw at 1. rewrite take_app_length. f_equal.
  rewrite <- (take_drop (length v - length i - length f) (drop (length i) v)) at 1. f_equal.
  rewrite drop_drop. replace (length i + (length v - length i - length f))%nat with (length u) by (rewrite Hu, length_app in *; lia).
  rewrite Hu. apply drop_app_length.
Qed.

(** Values that are long enough for both ends. *)
Lemma substring_long s v :
  let i := norm_or_raw (ss_initial s) in
  let f := norm_or_raw (ss_final s) in
  let anys := map norm_or_raw (ss_any s) in
  (bv_val (ss_initial s) = [] ↔ i = []) → (bv_val (ss_final s) = [] ↔ f = []) → Forall (λ p, p ≠ []) anys →
  (length i + length f <= length v)%nat → Z.of_nat (length v) < 2 ^ 64 →
  ∃ b, test_substring_value s v = Some b ∧ (b = true ↔ ∃ m, v = i ++ m ++ f ∧ has_pieces anys m).
Proof.
  intros i f anys Hi Hf Hany Hlen Hmax. unfold test_substring_value. fold i f anys. rewrite !length_zero.
  rewrite (bool_decide_ext _ _ Hi), (bool_decide_ext _ _ Hf).
  set (ei := negb (bool_decide (i = [])) && negb (bool_decide (i = [])) && starts_with i v).
  set (ef := negb (bool_decide (f = [])) && negb (bool_decide (f = [])) && ends_with f v).
  assert (starts_with [] v = true ∧ ends_with [] v = true) as [Hs0 He0].
  { rewrite starts_with_iff, ends_with_iff. split; exists v; [done | by rewrite app_nil_r]. }
  assert (negb (negb (bool_decide (i = []))) || ei = starts_with i v ∧ (if ei then length i else 0%nat) = if starts_with i v then length i else 0%nat) as [Hei ->].
  { unfold ei. destruct (decide (i = [])) as [H | H]; [rewrite !bool_decide_eq_true_2 by done | by rewrite !bool_decide_eq_false_2 by done].
    rewrite H, Hs0. done. }
  assert (negb (negb (bool_decide (f = []))) || ef = ends_with f v ∧ (if ef then length f else 0%nat) = if ends_with f v then length f else 0%nat) as [Hef ->].
  { unfold ef. destruct (decide (f = [])) as [H | H]; [rewrite !bool_decide_eq_true_2 by done | by rewrite !bool_decide_eq_false_2 by done].
    rewrite H, He0. done. }
  set (I := if starts_with i v then length i else 0%nat). set (F := if ends_with f v then length f else 0%nat).
  assert ((I <= length i)%nat ∧ (F <= length f)%nat) as [HI HF] by (unfold I, F; destruct (starts_with i v), (ends_with f v); lia).
  rewrite u64_id by (unfold is_u64; lia).
  destruct (substring_any_run anys (drop I v) (Z.of_nat (length v) - Z.of_nat I - Z.of_nat F)) as (r & Hr & Hiff); [done | rewrite length_drop; lia |].
  assert (∃ r', (if negb (bool_decide (ss_any s = [])) then TestSubstringAny anys (drop I v) (Z.of_nat (length v) - Z.of_nat I - Z.of_nat F)
                 else Some FILTER_RES_FALSE) = Some r' ∧
    negb (negb (bool_decide (ss_any s = []))) || bool_decide (r' = FILTER_RES_TRUE) = bool_decide (r = FILTER_RES_TRUE)) as (r' & -> & Hr').
  { destruct (decide (ss_any s = [])) as [H | H]; [rewrite !bool_decide_eq_true_2 by done | rewrite !bool_decide_eq_false_2 by done; by exists r]. exists FILTER_RES_FALSE. split; [done |]. unfold anys in Hr. rewrite H in Hr. cbn in Hr. by injection Hr as <-. }
  cbn [mbind option_bind]. rewrite Hei, Hef, Hr'. eexists. split; [reflexivity |].
  rewrite !andb_true_iff, starts_with_iff, ends_with_iff, bool_decide_eq_true, Hiff. split.
  - intros [[Hs He] Hp]. assert (starts_with i v = true) as Hs' by by apply starts_with_iff. assert (ends_with f v = true) as He' by by apply ends_with_iff.
    eexists. split; [by apply middle_split |]. unfold I, F in Hp. rewrite Hs', He' in Hp.
    by replace (Z.to_nat (Z.of_nat (length v) - Z.of_nat (length i) - Z.of_nat (length f))) with (length v - length i - length f)%nat in Hp by lia.
  - intros (m & Hm & Hp). assert (∃ w, v = i ++ w) as Hs by (by eexists). assert (∃ w, v = w ++ f) as He by (exists (i ++ m); by rewrite <- app_assoc).
    split; [done |]. assert (starts_with i v = true) as Hs' by by apply starts_with_iff. assert (ends_with f v = true) as He' by by apply ends_with_iff.
    unfold I, F. rewrite Hs', He'. replace (take _ _) with m; [done |].
    rewrite Hm. rewrite drop_app_length, !length_app.
    replace (Z.to_nat _) with (length m) by lia. by rewrite take_app_length.
Qed.

(** C30: The test of a value against a substring filter.  For a value that is at
    least as long as the first and the last piece together it is exact: it
    succeeds if and only if the value is the first piece, a middle with the
    other pieces in order, and the last piece.  A filter without pieces in the
    middle accepts, whatever the length, exactly the values that begin with the
    first and end with the last piece, also where the two overlap.  (Pieces are
    empty exactly when their normal forms are.) *)
Theorem substring_value_exact s v :
  let i := norm_or_raw (ss_initial s) in
  let f := norm_or_raw (ss_final s) in
  let anys := map norm_or_raw (ss_any s) in
  (bv_val (ss_initial s) = [] ↔ i = []) → (bv_val (ss_final s) = [] ↔ f = []) → Forall (λ p, p ≠ []) anys → Z.of_nat (length v) < 2 ^ 64 →
  ((length i + length f <= length v)%nat →
   ∃ b, test_substring_value s v = Some b ∧ (b = true ↔ ∃ m, v = i ++ m ++ f ∧ has_pieces anys m)) ∧
  (ss_any s = [] → ∃ b, test_substring_value s v = Some b ∧ (b = true ↔ (∃ m, v = i ++ m) ∧ (∃ m, v = m ++ f))).
Proof.
  intros i f anys Hi Hf Hany Hmax. split; [intros Hlen; by apply substring_long |]. intros Hnone.
  unfold test_substring_value. rewrite Hnone. cbn [length Nat.eqb negb mbind option_bind]. eexists. split; [reflexivity |].
  fold i f. rewrite !length_zero, (bool_decide_ext _ _ Hi), (bool_decide_ext _ _ Hf), andb_true_r, andb_true_iff, <- starts_with_iff, <- ends_with_iff.
  assert (starts_with [] v = true ∧ ends_with [] v = true) as [Hs0 He0].
  { rewrite starts_with_iff, ends_with_iff. split; exists v; [done | by rewrite app_nil_r]. }
  destruct (decide (i = [])) as [-> | H1], (decide (f = [])) as [-> | H2]; rewrite ?Hs0, ?He0, ?bool_decide_eq_true_2, ?bool_decide_eq_false_2 by done; done.
Qed.

(** *** The evaluation of RFC 4511 *)

(** AND is false if a component is false, true if all are true, and undefined
    otherwise; OR is its dual. *)
Definition rfc_and (rs : list VDIR_FILTER_COMPUTE_RESULT) : VDIR_FILTER_COMPUTE_RESULT :=
  if decide (FILTER_RES_FALSE ∈ rs) then FILTER_RES_FALSE
  else if decide (Forall (λ r, r = FILTER_RES_TRUE) rs) then FILTER_RES_TRUE else FILTER_RES_UNDEFINED.
Definition rfc_or (rs : list VDIR_FILTER_COMPUTE_RESULT) : VDIR_FILTER_COMPUTE_RESULT :=
  if decide (FILTER_RES_TRUE ∈ rs) then FILTER_RES_TRUE
  else if decide (Forall (λ r, r = FILTER_RES_FALSE) rs) then FILTER_RES_FALSE else FILTER_RES_UNDEFINED.

(** The value of a filter; [u] is that of a choice the server does not know,
    which in RFC 4511 is undefined. *)
Inductive rfc (u : VDIR_FILTER_COMPUTE_RESULT) (e : entry) : VDIR_FILTER → VDIR_FILTER_COMPUTE_RESULT → Prop :=
  | rfc_item n i r : i ≠ FUnsupported → test_item n i e = Some r → rfc u e (FItem n i) r
  | rfc_unsupported n : rfc u e (FItem n FUnsupported) u
  | rfc_not n f r : rfc u e f r → rfc u e (FNot n f) (not_result r)
  | rfc_all n fs rs : Forall2 (rfc u e) fs rs → rfc u e (FAnd n fs) (rfc_and rs)
  | rfc_any n fs rs : Forall2 (rfc u e) fs rs → rfc u e (FOr n fs) (rfc_or rs).

(** The filters the parser makes: an AND and an OR have components.  A choice the
    server does not know is allowed when [u] is false. *)
Fixpoint known_filter (u : VDIR_FILTER_COMPUTE_RESULT) (f : VDIR_FILTER) : Prop :=
  match f with
  | FAnd _ fs | FOr _ fs => fs ≠ [] ∧ fold_right (λ f P, known_filter u f ∧ P) True fs
  | FNot _ f => known_filter u f
  | FItem _ i => i = FUnsupported → u = FILTER_RES_FALSE
  end.

(** Induction with the components of a filter. *)
Fixpoint filter_ind' (P : VDIR_FILTER → Prop) (Hand : ∀ n fs, Forall P fs → P (FAnd n fs)) (Hor : ∀ n fs, Forall P fs → P (FOr n fs))
    (Hnot : ∀ n f, P f → P (FNot n f)) (Hitem : ∀ n i, P (FItem n i)) (f : VDIR_FILTER) : P f :=
  let all := fix all fs : Forall P fs :=
    match fs with
    | [] => Forall_nil_2 P
    | f :: fs => Forall_cons_2 P f fs (filter_ind' P Hand Hor Hnot Hitem f) (all fs)
    end in
  match f with
  | FAnd n fs => Hand n fs (all fs)
  | FOr n fs => Hor n fs (all fs)
  | FNot n f => Hnot n f (filter_ind' P Hand Hor Hnot Hitem f)
  | FItem n i => Hitem n i
  end.

Lemma known_components u fs : fold_right (λ f P, known_filter u f ∧ P) True fs ↔ Forall (known_filter u) fs.
Proof. induction fs as [|f fs IH]; cbn; [done |]. rewrite IH, Forall_cons. done. Qed.

(** The tests give one of the three truth values. *)
Lemma test_values_normal d m vs : test_values d m vs ≠ FILTER_RES_NORMAL.
Proof. induction vs as [|v vs IH]; cbn; [done |]. destruct (norm_value d v); [| done]. by destruct (m b). Qed.

Lemma test_substrings_normal d s attrs : test_substring_attrs d s attrs ≠ Some FILTER_RES_NORMAL.
Proof.
  assert (∀ vs, test_substring_values d s vs ≠ Some (Some FILTER_RES_NORMAL)) as Hv.
  { induction vs as [|v vs IH]; cbn; [done |]. destruct (norm_value d v); [| done].
    destruct (test_substring_value s (norm_or_raw b)) as [[]|]; done. }
  induction attrs as [|[t vs] attrs IH]; cbn; [done |]. destruct (same_type _ _); [| done].
  specialize (Hv vs). destruct (test_substring_values d s vs) as [[r|]|]; cbn; [| done | done]. intros [= ->]. by apply Hv.
Qed.

Lemma test_item_normal n i e : test_item n i e ≠ Some FILTER_RES_NORMAL.
Proof.
  assert (∀ a d m f, test_ava a d m f e ≠ FILTER_RES_NORMAL) as Hava.
  { intros a d m f. unfold test_ava. destruct (list_find _ _) as [[? [? vs]]|]; [apply test_values_normal | done]. }
  destruct i; cbn; unfold TestAvaFilter, TestSubstringsFilter, TestPresentFilter, TestOneLevelFilter; destruct (computeResult n); try done;
    try (destruct (ava_desc a) as [d|]; [| done]; destruct (orderingCompare d); intros [= H]; (done || by apply Hava in H)).
  - destruct (_ =? 0); [destruct (e_dn_norm e); [destruct (_ && _) |]; done |]. destruct (ss_desc s); [apply test_substrings_normal | done].
  - by destruct (existsb _ _).
  - by destruct (existsb _ _).
  - destruct (e_dn_norm e), (e_parent_norm e); try done. by destruct (bool_decide _).
Qed.

Lemma rfc_normal u e f r : u ≠ FILTER_RES_NORMAL → rfc u e f r → r ≠ FILTER_RES_NORMAL.
Proof.
  intros Hu H. inversion H; subst.
  - intros ->. by eapply test_item_normal.
  - done.
  - by destruct r0.
  - unfold rfc_and. by destruct (decide _); [| destruct (decide _)].
  - unfold rfc_or. by destruct (decide _); [| destruct (decide _)].
Qed.

(** The loop with its early exit computes the connectives. *)
Lemma check_components_run stop other u last rs :
  stop ≠ FILTER_RES_UNDEFINED → other ≠ FILTER_RES_UNDEFINED → Forall (λ r, r ∈ [stop; other; FILTER_RES_UNDEFINED]) rs →
  (rs = [] → last = other) →
  check_components stop u last (map Some rs) =
    Some (if decide (stop ∈ rs) then stop
          else if u then FILTER_RES_UNDEFINED else if decide (Forall (λ r, r = other) rs) then other else FILTER_RES_UNDEFINED).
Proof.
  intros Hs Ho. revert u last. induction rs as [|r rs IH]; intros u last Hall Hlast; cbn [map check_components].
  { rewrite decide_False, decide_True by (constructor || apply not_elem_of_nil). by rewrite Hlast; [destruct u |]. }
  apply Forall_cons in Hall as [Hr Hall]. cbn [mbind option_bind]. destruct (decide (r = stop)) as [-> | Hne].
  { rewrite decide_True by (by left). done. }
  destruct rs as [|r' rs'].
  { cbn. rewrite decide_False by (by intros ->%list_elem_of_singleton). rewrite !elem_of_cons in Hr.
    destruct Hr as [? | [-> | [-> | []%elem_of_nil]]]; [done | |].
    - rewrite bool_decide_eq_false_2 by done. rewrite orb_false_r. destruct u; [done |]. by rewrite decide_True by by repeat constructor.
    - rewrite bool_decide_eq_true_2 by done. rewrite orb_true_r. destruct u; [done |].
      rewrite decide_False; [done |]. by intros [? _]%Forall_cons. }
  rewrite IH by done. f_equal.
  destruct (decide (stop ∈ r' :: rs')) as [Hin | Hnin]; [by rewrite (decide_True (P := stop ∈ r :: r' :: rs')) by (by right) |].
  rewrite (decide_False (P := stop ∈ r :: r' :: rs')) by (by intros [? | ?]%elem_of_cons). destruct u; [done |]. cbn [orb]. case_bool_decide as Hu.
  - rewrite decide_False; [done |]. intros [? _]%Forall_cons. congruence.
  - assert (r = other) as ->. { rewrite !elem_of_cons in Hr. by destruct Hr as [? | [? | [? | []%elem_of_nil]]]. }
    destruct (decide (Forall _ (r' :: rs'))) as [Hf | Hf]; [rewrite decide_True by (by constructor) | rewrite decide_False by (by intros [_ ?]%Forall_cons)]; done.
Qed.

Lemma components_run u e fs rs :
  Forall (λ f, ∀ r, known_filter u f → rfc u e f r → CheckIfEntryPassesFilter e f = Some r) fs →
  Forall (known_filter u) fs → Forall2 (rfc u e) fs rs → map (CheckIfEntryPassesFilter e) fs = map Some rs.
Proof.
  intros Hall Hk H2. revert Hall Hk. induction H2 as [|f r fs rs Hr _ IH]; intros Hall Hk; [done |].
  apply Forall_cons in Hall as [Hf Hall]. apply Forall_cons in Hk as [Hkf Hk]. cbn. by rewrite (Hf r), IH.
Qed.

Lemma rfc_values u e fs rs s o : u ≠ FILTER_RES_NORMAL →
  (s = FILTER_RES_FALSE ∧ o = FILTER_RES_TRUE ∨ s = FILTER_RES_TRUE ∧ o = FILTER_RES_FALSE) →
  Forall2 (rfc u e) fs rs → Forall (λ r, r ∈ [s; o; FILTER_RES_UNDEFINED]) rs.
Proof.
  intros Hu Hso H2. induction H2 as [|f r fs rs Hf _ IH]; constructor; [| done].
  apply rfc_normal in Hf; [| done]. rewrite !elem_of_cons. destruct r, Hso as [[-> ->] | [-> ->]]; try done; tauto.
Qed.

(** C24: A filter is evaluated with the three truth values of RFC 4511, the early
    exits of the loops notwithstanding: an AND is false when one component is
    false, true when all are true and undefined otherwise, an OR is the dual,
    and NOT keeps undefined.  This holds for every filter whose ANDs and ORs
    have components; a choice the server does not know counts as FALSE
    ([u = FILTER_RES_FALSE]) where RFC 4511 says undefined, so that the result is
    the one of RFC 4511 ([u = FILTER_RES_UNDEFINED]) for filters without such a
    choice. *)
Theorem check_filter_rfc u e f r :
  u ∈ [FILTER_RES_FALSE; FILTER_RES_UNDEFINED] → known_filter u f → rfc u e f r → CheckIfEntryPassesFilter e f = Some r.
Proof.
  intros Hu. assert (u ≠ FILTER_RES_NORMAL) as Hn by (intros ->; rewrite !elem_of_cons, elem_of_nil in Hu; naive_solver). clear Hu.
  revert r. induction f as [n fs IH | n fs IH | n f IH | n i] using filter_ind'; intros r Hk Hr; inversion Hr as [? ? ? Hne Ht | | ? ? ? Hf | ? ? rs H2 | ? ? rs H2]; subst;
    cbn [CheckIfEntryPassesFilter].
  - destruct Hk as [Hfs Hk%known_components]. rewrite (components_run u e fs rs) by done.
    rewrite (check_components_run FILTER_RES_FALSE FILTER_RES_TRUE); [done | done | done | by eapply rfc_values; [| left |] |].
    intros ->. by inversion H2; subst.
  - destruct Hk as [Hfs Hk%known_components]. rewrite (components_run u e fs rs) by done.
    rewrite (check_components_run FILTER_RES_TRUE FILTER_RES_FALSE); [done | done | done | by eapply rfc_values; [| right |] | done].
  - cbn in Hk. by rewrite (IH r0).
  - done.
  - cbn in Hk |- *. by rewrite Hk.
Qed.

End Tests.

(** ** Runs *)

Definition plain (v : list Z) : berval := BER v (Some v).
Definition plain_desc : at_desc := AT_DESC Some None None.
Definition node0 : filter_node := NODE FILTER_RES_NORMAL 0 false None.
Definition type_cn : cstr := ["c"; "n"]%char.

(** [cn=1*23*4] *)
Definition substr_ex : SubStringFilter := SUBSTR (Some plain_desc) type_cn (plain [1]) [plain [2; 3]] (plain [4]).

Lemma substring_value_exact_witness :
  (∃ b, test_substring_value substr_ex [1; 2; 2; 3; 4] = Some b ∧
     (b = true ↔ ∃ m, [1; 2; 2; 3; 4] = [1] ++ m ++ [4] ∧ has_pieces [[2; 3]] m)) ∧
  (∃ b, test_substring_value (SUBSTR (Some plain_desc) type_cn (plain [97; 98]) [] (plain [98; 97])) [97; 98; 97] = Some b ∧
     (b = true ↔ (∃ m, [97; 98; 97] = [97; 98] ++ m) ∧ (∃ m, [97; 98; 97] = m ++ [98; 97]))).
Proof.
  split.
  - apply (substring_value_exact substr_ex [1; 2; 2; 3; 4]); cbn; try done; try lia. constructor; [done | constructor].
  - apply (substring_value_exact (SUBSTR (Some plain_desc) type_cn (plain [97; 98]) [] (plain [98; 97])) [97; 98; 97]); cbn; done.
Defined.

(** The first and the last piece of a substring filter may overlap in the
    value: the filter [cn=ab*ba] accepts the value [aba], which is no [ab], middle
    and [ba]; and with a piece in between the search runs past the end of the
    value. *)
Theorem substring_overlap :
  test_substring_value (SUBSTR (Some plain_desc) type_cn (plain [97; 98]) [] (plain [98; 97])) [97; 98; 97] = Some true ∧
  (¬ ∃ m : list Z, [97; 98; 97] = [97; 98] ++ m ++ [98; 97]) ∧
  test_substring_value (SUBSTR (Some plain_desc) type_cn (plain [97; 98]) [plain [99]] (plain [98; 97])) [97; 98; 97] = None.
Proof.
  split; [vm_compute; reflexivity |]. split; [| vm_compute; reflexivity].
  intros [m Hm]. apply (f_equal length) in Hm. rewrite !length_app in Hm. cbn in Hm. lia.
Qed.

Definition entry_ex : entry := ENTRY 7 [(type_cn, [plain [1; 2; 3; 4]])] (Some [1]) (Some []).
Definition equality_ex (v : list Z) : VDIR_FILTER := FItem node0 (FEquality (AVA (Some plain_desc) type_cn (plain v))).

(** [(&(cn=1234)(!(cn=5)))] *)
Definition filter_ex : VDIR_FILTER := FAnd node0 [equality_ex [1; 2; 3; 4]; FNot node0 (equality_ex [5])].

Definition unknown_ex : VDIR_FILTER := FOr node0 [FItem node0 FUnsupported; filter_ex].

Lemma check_filter_rfc_witness :
  CheckIfEntryPassesFilter simple_compare entry_ex filter_ex = Some FILTER_RES_TRUE ∧
  CheckIfEntryPassesFilter simple_compare entry_ex unknown_ex = Some FILTER_RES_TRUE.
Proof.
  assert (∀ u, rfc simple_compare u entry_ex filter_ex FILTER_RES_TRUE) as Hr.
  { intros u. change FILTER_RES_TRUE with (rfc_and [FILTER_RES_TRUE; not_result FILTER_RES_FALSE]). apply rfc_all.
    constructor; [apply rfc_item; [done | vm_compute; reflexivity] |]. constructor; [| constructor].
    apply rfc_not, rfc_item; [done | vm_compute; reflexivity]. }
  split.
  - apply (check_filter_rfc simple_compare FILTER_RES_UNDEFINED entry_ex filter_ex FILTER_RES_TRUE); [right; left | cbn; done | apply Hr].
  - apply (check_filter_rfc simple_compare FILTER_RES_FALSE entry_ex unknown_ex FILTER_RES_TRUE); [left | cbn; done |].
    change FILTER_RES_TRUE with (rfc_or [FILTER_RES_FALSE; FILTER_RES_TRUE]). apply rfc_any.
    constructor; [apply rfc_unsupported | constructor; [apply Hr | constructor]].
Defined.

(** A choice the server does not know is false instead of undefined: its
    negation is true for every entry. *)
Theorem unsupported_negated compare e n m :
  rfc compare FILTER_RES_UNDEFINED e (FNot n (FItem m FUnsupported)) FILTER_RES_UNDEFINED ∧
  CheckIfEntryPassesFilter compare e (FNot n (FItem m FUnsupported)) = Some FILTER_RES_TRUE.
Proof. split; [| done]. exact (rfc_not _ _ _ n _ FILTER_RES_UNDEFINED (rfc_unsupported _ _ _ m)). Qed.
