(* ===== verification/Candidates.v ===== *)
(** * Candidates: lists of entry ids and their connectives

    [vmdir/server/common/candidates.c]: the lists of entry ids that a search
    builds from the indices, with their intersection, subtraction and union by
    merging, and the combination of the results of the components of an AND, an
    OR and a NOT.

    A filter node stands for a set of entry ids ([node_allows]); the AND of two
    nodes stands for the intersection exactly, the OR for a set that contains
    the union, which is what the search needs of them. *)

From stdpp Require Import sorting.
From S2P Require Import Prelude Heap StringList CString Effects RaftLog Filter.

Open Scope Z_scope.

(** ** Lists *)

Section Lists.
Context {St : Type}.

Definition csize (c : VDIR_CANDIDATES) : Z := Z.of_nat (length (eIds c)).

(** [NewCandidates]; NULL when an allocation fails, also one of no bytes. *)
Definition NewCandidates (startAllocSize : Z) (pos : bool) : RM St (option VDIR_CANDIDATES) :=
  r <- rtry (VmDirAllocateMemory 32 ;;; VmDirAllocateMemory (startAllocSize * 8)) ;;
  rret match r with
       | inl _ => None
       | inr _ => Some (CANDS [] startAllocSize pos false)
       end.

(** [VmDirReallocCandidates]: the sizes are [int]s. *)
Definition VmDirReallocCandidates (c : VDIR_CANDIDATES) : RM St VDIR_CANDIDATES :=
  let iNewSize := cmax c * 8 * 2 in
  if iNewSize <? 2 ^ 31 then
    VmDirAllocateMemory iNewSize ;;; rret (CANDS (eIds c) (cmax c * 2) (positive c) (eIdsSorted c))
  else rub.

Definition VmDirAddToCandidates (c : VDIR_CANDIDATES) (eId : Z) : RM St VDIR_CANDIDATES :=
  c <- (if csize c =? cmax c then VmDirReallocCandidates c else rret c) ;;
  rret (CANDS (eIds c ++ [eId]) (cmax c) (positive c) (eIdsSorted c)).

(** [qsort] with [_VmDirCompareEntryIds]. *)
Definition sort_ids (l : list Z) : list Z := merge_sort Z.le l.

Definition VmDirSortCandidateList (c : VDIR_CANDIDATES) : VDIR_CANDIDATES :=
  if eIdsSorted c then c else CANDS (sort_ids (eIds c)) (cmax c) (positive c) true.

(** A list of ids is added at the end. *)
Fixpoint append_rest (l : list Z) (res : VDIR_CANDIDATES) : RM St VDIR_CANDIDATES :=
  match l with
  | [] => rret res
  | x :: l => res <- VmDirAddToCandidates res x ;; append_rest l res
  end.

(** The merging loops; every round drops an id of one of the lists. *)
Fixpoint intersect_loop (fuel : nat) (src dst : list Z) (res : VDIR_CANDIDATES) : RM St VDIR_CANDIDATES :=
  match fuel, src, dst with
  | S fuel, x :: src', y :: dst' =>
      if x <? y then intersect_loop fuel src' dst res
      else if y <? x then intersect_loop fuel src dst' res
      else res <- VmDirAddToCandidates res y ;; intersect_loop fuel src' dst' res
  | O, _ :: _, _ :: _ => rub
  | _, _, _ => rret res
  end.

Fixpoint subtract_loop (fuel : nat) (src dst : list Z) (res : VDIR_CANDIDATES) : RM St VDIR_CANDIDATES :=
  match fuel, src, dst with
  | S fuel, x :: src', y :: dst' =>
      if x <? y then subtract_loop fuel src' dst res
      else if y <? x then res <- VmDirAddToCandidates res y ;; subtract_loop fuel src dst' res
      else subtract_loop fuel src' dst' res
  | O, _ :: _, _ :: _ => rub
  | _, _, _ => append_rest dst res
  end.

Fixpoint union_loop (fuel : nat) (src dst : list Z) (res : VDIR_CANDIDATES) : RM St VDIR_CANDIDATES :=
  match fuel, src, dst with
  | S fuel, x :: src', y :: dst' =>
      if x <? y then res <- VmDirAddToCandidates res x ;; union_loop fuel src' dst res
      else if y <? x then res <- VmDirAddToCandidates res y ;; union_loop fuel src dst' res
      else res <- VmDirAddToCandidates res y ;; union_loop fuel src' dst' res
  | O, _ :: _, _ :: _ => rub
  | _, _, _ => res <- append_rest src res ;; append_rest dst res
  end.

(** The result of a loop; the label [error] empties it.  A missing result list
    is used without a check. *)
Definition merge_result (res : option VDIR_CANDIDATES) (loop : VDIR_CANDIDATES → RM St VDIR_CANDIDATES) : RM St VDIR_CANDIDATES :=
  match res with
  | None => rub
  | Some res =>
      r <- rtry (loop res) ;;
      rret match r with
           | inr res => CANDS (eIds res) (cmax res) (positive res) true
           | inl _ => CANDS [] (cmax res) (positive res) false
           end
  end.

(** The results: [srcCandidates] and [dstCandidates] afterwards. *)
Definition IntersectCandidates (src dst : VDIR_CANDIDATES) : RM St (VDIR_CANDIDATES * VDIR_CANDIDATES) :=
  if negb (Bool.eqb (positive src) (positive dst)) then rub
  else if csize dst =? 0 then rret (src, dst)
  else if csize src =? 0 then rret (src, CANDS [] (cmax dst) (positive dst) (eIdsSorted dst))
  else
    let dst := VmDirSortCandidateList dst in
    let src := VmDirSortCandidateList src in
    n <- NewCandidates (if csize dst <=? csize src then csize dst else csize src) (positive src) ;;
    res <- merge_result n (intersect_loop (length (eIds src) + length (eIds dst)) (eIds src) (eIds dst)) ;;
    rret (src, res).

Definition SubtractCandidates (src dst : VDIR_CANDIDATES) : RM St (VDIR_CANDIDATES * VDIR_CANDIDATES) :=
  if Bool.eqb (positive src) (positive dst) then rub
  else if (csize dst =? 0) || (csize src =? 0) then rret (src, dst)
  else
    let dst := VmDirSortCandidateList dst in
    let src := VmDirSortCandidateList src in
    n <- NewCandidates (csize dst) (positive dst) ;;
    res <- merge_result n (subtract_loop (length (eIds src) + length (eIds dst)) (eIds src) (eIds dst)) ;;
    rret (src, res).

(** Here the source may be taken over, and is NULL afterwards. *)
Definition UnionCandidates (src dst : VDIR_CANDIDATES) : RM St (option VDIR_CANDIDATES * VDIR_CANDIDATES) :=
  if negb (Bool.eqb (positive src) (positive dst)) then rub
  else if csize src =? 0 then rret (Some src, dst)
  else if csize dst =? 0 then rret (None, src)
  else
    let dst := VmDirSortCandidateList dst in
    let src := VmDirSortCandidateList src in
    n <- NewCandidates (csize src + csize dst) (positive src) ;;
    res <- merge_result n (union_loop (length (eIds src) + length (eIds dst)) (eIds src) (eIds dst)) ;;
    rret (Some src, res).

(** ** Results of components *)

Definition set_candidates (c : option VDIR_CANDIDATES) (n : filter_node) : filter_node :=
  NODE (computeResult n) (iMaxIndexScan n) (bAncestorGotPositiveCandidateSet n) c.
Definition set_computeResult (r : VDIR_FILTER_COMPUTE_RESULT) (n : filter_node) : filter_node :=
  NODE r (iMaxIndexScan n) (bAncestorGotPositiveCandidateSet n) (candidates n).

(** [AndFilterResults], on the nodes of [src] and [dst]. *)
Definition AndFilterResults (src dst : filter_node) : RM St (filter_node * filter_node) :=
  match computeResult src, computeResult dst with
  | FILTER_RES_NORMAL, FILTER_RES_NORMAL =>
      match candidates src, candidates dst with
      | None, _ => rret (src, dst)
      | Some c, None => rret (set_candidates None src, set_candidates (Some c) dst)
      | Some c, Some d =>
          if positive d && positive c then
            r <- IntersectCandidates c d ;; rret (set_candidates (Some r.1) src, set_candidates (Some r.2) dst)
          else if positive d && negb (positive c) then
            r <- SubtractCandidates c d ;; rret (set_candidates (Some r.1) src, set_candidates (Some r.2) dst)
          else if negb (positive d) && negb (positive c) then
            r <- UnionCandidates c d ;; rret (set_candidates r.1 src, set_candidates (Some r.2) dst)
          else rub
      end
  | FILTER_RES_NORMAL, FILTER_RES_TRUE =>
      match candidates src with
      | Some c => rret (set_candidates None src, set_computeResult FILTER_RES_NORMAL (set_candidates (Some c) dst))
      | None => rret (src, dst)
      end
  | FILTER_RES_NORMAL, _ => rret (src, dst)
  | FILTER_RES_TRUE, FILTER_RES_NORMAL =>
      rret (src, match candidates dst with None => set_computeResult FILTER_RES_TRUE dst | Some _ => dst end)
  | FILTER_RES_TRUE, _ => rret (src, dst)
  | FILTER_RES_FALSE, _ => rret (src, set_computeResult FILTER_RES_FALSE (set_candidates None dst))
  | FILTER_RES_UNDEFINED, FILTER_RES_NORMAL => rret (src, set_computeResult FILTER_RES_UNDEFINED (set_candidates None dst))
  | FILTER_RES_UNDEFINED, FILTER_RES_TRUE => rret (src, set_computeResult FILTER_RES_UNDEFINED dst)
  | FILTER_RES_UNDEFINED, _ => rret (src, dst)
  end.

(** [NotFilterResults] *)
Definition NotFilterResults (src dst : filter_node) : filter_node * filter_node :=
  match computeResult src with
  | FILTER_RES_NORMAL =>
      let dst := set_computeResult FILTER_RES_NORMAL dst in
      match candidates src with
      | None => (src, dst)
      | Some c => (set_candidates None src, set_candidates (Some (CANDS (eIds c) (cmax c) (negb (positive c)) (eIdsSorted c))) dst)
      end
  | FILTER_RES_TRUE => (src, set_computeResult FILTER_RES_FALSE dst)
  | FILTER_RES_FALSE => (src, set_computeResult FILTER_RES_TRUE dst)
  | FILTER_RES_UNDEFINED => (src, set_computeResult FILTER_RES_UNDEFINED dst)
  end.

(** The part of [OrFilterResults] behind the switch. *)
Definition or_candidates (src dst : filter_node) : RM St (filter_node * filter_node) :=
  match candidates src, candidates dst with
  | None, _ => rret (src, set_computeResult FILTER_RES_TRUE (set_candidates None dst))
  | Some c, d =>
      if negb (positive c) then rret (src, set_computeResult FILTER_RES_TRUE (set_candidates None dst))
      else match d with
           | None => rret (set_candidates None src, set_candidates (Some c) dst)
           | Some d =>
               if positive d then
                 r <- UnionCandidates c d ;; rret (set_candidates r.1 src, set_candidates (Some r.2) dst)
               else rub
           end
  end.

(** [OrFilterResults] *)
Definition OrFilterResults (src dst : filter_node) : RM St (filter_node * filter_node) :=
  match computeResult src, computeResult dst with
  | FILTER_RES_NORMAL, FILTER_RES_NORMAL => or_candidates src dst
  | FILTER_RES_NORMAL, FILTER_RES_TRUE => rret (src, dst)
  | FILTER_RES_NORMAL, _ => or_candidates src (set_computeResult FILTER_RES_NORMAL dst)
  | FILTER_RES_TRUE, _ => rret (src, set_computeResult FILTER_RES_TRUE (set_candidates None dst))
  | FILTER_RES_UNDEFINED, FILTER_RES_FALSE => rret (src, set_computeResult FILTER_RES_UNDEFINED dst)
  | _, _ => rret (src, dst)
  end.

End Lists.

(** ** Sets *)

Section Sets.
Context {St : Type}.
Implicit Types (c d res : VDIR_CANDIDATES) (s : St).

Definition push_ids (l : list Z) (c : VDIR_CANDIDATES) : VDIR_CANDIDATES :=
  CANDS (eIds c ++ l) (cmax c) (positive c) (eIdsSorted c).

Lemma push_ids_nil c : push_ids [] c = c.
Proof. unfold push_ids. rewrite app_nil_r. by destruct c. Qed.

Lemma push_ids_app l1 l2 c : push_ids l2 (push_ids l1 c) = push_ids (l1 ++ l2) c.
Proof. unfold push_ids. cbn. by rewrite app_assoc. Qed.

(** Within the allocated size nothing is reallocated. *)
Lemma add_candidate_run c x s e : csize c < cmax c → VmDirAddToCandidates c x s e = Some (inr (push_ids [x] c), s, e).
Proof. intros H. unfold VmDirAddToCandidates. rewrite (proj2 (Z.eqb_neq _ _)) by lia. reflexivity. Qed.

Lemma csize_push l c : csize (push_ids l c) = csize c + Z.of_nat (length l).
Proof. unfold csize. cbn. rewrite length_app. lia. Qed.

Lemma add_all_run l c s e : csize c + Z.of_nat (length l) <= cmax c → append_rest l c s e = Some (inr (push_ids l c), s, e).
Proof.
  revert c. induction l as [|x l IH]; intros c H; cbn [append_rest]; [by rewrite push_ids_nil |]. cbn [length] in H.
  unfold rbind. rewrite add_candidate_run by lia. rewrite IH by (rewrite csize_push; cbn [length cmax push_ids]; lia).
  by rewrite push_ids_app.
Qed.

Abbreviation sorted := (StronglySorted Z.le).

Lemma sorted_bound x l y : sorted (x :: l) → y ∈ l → x <= y.
Proof. intros [_ H]%StronglySorted_inv. rewrite Forall_forall in H. apply H. Qed.

Lemma intersect_run fuel src dst res s e :
  sorted src → sorted dst → (length src + length dst <= fuel)%nat →
  csize res + Z.of_nat (length dst) <= cmax res ∨ csize res + Z.of_nat (length src) <= cmax res →
  ∃ l, intersect_loop fuel src dst res s e = Some (inr (push_ids l res), s, e) ∧ l `sublist_of` dst ∧
    ∀ z, z ∈ l ↔ z ∈ src ∧ z ∈ dst.
Proof.
  revert src dst res. induction fuel as [|fuel IH]; intros src dst res Hs Hd Hfuel Hcap.
  { destruct src, dst; cbn in Hfuel; try lia. exists []. rewrite push_ids_nil. split; [done |]. split; [constructor | set_solver]. }
  destruct src as [|x src']; [exists []; rewrite push_ids_nil; cbn; split; [done |]; split; [apply sublist_nil_l | set_solver] |].
  destruct dst as [|y dst']; [exists []; rewrite push_ids_nil; cbn; split; [done |]; split; [constructor | set_solver] |].
  pose proof (proj1 (StronglySorted_inv Hs)) as Hs'. pose proof (proj1 (StronglySorted_inv Hd)) as Hd'.
  cbn [length] in Hfuel, Hcap. cbn [intersect_loop]. destruct (Z.ltb_spec x y).
  { destruct (IH src' (y :: dst') res) as (l & -> & Hsub & Hmem); [done | done | cbn; lia | cbn [length]; lia |]. exists l. split; [done |]. split; [done |].
    intros z. rewrite Hmem, (elem_of_cons src'). split; [tauto |]. intros [[-> | Hz] Hzd]; [| done]. exfalso.
    apply elem_of_cons in Hzd as [? | Hzd]; [lia |]. pose proof (sorted_bound _ _ _ Hd Hzd). lia. }
  destruct (Z.ltb_spec y x).
  { destruct (IH (x :: src') dst' res) as (l & -> & Hsub & Hmem); [done | done | cbn; lia | cbn [length]; lia |]. exists l. split; [done |].
    split; [by constructor |]. intros z. rewrite Hmem, (elem_of_cons dst'). split; [tauto |]. intros [Hzs [-> | Hz]]; [| done]. exfalso.
    apply elem_of_cons in Hzs as [? | Hzs]; [lia |]. pose proof (sorted_bound _ _ _ Hs Hzs). lia. }
  assert (x = y) as -> by lia. unfold rbind. rewrite add_candidate_run by lia.
  destruct (IH src' dst' (push_ids [y] res)) as (l & -> & Hsub & Hmem); [done | done | lia | rewrite csize_push; cbn [length cmax push_ids]; lia |].
  exists (y :: l). rewrite push_ids_app. split; [done |]. split; [by constructor |]. intros z. rewrite !elem_of_cons, Hmem. tauto.
Qed.

(** The subtrahend removes one of equal ids: the list must have no duplicates. *)
Lemma subtract_run fuel src dst res s e :
  sorted src → sorted dst → NoDup dst → (length src + length dst <= fuel)%nat → csize res + Z.of_nat (length dst) <= cmax res →
  ∃ l, subtract_loop fuel src dst res s e = Some (inr (push_ids l res), s, e) ∧ l `sublist_of` dst ∧
    ∀ z, z ∈ l ↔ z ∈ dst ∧ z ∉ src.
Proof.
  revert src dst res. induction fuel as [|fuel IH]; intros src dst res Hs Hd Hnd Hfuel Hcap.
  { destruct src, dst; cbn in Hfuel; try lia. exists []. rewrite push_ids_nil. split; [done |]. split; [constructor | set_solver]. }
  destruct src as [|x src'].
  { exists dst. cbn [subtract_loop]. rewrite add_all_run by lia. split; [done |]. split; [done | set_solver]. }
  destruct dst as [|y dst']; [exists []; rewrite push_ids_nil; cbn; split; [done |]; split; [constructor | set_solver] |].
  pose proof (proj1 (StronglySorted_inv Hs)) as Hs'. pose proof (proj1 (StronglySorted_inv Hd)) as Hd'.
  pose proof (proj1 (NoDup_cons _ _) Hnd) as [Hny Hnd']. cbn [length] in Hfuel, Hcap. cbn [subtract_loop]. destruct (Z.ltb_spec x y).
  { destruct (IH src' (y :: dst') res) as (l & -> & Hsub & Hmem); [done | done | done | cbn; lia | cbn [length]; lia |]. exists l. split; [done |]. split; [done |].
    intros z. rewrite Hmem, (elem_of_cons src'). split; [| tauto]. intros [Hz Hn]. split; [done |]. intros [-> | ?]; [| done].
    apply elem_of_cons in Hz as [? | Hz]; [lia |]. pose proof (sorted_bound _ _ _ Hd Hz). lia. }
  destruct (Z.ltb_spec y x).
  { unfold rbind. rewrite add_candidate_run by lia.
    destruct (IH (x :: src') dst' (push_ids [y] res)) as (l & -> & Hsub & Hmem); [done | done | done | cbn; lia | rewrite csize_push; cbn [length cmax push_ids]; lia |].
    exists (y :: l). rewrite push_ids_app. split; [done |]. split; [by constructor |]. intros z. rewrite !(elem_of_cons _ z y), Hmem.
    split; [| tauto]. intros [-> | ?]; [| tauto]. split; [by left |]. intros [? | Hz]%elem_of_cons; [lia |]. pose proof (sorted_bound _ _ _ Hs Hz). lia. }
  assert (x = y) as -> by lia.
  destruct (IH src' dst' res) as (l & -> & Hsub & Hmem); [done | done | done | lia | cbn [length]; lia |].
  exists l. split; [done |]. split; [by constructor |]. intros z. rewrite Hmem, !elem_of_cons. split; [| tauto].
  intros [Hz Hn]. split; [tauto |]. intros [-> | ?]; done.
Qed.

Lemma union_run fuel src dst res s e :
  sorted src → sorted dst → (length src + length dst <= fuel)%nat → csize res + Z.of_nat (length src) + Z.of_nat (length dst) <= cmax res →
  ∃ l, union_loop fuel src dst res s e = Some (inr (push_ids l res), s, e) ∧ sorted l ∧ ∀ z, z ∈ l ↔ z ∈ src ∨ z ∈ dst.
Proof.
  revert src dst res. induction fuel as [|fuel IH]; intros src dst res Hs Hd Hfuel Hcap.
  { destruct src, dst; cbn in Hfuel; try lia. exists []. cbn. unfold rbind, rret. rewrite push_ids_nil. split; [done |]. split; [constructor | set_solver]. }
  destruct src as [|x src'].
  { exists dst. cbn [union_loop append_rest]. unfold rbind, rret at 1. cbn [length] in Hcap. rewrite add_all_run by lia. split; [done |]. split; [done | set_solver]. }
  destruct dst as [|y dst'].
  { exists (x :: src'). cbn [union_loop]. unfold rbind. cbn [length] in Hcap. rewrite add_all_run by (cbn [length]; lia).
    cbn [append_rest]. split; [done |]. split; [done | set_solver]. }
  pose proof (proj1 (StronglySorted_inv Hs)) as Hs'. pose proof (proj1 (StronglySorted_inv Hd)) as Hd'.
  cbn [length] in Hfuel, Hcap. cbn [union_loop]. destruct (Z.ltb_spec x y); [| destruct (Z.ltb_spec y x)].
  - unfold rbind. rewrite add_candidate_run by lia.
    destruct (IH src' (y :: dst') (push_ids [x] res)) as (l & -> & Hsort & Hmem); [done | done | cbn; lia | rewrite csize_push; cbn [length cmax push_ids]; lia |].
    exists (x :: l). rewrite push_ids_app. split; [done |]. split; [| intros z; rewrite !(elem_of_cons _ z x), Hmem; tauto].
    constructor; [done |]. apply Forall_forall. intros z [Hz | Hz]%Hmem; [by apply (sorted_bound _ _ _ Hs) |].
    apply elem_of_cons in Hz as [-> | Hz]; [lia |]. pose proof (sorted_bound _ _ _ Hd Hz). lia.
  - unfold rbind. rewrite add_candidate_run by lia.
    destruct (IH (x :: src') dst' (push_ids [y] res)) as (l & -> & Hsort & Hmem); [done | done | cbn; lia | rewrite csize_push; cbn [length cmax push_ids]; lia |].
    exists (y :: l). rewrite push_ids_app. split; [done |]. split; [| intros z; rewrite !(elem_of_cons _ z y), Hmem; tauto].
    constructor; [done |]. apply Forall_forall. intros z [Hz | Hz]%Hmem; [| by apply (sorted_bound _ _ _ Hd)].
    apply elem_of_cons in Hz as [-> | Hz]; [lia |]. pose proof (sorted_bound _ _ _ Hs Hz). lia.
  - assert (x = y) as -> by lia. unfold rbind. rewrite add_candidate_run by lia.
    destruct (IH src' dst' (push_ids [y] res)) as (l & -> & Hsort & Hmem); [done | done | lia | rewrite csize_push; cbn [length cmax push_ids]; lia |].
    exists (y :: l). rewrite push_ids_app. split; [done |]. split; [| intros z; rewrite !elem_of_cons, Hmem; tauto].
    constructor; [done |]. apply Forall_forall. intros z [Hz | Hz]%Hmem; [by apply (sorted_bound _ _ _ Hs) | by apply (sorted_bound _ _ _ Hd)].
Qed.

(** The flag of a list is right. *)
Definition cands_ok (c : VDIR_CANDIDATES) : Prop := eIdsSorted c = true → sorted (eIds c).

Lemma sort_ok c : cands_ok c →
  let c' := VmDirSortCandidateList c in
  sorted (eIds c') ∧ eIds c' ≡ₚ eIds c ∧ positive c' = positive c ∧ csize c' = csize c ∧ cands_ok c'.
Proof.
  unfold VmDirSortCandidateList, cands_ok, csize. intros Hok. destruct (eIdsSorted c) eqn:Hs; cbn.
  - rewrite Hs. by intuition.
  - pose proof (merge_sort_Permutation Z.le (eIds c)) as Hp. fold (sort_ids (eIds c)) in Hp.
    assert (sorted (sort_ids (eIds c))) as Hsort by (apply StronglySorted_merge_sort; apply _).
    split; [done |]. split; [done |]. split; [done |]. split; [by rewrite Hp | done].
Qed.

Lemma new_run n p s : 0 < n → NewCandidates n p s [] = Some (inr (Some (CANDS [] n p false)), s, []).
Proof.
  intros Hn. unfold NewCandidates, VmDirAllocateMemory. rewrite (proj2 (Z.eqb_neq (n * 8) 0)) by lia. reflexivity.
Qed.

(** A merge without failures. *)
Lemma merge_run {A} n p (loop : VDIR_CANDIDATES → RM St VDIR_CANDIDATES) (f : VDIR_CANDIDATES → A) l s :
  0 < n → loop (CANDS [] n p false) s [] = Some (inr (push_ids l (CANDS [] n p false)), s, []) →
  (r <- NewCandidates n p ;; res <- merge_result r loop ;; rret (f res)) s [] = Some (inr (f (CANDS l n p true)), s, []).
Proof. intros Hn Hl. unfold rbind at 1. rewrite new_run by done. unfold merge_result, rbind, rtry. rewrite Hl. reflexivity. Qed.

Lemma sorted_sublist l k : l `sublist_of` k → sorted k → sorted l.
Proof.
  induction 1 as [|x l k Hsub IH|x l k Hsub IH]; intros Hk; [constructor | |].
  - apply StronglySorted_inv in Hk as [Hk Hx]. constructor; [by apply IH |]. by eapply sublist_Forall_1 || (apply Forall_forall; intros z Hz; rewrite Forall_forall in Hx; apply Hx; by eapply elem_of_sublist).
  - apply StronglySorted_inv in Hk as [Hk _]. by apply IH.
Qed.

Lemma size_zero c : csize c = 0 → eIds c = [].
Proof. unfold csize. destruct (eIds c); cbn; [done | lia]. Qed.

(** The same list, perhaps sorted. *)
Definition same_list c d : Prop := eIds d ≡ₚ eIds c ∧ positive d = positive c ∧ cands_ok d.

Lemma same_list_refl c : cands_ok c → same_list c c.
Proof. by split. Qed.

(** The three operations on lists whose flags are right. *)
Lemma intersect_spec c d s :
  cands_ok c → cands_ok d → positive c = positive d →
  ∃ c' r, IntersectCandidates c d s [] = Some (inr (c', r), s, []) ∧ same_list c c' ∧ positive r = positive d ∧ cands_ok r ∧
    (∀ z, z ∈ eIds r ↔ z ∈ eIds c ∧ z ∈ eIds d) ∧
    (eIds c ≠ [] → eIds d ≠ [] → eIdsSorted r = true).
Proof.
  intros Hc Hd Hp. unfold IntersectCandidates. rewrite Hp, Bool.eqb_reflx. cbn [negb].
  destruct (Z.eqb_spec (csize d) 0) as [Hz%size_zero | Hnd]; [exists c, d; do 4 (split; [by apply same_list_refl || done |]); rewrite Hz; split; [set_solver | done] |].
  destruct (Z.eqb_spec (csize c) 0) as [Hz%size_zero | Hnc].
  { do 2 eexists. split; [reflexivity |]. split; [by apply same_list_refl |]. cbn. split; [done |]. split; [intros _; constructor |]. rewrite Hz. split; [set_solver | done]. }
  destruct (sort_ok c Hc) as (Hsc & Hpc & Hposc & Hlc & Hokc). destruct (sort_ok d Hd) as (Hsd & Hpd & Hposd & Hld & Hokd).
  set (c' := VmDirSortCandidateList c) in *. set (d' := VmDirSortCandidateList d) in *.
  set (n := if csize d' <=? csize c' then csize d' else csize c').
  assert (0 < n ∧ (csize d' <= n ∨ csize c' <= n)) as [Hn Hcap] by (unfold n, csize in *; destruct (_ <=? _); lia).
  destruct (intersect_run (length (eIds c') + length (eIds d')) (eIds c') (eIds d') (CANDS [] n (positive c') false) s []) as (l & Hrun & Hsub & Hmem);
    [done | done | done | unfold csize in *; cbn [eIds cmax length]; lia |].
  do 2 eexists. split; [exact (merge_run n (positive c') _ _ l s Hn Hrun) |]. split; [done |].
  cbn. split; [congruence |]. split; [intros _; by eapply sorted_sublist |]. split; [| done]. intros z. rewrite Hmem. by rewrite Hpc, Hpd.
Qed.

Lemma subtract_spec c d s :
  cands_ok c → cands_ok d → positive c ≠ positive d → NoDup (eIds d) →
  ∃ c' r, SubtractCandidates c d s [] = Some (inr (c', r), s, []) ∧ same_list c c' ∧ positive r = positive d ∧ cands_ok r ∧
    (∀ z, z ∈ eIds r ↔ z ∈ eIds d ∧ z ∉ eIds c) ∧
    (eIds c ≠ [] → eIds d ≠ [] → eIdsSorted r = true).
Proof.
  intros Hc Hd Hp Hdup. unfold SubtractCandidates. rewrite (proj2 (Bool.eqb_false_iff _ _)) by done.
  destruct (Z.eqb_spec (csize d) 0) as [Hz%size_zero | Hnd]; cbn [orb]; [exists c, d; do 4 (split; [by apply same_list_refl || done |]); rewrite Hz; split; [set_solver | done] |].
  destruct (Z.eqb_spec (csize c) 0) as [Hz%size_zero | Hnc]; [exists c, d; do 4 (split; [by apply same_list_refl || done |]); rewrite Hz; split; [set_solver | done] |].
  destruct (sort_ok c Hc) as (Hsc & Hpc & Hposc & Hlc & Hokc). destruct (sort_ok d Hd) as (Hsd & Hpd & Hposd & Hld & Hokd).
  set (c' := VmDirSortCandidateList c) in *. set (d' := VmDirSortCandidateList d) in *.
  assert (0 < csize d') as Hn by (unfold csize in *; lia). assert (NoDup (eIds d')) as Hdup' by by rewrite Hpd.
  destruct (subtract_run (length (eIds c') + length (eIds d')) (eIds c') (eIds d') (CANDS [] (csize d') (positive d') false) s []) as (l & Hrun & Hsub & Hmem);
    [done | done | done | done | unfold csize in *; cbn [eIds cmax length]; lia |].
  do 2 eexists. split; [exact (merge_run (csize d') (positive d') _ _ l s Hn Hrun) |]. split; [done |].
  cbn. split; [done |]. split; [intros _; by eapply sorted_sublist |]. split; [| done]. intros z. rewrite Hmem. by rewrite Hpc, Hpd.
Qed.

Lemma union_spec c d s :
  cands_ok c → cands_ok d → positive c = positive d →
  ∃ (o : option VDIR_CANDIDATES) r, UnionCandidates c d s [] = Some (inr (o, r), s, []) ∧
    (∀ c', o = Some c' → same_list c c') ∧ positive r = positive d ∧ cands_ok r ∧
    (∀ z, z ∈ eIds r ↔ z ∈ eIds c ∨ z ∈ eIds d) ∧
    (eIds c ≠ [] → eIds d ≠ [] → eIdsSorted r = true).
Proof.
  intros Hc Hd Hp. unfold UnionCandidates. rewrite Hp, Bool.eqb_reflx. cbn [negb].
  destruct (Z.eqb_spec (csize c) 0) as [Hz%size_zero | Hnc].
  { exists (Some c), d. split; [done |]. split; [intros ? [= <-]; by apply same_list_refl |]. rewrite Hz. do 2 (split; [done |]). split; [set_solver | done]. }
  destruct (Z.eqb_spec (csize d) 0) as [Hz%size_zero | Hnd].
  { exists None, c. split; [done |]. split; [done |]. rewrite Hz. do 2 (split; [done |]). split; [set_solver | done]. }
  destruct (sort_ok c Hc) as (Hsc & Hpc & Hposc & Hlc & Hokc). destruct (sort_ok d Hd) as (Hsd & Hpd & Hposd & Hld & Hokd).
  set (c' := VmDirSortCandidateList c) in *. set (d' := VmDirSortCandidateList d) in *.
  assert (0 < csize c' + csize d') as Hn by (unfold csize in *; lia).
  destruct (union_run (length (eIds c') + length (eIds d')) (eIds c') (eIds d') (CANDS [] (csize c' + csize d') (positive c') false) s []) as (l & Hrun & Hsort & Hmem);
    [done | done | done | unfold csize in *; cbn [eIds cmax length]; lia |].
  do 2 eexists. split; [exact (merge_run (csize c' + csize d') (positive c') _ _ l s Hn Hrun) |]. split; [by intros ? [= <-] |].
  cbn. split; [congruence |]. split; [by intros _ |]. split; [| done]. intros z. rewrite Hmem. by rewrite Hpc, Hpd.
Qed.

(** ** What a node allows *)

(** The entries a node does not exclude.  A node without candidates excludes
    nothing; one with a negative list excludes its ids. *)
Definition node_allows (n : filter_node) (i : Z) : Prop :=
  match computeResult n, candidates n with
  | FILTER_RES_TRUE, _ => True
  | FILTER_RES_NORMAL, None => True
  | FILTER_RES_NORMAL, Some c => if positive c then i ∈ eIds c else i ∉ eIds c
  | _, _ => False
  end.

(** The lists of a node are as the operations expect them. *)
Definition node_ok (n : filter_node) : Prop :=
  match candidates n with Some c => cands_ok c | None => True end.

(** A positive list is never put behind a negative one, and the list that is
    subtracted from has no duplicates. *)
Definition and_order (src dst : filter_node) : Prop :=
  match candidates src, candidates dst with
  | Some c, Some d => (positive d = false → positive c = false) ∧ (positive d = true → positive c = false → NoDup (eIds d))
  | _, _ => True
  end.

(** The source of a combination keeps its list, sorted, or gives it away. *)
Definition node_rest (n n' : filter_node) : Prop :=
  computeResult n' = computeResult n ∧ ∀ c', candidates n' = Some c' → ∃ c, candidates n = Some c ∧ same_list c c'.

Lemma node_rest_refl n : node_ok n → node_rest n n.
Proof. unfold node_ok. intros H. split; [done |]. intros c Hc. rewrite Hc in H. exists c. split; [done | by apply same_list_refl]. Qed.

Lemma node_rest_none n : node_rest n (set_candidates None n).
Proof. by split. Qed.

Lemma node_rest_some n c c' : candidates n = Some c → same_list c c' → node_rest n (set_candidates (Some c') n).
Proof. intros Hn H. split; [done |]. intros ? [= <-]. by exists c. Qed.

Lemma node_rest_allows n n' i : node_rest n n' → node_allows n i → node_allows n' i.
Proof.
  unfold node_allows. intros [-> H]. destruct (computeResult n); try done. destruct (candidates n') as [c'|]; [| done].
  destruct (H c' eq_refl) as (c & -> & Hp & -> & _). destruct (positive c); by rewrite Hp.
Qed.

(** A list, if any, is positive. *)
Definition or_ok (n : filter_node) : Prop :=
  match candidates n with Some c => cands_ok c ∧ positive c = true | None => True end.

(** The AND of two results is exact: when no allocation fails, the combined
    node allows exactly the entries that both nodes allow, in all combinations
    of known results, missing lists, and positive and negative lists. *)
Lemma and_results_exact src dst s :
  node_ok src → node_ok dst → and_order src dst →
  ∃ src' dst', AndFilterResults src dst s [] = Some (inr (src', dst'), s, []) ∧ node_rest src src' ∧ node_ok dst' ∧ (or_ok src → or_ok dst → or_ok dst') ∧
    ∀ i, node_allows dst' i ↔ node_allows src i ∧ node_allows dst i.
Proof.
  intros Hs Hd Ho. pose proof (node_rest_refl src Hs) as Hrefl. pose proof (node_rest_none src) as Hnone.
  pose proof (node_rest_some src) as Hsome. unfold node_ok, or_ok, and_order, node_allows, AndFilterResults in *.
  destruct (computeResult src) eqn:Hrs, (computeResult dst) eqn:Hrd, (candidates src) as [c|] eqn:Hcs, (candidates dst) as [d|] eqn:Hcd;
    try (do 2 eexists; split; [reflexivity |]; split; [done |]; cbn; rewrite ?Hrs, ?Hrd, ?Hcs, ?Hcd; split; [done |]; split; [tauto |]; intros i; tauto).
  destruct (positive d) eqn:Hpd, (positive c) eqn:Hpc; cbn [andb negb].
  - destruct (intersect_spec c d s) as (c' & r & Hrun & Hsl & Hp & Hok & Hmem & _); [done | done | congruence |].
    unfold rbind. rewrite Hrun. do 2 eexists. split; [reflexivity |]. split; [by eapply Hsome |]. cbn. rewrite Hrd, Hp, Hpd. split; [done |]. split; [tauto |]. intros i. rewrite Hmem. tauto.
  - destruct (subtract_spec c d s) as (c' & r & Hrun & Hsl & Hp & Hok & Hmem & _); [done | done | congruence | by apply Ho |].
    unfold rbind. rewrite Hrun. do 2 eexists. split; [reflexivity |]. split; [by eapply Hsome |]. cbn. rewrite Hrd, Hp, Hpd. split; [done |]. split; [tauto |]. intros i. rewrite Hmem. tauto.
  - destruct Ho as [Ho _]. by specialize (Ho eq_refl).
  - destruct (union_spec c d s) as (o & r & Hrun & Hsl & Hp & Hok & Hmem & _); [done | done | congruence |].
    unfold rbind. rewrite Hrun. do 2 eexists. split; [reflexivity |]. split; [destruct o as [c'|]; [eapply Hsome; [done | by apply Hsl] | done] |].
    cbn. rewrite Hrd, Hp, Hpd. split; [done |]. split; [tauto |]. intros i. rewrite Hmem. tauto.
Qed.

(** What an OR has collected so far: before the first component, nothing. *)
Definition or_allows (n : filter_node) (i : Z) : Prop :=
  match computeResult n, candidates n with
  | FILTER_RES_NORMAL, None => False
  | _, _ => node_allows n i
  end.

(** The OR of two results loses nothing; a component without candidates or with
    a negative list makes it allow everything. *)
Lemma or_results_contain src dst s :
  node_ok src → or_ok dst →
  ∃ src' dst', OrFilterResults src dst s [] = Some (inr (src', dst'), s, []) ∧ node_rest src src' ∧ or_ok dst' ∧
    ∀ i, node_allows src i ∨ or_allows dst i → or_allows dst' i.
Proof.
  intros Hs Hd. pose proof (node_rest_refl src Hs) as Hrefl.
  assert (∀ dst, or_ok dst → computeResult dst = FILTER_RES_NORMAL → computeResult src = FILTER_RES_NORMAL →
    ∃ src' dst', or_candidates src dst s [] = Some (inr (src', dst'), s, []) ∧ node_rest src src' ∧ or_ok dst' ∧
      ∀ i, node_allows src i ∨ or_allows dst i → or_allows dst' i) as Hcand.
  { clear dst Hd. intros dst Hd Hrd Hrs. pose proof (node_rest_none src) as Hnone. pose proof (node_rest_some src) as Hsome.
    unfold node_ok, or_ok, or_allows, node_allows, or_candidates in *. rewrite Hrd, Hrs.
    destruct (candidates src) as [c|] eqn:Hcs; [| do 2 eexists; split; [reflexivity |]; by cbn].
    destruct (positive c) eqn:Hpc; cbn [negb]; [| do 2 eexists; split; [reflexivity |]; by cbn].
    destruct (candidates dst) as [d|] eqn:Hcd.
    - destruct Hd as [Hd Hpd]. rewrite Hpd. destruct (union_spec c d s) as (o & r & Hrun & Hsl & Hp & Hok & Hmem & _); [done | done | congruence |].
      unfold rbind. rewrite Hrun. do 2 eexists. split; [reflexivity |]. split; [destruct o as [c'|]; [eapply Hsome; [done | by apply Hsl] | done] |].
      cbn. rewrite Hrd, Hp, Hpd. split; [done |]. intros i. rewrite Hmem. tauto.
    - do 2 eexists. split; [reflexivity |]. split; [done |]. cbn. rewrite Hrd, Hpc. split; [done |]. tauto. }
  unfold OrFilterResults. destruct (computeResult src) eqn:Hrs, (computeResult dst) eqn:Hrd;
    try (do 2 eexists; split; [reflexivity |]; split; [done |]; unfold or_ok, or_allows, node_allows in *; cbn; rewrite ?Hrs, ?Hrd; split; [done |]; intros i; tauto).
  - by apply Hcand.
  - destruct (Hcand (set_computeResult FILTER_RES_NORMAL dst)) as (src' & dst' & Hrun & Hre & Hok & Hall); [done | done | done |].
    exists src', dst'. do 3 (split; [done |]). intros i [Hi | Hi]; apply Hall; [by left |]. by unfold or_allows, node_allows in Hi; rewrite Hrd in Hi.
  - destruct (Hcand (set_computeResult FILTER_RES_NORMAL dst)) as (src' & dst' & Hrun & Hre & Hok & Hall); [done | done | done |].
    exists src', dst'. do 3 (split; [done |]). intros i [Hi | Hi]; apply Hall; [by left |]. by unfold or_allows, node_allows in Hi; rewrite Hrd in Hi.
Qed.

(** C25: Merging lists of ids computes the set operations.  On lists whose sort
    flag is right (in any order otherwise), the intersection and the union of
    lists of the same kind, and the difference of a list without duplicates and
    one of the other kind, terminate without reallocation and have exactly the
    members of the set operation.  Two non-empty lists give a sorted result with
    its flag set, an intersection is always sorted; with an empty operand union
    and difference return the other list as it is, with a flag that is right. *)
Theorem candidate_sets c d s :
  cands_ok c → cands_ok d →
  (positive c = positive d →
   (∃ c' r, IntersectCandidates c d s [] = Some (inr (c', r), s, []) ∧ cands_ok r ∧ sorted (eIds r) ∧
      (list_to_set (eIds r) : gset Z) = list_to_set (eIds c) ∩ list_to_set (eIds d)) ∧
   (∃ (o : option VDIR_CANDIDATES) r, UnionCandidates c d s [] = Some (inr (o, r), s, []) ∧ cands_ok r ∧
      (eIds c ≠ [] → eIds d ≠ [] → eIdsSorted r = true ∧ sorted (eIds r)) ∧
      (list_to_set (eIds r) : gset Z) = list_to_set (eIds c) ∪ list_to_set (eIds d))) ∧
  (positive c ≠ positive d → NoDup (eIds d) →
   ∃ c' r, SubtractCandidates c d s [] = Some (inr (c', r), s, []) ∧ cands_ok r ∧
      (eIds c ≠ [] → eIds d ≠ [] → eIdsSorted r = true ∧ sorted (eIds r)) ∧
      (list_to_set (eIds r) : gset Z) = list_to_set (eIds d) ∖ list_to_set (eIds c)).
Proof.
  intros Hc Hd. split; [intros Hp; split |].
  - destruct (intersect_spec c d s Hc Hd Hp) as (c' & r & Hrun & _ & _ & Hok & Hmem & Hfl). do 2 eexists. do 2 (split; [done |]). split; [| set_solver].
    destruct (decide (eIds c = [])) as [Ec | Ec], (decide (eIds d = [])) as [Ed | Ed]; [| | | by apply Hok, Hfl];
      (replace (eIds r) with ([] : list Z); [constructor |]); symmetry; apply elem_of_nil_inv; intros z Hz; apply Hmem in Hz as [H1 H2];
      [rewrite Ec in H1; by apply elem_of_nil in H1 | rewrite Ec in H1; by apply elem_of_nil in H1 | rewrite Ed in H2; by apply elem_of_nil in H2].
  - destruct (union_spec c d s Hc Hd Hp) as (o & r & Hrun & _ & _ & Hok & Hmem & Hfl). do 2 eexists. do 2 (split; [done |]). split; [| set_solver].
    intros Ec Ed. split; [by apply Hfl | by apply Hok, Hfl].
  - intros Hp Hnd. destruct (subtract_spec c d s Hc Hd Hp Hnd) as (c' & r & Hrun & _ & _ & Hok & Hmem & Hfl). do 2 eexists. do 2 (split; [done |]). split; [| set_solver].
    intros Ec Ed. split; [by apply Hfl | by apply Hok, Hfl].
Qed.

End Sets.

Lemma candidate_sets_witness :
  let c := CANDS [5; 2; 9] 8 true false in
  let d := CANDS [2; 3; 5] 8 true true in
  cands_ok c ∧ cands_ok d ∧
  ∃ c' r, IntersectCandidates c d tt [] = Some (inr (c', r), tt, []) ∧ cands_ok r ∧ StronglySorted Z.le (eIds r) ∧
    (list_to_set (eIds r) : gset Z) = list_to_set (eIds c) ∩ list_to_set (eIds d).
Proof.
  intros c d. assert (cands_ok c) as Hc by (by intros ?).
  assert (cands_ok d) as Hd by (intros _; repeat (constructor; [| repeat constructor; lia]); constructor).
  split; [exact Hc |]. split; [exact Hd |]. exact (proj1 (proj1 (candidate_sets c d tt Hc Hd) eq_refl)).
Defined.

(** The subtraction of a list with duplicates leaves the second of two equal
    ids. *)
Example subtract_duplicates :
  ∃ r, SubtractCandidates (CANDS [3] 4 false true) (CANDS [3; 3] 4 true true) tt [] = Some (inr r, tt, []) ∧ eIds r.2 = [3].
Proof. eexists. split; vm_compute; reflexivity. Qed.
