(* ===== verification/Search.v ===== *)
(** * Search: candidates of a filter, and the entries that are sent

    [vmdir/server/middle-layer/search.c]: [BuildCandidateList] fills the nodes of
    a filter with candidates from the indices, with its order of evaluation and
    its short cuts, and [VmDirProcessCandidateList] reads the candidates, tests
    them against the filter and sends them.  [AppendDNFilter] of
    [ldap-head/filter.c] adds the scope of the search.

    The backend is an interface ([CandidateSource]): it offers candidates for an
    item and promises, unless it says that they are partial, that no entry that
    passes the item is missing.  Against this promise the search is shown to
    find every entry. *)

From S2P Require Import Prelude Heap StringList CString Effects RaftLog Filter Candidates.

Open Scope Z_scope.

(** ** State *)

(** The fields of the operation and of its backend context. *)
Record search_state := SEARCH {
  iMaxScanForSizeLimit : Z;
  iPartialCandidates : bool;
  sentEntries : list Z          (** the entries sent so far, in order *)
}.

Definition set_iMaxScan (x : Z) (s : search_state) : search_state := SEARCH x (iPartialCandidates s) (sentEntries s).
Definition set_partial (x : bool) (s : search_state) : search_state := SEARCH (iMaxScanForSizeLimit s) x (sentEntries s).
Definition set_sent (x : list Z) (s : search_state) : search_state := SEARCH (iMaxScanForSizeLimit s) (iPartialCandidates s) x.

(** The request and the settings of the server. *)
Record search_request := REQUEST {
  sizeLimit : Z;
  bPaged : bool;
  dwMaxIndexScan : Z;
  dwSmallCandidateSet : Z;
  dwMaxSizelimitScan : Z;
  dwMaxInternalSearchLimit : Z
}.

Definition node_of (f : VDIR_FILTER) : filter_node :=
  match f with FAnd n _ | FOr n _ | FNot n _ | FItem n _ => n end.

Definition set_node (n : filter_node) (f : VDIR_FILTER) : VDIR_FILTER :=
  match f with FAnd _ fs => FAnd n fs | FOr _ fs => FOr n fs | FNot _ g => FNot n g | FItem _ i => FItem n i end.

Definition set_iMaxIndexScan (x : Z) (n : filter_node) : filter_node :=
  NODE (computeResult n) x (bAncestorGotPositiveCandidateSet n) (candidates n).
Definition set_bAncestor (x : bool) (n : filter_node) : filter_node :=
  NODE (computeResult n) (iMaxIndexScan n) x (candidates n).

Definition upd_node (h : filter_node → filter_node) (f : VDIR_FILTER) : VDIR_FILTER := set_node (h (node_of f)) f.

(** ** Building the candidates *)

Definition ATTR_USN_CHANGED : cstr := ["u"; "S"; "N"; "C"; "h"; "a"; "n"; "g"; "e"; "d"]%char.

(** What the backend offers: candidates for an item (the flag is false for the
    error [VMDIR_ERROR_BACKEND_ENTRY_NOTFOUND], which the caller takes for
    success), and whether an attribute has a unique index, which may fail. *)
Class CandidateSource := {
  pfnBEGetCandidates : filter_item → filter_node → Z → RM search_state (bool * filter_node);
  has_unique_index : cstr → RM search_state bool
}.

Section Build.
Context (compare : cstr → cstr → bool → Z) {source : CandidateSource} (rq : search_request).

Definition is_composite (f : VDIR_FILTER) : bool := match f with FAnd _ _ | FOr _ _ => true | _ => false end.

(** The search for the special component of an AND, from component [k] on. *)
Fixpoint find_special (k : nat) (special : option nat) (fs : list VDIR_FILTER) : RM search_state (option nat) :=
  match fs with
  | [] => rret special
  | FItem _ (FGe a) :: fs =>
      find_special (S k) (if compare (ava_type a) ATTR_USN_CHANGED false =? 0 then Some k else special) fs
  | FItem _ (FEquality a) :: fs =>
      u <- has_unique_index (ava_type a) ;; if u : bool then rret (Some k) else find_special (S k) special fs
  | _ :: fs => find_special (S k) special fs
  end.

(** A small positive list ends the evaluation of an AND ([None]); a larger one
    counts. *)
Definition positive_set (got : bool) (n : filter_node) : option bool :=
  match candidates n with
  | Some c => if positive c then (if csize c <=? dwSmallCandidateSet rq then None else Some true) else Some got
  | None => Some got
  end.

Section Passes.
Context (build : VDIR_FILTER → RM search_state VDIR_FILTER).

(** A pass over the components that [sel] picks.  The results: the components,
    whether there is a positive list, and whether the pass was ended. *)
Fixpoint and_pass (k : nat) (sel : nat → VDIR_FILTER → bool) (prep : bool → filter_node → filter_node) (got : bool)
    (fs : list VDIR_FILTER) : RM search_state (list VDIR_FILTER * bool * bool) :=
  match fs with
  | [] => rret ([], got, false)
  | g :: fs =>
      if sel k g then
        g <- build (upd_node (prep got) g) ;;
        match positive_set got (node_of g) with
        | None => rret (g :: fs, got, true)
        | Some got => r <- and_pass (S k) sel prep got fs ;; let '(fs, got, stop) := r in rret (g :: fs, got, stop)
        end
      else r <- and_pass (S k) sel prep got fs ;; let '(fs, got, stop) := r in rret (g :: fs, got, stop)
  end.

(** All components, prepared by [prep]. *)
Fixpoint build_all (prep : filter_node → filter_node) (fs : list VDIR_FILTER) : RM search_state (list VDIR_FILTER) :=
  match fs with
  | [] => rret []
  | g :: fs => g <- build (upd_node prep g) ;; fs <- build_all prep fs ;; rret (g :: fs)
  end.

(** The special component, alone. *)
Fixpoint build_at (k : nat) (fs : list VDIR_FILTER) : RM search_state (list VDIR_FILTER * option filter_node) :=
  match k, fs with
  | _, [] => rret ([], None)
  | O, g :: fs => g <- build (upd_node (set_iMaxIndexScan 0) g) ;; rret (g :: fs, Some (node_of g))
  | S k, g :: fs => r <- build_at k fs ;; rret (g :: r.1, r.2)
  end.

End Passes.

(** The results of the components that [sel] picks are combined into the node. *)
Fixpoint combine (op : filter_node → filter_node → RM search_state (filter_node * filter_node)) (sel : filter_node → bool)
    (n : filter_node) (fs : list VDIR_FILTER) : RM search_state (list VDIR_FILTER * filter_node) :=
  match fs with
  | [] => rret ([], n)
  | g :: fs =>
      if sel (node_of g) then
        r <- op (node_of g) n ;; x <- combine op sel r.2 fs ;; rret (set_node r.1 g :: x.1, x.2)
      else x <- combine op sel n fs ;; rret (g :: x.1, x.2)
  end.

Definition no_negative (n : filter_node) : bool := match candidates n with Some c => positive c | None => true end.

(** First no or positive lists, then the negative ones. *)
Definition combine_all (op : filter_node → filter_node → RM search_state (filter_node * filter_node)) (n : filter_node)
    (fs : list VDIR_FILTER) : RM search_state (list VDIR_FILTER * filter_node) :=
  x <- combine op no_negative n fs ;; combine op (λ n, negb (no_negative n)) x.2 x.1.

(** The passes of an AND up to [candidate_build_done]. *)
Definition build_and (build : VDIR_FILTER → RM search_state VDIR_FILTER) (n : filter_node) (fs : list VDIR_FILTER)
    : RM search_state (list VDIR_FILTER) :=
  rset (set_iMaxScan (if negb (bPaged rq) && (sizeLimit rq >? 0) then dwMaxSizelimitScan rq else 0)) ;;;
  special <- find_special 0 None fs ;;
  (** the special component *)
  x <- match special with
       | None => rret (fs, bAncestorGotPositiveCandidateSet n, false)
       | Some k =>
           r <- build_at build k fs ;;
           match r.2 with
           | Some m =>
               match candidates m with
               | Some c => rret (r.1, true, csize c <=? dwSmallCandidateSet rq)
               | None => rret (r.1, bAncestorGotPositiveCandidateSet n, false)
               end
           | None => rret (r.1, bAncestorGotPositiveCandidateSet n, false)
           end
       end ;;
  let '(fs, got, stop) := x in
  if stop : bool then rret fs
  else
    (** first pass: the other simple components, with a limit *)
    x <- and_pass build 0 (λ k g, negb (bool_decide (Some k = special)) && negb (is_composite g))
                  (λ _, set_iMaxIndexScan (dwMaxIndexScan rq)) got fs ;;
    let '(fs, got, stop) := x in
    if stop : bool then rret fs
    else
      (** first pass: the composite components *)
      x <- and_pass build 0 (λ _ g, is_composite g) set_bAncestor got fs ;;
      let '(fs, got, stop) := x in
      if stop || got then rret fs
      else build_all build (set_iMaxIndexScan 0) fs.

(** [BuildCandidateList]; the height of the filter bounds the recursion. *)
Fixpoint BuildCandidateList (fuel : nat) (eStartingId : Z) (f : VDIR_FILTER) : RM search_state VDIR_FILTER :=
  match fuel with
  | O => rub
  | S fuel =>
      if negb (bool_decide (computeResult (node_of f) = FILTER_RES_NORMAL)) then rret f
      else
        match f with
        | FAnd n fs =>
            fs <- build_and (BuildCandidateList fuel eStartingId) n fs ;;
            x <- combine_all AndFilterResults n fs ;; rret (FAnd x.2 x.1)
        | FOr n fs =>
            fs <- build_all (BuildCandidateList fuel eStartingId) (set_bAncestor (bAncestorGotPositiveCandidateSet n)) fs ;;
            x <- combine_all OrFilterResults n fs ;; rret (FOr x.2 x.1)
        | FNot n g => rret (FNot (set_computeResult FILTER_RES_TRUE n) g)
        | FItem n (FPresent t) => rret (FItem (set_computeResult FILTER_RES_TRUE (set_candidates None n)) (FPresent t))
        | FItem n FUnsupported => rret f
        | FItem n i =>
            x <- pfnBEGetCandidates i n eStartingId ;;
            (match x.1, candidates x.2 with
             | true, Some _ => VmDirAllocateMemory 1 ;;; rret tt
             | _, _ => rret tt
             end) ;;;
            rret (FItem x.2 i)
        end
  end.

(** ** Sending the entries *)

(** The directory: [pfnBEIdToEntry] reads an entry by id.  [readable] is the
    outcome of [VmDirSendSearchEntry]: whether the entry was sent, which access
    control may refuse. *)
Context (entry_of : Z → dwerror + entry) (readable : entry → bool).

(** The loop over the candidates, without paging and the digest control.  The
    result is [retVal]: a failed read of an entry sets it and goes on, the next
    read overwrites it.  No result of the test is a failed assertion. *)
Fixpoint process_loop (bInternal : bool) (f : VDIR_FILTER) (ids : list Z) (retVal : option dwerror)
    : RM search_state (option dwerror) :=
  match ids with
  | [] => rret retVal
  | i :: ids =>
      s <- rget ;;
      if negb (sizeLimit rq =? 0) && (Z.of_nat (length (sentEntries s)) >=? sizeLimit rq) then rret retVal
      else match entry_of i with
           | inl err => process_loop bInternal f ids (Some err)
           | inr e =>
               r <- rlift (CheckIfEntryPassesFilter compare e f) ;;
               if bool_decide (r = FILTER_RES_TRUE) then
                 backend_call ;;; backend_call ;;;
                 if readable e then
                   rset (set_sent (sentEntries s ++ [i])) ;;;
                   if bInternal && (Z.of_nat (length (sentEntries s ++ [i])) >? dwMaxInternalSearchLimit rq)
                   then rfail VMDIR_ERROR_INTERNAL_SEARCH_LIMIT
                   else process_loop bInternal f ids None
                 else process_loop bInternal f ids None
               else process_loop bInternal f ids None
           end
  end.

(** [VmDirProcessCandidateList]; [bInternal] for searches whose results are kept
    in memory.  With a size limit that was not reached, partial candidates make
    the request fail. *)
Definition VmDirProcessCandidateList (bInternal : bool) (f : VDIR_FILTER) : RM search_state unit :=
  rset (set_sent []) ;;;
  retVal <- match candidates (node_of f) with
            | Some c =>
                if csize c >? 0 then
                  (if bInternal then VmDirAllocateMemory (csize c) ;;; rret tt else rret tt) ;;;
                  process_loop bInternal f (eIds c) None
                else rret None
            | None => rret None
            end ;;
  s <- rget ;;
  if negb (sizeLimit rq =? 0) && (Z.of_nat (length (sentEntries s)) <? sizeLimit rq) && iPartialCandidates s
  then rfail LDAP_UNWILLING_TO_PERFORM
  else match retVal with Some err => rfail err | None => rret tt end.

(** [_VmDirInternalNormalSearch]: a filter that is always true would need a scan
    of all entries. *)
Definition _VmDirInternalNormalSearch (fuel : nat) (bInternal : bool) (f : VDIR_FILTER) : RM search_state unit :=
  f <- BuildCandidateList fuel 0 f ;;
  if bool_decide (computeResult (node_of f) = FILTER_RES_TRUE) then rfail VMDIR_ERROR_UNWILLING_TO_PERFORM
  else VmDirProcessCandidateList bInternal f.

End Build.

(** ** The scope of the search *)

Inductive search_scope := LDAP_SCOPE_BASE | LDAP_SCOPE_ONELEVEL | LDAP_SCOPE_SUBTREE.

Definition fresh_node : filter_node := NODE FILTER_RES_NORMAL 0 false None.

(** [AppendDNFilter]: the base goes before the filter of the request, a tree
    behind it; a tree below the root needs no test. *)
Definition AppendDNFilter (scope : search_scope) (dnDesc : at_desc) (normDn : berval) (f : VDIR_FILTER) : VDIR_FILTER :=
  match scope with
  | LDAP_SCOPE_BASE => FAnd fresh_node [FItem fresh_node (FEquality (AVA (Some dnDesc) ATTR_DN normDn)); f]
  | LDAP_SCOPE_ONELEVEL => FAnd fresh_node [f; FItem fresh_node (FOneLevel normDn)]
  | LDAP_SCOPE_SUBTREE =>
      let r := if bool_decide (default [] (bvnorm_val normDn) = []) then FILTER_RES_TRUE else FILTER_RES_NORMAL in
      FAnd fresh_node [f; FItem (NODE r 0 false None) (FSubstrings (SUBSTR (Some dnDesc) ATTR_DN (BER [] None) [] normDn))]
  end.

(** ** No entry is missed *)

(** The promise of the backend for the [exact] items: it gives no list or a
    positive one and, unless it reports partial candidates, excludes no entry
    (from the starting id on) that passes the item, if the node did not before;
    for an [indexed] item there is a list, unless a limit for the scan was set. *)
Class CandidateLaws (compare : cstr → cstr → bool → Z) (entry_of : Z → dwerror + entry) (exact indexed : filter_item → Prop)
    {source : CandidateSource} : Prop := {
  unique_laws a s : exact (FEquality a) → ∃ u, has_unique_index (ava_type a) s [] = Some (inr u, s, []);
  candidates_laws i n start s :
    exact i → i ≠ FUnsupported → (∀ t, i ≠ FPresent t) → computeResult n = FILTER_RES_NORMAL → or_ok n →
    (iPartialCandidates s = false →
       ∀ id e, entry_of id = inr e → start <= id → test_item compare n i e = Some FILTER_RES_TRUE → node_allows n id) →
    ∃ b n' s', pfnBEGetCandidates i n start s [] = Some (inr (b, n'), s', []) ∧
      computeResult n' = FILTER_RES_NORMAL ∧ or_ok n' ∧ (iPartialCandidates s = true → iPartialCandidates s' = true) ∧
      (iPartialCandidates s' = false →
         ∀ id e, entry_of id = inr e → start <= id → test_item compare n i e = Some FILTER_RES_TRUE → node_allows n' id) ∧
      (indexed i → iMaxIndexScan n = 0 → is_Some (candidates n'))
}.

(** The item tests look at the result of the node only. *)
Lemma test_item_ext compare n n' i e : computeResult n = computeResult n' → test_item compare n i e = test_item compare n' i e.
Proof.
  intros H. destruct i; cbn; unfold TestAvaFilter, TestSubstringsFilter, TestPresentFilter, TestOneLevelFilter; by rewrite ?H.
Qed.

(** When an AND is true all components are, when an OR is true one is. *)
Lemma check_normal compare e f : CheckIfEntryPassesFilter compare e f ≠ Some FILTER_RES_NORMAL.
Proof.
  assert (∀ stop u last rs, stop ≠ FILTER_RES_NORMAL → last ≠ FILTER_RES_NORMAL → Forall (λ r, r ≠ Some FILTER_RES_NORMAL) rs →
    check_components stop u last rs ≠ Some FILTER_RES_NORMAL) as Hcomp.
  { intros stop u last rs Hs. revert u last. induction rs as [|r rs IH]; intros u last Hl Hall; cbn; [destruct u; congruence |].
    apply Forall_cons in Hall as [Hr Hall]. destruct r as [r|]; [| done]. cbn. destruct (decide (r = stop)); [congruence |]. apply IH; congruence. }
  induction f as [n fs IH | n fs IH | n f IH | n i] using filter_ind'; cbn.
  - apply Hcomp; [done | done |]. by apply Forall_fmap.
  - apply Hcomp; [done | done |]. by apply Forall_fmap.
  - destruct (CheckIfEntryPassesFilter compare e f) as [[]|]; done.
  - apply test_item_normal.
Qed.

Lemma check_and_true u last rs :
  Forall (λ r, r ≠ Some FILTER_RES_NORMAL) rs → check_components FILTER_RES_FALSE u last rs = Some FILTER_RES_TRUE →
  u = false ∧ Forall (λ r, r = Some FILTER_RES_TRUE) rs.
Proof.
  revert u last. induction rs as [|r rs IH]; intros u last Hall Hc; cbn in Hc; [by destruct u |].
  apply Forall_cons in Hall as [Hr Hall]. destruct r as [r|]; [| done]. cbn in Hc. destruct (decide (r = FILTER_RES_FALSE)); [done |].
  apply IH in Hc as [Hu Hc]; [| done]. apply orb_false_iff in Hu as [-> Hu]. apply bool_decide_eq_false in Hu.
  split; [done |]. constructor; [| done]. destruct r; congruence.
Qed.

Lemma check_or_true u last rs :
  last ≠ FILTER_RES_TRUE → check_components FILTER_RES_TRUE u last rs = Some FILTER_RES_TRUE → Some FILTER_RES_TRUE ∈ rs.
Proof.
  revert u last. induction rs as [|r rs IH]; intros u last Hl Hc; cbn in Hc; [destruct u; congruence |].
  destruct r as [r|]; [| done]. cbn in Hc. destruct (decide (r = FILTER_RES_TRUE)) as [-> | Hne]; [by left |]. right. by eapply IH.
Qed.

Section Complete.
Context (compare : cstr → cstr → bool → Z) (entry_of : Z → dwerror + entry) (exact indexed : filter_item → Prop).
Context {source : CandidateSource} {laws : CandidateLaws compare entry_of exact indexed}.
Context (rq : search_request) (start : Z).
Implicit Types (f g : VDIR_FILTER) (fs : list VDIR_FILTER) (n : filter_node) (s : search_state).

Abbreviation check := (CheckIfEntryPassesFilter compare).

(** The node excludes no entry that passes the filter. *)
Definition sound f : Prop :=
  ∀ id e, entry_of id = inr e → start <= id → check e f = Some FILTER_RES_TRUE → node_allows (node_of f) id.

(** A node during the search: a list, if any, is positive and usable, and a node
    that is known to be true has none. *)
Definition good n : Prop := or_ok n ∧ (computeResult n = FILTER_RES_TRUE → candidates n = None).

(** The nodes of a filter during the search; [p] says that there were partial
    candidates. *)
Fixpoint inv (p : bool) f : Prop :=
  good (node_of f) ∧ (p = false → sound f) ∧
  match f with
  | FAnd _ fs | FOr _ fs => fold_right (λ g P, inv p g ∧ P) True fs
  | FNot n g => candidates n = None ∧ inv p g
  | FItem _ i => exact i
  end.

Lemma inv_components p fs : fold_right (λ g P, inv p g ∧ P) True fs ↔ Forall (inv p) fs.
Proof. induction fs as [|f fs IH]; cbn; [done |]. rewrite IH, Forall_cons. done. Qed.

Fixpoint height f : nat :=
  match f with
  | FAnd _ fs | FOr _ fs => S (fold_right (λ g h, Nat.max (height g) h) 0%nat fs)
  | FNot _ g => S (height g)
  | FItem _ _ => 1%nat
  end.

Definition heights fs : nat := fold_right (λ g h, Nat.max (height g) h) 0%nat fs.

(** An item that is still looked up. *)
Definition normal_item (i : filter_item) f : Prop :=
  (∃ m, f = FItem m i ∧ computeResult m = FILTER_RES_NORMAL) ∧ i ≠ FUnsupported ∧ ∀ t, i ≠ FPresent t.

(** The same filter to the tests. *)
Definition same f g : Prop :=
  (∀ e, check e g = check e f) ∧ height g = height f ∧ is_composite g = is_composite f ∧ ∀ i, normal_item i f → normal_item i g.

Definition has_list f : Prop := is_Some (candidates (node_of f)).

#[local] Instance same_refl : Reflexive same.
Proof. by split. Qed.
#[local] Instance same_trans : Transitive same.
Proof. intros f g h (H1 & H2 & H3 & H7) (H4 & H5 & H6 & H8). split; [intros e; by rewrite H4 |]. split; [congruence |]. split; [congruence | auto]. Qed.

Lemma inv_mono p p' f : (p = true → p' = true) → inv p f → inv p' f.
Proof.
  intros Hp. induction f as [n fs IH | n fs IH | n f IH | n i] using filter_ind'; cbn; rewrite ?inv_components; intros (Hok & Hs & Hc);
    (split; [done |]; split; [intros ->; apply Hs; destruct p; [by specialize (Hp eq_refl) | done] |]).
  - rewrite Forall_forall in *. eauto.
  - rewrite Forall_forall in *. eauto.
  - naive_solver.
  - done.
Qed.

Lemma same_heights fs fs' : Forall2 same fs fs' → heights fs' = heights fs.
Proof. unfold heights. induction 1 as [|f g fs fs' (_ & Hh & _) _ IH]; cbn; [done |]. by rewrite Hh, IH. Qed.

Lemma same_checks e fs fs' : Forall2 same fs fs' → map (check e) fs' = map (check e) fs.
Proof. induction 1 as [|f g fs fs' [He _] _ IH]; cbn; [done |]. by rewrite He, IH. Qed.

(** Changing the node of a filter, when the result of an item stays. *)
Lemma same_set_node n f : (match f with FItem m _ => computeResult n = computeResult m | _ => True end) → same f (set_node n f).
Proof. 
  destruct f as [m fs | m fs | m g | m i]; cbn; intros Hr; (split; [cbn; try done; intros e; by apply test_item_ext |]); do 2 (split; [done |]);
    intros j [(k & Hk & Hn) Hp]; try done. injection Hk as <- <-. split; [| done]. eexists. split; [done | congruence].
Qed.

Lemma set_node_inv p n f :
  inv p f → computeResult n = computeResult (node_of f) → good n → (candidates (node_of f) = None → candidates n = None) →
  (∀ i, node_allows (node_of f) i → node_allows n i) → inv p (set_node n f).
Proof.
  intros Hinv Hr Hok Hnone Hall. assert (same f (set_node n f)) as [Hsame _] by (apply same_set_node; by destruct f).
  assert (node_of (set_node n f) = n) as Hn by by destruct f.
  assert (p = false → sound (set_node n f)) as Hs.
  { intros Hp id e He Hid Hc. rewrite Hn. apply Hall. rewrite Hsame in Hc.
    assert (sound f) as Hf by (destruct f; cbn in Hinv; by apply Hinv). by apply (Hf id e). }
  destruct f; cbn in *; (split; [done |]); (split; [done |]); tauto.
Qed.

Lemma inv_good p f : inv p f → good (node_of f).
Proof. by destruct f; cbn; intros [? _]. Qed.

Definition prep_ok (h : filter_node → filter_node) : Prop := ∀ n, computeResult (h n) = computeResult n ∧ candidates (h n) = candidates n.

Lemma upd_node_inv p h f : prep_ok h → inv p f → inv p (upd_node h f) ∧ same f (upd_node h f).
Proof.
  intros Hh Hinv. destruct (Hh (node_of f)) as [Hr Hc]. split.
  - apply set_node_inv; [done | done | | congruence |].
    + unfold good, or_ok. rewrite Hr, Hc. destruct f; cbn in Hinv; apply Hinv.
    + intros i. unfold node_allows. by rewrite Hr, Hc.
  - apply same_set_node. by destruct f.
Qed.

(** What a step of the search does to a filter, and to a list of filters. *)
Definition step_ok s s' : Prop := iPartialCandidates s = true → iPartialCandidates s' = true.
Definition builds (m : VDIR_FILTER → RM search_state VDIR_FILTER) f : Prop :=
  ∀ s, inv (iPartialCandidates s) f →
    ∃ f' s', m f s [] = Some (inr f', s', []) ∧ same f f' ∧ step_ok s s' ∧ inv (iPartialCandidates s') f'.

Lemma inv_list_mono s s' fs : step_ok s s' → Forall (inv (iPartialCandidates s)) fs → Forall (inv (iPartialCandidates s')) fs.
Proof. intros Hs Hall. eapply Forall_impl; [exact Hall |]. intros f. by apply inv_mono. Qed.

Lemma positive_set_list got f r : positive_set rq got (node_of f) = r → r = None ∨ (r = Some true ∧ got = false) → has_list f.
Proof. unfold positive_set, has_list. destruct (candidates (node_of f)); [done |]. intros <- [? | [? ->]]; congruence. Qed.

Section Pass.
Context (build : VDIR_FILTER → RM search_state VDIR_FILTER).

(** The functions that build the components of a list. *)
Definition builds_all fs : Prop := ∀ f, (height f <= heights fs)%nat → builds build f.

Lemma builds_all_cons f fs : builds_all (f :: fs) → builds build f ∧ builds_all fs.
Proof. intros H. split; [apply H; cbn; lia |]. intros g Hg. apply H. unfold heights in *. cbn. lia. Qed.

Lemma builds_upd h f fs s : prep_ok h → builds_all (f :: fs) → inv (iPartialCandidates s) f →
  ∃ f' s', build (upd_node h f) s [] = Some (inr f', s', []) ∧ same f f' ∧ step_ok s s' ∧ inv (iPartialCandidates s') f'.
Proof.
  intros Hh Hb Hinv. destruct (upd_node_inv _ h f Hh Hinv) as (Hinv' & He & Hhe & Hc & Hi0).
  destruct (Hb (upd_node h f)) with (s := s) as (f' & s' & Hrun & Hsame & Hstep & Hi); [rewrite Hhe; cbn; lia | done |].
  exists f', s'. split; [done |]. split; [| done]. transitivity (upd_node h f); [by split | done].
Qed.

(** The items that must get a list. *)
Definition lists_items : Prop :=
  ∀ i f s f' s' e', indexed i → normal_item i f → inv (iPartialCandidates s) f → iMaxIndexScan (node_of f) = 0 →
    build f s [] = Some (inr f', s', e') → has_list f'.

Lemma and_pass_run k sel prep got fs s :
  (∀ b, prep_ok (prep b)) → builds_all fs → Forall (inv (iPartialCandidates s)) fs →
  ∃ fs' got' stop s', and_pass rq build k sel prep got fs s [] = Some (inr (fs', got', stop), s', []) ∧
    Forall2 same fs fs' ∧ step_ok s s' ∧ Forall (inv (iPartialCandidates s')) fs' ∧
    (∀ j g, fs !! j = Some g → sel (k + j)%nat g = false → fs' !! j = Some g) ∧
    (stop = true ∨ got' = true ∧ got = false → ∃ j g g', fs !! j = Some g ∧ sel (k + j)%nat g = true ∧ fs' !! j = Some g' ∧ has_list g').
Proof.
  intros Hp. revert k got s. induction fs as [|f fs IH]; intros k got s Hb Hinv; cbn [and_pass].
  { exists [], got, false, s. do 2 (split; [done |]). split; [by intros ? |]. split; [constructor |]. split; [done |]. intros [? | [? ?]]; congruence. }
  apply Forall_cons in Hinv as [Hf Hfs]. pose proof (builds_all_cons _ _ Hb) as [_ Hb']. destruct (sel k f) eqn:Hsel.
  - destruct (builds_upd (prep got) f fs s) as (f' & s1 & Hrun & Hsame & Hstep & Hi); [done | done | done |]. unfold rbind at 1. rewrite Hrun.
    pose proof (inv_list_mono _ _ _ Hstep Hfs) as Hfs1. destruct (positive_set rq got (node_of f')) as [got1|] eqn:Hpos.
    + destruct (IH (S k) got1 s1) as (fs' & got' & stop & s' & Hrun' & Hsame' & Hstep' & Hi' & Hun & Hgot); [done | done |].
      unfold rbind. rewrite Hrun'. do 4 eexists. split; [reflexivity |]. split; [by constructor |]. split; [by intros ?%Hstep%Hstep' |].
      split; [constructor; [by eapply inv_mono | done] |]. split.
      * intros [|j] g Hg; [injection Hg as <-; rewrite Nat.add_0_r; congruence |]. rewrite <- Nat.add_succ_comm. by apply Hun.
      * intros Hor. destruct (decide (got1 = true ∧ got = false)) as [[-> ->] | Hg1].
        { exists 0%nat, f, f'. rewrite Nat.add_0_r. do 3 (split; [done |]). by eapply positive_set_list; [exact Hpos | right]. }
        destruct Hgot as (j & g & g' & H1 & H2 & H3); [destruct Hor as [? | [? ?]]; [by left | right; destruct got1; naive_solver] |].
        exists (S j), g, g'. by rewrite <- Nat.add_succ_comm.
    + do 4 eexists. split; [reflexivity |]. split; [constructor; [done | reflexivity] |]. split; [done |]. split; [by constructor |]. split.
      * intros [|j] g Hg; [injection Hg as <-; rewrite Nat.add_0_r; congruence | done].
      * intros _. exists 0%nat, f, f'. rewrite Nat.add_0_r. do 3 (split; [done |]). by eapply positive_set_list; [| left].
  - destruct (IH (S k) got s) as (fs' & got' & stop & s' & Hrun' & Hsame' & Hstep' & Hi' & Hun & Hgot); [done | done |].
    unfold rbind. rewrite Hrun'. do 4 eexists. split; [reflexivity |]. split; [by constructor |]. split; [done |]. split; [constructor; [by eapply inv_mono | done] |].
    split.
    + intros [|j] g Hg; [done |]. rewrite <- Nat.add_succ_comm. by apply Hun.
    + intros Hor. destruct (Hgot Hor) as (j & g & g' & H1 & H2 & H3). exists (S j), g, g'. by rewrite <- Nat.add_succ_comm.
Qed.

Lemma build_all_run prep fs s :
  prep_ok prep → builds_all fs → Forall (inv (iPartialCandidates s)) fs →
  ∃ fs' s', build_all build prep fs s [] = Some (inr fs', s', []) ∧
    Forall2 same fs fs' ∧ step_ok s s' ∧ Forall (inv (iPartialCandidates s')) fs' ∧
    (lists_items → (∀ n, iMaxIndexScan (prep n) = 0) → ∀ i, indexed i → Exists (normal_item i) fs → Exists has_list fs').
Proof.
  intros Hp. revert s. induction fs as [|f fs IH]; intros s Hb Hinv; cbn [build_all].
  { exists [], s. do 2 (split; [done |]). split; [by intros ? |]. split; [constructor |]. intros _ _ i _ Hx. by inversion Hx. }
  apply Forall_cons in Hinv as [Hf Hfs]. pose proof (builds_all_cons _ _ Hb) as [_ Hb'].
  destruct (builds_upd prep f fs s) as (f' & s1 & Hrun & Hsame & Hstep & Hi); [done | done | done |]. unfold rbind at 1. rewrite Hrun.
  destruct (IH s1) as (fs' & s' & Hrun' & Hsame' & Hstep' & Hi' & Hl); [done | by eapply inv_list_mono |].
  unfold rbind. rewrite Hrun'. do 2 eexists. split; [reflexivity |]. split; [by constructor |]. split; [by intros ?%Hstep%Hstep' |].
  split; [constructor; [by eapply inv_mono | done] |].
  intros Hlist H0 i Hidx Hx. apply Exists_cons in Hx as [Hx | Hx]; [left | right; by eapply Hl].
  apply (Hlist i (upd_node prep f) s f' s1 []); [done | apply (upd_node_inv _ prep f Hp Hf); done | by apply upd_node_inv | | done].
  by destruct f; cbn.
Qed.

Lemma build_at_run k fs s :
  builds_all fs → Forall (inv (iPartialCandidates s)) fs →
  ∃ fs' o s', build_at build k fs s [] = Some (inr (fs', o), s', []) ∧
    Forall2 same fs fs' ∧ step_ok s s' ∧ Forall (inv (iPartialCandidates s')) fs' ∧
    (∀ m, o = Some m → ∃ g, fs' !! k = Some g ∧ node_of g = m).
Proof.
  revert fs s. induction k as [|k IH]; intros fs s Hb Hinv; (destruct fs as [|f fs]; [exists [], None, s; split; [done |]; split; [constructor |]; split; [by intros ? |]; split; [constructor | done] |]); cbn [build_at];
    apply Forall_cons in Hinv as [Hf Hfs]; pose proof (builds_all_cons _ _ Hb) as [_ Hb'].
  - destruct (builds_upd (set_iMaxIndexScan 0) f fs s) as (f' & s1 & Hrun & Hsame & Hstep & Hi); [by intros n | done | done |]. unfold rbind. rewrite Hrun.
    do 3 eexists. split; [reflexivity |]. split; [by constructor; [| reflexivity] |]. split; [done |]. split; [constructor; [done | by eapply inv_list_mono] |].
    intros m [= <-]. by exists f'.
  - destruct (IH fs s) as (fs' & o & s' & Hrun' & Hsame' & Hstep' & Hi' & Ho); [done | done |].
    unfold rbind. rewrite Hrun'. do 3 eexists. split; [reflexivity |]. split; [by constructor |]. split; [done |]. split; [constructor; [by eapply inv_mono | done] | done].
Qed.

End Pass.

Lemma find_special_run p k o fs s :
  Forall (inv p) fs →
  ∃ o', find_special compare k o fs s [] = Some (inr o', s, []) ∧
    ∀ k', o' = Some k' → o = Some k' ∨ ∃ j g, k' = (k + j)%nat ∧ fs !! j = Some g ∧ is_composite g = false.
Proof.
  intros Hinv. revert k o. induction Hinv as [|f fs Hf _ IH]; intros k o; cbn [find_special]; [exists o; split; [done | by left] |].
  assert (∀ o1, (∀ k', o1 = Some k' → o = Some k' ∨ k' = k ∧ is_composite f = false) →
    ∃ o', find_special compare (S k) o1 fs s [] = Some (inr o', s, []) ∧
      ∀ k', o' = Some k' → o = Some k' ∨ ∃ j g, k' = (k + j)%nat ∧ (f :: fs) !! j = Some g ∧ is_composite g = false) as Hrec.
  { intros o1 Ho1. destruct (IH (S k) o1) as (o' & Hrun & Ho). exists o'. split; [done |]. intros k' Hk.
    destruct (Ho k' Hk) as [[Ha | [-> Hc]]%Ho1 | (j & g & -> & Hg & Hc)]; [by left | right; exists 0%nat, f; split; [lia | done] | right; exists (S j), g; split; [lia | done]]. }
  destruct f as [| | | n i]; [by apply Hrec; left.. |]. destruct i; try (by apply Hrec; left).
  - destruct Hf as (_ & _ & Hex). unfold rbind. destruct (unique_laws a s Hex) as [u ->]. destruct u; [| by apply Hrec; left]. eexists. split; [done |]. intros k' [= <-]. right. exists 0%nat. eexists. split; [lia | done].
  - apply Hrec. intros k'. destruct (_ =? 0); [intros [= <-]; by right | by left].
Qed.

(** A list among the components that a pass does not select stays. *)
Definition kept_list (sel : nat → VDIR_FILTER → bool) fs : Prop := ∃ j g, fs !! j = Some g ∧ sel j g = false ∧ has_list g.

Lemma kept_has sel fs : kept_list sel fs → Exists has_list fs.
Proof. intros (j & g & Hg & _ & Hl). apply Exists_exists. exists g. split; [by eapply list_elem_of_lookup_2 | done]. Qed.

(** The choice of the special component. *)
Lemma build_special build n o fs s :
  builds_all build fs → Forall (inv (iPartialCandidates s)) fs →
  (∀ k, o = Some k → ∃ g, fs !! k = Some g ∧ is_composite g = false) →
  ∃ fs1 got stop s1,
    match o with
    | None => rret (fs, bAncestorGotPositiveCandidateSet n, false)
    | Some k => r <- build_at build k fs ;;
        match r.2 with
        | Some m => match candidates m with
                    | Some c => rret (r.1, true, csize c <=? dwSmallCandidateSet rq)
                    | None => rret (r.1, bAncestorGotPositiveCandidateSet n, false)
                    end
        | None => rret (r.1, bAncestorGotPositiveCandidateSet n, false)
        end
    end s [] = Some (inr (fs1, got, stop), s1, []) ∧
    Forall2 same fs fs1 ∧ step_ok s s1 ∧ Forall (inv (iPartialCandidates s1)) fs1 ∧
    (stop = true ∨ got = true → bAncestorGotPositiveCandidateSet n = false →
       ∃ k g, o = Some k ∧ fs1 !! k = Some g ∧ is_composite g = false ∧ has_list g).
Proof.
  intros Hb Hinv Ho. destruct o as [k|].
  2: { exists fs, (bAncestorGotPositiveCandidateSet n), false, s. split; [done |]. split; [reflexivity |]. split; [by intros ? |]. split; [done |]. intros [? | ->]; congruence. }
  destruct (build_at_run build k fs s Hb Hinv) as (fs1 & o & s1 & Hrun & Hsame & Hstep & Hi & Hm). unfold rbind. rewrite Hrun. cbn [fst snd].
  destruct o as [m|]; [destruct (candidates m) eqn:Hc |]; do 4 eexists; (split; [reflexivity |]); (split; [done |]); (split; [done |]); (split; [done |]).
  - intros _ _. destruct (Hm m eq_refl) as (g & Hg & <-). exists k, g. split; [done |]. split; [done |].
    destruct (Ho k eq_refl) as (g0 & Hg0 & Hc0). destruct (Forall2_lookup_lr _ _ _ _ _ _ Hsame Hg0 Hg) as (_ & _ & -> & _). split; [done |]. unfold has_list. by rewrite Hc.
  - intros [? | ->]; congruence.
  - intros [? | ->]; congruence.
Qed.

(** The passes of an AND keep the invariant, and leave a list when one of the
    components must get one. *)
Lemma build_and_run build n fs s :
  builds_all build fs → Forall (inv (iPartialCandidates s)) fs →
  ∃ fs' s', build_and compare rq build n fs s [] = Some (inr fs', s', []) ∧
    Forall2 same fs fs' ∧ step_ok s s' ∧ Forall (inv (iPartialCandidates s')) fs' ∧
    (lists_items build → bAncestorGotPositiveCandidateSet n = false → ∀ i, indexed i → Exists (normal_item i) fs → Exists has_list fs').
Proof.
  intros Hb Hinv. unfold build_and. unfold rbind at 1, rset at 1. set (s0 := set_iMaxScan _ s).
  change (iPartialCandidates s) with (iPartialCandidates s0) in Hinv. assert (∀ s1, step_ok s0 s1 → step_ok s s1) as Hs0 by (by intros).
  clearbody s0. unfold rbind at 1. destruct (find_special_run _ 0 None fs s0 Hinv) as (o & -> & Ho).
  destruct (build_special build n o fs s0 Hb Hinv) as (fs1 & got & stop & s1 & Hrun1 & Hsame1 & Hstep1 & Hinv1 & Hl1).
  { intros k Hk. destruct (Ho k Hk) as [? | (j & g & -> & Hg)]; [done | by exists g]. }
  unfold rbind at 1. rewrite Hrun1. clear Hrun1 Ho. destruct stop.
  { do 2 eexists. split; [reflexivity |]. split; [done |]. split; [by apply Hs0 |]. split; [done |]. intros _ Hn i _ _.
    destruct (Hl1 (or_introl eq_refl) Hn) as (k & g & _ & Hg & _ & Hl). apply Exists_exists. exists g. split; [by eapply list_elem_of_lookup_2 | done]. }
  assert (∀ fs', Forall2 same fs fs' → builds_all build fs') as Hb'.
  { intros fs' Hs f Hf. apply Hb. by rewrite (same_heights _ _ Hs) in Hf. }
  set (sel1 := λ k g, negb (bool_decide (Some k = o)) && negb (is_composite g)). set (sel2 := λ (_ : nat) g, is_composite g).
  destruct (and_pass_run build 0 sel1 (λ _, set_iMaxIndexScan (dwMaxIndexScan rq)) got fs1 s1)
    as (fs2 & got2 & stop & s2 & Hrun2 & Hsame2 & Hstep2 & Hinv2 & Hkeep2 & Hgot2); [by intros b m | by apply Hb' | done |].
  assert (stop = true ∨ got2 = true → bAncestorGotPositiveCandidateSet n = false → kept_list sel2 fs2) as Hl2.
  { intros Hor Hn. destruct (decide (got = true)) as [-> | Hng].
    - destruct (Hl1 (or_intror eq_refl) Hn) as (k & g & -> & Hg & Hc & Hl). exists k, g. split; [| done]. apply Hkeep2; [done |].
      unfold sel1. by rewrite bool_decide_eq_true_2.
    - destruct Hgot2 as (j & g & g' & Hg & Hs & Hg' & Hl); [destruct got; naive_solver |]. exists j, g'. split; [done |]. split; [| done].
      unfold sel2. destruct (Forall2_lookup_lr _ _ _ _ _ _ Hsame2 Hg Hg') as (_ & _ & -> & _). unfold sel1 in Hs. destruct (is_composite g); [by rewrite andb_false_r in Hs | done]. }
  unfold rbind at 1. rewrite Hrun2. clear Hrun2 Hgot2 Hkeep2 Hl1. assert (Forall2 same fs fs2) as Hs2 by by transitivity fs1.
  destruct stop.
  { do 2 eexists. split; [reflexivity |]. split; [done |]. split; [apply Hs0; by intros ?%Hstep1%Hstep2 |]. split; [done |].
    intros _ Hn i _ _. eapply kept_has, Hl2; [by left | done]. }
  destruct (and_pass_run build 0 sel2 set_bAncestor got2 fs2 s2) as (fs3 & got3 & stop & s3 & Hrun3 & Hsame3 & Hstep3 & Hinv3 & Hkeep3 & Hgot3);
    [by intros b m | by apply Hb' | done |].
  unfold rbind at 1. rewrite Hrun3. clear Hrun3. assert (Forall2 same fs fs3) as Hs3 by by transitivity fs2.
  destruct (stop || got3) eqn:Hor3.
  { do 2 eexists. split; [reflexivity |]. split; [done |]. split; [apply Hs0; by intros ?%Hstep1%Hstep2%Hstep3 |]. split; [done |]. intros _ Hn i _ _.
    destruct (decide (got2 = true)) as [-> | Hng].
    - destruct (Hl2 (or_intror eq_refl) Hn) as (j & g & Hg & Hc & Hl). apply Exists_exists. exists g. split; [eapply list_elem_of_lookup_2, Hkeep3; done | done].
    - destruct Hgot3 as (j & g & g' & _ & _ & Hg' & Hl); [apply orb_true_iff in Hor3; destruct got2; naive_solver |].
      apply Exists_exists. exists g'. split; [by eapply list_elem_of_lookup_2 | done]. }
  destruct (build_all_run build (set_iMaxIndexScan 0) fs3 s3) as (fs4 & s4 & Hrun4 & Hsame4 & Hstep4 & Hinv4 & Hl4); [by intros m | by apply Hb' | done |].
  exists fs4, s4. split; [done |]. split; [by transitivity fs3 |]. split; [apply Hs0; by intros ?%Hstep1%Hstep2%Hstep3%Hstep4 |]. split; [done |].
  intros Hlist _ i Hi Hx. eapply Hl4; [done | done | done |]. clear -Hx Hs3. induction Hs3 as [|f g fs gs Hfg _ IH]; [done |].
  apply Exists_cons in Hx as [Hx | Hx]; [left; by apply Hfg | right; by apply IH].
Qed.

(** ** Combining the components *)

Lemma or_ok_node n : or_ok n → node_ok n.
Proof. unfold or_ok, node_ok. destruct (candidates n); [by intros [? _] | done]. Qed.

Lemma node_rest_good n n' : good n → node_rest n n' → good n' ∧ (candidates n = None → candidates n' = None).
Proof.
  unfold good, or_ok. intros [Hok Ht] [Hr H]. assert (candidates n = None → candidates n' = None) as Hnone.
  { intros Hn. destruct (candidates n') as [c'|]; [| done]. destruct (H c' eq_refl) as (c & Hc & _). congruence. }
  split; [| done]. split; [| rewrite Hr; auto]. destruct (candidates n') as [c'|]; [| done]. destruct (H c' eq_refl) as (c & Hc & _ & Hp & Hk).
  rewrite Hc in Hok. destruct Hok as [_ Hpos]. split; [done | congruence].
Qed.

(** A combination that keeps the sources and relates the node to them. *)
Definition combines (op : filter_node → filter_node → RM search_state (filter_node * filter_node)) (R : filter_node → filter_node → filter_node → Prop) : Prop :=
  ∀ src dst s, good src → good dst →
    ∃ src' dst', op src dst s [] = Some (inr (src', dst'), s, []) ∧ node_rest src src' ∧ good dst' ∧ R src dst dst'.

(** What all nodes have the combination has ([A]), and what one node has makes
    the combination have another property ([P], [Q]). *)
Lemma combine_run op R sel p n fs s :
  combines op R → good n → Forall (inv p) fs →
  ∃ fs' n', combine op sel n fs s [] = Some (inr (fs', n'), s, []) ∧ good n' ∧ Forall2 same fs fs' ∧ Forall (inv p) fs' ∧
    (∀ A : filter_node → Prop, (∀ src dst dst', R src dst dst' → A src → A dst → A dst') → (∀ m m', node_rest m m' → A m → A m') →
       Forall (λ g, A (node_of g)) fs → A n → A n' ∧ Forall (λ g, A (node_of g)) fs') ∧
    (∀ P Q : filter_node → Prop, (∀ src dst dst', R src dst dst' → P src ∨ Q dst → Q dst') →
       (Q n → Q n') ∧
       (Exists (λ g, sel (node_of g) = true ∧ P (node_of g)) fs → Q n') ∧
       (Exists (λ g, sel (node_of g) = false ∧ P (node_of g)) fs → Exists (λ g, sel (node_of g) = false ∧ P (node_of g)) fs')).
Proof.
  intros Hop. revert n. induction fs as [|f fs IH]; intros n Hn Hinv; cbn [combine].
  { exists [], n. split; [done |]. split; [done |]. split; [constructor |]. split; [constructor |]. split; [done |].
    intros P Q _. split; [done |]. split; intros Hx; by inversion Hx. }
  apply Forall_cons in Hinv as [Hf Hfs]. destruct (sel (node_of f)) eqn:Hsel.
  - destruct (Hop (node_of f) n s) as (src' & dst' & Hrun & Hrest & Hok & HR); [by eapply inv_good | done |].
    unfold rbind at 1. rewrite Hrun. cbn [fst snd]. destruct (IH dst' Hok Hfs) as (fs' & n' & Hrun' & Hok' & Hsame' & Hinv' & Hand & Hor).
    unfold rbind. rewrite Hrun'. do 2 eexists. split; [reflexivity |]. split; [done |].
    assert (node_of (set_node src' f) = src') as Hnode by by destruct f.
    destruct (node_rest_good _ _ (inv_good _ _ Hf) Hrest) as [Hg Hnone].
    split; [constructor; [apply same_set_node; destruct f; by destruct Hrest | done] |].
    split; [constructor; [apply set_node_inv; [done | by destruct Hrest | done | done | intros i; by apply node_rest_allows] | done] |].
    split.
    + intros A HA HAr Hall Hni. apply Forall_cons in Hall as [Hfi Hall].
      destruct (Hand A HA HAr Hall) as [H1 H2]; [by eapply HA |]. split; [done |]. constructor; [rewrite Hnode; by eapply HAr | done].
    + intros P Q HO. destruct (Hor P Q HO) as (H1 & H2 & H3). split; [intros Hi; apply H1; eapply HO; [apply HR | by right] |]. split.
      * intros Hx. apply Exists_cons in Hx as [[_ Hx] | Hx]; [apply H1; eapply HO; [apply HR | by left] | by apply H2].
      * intros Hx. apply Exists_cons in Hx as [[Hx _] | Hx]; [congruence |]. right. by apply H3.
  - destruct (IH n Hn Hfs) as (fs' & n' & Hrun' & Hok' & Hsame' & Hinv' & Hand & Hor).
    unfold rbind. rewrite Hrun'. do 2 eexists. split; [reflexivity |]. split; [done |]. split; [by constructor |]. split; [by constructor |]. split.
    + intros A HA HAr Hall Hni. apply Forall_cons in Hall as [Hfi Hall]. destruct (Hand A HA HAr Hall Hni) as [H1 H2]. split; [done | by constructor].
    + intros P Q HO. destruct (Hor P Q HO) as (H1 & H2 & H3). split; [done |]. split.
      * intros Hx. apply Exists_cons in Hx as [[Hx _] | Hx]; [congruence | by apply H2].
      * intros Hx. apply Exists_cons in Hx as [[Hx Hy] | Hx]; [by left | right; by apply H3].
Qed.

(** Both loops together. *)
Lemma combine_all_run op R p n fs s :
  combines op R → good n → Forall (inv p) fs →
  ∃ fs' n', combine_all op n fs s [] = Some (inr (fs', n'), s, []) ∧ good n' ∧ Forall2 same fs fs' ∧ Forall (inv p) fs' ∧
    (∀ A : filter_node → Prop, (∀ src dst dst', R src dst dst' → A src → A dst → A dst') → (∀ m m', node_rest m m' → A m → A m') →
       Forall (λ g, A (node_of g)) fs → A n → A n') ∧
    (∀ P Q : filter_node → Prop, (∀ src dst dst', R src dst dst' → P src ∨ Q dst → Q dst') → Exists (λ g, P (node_of g)) fs → Q n').
Proof.
  intros Hop Hn Hinv. unfold combine_all. destruct (combine_run _ _ no_negative p n fs s Hop Hn Hinv) as (fs1 & n1 & Hrun1 & Hok1 & Hsame1 & Hinv1 & Hand1 & Hor1).
  unfold rbind. rewrite Hrun1. cbn [fst snd].
  destruct (combine_run _ _ (λ n, negb (no_negative n)) p n1 fs1 s Hop Hok1 Hinv1) as (fs2 & n2 & Hrun2 & Hok2 & Hsame2 & Hinv2 & Hand2 & Hor2).
  exists fs2, n2. split; [done |]. split; [done |]. split; [by transitivity fs1 |]. split; [done |]. split.
  - intros A HA HAr Hall Hi. destruct (Hand1 A HA HAr Hall Hi) as [H1 H2]. by destruct (Hand2 A HA HAr H2 H1).
  - intros P Q HO Hex. destruct (Hor1 P Q HO) as (_ & Ha1 & Hb1). destruct (Hor2 P Q HO) as (Ha2 & Hb2 & _).
    apply Exists_exists in Hex as (g & Hg & Hi). destruct (no_negative (node_of g)) eqn:Hneg.
    + apply Ha2, Ha1. apply Exists_exists. by exists g.
    + apply Hb2. eapply Exists_impl; [apply Hb1; apply Exists_exists; by exists g |]. intros x [Hx ?]. by rewrite Hx.
Qed.


(** The first action of a successful run. *)
Lemma rbind_inr {St A B} (m : RM St A) (k : A → RM St B) (s : St) e b (s' : St) e' :
  rbind m k s e = Some (inr b, s', e') → ∃ a (s1 : St) e1, m s e = Some (inr a, s1, e1) ∧ k a s1 e1 = Some (inr b, s', e').
Proof. unfold rbind. destruct (m s e) as [[[[err|a] s1] e1]|]; [done | by eauto 10 | done]. Qed.

(** A node that ends the search with candidates, or without any entry. *)
Definition bounded n : Prop :=
  computeResult n ≠ FILTER_RES_TRUE ∧ (computeResult n = FILTER_RES_NORMAL → is_Some (candidates n)).

Lemma and_results_bounded src dst s e src' dst' s' e' :
  AndFilterResults src dst s e = Some (inr (src', dst'), s' : search_state, e') → good src → good dst →
  (computeResult dst' = FILTER_RES_TRUE → candidates dst' = None) ∧ (is_Some (candidates src) ∨ bounded dst → bounded dst').
Proof.
  intros Hrun [_ Hs] [_ Hd]. assert (∀ (c : VDIR_CANDIDATES), computeResult dst = FILTER_RES_NORMAL → dst' = set_candidates (Some c) dst →
    (computeResult dst' = FILTER_RES_TRUE → candidates dst' = None) ∧ (is_Some (candidates src) ∨ bounded dst → bounded dst')) as Hlist.
  { intros c Hn ->. cbn. rewrite Hn. split; [done |]. intros _. split; cbn; [by rewrite Hn | by eexists]. }
  unfold AndFilterResults in Hrun.
  destruct (computeResult src) eqn:Hrs, (computeResult dst) eqn:Hrd; try (specialize (Hs eq_refl)); try (specialize (Hd eq_refl)).
  1: destruct (candidates src) as [c|] eqn:Hcs, (candidates dst) as [d|] eqn:Hcd.
  1: { repeat (destruct (_ && _); [apply rbind_inr in Hrun as ([o r] & s1 & e1 & _ & Hrun); injection Hrun as _ <- _ _; by eapply Hlist |]). done. }
  all: repeat match type of Hrun with context [candidates ?n] => destruct (candidates n) eqn:? end;
    injection Hrun as <- <- <- <-; unfold bounded; cbn; rewrite ?Hrd; (split; [congruence |]); intros [Hx | [H1 H2]];
    try (rewrite ?Hs, ?Heqo in *; by inversion Hx); try (specialize (H2 eq_refl); rewrite ?Heqo in *; by inversion H2); split; try congruence; try done; by eauto.
Qed.

Definition and_rel src dst dst' : Prop :=
  (∀ i, node_allows dst' i ↔ node_allows src i ∧ node_allows dst i) ∧ (is_Some (candidates src) ∨ bounded dst → bounded dst').

(** The AND of the components allows what all of them allow. *)
Lemma and_combines : combines AndFilterResults and_rel.
Proof.
  intros src dst s Hs Hd. destruct (and_results_exact src dst s) as (src' & dst' & Hrun & Hrest & _ & Hok & Hall).
  - by apply or_ok_node, Hs.
  - by apply or_ok_node, Hd.
  - unfold and_order. destruct Hs as [Hs _], Hd as [Hd _]. unfold or_ok in Hs, Hd. destruct (candidates src) as [c|]; [| done]. destruct (candidates dst) as [d|]; [| done].
    destruct Hs as [_ Hs], Hd as [_ Hd]. rewrite Hs, Hd. done.
  - destruct (and_results_bounded _ _ _ _ _ _ _ _ Hrun Hs Hd) as [Ht Hb]. exists src', dst'. split; [done |]. split; [done |]. split; [split; [apply Hok; [by apply Hs | by apply Hd] | done] | done].
Qed.

Lemma or_results_true src dst s e src' dst' s' e' :
  OrFilterResults src dst s e = Some (inr (src', dst'), s' : search_state, e') → good dst →
  computeResult dst' = FILTER_RES_TRUE → candidates dst' = None.
Proof.
  intros Hrun [_ Hd].
  assert (∀ dst, or_candidates src dst s e = Some (inr (src', dst'), s', e') → computeResult dst = FILTER_RES_NORMAL →
    computeResult dst' = FILTER_RES_TRUE → candidates dst' = None) as Hc.
  { clear Hrun Hd dst. intros dst Hrun Hn. unfold or_candidates in Hrun. destruct (candidates src) as [c|]; [| by injection Hrun as <- <- <- <-].
    destruct (positive c); cbn [negb] in Hrun; [| by injection Hrun as <- <- <- <-]. destruct (candidates dst) as [d|]; [| injection Hrun as <- <- <- <-; cbn; congruence].
    destruct (positive d); [| done]. apply rbind_inr in Hrun as ([o r] & s1 & e1 & _ & Hrun). injection Hrun as _ <- _ _. cbn. congruence. }
  unfold OrFilterResults in Hrun.
  destruct (computeResult src), (computeResult dst) eqn:Hrd; try (by eapply Hc; [exact Hrun |]); injection Hrun as <- <- <- <-; cbn; try done; rewrite ?Hrd; done || by auto.
Qed.

Definition or_rel src dst dst' : Prop := ∀ i, node_allows src i ∨ or_allows dst i → or_allows dst' i.

Lemma or_combines : combines OrFilterResults or_rel.
Proof.
  intros src dst s Hs Hd. destruct (or_results_contain src dst s) as (src' & dst' & Hrun & Hrest & Hok & Hall); [by apply or_ok_node, Hs | by apply Hd |].
  pose proof (or_results_true _ _ _ _ _ _ _ _ Hrun Hd). by exists src', dst'.
Qed.

Lemma or_allows_node n i : or_allows n i → node_allows n i.
Proof. unfold or_allows, node_allows. by destruct (computeResult n), (candidates n). Qed.

(** Components that are sound make a sound AND or OR. *)
Lemma sound_and fs id e : Forall sound fs → entry_of id = inr e → start <= id → check e (FAnd (node_of (FAnd fresh_node fs)) fs) = Some FILTER_RES_TRUE →
  Forall (λ g, node_allows (node_of g) id) fs.
Proof.
  cbn [CheckIfEntryPassesFilter]. intros Hall He Hid Hc. apply check_and_true in Hc as [_ Hc]; [| apply Forall_fmap, Forall_true; intros g; apply check_normal].
  rewrite Forall_fmap, Forall_forall in Hc. rewrite Forall_forall in *. intros g Hg. by apply (Hall g Hg id e), Hc.
Qed.

Lemma sound_or fs id e : Forall sound fs → entry_of id = inr e → start <= id → check e (FOr (node_of (FOr fresh_node fs)) fs) = Some FILTER_RES_TRUE →
  Exists (λ g, node_allows (node_of g) id) fs.
Proof.
  cbn [CheckIfEntryPassesFilter]. intros Hall He Hid Hc. apply check_or_true in Hc; [| done].
  apply list_elem_of_fmap in Hc as (g & Hg & Hin). apply Exists_exists. exists g. split; [done |]. rewrite Forall_forall in Hall. by apply (Hall g Hin id e).
Qed.

Lemma inv_sound p fs : p = false → Forall (inv p) fs → Forall sound fs.
Proof. intros ->. rewrite !Forall_forall. intros H f Hf. specialize (H f Hf). destruct f; cbn in H; by apply H. Qed.

Lemma fs_inv p f fs : (f = FAnd (node_of f) fs ∨ f = FOr (node_of f) fs) → inv p f → Forall (inv p) fs.
Proof. intros [-> | ->]; cbn; rewrite inv_components; by intros (_ & _ & ?). Qed.

(** The composite nodes, when the components are built. *)
Lemma same_and n n' fs fs' : Forall2 same fs fs' → same (FAnd n fs) (FAnd n' fs').
Proof.
  intros Hs. split; [intros e; cbn; by rewrite (same_checks _ _ _ Hs) |]. split; [cbn; f_equal; by apply same_heights |]. split; [done |]. intros i [(m & ? & _) _]. done.
Qed.
Lemma same_or n n' fs fs' : Forall2 same fs fs' → same (FOr n fs) (FOr n' fs').
Proof.
  intros Hs. split; [intros e; cbn; by rewrite (same_checks _ _ _ Hs) |]. split; [cbn; f_equal; by apply same_heights |]. split; [done |]. intros i [(m & ? & _) _]. done.
Qed.

Lemma step_partial s s' : step_ok s s' → iPartialCandidates s' = false → iPartialCandidates s = false.
Proof. unfold step_ok. intros H Hp. destruct (iPartialCandidates s); [| done]. specialize (H eq_refl). congruence. Qed.

Lemma build_and_node fuel n fs s :
  computeResult n = FILTER_RES_NORMAL → builds_all (BuildCandidateList compare rq fuel start) fs → inv (iPartialCandidates s) (FAnd n fs) →
  ∃ fs' n' s', BuildCandidateList compare rq (S fuel) start (FAnd n fs) s [] = Some (inr (FAnd n' fs'), s', []) ∧
    same (FAnd n fs) (FAnd n' fs') ∧ step_ok s s' ∧ inv (iPartialCandidates s') (FAnd n' fs') ∧
    (lists_items (BuildCandidateList compare rq fuel start) → bAncestorGotPositiveCandidateSet n = false → ∀ i, indexed i → Exists (normal_item i) fs → bounded n').
Proof.
  intros Hr Hb Hinv. pose proof (fs_inv _ _ fs (or_introl eq_refl) Hinv) as Hfs. cbn in Hinv. destruct Hinv as (Hok & Hs & _).
  destruct (build_and_run _ n fs s Hb Hfs) as (fs1 & s1 & Hrun1 & Hsame1 & Hstep1 & Hinv1 & Hl1).
  destruct (combine_all_run _ _ _ n fs1 s1 and_combines Hok Hinv1) as (fs2 & n2 & Hrun2 & Hok2 & Hsame2 & Hinv2 & Hall2 & Hex2).
  exists fs2, n2, s1. assert (Forall2 same fs fs2) as Hs2 by by transitivity fs1. split; [| split; [by apply same_and | split; [done | split]]].
  - cbn [BuildCandidateList node_of]. rewrite bool_decide_eq_true_2 by done. cbn [negb]. unfold rbind at 1. rewrite Hrun1. unfold rbind. by rewrite Hrun2.
  - cbn. rewrite inv_components. split; [done |]. split; [| done]. intros Hp id e He Hid Hc. cbn [node_of].
    apply (Hall2 (λ m, node_allows m id)).
    + intros src dst dst' [HR _] H1 H2. by apply HR.
    + intros m m'. apply node_rest_allows.
    + apply (sound_and fs1 id e); [by eapply inv_sound | done | done |]. cbn in Hc |- *. by rewrite <- (same_checks e _ _ Hsame2).
    + apply (Hs (step_partial _ _ Hstep1 Hp) id e He Hid). cbn in Hc |- *. by rewrite <- (same_checks e _ _ Hs2).
  - intros Hlist Hn i Hi Hx. apply (Hex2 (λ m, is_Some (candidates m)) bounded); [intros src dst dst' [_ HR]; exact HR |].
    exact (Hl1 Hlist Hn i Hi Hx).
Qed.

Lemma build_or_node fuel n fs s :
  computeResult n = FILTER_RES_NORMAL → builds_all (BuildCandidateList compare rq fuel start) fs → inv (iPartialCandidates s) (FOr n fs) →
  ∃ fs' n' s', BuildCandidateList compare rq (S fuel) start (FOr n fs) s [] = Some (inr (FOr n' fs'), s', []) ∧
    same (FOr n fs) (FOr n' fs') ∧ step_ok s s' ∧ inv (iPartialCandidates s') (FOr n' fs').
Proof.
  intros Hr Hb Hinv. pose proof (fs_inv _ _ fs (or_intror eq_refl) Hinv) as Hfs. cbn in Hinv. destruct Hinv as (Hok & Hs & _).
  destruct (build_all_run _ (set_bAncestor (bAncestorGotPositiveCandidateSet n)) fs s ltac:(by intros m) Hb Hfs) as (fs1 & s1 & Hrun1 & Hsame1 & Hstep1 & Hinv1 & _).
  destruct (combine_all_run _ _ _ n fs1 s1 or_combines Hok Hinv1) as (fs2 & n2 & Hrun2 & Hok2 & Hsame2 & Hinv2 & _ & Hex2).
  exists fs2, n2, s1. assert (Forall2 same fs fs2) as Hs2 by by transitivity fs1. split; [| split; [by apply same_or | split; [done |]]].
  - cbn [BuildCandidateList node_of]. rewrite bool_decide_eq_true_2 by done. cbn [negb]. unfold rbind at 1. rewrite Hrun1. unfold rbind. by rewrite Hrun2.
  - cbn. rewrite inv_components. split; [done |]. split; [| done]. intros Hp id e He Hid Hc. cbn [node_of]. apply or_allows_node.
    apply (Hex2 (λ m, node_allows m id) (λ m, or_allows m id)); [intros src dst dst' HR; apply HR |].
    apply (sound_or fs1 id e); [by eapply inv_sound | done | done |]. cbn in Hc |- *. by rewrite <- (same_checks e _ _ Hsame2).
Qed.

(** The items of the backend. *)
Lemma build_item fuel n i s :
  computeResult n = FILTER_RES_NORMAL → inv (iPartialCandidates s) (FItem n i) → i ≠ FUnsupported → (∀ t, i ≠ FPresent t) →
  ∃ n' s', BuildCandidateList compare rq (S fuel) start (FItem n i) s [] = Some (inr (FItem n' i), s', []) ∧
    computeResult n' = FILTER_RES_NORMAL ∧ good n' ∧ step_ok s s' ∧ (iPartialCandidates s' = false → sound (FItem n' i)) ∧
    (indexed i → iMaxIndexScan n = 0 → is_Some (candidates n')).
Proof.
  intros Hr ([Hok _] & Hbefore & Hex) Hu Hp. destruct (candidates_laws i n start s Hex Hu Hp Hr Hok Hbefore) as (b & n' & s' & Hrun & Hr' & Hok' & Hstep & Hall & Hidx).
  exists n', s'. split.
  - cbn [BuildCandidateList node_of]. rewrite bool_decide_eq_true_2 by done. cbn [negb].
    destruct i as [| | | |t| |]; try (by destruct (Hp t)); try done; unfold rbind; rewrite Hrun; cbn [fst snd];
      (destruct b; [destruct (candidates n'); reflexivity | reflexivity]).
  - split; [done |]. split; [split; [done | congruence] |]. split; [done |]. split; [| done].
    intros Hp' id e He Hid Hc. cbn in Hc |- *. apply (Hall Hp' id e He Hid). rewrite <- Hc. apply test_item_ext. congruence.
Qed.

Lemma build_lists_items fuel : lists_items (BuildCandidateList compare rq fuel start).
Proof.
  intros i f s f' s' e' Hi [(n & -> & Hr) [Hu Hp]] Hok H0 Hrun. destruct fuel as [|fuel]; [done |].
  destruct (build_item fuel n i s Hr Hok Hu Hp) as (n' & s1 & Hrun' & _ & _ & _ & _ & Hl). rewrite Hrun' in Hrun. injection Hrun as <- _ _.
  by apply Hl.
Qed.

(** The whole of [BuildCandidateList]. *)
Lemma build_list_run fuel f : (height f <= fuel)%nat → builds (BuildCandidateList compare rq fuel start) f.
Proof.
  revert f. induction fuel as [|fuel IH]; intros f Hh s Hinv; [destruct f; cbn in Hh; lia |].
  destruct (decide (computeResult (node_of f) = FILTER_RES_NORMAL)) as [Hr | Hr].
  2: { cbn [BuildCandidateList]. rewrite bool_decide_eq_false_2 by done. cbn [negb]. exists f, s. split; [done |]. split; [reflexivity |]. split; [by intros ? | done]. }
  assert (∀ fs, (heights fs < S fuel)%nat → builds_all (BuildCandidateList compare rq fuel start) fs) as Hb.
  { intros fs Hfs g Hg. apply IH. lia. }
  destruct f as [n fs | n fs | n g | n i].
  - assert (heights fs < S fuel)%nat as Hhf by (cbn in Hh; unfold heights; lia). destruct (build_and_node fuel n fs s Hr (Hb fs Hhf) Hinv) as (fs' & n' & s' & H). naive_solver.
  - assert (heights fs < S fuel)%nat as Hhf by (cbn in Hh; unfold heights; lia). destruct (build_or_node fuel n fs s Hr (Hb fs Hhf) Hinv) as (fs' & n' & s' & H). naive_solver.
  - cbn in Hinv, Hr. destruct Hinv as ([Hok Ht] & Hs & Hn & Hg). cbn [BuildCandidateList node_of]. rewrite bool_decide_eq_true_2 by done.
    exists (FNot (set_computeResult FILTER_RES_TRUE n) g), s. split; [done |].
    split; [split; [done |]; do 2 (split; [done |]); intros j [(m & ? & _) _]; done |]. split; [by intros ? |]. cbn. split; [by split |]. split; [| done]. by intros _ id e _ _ _.
  - pose proof Hinv as (Hok & Hs & Hex). cbn in Hr. assert (i = FUnsupported ∨ i ≠ FUnsupported) as [-> | Hu] by (destruct i; auto).
    { cbn [BuildCandidateList node_of]. rewrite bool_decide_eq_true_2 by done. exists (FItem n FUnsupported), s.
      split; [done |]. split; [reflexivity |]. split; [by intros ? | done]. }
    assert ((∃ t, i = FPresent t) ∨ ¬ ∃ t, i = FPresent t) as [[t ->] | Hp] by (destruct i; eauto; right; by intros [t ?]).
    { cbn [BuildCandidateList node_of]. rewrite bool_decide_eq_true_2 by done. eexists _, s. split; [reflexivity |].
      split; [split; [intros e; cbn; unfold TestPresentFilter; cbn; by rewrite Hr |]; do 2 (split; [done |]); intros j [(m & [= _ <-] & _) [_ Hp]]; by destruct (Hp t) |].
      split; [by intros ? |]. cbn. split; [by split |]. split; [by intros _ id e _ _ _ | done]. }
    destruct (build_item fuel n i s Hr Hinv Hu) as (n' & s' & Hrun & Hr' & Hg & Hstep & Hsound & _); [by intros t ->; apply Hp; exists t |].
    exists (FItem n' i), s'. split; [done |]. split; [| split; [done |]; cbn; auto].
    apply (same_set_node n' (FItem n i)). congruence.
Qed.

(** ** Sending *)

Section Send.
Context (readable : entry → bool) (bInternal : bool).

(** The entry can be read, passes the filter and may be sent. *)
Definition passes f (i : Z) : Prop := ∃ e, entry_of i = inr e ∧ check e f = Some FILTER_RES_TRUE ∧ readable e = true.

(** No assertion fails when the entries are tested. *)
Definition testable f : Prop := ∀ i e, entry_of i = inr e → is_Some (check e f).

Definition below_limit s : Prop := sizeLimit rq = 0 ∨ Z.of_nat (length (sentEntries s)) < sizeLimit rq.

(** What the loop over [ids] does from [s] to [s']. *)
Definition processed f (ids : list Z) s (r : dwerror + option dwerror) s' : Prop :=
  iPartialCandidates s' = iPartialCandidates s ∧
  (∃ l, sentEntries s' = sentEntries s ++ l ∧ l `sublist_of` ids ∧ Forall (passes f) l ∧
     (r ≠ inl VMDIR_ERROR_INTERNAL_SEARCH_LIMIT → below_limit s' → ∀ i, i ∈ ids → passes f i → i ∈ l)) ∧
  (0 < sizeLimit rq → Z.of_nat (length (sentEntries s)) <= sizeLimit rq → Z.of_nat (length (sentEntries s')) <= sizeLimit rq).

Lemma processed_end f ids ret s : ¬ below_limit s ∨ ids = [] → processed f ids s (inr ret) s.
Proof.
  intros Hend. split; [done |]. split; [| done]. exists []. rewrite app_nil_r. split; [done |]. split; [apply sublist_nil_l |]. split; [constructor |].
  intros _ Hb i Hi. destruct Hend as [? | ->]; [done | by apply elem_of_nil in Hi].
Qed.

Lemma processed_skip f i ids s r s' : ¬ passes f i → processed f ids s r s' → processed f (i :: ids) s r s'.
Proof.
  intros Hno (Hp & (l & Hl & Hsub & Hall & Hc) & Hlim). split; [done |]. split; [| done]. exists l. split; [done |]. split; [by constructor |]. split; [done |].
  intros Hr Hb j Hj Hpass. apply elem_of_cons in Hj as [-> | Hj]; [done |]. by apply Hc.
Qed.

Lemma processed_send f i ids s r s' :
  passes f i → below_limit s → processed f ids (set_sent (sentEntries s ++ [i]) s) r s' → processed f (i :: ids) s r s'.
Proof.
  intros Hi Hb (Hp & (l & Hl & Hsub & Hall & Hc) & Hlim). split; [done |]. split.
  - exists (i :: l). cbn in Hl. rewrite Hl, <- app_assoc. split; [done |]. split; [by constructor |]. split; [by constructor |].
    intros Hr Hbl j Hj Hpass. apply elem_of_cons in Hj as [-> | Hj]; [left | right; by apply Hc].
  - intros H0 Hle. apply Hlim; [done |]. destruct Hb as [? | Hb]; [lia |]. cbn. rewrite length_app. cbn. lia.
Qed.

Lemma process_list_run f ids ret s :
  testable f →
  ∃ r s', process_loop compare rq entry_of readable bInternal f ids ret s [] = Some (r, s', []) ∧ processed f ids s r s' ∧
    match r with
    | inl err => err = VMDIR_ERROR_INTERNAL_SEARCH_LIMIT ∧ bInternal = true
    | inr None => True
    | inr (Some err) => ret = Some err ∨ ∃ i, i ∈ ids ∧ entry_of i = inl err
    end.
Proof.
  intros Ht. revert ret s. induction ids as [|i ids IH]; intros ret s; cbn [process_loop].
  { exists (inr ret), s. split; [done |]. split; [apply processed_end; by right |]. destruct ret; [by left | done]. }
  unfold rbind at 1, rget. destruct (negb (sizeLimit rq =? 0) && _) eqn:Hlim.
  { exists (inr ret), s. split; [done |]. split; [| by destruct ret; [left |]]. apply processed_end. left. unfold below_limit. lia. }
  assert (below_limit s) as Hb by (unfold below_limit; lia).
  assert (∀ ret', (∀ err, ret' = Some err → entry_of i = inl err) → ∀ s0, (∀ r s', processed f ids s0 r s' → processed f (i :: ids) s r s') →
    ∃ r s', process_loop compare rq entry_of readable bInternal f ids ret' s0 [] = Some (r, s', []) ∧ processed f (i :: ids) s r s' ∧
    match r with
    | inl err => err = VMDIR_ERROR_INTERNAL_SEARCH_LIMIT ∧ bInternal = true
    | inr None => True
    | inr (Some err) => ret = Some err ∨ ∃ j, j ∈ i :: ids ∧ entry_of j = inl err
    end) as Hrec.
  { intros ret' Hret s0 Hproc. destruct (IH ret' s0) as (r & s' & Hrun & Hp & Hr). exists r, s'. split; [done |]. split; [by apply Hproc |].
    destruct r as [err | [err |]]; [done | | done]. right. destruct Hr as [Hr | (j & Hj & He)]; [exists i; split; [by left | by apply Hret] | exists j; split; [by right | done]]. }
  destruct (entry_of i) as [err | e] eqn:He.
  { apply Hrec; [by intros ? [= ->] |]. intros r s' Hp. apply processed_skip; [| done]. intros (e & He' & _). congruence. }
  destruct (Ht i e He) as [c Hc]. unfold rbind at 1, rlift. rewrite Hc. destruct (decide (c = FILTER_RES_TRUE)) as [-> | Hne].
  2: { rewrite bool_decide_eq_false_2 by done. apply Hrec; [done |]. intros r s' Hp. apply processed_skip; [| done]. intros (e' & He' & Hc' & _). congruence. }
  rewrite bool_decide_eq_true_2 by done. rewrite !run_backend. destruct (readable e) eqn:Hread.
  2: { apply Hrec; [done |]. intros r s' Hp. apply processed_skip; [| done]. intros (e' & He' & _ & Hr'). congruence. }
  assert (passes f i) as Hpass by by exists e. unfold rbind at 1, rset. destruct (bInternal && _) eqn:Hint.
  - do 2 eexists. split; [reflexivity |]. split; [| by apply andb_true_iff in Hint as [-> _]]. apply processed_send; [done | done |].
    split; [done |]. split; [| done]. exists []. rewrite app_nil_r. do 3 (split; [done || apply sublist_nil_l || constructor |]). done.
  - apply Hrec; [done |]. intros r s'. by apply processed_send.
Qed.

Definition node_ids n : list Z := match candidates n with Some c => eIds c | None => [] end.

(** The whole of [VmDirProcessCandidateList]. *)
Lemma process_candidates_run f s :
  testable f →
  ∃ r s', VmDirProcessCandidateList compare rq entry_of readable bInternal f s [] = Some (r, s', []) ∧
    iPartialCandidates s' = iPartialCandidates s ∧ Forall (passes f) (sentEntries s') ∧
    (0 < sizeLimit rq → Z.of_nat (length (sentEntries s')) <= sizeLimit rq) ∧
    (r ≠ inl VMDIR_ERROR_INTERNAL_SEARCH_LIMIT → below_limit s' → ∀ i, i ∈ node_ids (node_of f) → passes f i → i ∈ sentEntries s') ∧
    (∀ err, r = inl err →
       (err = VMDIR_ERROR_INTERNAL_SEARCH_LIMIT ∧ bInternal = true) ∨ (err = LDAP_UNWILLING_TO_PERFORM ∧ iPartialCandidates s' = true) ∨
       ∃ id, entry_of id = inl err).
Proof.
  intros Ht. unfold VmDirProcessCandidateList. unfold rbind at 1, rset.
  destruct (process_list_run f (node_ids (node_of f)) None (set_sent [] s) Ht) as (r & s' & Hrun & (Hp & (l & Hl & _ & Hall & Hc) & Hlim) & Herr).
  assert ((match candidates (node_of f) with
           | Some c => if csize c >? 0 then (if bInternal then VmDirAllocateMemory (csize c) ;;; rret tt else rret tt) ;;;
                         process_loop compare rq entry_of readable bInternal f (eIds c) None else rret None
           | None => rret None
           end) (set_sent [] s) [] = Some (r, s', [])) as Hmatch.
  { rewrite <- Hrun. unfold node_ids. destruct (candidates (node_of f)) as [c|]; [| done]. destruct (csize c >? 0) eqn:Hsz.
    - destruct bInternal; [| reflexivity]. unfold VmDirAllocateMemory, rbind. by rewrite (proj2 (Z.eqb_neq _ _)) by lia.
    - unfold csize in Hsz. destruct (eIds c); done. }
  unfold rbind at 1. rewrite Hmatch. cbn in Hl. subst l. specialize (Hlim). cbn in Hlim.
  destruct r as [err | ret].
  { exists (inl err), s'. split; [done |]. split; [done |]. split; [done |]. split; [intros; apply Hlim; lia |]. split; [intros Hr; apply Hc; congruence |]. intros ? [= ->]. by left. }
  unfold rbind, rget. destruct (negb (sizeLimit rq =? 0) && _ && iPartialCandidates s') eqn:Hpart.
  { eexists _, s'. split; [reflexivity |]. do 2 (split; [done |]). split; [intros; apply Hlim; lia |]. split; [intros Hr; by apply Hc |].
    intros ? [= <-]. right. left. by apply andb_true_iff in Hpart as [_ ->]. }
  destruct ret as [err|]; eexists _, s'; (split; [reflexivity |]); do 2 (split; [done |]); (split; [intros; apply Hlim; lia |]); (split; [intros Hr; by apply Hc |]); [| done].
  intros ? [= <-]. right. right. destruct Herr as [? | (i & _ & Hi)]; [done | by exists i].
Qed.

End Send.

(** A filter as the parser leaves it: no candidates, and only items may have a
    known result. *)
Fixpoint initial f : Prop :=
  candidates (node_of f) = None ∧
  match f with
  | FAnd n fs | FOr n fs => computeResult n = FILTER_RES_NORMAL ∧ fold_right (λ g P, initial g ∧ P) True fs
  | FNot n g => computeResult n = FILTER_RES_NORMAL ∧ initial g
  | FItem n i => exact i
  end.

Lemma initial_components fs : fold_right (λ g P, initial g ∧ P) True fs ↔ Forall initial fs.
Proof. induction fs as [|f fs IH]; cbn; [done |]. rewrite IH, Forall_cons. done. Qed.

Lemma bare_good n : candidates n = None → good n.
Proof. intros H. unfold good, or_ok. by rewrite H. Qed.

Lemma initial_inv p f : initial f → inv p f.
Proof.
  induction f as [n fs IH | n fs IH | n f IH | n i] using filter_ind'; cbn; rewrite ?inv_components, ?initial_components; intros (Hc & Hrest);
    (split; [by apply bare_good |]).
  - destruct Hrest as [Hr Hfs]. split; [intros _ id e _ _ _; cbn; unfold node_allows; by rewrite Hr, Hc |]. rewrite Forall_forall in *. eauto.
  - destruct Hrest as [Hr Hfs]. split; [intros _ id e _ _ _; cbn; unfold node_allows; by rewrite Hr, Hc |]. rewrite Forall_forall in *. eauto.
  - destruct Hrest as [Hr Hf]. split; [intros _ id e _ _ _; cbn; unfold node_allows; by rewrite Hr, Hc |]. eauto.
  - split; [| done]. intros _ id e _ _ Ht. cbn in Ht |- *. unfold node_allows. rewrite Hc.
    destruct (computeResult n) eqn:Hr; [done | done | |]; exfalso; revert Ht;
      destruct i; cbn; unfold TestAvaFilter, TestSubstringsFilter, TestPresentFilter, TestOneLevelFilter; by rewrite ?Hr.
Qed.

(** The scope limits the search: the top node ends with candidates or without
    any entry. *)
Lemma scoped_build fuel (front : bool) f i s :
  (height f < fuel)%nat → initial f → exact i → indexed i → i ≠ FUnsupported → (∀ t, i ≠ FPresent t) →
  let x := FItem fresh_node i in
  let g := FAnd fresh_node (if front then [x; f] else [f; x]) in
  ∃ fs n s', BuildCandidateList compare rq fuel start g s [] = Some (inr (FAnd n fs), s', []) ∧
    (∀ e, check e (FAnd n fs) = check e g) ∧ bounded n ∧ good n ∧ (iPartialCandidates s' = false → sound (FAnd n fs)).
Proof.
  intros Hh Hf Hex Hidx Hu Hp x g. destruct fuel as [|fuel]; [lia |].
  assert (initial x) as Hx by done.
  set (fs := if front then [x; f] else [f; x]). assert (Forall initial fs) as Hfs by (destruct front; by repeat constructor).
  assert (heights fs <= fuel)%nat as Hhf by (destruct front; cbn; destruct f; cbn in *; lia).
  destruct (build_and_node fuel fresh_node fs s eq_refl) as (fs' & n' & s' & Hrun & [Hsame _] & _ & Hinv & Hbound).
  - intros h Hhh. apply build_list_run. lia.
  - apply initial_inv. cbn. rewrite initial_components. done.
  - exists fs', n', s'. split; [done |]. split; [done |]. cbn in Hinv. destruct Hinv as (Hgood & Hsound & _).
    split; [| done]. apply (Hbound (build_lists_items fuel) eq_refl i Hidx). apply Exists_exists. exists x.
    split; [destruct front; set_solver |]. split; [by exists fresh_node | done].
Qed.

End Complete.

(** The item that [AppendDNFilter] adds; the whole tree has none. *)
Definition scope_item (scope : search_scope) (dnDesc : at_desc) (normDn : berval) : filter_item :=
  match scope with
  | LDAP_SCOPE_BASE => FEquality (AVA (Some dnDesc) ATTR_DN normDn)
  | LDAP_SCOPE_ONELEVEL => FOneLevel normDn
  | LDAP_SCOPE_SUBTREE => FSubstrings (SUBSTR (Some dnDesc) ATTR_DN (BER [] None) [] normDn)
  end.

Definition whole_tree (scope : search_scope) (normDn : berval) : Prop :=
  scope = LDAP_SCOPE_SUBTREE ∧ default [] (bvnorm_val normDn) = [].

Lemma append_scope scope dnDesc normDn f :
  ¬ whole_tree scope normDn →
  AppendDNFilter scope dnDesc normDn f =
    FAnd fresh_node (if (match scope with LDAP_SCOPE_BASE => true | _ => false end)
                     then [FItem fresh_node (scope_item scope dnDesc normDn); f] else [f; FItem fresh_node (scope_item scope dnDesc normDn)]).
Proof. intros Hw. destruct scope; [done | done |]. cbn. rewrite bool_decide_eq_false_2; [done |]. intros H. by apply Hw. Qed.

Section Search.
Context (compare : cstr → cstr → bool → Z) (entry_of : Z → dwerror + entry) (exact indexed : filter_item → Prop).
Context {source : CandidateSource} {laws : CandidateLaws compare entry_of exact indexed}.
Context (rq : search_request) (readable : entry → bool) (bInternal : bool).

(** A search within a scope is right: whatever the filter, the indices and
    the limits of the scans, against a backend that keeps its promise every
    entry that is sent can be read by the client and passes the filter and the
    scope, never more than the size limit are sent, and unless a limit ended the
    search (the size limit, the limit of internal searches, or partial
    candidates) all such entries are sent.  A full scan is never asked for, and
    the only errors are the two limits and an entry that could not be read. *)
Lemma scoped_search fuel scope dnDesc normDn f s :
  (height f < fuel)%nat → initial exact f → ¬ whole_tree scope normDn →
  exact (scope_item scope dnDesc normDn) → indexed (scope_item scope dnDesc normDn) →
  (∀ id e, entry_of id = inr e → 0 <= id) →
  testable compare entry_of (AppendDNFilter scope dnDesc normDn f) →
  let g := AppendDNFilter scope dnDesc normDn f in
  ∃ r s', _VmDirInternalNormalSearch compare rq entry_of readable fuel bInternal g s [] = Some (r, s', []) ∧
    Forall (passes compare entry_of readable g) (sentEntries s') ∧
    (0 < sizeLimit rq → Z.of_nat (length (sentEntries s')) <= sizeLimit rq) ∧
    (r ≠ inl VMDIR_ERROR_INTERNAL_SEARCH_LIMIT → iPartialCandidates s' = false → below_limit rq s' →
       ∀ id, passes compare entry_of readable g id → id ∈ sentEntries s') ∧
    (∀ err, r = inl err →
       (err = VMDIR_ERROR_INTERNAL_SEARCH_LIMIT ∧ bInternal = true) ∨ (err = LDAP_UNWILLING_TO_PERFORM ∧ iPartialCandidates s' = true) ∨
       ∃ id, entry_of id = inl err).
Proof.
  intros Hh Hf Hw Hex Hidx Hids Ht g. pose proof (append_scope scope dnDesc normDn f Hw) as Hg. fold g in Hg, Ht.
  destruct (scoped_build compare entry_of exact indexed rq 0 fuel (match scope with LDAP_SCOPE_BASE => true | _ => false end) f
              (scope_item scope dnDesc normDn) s) as (fs & n & s1 & Hrun & Hsame & [Hb1 Hb2] & [Hok _] & Hsound);
    [done | done | done | done | by destruct scope | by destruct scope |].
  rewrite <- Hg in Hrun, Hsame. unfold _VmDirInternalNormalSearch, rbind at 1. rewrite Hrun. cbn [node_of].
  rewrite bool_decide_eq_false_2 by done.
  assert (∀ i, passes compare entry_of readable (FAnd n fs) i ↔ passes compare entry_of readable g i) as Hpass.
  { intros i. unfold passes. by setoid_rewrite Hsame. }
  destruct (process_candidates_run compare entry_of rq readable bInternal (FAnd n fs) s1) as (r & s' & Hrun' & Hp & Hall & Hlim & Hc & Herr).
  { intros i e He. rewrite Hsame. by apply (Ht i e). }
  exists r, s'. split; [done |]. split; [eapply Forall_impl; [exact Hall |]; intros i; apply Hpass |]. split; [done |]. split; [| done].
  intros Hr Hpart Hbelow id Hid. apply Hc; [done | done | | by apply Hpass]. destruct Hid as (e & He & Hchk & _).
  assert (node_allows n id) as Hn by (rewrite Hp in Hpart; apply (Hsound Hpart id e He (Hids _ _ He)); by rewrite Hsame).
  unfold node_ids. cbn [node_of]. revert Hn. unfold node_allows. destruct (computeResult n) eqn:Hrn; [| done | done | done].
  destruct (Hb2 eq_refl) as [c Hcand]. unfold or_ok in Hok. rewrite Hcand in *. by destruct Hok as [_ ->].
Qed.

End Search.

(** ** A directory with complete candidates *)

(** Entries by id, and a backend that looks at all of them. *)
Definition table_entry (dir : list entry) (id : Z) : dwerror + entry :=
  match list_find (λ e, e_id e = id) dir with Some (_, e) => inr e | None => inl VMDIR_ERROR_BACKEND_ENTRY_NOTFOUND end.

Lemma table_elem dir id e : table_entry dir id = inr e → e ∈ dir ∧ e_id e = id.
Proof.
  unfold table_entry. destruct (list_find _ dir) as [[k e']|] eqn:Hf; [| done]. intros [= ->].
  apply list_find_Some in Hf as (Hk & Hid & _). split; [by eapply list_elem_of_lookup_2 | done].
Qed.

Definition table_ids (compare : cstr → cstr → bool → Z) (dir : list entry) (n : filter_node) (i : filter_item) (start : Z) : list Z :=
  e_id <$> filter (λ e, start <= e_id e ∧ test_item compare n i e = Some FILTER_RES_TRUE) dir.

#[local] Instance table_source (compare : cstr → cstr → bool → Z) (dir : list entry) : CandidateSource := {
  pfnBEGetCandidates i n start :=
    let ids := table_ids compare dir n i start in
    rret (true, set_candidates (Some (CANDS ids (Z.of_nat (length ids)) true false)) n);
  has_unique_index _ := rret false
}.

#[local] Instance table_laws compare dir : CandidateLaws compare (table_entry dir) (λ _, True) (λ _, True) (source := table_source compare dir).
Proof.
  constructor; [by intros a s _; exists false |]. intros i n start s _ _ _ Hr Hok _. cbn. unfold rret. do 3 eexists. split; [reflexivity |]. cbn. split; [done |]. split; [by split |]. split; [done |]. split; [| by intros; eexists].
  intros _ id e He Hs Ht. unfold node_allows. cbn. rewrite Hr. apply table_elem in He as [He <-].
  unfold table_ids. apply list_elem_of_fmap. exists e. split; [done |]. by apply list_elem_of_filter.
Qed.

Definition dn_entry (id : Z) (cn : list (list Z)) (dn : list Z) : entry := ENTRY id [(type_cn, plain <$> cn)] (Some dn) (Some []).
Definition dir_ex : list entry := [dn_entry 1 [[1; 2]] [1; 44; 9]; dn_entry 2 [[3]] [2; 44; 9]; dn_entry 3 [[1; 2]] [7]].
Definition request_ex : search_request := REQUEST 0 false 100 10 0 100.

(** [(cn=12)] below [9]: of the two entries with the value one is in scope. *)
Lemma scoped_search_ex :
  ∃ r s', _VmDirInternalNormalSearch simple_compare request_ex (table_entry dir_ex) (λ _, true) (source := table_source simple_compare dir_ex) 5 false
            (AppendDNFilter LDAP_SCOPE_SUBTREE plain_desc (BER [44; 9] (Some [44; 9])) (equality_ex [1; 2])) (SEARCH 0 false []) [] = Some (r, s', []) ∧
    Forall (passes simple_compare (table_entry dir_ex) (λ _, true)
              (AppendDNFilter LDAP_SCOPE_SUBTREE plain_desc (BER [44; 9] (Some [44; 9])) (equality_ex [1; 2]))) (sentEntries s').
Proof.
  edestruct (scoped_search simple_compare (table_entry dir_ex) (λ _, True) (λ _, True) (source := table_source simple_compare dir_ex)
    (laws := table_laws simple_compare dir_ex) request_ex (λ _, true) false 5 LDAP_SCOPE_SUBTREE plain_desc
    (BER [44; 9] (Some [44; 9])) (equality_ex [1; 2]) (SEARCH 0 false [])) as (r & s' & Hrun & Hall & _).
  - cbn. lia.
  - cbn. done.
  - by intros [_ ?].
  - done.
  - done.
  - intros id e [He <-]%table_elem. revert e He. apply Forall_forall. by repeat constructor.
  - intros id e [He _]%table_elem. revert e He. apply Forall_forall. repeat constructor; by eexists.
  - exists r, s'. split; [exact Hrun | exact Hall].
Defined.

Definition sent_by (x : option ((dwerror + unit) * search_state * env)) : option (list Z) :=
  match x with Some (_, s, _) => Some (sentEntries s) | None => None end.

Example search_ex_sends :
  sent_by (_VmDirInternalNormalSearch simple_compare request_ex (table_entry dir_ex) (λ _, true) (source := table_source simple_compare dir_ex) 5 false
    (AppendDNFilter LDAP_SCOPE_SUBTREE plain_desc (BER [44; 9] (Some [44; 9])) (equality_ex [1; 2])) (SEARCH 0 false []) []) = Some [1].
Proof. vm_compute. reflexivity. Qed.

(** The errors of reading an entry are meant to be ignored, but the last one
    becomes the result: with the same two candidates, one of which is gone, the
    outcome depends on their order. *)
Definition with_candidates (ids : list Z) (f : VDIR_FILTER) : VDIR_FILTER :=
  upd_node (set_candidates (Some (CANDS ids 10 true false))) f.

Theorem search_unread_last :
  VmDirProcessCandidateList simple_compare request_ex (table_entry dir_ex) (λ _, true) false (with_candidates [5; 1] (equality_ex [1; 2])) (SEARCH 0 false []) [] =
    Some (inr tt, SEARCH 0 false [1], []) ∧
  VmDirProcessCandidateList simple_compare request_ex (table_entry dir_ex) (λ _, true) false (with_candidates [1; 5] (equality_ex [1; 2])) (SEARCH 0 false []) [] =
    Some (inl VMDIR_ERROR_BACKEND_ENTRY_NOTFOUND, SEARCH 0 false [1], []).
Proof. split; vm_compute; reflexivity. Qed.
