(* ===== verification/IndexScan.v ===== *)
(** * IndexScan: candidates from the LMDB indices

    [vmdir/server/mdb-store/indexreadutil.c]: the key of a filter item
    ([VmDirMDBGetCandidates]) and the scan of an index with a cursor
    ([MdbScanIndex]); the configuration of an index and its states
    ([indexcfg/api.c]) and the order of numeric keys ([indexdesc.c]).

    LMDB itself is an interface: a database is a list of records in key order,
    and the operations are described by what its documentation says of them
    ([LmdbLaws]).  Against it the scan is shown to keep the promise that the
    search relies on ([CandidateLaws] of [Search]). *)

From stdpp Require Import sorting.
From S2P Require Import Prelude Heap StringList CString Effects RaftLog Filter Candidates Search.

Open Scope Z_scope.

(** ** LMDB *)

Inductive cursor_op := MDB_SET | MDB_SET_RANGE | MDB_NEXT | MDB_NEXT_DUP | MDB_PREV | MDB_LAST | MDB_FIRST | MDB_SET_KEY.

(** The operations; no result is [MDB_NOTFOUND] ([MDB_KEYEXIST] for [mdb_put]).
    [mdb_put]'s flag is [MDB_NOOVERWRITE]. *)
Class Lmdb := {
  DB : Type;
  cursor : Type;
  mdb_get : DB → list Z → option (list Z);
  mdb_put : bool → DB → list Z → list Z → option DB;
  mdb_del : DB → list Z → option (list Z) → option DB;
  mdb_cursor_open : DB → cursor;
  mdb_cursor_get : DB → cursor → list Z → cursor_op → option (cursor * list Z * list Z);
  mdb_cursor_del : DB → cursor → option DB
}.

(** ** Entry ids and keys *)

(** [MDBEntryIdToDBT]: [BE_REAL_EID_SIZE] bytes, the high ones first. *)
Definition BE_REAL_EID_SIZE : nat := 4.
Definition MDBEntryIdToDBT (eId : Z) : list Z := enc BE_REAL_EID_SIZE eId.

Definition MDBDBTToEntryId (v : list Z) : Z := fold_left (λ a b, Z.lor (u64 (Z.shiftl a 8)) b) v 0.

(** The order of a numeric index: shorter keys first. *)
Fixpoint memcmp_le (x y : list Z) : bool :=
  match x, y with
  | a :: x, b :: y => (a <? b) || ((a =? b) && memcmp_le x y)
  | _, _ => true
  end.

Definition _MDBIntegerCompareFunction_le (x y : list Z) : bool :=
  if (length x <? length y)%nat then true else if (length y <? length x)%nat then false else memcmp_le x y.

Definition BE_INDEX_KEY_TYPE_FWD : Z := 48.
Definition BE_INDEX_KEY_TYPE_REV : Z := 49.

(** ** The configuration of the indices *)

Inductive VDIR_INDEXING_STATUS :=
  | VDIR_INDEXING_SCHEDULED | VDIR_INDEXING_IN_PROGRESS | VDIR_INDEXING_VALIDATING_SCOPES
  | VDIR_INDEXING_COMPLETE | VDIR_INDEXING_DISABLED | VDIR_INDEXING_DELETED.

Inductive VDIR_INDEX_USAGE := VDIR_INDEX_READ | VDIR_INDEX_WRITE.

(** [VDIR_INDEX_CFG]; the two bits of [iTypes] are flags.  A scope is the DN of
    a subtree in which the values are unique; the new ones, listed from the tail
    of their list, are being validated. *)
Record VDIR_INDEX_CFG := INDEX_CFG {
  pszAttrName : cstr;
  iTypesEquality : bool;
  iTypesSubstr : bool;
  bGlobalUniq : bool;
  istatus : VDIR_INDEXING_STATUS;
  pUniqScopes : list cstr;
  pNewUniqScopes : list cstr
}.

(** The indices: the map of configurations, which is looked up without case, and
    the open databases by the name of the configuration. *)
Record index_env {lmdb : Lmdb} := INDEX_ENV {
  pIndexCfgMap : cstr → option VDIR_INDEX_CFG;
  mdbIndexDBs : cstr → option DB
}.
Arguments INDEX_ENV {_} _ _.

Section Scan.
Context {lmdb : Lmdb}.
Context {St : Type}.
Implicit Types (ix : index_env).

(** [VmDirIndexCfgAcquire], without the reference count: an index that is being
    built is written but not read. *)
Definition VmDirIndexCfgAcquire ix (pszAttrName : cstr) (usage : VDIR_INDEX_USAGE) : RM St (option VDIR_INDEX_CFG) :=
  if bool_decide (pszAttrName = []) then rfail VMDIR_ERROR_INVALID_PARAMETER
  else match pIndexCfgMap ix pszAttrName with
       | None => rret None
       | Some cfg =>
           match istatus cfg, usage with
           | VDIR_INDEXING_SCHEDULED, _ => rret None
           | VDIR_INDEXING_IN_PROGRESS, VDIR_INDEX_READ => rfail VMDIR_ERROR_UNWILLING_TO_PERFORM
           | VDIR_INDEXING_DISABLED, _ | VDIR_INDEXING_DELETED, _ => rret None
           | _, _ => rret (Some cfg)
           end
       end.

(** [VmDirMDBIndexGetDBi] *)
Definition VmDirMDBIndexGetDBi ix (cfg : VDIR_INDEX_CFG) : RM St DB :=
  match mdbIndexDBs ix (pszAttrName cfg) with Some db => rret db | None => rfail ERROR_BACKEND_ERROR end.

(** [MDBToBackendError] *)
Definition MDBToBackendError (dwMdbError dwFromMdbError dwToBEError : dwerror) : dwerror :=
  if bool_decide (dwMdbError = dwFromMdbError) then dwToBEError else ERROR_BACKEND_ERROR.

(** [VMDIR_SET_BACKEND_ERROR]: errors outside the space of the backend become
    [ERROR_BACKEND_ERROR]. *)
Definition is_backend_error (err : dwerror) : bool :=
  match err with
  | VMDIR_ERROR_BACKEND_ENTRY_NOTFOUND | VMDIR_ERROR_BACKEND_ENTRY_EXISTS | VMDIR_ERROR_BACKEND_OPERATIONS
  | VMDIR_ERROR_BACKEND_INVALID_METADATA | VMDIR_ERROR_BACKEND_ATTR_META_DATA_NOTFOUND
  | ERROR_BACKEND_ERROR | ERROR_BACKEND_PARENT_NOTFOUND | ERROR_BACKEND_CONSTRAINT => true
  | _ => false
  end.

Definition set_backend_error {A} (m : RM St A) : RM St A :=
  r <- rtry m ;;
  match r with
  | inl err => rfail (if is_backend_error err then err else ERROR_BACKEND_ERROR)
  | inr x => rret x
  end.

Definition DSE_ROOT_ENTRY_ID : Z := 1.
Definition ATTR_PARENT_ID : cstr := ["p"; "a"; "r"; "e"; "n"; "t"; "i"; "d"]%char.

(** [VmDirMDBDNToEntryId] *)
Definition VmDirMDBDNToEntryId ix (dn : berval) : RM St Z :=
  set_backend_error
    (if (length (norm_or_raw dn) =? 0)%nat then rret DSE_ROOT_ENTRY_ID
     else
       o <- VmDirIndexCfgAcquire ix ATTR_DN VDIR_INDEX_READ ;;
       match o with
       | None => rub
       | Some cfg =>
           db <- VmDirMDBIndexGetDBi ix cfg ;;
           VmDirAllocateMemory (Z.of_nat (length (norm_or_raw dn)) + 1) ;;;
           backend_call ;;;
           match mdb_get db (BE_INDEX_KEY_TYPE_FWD :: norm_or_raw dn) with
           | None => rfail (MDBToBackendError MDB_NOTFOUND MDB_NOTFOUND VMDIR_ERROR_BACKEND_ENTRY_NOTFOUND)
           | Some value => rret (MDBDBTToEntryId value)
           end
       end).

End Scan.

(** ** The scan of an index *)

Inductive scan_kind := ScanExact | ScanPrefix | ScanGe | ScanLe.

#[export] Instance scan_kind_eq_dec : EqDecision scan_kind.
Proof. solve_decision. Defined.

Definition kind_of (i : filter_item) : scan_kind :=
  match i with FEquality _ | FOneLevel _ => ScanExact | FSubstrings _ => ScanPrefix | FLe _ => ScanLe | _ => ScanGe end.

Definition next_op (k : scan_kind) : cursor_op :=
  match k with ScanExact => MDB_NEXT_DUP | ScanLe => MDB_PREV | _ => MDB_NEXT end.

(** The record is past the key that is looked for. *)
Definition past_key (k : scan_kind) (key cur : list Z) : bool :=
  match k with
  | ScanExact => negb (bool_decide (cur = key))
  | ScanPrefix => negb (bool_decide (key `prefix_of` cur))
  | _ => false
  end.

Section Cursor.
Context {lmdb : Lmdb} (k : scan_kind) (db : DB) (key : list Z) (iMaxIndexScan maxScanForSizeLimit eStartingId : Z).

(** The loop over the records; the flag of the result is false for
    [MDB_NOTFOUND], the list is gone when the index has too many records. *)
Fixpoint scan_loop (fuel : nat) (c : cursor) (currKey : list Z) (op : cursor_op) (cand : VDIR_CANDIDATES)
    : RM search_state (bool * option VDIR_CANDIDATES) :=
  match fuel with
  | O => rub
  | S fuel =>
      backend_call ;;;
      match mdb_cursor_get db c currKey op with
      | None => rret (csize cand >? 0, Some cand)
      | Some (c, currKey, value) =>
          if past_key k key currKey then rret (true, Some cand)
          else
            let eId := MDBDBTToEntryId value in
            cand <- (if eId >=? eStartingId then VmDirAddToCandidates cand eId else rret cand) ;;
            if (iMaxIndexScan >? 0) && (csize cand >? iMaxIndexScan) then rret (false, None)
            else if (maxScanForSizeLimit >? 0) && (csize cand >? maxScanForSizeLimit) then
              rset (set_partial true) ;;; rret (true, Some cand)
            else scan_loop fuel c currKey (next_op k) cand
      end
  end.

(** The first operation: for [<=] the last record when all keys are smaller. *)
Definition scan_start (c : cursor) : cursor * list Z * cursor_op :=
  match k with
  | ScanExact => (c, key, MDB_SET)
  | ScanLe => match mdb_cursor_get db c key MDB_SET_RANGE with
              | None => (c, key, MDB_LAST)
              | Some (c, currKey, _) => (c, currKey, MDB_SET_RANGE)
              end
  | _ => (c, key, MDB_SET_RANGE)
  end.

End Cursor.

Section Get.
Context {lmdb : Lmdb} (fuel : nat) (ix : index_env).

(** [MdbScanIndex]: an attribute without index leaves the node as it is. *)
Definition MdbScanIndex (attrType : cstr) (key : list Z) (i : filter_item) (n : filter_node) (eStartingId : Z)
    : RM search_state (bool * filter_node) :=
  o <- VmDirIndexCfgAcquire ix attrType VDIR_INDEX_READ ;;
  match o with
  | None => rret (true, n)
  | Some cfg =>
      o <- NewCandidates 10 true ;;
      match o with
      | None => rfail ERROR_BACKEND_ERROR
      | Some cand =>
          db <- VmDirMDBIndexGetDBi ix cfg ;;
          if bool_decide (kind_of i = ScanExact) && bGlobalUniq cfg then
            backend_call ;;;
            match mdb_get db key with
            | None => rret (false, set_candidates (Some cand) n)
            | Some value =>
                let eId := MDBDBTToEntryId value in
                cand <- (if eId >=? eStartingId then VmDirAddToCandidates cand eId else rret cand) ;;
                rret (true, set_candidates (Some cand) n)
            end
          else
            backend_call ;;;
            s <- rget ;;
            let '(c, currKey, op) := scan_start (kind_of i) db key (mdb_cursor_open db) in
            r <- scan_loop (kind_of i) db key (iMaxIndexScan n) (iMaxScanForSizeLimit s) eStartingId fuel c currKey op cand ;;
            rret (r.1, set_candidates r.2 n)
      end
  end.

(** The errors of the backend. *)
Definition backend_error {A} (m : RM search_state A) : RM search_state A :=
  r <- rtry m ;; match r with inl _ => rfail ERROR_BACKEND_ERROR | inr x => rret x end.

(** [VmDirMDBGetCandidates]: the key of the item, then the scan. *)
Definition VmDirMDBGetCandidates (i : filter_item) (n : filter_node) (eStartingId : Z) : RM search_state (bool * filter_node) :=
  backend_error
    match i with
    | FEquality a | FGe a | FLe a =>
        VmDirAllocateMemory (Z.of_nat (length (norm_or_raw (ava_value a))) + 1) ;;;
        MdbScanIndex (ava_type a) (BE_INDEX_KEY_TYPE_FWD :: norm_or_raw (ava_value a)) i n eStartingId
    | FSubstrings ss =>
        if negb (length (bv_val (ss_initial ss)) =? 0)%nat then
          VmDirAllocateMemory (Z.of_nat (length (norm_or_raw (ss_initial ss))) + 1) ;;;
          MdbScanIndex (ss_type ss) (BE_INDEX_KEY_TYPE_FWD :: norm_or_raw (ss_initial ss)) i n eStartingId
        else if negb (length (bv_val (ss_final ss)) =? 0)%nat then
          VmDirAllocateMemory (Z.of_nat (length (norm_or_raw (ss_final ss))) + 1) ;;;
          MdbScanIndex (ss_type ss) (BE_INDEX_KEY_TYPE_REV :: rev (norm_or_raw (ss_final ss))) i n eStartingId
        else if negb (length (ss_any ss) =? 0)%nat then rret (true, n)
        else rub
    | FOneLevel parentDn =>
        parentId <- VmDirMDBDNToEntryId ix parentDn ;;
        MdbScanIndex ATTR_PARENT_ID (MDBEntryIdToDBT parentId) i n eStartingId
    | _ => rub
    end.

(** The backend of the search. *)
#[local] Instance mdb_source : CandidateSource := {
  pfnBEGetCandidates := VmDirMDBGetCandidates;
  has_unique_index t := o <- VmDirIndexCfgAcquire ix t VDIR_INDEX_READ ;; rret match o with Some cfg => bGlobalUniq cfg | None => false end
}.

End Get.

(** ** What LMDB promises *)

(** The record a cursor operation goes to: [pos] is the position of the cursor. *)
Definition cursor_target (rs : list (list Z * list Z)) (leb : list Z → list Z → bool) (pos : option nat) (key : list Z) (op : cursor_op) : option nat :=
  match op with
  | MDB_SET | MDB_SET_KEY => fst <$> list_find (λ r, r.1 = key) rs
  | MDB_SET_RANGE => fst <$> list_find (λ r, leb key r.1 = true) rs
  | MDB_NEXT => i ← pos; if decide (S i < length rs)%nat then Some (S i) else None
  | MDB_NEXT_DUP =>
      i ← pos; r ← rs !! i; r' ← rs !! S i; if decide (r'.1 = r.1) then Some (S i) else None
  | MDB_PREV => i ← pos; if decide (0 < i <= length rs)%nat then Some (pred i) else None
  | MDB_LAST => if decide (rs = []) then None else Some (pred (length rs))
  | MDB_FIRST => if decide (rs = []) then None else Some O
  end.

(** A database is its records, sorted by the order of its keys; a key has one
    record unless the database was opened with [MDB_DUPSORT]. *)
Class LmdbLaws {lmdb : Lmdb} := {
  records : DB → list (list Z * list Z);
  key_leb : DB → list Z → list Z → bool;
  dupsort : DB → bool;
  position : cursor → option nat;
  key_refl db x : key_leb db x x = true;
  key_trans db x y z : key_leb db x y = true → key_leb db y z = true → key_leb db x z = true;
  key_antisym db x y : key_leb db x y = true → key_leb db y x = true → x = y;
  records_sorted db : StronglySorted (λ x y, key_leb db x.1 y.1 = true) (records db);
  records_unique db : dupsort db = false → NoDup (records db).*1;
  mdb_get_law db key : mdb_get db key = (λ p, p.2.2) <$> list_find (λ r, r.1 = key) (records db);
  mdb_cursor_get_law db c key op :
    match cursor_target (records db) (key_leb db) (position c) key op with
    | None => mdb_cursor_get db c key op = None
    | Some i => ∃ c' r, records db !! i = Some r ∧ mdb_cursor_get db c key op = Some (c', r.1, r.2) ∧ position c' = Some i
    end;
  mdb_put_law b db key v :
    match mdb_put b db key v with
    | None => b = true ∧ key ∈ (records db).*1
    | Some db' =>
        key_leb db' = key_leb db ∧ dupsort db' = dupsort db ∧ (b = true → key ∉ (records db).*1) ∧
        ∀ r, r ∈ records db' ↔ r = (key, v) ∨ (r ∈ records db ∧ (dupsort db = false → r.1 ≠ key))
    end;
  mdb_del_law db key o :
    match mdb_del db key o with
    | None => ∀ v, (dupsort db = true → o = None ∨ o = Some v) → (key, v) ∉ records db
    | Some db' =>
        key_leb db' = key_leb db ∧ dupsort db' = dupsort db ∧
        ∀ r, r ∈ records db' ↔ r ∈ records db ∧ (r.1 = key → dupsort db = true ∧ ∃ v, o = Some v ∧ r.2 ≠ v)
    end;
  mdb_cursor_del_law db c i r :
    position c = Some i → records db !! i = Some r →
    ∃ db', mdb_cursor_del db c = Some db' ∧ key_leb db' = key_leb db ∧ dupsort db' = dupsort db ∧ records db ≡ₚ r :: records db'
}.

(** ** The scan *)

Fixpoint take_while {A} (p : A → bool) (l : list A) : list A :=
  match l with [] => [] | x :: l => if p x then x :: take_while p l else [] end.

(** In a sorted list the wanted elements behind the first are one run. *)
Lemma take_while_run {A} (R : A → A → Prop) (p : A → bool) l x :
  StronglySorted R l → x ∈ l → p x = true → (∀ y, y ∈ l → (y = x ∨ R y x) → p y = true) → x ∈ take_while p l.
Proof.
  induction 1 as [|y l Hs IH HR]; intros Hx Hp Hall; [by apply elem_of_nil in Hx |]. cbn.
  apply elem_of_cons in Hx as [<- | Hx]; [rewrite Hp; by left |].
  rewrite (Hall y); [right; apply IH; [done | done | intros z Hz; apply Hall; by right] | by left | right; rewrite Forall_forall in HR; by apply HR].
Qed.

Section Run.
Context {lmdb : Lmdb} {laws : LmdbLaws}.
Implicit Types (db : DB) (s : search_state).

(** A list of the scan, with room for [m] more ids. *)
Definition roomy (c : VDIR_CANDIDATES) (m : nat) : Prop :=
  positive c = true ∧ eIdsSorted c = false ∧ 0 < cmax c ∧ csize c <= cmax c ∧ csize c + Z.of_nat m < 2 ^ 26.

Lemma add_scanned_run c m i s :
  roomy c (S m) → ∃ c', VmDirAddToCandidates c i s [] = Some (inr c', s, []) ∧ roomy c' m ∧ eIds c' = eIds c ++ [i].
Proof.
  unfold roomy, csize. intros (Hp & Hs & H0 & Hle & Hm). unfold VmDirAddToCandidates. destruct (csize c =? cmax c) eqn:Heq.
  - unfold VmDirReallocCandidates. unfold csize in Heq. rewrite (proj2 (Z.ltb_lt _ _)) by lia. unfold VmDirAllocateMemory, rbind.
    rewrite (proj2 (Z.eqb_neq _ _)) by lia. cbn. eexists. split; [reflexivity |]. cbn. rewrite length_app. cbn. split; [repeat split; try done; lia | done].
  - unfold rbind, rret. eexists. split; [reflexivity |]. cbn. unfold csize in *. rewrite length_app. cbn. split; [| done]. repeat split; try done; lia.
Qed.

(** The ids of the records that are not below the start. *)
Definition ids_from (start : Z) (rs : list (list Z * list Z)) : list Z :=
  filter (λ i, start <= i) (MDBDBTToEntryId <$> rs.*2).

(** One record is taken. *)
Lemma scanned_record cand m start (r : list Z * list Z) s :
  roomy cand (S m) →
  ∃ cand', (if MDBDBTToEntryId r.2 >=? start then VmDirAddToCandidates cand (MDBDBTToEntryId r.2) else rret cand) s [] = Some (inr cand', s, []) ∧
    roomy cand' m ∧ eIds cand' = eIds cand ++ ids_from start [r].
Proof.
  intros Hroom. unfold ids_from. cbn. destruct (MDBDBTToEntryId r.2 >=? start) eqn:Hge.
  - destruct (add_scanned_run cand m (MDBDBTToEntryId r.2) s Hroom) as (cand' & Hrun & Hroom' & Hids). exists cand'. split; [done |]. split; [done |].
    by rewrite decide_True by lia.
  - exists cand. split; [done |]. rewrite decide_False, app_nil_r by lia. split; [| done]. destruct Hroom as (? & ? & ? & ? & ?). repeat split; try done; cbn in *; lia.
Qed.

(** The loop at record [j], in a forward scan. *)
Lemma scan_loop_run k db key maxIndex maxScan start fuel c currKey op cand s j l :
  k ≠ ScanLe →
  match l with [] => cursor_target (records db) (key_leb db) (position c) currKey op = None
             | _ => cursor_target (records db) (key_leb db) (position c) currKey op = Some j end →
  drop j (records db) = l → (length l < fuel)%nat → roomy cand (length l) →
  ∃ b o s', scan_loop k db key maxIndex maxScan start fuel c currKey op cand s [] = Some (inr (b, o), s', []) ∧
    (iPartialCandidates s = true → iPartialCandidates s' = true) ∧
    match o with
    | None => 0 < maxIndex
    | Some cand' => positive cand' = true ∧ eIdsSorted cand' = false ∧
        (iPartialCandidates s' = false → eIds cand' = eIds cand ++ ids_from start (take_while (λ r, negb (past_key k key r.1)) l))
    end.
Proof.
  intros Hk. revert fuel c currKey op cand s j. induction l as [|r l IH]; intros fuel c currKey op cand s j Ht Hl Hf Hroom;
    (destruct fuel as [|fuel]; [cbn in Hf; lia |]); cbn [scan_loop]; rewrite run_backend;
    pose proof (mdb_cursor_get_law db c currKey op) as Hlaw; rewrite Ht in Hlaw.
  { rewrite Hlaw. do 3 eexists. split; [reflexivity |]. split; [done |]. destruct Hroom as (? & ? & _). cbn. rewrite app_nil_r. done. }
  destruct Hlaw as (c' & r' & Hr & Hget & Hpos). rewrite Hget.
  assert (records db !! j = Some r ∧ drop (S j) (records db) = l) as [Hr0 Hl'].
  { destruct (records db !! j) as [x|] eqn:Hx; [| by rewrite drop_ge in Hl by by apply lookup_ge_None].
    rewrite (drop_S _ _ _ Hx) in Hl. by injection Hl as -> <-. }
  assert (r' = r) as -> by congruence. destruct (past_key k key r.1) eqn:Hpast.
  { do 3 eexists. split; [reflexivity |]. split; [done |]. destruct Hroom as (? & ? & _). split; [done |]. split; [done |]. intros _. cbn. rewrite Hpast. cbn. by rewrite app_nil_r. }
  assert (∃ cand', (if MDBDBTToEntryId r.2 >=? start then VmDirAddToCandidates cand (MDBDBTToEntryId r.2) else rret cand) s [] = Some (inr cand', s, []) ∧
    roomy cand' (length l) ∧ eIds cand' = eIds cand ++ ids_from start [r]) as (cand' & Hadd & Hroom' & Hids).
  { by apply scanned_record. }
  unfold rbind at 1. rewrite Hadd.
  destruct ((maxIndex >? 0) && _) eqn:Hmax.
  { do 3 eexists. split; [reflexivity |]. split; [done |]. lia. }
  destruct ((maxScan >? 0) && _) eqn:Hlim.
  { do 3 eexists. split; [reflexivity |]. split; [done |]. destruct Hroom' as (? & ? & _). done. }
  assert ((k = ScanExact ∧ ∃ r2 l2, l = r2 :: l2 ∧ r2.1 ≠ r.1) ∨ ¬ (k = ScanExact ∧ ∃ r2 l2, l = r2 :: l2 ∧ r2.1 ≠ r.1)) as [[-> (r2 & l2 & -> & Hne)] | Hdup].
  { destruct k, l as [|r2 l2]; try (right; naive_solver). destruct (decide (r2.1 = r.1)); [right | left]; naive_solver. }
  - (** the next record has another key *)
    destruct fuel as [|fuel]; [cbn in Hf; lia |]. cbn [scan_loop next_op]. rewrite run_backend.
    pose proof (mdb_cursor_get_law db c' r.1 MDB_NEXT_DUP) as Hlaw2. cbn in Hlaw2. rewrite Hpos in Hlaw2. cbn in Hlaw2. rewrite Hr0 in Hlaw2. cbn in Hlaw2.
    assert (records db !! S j = Some r2) as Hr2 by (rewrite <- (Nat.add_0_r (S j)), <- lookup_drop, Hl'; done).
    rewrite Hr2 in Hlaw2. cbn in Hlaw2. rewrite decide_False in Hlaw2 by done. rewrite Hlaw2.
    do 3 eexists. split; [reflexivity |]. split; [done |]. destruct Hroom' as (? & ? & _). split; [done |]. split; [done |]. intros _.
    assert (past_key ScanExact key r2.1 = true) as Hpast2.
    { cbn in Hpast |- *. apply negb_false_iff, bool_decide_eq_true in Hpast. rewrite bool_decide_eq_false_2; [done | congruence]. }
    rewrite Hids. cbn [take_while]. by rewrite Hpast, Hpast2.
  - edestruct (IH fuel c' r.1 (next_op k) cand' s (S j)) as (b & o & s' & Hrun & Hpart & Ho); [| done | cbn in Hf; lia | done |].
    { assert (match l with [] => (S j >= length (records db))%nat | r2 :: _ => records db !! S j = Some r2 end) as Hnext.
      { destruct l as [|r2 l2]; [apply (f_equal length) in Hl'; rewrite length_drop in Hl'; cbn in Hl'; lia |].
        by rewrite <- (Nat.add_0_r (S j)), <- lookup_drop, Hl'. }
      destruct k; [| | | done]; cbn; rewrite Hpos; cbn; rewrite ?Hr0; cbn.
      - destruct l as [|r2 l2]; [by rewrite lookup_ge_None_2 by lia |]. rewrite Hnext. cbn. rewrite decide_True; [done |].
        destruct (decide (r2.1 = r.1)); [done |]. destruct Hdup. split; [done |]. by exists r2, l2.
      - destruct l as [|r2 l2]; [rewrite decide_False by lia; done | apply lookup_lt_Some in Hnext; by rewrite decide_True by lia].
      - destruct l as [|r2 l2]; [rewrite decide_False by lia; done | apply lookup_lt_Some in Hnext; by rewrite decide_True by lia]. }
    exists b, o, s'. split; [done |]. split; [done |]. destruct o as [cand2|]; [| done]. destruct Ho as (H1 & H2 & H3). split; [done |]. split; [done |].
    intros Hp. rewrite (H3 Hp), Hids. cbn [take_while]. rewrite Hpast. cbn [negb]. rewrite <- app_assoc. f_equal.
    unfold ids_from. cbn. by destruct (decide _).
Qed.

(** The loop of the backward scan at the last of the first [length l] records. *)
Lemma scan_loop_back db key maxIndex maxScan start fuel c currKey op cand s l :
  match l with [] => cursor_target (records db) (key_leb db) (position c) currKey op = None
             | _ => cursor_target (records db) (key_leb db) (position c) currKey op = Some (pred (length l)) end →
  rev (take (length l) (records db)) = l → (length l < fuel)%nat → roomy cand (length l) →
  ∃ b o s', scan_loop ScanLe db key maxIndex maxScan start fuel c currKey op cand s [] = Some (inr (b, o), s', []) ∧
    (iPartialCandidates s = true → iPartialCandidates s' = true) ∧
    match o with
    | None => 0 < maxIndex
    | Some cand' => positive cand' = true ∧ eIdsSorted cand' = false ∧
        (iPartialCandidates s' = false → eIds cand' = eIds cand ++ ids_from start l)
    end.
Proof.
  revert fuel c currKey op cand s. induction l as [|r l IH]; intros fuel c currKey op cand s Ht Hl Hf Hroom;
    (destruct fuel as [|fuel]; [cbn in Hf; lia |]); cbn [scan_loop]; rewrite run_backend;
    pose proof (mdb_cursor_get_law db c currKey op) as Hlaw; rewrite Ht in Hlaw.
  { rewrite Hlaw. do 3 eexists. split; [reflexivity |]. split; [done |]. destruct Hroom as (? & ? & _). cbn. rewrite app_nil_r. done. }
  destruct Hlaw as (c' & r' & Hr & Hget & Hpos). rewrite Hget. cbn [length pred] in Hr, Hpos.
  assert (r' = r ∧ rev (take (length l) (records db)) = l) as [-> Hl'].
  { cbn [length] in Hl. rewrite (take_S_r _ _ _ Hr), rev_app_distr in Hl. by injection Hl. }
  cbn [past_key].
  assert (∃ cand', (if MDBDBTToEntryId r.2 >=? start then VmDirAddToCandidates cand (MDBDBTToEntryId r.2) else rret cand) s [] = Some (inr cand', s, []) ∧
    roomy cand' (length l) ∧ eIds cand' = eIds cand ++ ids_from start [r]) as (cand' & Hadd & Hroom' & Hids).
  { by apply scanned_record. }
  unfold rbind at 1. rewrite Hadd.
  destruct ((maxIndex >? 0) && _) eqn:Hmax.
  { do 3 eexists. split; [reflexivity |]. split; [done |]. lia. }
  destruct ((maxScan >? 0) && _) eqn:Hlim.
  { do 3 eexists. split; [reflexivity |]. split; [done |]. destruct Hroom' as (? & ? & _). done. }
  edestruct (IH fuel c' r.1 MDB_PREV cand' s) as (b & o & s' & Hrun & Hpart & Ho); [| done | cbn in Hf; lia | done |].
  { cbn. rewrite Hpos. cbn. apply lookup_lt_Some in Hr. destruct l as [|r2 l2]; cbn [length] in *; [by rewrite decide_False by lia |].
    by rewrite decide_True by lia. }
  exists b, o, s'. split; [done |]. split; [done |]. destruct o as [cand2|]; [| done]. destruct Ho as (H1 & H2 & H3). split; [done |]. split; [done |].
  intros Hp. rewrite (H3 Hp), Hids, <- app_assoc. f_equal. unfold ids_from. cbn. by destruct (decide _).
Qed.

End Run.

Section Scans.
Context {lmdb : Lmdb} {laws : LmdbLaws}.
Context (fuel : nat) (ix : index_env).
Implicit Types (db : DB) (s : search_state).

(** The index of an attribute for reading: no result when it cannot be read. *)
Definition read_index (t : cstr) : option (option (VDIR_INDEX_CFG * DB)) :=
  if bool_decide (t = []) then None
  else match pIndexCfgMap ix t with
       | None => Some None
       | Some cfg =>
           match istatus cfg with
           | VDIR_INDEXING_SCHEDULED | VDIR_INDEXING_DISABLED | VDIR_INDEXING_DELETED => Some None
           | VDIR_INDEXING_IN_PROGRESS => None
           | _ => db ← mdbIndexDBs ix (pszAttrName cfg); Some (Some (cfg, db))
           end
       end.

Lemma acquire_read t s o :
  read_index t = Some o → VmDirIndexCfgAcquire ix t VDIR_INDEX_READ s [] = Some (inr (fst <$> o), s, []) ∧
    ∀ cfg db, o = Some (cfg, db) → mdbIndexDBs ix (pszAttrName cfg) = Some db.
Proof.
  unfold read_index, VmDirIndexCfgAcquire. destruct (bool_decide (t = [])); [done |]. destruct (pIndexCfgMap ix t) as [cfg|]; [| by intros [= <-]].
  destruct (istatus cfg); try done; try (by intros [= <-]); destruct (mdbIndexDBs ix (pszAttrName cfg)) as [db|] eqn:Hdb; try done; intros [= <-]; (split; [done |]); by intros ? ? [= -> ->].
Qed.

(** The size of an index the scan can handle, and what its flag says. *)
Definition usable (cfg : VDIR_INDEX_CFG) db : Prop :=
  (length (records db) < fuel)%nat ∧ Z.of_nat (length (records db)) < 2 ^ 26 ∧ (bGlobalUniq cfg = true → dupsort db = false).

(** What the scan must not leave behind: between the key and a wanted record all
    records are wanted. *)
Definition convex (k : scan_kind) db key : Prop :=
  ∀ a b, key_leb db key a = true → key_leb db a b = true → past_key k key b = false → past_key k key a = false.

Lemma convex_exact db key : convex ScanExact db key.
Proof.
  intros a b Ha Hb. cbn. rewrite !negb_false_iff, !bool_decide_eq_true. intros ->. by apply (key_antisym db).
Qed.

Lemma convex_ge db key : convex ScanGe db key.
Proof. done. Qed.

Lemma new_list_run s : NewCandidates 10 true s [] = Some (inr (Some (CANDS [] 10 true false)), s, []).
Proof. reflexivity. Qed.

(** The start of a forward scan: the first record at or behind the key. *)
Lemma scan_start_run k db key c0 :
  k ≠ ScanLe →
  ∃ c currKey op j, scan_start k db key c0 = (c, currKey, op) ∧
    (match drop j (records db) with
     | [] => cursor_target (records db) (key_leb db) (position c) currKey op = None
     | _ => cursor_target (records db) (key_leb db) (position c) currKey op = Some j
     end) ∧
    ∀ r, r ∈ records db → key_leb db key r.1 = true → past_key k key r.1 = false →
      r ∈ drop j (records db) ∧ ∀ y, y ∈ drop j (records db) → key_leb db key y.1 = true.
Proof.
  intros Hk.
  assert (∀ P `{!∀ r, Decision (P r)}, (∀ r, P r → key_leb db key r.1 = true) →
    ∃ j, (match drop j (records db) with [] => fst <$> list_find P (records db) = None | _ => fst <$> list_find P (records db) = Some j end) ∧
      ∀ r, r ∈ records db → P r → r ∈ drop j (records db) ∧ ∀ y, y ∈ drop j (records db) → key_leb db key y.1 = true) as Hfind.
  { intros P ? HP. destruct (list_find P (records db)) as [[j r0]|] eqn:Hf.
    - exists j. apply list_find_Some in Hf as (Hj & HPr & Hmin). pose proof (drop_S _ _ _ Hj) as Hd. split; [by rewrite Hd |]. intros r Hr HPr'. split.
      + apply list_elem_of_lookup in Hr as (i & Hi). destruct (decide (i < j)%nat) as [Hlt | Hge]; [by destruct (Hmin i r Hi Hlt) |].
        apply (list_elem_of_lookup_2 _ (i - j)%nat). rewrite lookup_drop. by replace (j + (i - j))%nat with i by lia.
      + pose proof (records_sorted db) as Hs. rewrite <- (take_drop j (records db)) in Hs. apply StronglySorted_app_1_r in Hs. rewrite Hd in Hs.
        apply StronglySorted_inv in Hs as [_ Hs]. rewrite Forall_forall in Hs. rewrite Hd. intros y Hy. apply elem_of_cons in Hy as [-> | Hy]; [by apply HP |].
        eapply key_trans; [by apply (HP r0) | by apply Hs].
    - exists (length (records db)). rewrite drop_all. split; [done |]. apply list_find_None in Hf. intros r Hr HPr. rewrite Forall_forall in Hf. by destruct (Hf r Hr). }
  destruct k; [| | | done].
  - destruct (Hfind (λ r, r.1 = key) _) as (j & H1 & H2); [intros r ->; apply key_refl |]. exists c0, key, MDB_SET, j. split; [done |]. split; [done |].
    intros r Hr _ Hpast. apply H2; [done |]. cbn in Hpast. by apply negb_false_iff, bool_decide_eq_true in Hpast.
  - destruct (Hfind (λ r, key_leb db key r.1 = true) _) as (j & H1 & H2); [done |]. exists c0, key, MDB_SET_RANGE, j. split; [done |]. split; [done |]. intros r Hr Hle _. by apply H2.
  - destruct (Hfind (λ r, key_leb db key r.1 = true) _) as (j & H1 & H2); [done |]. exists c0, key, MDB_SET_RANGE, j. split; [done |]. split; [done |]. intros r Hr Hle _. by apply H2.
Qed.

(** The whole of [MdbScanIndex], forward: no wanted record is missed. *)
Lemma scan_index_run t key i n start s cfg db :
  kind_of i ≠ ScanLe → read_index t = Some (Some (cfg, db)) → usable cfg db → convex (kind_of i) db key → computeResult n = FILTER_RES_NORMAL →
  ∃ b n' s', MdbScanIndex fuel ix t key i n start s [] = Some (inr (b, n'), s', []) ∧
    computeResult n' = FILTER_RES_NORMAL ∧ or_ok n' ∧ (iPartialCandidates s = true → iPartialCandidates s' = true) ∧
    (iPartialCandidates s' = false → ∀ r, r ∈ records db → key_leb db key r.1 = true → past_key (kind_of i) key r.1 = false →
       start <= MDBDBTToEntryId r.2 → node_allows n' (MDBDBTToEntryId r.2)) ∧
    (iMaxIndexScan n = 0 → is_Some (candidates n')).
Proof.
  intros Hk Hread (Hfuel & Hsize & Huniq) Hconv Hn. destruct (acquire_read _ s _ Hread) as [Hacq Hdb]. specialize (Hdb _ _ eq_refl).
  assert (roomy (CANDS [] 10 true false) (length (records db))) as Hroom by (repeat split; cbn; try done; lia).
  unfold MdbScanIndex. unfold rbind at 1. rewrite Hacq. cbn [fmap option_fmap option_map fst]. unfold rbind at 1. rewrite new_list_run.
  unfold VmDirMDBIndexGetDBi. rewrite Hdb. unfold rbind at 1, rret at 1.
  destruct (bool_decide (kind_of i = ScanExact) && bGlobalUniq cfg) eqn:Hexact.
  - apply andb_true_iff in Hexact as [He%bool_decide_eq_true Hu]. rewrite run_backend, mdb_get_law.
    destruct (list_find (λ r, r.1 = key) (records db)) as [[j r0]|] eqn:Hf; cbn [fmap option_fmap option_map snd].
    + apply list_find_Some in Hf as (Hj & Hr0 & _). cbn in Hr0.
      assert (∃ c', (if MDBDBTToEntryId r0.2 >=? start then VmDirAddToCandidates (CANDS [] 10 true false) (MDBDBTToEntryId r0.2) else rret (CANDS [] 10 true false)) s [] = Some (inr c', s, []) ∧
        positive c' = true ∧ eIdsSorted c' = false ∧ (start <= MDBDBTToEntryId r0.2 → MDBDBTToEntryId r0.2 ∈ eIds c')) as (c' & Hadd & Hp & Hs & Hin).
      { destruct (_ >=? start) eqn:Hge; [| exists (CANDS [] 10 true false); repeat split; try done; lia].
        destruct (add_scanned_run (CANDS [] 10 true false) 0 (MDBDBTToEntryId r0.2) s) as (c' & Hrun & (? & ? & _) & Hids); [by repeat split; cbn |].
        exists c'. repeat split; try done. intros _. rewrite Hids. cbn. by left. }
      unfold rbind. rewrite Hadd. do 3 eexists. split; [reflexivity |]. cbn. split; [done |]. split; [split; [by unfold cands_ok; rewrite Hs | done] |]. split; [done |].
      split; [| by eexists]. intros _ r Hr _ Hpast Hstart. rewrite He in Hpast. cbn in Hpast. apply negb_false_iff, bool_decide_eq_true in Hpast.
      assert (r = r0) as ->.
      { pose proof (records_unique db (Huniq Hu)) as Hnd. apply list_elem_of_lookup in Hr as (i' & Hi').
        assert (i' = j) as ->; [| congruence]. apply (NoDup_lookup _ _ _ key Hnd); rewrite list_lookup_fmap; [rewrite Hi' | rewrite Hj]; cbn; congruence. }
      unfold node_allows. cbn. rewrite Hn, Hp. by apply Hin.
    + do 3 eexists. split; [reflexivity |]. cbn. split; [done |]. split; [by split |]. split; [done |]. split; [| by eexists].
      intros _ r Hr _ Hpast. apply list_find_None in Hf. rewrite Forall_forall in Hf. destruct (Hf r Hr). rewrite He in Hpast. cbn in Hpast. by apply negb_false_iff, bool_decide_eq_true in Hpast.
  - rewrite run_backend. unfold rbind at 1, rget. destruct (scan_start_run (kind_of i) db key (mdb_cursor_open db) Hk) as (c & ck & op & j & -> & Ht & Hin).
    destruct (scan_loop_run (kind_of i) db key (iMaxIndexScan n) (iMaxScanForSizeLimit s) start fuel c ck op (CANDS [] 10 true false) s j (drop j (records db)))
      as (b & o & s' & Hrun & Hpart & Ho); [done | done | done | rewrite length_drop; lia | |].
    { destruct Hroom as (? & ? & ? & ? & ?). repeat split; try done. rewrite length_drop. cbn in *. lia. }
    unfold rbind. rewrite Hrun. do 3 eexists. split; [reflexivity |]. cbn [fst snd].
    split; [done |]. destruct o as [cand|].
    + destruct Ho as (Hp & Hs & Hids). split; [split; [by unfold cands_ok; rewrite Hs | done] |]. split; [done |]. split; [| by eexists].
      intros Hnp r Hr Hle Hpast Hstart. unfold node_allows. cbn. rewrite Hn, Hp, (Hids Hnp). cbn. destruct (Hin r Hr Hle Hpast) as [Hrj Hall].
      unfold ids_from. apply list_elem_of_filter. split; [done |]. apply list_elem_of_fmap. exists r.2. split; [done |]. apply list_elem_of_fmap. exists r. split; [done |].
      eapply (take_while_run (λ x y, key_leb db x.1 y.1 = true)); [| done | by rewrite Hpast |].
      * pose proof (records_sorted db) as Hsd. rewrite <- (take_drop j (records db)) in Hsd. by apply StronglySorted_app_1_r in Hsd.
      * intros y Hy Hor. apply negb_true_iff. destruct Hor as [-> | Hyr]; [done |]. eapply Hconv; [by apply Hall | done | done].
    + split; [done |]. split; [done |]. split; [| lia]. intros _ r _ _ _ _. unfold node_allows. cbn. by rewrite Hn.
Qed.

(** At most one record has the key. *)
Definition lone_key db key : Prop :=
  ∀ i j r r', records db !! i = Some r → records db !! j = Some r' → r.1 = key → r'.1 = key → i = j.

(** The start of the backward scan: the first record at or behind the key, or
    the last one. *)
Lemma scan_start_back db key c0 :
  lone_key db key →
  ∃ c currKey op l, scan_start ScanLe db key c0 = (c, currKey, op) ∧
    (match l with
     | [] => cursor_target (records db) (key_leb db) (position c) currKey op = None
     | _ => cursor_target (records db) (key_leb db) (position c) currKey op = Some (pred (length l))
     end) ∧
    rev (take (length l) (records db)) = l ∧ ∀ r, r ∈ records db → key_leb db r.1 key = true → r ∈ l.
Proof.
  intros Hlone. unfold scan_start. pose proof (mdb_cursor_get_law db c0 key MDB_SET_RANGE) as Hlaw. cbn in Hlaw.
  destruct (list_find (λ r, key_leb db key r.1 = true) (records db)) as [[j r0]|] eqn:Hf; cbn in Hlaw.
  - destruct Hlaw as (c & r & Hr & -> & Hpos). apply list_find_Some in Hf as (Hj & Hle & Hmin).
    assert (r0 = r) as -> by congruence. exists c, r.1, MDB_SET_RANGE, (rev (take (S j) (records db))). split; [done |].
    pose proof (lookup_lt_Some _ _ _ Hj) as Hlt.
    assert (length (rev (take (S j) (records db))) = S j) as Hlen by (rewrite length_rev, length_take; lia).
    split; [| split; [by rewrite Hlen |]].
    + destruct (rev (take (S j) (records db))) as [|x l]; [done |]. rewrite Hlen. cbn [cursor_target pred].
      assert (list_find (λ r1, key_leb db r.1 r1.1 = true) (records db) = Some (j, r)) as ->; [| done].
      apply list_find_Some. split; [done |]. split; [apply key_refl |]. intros i x' Hi Hij Hx.
      apply (Hmin i x' Hi Hij). by eapply key_trans.
    + intros x Hx Hxk. apply list_elem_of_In, in_rev. rewrite rev_involutive. apply list_elem_of_In.
      apply list_elem_of_lookup in Hx as (i & Hi). apply list_elem_of_lookup. exists i.
      destruct (decide (i < S j)%nat) as [Hlt' | Hge]; [by rewrite lookup_take_lt |]. exfalso.
      assert (key_leb db r.1 x.1 = true) as Hrx.
      { pose proof (records_sorted db) as Hs. rewrite <- (take_drop j (records db)) in Hs. apply StronglySorted_app_1_r in Hs.
        rewrite (drop_S _ _ _ Hj) in Hs. apply StronglySorted_inv in Hs as [_ Hs]. rewrite Forall_forall in Hs. apply Hs.
        apply (list_elem_of_lookup_2 _ (i - S j)%nat). rewrite lookup_drop. by replace (S j + (i - S j))%nat with i by lia. }
      assert (r.1 = key) as Hrk by (apply (key_antisym db); [by eapply key_trans | done]).
      assert (x.1 = key) as Hxk' by (apply (key_antisym db); [done | by rewrite <- Hrk]).
      pose proof (Hlone i j x r Hi Hj Hxk' Hrk). lia.
  - rewrite Hlaw. exists c0, key, MDB_LAST, (rev (records db)). split; [done |]. rewrite length_rev, take_ge by lia. split; [| split; [done |]].
    + cbn. destruct (records db) as [|x rs] eqn:Hrs; [done |]. destruct (rev (x :: rs)) eqn:Hrev; [| by rewrite decide_False].
      apply (f_equal length) in Hrev. by rewrite length_rev in Hrev.
    + intros x Hx _. apply list_elem_of_In, in_rev. rewrite rev_involutive. by apply list_elem_of_In.
Qed.

(** The whole of [MdbScanIndex], backward. *)
Lemma scan_index_back t key i n start s cfg db :
  kind_of i = ScanLe → read_index t = Some (Some (cfg, db)) → usable cfg db → lone_key db key → computeResult n = FILTER_RES_NORMAL →
  ∃ b n' s', MdbScanIndex fuel ix t key i n start s [] = Some (inr (b, n'), s', []) ∧
    computeResult n' = FILTER_RES_NORMAL ∧ or_ok n' ∧ (iPartialCandidates s = true → iPartialCandidates s' = true) ∧
    (iPartialCandidates s' = false → ∀ r, r ∈ records db → key_leb db r.1 key = true →
       start <= MDBDBTToEntryId r.2 → node_allows n' (MDBDBTToEntryId r.2)) ∧
    (iMaxIndexScan n = 0 → is_Some (candidates n')).
Proof.
  intros Hk Hread (Hfuel & Hsize & _) Hlone Hn. destruct (acquire_read _ s _ Hread) as [Hacq Hdb]. specialize (Hdb _ _ eq_refl).
  unfold MdbScanIndex. unfold rbind at 1. rewrite Hacq. cbn [fmap option_fmap option_map fst]. unfold rbind at 1. rewrite new_list_run.
  unfold VmDirMDBIndexGetDBi. rewrite Hdb. unfold rbind at 1, rret at 1. rewrite Hk. cbn [bool_decide andb].
  rewrite bool_decide_eq_false_2 by done. cbn [andb].
  rewrite run_backend. unfold rbind at 1, rget. destruct (scan_start_back db key (mdb_cursor_open db) Hlone) as (c & ck & op & l & -> & Ht & Hl & Hin).
  assert (length l <= length (records db))%nat as Hll by (rewrite <- Hl at 1; rewrite length_rev, length_take; lia).
  destruct (scan_loop_back db key (iMaxIndexScan n) (iMaxScanForSizeLimit s) start fuel c ck op (CANDS [] 10 true false) s l)
    as (b & o & s' & Hrun & Hpart & Ho); [done | done | lia | unfold roomy; change (csize (CANDS [] 10 true false)) with 0; repeat split; try done; lia |].
  unfold rbind. rewrite Hrun. do 3 eexists. split; [reflexivity |]. cbn [fst snd]. split; [done |]. destruct o as [cand|].
  - destruct Ho as (Hp & Hs & Hids). split; [split; [by unfold cands_ok; rewrite Hs | done] |]. split; [done |]. split; [| by eexists].
    intros Hnp r Hr Hle Hstart. unfold node_allows. cbn. rewrite Hn, Hp, (Hids Hnp). cbn.
    unfold ids_from. apply list_elem_of_filter. split; [done |]. apply list_elem_of_fmap. exists r.2. split; [done |]. apply list_elem_of_fmap. exists r. split; [done |].
    by apply Hin.
  - split; [done |]. split; [done |]. split; [| lia]. intros _ r _ _ _. unfold node_allows. cbn. by rewrite Hn.
Qed.

End Scans.

(** ** Entry ids in four bytes *)

Lemma dbt_be v a : bytes v → (length v <= 8)%nat → 0 <= a < 2 ^ (64 - 8 * Z.of_nat (length v)) →
  fold_left (λ a b, Z.lor (u64 (Z.shiftl a 8)) b) v a = a * 256 ^ Z.of_nat (length v) + be v.
Proof.
  intros Hb. revert a. induction Hb as [|b v Hb Hv IH]; intros a Hlen Ha; cbn [fold_left length] in *; [cbn; lia |].
  unfold is_byte in Hb.
  assert (0 <= a < 2 ^ 56) as Ha'.
  { split; [lia |]. eapply Z.lt_le_trans; [apply Ha |]. apply Z.pow_le_mono_r; lia. }
  assert (Z.lor (u64 (Z.shiftl a 8)) b = a * 256 + b) as Hlor.
  { unfold u64. rewrite Z.shiftl_mul_pow2 by lia. rewrite Z.mod_small by lia. change (2 ^ 8) with 256.
    rewrite <- (Z.mod_small b 256) at 1 by lia. rewrite Z.lor_comm. apply Z.bits_inj'. intros k Hk. rewrite Z.lor_spec. change 256 with (2 ^ 8).
    destruct (decide (k < 8)).
    - rewrite Z.mod_pow2_bits_low by lia. rewrite Z.mul_pow2_bits_low by lia. rewrite orb_false_r.
      rewrite <- (Z.mod_pow2_bits_low (a * 2 ^ 8 + b) 8 k) by lia. rewrite Z.add_comm, Z_mod_plus_full. by rewrite Z.mod_pow2_bits_low by lia.
    - rewrite Z.mod_pow2_bits_high by lia. cbn [orb].
      replace (Z.testbit (a * 2 ^ 8 + b) k) with (Z.testbit ((a * 2 ^ 8 + b) / 2 ^ 8) (k - 8)) by (rewrite Z.div_pow2_bits by lia; f_equal; lia).
      rewrite Z.div_add_l, (Z.div_small b) by lia. rewrite Z.add_0_r, Z.mul_pow2_bits by lia. done. }
  rewrite Hlor, IH; [| lia |].
  - rewrite be_cons, Nat2Z.inj_succ, Z.pow_succ_r by lia. lia.
  - assert (2 ^ (64 - 8 * Z.of_nat (length v)) = 2 ^ (64 - 8 * Z.of_nat (S (length v))) * 256) as ->; [| lia].
    change 256 with (2 ^ 8). rewrite <- Z.pow_add_r by lia. f_equal. lia.
Qed.

Lemma entry_id_bytes eId : MDBDBTToEntryId (MDBEntryIdToDBT eId) = eId mod 2 ^ 32.
Proof.
  unfold MDBDBTToEntryId, MDBEntryIdToDBT, BE_REAL_EID_SIZE. rewrite dbt_be; [| apply enc_bytes | rewrite enc_length; lia | rewrite enc_length; cbn; lia].
  rewrite be_enc, Z.mul_0_l. reflexivity.
Qed.

(** An entry id survives its four bytes exactly when it is below [2^32],
    although ids have 64 bits and the sequence has no such bound: from then on
    the index of an entry leads to another one. *)
Theorem entry_id_roundtrip eId : 0 <= eId < 2 ^ 64 → (MDBDBTToEntryId (MDBEntryIdToDBT eId) = eId ↔ eId < 2 ^ 32).
Proof.
  intros He. rewrite entry_id_bytes. split; [intros <-; apply Z.mod_pos_bound; lia | intros; apply Z.mod_small; lia].
Qed.

Lemma entry_id_roundtrip_witness : MDBDBTToEntryId (MDBEntryIdToDBT 100) = 100 ↔ 100 < 2 ^ 32.
Proof. apply (entry_id_roundtrip 100). lia. Defined.

(** ** What a test that succeeds says of the values *)

Section Found.
Context (compare : cstr → cstr → bool → Z).

Lemma test_values_true d p vs : test_values d p vs = FILTER_RES_TRUE → ∃ v v', v ∈ vs ∧ norm_value d v = Some v' ∧ p v' = true.
Proof.
  induction vs as [|v vs IH]; cbn; [done |]. destruct (norm_value d v) as [v'|] eqn:Hn; [| done]. destruct (p v') eqn:Hp.
  - intros _. exists v, v'. split; [by left | done].
  - intros H. destruct (IH H) as (w & w' & Hw & ?). exists w, w'. split; [by right | done].
Qed.

Lemma test_ava_true a d m f e :
  test_ava compare a d m f e = FILTER_RES_TRUE →
  ∃ t vs v v', (t, vs) ∈ e_attrs e ∧ same_type compare (ava_type a) t = true ∧ v ∈ vs ∧ norm_value d v = Some v' ∧
    match f with Some f => f m v' (ava_value a) = true | None => norm_or_raw (ava_value a) = norm_or_raw v' end.
Proof.
  unfold test_ava. destruct (list_find _ (e_attrs e)) as [[k [t vs]]|] eqn:Hf; [| done]. apply list_find_Some in Hf as (Hk & Ht & _).
  intros (v & v' & Hv & Hn & Hm)%test_values_true. exists t, vs, v, v'. split; [by eapply list_elem_of_lookup_2 |]. split; [by apply Is_true_true |]. split; [done |]. split; [done |].
  destruct f; [done |]. by apply bool_decide_eq_true in Hm.
Qed.

Lemma substring_value_true ss v :
  test_substring_value ss v = Some true →
  (length (bv_val (ss_initial ss)) ≠ 0%nat → norm_or_raw (ss_initial ss) `prefix_of` v) ∧
  (length (bv_val (ss_final ss)) ≠ 0%nat → norm_or_raw (ss_final ss) `suffix_of` v).
Proof.
  unfold test_substring_value. destruct (if negb _ then _ else _) as [r|]; [| done]. cbn [mbind option_bind]. intros [= H].
  apply andb_true_iff in H as [[H1 H2]%andb_true_iff _]. split; intros Hne; apply Nat.eqb_neq in Hne; rewrite Hne in *; cbn in *.
  - apply andb_true_iff in H1 as [_ H1]. unfold starts_with in H1. apply andb_true_iff in H1 as [_ H1%bool_decide_eq_true]. rewrite <- H1. apply prefix_take.
  - apply andb_true_iff in H2 as [_ H2]. unfold ends_with in H2. apply andb_true_iff in H2 as [_ H2%bool_decide_eq_true].
    exists (take (length v - length (norm_or_raw (ss_final ss))) v). rewrite <- H2 at 2. by rewrite take_drop.
Qed.

Lemma substring_attrs_true d ss attrs :
  test_substring_attrs compare d ss attrs = Some FILTER_RES_TRUE →
  ∃ t vs v v', (t, vs) ∈ attrs ∧ same_type compare (ss_type ss) t = true ∧ v ∈ vs ∧ norm_value d v = Some v' ∧ test_substring_value ss (norm_or_raw v') = Some true.
Proof.
  assert (∀ vs r, test_substring_values d ss vs = Some (Some r) → r = FILTER_RES_TRUE →
    ∃ v v', v ∈ vs ∧ norm_value d v = Some v' ∧ test_substring_value ss (norm_or_raw v') = Some true) as Hvals.
  { induction vs as [|v vs IH]; intros r; cbn; [done |]. destruct (norm_value d v) as [v'|] eqn:Hn; [| by intros [= <-]].
    destruct (test_substring_value ss (norm_or_raw v')) as [[]|] eqn:Ht; cbn; [intros _ _; exists v, v'; split; [by left | done] | | done].
    intros H Hr. destruct (IH r H Hr) as (w & w' & Hw & ?). exists w, w'. split; [by right | done]. }
  induction attrs as [|[t vs] attrs IH]; cbn; [done |]. destruct (same_type compare (ss_type ss) t) eqn:Ht.
  - destruct (test_substring_values d ss vs) as [[r|]|] eqn:Hv; cbn; [| | done].
    + intros [= ->]. destruct (Hvals vs _ Hv eq_refl) as (v & v' & ?). exists t, vs, v, v'. split; [by left | done].
    + intros H. destruct (IH H) as (t' & vs' & v & v' & Hin & ?). exists t', vs', v, v'. split; [by right | done].
  - intros H. destruct (IH H) as (t' & vs' & v & v' & Hin & ?). exists t', vs', v, v'. split; [by right | done].
Qed.

End Found.

(** ** The promise to the search *)

Section Promise.
Context {lmdb : Lmdb} {laws : LmdbLaws}.
Context (fuel : nat) (ix : index_env) (compare : cstr → cstr → bool → Z) (entry_of : Z → dwerror + entry).
Context (ids_ok : ∀ id e, entry_of id = inr e → 0 <= id < 2 ^ 32).
Implicit Types (db : DB) (s : search_state) (n : filter_node).

(** The index has the values of all entries, forwards or backwards. *)
Definition covers (key : list Z → list Z) (t : cstr) (d : at_desc) db : Prop :=
  ∀ id e t' vs v v', entry_of id = inr e → (t', vs) ∈ e_attrs e → same_type compare t t' = true → v ∈ vs → norm_value d v = Some v' →
    (key (norm_or_raw v'), MDBEntryIdToDBT id) ∈ records db.

Definition fwd_key (v : list Z) : list Z := BE_INDEX_KEY_TYPE_FWD :: v.
Definition rev_key (v : list Z) : list Z := BE_INDEX_KEY_TYPE_REV :: rev v.

Definition covers_dn db : Prop :=
  ∀ id e dn, entry_of id = inr e → e_dn_norm e = Some dn → (rev_key dn, MDBEntryIdToDBT id) ∈ records db.

(** In the order of the keys the extensions of a key are behind it in one run. *)
Definition prefix_order db : Prop :=
  (∀ x y, key_leb db x (x ++ y) = true) ∧
  ∀ key a b, key_leb db key a = true → key_leb db a b = true → key `prefix_of` b → key `prefix_of` a.

(** The attribute has no index, or one with the property. *)
Definition on_index (t : cstr) (P : DB → Prop) : Prop :=
  match read_index ix t with
  | None => False
  | Some None => True
  | Some (Some (cfg, db)) => usable fuel cfg db ∧ P db
  end.

(** The items for which the promise is kept: the index is complete, and its
    order is that of the matching rule; for less or equal no two records have the
    value itself, of which the scan only meets the first ([le_scan_misses]). *)
Definition mdb_exact (i : filter_item) : Prop :=
  match i with
  | FEquality a => ∃ d, ava_desc a = Some d ∧ on_index (ava_type a) (λ db, covers fwd_key (ava_type a) d db ∧
      ∀ f v, equalityCompare d = Some f → f VDIR_SCHEMA_MATCH_EQUAL v (ava_value a) = true → norm_or_raw v = norm_or_raw (ava_value a))
  | FGe a => ∃ d, ava_desc a = Some d ∧ on_index (ava_type a) (λ db, covers fwd_key (ava_type a) d db ∧
      ∀ f v, orderingCompare d = Some f → f VDIR_SCHEMA_MATCH_GE v (ava_value a) = true →
        key_leb db (fwd_key (norm_or_raw (ava_value a))) (fwd_key (norm_or_raw v)) = true)
  | FLe a => on_index (ava_type a) (λ db, ∃ d, ava_desc a = Some d ∧ covers fwd_key (ava_type a) d db ∧
      lone_key db (fwd_key (norm_or_raw (ava_value a))) ∧
      ∀ f v, orderingCompare d = Some f → f VDIR_SCHEMA_MATCH_LE v (ava_value a) = true →
        key_leb db (fwd_key (norm_or_raw v)) (fwd_key (norm_or_raw (ava_value a))) = true)
  | FSubstrings ss =>
      if (length (bv_val (ss_initial ss)) =? 0)%nat then
        if (length (bv_val (ss_final ss)) =? 0)%nat then length (ss_any ss) ≠ 0%nat
        else if compare (ss_type ss) ATTR_DN false =? 0 then on_index (ss_type ss) (λ db, covers_dn db ∧ prefix_order db)
        else ∃ d, ss_desc ss = Some d ∧ on_index (ss_type ss) (λ db, covers rev_key (ss_type ss) d db ∧ prefix_order db)
      else compare (ss_type ss) ATTR_DN false ≠ 0 ∧
           ∃ d, ss_desc ss = Some d ∧ on_index (ss_type ss) (λ db, covers fwd_key (ss_type ss) d db ∧ prefix_order db)
  | FOneLevel p => ∃ pid, (∀ s, VmDirMDBDNToEntryId ix p s [] = Some (inr pid, s, [])) ∧
      on_index ATTR_PARENT_ID (λ db, ∀ id e, entry_of id = inr e → e_parent_norm e = Some (default [] (bvnorm_val p)) →
        (MDBEntryIdToDBT pid, MDBEntryIdToDBT id) ∈ records db)
  | _ => True
  end.

(** The items that get a list. *)
Definition mdb_indexed (i : filter_item) : Prop :=
  match i with
  | FEquality a | FGe a | FLe a => ∃ x, read_index ix (ava_type a) = Some (Some x)
  | FSubstrings ss => (length (bv_val (ss_initial ss)) ≠ 0%nat ∨ length (bv_val (ss_final ss)) ≠ 0%nat) ∧ ∃ x, read_index ix (ss_type ss) = Some (Some x)
  | FOneLevel _ => ∃ x, read_index ix ATTR_PARENT_ID = Some (Some x)
  | _ => False
  end.

(** The conclusion of the promise, for entries that pass [T]. *)
Definition kept (T : entry → Prop) (indexed : Prop) (m : RM search_state (bool * filter_node)) n start s : Prop :=
  ∃ b n' s', m s [] = Some (inr (b, n'), s', []) ∧
    computeResult n' = FILTER_RES_NORMAL ∧ or_ok n' ∧ (iPartialCandidates s = true → iPartialCandidates s' = true) ∧
    (iPartialCandidates s' = false → ∀ id e, entry_of id = inr e → start <= id → T e → node_allows n' id) ∧
    (indexed → iMaxIndexScan n = 0 → is_Some (candidates n')).

(** The scan of an index that misses no record that is [wanted]. *)
Lemma found_kept (wanted : DB → list Z → Prop) T P t key i n start s :
  on_index t P → computeResult n = FILTER_RES_NORMAL → or_ok n →
  (iPartialCandidates s = false → ∀ id e, entry_of id = inr e → start <= id → T e → node_allows n id) →
  (∀ cfg db, read_index ix t = Some (Some (cfg, db)) → usable fuel cfg db → P db →
     ∃ b n' s', MdbScanIndex fuel ix t key i n start s [] = Some (inr (b, n'), s', []) ∧
       computeResult n' = FILTER_RES_NORMAL ∧ or_ok n' ∧ (iPartialCandidates s = true → iPartialCandidates s' = true) ∧
       (iPartialCandidates s' = false → ∀ r, r ∈ records db → wanted db r.1 →
          start <= MDBDBTToEntryId r.2 → node_allows n' (MDBDBTToEntryId r.2)) ∧
       (iMaxIndexScan n = 0 → is_Some (candidates n'))) →
  (∀ db, P db → ∀ id e, entry_of id = inr e → T e → ∃ k', (k', MDBEntryIdToDBT id) ∈ records db ∧ wanted db k') →
  kept T (∃ x, read_index ix t = Some (Some x)) (MdbScanIndex fuel ix t key i n start) n start s.
Proof.
  unfold on_index. intros Hon Hn Hok Hbefore Hscan HP. destruct (read_index ix t) as [[[cfg db]|]|] eqn:Hread; [| | done].
  - destruct Hon as [Hus HPdb]. specialize (HP db HPdb).
    destruct (Hscan cfg db eq_refl Hus HPdb) as (b & n' & s' & Hrun & Hn' & Hok' & Hpart & Hall & Hl).
    exists b, n', s'. split; [done |]. split; [done |]. split; [done |]. split; [done |]. split; [| done].
    intros Hnp id e He Hstart HT. destruct (HP id e He HT) as (k' & Hk' & Hw). pose proof (ids_ok id e He) as Hid.
    assert (MDBDBTToEntryId (MDBEntryIdToDBT id) = id) as Hrt by (rewrite entry_id_bytes; by apply Z.mod_small).
    specialize (Hall Hnp _ Hk' Hw). cbn [snd] in Hall. rewrite Hrt in Hall. by apply Hall.
  - destruct (acquire_read ix t s None Hread) as [Hacq _]. exists true, n, s. split; [| split; [done |]; split; [done |]; split; [done |]; split; [done |]; by intros [x ?]].
    unfold MdbScanIndex, rbind. by rewrite Hacq.
Qed.

Lemma scan_kept T P t key i n start s :
  on_index t P → kind_of i ≠ ScanLe → computeResult n = FILTER_RES_NORMAL → or_ok n →
  (iPartialCandidates s = false → ∀ id e, entry_of id = inr e → start <= id → T e → node_allows n id) →
  (∀ db, P db → convex (kind_of i) db key ∧
     ∀ id e, entry_of id = inr e → T e → ∃ k', (k', MDBEntryIdToDBT id) ∈ records db ∧ key_leb db key k' = true ∧ past_key (kind_of i) key k' = false) →
  kept T (∃ x, read_index ix t = Some (Some x)) (MdbScanIndex fuel ix t key i n start) n start s.
Proof.
  intros Hon Hk Hn Hok Hbefore HP.
  apply (found_kept (λ db k', key_leb db key k' = true ∧ past_key (kind_of i) key k' = false) T P); [done | done | done | done | |].
  - intros cfg db Hread Hus HPdb. destruct (HP db HPdb) as [Hconv _].
    destruct (scan_index_run fuel ix t key i n start s cfg db Hk Hread Hus Hconv Hn) as (b & n' & s' & Hrun & Hn' & Hok' & Hpart & Hall & Hl).
    exists b, n', s'. do 4 (split; [done |]). split; [| done]. intros Hnp r Hr [Hle Hpast]. by apply Hall.
  - intros db HPdb id e He HT. destruct (HP db HPdb) as [_ Hrec]. by eapply Hrec.
Qed.

(** The wrapper around the errors and the allocation of the key change nothing. *)
Lemma kept_backend T I m n start s : kept T I m n start s → kept T I (backend_error m) n start s.
Proof.
  intros (b & n' & s' & Hrun & H). exists b, n', s'. split; [| done]. unfold backend_error, rbind, rtry. by rewrite Hrun.
Qed.

Lemma kept_alloc T I len m n start s : kept T I m n start s → kept T I (VmDirAllocateMemory (Z.of_nat len + 1) ;;; m) n start s.
Proof.
  intros (b & n' & s' & Hrun & H). exists b, n', s'. split; [| done]. unfold VmDirAllocateMemory. rewrite (proj2 (Z.eqb_neq _ _)) by lia. exact Hrun.
Qed.

Lemma prefix_found db key k' : prefix_order db → key `prefix_of` k' → key_leb db key k' = true ∧ past_key ScanPrefix key k' = false.
Proof. intros [Hle _] [y ->]. split; [apply Hle |]. cbn. rewrite bool_decide_eq_true_2; [done | by exists y]. Qed.

Lemma prefix_convex db key : prefix_order db → convex ScanPrefix db key.
Proof.
  intros [_ Hc] a b Ha Hb. cbn. rewrite !negb_false_iff, !bool_decide_eq_true. by apply Hc.
Qed.

Lemma rev_key_prefix x v : x `suffix_of` v → rev_key x `prefix_of` rev_key v.
Proof. intros [y ->]. unfold rev_key. rewrite rev_app_distr. exists (rev y). done. Qed.


(** The items of each kind. *)
Lemma equality_kept a n start s :
  mdb_exact (FEquality a) → computeResult n = FILTER_RES_NORMAL → or_ok n →
  (iPartialCandidates s = false → ∀ id e, entry_of id = inr e → start <= id → test_item compare n (FEquality a) e = Some FILTER_RES_TRUE → node_allows n id) →
  kept (λ e, test_item compare n (FEquality a) e = Some FILTER_RES_TRUE) (mdb_indexed (FEquality a)) (VmDirMDBGetCandidates fuel ix (FEquality a) n start) n start s.
Proof.
  intros (d & Hd & Hon) Hn Hok Hbefore. apply kept_backend, kept_alloc. eapply scan_kept; [exact Hon | done | done | done | done |].
  intros db [Hcov Heq]. split; [apply convex_exact |]. intros id e He Ht. cbn in Ht. unfold TestAvaFilter in Ht. rewrite Hn, Hd in Ht. injection Ht as Ht.
  apply test_ava_true in Ht as (t & vs & v & v' & Hin & Hty & Hv & Hnv & Hm). exists (fwd_key (norm_or_raw v')). split; [by eapply Hcov |].
  assert (norm_or_raw v' = norm_or_raw (ava_value a)) as -> by (destruct (equalityCompare d) as [f|]; [by eapply Heq | done]).
  split; [apply key_refl |]. cbn. by rewrite bool_decide_eq_true_2.
Qed.

Lemma ge_kept a n start s :
  mdb_exact (FGe a) → computeResult n = FILTER_RES_NORMAL → or_ok n →
  (iPartialCandidates s = false → ∀ id e, entry_of id = inr e → start <= id → test_item compare n (FGe a) e = Some FILTER_RES_TRUE → node_allows n id) →
  kept (λ e, test_item compare n (FGe a) e = Some FILTER_RES_TRUE) (mdb_indexed (FGe a)) (VmDirMDBGetCandidates fuel ix (FGe a) n start) n start s.
Proof.
  intros (d & Hd & Hon) Hn Hok Hbefore. apply kept_backend, kept_alloc. eapply scan_kept; [exact Hon | done | done | done | done |].
  intros db [Hcov Hge]. split; [apply convex_ge |]. intros id e He Ht. cbn in Ht. unfold TestAvaFilter in Ht. rewrite Hn, Hd in Ht.
  destruct (orderingCompare d) as [f|]; [| done]. injection Ht as Ht.
  apply test_ava_true in Ht as (t & vs & v & v' & Hin & Hty & Hv & Hnv & Hm). exists (fwd_key (norm_or_raw v')). split; [by eapply Hcov |]. split; [by eapply Hge | done].
Qed.

Lemma le_kept a n start s :
  mdb_exact (FLe a) → computeResult n = FILTER_RES_NORMAL → or_ok n →
  (iPartialCandidates s = false → ∀ id e, entry_of id = inr e → start <= id → test_item compare n (FLe a) e = Some FILTER_RES_TRUE → node_allows n id) →
  kept (λ e, test_item compare n (FLe a) e = Some FILTER_RES_TRUE) (mdb_indexed (FLe a)) (VmDirMDBGetCandidates fuel ix (FLe a) n start) n start s.
Proof.
  intros Hon Hn Hok Hbefore. apply kept_backend, kept_alloc. cbn [mdb_exact] in Hon.
  eapply (found_kept (λ db k', key_leb db k' (fwd_key (norm_or_raw (ava_value a))) = true)); [exact Hon | done | done | done | |].
  - intros cfg db Hread Hus (d & _ & _ & Hlone & _). by eapply scan_index_back.
  - intros db (d & Hd & Hcov & _ & Hle) id e He Ht. cbn in Ht. unfold TestAvaFilter in Ht. rewrite Hn, Hd in Ht.
    destruct (orderingCompare d) as [f|]; [| done]. injection Ht as Ht.
    apply test_ava_true in Ht as (t & vs & v & v' & Hin & Hty & Hv & Hnv & Hm). exists (fwd_key (norm_or_raw v')). split; [by eapply Hcov | by eapply Hle].
Qed.

Lemma substrings_kept ss n start s :
  mdb_exact (FSubstrings ss) → computeResult n = FILTER_RES_NORMAL → or_ok n →
  (iPartialCandidates s = false → ∀ id e, entry_of id = inr e → start <= id → test_item compare n (FSubstrings ss) e = Some FILTER_RES_TRUE → node_allows n id) →
  kept (λ e, test_item compare n (FSubstrings ss) e = Some FILTER_RES_TRUE) (mdb_indexed (FSubstrings ss)) (VmDirMDBGetCandidates fuel ix (FSubstrings ss) n start) n start s.
Proof.
  intros Hex Hn Hok Hbefore. apply kept_backend. cbn [mdb_exact] in Hex.
  assert (∀ T (I I' : Prop) m, kept T I' m n start s → (I → I') → kept T I m n start s) as Hmono.
  { intros T I I' m (b & n' & s' & H1 & H2 & H3 & H4 & H5 & H6) HI. exists b, n', s'. repeat split; try done. intros Hi. apply H6. by apply HI. }
  destruct (length (bv_val (ss_initial ss)) =? 0)%nat eqn:Hi; cbn [negb].
  - destruct (length (bv_val (ss_final ss)) =? 0)%nat eqn:Hf; cbn [negb].
    + apply Nat.eqb_neq in Hex. rewrite Hex. cbn [negb]. exists true, n, s. repeat split; try done. apply Nat.eqb_eq in Hi, Hf. intros [[? | ?] _]; done.
    + apply Nat.eqb_neq in Hf. apply kept_alloc. destruct (compare (ss_type ss) ATTR_DN false =? 0) eqn:Hdn.
      * eapply Hmono; [eapply scan_kept; [exact Hex | done | done | done | done |] | by intros [_ ?]].
        intros db [Hcov Hord]. split; [by apply prefix_convex |]. intros id e He Ht. cbn in Ht. unfold TestSubstringsFilter in Ht. rewrite Hn, Hdn in Ht.
        destruct (e_dn_norm e) as [dn|] eqn:Hdne; [| done]. injection Ht as Ht. destruct (_ && ends_with _ _) eqn:Hends; [| done]. apply andb_true_iff in Hends as [_ Hends].
        exists (rev_key dn). split; [by eapply Hcov |]. apply prefix_found; [done |]. apply rev_key_prefix. unfold ends_with in Hends.
        apply andb_true_iff in Hends as [_ Hends%bool_decide_eq_true]. exists (take (length dn - length (norm_or_raw (ss_final ss))) dn). rewrite <- Hends at 2. by rewrite take_drop.
      * destruct Hex as (d & Hd & Hon). eapply Hmono; [eapply scan_kept; [exact Hon | done | done | done | done |] | by intros [_ ?]].
        intros db [Hcov Hord]. split; [by apply prefix_convex |]. intros id e He Ht. cbn in Ht. unfold TestSubstringsFilter in Ht. rewrite Hn, Hdn, Hd in Ht.
        apply substring_attrs_true in Ht as (t & vs & v & v' & Hin & Hty & Hv & Hnv & Hm). exists (rev_key (norm_or_raw v')). split; [by eapply Hcov |].
        apply prefix_found; [done |]. apply rev_key_prefix. by apply (substring_value_true ss).
  - apply Nat.eqb_neq in Hi. apply kept_alloc. destruct Hex as (Hdn & d & Hd & Hon). apply Z.eqb_neq in Hdn.
    eapply Hmono; [eapply scan_kept; [exact Hon | done | done | done | done |] | by intros [_ ?]].
    intros db [Hcov Hord]. split; [by apply prefix_convex |]. intros id e He Ht. cbn in Ht. unfold TestSubstringsFilter in Ht. rewrite Hn, Hdn, Hd in Ht.
    apply substring_attrs_true in Ht as (t & vs & v & v' & Hin & Hty & Hv & Hnv & Hm). exists (fwd_key (norm_or_raw v')). split; [by eapply Hcov |].
    apply prefix_found; [done |]. apply substring_value_true in Hm as [Hm _]. destruct (Hm Hi) as [y ->]. by exists y.
Qed.

Lemma onelevel_kept p n start s :
  mdb_exact (FOneLevel p) → computeResult n = FILTER_RES_NORMAL → or_ok n →
  (iPartialCandidates s = false → ∀ id e, entry_of id = inr e → start <= id → test_item compare n (FOneLevel p) e = Some FILTER_RES_TRUE → node_allows n id) →
  kept (λ e, test_item compare n (FOneLevel p) e = Some FILTER_RES_TRUE) (mdb_indexed (FOneLevel p)) (VmDirMDBGetCandidates fuel ix (FOneLevel p) n start) n start s.
Proof.
  intros (pid & Hpid & Hon) Hn Hok Hbefore. apply kept_backend.
  eapply (scan_kept _ _ _ (MDBEntryIdToDBT pid) (FOneLevel p)) in Hon; [| done | done | done | exact Hbefore |].
  - destruct Hon as (b & n' & s' & Hrun & H). exists b, n', s'. split; [| exact H]. unfold rbind. by rewrite Hpid.
  - intros db Hcov. split; [apply convex_exact |]. intros id e He Ht. cbn in Ht. injection Ht as Ht. unfold TestOneLevelFilter in Ht. rewrite Hn in Ht.
    destruct (e_dn_norm e); [| done]. destruct (e_parent_norm e) as [q|] eqn:Hq; [| done]. destruct (bool_decide _) eqn:Hb; [| done]. apply bool_decide_eq_true in Hb.
    exists (MDBEntryIdToDBT pid). split; [apply (Hcov id e He); congruence |]. split; [apply key_refl |]. cbn. by rewrite bool_decide_eq_true_2.
Qed.

(** The LMDB backend keeps the promise the search relies on: for every item
    whose attribute has no index, or an index that covers the entries and is
    ordered like the matching rule, the scan succeeds and, unless it stops at
    the size limit, excludes no entry that passes the item; equality, greater or
    equal, less or equal, substring and one-level items with an index get a
    list. *)
#[export] Instance mdb_laws : CandidateLaws compare entry_of mdb_exact mdb_indexed (source := mdb_source fuel ix).
Proof.
  constructor.
  - intros a s (d & _ & Hon). unfold on_index in Hon. destruct (read_index ix (ava_type a)) as [o|] eqn:Hr; [| done].
    destruct (acquire_read ix _ s _ Hr) as [Hacq _]. eexists. cbn. unfold rbind. by rewrite Hacq.
  - intros i n start s Hex Hu Hp Hn Hok Hbefore. destruct i as [a | a | a | ss | t | p |]; cbn [pfnBEGetCandidates mdb_source].
    + by apply equality_kept.
    + by apply ge_kept.
    + by apply le_kept.
    + by apply substrings_kept.
    + by destruct (Hp t).
    + by apply onelevel_kept.
    + done.
Qed.

End Promise.

(** ** The order of the keys *)

(** The default order of LMDB: bytes first, then the length. *)
Fixpoint lex_le (x y : list Z) : bool :=
  match x, y with
  | [], _ => true
  | _ :: _, [] => false
  | a :: x, b :: y => (a <? b) || ((a =? b) && lex_le x y)
  end.

Lemma lex_refl x : lex_le x x = true.
Proof. induction x as [|a x IH]; [done |]. cbn. rewrite Z.eqb_refl, IH. by rewrite orb_true_r. Qed.

Lemma lex_trans x y z : lex_le x y = true → lex_le y z = true → lex_le x z = true.
Proof.
  revert y z. induction x as [|a x IH]; intros [|b y] [|c z] H1 H2; cbn in *; try done. specialize (IH y z).
  destruct (lex_le x y), (lex_le y z); try (rewrite IH by done); lia.
Qed.

Lemma lex_antisym x y : lex_le x y = true → lex_le y x = true → x = y.
Proof.
  revert y. induction x as [|a x IH]; intros [|b y] H1 H2; cbn in *; try done. specialize (IH y).
  assert (a = b) as -> by lia. rewrite Z.ltb_irrefl, Z.eqb_refl in H1, H2. cbn in H1, H2. by rewrite IH.
Qed.

Lemma lex_total x y : lex_le x y = true ∨ lex_le y x = true.
Proof. revert y. induction x as [|a x IH]; intros [|b y]; cbn; try (by auto). specialize (IH y). destruct (lex_le x y), (lex_le y x); lia. Qed.

Lemma lex_prefix x y : lex_le x (x ++ y) = true.
Proof. induction x as [|a x IH]; [done |]. cbn. rewrite Z.eqb_refl, IH. by rewrite orb_true_r. Qed.

Lemma lex_prefix_run key a b : lex_le key a = true → lex_le a b = true → key `prefix_of` b → key `prefix_of` a.
Proof.
  intros H1 H2 [z ->]. revert a H1 H2. induction key as [|c key IH]; intros [|x a] H1 H2; cbn in *; [apply prefix_nil.. | done |].
  assert (x = c) as -> by lia. rewrite Z.ltb_irrefl, Z.eqb_refl in H1, H2. cbn in H1, H2. by apply prefix_cons, IH.
Qed.

(** For keys of one length the compare function of the numeric indices is the
    default order. *)
Lemma memcmp_lex x y : length x = length y → memcmp_le x y = lex_le x y.
Proof. revert y. induction x as [|a x IH]; intros [|b y] Hl; try done. cbn in *. rewrite IH; [done | lia]. Qed.

Lemma int_le_cases x y :
  _MDBIntegerCompareFunction_le x y = true ↔ (length x < length y)%nat ∨ (length x = length y ∧ lex_le x y = true).
Proof.
  unfold _MDBIntegerCompareFunction_le. destruct (Nat.ltb_spec (length x) (length y)); [by split; [left |] |].
  destruct (Nat.ltb_spec (length y) (length x)); [split; [done | lia] |]. rewrite memcmp_lex by lia. split; [intros Hle; right; split; [lia | done] | intros [? | [_ ?]]; [lia | done]].
Qed.

(** The number that digits stand for. *)
Definition decimal (ds : list Z) : Z := fold_left (λ a d, a * 10 + (d - 48)) ds 0.
Definition canonical (ds : list Z) : Prop := Forall (λ d, 48 <= d <= 57) ds ∧ ((1 < length ds)%nat → head ds ≠ Some 48).

Lemma decimal_acc ds a : fold_left (λ a d, a * 10 + (d - 48)) ds a = a * 10 ^ Z.of_nat (length ds) + decimal ds.
Proof.
  unfold decimal. revert a. induction ds as [|d ds IH]; intros a; cbn [fold_left length]; [cbn; lia |].
  rewrite IH, (IH (0 * 10 + (d - 48))), Nat2Z.inj_succ, Z.pow_succ_r by lia. lia.
Qed.

Lemma decimal_cons d ds : decimal (d :: ds) = (d - 48) * 10 ^ Z.of_nat (length ds) + decimal ds.
Proof. unfold decimal at 1. cbn [fold_left]. by rewrite decimal_acc. Qed.

Lemma decimal_range ds : Forall (λ d, 48 <= d <= 57) ds → 0 <= decimal ds < 10 ^ Z.of_nat (length ds).
Proof.
  induction 1 as [|d ds Hd _ IH]; [cbn; lia |]. rewrite decimal_cons. cbn [length]. rewrite Nat2Z.inj_succ, Z.pow_succ_r by lia. nia.
Qed.

Lemma decimal_lex x y : length x = length y → Forall (λ d, 48 <= d <= 57) x → Forall (λ d, 48 <= d <= 57) y → lex_le x y = true ↔ decimal x <= decimal y.
Proof.
  intros Hl Hx. revert y Hl. induction Hx as [|a x Ha Hx IH]; intros [|b y] Hl Hy; try done. apply Forall_cons in Hy as [Hb Hy]. cbn in Hl. injection Hl as Hl.
  cbn [lex_le]. rewrite !decimal_cons, <- Hl. specialize (IH y Hl Hy). pose proof (decimal_range x Hx) as H1. pose proof (decimal_range y Hy) as H2. rewrite <- Hl in H2.
  set (p := 10 ^ Z.of_nat (length x)) in *. destruct (Z.ltb_spec a b); [cbn; split; [nia | done] |]. destruct (Z.eqb_spec a b) as [-> | Hne]; cbn.
  - rewrite IH. lia.
  - split; [done | nia].
Qed.

Lemma decimal_shorter x y : canonical x → canonical y → (0 < length x < length y)%nat → decimal x < decimal y.
Proof.
  intros [Hx _] [Hy Hhead] Hl. pose proof (decimal_range x Hx) as H1. destruct y as [|b y]; [cbn in Hl; lia |]. rewrite decimal_cons. apply Forall_cons in Hy as [Hb Hy].
  pose proof (decimal_range y Hy) as H2. assert (b ≠ 48) as Hne by (intros ->; apply Hhead; [cbn in Hl |- *; lia | done]).
  assert (10 ^ Z.of_nat (length x) <= 10 ^ Z.of_nat (length y)) by (apply Z.pow_le_mono_r; cbn in Hl; lia). nia.
Qed.

(** The compare function of the numeric indices orders numbers: of two
    strings of digits without leading zeros it puts the smaller number first, so
    a scan of an index of update sequence numbers from a key on meets exactly
    the numbers that are not smaller.  (It takes the unsigned numbers it says it
    is for: a minus sign only makes a key longer.) *)
Theorem numeric_key_order x y :
  canonical x → canonical y → x ≠ [] → y ≠ [] →
  _MDBIntegerCompareFunction_le x y = true ↔ decimal x <= decimal y.
Proof.
  intros Hx Hy Hnx Hny. rewrite int_le_cases. assert (0 < length x ∧ 0 < length y)%nat as [Hlx Hly] by (destruct x, y; cbn; try done; lia).
  destruct (lt_eq_lt_dec (length x) (length y)) as [[Hlt | Heq] | Hgt].
  - pose proof (decimal_shorter x y Hx Hy ltac:(lia)). lia.
  - destruct Hx as [Hx _], Hy as [Hy _]. rewrite (decimal_lex x y Heq Hx Hy) in *. rewrite <- (decimal_lex x y Heq Hx Hy). split; [intros [? | [_ ?]]; [lia | done] | by right].
  - pose proof (decimal_shorter y x Hy Hx ltac:(lia)). lia.
Qed.

(** 9 and 10 *)
Lemma numeric_key_order_witness : _MDBIntegerCompareFunction_le [57] [49; 48] = true ↔ decimal [57] <= decimal [49; 48].
Proof. apply (numeric_key_order [57] [49; 48]); [split; [repeat constructor; lia | cbn; lia] | split; [repeat constructor; lia | done] | done | done]. Defined.

(** ** Databases as maps and sets *)

Definition int_le := _MDBIntegerCompareFunction_le.

Lemma int_refl x : int_le x x = true.
Proof. apply int_le_cases. right. split; [done | apply lex_refl]. Qed.
Lemma int_trans x y z : int_le x y = true → int_le y z = true → int_le x z = true.
Proof.
  unfold int_le. rewrite !int_le_cases. intros [H1 | [H1 H1']] [H2 | [H2 H2']]; [left; lia.. |]. right. split; [lia | by eapply lex_trans].
Qed.
Lemma int_antisym x y : int_le x y = true → int_le y x = true → x = y.
Proof. unfold int_le. rewrite !int_le_cases. intros [H1 | [H1 H1']] [H2 | [H2 H2']]; [lia.. |]. by apply lex_antisym. Qed.
Lemma int_total x y : int_le x y = true ∨ int_le y x = true.
Proof.
  unfold int_le. rewrite !int_le_cases. destruct (lt_eq_lt_dec (length x) (length y)) as [[? | He] | ?]; [by left; left | | by right; left].
  destruct (lex_total x y); [left | right]; by right.
Qed.

(** A unique database is a map, one with duplicates a set of pairs. *)
Inductive table := UniqueTable (num : bool) (m : gmap (list Z) (list Z)) | DupTable (num : bool) (g : gset (list Z * list Z)).

Definition table_le (t : table) : list Z → list Z → bool :=
  match t with UniqueTable num _ | DupTable num _ => if num then int_le else lex_le end.

Definition table_list (t : table) : list (list Z * list Z) :=
  match t with UniqueTable _ m => map_to_list m | DupTable _ g => elements g end.

(** By key, the records of a key by value. *)
Definition table_order (t : table) (x y : list Z * list Z) : Prop :=
  table_le t x.1 y.1 = true ∧ (x.1 = y.1 → lex_le x.2 y.2 = true).
#[local] Instance table_order_dec t x y : Decision (table_order t x y).
Proof. unfold table_order. apply _. Defined.

Lemma table_refl t x : table_le t x x = true.
Proof. destruct t as [[] ?|[] ?]; cbn; [apply int_refl | apply lex_refl | apply int_refl | apply lex_refl]. Qed.
Lemma table_trans t x y z : table_le t x y = true → table_le t y z = true → table_le t x z = true.
Proof. destruct t as [[] ?|[] ?]; cbn; [apply int_trans | apply lex_trans | apply int_trans | apply lex_trans]. Qed.
Lemma table_antisym t x y : table_le t x y = true → table_le t y x = true → x = y.
Proof. destruct t as [[] ?|[] ?]; cbn; [apply int_antisym | apply lex_antisym | apply int_antisym | apply lex_antisym]. Qed.

#[local] Instance table_order_trans t : Transitive (table_order t).
Proof.
  intros x y z [H1 H2] [H3 H4]. split; [by eapply table_trans |]. intros Hxz. assert (x.1 = y.1) as Hxy by (apply (table_antisym t); [done | by rewrite Hxz]).
  eapply lex_trans; [by apply H2 | apply H4; congruence].
Qed.
#[local] Instance table_order_total t : Total (table_order t).
Proof.
  intros x y. unfold table_order. destruct (decide (x.1 = y.1)) as [-> | Hne].
  - destruct (lex_total x.2 y.2); [left | right]; (split; [apply table_refl | done]).
  - assert (table_le t x.1 y.1 = true ∨ table_le t y.1 x.1 = true) as [H | H]
      by (destruct t as [[] ?|[] ?]; cbn; [apply int_total | apply lex_total | apply int_total | apply lex_total]); [left | right]; (split; [done | congruence]).
Qed.

Definition table_records (t : table) : list (list Z * list Z) := merge_sort (table_order t) (table_list t).

#[local] Arguments table_records : simpl never.

#[local] Instance table_lmdb : Lmdb := {
  DB := table;
  cursor := option nat;
  mdb_get t key := (λ p, p.2.2) <$> list_find (λ r, r.1 = key) (table_records t);
  mdb_put b t key v :=
    if b && bool_decide (key ∈ (table_records t).*1) then None
    else Some match t with UniqueTable num m => UniqueTable num (<[key := v]> m) | DupTable num g => DupTable num (g ∪ {[(key, v)]}) end;
  mdb_del t key o :=
    match t, o with
    | UniqueTable num m, _ => if bool_decide (m !! key = None) then None else Some (UniqueTable num (delete key m))
    | DupTable num g, Some v => if bool_decide ((key, v) ∈ g) then Some (DupTable num (g ∖ {[(key, v)]})) else None
    | DupTable num g, None =>
        if bool_decide (key ∈ (elements g).*1) then Some (DupTable num (filter (λ r, r.1 ≠ key) g)) else None
    end;
  mdb_cursor_open t := None;
  mdb_cursor_get t c key op :=
    i ← cursor_target (table_records t) (table_le t) c key op; r ← table_records t !! i; Some (Some i, r.1, r.2);
  mdb_cursor_del t c :=
    i ← c; r ← table_records t !! i;
    Some match t with UniqueTable num m => UniqueTable num (delete r.1 m) | DupTable num g => DupTable num (g ∖ {[r]}) end
}.

Lemma table_records_perm t : table_records t ≡ₚ table_list t.
Proof. apply merge_sort_Permutation. Qed.

Lemma table_elem_records t r : r ∈ table_records t ↔ r ∈ table_list t.
Proof. by rewrite table_records_perm. Qed.

Lemma cursor_target_lookup rs leb pos key op i : cursor_target rs leb pos key op = Some i → is_Some (rs !! i).
Proof.
  rewrite lookup_lt_is_Some. destruct op; cbn.
  - destruct (list_find _ rs) as [[j r]|] eqn:Hf; cbn; [| done]. intros [= <-]. apply list_find_Some in Hf as [Hf _]. by eapply lookup_lt_Some.
  - destruct (list_find _ rs) as [[j r]|] eqn:Hf; cbn; [| done]. intros [= <-]. apply list_find_Some in Hf as [Hf _]. by eapply lookup_lt_Some.
  - destruct pos as [j|]; cbn; [| done]. destruct (decide _); [by intros [= <-] | done].
  - destruct pos as [j|]; cbn; [| done]. destruct (rs !! j); cbn; [| done]. destruct (rs !! S j) eqn:Hj; cbn; [| done]. destruct (decide _); [| done]. intros [= <-]. by eapply lookup_lt_Some.
  - destruct pos as [j|]; cbn; [| done]. destruct (decide _); [| done]. intros [= <-]. lia.
  - destruct (decide _) as [|Hne]; [done |]. intros [= <-]. destruct rs; cbn; [done | lia].
  - destruct (decide _) as [|Hne]; [done |]. intros [= <-]. destruct rs; cbn; [done | lia].
  - destruct (list_find _ rs) as [[j r]|] eqn:Hf; cbn; [| done]. intros [= <-]. apply list_find_Some in Hf as [Hf _]. by eapply lookup_lt_Some.
Qed.

#[local] Instance table_laws : LmdbLaws (lmdb := table_lmdb).
Proof.
  refine {| records := table_records : @DB table_lmdb → _; key_leb := table_le : @DB table_lmdb → _;
            dupsort := (λ t, match t with DupTable _ _ => true | _ => false end) : @DB table_lmdb → bool; position := (λ c, c) : @cursor table_lmdb → _ |}.
  - apply table_refl.
  - apply table_trans.
  - apply table_antisym.
  - intros t. assert (StronglySorted (table_order t) (table_records t)) as Hs by (apply StronglySorted_merge_sort; [apply table_order_trans | apply table_order_total]).
    clear -Hs. induction Hs as [|x l _ IH Hx]; constructor; [done |]. eapply Forall_impl; [exact Hx |]. by intros y [? _].
  - intros [num m | num g] Hd; [| done]. rewrite table_records_perm. cbn. apply NoDup_fst_map_to_list.
  - done.
  - intros t c key op. cbn. destruct (cursor_target _ _ c key op) as [i|] eqn:Ht; cbn; [| done].
    destruct (cursor_target_lookup _ _ _ _ _ _ Ht) as [r Hr]. rewrite Hr. cbn. by exists (Some i), r.
  - intros b t key v. cbn. destruct (b && bool_decide (key ∈ (table_records t).*1)) eqn:Hb.
    + apply andb_true_iff in Hb as [-> Hb%bool_decide_eq_true]. done.
    + split; [by destruct t |]. split; [by destruct t |]. split; [intros ->; by apply bool_decide_eq_false in Hb |].
      intros r. destruct t as [num m | num g]; rewrite !table_elem_records; cbn.
      * destruct r as [k w]. rewrite !elem_of_map_to_list. cbn. destruct (decide (k = key)) as [-> | Hne].
        { rewrite lookup_insert_eq. split; [intros [= ->]; by left | intros [[= ->] | [_ Hx]]; [done | by destruct Hx]]. }
        rewrite lookup_insert_ne by done. split; [by right | intros [[= ? ?] | [? _]]; done].
      * rewrite !elem_of_elements. set_solver.
  - intros t key o. cbn. destruct t as [num m | num g].
    + destruct (m !! key) as [w|] eqn:Hm; cbn.
      * do 2 (split; [done |]). intros [k v]. rewrite !table_elem_records. cbn. rewrite !elem_of_map_to_list.
        destruct (decide (k = key)) as [-> | Hne]; [rewrite lookup_delete_eq; split; [done | intros [_ Hx]; by destruct (Hx eq_refl)] |].
        rewrite lookup_delete_ne by done. split; [by intros; split | by intros [? _]].
      * intros v _. rewrite table_elem_records. cbn. rewrite elem_of_map_to_list. congruence.
    + destruct o as [v|].
      * destruct (bool_decide ((key, v) ∈ g)) eqn:Hb.
        { do 2 (split; [done |]). intros [k w]. rewrite !table_elem_records. cbn. rewrite !elem_of_elements, elem_of_difference, elem_of_singleton.
          split; [intros [H1 H2]; split; [done |]; intros ->; split; [done |]; exists v; split; [done | congruence] |].
          intros [H1 H2]. split; [done |]. intros [= -> ->]. destruct (H2 eq_refl) as (_ & v' & [= <-] & ?). done. }
        apply bool_decide_eq_false in Hb. intros w Hw. rewrite table_elem_records. cbn. rewrite elem_of_elements. destruct (Hw eq_refl) as [? | [= <-]]; done.
      * destruct (bool_decide (key ∈ (elements g).*1)) eqn:Hb.
        { do 2 (split; [done |]). intros [k w]. rewrite !table_elem_records. cbn. rewrite !elem_of_elements, elem_of_filter. cbn.
          split; [intros [H1 H2]; split; [done |]; by intros -> | intros [H1 H2]; split; [| done]; intros ->; by destruct (H2 eq_refl) as (_ & v & ? & _)]. }
        apply bool_decide_eq_false in Hb. intros w _. rewrite table_elem_records. cbn. intros Hin. apply Hb. apply list_elem_of_fmap. by exists (key, w).
  - intros t c i r Hc Hr. cbn. rewrite Hc. cbn. rewrite Hr. cbn. eexists. split; [reflexivity |]. split; [by destruct t |]. split; [by destruct t |].
    apply list_elem_of_lookup_2 in Hr. rewrite table_elem_records in Hr. rewrite !table_records_perm. destruct t as [num m | num g]; cbn in Hr |- *.
    + destruct r as [k v]. apply elem_of_map_to_list in Hr. by rewrite map_to_list_delete.
    + apply elem_of_elements in Hr. rewrite <- elements_union_singleton by set_solver. by rewrite <- union_difference_singleton_L.
Defined.

Definition table_numeric (t : table) : bool := match t with UniqueTable num _ | DupTable num _ => num end.

Lemma table_prefix_order (t : @DB table_lmdb) : table_numeric t = false → prefix_order (laws := table_laws) t.
Proof.
  intros Hn. split.
  - intros x y. destruct t as [[] ? | [] ?]; try done; apply lex_prefix.
  - intros key a b. destruct t as [[] ? | [] ?]; try done; apply lex_prefix_run.
Qed.

(** ** Indices of a small directory *)

(** The records of an attribute with both kinds of keys. *)
Definition index_records (eq sub : bool) (t : cstr) (dir : list entry) : list (list Z * list Z) :=
  e ← dir; x ← e_attrs e;
  if same_type simple_compare t x.1 then
    v ← x.2;
    match norm_value plain_desc v with
    | Some v' => (if eq then [(fwd_key (norm_or_raw v'), MDBEntryIdToDBT (e_id e))] else []) ++
                 (if sub then [(rev_key (norm_or_raw v'), MDBEntryIdToDBT (e_id e))] else [])
    | None => []
    end
  else [].

Definition dn_records (dir : list entry) : list (list Z * list Z) :=
  e ← dir; match e_dn_norm e with
           | Some dn => [(fwd_key dn, MDBEntryIdToDBT (e_id e)); (rev_key dn, MDBEntryIdToDBT (e_id e))]
           | None => []
           end.

Definition cfg_ex (t : cstr) (sub uniq : bool) : VDIR_INDEX_CFG := INDEX_CFG t true sub uniq VDIR_INDEXING_COMPLETE [] [].

(** [cn] with or without keys for substrings, and [entryDN]. *)
Definition ix_ex (sub num : bool) (dir : list entry) : index_env (lmdb := table_lmdb) :=
  INDEX_ENV (lmdb := table_lmdb)
    (λ t, if bool_decide (t = type_cn) then Some (cfg_ex type_cn sub false)
          else if bool_decide (t = ATTR_DN) then Some (cfg_ex ATTR_DN true true) else None)
    (λ t, if bool_decide (t = type_cn) then Some (DupTable num (list_to_set (index_records true sub type_cn dir)))
          else if bool_decide (t = ATTR_DN) then Some (UniqueTable false (list_to_map (dn_records dir))) else None).

Lemma index_covers sub num dir :
  covers (laws := table_laws) simple_compare (table_entry dir) fwd_key type_cn plain_desc (DupTable num (list_to_set (index_records true sub type_cn dir)) : @DB table_lmdb).
Proof.
  intros id e t' vs v v' [He <-]%table_elem Hin Ht Hv Hn. change (records ?t) with (table_records t). rewrite table_elem_records. cbn. rewrite elem_of_elements, elem_of_list_to_set.
  unfold index_records. apply list_elem_of_bind. exists e. split; [| done]. apply list_elem_of_bind. exists (t', vs). split; [| done]. cbn. rewrite Ht.
  apply list_elem_of_bind. exists v. split; [| done]. rewrite Hn. by left.
Qed.

Lemma read_cn sub num dir :
  read_index (ix_ex sub num dir) type_cn = Some (Some (cfg_ex type_cn sub false, DupTable num (list_to_set (index_records true sub type_cn dir)) : @DB table_lmdb)).
Proof. reflexivity. Qed.

Lemma small_ex : (length (table_records (DupTable false (list_to_set (index_records true true type_cn dir_ex)))) < 100)%nat.
Proof. vm_compute. lia. Qed.

Definition cn_is (v : list Z) : filter_item := FEquality (AVA (Some plain_desc) type_cn (plain v)).

(** With three entries and an index of [cn] the equality filter is exact. *)
Lemma mdb_laws_ex :
  CandidateLaws simple_compare (table_entry dir_ex) (mdb_exact (laws := table_laws) 100 (ix_ex true false dir_ex) simple_compare (table_entry dir_ex))
    (mdb_indexed (ix_ex true false dir_ex)) (source := mdb_source (lmdb := table_lmdb) 100 (ix_ex true false dir_ex)) ∧
  mdb_exact (laws := table_laws) 100 (ix_ex true false dir_ex) simple_compare (table_entry dir_ex) (cn_is [1; 2]) ∧
  mdb_indexed (ix_ex true false dir_ex) (cn_is [1; 2]).
Proof.
  split; [| split].
  - apply (mdb_laws (laws := table_laws)). intros id e [He <-]%table_elem. revert e He. apply Forall_forall. repeat (apply Forall_cons_2; [cbn; lia |]). apply Forall_nil_2.
  - exists plain_desc. split; [reflexivity |]. unfold on_index. cbn [cn_is ava_type]. rewrite read_cn. pose proof small_ex.
    split; [split; [exact small_ex | split; [change (records ?t) with (table_records t); lia | done]] |]. split; [apply index_covers | done].
  - eexists. apply read_cn.
Defined.

(** ** What the scans miss and repeat *)

Definition search_ex (sub num : bool) (dir : list entry) (i : filter_item) : option (list Z) :=
  sent_by (_VmDirInternalNormalSearch simple_compare request_ex (table_entry dir) (λ _, true)
             (source := mdb_source (lmdb := table_lmdb) 100 (ix_ex sub num dir)) 5 false
             (AppendDNFilter LDAP_SCOPE_SUBTREE plain_desc (BER [44; 9] (Some [44; 9])) (FItem fresh_node i)) (SEARCH 0 false []) []).

Definition cn_like (initial final : list Z) : filter_item := FSubstrings (SUBSTR (Some plain_desc) type_cn (plain initial) [] (plain final)).

(** Below [9], an entry with the two values [12] and [13]. *)
Definition two_values : list entry := [dn_entry 1 [[1; 2]; [1; 3]] [1; 44; 9]].

(** A scan adds an entry once per record, and the candidates of a small scan
    are sent as they are: with the filter [cn=1*] an entry with two such values
    is sent twice. *)
Theorem search_sends_twice : search_ex true false two_values (cn_like [1] []) = Some [1; 1].
Proof. vm_compute. reflexivity. Qed.

(** The kind of the index is not looked at: with an index without keys for
    substrings, like that of [sAMAccountName], a filter on the end of the value
    finds nothing although the entry passes it; with the keys, or without any
    index of the attribute, the same search finds the entry. *)
Theorem suffix_search_empty :
  search_ex false false two_values (cn_like [] [3]) = Some [] ∧
  search_ex true false two_values (cn_like [] [3]) = Some [1] ∧
  passes simple_compare (table_entry two_values) (λ _, true)
    (AppendDNFilter LDAP_SCOPE_SUBTREE plain_desc (BER [44; 9] (Some [44; 9])) (FItem fresh_node (cn_like [] [3]))) 1.
Proof.
  split; [vm_compute; reflexivity |]. split; [vm_compute; reflexivity |]. eexists. split; [vm_compute; reflexivity |]. split; vm_compute; reflexivity.
Qed.

(** The scan for less or equal: it starts at the first record of the key and goes
    backwards, so of two entries with the value itself one is missed. *)
Definition le_desc : at_desc :=
  AT_DESC Some None (Some (λ m v w, match m with VDIR_SCHEMA_MATCH_LE => lex_le (norm_or_raw v) (norm_or_raw w) | _ => lex_le (norm_or_raw w) (norm_or_raw v) end)).
Definition cn_at_most (v : list Z) : filter_item := FLe (AVA (Some le_desc) type_cn (plain v)).
Definition same_values : list entry := [dn_entry 1 [[5]] [1; 44; 9]; dn_entry 2 [[5]] [2; 44; 9]; dn_entry 3 [[4]] [3; 44; 9]].

Theorem le_scan_misses :
  search_ex false false same_values (cn_at_most [5]) = Some [1; 3] ∧
  passes simple_compare (table_entry same_values) (λ _, true)
    (AppendDNFilter LDAP_SCOPE_SUBTREE plain_desc (BER [44; 9] (Some [44; 9])) (FItem fresh_node (cn_at_most [5]))) 2.
Proof. split; [vm_compute; reflexivity |]. eexists. split; [vm_compute; reflexivity |]. split; vm_compute; reflexivity. Qed.

(** A numeric index is not in the order of prefixes: [1*] ends before [10]. *)
Definition numbers : list entry := [dn_entry 1 [[49]] [1; 44; 9]; dn_entry 2 [[50]] [2; 44; 9]; dn_entry 3 [[49; 48]] [3; 44; 9]].

Theorem numeric_prefix_misses :
  search_ex false true numbers (cn_like [49] []) = Some [1] ∧ search_ex false false numbers (cn_like [49] []) = Some [1; 3].
Proof. split; vm_compute; reflexivity. Qed.

(** ** The search over the indices *)

Section Directory.
Context {lmdb : Lmdb} {laws : LmdbLaws}.
Context (fuel : nat) (ix : index_env) (compare : cstr → cstr → bool → Z) (entry_of : Z → dwerror + entry).
Context (rq : search_request) (readable : entry → bool) (bInternal : bool).

Abbreviation exact := (mdb_exact fuel ix compare entry_of).

(** C9: A search over the LMDB indices finds what it should, under the
    conditions that [mdb_exact] and [initial] put on the items of the filter: the
    attribute of an item has no index, or an index that has a record for every
    value of every entry, fewer than [2^26] records, and keys ordered like the
    matching rule.  For an indexed less-or-equal item at most one record has the
    value itself ([le_scan_misses]), for an indexed substring item the keys are
    in the order of bytes ([numeric_prefix_misses]), have the reversed values
    where the item has no initial part ([suffix_search_empty]), and the item is
    not about the start of a DN.  The scope has such an index and is not the
    whole tree, the entry ids are below [2^32], and the tests of the filter are
    defined.  Then, whatever the shape of the filter, the short cuts of the
    evaluation and the limits of the scans, every entry that is sent can be read
    and passes the filter and the scope, no more than the size limit are sent,
    and, unless a limit ended the search, all such entries are sent (an entry
    possibly more than once, [search_sends_twice]).  A scan of the whole
    directory is never asked for, and the only errors are the two limits and an
    entry that cannot be read. *)
Theorem directory_search_exact depth scope dnDesc normDn f s :
  (∀ id e, entry_of id = inr e → 0 <= id < 2 ^ 32) →
  (height f < depth)%nat → initial exact f → ¬ whole_tree scope normDn →
  exact (scope_item scope dnDesc normDn) → mdb_indexed ix (scope_item scope dnDesc normDn) →
  testable compare entry_of (AppendDNFilter scope dnDesc normDn f) →
  let g := AppendDNFilter scope dnDesc normDn f in
  ∃ r s', _VmDirInternalNormalSearch compare rq entry_of readable (source := mdb_source fuel ix) depth bInternal g s [] = Some (r, s', []) ∧
    Forall (passes compare entry_of readable g) (sentEntries s') ∧
    (0 < sizeLimit rq → Z.of_nat (length (sentEntries s')) <= sizeLimit rq) ∧
    (r ≠ inl VMDIR_ERROR_INTERNAL_SEARCH_LIMIT → iPartialCandidates s' = false → below_limit rq s' →
       ∀ id, passes compare entry_of readable g id → id ∈ sentEntries s') ∧
    (∀ err, r = inl err →
       (err = VMDIR_ERROR_INTERNAL_SEARCH_LIMIT ∧ bInternal = true) ∨ (err = LDAP_UNWILLING_TO_PERFORM ∧ iPartialCandidates s' = true) ∨
       ∃ id, entry_of id = inl err).
Proof.
  intros Hids Hh Hf Hw Hex Hidx Ht.
  apply (scoped_search compare entry_of exact (mdb_indexed ix) (source := mdb_source fuel ix) (laws := mdb_laws fuel ix compare entry_of Hids)); try done.
  intros id e He. by apply (Hids id e He).
Qed.

End Directory.

Lemma dn_covers dir num : NoDup (fst <$> dn_records dir) →
  covers_dn (laws := table_laws) (table_entry dir) (UniqueTable num (list_to_map (dn_records dir)) : @DB table_lmdb).
Proof.
  intros Hnd id e dn [He <-]%table_elem Hdn. change (records ?t) with (table_records t). rewrite table_elem_records. cbn. apply elem_of_map_to_list, elem_of_list_to_map_1; [done |].
  unfold dn_records. apply list_elem_of_bind. exists e. split; [| done]. rewrite Hdn. right. by left.
Qed.

Lemma read_dn sub num dir :
  read_index (ix_ex sub num dir) ATTR_DN = Some (Some (cfg_ex ATTR_DN true true, UniqueTable false (list_to_map (dn_records dir)) : @DB table_lmdb)).
Proof. reflexivity. Qed.

Lemma small_dn_ex : (length (table_records (UniqueTable false (list_to_map (dn_records dir_ex)))) < 100)%nat.
Proof. vm_compute. lia. Qed.

Definition base_ex : berval := BER [44; 9] (Some [44; 9]).

Lemma exact_cn_ex : mdb_exact (laws := table_laws) 100 (ix_ex true false dir_ex) simple_compare (table_entry dir_ex) (cn_is [1; 2]).
Proof. apply mdb_laws_ex. Qed.

Lemma exact_scope_ex :
  mdb_exact (laws := table_laws) 100 (ix_ex true false dir_ex) simple_compare (table_entry dir_ex) (scope_item LDAP_SCOPE_SUBTREE plain_desc base_ex).
Proof.
  change (on_index (laws := table_laws) 100 (ix_ex true false dir_ex) ATTR_DN (λ db, covers_dn (laws := table_laws) (table_entry dir_ex) db ∧ prefix_order (laws := table_laws) db)).
  unfold on_index. rewrite read_dn. pose proof small_dn_ex. split; [split; [done |]; split; [change (records ?t) with (table_records t); lia | done] |].
  split; [apply dn_covers; apply (bool_decide_unpack _); vm_compute; done | by apply table_prefix_order].
Qed.

(** [(cn=12)] below [9] *)
Lemma directory_search_exact_witness :
  ∃ r s', _VmDirInternalNormalSearch simple_compare request_ex (table_entry dir_ex) (λ _, true)
            (source := mdb_source (lmdb := table_lmdb) 100 (ix_ex true false dir_ex)) 5 false
            (AppendDNFilter LDAP_SCOPE_SUBTREE plain_desc base_ex (FItem fresh_node (cn_is [1; 2]))) (SEARCH 0 false []) [] = Some (r, s', []) ∧
    Forall (passes simple_compare (table_entry dir_ex) (λ _, true)
              (AppendDNFilter LDAP_SCOPE_SUBTREE plain_desc base_ex (FItem fresh_node (cn_is [1; 2])))) (sentEntries s').
Proof.
  edestruct (directory_search_exact (laws := table_laws) 100 (ix_ex true false dir_ex) simple_compare (table_entry dir_ex) request_ex (λ _, true) false
    5 LDAP_SCOPE_SUBTREE plain_desc base_ex (FItem fresh_node (cn_is [1; 2])) (SEARCH 0 false [])) as (r & s' & Hrun & Hall & _).
  - intros id e [He <-]%table_elem. revert e He. apply Forall_forall. repeat (apply Forall_cons_2; [cbn; lia |]). apply Forall_nil_2.
  - cbn. lia.
  - split; [done | exact exact_cn_ex].
  - by intros [_ ?].
  - exact exact_scope_ex.
  - split; [right; done | eexists; apply read_dn].
  - intros id e [He _]%table_elem. revert e He. apply Forall_forall. repeat constructor; by eexists.
  - exists r, s'. split; [exact Hrun | exact Hall].
Defined.
