(* ===== verification/EntryCodec.v ===== *)
(** * EntryCodec: entries as bytes

    [vmdir/server/common/entryencodedecode.c]: the form in which an entry is
    stored in the entry database and sent between replicas.  The size of the
    block is computed first ([VmDirComputeEncodedEntrySize]), then the block is
    filled ([VmDirEncodeEntry]); [VmDirDecodeEntry] builds the entry back, with
    the arrays that [VmDirInitializeEntry] allocates from the counts in front. *)

From S2P Require Import Prelude Heap StringList CString Effects RaftLog Filter.

Open Scope Z_scope.

(** An attribute: its type, the id of its descriptor ([None] for a NULL
    [pATDesc]), the values up to the one whose [bv_val] is NULL, and [numVals]. *)
Record VDIR_ATTRIBUTE := ATTRIBUTE {
  atype : cstr;
  usAttrID : option Z;
  avals : list (list Z);
  numVals : Z
}.

(** What the schema says of an attribute id: its name, if it is known. *)
Abbreviation schema_ctx := (Z → option cstr).

Definition ATTR_OBJECT_CLASS : cstr := ["o"; "b"; "j"; "e"; "c"; "t"; "C"; "l"; "a"; "s"; "s"]%char.
Definition SUB_SCEHMA_SUB_ENTRY_ID : Z := 3.

Section Codec.
Context (compare : cstr → cstr → bool → Z).
Context {St : Type}.

(** ** Encoding *)

Definition LEN_OF_LEN : Z := 2.

(** The values of an attribute. *)
Fixpoint values_size (vals : list (list Z)) (size nVals : Z) : RM St (Z * Z) :=
  match vals with
  | [] => rret (size, nVals)
  | v :: vals =>
      if Z.of_nat (length v) >? 65535 - 1 then rfail VMDIR_ERROR_INVALID_ENTRY
      else values_size vals (size + LEN_OF_LEN + (Z.of_nat (length v) + 1)) (nVals + 1)
  end.

(** An attribute whose first value is empty is left out. *)
Fixpoint attrs_size (attrs : list VDIR_ATTRIBUTE) (size nAttrs nVals : Z) : RM St (Z * Z * Z) :=
  match attrs with
  | [] => rret (size, nAttrs, nVals)
  | a :: attrs =>
      if (length (default [] (head (avals a))) =? 0)%nat then attrs_size attrs size nAttrs nVals
      else x <- values_size (avals a) (size + LEN_OF_LEN + LEN_OF_LEN) nVals ;;
           attrs_size attrs x.1 (nAttrs + 1) (x.2 + 1)
  end.

(** [VmDirComputeEncodedEntrySize]: size, number of attributes, number of values
    with one empty value at the end of each attribute. *)
Definition VmDirComputeEncodedEntrySize (attrs : list VDIR_ATTRIBUTE) : RM St (Z * Z * Z) :=
  attrs_size attrs (LEN_OF_LEN + LEN_OF_LEN) 0 0.

(** [_VmDirEntrySanityCheck] *)
Fixpoint sanity_loop (attrs : list VDIR_ATTRIBUTE) (bHasDN bHasObjectclass : bool) : RM St (bool * bool) :=
  match attrs with
  | [] => rret (bHasDN, bHasObjectclass)
  | a :: attrs =>
      match usAttrID a with
      | None => rfail VMDIR_ERROR_INVALID_ATTRIBUTETYPES
      | Some _ =>
          if (compare (atype a) ATTR_DN false =? 0) && (numVals a =? 1) && negb (bool_decide (avals a = []))
          then sanity_loop attrs true bHasObjectclass
          else if (compare (atype a) ATTR_OBJECT_CLASS false =? 0) && (numVals a >? 0)
          then sanity_loop attrs bHasDN true
          else sanity_loop attrs bHasDN bHasObjectclass
      end
  end.

Definition _VmDirEntrySanityCheck (attrs : list VDIR_ATTRIBUTE) : RM St unit :=
  x <- sanity_loop attrs false false ;;
  if negb x.1 || negb x.2 then rfail VMDIR_ERROR_INVALID_ENTRY else rret tt.

(** [VmDirEncodeShort]: the two low bytes. *)
Definition VmDirEncodeShort (len : Z) (w : writer) : option writer := put_bytes [u8 (Z.shiftr len 8); u8 len] w.

(** A value with its length and the zero behind it; [VmDirCopyMemory] compares
    the length with the size of the whole block. *)
Fixpoint put_values (vals : list (list Z)) (w : writer) : RM St writer :=
  match vals with
  | [] => rret w
  | v :: vals =>
      w <- rlift (VmDirEncodeShort (Z.of_nat (length v)) w) ;;
      if (length (w_buf w) <? length v)%nat then rfail ERROR_INVALID_PARAMETER
      else
        w <- rlift (put_bytes v w) ;;
        w <- rlift (put_byte 0 w) ;;
        put_values vals w
  end.

(** The attributes; one without values is left out. *)
Fixpoint put_attrs (attrs : list VDIR_ATTRIBUTE) (w : writer) : RM St writer :=
  match attrs with
  | [] => rret w
  | a :: attrs =>
      match usAttrID a with
      | None => rfail VMDIR_ERROR_INVALID_ATTRIBUTETYPES
      | Some aid =>
          if (0 <? length (avals a))%nat then
            w <- rlift (VmDirEncodeShort aid w) ;;
            w <- rlift (VmDirEncodeShort (Z.of_nat (length (avals a))) w) ;;
            w <- put_values (avals a) w ;;
            put_attrs attrs w
          else put_attrs attrs w
      end
  end.

(** [VmDirEncodeEntry]: the bytes of the block. *)
Definition VmDirEncodeEntry (attrs : list VDIR_ATTRIBUTE) (bValidateEntry : bool) : RM St (list Z) :=
  (if bValidateEntry then _VmDirEntrySanityCheck attrs else rret tt) ;;;
  x <- VmDirComputeEncodedEntrySize attrs ;;
  let '(size, nAttrs, nVals) := x in
  buf <- VmDirAllocateMemory size ;;
  w <- rlift (VmDirEncodeShort nAttrs (WRITER buf 0)) ;;
  w <- rlift (VmDirEncodeShort nVals w) ;;
  w <- put_attrs attrs w ;;
  rret (w_buf w).

(** ** Decoding *)

(** [VmDirDecodeShort] *)
Definition VmDirDecodeShort (r : list Z) : option (Z * list Z) :=
  match r with
  | h :: l :: r => Some (Z.lor ((Z.shiftl h 8) mod 2 ^ 16) l, r)
  | _ => None
  end.

(** [j] values; [room] is what is left of the array of values, past whose end
    nothing may be written.  The reader jumps over the zero. *)
Fixpoint get_values (j : nat) (room : Z) (r : list Z) : option (list (list Z) * Z * list Z) :=
  match j with
  | O => Some ([], room, r)
  | S j =>
      '(len, r) ← VmDirDecodeShort r;
      if (room <=? 0) || (Z.of_nat (length r) <? len) then None
      else
        '(vs, room, r') ← get_values j (room - 1) (drop (Z.to_nat len + 1) r);
        Some (take (Z.to_nat len) r :: vs, room, r')
  end.

(** The attributes; one of an unknown id is an error, except in the schema entry
    during bootstrap, where it is skipped like one without values. *)
Fixpoint get_attrs (schema : schema_ctx) (skip_unknown : bool) (n : nat) (room : Z) (r : list Z)
    : RM St (list VDIR_ATTRIBUTE) :=
  match n with
  | O => rret []
  | S n =>
      x <- rlift (VmDirDecodeShort r) ;;
      let aid := x.1 in
      match schema aid, skip_unknown with
      | None, false => rfail VMDIR_ERROR_INVALID_ATTRIBUTETYPES
      | name, _ =>
          x <- rlift (VmDirDecodeShort x.2) ;;
          let j := x.1 in
          y <- rlift (get_values (Z.to_nat j) room x.2) ;;
          let '(vs, room, r) := y in
          if room <=? 0 then rub
          else
            rest <- get_attrs schema skip_unknown n (room - 1) r ;;
            rret match name with
                 | Some t => if j =? 0 then rest else ATTRIBUTE t (Some aid) vs j :: rest
                 | None => rest
                 end
      end
  end.

(** The last DN among the attributes. *)
Definition dn_of (attrs : list VDIR_ATTRIBUTE) : list Z :=
  fold_left (λ dn a, if compare (atype a) ATTR_DN false =? 0 then default [] (head (avals a)) else dn) attrs [].

(** [VmDirDecodeEntry]: the attributes and the DN.  The allocations are those of
    [VmDirInitializeEntry], of no bytes an error; the last call normalises the
    DN. *)
Definition VmDirDecodeEntry (schema : schema_ctx) (bBootStrap : bool) (eId : Z) (encodedEntry : list Z) (pbvDn : option (list Z))
    : RM St (list VDIR_ATTRIBUTE * list Z) :=
  x <- rlift (VmDirDecodeShort encodedEntry) ;;
  let nAttrs := x.1 in
  x <- rlift (VmDirDecodeShort x.2) ;;
  let nVals := x.1 in
  VmDirAllocateMemory (nAttrs * 128) ;;;
  VmDirAllocateMemory (nVals * 40) ;;;
  attrs <- get_attrs schema ((eId =? SUB_SCEHMA_SUB_ENTRY_ID) && bBootStrap) (Z.to_nat nAttrs) nVals x.2 ;;
  if bool_decide (attrs = []) then rfail VMDIR_ERROR_INVALID_ENTRY
  else
    let dn := match dn_of attrs, pbvDn with [], Some dn => dn | dn, _ => dn end in
    (if bool_decide (dn_of attrs = []) && bool_decide (is_Some pbvDn) then backend_call else rret tt) ;;;
    backend_call ;;;
    rret (attrs, dn).

End Codec.

(** ** The bytes *)

Definition wire_value (v : list Z) : list Z := enc 2 (Z.of_nat (length v)) ++ v ++ [0].
Definition wire_values (vs : list (list Z)) : list Z := concat (wire_value <$> vs).
Definition wire_attr (a : VDIR_ATTRIBUTE) : list Z :=
  enc 2 (default 0 (usAttrID a)) ++ enc 2 (Z.of_nat (length (avals a))) ++ wire_values (avals a).
Definition wire_attrs (attrs : list VDIR_ATTRIBUTE) : list Z := concat (wire_attr <$> attrs).

(** The number of values, with one more per attribute. *)
Definition count_values (attrs : list VDIR_ATTRIBUTE) : Z := fold_right (λ a n, Z.of_nat (length (avals a)) + 1 + n) 0 attrs.

Definition wire_entry (attrs : list VDIR_ATTRIBUTE) : list Z :=
  enc 2 (Z.of_nat (length attrs)) ++ enc 2 (count_values attrs) ++ wire_attrs attrs.

(** An attribute that can be stored: the schema knows it, its first value is not
    empty, and the lengths fit. *)
Definition storable (schema : schema_ctx) (a : VDIR_ATTRIBUTE) : Prop :=
  (∃ aid, usAttrID a = Some aid ∧ 0 <= aid < 2 ^ 16 ∧ schema aid = Some (atype a)) ∧
  length (default [] (head (avals a))) ≠ 0%nat ∧ Forall (λ v, Z.of_nat (length v) <= 65534) (avals a) ∧ numVals a = Z.of_nat (length (avals a)).

Lemma wire_value_length v : Z.of_nat (length (wire_value v)) = Z.of_nat (length v) + 3.
Proof. unfold wire_value. rewrite !length_app, enc_length. cbn [length]. lia. Qed.

Lemma wire_values_cons v vs : wire_values (v :: vs) = wire_value v ++ wire_values vs.
Proof. done. Qed.
Lemma wire_attrs_cons a attrs : wire_attrs (a :: attrs) = wire_attr a ++ wire_attrs attrs.
Proof. done. Qed.
Lemma count_values_cons a attrs : count_values (a :: attrs) = Z.of_nat (length (avals a)) + 1 + count_values attrs.
Proof. done. Qed.
Lemma count_values_nonneg attrs : 0 <= count_values attrs.
Proof. induction attrs as [|a attrs IH]; [done |]. rewrite count_values_cons. lia. Qed.
Lemma count_values_length attrs : Z.of_nat (length attrs) <= count_values attrs.
Proof. induction attrs as [|a attrs IH]; [done |]. rewrite count_values_cons. cbn [length]. lia. Qed.

Lemma wire_attr_length a : Z.of_nat (length (wire_attr a)) = 4 + Z.of_nat (length (wire_values (avals a))).
Proof. unfold wire_attr. rewrite !length_app, !enc_length. lia. Qed.

Section Roundtrip.
Context (compare : cstr → cstr → bool → Z) {St : Type}.
Implicit Types (s : St) (attrs : list VDIR_ATTRIBUTE).

Lemma values_size_run vs size n s :
  Forall (λ v, Z.of_nat (length v) <= 65534) vs →
  values_size vs size n s [] = Some (inr (size + Z.of_nat (length (wire_values vs)), n + Z.of_nat (length vs)), s, []).
Proof.
  intros H. revert size n. induction H as [|v vs Hv _ IH]; intros size n; cbn [values_size]; [unfold rret; cbn; by rewrite !Z.add_0_r |].
  rewrite Z.gtb_ltb, (proj2 (Z.ltb_ge _ _)) by lia. rewrite IH, wire_values_cons, length_app, Nat2Z.inj_add, wire_value_length. unfold LEN_OF_LEN.
  cbn [length]. rewrite Nat2Z.inj_succ.
  match goal with |- Some (inr (?a, ?b), _, _) = Some (inr (?c, ?d), _, _) => replace a with c by lia; replace b with d by lia end. done.
Qed.

Lemma attrs_size_run schema attrs size nA nV s :
  Forall (storable schema) attrs →
  attrs_size attrs size nA nV s [] = Some (inr (size + Z.of_nat (length (wire_attrs attrs)), nA + Z.of_nat (length attrs), nV + count_values attrs), s, []).
Proof.
  intros H. revert size nA nV. induction H as [|a attrs (_ & Hne & Hlen & _) _ IH]; intros size nA nV; cbn [attrs_size]; [unfold rret; cbn; by rewrite !Z.add_0_r |].
  apply Nat.eqb_neq in Hne. rewrite Hne. unfold rbind. rewrite values_size_run by done. cbn [fst snd]. rewrite IH, wire_attrs_cons, count_values_cons, length_app, Nat2Z.inj_add, wire_attr_length.
  unfold LEN_OF_LEN. cbn [length]. rewrite Nat2Z.inj_succ.
  match goal with |- Some (inr (?a, ?b, ?x), _, _) = Some (inr (?c, ?d, ?y), _, _) => replace a with c by lia; replace b with d by lia; replace x with y by lia end. done.
Qed.

(** ** Writing *)

Lemma put_bytes_length bs w w' : put_bytes bs w = Some w' → length (w_buf w') = length (w_buf w).
Proof.
  revert w. induction bs as [|b bs IH]; intros w; cbn; [by intros [= ->] |]. unfold put_byte. destruct (decide _); [| done].
  intros H. apply IH in H. cbn in H. by rewrite length_insert in H.
Qed.

Lemma bind_put {B} b w (k : writer → RM St B) s e :
  rbind (rlift (put_bytes b w)) k s e = match put_bytes b w with Some w => k w s e | None => None end.
Proof. unfold rbind, rlift. by destruct (put_bytes b w). Qed.

Lemma lift_app b1 b2 w s e :
  rlift (put_bytes (b1 ++ b2) w) s e = match put_bytes b1 w with Some w => rlift (put_bytes b2 w) s e | None => None end :> option ((dwerror + writer) * St * env).
Proof. rewrite put_bytes_app. by destruct (put_bytes b1 w). Qed.

Lemma put_byte_one b w : put_byte b w = put_bytes [b] w.
Proof. cbn. by destruct (put_byte b w). Qed.

Lemma put_values_put vs w s :
  Forall (λ v, length v <= length (w_buf w))%nat vs → put_values vs w s [] = rlift (put_bytes (wire_values vs) w) s [].
Proof.
  intros H. revert w H. induction vs as [|v vs IH]; intros w H; cbn [put_values]; [done |]. apply Forall_cons in H as [Hv H].
  unfold VmDirEncodeShort. rewrite wire_values_cons. unfold wire_value. rewrite <- !app_assoc.
  change [u8 (Z.shiftr (Z.of_nat (length v)) 8); u8 (Z.of_nat (length v))] with (enc 2 (Z.of_nat (length v))). rewrite bind_put, lift_app.
  destruct (put_bytes (enc 2 (Z.of_nat (length v))) w) as [w1|] eqn:H1; [| done]. apply put_bytes_length in H1. rewrite H1, (proj2 (Nat.ltb_ge _ _)) by lia.
  rewrite bind_put, lift_app. destruct (put_bytes v w1) as [w2|] eqn:H2; [| done]. apply put_bytes_length in H2.
  rewrite put_byte_one, bind_put, lift_app. destruct (put_bytes [0] w2) as [w3|] eqn:H3; [| done]. apply put_bytes_length in H3.
  rewrite IH; [done |]. eapply Forall_impl; [exact H |]. cbn. intros x Hx. lia.
Qed.

Lemma put_attrs_put schema attrs w s :
  Forall (storable schema) attrs → Forall (λ a, Forall (λ v, length v <= length (w_buf w))%nat (avals a)) attrs →
  put_attrs attrs w s [] = rlift (put_bytes (wire_attrs attrs) w) s [].
Proof.
  intros H. revert w. induction H as [|a attrs ((aid & Haid & _) & Hne & _) _ IH]; intros w Hl; cbn [put_attrs]; [done |]. apply Forall_cons in Hl as [Ha Hl].
  rewrite Haid. assert (0 < length (avals a))%nat as Hpos by (destruct (avals a); [by destruct Hne | cbn; lia]). rewrite (proj2 (Nat.ltb_lt _ _)) by done.
  rewrite wire_attrs_cons. unfold wire_attr. rewrite Haid. cbn [default from_option]; change (id aid) with aid. unfold VmDirEncodeShort. rewrite <- !app_assoc.
  change [u8 (Z.shiftr aid 8); u8 aid] with (enc 2 aid). rewrite bind_put, lift_app.
  destruct (put_bytes (enc 2 aid) w) as [w1|] eqn:H1; [| done]. apply put_bytes_length in H1.
  change [u8 (Z.shiftr (Z.of_nat (length (avals a))) 8); u8 (Z.of_nat (length (avals a)))] with (enc 2 (Z.of_nat (length (avals a)))). rewrite bind_put, lift_app.
  destruct (put_bytes (enc 2 _) w1) as [w2|] eqn:H2; [| done]. apply put_bytes_length in H2. unfold rbind. rewrite put_values_put by (by rewrite H2, H1).
  rewrite lift_app. unfold rlift at 1. destruct (put_bytes (wire_values (avals a)) w2) as [w3|] eqn:H3; [| reflexivity]. apply put_bytes_length in H3.
  rewrite IH; [done |]. by rewrite H3, H2, H1.
Qed.

Lemma storable_short schema attrs : Forall (storable schema) attrs → Forall (λ a, Forall (λ v, length v <= length (wire_entry attrs))%nat (avals a)) attrs.
Proof.
  intros _. apply Forall_forall. intros a Ha. apply Forall_forall. intros v Hv. apply list_elem_of_split in Ha as (l1 & l2 & ->). apply list_elem_of_split in Hv as (v1 & v2 & Hav).
  unfold wire_entry, wire_attrs. rewrite !length_app, fmap_app, concat_app, length_app. cbn [fmap list_fmap concat]. rewrite length_app. unfold wire_attr at 2. rewrite Hav, !length_app.
  unfold wire_values. rewrite fmap_app, concat_app, length_app. cbn [fmap list_fmap concat]. rewrite length_app. pose proof (wire_value_length v). lia.
Qed.

Lemma encode_entry_run schema attrs b s :
  attrs ≠ [] → Forall (storable schema) attrs → (b = true → _VmDirEntrySanityCheck compare attrs s [] = Some (inr tt, s, [])) →
  VmDirEncodeEntry compare attrs b s [] = Some (inr (wire_entry attrs), s, []).
Proof.
  intros Hne Hst Hb. unfold VmDirEncodeEntry. assert ((if b then _VmDirEntrySanityCheck compare attrs else rret tt) s [] = Some (inr tt, s, [])) as Hchk by (destruct b; [by apply Hb | done]).
  unfold rbind at 1. rewrite Hchk. unfold rbind at 1, VmDirComputeEncodedEntrySize. rewrite (attrs_size_run schema) by done. cbn [fst snd].
  set (size := LEN_OF_LEN + LEN_OF_LEN + _). assert (size = Z.of_nat (length (wire_entry attrs))) as Hsize.
  { unfold size, wire_entry, LEN_OF_LEN. rewrite !length_app, !enc_length. lia. }
  assert (VmDirAllocateMemory size s [] = Some (inr (replicate (length (wire_entry attrs)) 0), s, [])) as Halloc.
  { unfold VmDirAllocateMemory. rewrite (proj2 (Z.eqb_neq _ _)) by (unfold size, LEN_OF_LEN; lia). rewrite Hsize. unfold rbind. cbn. by rewrite Nat2Z.id. }
  unfold rbind at 1. rewrite Halloc. rewrite !Z.add_0_l. unfold VmDirEncodeShort.
  change [u8 (Z.shiftr (Z.of_nat (length attrs)) 8); u8 (Z.of_nat (length attrs))] with (enc 2 (Z.of_nat (length attrs))).
  change [u8 (Z.shiftr (count_values attrs) 8); u8 (count_values attrs)] with (enc 2 (count_values attrs)).
  pose proof (put_bytes_fill (wire_entry attrs) (replicate (length (wire_entry attrs)) 0) (length_replicate _ _)) as Hfill.
  unfold wire_entry in Hfill at 1. rewrite !put_bytes_app in Hfill. revert Hfill. rewrite bind_put. destruct (put_bytes (enc 2 _) _) as [w1|] eqn:H1; [| done].
  rewrite bind_put, put_bytes_app. destruct (put_bytes (enc 2 _) w1) as [w2|] eqn:H2; [| done]. intros Hfill. unfold rbind at 1.
  assert (length (w_buf w2) = length (wire_entry attrs)) as Hl2.
  { apply put_bytes_length in H1, H2. cbn [w_buf] in H1. rewrite length_replicate in H1. congruence. }
  rewrite (put_attrs_put schema); [| done | rewrite Hl2; by eapply storable_short]. unfold rlift. by rewrite Hfill.
Qed.

(** ** Reading *)

Lemma decode_short_enc v r : 0 <= v < 2 ^ 16 → VmDirDecodeShort (enc 2 v ++ r) = Some (v, r).
Proof.
  intros Hv. change (enc 2 v) with [u8 (Z.shiftr v 8); u8 (Z.shiftr v 0)]. cbn [app VmDirDecodeShort]. do 2 f_equal. rewrite Z.shiftr_0_r.
  pose proof (byte_split 1 v ltac:(lia)) as Hb. change (8 * 1) with 8 in Hb. change (8 * (1 + 1)) with 16 in Hb. rewrite (Z.mod_small v (2 ^ 16)) in Hb by lia.
  rewrite <- Hb at 3. unfold u8 at 2. change 256 with (2 ^ 8). f_equal. rewrite Z.shiftl_mul_pow2 by lia. apply Z.mod_small. unfold u8.
  pose proof (Z.mod_pos_bound (Z.shiftr v 8) 256 ltac:(lia)). lia.
Qed.

Lemma get_values_wire vs room r :
  Forall (λ v, Z.of_nat (length v) <= 65534) vs → Z.of_nat (length vs) <= room →
  get_values (length vs) room (wire_values vs ++ r) = Some (vs, room - Z.of_nat (length vs), r).
Proof.
  intros H. revert room. induction H as [|v vs Hv _ IH]; intros room Hroom; cbn [get_values length]; [cbn; by rewrite Z.sub_0_r |]. cbn [length] in Hroom.
  rewrite wire_values_cons. unfold wire_value. rewrite <- !app_assoc, decode_short_enc by lia. cbn [mbind option_bind].
  rewrite (proj2 (Z.leb_gt _ _)), (proj2 (Z.ltb_ge _ _)) by (rewrite ?length_app; lia). cbn [orb]. rewrite Nat2Z.id.
  replace (drop (length v + 1) (v ++ [0] ++ wire_values vs ++ r)) with (wire_values vs ++ r).
  2: { rewrite <- drop_drop. by rewrite drop_app_length. }
  rewrite IH by lia. cbn [mbind option_bind]. rewrite take_app_length. do 2 f_equal. f_equal. lia.
Qed.

Lemma get_attrs_wire schema skip attrs room r s :
  Forall (storable schema) attrs → count_values attrs <= room → room < 2 ^ 16 →
  get_attrs schema skip (length attrs) room (wire_attrs attrs ++ r) s [] = Some (inr attrs, s, []).
Proof.
  intros H. revert room. induction H as [|a attrs ((aid & Haid & Hrange & Hschema) & Hne & Hlen & Hnum) _ IH]; intros room Hcount Hroom; cbn [get_attrs length]; [done |].
  rewrite count_values_cons in Hcount. pose proof (count_values_nonneg attrs) as Hnn. rewrite wire_attrs_cons. unfold wire_attr. rewrite Haid. cbn [default from_option].
  change (id aid) with aid. rewrite <- !app_assoc. unfold rbind at 1, rlift. rewrite decode_short_enc by lia. cbn [fst snd]. rewrite Hschema.
  unfold rbind at 1. rewrite decode_short_enc by lia. cbn [fst snd]. unfold rbind at 1. rewrite Nat2Z.id, get_values_wire by (done || lia).
  rewrite (proj2 (Z.leb_gt _ _)) by lia. unfold rbind. rewrite IH by lia.
  assert (length (avals a) ≠ 0%nat) as Hl by (intros H0; destruct (avals a); [by destruct Hne | done]). rewrite (proj2 (Z.eqb_neq _ _)) by lia.
  unfold rret. do 4 f_equal. destruct a; cbn in *; congruence.
Qed.

(** C19: An entry survives its storage: when the schema knows its attributes, no
    attribute begins with an empty value, no value is longer than 65534 bytes and
    the number of values (with one more per attribute) fits in two bytes, and
    memory is not refused, then
    [VmDirEncodeEntry] fills exactly the block it allocated, and
    [VmDirDecodeEntry] with the same schema gives back the same attributes, in
    the same order, and the DN. *)
Theorem entry_roundtrip schema attrs bValidate bBoot eId s :
  attrs ≠ [] → Forall (storable schema) attrs → count_values attrs < 2 ^ 16 →
  (bValidate = true → _VmDirEntrySanityCheck compare attrs s [] = Some (inr tt, s, [])) →
  ∃ b, VmDirEncodeEntry compare attrs bValidate s [] = Some (inr b, s, []) ∧
    VmDirComputeEncodedEntrySize attrs s [] = Some (inr (Z.of_nat (length b), Z.of_nat (length attrs), count_values attrs), s, []) ∧
    VmDirDecodeEntry compare schema bBoot eId b None s [] = Some (inr (attrs, dn_of compare attrs), s, []).
Proof.
  intros Hne Hst Hcount Hb. exists (wire_entry attrs). split; [by eapply encode_entry_run |]. split.
  { unfold VmDirComputeEncodedEntrySize. rewrite (attrs_size_run schema) by done. unfold wire_entry, LEN_OF_LEN. rewrite !length_app, !enc_length.
    match goal with |- Some (inr (?a, ?b, ?x), _, _) = Some (inr (?c, ?d, ?y), _, _) => replace a with c by lia; replace b with d by lia; replace x with y by lia end. done. }
  pose proof (count_values_length attrs) as Hl. unfold VmDirDecodeEntry, wire_entry. unfold rbind at 1, rlift. rewrite decode_short_enc by lia. cbn [fst snd].
  unfold rbind at 1. rewrite decode_short_enc by lia. cbn [fst snd].
  assert (0 < Z.of_nat (length attrs)) as Hpos by (destruct attrs; [done | cbn; lia]).
  assert (∀ n, 0 < n → VmDirAllocateMemory n s [] = Some (inr (replicate (Z.to_nat n) 0), s, [])) as Halloc.
  { intros n Hn. unfold VmDirAllocateMemory. by rewrite (proj2 (Z.eqb_neq _ _)) by lia. }
  unfold rbind at 1. rewrite Halloc by lia. unfold rbind at 1. rewrite Halloc by lia. unfold rbind at 1. rewrite Nat2Z.id.
  pose proof (get_attrs_wire schema ((eId =? SUB_SCEHMA_SUB_ENTRY_ID) && bBoot) attrs (count_values attrs) [] s Hst ltac:(lia) Hcount) as Hget.
  rewrite app_nil_r in Hget. rewrite Hget. rewrite bool_decide_eq_false_2 by done.
  rewrite (bool_decide_eq_false_2 (is_Some None)) by by intros [? ?]. rewrite andb_false_r. unfold rbind. cbn. by destruct (dn_of compare attrs).
Qed.

End Roundtrip.

(** ** Examples *)

Definition schema_ex : schema_ctx := λ aid, if aid =? 1 then Some ATTR_DN else if aid =? 2 then Some ATTR_OBJECT_CLASS else if aid =? 3 then Some type_cn else None.
Definition attrs_ex : list VDIR_ATTRIBUTE :=
  [ATTRIBUTE ATTR_DN (Some 1) [[99; 110; 61; 97]] 1; ATTRIBUTE ATTR_OBJECT_CLASS (Some 2) [[116; 111; 112]; [112]] 2].

Lemma entry_roundtrip_witness :
  ∃ b, VmDirEncodeEntry simple_compare attrs_ex true tt [] = Some (inr b, tt, []) ∧
    VmDirDecodeEntry simple_compare schema_ex false 100 b None tt [] = Some (inr (attrs_ex, [99; 110; 61; 97]), tt, []).
Proof.
  destruct (entry_roundtrip simple_compare (St := unit) schema_ex attrs_ex true false 100 tt) as (b & He & _ & Hd).
  - done.
  - apply Forall_cons_2; [| apply Forall_cons_2; [| apply Forall_nil_2]]; (split; [eexists; split; [reflexivity |]; split; [lia | reflexivity] |]); (split; [done |]); (split; [| reflexivity]);
      repeat (apply Forall_cons_2; [cbn; lia |]); apply Forall_nil_2.
  - vm_compute. reflexivity.
  - intros _. vm_compute. reflexivity.
  - exists b. split; [exact He | exact Hd].
Defined.

(** The size is computed for fewer attributes than are written: one whose
    first value is empty is not counted but encoded, so [VmDirEncodeEntry] writes
    past the end of the block it allocated (no result). *)
Theorem empty_value_overflows :
  VmDirComputeEncodedEntrySize (St := unit) (attrs_ex ++ [ATTRIBUTE type_cn (Some 3) [[]; [97]] 2]) tt [] =
    VmDirComputeEncodedEntrySize (St := unit) attrs_ex tt [] ∧
  VmDirEncodeEntry simple_compare (St := unit) (attrs_ex ++ [ATTRIBUTE type_cn (Some 3) [[]; [97]] 2]) true tt [] = None.
Proof. split; vm_compute; reflexivity. Qed.

(** The number of values is not checked: an entry with a multiple of [2^16] of
    them (with one more per attribute) is stored but cannot be read again, since
    the array of its values would have no elements. *)
Lemma enc_wrap v : enc 2 v = enc 2 (v mod 2 ^ 16).
Proof. symmetry. apply (enc_mod 2 v 16). lia. Qed.

Theorem unreadable_entry (compare : cstr → cstr → bool → Z) schema attrs bBoot eId :
  attrs ≠ [] → Forall (storable schema) attrs → Z.of_nat (length attrs) < 2 ^ 16 → count_values attrs mod 2 ^ 16 = 0 →
  ∃ b, VmDirEncodeEntry compare attrs false tt [] = Some (inr b, tt, []) ∧
    VmDirDecodeEntry compare schema bBoot eId b None tt [] = Some (inl ERROR_INVALID_PARAMETER, tt, []).
Proof.
  intros Hne Hst Hl Hcount. exists (wire_entry attrs). split; [by eapply encode_entry_run |].
  assert (0 < Z.of_nat (length attrs)) as Hpos by (destruct attrs; [done | cbn; lia]).
  unfold VmDirDecodeEntry, wire_entry. unfold rbind at 1, rlift. rewrite decode_short_enc by lia. cbn [fst snd]. rewrite (enc_wrap (count_values attrs)), Hcount.
  unfold rbind at 1. rewrite decode_short_enc by lia. cbn [fst snd]. unfold rbind at 1, VmDirAllocateMemory at 1. by rewrite (proj2 (Z.eqb_neq _ _)) by lia.
Qed.

(** One attribute with 65535 values is such an entry. *)
Lemma unreadable_entry_ex :
  ∃ b, VmDirEncodeEntry simple_compare [ATTRIBUTE type_cn (Some 3) (replicate (Z.to_nat 65535) [97]) 65535] false tt [] = Some (inr b, tt, []) ∧
    VmDirDecodeEntry simple_compare schema_ex false 100 b None tt [] = Some (inl ERROR_INVALID_PARAMETER, tt, []).
Proof.
  apply unreadable_entry; [done | | done |].
  - apply Forall_cons_2; [| apply Forall_nil_2]. split; [exists 3; split; [done |]; split; [lia | done] |]. cbn [avals numVals]. split.
    + by destruct (Z.to_nat 65535) eqn:H.
    + split; [apply Forall_replicate; cbn; lia | rewrite length_replicate; lia].
  - unfold count_values. cbn [fold_right avals]. rewrite length_replicate. rewrite Z2Nat.id by lia. reflexivity.
Qed.
