(* ===== verification/IndexUnique.v ===== *)
(** * IndexUnique: values that are unique in a subtree

    An index can have scopes, subtrees in which no two entries have the same
    value of the attribute.  Before a value is written
    [MdbValidateAttrUniqueness] of [vmdir/server/mdb-store/indexwriteutil.c] goes
    through the entries that have it, with the iterator of [iterate.c] and
    [VmDirMDBSimpleEIdToEntry] of [entry.c], and collects the scopes they lie in.

    All of this reads in transactions of its own: it sees what was committed,
    not what the running transaction has written. *)

From stdpp Require Import sorting.
From S2P Require Import Prelude Heap StringList CString Effects RaftLog Filter Candidates Search IndexScan EntryCodec.

Open Scope Z_scope.

(** The bytes of a value up to the first NUL, as a C string. *)
Definition byte_char (b : Z) : ascii := ascii_of_N (Z.to_N b).
Fixpoint c_chars (v : list Z) : cstr :=
  match v with [] => [] | b :: v => if b =? 0 then [] else byte_char b :: c_chars v end.

Definition PERSISTED_DSE_ROOT_DN : cstr := ["c"; "n"; "="; "D"; "S"; "E"; " "; "R"; "o"; "o"; "t"]%char.

(** What other transactions see. *)
Record committed {lmdb : Lmdb} := COMMITTED { c_indices : cstr → option DB; c_entries : DB }.
Arguments COMMITTED {_} _ _.

(** [VDIR_BACKEND_INDEX_ITERATOR]: the next value and its entry. *)
Record index_iterator {lmdb : Lmdb} := ITERATOR { bHasNext : bool; it_pszVal : list Z; it_eId : Z; it_cursor : cursor }.
Arguments ITERATOR {_} _ _ _ _.

Section Unique.
Context {lmdb : Lmdb} (compare : cstr → cstr → bool → Z).

(** The schema, and the normal form of a DN. *)
Context (schema : schema_ctx) (normalize_dn : list Z → list Z) (bBootStrap : bool).

(** The record a cursor has come to, when its key is a forward one. *)
Definition iterator_at (c : cursor) (o : option (cursor * list Z * list Z)) : RM committed index_iterator :=
  match o with
  | None => rret (ITERATOR false [] 0 c)
  | Some (c, key, value) =>
      match key with
      | [] => rub
      | t :: v =>
          if t =? BE_INDEX_KEY_TYPE_FWD
          then VmDirAllocateMemory (Z.of_nat (length key)) ;;; rret (ITERATOR true v (MDBDBTToEntryId value) c)
          else rret (ITERATOR false [] 0 c)
      end
  end.

Definition committed_db (cfg : VDIR_INDEX_CFG) : RM committed DB :=
  s <- rget ;;
  match c_indices s (pszAttrName cfg) with Some db => rret db | None => rfail ERROR_BACKEND_ERROR end.

(** [VmDirMDBIndexIteratorInit] *)
Definition VmDirMDBIndexIteratorInit (cfg : VDIR_INDEX_CFG) (pszInitVal : cstr) : RM committed index_iterator :=
  VmDirAllocateMemory 16 ;;;
  VmDirAllocateMemory 40 ;;;
  db <- committed_db cfg ;;
  backend_call ;;;
  backend_call ;;;
  let c := mdb_cursor_open db in
  if bool_decide (pszInitVal = []) then backend_call ;;; iterator_at c (mdb_cursor_get db c [] MDB_FIRST)
  else
    VmDirAllocateMemory (Z.of_nat (length pszInitVal) + 2) ;;;
    backend_call ;;;
    iterator_at c (mdb_cursor_get db c (BE_INDEX_KEY_TYPE_FWD :: (byte <$> pszInitVal)) MDB_SET_RANGE).

(** [VmDirMDBIndexIterate]: the value and the entry, and the iterator behind
    them. *)
Definition VmDirMDBIndexIterate (cfg : VDIR_INDEX_CFG) (it : index_iterator) : RM committed (list Z * Z * index_iterator) :=
  if bHasNext it then
    db <- committed_db cfg ;;
    backend_call ;;;
    it' <- iterator_at (it_cursor it) (mdb_cursor_get db (it_cursor it) [] MDB_NEXT) ;;
    rret (it_pszVal it, it_eId it, it')
  else rret ([], 0, it).

(** [VmDirMDBEIdToEntry] *)
Definition VmDirMDBEIdToEntry (eId : Z) : RM committed (list VDIR_ATTRIBUTE * list Z) :=
  set_backend_error
    (s <- rget ;;
     backend_call ;;;
     match mdb_get (c_entries s) (MDBEntryIdToDBT eId) with
     | None => rfail (MDBToBackendError MDB_NOTFOUND MDB_NOTFOUND VMDIR_ERROR_BACKEND_ENTRY_NOTFOUND)
     | Some blob =>
         r <- rtry (VmDirAllocateMemory (Z.of_nat (length blob))) ;;
         match r with
         | inl _ => rfail VMDIR_ERROR_BACKEND_OPERATIONS
         | inr _ => VmDirDecodeEntry compare schema bBootStrap eId blob None
         end
     end).

(** [VmDirMDBSimpleEIdToEntry]: the schema, the transaction, the entry. *)
Definition VmDirMDBSimpleEIdToEntry (eId : Z) : RM committed (list VDIR_ATTRIBUTE * list Z) :=
  backend_call ;;; backend_call ;;;
  e <- VmDirMDBEIdToEntry eId ;;
  backend_call ;;; rret e.

(** ** Scopes *)

Definition in_scope (dn scope : cstr) : bool :=
  (compare PERSISTED_DSE_ROOT_DN scope false =? 0) || VmDirStringEndsWith compare (Some dn) (Some scope) false.

(** [LwRtlHashMapFindKey], without case. *)
Definition occupied (occ : list (cstr * cstr)) (scope : cstr) : bool :=
  existsb (λ x, bool_decide (map tolower x.1 = map tolower scope)) occ.

(** The scopes of a list that the entry [dn] lies in; with [strict] none of them
    may be occupied already ([assert]). *)
Fixpoint occupy (strict : bool) (scopes : list cstr) (dn : cstr) (occ : list (cstr * cstr)) : RM committed (list (cstr * cstr)) :=
  match scopes with
  | [] => rret occ
  | scope :: scopes =>
      if in_scope dn scope then
        if negb (occupied occ scope) then
          VmDirAllocateMemory (Z.of_nat (length scope) + 1) ;;;
          VmDirAllocateMemory (Z.of_nat (length dn) + 1) ;;;
          backend_call ;;;
          occupy strict scopes dn (occ ++ [(scope, dn)])
        else if strict then rub else occupy strict scopes dn occ
      else occupy strict scopes dn occ
  end.

(** The entries with the value, one after the other. *)
Fixpoint scopes_loop (fuel : nat) (cfg : VDIR_INDEX_CFG) (pszAttrVal : cstr) (it : index_iterator) (occ : list (cstr * cstr))
    : RM committed (list (cstr * cstr)) :=
  match fuel with
  | O => rub
  | S fuel =>
      if bHasNext it then
        x <- VmDirMDBIndexIterate cfg it ;;
        let '(pszVal, eId, it) := x in
        if negb (compare pszAttrVal (c_chars pszVal) false =? 0) then rret occ
        else
          e <- VmDirMDBSimpleEIdToEntry eId ;;
          let dn := c_chars (normalize_dn e.2) in
          occ <- occupy true (pUniqScopes cfg) dn occ ;;
          occ <- (match istatus cfg with
                  | VDIR_INDEXING_VALIDATING_SCOPES => occupy false (pNewUniqScopes cfg) dn occ
                  | _ => rret occ
                  end) ;;
          scopes_loop fuel cfg pszAttrVal it occ
      else rret occ
  end.

(** The new entry lies in a scope that another one occupies. *)
Definition scope_conflict (pszEntryDN : cstr) (occ : list (cstr * cstr)) : bool :=
  existsb (λ x, negb (compare pszEntryDN x.2 false =? 0) && in_scope pszEntryDN x.1) occ.

(** No uniqueness is enforced. *)
Definition no_scopes (cfg : VDIR_INDEX_CFG) : bool :=
  bool_decide (pUniqScopes cfg = []) &&
  match istatus cfg with VDIR_INDEXING_VALIDATING_SCOPES => bool_decide (pNewUniqScopes cfg = []) | _ => true end.

(** [MdbValidateAttrUniqueness]; [bDelete] is that the value is deleted. *)
Definition MdbValidateAttrUniqueness (fuel : nat) (cfg : VDIR_INDEX_CFG) (pszAttrVal pszEntryDN : cstr) (bDelete : bool) : RM committed unit :=
  if bool_decide (pszAttrVal = []) then rfail ERROR_INVALID_PARAMETER
  else
    backend_call ;;;
    if bDelete || no_scopes cfg then rret tt
    else
      it <- VmDirMDBIndexIteratorInit cfg pszAttrVal ;;
      occ <- scopes_loop fuel cfg pszAttrVal it [] ;;
      if scope_conflict pszEntryDN occ then rfail VMDIR_ERROR_DATA_CONSTRAINT_VIOLATION else rret tt.

End Unique.

(** ** The check is exact *)

Section Exact.
Context {lmdb : Lmdb} {laws : LmdbLaws} (compare : cstr → cstr → bool → Z) `{!CStringCompare compare}.
Context (schema : schema_ctx) (normalize_dn : list Z → list Z) (bBootStrap : bool).
Implicit Types (c : committed) (cfg : VDIR_INDEX_CFG).

Lemma c_chars_byte (v : cstr) : NUL ∉ v → c_chars (byte <$> v) = v.
Proof.
  induction v as [|a v IH]; intros Hv; [done |]. cbn. apply not_elem_of_cons in Hv as [Ha Hv].
  destruct (Z.eqb_spec (byte a) 0) as [H0 | _].
  - destruct Ha. unfold byte in H0. assert (N_of_ascii a = 0%N) as H by lia. rewrite <- (ascii_N_embedding a), H. reflexivity.
  - rewrite IH by done. f_equal. unfold byte_char, byte. rewrite N2Z.id. apply ascii_N_embedding.
Qed.

(** The records from the first with the key on. *)
Lemma range_start db key :
  match list_find (λ r, key_leb db key r.1 = true) (records db) with
  | None => ∀ b, (key, b) ∉ records db
  | Some (i, _) => ∀ b, (key, b) ∈ records db ↔ (key, b) ∈ take_while (λ r, bool_decide (r.1 = key)) (drop i (records db))
  end.
Proof.
  pose proof (records_sorted db) as Hs. destruct (list_find _ _) as [[i r]|] eqn:Hf.
  - apply list_find_Some in Hf as (Hi & Hr & Hbefore). intros b. rewrite <- (take_drop i (records db)) in Hs.
    apply StronglySorted_app_1_r in Hs. rewrite (drop_S _ _ _ Hi) in Hs |- *. apply StronglySorted_inv in Hs as [Hs Hall]. split.
    + intros Hin. assert ((key, b) ∈ r :: drop (S i) (records db)) as Hin'.
      { rewrite <- (take_drop i (records db)), (drop_S _ _ _ Hi) in Hin. apply elem_of_app in Hin as [Hin | Hin]; [| done].
        apply list_elem_of_lookup in Hin as (j & Hj). apply lookup_take_Some in Hj as [Hj Hlt]. destruct (Hbefore j _ Hj Hlt). apply key_refl. }
      apply (take_while_run (λ x y, key_leb db x.1 y.1 = true)); [by constructor | done | by rewrite bool_decide_eq_true_2 |].
      intros y Hy Hle. apply bool_decide_eq_true_2. assert (key_leb db key y.1 = true) as Hge.
      { apply elem_of_cons in Hy as [-> | Hy]; [done |]. rewrite Forall_forall in Hall. eapply key_trans; [exact Hr | by apply Hall]. }
      destruct Hle as [-> | Hle]; [done |]. by eapply key_antisym.
    + intros Hin. rewrite <- (take_drop i (records db)), (drop_S _ _ _ Hi). apply elem_of_app. right.
      clear -Hin. revert Hin. generalize (r :: drop (S i) (records db)). induction l as [|x l IH]; cbn; [done |].
      destruct (bool_decide _); [| by intros ?%elem_of_nil]. intros [-> | Hin]%elem_of_cons; [by left | right; by apply IH].
  - apply list_find_None in Hf. rewrite Forall_forall in Hf. intros b Hin. apply (Hf _ Hin). apply key_refl.
Qed.

(** The scopes of an entry. *)
Definition scopes_of (scopes : list cstr) (dn : cstr) : list (cstr * cstr) := (λ S, (S, dn)) <$> base.filter (λ S, in_scope compare dn S = true) scopes.

Lemma occupied_spec occ S : occupied occ S = true ↔ ∃ x, x ∈ occ ∧ map tolower x.1 = map tolower S.
Proof.
  unfold occupied. rewrite existsb_exists. split; intros (x & Hx & H); exists x.
  - apply bool_decide_eq_true in H. by rewrite list_elem_of_In.
  - split; [by apply list_elem_of_In | by apply bool_decide_eq_true].
Qed.

Lemma occupy_run scopes dn occ c :
  NoDup (map tolower <$> scopes) → (∀ S, S ∈ scopes → in_scope compare dn S = true → occupied occ S = false) →
  occupy compare true scopes dn occ c [] = Some (inr (occ ++ scopes_of scopes dn), c, []).
Proof.
  revert occ. induction scopes as [|S scopes IH]; intros occ Hnd Hfree; cbn [occupy].
  { unfold scopes_of. cbn. by rewrite app_nil_r. }
  cbn in Hnd. apply NoDup_cons in Hnd as [HS Hnd]. unfold scopes_of. rewrite filter_cons. destruct (in_scope compare dn S) eqn:Hin.
  - rewrite (Hfree S) by (done || by left). cbn [negb]. unfold rbind at 1, VmDirAllocateMemory. rewrite (proj2 (Z.eqb_neq _ _)) by lia. cbn [rbind next_outcome rret default from_option head tail Z.eqb].
    unfold rbind at 1. rewrite (proj2 (Z.eqb_neq _ _)) by lia. cbn. rewrite IH; [| done |].
    + unfold scopes_of. by rewrite <- app_assoc.
    + intros T HT Hd. destruct (occupied (occ ++ [(S, dn)]) T) eqn:Ho; [| done]. apply occupied_spec in Ho as (x & [Hx | Hx]%elem_of_app & Hlow).
      * assert (occupied occ T = true) as H by (apply occupied_spec; by exists x). by rewrite (Hfree T) in H by (done || by right).
      * apply list_elem_of_singleton in Hx as ->. cbn in Hlow. destruct HS. rewrite Hlow. by apply list_elem_of_fmap_2.
  - rewrite decide_False by done. apply IH; [done |]. intros T HT. apply Hfree. by right.
Qed.

(** The iterator at the position [i] of the records. *)
Definition at_record (db : DB) (i : nat) (it : index_iterator) : Prop :=
  match records db !! i with
  | Some (t :: w, b) => if t =? BE_INDEX_KEY_TYPE_FWD then bHasNext it = true ∧ it_pszVal it = w ∧ it_eId it = MDBDBTToEntryId b ∧ position (it_cursor it) = Some i
                        else bHasNext it = false
  | _ => bHasNext it = false
  end.

Definition keys_ok (db : DB) : Prop := ∀ r, r ∈ records db → r.1 ≠ [].

Lemma iterator_at_run db (cu : cursor) key op st :
  keys_ok db → ∃ it, iterator_at cu (mdb_cursor_get db cu key op) st [] = Some (inr it, st, []) ∧
    match cursor_target (records db) (key_leb db) (position cu) key op with Some i => at_record db i it | None => bHasNext it = false end.
Proof.
  intros Hk. pose proof (mdb_cursor_get_law db cu key op) as Hlaw. destruct (cursor_target _ _ _ _ _) as [i|]; [| rewrite Hlaw; by eexists].
  destruct Hlaw as (c' & [k b] & Hi & -> & Hpos). cbn [iterator_at fst snd]. unfold at_record. rewrite Hi.
  destruct k as [|t w]; [by destruct (Hk ([], b)); [by eapply list_elem_of_lookup_2 |] |].
  destruct (t =? BE_INDEX_KEY_TYPE_FWD); [| by eexists]. unfold rbind, VmDirAllocateMemory. rewrite (proj2 (Z.eqb_neq _ _)) by (cbn; lia). cbn. by eexists.
Qed.

(** ** The loop *)

Section Loop.
Context (cfg : VDIR_INDEX_CFG) (c : committed) (db : DB) (v : cstr) (dn_at : list Z → cstr).
Context (Hdb : c_indices c (pszAttrName cfg) = Some db) (Hkeys : keys_ok db) (Hstatus : istatus cfg = VDIR_INDEXING_COMPLETE).
Context (Hv : v ≠ []) (Hnul : NUL ∉ v).
Context (Hscopes : NoDup (map tolower <$> pUniqScopes cfg)).

(** The key of the value; values that compare as equal are equal in their normal
    form. *)
Abbreviation vkey := (BE_INDEX_KEY_TYPE_FWD :: (byte <$> v)).
Context (Hcanon : ∀ w b, (BE_INDEX_KEY_TYPE_FWD :: w, b) ∈ records db → compare v (c_chars w) false = 0 → w = byte <$> v).

(** The entries with the value can be read. *)
Context (Hread : ∀ b, (vkey, b) ∈ records db →
  ∃ attrs dn, VmDirMDBSimpleEIdToEntry compare schema bBootStrap (MDBDBTToEntryId b) c [] = Some (inr (attrs, dn), c, []) ∧ dn_at b = c_chars (normalize_dn dn)).

(** They are not in the same scope. *)
Context (Huniq : ∀ i j b b' S, records db !! i = Some (vkey, b) → records db !! j = Some (vkey, b') → i ≠ j → S ∈ pUniqScopes cfg →
  in_scope compare (dn_at b) S = true → in_scope compare (dn_at b') S = true → False).

Definition holders (i : nat) : list (list Z * list Z) := take_while (λ r, bool_decide (r.1 = vkey)) (drop i (records db)).

(** The occupied scopes come from records before the position. *)
Definition occ_ok (i : nat) (occ : list (cstr * cstr)) : Prop :=
  ∀ x, x ∈ occ → ∃ j b, (j < i)%nat ∧ records db !! j = Some (vkey, b) ∧ x.2 = dn_at b ∧ x.1 ∈ pUniqScopes cfg ∧ in_scope compare x.2 x.1 = true.

Lemma lower_inj S T : S ∈ pUniqScopes cfg → T ∈ pUniqScopes cfg → map tolower S = map tolower T → S = T.
Proof.
  intros HS HT Heq. apply list_elem_of_lookup in HS as (i & Hi), HT as (j & Hj).
  assert (i = j) as ->; [| congruence]. eapply (NoDup_lookup _ _ _ (map tolower S) Hscopes); rewrite list_lookup_fmap; [by rewrite Hi | rewrite Hj; cbn; by rewrite Heq].
Qed.

Lemma scopes_loop_run fuel i it occ :
  (length (records db) - i < fuel)%nat → at_record db i it → occ_ok i occ →
  scopes_loop compare schema normalize_dn bBootStrap fuel cfg v it occ c [] =
    Some (inr (occ ++ concat ((λ r, scopes_of (pUniqScopes cfg) (dn_at r.2)) <$> holders i)), c, []).
Proof.
  revert i it occ. induction fuel as [|fuel IH]; intros i it occ Hfuel Hat Hocc; [lia |]. cbn [scopes_loop]. unfold at_record in Hat. unfold holders.
  destruct (records db !! i) as [[k b]|] eqn:Hi.
  2:{ rewrite Hat. rewrite drop_ge by (by apply lookup_ge_None). cbn. by rewrite app_nil_r. }
  rewrite (drop_S _ _ _ Hi). cbn [take_while fst]. destruct k as [|t w]; [by destruct (Hkeys ([], b)); [by eapply list_elem_of_lookup_2 |] |].
  destruct (t =? BE_INDEX_KEY_TYPE_FWD) eqn:Ht.
  2:{ rewrite Hat. rewrite bool_decide_eq_false_2 by (intros [= -> _]; done). cbn. by rewrite app_nil_r. }
  apply Z.eqb_eq in Ht as ->. destruct Hat as (Hb & Hval & Hid & Hpos). rewrite Hb. unfold rbind at 1, VmDirMDBIndexIterate. rewrite Hb.
  unfold committed_db. unfold rbind at 1 2, rget. rewrite Hdb. unfold rret at 1. rewrite run_backend.
  destruct (iterator_at_run db (it_cursor it) [] MDB_NEXT c Hkeys) as (it' & Hrun & Htarget). unfold rbind at 1. rewrite Hrun. unfold rret at 1. cbn [fst snd]. rewrite Hval, Hid.
  assert ((BE_INDEX_KEY_TYPE_FWD :: w, b) ∈ records db) as Hin by (by eapply list_elem_of_lookup_2).
  destruct (compare v (c_chars w) false =? 0) eqn:Hcmp; cbn [negb].
  2:{ rewrite bool_decide_eq_false_2; [cbn; by rewrite app_nil_r |]. intros [= ->]. apply Z.eqb_neq in Hcmp. destruct Hcmp. rewrite c_chars_byte by done. by apply compare_caseless. }
  apply Z.eqb_eq in Hcmp. assert (w = byte <$> v) as -> by (by eapply Hcanon). rewrite bool_decide_eq_true_2 by done.
  destruct (Hread b Hin) as (attrs & dn & Hrd & Hdn). unfold rbind at 1. rewrite Hrd. cbn [fst snd]. rewrite <- Hdn. unfold rbind at 1. rewrite occupy_run; [| done |].
  2:{ intros S HS Hsc. destruct (occupied occ S) eqn:Ho; [| done]. apply occupied_spec in Ho as (x & Hx & Hlow). destruct (Hocc x Hx) as (j & b' & Hj & Hrj & H2 & HxS & Hsc').
      assert (x.1 = S) as Heq by (by apply lower_inj). destruct (Huniq i j b b' S); [done | done | lia | done | done |]. rewrite <- H2. by rewrite <- Heq. }
  rewrite Hstatus. unfold rbind at 1, rret at 1. rewrite (IH (S i)).
  - cbn [fmap list_fmap concat fst snd]. by rewrite <- app_assoc.
  - apply lookup_lt_Some in Hi. lia.
  - cbn in Htarget. rewrite Hpos in Htarget. cbn in Htarget. destruct (decide (S i < length (records db))%nat); [done |].
    unfold at_record. by rewrite (proj2 (lookup_ge_None _ _)) by lia.
  - intros x [Hx | Hx]%elem_of_app.
    + destruct (Hocc x Hx) as (j & b' & Hj & Hrest). exists j, b'. split; [lia | done].
    + unfold scopes_of in Hx. apply list_elem_of_fmap in Hx as (S' & -> & HS'). apply list_elem_of_filter in HS' as [Hsc HS']. exists i, b. by split; [lia |].
Qed.

Lemma iterator_init_run : ∃ it, VmDirMDBIndexIteratorInit cfg v c [] = Some (inr it, c, []) ∧
  match list_find (λ r, key_leb db vkey r.1 = true) (records db) with Some (i, _) => at_record db i it | None => bHasNext it = false end.
Proof.
  unfold VmDirMDBIndexIteratorInit, committed_db. unfold rbind at 1 2 3. cbn [VmDirAllocateMemory Z.eqb rbind next_outcome default from_option head tail rret].
  unfold rbind at 1, rget. rewrite Hdb. unfold rret at 1. rewrite !run_backend. rewrite bool_decide_eq_false_2 by done.
  unfold rbind at 1, VmDirAllocateMemory. rewrite (proj2 (Z.eqb_neq _ _)) by lia. cbn [rbind next_outcome default from_option head tail Z.eqb rret]. rewrite run_backend.
  destruct (iterator_at_run db (mdb_cursor_open db) vkey MDB_SET_RANGE c Hkeys) as (it & Hrun & Ht). exists it. split; [exact Hrun |].
  cbn [cursor_target] in Ht. by destruct (list_find _ _) as [[i r]|].
Qed.

(** C18: The check of the uniqueness scopes is exact: when the index is complete,
    no value in it equals the new one only without case, the entries that have
    the value can be read and no two of them lie in the same scope, and the
    scopes differ without case, [MdbValidateAttrUniqueness] returns, and refuses
    the value exactly when the new entry lies in a scope together with an entry
    of another DN that already has it.  An entry lies in a scope when its DN ends
    with the text of the scope, also inside a component ([scope_inside_rdn]), or
    the scope is the whole directory. *)
Theorem unique_check_exact fuel dn :
  pUniqScopes cfg ≠ [] → (length (records db) < fuel)%nat →
  ∃ r, MdbValidateAttrUniqueness compare schema normalize_dn bBootStrap fuel cfg v dn false c [] = Some (r, c, []) ∧
    (r = inr tt ∨ r = inl VMDIR_ERROR_DATA_CONSTRAINT_VIOLATION) ∧
    (r = inl VMDIR_ERROR_DATA_CONSTRAINT_VIOLATION ↔
     ∃ b S, (vkey, b) ∈ records db ∧ S ∈ pUniqScopes cfg ∧ in_scope compare (dn_at b) S = true ∧ in_scope compare dn S = true ∧
            compare dn (dn_at b) false ≠ 0).
Proof.
  intros Hsome Hfuel. destruct iterator_init_run as (it & Hinit & Hit). pose proof (range_start db vkey) as Hrange.
  assert (∃ hs, scopes_loop compare schema normalize_dn bBootStrap fuel cfg v it [] c [] =
            Some (inr (concat ((λ r, scopes_of (pUniqScopes cfg) (dn_at r.2)) <$> hs)), c, []) ∧ Forall (λ r, r.1 = vkey) hs ∧
            ∀ b, (vkey, b) ∈ records db ↔ (vkey, b) ∈ hs) as (hs & Hloop & Hkey & Hhs).
  { destruct (list_find _ _) as [[i r]|].
    - exists (holders i). split; [| split; [| exact Hrange]].
      + rewrite (scopes_loop_run fuel i) by (done || lia || by intros x ?%elem_of_nil). done.
      + unfold holders. clear. induction (drop i (records db)) as [|x l IH]; cbn; [constructor |]. case_bool_decide; [by constructor | constructor].
    - exists []. split; [| split; [constructor |]].
      + destruct fuel as [|fuel]; [lia |]. cbn [scopes_loop]. by rewrite Hit.
      + intros b. split; [by intros ?%Hrange | by intros ?%elem_of_nil]. }
  set (occ := concat _) in Hloop. exists (if scope_conflict compare dn occ then inl VMDIR_ERROR_DATA_CONSTRAINT_VIOLATION else inr tt).
  split; [| split; [destruct (scope_conflict _ _ _); tauto |]].
  - unfold MdbValidateAttrUniqueness. rewrite bool_decide_eq_false_2 by done. rewrite run_backend. unfold no_scopes. rewrite bool_decide_eq_false_2 by done. cbn [andb orb].
    unfold rbind at 1. rewrite Hinit. unfold rbind at 1. rewrite Hloop. by destruct (scope_conflict _ _ _).
  - transitivity (scope_conflict compare dn occ = true); [by destruct (scope_conflict _ _ _) |]. unfold scope_conflict. rewrite existsb_exists. unfold occ. split.
    + intros (x & Hx & [Hne Hsc]%andb_true_iff). apply in_concat in Hx as (l & Hl & Hx). apply list_elem_of_In in Hl, Hx. apply list_elem_of_fmap in Hl as ([k b] & -> & Hr).
      unfold scopes_of in Hx. apply list_elem_of_fmap in Hx as (S & -> & HS). apply list_elem_of_filter in HS as [Hin HS]. cbn in *.
      rewrite Forall_forall in Hkey. specialize (Hkey _ Hr). cbn in Hkey. subst k. exists b, S. split; [by apply Hhs |]. apply negb_true_iff, Z.eqb_neq in Hne. tauto.
    + intros (b & S & Hb & HS & Hin & Hsc & Hne). exists (S, dn_at b). split.
      * apply in_concat. exists (scopes_of (pUniqScopes cfg) (dn_at b)). split; apply list_elem_of_In.
        -- apply list_elem_of_fmap. exists (vkey, b). split; [done | by apply Hhs].
        -- unfold scopes_of. apply list_elem_of_fmap. exists S. split; [done |]. by apply list_elem_of_filter.
      * cbn. rewrite Hsc, andb_true_r. by apply negb_true_iff, Z.eqb_neq.
Qed.

End Loop.
End Exact.

(** ** Examples *)

Definition scope_ex : cstr := ["c"; "n"; "="; "a"]%char.
Definition scope_cfg : VDIR_INDEX_CFG := INDEX_CFG type_cn true false false VDIR_INDEXING_COMPLETE [scope_ex] [].

(** One entry, [cn=a], has the value [v]. *)
Definition scope_record : list Z * list Z := ([48; 118], MDBEntryIdToDBT 100).
Definition scope_store : committed (lmdb := table_lmdb) :=
  COMMITTED (lmdb := table_lmdb) (λ t, if bool_decide (t = type_cn) then Some (DupTable false {[scope_record]}) else None)
    (UniqueTable false {[MDBEntryIdToDBT 100 := wire_entry attrs_ex]}).

Lemma scope_records : records (LmdbLaws := table_laws) (DupTable false {[scope_record]}) = [scope_record].
Proof.
  change (table_records (DupTable false {[scope_record]}) = [scope_record]). apply Permutation_singleton_r.
  rewrite table_records_perm. cbn. by rewrite elements_singleton.
Qed.

Lemma scope_blob : mdb_get (Lmdb := table_lmdb) (c_entries scope_store) (MDBEntryIdToDBT 100) = Some (wire_entry attrs_ex).
Proof. vm_compute. reflexivity. Qed.

Lemma decode_ex {St} (c : St) : VmDirDecodeEntry simple_compare schema_ex false 100 (wire_entry attrs_ex) None c [] = Some (inr (attrs_ex, [99; 110; 61; 97]), c, []).
Proof. vm_compute. reflexivity. Qed.

Lemma read_ex (c : committed (lmdb := table_lmdb)) :
  mdb_get (c_entries c) (MDBEntryIdToDBT 100) = Some (wire_entry attrs_ex) →
  VmDirMDBSimpleEIdToEntry simple_compare schema_ex false 100 c [] = Some (inr (attrs_ex, [99; 110; 61; 97]), c, []).
Proof.
  intros H. unfold VmDirMDBSimpleEIdToEntry. rewrite !run_backend. unfold rbind at 1, VmDirMDBEIdToEntry, set_backend_error, rtry. unfold rbind at 1 2, rget.
  rewrite run_backend, H. unfold rbind at 1, rtry, VmDirAllocateMemory. rewrite (proj2 (Z.eqb_neq _ _)) by (vm_compute; done). cbn [rbind next_outcome default from_option head tail Z.eqb rret].
  rewrite decode_ex. reflexivity.
Qed.

(** A second entry with the value, below the first, is refused. *)
Lemma unique_check_exact_witness :
  MdbValidateAttrUniqueness (lmdb := table_lmdb) simple_compare schema_ex id false 5 scope_cfg ["v"]%char
    ["o"; "u"; "="; "b"; ","; "c"; "n"; "="; "a"]%char false scope_store [] =
  Some (inl VMDIR_ERROR_DATA_CONSTRAINT_VIOLATION, scope_store, []).
Proof.
  edestruct (unique_check_exact (laws := table_laws) simple_compare schema_ex id false scope_cfg scope_store (DupTable false {[scope_record]}) ["v"]%char
               (λ _, scope_ex)) with (fuel := 5%nat) (dn := ["o"; "u"; "="; "b"; ","; "c"; "n"; "="; "a"]%char) as (r & Hrun & _ & Hr).
  - reflexivity.
  - intros r Hr. rewrite scope_records in Hr. apply list_elem_of_singleton in Hr as ->. done.
  - reflexivity.
  - done.
  - apply (bool_decide_unpack _). vm_compute. exact I.
  - apply (bool_decide_unpack _). vm_compute. exact I.
  - intros w b Hin _. rewrite scope_records in Hin. apply list_elem_of_singleton in Hin. injection Hin as -> _. reflexivity.
  - intros b Hin. rewrite scope_records in Hin. apply list_elem_of_singleton in Hin. injection Hin as ->. exists attrs_ex, [99; 110; 61; 97]. split; [exact (read_ex scope_store scope_blob) | reflexivity].
  - intros i j b b' S Hi Hj Hij. rewrite scope_records in Hi, Hj. destruct i as [|i], j as [|j]; done.
  - done.
  - rewrite scope_records. apply (bool_decide_unpack _). exact I.
  - rewrite Hrun. rewrite (proj2 Hr); [reflexivity |]. exists (MDBEntryIdToDBT 100), scope_ex. split; [rewrite scope_records; by left |].
    split; [by left |]. split; [reflexivity |]. split; [reflexivity |]. done.
Defined.

(** A scope is compared with the end of the DN, wherever that begins. *)
Example scope_inside_rdn : in_scope simple_compare ["x"; "c"; "n"; "="; "a"]%char scope_ex = true.
Proof. reflexivity. Qed.
