(* ===== verification/IndexWrite.v ===== *)
(** * IndexWrite: entries and their indices in the LMDB store

    [vmdir/server/mdb-store/indexwriteutil.c] and [entry.c]: adding and removing
    an entry with all its index records and its metadata.  The entry database
    holds the bytes of [EntryCodec], the index databases lead from keys to entry
    ids and are those that [IndexScan] reads; the metadata of the attributes, in
    the form of [Metadata], are the records of two more indices.  Values are
    checked by [IndexUnique] before they are written. *)

From stdpp Require Import sorting.
From S2P Require Import Prelude Heap StringList CString HashMap UtdVector Metadata Effects RaftLog Raft RaftReplicate Filter Candidates Search IndexScan EntryCodec IndexUnique.

Open Scope Z_scope.

(** ** State *)

(** [VDIR_ATTRIBUTE], with the id of its descriptor. *)
Record attribute := ATTR {
  at_type : cstr;
  at_id : option Z;
  at_vals : list Filter.berval;
  at_pMetaData : option attr_metadata;
  valueMetaDataToAdd : list value_metadata
}.

(** [VDIR_ENTRY]: [newpdn] is there when the entry moves, [ldapDN] is the DN in
    the normal form of RFC 4514. *)
Record VDIR_ENTRY := ENT {
  eId : Z;
  edn : Filter.berval;
  epdn : Filter.berval;
  newpdn : option Filter.berval;
  ldapDN : Filter.berval;
  eattrs : list attribute
}.

(** The databases, inside the transaction of the operation: the indices, the
    entries by id, and the sequence of entry ids; and what other transactions
    see. *)
Record be_state {lmdb : Lmdb} := BE { be_ix : index_env; be_entries : DB; be_seq : Z; be_committed : committed }.
Arguments BE {_} _ _ _ _.

(** The rest of the server: string comparison, the schema, the normal form of
    DNs, and whether values have metadata of their own
    ([VDIR_CONCURRENT_ATTR_VALUE_UPDATE_ENABLED]); [scan_fuel] bounds the loops
    over the records of an index. *)
Record be_globals := GLOBALS {
  g_compare : cstr → cstr → bool → Z;
  g_schema : schema_ctx;
  g_normalize_dn : list Z → list Z;
  g_bootstrap : bool;
  concurrent_values : bool;
  scan_fuel : nat
}.

Inductive index_op := BE_INDEX_OP_TYPE_CREATE | BE_INDEX_OP_TYPE_DELETE | BE_INDEX_OP_TYPE_UPDATE.

#[export] Instance index_op_eq_dec : EqDecision index_op.
Proof. solve_decision. Defined.

Definition ATTR_ATTR_META_DATA : cstr := ["a"; "t"; "t"; "r"; "i"; "b"; "u"; "t"; "e"; "M"; "e"; "t"; "a"; "D"; "a"; "t"; "a"]%char.
Definition ATTR_ATTR_VALUE_META_DATA : cstr :=
  ["a"; "t"; "t"; "r"; "i"; "b"; "u"; "t"; "e"; "V"; "a"; "l"; "u"; "e"; "M"; "e"; "t"; "a"; "D"; "a"; "t"; "a"]%char.

Section Write.
Context {lmdb : Lmdb} (g : be_globals).
Implicit Types (s : be_state).

Definition set_index (name : cstr) (db : DB) s : be_state :=
  BE (INDEX_ENV (pIndexCfgMap (be_ix s)) (λ t, if bool_decide (t = name) then Some db else mdbIndexDBs (be_ix s) t)) (be_entries s) (be_seq s) (be_committed s).
Definition set_entries (db : DB) s : be_state := BE (be_ix s) db (be_seq s) (be_committed s).
Definition set_seq (n : Z) s : be_state := BE (be_ix s) (be_entries s) n (be_committed s).

Definition get_index (name : cstr) : RM be_state DB :=
  s <- rget ;; rlift (mdbIndexDBs (be_ix s) name).

(** A transaction that only reads. *)
Definition read_only {A} (m : RM committed A) : RM be_state A := λ s e,
  match m (be_committed s) e with Some (r, _, e') => Some (r, s, e') | None => None end.

(** ** Records *)

(** [MdbDeleteKeyValue] *)
Definition MdbDeleteKeyValue (name : cstr) (key value : list Z) (bIsUniqueVal : bool) : RM be_state unit :=
  backend_call ;;;
  db <- get_index name ;;
  match mdb_del db key (if bIsUniqueVal then None else Some value) with
  | None => rfail MDB_NOTFOUND
  | Some db => rset (set_index name db)
  end.

(** [MdbUpdateKeyValue] *)
Definition MdbUpdateKeyValue (name : cstr) (key value : list Z) (bIsUniqueVal : bool) (op : index_op) : RM be_state unit :=
  match op with
  | BE_INDEX_OP_TYPE_DELETE => MdbDeleteKeyValue name key value bIsUniqueVal
  | _ =>
      backend_call ;;;
      db <- get_index name ;;
      match mdb_put (bool_decide (op = BE_INDEX_OP_TYPE_CREATE) && bIsUniqueVal) db key value with
      | None => rfail MDB_KEYEXIST
      | Some db => rset (set_index name db)
      end
  end.

(** The check of a value, for the entry with the DN. *)
Definition validate (cfg : VDIR_INDEX_CFG) (v dn : list Z) (op : index_op) : RM committed unit :=
  MdbValidateAttrUniqueness (g_compare g) (g_schema g) (g_normalize_dn g) (g_bootstrap g) (scan_fuel g) cfg (c_chars v) (c_chars dn)
    (bool_decide (op = BE_INDEX_OP_TYPE_DELETE)).

(** The keys of a value. *)
Fixpoint update_values (dn : Filter.berval) (cfg : VDIR_INDEX_CFG) (entryId : Z) (op : index_op) (vals : list Filter.berval) : RM be_state unit :=
  match vals with
  | [] => rret tt
  | v :: vals =>
      read_only (validate cfg (norm_or_raw v) (norm_or_raw dn) op) ;;;
      (if iTypesEquality cfg
       then MdbUpdateKeyValue (pszAttrName cfg) (fwd_key (norm_or_raw v)) (MDBEntryIdToDBT entryId) (bGlobalUniq cfg) op else rret tt) ;;;
      (if iTypesSubstr cfg
       then MdbUpdateKeyValue (pszAttrName cfg) (rev_key (norm_or_raw v)) (MDBEntryIdToDBT entryId) (bGlobalUniq cfg) op else rret tt) ;;;
      update_values dn cfg entryId op vals
  end.

(** [MdbUpdateIndicesForAttr] *)
Definition MdbUpdateIndicesForAttr (entryDN : Filter.berval) (attrType : cstr) (vals : list Filter.berval) (entryId : Z) (op : index_op) : RM be_state unit :=
  s <- rget ;;
  o <- VmDirIndexCfgAcquire (be_ix s) attrType VDIR_INDEX_WRITE ;;
  match o with
  | None => rret tt
  | Some cfg =>
      VmDirMDBIndexGetDBi (be_ix s) cfg ;;;
      r <- rtry (VmDirAllocateMemory (fold_right (λ v m, Z.max (Z.of_nat (length (norm_or_raw v))) m) 0 vals + 1)) ;;
      match r with
      | inl _ => rfail VMDIR_ERROR_BACKEND_OPERATIONS
      | inr _ => update_values entryDN cfg entryId op vals
      end
  end.

(** ** Metadata *)

(** The keys: the entry, a colon, the attribute. *)
Definition entry_prefix (entryId : Z) : list Z := MDBEntryIdToDBT entryId ++ [58].
Definition meta_key (entryId attrId : Z) : list Z := entry_prefix entryId ++ enc 2 attrId.

(** The characters of a string as bytes. *)
Definition to_bytes (x : list ascii) : list Z := byte <$> x.

(** [MdbUpdateAttrMetaData] *)
Definition MdbUpdateAttrMetaData (a : attribute) (entryId : Z) (op : index_op) : RM be_state unit :=
  if bool_decide (op = BE_INDEX_OP_TYPE_UPDATE) && bool_decide ((at_pMetaData a ≫= pszOrigInvoId) = None) then rret tt
  else
    s <- rget ;;
    o <- VmDirIndexCfgAcquire (be_ix s) ATTR_ATTR_META_DATA VDIR_INDEX_WRITE ;;
    match o with
    | None => rub
    | Some cfg =>
        VmDirMDBIndexGetDBi (be_ix s) cfg ;;;
        if negb (iTypesEquality cfg && negb (iTypesSubstr cfg) && bGlobalUniq cfg) then rub
        else match at_id a with
             | None => rub
             | Some aid =>
                 match VmDirMetaDataSerialize (at_pMetaData a) with
                 | (ERROR_SUCCESS, Some m) => MdbUpdateKeyValue (pszAttrName cfg) (meta_key entryId aid) (to_bytes m) true op
                 | (err, _) => rfail err
                 end
             end
    end.

(** [MdbDeleteAllReccord]: a new cursor for every record. *)
Fixpoint MdbDeleteAllReccord (fuel : nat) (name : cstr) (key : list Z) : RM be_state unit :=
  match fuel with
  | O => rub
  | S fuel =>
      backend_call ;;;
      db <- get_index name ;;
      backend_call ;;;
      match mdb_cursor_get db (mdb_cursor_open db) key MDB_SET_RANGE with
      | None => rret tt
      | Some (c, currKey, _) =>
          if bool_decide (key `prefix_of` currKey) then
            backend_call ;;;
            db <- rlift (mdb_cursor_del db c) ;;
            rset (set_index name db) ;;;
            MdbDeleteAllReccord fuel name key
          else rret tt
      end
  end.

(** [MdbDeleteAllAttrMetaData] *)
Definition MdbDeleteAllAttrMetaData (entryId : Z) : RM be_state unit :=
  s <- rget ;;
  o <- VmDirIndexCfgAcquire (be_ix s) ATTR_ATTR_META_DATA VDIR_INDEX_WRITE ;;
  match o with
  | None => rub
  | Some cfg =>
      VmDirMDBIndexGetDBi (be_ix s) cfg ;;;
      MdbDeleteAllReccord (scan_fuel g) (pszAttrName cfg) (entry_prefix entryId)
  end.

(** *** Metadata of values *)

(** The index, which has keys with many records. *)
Definition value_meta_cfg : RM be_state VDIR_INDEX_CFG :=
  s <- rget ;;
  o <- VmDirIndexCfgAcquire (be_ix s) ATTR_ATTR_VALUE_META_DATA VDIR_INDEX_READ ;;
  match o with
  | None => rub
  | Some cfg => VmDirMDBIndexGetDBi (be_ix s) cfg ;;; if iTypesEquality cfg && negb (iTypesSubstr cfg) then rret cfg else rub
  end.

(** The loop of [VmDirMDBGetAttrValueMetaData]. *)
Fixpoint value_meta_loop (fuel : nat) (db : DB) (key : list Z) (c : cursor) (currKey : list Z) (op : cursor_op) (q : list value_metadata)
    : RM be_state (list value_metadata) :=
  match fuel with
  | O => rub
  | S fuel =>
      backend_call ;;;
      match mdb_cursor_get db c currKey op with
      | None => rret q
      | Some (c, currKey, value) =>
          if negb (bool_decide (take (length key) currKey = key)) then rret q
          else
            block <- copy_block value ;;
            match VmDirValueMetaDataDeserialize ((byte_char <$> block) ++ [NUL]) with
            | None => rub
            | Some (ERROR_SUCCESS, Some m) => VmDirAllocateMemory 24 ;;; value_meta_loop fuel db key c currKey MDB_NEXT (q ++ [m])
            | Some (err, _) => rfail err
            end
      end
  end.

(** [VmDirMDBGetAttrValueMetaData] *)
Definition VmDirMDBGetAttrValueMetaData (entryId attrId : Z) : RM be_state (list value_metadata) :=
  if negb (concurrent_values g) then rret []
  else
    r <- rtry (cfg <- value_meta_cfg ;;
               db <- get_index (pszAttrName cfg) ;;
               backend_call ;;;
               value_meta_loop (scan_fuel g) db (meta_key entryId attrId) (mdb_cursor_open db) (meta_key entryId attrId) MDB_SET_KEY []) ;;
    match r with inl _ => rfail ERROR_BACKEND_ERROR | inr q => rret q end.

(** The record of the metadata of one value. *)
Definition put_value_meta (name : cstr) (key : list Z) (op : index_op) (m : value_metadata) : RM be_state unit :=
  match VmDirValueMetaDataSerialize (Some m) with
  | (ERROR_SUCCESS, Some (b, len)) => MdbUpdateKeyValue name key (take (Z.to_nat len) (to_bytes b)) false op
  | (err, _) => rfail err
  end.

Fixpoint delete_value_metas (name : cstr) (key : list Z) (q : list value_metadata) : RM be_state unit :=
  match q with [] => rret tt | m :: q => put_value_meta name key BE_INDEX_OP_TYPE_DELETE m ;;; delete_value_metas name key q end.

(** Metadata that a newer one of the same value replaces. *)
Definition obsolete (m old : value_metadata) : bool :=
  (dwValSize m =? dwValSize old) &&
  bool_decide (take (Z.to_nat (dwValSize m)) (pszValue old) = take (Z.to_nat (dwValSize m)) (pszValue m)) &&
  (g_compare g (pszValChgOrigTime old) (pszValChgOrigTime m) true <=? 0).

(** [_VmDirDeleteOldValueMetaData]: deleting calls
    [VmDirMdbUpdateAttrValueMetaData] again, which then only deletes. *)
Definition _VmDirDeleteOldValueMetaData (entryId attrId : Z) (m : value_metadata) : RM be_state unit :=
  cur <- VmDirMDBGetAttrValueMetaData entryId attrId ;;
  match base.filter (λ old, obsolete m old = true) cur with
  | [] => rret tt
  | q => cfg <- value_meta_cfg ;; delete_value_metas (pszAttrName cfg) (meta_key entryId attrId) q
  end.

Fixpoint update_value_metas (entryId attrId : Z) (name : cstr) (q : list value_metadata) : RM be_state unit :=
  match q with
  | [] => rret tt
  | m :: q =>
      _VmDirDeleteOldValueMetaData entryId attrId m ;;;
      put_value_meta name (meta_key entryId attrId) BE_INDEX_OP_TYPE_UPDATE m ;;;
      update_value_metas entryId attrId name q
  end.

(** [VmDirMdbUpdateAttrValueMetaData], for a deletion or not. *)
Definition VmDirMdbUpdateAttrValueMetaData (entryId attrId : Z) (bDelete : bool) (q : list value_metadata) : RM be_state unit :=
  if negb (concurrent_values g) || bool_decide (q = []) then rret tt
  else
    cfg <- value_meta_cfg ;;
    if bDelete then delete_value_metas (pszAttrName cfg) (meta_key entryId attrId) q
    else update_value_metas entryId attrId (pszAttrName cfg) q.

(** ** The index of parents *)

Definition parent_index (op : index_op) (pdn : Filter.berval) (entryId : Z) : RM be_state unit :=
  s <- rget ;;
  parentId <- VmDirMDBDNToEntryId (be_ix s) pdn ;;
  o <- VmDirIndexCfgAcquire (be_ix s) ATTR_PARENT_ID VDIR_INDEX_WRITE ;;
  match o with
  | None => rub
  | Some cfg =>
      VmDirMDBIndexGetDBi (be_ix s) cfg ;;;
      if bGlobalUniq cfg then rub
      else MdbUpdateKeyValue (pszAttrName cfg) (MDBEntryIdToDBT parentId) (MDBEntryIdToDBT entryId) false op
  end.

(** [MDBCreateParentIdIndex], [MDBDeleteParentIdIndex] *)
Definition MDBCreateParentIdIndex (pdn : Filter.berval) (entryId : Z) : RM be_state unit :=
  set_backend_error (parent_index BE_INDEX_OP_TYPE_UPDATE pdn entryId).
Definition MDBDeleteParentIdIndex (pdn : Filter.berval) (entryId : Z) : RM be_state unit :=
  set_backend_error (parent_index BE_INDEX_OP_TYPE_DELETE pdn entryId).

(** ** The entry database *)

(** [MdbCreateEIDIndex], [MDBDeleteEIdIndex] *)
Definition MdbCreateEIDIndex (entryId : Z) (encodedEntry : list Z) (bIsCreateIndex : bool) : RM be_state unit :=
  backend_call ;;;
  s <- rget ;;
  match mdb_put bIsCreateIndex (be_entries s) (MDBEntryIdToDBT entryId) encodedEntry with
  | None => rfail MDB_KEYEXIST
  | Some db => rset (set_entries db)
  end.

Definition MDBDeleteEIdIndex (entryId : Z) : RM be_state unit :=
  set_backend_error
    (backend_call ;;;
     s <- rget ;;
     match mdb_del (be_entries s) (MDBEntryIdToDBT entryId) None with
     | None => rfail MDB_NOTFOUND
     | Some db => rset (set_entries db)
     end).

(** The errors of a step, with one that gets a meaning of its own. *)
Definition to_backend (from : option dwerror) (to : dwerror) (m : RM be_state unit) : RM be_state unit :=
  r <- rtry m ;;
  match r with
  | inl err => rfail match from with Some f => MDBToBackendError err f to | None => ERROR_BACKEND_ERROR end
  | inr x => rret x
  end.

(** ** Adding *)

Definition is_dn (t : cstr) : bool := g_compare g t ATTR_DN false =? 0.

(** The two normal forms of the DN are the same. *)
Definition same_dn_form (e : VDIR_ENTRY) : bool :=
  g_compare g (c_chars (norm_or_raw (edn e))) (c_chars (default [] (bvnorm_val (ldapDN e)))) true =? 0.

(** [_VmDirRFC4154DNAddCompliance]: the other normal form of the DN is indexed
    too when it differs. *)
Definition _VmDirRFC4154DNAddCompliance (e : VDIR_ENTRY) (entryId : Z) (op : index_op) : RM be_state unit :=
  if same_dn_form e then rret tt
  else MdbUpdateIndicesForAttr (edn e) ATTR_DN [ldapDN e] entryId op.

(** [VmDirNormalizeDN] of the first value. *)
Definition normalize_first (vals : list Filter.berval) : RM be_state (list Filter.berval) :=
  match vals with
  | [] => rub
  | v :: vals =>
      match bvnorm_val v with
      | Some _ => rret (v :: vals)
      | None => backend_call ;;; rret (Filter.BER (bv_val v) (Some (g_normalize_dn g (bv_val v))) :: vals)
      end
  end.

(** First the DN, so that an existing entry is noticed. *)
Fixpoint add_dn (e : VDIR_ENTRY) (entryId : Z) (attrs : list attribute) : RM be_state unit :=
  match attrs with
  | [] => rret tt
  | a :: attrs =>
      (if is_dn (at_type a) then
         vals <- normalize_first (at_vals a) ;;
         to_backend (Some MDB_KEYEXIST) VMDIR_ERROR_BACKEND_ENTRY_EXISTS
           (MdbUpdateIndicesForAttr (edn e) (at_type a) vals entryId BE_INDEX_OP_TYPE_CREATE ;;;
            _VmDirRFC4154DNAddCompliance e entryId BE_INDEX_OP_TYPE_CREATE) ;;;
         to_backend None ERROR_BACKEND_ERROR (MdbUpdateAttrMetaData a entryId BE_INDEX_OP_TYPE_CREATE)
       else rret tt) ;;;
      add_dn e entryId attrs
  end.

Fixpoint add_others (e : VDIR_ENTRY) (entryId : Z) (attrs : list attribute) : RM be_state unit :=
  match attrs with
  | [] => rret tt
  | a :: attrs =>
      (match valueMetaDataToAdd a with
       | [] => rret tt
       | q => to_backend None ERROR_BACKEND_ERROR
                match at_id a with None => rub | Some aid => VmDirMdbUpdateAttrValueMetaData entryId aid false q end
       end) ;;;
      (if is_dn (at_type a) then rret tt
       else
         to_backend (Some MDB_KEYEXIST) ERROR_BACKEND_CONSTRAINT
           (MdbUpdateIndicesForAttr (edn e) (at_type a) (at_vals a) entryId BE_INDEX_OP_TYPE_CREATE) ;;;
         to_backend None ERROR_BACKEND_ERROR (MdbUpdateAttrMetaData a entryId BE_INDEX_OP_TYPE_CREATE)) ;;;
      add_others e entryId attrs
  end.

(** What is encoded. *)
Definition stored_attrs (e : VDIR_ENTRY) : list VDIR_ATTRIBUTE :=
  (λ a, ATTRIBUTE (at_type a) (at_id a) (bv_val <$> at_vals a) (Z.of_nat (length (at_vals a)))) <$> eattrs e.

(** The id of the entry: its own, or the next of the sequence. *)
Definition next_entry_id (e : VDIR_ENTRY) : RM be_state Z :=
  if negb (eId e =? 0) then rret (eId e)
  else backend_call ;;; s <- rget ;; backend_call ;;; rset (set_seq (u64 (be_seq s + 1))) ;;; rret (be_seq s).

(** [VmDirMDBAddEntry] *)
Definition VmDirMDBAddEntry (e : VDIR_ENTRY) : RM be_state unit :=
  set_backend_error
    (encodedEntry <- VmDirEncodeEntry (g_compare g) (stored_attrs e) true ;;
     entryId <- next_entry_id e ;;
     (if entryId >? 0 then rret tt else rub) ;;;
     to_backend (Some VMDIR_ERROR_BACKEND_ENTRY_NOTFOUND) ERROR_BACKEND_PARENT_NOTFOUND (MDBCreateParentIdIndex (epdn e) entryId) ;;;
     add_dn e entryId (eattrs e) ;;;
     add_others e entryId (eattrs e) ;;;
     to_backend (Some MDB_KEYEXIST) ERROR_BACKEND_CONSTRAINT (MdbCreateEIDIndex entryId encodedEntry true)).

(** ** Removing *)

(** A record that is missing does not stop the removal. *)
Definition unless_missing (m : RM be_state unit) : RM be_state unit :=
  r <- rtry m ;;
  match r with inl err => if bool_decide (err = MDB_NOTFOUND) then rret tt else rfail err | inr x => rret x end.

Fixpoint remove_attrs (e : VDIR_ENTRY) (entryId : Z) (attrs : list attribute) : RM be_state unit :=
  match attrs with
  | [] => rret tt
  | a :: attrs =>
      unless_missing (MdbUpdateIndicesForAttr (edn e) (at_type a) (at_vals a) entryId BE_INDEX_OP_TYPE_DELETE) ;;;
      remove_attrs e entryId attrs
  end.

(** [VmDirMDBAgeOffEntry]: errors of the metadata are only logged. *)
Definition VmDirMDBAgeOffEntry (e : VDIR_ENTRY) : RM be_state unit :=
  set_backend_error
    (MDBDeleteParentIdIndex (epdn e) (eId e) ;;;
     remove_attrs e (eId e) (eattrs e) ;;;
     rtry (MdbDeleteAllAttrMetaData (eId e)) ;;;
     unless_missing (MDBDeleteEIdIndex (eId e))).

End Write.
(** ** What the operations do to the indices *)

Section Effects.
Context {lmdb : Lmdb} {laws : LmdbLaws} (g : be_globals).
Implicit Types (s : be_state) (L : list (cstr * (list Z * list Z))).

(** A record of an index. *)
Definition idx s (name : cstr) (r : list Z * list Z) : Prop := ∃ db, mdbIndexDBs (be_ix s) name = Some db ∧ r ∈ records db.

(** Every index is open, and has duplicate keys unless it is unique. *)
Definition wf s : Prop :=
  (∀ t cfg, pIndexCfgMap (be_ix s) t = Some cfg → ∃ db, mdbIndexDBs (be_ix s) (pszAttrName cfg) = Some db ∧ dupsort db = negb (bGlobalUniq cfg)) ∧
  dupsort (be_entries s) = false.

(** The same indices, apart from their records. *)
Definition db_shape (db : DB) := (dupsort db, key_leb db).
Definition same_shape s s' : Prop :=
  pIndexCfgMap (be_ix s') = pIndexCfgMap (be_ix s) ∧ be_entries s' = be_entries s ∧ be_committed s' = be_committed s ∧
  ∀ n, db_shape <$> mdbIndexDBs (be_ix s') n = db_shape <$> mdbIndexDBs (be_ix s) n.

Definition adds s s' L : Prop := same_shape s s' ∧ ∀ n r, idx s' n r ↔ idx s n r ∨ (n, r) ∈ L.
Definition removes s s' L : Prop := same_shape s s' ∧ ∀ n r, idx s' n r ↔ idx s n r ∧ (n, r) ∉ L.

Lemma same_shape_refl s : same_shape s s.
Proof. done. Qed.
Lemma same_shape_trans s1 s2 s3 : same_shape s1 s2 → same_shape s2 s3 → same_shape s1 s3.
Proof. intros (H1 & H2 & H3 & H4) (H5 & H6 & H7 & H8). split; [congruence |]. split; [congruence |]. split; [congruence |]. intros n. by rewrite H8. Qed.

Lemma adds_refl s : adds s s [].
Proof. split; [done |]. intros n r. split; [by left | by intros [? | []%elem_of_nil]]. Qed.
Lemma adds_trans s1 s2 s3 L1 L2 : adds s1 s2 L1 → adds s2 s3 L2 → adds s1 s3 (L1 ++ L2).
Proof. intros [H1 H2] [H3 H4]. split; [by eapply same_shape_trans |]. intros n r. rewrite H4, H2, elem_of_app. tauto. Qed.
Lemma removes_refl s : removes s s [].
Proof. split; [done |]. intros n r. split; [intros; split; [done | apply not_elem_of_nil] | by intros [? _]]. Qed.
Lemma removes_trans s1 s2 s3 L1 L2 : removes s1 s2 L1 → removes s2 s3 L2 → removes s1 s3 (L1 ++ L2).
Proof. intros [H1 H2] [H3 H4]. split; [by eapply same_shape_trans |]. intros n r. rewrite H4, H2, elem_of_app. tauto. Qed.

Lemma wf_shape s s' : wf s → same_shape s s' → wf s'.
Proof.
  intros [Hwf He] (Hc & Hent & _ & Hd). split; [| by rewrite Hent]. intros t cfg Ht. rewrite Hc in Ht. destruct (Hwf t cfg Ht) as (db & Hdb & Hdup).
  specialize (Hd (pszAttrName cfg)). rewrite Hdb in Hd. destruct (mdbIndexDBs (be_ix s') (pszAttrName cfg)) as [db'|]; [| done]. exists db'. split; [done |]. unfold db_shape in Hd; cbn in Hd; injection Hd as Hd _; congruence.
Qed.

(** A unique database has one record for a key. *)
Lemma unique_record db k v w : dupsort db = false → (k, v) ∈ records db → (k, w) ∈ records db → v = w.
Proof.
  intros Hd Hv Hw. pose proof (records_unique db Hd) as Hnd. apply list_elem_of_lookup in Hv as (i & Hi), Hw as (j & Hj).
  assert (i = j) as ->; [| congruence]. apply (NoDup_lookup _ _ _ k Hnd); rewrite list_lookup_fmap; [by rewrite Hi | by rewrite Hj].
Qed.

Lemma set_index_effect s name db db' :
  mdbIndexDBs (be_ix s) name = Some db → dupsort db' = dupsort db → key_leb db' = key_leb db → same_shape s (set_index name db' s) ∧
    ∀ n r, idx (set_index name db' s) n r ↔ if bool_decide (n = name) then r ∈ records db' else idx s n r.
Proof.
  intros Hdb Hd Hk. split.
  - split; [done |]. split; [done |]. split; [done |]. intros n. cbn. case_bool_decide; [subst n; rewrite Hdb; cbn; unfold db_shape; congruence | done].
  - intros n r. unfold idx. cbn. case_bool_decide; [split; [by intros (d & [= <-] & ?) | by exists db'] | done].
Qed.

(** ** One record *)

Lemma put_adds name key v uniq s db :
  mdbIndexDBs (be_ix s) name = Some db → dupsort db = negb uniq → (uniq = true → ∀ w, ¬ idx s name (key, w)) →
  ∃ s', MdbUpdateKeyValue name key v uniq BE_INDEX_OP_TYPE_CREATE s [] = Some (inr tt, s', []) ∧ adds s s' [(name, (key, v))].
Proof.
  intros Hdb Hdup Hfresh. unfold MdbUpdateKeyValue. rewrite run_backend. unfold get_index, rbind, rget, rlift. rewrite Hdb. cbn [andb].
  rewrite bool_decide_eq_true_2 by done. cbn [andb]. pose proof (mdb_put_law uniq db key v) as Hlaw.
  destruct (mdb_put uniq db key v) as [db'|].
  - destruct Hlaw as (Hle & Hd & _ & Hr). eexists. split; [reflexivity |]. destruct (set_index_effect s name db db' Hdb Hd Hle) as [Hsh Hi]. split; [done |].
    intros n r. rewrite Hi, list_elem_of_singleton. case_bool_decide as Hn.
    + subst n. rewrite Hr. unfold idx. split.
      * intros [-> | [Hin _]]; [by right | left; by exists db].
      * intros [(d & Hd' & Hin) | [= ->]]; [right | by left]. assert (d = db) as -> by congruence. split; [done |]. intros Hf Hk.
        rewrite Hdup in Hf. apply negb_false_iff in Hf. apply (Hfresh Hf r.2). exists db. split; [done |]. destruct r. cbn in *. by subst.
    + split; [by left | intros [? | [= ? ?]]; done].
  - destruct Hlaw as [-> Hin]. apply list_elem_of_fmap in Hin as ([k w] & Hk & Hin). cbn in Hk. subst k. destruct (Hfresh eq_refl w). by exists db.
Qed.

Lemma del_removes name key v uniq s db :
  mdbIndexDBs (be_ix s) name = Some db → dupsort db = negb uniq → (key, v) ∈ records db →
  ∃ s', MdbUpdateKeyValue name key v uniq BE_INDEX_OP_TYPE_DELETE s [] = Some (inr tt, s', []) ∧ removes s s' [(name, (key, v))].
Proof.
  intros Hdb Hdup Hin. unfold MdbUpdateKeyValue, MdbDeleteKeyValue. rewrite run_backend. unfold get_index, rbind, rget, rlift. rewrite Hdb.
  pose proof (mdb_del_law db key (if uniq then None else Some v)) as Hlaw. destruct (mdb_del db key (if uniq then None else Some v)) as [db'|].
  - destruct Hlaw as (Hle & Hd & Hr). eexists. split; [reflexivity |]. destruct (set_index_effect s name db db' Hdb Hd Hle) as [Hsh Hi]. split; [done |].
    intros n r. rewrite Hi, list_elem_of_singleton. case_bool_decide as Hn.
    + subst n. rewrite Hr. unfold idx. split.
      * intros [Hrin Hkeep]. split; [by exists db |]. intros [= ->]. destruct (Hkeep eq_refl) as (Hdd & w & Hw & Hne). rewrite Hdup in Hdd.
        apply negb_true_iff in Hdd. rewrite Hdd in Hw. injection Hw as <-. done.
      * intros [(d & Hd' & Hrin) Hne]. assert (d = db) as -> by congruence. split; [done |]. intros Hk. destruct uniq.
        { destruct Hne. destruct r as [k w]. cbn in Hk. subst k. f_equal. f_equal. by eapply unique_record. }
        split; [by rewrite Hdup |]. exists v. split; [done |]. intros Hv. apply Hne. destruct r as [k w]. cbn in *. congruence.
    + split; [intros Hi'; split; [done |]; by intros [= ? ?] | by intros [? _]].
  - destruct (Hlaw v); [| done]. destruct uniq; [by left | by right].
Qed.


(** ** The records of an entry *)

(** The configuration of an index that is written. *)
Definition write_cfg (cm : cstr → option VDIR_INDEX_CFG) (t : cstr) : option VDIR_INDEX_CFG :=
  cfg ← cm t;
  match istatus cfg with
  | VDIR_INDEXING_SCHEDULED | VDIR_INDEXING_DISABLED | VDIR_INDEXING_DELETED => None
  | _ => Some cfg
  end.

Definition value_recs (cfg : VDIR_INDEX_CFG) (id : Z) (v : Filter.berval) : list (cstr * (list Z * list Z)) :=
  (if iTypesEquality cfg then [(pszAttrName cfg, (fwd_key (norm_or_raw v), MDBEntryIdToDBT id))] else []) ++
  (if iTypesSubstr cfg then [(pszAttrName cfg, (rev_key (norm_or_raw v), MDBEntryIdToDBT id))] else []).

Definition attr_recs (cm : cstr → option VDIR_INDEX_CFG) (id : Z) (t : cstr) (vals : list Filter.berval) : list (cstr * (list Z * list Z)) :=
  match write_cfg cm t with None => [] | Some cfg => concat (value_recs cfg id <$> vals) end.

(** The keys of unique indices are new. *)
Definition insertable s L : Prop :=
  ∀ i n k v, L !! i = Some (n, (k, v)) → (∃ db, mdbIndexDBs (be_ix s) n = Some db ∧ dupsort db = false) →
    (∀ w, ¬ idx s n (k, w)) ∧ ∀ j w, L !! j = Some (n, (k, w)) → j = i.

Lemma insertable_app s L1 L2 : insertable s (L1 ++ L2) → insertable s L1 ∧ ∀ s1, adds s s1 L1 → insertable s1 L2.
Proof.
  intros H. split.
  - intros i n k v Hi Hu. pose proof (lookup_lt_Some _ _ _ Hi). destruct (H i n k v) as [H1 H2]; [by rewrite lookup_app_l | done |]. split; [done |].
    intros j w Hj. apply (H2 j w). rewrite lookup_app_l; [done | by eapply lookup_lt_Some].
  - intros s1 [(Hc & _ & _ & Hd) Hidx] i n k v Hi (db & Hdb & Hdup).
    assert (∃ db0, mdbIndexDBs (be_ix s) n = Some db0 ∧ dupsort db0 = false) as Hu.
    { specialize (Hd n). rewrite Hdb in Hd. destruct (mdbIndexDBs (be_ix s) n) as [db0|]; [| done]. exists db0. split; [done |]. unfold db_shape in Hd; cbn in Hd; injection Hd as Hd _; congruence. }
    destruct (H (length L1 + i)%nat n k v) as [H1 H2]; [rewrite lookup_app_r by lia; by replace (length L1 + i - length L1)%nat with i by lia | done |]. split.
    + intros w Hw. apply Hidx in Hw as [Hw | Hw]; [by apply (H1 w) |]. apply list_elem_of_lookup in Hw as (j & Hj). pose proof (lookup_lt_Some _ _ _ Hj).
      specialize (H2 j w). rewrite lookup_app_l in H2 by done. specialize (H2 Hj). lia.
    + intros j w Hj. specialize (H2 (length L1 + j)%nat w). rewrite lookup_app_r in H2 by lia. replace (length L1 + j - length L1)%nat with j in H2 by lia. specialize (H2 Hj). lia.
Qed.

(** The index of a configuration. *)
Definition open_index s (cfg : VDIR_INDEX_CFG) : Prop :=
  ∃ db, mdbIndexDBs (be_ix s) (pszAttrName cfg) = Some db ∧ dupsort db = negb (bGlobalUniq cfg).

Lemma open_shape s s' cfg : open_index s cfg → same_shape s s' → open_index s' cfg.
Proof.
  intros (db & Hdb & Hdup) (_ & _ & _ & Hd). specialize (Hd (pszAttrName cfg)). rewrite Hdb in Hd. destruct (mdbIndexDBs (be_ix s') (pszAttrName cfg)) as [db'|] eqn:H'; [| done].
  exists db'. split; [done |]. unfold db_shape in Hd; cbn in Hd; injection Hd as Hd _; congruence.
Qed.

(** One key, when the index has keys of this kind. *)
Lemma key_adds (b : bool) cfg key v s :
  open_index s cfg → insertable s (if b then [(pszAttrName cfg, (key, v))] else []) →
  ∃ s', (if b then MdbUpdateKeyValue (pszAttrName cfg) key v (bGlobalUniq cfg) BE_INDEX_OP_TYPE_CREATE else rret tt) s [] = Some (inr tt, s', []) ∧
    adds s s' (if b then [(pszAttrName cfg, (key, v))] else []).
Proof.
  intros (db & Hdb & Hdup) Hins. destruct b; [| exists s; split; [done | apply adds_refl]]. eapply put_adds; [done | done |].
  intros Hu w. destruct (Hins 0%nat _ _ _ eq_refl) as [Hf _]; [exists db; split; [done |]; by rewrite Hdup, Hu |]. apply Hf.
Qed.

Lemma key_removes (b : bool) cfg key v s :
  open_index s cfg → (b = true → idx s (pszAttrName cfg) (key, v)) →
  ∃ s', (if b then MdbUpdateKeyValue (pszAttrName cfg) key v (bGlobalUniq cfg) BE_INDEX_OP_TYPE_DELETE else rret tt) s [] = Some (inr tt, s', []) ∧
    removes s s' (if b then [(pszAttrName cfg, (key, v))] else []).
Proof.
  intros (db & Hdb & Hdup) Hin. destruct b; [| exists s; split; [done | apply removes_refl]].
  destruct (Hin eq_refl) as (db' & Hdb' & Hr). assert (db' = db) as -> by congruence. by eapply del_removes.
Qed.

(** The check of its uniqueness accepts the value. *)
Definition accepted (c : committed) (cfg : VDIR_INDEX_CFG) (dn v : Filter.berval) : Prop :=
  validate g cfg (norm_or_raw v) (norm_or_raw dn) BE_INDEX_OP_TYPE_CREATE c [] = Some (inr tt, c, []).

(** A value that is not the empty string can be deleted. *)
Lemma validate_delete c cfg dn v : c_chars v ≠ [] → validate g cfg v dn BE_INDEX_OP_TYPE_DELETE c [] = Some (inr tt, c, []).
Proof. intros Hv. unfold validate, MdbValidateAttrUniqueness. rewrite bool_decide_eq_false_2 by done. by rewrite run_backend. Qed.

Lemma read_only_run {A} (m : RM committed A) s x : m (be_committed s) [] = Some (inr x, be_committed s, []) → read_only m s [] = Some (inr x, s, []).
Proof. intros H. unfold read_only. by rewrite H. Qed.

Lemma update_values_adds dn cfg id vals s :
  open_index s cfg → Forall (accepted (be_committed s) cfg dn) vals → insertable s (concat (value_recs cfg id <$> vals)) →
  ∃ s', update_values g dn cfg id BE_INDEX_OP_TYPE_CREATE vals s [] = Some (inr tt, s', []) ∧ adds s s' (concat (value_recs cfg id <$> vals)).
Proof.
  revert s. induction vals as [|v vals IH]; intros s Hopen Hacc Hins; [exists s; split; [done | apply adds_refl] |].
  cbn [fmap list_fmap concat] in Hins |- *. unfold value_recs in Hins at 1. unfold value_recs at 1. rewrite <- !app_assoc in Hins |- *.
  apply insertable_app in Hins as [Hi1 Hins]. apply Forall_cons in Hacc as [Hv Hacc]. cbn [update_values].
  unfold rbind at 1. rewrite (read_only_run _ _ _ Hv). destruct (key_adds _ _ _ _ _ Hopen Hi1) as (s1 & Hrun1 & Ha1). unfold rbind at 1. rewrite Hrun1. destruct (insertable_app _ _ _ (Hins _ Ha1)) as [Hi2 Hins1].
  pose proof (open_shape _ _ _ Hopen (proj1 Ha1)) as Hopen1. destruct (key_adds _ _ _ _ _ Hopen1 Hi2) as (s2 & Hrun2 & Ha2). unfold rbind at 1. rewrite Hrun2.
  destruct (IH s2) as (s3 & Hrun3 & Ha3); [by eapply open_shape; [exact Hopen1 | apply Ha2] | | by apply Hins1 |].
  { destruct Ha1 as [(_ & _ & Hc1 & _) _], Ha2 as [(_ & _ & Hc2 & _) _]. by rewrite Hc2, Hc1. }
  exists s3. split; [done |].
  eapply adds_trans; [exact Ha1 |]. by eapply adds_trans.
Qed.

Lemma update_values_removes dn cfg id vals s :
  open_index s cfg → Forall (λ v, c_chars (norm_or_raw v) ≠ []) vals → NoDup (concat (value_recs cfg id <$> vals)) →
  (∀ n r, (n, r) ∈ concat (value_recs cfg id <$> vals) → idx s n r) →
  ∃ s', update_values g dn cfg id BE_INDEX_OP_TYPE_DELETE vals s [] = Some (inr tt, s', []) ∧ removes s s' (concat (value_recs cfg id <$> vals)).
Proof.
  intros Hopen Hne. revert s Hopen. induction Hne as [|v vals Hv _ IH]; intros s Hopen Hnd Hall; [exists s; split; [done | apply removes_refl] |].
  cbn [fmap list_fmap concat] in Hnd, Hall |- *. unfold value_recs in Hnd at 1. unfold value_recs in Hall at 1. unfold value_recs at 1. rewrite <- !app_assoc in Hnd, Hall |- *.
  apply NoDup_app in Hnd as (_ & Hd1 & Hnd). apply NoDup_app in Hnd as (_ & Hd2 & Hnd).
  cbn [update_values]. unfold rbind at 1. rewrite (read_only_run _ _ tt) by by apply validate_delete.
  destruct (key_removes (iTypesEquality cfg) cfg (fwd_key (norm_or_raw v)) (MDBEntryIdToDBT id) s Hopen) as (s1 & Hrun1 & Ha1).
  { intros Hb. apply Hall, elem_of_app. left. rewrite Hb. by left. }
  unfold rbind at 1. rewrite Hrun1. pose proof (open_shape _ _ _ Hopen (proj1 Ha1)) as Hopen1.
  destruct (key_removes (iTypesSubstr cfg) cfg (rev_key (norm_or_raw v)) (MDBEntryIdToDBT id) s1 Hopen1) as (s2 & Hrun2 & Ha2).
  { intros Hb. apply Ha1. split; [apply Hall, elem_of_app; right; apply elem_of_app; left; rewrite Hb; by left |].
    intros Hx. apply (Hd1 _ Hx), elem_of_app. left. rewrite Hb. by left. }
  unfold rbind at 1. rewrite Hrun2.
  destruct (IH s2) as (s3 & Hrun3 & Ha3); [by eapply open_shape; [exact Hopen1 | apply Ha2] | done | |].
  { intros n r Hin. apply Ha2. split; [apply Ha1; split |].
    - apply Hall. apply elem_of_app. right. apply elem_of_app. by right.
    - intros Hx. apply (Hd1 _ Hx), elem_of_app. by right.
    - intros Hx. by apply (Hd2 _ Hx). }
  exists s3. split; [done |]. eapply removes_trans; [exact Ha1 |]. by eapply removes_trans.
Qed.

(** ** An attribute *)

Lemma acquire_write s t : t ≠ [] → VmDirIndexCfgAcquire (be_ix s) t VDIR_INDEX_WRITE s [] = Some (inr (write_cfg (pIndexCfgMap (be_ix s)) t), s, []).
Proof.
  intros Ht. unfold VmDirIndexCfgAcquire, write_cfg. rewrite bool_decide_eq_false_2 by done. destruct (pIndexCfgMap (be_ix s) t) as [cfg|]; [| done]. cbn. by destruct (istatus cfg).
Qed.

Lemma write_cfg_open s t cfg : wf s → write_cfg (pIndexCfgMap (be_ix s)) t = Some cfg → open_index s cfg.
Proof.
  intros [Hwf _] H. unfold write_cfg in H. destruct (pIndexCfgMap (be_ix s) t) as [c|] eqn:Hc; [| done]. cbn in H. apply (Hwf t). rewrite Hc. by destruct (istatus c).
Qed.

Lemma update_attr_run dn t vals id op s s' L :
  wf s → t ≠ [] →
  (∀ cfg, write_cfg (pIndexCfgMap (be_ix s)) t = Some cfg → open_index s cfg → update_values g dn cfg id op vals s [] = Some (inr tt, s', [])) →
  (write_cfg (pIndexCfgMap (be_ix s)) t = None → s' = s ∧ L = []) →
  MdbUpdateIndicesForAttr g dn t vals id op s [] = Some (inr tt, s', []).
Proof.
  intros Hwf Ht Hsome Hnone. unfold MdbUpdateIndicesForAttr, rbind at 1, rget. unfold rbind at 1. rewrite acquire_write by done.
  destruct (write_cfg (pIndexCfgMap (be_ix s)) t) as [cfg|] eqn:Hc; [| by destruct (Hnone eq_refl) as [-> _]].
  pose proof (write_cfg_open s t cfg Hwf Hc) as Hopen. pose proof Hopen as (db & Hdb & _). unfold VmDirMDBIndexGetDBi. rewrite Hdb. unfold rbind at 1, rret at 1.
  assert (0 <= fold_right (λ v m, Z.max (Z.of_nat (length (norm_or_raw v))) m) 0 vals) as Hm by (induction vals; cbn; lia).
  unfold rbind, rtry, VmDirAllocateMemory. rewrite (proj2 (Z.eqb_neq _ _)) by lia. cbn. by apply Hsome.
Qed.

(** The values of an attribute are accepted by its index. *)
Definition values_ok s (dn : Filter.berval) (t : cstr) (vals : list Filter.berval) : Prop :=
  ∀ cfg, write_cfg (pIndexCfgMap (be_ix s)) t = Some cfg → Forall (accepted (be_committed s) cfg dn) vals.

Lemma values_shape s s' dn t vals : same_shape s s' → values_ok s dn t vals → values_ok s' dn t vals.
Proof. intros (Hc & _ & Hcm & _) H. unfold values_ok. rewrite Hc, Hcm. exact H. Qed.

Lemma update_attr_adds dn t vals id s :
  wf s → t ≠ [] → values_ok s dn t vals → insertable s (attr_recs (pIndexCfgMap (be_ix s)) id t vals) →
  ∃ s', MdbUpdateIndicesForAttr g dn t vals id BE_INDEX_OP_TYPE_CREATE s [] = Some (inr tt, s', []) ∧ adds s s' (attr_recs (pIndexCfgMap (be_ix s)) id t vals).
Proof.
  intros Hwf Ht Hne Hins. unfold attr_recs in *. destruct (write_cfg (pIndexCfgMap (be_ix s)) t) as [cfg|] eqn:Hc.
  - destruct (update_values_adds dn cfg id vals s (write_cfg_open s t cfg Hwf Hc) (Hne cfg Hc) Hins) as (s' & Hrun & Ha). exists s'. split; [| done].
    eapply (update_attr_run _ _ _ _ _ _ _ []); [done | done | | congruence]. intros cfg' Hc' _. by assert (cfg' = cfg) as -> by congruence.
  - exists s. split; [| apply adds_refl]. eapply (update_attr_run _ _ _ _ _ _ _ []); [done | done | congruence | done].
Qed.

Lemma update_attr_removes dn t vals id s :
  wf s → t ≠ [] → Forall (λ v, c_chars (norm_or_raw v) ≠ []) vals → NoDup (attr_recs (pIndexCfgMap (be_ix s)) id t vals) →
  (∀ n r, (n, r) ∈ attr_recs (pIndexCfgMap (be_ix s)) id t vals → idx s n r) →
  ∃ s', MdbUpdateIndicesForAttr g dn t vals id BE_INDEX_OP_TYPE_DELETE s [] = Some (inr tt, s', []) ∧ removes s s' (attr_recs (pIndexCfgMap (be_ix s)) id t vals).
Proof.
  intros Hwf Ht Hne Hnd Hall. unfold attr_recs in *. destruct (write_cfg (pIndexCfgMap (be_ix s)) t) as [cfg|] eqn:Hc.
  - destruct (update_values_removes dn cfg id vals s (write_cfg_open s t cfg Hwf Hc) Hne Hnd Hall) as (s' & Hrun & Ha). exists s'. split; [| done].
    eapply (update_attr_run _ _ _ _ _ _ _ []); [done | done | | congruence]. intros cfg' Hc' _. by assert (cfg' = cfg) as -> by congruence.
  - exists s. split; [| apply removes_refl]. eapply (update_attr_run _ _ _ _ _ _ _ []); [done | done | congruence | done].
Qed.


(** ** Parents *)

(** The entry with the DN has the id; the empty DN is the root. *)
Definition has_id s (dn : Filter.berval) (pid : Z) : Prop :=
  (norm_or_raw dn = [] ∧ pid = DSE_ROOT_ENTRY_ID) ∨
  (norm_or_raw dn ≠ [] ∧ ∃ cfg v, pIndexCfgMap (be_ix s) ATTR_DN = Some cfg ∧ istatus cfg = VDIR_INDEXING_COMPLETE ∧ bGlobalUniq cfg = true ∧
     idx s (pszAttrName cfg) (fwd_key (norm_or_raw dn), v) ∧ pid = MDBDBTToEntryId v).

Lemma set_backend_ok {A} (m : RM be_state A) s x s' e e' : m s e = Some (inr x, s', e') → set_backend_error m s e = Some (inr x, s', e').
Proof. intros H. unfold set_backend_error, rbind, rtry. by rewrite H. Qed.

Lemma to_backend_ok from to m s s' e e' : m s e = Some (inr tt, s', e') → to_backend from to m s e = Some (inr tt, s', e').
Proof. intros H. unfold to_backend, rbind, rtry. by rewrite H. Qed.

Lemma unless_missing_ok m s s' e e' : m s e = Some (inr tt, s', e') → unless_missing m s e = Some (inr tt, s', e').
Proof. intros H. unfold unless_missing, rbind, rtry. by rewrite H. Qed.

Lemma be_alloc_run s n : 0 < n → VmDirAllocateMemory n s [] = Some (inr (replicate (Z.to_nat n) 0), s, []).
Proof. intros Hn. unfold VmDirAllocateMemory. by rewrite (proj2 (Z.eqb_neq _ _)) by lia. Qed.

Lemma dn_to_id_run s dn pid : wf s → has_id s dn pid → VmDirMDBDNToEntryId (be_ix s) dn s [] = Some (inr pid, s, []).
Proof.
  intros [Hwf _] [[Hnil ->] | (Hne & cfg & v & Hcfg & Hst & Huniq & (db & Hdb & Hin) & ->)]; apply set_backend_ok.
  - by rewrite Hnil.
  - rewrite (proj2 (Nat.eqb_neq _ _)) by by destruct (norm_or_raw dn). unfold rbind at 1, VmDirIndexCfgAcquire.
    rewrite bool_decide_eq_false_2 by done. rewrite Hcfg, Hst. unfold rret at 1. unfold VmDirMDBIndexGetDBi. rewrite Hdb. unfold rbind at 1, rret at 1.
    unfold rbind at 1. rewrite be_alloc_run by lia. rewrite run_backend, mdb_get_law.
    destruct (Hwf _ _ Hcfg) as (db' & Hdb' & Hdup). assert (db' = db) as -> by congruence. rewrite Huniq in Hdup.
    destruct (list_find _ (records db)) as [[i [k w]]|] eqn:Hf; cbn.
    + apply list_find_Some in Hf as (Hi & Hk & _). cbn in Hk. subst k. apply list_elem_of_lookup_2 in Hi. by rewrite (unique_record db _ _ _ Hdup Hin Hi).
    + apply list_find_None in Hf. rewrite Forall_forall in Hf. by destruct (Hf _ Hin).
Qed.

Lemma has_id_adds s s' L dn pid : has_id s dn pid → adds s s' L → has_id s' dn pid.
Proof.
  intros [? | (Hne & cfg & v & Hcfg & Hst & Huniq & Hin & ->)] [(Hc & _) Hidx]; [by left | right]. split; [done |]. exists cfg, v. rewrite Hc. do 3 (split; [done |]). split; [apply Hidx; by left | done].
Qed.

(** The record of the parent. *)
Definition parent_recs (cm : cstr → option VDIR_INDEX_CFG) (pid id : Z) : list (cstr * (list Z * list Z)) :=
  match write_cfg cm ATTR_PARENT_ID with Some cfg => [(pszAttrName cfg, (MDBEntryIdToDBT pid, MDBEntryIdToDBT id))] | None => [] end.

(** The index of parents is there. *)
Definition parent_ready s : Prop := ∃ cfg, write_cfg (pIndexCfgMap (be_ix s)) ATTR_PARENT_ID = Some cfg ∧ bGlobalUniq cfg = false.

Lemma parent_adds s pdn pid id : wf s → parent_ready s → has_id s pdn pid →
  ∃ s', MDBCreateParentIdIndex pdn id s [] = Some (inr tt, s', []) ∧ adds s s' (parent_recs (pIndexCfgMap (be_ix s)) pid id).
Proof.
  intros Hwf (cfg & Hcfg & Hu) Hid. destruct (write_cfg_open s _ _ Hwf Hcfg) as (db & Hdb & Hdup).
  destruct (put_adds (pszAttrName cfg) (MDBEntryIdToDBT pid) (MDBEntryIdToDBT id) false s db Hdb) as (s' & Hrun & Ha); [by rewrite Hdup, Hu | done |].
  exists s'. unfold parent_recs. rewrite Hcfg. split; [| done]. apply set_backend_ok. unfold parent_index, rbind at 1, rget. unfold rbind at 1. rewrite (dn_to_id_run s pdn pid Hwf Hid).
  unfold rbind at 1. rewrite acquire_write by done. rewrite Hcfg. unfold VmDirMDBIndexGetDBi. rewrite Hdb. unfold rbind at 1, rret at 1. by rewrite Hu.
Qed.

Lemma parent_removes s pdn pid id : wf s → parent_ready s → has_id s pdn pid → (∀ n r, (n, r) ∈ parent_recs (pIndexCfgMap (be_ix s)) pid id → idx s n r) →
  ∃ s', MDBDeleteParentIdIndex pdn id s [] = Some (inr tt, s', []) ∧ removes s s' (parent_recs (pIndexCfgMap (be_ix s)) pid id).
Proof.
  intros Hwf (cfg & Hcfg & Hu) Hid Hin. destruct (write_cfg_open s _ _ Hwf Hcfg) as (db & Hdb & Hdup). unfold parent_recs in *. rewrite Hcfg in *.
  destruct (Hin _ _ ltac:(by left)) as (db' & Hdb' & Hr). assert (db' = db) as -> by congruence.
  destruct (del_removes (pszAttrName cfg) (MDBEntryIdToDBT pid) (MDBEntryIdToDBT id) false s db Hdb) as (s' & Hrun & Ha); [by rewrite Hdup, Hu | done |].
  exists s'. split; [| done]. apply set_backend_ok. unfold parent_index, rbind at 1, rget. unfold rbind at 1. rewrite (dn_to_id_run s pdn pid Hwf Hid).
  unfold rbind at 1. rewrite acquire_write by done. rewrite Hcfg. unfold VmDirMDBIndexGetDBi. rewrite Hdb. unfold rbind at 1, rret at 1. by rewrite Hu.
Qed.

(** In a sorted list earlier elements are smaller. *)
Lemma sorted_lookup {A} (R : A → A → Prop) l i j x y : StronglySorted R l → (i < j)%nat → l !! i = Some x → l !! j = Some y → R x y.
Proof.
  intros Hs. revert i j. induction Hs as [|z l _ IH Hz]; intros i j Hij Hi Hj; [done |]. destruct i as [|i], j as [|j]; cbn in *; try lia.
  - injection Hi as ->. rewrite Forall_forall in Hz. apply Hz. by eapply list_elem_of_lookup_2.
  - apply (IH i j); [lia | done | done].
Qed.

(** ** Metadata *)

(** The index of the metadata is there, and ordered by the bytes of its keys. *)
Definition meta_ready s (cfg : VDIR_INDEX_CFG) : Prop :=
  write_cfg (pIndexCfgMap (be_ix s)) ATTR_ATTR_META_DATA = Some cfg ∧ iTypesEquality cfg = true ∧ iTypesSubstr cfg = false ∧ bGlobalUniq cfg = true ∧
  ∃ db, mdbIndexDBs (be_ix s) (pszAttrName cfg) = Some db ∧ prefix_order db ∧ (length (records db) < scan_fuel g)%nat.

(** The record of an attribute. *)
Definition meta_recs (cm : cstr → option VDIR_INDEX_CFG) (id : Z) (a : attribute) : list (cstr * (list Z * list Z)) :=
  match write_cfg cm ATTR_ATTR_META_DATA, at_id a, VmDirMetaDataSerialize (at_pMetaData a) with
  | Some cfg, Some aid, (_, Some m) => [(pszAttrName cfg, (meta_key id aid, to_bytes m))]
  | _, _, _ => []
  end.

(** An attribute with an id and metadata. *)
Definition has_meta (a : attribute) : Prop := is_Some (at_id a) ∧ ∃ m, VmDirMetaDataSerialize (at_pMetaData a) = (ERROR_SUCCESS, Some m).

Definition meta_index s : Prop :=
  ∃ cfg, write_cfg (pIndexCfgMap (be_ix s)) ATTR_ATTR_META_DATA = Some cfg ∧ iTypesEquality cfg = true ∧ iTypesSubstr cfg = false ∧ bGlobalUniq cfg = true.

Lemma meta_adds a id s : wf s → meta_index s → has_meta a → insertable s (meta_recs (pIndexCfgMap (be_ix s)) id a) →
  ∃ s', MdbUpdateAttrMetaData a id BE_INDEX_OP_TYPE_CREATE s [] = Some (inr tt, s', []) ∧ adds s s' (meta_recs (pIndexCfgMap (be_ix s)) id a).
Proof.
  intros Hwf (cfg & Hcfg & He & Hs & Hu) ([aid Haid] & m & Hm) Hins. unfold meta_recs in *. rewrite Hcfg, Haid, Hm in *.
  destruct (write_cfg_open s _ _ Hwf Hcfg) as (db & Hdb & Hdup). unfold MdbUpdateAttrMetaData. cbn [bool_decide decide decide_rel andb]. unfold rbind at 1, rget.
  rewrite bool_decide_eq_false_2 by done. cbn [andb]. unfold rbind at 1. rewrite acquire_write by done. rewrite Hcfg. unfold VmDirMDBIndexGetDBi. rewrite Hdb. unfold rbind at 1, rret at 1. rewrite He, Hs, Hu, Haid, Hm. cbn [andb negb].
  eapply put_adds; [done | by rewrite Hdup, Hu |]. intros _ w. destruct (Hins 0%nat _ _ _ eq_refl) as [Hf _]; [exists db; split; [done |]; by rewrite Hdup, Hu |]. apply Hf.
Qed.

Lemma meta_index_adds s s' L : meta_index s → adds s s' L → meta_index s'.
Proof. intros (cfg & H) [[Hc _] _]. exists cfg. by rewrite Hc. Qed.

(** Deleting the records whose keys begin with [key]. *)
Lemma delete_all_run fuel name key s db :
  mdbIndexDBs (be_ix s) name = Some db → prefix_order db → (length (records db) < fuel)%nat →
  ∃ s', MdbDeleteAllReccord fuel name key s [] = Some (inr tt, s', []) ∧ same_shape s s' ∧
    ∀ n r, idx s' n r ↔ idx s n r ∧ ¬ (n = name ∧ key `prefix_of` r.1).
Proof.
  revert s db. induction fuel as [|fuel IH]; intros s db Hdb Hpo Hf; [lia |]. cbn [MdbDeleteAllReccord]. rewrite run_backend.
  unfold get_index. unfold rbind at 1 2, rget, rlift at 1. rewrite Hdb. rewrite run_backend.
  pose proof (mdb_cursor_get_law db (mdb_cursor_open db) key MDB_SET_RANGE) as Hlaw. cbn [cursor_target] in Hlaw.
  destruct (list_find _ (records db)) as [[i [k v]]|] eqn:Hfind; cbn [fmap option_fmap option_map fst] in Hlaw.
  - apply list_find_Some in Hfind as (Hi & Hle & Hbefore). destruct Hlaw as (c' & r & Hr & -> & Hpos). assert (r = (k, v)) as -> by congruence. cbn [fst snd] in *.
    case_bool_decide as Hpre.
    + rewrite run_backend. destruct (mdb_cursor_del_law db c' i (k, v) Hpos Hi) as (db' & Hdel & Hkl & Hd & Hperm). unfold rbind at 1, rlift at 1. rewrite Hdel.
      unfold rbind at 1, rset. destruct (set_index_effect s name db db' Hdb Hd Hkl) as [Hsh Hidx].
      destruct (IH (set_index name db' s) db') as (s' & Hrun & Hsh' & Hi').
      * cbn. by rewrite bool_decide_eq_true_2.
      * unfold prefix_order. rewrite Hkl. exact Hpo.
      * pose proof (Permutation_length Hperm) as Hl. cbn in Hl. lia.
      * exists s'. split; [done |]. split; [by eapply same_shape_trans |]. intros n r. rewrite Hi', Hidx. case_bool_decide as Hn; [| done]. subst n.
        unfold idx. split.
        -- intros [Hin Hno]. split; [| done]. exists db. split; [done |]. rewrite Hperm. by right.
        -- intros [(d & Hd' & Hin) Hno]. assert (d = db) as -> by congruence. split; [| done]. rewrite Hperm in Hin. apply elem_of_cons in Hin as [-> | Hin]; [| done]. by destruct Hno.
    + exists s. split; [done |]. split; [apply same_shape_refl |]. intros n r. split; [| by intros [? _]]. intros Hidx. split; [done |]. intros [-> Hp].
      destruct Hidx as (d & Hd' & Hin). assert (d = db) as -> by congruence. apply Hpre. destruct Hpo as [Hp1 Hp2].
      apply list_elem_of_lookup in Hin as (j & Hj). assert (key_leb db key r.1 = true) as Hkr by (destruct Hp as [y ->]; apply Hp1).
      destruct (decide (j < i)%nat) as [Hlt | Hge]; [by destruct (Hbefore j r Hj Hlt) |].
      apply (Hp2 key k r.1); [done | | done]. destruct (decide (j = i)) as [-> | Hne]; [assert (r = (k, v)) as -> by congruence; apply key_refl |].
      apply (sorted_lookup (λ x y, key_leb db x.1 y.1 = true) (records db) i j (k, v) r); [apply records_sorted | lia | done | done].
  - rewrite Hlaw. exists s. split; [done |]. split; [apply same_shape_refl |]. intros n r. split; [| by intros [? _]]. intros Hidx. split; [done |]. intros [-> Hp].
    destruct Hidx as (d & Hd' & Hin). assert (d = db) as -> by congruence. apply list_find_None in Hfind. rewrite Forall_forall in Hfind. apply (Hfind _ Hin).
    destruct Hpo as [Hp1 _], Hp as [y ->]. apply Hp1.
Qed.

(** ** The whole entry *)

(** An attribute that can be written: a type, values, an id and metadata, the DN
    in its normal form, and no metadata of single values. *)
Definition attr_ok (a : attribute) : Prop :=
  at_type a ≠ [] ∧ Forall (λ v, c_chars (norm_or_raw v) ≠ []) (at_vals a) ∧ has_meta a ∧ valueMetaDataToAdd a = [] ∧
  (is_dn g (at_type a) = true → ∃ v vs n, at_vals a = v :: vs ∧ bvnorm_val v = Some n).

Definition rfc_recs (cm : cstr → option VDIR_INDEX_CFG) (e : VDIR_ENTRY) (id : Z) : list (cstr * (list Z * list Z)) :=
  if same_dn_form g e then [] else attr_recs cm id ATTR_DN [ldapDN e].

Definition dn_recs (cm : cstr → option VDIR_INDEX_CFG) (e : VDIR_ENTRY) (id : Z) (attrs : list attribute) : list (cstr * (list Z * list Z)) :=
  concat ((λ a, if is_dn g (at_type a) then (attr_recs cm id (at_type a) (at_vals a) ++ rfc_recs cm e id) ++ meta_recs cm id a else []) <$> attrs).

Definition other_recs (cm : cstr → option VDIR_INDEX_CFG) (id : Z) (attrs : list attribute) : list (cstr * (list Z * list Z)) :=
  concat ((λ a, if is_dn g (at_type a) then [] else attr_recs cm id (at_type a) (at_vals a) ++ meta_recs cm id a) <$> attrs).

(** All records of an entry. *)
Definition entry_recs (cm : cstr → option VDIR_INDEX_CFG) (pid : Z) (e : VDIR_ENTRY) (id : Z) : list (cstr * (list Z * list Z)) :=
  parent_recs cm pid id ++ dn_recs cm e id (eattrs e) ++ other_recs cm id (eattrs e).

Lemma adds_cm s s' L : adds s s' L → pIndexCfgMap (be_ix s') = pIndexCfgMap (be_ix s).
Proof. by intros [[H _] _]. Qed.

(** The indices accept the values of the entry. *)
Definition entry_accepted s (e : VDIR_ENTRY) (attrs : list attribute) : Prop :=
  Forall (λ a, values_ok s (edn e) (at_type a) (at_vals a)) attrs ∧ values_ok s (edn e) ATTR_DN [ldapDN e].

Lemma accepted_adds s s' L e attrs : entry_accepted s e attrs → adds s s' L → entry_accepted s' e attrs.
Proof.
  intros [H1 H2] [Hsh _]. split; [| by eapply values_shape]. eapply Forall_impl; [exact H1 |]. intros a Ha. by eapply values_shape.
Qed.

Lemma rfc_adds e id s : wf s → values_ok s (edn e) ATTR_DN [ldapDN e] → insertable s (rfc_recs (pIndexCfgMap (be_ix s)) e id) →
  ∃ s', _VmDirRFC4154DNAddCompliance g e id BE_INDEX_OP_TYPE_CREATE s [] = Some (inr tt, s', []) ∧ adds s s' (rfc_recs (pIndexCfgMap (be_ix s)) e id).
Proof.
  unfold rfc_recs, _VmDirRFC4154DNAddCompliance. intros Hwf Hok Hins. destruct (same_dn_form g e); [exists s; split; [done | apply adds_refl] |]. by apply update_attr_adds.
Qed.

Lemma normalize_first_run a s : attr_ok a → is_dn g (at_type a) = true → normalize_first g (at_vals a) s [] = Some (inr (at_vals a), s, []).
Proof. intros (_ & _ & _ & _ & H) Hd. destruct (H Hd) as (v & vs & n & -> & Hn). unfold normalize_first. by rewrite Hn. Qed.

Lemma add_dn_adds e id attrs s :
  wf s → meta_index s → Forall attr_ok attrs → entry_accepted s e attrs → insertable s (dn_recs (pIndexCfgMap (be_ix s)) e id attrs) →
  ∃ s', add_dn g e id attrs s [] = Some (inr tt, s', []) ∧ adds s s' (dn_recs (pIndexCfgMap (be_ix s)) e id attrs).
Proof.
  intros Hwf Hmi Hok. revert s Hwf Hmi. induction Hok as [|a attrs Ha _ IH]; intros s Hwf Hmi Hacc Hins; [exists s; split; [done | apply adds_refl] |].
  unfold dn_recs in Hins |- *. cbn [fmap list_fmap concat] in Hins |- *. fold (dn_recs (pIndexCfgMap (be_ix s)) e id attrs) in Hins |- *. cbn [add_dn].
  assert (entry_accepted s e attrs) as Hacc' by (destruct Hacc as [H1 H2]; split; [by apply Forall_cons in H1 as [_ ?] | done]).
  destruct (is_dn g (at_type a)) eqn:Hd; [| by apply IH]. apply insertable_app in Hins as [Hins Hrest]. apply insertable_app in Hins as [Hins Hi3]. apply insertable_app in Hins as [Hi1 Hi2].
  destruct Hacc as [Hvals Hrfc]. apply Forall_cons in Hvals as [Hv _].
  destruct (update_attr_adds (edn e) _ _ id _ Hwf (proj1 Ha) Hv Hi1) as (s1 & Hrun1 & Ha1). pose proof (wf_shape _ _ Hwf (proj1 Ha1)) as Hwf1. specialize (Hi2 _ Ha1). rewrite <- (adds_cm _ _ _ Ha1) in Hi2.
  destruct (rfc_adds _ _ _ Hwf1 (values_shape _ _ _ _ _ (proj1 Ha1) Hrfc) Hi2) as (s2 & Hrun2 & Ha2). rewrite (adds_cm _ _ _ Ha1) in Ha2. pose proof (adds_trans _ _ _ _ _ Ha1 Ha2) as Ha12.
  pose proof (wf_shape _ _ Hwf (proj1 Ha12)) as Hwf2. specialize (Hi3 _ Ha12). rewrite <- (adds_cm _ _ _ Ha12) in Hi3.
  destruct (meta_adds a id s2 Hwf2 (meta_index_adds _ _ _ Hmi Ha12) (proj1 (proj2 (proj2 Ha))) Hi3) as (s3 & Hrun3 & Ha3). rewrite (adds_cm _ _ _ Ha12) in Ha3. pose proof (adds_trans _ _ _ _ _ Ha12 Ha3) as Ha13.
  destruct (IH s3) as (s4 & Hrun4 & Ha4); [by eapply wf_shape, Ha13 | by eapply meta_index_adds | by eapply accepted_adds | rewrite (adds_cm _ _ _ Ha13); by apply Hrest |]. rewrite (adds_cm _ _ _ Ha13) in Ha4.
  exists s4. split; [| by eapply adds_trans]. unfold rbind at 1 2. rewrite normalize_first_run by done. unfold rbind at 1.
  assert ((MdbUpdateIndicesForAttr g (edn e) (at_type a) (at_vals a) id BE_INDEX_OP_TYPE_CREATE ;;; _VmDirRFC4154DNAddCompliance g e id BE_INDEX_OP_TYPE_CREATE) s [] = Some (inr tt, s2, [])) as Hboth
    by (unfold rbind; by rewrite Hrun1).
  rewrite (to_backend_ok _ _ _ _ _ _ _ Hboth). rewrite (to_backend_ok _ _ _ _ _ _ _ Hrun3). exact Hrun4.
Qed.

Lemma add_others_adds e id attrs s :
  wf s → meta_index s → Forall attr_ok attrs → entry_accepted s e attrs → insertable s (other_recs (pIndexCfgMap (be_ix s)) id attrs) →
  ∃ s', add_others g e id attrs s [] = Some (inr tt, s', []) ∧ adds s s' (other_recs (pIndexCfgMap (be_ix s)) id attrs).
Proof.
  intros Hwf Hmi Hok. revert s Hwf Hmi. induction Hok as [|a attrs Ha _ IH]; intros s Hwf Hmi Hacc Hins; [exists s; split; [done | apply adds_refl] |].
  unfold other_recs in Hins |- *. cbn [fmap list_fmap concat] in Hins |- *. fold (other_recs (pIndexCfgMap (be_ix s)) id attrs) in Hins |- *. cbn [add_others].
  assert (entry_accepted s e attrs) as Hacc' by (destruct Hacc as [H1 H2]; split; [by apply Forall_cons in H1 as [_ ?] | done]).
  destruct Ha as (Ht & Hne & Hmeta & -> & _). unfold rbind at 1, rret at 1. destruct (is_dn g (at_type a)); [by apply IH |].
  apply insertable_app in Hins as [Hins Hrest]. apply insertable_app in Hins as [Hi1 Hi2]. destruct Hacc as [Hvals _]. apply Forall_cons in Hvals as [Hv _].
  destruct (update_attr_adds (edn e) _ _ id _ Hwf Ht Hv Hi1) as (s1 & Hrun1 & Ha1). specialize (Hi2 _ Ha1). rewrite <- (adds_cm _ _ _ Ha1) in Hi2.
  destruct (meta_adds a id s1 (wf_shape _ _ Hwf (proj1 Ha1)) (meta_index_adds _ _ _ Hmi Ha1) Hmeta Hi2) as (s2 & Hrun2 & Ha2). rewrite (adds_cm _ _ _ Ha1) in Ha2. pose proof (adds_trans _ _ _ _ _ Ha1 Ha2) as Ha12.
  destruct (IH s2) as (s3 & Hrun3 & Ha3); [by eapply wf_shape, Ha12 | by eapply meta_index_adds | by eapply accepted_adds | rewrite (adds_cm _ _ _ Ha12); by apply Hrest |]. rewrite (adds_cm _ _ _ Ha12) in Ha3.
  exists s3. split; [| by eapply adds_trans]. unfold rbind. rewrite (to_backend_ok _ _ _ _ _ _ _ Hrun1), (to_backend_ok _ _ _ _ _ _ _ Hrun2). exact Hrun3.
Qed.

Definition new_id s (e : VDIR_ENTRY) : Z := if eId e =? 0 then be_seq s else eId e.
Definition with_id (id : Z) (e : VDIR_ENTRY) : VDIR_ENTRY := ENT id (edn e) (epdn e) (newpdn e) (ldapDN e) (eattrs e).

Lemma next_id_run e s : ∃ s', next_entry_id e s [] = Some (inr (new_id s e), s', []) ∧ adds s s' [].
Proof.
  unfold next_entry_id, new_id. destruct (eId e =? 0); cbn [negb]; [| exists s; split; [done | apply adds_refl]].
  eexists. split; [reflexivity |]. split; [done |]. intros n r. split; [by left | by intros [? | []%elem_of_nil]].
Qed.

Lemma create_eid_run id b s : dupsort (be_entries s) = false → MDBEntryIdToDBT id ∉ (records (be_entries s)).*1 →
  ∃ db, MdbCreateEIDIndex id b true s [] = Some (inr tt, set_entries db s, []) ∧ dupsort db = false ∧
    ∀ r, r ∈ records db ↔ r = (MDBEntryIdToDBT id, b) ∨ r ∈ records (be_entries s).
Proof.
  intros Hd Hfresh. unfold MdbCreateEIDIndex. rewrite run_backend. unfold rbind, rget. pose proof (mdb_put_law true (be_entries s) (MDBEntryIdToDBT id) b) as Hlaw.
  destruct (mdb_put true (be_entries s) (MDBEntryIdToDBT id) b) as [db|]; [| by destruct Hlaw as [_ ?]]. destruct Hlaw as (_ & Hdup & _ & Hr). exists db. split; [done |]. split; [congruence |].
  intros r. rewrite Hr. split; [intros [? | [? _]]; [by left | by right] | intros [? | Hin]; [by left | right]]. split; [done |]. intros _ Hk. apply Hfresh. rewrite <- Hk. apply list_elem_of_fmap. by exists r.
Qed.

Lemma delete_eid_run id b s : dupsort (be_entries s) = false → (MDBEntryIdToDBT id, b) ∈ records (be_entries s) →
  ∃ db, MDBDeleteEIdIndex id s [] = Some (inr tt, set_entries db s, []) ∧ dupsort db = false ∧
    ∀ r, r ∈ records db ↔ r ∈ records (be_entries s) ∧ r ≠ (MDBEntryIdToDBT id, b).
Proof.
  intros Hd Hin. pose proof (mdb_del_law (be_entries s) (MDBEntryIdToDBT id) None) as Hlaw. destruct (mdb_del (be_entries s) (MDBEntryIdToDBT id) None) as [db|] eqn:Hdel.
  - destruct Hlaw as (_ & Hdup & Hr). exists db. split; [| split; [congruence |]].
    + apply set_backend_ok. rewrite run_backend. unfold rbind, rget. by rewrite Hdel.
    + intros r. rewrite Hr. split; [intros [H1 H2]; split; [done |]; intros ->; by destruct (H2 eq_refl) as (_ & v & ? & _) |].
      intros [H1 H2]. split; [done |]. intros Hk. destruct H2. destruct r as [k w]. cbn in Hk. subst k. f_equal. by eapply unique_record.
  - destruct (Hlaw b); [by left | done].
Qed.

Lemma remove_attrs_run e id attrs s :
  wf s → Forall attr_ok attrs → let L := concat ((λ a, attr_recs (pIndexCfgMap (be_ix s)) id (at_type a) (at_vals a)) <$> attrs) in
  NoDup L → (∀ n r, (n, r) ∈ L → idx s n r) →
  ∃ s', remove_attrs g e id attrs s [] = Some (inr tt, s', []) ∧ removes s s' L.
Proof.
  intros Hwf Hok. revert s Hwf. induction Hok as [|a attrs (Ht & Hv & _) _ IH]; intros s Hwf L Hnd Hall; unfold L in *; clear L; [exists s; split; [done | apply removes_refl] |].
  cbn [fmap list_fmap concat] in *. apply NoDup_app in Hnd as (Hnd1 & Hdisj & Hnd2).
  destruct (update_attr_removes (edn e) _ _ id _ Hwf Ht Hv Hnd1) as (s1 & Hrun1 & Ha1); [intros n r Hin; apply Hall, elem_of_app; by left |].
  pose proof (proj1 (proj1 Ha1)) as Hcm. destruct (IH s1) as (s2 & Hrun2 & Ha2); [by eapply wf_shape, Ha1 | by rewrite Hcm | |].
  { rewrite Hcm. intros n r Hin. apply Ha1. split; [apply Hall, elem_of_app; by right |]. intros Hx. by apply (Hdisj _ Hx). }
  rewrite Hcm in Ha2. exists s2. split; [| by eapply removes_trans]. cbn [remove_attrs]. unfold rbind. by rewrite (unless_missing_ok _ _ _ _ _ Hrun1).
Qed.

(** What an entry has to be for its addition: readable bytes, values that the
    indices accept, metadata, a known parent, an id of its own, and new keys in
    the unique indices. *)
Definition addable s (e : VDIR_ENTRY) (pid : Z) (b : list Z) : Prop :=
  let id := new_id s e in
  VmDirEncodeEntry (g_compare g) (stored_attrs e) true s [] = Some (inr b, s, []) ∧ 0 < id ∧
  Forall attr_ok (eattrs e) ∧ entry_accepted s e (eattrs e) ∧ meta_index s ∧
  parent_ready s ∧ has_id s (epdn e) pid ∧
  insertable s (entry_recs (pIndexCfgMap (be_ix s)) pid e id) ∧
  MDBEntryIdToDBT id ∉ (records (be_entries s)).*1.

Lemma store_entry_run s e pid b :
  wf s → addable s e pid b → let id := new_id s e in
  ∃ s', VmDirMDBAddEntry g e s [] = Some (inr tt, s', []) ∧ wf s' ∧ pIndexCfgMap (be_ix s') = pIndexCfgMap (be_ix s) ∧
    (∀ n, db_shape <$> mdbIndexDBs (be_ix s') n = db_shape <$> mdbIndexDBs (be_ix s) n) ∧
    (∀ n r, idx s' n r ↔ idx s n r ∨ (n, r) ∈ entry_recs (pIndexCfgMap (be_ix s)) pid e id) ∧
    (∀ r, r ∈ records (be_entries s') ↔ r = (MDBEntryIdToDBT id, b) ∨ r ∈ records (be_entries s)).
Proof.
  intros Hwf (Henc & Hpos & Hok & Hacc & Hmi & Hpr & Hpid & Hins & Hfresh) id. fold id in Hpos, Hins, Hfresh.
  destruct (next_id_run e s) as (s0 & Hrun0 & Ha0). fold id in Hrun0. pose proof (wf_shape _ _ Hwf (proj1 Ha0)) as Hwf0. pose proof (adds_cm _ _ _ Ha0) as Hcm0.
  assert (insertable s0 (entry_recs (pIndexCfgMap (be_ix s)) pid e id)) as Hins0.
  { pose proof (insertable_app s [] _ Hins) as [_ H]. by apply H. }
  unfold entry_recs in Hins0. apply insertable_app in Hins0 as [_ Hins1].
  destruct (parent_adds s0 (epdn e) pid id Hwf0) as (s1 & Hrun1 & Ha1); [unfold parent_ready; by rewrite Hcm0 | by eapply has_id_adds |]. rewrite Hcm0 in Ha1.
  destruct (insertable_app _ _ _ (Hins1 _ Ha1)) as [Hi2 Hins2]. pose proof (wf_shape _ _ Hwf0 (proj1 Ha1)) as Hwf1. pose proof (adds_trans _ _ _ _ _ Ha0 Ha1) as Ha01. pose proof (adds_cm _ _ _ Ha01) as Hcm1.
  destruct (add_dn_adds e id (eattrs e) s1 Hwf1) as (s2 & Hrun2 & Ha2); [by eapply meta_index_adds | done | by eapply accepted_adds | by rewrite Hcm1 |]. rewrite Hcm1 in Ha2.
  pose proof (wf_shape _ _ Hwf1 (proj1 Ha2)) as Hwf2. pose proof (adds_trans _ _ _ _ _ Ha01 Ha2) as Ha02. pose proof (adds_cm _ _ _ Ha02) as Hcm2.
  destruct (add_others_adds e id (eattrs e) s2 Hwf2) as (s3 & Hrun3 & Ha3); [by eapply meta_index_adds | done | by eapply accepted_adds | rewrite Hcm2; by apply Hins2 |]. rewrite Hcm2 in Ha3.
  pose proof (adds_trans _ _ _ _ _ Ha0 (adds_trans _ _ _ _ _ Ha1 (adds_trans _ _ _ _ _ Ha2 Ha3))) as Ha. pose proof (proj1 Ha) as (Hcm & Hent & _ & Hshape).
  destruct (create_eid_run id b s3) as (db & Hrun4 & Hdup & Hr); [rewrite Hent; apply Hwf | by rewrite Hent |].
  exists (set_entries db s3). split; [| split; [| split; [done | split; [exact Hshape | split]]]].
  - apply set_backend_ok. unfold rbind at 1. rewrite Henc. unfold rbind at 1. rewrite Hrun0. rewrite (proj2 (Z.gtb_lt _ _)) by done. unfold rbind at 1, rret at 1.
    unfold rbind at 1. rewrite (to_backend_ok _ _ _ _ _ _ _ Hrun1). unfold rbind at 1. rewrite Hrun2. unfold rbind at 1. rewrite Hrun3. exact (to_backend_ok _ _ _ _ _ _ _ Hrun4).
  - destruct (wf_shape _ _ Hwf (proj1 Ha)) as [Hw _]. split; [exact Hw | done].
  - intros n r. change (idx (set_entries db s3) n r) with (idx s3 n r). rewrite (proj2 Ha). done.
  - intros r. cbn. rewrite Hr. by rewrite Hent.
Qed.

Lemma unique_length db l : dupsort db = false → (∀ r, r ∈ records db → r ∈ l) → (length (records db) <= length l)%nat.
Proof.
  intros Hd Hin. apply submseteq_length, NoDup_submseteq; [| done]. eapply NoDup_fmap_1. by apply records_unique.
Qed.

(** Removing what was added. *)
Lemma age_off_run s e pid b id mcfg :
  wf s → Forall attr_ok (eattrs e) → parent_ready s → has_id s (epdn e) pid → meta_ready s mcfg →
  let L := parent_recs (pIndexCfgMap (be_ix s)) pid id ++ concat ((λ a, attr_recs (pIndexCfgMap (be_ix s)) id (at_type a) (at_vals a)) <$> eattrs e) in
  NoDup L → (∀ n r, (n, r) ∈ L → idx s n r) → (MDBEntryIdToDBT id, b) ∈ records (be_entries s) →
  ∃ s', VmDirMDBAgeOffEntry g (with_id id e) s [] = Some (inr tt, s', []) ∧ wf s' ∧
    (∀ n r, idx s' n r ↔ (idx s n r ∧ (n, r) ∉ L) ∧ ¬ (n = pszAttrName mcfg ∧ entry_prefix id `prefix_of` r.1)) ∧
    (∀ r, r ∈ records (be_entries s') ↔ r ∈ records (be_entries s) ∧ r ≠ (MDBEntryIdToDBT id, b)).
Proof.
  intros Hwf Hok Hpr Hpid (Hmc & He & Hs & Hu & mdb & Hmdb & Hpo & Hlen) L Hnd Hall Hb. apply NoDup_app in Hnd as (_ & Hdisj & Hnd).
  destruct (parent_removes s (epdn e) pid id Hwf Hpr Hpid) as (s1 & Hrun1 & Ha1); [intros n r Hin; apply Hall, elem_of_app; by left |].
  pose proof (proj1 (proj1 Ha1)) as Hcm. pose proof (wf_shape _ _ Hwf (proj1 Ha1)) as Hwf1.
  destruct (remove_attrs_run (with_id id e) id (eattrs e) s1 Hwf1 Hok) as (s2 & Hrun2 & Ha2); [by rewrite Hcm | |].
  { rewrite Hcm. intros n r Hin. apply Ha1. split; [apply Hall, elem_of_app; by right |]. intros Hx. by apply (Hdisj _ Hx). }
  rewrite Hcm in Ha2. pose proof (removes_trans _ _ _ _ _ Ha1 Ha2) as Ha. destruct Ha as [Hsh Hidx]. pose proof Hsh as (Hcm2 & Hent & _ & Hd2).
  destruct (write_cfg_open s _ _ Hwf Hmc) as (mdb' & Hmdb' & Hmd). assert (mdb' = mdb) as -> by congruence. rewrite Hu in Hmd.
  specialize (Hd2 (pszAttrName mcfg)). rewrite Hmdb in Hd2. destruct (mdbIndexDBs (be_ix s2) (pszAttrName mcfg)) as [db2|] eqn:Hdb2; [| done]. injection Hd2 as Hd2 Hk2.
  destruct (delete_all_run (scan_fuel g) (pszAttrName mcfg) (entry_prefix id) s2 db2 Hdb2) as (s3 & Hrun3 & Hsh3 & Hidx3).
  { unfold prefix_order. rewrite Hk2. exact Hpo. }
  { eapply Nat.le_lt_trans; [apply (unique_length db2 (records mdb)); [by rewrite Hd2 |] | exact Hlen].
    intros r Hr. assert (idx s2 (pszAttrName mcfg) r) as Hi by (by exists db2). apply Hidx in Hi as [(d & Hd & Hin) _]. by assert (d = mdb) as -> by congruence. }
  assert (be_entries s3 = be_entries s) as Hent3 by (destruct Hsh3 as (_ & H3 & _); congruence).
  destruct (delete_eid_run id b s3) as (db & Hrun4 & Hdup & Hr); [rewrite Hent3; apply Hwf | by rewrite Hent3 |].
  exists (set_entries db s3). split; [| split; [| split]].
  - apply set_backend_ok. cbn [with_id epdn eId eattrs]. unfold rbind at 1. rewrite Hrun1. unfold rbind at 1. rewrite Hrun2. unfold rbind at 1, rtry.
    unfold MdbDeleteAllAttrMetaData. unfold rbind at 1, rget. unfold rbind at 1. rewrite acquire_write by done. rewrite Hcm2, Hmc. unfold VmDirMDBIndexGetDBi. rewrite Hdb2. unfold rbind at 1, rret at 1.
    rewrite Hrun3. exact (unless_missing_ok _ _ _ _ _ Hrun4).
  - destruct (wf_shape _ _ Hwf (same_shape_trans _ _ _ Hsh Hsh3)) as [Hw _]. split; [exact Hw | done].
  - intros n r. change (idx (set_entries db s3) n r) with (idx s3 n r). by rewrite Hidx3, Hidx.
  - intros r. cbn. rewrite Hr. by rewrite Hent3.
Qed.

(** The records that a removal looks for: those of the parent and of the
    values. *)
Definition own_recs (cm : cstr → option VDIR_INDEX_CFG) (pid : Z) (e : VDIR_ENTRY) (id : Z) : list (cstr * (list Z * list Z)) :=
  parent_recs cm pid id ++ concat ((λ a, attr_recs cm id (at_type a) (at_vals a)) <$> eattrs e).

(** The records of the other form of the DN. *)
Definition form_recs (cm : cstr → option VDIR_INDEX_CFG) (e : VDIR_ENTRY) (id : Z) : list (cstr * (list Z * list Z)) :=
  if existsb (λ a, is_dn g (at_type a)) (eattrs e) then rfc_recs cm e id else [].

(** The records are those of the parent, of the values, of the metadata and of
    the other form of the DN. *)
Lemma entry_recs_attrs cm pid e id x :
  x ∈ entry_recs cm pid e id ↔ (x ∈ own_recs cm pid e id ∨ x ∈ concat (meta_recs cm id <$> eattrs e)) ∨ x ∈ form_recs cm e id.
Proof.
  unfold entry_recs, own_recs, form_recs, dn_recs, other_recs. rewrite !elem_of_app.
  assert (∀ attrs, (x ∈ concat ((λ a, if is_dn g (at_type a) then (attr_recs cm id (at_type a) (at_vals a) ++ rfc_recs cm e id) ++ meta_recs cm id a else []) <$> attrs) ∨
    x ∈ concat ((λ a, if is_dn g (at_type a) then [] else attr_recs cm id (at_type a) (at_vals a) ++ meta_recs cm id a) <$> attrs)) ↔
    (x ∈ concat ((λ a, attr_recs cm id (at_type a) (at_vals a)) <$> attrs) ∨ x ∈ concat (meta_recs cm id <$> attrs)) ∨
    x ∈ (if existsb (λ a, is_dn g (at_type a)) attrs then rfc_recs cm e id else [])) as Ha.
  { induction attrs as [|a attrs IH]; cbn; [rewrite elem_of_nil; tauto |].
    destruct (is_dn g (at_type a)), (existsb _ attrs); cbn [orb]; rewrite ?app_nil_l, !elem_of_app; rewrite ?elem_of_nil in *; tauto. }
  rewrite Ha. tauto.
Qed.

Lemma elem_of_concat {A} (x : A) (ls : list (list A)) : x ∈ concat ls → ∃ l, x ∈ l ∧ l ∈ ls.
Proof. intros H%list_elem_of_In. apply in_concat in H as (l & Hl & Hx). exists l. by rewrite !list_elem_of_In. Qed.

(** The keys of the metadata of an entry begin with its id. *)
Lemma meta_recs_prefix cm id attrs n r mcfg :
  write_cfg cm ATTR_ATTR_META_DATA = Some mcfg → (n, r) ∈ concat (meta_recs cm id <$> attrs) → n = pszAttrName mcfg ∧ entry_prefix id `prefix_of` r.1.
Proof.
  intros Hc (l & Hin & Hl)%elem_of_concat. apply list_elem_of_fmap in Hl as (a & -> & _). unfold meta_recs in Hin. rewrite Hc in Hin.
  destruct (at_id a) as [aid|]; [| by apply elem_of_nil in Hin]. destruct (VmDirMetaDataSerialize (at_pMetaData a)) as [? [m|]]; [| by apply elem_of_nil in Hin].
  apply list_elem_of_singleton in Hin as [= -> ->]. split; [done |]. cbn. unfold meta_key. by eexists.
Qed.

(** C10: Adding an entry writes all of its records and its bytes, and nothing
    else; removing it takes away what it had: whatever indices there are, when
    the parent exists, the indices accept the values, every attribute has
    metadata, the id is new and so are the keys in the unique indices (the
    metadata index is in byte order, no two values of the entry have the same
    record, and no call fails), [VmDirMDBAddEntry] succeeds and every index has
    its old records and those of the entry (parent, forward and backward keys of
    every value, metadata, the other normal form of the DN); then
    [VmDirMDBAgeOffEntry] succeeds, the entry database has what it had before,
    and the indices have the records they had before and, beside them, exactly
    the records of the other normal form of the DN, which the removal forgets
    ([removed_dn_stays]).  When the DN has one normal form all indices are as
    before. *)
Theorem add_remove_entry s e pid b mcfg mdb :
  wf s → addable s e pid b →
  write_cfg (pIndexCfgMap (be_ix s)) ATTR_ATTR_META_DATA = Some mcfg → mdbIndexDBs (be_ix s) (pszAttrName mcfg) = Some mdb → prefix_order mdb →
  (length (records mdb) + length (entry_recs (pIndexCfgMap (be_ix s)) pid e (new_id s e)) < scan_fuel g)%nat →
  (∀ n r, idx s n r → (n, r) ∉ entry_recs (pIndexCfgMap (be_ix s)) pid e (new_id s e) ∧ ¬ (n = pszAttrName mcfg ∧ entry_prefix (new_id s e) `prefix_of` r.1)) →
  NoDup (own_recs (pIndexCfgMap (be_ix s)) pid e (new_id s e)) →
  ∃ s1 s2, VmDirMDBAddEntry g e s [] = Some (inr tt, s1, []) ∧
    (∀ n r, idx s1 n r ↔ idx s n r ∨ (n, r) ∈ entry_recs (pIndexCfgMap (be_ix s)) pid e (new_id s e)) ∧
    (∀ r, r ∈ records (be_entries s1) ↔ r = (MDBEntryIdToDBT (new_id s e), b) ∨ r ∈ records (be_entries s)) ∧
    VmDirMDBAgeOffEntry g (with_id (new_id s e) e) s1 [] = Some (inr tt, s2, []) ∧
    (∀ n r, idx s2 n r ↔ idx s n r ∨
       ((n, r) ∈ form_recs (pIndexCfgMap (be_ix s)) e (new_id s e) ∧ (n, r) ∉ own_recs (pIndexCfgMap (be_ix s)) pid e (new_id s e) ∧
        ¬ (n = pszAttrName mcfg ∧ entry_prefix (new_id s e) `prefix_of` r.1))) ∧
    (same_dn_form g e = true → ∀ n r, idx s2 n r ↔ idx s n r) ∧
    (∀ r, r ∈ records (be_entries s2) ↔ r ∈ records (be_entries s)) ∧ wf s2.
Proof.
  intros Hwf Hadd Hmc Hmdb Hpo Hlen Hfresh Hnd. set (id := new_id s e) in *. set (cm := pIndexCfgMap (be_ix s)) in *. pose proof (entry_recs_attrs cm pid e id) as Hrecs.
  destruct (store_entry_run s e pid b Hwf Hadd) as (s1 & Hrun1 & Hwf1 & Hcm & Hsh & Hidx1 & Hent1). destruct Hadd as (_ & _ & Hok & _ & Hmi & Hpr & Hpid & _ & Hnew). fold id cm in Hidx1, Hent1, Hcm, Hnew.
  assert (meta_ready s1 mcfg) as Hmr.
  { destruct Hmi as (c & Hc & He & Hs & Hu). fold cm in Hc. assert (c = mcfg) as -> by congruence. specialize (Hsh (pszAttrName mcfg)). rewrite Hmdb in Hsh.
    destruct (mdbIndexDBs (be_ix s1) (pszAttrName mcfg)) as [db1|] eqn:Hdb1; [| done]. injection Hsh as Hd1 Hk1. unfold meta_ready. rewrite Hcm. do 4 (split; [done |]).
    exists db1. split; [done |]. split; [unfold prefix_order; by rewrite Hk1 |]. destruct (write_cfg_open s _ _ Hwf Hmc) as (m' & Hm' & Hmd). assert (m' = mdb) as -> by congruence.
    eapply Nat.le_lt_trans; [| exact Hlen]. rewrite <- (length_fmap snd (entry_recs cm pid e id)), <- length_app. apply unique_length; [by rewrite Hd1, Hmd, Hu |]. intros r Hr.
    assert (idx s1 (pszAttrName mcfg) r) as Hi by (by exists db1). apply Hidx1 in Hi as [(d & Hd & Hin) | Hin]; apply elem_of_app.
    - left. by assert (d = mdb) as -> by congruence.
    - right. apply list_elem_of_fmap. by exists (pszAttrName mcfg, r). }
  destruct (age_off_run s1 e pid b id mcfg) as (s2 & Hrun2 & Hwf2 & Hidx2 & Hent2).
  - done.
  - done.
  - unfold parent_ready. by rewrite Hcm.
  - destruct Hpid as [? | (Hne & cfg & v & Hcfg & Hst & Hu & Hin & ->)]; [by left | right]. split; [done |]. exists cfg, v. rewrite Hcm. do 3 (split; [done |]). split; [apply Hidx1; by left | done].
  - done.
  - by rewrite Hcm.
  - rewrite Hcm. intros n r Hin. apply Hidx1. right. apply Hrecs. left. by left.
  - apply Hent1. by left.
  - exists s1, s2. do 4 (split; [done |]).
    assert (∀ n r, idx s2 n r ↔ idx s n r ∨ ((n, r) ∈ form_recs cm e id ∧ (n, r) ∉ own_recs cm pid e id ∧
      ¬ (n = pszAttrName mcfg ∧ entry_prefix id `prefix_of` r.1))) as Hleft.
    { intros n r. rewrite Hidx2, Hidx1, Hcm, Hrecs. fold (own_recs cm pid e id). split.
      - intros [[[? | [[? | Hm] | Hf]] ?] Hno]; [by left | done | | by right]. destruct Hno. by eapply meta_recs_prefix.
      - intros [Hi | ?]; [| tauto]. destruct (Hfresh n r Hi) as [Hno Hpre]. rewrite Hrecs in Hno. tauto. }
    split; [done |]. split; [| split; [| done]].
    + intros Hdn n r. rewrite Hleft. unfold form_recs, rfc_recs. rewrite Hdn. destruct (existsb _ _); rewrite elem_of_nil; tauto.
    + intros r. rewrite Hent2, Hent1. split; [intros [[? | ?] ?]; done |]. intros Hr. split; [by right |]. intros ->. apply Hnew. apply list_elem_of_fmap. exists (MDBEntryIdToDBT id, b). by split.
Qed.

Lemma insertable_fresh s L : (∀ n r, ¬ idx s n r) → NoDup ((λ x, (x.1, x.2.1)) <$> L) → insertable s L.
Proof.
  intros Hno Hnd i n k v Hi _. split; [by intros w Hw%Hno |]. intros j w Hj. eapply (NoDup_lookup _ _ _ (n, k) Hnd); rewrite list_lookup_fmap; [rewrite Hj | rewrite Hi]; reflexivity.
Qed.

End Effects.

(** ** An empty store *)

Definition store_cfgs (t : cstr) : option VDIR_INDEX_CFG :=
  if bool_decide (t = ATTR_DN) then Some (cfg_ex ATTR_DN true true)
  else if bool_decide (t = type_cn) then Some (cfg_ex type_cn true false)
  else if bool_decide (t = ATTR_PARENT_ID) then Some (cfg_ex ATTR_PARENT_ID false false)
  else if bool_decide (t = ATTR_ATTR_META_DATA) then Some (cfg_ex ATTR_ATTR_META_DATA false true) else None.

Definition store_dbs (t : cstr) : option table :=
  if bool_decide (t = ATTR_DN) then Some (UniqueTable false ∅)
  else if bool_decide (t = type_cn) then Some (DupTable false ∅)
  else if bool_decide (t = ATTR_PARENT_ID) then Some (DupTable false ∅)
  else if bool_decide (t = ATTR_ATTR_META_DATA) then Some (UniqueTable false ∅) else None.

Definition store_ex : be_state (lmdb := table_lmdb) :=
  BE (lmdb := table_lmdb) (INDEX_ENV (lmdb := table_lmdb) store_cfgs store_dbs) (UniqueTable false ∅) 100
     (COMMITTED (lmdb := table_lmdb) store_dbs (UniqueTable false ∅)).

Definition globals_ex : be_globals := GLOBALS simple_compare schema_ex id false true 20.

(** An entry below the root; [rfc] is the other normal form of its DN. *)
Definition entry_with (rfc : list Z) : VDIR_ENTRY :=
  let val x := BER x (Some x) in
  ENT 0 (val [97]) (val []) None (val rfc)
    [ATTR ATTR_DN (Some 1) [val [97]] (Some md_ex) []; ATTR ATTR_OBJECT_CLASS (Some 2) [val [116]] (Some md_ex) [];
     ATTR type_cn (Some 3) [val [97]; val [98]] (Some md_ex) []].

Lemma store_wf : wf (laws := table_laws) store_ex.
Proof.
  split; [| done]. intros t cfg H. cbn in H. unfold store_cfgs in H.
  repeat (destruct (bool_decide _); [injection H as <-; eexists; split; reflexivity |]). done.
Qed.

Lemma store_empty n r : ¬ idx (laws := table_laws) store_ex n r.
Proof.
  intros (db & Hdb & Hin). cbn in Hdb. unfold store_dbs in Hdb. change (records db) with (table_records db) in Hin. rewrite table_elem_records in Hin.
  repeat case_bool_decide; try done; injection Hdb as <-; cbn in Hin; rewrite ?map_to_list_empty, ?elements_empty in Hin; by apply elem_of_nil in Hin.
Qed.

(** The stored bytes of the entry: four attributes with five values. *)
Lemma encode_stored {St} (s : St) :
  ∃ b, VmDirEncodeEntry simple_compare (stored_attrs (entry_with [97])) true s [] = Some (inr b, s, []).
Proof. eexists. vm_compute. reflexivity. Qed.

Lemma root_parent : has_id (laws := table_laws) store_ex (epdn (entry_with [97])) 1.
Proof. left. split; reflexivity. Qed.

Lemma store_parent : parent_ready (lmdb := table_lmdb) store_ex.
Proof. eexists. split; reflexivity. Qed.

Lemma store_meta : meta_index (lmdb := table_lmdb) store_ex.
Proof. eexists. repeat split; reflexivity. Qed.

Lemma store_attrs_ok : Forall (attr_ok globals_ex) (eattrs (entry_with [97])).
Proof.
  assert (∃ m, VmDirMetaDataSerialize (Some md_ex) = (ERROR_SUCCESS, Some m)) as Hm by (eexists; vm_compute; reflexivity).
  assert (∀ t i v vs, t ≠ [] → c_chars (norm_or_raw v) ≠ [] → Forall (λ v, c_chars (norm_or_raw v) ≠ []) vs → (is_Some (bvnorm_val v)) →
    attr_ok globals_ex (ATTR t (Some i) (v :: vs) (Some md_ex) [])) as H.
  { intros t i v vs Ht Hv Hvs [n Hn]. split; [done |]. split; [by constructor |]. split; [by split |]. split; [done |]. intros _. by exists v, vs, n. }
  repeat (apply Forall_cons; split); [| | | constructor]; apply H; try done; repeat constructor; done.
Qed.

(** No index has scopes. *)
Lemma store_accepts v : c_chars (norm_or_raw v) ≠ [] → ∀ dn t, values_ok (lmdb := table_lmdb) globals_ex store_ex dn t [v].
Proof.
  intros Hv dn t cfg Hcfg. constructor; [| constructor]. unfold accepted, validate, MdbValidateAttrUniqueness. rewrite bool_decide_eq_false_2 by done. rewrite run_backend.
  assert (no_scopes cfg = true) as ->; [| done]. unfold write_cfg in Hcfg. cbn in Hcfg. unfold store_cfgs in Hcfg. repeat (destruct (bool_decide _); [by injection Hcfg as <- |]). done.
Qed.

Lemma store_accepted : entry_accepted (lmdb := table_lmdb) globals_ex store_ex (entry_with [97]) (eattrs (entry_with [97])).
Proof.
  split; [| by apply store_accepts]. assert (∀ dn t v w, c_chars (norm_or_raw v) ≠ [] → c_chars (norm_or_raw w) ≠ [] → values_ok (lmdb := table_lmdb) globals_ex store_ex dn t [v; w]) as H2.
  { intros dn t v w Hv Hw cfg Hcfg. constructor; [| constructor; [| constructor]].
    - pose proof (store_accepts v Hv dn t cfg Hcfg) as H. exact (Forall_inv H).
    - pose proof (store_accepts w Hw dn t cfg Hcfg) as H. exact (Forall_inv H). }
  repeat (apply Forall_cons; split); [by apply store_accepts | by apply store_accepts | by apply H2 | constructor].
Qed.

Lemma store_prefix : prefix_order (laws := table_laws) (UniqueTable false ∅).
Proof. by apply table_prefix_order. Qed.

Lemma add_remove_entry_witness :
  ∃ s1 s2, VmDirMDBAddEntry (lmdb := table_lmdb) globals_ex (entry_with [97]) store_ex [] = Some (inr tt, s1, []) ∧
    VmDirMDBAgeOffEntry (lmdb := table_lmdb) globals_ex (with_id 100 (entry_with [97])) s1 [] = Some (inr tt, s2, []).
Proof.
  destruct (encode_stored store_ex) as [b Hb].
  edestruct (add_remove_entry (laws := table_laws) globals_ex store_ex (entry_with [97]) 1 b) as (s1 & s2 & H1 & _ & _ & H2 & _).
  - exact store_wf.
  - split; [exact Hb |]. split; [done |]. split; [exact store_attrs_ok |]. split; [exact store_accepted |]. split; [exact store_meta |]. split; [exact store_parent |]. split; [exact root_parent |].
    split; [apply insertable_fresh; [exact store_empty | apply (bool_decide_unpack _); vm_compute; exact I] | apply (bool_decide_unpack _); vm_compute; exact I].
  - reflexivity.
  - reflexivity.
  - exact store_prefix.
  - apply (bool_decide_unpack _). vm_compute. exact I.
  - intros n r Hi. by destruct (store_empty n r).
  - apply (bool_decide_unpack _). vm_compute. exact I.
  - exists s1, s2. split; [exact H1 | exact H2].
Defined.

(** ** What removal leaves behind *)

Definition add_ex (e : VDIR_ENTRY) := VmDirMDBAddEntry (lmdb := table_lmdb) globals_ex e.
Definition age_off_ex (e : VDIR_ENTRY) := VmDirMDBAgeOffEntry (lmdb := table_lmdb) globals_ex e.

Definition outcome {A} (x : option ((dwerror + A) * be_state (lmdb := table_lmdb) * env)) : option (dwerror + A) :=
  match x with Some (r, _, _) => Some r | None => None end.

(** An entry whose DN has another normal form in RFC 4514 is added with both
    in the index of DNs, but the removal takes away only one: after adding and
    removing it, which both succeed, the same entry can never be added again.
    With one normal form it can. *)
Theorem removed_dn_stays :
  outcome ((add_ex (entry_with [65]) ;;; age_off_ex (with_id 100 (entry_with [65]))) store_ex []) = Some (inr tt) ∧
  outcome ((add_ex (entry_with [65]) ;;; age_off_ex (with_id 100 (entry_with [65])) ;;; add_ex (entry_with [65])) store_ex []) =
    Some (inl VMDIR_ERROR_BACKEND_ENTRY_EXISTS) ∧
  outcome ((add_ex (entry_with [97]) ;;; age_off_ex (with_id 100 (entry_with [97])) ;;; add_ex (entry_with [97])) store_ex []) = Some (inr tt).
Proof. split; [vm_compute; reflexivity |]. split; vm_compute; reflexivity. Qed.

(** A record that is missing should not stop the removal, but the error is
    translated before it is compared: an entry that has lost its bytes is never
    removed. *)
Theorem lost_bytes_block_removal :
  outcome ((add_ex (entry_with [97]) ;;; MDBDeleteEIdIndex (lmdb := table_lmdb) 100 ;;; age_off_ex (with_id 100 (entry_with [97]))) store_ex []) = Some (inl ERROR_BACKEND_ERROR).
Proof. vm_compute. reflexivity. Qed.

(** A second entry with the DN of an existing one is refused as such, before
    any other error of its attributes. *)
Example existing_dn_ex :
  outcome ((add_ex (entry_with [97]) ;;; add_ex (entry_with [97])) store_ex []) = Some (inl VMDIR_ERROR_BACKEND_ENTRY_EXISTS).
Proof. vm_compute. reflexivity. Qed.
