(* ===== verification/EntryModify.v ===== *)
(** * EntryModify: changing the attributes of an entry

    [vmdir/server/middle-layer/modify.c]: [VmDirApplyModsToEntryStruct] applies
    the modifications of a request to an entry that was read from the store, and
    rewrites them on the way, so that the backend finds in them exactly the
    values to add to the indices and to delete from them: a replacement becomes a
    deletion and an addition, the deletion of an attribute gets its values, and
    in replication values that are there already, or not there, are left out.
    With it the helpers of [common/vmdirentry.c] and the parent of a DN
    ([middle-layer/dn.c]). *)

From S2P Require Import Prelude Heap StringList CString HashMap UtdVector Metadata Effects RaftLog Filter Candidates Search IndexScan EntryCodec IndexUnique IndexWrite.

Open Scope Z_scope.

(** ** Data *)

Inductive VDIR_LDAP_MOD_OP := MOD_OP_ADD | MOD_OP_DELETE | MOD_OP_REPLACE.
Inductive VDIR_MOD_IGNORE := MOD_IGNORE_NONE | MOD_IGNORE_ALL | MOD_IGNORE_ATTR_VALUES.

#[export] Instance mod_op_eq_dec : EqDecision VDIR_LDAP_MOD_OP.
Proof. solve_decision. Defined.
#[export] Instance mod_ignore_eq_dec : EqDecision VDIR_MOD_IGNORE.
Proof. solve_decision. Defined.

(** [VDIR_MODIFICATION]; of its attribute, [valueMetaDataToDelete] is only used
    here.  [numVals] is the length of [at_vals]. *)
Record VDIR_MODIFICATION := MOD {
  operation : VDIR_LDAP_MOD_OP;
  mattr : attribute;
  valueMetaDataToDelete : list value_metadata;
  modIgnoreType : VDIR_MOD_IGNORE
}.

Definition set_operation (op : VDIR_LDAP_MOD_OP) (m : VDIR_MODIFICATION) : VDIR_MODIFICATION := MOD op (mattr m) (valueMetaDataToDelete m) (modIgnoreType m).
Definition set_mattr (a : attribute) (m : VDIR_MODIFICATION) : VDIR_MODIFICATION := MOD (operation m) a (valueMetaDataToDelete m) (modIgnoreType m).
Definition set_ignore (x : VDIR_MOD_IGNORE) (m : VDIR_MODIFICATION) : VDIR_MODIFICATION := MOD (operation m) (mattr m) (valueMetaDataToDelete m) x.
Definition set_vals (vals : list berval) (a : attribute) : attribute := ATTR (at_type a) (at_id a) vals (at_pMetaData a) (valueMetaDataToAdd a).
Definition attr_numVals (a : attribute) : Z := Z.of_nat (length (at_vals a)).

Definition set_attrs (attrs : list attribute) (e : VDIR_ENTRY) : VDIR_ENTRY := ENT (eId e) (edn e) (epdn e) (newpdn e) (ldapDN e) attrs.
Definition set_parents (pdn : berval) (new : option berval) (e : VDIR_ENTRY) : VDIR_ENTRY := ENT (eId e) (edn e) pdn new (ldapDN e) (eattrs e).

Definition ATTR_MEMBER : cstr := ["m"; "e"; "m"; "b"; "e"; "r"]%char.
Definition ATTR_USER_PASSWORD : cstr := ["u"; "s"; "e"; "r"; "P"; "a"; "s"; "s"; "w"; "o"; "r"; "d"]%char.
Definition UINT16_MAX : Z := 65535.

(** The bytes of the structures. *)
Definition sizeof_BERVALUE : Z := 40.
Definition sizeof_ATTRIBUTE : Z := 128.
Definition sizeof_MODIFICATION : Z := 152.

(** What the middle layer knows of the schema: the normal form of a value by the
    matching rules of an attribute id (a normal form that is there may be
    kept), the DN in the normal form of RFC 4514 ([VmDirNormDN]), and the id and
    name of an attribute type ([VmDirSchemaAttrNameToDesc]). *)
Record ml_schema := ML_SCHEMA {
  ml_normalize : Z → berval → dwerror + list Z;
  ml_rfc4514 : list Z → option (list Z);
  ml_desc : cstr → option (Z * cstr)
}.

(** The bytes of a C string in a block. *)
Fixpoint c_bytes (v : list Z) : list Z :=
  match v with [] => [] | b :: v => if b =? 0 then [] else b :: c_bytes v end.

(** ** The parent of a DN *)

(** The loop of [_VmDirFindNextRdn]: where it stops, and [bEscaped]. *)
Fixpoint rdn_scan (bEscaped : bool) (s : list Z) : nat * bool :=
  match s with
  | [] => (O, bEscaped)
  | c :: s =>
      if negb bEscaped && (c =? 44) then (O, bEscaped)
      else let '(i, x) := rdn_scan (if c =? 92 then negb bEscaped else bEscaped) s in (S i, x)
  end.

Definition _VmDirFindNextRdn (s : list Z) : dwerror + nat :=
  let '(i, bEscaped) := rdn_scan false s in if bEscaped then inl VMDIR_ERROR_INVALID_DN else inr i.

Section Modify.
Context {lmdb : Lmdb} (g : be_globals) (ml : ml_schema).

Definition rdn_end (s : list Z) : RM be_state nat := match _VmDirFindNextRdn s with inl err => rfail err | inr i => rret i end.

(** [VmDirAllocateStringA] *)
Definition string_of (s : list Z) : RM be_state (list Z) := VmDirAllocateMemory (Z.of_nat (length (c_bytes s)) + 1) ;;; rret (c_bytes s).

(** [VmDirGetParentDN]; no parent is the value with no bytes. *)
Definition VmDirGetParentDN (dn : berval) : RM be_state berval :=
  i <- rdn_end (bv_val dn) ;;
  if (i <? length (bv_val dn))%nat then
    v <- string_of (drop (S i) (bv_val dn)) ;;
    match bvnorm_val dn with
    | None | Some [] => rret (BER v None)
    | Some n =>
        i <- rdn_end n ;;
        if (i <? length n)%nat then n <- string_of (drop (S i) n) ;; rret (BER v (Some n)) else rret (BER v None)
    end
  else rret (BER [] None).

(** ** Copies of values *)

(** [VmDirBervalContentDup] *)
Definition VmDirBervalContentDup (v : berval) : RM be_state berval :=
  VmDirAllocateMemory (Z.of_nat (length (bv_val v)) + 1) ;;;
  match bvnorm_val v with
  | None => rret v
  | Some n => VmDirAllocateMemory (Z.of_nat (length n) + 1) ;;; rret v
  end.

Fixpoint dup_vals (vals : list berval) : RM be_state (list berval) :=
  match vals with [] => rret [] | v :: vals => v <- VmDirBervalContentDup v ;; vals <- dup_vals vals ;; rret (v :: vals) end.

(** Copies whose errors are not looked at: the value stays empty. *)
Fixpoint dup_vals_unchecked (vals : list berval) : RM be_state (list berval) :=
  match vals with
  | [] => rret []
  | v :: vals =>
      r <- rtry (VmDirBervalContentDup v) ;;
      vals <- dup_vals_unchecked vals ;; rret (match r with inl _ => BER [] None | inr v => v end :: vals)
  end.

(** [VmDirAttributeDup]: without the metadata. *)
Definition VmDirAttributeDup (a : attribute) : RM be_state attribute :=
  VmDirAllocateMemory sizeof_ATTRIBUTE ;;;
  VmDirAllocateMemory (sizeof_BERVALUE * (attr_numVals a + 1)) ;;;
  vals <- dup_vals (at_vals a) ;;
  VmDirAllocateMemory (Z.of_nat (length (at_type a)) + 1) ;;;
  rret (ATTR (at_type a) (at_id a) vals None []).

(** ** Values of an attribute *)

(** [VmDirSchemaBervalNormalize] *)
Definition VmDirSchemaBervalNormalize (pATDesc : option Z) (v : berval) : RM be_state berval :=
  match pATDesc with
  | None => rfail ERROR_INVALID_PARAMETER
  | Some aid => match ml_normalize ml aid v with inl err => rfail err | inr n => rret (BER (bv_val v) (Some n)) end
  end.

Fixpoint normalize_vals (pATDesc : option Z) (vals : list berval) : RM be_state (list berval) :=
  match vals with
  | [] => rret []
  | v :: vals => v <- VmDirSchemaBervalNormalize pATDesc v ;; vals <- normalize_vals pATDesc vals ;; rret (v :: vals)
  end.

(** The first value with a normal form; each one looked at has a normal form
    ([assert]). *)
Fixpoint find_norm (x : list Z) (vals : list berval) : RM be_state (option nat) :=
  match vals with
  | [] => rret None
  | v :: vals =>
      match bvnorm_val v with
      | None => rub
      | Some y => if bool_decide (x = y) then rret (Some O) else o <- find_norm x vals ;; rret (S <$> o)
      end
  end.

(** A value of a replicated modification that is there already. *)
Definition mark (v : berval) : berval := BER (bv_val v) (Some [0]).

(** The values of the entry against those of the modification: the values in
    their normal forms, those of the modification, and [numVals]. *)
Fixpoint exists_loop (bIsReplOp : bool) (pATDesc : option Z) (evals mvals : list berval) (n : Z) : RM be_state (list berval * list berval * Z) :=
  match evals with
  | [] => rret ([], mvals, n)
  | v :: evals =>
      v <- VmDirSchemaBervalNormalize pATDesc v ;;
      o <- find_norm (norm_or_raw v) mvals ;;
      r <- (match o with
            | None => exists_loop bIsReplOp pATDesc evals mvals n
            | Some j => if bIsReplOp then exists_loop bIsReplOp pATDesc evals (alter mark j mvals) (u32 (n - 1))
                        else rfail VMDIR_ERROR_TYPE_OR_VALUE_EXISTS
            end) ;;
      rret (v :: r.1.1, r.1.2, r.2)
  end.

(** The array for the values that are left has room for [n] of them. *)
Definition CheckIfAnAttrValAlreadyExists (bIsReplOp : bool) (eAttr modAttr : attribute) : RM be_state (attribute * attribute) :=
  r <- exists_loop bIsReplOp (at_id modAttr) (at_vals eAttr) (at_vals modAttr) (attr_numVals modAttr) ;;
  let '(evals, mvals, n) := r in
  if n <? attr_numVals modAttr then
    VmDirAllocateMemory (sizeof_BERVALUE * (n + 1)) ;;;
    let kept := base.filter (λ v, bvnorm_val v ≠ Some [0]) mvals in
    if n <? Z.of_nat (length kept) then rub else rret (set_vals evals eAttr, set_vals kept modAttr)
  else rret (set_vals evals eAttr, set_vals mvals modAttr).

Definition AddAttrValsToEntryStruct (eAttr modAttr : attribute) : RM be_state attribute :=
  if attr_numVals eAttr + attr_numVals modAttr >? UINT16_MAX then rfail VMDIR_ERROR_DATA_CONSTRAINT_VIOLATION
  else
    VmDirAllocateMemory ((attr_numVals eAttr + attr_numVals modAttr + 1) * sizeof_BERVALUE) ;;;
    vals <- dup_vals (at_vals modAttr) ;;
    rret (set_vals (at_vals eAttr ++ vals) eAttr).

(** [AddAttrToEntryStruct]: behind the last attribute, of which there has to be
    one. *)
Definition AddAttrToEntryStruct (attrs : list attribute) (a : attribute) : RM be_state (list attribute) :=
  c <- VmDirAttributeDup a ;;
  match attrs with [] => rub | _ => rret (attrs ++ [c]) end.

(** [RemoveAttrVals] *)
Fixpoint RemoveAttrVals (evals mvals : list berval) : RM be_state (list berval) :=
  match evals with
  | [] => rret []
  | v :: evals =>
      match bvnorm_val v with
      | None => rub
      | Some x =>
          o <- find_norm x mvals ;;
          vals <- RemoveAttrVals evals mvals ;;
          rret match o with None => v :: vals | Some _ => vals end
      end
  end.

(** The values to delete that the attribute has. *)
Fixpoint matched_loop (bIsReplOp : bool) (evals mvals : list berval) : RM be_state (list berval) :=
  match mvals with
  | [] => rret []
  | v :: mvals =>
      match bvnorm_val v with
      | None => rub
      | Some x =>
          o <- find_norm x evals ;;
          match o with
          | Some _ => vals <- matched_loop bIsReplOp evals mvals ;; rret (v :: vals)
          | None => if bIsReplOp then matched_loop bIsReplOp evals mvals else rfail VMDIR_ERROR_NO_SUCH_ATTRIBUTE
          end
      end
  end.

(** [DelAttrValsFromEntryStruct]: the attributes that are left, and the
    attribute of the modification. *)
Definition DelAttrValsFromEntryStruct (bIsReplOp : bool) (attrs : list attribute) (modAttr : attribute) : RM be_state (list attribute * attribute) :=
  match list_find (λ a, g_compare g (at_type modAttr) (at_type a) false = 0) attrs with
  | None => rub
  | Some (k, eAttr) =>
      evals <- normalize_vals (at_id eAttr) (at_vals eAttr) ;;
      if attr_numVals modAttr =? 0 then
        VmDirAllocateMemory ((attr_numVals eAttr + 1) * sizeof_BERVALUE) ;;;
        vals <- dup_vals_unchecked evals ;;
        rret (delete k attrs, set_vals vals modAttr)
      else
        matched <- matched_loop bIsReplOp evals (at_vals modAttr) ;;
        if (length matched =? length evals)%nat then rret (delete k attrs, set_vals matched modAttr)
        else vals <- RemoveAttrVals evals matched ;; rret (<[k := set_vals vals eAttr]> attrs, set_vals matched modAttr)
  end.

(** ** Members that are gone *)

(** [VmDirNormalizeDN] *)
Definition VmDirNormalizeDN {St} (v : berval) : RM St berval :=
  match bvnorm_val v with
  | Some _ => rret v
  | None => match bv_val v with
            | [] => rret (BER [] (Some []))
            | _ => backend_call ;;; rret (BER (bv_val v) (Some (g_normalize_dn g (bv_val v))))
            end
  end.

(** [VmDirMDBDNToEntry], [VmDirMDBSimpleDnToEntry]; [cm] are the indices. *)
Definition VmDirMDBDNToEntry (cm : cstr → option VDIR_INDEX_CFG) (dn : berval) : RM committed (list VDIR_ATTRIBUTE * list Z) :=
  set_backend_error
    (dn <- VmDirNormalizeDN dn ;;
     c <- rget ;;
     eId <- VmDirMDBDNToEntryId (INDEX_ENV cm (c_indices c)) dn ;;
     VmDirMDBEIdToEntry (g_compare g) (g_schema g) (g_bootstrap g) eId).

Definition VmDirMDBSimpleDnToEntry (cm : cstr → option VDIR_INDEX_CFG) (pszEntryDN : list Z) : RM committed (list VDIR_ATTRIBUTE * list Z) :=
  backend_call ;;; backend_call ;;;
  e <- VmDirMDBDNToEntry cm (BER (c_bytes pszEntryDN) None) ;;
  backend_call ;;; rret e.

(** [VmDirSimpleDNToEntry] *)
Definition VmDirSimpleDNToEntry (cm : cstr → option VDIR_INDEX_CFG) (pszDN : list Z) : RM committed (list VDIR_ATTRIBUTE * list Z) :=
  if bool_decide (c_bytes pszDN = []) then rfail VMDIR_ERROR_INVALID_PARAMETER
  else
    backend_call ;;;
    bvDn <- VmDirNormalizeDN (BER (c_bytes pszDN) None) ;;
    VmDirAllocateMemory 256 ;;;
    VmDirMDBSimpleDnToEntry cm (norm_or_raw bvDn).

(** The members with an entry; all of them get their normal forms. *)
Fixpoint live_members (cm : cstr → option VDIR_INDEX_CFG) (vals : list berval) : RM be_state (list berval * list (list Z)) :=
  match vals with
  | [] => rret ([], [])
  | v :: vals =>
      v <- VmDirNormalizeDN v ;;
      r <- rtry (read_only (VmDirSimpleDNToEntry cm (default [] (bvnorm_val v)))) ;;
      match r with
      | inr _ => x <- live_members cm vals ;; rret (v :: x.1, bv_val v :: x.2)
      | inl err => if bool_decide (err = VMDIR_ERROR_BACKEND_ENTRY_NOTFOUND) then x <- live_members cm vals ;; rret (v :: x.1, x.2) else rfail err
      end
  end.

Fixpoint copy_strings (l : list (list Z)) : RM be_state (list berval) :=
  match l with [] => rret [] | x :: l => x <- string_of x ;; l <- copy_strings l ;; rret (BER x None :: l) end.

(** [_VmDirPatchBadMemberData]: the attributes without the members that have no
    entry. *)
Definition _VmDirPatchBadMemberData (attrs : list attribute) : RM be_state (list attribute) :=
  match list_find (λ a, g_compare g ATTR_MEMBER (at_type a) false = 0) attrs with
  | None => rret attrs
  | Some (k, a) =>
      VmDirAllocateMemory (8 * attr_numVals a) ;;;
      s <- rget ;;
      x <- live_members (pIndexCfgMap (be_ix s)) (at_vals a) ;;
      let attrs := <[k := set_vals x.1 a]> attrs in
      if Z.of_nat (length x.2) <? attr_numVals a then
        VmDirAllocateMemory sizeof_ATTRIBUTE ;;;
        VmDirAllocateMemory (sizeof_BERVALUE * (Z.of_nat (length x.2) + 1)) ;;;
        match ml_desc ml ATTR_MEMBER with
        | None => rfail VMDIR_ERROR_NO_SUCH_ATTRIBUTE
        | Some (aid, name) =>
            vals <- copy_strings x.2 ;;
            match list_find (λ a, g_compare g (at_type a) name false = 0) attrs with
            | None => rfail VMDIR_ERROR_NO_SUCH_ATTRIBUTE
            | Some (k, _) => rret (<[k := ATTR name (Some aid) vals None []]> attrs)
            end
        end
      else rret attrs
  end.

(** ** Modifications *)

(** [VmDirFindAttrByName] *)
Definition VmDirFindAttrByName (attrs : list attribute) (pszName : cstr) : option (nat * attribute) :=
  list_find (λ a, g_compare g (at_type a) pszName false = 0) attrs.

(** The case [MOD_OP_ADD]. *)
Definition apply_add (bIsReplOp : bool) (attrs : list attribute) (m : VDIR_MODIFICATION) : RM be_state (list attribute * VDIR_MODIFICATION) :=
  match VmDirFindAttrByName attrs (at_type (mattr m)) with
  | None => attrs <- AddAttrToEntryStruct attrs (mattr m) ;; rret (attrs, m)
  | Some (k, a) =>
      r <- CheckIfAnAttrValAlreadyExists bIsReplOp a (mattr m) ;;
      a <- AddAttrValsToEntryStruct r.1 r.2 ;;
      rret (<[k := a]> attrs, set_mattr r.2 m)
  end.

(** The case [MOD_OP_DELETE]. *)
Definition apply_delete (bIsReplOp : bool) (attrs : list attribute) (m : VDIR_MODIFICATION) : RM be_state (list attribute * VDIR_MODIFICATION) :=
  match VmDirFindAttrByName attrs (at_type (mattr m)) with
  | None =>
      if attr_numVals (mattr m) =? 0
      then rret (attrs, set_ignore (if bIsReplOp then MOD_IGNORE_ATTR_VALUES else MOD_IGNORE_ALL) m)
      else rfail VMDIR_ERROR_NO_SUCH_ATTRIBUTE
  | Some _ =>
      r <- rtry (DelAttrValsFromEntryStruct bIsReplOp attrs (mattr m)) ;;
      match r with
      | inr (attrs, a) => rret (attrs, set_mattr a m)
      | inl err =>
          rfail (if bool_decide (err = VMDIR_ERROR_NO_SUCH_ATTRIBUTE) && (g_compare g (at_type (mattr m)) ATTR_USER_PASSWORD false =? 0)
                 then VMDIR_ERROR_USER_INVALID_CREDENTIAL else err)
      end
  end.

(** [GenerateNewParent] *)
Definition GenerateNewParent (e : VDIR_ENTRY) (dnAttr : attribute) : RM be_state VDIR_ENTRY :=
  pdn <- (match bvnorm_val (epdn e) with Some _ => rret (epdn e) | None => VmDirGetParentDN (edn e) end) ;;
  match at_vals dnAttr with
  | [] => rub
  | v :: _ =>
      new <- VmDirGetParentDN v ;;
      match bvnorm_val pdn, bvnorm_val new with
      | Some p, Some n =>
          if g_compare g (c_chars p) (c_chars n) false =? 0 then rret (set_parents pdn (newpdn e) e)
          else new <- VmDirBervalContentDup new ;; rret (set_parents pdn (Some new) e)
      | _, _ => new <- VmDirBervalContentDup new ;; rret (set_parents pdn (Some new) e)
      end
  end.

(** The deletion that goes before the addition of a replacement. *)
Definition newDelMod (m : VDIR_MODIFICATION) : VDIR_MODIFICATION :=
  MOD MOD_OP_DELETE (ATTR (at_type (mattr m)) (at_id (mattr m)) [] None []) [] MOD_IGNORE_NONE.

Definition mod_add (bIsReplOp : bool) (e : VDIR_ENTRY) (m : VDIR_MODIFICATION) : RM be_state (VDIR_ENTRY * list VDIR_MODIFICATION) :=
  r <- apply_add bIsReplOp (eattrs e) m ;; rret (set_attrs r.1 e, [r.2]).
Definition mod_delete (bIsReplOp : bool) (e : VDIR_ENTRY) (m : VDIR_MODIFICATION) : RM be_state (VDIR_ENTRY * list VDIR_MODIFICATION) :=
  r <- apply_delete bIsReplOp (eattrs e) m ;; rret (set_attrs r.1 e, [r.2]).

(** One modification of the request: the entry, whether its DN is modified, and
    the modifications that take its place. *)
Definition apply_mod (bIsReplOp : bool) (e : VDIR_ENTRY) (m : VDIR_MODIFICATION) : RM be_state (VDIR_ENTRY * bool * list VDIR_MODIFICATION) :=
  match operation m with
  | MOD_OP_ADD => r <- mod_add bIsReplOp e m ;; rret (r.1, false, r.2)
  | MOD_OP_DELETE => r <- mod_delete bIsReplOp e m ;; rret (r.1, false, r.2)
  | MOD_OP_REPLACE =>
      if attr_numVals (mattr m) =? 0 then r <- mod_delete bIsReplOp e (set_operation MOD_OP_DELETE m) ;; rret (r.1, false, r.2)
      else match VmDirFindAttrByName (eattrs e) (at_type (mattr m)) with
           | None => r <- mod_add bIsReplOp e (set_operation MOD_OP_ADD m) ;; rret (r.1, false, r.2)
           | Some (_, a) =>
               let bDn := g_compare g (at_type a) ATTR_DN false =? 0 in
               e <- (if bDn then GenerateNewParent e (mattr m) else rret e) ;;
               VmDirAllocateMemory sizeof_MODIFICATION ;;;
               d <- mod_delete bIsReplOp e (newDelMod m) ;;
               r <- mod_add bIsReplOp d.1 (set_operation MOD_OP_ADD m) ;;
               rret (r.1, bDn, d.2 ++ r.2)
           end
  end.

Fixpoint apply_mods (bIsReplOp : bool) (e : VDIR_ENTRY) (mods : list VDIR_MODIFICATION) : RM be_state (VDIR_ENTRY * bool * list VDIR_MODIFICATION) :=
  match mods with
  | [] => rret (e, false, [])
  | m :: mods =>
      x <- apply_mod bIsReplOp e m ;;
      r <- apply_mods bIsReplOp x.1.1 mods ;;
      rret (r.1.1, x.1.2 || r.1.2, x.2 ++ r.2)
  end.

(** [VmDirApplyModsToEntryStruct], for an entry in the normal format: the entry,
    [*pbDnModified], and the modifications. *)
Definition VmDirApplyModsToEntryStruct (bIsReplOp : bool) (mods : list VDIR_MODIFICATION) (e : VDIR_ENTRY) : RM be_state (VDIR_ENTRY * bool * list VDIR_MODIFICATION) :=
  attrs <- _VmDirPatchBadMemberData (eattrs e) ;;
  apply_mods bIsReplOp (set_attrs attrs e) mods.

(** ** The backend *)

(** [_VmDirRFC4154DNModifyCompliance]: a DN whose other normal form differs has a
    second record. *)
Definition _VmDirRFC4154DNModifyCompliance (e : VDIR_ENTRY) (vals : list berval) (entryId : Z) (op : index_op) : RM be_state unit :=
  match vals with
  | [] => rret tt
  | v :: _ =>
      match ml_rfc4514 ml (bv_val v) with
      | None => rret tt
      | Some n =>
          if g_compare g (c_chars n) (c_chars (default [] (bvnorm_val v))) true =? 0 then rret tt
          else
            r <- rtry (MdbUpdateIndicesForAttr g (edn e) ATTR_DN [BER (bv_val v) (Some n)] entryId op) ;;
            match r with
            | inr _ => rret tt
            | inl err => if bool_decide (err = MDB_NOTFOUND) && bool_decide (op = BE_INDEX_OP_TYPE_DELETE) then rret tt else rfail err
            end
      end
  end.

(** The index records of a modification; [dn] is that it is one of the DN. *)
Definition modify_values (dn : bool) (e : VDIR_ENTRY) (m : VDIR_MODIFICATION) : RM be_state unit :=
  let a := mattr m in
  let update op :=
    MdbUpdateIndicesForAttr g (edn e) (at_type a) (at_vals a) (eId e) op ;;;
    (if dn then _VmDirRFC4154DNModifyCompliance e (at_vals a) (eId e) op else rret tt) in
  match modIgnoreType m, operation m with
  | MOD_IGNORE_ATTR_VALUES, _ => rret tt
  | _, MOD_OP_ADD => to_backend (Some MDB_KEYEXIST) ERROR_BACKEND_CONSTRAINT (update BE_INDEX_OP_TYPE_CREATE)
  | _, MOD_OP_DELETE => to_backend None ERROR_BACKEND_ERROR (update BE_INDEX_OP_TYPE_DELETE)
  | _, MOD_OP_REPLACE => rub
  end.

(** The metadata of values, when there are any. *)
Definition modify_value_metas (e : VDIR_ENTRY) (m : VDIR_MODIFICATION) (bDelete : bool) (q : list value_metadata) : RM be_state unit :=
  match q, modIgnoreType m with
  | [], _ | _, MOD_IGNORE_ATTR_VALUES => rret tt
  | _, _ => to_backend None ERROR_BACKEND_ERROR
              match at_id (mattr m) with None => rub | Some aid => VmDirMdbUpdateAttrValueMetaData g (eId e) aid bDelete q end
  end.

(** One round of a loop, the first with [dn], the second without. *)
Definition modify_step (dn : bool) (e : VDIR_ENTRY) (m : VDIR_MODIFICATION) : RM be_state unit :=
  if bool_decide (modIgnoreType m = MOD_IGNORE_ALL) then rret tt
  else
    (if Bool.eqb (is_dn g (at_type (mattr m))) dn then
       modify_values dn e m ;;;
       to_backend None ERROR_BACKEND_ERROR (MdbUpdateAttrMetaData (mattr m) (eId e) BE_INDEX_OP_TYPE_UPDATE)
     else rret tt) ;;;
    (if dn then modify_value_metas e m false (valueMetaDataToAdd (mattr m)) else modify_value_metas e m true (valueMetaDataToDelete m)).

Fixpoint modify_loop (dn : bool) (e : VDIR_ENTRY) (mods : list VDIR_MODIFICATION) : RM be_state unit :=
  match mods with [] => rret tt | m :: mods => modify_step dn e m ;;; modify_loop dn e mods end.

(** The new parent, when the entry moves. *)
Definition moves (e : VDIR_ENTRY) : option berval :=
  match newpdn e with Some p => if (length (bv_val p) =? 0)%nat then None else Some p | None => None end.

(** [VmDirMDBModifyEntry] *)
Definition VmDirMDBModifyEntry (mods : list VDIR_MODIFICATION) (e : VDIR_ENTRY) : RM be_state unit :=
  set_backend_error
    (newEncodedEntry <- VmDirEncodeEntry (g_compare g) (stored_attrs e) true ;;
     (match moves e with Some _ => MDBDeleteParentIdIndex (epdn e) (eId e) | None => rret tt end) ;;;
     modify_loop true e mods ;;;
     modify_loop false e mods ;;;
     to_backend None ERROR_BACKEND_ERROR (MdbCreateEIDIndex (eId e) newEncodedEntry false) ;;;
     (match moves e with
      | Some p => to_backend (Some VMDIR_ERROR_BACKEND_ENTRY_NOTFOUND) ERROR_BACKEND_PARENT_NOTFOUND (MDBCreateParentIdIndex p (eId e))
      | None => rret tt
      end)).

(** [VmDirMDBDeleteEntry]: modifications turn the entry into a tombstone. *)
Definition VmDirMDBDeleteEntry (mods : list VDIR_MODIFICATION) (e : VDIR_ENTRY) : RM be_state unit :=
  set_backend_error match mods with [] => VmDirMDBAgeOffEntry g e | _ => VmDirMDBModifyEntry mods e end.

End Modify.
