(* ===== verification/EntryFacts.v ===== *)
(** * EntryFacts: modifications as changes of a set of values

    An entry stands for a set of facts, pairs of an attribute type and a value in
    normal form.  [VmDirApplyModsToEntryStruct] of [EntryModify] is shown to do to
    this set what RFC 4511 says of a modify request, and to leave modifications
    that lead from the old set to the new one step by step, each adding values
    that are not there or deleting values that are. *)

From S2P Require Import Prelude Heap StringList CString HashMap UtdVector Metadata Effects RaftLog Filter Candidates Search IndexScan EntryCodec IndexUnique IndexWrite EntryModify.

Open Scope Z_scope.

(** A type up to case, and a normal form. *)
Abbreviation fact := (list Z * list Z)%type.
Definition lower (t : cstr) : list Z := map tolower t.

Section Facts.
Context {lmdb : Lmdb} (g : be_globals) (ml : ml_schema) {Hcmp : CStringCompare (g_compare g)}.

(** The ids of the attribute types, and the normal forms of their values. *)
Context (desc : cstr → Z) (N : Z → list Z → list Z).

(** A normal form does not depend on whether it is there already; names of one
    attribute that differ in case have one id. *)
Record schema_laws : Prop := {
  normal_law aid v : bvnorm_val v = None ∨ bvnorm_val v = Some (N aid (bv_val v)) → ml_normalize ml aid v = inr (N aid (bv_val v));
  desc_law t u : lower t = lower u → desc t = desc u
}.
Context (Hschema : schema_laws).
Implicit Types (s : be_state) (t : cstr) (v : berval) (vals : list berval) (a : attribute) (attrs : list attribute) (F : gset fact).

(** ** Values *)

Definition nform t v : list Z := N (desc t) (bv_val v).
Definition good t v : Prop := bvnorm_val v = None ∨ bvnorm_val v = Some (nform t v).
Definition normed t v : Prop := bvnorm_val v = Some (nform t v).
Definition nv t v : berval := BER (bv_val v) (Some (nform t v)).

(** An attribute with a known type and values, different ones and none the empty
    string. *)
Definition attr_wf a : Prop :=
  at_type a ≠ [] ∧ at_id a = Some (desc (at_type a)) ∧ Forall (good (at_type a)) (at_vals a) ∧
  NoDup (nform (at_type a) <$> at_vals a) ∧ Forall (λ v, c_chars (nform (at_type a) v) ≠ []) (at_vals a) ∧ at_vals a ≠ [].

Definition ltype a : list Z := lower (at_type a).
Definition facts a : list fact := (λ v, (ltype a, nform (at_type a) v)) <$> at_vals a.
Definition fset attrs : gset fact := list_to_set (concat (facts <$> attrs)).

(** The attributes of an entry have different types. *)
Definition attrs_wf attrs : Prop := Forall attr_wf attrs ∧ NoDup (ltype <$> attrs).

Lemma nform_case t u v : lower t = lower u → nform t v = nform u v.
Proof. intros H. unfold nform. by rewrite (desc_law Hschema t u H). Qed.

Lemma nform_nv t v : nform t (nv t v) = nform t v.
Proof. done. Qed.

Lemma normed_nv t v : normed t (nv t v).
Proof. done. Qed.

Lemma normed_norm t v : normed t v → norm_or_raw v = nform t v.
Proof. intros H. unfold norm_or_raw. by rewrite H. Qed.

Lemma elem_of_facts f a : f ∈ facts a ↔ f.1 = ltype a ∧ f.2 ∈ nform (at_type a) <$> at_vals a.
Proof.
  unfold facts. rewrite !list_elem_of_fmap. split.
  - intros (v & -> & Hv). split; [done |]. by exists v.
  - intros (H1 & v & H2 & Hv). exists v. split; [destruct f; cbn in *; congruence | done].
Qed.

Lemma elem_of_fset f attrs : f ∈ fset attrs ↔ ∃ a, a ∈ attrs ∧ f ∈ facts a.
Proof.
  unfold fset. rewrite elem_of_list_to_set. split.
  - intros (l & Hf & Hl)%elem_of_concat. apply list_elem_of_fmap in Hl as (a & -> & Ha). by exists a.
  - intros (a & Ha & Hf). apply list_elem_of_In, in_concat. exists (facts a). rewrite <- !list_elem_of_In. split; [by apply list_elem_of_fmap_2 | done].
Qed.

Lemma fset_perm attrs attrs' : attrs ≡ₚ attrs' → fset attrs = fset attrs'.
Proof. intros H. apply set_eq. intros f. rewrite !elem_of_fset. by setoid_rewrite H. Qed.

Lemma wf_perm attrs attrs' : attrs ≡ₚ attrs' → attrs_wf attrs → attrs_wf attrs'.
Proof. intros H [H1 H2]. split; [by rewrite <- H | by rewrite <- H]. Qed.

Lemma fset_cons a attrs : fset (a :: attrs) = list_to_set (facts a) ∪ fset attrs.
Proof. unfold fset. cbn. by rewrite list_to_set_app_L. Qed.

(** The attribute at a place, in front. *)
Lemma attrs_split attrs k a : attrs !! k = Some a → attrs ≡ₚ a :: delete k attrs.
Proof. intros H. by apply delete_Permutation. Qed.

Lemma insert_split attrs k a b : attrs !! k = Some a → <[k := b]> attrs ≡ₚ b :: delete k attrs.
Proof.
  revert k. induction attrs as [|c attrs IH]; intros [|k] H; cbn in *; [done | done | done |]. rewrite IH by done. apply perm_swap.
Qed.

(** ** Running the helpers *)

Lemma dup_run s v : VmDirBervalContentDup v s [] = Some (inr v, s, []).
Proof.
  unfold VmDirBervalContentDup, rbind. rewrite be_alloc_run by lia. destruct (bvnorm_val v) as [n|]; [| done]. by rewrite be_alloc_run by lia.
Qed.

Lemma dup_vals_run s vals : dup_vals vals s [] = Some (inr vals, s, []).
Proof. induction vals as [|v vals IH]; [done |]. cbn [dup_vals]. unfold rbind at 1. rewrite dup_run. unfold rbind. by rewrite IH. Qed.

Lemma dup_unchecked_run s vals : dup_vals_unchecked vals s [] = Some (inr vals, s, []).
Proof. induction vals as [|v vals IH]; [done |]. cbn [dup_vals_unchecked]. unfold rbind at 1, rtry. rewrite dup_run. unfold rbind. by rewrite IH. Qed.

Lemma dup_attr_run s a : VmDirAttributeDup a s [] = Some (inr (ATTR (at_type a) (at_id a) (at_vals a) None []), s, []).
Proof.
  unfold VmDirAttributeDup, sizeof_ATTRIBUTE, sizeof_BERVALUE, attr_numVals. unfold rbind at 1. rewrite be_alloc_run by lia. unfold rbind at 1. rewrite be_alloc_run by lia.
  unfold rbind at 1. rewrite dup_vals_run. unfold rbind at 1. by rewrite be_alloc_run by lia.
Qed.

Lemma normalize_run s t v : good t v → VmDirSchemaBervalNormalize ml (Some (desc t)) v s [] = Some (inr (nv t v), s, []).
Proof. intros H. unfold VmDirSchemaBervalNormalize. by rewrite (normal_law Hschema). Qed.

Lemma normalize_vals_run s t vals : Forall (good t) vals → normalize_vals ml (Some (desc t)) vals s [] = Some (inr (nv t <$> vals), s, []).
Proof.
  induction 1 as [|v vals Hv _ IH]; [done |]. cbn [normalize_vals]. unfold rbind at 1. rewrite normalize_run by done. unfold rbind. by rewrite IH.
Qed.

Definition has_norm v : Prop := is_Some (bvnorm_val v).

Lemma find_norm_run s x vals : Forall has_norm vals → find_norm x vals s [] = Some (inr (fst <$> list_find (λ v, bvnorm_val v = Some x) vals), s, []).
Proof.
  induction 1 as [|v vals [y Hy] _ IH]; [done |]. cbn [find_norm list_find]. rewrite Hy. case_bool_decide as Hx.
  - subst y. by rewrite decide_True.
  - rewrite decide_False by congruence. unfold rbind. rewrite IH. by destruct (list_find _ vals) as [[]|].
Qed.

Lemma find_norm_none x vals : list_find (λ v, bvnorm_val v = Some x) vals = None ↔ Some x ∉ bvnorm_val <$> vals.
Proof.
  rewrite list_find_None, Forall_forall, list_elem_of_fmap. split; [intros H (v & Hx & Hv); by apply (H v) | intros H v Hv Hx; apply H; by exists v].
Qed.

Lemma remove_run s evals mvals : Forall has_norm evals → Forall has_norm mvals →
  RemoveAttrVals evals mvals s [] = Some (inr (base.filter (λ v, bvnorm_val v ∉ bvnorm_val <$> mvals) evals), s, []).
Proof.
  intros He Hm. induction He as [|v evals [x Hx] _ IH]; [done |]. cbn [RemoveAttrVals]. rewrite Hx. unfold rbind at 1. rewrite find_norm_run by done.
  unfold rbind at 1. rewrite IH. rewrite filter_cons, Hx. unfold rret. do 3 f_equal. destruct (list_find _ mvals) as [[i w]|] eqn:Hf; cbn.
  - apply list_find_Some in Hf as (Hi & Hw & _). rewrite decide_False; [done |]. intros Hn. apply Hn. apply list_elem_of_fmap. exists w. split; [done |]. by eapply list_elem_of_lookup_2.
  - by rewrite decide_True by by apply find_norm_none.
Qed.

Lemma match_run repl s evals mvals : Forall has_norm evals → Forall has_norm mvals →
  matched_loop repl evals mvals s [] =
    Some (if repl || bool_decide (Forall (λ v, bvnorm_val v ∈ bvnorm_val <$> evals) mvals)
          then inr (base.filter (λ v, bvnorm_val v ∈ bvnorm_val <$> evals) mvals) else inl VMDIR_ERROR_NO_SUCH_ATTRIBUTE, s, []).
Proof.
  intros He Hm. induction Hm as [|v mvals [x Hx] _ IH]; [by rewrite (bool_decide_eq_true_2 (Forall _ [])) by done; destruct repl |].
  cbn [matched_loop]. rewrite Hx. unfold rbind at 1. rewrite find_norm_run by done. rewrite filter_cons, Hx. destruct (list_find _ evals) as [[i w]|] eqn:Hf; cbn.
  - apply list_find_Some in Hf as (Hi & Hw & _). assert (Some x ∈ bvnorm_val <$> evals) as Hin.
    { apply list_elem_of_fmap. exists w. split; [done |]. by eapply list_elem_of_lookup_2. }
    rewrite decide_True by done. unfold rbind. rewrite IH. rewrite (bool_decide_ext (Forall _ (v :: mvals)) (Forall (λ v, bvnorm_val v ∈ bvnorm_val <$> evals) mvals)).
    + by destruct (repl || _).
    + rewrite Forall_cons, Hx. tauto.
  - apply find_norm_none in Hf. rewrite decide_False by done. destruct repl; [by rewrite IH |]. cbn [orb]. rewrite bool_decide_eq_false_2; [done |].
    rewrite Forall_cons, Hx. tauto.
Qed.

(** ** Values that are there already *)

Lemma filter_ext_in {A} (P Q : A → Prop) `{!∀ x, Decision (P x)} `{!∀ x, Decision (Q x)} (l : list A) :
  (∀ x, x ∈ l → P x ↔ Q x) → base.filter P l = base.filter Q l.
Proof.
  induction l as [|x l IH]; intros Hext; [done |]. rewrite !filter_cons, IH by (intros y Hy; apply Hext; by right).
  specialize (Hext x ltac:(by left)). destruct (decide (P x)), (decide (Q x)); tauto.
Qed.

(** The values that are not marked. *)
Definition kept (mvals : list berval) : list berval := base.filter (λ v, bvnorm_val v ≠ Some [0]) mvals.

Lemma kept_mark mvals j w x :
  mvals !! j = Some w → bvnorm_val w = Some x → x ≠ [0] → NoDup (bvnorm_val <$> kept mvals) →
  kept (alter mark j mvals) = base.filter (λ v, bvnorm_val v ≠ Some x) (kept mvals) ∧ length (kept mvals) = S (length (kept (alter mark j mvals))).
Proof.
  intros Hj Hw Hx Hnd. apply list_elem_of_split_length in Hj as (l1 & l2 & -> & ->). rewrite <- (Nat.add_0_r (length l1)), alter_app_r. cbn [alter list_alter].
  set (P := λ v, bvnorm_val v ≠ Some [0]). change (kept (l1 ++ w :: l2)) with (base.filter P (l1 ++ w :: l2)) in *. change (kept (l1 ++ mark w :: l2)) with (base.filter P (l1 ++ mark w :: l2)).
  rewrite filter_app, (filter_cons_True P w) in Hnd by (unfold P; rewrite Hw; congruence). rewrite !filter_app, (filter_cons_True P w) by (unfold P; rewrite Hw; congruence).
  rewrite (filter_cons_False P (mark w)) by (unfold P; cbn; tauto). rewrite fmap_app, fmap_cons in Hnd. apply NoDup_app in Hnd as (_ & Hd & [Hn _]%NoDup_cons).
  rewrite filter_cons_False by (rewrite Hw; tauto). split; [| rewrite !length_app; cbn; lia].
  f_equal; symmetry; apply filter_id; intros v Hv Hvx; rewrite <- Hw in Hvx.
  - apply (Hd (bvnorm_val v)); [by apply list_elem_of_fmap_2 | rewrite Hvx; by left].
  - apply Hn. rewrite <- Hvx. by apply list_elem_of_fmap_2.
Qed.

Lemma exists_repl_run s t evals mvals :
  Forall (good t) evals → Forall (λ v, nform t v ≠ [0]) evals → Forall has_norm mvals → NoDup (bvnorm_val <$> kept mvals) →
  Z.of_nat (length (kept mvals)) < 2 ^ 32 →
  ∃ mvals', exists_loop ml true (Some (desc t)) evals mvals (Z.of_nat (length (kept mvals))) s [] =
      Some (inr (nv t <$> evals, mvals', Z.of_nat (length (kept mvals'))), s, []) ∧
    kept mvals' = base.filter (λ v, bvnorm_val v ∉ (λ w, Some (nform t w)) <$> evals) (kept mvals) ∧
    (length (kept mvals') = length (kept mvals) → mvals' = mvals).
Proof.
  intros Hg. revert mvals. induction Hg as [|v evals Hv _ IH]; intros mvals H0 Hn Hnd Hlen.
  - exists mvals. split; [done |]. split; [| done]. symmetry. apply filter_id. intros v _. apply not_elem_of_nil.
  - apply Forall_cons in H0 as [Hx H0]. cbn [exists_loop]. unfold rbind at 1. rewrite normalize_run by done. unfold rbind at 1. cbn [norm_or_raw nv bvnorm_val default].
    rewrite find_norm_run by done. destruct (list_find _ mvals) as [[j w]|] eqn:Hf; cbn [fmap option_fmap option_map fst].
    + apply list_find_Some in Hf as (Hj & Hw & _). destruct (kept_mark mvals j w _ Hj Hw Hx Hnd) as [Hk Hl].
      destruct (IH (alter mark j mvals)) as (m' & Hrun & Hk' & Heq); [done | | | lia |].
      { apply Forall_alter; [done |]. intros y _ _. by eexists. }
      { rewrite Hk. by apply NoDup_map_filter. }
      exists m'. replace (u32 (Z.of_nat (length (kept mvals)) - 1)) with (Z.of_nat (length (kept (alter mark j mvals)))) by (rewrite u32_id; unfold is_u32; lia).
      unfold rbind. rewrite Hrun. split; [done |]. split.
      * rewrite Hk', Hk, list_filter_filter. apply list_filter_iff. intros y. cbn [fmap list_fmap]. rewrite elem_of_cons. tauto.
      * intros Hc. pose proof (length_filter (λ v, bvnorm_val v ∉ (λ w, Some (nform t w)) <$> evals) (kept (alter mark j mvals))) as Hle. rewrite <- Hk' in Hle. lia.
    + apply find_norm_none in Hf. destruct (IH mvals H0 Hn Hnd Hlen) as (m' & Hrun & Hk' & Heq). exists m'. unfold rbind. rewrite Hrun. split; [done |]. split; [| done].
      rewrite Hk'. apply filter_ext_in. intros y [_ Hy]%list_elem_of_filter. cbn [fmap list_fmap]. rewrite elem_of_cons. split; [| tauto].
      intros Hno [He | ?]; [| done]. apply Hf. apply list_elem_of_fmap. exists y. by rewrite He.
Qed.

Lemma exists_local_run s t evals mvals n :
  Forall (good t) evals → Forall has_norm mvals →
  exists_loop ml false (Some (desc t)) evals mvals n s [] =
    Some (if bool_decide (Forall (λ v, Some (nform t v) ∉ bvnorm_val <$> mvals) evals) then inr (nv t <$> evals, mvals, n) else inl VMDIR_ERROR_TYPE_OR_VALUE_EXISTS, s, []).
Proof.
  intros Hg Hn. induction Hg as [|v evals Hv _ IH]; [by rewrite bool_decide_eq_true_2 by done |].
  cbn [exists_loop]. unfold rbind at 1. rewrite normalize_run by done. unfold rbind at 1. cbn [norm_or_raw nv bvnorm_val default].
  rewrite find_norm_run by done. destruct (list_find _ mvals) as [[j w]|] eqn:Hf; cbn [fmap option_fmap option_map fst].
  - apply list_find_Some in Hf as (Hj & Hw & _). rewrite bool_decide_eq_false_2; [done |]. intros [H _]%Forall_cons. apply H.
    apply list_elem_of_fmap. exists w. split; [by rewrite Hw | by eapply list_elem_of_lookup_2].
  - apply find_norm_none in Hf. unfold rbind. rewrite IH. rewrite (bool_decide_ext (Forall _ (v :: evals)) (Forall (λ v, Some (nform t v) ∉ bvnorm_val <$> mvals) evals)).
    + by case_bool_decide.
    + rewrite Forall_cons. tauto.
Qed.

(** The modification keeps the values that are new. *)
Definition new_vals t (evals mvals : list berval) : list berval :=
  base.filter (λ v, bvnorm_val v ∉ (λ w, Some (nform t w)) <$> evals) mvals.

Lemma check_run repl s a m :
  attr_wf a → at_id m = Some (desc (at_type a)) → Forall (normed (at_type a)) (at_vals m) → NoDup (nform (at_type a) <$> at_vals m) →
  Forall (λ v, c_chars (nform (at_type a) v) ≠ []) (at_vals m) → attr_numVals m < 2 ^ 32 →
  let t := at_type a in
  CheckIfAnAttrValAlreadyExists ml repl a m s [] =
    Some (if repl || bool_decide (Forall (λ v, Some (nform t v) ∉ bvnorm_val <$> at_vals m) (at_vals a))
          then inr (set_vals (nv t <$> at_vals a) a, set_vals (new_vals t (at_vals a) (at_vals m)) m) else inl VMDIR_ERROR_TYPE_OR_VALUE_EXISTS, s, []).
Proof.
  intros (_ & _ & Hg & _ & Hne & _) Hid Hnm Hnd Hc Hlen t. unfold CheckIfAnAttrValAlreadyExists. rewrite Hid. fold t in Hg, Hne, Hnm, Hnd, Hc |- *.
  assert (Forall has_norm (at_vals m)) as Hhn by (eapply Forall_impl; [exact Hnm |]; intros v Hv; by eexists).
  assert (bvnorm_val <$> at_vals m = Some <$> (nform t <$> at_vals m)) as Hnorms.
  { rewrite <- list_fmap_compose. apply list_fmap_ext. intros i v Hv. rewrite Forall_lookup in Hnm. exact (Hnm i v Hv). }
  assert (∀ v, c_chars (nform t v) ≠ [] → nform t v ≠ [0]) as H0 by (intros v Hv Heq; rewrite Heq in Hv; done).
  destruct repl; cbn [orb].
  - assert (kept (at_vals m) = at_vals m) as Hk.
    { apply filter_id. intros v Hv Hx. rewrite Forall_forall in Hnm, Hc. specialize (Hnm v Hv). unfold normed in Hnm. rewrite Hnm in Hx. injection Hx as Hx. by apply (H0 v (Hc v Hv)). }
    destruct (exists_repl_run s t (at_vals a) (at_vals m)) as (m' & Hrun & Hk' & Heq).
    + done.
    + eapply Forall_impl; [exact Hne |]. exact H0.
    + done.
    + rewrite Hk, Hnorms. apply NoDup_fmap_2; [apply _ | done].
    + rewrite Hk. exact Hlen.
    + rewrite Hk in Hrun, Hk', Heq. unfold rbind at 1, attr_numVals at 1. rewrite Hrun. fold (new_vals t (at_vals a) (at_vals m)) in Hk'. unfold attr_numVals.
      destruct (Z.ltb_spec (Z.of_nat (length (kept m'))) (Z.of_nat (length (at_vals m)))) as [Hlt | Hge].
      * unfold rbind at 1. rewrite be_alloc_run by (unfold sizeof_BERVALUE; lia). fold (kept m'). rewrite Z.ltb_irrefl. by rewrite Hk'.
      * pose proof (length_filter (λ v, bvnorm_val v ∉ (λ w, Some (nform t w)) <$> at_vals a) (at_vals m)) as Hle. fold (new_vals t (at_vals a) (at_vals m)) in Hle. rewrite <- Hk' in Hle.
        assert (m' = at_vals m) as -> by (apply Heq; lia). rewrite Hk in Hk'. by rewrite <- Hk'.
  - unfold rbind at 1. rewrite exists_local_run by done. case_bool_decide as Hd; [| done]. rewrite Z.ltb_irrefl.
    assert (new_vals t (at_vals a) (at_vals m) = at_vals m) as ->; [| done]. apply filter_id. intros v Hv Hin. apply list_elem_of_fmap in Hin as (w & Hw & Hwin).
    rewrite Forall_forall in Hd. apply (Hd w Hwin). rewrite <- Hw. by apply list_elem_of_fmap_2.
Qed.

(** ** Modifications *)

(** The attribute of a modification: its values are in their normal forms. *)
Definition mod_attr a : Prop :=
  at_type a ≠ [] ∧ at_id a = Some (desc (at_type a)) ∧ Forall (normed (at_type a)) (at_vals a) ∧
  NoDup (nform (at_type a) <$> at_vals a) ∧ Forall (λ v, c_chars (nform (at_type a) v) ≠ []) (at_vals a).

Definition mset (m : VDIR_MODIFICATION) : gset fact := list_to_set (facts (mattr m)).
Definition of_type (lt : list Z) F : gset fact := base.filter (λ f, f.1 = lt) F.
Definition mtype (m : VDIR_MODIFICATION) : list Z := ltype (mattr m).

(** What RFC 4511 says of a modification, and when it is an error; in
    replication values may be there or gone already. *)
Definition rfc_mod F (m : VDIR_MODIFICATION) : gset fact :=
  match operation m with
  | MOD_OP_ADD => F ∪ mset m
  | MOD_OP_DELETE => if bool_decide (at_vals (mattr m) = []) then F ∖ of_type (mtype m) F else F ∖ mset m
  | MOD_OP_REPLACE => F ∖ of_type (mtype m) F ∪ mset m
  end.

Definition rfc_ok (repl : bool) F (m : VDIR_MODIFICATION) : Prop :=
  match operation m with
  | MOD_OP_ADD => repl = true ∨ mset m ## F
  | MOD_OP_DELETE => at_vals (mattr m) = [] ∨ if repl then of_type (mtype m) F ≠ ∅ else mset m ⊆ F
  | MOD_OP_REPLACE => True
  end.

Fixpoint rfc_all_ok (repl : bool) F (mods : list VDIR_MODIFICATION) : Prop :=
  match mods with [] => True | m :: mods => rfc_ok repl F m ∧ rfc_all_ok repl (rfc_mod F m) mods end.

(** What the backend does with a modification: it adds values that are not
    there, and deletes values that are. *)
Definition meff F (m : VDIR_MODIFICATION) : gset fact :=
  match modIgnoreType m, operation m with
  | MOD_IGNORE_NONE, MOD_OP_ADD => F ∪ mset m
  | MOD_IGNORE_NONE, MOD_OP_DELETE => F ∖ mset m
  | _, _ => F
  end.

Definition mok F (m : VDIR_MODIFICATION) : Prop :=
  match modIgnoreType m, operation m with
  | MOD_IGNORE_NONE, MOD_OP_ADD => mset m ## F
  | MOD_IGNORE_NONE, MOD_OP_DELETE => mset m ⊆ F
  | _, _ => True
  end.

Fixpoint run_ok F (mods : list VDIR_MODIFICATION) : Prop :=
  match mods with [] => True | m :: mods => mok F m ∧ run_ok (meff F m) mods end.

(** Metadata that can be written, or none. *)
Definition meta_fine a : Prop :=
  valueMetaDataToAdd a = [] ∧ ((at_pMetaData a ≫= pszOrigInvoId) = None ∨ ∃ x, VmDirMetaDataSerialize (at_pMetaData a) = (ERROR_SUCCESS, Some x)).

(** A modification for the backend, and one of a request. *)
Definition mready (m : VDIR_MODIFICATION) : Prop :=
  mod_attr (mattr m) ∧ operation m ≠ MOD_OP_REPLACE ∧ meta_fine (mattr m) ∧ valueMetaDataToDelete m = [].

Definition request_ok (m : VDIR_MODIFICATION) : Prop :=
  mod_attr (mattr m) ∧ attr_numVals (mattr m) < 2 ^ 32 ∧ (operation m = MOD_OP_ADD → at_vals (mattr m) ≠ []) ∧ meta_fine (mattr m) ∧
  valueMetaDataToDelete m = [] ∧ modIgnoreType m = MOD_IGNORE_NONE.

Lemma find_name attrs name k a : VmDirFindAttrByName g attrs name = Some (k, a) → attrs !! k = Some a ∧ ltype a = lower name.
Proof. intros (Hk & Hc & _)%list_find_Some. split; [done |]. by apply (compare_caseless (compare := g_compare g)). Qed.

Lemma find_name_none attrs name : VmDirFindAttrByName g attrs name = None → lower name ∉ ltype <$> attrs.
Proof.
  intros H%list_find_None. rewrite Forall_forall in H. intros (a & Ha & Hin)%list_elem_of_fmap. apply (H a Hin). by apply (compare_caseless (compare := g_compare g)).
Qed.

Lemma find_swap attrs name : list_find (λ a, g_compare g name (at_type a) false = 0) attrs = VmDirFindAttrByName g attrs name.
Proof.
  apply list_find_ext. intros a. rewrite !(compare_caseless (compare := g_compare g)). by split.
Qed.

(** The facts of one attribute among those of the entry. *)
Lemma fset_split attrs k a : attrs_wf attrs → attrs !! k = Some a →
  fset attrs = list_to_set (facts a) ∪ fset (delete k attrs) ∧ (∀ f, f ∈ fset (delete k attrs) → f.1 ≠ ltype a) ∧
  attrs_wf (delete k attrs) ∧ ltype a ∉ ltype <$> delete k attrs ∧ attr_wf a.
Proof.
  intros Hwf Hk. pose proof (attrs_split _ _ _ Hk) as Hp. apply (wf_perm _ _ Hp) in Hwf. destruct Hwf as [[Ha Hall]%Forall_cons Hnd]. cbn in Hnd.
  apply NoDup_cons in Hnd as [Hn Hnd]. split; [by rewrite (fset_perm _ _ Hp), fset_cons |]. split; [| done].
  intros f (b & Hb & [Hf _]%elem_of_facts)%elem_of_fset Heq. apply Hn. rewrite <- Heq, Hf. by apply list_elem_of_fmap_2.
Qed.

(** An attribute gets other values. *)
Lemma fset_insert attrs k a b : attrs_wf attrs → attrs !! k = Some a → attr_wf b → ltype b = ltype a →
  attrs_wf (<[k := b]> attrs) ∧ fset (<[k := b]> attrs) = list_to_set (facts b) ∪ fset (delete k attrs) ∧ ltype <$> <[k := b]> attrs = ltype <$> attrs.
Proof.
  intros Hwf Hk Hb Ht. destruct (fset_split attrs k a Hwf Hk) as (_ & _ & [Hall Hnd] & Hn & _). pose proof (insert_split attrs k a b Hk) as Hp. split.
  - eapply wf_perm; [by symmetry |]. split; [by constructor |]. cbn. apply NoDup_cons. by rewrite Ht.
  - split; [by rewrite (fset_perm _ _ Hp), fset_cons |]. rewrite list_fmap_insert, Ht. apply list_insert_id. by rewrite list_lookup_fmap, Hk.
Qed.

Lemma facts_set_vals a vals : facts (set_vals vals a) = (λ v, (ltype a, nform (at_type a) v)) <$> vals.
Proof. done. Qed.

(** The new values of an addition, as facts. *)
Lemma new_vals_facts a m : lower (at_type m) = ltype a → Forall (normed (at_type a)) (at_vals m) →
  ∀ f, f ∈ facts (set_vals (new_vals (at_type a) (at_vals a) (at_vals m)) m) ↔ f ∈ facts m ∧ f ∉ facts a.
Proof.
  intros Ht Hn f. rewrite !elem_of_facts. unfold new_vals. cbn [set_vals at_type at_vals ltype]. unfold ltype at 1 3. cbn [at_type set_vals]. fold (ltype m) (ltype a).
  assert (∀ v, nform (at_type m) v = nform (at_type a) v) as Hnf by (intros v; by apply nform_case). rewrite Forall_forall in Hn. split.
  - intros (H1 & (v & Hv & [Hno Hin]%list_elem_of_filter)%list_elem_of_fmap). split.
    + split; [done |]. rewrite Hv. by apply list_elem_of_fmap_2.
    + intros (_ & (w & Hw & Hwin)%list_elem_of_fmap). apply Hno. rewrite (Hn v Hin). apply list_elem_of_fmap. exists w. split; [| done]. rewrite <- Hnf. congruence.
  - intros ((H1 & (v & Hv & Hin)%list_elem_of_fmap) & Hno). split; [done |]. apply list_elem_of_fmap. exists v. split; [done |]. apply list_elem_of_filter. split; [| done].
    rewrite (Hn v Hin). intros (w & Hw & Hwin)%list_elem_of_fmap. injection Hw as Hw. apply Hno. split; [unfold ltype in *; congruence |]. rewrite Hv, Hnf, Hw. by apply list_elem_of_fmap_2.
Qed.

Lemma forall_sublist {A} (P : A → Prop) (l1 l2 : list A) : l1 `sublist_of` l2 → Forall P l2 → Forall P l1.
Proof. induction 1 as [|x l1 l2 _ IH|x l1 l2 _ IH]; [done | intros [??]%Forall_cons; constructor; auto | intros [_ ?]%Forall_cons; auto]. Qed.

Lemma mod_attr_case m t : mod_attr m → lower (at_type m) = lower t →
  at_id m = Some (desc t) ∧ Forall (normed t) (at_vals m) ∧ NoDup (nform t <$> at_vals m) ∧ Forall (λ v, c_chars (nform t v) ≠ []) (at_vals m).
Proof.
  intros (_ & Hid & Hn & Hnd & Hc) Ht. assert (∀ v, nform (at_type m) v = nform t v) as Hnf by (intros v; by apply nform_case).
  split; [by rewrite Hid, (desc_law Hschema _ _ Ht) |]. split; [| split].
  - eapply Forall_impl; [exact Hn |]. intros v Hv. unfold normed in *. by rewrite <- Hnf.
  - by rewrite <- (list_fmap_ext (nform (at_type m)) (nform t)) by (intros; apply Hnf).
  - eapply Forall_impl; [exact Hc |]. intros v Hv. by rewrite <- Hnf.
Qed.

(** Some of the values of a modification. *)
Lemma mod_attr_sub m vals : mod_attr m → vals `sublist_of` at_vals m → mod_attr (set_vals vals m).
Proof.
  intros (H1 & H2 & H3 & H4 & H5) Hsub. split; [done |]. split; [done |]. split; [by eapply forall_sublist |]. split; [| by eapply forall_sublist].
  eapply sublist_NoDup; [exact H4 |]. by apply fmap_sublist.
Qed.

Lemma set_same_vals m : set_mattr (set_vals (at_vals (mattr m)) (mattr m)) m = m.
Proof. by destruct m as [? [] ? ?]. Qed.

(** The values of a modification among those of the entry. *)
Lemma own_facts attrs k a f : attrs_wf attrs → attrs !! k = Some a → f.1 = ltype a → f ∈ fset attrs ↔ f ∈ facts a.
Proof.
  intros Hwf Hk Hf. destruct (fset_split attrs k a Hwf Hk) as (-> & Hother & _). rewrite elem_of_union, elem_of_list_to_set. split; [| by left].
  intros [? | Ho]; [done |]. by apply Hother in Ho.
Qed.

Lemma of_type_facts attrs k a : attrs_wf attrs → attrs !! k = Some a → of_type (ltype a) (fset attrs) = list_to_set (facts a).
Proof.
  intros Hwf Hk. apply set_eq. intros f. unfold of_type. rewrite elem_of_filter, elem_of_list_to_set. split.
  - intros [Hf Hin]. by apply (own_facts attrs k a).
  - intros Hin. assert (f.1 = ltype a) as Hf by (by apply elem_of_facts in Hin as [? _]). split; [done |]. by apply (own_facts attrs k a).
Qed.

Lemma disjoint_vals attrs k a m : attrs_wf attrs → attrs !! k = Some a → ltype (mattr m) = ltype a → Forall (normed (at_type a)) (at_vals (mattr m)) →
  mset m ## fset attrs ↔ Forall (λ v, Some (nform (at_type a) v) ∉ bvnorm_val <$> at_vals (mattr m)) (at_vals a).
Proof.
  intros Hwf Hk Ht Hnm. rewrite !Forall_forall in *. split.
  - intros Hd v Hv (w & Hw & Hwin)%list_elem_of_fmap. rewrite (Hnm w Hwin) in Hw. injection Hw as Hw. apply (Hd (ltype a, nform (at_type a) v)).
    + unfold mset. rewrite elem_of_list_to_set. apply elem_of_facts. split; [done |]. cbn [snd]. rewrite Hw, <- (nform_case (at_type (mattr m)) (at_type a) w Ht). by apply list_elem_of_fmap_2.
    + apply (own_facts attrs k a); [done | done | done |]. apply elem_of_facts. split; [done |]. cbn [snd]. by apply list_elem_of_fmap_2.
  - intros Hall f Hfm Hfs. unfold mset in Hfm. rewrite elem_of_list_to_set in Hfm. apply elem_of_facts in Hfm as [Hf (w & Hw & Hwin)%list_elem_of_fmap].
    apply (own_facts attrs k a) in Hfs; [| done | done | congruence]. apply elem_of_facts in Hfs as [_ (v & Hv & Hvin)%list_elem_of_fmap].
    apply (Hall v Hvin). apply list_elem_of_fmap. exists w. split; [| done]. rewrite (Hnm w Hwin). rewrite (nform_case _ (at_type a) w Ht) in Hw. congruence.
Qed.

(** An attribute with the new values of a modification. *)
Lemma join_vals a m : attr_wf a → mod_attr m → ltype m = ltype a →
  let b := set_vals ((nv (at_type a) <$> at_vals a) ++ new_vals (at_type a) (at_vals a) (at_vals m)) a in
  attr_wf b ∧ ∀ f, f ∈ facts b ↔ f ∈ facts a ∨ f ∈ facts (set_vals (new_vals (at_type a) (at_vals a) (at_vals m)) m).
Proof.
  intros (Ha1 & Ha2 & Ha3 & Ha4 & Ha5 & Ha6) Hm Ht b. destruct (mod_attr_case _ (at_type a) Hm Ht) as (_ & Hnm & Hnd & Hc). set (t := at_type a) in *.
  assert (new_vals t (at_vals a) (at_vals m) `sublist_of` at_vals m) as Hsub by apply sublist_filter. split.
  - split; [done |]. split; [done |]. unfold b. cbn [set_vals at_vals at_type at_id]. fold t. split; [| split; [| split]].
    + apply Forall_app. split; [apply Forall_fmap, Forall_forall; intros v _; by right |]. eapply forall_sublist; [exact Hsub |]. eapply Forall_impl; [exact Hnm |]. intros v Hv. by right.
    + rewrite fmap_app, <- list_fmap_compose. apply NoDup_app. split; [exact Ha4 |]. split; [| eapply sublist_NoDup; [exact Hnd | by apply fmap_sublist]].
      intros x (v & Hv & Hvin)%list_elem_of_fmap (w & Hw & [Hno Hwin]%list_elem_of_filter)%list_elem_of_fmap. apply Hno. rewrite Forall_forall in Hnm. rewrite (Hnm w Hwin).
      apply list_elem_of_fmap. exists v. split; [| done]. f_equal. unfold compose in Hv. rewrite nform_nv in Hv. congruence.
    + apply Forall_app. split; [by apply Forall_fmap |]. by eapply forall_sublist.
    + destruct (at_vals a); [done |]. by cbn.
  - intros f. rewrite !elem_of_facts. unfold b. cbn [set_vals at_vals at_type]. fold t. unfold ltype at 1 3. cbn [set_vals at_type]. rewrite fmap_app, elem_of_app, <- list_fmap_compose.
    rewrite (list_fmap_ext (nform (at_type m)) (nform t) (new_vals t (at_vals a) (at_vals m))) by (intros; by apply nform_case).
    fold (ltype a) (ltype m). rewrite Ht. unfold compose. cbn [nform nv bv_val]. tauto.
Qed.

(** ** Additions *)

Definition add_result (repl : bool) attrs (m : VDIR_MODIFICATION) (r : dwerror + list attribute * VDIR_MODIFICATION) : Prop :=
  match r with
  | inr (attrs', m') => attrs_wf attrs' ∧ (ltype <$> attrs) ⊆ (ltype <$> attrs') ∧ (∃ vs, m' = set_mattr (set_vals vs (mattr m)) m) ∧ mod_attr (mattr m') ∧
      mset m' ## fset attrs ∧ fset attrs' = fset attrs ∪ mset m' ∧ fset attrs' = fset attrs ∪ mset m ∧ (repl = true ∨ mset m ## fset attrs)
  | inl err => (err = VMDIR_ERROR_TYPE_OR_VALUE_EXISTS ∧ repl = false ∧ ¬ mset m ## fset attrs) ∨
      (err = VMDIR_ERROR_DATA_CONSTRAINT_VIOLATION ∧ UINT16_MAX < Z.of_nat (size (of_type (mtype m) (fset attrs ∪ mset m))))
  end.

(** The values of an attribute are different facts. *)
Lemma facts_size a : attr_wf a → size (list_to_set (facts a) : gset fact) = length (at_vals a).
Proof.
  intros (_ & _ & _ & Hnd & _). rewrite size_list_to_set; [unfold facts; by rewrite length_fmap |]. unfold facts.
  rewrite (list_fmap_compose (nform (at_type a)) (pair (ltype a))). apply NoDup_fmap_2; [| exact Hnd]. by intros x y [= ->].
Qed.

(** The facts of the type of a modification, after the addition. *)
Lemma joined_facts attrs k a m : attrs_wf attrs → attrs !! k = Some a → mod_attr (mattr m) → ltype (mattr m) = ltype a →
  let b := set_vals ((nv (at_type a) <$> at_vals a) ++ new_vals (at_type a) (at_vals a) (at_vals (mattr m))) a in
  of_type (mtype m) (fset attrs ∪ mset m) = list_to_set (facts b).
Proof.
  intros Hwf Hk Hm Ht b. destruct (fset_split attrs k a Hwf Hk) as (_ & _ & _ & _ & Ha).
  destruct (mod_attr_case _ (at_type a) Hm Ht) as (_ & Hnm & _). pose proof (new_vals_facts a (mattr m) Ht Hnm) as Hnew.
  destruct (join_vals a (mattr m) Ha Hm Ht) as [_ Hfb]. apply set_eq. intros f. unfold of_type. rewrite elem_of_filter, elem_of_union, elem_of_list_to_set.
  fold b in Hfb. rewrite Hfb, Hnew. unfold mset. rewrite elem_of_list_to_set. unfold mtype. rewrite Ht. split.
  - intros [Hf [Hin | Hin]]; [left; by apply (own_facts attrs k a) | destruct (decide (f ∈ facts a)); tauto].
  - intros [Hin | [Hin _]].
    + assert (f.1 = ltype a) as Hf by (by apply elem_of_facts in Hin as [? _]). split; [done |]. left. by apply (own_facts attrs k a).
    + split; [apply elem_of_facts in Hin as [? _]; congruence | by right].
Qed.

Lemma add_to_run repl s attrs m k a :
  attrs_wf attrs → mod_attr (mattr m) → attr_numVals (mattr m) < 2 ^ 32 → VmDirFindAttrByName g attrs (at_type (mattr m)) = Some (k, a) →
  ∃ r, apply_add g ml repl attrs m s [] = Some (r, s, []) ∧ add_result repl attrs m r.
Proof.
  intros Hwf Hm Hlen Hf. unfold apply_add. rewrite Hf. apply find_name in Hf as [Hk Ht]. destruct (fset_split attrs k a Hwf Hk) as (HF & Hother & _ & _ & Ha). pose proof (eq_sym Ht) as Ht'. fold (ltype (mattr m)) in Ht'.
  destruct (mod_attr_case _ (at_type a) Hm Ht') as (Hid & Hnm & Hnd & Hc). pose proof (check_run repl s a (mattr m) Ha Hid Hnm Hnd Hc Hlen) as Hrun. cbn zeta in Hrun.
  unfold rbind at 1. rewrite Hrun. pose proof (new_vals_facts a (mattr m) Ht' Hnm) as Hnew. pose proof (disjoint_vals attrs k a m Hwf Hk Ht' Hnm) as Hdis.
  destruct (repl || bool_decide _) eqn:Hb.
  - cbn [fst snd]. unfold rbind at 1, AddAttrValsToEntryStruct. destruct (_ >? UINT16_MAX) eqn:Hmax.
    { eexists. split; [reflexivity |]. right. split; [done |]. rewrite (joined_facts attrs k a m Hwf Hk Hm Ht').
      rewrite facts_size by by apply (join_vals a (mattr m)). unfold attr_numVals in Hmax. cbn [set_vals at_vals] in Hmax |- *.
      rewrite length_app, Nat2Z.inj_add. lia. }
    unfold rbind at 1. rewrite be_alloc_run by (unfold attr_numVals, sizeof_BERVALUE; lia). unfold rbind at 1. rewrite dup_vals_run.
    destruct (join_vals a (mattr m) Ha Hm Ht') as [Hwb Hfb]. set (nvs := new_vals (at_type a) (at_vals a) (at_vals (mattr m))) in *. set (b := set_vals (_ ++ nvs) a) in Hwb, Hfb.
    exists (inr (<[k := b]> attrs, set_mattr (set_vals nvs (mattr m)) m)). split; [reflexivity |].
    destruct (fset_insert attrs k a b Hwf Hk Hwb eq_refl) as (Hwf' & HF' & Htypes). split; [exact Hwf' |]. split; [by rewrite Htypes |]. split; [by exists nvs |].
    split; [apply mod_attr_sub; [done | apply sublist_filter] |].
    assert (∀ f, f ∈ mset (set_mattr (set_vals nvs (mattr m)) m) ↔ f ∈ facts (mattr m) ∧ f ∉ facts a) as Hms by (intros f; unfold mset; rewrite elem_of_list_to_set; apply Hnew).
    assert (fset (<[k:=b]> attrs) = fset attrs ∪ mset (set_mattr (set_vals nvs (mattr m)) m)) as HF1.
    { rewrite HF', HF. apply set_eq. intros f. rewrite !elem_of_union, !elem_of_list_to_set, Hfb, Hms, Hnew. tauto. }
    split; [| split; [exact HF1 |]; split].
    + intros f [Hfm Hno]%Hms Hin. apply Hno. apply (own_facts attrs k a f Hwf Hk); [| done]. apply elem_of_facts in Hfm as [Hfm _]. congruence.
    + rewrite HF1, HF. apply set_eq. intros f. unfold mset at 2. rewrite !elem_of_union, !elem_of_list_to_set, Hms. destruct (decide (f ∈ facts a)); tauto.
    + apply orb_true_iff in Hb as [-> | Hb%bool_decide_eq_true]; [by left |]. right. by apply Hdis.
  - apply orb_false_iff in Hb as [-> Hb%bool_decide_eq_false]. eexists. split; [reflexivity |]. left. by rewrite Hdis.
Qed.

Lemma add_new_run repl s attrs m :
  attrs_wf attrs → mod_attr (mattr m) → at_vals (mattr m) ≠ [] → attrs ≠ [] → VmDirFindAttrByName g attrs (at_type (mattr m)) = None →
  ∃ r, apply_add g ml repl attrs m s [] = Some (r, s, []) ∧ add_result repl attrs m r.
Proof.
  intros Hwf Hm Hne Hattrs Hf. unfold apply_add. rewrite Hf. apply find_name_none in Hf. set (c := ATTR (at_type (mattr m)) (at_id (mattr m)) (at_vals (mattr m)) None []).
  assert (AddAttrToEntryStruct attrs (mattr m) s [] = Some (inr (attrs ++ [c]), s, [])) as Hrun.
  { unfold AddAttrToEntryStruct, rbind. rewrite dup_attr_run. by destruct attrs. }
  unfold rbind. rewrite Hrun. eexists. split; [reflexivity |]. assert (fset (attrs ++ [c]) = fset attrs ∪ mset m) as HF.
  { rewrite (fset_perm _ _ (Permutation_app_comm attrs [c])). cbn [app]. rewrite fset_cons. change (facts c) with (facts (mattr m)). fold (mset m). set_solver. }
  assert (mset m ## fset attrs) as Hdis.
  { intros f Hfm (a & Ha & [Hfa _]%elem_of_facts)%elem_of_fset. unfold mset in Hfm. rewrite elem_of_list_to_set in Hfm. apply elem_of_facts in Hfm as [Hfm _]. apply Hf.
    unfold ltype in Hfm. rewrite <- Hfm, Hfa. by apply list_elem_of_fmap_2. }
  split; [| split; [rewrite fmap_app; set_solver | split; [exists (at_vals (mattr m)); by rewrite set_same_vals |]]].
  - destruct Hwf as [H1 H2]. destruct Hm as (Hm1 & Hm2 & Hm3 & Hm4 & Hm5). split.
    + apply Forall_app. split; [done |]. constructor; [| done]. do 2 (split; [done |]). split; [eapply Forall_impl; [exact Hm3 |]; intros v Hv; by right |]. done.
    + rewrite fmap_app. apply NoDup_app. split; [done |]. split; [| apply NoDup_singleton]. intros lt Hlt ->%list_elem_of_singleton. done.
  - split; [done |]. split; [done |]. split; [done |]. split; [done |]. by right.
Qed.

Lemma apply_add_run repl s attrs m :
  attrs_wf attrs → mod_attr (mattr m) → attr_numVals (mattr m) < 2 ^ 32 → at_vals (mattr m) ≠ [] → attrs ≠ [] →
  ∃ r, apply_add g ml repl attrs m s [] = Some (r, s, []) ∧ add_result repl attrs m r.
Proof.
  intros. destruct (VmDirFindAttrByName g attrs (at_type (mattr m))) as [[k a]|] eqn:Hf; [by eapply add_to_run | by apply add_new_run].
Qed.

(** ** Deletions *)

(** The attribute of a deletion of all values. *)
Lemma mod_attr_all a m : attr_wf a → mod_attr m → ltype m = ltype a →
  mod_attr (set_vals (nv (at_type a) <$> at_vals a) m) ∧ ∀ f, f ∈ facts (set_vals (nv (at_type a) <$> at_vals a) m) ↔ f ∈ facts a.
Proof.
  intros (_ & _ & _ & Ha4 & Ha5 & _) (Hm1 & Hm2 & _) Ht. assert (∀ v, nform (at_type m) v = nform (at_type a) v) as Hnf by (intros v; by apply nform_case).
  assert (nform (at_type m) <$> (nv (at_type a) <$> at_vals a) = nform (at_type a) <$> at_vals a) as Hmap by (rewrite <- list_fmap_compose; apply list_fmap_ext; intros i x _; exact (Hnf (nv (at_type a) x))). split.
  - split; [done |]. split; [done |]. cbn [set_vals at_vals at_type]. split; [| split].
    + apply Forall_fmap, Forall_forall. intros v _. unfold compose, normed. rewrite Hnf. done.
    + by rewrite Hmap.
    + apply Forall_fmap. eapply Forall_impl; [exact Ha5 |]. intros v Hv. unfold compose. by rewrite Hnf.
  - intros f. rewrite !elem_of_facts. cbn [set_vals at_vals at_type]. rewrite Hmap. unfold ltype at 1. cbn [set_vals at_type]. fold (ltype m). by rewrite Ht.
Qed.

(** The values that are left of an attribute. *)
Definition rest_vals t (evals mvals : list berval) : list berval := base.filter (λ v, bvnorm_val v ∉ bvnorm_val <$> mvals) (nv t <$> evals).

(** The values of a modification that an attribute has. *)
Definition old_vals t (evals mvals : list berval) : list berval := base.filter (λ v, bvnorm_val v ∈ bvnorm_val <$> (nv t <$> evals)) mvals.

Lemma norms_of t vals : Forall (normed t) vals → bvnorm_val <$> vals = Some <$> (nform t <$> vals).
Proof. intros H. rewrite <- list_fmap_compose. apply list_fmap_ext. intros i v Hv. rewrite Forall_lookup in H. exact (H i v Hv). Qed.

Lemma norms_nv t vals : bvnorm_val <$> (nv t <$> vals) = Some <$> (nform t <$> vals).
Proof. rewrite <- !list_fmap_compose. done. Qed.

Lemma elem_some (x : list Z) (l : list (list Z)) : Some x ∈ Some <$> l ↔ x ∈ l.
Proof. rewrite list_elem_of_fmap. split; [by intros (y & [= ->] & ?) | intros H; by exists x]. Qed.

Lemma old_vals_facts a m : ltype m = ltype a → Forall (normed (at_type a)) (at_vals m) →
  ∀ f, f ∈ facts (set_vals (old_vals (at_type a) (at_vals a) (at_vals m)) m) ↔ f ∈ facts m ∧ f ∈ facts a.
Proof.
  intros Ht Hn f. rewrite !elem_of_facts. unfold old_vals. rewrite norms_nv. cbn [set_vals at_type at_vals]. unfold ltype at 1. cbn [set_vals at_type]. fold (ltype m).
  assert (∀ v, nform (at_type m) v = nform (at_type a) v) as Hnf by (intros v; by apply nform_case). rewrite Forall_forall in Hn. rewrite !list_elem_of_fmap. split.
  - intros (H1 & v & Hv & [Hin Hvin]%list_elem_of_filter). rewrite (Hn v Hvin), elem_some in Hin. apply list_elem_of_fmap in Hin as (w & Hw & Hwin).
    split; [by split; [| exists v] |]. split; [congruence |]. exists w. split; [| done]. rewrite Hv, Hnf. exact Hw.
  - intros ((H1 & v & Hv & Hvin) & _ & w & Hw & Hwin). split; [done |]. exists v. split; [done |]. apply list_elem_of_filter. split; [| done]. rewrite (Hn v Hvin), elem_some.
    apply list_elem_of_fmap. exists w. split; [| done]. rewrite <- Hnf. congruence.
Qed.

Lemma rest_vals_wf a mvals : attr_wf a → rest_vals (at_type a) (at_vals a) mvals ≠ [] → attr_wf (set_vals (rest_vals (at_type a) (at_vals a) mvals) a).
Proof.
  intros (Ha1 & Ha2 & Ha3 & Ha4 & Ha5 & Ha6) Hne. assert (rest_vals (at_type a) (at_vals a) mvals `sublist_of` nv (at_type a) <$> at_vals a) as Hsub by apply sublist_filter.
  split; [done |]. split; [done |]. cbn [set_vals at_vals at_type]. split; [| split; [| split]].
  - eapply forall_sublist; [exact Hsub |]. apply Forall_fmap, Forall_forall. intros v _. by right.
  - eapply sublist_NoDup; [| by apply fmap_sublist]. rewrite <- list_fmap_compose. exact Ha4.
  - eapply forall_sublist; [exact Hsub |]. by apply Forall_fmap.
  - done.
Qed.

Lemma rest_vals_facts a m mvals : ltype m = ltype a → Forall (normed (at_type a)) mvals →
  ∀ f, f ∈ facts (set_vals (rest_vals (at_type a) (at_vals a) mvals) a) ↔ f ∈ facts a ∧ f ∉ facts (set_vals mvals m).
Proof.
  intros Ht Hn f. rewrite !elem_of_facts. unfold rest_vals. rewrite (norms_of _ _ Hn). cbn [set_vals at_type at_vals]. unfold ltype at 1 3. cbn [set_vals at_type]. fold (ltype m) (ltype a).
  assert (nform (at_type m) <$> mvals = nform (at_type a) <$> mvals) as -> by (apply list_fmap_ext; intros; by apply nform_case). rewrite Ht, !list_elem_of_fmap. split.
  - intros (H1 & v & Hv & [Hno (w & -> & Hwin)%list_elem_of_fmap]%list_elem_of_filter). cbn [nv bvnorm_val] in Hno. rewrite elem_some in Hno. split; [split; [done |]; by exists w |].
    intros (_ & u & Hu & Huin). apply Hno. apply list_elem_of_fmap. exists u. split; [| done]. rewrite nform_nv in Hv. congruence.
  - intros ((H1 & w & Hw & Hwin) & Hno). split; [done |]. exists (nv (at_type a) w). split; [done |]. apply list_elem_of_filter. split; [| by apply list_elem_of_fmap_2].
    cbn [nv bvnorm_val]. rewrite elem_some. intros (u & Hu & Huin)%list_elem_of_fmap. apply Hno. split; [done |]. exists u. split; [congruence | done].
Qed.

(** The matched values are all values of the attribute when they are as many. *)
Lemma old_vals_count a m : attr_wf a → mod_attr m → ltype m = ltype a →
  let l := old_vals (at_type a) (at_vals a) (at_vals m) in
  nform (at_type a) <$> l ⊆+ nform (at_type a) <$> at_vals a ∧
  (length l = length (at_vals a) → ∀ x, x ∈ nform (at_type a) <$> at_vals a → x ∈ nform (at_type a) <$> l) ∧
  (length l ≠ length (at_vals a) → rest_vals (at_type a) (at_vals a) l ≠ []).
Proof.
  intros (_ & _ & _ & Ha4 & _) Hm Ht l. destruct (mod_attr_case _ (at_type a) Hm Ht) as (_ & Hnm & Hnd & _). set (t := at_type a) in *.
  assert (l `sublist_of` at_vals m) as Hsub by apply sublist_filter.
  assert (nform t <$> l ⊆+ nform t <$> at_vals a) as Hs.
  { apply NoDup_submseteq; [eapply sublist_NoDup; [exact Hnd | by apply fmap_sublist] |]. intros x (v & -> & [Hin Hvin]%list_elem_of_filter)%list_elem_of_fmap.
    rewrite Forall_forall in Hnm. rewrite norms_nv, (Hnm v Hvin), elem_some in Hin. exact Hin. }
  split; [exact Hs |]. split.
  - intros Hlen x Hx. rewrite (submseteq_length_Permutation _ _ Hs); [exact Hx |]. rewrite !length_fmap. lia.
  - intros Hlen Hnil. apply Hlen. pose proof (submseteq_length _ _ Hs) as Hle. rewrite !length_fmap in Hle. assert (length (at_vals a) <= length l)%nat; [| lia].
    rewrite <- (length_fmap (nform t) (at_vals a)), <- (length_fmap (nform t) l). apply submseteq_length, NoDup_submseteq; [done |]. intros x (v & -> & Hv)%list_elem_of_fmap.
    destruct (decide (Some (nform t v) ∈ bvnorm_val <$> l)) as [Hin | Hno].
    + rewrite (norms_of t l), elem_some in Hin by by eapply forall_sublist. exact Hin.
    + assert (nv t v ∈ rest_vals t (at_vals a) l) as Hr by (apply list_elem_of_filter; split; [done | by apply list_elem_of_fmap_2]). rewrite Hnil in Hr. by apply elem_of_nil in Hr.
Qed.

Definition del_result (repl : bool) attrs (m : VDIR_MODIFICATION) (r : dwerror + list attribute * VDIR_MODIFICATION) : Prop :=
  match r with
  | inr (attrs', m') => attrs_wf attrs' ∧ (∀ lt, lt ∈ ltype <$> attrs → lt ≠ mtype m → lt ∈ ltype <$> attrs') ∧
      (∃ vs ig, m' = set_ignore ig (set_mattr (set_vals vs (mattr m)) m)) ∧ mod_attr (mattr m') ∧
      mok (fset attrs) m' ∧ fset attrs' = meff (fset attrs) m' ∧ fset attrs' = rfc_mod (fset attrs) m ∧ rfc_ok repl (fset attrs) m
  | inl err => ¬ rfc_ok repl (fset attrs) m ∧
      (err = VMDIR_ERROR_NO_SUCH_ATTRIBUTE ∨ (err = VMDIR_ERROR_USER_INVALID_CREDENTIAL ∧ mtype m = lower ATTR_USER_PASSWORD))
  end.

(** What is left when an attribute goes. *)
Lemma delete_types attrs k a lt : attrs !! k = Some a → lt ∈ ltype <$> attrs → lt ≠ ltype a → lt ∈ ltype <$> delete k attrs.
Proof. intros Hk Hin Hne. rewrite (attrs_split _ _ _ Hk) in Hin. cbn in Hin. by apply elem_of_cons in Hin as [? | ?]. Qed.

Lemma fset_delete attrs k a : attrs_wf attrs → attrs !! k = Some a → fset (delete k attrs) = fset attrs ∖ list_to_set (facts a).
Proof.
  intros Hwf Hk. destruct (fset_split attrs k a Hwf Hk) as (HF & Hother & _). rewrite HF. apply set_eq. intros f. rewrite elem_of_difference, elem_of_union, elem_of_list_to_set. split.
  - intros Hf. split; [by right |]. intros [Hf' _]%elem_of_facts. by apply (Hother f).
  - tauto.
Qed.

(** Deleting a whole attribute. *)
Lemma delete_all_vals repl s attrs m k a :
  attrs_wf attrs → mod_attr (mattr m) → VmDirFindAttrByName g attrs (at_type (mattr m)) = Some (k, a) → operation m = MOD_OP_DELETE → modIgnoreType m = MOD_IGNORE_NONE →
  at_vals (mattr m) = [] → ∃ r, apply_delete g ml repl attrs m s [] = Some (r, s, []) ∧ del_result repl attrs m r.
Proof.
  intros Hwf Hm Hf Hop Hig Hnil. unfold apply_delete. rewrite Hf. unfold DelAttrValsFromEntryStruct. rewrite find_swap, Hf. apply find_name in Hf as [Hk Ht].
  destruct (fset_split attrs k a Hwf Hk) as (_ & _ & Hwf' & _ & Ha). pose proof (eq_sym Ht) as Ht'. fold (ltype (mattr m)) in Ht'. pose proof Ha as (_ & Hid & Hg & _).
  destruct (mod_attr_all a (mattr m) Ha Hm Ht') as [Hma Hfa].
  exists (inr (delete k attrs, set_mattr (set_vals (nv (at_type a) <$> at_vals a) (mattr m)) m)). split.
  - unfold rbind at 1, rtry. unfold rbind at 1. rewrite Hid, normalize_vals_run by done. unfold attr_numVals. rewrite Hnil. cbn [length Z.of_nat]. rewrite Z.eqb_refl.
    unfold rbind at 1. rewrite be_alloc_run by (unfold sizeof_BERVALUE; lia). unfold rbind at 1. by rewrite dup_unchecked_run.
  - assert (mset (set_mattr (set_vals (nv (at_type a) <$> at_vals a) (mattr m)) m) = list_to_set (facts a)) as Hms.
    { apply set_eq. intros f. unfold mset. rewrite !elem_of_list_to_set. apply Hfa. }
    split; [done |]. split; [intros lt Hlt Hne; apply (delete_types attrs k a); [done | done |]; unfold mtype in Hne; congruence |].
    split; [exists (nv (at_type a) <$> at_vals a), MOD_IGNORE_NONE; unfold set_ignore, set_mattr; cbn; by rewrite Hig |]. split; [exact Hma |].
    unfold mok, meff, rfc_mod, rfc_ok. cbn [modIgnoreType operation set_mattr]. rewrite Hig, Hop, Hms, Hnil, bool_decide_eq_true_2 by done.
    rewrite (fset_delete attrs k a Hwf Hk). unfold mtype. rewrite Ht', (of_type_facts attrs k a Hwf Hk).
    split; [| split; [done | split; [done | by left]]]. intros f Hin. rewrite elem_of_list_to_set in Hin. apply (own_facts attrs k a); [done | done | | done]. by apply elem_of_facts in Hin as [? _].
Qed.

(** The result of deleting some values, as far as the facts go. *)
Lemma del_some_ok repl attrs m k a attrs' :
  let m' := set_mattr (set_vals (old_vals (at_type a) (at_vals a) (at_vals (mattr m))) (mattr m)) m in
  attrs_wf attrs → attrs !! k = Some a → ltype (mattr m) = ltype a → mod_attr (mattr m) → operation m = MOD_OP_DELETE → modIgnoreType m = MOD_IGNORE_NONE →
  at_vals (mattr m) ≠ [] → (repl = true ∨ mset m ⊆ fset attrs) → attrs_wf attrs' → (∀ lt, lt ∈ ltype <$> attrs → lt ≠ mtype m → lt ∈ ltype <$> attrs') →
  fset attrs' = fset attrs ∖ mset m' → del_result repl attrs m (inr (attrs', m')).
Proof.
  intros m' Hwf Hk Ht Hm Hop Hig Hne Hok Hwf' Htypes HF. destruct (mod_attr_case _ (at_type a) Hm Ht) as (_ & Hnm & _ & _). pose proof (old_vals_facts a (mattr m) Ht Hnm) as Hold.
  assert (∀ f, f ∈ mset m' ↔ f ∈ mset m ∧ f ∈ fset attrs) as Hms.
  { intros f. unfold m', mset. rewrite !elem_of_list_to_set. cbn [mattr set_mattr]. rewrite Hold. split; intros [H1 H2]; (split; [done |]).
    - apply (own_facts attrs k a); [done | done | | done]. by apply elem_of_facts in H2 as [? _].
    - apply (own_facts attrs k a) in H2; [done | done | done |]. apply elem_of_facts in H1 as [? _]. congruence. }
  split; [done |]. split; [done |]. split; [eexists _, MOD_IGNORE_NONE; unfold m', set_ignore, set_mattr; cbn; by rewrite Hig |]. split; [apply mod_attr_sub; [done | apply sublist_filter] |].
  unfold mok, meff, rfc_mod, rfc_ok. cbn [modIgnoreType operation set_mattr m']. rewrite Hig, Hop. fold m'. rewrite bool_decide_eq_false_2 by done.
  split; [intros f Hf; by apply Hms in Hf as [_ ?] |]. split; [done |]. split.
  - rewrite HF. apply set_eq. intros f. rewrite !elem_of_difference, Hms. tauto.
  - right. destruct repl; [| by destruct Hok]. unfold mtype. rewrite Ht, (of_type_facts attrs k a Hwf Hk). destruct (fset_split attrs k a Hwf Hk) as (_ & _ & _ & _ & (_ & _ & _ & _ & _ & Hv)).
    unfold facts. destruct (at_vals a); [done |]. cbn. set_solver.
Qed.

(** The entry has the values of a modification. *)
Lemma subset_vals attrs k a m : attrs_wf attrs → attrs !! k = Some a → ltype (mattr m) = ltype a → Forall (normed (at_type a)) (at_vals (mattr m)) →
  mset m ⊆ fset attrs ↔ Forall (λ v, bvnorm_val v ∈ bvnorm_val <$> (nv (at_type a) <$> at_vals a)) (at_vals (mattr m)).
Proof.
  intros Hwf Hk Ht Hnm. rewrite norms_nv, Forall_forall. rewrite Forall_forall in Hnm. split.
  - intros Hs v Hv. rewrite (Hnm v Hv), elem_some. assert ((ltype (mattr m), nform (at_type (mattr m)) v) ∈ fset attrs) as Hin.
    { apply Hs. unfold mset. rewrite elem_of_list_to_set. apply elem_of_facts. split; [done |]. cbn [snd]. by apply list_elem_of_fmap_2. }
    apply (own_facts attrs k a) in Hin; [| done | done | done]. apply elem_of_facts in Hin as [_ Hin]. cbn [snd] in Hin. by rewrite (nform_case _ (at_type a) v Ht) in Hin.
  - intros Hall f Hfm. unfold mset in Hfm. rewrite elem_of_list_to_set in Hfm. apply elem_of_facts in Hfm as [H1 (v & Hv & Hvin)%list_elem_of_fmap]. apply (own_facts attrs k a); [done | done | congruence |].
    apply elem_of_facts. split; [congruence |]. specialize (Hall v Hvin). rewrite (Hnm v Hvin), elem_some in Hall. by rewrite Hv, (nform_case _ (at_type a) v Ht).
Qed.

Lemma delete_some_vals repl s attrs m k a :
  attrs_wf attrs → mod_attr (mattr m) → VmDirFindAttrByName g attrs (at_type (mattr m)) = Some (k, a) → operation m = MOD_OP_DELETE → modIgnoreType m = MOD_IGNORE_NONE →
  at_vals (mattr m) ≠ [] → ∃ r, apply_delete g ml repl attrs m s [] = Some (r, s, []) ∧ del_result repl attrs m r.
Proof.
  intros Hwf Hm Hf Hop Hig Hne. unfold apply_delete. rewrite Hf. unfold DelAttrValsFromEntryStruct. rewrite find_swap, Hf. apply find_name in Hf as [Hk Ht].
  destruct (fset_split attrs k a Hwf Hk) as (_ & _ & Hwf' & _ & Ha). pose proof (eq_sym Ht) as Ht'. fold (ltype (mattr m)) in Ht'. pose proof Ha as (_ & Hid & Hg & _).
  destruct (mod_attr_case _ (at_type a) Hm Ht') as (_ & Hnm & Hnd & _). pose proof (old_vals_facts a (mattr m) Ht' Hnm) as Hold.
  assert (Forall has_norm (at_vals (mattr m))) as Hhn by (eapply Forall_impl; [exact Hnm |]; intros v Hv; by eexists).
  assert (Forall has_norm (nv (at_type a) <$> at_vals a)) as Hhe by (apply Forall_fmap, Forall_forall; intros v _; by eexists).
  unfold rbind at 1, rtry. unfold rbind at 1. rewrite Hid, normalize_vals_run by done. rewrite (proj2 (Z.eqb_neq _ _)) by (unfold attr_numVals; destruct (at_vals (mattr m)); [done | cbn; lia]).
  unfold rbind at 1. rewrite match_run by done. fold (old_vals (at_type a) (at_vals a) (at_vals (mattr m))).
  pose proof (subset_vals attrs k a m Hwf Hk Ht' Hnm) as Hsub.
  destruct (repl || bool_decide _) eqn:Hb.
  - assert (repl = true ∨ mset m ⊆ fset attrs) as Hok by (apply orb_true_iff in Hb as [-> | Hb%bool_decide_eq_true]; [by left | right; by apply Hsub]).
    destruct (old_vals_count a (mattr m) Ha Hm Ht') as (_ & Hall & Hsome). set (l := old_vals (at_type a) (at_vals a) (at_vals (mattr m))) in *. rewrite length_fmap.
    assert (∀ f, f ∈ mset (set_mattr (set_vals l (mattr m)) m) ↔ f ∈ facts (set_vals l (mattr m))) as Hms by (intros f; unfold mset; by rewrite elem_of_list_to_set).
    destruct (Nat.eqb_spec (length l) (length (at_vals a))) as [Heq | Hneq].
    + eexists. split; [reflexivity |]. eapply del_some_ok; [done | exact Hk | done | done | done | done | done | done | done | |].
      * intros lt Hlt Hnt. apply (delete_types attrs k a); [done | done |]. unfold mtype in Hnt. congruence.
      * rewrite (fset_delete attrs k a Hwf Hk). apply set_eq. intros f. fold l. rewrite !elem_of_difference, elem_of_list_to_set, Hms. split; intros [H1 H2]; (split; [done |]); intros H3; apply H2.
        -- by apply Hold in H3 as [_ ?].
        -- apply elem_of_facts in H3 as [H3 H4]. apply elem_of_facts. split; [by rewrite H3, <- Ht' |]. cbn [set_vals at_vals at_type]. specialize (Hall Heq _ H4).
           by rewrite (list_fmap_ext (nform (at_type (mattr m))) (nform (at_type a)) l) by (intros; by apply nform_case).
    + assert (Forall (normed (at_type a)) l) as Hln by (eapply forall_sublist; [apply sublist_filter | exact Hnm]).
      unfold rbind at 1. rewrite (remove_run _ _ l Hhe) by (eapply forall_sublist; [apply sublist_filter | exact Hhn]). fold (rest_vals (at_type a) (at_vals a) l).
      destruct (fset_insert attrs k a _ Hwf Hk (rest_vals_wf a l Ha (Hsome Hneq)) eq_refl) as (Hwf2 & HF & Htypes). eexists. split; [reflexivity |].
      eapply del_some_ok; [done | exact Hk | done | done | done | done | done | done | done | |].
      * intros lt Hlt _. by rewrite Htypes.
      * rewrite HF. destruct (fset_split attrs k a Hwf Hk) as (-> & Hother & _). apply set_eq. intros f. fold l. rewrite elem_of_difference, !elem_of_union, !elem_of_list_to_set, Hms.
        rewrite (rest_vals_facts a (mattr m) l Ht' Hln). split; [| tauto]. intros [[H1 H2] | H1]; [tauto |]. split; [by right |]. intros [H2 _]%elem_of_facts. apply (Hother f H1). rewrite <- Ht'. exact H2.
  - eexists. split; [reflexivity |]. apply orb_false_iff in Hb as [-> Hb%bool_decide_eq_false]. unfold del_result, rfc_ok. rewrite Hop. rewrite Hsub. split; [tauto |].
    rewrite bool_decide_eq_true_2 by done. destruct (Z.eqb_spec (g_compare g (at_type (mattr m)) ATTR_USER_PASSWORD false) 0) as [Hc | _]; cbn [andb]; [right | by left].
    split; [done |]. by apply (compare_caseless (compare := g_compare g)).
Qed.

Lemma delete_absent repl s attrs m :
  attrs_wf attrs → mod_attr (mattr m) → VmDirFindAttrByName g attrs (at_type (mattr m)) = None → operation m = MOD_OP_DELETE → modIgnoreType m = MOD_IGNORE_NONE →
  ∃ r, apply_delete g ml repl attrs m s [] = Some (r, s, []) ∧ del_result repl attrs m r.
Proof.
  intros Hwf Hm Hf Hop Hig. unfold apply_delete. rewrite Hf. apply find_name_none in Hf.
  assert (∀ f, f ∈ fset attrs → f.1 ≠ mtype m) as Hno.
  { intros f (a & Ha & [Hfa _]%elem_of_facts)%elem_of_fset Hx. apply Hf. fold (ltype (mattr m)). fold (mtype m). rewrite <- Hx, Hfa. by apply list_elem_of_fmap_2. }
  assert (of_type (mtype m) (fset attrs) = ∅) as Hempty by (apply set_eq; intros f; unfold of_type; rewrite elem_of_filter; split; [intros [H1 H2]; by apply Hno in H2 | set_solver]).
  destruct (attr_numVals (mattr m) =? 0) eqn:Hn.
  - assert (at_vals (mattr m) = []) as Hnil by (unfold attr_numVals in Hn; apply Z.eqb_eq in Hn; destruct (at_vals (mattr m)); [done | cbn in Hn; lia]).
    eexists. split; [reflexivity |]. split; [done |]. split; [done |]. split; [exists (at_vals (mattr m)); eexists; by rewrite set_same_vals |]. split; [exact Hm |].
    unfold mok, meff, rfc_mod, rfc_ok. cbn [modIgnoreType operation set_ignore]. rewrite Hop, Hnil, bool_decide_eq_true_2, Hempty by done. destruct repl; (split; [done |]; split; [done |]; split; [set_solver | by left]).
  - eexists. split; [reflexivity |]. unfold del_result, rfc_ok. rewrite Hop. split; [| by left]. assert (at_vals (mattr m) ≠ []) as Hv by (intros Hv; unfold attr_numVals in Hn; by rewrite Hv in Hn).
    intros [? | H]; [done |]. destruct repl; [done |]. destruct (at_vals (mattr m)) as [|v vs] eqn:Hvs; [done |].
    assert ((ltype (mattr m), nform (at_type (mattr m)) v) ∈ mset m) as Hin by (unfold mset; rewrite elem_of_list_to_set; unfold facts; rewrite Hvs; by left).
    by apply H, Hno in Hin.
Qed.

Lemma apply_delete_run repl s attrs m :
  attrs_wf attrs → mod_attr (mattr m) → operation m = MOD_OP_DELETE → modIgnoreType m = MOD_IGNORE_NONE →
  ∃ r, apply_delete g ml repl attrs m s [] = Some (r, s, []) ∧ del_result repl attrs m r.
Proof.
  intros. destruct (VmDirFindAttrByName g attrs (at_type (mattr m))) as [[k a]|] eqn:Hf; [| by apply delete_absent].
  destruct (decide (at_vals (mattr m) = [])); [by eapply delete_all_vals | by eapply delete_some_vals].
Qed.

(** ** A modification of the request *)

(** The first RDN of a DN, or of its normal form, has no end. *)
Definition bad_dn (dn : berval) : Prop :=
  _VmDirFindNextRdn (bv_val dn) = inl VMDIR_ERROR_INVALID_DN ∨ ∃ n, bvnorm_val dn = Some n ∧ _VmDirFindNextRdn n = inl VMDIR_ERROR_INVALID_DN.

Lemma parent_dn_run s dn : ∃ r, VmDirGetParentDN dn s [] = Some (r, s, []) ∧ ∀ err, r = inl err → err = VMDIR_ERROR_INVALID_DN ∧ bad_dn dn.
Proof.
  assert (∀ x, ∃ r, rdn_end x s [] = Some (r, s, []) ∧ ∀ err, r = inl err → err = VMDIR_ERROR_INVALID_DN ∧ _VmDirFindNextRdn x = inl VMDIR_ERROR_INVALID_DN) as Hend.
  { intros x. unfold rdn_end, _VmDirFindNextRdn. destruct (rdn_scan false x) as [i []]; eexists; (split; [reflexivity |]); [by intros err [= <-] | done]. }
  assert (∀ x, string_of x s [] = Some (inr (c_bytes x), s, [])) as Hstr by (intros x; unfold string_of, rbind; by rewrite be_alloc_run by lia).
  unfold VmDirGetParentDN. destruct (Hend (bv_val dn)) as (r & Hr & Herr). unfold rbind at 1. rewrite Hr. destruct r as [err|i]; [eexists; split; [reflexivity |]; intros ? [= <-]; destruct (Herr err eq_refl); split; [done | by left] |].
  destruct (i <? length (bv_val dn))%nat; [| by eexists]. unfold rbind at 1. rewrite Hstr. destruct (bvnorm_val dn) as [[|b n]|] eqn:Hn; [by eexists | | by eexists].
  destruct (Hend (b :: n)) as (r' & Hr' & Herr'). unfold rbind at 1. rewrite Hr'. destruct r' as [err|j]; [eexists; split; [reflexivity |]; intros ? [= <-]; destruct (Herr' err eq_refl); split; [done | right; by exists (b :: n)] |].
  destruct (j <? length (b :: n))%nat; [| by eexists]. unfold rbind. rewrite Hstr. by eexists.
Qed.

(** The same entry but for its parents. *)
Definition same_entry (e e' : VDIR_ENTRY) : Prop := eId e' = eId e ∧ edn e' = edn e ∧ eattrs e' = eattrs e.

Lemma new_parent_run s e a : at_vals a ≠ [] →
  ∃ r, GenerateNewParent g e a s [] = Some (r, s, []) ∧
    match r with
    | inl err => err = VMDIR_ERROR_INVALID_DN ∧ (bad_dn (edn e) ∨ ∃ v, head (at_vals a) = Some v ∧ bad_dn v)
    | inr e' => same_entry e e'
    end.
Proof.
  intros Hne. unfold GenerateNewParent.
  assert (∃ r, (match bvnorm_val (epdn e) with Some _ => rret (epdn e) | None => VmDirGetParentDN (edn e) end) s [] = Some (r, s, []) ∧ ∀ err, r = inl err → err = VMDIR_ERROR_INVALID_DN ∧ bad_dn (edn e)) as (r & Hr & Herr).
  { destruct (bvnorm_val (epdn e)); [by eexists | apply parent_dn_run]. }
  unfold rbind at 1. rewrite Hr. destruct r as [err|pdn]; [eexists; split; [reflexivity |]; destruct (Herr err eq_refl); split; [done | by left] |]. destruct (at_vals a) as [|v vs]; [done |].
  destruct (parent_dn_run s v) as (r' & Hr' & Herr'). unfold rbind at 1. rewrite Hr'. destruct r' as [err|new]; [eexists; split; [reflexivity |]; destruct (Herr' err eq_refl); split; [done | right; by exists v] |].
  assert (∃ e', (x <- VmDirBervalContentDup new ;; rret (set_parents pdn (Some x) e)) s [] = Some (inr e', s, []) ∧ same_entry e e') as (e' & He' & Hs).
  { eexists. unfold rbind. rewrite dup_run. split; [reflexivity | done]. }
  destruct (bvnorm_val pdn) as [p|], (bvnorm_val new) as [n|]; try (by exists (inr e')). destruct (_ =? 0); [| by exists (inr e')]. eexists. by split.
Qed.

(** When a modification of an entry with the DN [dn] fails, and how: a value to
    be added is there, one to be deleted is not, the attribute would have more
    values than its counter can hold, or a DN has no parent that can be told. *)
Definition mod_error (repl : bool) F (dn : berval) (m : VDIR_MODIFICATION) (err : dwerror) : Prop :=
  match err with
  | VMDIR_ERROR_TYPE_OR_VALUE_EXISTS => operation m = MOD_OP_ADD ∧ ¬ rfc_ok repl F m
  | VMDIR_ERROR_NO_SUCH_ATTRIBUTE => operation m = MOD_OP_DELETE ∧ ¬ rfc_ok repl F m
  | VMDIR_ERROR_USER_INVALID_CREDENTIAL => operation m = MOD_OP_DELETE ∧ ¬ rfc_ok repl F m ∧ mtype m = lower ATTR_USER_PASSWORD
  | VMDIR_ERROR_DATA_CONSTRAINT_VIOLATION => UINT16_MAX < Z.of_nat (size (of_type (mtype m) (rfc_mod F m)))
  | VMDIR_ERROR_INVALID_DN =>
      operation m = MOD_OP_REPLACE ∧ mtype m = lower ATTR_DN ∧ (bad_dn dn ∨ ∃ v, head (at_vals (mattr m)) = Some v ∧ bad_dn v)
  | _ => False
  end.

Definition mod_result (repl : bool) (e : VDIR_ENTRY) (m : VDIR_MODIFICATION) (r : dwerror + VDIR_ENTRY * bool * list VDIR_MODIFICATION) : Prop :=
  let F := fset (eattrs e) in
  match r with
  | inr (e', _, ms) => attrs_wf (eattrs e') ∧ (∀ lt, lt ∈ ltype <$> eattrs e → lt ≠ mtype m → lt ∈ ltype <$> eattrs e') ∧ Forall mready ms ∧
      run_ok F ms ∧ fset (eattrs e') = foldl meff F ms ∧ fset (eattrs e') = rfc_mod F m ∧ rfc_ok repl F m ∧ eId e' = eId e ∧ edn e' = edn e
  | inl err => mod_error repl F (edn e) m err
  end.

(** The addition and the deletion of one modification. *)
Lemma add_step repl s e m : attrs_wf (eattrs e) → request_ok m → at_vals (mattr m) ≠ [] → operation m = MOD_OP_ADD → eattrs e ≠ [] →
  (∃ e' ms, mod_add g ml repl e m s [] = Some (inr (e', ms), s, []) ∧ mod_result repl e m (inr (e', false, ms))) ∨
  (∃ err, mod_add g ml repl e m s [] = Some (inl err, s, []) ∧ mod_error repl (fset (eattrs e)) (edn e) m err).
Proof.
  intros Hwf (Hm & Hlen & _ & Hmeta & Hvm & Hig) Hne Hop Hattrs. destruct (apply_add_run repl s (eattrs e) m Hwf Hm Hlen Hne Hattrs) as (r & Hrun & Hres). unfold mod_add, rbind. rewrite Hrun.
  destruct r as [err | [attrs' m']]; cbn in Hres; [right | left].
  - exists err. split; [done |]. destruct Hres as [(-> & -> & Hd) | [-> Hmax]]; cbn [mod_error].
    + split; [done |]. unfold rfc_ok. rewrite Hop. by intros [? | ?].
    + unfold rfc_mod. by rewrite Hop.
  - destruct Hres as (Hwf' & Htypes & (vs & ->) & Hma & Hdis & HF & HF' & Hok). eexists _, _. split; [reflexivity |]. split; [exact Hwf' |]. split; [intros lt Hlt _; by apply Htypes |].
    split; [constructor; [| done]; split; [exact Hma |]; split; [cbn; congruence | done] |].
    unfold rfc_mod, rfc_ok. cbn [run_ok foldl set_attrs eattrs eId edn fst snd]. unfold mok, meff. cbn [modIgnoreType operation set_mattr]. rewrite Hop, Hig. by split_and!.
Qed.

Lemma del_step repl s e m : attrs_wf (eattrs e) → mod_attr (mattr m) → meta_fine (mattr m) → valueMetaDataToDelete m = [] → modIgnoreType m = MOD_IGNORE_NONE → operation m = MOD_OP_DELETE →
  (∃ e' ms, mod_delete g ml repl e m s [] = Some (inr (e', ms), s, []) ∧ mod_result repl e m (inr (e', false, ms))) ∨
  (∃ err, mod_delete g ml repl e m s [] = Some (inl err, s, []) ∧ ¬ rfc_ok repl (fset (eattrs e)) m ∧ mod_error repl (fset (eattrs e)) (edn e) m err).
Proof.
  intros Hwf Hm Hmeta Hvm Hig Hop. destruct (apply_delete_run repl s (eattrs e) m Hwf Hm Hop Hig) as (r & Hrun & Hres). unfold mod_delete, rbind. rewrite Hrun.
  destruct r as [err | [attrs' m']]; cbn in Hres; [right; exists err; split; [done |]; destruct Hres as [Hno [-> | [-> Hpw]]]; by split | left]. destruct Hres as (Hwf' & Htypes & (vs & ig & ->) & Hma & Hok & HF & HF' & Hrfc).
  eexists _, _. split; [reflexivity |]. split; [exact Hwf' |]. split; [exact Htypes |].
  split; [constructor; [| done]; split; [exact Hma |]; split; [cbn; congruence | done] |]. by split_and!.
Qed.

(** The deletion of a replacement. *)
Lemma del_mod_attr m : mod_attr (mattr m) → mod_attr (mattr (newDelMod m)).
Proof. intros (H1 & H2 & _). split; [done |]. split; [done |]. by split_and!; constructor. Qed.

Lemma rfc_del_mod F m : rfc_mod F (newDelMod m) = F ∖ of_type (mtype m) F.
Proof. done. Qed.

Lemma run_ok_app F ms1 ms2 : run_ok F (ms1 ++ ms2) ↔ run_ok F ms1 ∧ run_ok (foldl meff F ms1) ms2.
Proof. revert F. induction ms1 as [|m ms1 IH]; intros F; cbn; [tauto |]. rewrite IH. tauto. Qed.

(** An addition of new values fails only for their number. *)
Lemma add_only_full repl F dn m err : mod_error repl F dn m err → operation m = MOD_OP_ADD → rfc_ok repl F m →
  err = VMDIR_ERROR_DATA_CONSTRAINT_VIOLATION ∧ UINT16_MAX < Z.of_nat (size (of_type (mtype m) (rfc_mod F m))).
Proof. intros Herr Hop Hok. destruct err; cbn [mod_error] in Herr; try done; destruct Herr as [H1 H2]; try done; [congruence.. | |]; try (by destruct H2); congruence. Qed.

(** A replacement of an attribute that is there. *)
Lemma replace_step repl s e m k a :
  attrs_wf (eattrs e) → request_ok m → operation m = MOD_OP_REPLACE → at_vals (mattr m) ≠ [] → VmDirFindAttrByName g (eattrs e) (at_type (mattr m)) = Some (k, a) →
  (∃ lt, lt ∈ ltype <$> eattrs e ∧ lt ≠ mtype m) →
  ∃ r, apply_mod g ml repl e m s [] = Some (r, s, []) ∧ mod_result repl e m r.
Proof.
  intros Hwf Hreq Hop Hne Hf (lt & Hlt & Hother). pose proof Hreq as (Hm & Hlen & _ & Hmeta & Hvm & Hig). unfold apply_mod. rewrite Hop, Hf.
  rewrite (proj2 (Z.eqb_neq _ _)) by (unfold attr_numVals; destruct (at_vals (mattr m)); [done | cbn; lia]).
  assert (∃ r, (if g_compare g (at_type a) ATTR_DN false =? 0 then GenerateNewParent g e (mattr m) else rret e) s [] = Some (r, s, []) ∧
    match r with inl err => mod_error repl (fset (eattrs e)) (edn e) m err | inr e' => same_entry e e' end) as (r & Hr & Hres).
  { apply find_name in Hf as [_ Ht]. destruct (Z.eqb_spec (g_compare g (at_type a) ATTR_DN false) 0) as [Hd | _]; [| eexists; by split].
    apply (compare_caseless (compare := g_compare g)) in Hd. destruct (new_parent_run s e (mattr m) Hne) as (r & Hr & Hres). exists r. split; [done |].
    destruct r as [err | e']; [| done]. destruct Hres as [-> Hbad]. split; [done |]. split; [| done]. unfold mtype, ltype, lower in *. congruence. }
  unfold rbind at 1. rewrite Hr. destruct r as [err|e1]; [eexists; split; [reflexivity |]; exact Hres |]. destruct Hres as (Hid1 & Hdn1 & Ha1).
  unfold rbind at 1. rewrite be_alloc_run by done. rewrite <- Ha1 in Hwf, Hlt. unfold mod_result. rewrite <- Ha1.
  destruct (del_step repl s e1 (newDelMod m)) as [(e2 & ms & Hd & Hdres) | (err & _ & Hno & _)]; [done | by apply del_mod_attr | by split; [| left] | done | done | done | | by destruct Hno; left].
  unfold rbind at 1. rewrite Hd. destruct Hdres as (Hwf2 & Ht2 & Hms2 & Hok2 & HF2 & HR2 & _ & Hid2 & Hdn2). rewrite rfc_del_mod in HR2. cbn [fst snd].
  assert (lt ∈ ltype <$> eattrs e2) as Hlt2 by by apply Ht2.
  destruct (add_step repl s e2 (set_operation MOD_OP_ADD m)) as [(e3 & ms3 & Hr3 & Hres3) | (err & Hr3 & Herr)]; [done | by split_and! | done | done | intros Hnil; rewrite Hnil in Hlt2; by apply elem_of_nil in Hlt2 | |].
  - unfold rbind. rewrite Hr3. eexists. split; [reflexivity |]. destruct Hres3 as (Hwf3 & Ht3 & Hms3 & Hok3 & HF3 & HR3 & _ & Hid3 & Hdn3). split; [exact Hwf3 |].
    split; [intros x Hx Hxm; apply Ht3; [by apply Ht2 | done] |]. split; [by apply Forall_app |].
    split; [| split; [rewrite foldl_app, <- HF2; exact HF3 |]].
    + apply run_ok_app. rewrite <- HF2. by split.
    + unfold rfc_ok. rewrite Hop. cbn [fst snd]. rewrite HR3. unfold rfc_mod. rewrite Hop. cbn [operation set_operation]. rewrite HR2. split; [done |]. split; [done |]. split; congruence.
  - unfold rbind. rewrite Hr3. eexists. split; [reflexivity |].
    assert (rfc_ok repl (fset (eattrs e2)) (set_operation MOD_OP_ADD m)) as Hok.
    { right. rewrite HR2. intros f Hfm [Hin Hnot]%elem_of_difference. apply Hnot.
      unfold of_type. apply elem_of_filter. split; [| done]. unfold mset in Hfm. rewrite elem_of_list_to_set in Hfm. by apply elem_of_facts in Hfm as [? _]. }
    apply add_only_full in Herr as [-> Hmax]; [| done | done]. unfold mod_result. cbn [mod_error].
    unfold rfc_mod in Hmax |- *. cbn [operation set_operation] in Hmax. rewrite Hop. by rewrite HR2 in Hmax.
Qed.

Lemma apply_mod_run repl s e m :
  attrs_wf (eattrs e) → request_ok m → (∃ lt, lt ∈ ltype <$> eattrs e ∧ lt ≠ mtype m) →
  ∃ r, apply_mod g ml repl e m s [] = Some (r, s, []) ∧ mod_result repl e m r.
Proof.
  intros Hwf Hreq Hlt. pose proof Hreq as (Hm & Hlen & Hadd & Hmeta & Hvm & Hig).
  assert (eattrs e ≠ []) as Hattrs by (destruct Hlt as (lt & Hlt & _); intros Hnil; rewrite Hnil in Hlt; by apply elem_of_nil in Hlt).
  destruct (operation m) eqn:Hop.
  - unfold apply_mod. rewrite Hop. unfold rbind. destruct (add_step repl s e m Hwf Hreq (Hadd eq_refl) Hop Hattrs) as [(e' & ms & -> & Hres) | (err & -> & Herr)]; (eexists; split; [reflexivity |]).
    + exact Hres.
    + exact Herr.
  - unfold apply_mod. rewrite Hop. unfold rbind. destruct (del_step repl s e m Hwf Hm Hmeta Hvm Hig Hop) as [(e' & ms & -> & Hres) | (err & -> & Herr)]; (eexists; split; [reflexivity |]).
    + exact Hres.
    + apply Herr.
  - destruct (decide (at_vals (mattr m) = [])) as [Hnil | Hne].
    + unfold apply_mod. rewrite Hop. unfold attr_numVals. rewrite Hnil. cbn [length Z.of_nat]. rewrite Z.eqb_refl. unfold rbind.
      destruct (del_step repl s e (set_operation MOD_OP_DELETE m)) as [(e' & ms & -> & Hres) | (err & _ & Herr & _)]; [done | done | done | done | done | done | | by destruct Herr; left].
      eexists. split; [reflexivity |]. destruct Hres as (H1 & H2 & H3 & H4 & H5 & H6 & _ & H8). cbn [fst snd]. do 5 (split; [done |]). unfold rfc_ok. rewrite Hop. split; [| done].
      rewrite H6. unfold rfc_mod. cbn [operation set_operation mattr]. rewrite Hop, Hnil, bool_decide_eq_true_2 by done. unfold mset, facts. rewrite Hnil. cbn. set_solver.
    + destruct (VmDirFindAttrByName g (eattrs e) (at_type (mattr m))) as [[k a]|] eqn:Hf; [by eapply replace_step |].
      unfold apply_mod. rewrite Hop, Hf. rewrite (proj2 (Z.eqb_neq _ _)) by (unfold attr_numVals; destruct (at_vals (mattr m)); [done | cbn; lia]). unfold rbind.
      assert (of_type (mtype m) (fset (eattrs e)) = ∅) as Hempty.
      { apply set_eq. intros f. unfold of_type. rewrite elem_of_filter. split; [| set_solver]. intros [H1 (b & Hb & [H2 _]%elem_of_facts)%elem_of_fset]. apply find_name_none in Hf. destruct Hf.
        fold (ltype (mattr m)) (mtype m). rewrite <- H1, H2. by apply list_elem_of_fmap_2. }
      assert (mset m ## fset (eattrs e)) as Hdis.
      { intros f Hfm Hin. apply (not_elem_of_empty (C := gset fact) f). rewrite <- Hempty. unfold of_type. apply elem_of_filter. split; [| done]. unfold mset in Hfm. rewrite elem_of_list_to_set in Hfm. by apply elem_of_facts in Hfm as [? _]. }
      destruct (add_step repl s e (set_operation MOD_OP_ADD m)) as [(e' & ms & -> & Hres) | (err & -> & Herr)]; [done | by split_and! | done | done | done | |]; (eexists; split; [reflexivity |]).
      * destruct Hres as (H1 & H2 & H3 & H4 & H5 & H6 & _ & H8). cbn [fst snd]. do 5 (split; [done |]). unfold rfc_ok. rewrite Hop. split; [| done].
        rewrite H6. unfold rfc_mod. cbn [operation set_operation]. rewrite Hop, Hempty. set_solver.
      * assert (rfc_ok repl (fset (eattrs e)) (set_operation MOD_OP_ADD m)) as Hok by (by right).
        apply add_only_full in Herr as [-> Hmax]; [| done | done]. unfold mod_result. cbn [mod_error].
        unfold rfc_mod in Hmax |- *. cbn [operation set_operation] in Hmax. rewrite Hop, Hempty. by replace (fset (eattrs e) ∖ ∅) with (fset (eattrs e)) by set_solver.
Qed.

(** ** The whole request *)

(** The request fails at one of its modifications, the ones before it being in
    order. *)
Definition request_error (repl : bool) F (dn : berval) (mods : list VDIR_MODIFICATION) (err : dwerror) : Prop :=
  ∃ ms1 m ms2, mods = ms1 ++ m :: ms2 ∧ rfc_all_ok repl F ms1 ∧ mod_error repl (foldl rfc_mod F ms1) dn m err.

(** [F] are the facts the modifications start from. *)
Definition request_result (repl : bool) F (e : VDIR_ENTRY) (mods : list VDIR_MODIFICATION) (r : dwerror + VDIR_ENTRY * bool * list VDIR_MODIFICATION) : Prop :=
  match r with
  | inr (e', _, mods') =>
      rfc_all_ok repl F mods ∧ fset (eattrs e') = foldl rfc_mod F mods ∧ attrs_wf (eattrs e') ∧ eId e' = eId e ∧ edn e' = edn e ∧
      Forall mready mods' ∧ run_ok F mods' ∧ foldl meff F mods' = fset (eattrs e')
  | inl err => request_error repl F (edn e) mods err
  end.

Lemma apply_mods_run repl s e mods :
  attrs_wf (eattrs e) → Forall request_ok mods → (∃ lt, lt ∈ ltype <$> eattrs e ∧ ∀ m, m ∈ mods → lt ≠ mtype m) →
  ∃ r, apply_mods g ml repl e mods s [] = Some (r, s, []) ∧ request_result repl (fset (eattrs e)) e mods r.
Proof.
  intros Hwf Hreq. revert e Hwf. induction Hreq as [|m mods Hm _ IH]; intros e Hwf (lt & Hlt & Hother); [eexists; split; [reflexivity | done] |].
  cbn [apply_mods]. destruct (apply_mod_run repl s e m Hwf Hm) as (r & Hr & Hres); [exists lt; split; [done |]; apply Hother; by left |].
  unfold rbind at 1. rewrite Hr. destruct r as [err | [[e1 b] ms]].
  - eexists. split; [reflexivity |]. by exists [], m, mods.
  - destruct Hres as (Hwf1 & Ht1 & Hms1 & Hok1 & HF1 & HR1 & Hrfc1 & Hid1 & Hdn1). destruct (IH e1 Hwf1) as (r & Hr2 & Hres2).
    { exists lt. split; [apply Ht1; [done |]; apply Hother; by left | intros x Hx; apply Hother; by right]. }
    unfold rbind. cbn [fst snd]. rewrite Hr2. destruct r as [err | [[e2 b2] ms2]]; (eexists; split; [reflexivity |]); unfold request_result in Hres2 |- *; rewrite HR1 in Hres2.
    + destruct Hres2 as (ms1 & m' & ms2 & -> & Hok & Herr). exists (m :: ms1), m', ms2. split; [done |]. split; [done |]. by rewrite <- Hdn1.
    + destruct Hres2 as (Hrfc2 & HR2 & Hwf2 & Hid2 & Hdn2 & Hms2 & Hok2 & HF2). cbn [fst snd]. split; [done |]. split; [done |]. split; [done |]. split; [congruence |]. split; [congruence |].
      split; [by apply Forall_app |]. rewrite run_ok_app, foldl_app, <- HF1, HR1. done.
Qed.

(** ** Members *)

(** The entry of a member, looked up in the committed state. *)
Abbreviation member_entry s x := (read_only (VmDirSimpleDNToEntry g (pIndexCfgMap (be_ix s)) x) s []).
Definition alive s (x : list Z) : bool := match member_entry s x with Some (inr _, _, _) => true | _ => false end.
Definition answered s (x : list Z) : Prop :=
  match member_entry s x with
  | Some (inr _, _, []) => True
  | Some (inl err, _, []) => err = VMDIR_ERROR_BACKEND_ENTRY_NOTFOUND
  | _ => False
  end.

(** The facts without the members that have no entry. *)
Definition live s F : gset fact := base.filter (λ f, f.1 = lower ATTR_MEMBER → alive s f.2 = true) F.

(** The members of a group: the schema knows the attribute, and its normal form
    is that of DNs; for every member the lookup of its entry answers, and one of
    them has an entry. *)
Definition group_ok s (vals : list berval) : Prop :=
  (∃ name, ml_desc ml ATTR_MEMBER = Some (desc ATTR_MEMBER, name) ∧ name ≠ [] ∧ lower name = lower ATTR_MEMBER) ∧
  Forall (λ v, bv_val v ≠ [] ∧ Forall (λ b, b ≠ 0) (bv_val v) ∧ g_normalize_dn g (bv_val v) = nform ATTR_MEMBER v ∧ answered s (nform ATTR_MEMBER v)) vals ∧
  ∃ v, v ∈ vals ∧ alive s (nform ATTR_MEMBER v) = true.

Definition members_ok s attrs : Prop := ∀ a, a ∈ attrs → ltype a = lower ATTR_MEMBER → group_ok s (at_vals a).

Definition lives s v : Prop := alive s (nform ATTR_MEMBER v) = true.
#[local] Instance lives_dec s v : Decision (lives s v) := decide (alive s (nform ATTR_MEMBER v) = true).

Lemma live_members_run s vals :
  Forall (good ATTR_MEMBER) vals →
  Forall (λ v, bv_val v ≠ [] ∧ Forall (λ b, b ≠ 0) (bv_val v) ∧ g_normalize_dn g (bv_val v) = nform ATTR_MEMBER v ∧ answered s (nform ATTR_MEMBER v)) vals →
  live_members g (pIndexCfgMap (be_ix s)) vals s [] = Some (inr (nv ATTR_MEMBER <$> vals, bv_val <$> base.filter (lives s) vals), s, []).
Proof.
  intros Hg Hv. induction Hv as [|v vals (Hne & _ & Hdn & Hans) _ IH]; [done |]. apply Forall_cons in Hg as [Hgv Hg]. specialize (IH Hg). cbn [live_members].
  assert (VmDirNormalizeDN g v s [] = Some (inr (nv ATTR_MEMBER v), s, [])) as Hn.
  { unfold VmDirNormalizeDN. destruct Hgv as [Hnone | Hsome].
    - rewrite Hnone. destruct (bv_val v) as [|b bs] eqn:Hb; [done |]. rewrite run_backend, Hdn. unfold rret, nv. by rewrite Hb.
    - rewrite Hsome. unfold rret, nv. rewrite <- Hsome. by destruct v. }
  unfold rbind at 1. rewrite Hn. change (default [] (bvnorm_val (nv ATTR_MEMBER v))) with (nform ATTR_MEMBER v). unfold rbind at 1, rtry.
  unfold answered in Hans. rewrite filter_cons.
  destruct (member_entry s (nform ATTR_MEMBER v)) as [[[[err | x] s1] e1]|] eqn:Hm; [| | done].
  - assert (s1 = s) as -> by (unfold read_only in Hm; destruct (VmDirSimpleDNToEntry _ _ _ _ _) as [[[? ?] ?]|]; [by injection Hm | done]).
    destruct e1; [| done]. subst err. rewrite bool_decide_eq_true_2 by done. rewrite decide_False by (unfold lives, alive; by rewrite Hm). unfold rbind. rewrite IH. done.
  - assert (s1 = s) as -> by (unfold read_only in Hm; destruct (VmDirSimpleDNToEntry _ _ _ _ _) as [[[? ?] ?]|]; [by injection Hm | done]).
    destruct e1; [| done]. rewrite decide_True by (unfold lives, alive; by rewrite Hm). unfold rbind. rewrite IH. done.
Qed.

Lemma c_bytes_plain x : Forall (λ b, b ≠ 0) x → c_bytes x = x.
Proof. induction 1 as [|b x Hb _ IH]; [done |]. cbn. by rewrite (proj2 (Z.eqb_neq b 0)), IH. Qed.

Lemma copy_strings_run s (l : list (list Z)) : Forall (Forall (λ b, b ≠ 0)) l → copy_strings l s [] = Some (inr ((λ x, BER x None) <$> l), s, []).
Proof.
  induction 1 as [|x l Hx _ IH]; [done |]. cbn [copy_strings]. unfold rbind at 1, string_of. unfold rbind at 1. rewrite be_alloc_run by lia. unfold rret at 1.
  rewrite c_bytes_plain by done. unfold rbind. by rewrite IH.
Qed.

(** The attribute with the members that are left. *)
Lemma live_facts s a b :
  ltype a = lower ATTR_MEMBER → lower (at_type b) = lower ATTR_MEMBER → bv_val <$> at_vals b = bv_val <$> base.filter (lives s) (at_vals a) →
  (list_to_set (facts b) : gset fact) = live s (list_to_set (facts a)).
Proof.
  intros Ht Htb Hvals. assert (∀ u x y, bv_val x = bv_val y → nform u x = nform u y) as Hraw by (unfold nform; congruence).
  apply set_eq. intros f. unfold live. rewrite elem_of_filter, !elem_of_list_to_set, !elem_of_facts. unfold ltype in *. rewrite Ht, Htb. split.
  - intros [Hf (v & Hv & Hin)%list_elem_of_fmap]. assert (bv_val v ∈ bv_val <$> base.filter (lives s) (at_vals a)) as (w & Hw & [Hl Hwin]%list_elem_of_filter)%list_elem_of_fmap
      by (rewrite <- Hvals; by apply list_elem_of_fmap_2).
    rewrite (nform_case _ ATTR_MEMBER v Htb), (Hraw _ v w Hw) in Hv. split; [intros _; by rewrite Hv |]. split; [done |].
    rewrite Hv, <- (nform_case (at_type a) ATTR_MEMBER w Ht). by apply list_elem_of_fmap_2.
  - intros (Hl & Hf & (w & Hw & Hwin)%list_elem_of_fmap). rewrite (nform_case _ ATTR_MEMBER w Ht) in Hw. rewrite Hw in Hl. split; [done |].
    assert (bv_val w ∈ bv_val <$> at_vals b) as (v & Hv & Hin)%list_elem_of_fmap by (rewrite Hvals; apply list_elem_of_fmap_2, list_elem_of_filter; by split; [apply Hl |]).
    rewrite Hw, (Hraw _ w v Hv), <- (nform_case (at_type b) ATTR_MEMBER v Htb). by apply list_elem_of_fmap_2.
Qed.

(** An attribute takes the place of the members. *)
Lemma patch_insert s attrs k a b :
  attrs_wf attrs → attrs !! k = Some a → ltype a = lower ATTR_MEMBER → lower (at_type b) = lower ATTR_MEMBER → attr_wf b →
  bv_val <$> at_vals b = bv_val <$> base.filter (lives s) (at_vals a) →
  attrs_wf (<[k := b]> attrs) ∧ fset (<[k := b]> attrs) = live s (fset attrs) ∧ ltype <$> <[k := b]> attrs = ltype <$> attrs.
Proof.
  intros Hwf Hk Ht Htb Hb Hvals. destruct (fset_insert attrs k a b Hwf Hk Hb) as (Hwf' & HF & Htypes); [unfold ltype in *; congruence |].
  split; [done |]. split; [| done]. rewrite HF. destruct (fset_split attrs k a Hwf Hk) as (-> & Hother & _). rewrite (live_facts s a b Ht Htb Hvals).
  apply set_eq. intros f. unfold live. rewrite elem_of_union, !elem_of_filter, elem_of_union. split; [| tauto]. intros [? | Hf]; [tauto |]. split; [| by right].
  intros Hm. destruct (Hother f Hf). by rewrite Hm.
Qed.

(** Some of the values of an attribute, as they are read from the store. *)
Lemma some_vals_wf (P : berval → Prop) `{!∀ v, Decision (P v)} name a :
  attr_wf a → name ≠ [] → lower name = ltype a → base.filter P (at_vals a) ≠ [] →
  attr_wf (ATTR name (Some (desc name)) ((λ x, BER x None) <$> (bv_val <$> base.filter P (at_vals a))) None []).
Proof.
  intros (_ & _ & _ & Hnd & Hc & _) Hname Ht Hne. assert (∀ v, nform name (BER (bv_val v) None) = nform (at_type a) v) as Hnf.
  { intros v. by rewrite (nform_case name (at_type a) _ Ht). }
  assert (base.filter P (at_vals a) `sublist_of` at_vals a) as Hsub by apply sublist_filter.
  split; [done |]. split; [done |]. cbn [at_type at_vals]. split; [| split; [| split]].
  - apply Forall_fmap, Forall_forall. intros v _. by left.
  - rewrite <- !list_fmap_compose. rewrite (list_fmap_ext _ (nform (at_type a))) by (intros; unfold compose; apply Hnf).
    eapply sublist_NoDup; [exact Hnd | by apply fmap_sublist].
  - rewrite <- list_fmap_compose. apply Forall_fmap. eapply forall_sublist; [exact Hsub |]. eapply Forall_impl; [exact Hc |]. intros v Hv. unfold compose. by rewrite Hnf.
  - by destruct (base.filter P (at_vals a)).
Qed.

(** Before the modifications the members without an entry go. *)
Lemma patch_run s attrs :
  attrs_wf attrs → members_ok s attrs →
  ∃ attrs', _VmDirPatchBadMemberData g ml attrs s [] = Some (inr attrs', s, []) ∧
    attrs_wf attrs' ∧ fset attrs' = live s (fset attrs) ∧ ltype <$> attrs' = ltype <$> attrs.
Proof.
  intros Hwf Hmem. unfold _VmDirPatchBadMemberData. rewrite find_swap. destruct (VmDirFindAttrByName g attrs ATTR_MEMBER) as [[k a]|] eqn:Hf.
  2: { exists attrs. split; [done |]. split; [done |]. split; [| done]. apply find_name_none in Hf. apply set_eq. intros f. unfold live. rewrite elem_of_filter. split; [| tauto].
       intros Hin. split; [| done]. intros Hm. destruct Hf. rewrite <- Hm. apply elem_of_fset in Hin as (a & Ha & [-> _]%elem_of_facts). by apply list_elem_of_fmap_2. }
  apply find_name in Hf as [Hk Ht]. destruct (fset_split attrs k a Hwf Hk) as (_ & _ & _ & _ & Ha). pose proof Ha as (Ha1 & Ha2 & Ha3 & Ha4 & Ha5 & Ha6).
  destruct (Hmem a) as ((name & Hname & Hne & Hlow) & Hvals & (v0 & Hv0 & Hl0)); [by eapply list_elem_of_lookup_2 | done |].
  assert (Forall (good ATTR_MEMBER) (at_vals a)) as Hgood by (eapply Forall_impl; [exact Ha3 |]; intros v Hv; unfold good in *; by rewrite <- (nform_case _ ATTR_MEMBER v Ht)).
  unfold rbind at 1. rewrite be_alloc_run by (unfold attr_numVals; destruct (at_vals a); [done | cbn; lia]). unfold rbind at 1, rget. unfold rbind at 1.
  rewrite live_members_run by done. cbn [fst snd]. rewrite length_fmap. unfold attr_numVals.
  assert (lookup : ∀ b : attribute, lower (at_type b) = lower ATTR_MEMBER → VmDirFindAttrByName g (<[k := b]> attrs) name = Some (k, b)).
  { intros b Hb. pose proof (lookup_lt_Some _ _ _ Hk) as Hlt. apply list_find_Some. split; [by rewrite list_lookup_insert_eq |].
    split; [apply (compare_caseless (compare := g_compare g)); unfold lower in *; congruence |]. intros j c Hj Hjk Hc. rewrite list_lookup_insert_ne in Hj by lia.
    apply (compare_caseless (compare := g_compare g)) in Hc. destruct Hwf as [_ Hnd]. assert (j = k); [| lia].
    eapply (NoDup_lookup _ _ _ (lower ATTR_MEMBER) Hnd); rewrite list_lookup_fmap; [rewrite Hj | rewrite Hk; by rewrite <- Ht]. cbn. f_equal. transitivity (lower name); [exact Hc | exact Hlow]. }
  destruct (Z.ltb_spec (Z.of_nat (length (base.filter (lives s) (at_vals a)))) (Z.of_nat (length (at_vals a)))) as [Hlt | Hge].
  - unfold rbind at 1. rewrite be_alloc_run by done. unfold rbind at 1. rewrite be_alloc_run by (unfold sizeof_BERVALUE; lia). rewrite Hname. unfold rbind at 1.
    rewrite copy_strings_run.
    2: { apply Forall_fmap. eapply forall_sublist; [apply sublist_filter |]. eapply Forall_impl; [exact Hvals |]. by intros v (_ & ? & _). }
    fold (VmDirFindAttrByName g (<[k := set_vals (nv ATTR_MEMBER <$> at_vals a) a]> attrs) name). rewrite lookup by done. rewrite list_insert_insert_eq.
    eexists. split; [reflexivity |]. rewrite <- (desc_law Hschema name ATTR_MEMBER Hlow). eapply patch_insert; [done | done | done | done | |].
    + apply (some_vals_wf (lives s)); [done | done | congruence |]. intros Hnil. assert (v0 ∈ base.filter (lives s) (at_vals a)) as Hin by (by apply list_elem_of_filter). rewrite Hnil in Hin. by apply elem_of_nil in Hin.
    + cbn [at_vals]. rewrite <- list_fmap_compose. apply list_fmap_id.
  - eexists. split; [reflexivity |]. assert (base.filter (lives s) (at_vals a) = at_vals a) as Hall.
    { apply filter_id. intros v Hv. destruct (decide (lives s v)) as [| Hno]; [done |]. exfalso.
      pose proof (length_filter_lt (lives s) (at_vals a) v Hv Hno). lia. }
    eapply patch_insert; [done | done | done | done | |].
    + split; [done |]. split; [done |]. cbn [set_vals at_type at_vals]. rewrite <- list_fmap_compose. split; [| split; [| split]].
      * apply Forall_fmap, Forall_forall. intros v _. right. cbn. by rewrite (nform_case (at_type a) ATTR_MEMBER _ Ht).
      * exact Ha4.
      * by apply Forall_fmap.
      * by destruct (at_vals a).
    + rewrite Hall. cbn [set_vals at_vals]. by rewrite <- list_fmap_compose.
Qed.

(** C11: A modify request does what RFC 4511 says.  For every entry with
    different attributes and values, none of them the empty string, and every
    request whose values are in their normal forms and different, and which
    leaves some attribute alone, [VmDirApplyModsToEntryStruct] comes to an end.
    The members without an entry, if the entry has the attribute [member], go
    first ([live]; the lookups answer, and some member has an entry).  From the
    facts that are left, either the set of values of the entry is the one that
    the additions, deletions and replacements lead to one after the other, no two
    values of an attribute are the same, and the modifications that go to the
    backend lead from this set to the new one, each adding only values that are
    not there and deleting only values that are; or one of the modifications
    fails, the ones before it being in order, for a reason it has
    ([mod_error]): a value to be added is there (outside of replication), a value
    to be deleted is not (in replication: the attribute is not), the attribute
    would have more than 65535 values, or the DN of the entry is replaced and its
    first RDN, or that of the new one, does not end. *)
Theorem modify_request_rfc repl s e mods :
  attrs_wf (eattrs e) → Forall request_ok mods → (∃ a, a ∈ eattrs e ∧ ∀ m, m ∈ mods → ltype a ≠ mtype m) → members_ok s (eattrs e) →
  ∃ r, VmDirApplyModsToEntryStruct g ml repl mods e s [] = Some (r, s, []) ∧ request_result repl (live s (fset (eattrs e))) e mods r.
Proof.
  intros Hwf Hreq (a & Ha & Hother) Hmem. destruct (patch_run s (eattrs e) Hwf Hmem) as (attrs & Hrun & Hwf' & HF & Htypes).
  unfold VmDirApplyModsToEntryStruct, rbind. rewrite Hrun, <- HF.
  destruct (apply_mods_run repl s (set_attrs attrs e) mods Hwf' Hreq) as (r & Hr & Hres); [| by exists r].
  exists (ltype a). cbn [set_attrs eattrs]. rewrite Htypes. split; [by apply list_elem_of_fmap_2 | done].
Qed.

End Facts.

(** ** An example *)

Definition fold_case (b : Z) : Z := if (65 <=? b) && (b <=? 90) then b + 32 else b.
Definition normal_ex (aid : Z) (v : list Z) : list Z := fold_case <$> v.
Definition desc_ex (t : cstr) : Z :=
  if bool_decide (lower t = lower ATTR_DN) then 1 else if bool_decide (lower t = lower ATTR_OBJECT_CLASS) then 2 else if bool_decide (lower t = lower type_cn) then 3 else 4.
Definition schema_norm : ml_schema := ML_SCHEMA (λ aid v, inr (normal_ex aid (bv_val v))) (λ v, Some (fold_case <$> v)) (λ t, Some (desc_ex t, t)).

Lemma schema_norm_laws : schema_laws schema_norm desc_ex normal_ex.
Proof. split; [done |]. intros t u H. unfold desc_ex. by rewrite H. Qed.

(** An entry [entryDN = a], [objectClass = t], [cn = A, b] as it is read from the
    store, and a request that adds the value [C] of [CN], deletes [a], and
    replaces the values of [objectClass]. *)
Definition raw (x : list Z) : berval := BER x None.
Definition norm_ex (x : list Z) : berval := BER x (Some (fold_case <$> x)).
Definition stored_ex : VDIR_ENTRY :=
  ENT 100 (norm_ex [97]) (norm_ex []) None (norm_ex [97])
    [ATTR ATTR_DN (Some 1) [raw [97]] None []; ATTR ATTR_OBJECT_CLASS (Some 2) [raw [116]] None []; ATTR type_cn (Some 3) [raw [65]; raw [98]] None []].
Definition mod_ex (op : VDIR_LDAP_MOD_OP) (t : cstr) (vals : list (list Z)) : VDIR_MODIFICATION :=
  MOD op (ATTR t (Some (desc_ex t)) (norm_ex <$> vals) (Some md_ex) []) [] MOD_IGNORE_NONE.
Definition request_ex : list VDIR_MODIFICATION :=
  [mod_ex MOD_OP_ADD ["C"; "N"]%char [[67]]; mod_ex MOD_OP_DELETE type_cn [[97]]; mod_ex MOD_OP_REPLACE ATTR_OBJECT_CLASS [[120]; [121]]].

Lemma raw_attr_wf t i vals :
  t ≠ [] → Some i = Some (desc_ex t) → NoDup (nform desc_ex normal_ex t <$> (raw <$> vals)) → Forall (λ v, c_chars (nform desc_ex normal_ex t v) ≠ []) (raw <$> vals) → vals ≠ [] →
  attr_wf desc_ex normal_ex (ATTR t (Some i) (raw <$> vals) None []).
Proof.
  intros H1 H2 H3 H4 H5. split; [done |]. split; [done |]. split; [apply Forall_fmap, Forall_forall; intros v _; by left |]. split; [done |]. split; [done |]. by destruct vals.
Qed.

Lemma stored_ex_wf : attrs_wf desc_ex normal_ex (eattrs stored_ex).
Proof.
  split; [| apply (bool_decide_unpack _); vm_compute; exact I].
  repeat (apply Forall_cons; split); [apply (raw_attr_wf _ _ [[97]]) | apply (raw_attr_wf _ _ [[116]]) | apply (raw_attr_wf _ _ [[65]; [98]]) | constructor]; try done; apply (bool_decide_unpack _); vm_compute; exact I.
Qed.

Lemma mod_ex_ok op t vals : t ≠ [] → NoDup (nform desc_ex normal_ex t <$> (norm_ex <$> vals)) → Forall (λ v, c_chars (nform desc_ex normal_ex t v) ≠ []) (norm_ex <$> vals) →
  Z.of_nat (length vals) < 2 ^ 32 → vals ≠ [] → request_ok desc_ex normal_ex (mod_ex op t vals).
Proof.
  intros H1 H2 H3 H4 H5. split; [split; [done |]; split; [done |]; split; [apply Forall_fmap, Forall_forall; intros v _; done | done] |].
  split; [unfold attr_numVals; cbn; by rewrite length_fmap |]. split; [intros _; by destruct vals |]. split; [| done]. split; [done |]. right. eexists. vm_compute. reflexivity.
Qed.

Lemma request_ex_ok : Forall (request_ok desc_ex normal_ex) request_ex.
Proof. repeat (apply Forall_cons; split); [| | | constructor]; apply mod_ex_ok; try done; apply (bool_decide_unpack _); vm_compute; exact I. Qed.

Lemma request_ex_other : ∃ a, a ∈ eattrs stored_ex ∧ ∀ m, m ∈ request_ex → ltype a ≠ mtype m.
Proof.
  exists (ATTR ATTR_DN (Some 1) [raw [97]] None []). split; [by left |]. intros m Hm. assert (Forall (λ m, ltype (ATTR ATTR_DN (Some 1) [raw [97]] None []) ≠ mtype m) request_ex) as H by (apply (bool_decide_unpack _); vm_compute; exact I).
  rewrite Forall_forall in H. by apply H.
Qed.

(** It has no members. *)
Lemma stored_ex_members {lmdb : Lmdb} (s : be_state) : members_ok globals_ex schema_norm desc_ex normal_ex s (eattrs stored_ex).
Proof.
  intros a Ha Ht. exfalso. assert (Forall (λ a, ltype a ≠ lower ATTR_MEMBER) (eattrs stored_ex)) as H by (apply (bool_decide_unpack _); vm_compute; exact I).
  rewrite Forall_forall in H. by apply (H a Ha).
Qed.

(** A group [entryDN = g] with the members [a], whose entry is in the store, and
    [x], which has none; a request that adds a [cn] and deletes the member [a]. *)
Definition added_ex : be_state (lmdb := table_lmdb) := match add_ex (entry_with [97]) store_ex [] with Some (_, s, _) => s | None => store_ex end.
Definition group_state : be_state (lmdb := table_lmdb) :=
  BE (lmdb := table_lmdb) (be_ix added_ex) (be_entries added_ex) (be_seq added_ex) (COMMITTED (lmdb := table_lmdb) (mdbIndexDBs (be_ix added_ex)) (be_entries added_ex)).
Definition group_ex : VDIR_ENTRY :=
  set_attrs [ATTR ATTR_DN (Some 1) [raw [103]] None []; ATTR ATTR_MEMBER (Some 4) [raw [97]; raw [120]] None []] stored_ex.
Definition group_request : list VDIR_MODIFICATION := [mod_ex MOD_OP_ADD type_cn [[67]]; mod_ex MOD_OP_DELETE ATTR_MEMBER [[97]]].

Lemma group_ex_wf : attrs_wf desc_ex normal_ex (eattrs group_ex).
Proof.
  split; [| apply (bool_decide_unpack _); vm_compute; exact I].
  repeat (apply Forall_cons; split); [apply (raw_attr_wf _ _ [[103]]) | apply (raw_attr_wf _ _ [[97]; [120]]) | constructor]; try done; apply (bool_decide_unpack _); vm_compute; exact I.
Qed.

Lemma group_request_ok : Forall (request_ok desc_ex normal_ex) group_request.
Proof. repeat (apply Forall_cons; split); [| | constructor]; apply mod_ex_ok; try done; apply (bool_decide_unpack _); vm_compute; exact I. Qed.

Lemma group_alive : alive (lmdb := table_lmdb) globals_ex group_state [97] = true.
Proof. vm_compute. reflexivity. Qed.

Lemma group_members : members_ok (lmdb := table_lmdb) globals_ex schema_norm desc_ex normal_ex group_state (eattrs group_ex).
Proof.
  intros a Ha Ht. apply elem_of_cons in Ha as [-> | ->%list_elem_of_singleton]; [by vm_compute in Ht |]. split; [exists ATTR_MEMBER; done |]. split.
  - repeat (apply Forall_cons; split); [| | constructor]; (split; [done |]); (split; [by repeat constructor |]); (split; [reflexivity |]); vm_compute; done.
  - exists (raw [97]). split; [by left | exact group_alive].
Qed.

Lemma group_other : ∃ a, a ∈ eattrs group_ex ∧ ∀ m, m ∈ group_request → ltype a ≠ mtype m.
Proof.
  exists (ATTR ATTR_DN (Some 1) [raw [103]] None []). split; [by left |]. intros m Hm.
  assert (Forall (λ m, ltype (ATTR ATTR_DN (Some 1) [raw [103]] None []) ≠ mtype m) group_request) as H by (apply (bool_decide_unpack _); vm_compute; exact I).
  rewrite Forall_forall in H. by apply H.
Qed.

Lemma modify_request_rfc_witness :
  (∃ r, VmDirApplyModsToEntryStruct (lmdb := table_lmdb) globals_ex schema_norm false request_ex stored_ex store_ex [] = Some (r, store_ex, []) ∧
    request_result desc_ex normal_ex false (live (lmdb := table_lmdb) globals_ex store_ex (fset desc_ex normal_ex (eattrs stored_ex))) stored_ex request_ex r) ∧
  ∃ r, VmDirApplyModsToEntryStruct (lmdb := table_lmdb) globals_ex schema_norm false group_request group_ex group_state [] = Some (r, group_state, []) ∧
    request_result desc_ex normal_ex false (live (lmdb := table_lmdb) globals_ex group_state (fset desc_ex normal_ex (eattrs group_ex))) group_ex group_request r.
Proof.
  split.
  - apply (modify_request_rfc (lmdb := table_lmdb) globals_ex schema_norm desc_ex normal_ex schema_norm_laws).
    + exact stored_ex_wf.
    + exact request_ex_ok.
    + exact request_ex_other.
    + exact (stored_ex_members store_ex).
  - apply (modify_request_rfc (lmdb := table_lmdb) globals_ex schema_norm desc_ex normal_ex schema_norm_laws).
    + exact group_ex_wf.
    + exact group_request_ok.
    + exact group_other.
    + exact group_members.
Defined.

(** What the request leads to: the values of each attribute, and the values that
    the backend adds and deletes. *)
Definition applied (repl : bool) (mods : list VDIR_MODIFICATION) (e : VDIR_ENTRY) : option (dwerror + list (cstr * list (list Z)) * list (VDIR_LDAP_MOD_OP * cstr * list (list Z))) :=
  match VmDirApplyModsToEntryStruct (lmdb := table_lmdb) globals_ex schema_norm repl mods e store_ex [] with
  | Some (inr (e', _, ms), _, _) =>
      Some (inr ((λ a, (at_type a, bv_val <$> at_vals a)) <$> eattrs e', (λ m, (operation m, at_type (mattr m), bv_val <$> at_vals (mattr m))) <$> ms))
  | Some (inl err, _, _) => Some (inl err)
  | None => None
  end.

Example request_ex_applied :
  applied false request_ex stored_ex =
    Some (inr ([(ATTR_DN, [[97]]); (type_cn, [[98]; [67]]); (ATTR_OBJECT_CLASS, [[120]; [121]])],
               [(MOD_OP_ADD, ["C"; "N"]%char, [[67]]); (MOD_OP_DELETE, type_cn, [[97]]);
                (MOD_OP_DELETE, ATTR_OBJECT_CLASS, [[116]]); (MOD_OP_ADD, ATTR_OBJECT_CLASS, [[120]; [121]])])).
Proof. vm_compute. reflexivity. Qed.

(** ** Where replication stops *)

(** In replication a value to be deleted may be gone already, so that two
    replicas can delete the same value.  This works as long as the attribute
    has other values; when it was the last one the attribute is gone, and the
    second deletion is an error. *)
Theorem replicated_delete_of_last_value :
  applied true [mod_ex MOD_OP_DELETE type_cn [[97]]; mod_ex MOD_OP_DELETE type_cn [[97]]] stored_ex =
    Some (inr ([(ATTR_DN, [[97]]); (ATTR_OBJECT_CLASS, [[116]]); (type_cn, [[98]])], [(MOD_OP_DELETE, type_cn, [[97]]); (MOD_OP_DELETE, type_cn, [])])) ∧
  applied true [mod_ex MOD_OP_DELETE type_cn [[97]; [98]]; mod_ex MOD_OP_DELETE type_cn [[97]]] stored_ex = Some (inl VMDIR_ERROR_NO_SUCH_ATTRIBUTE).
Proof. split; vm_compute; reflexivity. Qed.

(** The mark of a replicated value that is there already is the normal form of a
    value with one NUL byte.  An entry with such a value matches the mark, the
    array for the values that are left gets too small, and the values are
    written behind its end. *)
Theorem marked_value_overflows :
  applied true [mod_ex MOD_OP_ADD type_cn [[97]; [99]]]
    (set_attrs [ATTR ATTR_DN (Some 1) [raw [97]] None []; ATTR type_cn (Some 3) [raw [97]; raw [0]] None []] stored_ex) = None ∧
  applied true [mod_ex MOD_OP_ADD type_cn [[97]; [99]]]
    (set_attrs [ATTR ATTR_DN (Some 1) [raw [97]] None []; ATTR type_cn (Some 3) [raw [97]; raw [1]] None []] stored_ex) =
    Some (inr ([(ATTR_DN, [[97]]); (type_cn, [[97]; [1]; [99]])], [(MOD_OP_ADD, type_cn, [[99]])])).
Proof. split; vm_compute; reflexivity. Qed.

(** Members without an entry are taken out of a group by every modify request,
    and no modification says so: their index records stay. *)
Theorem patched_members_stay_indexed :
  applied false [] (set_attrs [ATTR ATTR_DN (Some 1) [raw [97]] None []; ATTR ATTR_MEMBER (Some 4) [raw [120]] None []] stored_ex) =
    Some (inr ([(ATTR_DN, [[97]]); (ATTR_MEMBER, [])], [])).
Proof. vm_compute. reflexivity. Qed.

(** ** The parent of a DN with escaped characters *)

Lemma rdn_scan_plain x y : Forall (λ c, c ≠ 44 ∧ c ≠ 92) x → rdn_scan false (x ++ y) = prod_map (Nat.add (length x)) (λ b : bool, b) (rdn_scan false y).
Proof.
  induction 1 as [|c x [H1 H2] _ IH]; cbn; [by destruct (rdn_scan false y) |]. rewrite (proj2 (Z.eqb_neq c 44)), (proj2 (Z.eqb_neq c 92)) by done. cbn. rewrite IH. by destruct (rdn_scan false y).
Qed.

Lemma rdn_scan_escaped y : Forall (λ c, c ≠ 92) y → (rdn_scan true y).2 = true.
Proof.
  induction 1 as [|c y H _ IH]; [done |]. cbn. rewrite (proj2 (Z.eqb_neq c 92)) by done. by destruct (rdn_scan true y).
Qed.

(** A backslash escapes the one character after it.  The search for the end of
    the first RDN takes everything up to the next backslash as escaped: a DN
    with one backslash is refused, whatever it escapes, and with two the
    second escaped comma ends the RDN. *)
Theorem escaped_rdn_refused x y : Forall (λ c, c ≠ 44 ∧ c ≠ 92) x → Forall (λ c, c ≠ 92) y → _VmDirFindNextRdn (x ++ 92 :: y) = inl VMDIR_ERROR_INVALID_DN.
Proof.
  intros Hx Hy. unfold _VmDirFindNextRdn. rewrite rdn_scan_plain by done. cbn [rdn_scan negb andb Z.eqb Pos.eqb]. pose proof (rdn_scan_escaped y Hy) as H. destruct (rdn_scan true y) as [i b]. cbn in *. by rewrite H.
Qed.

(** [a\,b\,c,d] *)
Example escaped_rdn_wrong : _VmDirFindNextRdn [97; 92; 44; 98; 92; 44; 99; 44; 100] = inr 5%nat.
Proof. reflexivity. Qed.
