(* ===== verification/ModifyIndex.v ===== *)
(** * ModifyIndex: the indices follow a modified entry

    The composition of the two halves of a modify request:
    [VmDirApplyModsToEntryStruct] of the middle layer, as described by
    [EntryFacts], and [VmDirMDBModifyEntry] of the LMDB store.  The records that
    the indices have for an entry are those of its values; after the
    request they are those of the new values, and the records of other entries
    are as before. *)

From S2P Require Import Prelude Heap StringList CString HashMap UtdVector Metadata Effects RaftLog Filter Candidates Search IndexScan EntryCodec IndexUnique IndexWrite EntryModify EntryFacts.

Open Scope Z_scope.

(** ** Order of modifications *)

Section Order.
Context (desc : cstr → Z) (N : Z → list Z → list Z).
Implicit Types (F : gset fact) (m : VDIR_MODIFICATION) (ms : list VDIR_MODIFICATION).

Lemma mset_type m f : f ∈ mset desc N m → f.1 = mtype m.
Proof. unfold mset. rewrite elem_of_list_to_set. by intros [? _]%elem_of_facts. Qed.

(** Modifications of different attributes can be exchanged. *)
Lemma meff_swap F m m' : mtype m ≠ mtype m' → meff desc N (meff desc N F m) m' = meff desc N (meff desc N F m') m.
Proof.
  intros Hne. assert (mset desc N m ## mset desc N m') as Hd by (intros f H1%mset_type H2%mset_type; congruence).
  unfold meff. destruct (modIgnoreType m), (modIgnoreType m'); try done; destruct (operation m), (operation m'); try done; set_solver.
Qed.

Lemma mok_swap F m m' : mtype m ≠ mtype m' → mok desc N (meff desc N F m) m' ↔ mok desc N F m'.
Proof.
  intros Hne. assert (mset desc N m ## mset desc N m') as Hd by (intros f H1%mset_type H2%mset_type; congruence).
  unfold mok, meff. destruct (modIgnoreType m), (modIgnoreType m'); try done; destruct (operation m), (operation m'); try done; set_solver.
Qed.

(** A modification goes behind those of other attributes. *)
Lemma run_ok_move F m ms ms' : Forall (λ m', mtype m ≠ mtype m') ms → run_ok desc N F (m :: ms ++ ms') →
  run_ok desc N F (ms ++ m :: ms') ∧ foldl (meff desc N) F (ms ++ m :: ms') = foldl (meff desc N) F (m :: ms ++ ms').
Proof.
  intros H. revert F. induction H as [|m' ms Hm _ IH]; intros F; [done |]. cbn. intros (H1 & H2 & H3).
  destruct (IH (meff desc N F m')) as [H4 H5].
  - cbn. split; [by apply mok_swap |]. by rewrite meff_swap.
  - split; [split; [by apply (mok_swap F m m' Hm) | exact H4] |]. cbn in H5. by rewrite H5, meff_swap.
Qed.

(** First those of some attributes, then the others. *)
Lemma run_ok_partition (P : VDIR_MODIFICATION → Prop) `{!∀ m, Decision (P m)} F ms :
  (∀ m m', P m → ¬ P m' → mtype m' ≠ mtype m) → run_ok desc N F ms →
  run_ok desc N F (base.filter P ms ++ base.filter (λ m, ¬ P m) ms) ∧
  foldl (meff desc N) F (base.filter P ms ++ base.filter (λ m, ¬ P m) ms) = foldl (meff desc N) F ms.
Proof.
  intros Htypes. revert F. induction ms as [|m ms IH]; intros F; [done |]. cbn [run_ok foldl]. intros [H1 H2]. destruct (IH _ H2) as [H3 H4].
  rewrite !filter_cons. destruct (decide (P m)) as [Hp | Hp].
  - rewrite decide_False by tauto. cbn. by split; [split |].
  - rewrite decide_True by done. destruct (run_ok_move F m (base.filter P ms) (base.filter (λ m, ¬ P m) ms)) as [H5 H6].
    + apply Forall_forall. intros m' [Hp' _]%list_elem_of_filter. by apply Htypes.
    + cbn. by split.
    + split; [exact H5 |]. rewrite H6. exact H4.
Qed.

End Order.

(** ** Records of facts *)

Section Records.
Context {lmdb : Lmdb} {laws : LmdbLaws} (g : be_globals) (ml : ml_schema) {Hcmp : CStringCompare (g_compare g)}.
Context (desc : cstr → Z) (N : Z → list Z → list Z) (Hschema : schema_laws ml desc N).
Context (cm : cstr → option VDIR_INDEX_CFG) (id : Z).
Implicit Types (s : be_state) (F : gset fact) (m : VDIR_MODIFICATION).

(** Every attribute type has an index of its own, whatever the case of its
    name. *)
Record index_laws : Prop := {
  index_case t u : lower t = lower u → cm t = cm u;
  index_names t u c d : cm t = Some c → cm u = Some d → pszAttrName c = pszAttrName d → lower t = lower u
}.
Context (Hindex : index_laws).

Definition frecs (t : cstr) (x : list Z) : list (cstr * (list Z * list Z)) := attr_recs cm id t [BER x (Some x)].
Definition recs_of F (r : cstr * (list Z * list Z)) : Prop := ∃ t x, (lower t, x) ∈ F ∧ r ∈ frecs t x.

Lemma write_cfg_cm t cfg : write_cfg cm t = Some cfg → cm t = Some cfg.
Proof. unfold write_cfg. destruct (cm t) as [c|]; [| done]. cbn. by destruct (istatus c). Qed.

Lemma frecs_case t u x : lower t = lower u → frecs t x = frecs u x.
Proof. intros H. unfold frecs, attr_recs, write_cfg. by rewrite (index_case Hindex t u H). Qed.

Lemma elem_frecs n k v t x : (n, (k, v)) ∈ frecs t x ↔
  ∃ cfg, write_cfg cm t = Some cfg ∧ n = pszAttrName cfg ∧ v = MDBEntryIdToDBT id ∧ ((iTypesEquality cfg = true ∧ k = fwd_key x) ∨ (iTypesSubstr cfg = true ∧ k = rev_key x)).
Proof.
  unfold frecs, attr_recs. destruct (write_cfg cm t) as [cfg|]; [| split; [by intros []%elem_of_nil | by intros (? & ? & _)]]. cbn [fmap list_fmap concat]. rewrite app_nil_r. unfold value_recs. cbn [norm_or_raw bvnorm_val default from_option].
  rewrite elem_of_app. split.
  - intros [H | H]; [destruct (iTypesEquality cfg) eqn:He | destruct (iTypesSubstr cfg) eqn:He]; try (by apply elem_of_nil in H); apply list_elem_of_singleton in H as [= -> -> ->]; exists cfg; by auto 6.
  - intros (c & [= <-] & -> & -> & [[He ->] | [He ->]]); rewrite He; [left | right]; by left.
Qed.

(** A key belongs to one value of one attribute. *)
Lemma frecs_key n k v w t u x y : (n, (k, v)) ∈ frecs t x → (n, (k, w)) ∈ frecs u y → lower t = lower u ∧ x = y ∧ v = w.
Proof.
  intros (c & Hc & Hn & Hv & Hk)%elem_frecs (d & Hd & Hn' & Hw & Hk')%elem_frecs. split; [| split; [| congruence]].
  - apply (index_names Hindex t u c d); [by apply write_cfg_cm | by apply write_cfg_cm | congruence].
  - unfold fwd_key, rev_key in *. destruct Hk as [[_ ->] | [_ ->]], Hk' as [[_ H] | [_ H]]; try (by injection H). injection H as H. apply (f_equal (@rev Z)) in H. by rewrite !rev_involutive in H.
Qed.

Lemma recs_of_key F n k v w t x : recs_of F (n, (k, v)) → (n, (k, w)) ∈ frecs t x → (lower t, x) ∈ F ∧ v = w.
Proof. intros (u & y & Hin & Hr) Hx. destruct (frecs_key _ _ _ _ _ _ _ _ Hr Hx) as (Ht & Hy & Hvw). by rewrite <- Ht, <- Hy. Qed.

Lemma recs_of_difference F F' r : recs_of (F ∖ F') r ↔ recs_of F r ∧ ¬ recs_of F' r.
Proof.
  destruct r as [n [k v]]. split.
  - intros (t & x & [Hin Hno]%elem_of_difference & Hr). split; [by exists t, x |]. intros Hr'. destruct (recs_of_key _ _ _ _ _ _ _ Hr' Hr) as [? _]. done.
  - intros [(t & x & Hin & Hr) Hno]. exists t, x. split; [| done]. apply elem_of_difference. split; [done |]. intros Hin'. apply Hno. by exists t, x.
Qed.

Lemma recs_of_union F F' r : recs_of (F ∪ F') r ↔ recs_of F r ∨ recs_of F' r.
Proof.
  split; [intros (t & x & [? | ?]%elem_of_union & Hr); [left | right]; by exists t, x |].
  intros [(t & x & Hin & Hr) | (t & x & Hin & Hr)]; exists t, x; (split; [apply elem_of_union; tauto | done]).
Qed.

(** The records of the values of a modification. *)
Lemma attr_recs_single t vals r : r ∈ attr_recs cm id t vals ↔ ∃ v, v ∈ vals ∧ r ∈ frecs t (norm_or_raw v).
Proof.
  unfold frecs, attr_recs. destruct (write_cfg cm t) as [cfg|]; [| split; [by intros []%elem_of_nil | by intros (? & _ & []%elem_of_nil)]]. split.
  - intros (l & Hr & Hl)%elem_of_concat. apply list_elem_of_fmap in Hl as (v & -> & Hv). exists v. split; [done |]. cbn [fmap list_fmap concat]. by rewrite app_nil_r.
  - intros (v & Hv & Hr). cbn [fmap list_fmap concat] in Hr. rewrite app_nil_r in Hr. apply list_elem_of_In, in_concat. exists (value_recs cfg id v). rewrite <- !list_elem_of_In. split; [by apply list_elem_of_fmap_2 | done].
Qed.

Lemma mod_recs m r : mod_attr desc N (mattr m) → r ∈ attr_recs cm id (at_type (mattr m)) (at_vals (mattr m)) ↔ recs_of (mset desc N m) r.
Proof.
  intros (_ & _ & Hn & _). rewrite Forall_forall in Hn. rewrite attr_recs_single. unfold recs_of, mset. setoid_rewrite elem_of_list_to_set. split.
  - intros (v & Hv & Hr). exists (at_type (mattr m)), (norm_or_raw v). split; [| done]. apply elem_of_facts. split; [done |]. cbn [snd]. rewrite (normed_norm desc N _ _ (Hn v Hv)). by apply list_elem_of_fmap_2.
  - intros (t & x & [Ht (v & Hx & Hv)%list_elem_of_fmap]%elem_of_facts & Hr). cbn [fst snd] in *. exists v. split; [done |]. rewrite (normed_norm desc N _ _ (Hn v Hv)), <- Hx. by rewrite <- (frecs_case t).
Qed.

(** Different values have different records. *)
Lemma mod_recs_nodup m : mod_attr desc N (mattr m) → NoDup ((λ r : cstr * (list Z * list Z), (r.1, r.2.1)) <$> attr_recs cm id (at_type (mattr m)) (at_vals (mattr m))).
Proof.
  intros (_ & _ & Hn & Hnd & _). unfold attr_recs. destruct (write_cfg cm (at_type (mattr m))) as [cfg|] eqn:Hc; [| constructor]. set (t := at_type (mattr m)) in *.
  assert (NoDup (norm_or_raw <$> at_vals (mattr m))) as Hnd'.
  { erewrite list_fmap_ext; [exact Hnd |]. intros i v Hv. rewrite Forall_lookup in Hn. apply (normed_norm desc N). exact (Hn i v Hv). }
  clear Hn Hnd. induction (at_vals (mattr m)) as [|v vals IH]; [constructor |]. cbn [fmap list_fmap concat] in *. apply NoDup_cons in Hnd' as [Hno Hnd']. rewrite fmap_app. apply NoDup_app. split; [| split; [| by apply IH]].
  - unfold value_recs. destruct (iTypesEquality cfg), (iTypesSubstr cfg); cbn; try (by apply NoDup_singleton); try constructor; [| apply NoDup_singleton]. by intros [= H]%list_elem_of_singleton.
  - intros [n k] ([n1 [k1 v1]] & [= -> ->] & Hr1)%list_elem_of_fmap ([n2 [k2 v2]] & [= <- <-] & Hr2)%list_elem_of_fmap. cbn [fst snd] in *.
    assert ((n1, (k1, v1)) ∈ frecs t (norm_or_raw v)) as H1 by (unfold frecs, attr_recs; rewrite Hc; cbn [fmap list_fmap concat]; by rewrite app_nil_r).
    assert ((n1, (k1, v2)) ∈ attr_recs cm id t vals) as H2 by (unfold attr_recs; by rewrite Hc). apply attr_recs_single in H2 as (w & Hw & H2).
    destruct (frecs_key _ _ _ _ _ _ _ _ H1 H2) as (_ & Heq & _). apply Hno. rewrite Heq. by apply list_elem_of_fmap_2.
Qed.

End Records.

(** ** The backend *)

Section Backend.
Context {lmdb : Lmdb} {laws : LmdbLaws} (g : be_globals) (ml : ml_schema) {Hcmp : CStringCompare (g_compare g)}.
Context (desc : cstr → Z) (N : Z → list Z → list Z) (Hschema : schema_laws ml desc N).
Implicit Types (s : be_state) (F : gset fact) (m : VDIR_MODIFICATION).

(** The state before the request, the entry and its index of metadata. *)
Context (s0 : be_state) (e : VDIR_ENTRY) (F0 : gset fact) (mcfg : VDIR_INDEX_CFG).
Abbreviation cm := (pIndexCfgMap (be_ix s0)).
Abbreviation recs F := (recs_of cm (eId e) F).
Abbreviation mname := (pszAttrName mcfg).
Context (Hindex : index_laws cm).
Context (Hmeta : write_cfg cm ATTR_ATTR_META_DATA = Some mcfg) (Hmt : iTypesEquality mcfg = true ∧ iTypesSubstr mcfg = false ∧ bGlobalUniq mcfg = true).

(** The records that are not of the entry. *)
Definition foreign (n : cstr) (r : list Z * list Z) : Prop := idx s0 n r ∧ ¬ recs F0 (n, r).

(** The indices have the records of the facts, and those that are not of the
    entry. *)
Definition tracks s F : Prop :=
  same_shape s0 s ∧ (∀ n r, n ≠ mname → idx s n r ↔ foreign n r ∨ recs F (n, r)) ∧ ∀ n r, recs F (n, r) → ¬ foreign n r.

(** The keys of an addition: no record of them is left from before, and
    another entry has such a key only in an index that is not unique. *)
Definition keys_free m : Prop :=
  operation m = MOD_OP_ADD → ∀ n k v w, recs (mset desc N m) (n, (k, v)) → foreign n (k, w) →
    w ≠ v ∧ ∀ db, mdbIndexDBs (be_ix s0) n = Some db → dupsort db = true.

(** A DN that is added or deleted has one normal form. *)
Definition one_form m : Prop :=
  is_dn g (at_type (mattr m)) = true →
  ∀ v n, head (at_vals (mattr m)) = Some v → ml_rfc4514 ml (bv_val v) = Some n → c_chars n = c_chars (nform desc N ATTR_DN v).

(** A modification that the indices accept. *)
Definition acceptable m : Prop :=
  mtype m ≠ lower ATTR_ATTR_META_DATA ∧ one_form m ∧ keys_free m ∧ (operation m = MOD_OP_ADD → values_ok g s0 (edn e) (at_type (mattr m)) (at_vals (mattr m))).

Lemma not_meta_name t n r x : lower t ≠ lower ATTR_ATTR_META_DATA → (n, r) ∈ frecs cm (eId e) t x → n ≠ mname.
Proof.
  intros Ht Hr Hn. destruct r as [k v]. apply elem_frecs in Hr as (c & Hc & -> & _). apply Ht. eapply (index_names _ Hindex); [by apply write_cfg_cm | by apply write_cfg_cm | done].
Qed.

Lemma mod_not_meta m n r : mtype m ≠ lower ATTR_ATTR_META_DATA → recs (mset desc N m) (n, r) → n ≠ mname.
Proof. intros Ht (t & x & Hin & Hr). apply mset_type in Hin. eapply not_meta_name; [| exact Hr]. cbn in Hin. by rewrite Hin. Qed.

Lemma add_values_run m s F :
  tracks s F → wf s → mod_attr desc N (mattr m) → operation m = MOD_OP_ADD → acceptable m → mset desc N m ## F →
  ∃ s', MdbUpdateIndicesForAttr g (edn e) (at_type (mattr m)) (at_vals (mattr m)) (eId e) BE_INDEX_OP_TYPE_CREATE s [] = Some (inr tt, s', []) ∧
    same_shape s s' ∧ tracks s' (F ∪ mset desc N m) ∧ ∀ r, idx s' mname r ↔ idx s mname r.
Proof.
  intros (Hsh & Hidx & Hfr) Hwf Hm Hop (Hmt' & _ & Hkeys & Hok) Hdis. specialize (Hok Hop). specialize (Hkeys Hop). pose proof (proj1 Hsh) as Hcm.
  assert (∀ r, r ∈ attr_recs cm (eId e) (at_type (mattr m)) (at_vals (mattr m)) ↔ recs (mset desc N m) r) as Hrecs by (intros r; by apply mod_recs).
  pose proof (mod_recs_nodup desc N cm (eId e) Hindex m Hm) as Hnd.
  destruct (update_attr_adds g (edn e) (at_type (mattr m)) (at_vals (mattr m)) (eId e) s Hwf) as (s' & Hrun & Hsh' & Ha).
  - apply Hm.
  - by eapply values_shape.
  - rewrite Hcm. intros i n k v Hi (db & Hdb & Hdup). apply list_elem_of_lookup_2 in Hi as Hin. apply Hrecs in Hin. split.
    + intros w Hw. apply Hidx in Hw; [| by eapply mod_not_meta]. destruct Hw as [Hw | Hw].
      * destruct (Hkeys _ _ _ _ Hin Hw) as [_ Hd]. destruct Hsh as (_ & _ & _ & Hshape). specialize (Hshape n). rewrite Hdb in Hshape. destruct (mdbIndexDBs (be_ix s0) n) as [db0|] eqn:Hdb0; [| done].
        unfold db_shape in Hshape. cbn in Hshape. injection Hshape as Hs1 _. specialize (Hd db0 eq_refl). congruence.
      * destruct Hin as (t & x & Hin & Hx). destruct (recs_of_key cm (eId e) Hindex _ _ _ _ _ _ _ Hw Hx) as [Hf _]. by apply (Hdis _ Hin).
    + intros j w Hj. eapply (NoDup_lookup _ _ _ (n, k) Hnd); rewrite list_lookup_fmap; [by rewrite Hj | by rewrite Hi].
  - rewrite Hcm in Ha. exists s'. split; [done |]. split; [done |]. split; [split; [by eapply same_shape_trans |]; split |].
    + intros n r Hn. rewrite Ha, Hidx, Hrecs by done. rewrite recs_of_union. tauto.
    + intros n [k v]. rewrite recs_of_union. intros [Hr | Hr]; [by apply Hfr |]. intros Hf. by destruct (Hkeys _ _ _ _ Hr Hf).
    + intros r. rewrite Ha. split; [| by left]. intros [? | Hr]; [done |]. apply Hrecs in Hr. by destruct (mod_not_meta m _ _ Hmt' Hr).
Qed.

Lemma del_values_run m s F :
  tracks s F → wf s → mod_attr desc N (mattr m) → mtype m ≠ lower ATTR_ATTR_META_DATA → mset desc N m ⊆ F →
  ∃ s', MdbUpdateIndicesForAttr g (edn e) (at_type (mattr m)) (at_vals (mattr m)) (eId e) BE_INDEX_OP_TYPE_DELETE s [] = Some (inr tt, s', []) ∧
    same_shape s s' ∧ tracks s' (F ∖ mset desc N m) ∧ ∀ r, idx s' mname r ↔ idx s mname r.
Proof.
  intros (Hsh & Hidx & Hfr) Hwf Hm Hmt' Hsub. pose proof (proj1 Hsh) as Hcm.
  assert (∀ r, r ∈ attr_recs cm (eId e) (at_type (mattr m)) (at_vals (mattr m)) ↔ recs (mset desc N m) r) as Hrecs by (intros r; by apply mod_recs).
  pose proof (mod_recs_nodup desc N cm (eId e) Hindex m Hm) as Hnd. pose proof Hm as (Ht & _ & Hn & _ & Hc).
  assert (∀ r, recs (mset desc N m) r → recs F r) as Hin by (intros r (t & x & Hx & Hr); exists t, x; split; [by apply Hsub | done]).
  destruct (update_attr_removes g (edn e) (at_type (mattr m)) (at_vals (mattr m)) (eId e) s Hwf Ht) as (s' & Hrun & Hsh' & Ha).
  - rewrite Forall_forall in Hn, Hc. apply Forall_forall. intros v Hv. rewrite (normed_norm desc N _ _ (Hn v Hv)). by apply Hc.
  - rewrite Hcm. by eapply NoDup_fmap_1.
  - rewrite Hcm. intros n r Hr. apply Hrecs in Hr. apply Hidx; [by eapply mod_not_meta |]. right. by apply Hin.
  - rewrite Hcm in Ha. exists s'. split; [done |]. split; [done |]. split; [split; [by eapply same_shape_trans |]; split |].
    + intros n r Hnm. rewrite Ha, Hidx, Hrecs by done. rewrite (recs_of_difference cm (eId e) Hindex). split; [tauto |]. intros [Hf | [Hr Hno]]; [| tauto]. split; [by left |]. intros Hr. by apply (Hfr n r); [apply Hin |].
    + intros n r. rewrite (recs_of_difference cm (eId e) Hindex). intros [Hr _]. by apply Hfr.
    + intros r. rewrite Ha. split; [by intros [? _] |]. intros Hi. split; [done |]. intros Hr. apply Hrecs in Hr. by destruct (mod_not_meta m _ _ Hmt' Hr).
Qed.

(** The other form of a DN adds nothing. *)
Lemma rfc_modify_run m s op : mod_attr desc N (mattr m) → one_form m → is_dn g (at_type (mattr m)) = true →
  _VmDirRFC4154DNModifyCompliance g ml e (at_vals (mattr m)) (eId e) op s [] = Some (inr tt, s, []).
Proof.
  intros (_ & _ & Hn & _) Hrfc Hd. specialize (Hrfc Hd). unfold _VmDirRFC4154DNModifyCompliance. destruct (at_vals (mattr m)) as [|v vs]; [done |]. apply Forall_cons in Hn as [Hv _].
  destruct (ml_rfc4514 ml (bv_val v)) as [n|] eqn:Hr; [| done]. rewrite (proj2 (Z.eqb_eq _ _)); [done |]. apply (compare_sensitive (compare := g_compare g)). rewrite Hv. cbn [default from_option].
  rewrite (Hrfc v n eq_refl Hr). unfold is_dn in Hd. apply Z.eqb_eq, (compare_caseless (compare := g_compare g)) in Hd. unfold nform. by rewrite (desc_law ml desc N Hschema _ ATTR_DN Hd).
Qed.

Lemma modify_values_run dn m s F :
  tracks s F → wf s → mready desc N m → acceptable m → mok desc N F m → modIgnoreType m ≠ MOD_IGNORE_ALL → is_dn g (at_type (mattr m)) = dn →
  ∃ s', modify_values g ml dn e m s [] = Some (inr tt, s', []) ∧ same_shape s s' ∧ tracks s' (meff desc N F m) ∧ ∀ r, idx s' mname r ↔ idx s mname r.
Proof.
  intros Ht Hwf (Hm & Hop & _) Hacc Hok Hig Hdn. unfold modify_values, meff, mok in *.
  assert (∀ op s1 s2, MdbUpdateIndicesForAttr g (edn e) (at_type (mattr m)) (at_vals (mattr m)) (eId e) op s1 [] = Some (inr tt, s2, []) →
    (MdbUpdateIndicesForAttr g (edn e) (at_type (mattr m)) (at_vals (mattr m)) (eId e) op ;;;
     (if dn then _VmDirRFC4154DNModifyCompliance g ml e (at_vals (mattr m)) (eId e) op else rret tt)) s1 [] = Some (inr tt, s2, [])) as Hboth.
  { intros op s1 s2 Hrun. unfold rbind. rewrite Hrun. destruct dn; [apply rfc_modify_run; [done | apply Hacc | done] | done]. }
  destruct (modIgnoreType m); [| done | by exists s]. destruct (operation m) eqn:Hopm; [| | done].
  - destruct (add_values_run m s F Ht Hwf Hm Hopm Hacc Hok) as (s' & Hrun & H). exists s'. split; [by apply to_backend_ok, Hboth | exact H].
  - destruct (del_values_run m s F Ht Hwf Hm (proj1 Hacc) Hok) as (s' & Hrun & H). exists s'. split; [by apply to_backend_ok, Hboth | exact H].
Qed.

(** ** Metadata *)

(** What a modification does to the records of the metadata. *)
Definition meta_put (a : attribute) (P : list Z * list Z → Prop) (r : list Z * list Z) : Prop :=
  match at_pMetaData a ≫= pszOrigInvoId, at_id a, VmDirMetaDataSerialize (at_pMetaData a) with
  | Some _, Some aid, (_, Some x) => r = (meta_key (eId e) aid, to_bytes x) ∨ (P r ∧ r.1 ≠ meta_key (eId e) aid)
  | _, _, _ => P r
  end.

Definition meta_step (P : list Z * list Z → Prop) m : list Z * list Z → Prop :=
  if bool_decide (modIgnoreType m = MOD_IGNORE_ALL) then P else meta_put (mattr m) P.

Lemma meta_step_iff m (P Q : list Z * list Z → Prop) : (∀ r, P r ↔ Q r) → ∀ r, meta_step P m r ↔ meta_step Q m r.
Proof.
  intros H r. unfold meta_step. destruct (bool_decide _); [apply H |]. unfold meta_put. destruct (_ ≫= _); [| apply H]. destruct (at_id (mattr m)); [| apply H].
  destruct (VmDirMetaDataSerialize _) as [? [x|]]; [| apply H]. by rewrite H.
Qed.

Lemma metas_iff ms (P Q : list Z * list Z → Prop) : (∀ r, P r ↔ Q r) → ∀ r, foldl meta_step P ms r ↔ foldl meta_step Q ms r.
Proof. revert P Q. induction ms as [|m ms IH]; intros P Q H r; cbn; [apply H |]. apply IH. by apply meta_step_iff. Qed.

Lemma meta_put_run a s F :
  tracks s F → wf s → meta_fine a → is_Some (at_id a) →
  ∃ s', MdbUpdateAttrMetaData a (eId e) BE_INDEX_OP_TYPE_UPDATE s [] = Some (inr tt, s', []) ∧ same_shape s s' ∧ tracks s' F ∧
    ∀ r, idx s' mname r ↔ meta_put a (idx s mname) r.
Proof.
  intros (Hsh & Hidx & Hfr) Hwf [_ Hfine] [aid Haid]. unfold MdbUpdateAttrMetaData, meta_put. rewrite bool_decide_eq_true_2 by done. cbn [andb].
  destruct (at_pMetaData a ≫= pszOrigInvoId) as [o|] eqn:Ho.
  2: { rewrite bool_decide_eq_true_2 by done. exists s. done. }
  rewrite bool_decide_eq_false_2 by done. destruct Hfine as [? | [x Hx]]; [done |]. rewrite Haid, Hx. destruct Hmt as (He & Hs & Hu). pose proof (proj1 Hsh) as Hcm.
  destruct (write_cfg_open s ATTR_ATTR_META_DATA mcfg Hwf) as (db & Hdb & Hdup); [by rewrite Hcm |]. rewrite Hu in Hdup.
  pose proof (mdb_put_law false db (meta_key (eId e) aid) (to_bytes x)) as Hlaw. destruct (mdb_put false db (meta_key (eId e) aid) (to_bytes x)) as [db'|] eqn:Hput; [| by destruct Hlaw].
  destruct Hlaw as (Hle & Hd & _ & Hr). destruct (set_index_effect s mname db db' Hdb Hd Hle) as [Hsh' Hi]. exists (set_index mname db' s). split; [| split; [done | split]].
  - unfold rbind at 1, rget. unfold rbind at 1. rewrite acquire_write by done. rewrite Hcm, Hmeta. unfold VmDirMDBIndexGetDBi. rewrite Hdb. unfold rbind at 1, rret at 1. rewrite He, Hs, Hu. cbn [andb negb].
    unfold MdbUpdateKeyValue. rewrite run_backend. unfold get_index, rbind, rget, rlift. rewrite Hdb. rewrite (bool_decide_eq_false_2 (BE_INDEX_OP_TYPE_UPDATE = BE_INDEX_OP_TYPE_CREATE)) by done. cbn [andb]. by rewrite Hput.
  - split; [by eapply same_shape_trans |]. split; [| done]. intros n r Hn. rewrite Hi, bool_decide_eq_false_2 by done. by apply Hidx.
  - intros r. rewrite Hi, bool_decide_eq_true_2 by done. rewrite Hr. unfold idx. split.
    + intros [? | [Hin Hk]]; [by left | right]. split; [by exists db | by apply Hk].
    + intros [? | [(d & Hd' & Hin) Hk]]; [by left | right]. assert (d = db) as -> by congruence. by split.
Qed.

(** ** The loops *)

Definition in_loop (dn : bool) m : Prop := is_dn g (at_type (mattr m)) = dn.

#[local] Instance in_loop_dec dn m : Decision (in_loop dn m) := decide (is_dn g (at_type (mattr m)) = dn).

Lemma modify_step_run dn m s F :
  tracks s F → wf s → mready desc N m → acceptable m → in_loop dn m → mok desc N F m →
  ∃ s', modify_step g ml dn e m s [] = Some (inr tt, s', []) ∧ same_shape s s' ∧ tracks s' (meff desc N F m) ∧ ∀ r, idx s' mname r ↔ meta_step (idx s mname) m r.
Proof.
  intros Ht Hwf Hm Hacc Hdn Hok. pose proof Hm as ((_ & Hid & _) & _ & Hfine & Hvd). unfold modify_step, meta_step. case_bool_decide as Hig.
  - exists s. split; [done |]. split; [done |]. split; [| done]. unfold meff. by rewrite Hig.
  - unfold in_loop in Hdn. rewrite Hdn, eqb_reflx. destruct (modify_values_run dn m s F Ht Hwf Hm Hacc Hok Hig Hdn) as (s1 & Hrun1 & Hsh1 & Ht1 & Hme1).
    destruct (meta_put_run (mattr m) s1 _ Ht1 (wf_shape _ _ Hwf Hsh1) Hfine) as (s2 & Hrun2 & Hsh2 & Ht2 & Hme2); [by rewrite Hid |].
    exists s2. split; [| split; [by eapply same_shape_trans | split; [done |]]].
    + unfold rbind at 1 2. rewrite Hrun1, (to_backend_ok _ _ _ _ _ _ _ Hrun2). rewrite (proj1 Hfine), Hvd. by destruct dn.
    + intros r. rewrite Hme2. pose proof (meta_step_iff m (idx s1 mname) (idx s mname) Hme1 r) as H. unfold meta_step in H. by rewrite bool_decide_eq_false_2 in H by done.
Qed.

Lemma modify_skip dn m s : mready desc N m → ¬ in_loop dn m → modify_step g ml dn e m s [] = Some (inr tt, s, []).
Proof.
  intros (_ & _ & Hfine & Hvd) Hdn. unfold modify_step, in_loop in *. destruct (bool_decide _); [done |]. rewrite (proj2 (eqb_false_iff _ _)) by done. unfold rbind, rret. rewrite (proj1 Hfine), Hvd. by destruct dn.
Qed.

Lemma modify_loop_run dn ms s F :
  tracks s F → wf s → Forall (mready desc N) ms → Forall acceptable ms → run_ok desc N F (base.filter (in_loop dn) ms) →
  ∃ s', modify_loop g ml dn e ms s [] = Some (inr tt, s', []) ∧ same_shape s s' ∧ tracks s' (foldl (meff desc N) F (base.filter (in_loop dn) ms)) ∧
    ∀ r, idx s' mname r ↔ foldl meta_step (idx s mname) (base.filter (in_loop dn) ms) r.
Proof.
  intros Ht Hwf Hms. revert s F Ht Hwf. induction Hms as [|m ms Hm _ IH]; intros s F Ht Hwf Hacc Hok; [by exists s |]. apply Forall_cons in Hacc as [Ha Hacc]. cbn [modify_loop].
  rewrite filter_cons in Hok |- *. destruct (decide (in_loop dn m)) as [Hdn | Hdn].
  - destruct Hok as [Hok1 Hok2]. destruct (modify_step_run dn m s F Ht Hwf Hm Ha Hdn Hok1) as (s1 & Hrun1 & Hsh1 & Ht1 & Hme1).
    destruct (IH s1 _ Ht1 (wf_shape _ _ Hwf Hsh1) Hacc Hok2) as (s2 & Hrun2 & Hsh2 & Ht2 & Hme2). exists s2. split; [unfold rbind; by rewrite Hrun1 |]. split; [by eapply same_shape_trans |]. split; [done |].
    intros r. rewrite Hme2. cbn [foldl]. by apply metas_iff.
  - destruct (IH s F Ht Hwf Hacc Hok) as (s2 & Hrun2 & H). exists s2. split; [| exact H]. unfold rbind. by rewrite modify_skip.
Qed.

(** The order in which the modifications are done. *)
Definition ordered ms : list VDIR_MODIFICATION := base.filter (in_loop true) ms ++ base.filter (in_loop false) ms.

Lemma ordered_run F ms : run_ok desc N F ms → run_ok desc N F (ordered ms) ∧ foldl (meff desc N) F (ordered ms) = foldl (meff desc N) F ms.
Proof.
  intros Hok. unfold ordered. rewrite (list_filter_iff (in_loop false) (λ m, ¬ in_loop true m)) by (intros m; unfold in_loop; destruct (is_dn g (at_type (mattr m))); naive_solver).
  apply run_ok_partition; [| done]. intros m m' H1 H2 Heq. apply H2. unfold in_loop, is_dn in *. apply Z.eqb_eq in H1. apply Z.eqb_eq. apply (compare_caseless (compare := g_compare g)) in H1.
  apply (compare_caseless (compare := g_compare g)). unfold mtype, ltype, lower in Heq. congruence.
Qed.

(** The bytes of the entry. *)
Lemma update_eid_run b s : dupsort (be_entries s) = false →
  ∃ db, MdbCreateEIDIndex (eId e) b false s [] = Some (inr tt, set_entries db s, []) ∧ dupsort db = false ∧
    ∀ r, r ∈ records db ↔ r = (MDBEntryIdToDBT (eId e), b) ∨ (r ∈ records (be_entries s) ∧ r.1 ≠ MDBEntryIdToDBT (eId e)).
Proof.
  intros Hd. unfold MdbCreateEIDIndex. rewrite run_backend. unfold rbind, rget. pose proof (mdb_put_law false (be_entries s) (MDBEntryIdToDBT (eId e)) b) as Hlaw.
  destruct (mdb_put false (be_entries s) (MDBEntryIdToDBT (eId e)) b) as [db|]; [| by destruct Hlaw]. destruct Hlaw as (_ & Hdup & _ & Hr). exists db. split; [done |]. split; [congruence |].
  intros r. rewrite Hr. naive_solver.
Qed.

(** The loops and the bytes of the entry. *)
Lemma modify_core_run ms b :
  (∀ r, recs F0 r ∨ ¬ recs F0 r) → wf s0 → (∀ n r, recs F0 (n, r) → idx s0 n r) → Forall (mready desc N) ms → Forall acceptable ms → run_ok desc N F0 ms →
  ∃ s1 s2 s', modify_loop g ml true e ms s0 [] = Some (inr tt, s1, []) ∧ modify_loop g ml false e ms s1 [] = Some (inr tt, s2, []) ∧
    MdbCreateEIDIndex (eId e) b false s2 [] = Some (inr tt, s', []) ∧ wf s' ∧ pIndexCfgMap (be_ix s') = cm ∧
    (∀ n r, n ≠ mname → idx s' n r ↔ foreign n r ∨ recs (foldl (meff desc N) F0 ms) (n, r)) ∧
    (∀ r, idx s' mname r ↔ foldl meta_step (idx s0 mname) (ordered ms) r) ∧
    (∀ r, r ∈ records (be_entries s') ↔ r = (MDBEntryIdToDBT (eId e), b) ∨ (r ∈ records (be_entries s0) ∧ r.1 ≠ MDBEntryIdToDBT (eId e))).
Proof.
  intros Hdec Hwf Hin Hms Hacc Hok. destruct (ordered_run F0 ms Hok) as [Hok' HF]. unfold ordered in Hok', HF. apply run_ok_app in Hok' as [Hok1 Hok2]. rewrite foldl_app in HF.
  assert (tracks s0 F0) as Ht0.
  { split; [done |]. split; [| by intros n r Hr [_ ?]]. intros n r _. unfold foreign. destruct (Hdec (n, r)); naive_solver. }
  destruct (modify_loop_run true ms s0 F0 Ht0 Hwf Hms Hacc Hok1) as (s1 & Hrun1 & Hsh1 & Ht1 & Hme1). pose proof (wf_shape _ _ Hwf Hsh1) as Hwf1.
  destruct (modify_loop_run false ms s1 _ Ht1 Hwf1 Hms Hacc Hok2) as (s2 & Hrun2 & Hsh2 & Ht2 & Hme2). pose proof (wf_shape _ _ Hwf1 Hsh2) as Hwf2. rewrite HF in Ht2.
  destruct (update_eid_run b s2 (proj2 Hwf2)) as (db & Hrun3 & Hdup & Hr). exists s1, s2, (set_entries db s2). do 3 (split; [done |]). split; [| split; [| split; [| split]]].
  - split; [exact (proj1 Hwf2) | exact Hdup].
  - exact (proj1 (proj1 Ht2)).
  - exact (proj1 (proj2 Ht2)).
  - intros r. change (idx (set_entries db s2) mname r) with (idx s2 mname r). rewrite Hme2. unfold ordered. rewrite foldl_app. by apply metas_iff.
  - intros r. cbn. rewrite Hr. destruct Ht2 as ((_ & -> & _) & _). done.
Qed.

End Backend.

(** ** A whole request *)

Section Request.
Context {lmdb : Lmdb} {laws : LmdbLaws} (g : be_globals) (ml : ml_schema) {Hcmp : CStringCompare (g_compare g)}.
Context (desc : cstr → Z) (N : Z → list Z → list Z).

(** The records of the values of an entry. *)
Definition value_index (cm : cstr → option VDIR_INDEX_CFG) (e : VDIR_ENTRY) : list (cstr * (list Z * list Z)) :=
  concat ((λ a, concat (frecs cm (eId e) (at_type a) <$> (nform desc N (at_type a) <$> at_vals a))) <$> eattrs e).

Lemma value_index_facts cm e r : index_laws cm → recs_of cm (eId e) (fset desc N (eattrs e)) r ↔ r ∈ value_index cm e.
Proof.
  intros Hix. unfold value_index, recs_of. split.
  - intros (t & x & (a & Ha & [Ht (v & Hx & Hv)%list_elem_of_fmap]%elem_of_facts)%elem_of_fset & Hr). cbn [fst snd] in *. rewrite (frecs_case _ _ Hix t (at_type a)) in Hr by exact Ht.
    apply list_elem_of_In, in_concat. eexists. rewrite <- !list_elem_of_In. split; [by apply (list_elem_of_fmap_2 (λ a, concat (frecs cm (eId e) (at_type a) <$> (nform desc N (at_type a) <$> at_vals a)))) |].
    apply list_elem_of_In, in_concat. exists (frecs cm (eId e) (at_type a) x). rewrite <- !list_elem_of_In. split; [| done]. apply list_elem_of_fmap_2. rewrite Hx. by apply list_elem_of_fmap_2.
  - intros (l & Hr & Hl)%elem_of_concat. apply list_elem_of_fmap in Hl as (a & -> & Ha). apply elem_of_concat in Hr as (l & Hr & Hl). apply list_elem_of_fmap in Hl as (x & -> & Hx).
    exists (at_type a), x. split; [| done]. apply elem_of_fset. exists a. split; [done |]. by apply elem_of_facts.
Qed.

(** The records of the old and of the new parent, when the entry moves: both
    parents have ids, and the entry is not below itself. *)
Definition moved s (e : VDIR_ENTRY) (gone come : list (cstr * (list Z * list Z))) : Prop :=
  let cm := pIndexCfgMap (be_ix s) in
  match moves e with
  | None => gone = [] ∧ come = []
  | Some p => ∃ pid pid', gone = parent_recs cm pid (eId e) ∧ come = parent_recs cm pid' (eId e) ∧ parent_ready s ∧
      has_id s (epdn e) pid ∧ has_id s p pid' ∧ pid' ≠ eId e ∧ 0 <= eId e < 2 ^ 32 ∧ ∀ n r, (n, r) ∈ gone → idx s n r
  end.

(** What a modification needs of the indices still holds with fewer records. *)
Lemma acceptable_fewer s s1 e F m : same_shape s s1 → (∀ n r, idx s1 n r → idx s n r) → acceptable g ml desc N s e F m → acceptable g ml desc N s1 e F m.
Proof.
  intros Hsh Hsub (H1 & H2 & H3 & H4). pose proof Hsh as (Hcm & _ & _ & Hshape). split; [done |]. split; [done |]. split.
  - intros Hop n k v w Hr [Hi Hno]. rewrite Hcm in Hr, Hno. destruct (H3 Hop n k v w Hr) as [Hne Hd]; [by split; [apply Hsub |] |]. split; [done |].
    intros db Hdb. specialize (Hshape n). rewrite Hdb in Hshape. destruct (mdbIndexDBs (be_ix s) n) as [db0|] eqn:Hdb0; [| done]. injection Hshape as -> _. by apply Hd.
  - intros Hop. eapply values_shape; [exact Hsh | by apply H4].
Qed.

(** A record of another index than that of the parents. *)
Lemma not_parent_rec (cm : cstr → option VDIR_INDEX_CFG) t cfg pid id r :
  index_laws cm → cm t = Some cfg → lower t ≠ lower ATTR_PARENT_ID → (pszAttrName cfg, r) ∉ parent_recs cm pid id.
Proof.
  intros Hix Hc Ht Hin. unfold parent_recs in Hin. destruct (write_cfg cm ATTR_PARENT_ID) as [pc|] eqn:Hpc; [| by apply elem_of_nil in Hin].
  apply list_elem_of_singleton in Hin as [= Hn _]. apply Ht. eapply (index_names _ Hix); [exact Hc | by apply write_cfg_cm | done].
Qed.

(** The parent is taken out of its index before the modifications. *)
Lemma leave_parent s e F gone come :
  wf s → index_laws (pIndexCfgMap (be_ix s)) → moved s e gone come → (∀ n r, recs_of (pIndexCfgMap (be_ix s)) (eId e) F (n, r) → idx s n r) →
  (∀ f, f ∈ F → f.1 ≠ lower ATTR_PARENT_ID) →
  ∃ s1, (match moves e with Some _ => MDBDeleteParentIdIndex (epdn e) (eId e) | None => rret tt end) s [] = Some (inr tt, s1, []) ∧
    removes s s1 gone ∧ ∀ n r, recs_of (pIndexCfgMap (be_ix s)) (eId e) F (n, r) → idx s1 n r.
Proof.
  intros Hwf Hix Hmv Hin Hno. unfold moved in Hmv. destruct (moves e) as [p|].
  - destruct Hmv as (pid & pid' & -> & _ & Hpr & Hid & _ & _ & _ & Hgone). destruct (parent_removes s (epdn e) pid (eId e) Hwf Hpr Hid Hgone) as (s1 & Hrun & Ha).
    exists s1. split; [done |]. split; [done |]. intros n r Hr. apply Ha. split; [by apply Hin |]. destruct r as [k v]. destruct Hr as (t & x & Hf & (cfg & Hc & -> & _)%elem_frecs).
    apply (not_parent_rec _ t); [done | by apply write_cfg_cm | exact (Hno _ Hf)].
  - destruct Hmv as [-> _]. exists s. split; [done |]. split; [apply removes_refl | done].
Qed.

(** A parent keeps its id while the entry is modified. *)
Lemma has_id_kept s s' e F p pid :
  pIndexCfgMap (be_ix s') = pIndexCfgMap (be_ix s) →
  (∀ cfg r, pIndexCfgMap (be_ix s) ATTR_DN = Some cfg → idx s (pszAttrName cfg) r →
     ¬ recs_of (pIndexCfgMap (be_ix s)) (eId e) F (pszAttrName cfg, r) → idx s' (pszAttrName cfg) r) →
  has_id s p pid → pid ≠ eId e → 0 <= eId e < 2 ^ 32 → has_id s' p pid.
Proof.
  intros Hcm Hkeep [? | (Hne & cfg & v & Hcfg & Hst & Hu & Hin & ->)] Hpid Hrange; [by left |]. right. split; [done |]. exists cfg, v. rewrite Hcm.
  do 3 (split; [done |]). split; [| done]. apply Hkeep; [done | done |]. intros (t & x & _ & (c & _ & _ & -> & _)%elem_frecs). apply Hpid.
  rewrite entry_id_bytes. by apply Z.mod_small.
Qed.

(** The parent is put into its index behind the modifications. *)
Lemma enter_parent s s' e F gone come mcfg :
  let cm := pIndexCfgMap (be_ix s) in
  index_laws cm → wf s' → pIndexCfgMap (be_ix s') = cm → write_cfg cm ATTR_ATTR_META_DATA = Some mcfg → moved s e gone come →
  (∀ n r, n ≠ pszAttrName mcfg → idx s n r → (n, r) ∉ gone → ¬ recs_of cm (eId e) F (n, r) → idx s' n r) →
  ∃ s2, (match moves e with
         | Some p => to_backend (Some VMDIR_ERROR_BACKEND_ENTRY_NOTFOUND) ERROR_BACKEND_PARENT_NOTFOUND (MDBCreateParentIdIndex p (eId e))
         | None => rret tt
         end) s' [] = Some (inr tt, s2, []) ∧ adds s' s2 come ∧ ∀ r, (pszAttrName mcfg, r) ∉ come ∧ (pszAttrName mcfg, r) ∉ gone.
Proof.
  intros cm Hix Hwf Hcm Hmc Hmv Hkeep. unfold moved in Hmv. fold cm in Hmv. destruct (moves e) as [p|].
  - destruct Hmv as (pid & pid' & -> & -> & Hpr & _ & Hid & Hne & Hrange & _).
    destruct (parent_adds s' p pid' (eId e) Hwf) as (s2 & Hrun & Ha).
    + unfold parent_ready. by rewrite Hcm.
    + apply (has_id_kept s s' e F p pid'); [done | | done | done | done]. intros cfg r Hcfg Hi Hno. apply Hkeep; [| done | | done].
      * intros Hn. assert (lower ATTR_DN = lower ATTR_ATTR_META_DATA) as Hx by (eapply (index_names _ Hix); [exact Hcfg | by apply write_cfg_cm | done]). by vm_compute in Hx.
      * by apply (not_parent_rec _ ATTR_DN).
    + rewrite Hcm in Ha. exists s2. split; [by apply to_backend_ok |]. split; [done |]. intros r. split; (apply (not_parent_rec _ ATTR_ATTR_META_DATA); [done | by apply write_cfg_cm | by vm_compute]).
  - destruct Hmv as [-> ->]. exists s'. split; [done |]. split; [apply adds_refl |]. intros r. split; apply not_elem_of_nil.
Qed.


End Request.

(** ** An example *)

(** Indices for [entryDN] (unique), [cn] and the metadata, with the records of
    the entry [stored_ex]. *)
Definition modify_cfgs (t : cstr) : option VDIR_INDEX_CFG :=
  if bool_decide (lower t = lower ATTR_DN) then Some (cfg_ex ATTR_DN true true)
  else if bool_decide (lower t = lower type_cn) then Some (cfg_ex type_cn true false)
  else if bool_decide (lower t = lower ATTR_ATTR_META_DATA) then Some (cfg_ex ATTR_ATTR_META_DATA false true) else None.

Definition id_ex : list Z := MDBEntryIdToDBT 100.

Definition modify_dbs (t : cstr) : option table :=
  if bool_decide (t = ATTR_DN) then Some (UniqueTable false {[fwd_key [97] := id_ex; rev_key [97] := id_ex]})
  else if bool_decide (t = type_cn) then Some (DupTable false {[(fwd_key [97], id_ex); (rev_key [97], id_ex); (fwd_key [98], id_ex); (rev_key [98], id_ex)]})
  else if bool_decide (t = ATTR_ATTR_META_DATA) then Some (UniqueTable false ∅) else None.

Definition modify_state : be_state (lmdb := table_lmdb) :=
  BE (lmdb := table_lmdb) (INDEX_ENV (lmdb := table_lmdb) modify_cfgs modify_dbs) (UniqueTable false ∅) 101 (COMMITTED (lmdb := table_lmdb) modify_dbs (UniqueTable false ∅)).

Lemma modify_index_laws : index_laws modify_cfgs.
Proof.
  split; [intros t u H; unfold modify_cfgs; by rewrite H |]. intros t u c d. unfold modify_cfgs. repeat case_bool_decide; intros Hc Hd Hn; simplify_eq; try congruence; discriminate Hn.
Qed.

Lemma modify_state_wf : wf (laws := table_laws) modify_state.
Proof.
  split; [| done]. intros t cfg H. cbn in H. unfold modify_cfgs in H. repeat (destruct (bool_decide _); [injection H as <-; eexists; split; reflexivity |]). done.
Qed.

(** The records of the tables. *)
Lemma modify_idx n r : idx (laws := table_laws) modify_state n r ↔ ∃ db, modify_dbs n = Some db ∧ r ∈ table_list db.
Proof. unfold idx. cbn. split; intros (db & Hdb & Hin); exists db; (split; [done |]); by apply (table_elem_records db r). Qed.

Definition in_tables (x : cstr * (list Z * list Z)) : Prop := match modify_dbs x.1 with Some t => x.2 ∈ table_list t | None => False end.
#[local] Instance in_tables_dec x : Decision (in_tables x).
Proof. unfold in_tables. destruct (modify_dbs x.1); apply _. Defined.

Lemma stored_indexed n r : (n, r) ∈ value_index desc_ex normal_ex modify_cfgs stored_ex → idx (laws := table_laws) modify_state n r.
Proof.
  intros Hin. assert (Forall in_tables (value_index desc_ex normal_ex modify_cfgs stored_ex)) as H by (apply (bool_decide_unpack _); vm_compute; exact I).
  rewrite Forall_forall in H. specialize (H _ Hin). unfold in_tables in H. cbn [fst snd] in H. apply modify_idx. destruct (modify_dbs n) as [t|]; [by exists t | done].
Qed.

(** All of them are of the entry. *)
Lemma stored_all n r : idx (laws := table_laws) modify_state n r → (n, r) ∈ value_index desc_ex normal_ex modify_cfgs stored_ex.
Proof.
  intros (db & Hdb & Hin)%modify_idx. assert (∀ n db, modify_dbs n = Some db → Forall (λ r, (n, r) ∈ value_index desc_ex normal_ex modify_cfgs stored_ex) (table_list db)) as H.
  { clear. intros n db H. unfold modify_dbs in H. repeat (case_bool_decide; [subst n; injection H as <-; apply (bool_decide_unpack _); vm_compute; exact I |]). done. }
  specialize (H n db Hdb). rewrite Forall_forall in H. by apply H.
Qed.

(** What the request makes of the entry, and of itself. *)
Definition modified_ex : VDIR_ENTRY :=
  set_attrs [ATTR ATTR_DN (Some 1) [raw [97]] None []; ATTR type_cn (Some 3) [norm_ex [98]; norm_ex [67]] None []; ATTR ATTR_OBJECT_CLASS (Some 2) [norm_ex [120]; norm_ex [121]] None []] stored_ex.
Definition final_mods : list VDIR_MODIFICATION :=
  [mod_ex MOD_OP_ADD ["C"; "N"]%char [[67]]; mod_ex MOD_OP_DELETE type_cn [[97]];
   set_mattr (ATTR ATTR_OBJECT_CLASS (Some 2) [norm_ex [116]] None []) (mod_ex MOD_OP_DELETE ATTR_OBJECT_CLASS []); mod_ex MOD_OP_ADD ATTR_OBJECT_CLASS [[120]; [121]]].

Lemma apply_request_ex {lmdb : Lmdb} (s : be_state) :
  VmDirApplyModsToEntryStruct globals_ex schema_norm false request_ex stored_ex s [] = Some (inr (modified_ex, false, final_mods), s, []).
Proof. vm_compute. reflexivity. Qed.

Lemma encode_modified {St} (s : St) : ∃ b, VmDirEncodeEntry simple_compare (stored_attrs modified_ex) true s [] = Some (inr b, s, []).
Proof. eexists. vm_compute. reflexivity. Qed.

(** No member is dead. *)
Lemma stored_live : live (lmdb := table_lmdb) globals_ex modify_state (fset desc_ex normal_ex (eattrs stored_ex)) = fset desc_ex normal_ex (eattrs stored_ex).
Proof.
  apply set_eq. intros f. unfold live. rewrite elem_of_filter. split; [tauto |]. intros Hf. split; [| done]. intros Hm. exfalso.
  apply elem_of_fset in Hf as (a & Ha & [Ht _]%elem_of_facts). assert (Forall (λ a, ltype a ≠ lower ATTR_MEMBER) (eattrs stored_ex)) as H by (apply (bool_decide_unpack _); vm_compute; exact I).
  rewrite Forall_forall in H. apply (H a Ha). congruence.
Qed.

Abbreviation live_ex := (live (lmdb := table_lmdb) globals_ex modify_state (fset desc_ex normal_ex (eattrs stored_ex))).

Lemma final_mods_ok : Forall (acceptable (lmdb := table_lmdb) (laws := table_laws) globals_ex schema_norm desc_ex normal_ex modify_state modified_ex live_ex) final_mods.
Proof.
  assert (∀ m, mtype m ≠ lower ATTR_ATTR_META_DATA → Forall (λ v, c_chars (norm_or_raw v) ≠ []) (at_vals (mattr m)) →
    acceptable (lmdb := table_lmdb) (laws := table_laws) globals_ex schema_norm desc_ex normal_ex modify_state modified_ex live_ex m) as H.
  { intros m H1 H2. split; [done |]. split; [intros _ v n _ [= <-]; reflexivity |]. split.
    - intros _ n k v w _ [Hidx Hno]. destruct Hno. rewrite stored_live. apply (value_index_facts desc_ex normal_ex modify_cfgs stored_ex); [exact modify_index_laws |]. by apply stored_all.
    - intros _ cfg Hcfg. apply Forall_forall. intros v Hv. rewrite Forall_forall in H2. unfold accepted, validate, MdbValidateAttrUniqueness. rewrite bool_decide_eq_false_2 by by apply H2. rewrite run_backend.
      assert (no_scopes cfg = true) as ->; [| done]. unfold write_cfg in Hcfg. cbn in Hcfg. unfold modify_cfgs in Hcfg. repeat (destruct (bool_decide _); [by injection Hcfg as <- |]). done. }
  repeat (apply Forall_cons; split); [| | | | constructor]; apply H; try (apply (bool_decide_unpack _); vm_compute; exact I).
Qed.

